(* ===== verification/_CoqProject ===== *)
-Q . S2P
Prelude.v
LibBase.v
Packet.v
AdbIo.v
FdEvent.v
Transport.v
World.v
SmartText.v
Sockets.v
SocketInv.v
SocketClose.v
SocketIo.v
SocketCreate.v
SocketFlow.v
SocketStream.v
SocketProps.v
SocketSpec.v
AdbUtils.v
ShellProtocol.v
Listeners.v
ListenerInv.v
TransportOps.v
Registration.v
Requests.v
Jdwp.v
Services.v
Connection.v
TransportIo.v
ConnectionInv.v
Demo.v
ConnectionFlow.v
PacketFlow.v
ConnectionProps.v
TransportWire.v
Handshake.v
ShellService.v
ShellStreams.v
ShellPass.v
ShellLoop.v
ShellProps.v
FileSync.v
SyncService.v
SyncEnv.v
AdbClient.v
SyncClient.v
SyncCommands.v
SyncDemo.v
SyncSend.v
SyncCopy.v
SyncList.v
Terminal.v
LinePrinter.v
ShellClient.v
Bugreport.v
ClientCommands.v
Commandline.v
ClientStreams.v
ClientDump.v
ClientDemo.v
ClientRequests.v
ShellSession.v
UsbLinux.v
UsbScan.v
UsbTurn.v
UsbLib.v
UsbLibProps.v
UsbWin.v
AuthKeys.v
AuthKeysProps.v
DaemonUsb.v
ServiceThreads.v
Startup.v
WinConsole.v
WinText.v
WinFds.v
WinFdsProps.v
WinLaunch.v
UsbOsx.v
Posix.v
Mdns.v
