(* ===== verification/Prelude.v ===== *)
(** * A verification development for adb

    adb is three programs built from one source tree: a client run from the
    command line, a server on the host that knows the devices, and a daemon
    ([adbd]) on each device.  Server and daemon share most of their code, which
    is the main part of what is modelled here; [ADB_HOST] (class [World.Build]) chooses between
    them where the code has an [#if].

    ** The program

    Everything that matters runs on one thread, around the event loop of
    fdevent.cpp.  A _transport_ is a connection to a peer (USB or TCP); two
    threads move its packets between the wire and a socket pair the loop
    watches.  A packet that arrives goes to [handle_packet] (adb.cpp), which
    authenticates the peer, takes the connection online and offline, and hands
    OPEN, OKAY, WRTE and CLSE to the _sockets_ (sockets.cpp).  A socket is an
    object with a peer and four function pointers ([enqueue], [ready],
    [shutdown], [close]): a local socket has a descriptor, a remote socket stands
    for one on the other side, a smart socket reads the first request of a
    client.  Requests are answered by adb.cpp itself or by a service
    (services.cpp).  Listeners (adb_listeners.cpp) forward ports.  On a device,
    the processes that can be debugged report to jdwp_service.cpp.

    Two services do more than pass bytes.  [shell:] starts a process, and a
    thread of shell_service.cpp carries its three streams over one descriptor,
    in the packets of the shell protocol, to the client, whose own two threads
    (commandline.cpp) show what arrives and send what is typed.  The other is
    [sync:].  The client of
    file_sync_client.cpp sends a command of eight bytes and a path, and the
    thread of file_sync_service.cpp answers until [ID_QUIT]: pushing and pulling
    files, listing directories, lstat.  Each side is a program over its own
    descriptors and its own files; adb_client.cpp connects the two through the
    server, and starts one when there is none.  commandline.cpp decides from the
    arguments and the environment what to ask of whom.

    Transports come from somewhere.  A thread of the server looks for USB
    devices, on Linux, on a Mac, on Windows or through libusb; what it finds was
    announced by the daemon (daemon/usb.cpp).  Others come from the network:
    emulators, [adb connect], mdns.  The server has a ring of keys
    (adb_auth_host.cpp), which follows the directories the keys are in.  The
    daemon starts as root and gives most of that up (daemon/main.cpp).  On
    Windows, sysdeps_win32.cpp makes of handles, UTF-16 and console events what
    the rest of the code expects of Unix.

    ** The model

    The state of the process is the record [World.world]: objects live in maps
    from addresses, a pointer is an address, and a use of a freed object is a
    [Crash].  Functions are written in the monad [Prelude.M]: an outcome is
    [Done], [Exit], [Fatal] (LOG(FATAL), CHECK, abort), [Crash] (undefined behaviour) or
    [NoFuel].  System calls are operations of classes over a state [E]:
    [AdbIo.FdOps] and [World.Kernel] (read, write, the pipes to the threads),
    [SocketSpec.Net], [TransportOps.Os], [TransportIo.Usb], [AdbUtils.FileSystem],
    [Jdwp.JdwpOs], [Services.ServiceOs], [Connection.Crypto]; libbase is
    [LibBase.LibBase].  What the code relies on is in a class of laws beside
    each ([KernelLaws], [LibBaseLaws], [UsbLaws], [PipeQueue], [FileSystemLaws]);
    each has an instance the witnesses run on.  [wp] is the weakest precondition
    of [M]: no crash, no fuel missing, and the result if it returns;
    [Prelude.twp] says that it returns.  [Prelude.owp] says what an outcome is
    and, by an argument, whether the computation may go on for ever;
    [Prelude.cwp] also how it may crash; [Prelude.pwp] only what is true if it
    returns.

    File synchronisation runs on an arbitrary state of the environment, as does
    the client: system calls with their errno are the operations of a data type,
    [FileSync.sys_call], performed by the class [FileSync.SysCalls]; the numbers
    of errno on a host are [FileSync.HostErrno]; connecting to the server is
    [AdbClient.ClientOs]; the clock and its texts are [SyncClient.Clock].  What
    the proofs need of files and descriptors is the class [SyncEnv.SyncEnv]: a
    tree of files with descriptors at positions, a stream to the peer.  Its
    instance is [SyncDemo.box].

    The shell service runs on the class [ShellService.ShellOs] (fork, select,
    waitpid, signals); what the proofs need of it is [ShellStreams.FdHistory]:
    for each descriptor, what was read from it and written to it so far.  The
    client's terminal, environment and processes are the class [Terminal.Tool];
    the streams between it, its user and its server are
    [ClientStreams.ClientTerminal].  Instances: [ShellProps.hub],
    [ClientDemo.desk].

    Each of the other parts has two or three classes: one for its own globals,
    one for the calls of the system or library it uses, one for what these
    promise; and an instance at the end of its file.
    - Linux USB: [UsbLinux.UsbState], [UsbLinux.UsbOs], [UsbTurn.UsbFrame].
    - libusb: [UsbLib.LibState], [UsbLib.LibUsb], [UsbLibProps.LibFrame] and, for
      what the device sees, [UsbLibProps.WireLaws].
    - Mac: [UsbOsx.MacState], [UsbOsx.IoKit], [UsbOsx.IoLaws].
    - Windows USB: [UsbWin.WinUsbState], [UsbWin.WinUsbApi], [UsbWin.WinUsbLaws].
    - USB on a device: [DaemonUsb.FfsState], [DaemonUsb.FfsOs], [DaemonUsb.FfsFrame].
    - mdns: [Mdns.MdnsState], [Mdns.DnsSd], [Mdns.MdnsLaws].
    - Keys: [AuthKeys.KeyStore], [AuthKeysProps.KeyLaws].
    - Start-up: [Startup.StartOs], [Startup.DaemonBuild], [Startup.JailFrame].
    - Service threads: [ServiceThreads.DeviceOs], [ServiceThreads.ServicePoll],
      [ServiceThreads.BoolProperty], [ServiceThreads.VerityBuild], [ServiceThreads.Splice].
    - Unix: [Posix.Posix], [Posix.PosixBuild], [Posix.PosixLaws].
    - Windows: [WinConsole.ConsoleOs] with [ConsoleLaws] and [ModeLaws],
      [WinText.WinFiles] with [Screen], [WinFds.WinApi] with [WinFdsProps.WinLaws],
      [WinLaunch.LaunchOs] with [LaunchLaws].

    ** The files, and the code they model

    - Prelude: bytes, C numbers, the monad, [wp]; LibBase: libbase.
    - Packet: adb.h, [check_header], [check_data], [calculate_apacket_checksum].
    - AdbIo: adb_io.cpp.  ShellProtocol: shell_service_protocol.cpp.
    - AdbUtils: adb_utils.cpp.  SmartText: the texts of sockets.cpp.
    - FdEvent: fdevent.cpp.
    - Transport: transport.h and the parts of transport.cpp that choose, match
      and describe transports, and the banner of adb.cpp.
    - World: the state.  Sockets, SocketIo: sockets.cpp, with the sockets of
      jdwp_service.cpp and the trackers of transport.cpp.
    - SocketSpec: socket_spec.cpp.  Listeners: adb_listeners.cpp.
    - TransportOps, Registration: kicking, registration and removal, trackers,
      retries, emulators (transport.cpp, transport_local.cpp, transport_usb.cpp).
    - TransportIo: the two threads, and reading and writing packets.
    - Connection: adb.cpp's [handle_packet] with adbd_auth.cpp and
      adb_auth_host.cpp.  Requests: [handle_host_request] and
      [handle_forward_request].  Jdwp: jdwp_service.cpp.  Services: services.cpp.
    - FileSync: file_sync_service.h, sysdeps/errno.cpp and the system calls both
      sides make.  SyncService: file_sync_service.cpp.  AdbClient: adb_client.cpp.
      SyncClient (the connection, sending, finishing) and SyncCommands (push,
      pull, ls and sync of files and directories): file_sync_client.cpp.
    - SyncEnv: the laws of files and streams.  SyncSend: what the daemon does
      with the frames of one file.  SyncCopy, SyncList: the two sides together.
      SyncDemo: an environment for the witnesses.
    - ShellService: shell_service.cpp.  ShellStreams, ShellPass, ShellLoop: what
      its functions do to the streams; ShellProps: its theorems, and a system
      for the witnesses.
    - Terminal: reading keys, showing what arrives, copying (commandline.cpp,
      commandline.h).  LinePrinter: line_printer.cpp and console.cpp.
      ShellClient: [adb_shell], wait-for, the commands that go through the shell.
      Bugreport: bugreport.cpp.  ClientCommands: sideload, ppp, backup, restore,
      installing.  Commandline: [adb_commandline], and [launch_server] of adb.cpp.
      ClientStreams, ClientDump: what the client does to its streams.
      ClientRequests: its requests as the other side reads them.  ShellSession:
      the shell service and the client together.  ClientDemo: a terminal for the
      witnesses.
    - UsbLinux: client/usb_linux.cpp.  UsbScan: the descriptors of a device as a
      list.  UsbTurn: a turn of its thread.  UsbLib, UsbLibProps:
      client/usb_libusb.cpp.  UsbOsx: client/usb_osx.cpp.  UsbWin:
      client/usb_windows.cpp.  DaemonUsb: daemon/usb.cpp.
    - AuthKeys, AuthKeysProps: the keys of adb_auth_host.cpp.
    - ServiceThreads: the threads of services.cpp, remount_service.cpp,
      set_verity_enable_state_service.cpp and framebuffer_service.cpp.
    - Startup: daemon/main.cpp, client/main.cpp, adb_trace.cpp, daemon/mdns.cpp.
      Mdns: transport_mdns.cpp.
    - Posix: sysdeps.h, sysdeps_unix.cpp, sysdeps/posix/network.cpp,
      diagnose_usb.cpp, the home directory of adb_utils.cpp.
    - WinConsole, WinText, WinFds and WinFdsProps: sysdeps_win32.cpp.  WinLaunch:
      [launch_server] of adb.cpp on Windows.
    - SocketInv, SocketClose, SocketCreate, SocketFlow, ListenerInv,
      ConnectionInv, ConnectionFlow, PacketFlow: the invariants ([SocketInv.wf],
      [ListenerInv.wf_listeners], [ConnectionInv.good]) and what each function
      does to them.  SocketStream, SocketProps, ConnectionProps, TransportWire,
      Handshake: the theorems about the composition.
    - Demo: two small programs and worlds for the witnesses.

    ** What the theorems show

    - Connections (ConnectionProps, Handshake).  Whatever packet arrives in
      whatever state of the sockets, [handle_packet] does to the connection what
      the automaton [conn_next] says, without a crash; so on a device that asks
      for authentication nobody gets online without a signature that verifies or
      the answer of the framework; packets about sockets change nothing before
      that.  A server that has a key the device knows gets online on a working
      pair of wires after boundedly many steps.
    - Sockets (SocketProps, SocketStream).  [close], through any kind of socket,
      frees what it should, never touches what is freed, and keeps the
      invariant; [close_all_sockets] ends and leaves no socket of the transport.
      What is written to a descriptor, with what is queued, is what was handed to
      the socket, in order; what is read goes to the peer as it came.  One path
      does use a freed socket ([local_socket_event_func_dangles]).
    - Event loop (FdEvent): the poll map, the pending list and the flags agree
      after every operation and every turn.
    - Transports (Transport, TransportWire): the choice of a transport is unique;
      banners and feature sets are read back; a packet written is the packet
      read; nothing gets past the checks; the writing thread sends exactly what
      is between its SYNC packets.
    - File synchronisation (SyncSend, SyncCopy, SyncList).  A file pushed by the
      client is, after the daemon has served what was sent, the file on the
      device, with the bits of the mode that the daemon keeps; a file pulled is
      the file on the host; a listing is what the directory contains, and the
      answer to lstat is the answer of the device, with the errno of the device
      as the same error on the host.  A stream cut inside a file keeps the
      daemon from ever answering ([SyncSend.send_cut_spins]): that loop has no
      bound.  The answers OKAY and FAIL of the server are read back
      as they were sent ([AdbClient.status_roundtrip]).
    - The shell (ShellProps, ShellSession).  The thread of a process ends after
      three descriptors died at most; until then nothing is lost or out of order
      in any of the three directions; the exit code is the last packet.  What
      the client shows is what the process wrote, and its status is the exit code
      of the process if the session arrives whole.  What is typed is what the
      process is given, escapes apart.
    - The command line (ClientRequests).  The requests the client makes for a
      shell, to wait, to forward, are understood by the side that gets them as
      they were meant, and so are the arguments of the server it starts.
    - USB.  The scan of the descriptors of a device agrees with a reference on
      lists, and finds in the descriptors the daemon writes what the daemon means
      (UsbScan, DaemonUsb).  A turn of the thread that looks for devices keeps
      the handles sound, on Linux (UsbTurn), through libusb (UsbLibProps) and on
      a Mac, where it also gives back all it took of IOKit (UsbOsx); the circular
      list of Windows is a list (UsbWin).  A message written through libusb is
      one message on the wire.  The opening of FunctionFS ends (DaemonUsb).
    - Keys (AuthKeysProps): what is in the ring after the start, and after a
      directory was changed.  Start-up (Startup): who the daemon runs as, and
      whether it asks for authentication.
    - mdns (Mdns): no callback uses a freed object.  Service threads: a picture
      arrives as it was taken.
    - Unix (Posix): a socket of the loopback interface is what was asked for, or
      there is none.  Windows: keys of the console are the texts a terminal sends
      and fit their buffer (WinConsole), texts come out whole however they were
      cut (WinText), the table of descriptors owns what is open and loses none,
      [socketpair] is all or nothing (WinFdsProps), starting the server leaves no
      handle (WinLaunch).
    - Listeners, specifications, helpers: functional specifications, with the
      inputs on which the code errs.

    ** Fuel

    A loop over data is given fuel by the data: [WriteFdExactly] by the length
    and the number of times the descriptor may still refuse
    ([World.reply_fuel]), [close_all_sockets] by the number of sockets,
    [notify_trackers] by the number of trackers, [mkdirs] by the length of the
    path; in each case a theorem or lemma shows that [NoFuel] does not come out.
    [sock_close], [sock_enqueue] and [sock_ready] call each other through
    pointers; their fuel is a depth, [close_depth] and its like, shown to be
    enough for all sockets that satisfy the invariant.  In file synchronisation a
    frame, a chunk of a file, an entry of a directory and a command each take a
    unit; the round trips state the fuel as a function of the number of pieces
    and of the length of the file.  [send_cut_spins] holds for every fuel, which
    is what not returning means.  The thread of a process has two fuels: one
    for the turns of its outer loop, each of which closes a descriptor (three
    are enough), one for the answers of [select] ([ShellLoop.select_ends]: they
    are finitely many).  Reading keys takes one unit for a key or an interrupt,
    showing an answer one for each byte and one more.  The threads loop for as
    long as packets come: their theorems are about every number of turns.
    The scan of USB descriptors takes a unit for a descriptor, and the theorem
    says when it goes on for ever; the list of Windows one for a handle and one
    more; the thread of a Mac one for an interface and one more, 256 for the
    endpoints of one and 128 for its languages; a call that is interrupted one
    for each interruption and one more.  Replies of the mdns library take one
    each: how many come at once is up to it.

    ** Not modelled

    - The order of [poll]'s answers and of an unordered container is an argument.
    - Interleaving of the main thread with the threads of a transport within a
      function: a turn of a thread's loop is one step.  Other threads run where a
      thread waits, in the operations that wait.
    - The endless loops around the turns of the threads that look for devices,
      and their sleeping; client/usb_dispatch.cpp, which calls one driver or the
      other; the window of Windows that gets the power events.
    - What a child does up to its [exec] is in the model, but its world is not:
      [fork] gives the parent an answer.
    - OpenSSL ([Crypto], [KeyStore]) and the other libraries.  The texts of errors
      and [stat] on Windows (sysdeps/win32); the texts about the rate of a
      transfer; logging, except for what the code does beside it.

    ** Plan

    Steps of the threads of a transport inside a turn of the main loop; the
    functions of Posix in place of [Net] in the theorems about connections; the
    laws of services for [Services.all_services]. *)

From Stdlib Require Export ZArith Lia.
From Stdlib Require Ascii String.
From stdpp Require Export base list gmap strings fin_maps.

#[global] Set Default Goal Selector "!".

(** ** Bytes and machine integers

    A [std::string], a [char*] text and a payload buffer are all lists of
    8-bit characters; [str] writes a literal. *)

Abbreviation ascii := Ascii.ascii.
Abbreviation string := String.string.
Abbreviation bytes := (list ascii).

Definition str (s : string) : bytes := String.list_ascii_of_string s.

Definition byte_val (a : ascii) : Z := Z.of_N (Ascii.N_of_ascii a).
Definition byte_of (z : Z) : ascii := Ascii.ascii_of_N (Z.to_N (z mod 256)).

Definition NUL : ascii := byte_of 0.

(** [uint32_t] and [uint64_t] arithmetic wraps; [int] is 32-bit two's complement. *)
Definition u8 (z : Z) : Z := (z mod 2 ^ 8)%Z.
Definition u16 (z : Z) : Z := (z mod 2 ^ 16)%Z.
Definition u32 (z : Z) : Z := (z mod 2 ^ 32)%Z.
Definition u64 (z : Z) : Z := (z mod 2 ^ 64)%Z.
Definition i32 (z : Z) : Z := ((z + 2 ^ 31) mod 2 ^ 32 - 2 ^ 31)%Z.

Abbreviation Zlen l := (Z.of_nat (length l)).

(** Little-endian fields of the wire structures. *)
Fixpoint le_encode (n : nat) (z : Z) : bytes :=
  match n with
  | O => []
  | S k => byte_of z :: le_encode k (z / 256)
  end.

Fixpoint le_decode (bs : bytes) : Z :=
  match bs with
  | [] => 0
  | a :: t => (byte_val a + 256 * le_decode t)%Z
  end.

(** ** C strings and the C library's text functions *)

(** The text before the first NUL: what a [char*] denotes. *)
Fixpoint c_str (bs : bytes) : bytes :=
  match bs with
  | [] => []
  | a :: t => if Ascii.eqb a NUL then [] else a :: c_str t
  end.

Fixpoint is_prefix (p s : bytes) : bool :=
  match p, s with
  | [], _ => true
  | a :: p', b :: s' => Ascii.eqb a b && is_prefix p' s'
  | _ :: _, [] => false
  end.

(** [strchr]: the suffix starting at the first [c], if there is one. *)
Fixpoint strchr (s : bytes) (c : ascii) : option bytes :=
  match s with
  | [] => None
  | a :: t => if Ascii.eqb a c then Some s else strchr t c
  end.

Definition is_digit (a : ascii) : bool :=
  let v := byte_val a in ((48 <=? v) && (v <=? 57))%Z.
Definition is_upper (a : ascii) : bool :=
  let v := byte_val a in ((65 <=? v) && (v <=? 90))%Z.
Definition is_lower (a : ascii) : bool :=
  let v := byte_val a in ((97 <=? v) && (v <=? 122))%Z.
Definition isalnum (a : ascii) : bool := is_digit a || is_upper a || is_lower a.
Definition isprint (a : ascii) : bool :=
  let v := byte_val a in ((32 <=? v) && (v <? 127))%Z.
Definition isspace (a : ascii) : bool :=
  let v := byte_val a in ((v =? 32) || ((9 <=? v) && (v <=? 13)))%Z.

(** The value of a digit in bases up to 36, as [strtoul] reads it. *)
Definition digit_val (a : ascii) : option Z :=
  if is_digit a then Some (byte_val a - 48)%Z
  else if is_lower a then Some (byte_val a - 87)%Z
  else if is_upper a then Some (byte_val a - 55)%Z
  else None.

Definition digit_char (d : Z) : ascii :=
  if (d <? 10)%Z then byte_of (48 + d) else byte_of (87 + d).

(** [printf] conversions: [%x], [%04x], [%08x], [%d], [%u]. *)
Fixpoint to_digits (fuel : nat) (b z : Z) (acc : bytes) : bytes :=
  match fuel with
  | O => acc
  | S f =>
      if (z <? b)%Z then digit_char z :: acc
      else to_digits f b (z / b)%Z (digit_char (z mod b)%Z :: acc)
  end.

Definition print_num (b z : Z) : bytes := to_digits (S (Z.to_nat (Z.log2 z))) b z [].

Definition zero_pad (n : nat) (s : bytes) : bytes :=
  replicate (n - length s) (byte_of 48) ++ s.

Definition hex (z : Z) : bytes := print_num 16 z.
Definition hex_pad (n : nat) (z : Z) : bytes := zero_pad n (hex z).
Definition dec (z : Z) : bytes :=
  if (z <? 0)%Z then str "-" ++ print_num 10 (- z) else print_num 10 z.

(** The value of a digit string in base [b]. *)
Fixpoint num_acc (b : Z) (s : bytes) (acc : Z) : Z :=
  match s with
  | [] => acc
  | a :: t =>
      match digit_val a with
      | Some d => if (d <? b)%Z then num_acc b t (acc * b + d)%Z else acc
      | None => acc
      end
  end.

(** [strtoul]: white space, an optional sign, an optional [0x], then the
    longest digit string; a minus sign negates modulo 2^64, and a value out
    of range gives [ULONG_MAX] with [errno = ERANGE] (the second component). *)
Fixpoint skip_spaces (s : bytes) : bytes :=
  match s with
  | a :: t => if isspace a then skip_spaces t else s
  | [] => []
  end.

Definition is_hex_prefix (s : bytes) : bool :=
  match s with
  | z :: x :: d :: _ =>
      Ascii.eqb z (byte_of 48) && (Ascii.eqb x (byte_of 120) || Ascii.eqb x (byte_of 88)) &&
      match digit_val d with Some v => (v <? 16)%Z | None => false end
  | _ => false
  end.

(** The sign and the magnitude that the [strto*] functions read. *)
Definition scan_number (s : bytes) (base : Z) : bool * Z :=
  let s := skip_spaces s in
  let '(neg, s) :=
    match s with
    | a :: t => if Ascii.eqb a (byte_of 45) then (true, t)
                else if Ascii.eqb a (byte_of 43) then (false, t) else (false, s)
    | [] => (false, [])
    end in
  let '(b, s) :=
    if ((base =? 0) || (base =? 16))%Z && is_hex_prefix s then (16%Z, drop 2 s)
    else if (base =? 0)%Z
         then match s with
              | a :: _ => if Ascii.eqb a (byte_of 48) then (8%Z, s) else (10%Z, s)
              | [] => (10%Z, s)
              end
         else (base, s) in
  (neg, num_acc b s 0).

Definition strtoul (s : bytes) (base : Z) : Z * bool :=
  let '(neg, v) := scan_number s base in
  if (v <? 2 ^ 64)%Z then (if neg then u64 (- v) else v, false) else ((2 ^ 64 - 1)%Z, true).

(** [strtol] saturates; [atoi] is its value in base 10 as an [int]. *)
Definition strtol (s : bytes) (base : Z) : Z :=
  let '(neg, v) := scan_number s base in
  if neg then Z.max (- v) (- 2 ^ 63) else Z.min v (2 ^ 63 - 1).

Definition atoi (s : bytes) : Z := i32 (strtol s 10).

(** ** Programs over a state

    A handler of the code is a function from the state to an outcome:
    it returns, it ends the process on purpose ([exit], or [fatal] and the
    [LOG(FATAL)]/[PLOG(FATAL)] family when the environment fails), or it does
    what no correct run may do: a failed [CHECK], a dereference of a null or
    freed object ([Crash]).  [NoFuel] marks a bounded unfolding that was too
    short; theorems show it does not arise. *)

Inductive outcome (W A : Type) : Type :=
| Done (a : A) (w : W)
| Exit (code : Z) (w : W)
| Fatal (msg : string)
| Crash (why : string)
| NoFuel.
Arguments Done {W A} a w.
Arguments Exit {W A} code w.
Arguments Fatal {W A} msg.
Arguments Crash {W A} why.
Arguments NoFuel {W A}.

Definition M (W A : Type) : Type := W -> outcome W A.

Definition ret {W A} (a : A) : M W A := fun w => Done a w.

Definition bind {W A B} (m : M W A) (f : A -> M W B) : M W B :=
  fun w =>
    match m w with
    | Done a w' => f a w'
    | Exit c w' => Exit c w'
    | Fatal s => Fatal s
    | Crash s => Crash s
    | NoFuel => NoFuel
    end.

Definition get {W} : M W W := fun w => Done w w.
Definition gets {W A} (f : W -> A) : M W A := fun w => Done (f w) w.
Definition modify {W} (f : W -> W) : M W unit := fun w => Done tt (f w).
Definition fatal {W A} (msg : string) : M W A := fun _ => Fatal msg.
Definition crash {W A} (why : string) : M W A := fun _ => Crash why.
Definition exit_with {W A} (code : Z) : M W A := fun w => Exit code w.
Definition no_fuel {W A} : M W A := fun _ => NoFuel.

(** [CHECK(b)] of the logging library. *)
Definition check {W} (b : bool) (why : string) : M W unit :=
  if b then ret tt else crash why.

Declare Scope adb_scope.
Delimit Scope adb_scope with adb.
Notation "'let*' x ':=' m 'in' k" := (bind m (fun x => k))
  (at level 10, x pattern, m at level 100, k at level 200) : adb_scope.
Notation "m ';;;' k" := (bind m (fun _ => k))
  (at level 199, right associativity) : adb_scope.
Open Scope adb_scope.

(** [when b m]: an [if] without an else. *)
Definition when {W} (b : bool) (m : M W unit) : M W unit :=
  if b then m else ret tt.

Fixpoint iter_list {W A} (f : A -> M W unit) (l : list A) : M W unit :=
  match l with
  | [] => ret tt
  | a :: t => f a ;;; iter_list f t
  end.

(** [wp m Q w]: from [w], [m] neither crashes nor runs out of fuel, and if it
    returns, [Q] holds of the value and the state.  A deliberate end of the
    process satisfies every [Q]. *)
Definition wp {W A} (m : M W A) (Q : A -> W -> Prop) (w : W) : Prop :=
  match m w with
  | Done a w' => Q a w'
  | Exit _ _ | Fatal _ => True
  | Crash _ | NoFuel => False
  end.

Section WP.
Context {W : Type}.

Lemma wp_ret {A} (a : A) (Q : A -> W -> Prop) w : Q a w -> wp (ret a) Q w.
Proof. done. Qed.

Lemma wp_bind {A B} (m : M W A) (f : A -> M W B) Q w :
  wp m (fun a => wp (f a) Q) w -> wp (bind m f) Q w.
Proof. unfold wp, bind. by destruct (m w). Qed.

Lemma wp_bind_inv {A B} (m : M W A) (f : A -> M W B) Q w :
  wp (bind m f) Q w -> wp m (fun a => wp (f a) Q) w.
Proof. unfold wp, bind. by destruct (m w). Qed.

Lemma wp_mono {A} (m : M W A) (P Q : A -> W -> Prop) w :
  wp m P w -> (forall a w', P a w' -> Q a w') -> wp m Q w.
Proof. unfold wp. destruct (m w); auto. Qed.

Lemma wp_get (Q : W -> W -> Prop) w : Q w w -> wp get Q w.
Proof. done. Qed.

Lemma wp_gets {A} (f : W -> A) (Q : A -> W -> Prop) w : Q (f w) w -> wp (gets f) Q w.
Proof. done. Qed.

Lemma wp_modify (f : W -> W) (Q : unit -> W -> Prop) w : Q tt (f w) -> wp (modify f) Q w.
Proof. done. Qed.

Lemma wp_fatal {A} msg (Q : A -> W -> Prop) w : wp (fatal msg) Q w.
Proof. done. Qed.

Lemma wp_exit {A} c (Q : A -> W -> Prop) w : wp (exit_with c) Q w.
Proof. done. Qed.

Lemma wp_check b why (Q : unit -> W -> Prop) w : b = true -> Q tt w -> wp (check b why) Q w.
Proof. by intros ->. Qed.

Lemma wp_when b (m : M W unit) Q w :
  (b = true -> wp m Q w) -> (b = false -> Q tt w) -> wp (when b m) Q w.
Proof. destruct b; intros H1 H2; [by apply H1|by apply H2]. Qed.

Lemma wp_done {A} (m : M W A) Q w a w' : m w = Done a w' -> wp m Q w -> Q a w'.
Proof. unfold wp. by intros ->. Qed.

(** A call whose outcome is known. *)
Lemma wp_call {A} (m : M W A) Q w a w' : m w = Done a w' -> Q a w' -> wp m Q w.
Proof. unfold wp. by intros ->. Qed.

(** Keeping track of the call that gave the result. *)
Lemma wp_run {A} (m : M W A) (Q : A -> W -> Prop) w :
  wp m (fun a w' => m w = Done a w' -> Q a w') w -> wp m Q w.
Proof. unfold wp. destruct (m w); auto. Qed.

(** A loop over a list keeps what each step keeps. *)
Lemma wp_iter_list {A} (f : A -> M W unit) (I : W -> Prop) l w :
  I w -> (forall a w', a ∈ l -> I w' -> wp (f a) (fun _ => I) w') ->
  wp (iter_list f l) (fun _ => I) w.
Proof.
  revert w. induction l as [|a t IH]; intros w Hw Hf; [done|].
  cbn. apply wp_bind. eapply wp_mono; [apply Hf; [left|done]|].
  intros ? w' Hw'. apply IH; [done|]. intros; apply Hf; [by right|done].
Qed.

End WP.

(** [twp m Q w]: from [w], [m] returns, and [Q] holds of the value and the state. *)
Definition twp {W A} (m : M W A) (Q : A -> W -> Prop) (w : W) : Prop :=
  match m w with Done a w' => Q a w' | _ => False end.

Section TWP.
Context {W : Type}.

Lemma twp_ret {A} (a : A) (Q : A -> W -> Prop) w : Q a w -> twp (ret a) Q w.
Proof. done. Qed.
Lemma twp_bind {A B} (m : M W A) (f : A -> M W B) Q w : twp m (fun a => twp (f a) Q) w -> twp (bind m f) Q w.
Proof. unfold twp, bind. by destruct (m w). Qed.
Lemma twp_mono {A} (m : M W A) (P Q : A -> W -> Prop) w :
  twp m P w -> (forall a w', P a w' -> Q a w') -> twp m Q w.
Proof. unfold twp. destruct (m w); auto. Qed.
Lemma twp_get (Q : W -> W -> Prop) w : Q w w -> twp get Q w.
Proof. done. Qed.
Lemma twp_modify (f : W -> W) (Q : unit -> W -> Prop) w : Q tt (f w) -> twp (modify f) Q w.
Proof. done. Qed.
Lemma twp_done {A} (m : M W A) (Q : A -> W -> Prop) w : twp m Q w <-> exists a w', m w = Done a w' /\ Q a w'.
Proof.
  unfold twp. split; [|by intros (a & w' & -> & ?)]. destruct (m w) as [a w'| | | |]; try done. by exists a, w'.
Qed.
End TWP.

(** [owp N m Q w]: from [w], [m] returns and [Q] holds then, or its fuel does not
    last, and [N] says whether that may be: [owp False] is [twp], [owp True m] with a
    false [Q] says that no fuel is enough. *)
Definition owp {W A} (N : Prop) (m : M W A) (Q : A -> W -> Prop) (w : W) : Prop :=
  match m w with Done a w' => Q a w' | NoFuel => N | _ => False end.

Section OWP.
Context {W : Type}.
Implicit Types N : Prop.

Lemma owp_ret {A} N (a : A) (Q : A -> W -> Prop) w : Q a w -> owp N (ret a) Q w.
Proof. done. Qed.
Lemma owp_bind {A B} N (m : M W A) (f : A -> M W B) Q w :
  owp N m (fun a => owp N (f a) Q) w -> owp N (bind m f) Q w.
Proof. unfold owp, bind. by destruct (m w). Qed.
Lemma owp_mono {A} N (m : M W A) (P Q : A -> W -> Prop) w :
  owp N m P w -> (forall a w', P a w' -> Q a w') -> owp N m Q w.
Proof. unfold owp. destruct (m w); auto. Qed.
Lemma owp_weaken {A} N (m : M W A) (Q : A -> W -> Prop) w : owp False m Q w -> owp N m Q w.
Proof. unfold owp. by destruct (m w). Qed.
Lemma owp_get N (Q : W -> W -> Prop) w : Q w w -> owp N get Q w.
Proof. done. Qed.
Lemma owp_modify N (f : W -> W) (Q : unit -> W -> Prop) w : Q tt (f w) -> owp N (modify f) Q w.
Proof. done. Qed.
Lemma owp_check N b why (Q : unit -> W -> Prop) w : b = true -> Q tt w -> owp N (check b why) Q w.
Proof. by intros ->. Qed.
Lemma owp_when N b (m : M W unit) Q w :
  (b = true -> owp N m Q w) -> (b = false -> Q tt w) -> owp N (when b m) Q w.
Proof. destruct b; intros H1 H2; [by apply H1|by apply H2]. Qed.
Lemma owp_spins {A} (m : M W A) w : owp True m (fun _ _ => False) w <-> m w = NoFuel.
Proof. unfold owp. by destruct (m w). Qed.
Lemma owp_done {A} (m : M W A) (Q : A -> W -> Prop) w : owp False m Q w <-> exists a w', m w = Done a w' /\ Q a w'.
Proof.
  unfold owp. split; [|by intros (a & w' & -> & ?)]. destruct (m w) as [a w'| | | |]; try done. by exists a, w'.
Qed.
End OWP.

(** [cwp N C m Q w]: as [owp], for code that may also crash, in one of the ways [C]. *)
Definition cwp {W A} (N : Prop) (C : string -> Prop) (m : M W A) (Q : A -> W -> Prop) (w : W) : Prop :=
  match m w with Done a w' => Q a w' | NoFuel => N | Crash why => C why | _ => False end.

Section CWP.
Context {W : Type}.
Implicit Types (N : Prop) (C : string -> Prop).

Lemma cwp_ret {A} N C (a : A) (Q : A -> W -> Prop) w : Q a w -> cwp N C (ret a) Q w.
Proof. done. Qed.
Lemma cwp_bind {A B} N C (m : M W A) (f : A -> M W B) Q w :
  cwp N C m (fun a => cwp N C (f a) Q) w -> cwp N C (bind m f) Q w.
Proof. unfold cwp, bind. by destruct (m w). Qed.
Lemma cwp_mono {A} N C (m : M W A) (P Q : A -> W -> Prop) w :
  cwp N C m P w -> (forall a w', P a w' -> Q a w') -> cwp N C m Q w.
Proof. unfold cwp. destruct (m w); auto. Qed.
Lemma cwp_weaken {A} N C (m : M W A) (Q : A -> W -> Prop) w : cwp False C m Q w -> cwp N C m Q w.
Proof. unfold cwp. by destruct (m w). Qed.
Lemma cwp_get N C (Q : W -> W -> Prop) w : Q w w -> cwp N C get Q w.
Proof. done. Qed.
Lemma cwp_gets {A} N C (f : W -> A) (Q : A -> W -> Prop) w : Q (f w) w -> cwp N C (gets f) Q w.
Proof. done. Qed.
Lemma cwp_modify N C (f : W -> W) (Q : unit -> W -> Prop) w : Q tt (f w) -> cwp N C (modify f) Q w.
Proof. done. Qed.
Lemma cwp_check N C b why (Q : unit -> W -> Prop) w :
  (b = false -> C why) -> (b = true -> Q tt w) -> cwp N C (check b why) Q w.
Proof. destruct b; intros H1 H2; [by apply H2|by apply H1]. Qed.
Lemma cwp_when N C b (m : M W unit) Q w :
  (b = true -> cwp N C m Q w) -> (b = false -> Q tt w) -> cwp N C (when b m) Q w.
Proof. destruct b; intros H1 H2; [by apply H1|by apply H2]. Qed.
End CWP.

(** [pwp m Q w]: the result, if it returns one. *)
Definition pwp {W A} (m : M W A) (Q : A -> W -> Prop) (w : W) : Prop := forall a w', m w = Done a w' -> Q a w'.

Section PWP.
Context {W : Type}.

Lemma pwp_ret {A} (a : A) (Q : A -> W -> Prop) w : Q a w -> pwp (ret a) Q w.
Proof. intros HQ a' w' [= <- <-]. exact HQ. Qed.
Lemma pwp_bind {A B} (m : M W A) (f : A -> M W B) Q w : pwp m (fun a => pwp (f a) Q) w -> pwp (bind m f) Q w.
Proof. unfold pwp, bind. intros H b w'. destruct (m w) as [a w1| | | |]; try done. by apply H. Qed.
Lemma pwp_mono {A} (m : M W A) (P Q : A -> W -> Prop) w : pwp m P w -> (forall a w', P a w' -> Q a w') -> pwp m Q w.
Proof. intros H HPQ a w' Hm. by apply HPQ, H. Qed.
Lemma pwp_get (Q : W -> W -> Prop) w : Q w w -> pwp get Q w.
Proof. intros HQ a' w' [= <- <-]. exact HQ. Qed.
Lemma pwp_gets {A} (f : W -> A) (Q : A -> W -> Prop) w : Q (f w) w -> pwp (gets f) Q w.
Proof. intros HQ a' w' [= <- <-]. exact HQ. Qed.
Lemma pwp_modify (f : W -> W) (Q : unit -> W -> Prop) w : Q tt (f w) -> pwp (modify f) Q w.
Proof. intros HQ a' w' [= <- <-]. exact HQ. Qed.
Lemma pwp_crash {A} why (Q : A -> W -> Prop) w : pwp (crash why) Q w.
Proof. intros a w'. done. Qed.
Lemma pwp_fatal {A} why (Q : A -> W -> Prop) w : pwp (fatal why) Q w.
Proof. intros a w'. done. Qed.
Lemma pwp_when b (m : M W unit) Q w : (b = true -> pwp m Q w) -> (b = false -> Q tt w) -> pwp (when b m) Q w.
Proof. destruct b; intros H1 H2; [by apply H1|by apply pwp_ret, H2]. Qed.
(** The list is worked off from the front: [I done rest]. *)
Lemma pwp_iter_list {A} (f : A -> M W unit) (I : list A -> list A -> W -> Prop) l w :
  (forall done x rest w, I done (x :: rest) w -> pwp (f x) (fun _ => I (done ++ [x]) rest) w) ->
  forall done, I done l w -> pwp (iter_list f l) (fun _ => I (done ++ l) []) w.
Proof.
  intros Hf. revert w. induction l as [|x l IH]; intros w done H; cbn [iter_list].
  - apply pwp_ret. by rewrite app_nil_r.
  - apply pwp_bind. eapply pwp_mono; [by apply Hf|]. intros [] w' H'. rewrite (cons_middle x done l), app_assoc. by apply IH.
Qed.
End PWP.

(** The cases of a membership in an explicit list. *)
Ltac elem_cases H :=
  lazymatch type of H with
  | _ ∈ [] => by apply not_elem_of_nil in H
  | _ => apply elem_of_cons in H as [H|H]; [subst|elem_cases H]
  end.

(** One symbolic step of a handler; [wp_steps] runs the administrative ones. *)
Ltac wp_step :=
  match goal with
  | |- wp (bind _ _) _ _ => apply wp_bind
  | |- wp (ret _) _ _ => apply wp_ret
  | |- wp get _ _ => apply wp_get
  | |- wp (gets _) _ _ => apply wp_gets
  | |- wp (modify _) _ _ => apply wp_modify
  | |- wp (fatal _) _ _ => exact I
  | |- wp (exit_with _) _ _ => exact I
  end.
Ltac wp_steps := repeat (wp_step; cbn beta).

(** A decidable closed proposition, by evaluation. *)
Ltac by_decide := refine (bool_decide_unpack _ _); vm_compute; exact I.

Create HintDb adb discriminated.

(** ** Lemmas on bytes and integers *)

Lemma byte_val_range a : (0 <= byte_val a < 256)%Z.
Proof. unfold byte_val. pose proof (Ascii.N_ascii_bounded a). lia. Qed.

Lemma byte_val_of z : byte_val (byte_of z) = (z mod 256)%Z.
Proof.
  unfold byte_val, byte_of. pose proof (Z.mod_pos_bound z 256 eq_refl).
  rewrite Ascii.N_ascii_embedding; lia.
Qed.

Lemma byte_of_val a : byte_of (byte_val a) = a.
Proof.
  unfold byte_of, byte_val. pose proof (Ascii.N_ascii_bounded a).
  rewrite Z.mod_small by lia. rewrite N2Z.id. apply Ascii.ascii_N_embedding.
Qed.

Lemma byte_val_inj a b : byte_val a = byte_val b -> a = b.
Proof. intros H. by rewrite <- (byte_of_val a), <- (byte_of_val b), H. Qed.

Lemma byte_eqb_val a b : Ascii.eqb a b = (byte_val a =? byte_val b)%Z.
Proof.
  destruct (Ascii.eqb_spec a b) as [->|Hne]; [by rewrite Z.eqb_refl|].
  symmetry. apply Z.eqb_neq. intros H. by apply Hne, byte_val_inj.
Qed.

Lemma u32_range z : (0 <= u32 z < 2 ^ 32)%Z.
Proof. apply Z.mod_pos_bound. lia. Qed.

Lemma u32_small z : (0 <= z < 2 ^ 32)%Z -> u32 z = z.
Proof. apply Z.mod_small. Qed.

Lemma u32_idemp z : u32 (u32 z) = u32 z.
Proof. apply u32_small, u32_range. Qed.

Lemma length_le_encode n z : length (le_encode n z) = n.
Proof. revert z. induction n; intros; cbn; auto. Qed.

Lemma le_decode_encode n z : le_decode (le_encode n z) = (z mod 256 ^ Z.of_nat n)%Z.
Proof.
  revert z. induction n as [|n IH]; intros z.
  - cbn. by rewrite Z.mod_1_r.
  - cbn [le_encode le_decode]. rewrite byte_val_of, IH.
    rewrite Nat2Z.inj_succ, Z.pow_succ_r by lia.
    rewrite Z.rem_mul_r; lia.
Qed.

Lemma le_decode_range bs : (0 <= le_decode bs < 256 ^ Zlen bs)%Z.
Proof.
  induction bs as [|a t IH]; cbn [le_decode length]; [cbn; lia|].
  rewrite Nat2Z.inj_succ, Z.pow_succ_r by lia. pose proof (byte_val_range a). lia.
Qed.

Lemma le_encode_decode bs : le_encode (length bs) (le_decode bs) = bs.
Proof.
  induction bs as [|a t IH]; [done|]. cbn [le_decode length le_encode].
  pose proof (byte_val_range a).
  assert (byte_of (byte_val a + 256 * le_decode t) = a) as ->.
  { apply byte_val_inj. rewrite byte_val_of. rewrite (Z.mul_comm 256), Z.mod_add by lia.
    by apply Z.mod_small. }
  f_equal. rewrite (Z.mul_comm 256), Z.div_add by lia.
  rewrite Z.div_small by lia. by rewrite Z.add_0_l.
Qed.

Lemma le32_roundtrip z : (0 <= z < 2 ^ 32)%Z -> le_decode (le_encode 4 z) = z.
Proof. intros. rewrite le_decode_encode. apply Z.mod_small. cbn. lia. Qed.

Lemma le64_roundtrip z : (0 <= z < 2 ^ 64)%Z -> le_decode (le_encode 8 z) = z.
Proof. intros. rewrite le_decode_encode. apply Z.mod_small. cbn. lia. Qed.

Lemma is_prefix_app p s : is_prefix p (p ++ s) = true.
Proof. induction p as [|a p IH]; cbn; [done|]. by rewrite Ascii.eqb_refl. Qed.

Lemma is_prefix_spec p s : is_prefix p s = true <-> exists t, s = p ++ t.
Proof.
  split.
  - revert s. induction p as [|a p IH]; intros s H; [by exists s|].
    destruct s as [|b s]; [done|]. cbn in H. apply andb_prop in H as [H1 H2].
    apply Ascii.eqb_eq in H1 as ->. destruct (IH _ H2) as [t ->]. by exists t.
  - intros [t ->]. apply is_prefix_app.
Qed.

Lemma is_prefix_refl p : is_prefix p p = true.
Proof. apply is_prefix_spec. exists []. by rewrite app_nil_r. Qed.

Lemma c_str_no_nul s : NUL ∉ s -> c_str s = s.
Proof.
  induction s as [|a s IH]; [done|]. intros H. cbn.
  destruct (Ascii.eqb_spec a NUL) as [->|]; [exfalso; apply H; left|].
  f_equal. apply IH. intros Hin. apply H. by right.
Qed.

(** ** Numerals: what [%x] and [%d] print, [strtoul] reads back *)

Definition digit_ok (b : Z) (a : ascii) : Prop :=
  exists d, digit_val a = Some d /\ (0 <= d < b)%Z.

Lemma digit_val_char d : (0 <= d < 36)%Z -> digit_val (digit_char d) = Some d.
Proof.
  intros H. unfold digit_char, digit_val, is_digit, is_lower, is_upper.
  destruct (Z.ltb_spec d 10); rewrite byte_val_of, Z.mod_small by lia.
  - replace ((48 <=? 48 + d) && (48 + d <=? 57))%Z with true by lia. f_equal; lia.
  - replace ((48 <=? 87 + d) && (87 + d <=? 57))%Z with false by lia.
    replace ((97 <=? 87 + d) && (87 + d <=? 122))%Z with true by lia. f_equal; lia.
Qed.

Lemma num_acc_app b s t acc :
  Forall (digit_ok b) s -> num_acc b (s ++ t) acc = num_acc b t (num_acc b s acc).
Proof.
  revert acc. induction s as [|a s IH]; intros acc H; [done|].
  inversion H as [|? ? (d & Hd & Hr) Hs]; subst. cbn. rewrite Hd.
  replace (d <? b)%Z with true by lia. by apply IH.
Qed.

Lemma to_digits_spec b fuel z acc :
  (2 <= b <= 36)%Z -> (0 <= z)%Z -> (z < b ^ Z.of_nat fuel)%Z ->
  exists ds, to_digits fuel b z acc = ds ++ acc /\ Forall (digit_ok b) ds /\
             (0 < fuel -> ds <> [])%nat /\
             forall k t, num_acc b (ds ++ t) k = num_acc b t (k * b ^ Zlen ds + z)%Z.
Proof.
  intros Hb. revert z acc. induction fuel as [|f IH]; intros z acc Hz Hlt.
  - cbn in Hlt. assert (z = 0%Z) as -> by lia.
    exists []. cbn. split_and!; [done|done|lia|]. intros. f_equal. lia.
  - assert (Hdig : forall d, (0 <= d < b)%Z -> digit_ok b (digit_char d)).
    { intros d Hd. exists d. split; [apply digit_val_char; lia|done]. }
    cbn [to_digits]. destruct (Z.ltb_spec z b) as [Hlt'|Hge].
    + exists [digit_char z]. split_and!; [done|auto|done|].
      intros k t. cbn. rewrite digit_val_char by lia.
      replace (z <? b)%Z with true by lia. f_equal. lia.
    + rewrite Nat2Z.inj_succ, Z.pow_succ_r in Hlt by lia.
      pose proof (Z.mod_pos_bound z b ltac:(lia)) as Hm.
      destruct (IH (z / b)%Z (digit_char (z mod b)%Z :: acc)) as (ds & Heq & Hall & _ & Hv).
      { apply Z.div_pos; lia. }
      { apply Z.div_lt_upper_bound; lia. }
      exists (ds ++ [digit_char (z mod b)%Z]). split_and!.
      * rewrite Heq, <- app_assoc. done.
      * apply Forall_app. auto.
      * intros _ H. by destruct ds.
      * intros k t. rewrite <- app_assoc, Hv. cbn.
        rewrite digit_val_char by lia. replace (z mod b <? b)%Z with true by lia.
        f_equal. rewrite length_app. cbn [length].
        rewrite Nat2Z.inj_add, Z.pow_add_r by lia. cbn [Z.of_nat Pos.of_succ_nat].
        pose proof (Z.div_mod z b ltac:(lia)). nia.
Qed.

Lemma log2_fuel b z : (2 <= b)%Z -> (0 <= z)%Z ->
  (z < b ^ Z.of_nat (S (Z.to_nat (Z.log2 z))))%Z.
Proof.
  intros Hb Hz. rewrite Nat2Z.inj_succ, Z2Nat.id by apply Z.log2_nonneg.
  destruct (Z.eq_dec z 0%Z) as [->|]; [apply Z.pow_pos_nonneg; cbn; lia|].
  pose proof (Z.log2_spec z ltac:(lia)).
  eapply Z.lt_le_trans; [apply H|]. apply Z.pow_le_mono_l. lia.
Qed.

Lemma print_num_spec b z :
  (2 <= b <= 36)%Z -> (0 <= z)%Z ->
  Forall (digit_ok b) (print_num b z) /\ print_num b z <> [] /\
  forall k t, num_acc b (print_num b z ++ t) k = num_acc b t (k * b ^ Zlen (print_num b z) + z)%Z.
Proof.
  intros Hb Hz. unfold print_num.
  destruct (to_digits_spec b (S (Z.to_nat (Z.log2 z))) z [] Hb Hz
              (log2_fuel b z ltac:(lia) Hz)) as (ds & -> & Hall & Hne & Hv).
  rewrite app_nil_r. split_and!; [done| apply Hne; lia |done].
Qed.

Lemma num_acc_print b z : (2 <= b <= 36)%Z -> (0 <= z)%Z -> num_acc b (print_num b z) 0 = z.
Proof.
  intros Hb Hz. destruct (print_num_spec b z Hb Hz) as (_ & _ & H).
  specialize (H 0%Z []). by rewrite app_nil_r in H.
Qed.

Lemma to_digits_length b fuel z acc n :
  (2 <= b)%Z -> (0 <= z < b ^ Z.of_nat (S n))%Z ->
  (length (to_digits fuel b z acc) <= S n + length acc)%nat.
Proof.
  intros Hb. revert z acc n. induction fuel as [|f IH]; intros z acc n Hz; cbn [to_digits]; [lia|].
  destruct (Z.ltb_spec z b); [cbn; lia|].
  destruct n as [|n]; [cbn in Hz; lia|].
  etrans; [apply (IH _ _ n)|cbn; lia].
  rewrite Nat2Z.inj_succ, Z.pow_succ_r in Hz by lia.
  split; [apply Z.div_pos; lia|apply Z.div_lt_upper_bound; lia].
Qed.

Lemma hex_pad_length n z :
  (0 <= z < 16 ^ Z.of_nat (S n))%Z -> length (hex_pad (S n) z) = S n.
Proof.
  intros Hz. unfold hex_pad, zero_pad, hex, print_num.
  pose proof (to_digits_length 16 (S (Z.to_nat (Z.log2 z))) z [] n ltac:(lia) Hz).
  rewrite length_app, length_replicate. cbn [length] in *. lia.
Qed.

Lemma num_acc_snoc b l a acc : Forall (digit_ok b) (l ++ [a]) ->
  exists d, (0 <= d < b)%Z /\ num_acc b (l ++ [a]) acc = (num_acc b l acc * b + d)%Z.
Proof.
  intros H. apply Forall_app in H as [Hl Ha]. inversion Ha as [|? ? (d & Hd & Hr) _]; subst.
  exists d. split; [done|]. rewrite num_acc_app by done. cbn. rewrite Hd.
  by replace (d <? b)%Z with true by lia.
Qed.

Lemma num_acc_bound b l : (2 <= b)%Z -> Forall (digit_ok b) l -> (0 <= num_acc b l 0 < b ^ Zlen l)%Z.
Proof.
  intros Hb. induction l as [|x l IH] using rev_ind; intros Hf; [cbn; lia|].
  destruct (num_acc_snoc b l x 0 Hf) as (d & Hd & ->).
  apply Forall_app in Hf as [Hf _]. specialize (IH Hf).
  rewrite length_app. cbn [length]. rewrite Nat2Z.inj_add, Z.pow_add_r by lia.
  change (Z.of_nat 1) with 1%Z. rewrite Z.pow_1_r. nia.
Qed.

(** The number of digits is the least that can hold the value. *)
Lemma print_num_length b z n :
  (2 <= b <= 36)%Z -> (b ^ Z.of_nat n <= z < b ^ Z.of_nat (S n))%Z -> length (print_num b z) = S n.
Proof.
  intros Hb Hz. assert (0 < b ^ Z.of_nat n)%Z by (apply Z.pow_pos_nonneg; lia).
  destruct (print_num_spec b z Hb ltac:(lia)) as (Hall & _ & _).
  pose proof (num_acc_bound b _ ltac:(lia) Hall) as Hbd. rewrite num_acc_print in Hbd by lia.
  pose proof (to_digits_length b (S (Z.to_nat (Z.log2 z))) z [] n ltac:(lia) ltac:(lia)) as Hup.
  fold (print_num b z) in Hup. cbn [length] in Hup.
  destruct (le_lt_dec (S n) (length (print_num b z))) as [|Hlt]; [lia|exfalso].
  assert (b ^ Zlen (print_num b z) <= b ^ Z.of_nat n)%Z by (apply Z.pow_le_mono_r; lia). lia.
Qed.

Lemma zero_pad_digits b n s :
  (1 <= b)%Z -> Forall (digit_ok b) s -> Forall (digit_ok b) (zero_pad n s).
Proof.
  intros Hb H. unfold zero_pad. apply Forall_app. split; [|done].
  apply Forall_replicate. exists 0%Z. split; [done|lia].
Qed.

Lemma hex_pad_digits n z : (0 <= z)%Z -> Forall (digit_ok 16) (hex_pad n z).
Proof. intros. apply zero_pad_digits; [lia|]. by apply print_num_spec. Qed.

Lemma num_acc_zeros b n t : (1 <= b)%Z -> num_acc b (replicate n (byte_of 48) ++ t) 0 = num_acc b t 0.
Proof.
  intros Hb. induction n as [|n IH]; [done|]. cbn [replicate app num_acc].
  change (digit_val (byte_of 48)) with (Some 0%Z). cbn beta iota.
  replace (0 <? b)%Z with true by lia. cbn. apply IH.
Qed.

Lemma num_acc_hex_pad n z : (0 <= z)%Z -> num_acc 16 (hex_pad n z) 0 = z.
Proof.
  intros. unfold hex_pad, zero_pad. rewrite num_acc_zeros by lia. by apply num_acc_print.
Qed.

Lemma digit_not_special b a :
  digit_ok b a -> isspace a = false /\ Ascii.eqb a (byte_of 45) = false /\
                  Ascii.eqb a (byte_of 43) = false /\ a <> NUL.
Proof.
  intros (d & Hd & _). unfold digit_val, is_digit, is_lower, is_upper in Hd.
  rewrite !byte_eqb_val, !byte_val_of. unfold isspace.
  assert (48 <= byte_val a)%Z.
  { repeat case_match; try discriminate; simplify_eq; lia. }
  change (45 mod 256)%Z with 45%Z. change (43 mod 256)%Z with 43%Z.
  split_and!; try lia.
  intros ->. change (byte_val NUL) with 0%Z in *. lia.
Qed.

Lemma is_hex_prefix_digits s : Forall (digit_ok 16) s -> is_hex_prefix s = false.
Proof.
  intros H. destruct s as [|z [|x [|d s]]]; try done.
  inversion H as [|? ? _ H']; subst. inversion H' as [|? ? (v & Hv & Hr) _]; subst.
  cbn [is_hex_prefix].
  rewrite !(byte_eqb_val x), !byte_val_of.
  change (120 mod 256)%Z with 120%Z. change (88 mod 256)%Z with 88%Z.
  assert ((byte_val x =? 120)%Z = false /\ (byte_val x =? 88)%Z = false) as [-> ->].
  { unfold digit_val, is_digit, is_lower, is_upper in Hv. repeat case_match; simplify_eq; lia. }
  by rewrite andb_false_r.
Qed.

(** [strtoul(s, nullptr, 16)] of a string of hexadecimal digits is its value. *)
Lemma strtoul_hex s :
  Forall (digit_ok 16) s -> (num_acc 16 s 0 < 2 ^ 64)%Z -> strtoul s 16 = (num_acc 16 s 0, false).
Proof.
  intros H Hr. unfold strtoul, scan_number.
  assert (skip_spaces s = s) as ->.
  { destruct s as [|a s]; [done|]. inversion H as [|? ? Ha _]; subst. cbn.
    by destruct (digit_not_special _ _ Ha) as (-> & _). }
  assert ((match s with
    | a :: t => if Ascii.eqb a (byte_of 45) then (true, t)
                else if Ascii.eqb a (byte_of 43) then (false, t) else (false, s)
    | [] => (false, []) end) = (false, s)) as ->.
  { destruct s as [|a s]; [done|]. inversion H as [|? ? Ha _]; subst.
    by destruct (digit_not_special _ _ Ha) as (_ & -> & -> & _). }
  rewrite is_hex_prefix_digits by done. rewrite andb_false_r. cbv beta iota zeta.
  change (16 =? 0)%Z with false. cbv beta iota zeta.
  apply Z.ltb_lt in Hr. by rewrite Hr.
Qed.

Lemma digits_no b l a : Forall (digit_ok b) l -> ~ digit_ok b a -> a ∉ l.
Proof. intros Hl Ha Hin. rewrite Forall_forall in Hl. by apply Ha, Hl. Qed.

Lemma dec_no_nul z : NUL ∉ dec z.
Proof.
  assert (~ digit_ok 10 NUL) as Hn by (intros H; by destruct (digit_not_special _ _ H) as (_ & _ & _ & ?)).
  assert (Hp : forall n, (0 <= n)%Z -> NUL ∉ print_num 10 n).
  { intros n Hz. eapply digits_no; [|exact Hn]. by apply print_num_spec. }
  unfold dec. destruct (Z.ltb_spec z 0); [|apply Hp; lia].
  intros [Hin|Hin]%elem_of_app; [|by eapply Hp; [|exact Hin]; lia]. by elem_cases Hin.
Qed.

#[export] Hint Resolve byte_val_range u32_range u32_small le32_roundtrip : adb.
Create Rewrite HintDb adb_rw.
#[export] Hint Rewrite length_le_encode byte_val_of u32_idemp byte_of_val : adb_rw.
