(* ===== verification/LibBase.v ===== *)
(** * The Android base library, as an interface

    [android::base] (libbase) is not part of this repository: its functions
    are operations of the class [LibBase], what the code relies on of them is
    the class [LibBaseLaws] (their documentation in libbase's headers), and
    every definition that calls one takes the class as an argument.  The
    instance [reference_libbase] at the end shows that the laws can hold; the
    witnesses run on it.  [StringPrintf] is not an operation here: the formats
    the code uses ([%s], [%d], [%u], [%x], [%04x], [%08x]) are [printf]'s and
    are written out with the functions of [Prelude]. *)

From S2P Require Import Prelude.

Class LibBase := {
  Split : bytes -> ascii -> list bytes;
  Join : list bytes -> ascii -> bytes;
  StartsWith : bytes -> bytes -> bool;
  ParseInt : bytes -> option Z;
  (** host and, if the address names one, the port; or the error text *)
  ParseNetAddress : bytes -> bytes + (bytes * option Z);
  Dirname : bytes -> bytes;
  Basename : bytes -> bytes;
  EndsWithIgnoreCase : bytes -> bytes -> bool;
  EndsWith : bytes -> bytes -> bool;
  Trim : bytes -> bytes;
}.

Fixpoint intercalate (d : ascii) (l : list bytes) : bytes :=
  match l with
  | [] => []
  | [p] => p
  | p :: t => p ++ d :: intercalate d t
  end.

Class LibBaseLaws (L : LibBase) := {
  (** "Joins a container of things into a single string, using the given separator." *)
  Join_spec l d : Join l d = intercalate d l;
  (** "The string is split at each occurrence of a character in delimiters." *)
  Split_Join s d : intercalate d (Split s d) = s;
  Split_pieces s d : Forall (fun p => d ∉ p) (Split s d);
  Split_nonempty s d : Split s d <> [];
  (** "Tests whether 's' starts with 'prefix'." *)
  StartsWith_spec s p : StartsWith s p = is_prefix p s;
  EndsWith_spec s p : EndsWith s p = is_prefix (reverse p) (reverse s);
  (** "Parses the signed decimal integer in the string 's' [...] Returns true on success." *)
  ParseInt_dec z : (- 2 ^ 31 <= z < 2 ^ 31)%Z -> ParseInt (dec z) = Some z;
  ParseInt_range s z : ParseInt s = Some z -> (- 2 ^ 31 <= z < 2 ^ 31)%Z;
  (** [dirname(3)]: a path is its own directory, or loses its last component;
      ["."] is the directory of a name without one, and its own. *)
  Dirname_dot : Dirname (str ".") = str ".";
  Dirname_shorter p : Dirname p = p \/ Dirname p = str "." \/ length (Dirname p) < length p;
}.

(** ** A reference implementation *)

Fixpoint ref_split (s : bytes) (d : ascii) : list bytes :=
  match s with
  | [] => [[]]
  | a :: t =>
      if Ascii.eqb a d then [] :: ref_split t d
      else match ref_split t d with
           | p :: ps => (a :: p) :: ps
           | [] => [[a]]
           end
  end.

Definition ref_parse_nat (s : bytes) : option Z :=
  match s with
  | [] => None
  | _ => if forallb is_digit s then Some (num_acc 10 s 0) else None
  end.

Definition ref_parse_int (s : bytes) : option Z :=
  let r := match s with
           | a :: t => if Ascii.eqb a (byte_of 45) then option_map Z.opp (ref_parse_nat t)
                       else ref_parse_nat s
           | [] => None
           end in
  match r with
  | Some z => if ((- 2 ^ 31 <=? z) && (z <? 2 ^ 31))%Z then Some z else None
  | None => None
  end.

(** [host[:port]]; a host in brackets may hold colons. *)
Definition ref_parse_net_address (s : bytes) : bytes + (bytes * option Z) :=
  match ref_split s (byte_of 58) with
  | [h] => match h with [] => inl (str "no host") | _ => inr (h, None) end
  | [h; p] =>
      match ref_parse_int p with
      | Some z => if ((1 <=? z) && (z <=? 65535))%Z then inr (h, Some z)
                  else inl (str "bad port number")
      | None => inl (str "bad port number")
      end
  | _ => inl (str "bad address")
  end.

Fixpoint drop_slashes (s : bytes) : bytes :=
  match s with
  | [] => []
  | a :: t => if Ascii.eqb a (byte_of 47) then drop_slashes t else s
  end.
Definition strip_slashes (s : bytes) : bytes := reverse (drop_slashes (reverse s)).

(** [dirname(3)] and [basename(3)]. *)
Definition ref_dirname (s : bytes) : bytes :=
  let root d := match d with [] => str "/" | _ => d end in
  match s with
  | [] => str "."
  | _ =>
      match strip_slashes s with
      | [] => str "/"
      | s' =>
          match reverse (ref_split s' (byte_of 47)) with
          | _ :: ((_ :: _) as rest) => root (strip_slashes (intercalate (byte_of 47) (reverse rest)))
          | _ => str "."
          end
      end
  end.

Definition ref_basename (s : bytes) : bytes :=
  match s with
  | [] => str "."
  | _ =>
      match strip_slashes s with
      | [] => str "/"
      | s' => default [] (last (ref_split s' (byte_of 47)))
      end
  end.

Definition to_lower (a : ascii) : ascii := if is_upper a then byte_of (byte_val a + 32) else a.
Definition ref_ends_with (s suffix : bytes) : bool :=
  bool_decide (map to_lower (drop (length s - length suffix) s) = map to_lower suffix).

Definition ref_trim (s : bytes) : bytes := reverse (skip_spaces (reverse (skip_spaces s))).

#[export] Instance reference_libbase : LibBase := {
  Split := ref_split;
  Join l d := intercalate d l;
  StartsWith s p := is_prefix p s;
  ParseInt := ref_parse_int;
  ParseNetAddress := ref_parse_net_address;
  Dirname := ref_dirname;
  Basename := ref_basename;
  EndsWith s p := is_prefix (reverse p) (reverse s);
  EndsWithIgnoreCase := ref_ends_with;
  Trim := ref_trim;
}.

Lemma ref_split_nonempty s d : ref_split s d <> [].
Proof. destruct s as [|a t]; cbn; [done|]. repeat case_match; done. Qed.

Lemma intercalate_cons d p l : l <> [] -> intercalate d (p :: l) = p ++ d :: intercalate d l.
Proof. by destruct l. Qed.

Lemma ref_split_join s d : intercalate d (ref_split s d) = s.
Proof.
  induction s as [|a t IH]; [done|]. cbn.
  destruct (Ascii.eqb_spec a d) as [->|].
  - rewrite intercalate_cons by apply ref_split_nonempty. by rewrite IH.
  - pose proof (ref_split_nonempty t d).
    destruct (ref_split t d) as [|p ps]; [done|].
    destruct ps; cbn in *; by rewrite <- IH.
Qed.

Lemma ref_split_pieces s d : Forall (fun p => d ∉ p) (ref_split s d).
Proof.
  induction s as [|a t IH]; [repeat constructor; inversion 1|]. cbn.
  destruct (Ascii.eqb_spec a d) as [->|Hne].
  - constructor; [inversion 1|done].
  - destruct (ref_split t d) as [|p ps]; [repeat constructor; set_solver|].
    inversion IH; subst. constructor; [set_solver|done].
Qed.

Lemma digit_ok_10 s : Forall (digit_ok 10) s -> forallb is_digit s = true.
Proof.
  induction 1 as [|a s (d & Hd & Hr) _ IH]; [done|]. cbn. rewrite IH, andb_true_r.
  unfold digit_val in Hd. unfold is_digit, is_lower, is_upper in *.
  destruct (byte_val_range a). repeat case_match; simplify_eq; lia.
Qed.

Lemma ref_parse_nat_print z : (0 <= z)%Z -> ref_parse_nat (print_num 10 z) = Some z.
Proof.
  intros Hz. destruct (print_num_spec 10 z ltac:(lia) Hz) as (Hall & Hne & _).
  unfold ref_parse_nat. destruct (print_num 10 z) eqn:E; [done|]. rewrite <- E in *.
  rewrite digit_ok_10 by done. by rewrite num_acc_print.
Qed.

Lemma ref_parse_int_dec z : (- 2 ^ 31 <= z < 2 ^ 31)%Z -> ref_parse_int (dec z) = Some z.
Proof.
  intros Hz. unfold ref_parse_int, dec.
  assert (Hb : ((- 2 ^ 31 <=? z) && (z <? 2 ^ 31))%Z = true) by lia.
  destruct (Z.ltb_spec z 0).
  - change (str "-" ++ print_num 10 (- z)) with (byte_of 45 :: print_num 10 (- z)).
    cbv beta iota. rewrite Ascii.eqb_refl, ref_parse_nat_print by lia. cbn [option_map].
    rewrite Z.opp_involutive. by rewrite Hb.
  - destruct (print_num_spec 10 z ltac:(lia) ltac:(lia)) as (Hall & Hne & _).
    destruct (print_num 10 z) as [|a t] eqn:E; [done|].
    inversion Hall as [|? ? Ha _]; subst.
    destruct (digit_not_special _ _ Ha) as (_ & -> & _). rewrite <- E.
    rewrite ref_parse_nat_print by lia. by rewrite Hb.
Qed.

Lemma ref_parse_int_range s z : ref_parse_int s = Some z -> (- 2 ^ 31 <= z < 2 ^ 31)%Z.
Proof. unfold ref_parse_int. intros. repeat case_match; simplify_eq; lia. Qed.

Lemma intercalate_snoc d l p : l <> [] -> intercalate d (l ++ [p]) = intercalate d l ++ d :: p.
Proof.
  induction l as [|q l IH]; [done|]. intros _. destruct l as [|q' l]; [done|].
  specialize (IH ltac:(done)). cbn [app] in IH |- *. rewrite (intercalate_cons d q (q' :: l ++ [p])) by done.
  rewrite (intercalate_cons d q (q' :: l)) by done. rewrite IH, <- app_assoc. done.
Qed.

Lemma strip_slashes_length s : length (strip_slashes s) <= length s.
Proof.
  unfold strip_slashes. rewrite length_reverse, <- (length_reverse s). induction (reverse s) as [|a t IH]; [done|].
  cbn. destruct (Ascii.eqb a _); cbn; lia.
Qed.

Lemma ref_dirname_shorter p : ref_dirname p = p \/ ref_dirname p = str "." \/ length (ref_dirname p) < length p.
Proof.
  unfold ref_dirname. destruct p as [|c0 p0]; [auto|]. set (p := c0 :: p0).
  pose proof (strip_slashes_length p) as Hl. destruct (strip_slashes p) as [|c1 q1] eqn:Hq.
  { destruct p0 as [|c2 p1]; [|right; right; cbn; lia]. left. revert Hq. unfold p, strip_slashes. cbn.
    destruct (Ascii.eqb_spec c0 (byte_of 47)) as [->|]; [done|]. by intros Hq%(f_equal length). }
  set (q := c1 :: q1) in *. pose proof (ref_split_join q (byte_of 47)) as Hj.
  destruct (reverse (ref_split q (byte_of 47))) as [|lst rest] eqn:Hr; [auto|].
  destruct rest as [|r rest]; [auto|]. set (init := r :: rest) in *.
  apply (f_equal reverse) in Hr. rewrite reverse_involutive, reverse_cons in Hr. rewrite Hr in Hj.
  assert (reverse init <> []) as Hne.
  { intros H0. apply (f_equal length) in H0. rewrite length_reverse in H0. by unfold init in H0. }
  rewrite intercalate_snoc in Hj by done. pose proof (f_equal length Hj) as Hjl. rewrite length_app in Hjl. cbn [length] in Hjl.
  set (dir := intercalate (byte_of 47) (reverse init)) in *. pose proof (strip_slashes_length dir) as Hd.
  destruct (strip_slashes dir) as [|d1 ds] eqn:Hs; [|right; right; cbn [length] in *; lia].
  destruct p0 as [|c2 p1]; [|right; right; cbn; lia]. left. destruct dir as [|d1 ds]; [|cbn in *; lia].
  destruct lst; [|cbn in *; lia]. cbn in Hj. fold q in Hj. rewrite <- Hj in Hq. revert Hq. unfold p, strip_slashes. cbn.
  by destruct (Ascii.eqb_spec c0 (byte_of 47)) as [->|].
Qed.

#[export] Instance reference_libbase_laws : LibBaseLaws reference_libbase.
Proof.
  split; intros; cbn.
  - done.
  - apply ref_split_join.
  - apply ref_split_pieces.
  - apply ref_split_nonempty.
  - done.
  - done.
  - by apply ref_parse_int_dec.
  - by eapply ref_parse_int_range.
  - done.
  - apply ref_dirname_shorter.
Qed.

(** ** Splitting what was joined *)

Lemma app_delim_inj (d : ascii) (p q r s : bytes) :
  d ∉ p -> d ∉ q -> p ++ d :: r = q ++ d :: s -> p = q /\ r = s.
Proof.
  revert q. induction p as [|a p IH]; intros [|b q] Hp Hq E; cbn in *; simplify_eq.
  - done.
  - exfalso. set_solver.
  - exfalso. set_solver.
  - destruct (IH q) as [-> ->]; [set_solver|set_solver|done|done].
Qed.

Lemma intercalate_in (d : ascii) p q l : d ∈ intercalate d (p :: q :: l).
Proof. rewrite intercalate_cons by done. set_solver. Qed.

Lemma intercalate_inj (d : ascii) l k :
  l <> [] -> k <> [] -> Forall (fun p => d ∉ p) l -> Forall (fun p => d ∉ p) k ->
  intercalate d l = intercalate d k -> l = k.
Proof.
  revert k. induction l as [|p l IH]; intros k Hl Hk Fl Fk E; [done|].
  destruct k as [|q k]; [done|]. inversion Fl; subst. inversion Fk; subst.
  destruct l as [|p' l], k as [|q' k].
  - cbn in E. by subst.
  - exfalso. change (intercalate d [p]) with p in E. pose proof (intercalate_in d q q' k) as Hin.
    by rewrite <- E in Hin.
  - exfalso. change (intercalate d [q]) with q in E. pose proof (intercalate_in d p p' l) as Hin.
    by rewrite E in Hin.
  - rewrite !intercalate_cons in E by done. apply app_delim_inj in E as [-> E]; [|done|done].
    f_equal. by apply IH.
Qed.

Lemma Split_intercalate `{!LibBaseLaws L} (d : ascii) l :
  l <> [] -> Forall (fun p => d ∉ p) l -> Split (intercalate d l) d = l.
Proof.
  intros Hl Hf. apply (intercalate_inj d); auto using Split_nonempty, Split_pieces, Split_Join.
Qed.

Lemma Split_single `{!LibBaseLaws L} (d : ascii) s : d ∉ s -> Split s d = [s].
Proof. intros H. by apply (Split_intercalate d [s]); [done|constructor]. Qed.

#[export] Hint Resolve Split_nonempty Split_pieces : adb.
