(* ===== verification/Packet.v ===== *)
(** * Messages and packets (adb.h, adb.cpp, transport.cpp)

    The constants and structures of adb.h, the packet checksum of adb.cpp, the
    header and data checks of transport.cpp, and the 24-byte wire header. *)

From S2P Require Import Prelude.

(** ** adb.h *)

Definition MAX_PAYLOAD_V1 : Z := (4 * 1024)%Z.
Definition MAX_PAYLOAD_V2 : Z := (256 * 1024)%Z.
Definition MAX_PAYLOAD : Z := MAX_PAYLOAD_V2.

Definition A_SYNC : Z := 0x434e5953.
Definition A_CNXN : Z := 0x4e584e43.
Definition A_OPEN : Z := 0x4e45504f.
Definition A_OKAY : Z := 0x59414b4f.
Definition A_CLSE : Z := 0x45534c43.
Definition A_WRTE : Z := 0x45545257.
Definition A_AUTH : Z := 0x48545541.

Definition A_VERSION : Z := 0x01000000.

(** adb_auth.h *)
Definition ADB_AUTH_TOKEN : Z := 1.
Definition ADB_AUTH_SIGNATURE : Z := 2.
Definition ADB_AUTH_RSAPUBLICKEY : Z := 3.

Record amessage := {
  command : Z;
  arg0 : Z;
  arg1 : Z;
  data_length : Z;
  data_check : Z;
  magic : Z;
}.

(** [len] and [ptr] describe the part of the packet still to be written to a
    file descriptor; [ptr] is an offset into [data].  [data] is the
    initialised prefix of the [MAX_PAYLOAD]-byte buffer. *)
Record apacket := {
  len : Z;
  ptr : Z;
  msg : amessage;
  data : bytes;
}.

Definition zero_message : amessage :=
  {| command := 0; arg0 := 0; arg1 := 0; data_length := 0; data_check := 0; magic := 0 |}.

(** What [get_apacket] returns: every field but the buffer is zeroed. *)
Definition fresh_apacket : apacket :=
  {| len := 0; ptr := 0; msg := zero_message; data := [] |}.

(** A packet with the fields the senders fill in. *)
Definition mk_packet (cmd a0 a1 : Z) (payload : bytes) : apacket :=
  {| len := 0; ptr := 0;
     msg := {| command := cmd; arg0 := a0; arg1 := a1; data_length := Zlen payload;
               data_check := 0; magic := 0 |};
     data := payload |}.

(** ** Checksum and checks *)

Fixpoint sum_bytes (bs : bytes) (sum : Z) : Z :=
  match bs with
  | [] => sum
  | x :: t => sum_bytes t (u32 (sum + byte_val x))
  end.

Definition calculate_apacket_checksum (p : apacket) : Z :=
  sum_bytes (take (Z.to_nat (data_length (msg p))) (data p)) 0.

Definition xor32 (z : Z) : Z := Z.lxor z 0xffffffff.

Definition check_header (p : apacket) (max_payload : Z) : bool :=
  if negb (magic (msg p) =? xor32 (command (msg p)))%Z then false
  else if (max_payload <? data_length (msg p))%Z then false
  else true.

Definition check_data (p : apacket) : bool :=
  (calculate_apacket_checksum p =? data_check (msg p))%Z.

(** The two fields [send_packet] computes before it queues a packet. *)
Definition seal_packet (p : apacket) : apacket :=
  let m := msg p in
  {| len := len p; ptr := ptr p;
     msg := {| command := command m; arg0 := arg0 m; arg1 := arg1 m;
               data_length := data_length m;
               data_check := calculate_apacket_checksum p;
               magic := xor32 (command m) |};
     data := data p |}.

(** ** The wire header: six little-endian words *)

Definition sizeof_amessage : Z := 24.

Definition encode_message (m : amessage) : bytes :=
  le_encode 4 (command m) ++ le_encode 4 (arg0 m) ++ le_encode 4 (arg1 m) ++
  le_encode 4 (data_length m) ++ le_encode 4 (data_check m) ++ le_encode 4 (magic m).

Definition field32 (k : nat) (bs : bytes) : Z := le_decode (take 4 (drop (4 * k) bs)).

Definition decode_message (bs : bytes) : amessage :=
  {| command := field32 0 bs; arg0 := field32 1 bs; arg1 := field32 2 bs;
     data_length := field32 3 bs; data_check := field32 4 bs; magic := field32 5 bs |}.

(** Every field is a [uint32_t]. *)
Definition message_ok (m : amessage) : Prop :=
  (0 <= command m < 2 ^ 32)%Z /\ (0 <= arg0 m < 2 ^ 32)%Z /\ (0 <= arg1 m < 2 ^ 32)%Z /\
  (0 <= data_length m < 2 ^ 32)%Z /\ (0 <= data_check m < 2 ^ 32)%Z /\ (0 <= magic m < 2 ^ 32)%Z.

(** The payload announced by the header is in the buffer. *)
Definition packet_ok (p : apacket) : Prop :=
  message_ok (msg p) /\ data_length (msg p) = Zlen (data p) /\ (Zlen (data p) <= MAX_PAYLOAD)%Z.

(** ** dump_packet *)

(** [dump_hex] of adb_utils.cpp: at most 16 bytes in hexadecimal, then as text. *)
Definition dump_hex (bs : bytes) : bytes :=
  let shown := take 16 bs in
  let line := flat_map (fun c => hex_pad 2 (byte_val c)) shown ++ [byte_of 32] ++
              map (fun c => if isprint c then c else byte_of 46) shown in
  if (16 <? length bs)%nat then line ++ str " [truncated]" else line.

Definition dump_arg (a : Z) : bytes := if (a <? 256)%Z then dec a else str "0x" ++ hex a.

Definition command_byte (command : Z) (n : nat) : Z := Z.land (Z.shiftr command (Z.of_nat n * 8)) 255.

Definition dump_packet (name func : bytes) (p : apacket) : bytes :=
  let m := msg p in
  let bs := map (command_byte (command m)) (seq 0 4) in
  let cmd := if forallb (fun b => negb ((b <? 32) || (127 <=? b))%Z) bs
             then map byte_of bs else hex_pad 8 (command m) in
  name ++ str ": " ++ func ++ str ": [" ++ cmd ++ str "] arg0=" ++ dump_arg (arg0 m) ++
  str " arg1=" ++ dump_arg (arg1 m) ++ str " (len=" ++ dec (i32 (data_length m)) ++ str ") " ++
  dump_hex (take (Z.to_nat (data_length m)) (data p)).

(** ** Lemmas *)

Definition byte_sum (bs : bytes) : Z := foldr (fun a z => byte_val a + z)%Z 0%Z bs.

Lemma byte_sum_cons a l : byte_sum (a :: l) = (byte_val a + byte_sum l)%Z.
Proof. done. Qed.

Lemma sum_bytes_spec bs s : sum_bytes bs (u32 s) = u32 (s + byte_sum bs).
Proof.
  revert s. induction bs as [|a t IH]; intros s; cbn [sum_bytes]; [by rewrite Z.add_0_r|].
  rewrite byte_sum_cons.
  replace (u32 (u32 s + byte_val a)) with (u32 (s + byte_val a)).
  - rewrite IH. f_equal. lia.
  - unfold u32. by rewrite Zplus_mod_idemp_l.
Qed.

Lemma byte_sum_app l k : byte_sum (l ++ k) = (byte_sum l + byte_sum k)%Z.
Proof. induction l as [|a l IH]; [done|]. cbn [app]. rewrite !byte_sum_cons. lia. Qed.

Lemma byte_sum_bound l : (0 <= byte_sum l <= 255 * Zlen l)%Z.
Proof.
  induction l as [|a l IH]; [done|]. rewrite byte_sum_cons. cbn [length].
  pose proof (byte_val_range a). lia.
Qed.

Lemma byte_sum_perm l k : l ≡ₚ k -> byte_sum l = byte_sum k.
Proof.
  unfold byte_sum. induction 1; cbn; lia.
Qed.

Lemma checksum_spec p :
  data_length (msg p) = Zlen (data p) -> calculate_apacket_checksum p = u32 (byte_sum (data p)).
Proof.
  intros H. unfold calculate_apacket_checksum. rewrite H, Nat2Z.id, firstn_all.
  exact (sum_bytes_spec (data p) 0).
Qed.

Lemma checksum_range p : (0 <= calculate_apacket_checksum p < 2 ^ 32)%Z.
Proof.
  unfold calculate_apacket_checksum. pose proof (sum_bytes_spec (take (Z.to_nat (data_length (msg p))) (data p)) 0) as H.
  change (u32 0) with 0%Z in H. rewrite H. apply u32_range.
Qed.

Lemma xor32_range z : (0 <= z < 2 ^ 32)%Z -> (0 <= xor32 z < 2 ^ 32)%Z.
Proof.
  intros H. unfold xor32. split; [apply Z.lxor_nonneg; lia|].
  destruct (Z.eq_dec (Z.lxor z 0xffffffff) 0%Z) as [->|Hne]; [lia|].
  assert (0 <= Z.lxor z 0xffffffff)%Z by (apply Z.lxor_nonneg; lia).
  apply Z.log2_lt_pow2; [lia|].
  eapply Z.le_lt_trans; [apply Z.log2_lxor; lia|].
  apply Z.max_lub_lt; [|by vm_compute].
  destruct (Z.eq_dec z 0%Z) as [->|]; [by vm_compute|]. apply Z.log2_lt_pow2; lia.
Qed.

Lemma seal_packet_ok p : packet_ok p -> packet_ok (seal_packet p).
Proof.
  intros ((? & ? & ? & ? & ? & ?) & Hd & Hl). unfold packet_ok, message_ok; cbn.
  pose proof (checksum_range p). pose proof (xor32_range (command (msg p))).
  split_and!; lia.
Qed.

Lemma take_app_le {A} n (l k : list A) : n <= length l -> take n (l ++ k) = take n l.
Proof. intros. rewrite take_app. replace (n - length l) with 0 by lia. by rewrite take_0, app_nil_r. Qed.

Lemma field32_here z post : (0 <= z < 2 ^ 32)%Z -> field32 0 (le_encode 4 z ++ post) = z.
Proof.
  intros Hz. unfold field32. change (4 * 0) with 0. rewrite drop_0.
  rewrite take_app_le by (rewrite length_le_encode; lia).
  rewrite take_ge by (rewrite length_le_encode; lia). by apply le32_roundtrip.
Qed.

Lemma field32_next k z post : field32 (S k) (le_encode 4 z ++ post) = field32 k post.
Proof.
  unfold field32. f_equal. f_equal.
  rewrite drop_app_ge by (rewrite length_le_encode; lia).
  f_equal. rewrite length_le_encode. lia.
Qed.

Lemma length_encode_message m : length (encode_message m) = 24.
Proof. unfold encode_message. by rewrite !length_app, !length_le_encode. Qed.

Lemma decode_encode_message m post : message_ok m -> decode_message (encode_message m ++ post) = m.
Proof.
  intros (H1 & H2 & H3 & H4 & H5 & H6). unfold decode_message, encode_message.
  rewrite <- !app_assoc.
  rewrite !field32_next, !field32_here by done. by destruct m.
Qed.

Lemma decode_message_ok bs : message_ok (decode_message bs).
Proof.
  assert (forall k, (0 <= field32 k bs < 2 ^ 32)%Z) as H.
  { intros k. unfold field32. pose proof (le_decode_range (take 4 (drop (4 * k) bs))) as Hr.
    pose proof (length_take (drop (4 * k) bs) 4).
    split; [lia|]. eapply Z.lt_le_trans; [apply Hr|].
    change (2 ^ 32)%Z with (256 ^ 4)%Z. apply Z.pow_le_mono_r; lia. }
  unfold message_ok, decode_message. cbn [command arg0 arg1 data_length data_check magic].
  split_and!; apply H.
Qed.

Lemma check_header_true p mp :
  check_header p mp = true <-> magic (msg p) = xor32 (command (msg p)) /\ (data_length (msg p) <= mp)%Z.
Proof.
  unfold check_header. destruct (Z.eqb_spec (magic (msg p)) (xor32 (command (msg p)))); cbn;
  destruct (Z.ltb_spec mp (data_length (msg p))); split; intros; try done; try split; try done; lia.
Qed.

#[export] Hint Resolve seal_packet_ok decode_message_ok checksum_range : adb.

(** ** Properties *)

(** A payload in which exactly one byte differs from the one the
    checksum was computed for is always rejected by [check_data]. *)
Theorem check_data_single_byte l a b r p q :
  data p = l ++ a :: r -> packet_ok p ->
  q = {| len := len p; ptr := ptr p; msg := msg (seal_packet p); data := l ++ b :: r |} ->
  check_data q = true <-> b = a.
Proof.
  intros Hd (_ & Hl & Hmax) ->. unfold check_data. cbn [msg seal_packet data_check].
  rewrite (checksum_spec p) by done. rewrite checksum_spec.
  2:{ cbn. rewrite Hl, Hd, !length_app. done. }
  cbn [data]. rewrite Hd, !byte_sum_app. rewrite !byte_sum_cons.
  rewrite Hd, length_app in Hmax. cbn [length] in Hmax.
  pose proof (byte_sum_bound l). pose proof (byte_sum_bound r).
  pose proof (byte_val_range a). pose proof (byte_val_range b).
  change MAX_PAYLOAD with 262144%Z in Hmax.
  rewrite !u32_small by lia. rewrite Z.eqb_eq. split; [|intros ->; lia].
  intros. apply byte_val_inj. lia.
Qed.

Lemma check_data_single_byte_witness :
  let p := mk_packet A_WRTE 1 2 (str "OKAY") in
  let q := {| len := len p; ptr := ptr p; msg := msg (seal_packet p); data := str "OKAX" |} in
  check_data q = true <-> byte_of 88 = byte_of 89.
Proof.
  intros p q. apply (check_data_single_byte (str "OKA") (byte_of 89) (byte_of 88) [] p q);
    [reflexivity| |reflexivity].
  unfold packet_ok, message_ok. split_and!; vm_compute; first [reflexivity|discriminate].
Defined.
