(* ===== verification/AdbIo.v ===== *)
(** * Exact reads and writes, protocol strings (adb_io.cpp)

    [adb_read] and [adb_write] are system calls: operations of the class
    [FdOps] over the state of the kernel.  [FdStream] is the interface the
    clients of adb_io.cpp rely on: a descriptor with a byte stream to read and
    a byte stream written, delivered in chunks of any size, where a write may
    be refused with [EAGAIN] finitely often. *)

From S2P Require Import Prelude Packet.

Inductive errno_t :=
| E_NONE | EAGAIN | EPIPE | EINTR | ENOENT | EEXIST | EINVAL | EMSGSIZE | ECONNABORTED
| ERANGE | EACCES | EFAULT | EFBIG | EIO | EISDIR | ELOOP | EMFILE | ENAMETOOLONG | ENFILE
| ENOMEM | ENOSPC | ENOTDIR | EOVERFLOW | EPERM | EROFS | ETXTBSY | ENOTSUP | ENOPROTOOPT
| ECONNRESET | E_OTHER (code : Z).

#[export] Instance errno_eq_dec : EqDecision errno_t.
Proof. solve_decision. Defined.

Inductive read_result := RdOk (bs : bytes) | RdErr (e : errno_t).
Inductive write_result := WrOk (n : Z) | WrErr (e : errno_t).

Class FdOps (W : Type) := {
  adb_read : Z -> Z -> W -> read_result * W;
  adb_write : Z -> bytes -> W -> write_result * W;
  adb_shutdown : Z -> W -> W;
  (** text of [strerror] *)
  strerror : errno_t -> bytes;
}.

(** The result of [ReadFdExactly] and [WriteFdExactly]; a failure carries
    the value [errno] has then. *)
Inductive rx_result := RX_ok (bs : bytes) | RX_fail (e : errno_t).
Inductive wx_result := WX_ok | WX_fail (e : errno_t).

Definition wx_bool (r : wx_result) : bool := match r with WX_ok => true | WX_fail _ => false end.

Section AdbIo.
Context {W : Type} `{FdOps W}.

Definition sys_read (fd n : Z) : M W read_result :=
  fun w => let '(r, w') := adb_read fd n w in Done r w'.
Definition sys_write (fd : Z) (bs : bytes) : M W write_result :=
  fun w => let '(r, w') := adb_write fd bs w in Done r w'.

(** ** ReadFdExactly *)

Fixpoint ReadFdExactly_loop (fuel : nat) (fd : Z) (len : Z) (acc : bytes) : M W rx_result :=
  if (0 <? len)%Z then
    match fuel with
    | O => no_fuel
    | S f =>
        let* r := sys_read fd len in
        match r with
        | RdOk [] => ret (RX_fail E_NONE)           (* disconnected: errno = 0 *)
        | RdOk bs => ReadFdExactly_loop f fd (len - Zlen bs) (acc ++ bs)
        | RdErr e => ret (RX_fail e)
        end
    end
  else ret (RX_ok acc).

Definition ReadFdExactly (fd len : Z) : M W rx_result :=
  ReadFdExactly_loop (Z.to_nat len) fd len [].

(** ** WriteFdExactly: retries on [EAGAIN] *)

Fixpoint WriteFdExactly_loop (fuel : nat) (fd : Z) (buf : bytes) : M W wx_result :=
  match buf with
  | [] => ret WX_ok
  | _ =>
      match fuel with
      | O => no_fuel
      | S f =>
          let* r := sys_write fd buf in
          match r with
          | WrErr EAGAIN => WriteFdExactly_loop f fd buf
          | WrErr EPIPE => ret (WX_fail E_NONE)
          | WrErr e => ret (WX_fail e)
          | WrOk n => WriteFdExactly_loop f fd (drop (Z.to_nat n) buf)
          end
      end
  end.

Definition WriteFdExactly (fuel : nat) (fd : Z) (buf : bytes) : M W wx_result :=
  WriteFdExactly_loop fuel fd buf.

(** ** Protocol strings *)

(** ["%04x%.*s"]: the precision stops at the length, the [%s] at a NUL. *)
Definition SendProtocolString (fuel : nat) (fd : Z) (s : bytes) : M W wx_result :=
  let length := u32 (Zlen s) in
  if (MAX_PAYLOAD - 4 <? length)%Z then ret (WX_fail EMSGSIZE)
  else WriteFdExactly fuel fd (hex_pad 4 length ++ c_str (take (Z.to_nat length) s)).

Definition perror_str (m : bytes) (e : errno_t) : bytes := m ++ str ": " ++ strerror e.

(** [inl]: the error text.  [resize] throws [std::length_error], which ends the
    process, when the length is over [max_size]. *)
Definition string_max_size : Z := (2 ^ 62)%Z.

Definition ReadProtocolString (fd : Z) : M W (bytes + bytes) :=
  let* r := ReadFdExactly fd 4 in
  match r with
  | RX_fail e => ret (inl (perror_str (str "protocol fault (couldn't read status length)") e))
  | RX_ok buf =>
      let len := fst (strtoul (c_str buf) 16) in
      if (string_max_size <? len)%Z then crash "std::length_error" else
      let* r := ReadFdExactly fd len in
      match r with
      | RX_fail e => ret (inl (perror_str (str "protocol fault (couldn't read status message)") e))
      | RX_ok s => ret (inr s)
      end
  end.

Definition SendOkay (fuel : nat) (fd : Z) : M W wx_result := WriteFdExactly fuel fd (str "OKAY").

Definition SendFail (fuel : nat) (fd : Z) (reason : bytes) : M W wx_result :=
  let* r := WriteFdExactly fuel fd (str "FAIL") in
  match r with
  | WX_ok => SendProtocolString fuel fd reason
  | WX_fail e => ret (WX_fail e)
  end.

(** [CHECK_NE(errno, EAGAIN)]; the second component is [errno]. *)
Definition ReadOrderlyShutdown (fd : Z) : M W (bool * errno_t) :=
  let* r := sys_read fd 16 in
  match r with
  | RdErr e => check (negb (bool_decide (e = EAGAIN))) "CHECK_NE(errno, EAGAIN)" ;;; ret (false, e)
  | RdOk [] => ret (true, E_NONE)
  | RdOk _ => modify (adb_shutdown fd) ;;; ret (false, EINVAL)
  end.

End AdbIo.

(** ** The stream interface *)

(** [rx]: what the peer sent and was not read; [tx]: what was written;
    [stall]: a bound on the refusals to come. *)
Class FdStream (W : Type) `{FdOps W} (fd : Z) (rx tx : W -> bytes) (stall : W -> nat) := {
  stream_read n w : (0 < n)%Z ->
    exists bs w', adb_read fd n w = (RdOk bs, w') /\ rx w = bs ++ rx w' /\
                  (Zlen bs <= n)%Z /\ (bs = [] -> rx w = []) /\ tx w' = tx w /\ stall w' = stall w;
  stream_write buf w : buf <> [] ->
    (exists n w', adb_write fd buf w = (WrOk n, w') /\ (0 < n <= Zlen buf)%Z /\
                  tx w' = tx w ++ take (Z.to_nat n) buf /\ rx w' = rx w /\ stall w' <= stall w) \/
    (exists w', adb_write fd buf w = (WrErr EAGAIN, w') /\ tx w' = tx w /\ rx w' = rx w /\
                stall w' < stall w);
}.

Section StreamLemmas.
Context {W : Type} `{FdOps W} (fd : Z) (rx tx : W -> bytes) (stall : W -> nat).
Context `{!FdStream W fd rx tx stall}.

Lemma ReadFdExactly_loop_spec fuel len acc w :
  (0 <= len)%Z -> Z.to_nat len <= fuel ->
  exists w', tx w' = tx w /\ stall w' = stall w /\
    if decide (len <= Zlen (rx w))%Z
    then ReadFdExactly_loop fuel fd len acc w = Done (RX_ok (acc ++ take (Z.to_nat len) (rx w))) w' /\
         rx w' = drop (Z.to_nat len) (rx w)
    else ReadFdExactly_loop fuel fd len acc w = Done (RX_fail E_NONE) w' /\ rx w' = [].
Proof.
  revert len acc w. induction fuel as [|f IH]; intros len acc w Hl Hf.
  - assert (len = 0%Z) as -> by lia. exists w. rewrite decide_True by lia.
    cbn. by rewrite take_0, app_nil_r, drop_0.
  - cbn [ReadFdExactly_loop]. destruct (Z.ltb_spec 0 len) as [Hpos|].
    2:{ assert (len = 0%Z) as -> by lia. exists w. rewrite decide_True by lia.
        cbn. by rewrite take_0, app_nil_r, drop_0. }
    destruct (stream_read (fd := fd) (rx := rx) (tx := tx) (stall := stall) len w Hpos)
      as (bs & w1 & Hr & Hrx & Hlen & Hnil & Htx & Hst).
    unfold bind at 1 2, sys_read. rewrite Hr.
    destruct bs as [|b bs].
    + pose proof (Hnil eq_refl) as He. exists w1.
      rewrite decide_False by (rewrite He; cbn; lia).
      split_and!; [done|done|done|]. rewrite He in Hrx. by symmetry.
    + set (chunk := b :: bs) in *. assert (0 < Zlen chunk)%Z by (cbn; lia).
      destruct (IH (len - Zlen chunk)%Z (acc ++ chunk) w1) as (w2 & Ht2 & Hs2 & IH2); [lia|lia|].
      exists w2. split; [congruence|]. split; [congruence|].
      rewrite Hrx, length_app.
      destruct (decide (len - Zlen chunk <= Zlen (rx w1))%Z).
      * rewrite decide_True by lia. destruct IH2 as [-> ->].
        rewrite <- app_assoc. rewrite take_app_ge, drop_app_ge by lia.
        by replace (Z.to_nat (len - Zlen chunk)) with (Z.to_nat len - length chunk) by lia.
      * rewrite decide_False by lia. done.
Qed.

Lemma WriteFdExactly_loop_spec fuel buf w :
  length buf + stall w <= fuel ->
  exists w', WriteFdExactly_loop fuel fd buf w = Done WX_ok w' /\ tx w' = tx w ++ buf /\
             rx w' = rx w /\ stall w' <= stall w.
Proof.
  revert buf w. induction fuel as [|f IH]; intros buf w Hf.
  - destruct buf; [|cbn in Hf; lia]. exists w. by rewrite app_nil_r.
  - destruct buf as [|b bs]; [exists w; by rewrite app_nil_r|].
    cbn [WriteFdExactly_loop]. unfold bind, sys_write.
    destruct (stream_write (fd := fd) (rx := rx) (tx := tx) (stall := stall) (b :: bs) w ltac:(done))
      as [(n & w1 & -> & Hn & Ht & Hr & Hs)|(w1 & -> & Ht & Hr & Hs)].
    + destruct (IH (drop (Z.to_nat n) (b :: bs)) w1) as (w2 & -> & Ht2 & Hr2 & Hs2).
      { rewrite length_drop. cbn [length] in *. lia. }
      exists w2. split_and!; [done| |congruence|lia].
      by rewrite Ht2, Ht, <- app_assoc, take_drop.
    + destruct (IH (b :: bs) w1) as (w2 & -> & Ht2 & Hr2 & Hs2); [cbn [length] in *; lia|].
      exists w2. split_and!; [done| |congruence|lia]. by rewrite Ht2, Ht.
Qed.

End StreamLemmas.

(** ** A concrete stream: chunks to read, a plan of short writes and refusals *)

Record wire := { wire_rx : list bytes; wire_tx : bytes; wire_plan : list nat }.

Fixpoint wire_take (n : nat) (chunks : list bytes) : bytes * list bytes :=
  match chunks with
  | [] => ([], [])
  | [] :: cs => wire_take n cs
  | c :: cs => (take n c, drop n c :: cs)
  end.

#[export] Instance wire_ops : FdOps wire := {
  adb_read _ n w :=
    let '(bs, cs) := wire_take (Z.to_nat n) (wire_rx w) in
    (RdOk bs, {| wire_rx := cs; wire_tx := wire_tx w; wire_plan := wire_plan w |});
  adb_write _ buf w :=
    match wire_plan w with
    | [] => (WrOk (Zlen buf), {| wire_rx := wire_rx w; wire_tx := wire_tx w ++ buf; wire_plan := [] |})
    | O :: p => (WrErr EAGAIN, {| wire_rx := wire_rx w; wire_tx := wire_tx w; wire_plan := p |})
    | S k :: p =>
        let n := Nat.min (S k) (length buf) in
        (WrOk (Z.of_nat n),
         {| wire_rx := wire_rx w; wire_tx := wire_tx w ++ take n buf; wire_plan := p |})
    end;
  adb_shutdown _ w := {| wire_rx := []; wire_tx := wire_tx w; wire_plan := wire_plan w |};
  strerror _ := str "error";
}.

Definition wire_in (w : wire) : bytes := mjoin (wire_rx w).

Lemma wire_take_spec n cs :
  0 < n ->
  mjoin cs = fst (wire_take n cs) ++ mjoin (snd (wire_take n cs)) /\
  length (fst (wire_take n cs)) <= n /\ (fst (wire_take n cs) = [] -> mjoin cs = []).
Proof.
  intros Hn. induction cs as [|[|a c] cs IH]; [cbn; split_and!; [done|lia|done]|exact IH|].
  cbn. destruct n as [|n]; [lia|]. cbn. rewrite app_assoc, take_drop.
  split_and!; [done| |done]. rewrite length_take. lia.
Qed.

#[export] Instance wire_stream fd : FdStream wire fd wire_in wire_tx (fun w => length (wire_plan w)).
Proof.
  split.
  - intros n w Hn. cbn. destruct (wire_take_spec (Z.to_nat n) (wire_rx w) ltac:(lia)) as (H1 & H2 & H3).
    destruct (wire_take (Z.to_nat n) (wire_rx w)) as [bs cs]. cbn in *.
    eexists bs, _. split_and!; [done|done|lia|done|done|done].
  - intros buf w Hb. assert (0 < length buf) by (destruct buf; [done|cbn; lia]).
    cbn -[Nat.min]. destruct (wire_plan w) as [|[|k] p] eqn:Hp.
    + left. eexists _, _. split; [reflexivity|]. cbn. rewrite Nat2Z.id, firstn_all, ?Hp.
      split_and!; try done; lia.
    + right. eexists. split; [reflexivity|]. cbn. rewrite ?Hp. split_and!; try done; cbn; lia.
    + left. eexists _, _. split; [reflexivity|]. cbn -[Nat.min]. rewrite Nat2Z.id, ?Hp.
      split_and!; try done; cbn [length]; lia.
Qed.

(** ** Protocol strings on streams *)

Section ProtocolLemmas.
Context {W : Type} `{FdOps W} (fd : Z) (rx tx : W -> bytes) (stall : W -> nat).
Context `{!FdStream W fd rx tx stall}.

Lemma ReadFdExactly_spec len w :
  (0 <= len)%Z ->
  exists w', tx w' = tx w /\ stall w' = stall w /\
    if decide (len <= Zlen (rx w))%Z
    then ReadFdExactly fd len w = Done (RX_ok (take (Z.to_nat len) (rx w))) w' /\
         rx w' = drop (Z.to_nat len) (rx w)
    else ReadFdExactly fd len w = Done (RX_fail E_NONE) w' /\ rx w' = [].
Proof.
  intros Hl. unfold ReadFdExactly.
  destruct (ReadFdExactly_loop_spec fd rx tx stall (Z.to_nat len) len [] w Hl) as (w' & ? & ? & Hr); [lia|].
  eauto.
Qed.

Lemma ReadFdExactly_app pre post w :
  rx w = pre ++ post ->
  exists w', ReadFdExactly fd (Zlen pre) w = Done (RX_ok pre) w' /\ rx w' = post /\
             tx w' = tx w /\ stall w' = stall w.
Proof.
  intros Hrx. destruct (ReadFdExactly_spec (Zlen pre) w ltac:(lia)) as (w' & Ht & Hs & Hr).
  rewrite Hrx, length_app in Hr. rewrite decide_True in Hr by lia.
  rewrite Nat2Z.id, take_app_length, drop_app_length in Hr. destruct Hr. eauto.
Qed.

Lemma SendProtocolString_spec fuel s w :
  NUL ∉ s -> (Zlen s <= MAX_PAYLOAD - 4)%Z -> length s + 8 + stall w <= fuel ->
  exists w', SendProtocolString fuel fd s w = Done WX_ok w' /\
             tx w' = tx w ++ hex_pad 4 (Zlen s) ++ s /\ rx w' = rx w /\ stall w' <= stall w.
Proof.
  intros Hn Hl Hf. change (MAX_PAYLOAD - 4)%Z with 262140%Z in Hl. unfold SendProtocolString.
  rewrite u32_small by lia. change (MAX_PAYLOAD - 4)%Z with 262140%Z.
  destruct (Z.ltb_spec 262140 (Zlen s)); [lia|].
  rewrite Nat2Z.id, firstn_all, c_str_no_nul by done.
  apply (WriteFdExactly_loop_spec fd rx tx stall).
  assert (length (hex_pad 4 (Zlen s)) <= 8); [|rewrite length_app; lia].
  unfold hex_pad, zero_pad, hex, print_num. rewrite length_app, length_replicate.
  pose proof (to_digits_length 16 (S (Z.to_nat (Z.log2 (Zlen s)))) (Zlen s) [] 7 ltac:(lia)) as Hd.
  cbn [length] in Hd. specialize (Hd ltac:(change (16 ^ Z.of_nat 8)%Z with 4294967296%Z; lia)). lia.
Qed.

(** Four digits of value [n] and the text after them, as the reader sees them. *)
Lemma ReadProtocolString_digits ds s post w :
  Forall (digit_ok 16) ds -> length ds = 4 -> num_acc 16 ds 0 = Zlen s ->
  (Zlen s < 2 ^ 32)%Z -> rx w = ds ++ s ++ post ->
  exists w', ReadProtocolString fd w = Done (inr s) w' /\ rx w' = post /\
             tx w' = tx w /\ stall w' = stall w.
Proof.
  intros Hd Hl Hv Hb Hrx. unfold ReadProtocolString, bind.
  destruct (ReadFdExactly_app ds (s ++ post) w Hrx) as (w1 & Hr1 & Hrx1 & Ht1 & Hs1).
  change 4%Z with (Z.of_nat 4). rewrite <- Hl, Hr1.
  rewrite c_str_no_nul.
  2:{ rewrite Forall_forall in Hd. intros Hin. by destruct (digit_not_special _ _ (Hd _ Hin)) as (_ & _ & _ & []). }
  rewrite strtoul_hex by (try done; lia). cbn [fst]. rewrite Hv.
  unfold string_max_size. destruct (Z.ltb_spec (2 ^ 62) (Zlen s)); [lia|].
  destruct (ReadFdExactly_app s post w1 Hrx1) as (w2 & Hr2 & Hrx2 & Ht2 & Hs2).
  rewrite Hr2. exists w2. split_and!; [done|done|congruence|congruence].
Qed.

End ProtocolLemmas.

Lemma hex_pad_five n :
  (0x10000 <= n < 0x100000)%Z ->
  exists ds d, hex_pad 4 n = ds ++ [d] /\ length ds = 4 /\ Forall (digit_ok 16) ds /\
               num_acc 16 ds 0 = (n / 16)%Z.
Proof.
  intros Hn. pose proof (hex_pad_digits 4 n ltac:(lia)) as Hall.
  pose proof (num_acc_hex_pad 4 n ltac:(lia)) as Hv.
  assert (Hlen : length (hex_pad 4 n) = 5).
  { assert (length (hex n) = 5) as E by (apply print_num_length; cbn; lia).
    unfold hex_pad, zero_pad. by rewrite E, length_app, E. }
  destruct (hex_pad 4 n) as [|d ds _] using rev_ind; [done|].
  exists ds, d. rewrite length_app in Hlen. cbn [length] in Hlen.
  destruct (num_acc_snoc 16 ds d 0 Hall) as (v & Hr & Hd).
  apply Forall_app in Hall as [Hall _]. split_and!; [done|lia|done|].
  rewrite <- Hv, Hd, Z.div_add_l, Z.div_small by lia. lia.
Qed.

(** ** Properties *)

Section AdbIoProperties.
Context {W : Type} `{FdOps W} (fd : Z) (rx tx : W -> bytes) (stall : W -> nat).
Context `{!FdStream W fd rx tx stall}.

(** [ReadFdExactly] always returns; however the stream is cut into chunks,
    it delivers exactly the next [len] bytes and leaves the rest, or, if fewer
    are left before the end of the stream, fails with [errno] 0. *)
Theorem ReadFdExactly_exact len w :
  (0 <= len)%Z ->
  exists w', tx w' = tx w /\
    if decide (len <= Zlen (rx w))%Z
    then ReadFdExactly fd len w = Done (RX_ok (take (Z.to_nat len) (rx w))) w' /\
         rx w' = drop (Z.to_nat len) (rx w)
    else ReadFdExactly fd len w = Done (RX_fail E_NONE) w' /\ rx w' = [].
Proof.
  intros Hl. destruct (ReadFdExactly_spec fd rx tx stall len w Hl) as (w' & ? & _ & ?). eauto.
Qed.

(** [WriteFdExactly] returns and writes the whole buffer, in order and once,
    through short writes and [EAGAIN] refusals, as long as only finitely many
    writes are refused. *)
Theorem WriteFdExactly_exact fuel buf w :
  length buf + stall w <= fuel ->
  exists w', WriteFdExactly fuel fd buf w = Done WX_ok w' /\ tx w' = tx w ++ buf /\ rx w' = rx w.
Proof.
  intros Hf. destruct (WriteFdExactly_loop_spec fd rx tx stall fuel buf w Hf) as (w' & ? & ? & ? & _).
  eauto.
Qed.

(** A string without NUL of at most 0xffff bytes sent by
    [SendProtocolString] is read back by [ReadProtocolString], which consumes
    exactly what was sent. *)
Theorem protocol_string_roundtrip fuel s w1 :
  NUL ∉ s -> (Zlen s <= 0xffff)%Z -> length s + 8 + stall w1 <= fuel ->
  exists w1', SendProtocolString fuel fd s w1 = Done WX_ok w1' /\
    forall out w2 post, tx w1' = tx w1 ++ out -> rx w2 = out ++ post ->
      exists w2', ReadProtocolString fd w2 = Done (inr s) w2' /\ rx w2' = post.
Proof.
  intros Hn Hl Hf.
  destruct (SendProtocolString_spec fd rx tx stall fuel s w1 Hn) as (w1' & Hs & Ht & _).
  { change (MAX_PAYLOAD - 4)%Z with 262140%Z. lia. }
  { done. }
  exists w1'. split; [done|]. intros out w2 post Ho Hrx.
  rewrite Ht in Ho. apply app_inv_head in Ho as <-. rewrite <- app_assoc in Hrx.
  destruct (ReadProtocolString_digits fd rx tx stall (hex_pad 4 (Zlen s)) s post w2)
    as (w2' & ? & ? & _); eauto.
  - apply hex_pad_digits. lia.
  - apply hex_pad_length. change (16 ^ Z.of_nat 4)%Z with 65536%Z. lia.
  - apply num_acc_hex_pad. lia.
  - lia.
Qed.

(** [SendProtocolString] accepts lengths over 0xffff too (up to
    [MAX_PAYLOAD - 4]), but then the length takes five digits and the reader,
    which takes four, gets a string of a sixteenth of the length. *)
Theorem protocol_string_overlong fuel s w1 :
  NUL ∉ s -> (0xffff < Zlen s <= MAX_PAYLOAD - 4)%Z -> length s + 8 + stall w1 <= fuel ->
  exists w1', SendProtocolString fuel fd s w1 = Done WX_ok w1' /\
    forall out w2 post, tx w1' = tx w1 ++ out -> rx w2 = out ++ post ->
      exists s' w2', ReadProtocolString fd w2 = Done (inr s') w2' /\
                     Zlen s' = (Zlen s / 16)%Z /\ s' <> s.
Proof.
  intros Hn Hl Hf. change (MAX_PAYLOAD - 4)%Z with 262140%Z in Hl.
  destruct (SendProtocolString_spec fd rx tx stall fuel s w1 Hn) as (w1' & Hs & Ht & _).
  { change (MAX_PAYLOAD - 4)%Z with 262140%Z. lia. }
  { done. }
  exists w1'. split; [done|]. intros out w2 post Ho Hrx.
  rewrite Ht in Ho. apply app_inv_head in Ho as <-.
  destruct (hex_pad_five (Zlen s)) as (ds & d & Heq & Hlen & Hds & Hv); [lia|].
  rewrite Heq in Hrx.
  set (n := Z.to_nat (Zlen s / 16)).
  assert (Zlen s / 16 < Zlen s)%Z by (apply Z.div_lt; lia).
  assert (0 <= Zlen s / 16)%Z by (apply Z.div_pos; lia).
  assert (Htk : length (take n (d :: s ++ post)) = n).
  { rewrite length_take. cbn [length]. rewrite length_app. lia. }
  destruct (ReadProtocolString_digits fd rx tx stall ds (take n (d :: s ++ post))
              (drop n (d :: s ++ post)) w2) as (w2' & Hr & _); [done|done|lia|lia| |].
  { rewrite Hrx, take_drop, <- !app_assoc. done. }
  exists (take n (d :: s ++ post)), w2'. split_and!; [done|lia|].
  intros E. rewrite E in Htk. lia.
Qed.

End AdbIoProperties.

(** ** Witnesses *)

Definition wire_a : wire :=
  {| wire_rx := [str "00"; str "05h"; []; str "el"; str "loX"]; wire_tx := []; wire_plan := [0; 3; 0; 1] |}.

Lemma ReadFdExactly_exact_witness :
  (0 <= 4)%Z /\ exists w', wire_tx w' = wire_tx wire_a /\
    if decide (4 <= Zlen (wire_in wire_a))%Z
    then ReadFdExactly 7 4 wire_a = Done (RX_ok (take (Z.to_nat 4) (wire_in wire_a))) w' /\
         wire_in w' = drop (Z.to_nat 4) (wire_in wire_a)
    else ReadFdExactly 7 4 wire_a = Done (RX_fail E_NONE) w' /\ wire_in w' = [].
Proof.
  split; [lia|].
  apply (ReadFdExactly_exact 7 wire_in wire_tx (fun w => length (wire_plan w)) 4 wire_a). lia.
Defined.

Lemma WriteFdExactly_exact_witness :
  exists w', WriteFdExactly 20 7 (str "OKAY") wire_a = Done WX_ok w' /\
             wire_tx w' = wire_tx wire_a ++ str "OKAY" /\ wire_in w' = wire_in wire_a.
Proof.
  apply (WriteFdExactly_exact 7 wire_in wire_tx (fun w => length (wire_plan w)) 20 (str "OKAY") wire_a).
  cbn. lia.
Defined.

Lemma protocol_string_roundtrip_witness :
  exists w1', SendProtocolString 40 7 (str "hello") wire_a = Done WX_ok w1' /\
    forall out w2 post, wire_tx w1' = wire_tx wire_a ++ out -> wire_in w2 = out ++ post ->
      exists w2', ReadProtocolString 7 w2 = Done (inr (str "hello")) w2' /\ wire_in w2' = post.
Proof.
  apply (protocol_string_roundtrip 7 wire_in wire_tx (fun w => length (wire_plan w)) 40 (str "hello") wire_a).
  - apply (bool_decide_unpack _). by vm_compute.
  - cbn. lia.
  - cbn. lia.
Defined.

Definition long_string : bytes := replicate (Z.to_nat 0x10000) (byte_of 97).

Lemma length_long_string : length long_string = Z.to_nat 0x10000.
Proof. apply length_replicate. Qed.

Lemma protocol_string_overlong_witness :
  exists w1', SendProtocolString (Z.to_nat 0x20000) 7 long_string wire_a = Done WX_ok w1' /\
    forall out w2 post, wire_tx w1' = wire_tx wire_a ++ out -> wire_in w2 = out ++ post ->
      exists s' w2', ReadProtocolString 7 w2 = Done (inr s') w2' /\
                     Zlen s' = (Zlen long_string / 16)%Z /\ s' <> long_string.
Proof.
  apply (protocol_string_overlong 7 wire_in wire_tx (fun w => length (wire_plan w))).
  - unfold long_string. intros Hin. apply elem_of_replicate in Hin as [Hin _]. discriminate Hin.
  - rewrite length_long_string. change (MAX_PAYLOAD - 4)%Z with 262140%Z. lia.
  - rewrite length_long_string. change (length (wire_plan wire_a)) with 4. lia.
Defined.
