(* ===== verification/FdEvent.v ===== *)
(** * The event loop (fdevent.cpp, fdevent.h)

    All of fdevent runs on the main thread.  The state is the file's globals:
    the fdevent objects by address, [g_poll_node_map], [g_pending_list], the
    run queue, and the log of descriptors closed by [fdevent_remove].  The
    callback of an fdevent ([func] with [arg]) is a value of a type [F] chosen
    by the client, which also says how to run it.  [poll] and the order in
    which the unordered map is walked are the argument of [fdevent_process]. *)

From S2P Require Import Prelude.

Abbreviation loc := positive.

Definition FDE_READ : Z := 0x0001.
Definition FDE_WRITE : Z := 0x0002.
Definition FDE_ERROR : Z := 0x0004.
Definition FDE_DONT_CLOSE : Z := 0x0080.

Definition FDE_EVENTMASK : Z := 0x00ff.
Definition FDE_STATEMASK : Z := 0xff00.

Definition FDE_ACTIVE : Z := 0x0100.
Definition FDE_PENDING : Z := 0x0200.
Definition FDE_CREATED : Z := 0x0400.

Definition POLLIN : Z := 0x0001.
Definition POLLOUT : Z := 0x0004.
Definition POLLERR : Z := 0x0008.
Definition POLLHUP : Z := 0x0010.
Definition POLLNVAL : Z := 0x0020.
Definition POLLRDHUP : Z := 0x2000.

(** [x & m] as a condition. *)
Definition flag (x m : Z) : bool := negb (Z.land x m =? 0)%Z.

Record fdevent (F : Type) := {
  fde_fd : Z;
  fde_force_eof : bool;
  fde_state : Z;
  fde_events : Z;
  fde_func : F;
}.
Arguments fde_fd {F}. Arguments fde_force_eof {F}. Arguments fde_state {F}.
Arguments fde_events {F}. Arguments fde_func {F}.

(** [PollNode]: the fdevent and the events asked of [poll]. *)
Record poll_node := { pn_fde : loc; pn_events : Z }.

Record fdstate (F : Type) := {
  fdes : gmap loc (fdevent F);
  g_poll_node_map : gmap Z poll_node;
  g_pending_list : list loc;
  run_queue : list F;
  run_queue_notify : bool;          (* run_queue_notify_fd != -1 *)
  notify_writes : nat;              (* bytes written to it *)
  closed_fds : list Z;
}.
Arguments fdes {F}. Arguments g_poll_node_map {F}. Arguments g_pending_list {F}.
Arguments run_queue {F}. Arguments run_queue_notify {F}. Arguments notify_writes {F}.
Arguments closed_fds {F}.

Definition fd_empty {F} : fdstate F :=
  {| fdes := ∅; g_poll_node_map := ∅; g_pending_list := []; run_queue := [];
     run_queue_notify := false; notify_writes := 0; closed_fds := [] |}.

(** ** Field updates *)

Definition upd_state {F} (s : Z) (e : fdevent F) : fdevent F :=
  {| fde_fd := fde_fd e; fde_force_eof := fde_force_eof e; fde_state := s;
     fde_events := fde_events e; fde_func := fde_func e |}.
Definition upd_events {F} (ev : Z) (e : fdevent F) : fdevent F :=
  {| fde_fd := fde_fd e; fde_force_eof := fde_force_eof e; fde_state := fde_state e;
     fde_events := ev; fde_func := fde_func e |}.
Definition upd_fd {F} (fd : Z) (e : fdevent F) : fdevent F :=
  {| fde_fd := fd; fde_force_eof := fde_force_eof e; fde_state := fde_state e;
     fde_events := fde_events e; fde_func := fde_func e |}.
Definition upd_force_eof {F} (b : bool) (e : fdevent F) : fdevent F :=
  {| fde_fd := fde_fd e; fde_force_eof := b; fde_state := fde_state e;
     fde_events := fde_events e; fde_func := fde_func e |}.

Definition set_fdes {F} (m : gmap loc (fdevent F)) (st : fdstate F) : fdstate F :=
  {| fdes := m; g_poll_node_map := g_poll_node_map st; g_pending_list := g_pending_list st;
     run_queue := run_queue st; run_queue_notify := run_queue_notify st;
     notify_writes := notify_writes st; closed_fds := closed_fds st |}.
Definition set_poll_map {F} (m : gmap Z poll_node) (st : fdstate F) : fdstate F :=
  {| fdes := fdes st; g_poll_node_map := m; g_pending_list := g_pending_list st;
     run_queue := run_queue st; run_queue_notify := run_queue_notify st;
     notify_writes := notify_writes st; closed_fds := closed_fds st |}.
Definition set_pending {F} (l : list loc) (st : fdstate F) : fdstate F :=
  {| fdes := fdes st; g_poll_node_map := g_poll_node_map st; g_pending_list := l;
     run_queue := run_queue st; run_queue_notify := run_queue_notify st;
     notify_writes := notify_writes st; closed_fds := closed_fds st |}.
Definition set_run_queue {F} (q : list F) (st : fdstate F) : fdstate F :=
  {| fdes := fdes st; g_poll_node_map := g_poll_node_map st; g_pending_list := g_pending_list st;
     run_queue := q; run_queue_notify := run_queue_notify st;
     notify_writes := notify_writes st; closed_fds := closed_fds st |}.
Definition set_notify {F} (b : bool) (n : nat) (st : fdstate F) : fdstate F :=
  {| fdes := fdes st; g_poll_node_map := g_poll_node_map st; g_pending_list := g_pending_list st;
     run_queue := run_queue st; run_queue_notify := b; notify_writes := n;
     closed_fds := closed_fds st |}.
Definition log_close {F} (fd : Z) (st : fdstate F) : fdstate F :=
  {| fdes := fdes st; g_poll_node_map := g_poll_node_map st; g_pending_list := g_pending_list st;
     run_queue := run_queue st; run_queue_notify := run_queue_notify st;
     notify_writes := notify_writes st; closed_fds := fd :: closed_fds st |}.

Section FdEvent.
Context {F : Type}.
Abbreviation FM := (M (fdstate F)).

(** Dereferencing an [fdevent*]. *)
Definition load (l : loc) : FM (fdevent F) :=
  fun st => match fdes st !! l with Some e => Done e st | None => Crash "dangling fdevent" end.

Definition store (l : loc) (e : fdevent F) : FM unit :=
  modify (fun st => set_fdes (<[l := e]> (fdes st)) st).

(** ** dump_fde *)

Definition dump_fde (e : fdevent F) : bytes :=
  let s := fde_state e in
  let letter m (c : string) := if flag s m then str c else [] in
  str "(fdevent " ++ dec (fde_fd e) ++ str " " ++
  letter FDE_ACTIVE "A" ++ letter FDE_PENDING "P" ++ letter FDE_CREATED "C" ++
  letter FDE_READ "R" ++ letter FDE_WRITE "W" ++ letter FDE_ERROR "E" ++
  letter FDE_DONT_CLOSE "D" ++ str ")".

(** ** Installing and removing *)

(** [l] is the address of the object, which the caller owns. *)
Definition fdevent_install (l : loc) (fd : Z) (func : F) : FM unit :=
  check (0 <=? fd)%Z "CHECK_GE(fd, 0)" ;;;
  store l {| fde_fd := fd; fde_force_eof := false; fde_state := FDE_ACTIVE; fde_events := 0;
             fde_func := func |} ;;;
  let* st := get in
  match g_poll_node_map st !! fd with
  | Some _ => crash "install existing fd"
  | None => modify (fun st =>
      set_poll_map (<[fd := {| pn_fde := l; pn_events := POLLRDHUP |}]> (g_poll_node_map st)) st)
  end.

(** [l] is the block [malloc] returns. *)
Definition fdevent_create (l : loc) (fd : Z) (func : F) : FM loc :=
  fdevent_install l fd func ;;;
  let* e := load l in
  store l (upd_state (Z.lor (fde_state e) FDE_CREATED) e) ;;;
  ret l.

Definition fdevent_remove (l : loc) : FM unit :=
  let* e := load l in
  when (flag (fde_state e) FDE_ACTIVE) (
    modify (fun st => set_poll_map (delete (fde_fd e) (g_poll_node_map st)) st) ;;;
    when (flag (fde_state e) FDE_PENDING)
      (modify (fun st => set_pending (filter (fun x => x <> l) (g_pending_list st)) st)) ;;;
    (if negb (flag (fde_state e) FDE_DONT_CLOSE)
     then modify (log_close (fde_fd e)) ;;; store l (upd_state 0 (upd_events 0 (upd_fd (-1) e)))
     else store l (upd_state 0 (upd_events 0 e)))).

(** [free] of the block that holds the object. *)
Definition fdevent_free (l : loc) : FM unit :=
  modify (fun st => set_fdes (delete l (fdes st)) st).

Definition fdevent_destroy (l : loc) : FM unit :=
  let* e := load l in
  if negb (flag (fde_state e) FDE_CREATED)
  then fatal "destroying fde not created by fdevent_create()"
  else fdevent_remove l ;;; fdevent_free l.

(** ** Changing the events of interest *)

Definition toggle (on : bool) (m x : Z) : Z :=
  if on then Z.lor x m else Z.land x (Z.lnot m).

Definition fdevent_update (l : loc) (events : Z) : FM unit :=
  let* e := load l in
  let* st := get in
  match g_poll_node_map st !! fde_fd e with
  | None => crash "CHECK(it != g_poll_node_map.end())"
  | Some node =>
      let ev := toggle (flag events FDE_WRITE) POLLOUT
                  (toggle (flag events FDE_READ) POLLIN (pn_events node)) in
      modify (fun st => set_poll_map
        (<[fde_fd e := {| pn_fde := pn_fde node; pn_events := ev |}]> (g_poll_node_map st)) st) ;;;
      store l (upd_state (Z.lor (Z.land (fde_state e) FDE_STATEMASK) events) e)
  end.

Definition fdevent_set (l : loc) (events0 : Z) : FM unit :=
  let events := Z.land events0 FDE_EVENTMASK in
  let* e := load l in
  if (Z.land (fde_state e) FDE_EVENTMASK =? events)%Z then ret tt else
  check (flag (fde_state e) FDE_ACTIVE) "CHECK(fde->state & FDE_ACTIVE)" ;;;
  fdevent_update l events ;;;
  let* e := load l in
  when (flag (fde_state e) FDE_PENDING) (
    let ev := Z.land (fde_events e) events in
    if (ev =? 0)%Z
    then modify (fun st => set_pending (filter (fun x => x <> l) (g_pending_list st)) st) ;;;
         store l (upd_state (Z.land (fde_state e) (Z.lnot FDE_PENDING)) (upd_events ev e))
    else store l (upd_events ev e)).

Definition fdevent_add (l : loc) (events : Z) : FM unit :=
  let* e := load l in
  fdevent_set l (Z.lor (Z.land (fde_state e) FDE_EVENTMASK) events).

Definition fdevent_del (l : loc) (events : Z) : FM unit :=
  let* e := load l in
  fdevent_set l (Z.land (Z.land (fde_state e) FDE_EVENTMASK) (Z.lnot events)).

(** ** The loop *)

Definition events_of_revents (revents : Z) : Z :=
  let ev := if flag revents POLLIN then FDE_READ else 0%Z in
  let ev := if flag revents POLLOUT then Z.lor ev FDE_WRITE else ev in
  let ev := if flag revents (Z.lor POLLERR (Z.lor POLLHUP POLLNVAL))
            then Z.lor ev (Z.lor FDE_READ FDE_ERROR) else ev in
  if flag revents POLLRDHUP then Z.lor ev (Z.lor FDE_READ FDE_ERROR) else ev.

(** One entry of [poll]'s answer. *)
Definition process_pollfd (r : Z * Z) : FM unit :=
  let '(fd, revents) := r in
  let events := events_of_revents revents in
  when (negb (events =? 0)%Z) (
    let* st := get in
    match g_poll_node_map st !! fd with
    | None => crash "CHECK(it != g_poll_node_map.end())"
    | Some node =>
        let l := pn_fde node in
        let* e := load l in
        check (fde_fd e =? fd)%Z "CHECK_EQ(fde->fd, pollfd.fd)" ;;;
        store l (upd_state (Z.lor (fde_state e) FDE_PENDING)
                   (upd_events (Z.lor (fde_events e) events) e)) ;;;
        modify (fun st => set_pending (g_pending_list st ++ [l]) st)
    end).

(** [None]: [poll] failed; otherwise the [revents] of each descriptor asked. *)
Definition fdevent_process (answer : option (list (Z * Z))) : FM unit :=
  let* st := get in
  check (0 <? size (g_poll_node_map st))%nat "CHECK_GT(pollfds.size(), 0u)" ;;;
  match answer with
  | None => ret tt
  | Some rs => iter_list process_pollfd rs
  end.

(** What [fde->func(fde->fd, events, fde->arg)] is called with. *)
Definition fdevent_call_fdfunc (run : F -> Z -> Z -> FM unit) (l : loc) : FM unit :=
  let* e := load l in
  let events := fde_events e in
  store l (upd_events 0 e) ;;;
  check (flag (fde_state e) FDE_PENDING) "CHECK(fde->state & FDE_PENDING)" ;;;
  store l (upd_state (Z.land (fde_state e) (Z.lnot FDE_PENDING)) (upd_events 0 e)) ;;;
  run (fde_func e) (fde_fd e) events.

(** [while (!g_pending_list.empty())]. *)
Fixpoint drain (run : F -> Z -> Z -> FM unit) (fuel : nat) : FM unit :=
  let* st := get in
  match g_pending_list st with
  | [] => ret tt
  | l :: rest =>
      match fuel with
      | O => no_fuel
      | S f =>
          modify (set_pending rest) ;;;
          fdevent_call_fdfunc run l ;;;
          drain run f
      end
  end.

(** One turn of [fdevent_loop]. *)
Definition fdevent_loop_turn (run : F -> Z -> Z -> FM unit) (answer : option (list (Z * Z))) : FM unit :=
  fdevent_process answer ;;;
  let* st := get in
  drain run (length (g_pending_list st)).

(** ** The shell-exit notification (device side)

    [subproc_fd] is the descriptor read from the socket, [rcount] what
    [FIONREAD] reports for it. *)
Definition fdevent_subproc_event_func (run : F -> Z -> Z -> FM unit)
    (fd ev subproc_fd rcount : Z) : FM unit :=
  check (0 <=? fd)%Z "CHECK_GE(fd, 0)" ;;;
  when (flag ev FDE_READ) (
    let* st := get in
    match g_poll_node_map st !! subproc_fd with
    | None => modify (log_close subproc_fd)
    | Some node =>
        let l := pn_fde node in
        let* e := load l in
        if negb (fde_fd e =? subproc_fd)%Z then fatal "subproc_fd != subproc_fde->fd" else
        store l (upd_force_eof true e) ;;;
        if negb (rcount =? 0)%Z then ret tt else
        let e := upd_events (Z.lor (fde_events e) FDE_READ) (upd_force_eof true e) in
        store l e ;;;
        if flag (fde_state e) FDE_PENDING then ret tt else
        store l (upd_state (Z.lor (fde_state e) FDE_PENDING) e) ;;;
        fdevent_call_fdfunc run l
    end).

(** ** The run queue *)

Definition fdevent_run_flush (exec : F -> FM unit) : FM unit :=
  let* st := get in
  iter_list exec (run_queue st) ;;;
  modify (set_run_queue []).

Definition fdevent_run_func (exec : F -> FM unit) (fd ev : Z) : FM unit :=
  check (0 <=? fd)%Z "CHECK_GE(fd, 0)" ;;;
  check (flag ev FDE_READ) "CHECK(ev & FDE_READ)" ;;;
  fdevent_run_flush exec.

(** [l], [fd]: the fdevent block and the socket-pair end the set-up creates. *)
Definition fdevent_run_setup (exec : F -> FM unit) (l : loc) (fd : Z) (func : F) : FM unit :=
  let* st := get in
  check (negb (run_queue_notify st)) "CHECK(run_queue_notify_fd.get() == -1)" ;;;
  modify (fun st => set_notify true (notify_writes st) st) ;;;
  fdevent_create l fd func ;;;
  fdevent_add l FDE_READ ;;;
  fdevent_run_flush exec.

Definition fdevent_run_on_main_thread (fn : F) : FM unit :=
  modify (fun st => set_run_queue (run_queue st ++ [fn]) st) ;;;
  let* st := get in
  when (run_queue_notify st)
    (modify (fun st => set_notify (run_queue_notify st) (S (notify_writes st)) st)).

Definition fdevent_installed_count (st : fdstate F) : nat := size (g_poll_node_map st).

Definition fdevent_reset : FM unit :=
  modify (fun st => set_notify false (notify_writes st)
    (set_run_queue [] (set_pending [] (set_poll_map ∅ st)))).

End FdEvent.

(** ** Flags *)

#[global] Arguments Z.lnot : simpl never.
#[global] Arguments Z.land : simpl never.
#[global] Arguments Z.lor : simpl never.

Lemma flag_bit x k : (0 <= k)%Z -> flag x (2 ^ k) = Z.testbit x k.
Proof.
  intros Hk. unfold flag. destruct (Z.testbit x k) eqn:E.
  - apply negb_true_iff, Z.eqb_neq. intros H0.
    assert (Z.testbit (Z.land x (2 ^ k)) k = true) as Ht.
    { rewrite Z.land_spec, E, Z.pow2_bits_true by done. done. }
    rewrite H0, Z.bits_0 in Ht. done.
  - apply negb_false_iff, Z.eqb_eq. apply Z.bits_inj'. intros n Hn.
    rewrite Z.bits_0, Z.land_spec. destruct (Z.eq_dec n k) as [->|Hne].
    + by rewrite E.
    + rewrite Z.pow2_bits_false by done. apply andb_false_r.
Qed.

(** Reduce every [flag] by a one-bit constant to [Z.testbit], push [Z.testbit]
    through the bit operations and evaluate it on constants. *)
Ltac flag_consts :=
  change FDE_READ with (2 ^ 0)%Z in *; change FDE_WRITE with (2 ^ 1)%Z in *;
  change FDE_ERROR with (2 ^ 2)%Z in *; change FDE_DONT_CLOSE with (2 ^ 7)%Z in *;
  change FDE_ACTIVE with (2 ^ 8)%Z in *; change FDE_PENDING with (2 ^ 9)%Z in *;
  change FDE_CREATED with (2 ^ 10)%Z in *; change POLLIN with (2 ^ 0)%Z in *;
  change POLLOUT with (2 ^ 2)%Z in *.
Ltac eval_testbits :=
  repeat match goal with
  | |- context [Z.testbit ?c ?k] =>
      let v := eval vm_compute in (Z.testbit c k) in
      match v with true => change (Z.testbit c k) with true | false => change (Z.testbit c k) with false end
  end.
Ltac flags :=
  unfold toggle, FDE_EVENTMASK, FDE_STATEMASK in *; flag_consts;
  rewrite ?flag_bit in * by lia;
  repeat case_match; rewrite ?Z.lor_spec, ?Z.land_spec, ?Z.lnot_spec by lia;
  rewrite ?Z.lor_spec, ?Z.land_spec, ?Z.lnot_spec by lia;
  rewrite ?Z.lor_spec, ?Z.land_spec, ?Z.lnot_spec by lia;
  eval_testbits; simplify_eq;
  rewrite ?andb_true_r, ?andb_false_r, ?orb_true_r, ?orb_false_r, ?orb_true_l, ?orb_false_l in *; try done.

Lemma flag_update_read s ev :
  flag (Z.lor (Z.land s FDE_STATEMASK) (Z.land ev FDE_EVENTMASK)) FDE_READ = flag ev FDE_READ.
Proof. flags. Qed.
Lemma flag_update_write s ev :
  flag (Z.lor (Z.land s FDE_STATEMASK) (Z.land ev FDE_EVENTMASK)) FDE_WRITE = flag ev FDE_WRITE.
Proof. flags. Qed.
Lemma flag_update_active s ev :
  flag (Z.lor (Z.land s FDE_STATEMASK) (Z.land ev FDE_EVENTMASK)) FDE_ACTIVE = flag s FDE_ACTIVE.
Proof. flags. Qed.
Lemma flag_update_pending s ev :
  flag (Z.lor (Z.land s FDE_STATEMASK) (Z.land ev FDE_EVENTMASK)) FDE_PENDING = flag s FDE_PENDING.
Proof. flags. Qed.
Lemma flag_mask_read ev : flag (Z.land ev FDE_EVENTMASK) FDE_READ = flag ev FDE_READ.
Proof. flags. Qed.
Lemma flag_mask_write ev : flag (Z.land ev FDE_EVENTMASK) FDE_WRITE = flag ev FDE_WRITE.
Proof. flags. Qed.
Lemma flag_mask_dont_close ev : flag (Z.land ev FDE_EVENTMASK) FDE_DONT_CLOSE = flag ev FDE_DONT_CLOSE.
Proof. flags. Qed.
Lemma flag_toggle_in ri wi x :
  flag (toggle wi POLLOUT (toggle ri POLLIN x)) POLLIN = ri.
Proof. destruct ri, wi; flags. Qed.
Lemma flag_toggle_out ri wi x :
  flag (toggle wi POLLOUT (toggle ri POLLIN x)) POLLOUT = wi.
Proof. destruct ri, wi; flags. Qed.
Lemma flag_clear_pending s m :
  m = FDE_READ \/ m = FDE_WRITE \/ m = FDE_ACTIVE ->
  flag (Z.land s (Z.lnot FDE_PENDING)) m = flag s m.
Proof. intros [->|[->| ->]]; flags. Qed.
Lemma flag_cleared_pending s : flag (Z.land s (Z.lnot FDE_PENDING)) FDE_PENDING = false.
Proof. flags. Qed.
Lemma flag_set_pending s m :
  m = FDE_READ \/ m = FDE_WRITE \/ m = FDE_ACTIVE ->
  flag (Z.lor s FDE_PENDING) m = flag s m.
Proof. intros [->|[->| ->]]; flags. Qed.
Lemma flag_is_pending s : flag (Z.lor s FDE_PENDING) FDE_PENDING = true.
Proof. flags. Qed.

Lemma mask_update s ev :
  Z.land (Z.lor (Z.land s FDE_STATEMASK) (Z.land ev FDE_EVENTMASK)) FDE_EVENTMASK = Z.land ev FDE_EVENTMASK.
Proof.
  rewrite Z.land_lor_distr_l, <- !Z.land_assoc.
  change (Z.land FDE_STATEMASK FDE_EVENTMASK) with 0%Z.
  change (Z.land FDE_EVENTMASK FDE_EVENTMASK) with FDE_EVENTMASK.
  by rewrite Z.land_0_r, Z.lor_0_l.
Qed.

Lemma mask_clear_pending s :
  Z.land (Z.land s (Z.lnot FDE_PENDING)) FDE_EVENTMASK = Z.land s FDE_EVENTMASK.
Proof. by rewrite <- Z.land_assoc. Qed.

Lemma flag_of_mask s ev :
  Z.land s FDE_EVENTMASK = Z.land ev FDE_EVENTMASK ->
  flag s FDE_READ = flag ev FDE_READ /\ flag s FDE_WRITE = flag ev FDE_WRITE /\
  flag s FDE_DONT_CLOSE = flag ev FDE_DONT_CLOSE.
Proof.
  intros H. split_and!.
  - by rewrite <- flag_mask_read, H, flag_mask_read.
  - by rewrite <- flag_mask_write, H, flag_mask_write.
  - by rewrite <- flag_mask_dont_close, H, flag_mask_dont_close.
Qed.

(** ** The invariant *)

Section FdInv.
Context {F : Type}.
Implicit Types (st : fdstate F) (e : fdevent F).

Definition is_active e : Prop := flag (fde_state e) FDE_ACTIVE = true.
Definition is_pending e : Prop := flag (fde_state e) FDE_PENDING = true.

Record fd_inv st : Prop := {
  inv_node : forall fd n, g_poll_node_map st !! fd = Some n ->
    exists e, fdes st !! pn_fde n = Some e /\ is_active e /\ fde_fd e = fd;
  inv_active : forall l e, fdes st !! l = Some e -> is_active e ->
    exists n, g_poll_node_map st !! fde_fd e = Some n /\ pn_fde n = l /\
              flag (pn_events n) POLLIN = flag (fde_state e) FDE_READ /\
              flag (pn_events n) POLLOUT = flag (fde_state e) FDE_WRITE;
  inv_pending : forall l, l ∈ g_pending_list st <->
    exists e, fdes st !! l = Some e /\ is_pending e;
  inv_nodup : NoDup (g_pending_list st);
  inv_pending_active : forall l e, fdes st !! l = Some e -> is_pending e -> is_active e;
  inv_events : forall l e, fdes st !! l = Some e -> (fde_events e <> 0%Z <-> is_pending e);
}.

(** Nothing but the object at [l] changed, and no descriptor was opened or closed. *)
Record fd_frame (l : loc) st st' : Prop := {
  frame_others : forall l', l' <> l -> fdes st' !! l' = fdes st !! l';
  frame_nodes : forall fd, pn_fde <$> g_poll_node_map st' !! fd = pn_fde <$> g_poll_node_map st !! fd;
  frame_closed : closed_fds st' = closed_fds st;
  frame_pending : length (g_pending_list st') <= length (g_pending_list st);
  frame_pending_in : forall l', l' ∈ g_pending_list st' -> l' ∈ g_pending_list st;
}.

Lemma fd_frame_refl l st : fd_frame l st st.
Proof. by split. Qed.

(** Two objects cannot be active on one descriptor. *)
Lemma fd_unique st l1 l2 e1 e2 :
  fd_inv st -> fdes st !! l1 = Some e1 -> fdes st !! l2 = Some e2 ->
  is_active e1 -> is_active e2 -> fde_fd e1 = fde_fd e2 -> l1 = l2.
Proof.
  intros I H1 H2 A1 A2 Hfd.
  destruct (inv_active _ I _ _ H1 A1) as (n1 & Hn1 & <- & _).
  destruct (inv_active _ I _ _ H2 A2) as (n2 & Hn2 & <- & _). congruence.
Qed.

Lemma wp_load l (Q : fdevent F -> fdstate F -> Prop) st e :
  fdes st !! l = Some e -> Q e st -> wp (load l) Q st.
Proof. intros He HQ. unfold wp, load. by rewrite He. Qed.

Lemma wp_store l e (Q : unit -> fdstate F -> Prop) st :
  Q tt (set_fdes (<[l := e]> (fdes st)) st) -> wp (store l e) Q st.
Proof. done. Qed.

Lemma filter_ne_in (l x : loc) (k : list loc) : x ∈ filter (fun y => y <> l) k <-> x <> l /\ x ∈ k.
Proof. by rewrite list_elem_of_filter. Qed.

Lemma fd_inv_empty : fd_inv (@fd_empty F).
Proof.
  split; cbn; intros; simplify_map_eq; try done.
  - split; [by inversion 1|]. intros (e & He & _). simplify_map_eq.
  - constructor.
Qed.

(** The state [fdevent_update] leaves: the interest recorded in the object and
    the one given to [poll] change together. *)
Definition fd_updated (l : loc) e (node : poll_node) (pev ev : Z) st : fdstate F :=
  set_fdes (<[l := upd_state (Z.lor (Z.land (fde_state e) FDE_STATEMASK) ev) e]> (fdes st))
    (set_poll_map (<[fde_fd e := {| pn_fde := pn_fde node; pn_events := pev |}]> (g_poll_node_map st)) st).

Lemma fd_updated_inv l e n ev0 st :
  fd_inv st -> fdes st !! l = Some e -> is_active e ->
  g_poll_node_map st !! fde_fd e = Some n -> pn_fde n = l ->
  fd_inv (fd_updated l e n
    (toggle (flag ev0 FDE_WRITE) POLLOUT (toggle (flag ev0 FDE_READ) POLLIN (pn_events n)))
    (Z.land ev0 FDE_EVENTMASK) st).
Proof.
  intros I He Ha Hn <-. split; cbn.
  - intros fd n' Hn'. destruct (decide (fd = fde_fd e)) as [->|Hne]; simplify_map_eq.
    + eexists. split; [done|]. split; [|done]. unfold is_active; cbn. by rewrite flag_update_active.
    + destruct (inv_node _ I _ _ Hn') as (e' & He' & Ha' & Hfd').
      destruct (decide (pn_fde n' = pn_fde n)) as [E|]; simplify_map_eq; [|eauto].
      exfalso. rewrite E in He'. by simplify_eq.
  - intros l' e' He' Ha'. destruct (decide (l' = pn_fde n)) as [->|Hne]; simplify_map_eq.
    + eexists. split; [done|]. cbn. rewrite flag_update_read, flag_update_write.
      rewrite flag_toggle_in, flag_toggle_out. done.
    + destruct (inv_active _ I _ _ He' Ha') as (n' & Hn' & <- & Hi & Ho).
      exists n'. rewrite lookup_insert_ne; [done|].
      intros E. apply Hne. by apply (fd_unique st _ _ e' e).
  - intros l'. rewrite (inv_pending _ I). destruct (decide (l' = pn_fde n)) as [->|Hne]; simplify_map_eq; [|done].
    split; intros (e' & ? & Hp); simplify_map_eq; eexists; (split; [done|]); unfold is_pending in *; cbn in *;
      by rewrite flag_update_pending in *.
  - apply (inv_nodup _ I).
  - intros l' e' He' Hp. destruct (decide (l' = pn_fde n)) as [->|Hne]; simplify_map_eq.
    + unfold is_active; cbn. by rewrite flag_update_active.
    + by eapply (inv_pending_active _ I).
  - intros l' e' He'. destruct (decide (l' = pn_fde n)) as [->|Hne]; simplify_map_eq.
    + unfold is_pending; cbn. rewrite flag_update_pending. by eapply (inv_events _ I).
    + by eapply (inv_events _ I).
Qed.

(** Taking an object out of the pending list. *)
Lemma fd_unpend_inv l e st :
  fd_inv st -> fdes st !! l = Some e ->
  fd_inv (set_fdes (<[l := upd_state (Z.land (fde_state e) (Z.lnot FDE_PENDING)) (upd_events 0 e)]> (fdes st))
           (set_pending (filter (fun x => x <> l) (g_pending_list st)) st)).
Proof.
  intros I He. split; cbn.
  - intros fd n Hn. destruct (inv_node _ I _ _ Hn) as (e' & He' & Ha' & Hfd').
    destruct (decide (pn_fde n = l)) as [<-|]; simplify_map_eq; [|eauto].
    eexists. split; [done|]. split; [|done]. unfold is_active in *; cbn.
    by rewrite flag_clear_pending by auto.
  - intros l' e' He' Ha'. destruct (decide (l' = l)) as [->|Hne]; simplify_map_eq.
    + unfold is_active in Ha'; cbn in *. rewrite flag_clear_pending in Ha' by auto.
      rewrite !flag_clear_pending by auto. by eapply (inv_active _ I).
    + by eapply (inv_active _ I).
  - intros l'. rewrite filter_ne_in, (inv_pending _ I).
    destruct (decide (l' = l)) as [->|Hne]; simplify_map_eq.
    + split; [by intros [? _]|]. intros (e' & ? & Hp). simplify_map_eq.
      unfold is_pending in Hp; cbn in Hp. by rewrite flag_cleared_pending in Hp.
    + naive_solver.
  - apply NoDup_filter, (inv_nodup _ I).
  - intros l' e' He' Hp. destruct (decide (l' = l)) as [->|Hne]; simplify_map_eq.
    + unfold is_pending in Hp; cbn in Hp. by rewrite flag_cleared_pending in Hp.
    + by eapply (inv_pending_active _ I).
  - intros l' e' He'. destruct (decide (l' = l)) as [->|Hne]; simplify_map_eq.
    + unfold is_pending; cbn. by rewrite flag_cleared_pending.
    + by eapply (inv_events _ I).
Qed.

(** Changing the event set of a pending object to another nonempty one. *)
Lemma fd_reevent_inv l e ev st :
  fd_inv st -> fdes st !! l = Some e -> is_pending e -> ev <> 0%Z ->
  fd_inv (set_fdes (<[l := upd_events ev e]> (fdes st)) st).
Proof.
  intros I He Hp Hev. split; cbn.
  - intros fd n Hn. destruct (inv_node _ I _ _ Hn) as (e' & He' & Ha' & Hfd').
    destruct (decide (pn_fde n = l)) as [<-|]; simplify_map_eq; eauto.
  - intros l' e' He' Ha'. destruct (decide (l' = l)) as [->|Hne]; simplify_map_eq; by eapply (inv_active _ I).
  - intros l'. rewrite (inv_pending _ I). destruct (decide (l' = l)) as [->|Hne]; simplify_map_eq; [|done].
    split; intros (e' & ? & ?); simplify_map_eq; eauto.
  - apply (inv_nodup _ I).
  - intros l' e' He' Hp'. destruct (decide (l' = l)) as [->|Hne]; simplify_map_eq; [exact (inv_pending_active _ I _ _ He Hp)|by eapply (inv_pending_active _ I)].
  - intros l' e' He'. destruct (decide (l' = l)) as [->|Hne]; simplify_map_eq; [by split|by eapply (inv_events _ I)].
Qed.

(** ** What each operation does to a state that satisfies the invariant *)

Lemma wp_fdevent_set l ev st e (Q : unit -> fdstate F -> Prop) :
  fd_inv st -> fdes st !! l = Some e -> is_active e ->
  (forall st' e', fd_inv st' -> fd_frame l st st' -> fdes st' !! l = Some e' -> is_active e' ->
    fde_fd e' = fde_fd e -> fde_func e' = fde_func e -> fde_force_eof e' = fde_force_eof e ->
    Z.land (fde_state e') FDE_EVENTMASK = Z.land ev FDE_EVENTMASK -> Q tt st') ->
  wp (fdevent_set l ev) Q st.
Proof.
  intros I He Ha HQ. unfold fdevent_set. apply wp_bind. eapply wp_load; [done|].
  destruct (Z.eqb_spec (Z.land (fde_state e) FDE_EVENTMASK) (Z.land ev FDE_EVENTMASK)) as [Heq|Hne].
  { apply wp_ret. eapply HQ; eauto using fd_frame_refl. }
  apply wp_bind, wp_check; [done|]. apply wp_bind. unfold fdevent_update.
  apply wp_bind. eapply wp_load; [done|]. apply wp_bind, wp_get.
  destruct (inv_active _ I _ _ He Ha) as (n & Hn & Hl & _). rewrite Hn.
  rewrite flag_mask_read, flag_mask_write.
  apply wp_bind, wp_modify. apply wp_store.
  set (st1 := set_fdes _ _).
  assert (I1 : fd_inv st1) by exact (fd_updated_inv l e n ev st I He Ha Hn Hl).
  assert (Hf1 : fd_frame l st st1).
  { split; cbn; auto; [intros; by rewrite lookup_insert_ne|].
    intros fd. destruct (decide (fd = fde_fd e)) as [->|]; simplify_map_eq; done. }
  set (e1 := upd_state (Z.lor (Z.land (fde_state e) FDE_STATEMASK) (Z.land ev FDE_EVENTMASK)) e).
  assert (He1 : fdes st1 !! l = Some e1) by (cbn; by simplify_map_eq).
  assert (Ha1 : is_active e1) by (unfold is_active; cbn; by rewrite flag_update_active).
  assert (Hm1 : Z.land (fde_state e1) FDE_EVENTMASK = Z.land ev FDE_EVENTMASK) by apply mask_update.
  apply wp_bind. eapply wp_load; [done|].
  apply wp_when; intros Hp; [|by eapply HQ].
  destruct (Z.eqb_spec (Z.land (fde_events e1) (Z.land ev FDE_EVENTMASK)) 0) as [Hz|Hnz].
  - rewrite Hz. apply wp_bind, wp_modify. apply wp_store. eapply HQ.
    + by apply (fd_unpend_inv l e1 st1).
    + destruct Hf1. split; cbn; auto.
      * intros. by rewrite !lookup_insert_ne.
      * etrans; [apply length_filter|done].
      * intros l' Hin. apply filter_ne_in in Hin as [_ ?]. auto.
    + cbn. by simplify_map_eq.
    + unfold is_active; cbn. rewrite flag_clear_pending by auto. done.
    + done.
    + done.
    + done.
    + cbn. by rewrite mask_clear_pending, mask_update.
  - apply wp_store. eapply HQ.
    + by apply (fd_reevent_inv l e1 _ st1).
    + destruct Hf1. split; cbn; auto. intros. by rewrite !lookup_insert_ne.
    + cbn. by simplify_map_eq.
    + done.
    + done.
    + done.
    + done.
    + done.
Qed.

Lemma wp_fdevent_add l ev st e (Q : unit -> fdstate F -> Prop) :
  fd_inv st -> fdes st !! l = Some e -> is_active e ->
  (forall st' e', fd_inv st' -> fd_frame l st st' -> fdes st' !! l = Some e' -> is_active e' ->
    fde_fd e' = fde_fd e -> fde_func e' = fde_func e -> fde_force_eof e' = fde_force_eof e ->
    flag (fde_state e') FDE_READ = flag (fde_state e) FDE_READ || flag ev FDE_READ ->
    flag (fde_state e') FDE_WRITE = flag (fde_state e) FDE_WRITE || flag ev FDE_WRITE ->
    flag (fde_state e') FDE_DONT_CLOSE = flag (fde_state e) FDE_DONT_CLOSE || flag ev FDE_DONT_CLOSE ->
    Q tt st') ->
  wp (fdevent_add l ev) Q st.
Proof.
  intros I He Ha HQ. unfold fdevent_add. apply wp_bind. eapply wp_load; [done|].
  eapply wp_fdevent_set; [done..|]. intros st' e' ? ? ? ? ? ? ? Hm.
  destruct (flag_of_mask _ _ Hm) as (Hr & Hw & Hd).
  eapply HQ; eauto; [rewrite Hr|rewrite Hw|rewrite Hd]; clear; flags.
Qed.

Lemma wp_fdevent_del l ev st e (Q : unit -> fdstate F -> Prop) :
  fd_inv st -> fdes st !! l = Some e -> is_active e ->
  (forall st' e', fd_inv st' -> fd_frame l st st' -> fdes st' !! l = Some e' -> is_active e' ->
    fde_fd e' = fde_fd e -> fde_func e' = fde_func e -> fde_force_eof e' = fde_force_eof e ->
    flag (fde_state e') FDE_READ = flag (fde_state e) FDE_READ && negb (flag ev FDE_READ) ->
    flag (fde_state e') FDE_WRITE = flag (fde_state e) FDE_WRITE && negb (flag ev FDE_WRITE) ->
    flag (fde_state e') FDE_DONT_CLOSE = flag (fde_state e) FDE_DONT_CLOSE && negb (flag ev FDE_DONT_CLOSE) ->
    Q tt st') ->
  wp (fdevent_del l ev) Q st.
Proof.
  intros I He Ha HQ. unfold fdevent_del. apply wp_bind. eapply wp_load; [done|].
  eapply wp_fdevent_set; [done..|]. intros st' e' ? ? ? ? ? ? ? Hm.
  destruct (flag_of_mask _ _ Hm) as (Hr & Hw & Hd).
  eapply HQ; eauto; [rewrite Hr|rewrite Hw|rewrite Hd]; clear; flags.
Qed.

(** Installing a fresh object on a descriptor that is not polled yet. *)
Lemma fd_install_inv l fd func st :
  fd_inv st -> fdes st !! l = None -> g_poll_node_map st !! fd = None ->
  fd_inv (set_poll_map (<[fd := {| pn_fde := l; pn_events := POLLRDHUP |}]> (g_poll_node_map st))
    (set_fdes (<[l := {| fde_fd := fd; fde_force_eof := false; fde_state := FDE_ACTIVE;
                          fde_events := 0; fde_func := func |}]> (fdes st)) st)).
Proof.
  intros I Hl Hfd. split; cbn.
  - intros fd' n Hn. destruct (decide (fd' = fd)) as [->|]; simplify_map_eq; [by eexists|].
    destruct (inv_node _ I _ _ Hn) as (e' & He' & ?).
    destruct (decide (pn_fde n = l)) as [<-|]; simplify_map_eq. eauto.
  - intros l' e' He' Ha'. destruct (decide (l' = l)) as [->|Hne]; simplify_map_eq; [by eexists|].
    destruct (inv_active _ I _ _ He' Ha') as (n & Hn & ?). exists n.
    rewrite lookup_insert_ne; [done|]. intros E. congruence.
  - intros l'. rewrite (inv_pending _ I). destruct (decide (l' = l)) as [->|Hne]; simplify_map_eq; [|done].
    split; intros (e' & ? & Hp); simplify_map_eq. done.
  - apply (inv_nodup _ I).
  - intros l' e' He' Hp'. destruct (decide (l' = l)) as [->|Hne]; simplify_map_eq; [done|].
    by eapply (inv_pending_active _ I).
  - intros l' e' He'. destruct (decide (l' = l)) as [->|Hne]; simplify_map_eq; [|by eapply (inv_events _ I)].
    split; [by intros []|by intros ?].
Qed.

Lemma wp_fdevent_install l fd func st (Q : unit -> fdstate F -> Prop) :
  fd_inv st -> fdes st !! l = None -> g_poll_node_map st !! fd = None -> (0 <= fd)%Z ->
  (let st' := set_poll_map (<[fd := {| pn_fde := l; pn_events := POLLRDHUP |}]> (g_poll_node_map st))
    (set_fdes (<[l := {| fde_fd := fd; fde_force_eof := false; fde_state := FDE_ACTIVE;
                          fde_events := 0; fde_func := func |}]> (fdes st)) st) in
   fd_inv st' -> Q tt st') ->
  wp (fdevent_install l fd func) Q st.
Proof.
  intros I Hl Hm Hfd HQ. unfold fdevent_install.
  apply wp_bind, wp_check; [lia|]. apply wp_bind, wp_store. apply wp_bind, wp_get. cbn.
  rewrite Hm. apply wp_modify. by apply HQ, fd_install_inv.
Qed.

(** Removal of an active object: it is inert, its descriptor is no longer
    polled, it is not pending, and the descriptor is closed unless
    [FDE_DONT_CLOSE] is set. *)
Record fd_removed (l : loc) e st st' : Prop := {
  removed_self : exists e', fdes st' !! l = Some e' /\ fde_state e' = 0%Z /\ fde_events e' = 0%Z;
  removed_others : forall l', l' <> l -> fdes st' !! l' = fdes st !! l';
  removed_nodes : g_poll_node_map st' = delete (fde_fd e) (g_poll_node_map st);
  removed_closed : closed_fds st' =
    if flag (fde_state e) FDE_DONT_CLOSE then closed_fds st else fde_fd e :: closed_fds st;
  removed_pending : forall l', l' ∈ g_pending_list st' <-> l' <> l /\ l' ∈ g_pending_list st;
  removed_length : length (g_pending_list st') <= length (g_pending_list st);
  removed_nodup : NoDup (g_pending_list st');
}.

Lemma fd_removed_inv l e st st' :
  fd_inv st -> fdes st !! l = Some e -> is_active e -> fd_removed l e st st' -> fd_inv st'.
Proof.
  intros I He Ha [(e0 & He0 & Hs0 & Hev0) Ho Hn _ Hp _ Hnd].
  assert (Hold : forall l' e', fdes st' !! l' = Some e' -> (is_active e' \/ is_pending e') ->
            l' <> l /\ fdes st !! l' = Some e').
  { intros l' e' He' Hor. destruct (decide (l' = l)) as [->|Hne]; [|by rewrite <- Ho].
    simplify_eq. unfold is_active, is_pending in Hor. rewrite Hs0 in Hor. by destruct Hor. }
  split.
  - intros fd n Hn'. rewrite Hn in Hn'. apply lookup_delete_Some in Hn' as [Hne Hn'].
    destruct (inv_node _ I _ _ Hn') as (e' & He' & Ha' & Hfd). exists e'. split; [|done].
    rewrite Ho; [done|]. intros E. rewrite E in He'. by simplify_eq.
  - intros l' e' He' Ha'. destruct (Hold _ _ He' (or_introl Ha')) as [Hne He''].
    destruct (inv_active _ I _ _ He'' Ha') as (n & Hn' & Hrest). exists n. split; [|done].
    rewrite Hn, lookup_delete_ne; [done|]. intros E. by apply Hne, (fd_unique st _ _ e' e).
  - intros l'. rewrite Hp, (inv_pending _ I). split.
    + intros (Hne & e' & He' & Hpe). exists e'. by rewrite Ho.
    + intros (e' & He' & Hpe). destruct (Hold _ _ He' (or_intror Hpe)). eauto.
  - done.
  - intros l' e' He' Hpe. destruct (Hold _ _ He' (or_intror Hpe)). by eapply (inv_pending_active _ I).
  - intros l' e' He'. destruct (decide (l' = l)) as [->|Hne].
    + simplify_eq. unfold is_pending. rewrite Hs0, Hev0. by split.
    + rewrite Ho in He' by done. by eapply (inv_events _ I).
Qed.

Lemma wp_fdevent_remove l st e (Q : unit -> fdstate F -> Prop) :
  fd_inv st -> fdes st !! l = Some e -> is_active e ->
  (forall st', fd_inv st' -> fd_removed l e st st' -> Q tt st') ->
  wp (fdevent_remove l) Q st.
Proof.
  intros I He Ha HQ. unfold fdevent_remove.
  apply wp_bind. eapply wp_load; [done|]. apply wp_when; intros Hact; [|congruence].
  apply wp_bind, wp_modify. apply wp_bind.
  set (st1 := set_poll_map _ st).
  assert (wp (when (flag (fde_state e) FDE_PENDING)
      (modify (fun st => set_pending (filter (fun x => x <> l) (g_pending_list st)) st)))
    (fun _ st2 => fdes st2 = fdes st /\ g_poll_node_map st2 = g_poll_node_map st1 /\
       closed_fds st2 = closed_fds st /\
       (forall l', l' ∈ g_pending_list st2 <-> l' <> l /\ l' ∈ g_pending_list st) /\
       length (g_pending_list st2) <= length (g_pending_list st) /\ NoDup (g_pending_list st2)) st1) as Hw.
  { apply wp_when; intros Hp.
    - apply wp_modify. cbn. split_and!; try done.
      + intros. apply filter_ne_in.
      + apply length_filter.
      + apply NoDup_filter, (inv_nodup _ I).
    - split_and!; try done; [|apply (inv_nodup _ I)].
      intros l'. split; [|by intros [_ ?]]. intros Hin. split; [|done]. intros ->.
      apply (inv_pending _ I) in Hin as (e' & ? & Hp'). simplify_eq. unfold is_pending in Hp'. congruence. }
  eapply wp_mono; [exact Hw|]. intros [] st2 (H1 & H2 & H3 & H4 & H5 & H6).
  assert (Hfin : forall e' cl, fde_state e' = 0%Z -> fde_events e' = 0%Z ->
    cl = (if flag (fde_state e) FDE_DONT_CLOSE then closed_fds st else fde_fd e :: closed_fds st) ->
    forall st3, fdes st3 = <[l := e']> (fdes st2) -> g_poll_node_map st3 = g_poll_node_map st2 ->
      g_pending_list st3 = g_pending_list st2 -> closed_fds st3 = cl -> Q tt st3).
  { intros e' cl Hs Hev -> st3 F1 F2 F3 F4.
    assert (fd_removed l e st st3).
    { split; rewrite ?F1, ?F2, ?F3, ?F4, ?H1, ?H2; try done.
      - exists e'. by simplify_map_eq.
      - intros. by rewrite lookup_insert_ne. }
    apply HQ; [by eapply fd_removed_inv|done]. }
  destruct (flag (fde_state e) FDE_DONT_CLOSE) eqn:Hdc; cbn [negb].
  - apply wp_store. by eapply (Hfin (upd_state 0 (upd_events 0 e)) (closed_fds st)).
  - apply wp_bind, wp_modify. apply wp_store.
    eapply (Hfin (upd_state 0 (upd_events 0 (upd_fd (-1) e))) (fde_fd e :: closed_fds st)); try done.
    cbn. by rewrite H3.
Qed.

(** Freeing an object that is not active. *)
Lemma fd_free_inv l e st :
  fd_inv st -> fdes st !! l = Some e -> ~ is_active e ->
  fd_inv (set_fdes (delete l (fdes st)) st).
Proof.
  intros I He Ha. split; cbn.
  - intros fd n Hn. destruct (inv_node _ I _ _ Hn) as (e' & He' & Ha' & ?).
    exists e'. rewrite lookup_delete_ne; [done|]. intros E. rewrite <- E in He'. by simplify_eq.
  - intros l' e' He' Ha'. apply lookup_delete_Some in He' as [_ He']. by eapply (inv_active _ I).
  - intros l'. rewrite (inv_pending _ I). split; intros (e' & He' & Hp).
    + exists e'. rewrite lookup_delete_ne; [done|]. intros E. rewrite <- E in He'. simplify_eq.
      by apply Ha, (inv_pending_active _ I _ _ He).
    + apply lookup_delete_Some in He' as [_ He']. eauto.
  - apply (inv_nodup _ I).
  - intros l' e' He' Hp. apply lookup_delete_Some in He' as [_ He']. by eapply (inv_pending_active _ I).
  - intros l' e' He'. apply lookup_delete_Some in He' as [_ He']. by eapply (inv_events _ I).
Qed.

(** [poll] reports events for a descriptor that is not pending. *)
Lemma fd_process_inv l e ev st :
  fd_inv st -> fdes st !! l = Some e -> is_active e -> ~ is_pending e -> ev <> 0%Z ->
  fd_inv (set_pending (g_pending_list st ++ [l])
    (set_fdes (<[l := upd_state (Z.lor (fde_state e) FDE_PENDING)
                        (upd_events (Z.lor (fde_events e) ev) e)]> (fdes st)) st)).
Proof.
  intros I He Ha Hp Hev. split; cbn.
  - intros fd n Hn. destruct (inv_node _ I _ _ Hn) as (e' & He' & Ha' & Hfd').
    destruct (decide (pn_fde n = l)) as [<-|]; simplify_map_eq; [|eauto].
    eexists. split; [done|]. split; [|done]. unfold is_active in *; cbn.
    by rewrite flag_set_pending by auto.
  - intros l' e' He' Ha'. destruct (decide (l' = l)) as [->|Hne]; simplify_map_eq.
    + cbn. rewrite !flag_set_pending by auto. by eapply (inv_active _ I).
    + by eapply (inv_active _ I).
  - intros l'. rewrite elem_of_app, list_elem_of_singleton, (inv_pending _ I).
    destruct (decide (l' = l)) as [->|Hne]; simplify_map_eq.
    + split; [|auto]. intros _. eexists. split; [done|]. unfold is_pending; cbn. apply flag_is_pending.
    + naive_solver.
  - apply NoDup_app. split_and!; [apply (inv_nodup _ I)| |apply NoDup_singleton].
    intros l' Hin ->%list_elem_of_singleton. apply (inv_pending _ I) in Hin as (e' & ? & ?). by simplify_eq.
  - intros l' e' He' Hp'. destruct (decide (l' = l)) as [->|Hne]; simplify_map_eq.
    + unfold is_active in *; cbn. by rewrite flag_set_pending by auto.
    + by eapply (inv_pending_active _ I).
  - intros l' e' He'. destruct (decide (l' = l)) as [->|Hne]; simplify_map_eq; [|by eapply (inv_events _ I)].
    cbn. split; [intros _; unfold is_pending; cbn; apply flag_is_pending|].
    intros _ H0. apply Z.lor_eq_0_iff in H0 as [_ ?]. done.
Qed.

End FdInv.

(** ** Draining the pending list *)

Section FdLoop.
Context {F : Type} (run : F -> Z -> Z -> M (fdstate F) unit).
Implicit Types (st : fdstate F).

Definition keeps_fd_inv : Prop := forall f fd ev st, fd_inv st ->
  wp (run f fd ev) (fun _ st' => fd_inv st' /\ length (g_pending_list st') <= length (g_pending_list st)) st.

Lemma filter_ne_id (l : loc) (k : list loc) : l ∉ k -> filter (fun x => x <> l) k = k.
Proof.
  induction k as [|a k IH]; intros Hn; [done|]. rewrite filter_cons, decide_True by set_solver.
  f_equal. apply IH. set_solver.
Qed.

Lemma filter_ne_head (l : loc) (k : list loc) : NoDup (l :: k) -> filter (fun x => x <> l) (l :: k) = k.
Proof.
  intros Hn. apply NoDup_cons in Hn as [Hn _]. rewrite filter_cons, decide_False by tauto.
  by apply filter_ne_id.
Qed.

(** Taking the first pending object and calling its function. *)
Lemma wp_call_first l rest st (Q : unit -> fdstate F -> Prop) :
  fd_inv st -> g_pending_list st = l :: rest ->
  (forall e st1, fdes st !! l = Some e -> fd_inv st1 -> g_pending_list st1 = rest ->
     wp (run (fde_func e) (fde_fd e) (fde_events e)) Q st1) ->
  wp (modify (set_pending rest) ;;; fdevent_call_fdfunc run l) Q st.
Proof.
  intros I Hp HQ. apply wp_bind, wp_modify.
  assert (l ∈ g_pending_list st) as Hin by (rewrite Hp; left).
  apply (inv_pending _ I) in Hin as (e & He & Hpe).
  unfold fdevent_call_fdfunc. apply wp_bind. eapply wp_load; [exact He|].
  apply wp_bind, wp_store. apply wp_bind, wp_check; [exact Hpe|]. apply wp_bind, wp_store.
  apply (HQ e); [done| |done].
  pose proof (fd_unpend_inv l e st I He) as Hinv.
  rewrite Hp, filter_ne_head in Hinv by (rewrite <- Hp; apply (inv_nodup _ I)).
  destruct st; cbn in *. by rewrite insert_insert_eq.
Qed.

Lemma wp_drain fuel st :
  keeps_fd_inv -> fd_inv st -> length (g_pending_list st) <= fuel ->
  wp (drain run fuel) (fun _ st' => fd_inv st' /\ g_pending_list st' = []) st.
Proof.
  intros Hrun. revert st. induction fuel as [|f IH]; intros st I Hl.
  - destruct (g_pending_list st) eqn:Hp; [|cbn in Hl; lia].
    cbn [drain]. apply wp_bind, wp_get. rewrite Hp. by apply wp_ret.
  - cbn [drain]. apply wp_bind, wp_get. destruct (g_pending_list st) as [|l rest] eqn:Hp; [by apply wp_ret|].
    assert (wp (modify (set_pending rest) ;;; fdevent_call_fdfunc run l)
      (fun _ st' => fd_inv st' /\ length (g_pending_list st') <= length rest) st) as Hw.
    { eapply wp_call_first; [done|done|]. intros e st1 _ I1 <-. by apply Hrun. }
    apply wp_bind_inv in Hw. apply wp_bind. eapply wp_mono; [exact Hw|]. cbn beta.
    intros [] st1 Hw1. apply wp_bind. eapply wp_mono; [exact Hw1|]. cbn beta.
    intros [] st2 (I2 & Hlen). apply IH; [done|]. cbn in Hl. lia.
Qed.

(** What [poll] may answer: each polled descriptor at most once. *)
Definition poll_answer_ok st (rs : list (Z * Z)) : Prop :=
  NoDup (rs.*1) /\ forall fd, fd ∈ rs.*1 -> is_Some (g_poll_node_map st !! fd).

(** The objects a poll answer makes pending. *)
Definition ready_of st (r : Z * Z) : option loc :=
  if (events_of_revents r.2 =? 0)%Z then None else pn_fde <$> g_poll_node_map st !! r.1.

Lemma wp_process rs st (Q : unit -> fdstate F -> Prop) :
  fd_inv st -> poll_answer_ok st rs ->
  (forall fd n, fd ∈ rs.*1 -> g_poll_node_map st !! fd = Some n -> pn_fde n ∉ g_pending_list st) ->
  (forall st', fd_inv st' -> g_pending_list st' = g_pending_list st ++ omap (ready_of st) rs ->
     g_poll_node_map st' = g_poll_node_map st -> Q tt st') ->
  wp (iter_list process_pollfd rs) Q st.
Proof.
  revert st. induction rs as [|[fd rev] rs IH]; intros st I [Hnd Hin] Hnp HQ.
  - apply wp_ret. apply HQ; [done| |done]. by rewrite app_nil_r.
  - cbn [iter_list]. apply wp_bind. cbn [fmap list_fmap] in *. apply NoDup_cons in Hnd as [Hnfd Hnd].
    cbn [omap list_omap]. cbn [omap list_omap] in HQ.
    destruct (Hin fd) as [n Hn]; [left|].
    destruct (inv_node _ I _ _ Hn) as (e & He & Ha & Hfd).
    assert (Hnpe : ~ is_pending e).
    { intros Hp. eapply (Hnp fd n); [left|done|]. apply (inv_pending _ I). eauto. }
    unfold process_pollfd. apply wp_when; intros Hz.
    + apply wp_bind, wp_get. rewrite Hn. apply wp_bind. eapply wp_load; [done|].
      apply wp_bind, wp_check; [lia|]. apply wp_bind, wp_store, wp_modify.
      unfold ready_of in HQ. cbn in HQ. rewrite Hn in HQ. apply negb_true_iff in Hz. rewrite Hz in HQ.
      apply IH.
      * apply (fd_process_inv _ e _ st); try done. lia.
      * split; [done|]. cbn. intros fd' Hfd'. apply Hin. by right.
      * cbn. intros fd' n' Hfd' Hn' Hbad. apply elem_of_app in Hbad as [Hbad|Hbad].
        { eapply (Hnp fd' n'); [by right|done|done]. }
        apply list_elem_of_singleton in Hbad.
        destruct (inv_node _ I _ _ Hn') as (e' & He' & _ & Hfd''). rewrite Hbad in He'. simplify_eq.
        done.
      * cbn. intros st' I' Hp' Hm'. apply HQ; [done| |done]. rewrite Hp', <- app_assoc. done.
    + unfold ready_of in HQ. cbn in HQ. apply negb_false_iff in Hz. rewrite Hz in HQ. apply IH; try done.
      * split; [done|]. intros fd' Hfd'. apply Hin. by right.
      * intros fd' n' Hfd'. apply Hnp. by right.
Qed.

End FdLoop.

(** ** Properties *)

(** The operations of the interface, with what a caller must ensure. *)
Inductive fd_op (F : Type) :=
| OpInstall (l : loc) (fd : Z) (f : F)
| OpCreate (l : loc) (fd : Z) (f : F)
| OpRemove (l : loc)
| OpDestroy (l : loc)
| OpSet (l : loc) (ev : Z)
| OpAdd (l : loc) (ev : Z)
| OpDel (l : loc) (ev : Z)
| OpProcess (answer : option (list (Z * Z))).
Arguments OpInstall {F}. Arguments OpCreate {F}. Arguments OpRemove {F}. Arguments OpDestroy {F}.
Arguments OpSet {F}. Arguments OpAdd {F}. Arguments OpDel {F}. Arguments OpProcess {F}.

Definition run_fd_op {F} (op : fd_op F) : M (fdstate F) unit :=
  match op with
  | OpInstall l fd f => fdevent_install l fd f
  | OpCreate l fd f => fdevent_create l fd f ;;; ret tt
  | OpRemove l => fdevent_remove l
  | OpDestroy l => fdevent_destroy l
  | OpSet l ev => fdevent_set l ev
  | OpAdd l ev => fdevent_add l ev
  | OpDel l ev => fdevent_del l ev
  | OpProcess a => fdevent_process a
  end.

(** The object is fresh and the descriptor unused; the object is active; poll
    answers for polled descriptors, when nothing is pending. *)
Definition fd_op_pre {F} (op : fd_op F) (st : fdstate F) : Prop :=
  match op with
  | OpInstall l fd _ | OpCreate l fd _ =>
      fdes st !! l = None /\ g_poll_node_map st !! fd = None /\ (0 <= fd)%Z
  | OpRemove l | OpDestroy l | OpSet l _ | OpAdd l _ | OpDel l _ =>
      exists e, fdes st !! l = Some e /\ is_active e
  | OpProcess a =>
      g_pending_list st = [] /\ g_poll_node_map st <> ∅ /\
      match a with None => True | Some rs => poll_answer_ok st rs end
  end.

Lemma flag_created_same s m :
  m = FDE_READ \/ m = FDE_WRITE \/ m = FDE_ACTIVE \/ m = FDE_PENDING ->
  flag (Z.lor s FDE_CREATED) m = flag s m.
Proof. intros [->|[->|[->| ->]]]; flags. Qed.

Lemma fd_created_inv {F} l (e : fdevent F) st :
  fd_inv st -> fdes st !! l = Some e ->
  fd_inv (set_fdes (<[l := upd_state (Z.lor (fde_state e) FDE_CREATED) e]> (fdes st)) st).
Proof.
  intros I He. split; cbn.
  - intros fd n Hn. destruct (inv_node _ I _ _ Hn) as (e' & He' & Ha' & Hfd').
    destruct (decide (pn_fde n = l)) as [<-|]; simplify_map_eq; [|eauto].
    eexists. split; [done|]. split; [|done]. unfold is_active in *; cbn. by rewrite flag_created_same by auto.
  - intros l' e' He' Ha'. destruct (decide (l' = l)) as [->|Hne]; simplify_map_eq; [|by eapply (inv_active _ I)].
    unfold is_active in Ha'; cbn in *. rewrite flag_created_same in Ha' by auto.
    rewrite !flag_created_same by auto. by eapply (inv_active _ I).
  - intros l'. rewrite (inv_pending _ I). destruct (decide (l' = l)) as [->|Hne]; simplify_map_eq; [|done].
    split; intros (e' & ? & Hp); simplify_map_eq; eexists; (split; [done|]); unfold is_pending in *; cbn in *;
      by rewrite flag_created_same in * by auto.
  - apply (inv_nodup _ I).
  - intros l' e' He' Hp. destruct (decide (l' = l)) as [->|Hne]; simplify_map_eq; [|by eapply (inv_pending_active _ I)].
    unfold is_active, is_pending in *; cbn in *. rewrite flag_created_same in * by auto.
    by eapply (inv_pending_active _ I).
  - intros l' e' He'. destruct (decide (l' = l)) as [->|Hne]; simplify_map_eq; [|by eapply (inv_events _ I)].
    unfold is_pending; cbn. rewrite flag_created_same by auto. by eapply (inv_events _ I).
Qed.

(** C26: every operation of the event library, called as its clients must call
    it, runs without a failed [CHECK] or a dangling object and keeps the
    invariant: the poll map holds exactly the active objects with the interest
    their state records, the pending list holds exactly the pending ones, once
    each, and an object is pending exactly when it has undelivered events. *)
Theorem fdevent_ops_invariant {F} (op : fd_op F) st :
  fd_inv st -> fd_op_pre op st -> wp (run_fd_op op) (fun _ st' => fd_inv st') st.
Proof.
  intros I Hpre. destruct op; cbn in *.
  - destruct Hpre as (? & ? & ?). by apply wp_fdevent_install.
  - destruct Hpre as (? & ? & ?). apply wp_bind. unfold fdevent_create. apply wp_bind.
    apply wp_fdevent_install; [done..|]. intros st' I'. apply wp_bind.
    eapply wp_load; [cbn; by simplify_map_eq|].
    apply wp_bind, wp_store. apply wp_ret. apply wp_ret.
    apply fd_created_inv; [done|]. cbn. by simplify_map_eq.
  - destruct Hpre as (e & ? & ?). by eapply wp_fdevent_remove.
  - destruct Hpre as (e & He & Ha). unfold fdevent_destroy. apply wp_bind. eapply wp_load; [done|].
    destruct (negb _); [apply wp_fatal|]. apply wp_bind. eapply wp_fdevent_remove; [done..|].
    intros st' I' Hr. apply wp_modify. destruct (removed_self _ _ _ _ Hr) as (e' & He' & Hs & _).
    eapply fd_free_inv; [done|done|]. unfold is_active. by rewrite Hs.
  - destruct Hpre as (e & ? & ?). by eapply wp_fdevent_set.
  - destruct Hpre as (e & ? & ?). by eapply wp_fdevent_add.
  - destruct Hpre as (e & ? & ?). by eapply wp_fdevent_del.
  - destruct Hpre as (Hp & Hne & Ha). unfold fdevent_process. apply wp_bind, wp_get.
    apply wp_bind, wp_check.
    { apply Nat.ltb_lt. destruct (size (g_poll_node_map st)) eqn:E; [|lia].
      by apply map_size_empty_iff in E. }
    destruct answer as [rs|]; [|by apply wp_ret].
    apply wp_process; [done|done| |done]. intros. rewrite Hp. set_solver.
Qed.

(** If every callback keeps the invariant and makes no object pending (the
    library's operations do not), a turn of the loop terminates: it calls the
    callbacks of the ready descriptors and comes back to [poll] with nothing
    pending. *)
Theorem fdevent_loop_turn_ok {F} (run : F -> Z -> Z -> M (fdstate F) unit) st answer :
  keeps_fd_inv run -> fd_inv st -> fd_op_pre (OpProcess answer) st ->
  wp (fdevent_loop_turn run answer) (fun _ st' => fd_inv st' /\ g_pending_list st' = []) st.
Proof.
  intros Hrun I (Hp & Hne & Ha). unfold fdevent_loop_turn. apply wp_bind.
  unfold fdevent_process. apply wp_bind, wp_get. apply wp_bind, wp_check.
  { apply Nat.ltb_lt. destruct (size (g_poll_node_map st)) eqn:E; [|lia].
    by apply map_size_empty_iff in E. }
  assert (Hd : forall st', fd_inv st' ->
    wp (let* st0 := get in drain run (length (g_pending_list st0)))
       (fun _ st' => fd_inv st' /\ g_pending_list st' = []) st').
  { intros st' I'. apply wp_bind, wp_get. by apply wp_drain. }
  destruct answer as [rs|]; [|by apply wp_ret, Hd].
  apply wp_process; [done|done| |auto]. intros. rewrite Hp. set_solver.
Qed.

(** When [fdevent_set] changes the interest of an object, the object keeps
    no undelivered event that is not wanted any more, and it stays pending only
    if a wanted one is left. *)
Theorem fdevent_set_drops_unwanted {F} l ev st (e : fdevent F) :
  fd_inv st -> fdes st !! l = Some e -> is_active e ->
  Z.land (fde_state e) FDE_EVENTMASK <> Z.land ev FDE_EVENTMASK ->
  exists e' st', fdevent_set l ev st = Done tt st' /\ fdes st' !! l = Some e' /\
    fde_events e' = Z.land (fde_events e) (Z.land ev FDE_EVENTMASK) /\
    (l ∈ g_pending_list st' <-> fde_events e' <> 0%Z).
Proof.
  intros I He Ha Hne.
  assert (wp (fdevent_set l ev) (fun _ st' => fd_inv st') st) as Hw by (by eapply wp_fdevent_set).
  assert (exists st' e', fdevent_set l ev st = Done tt st' /\ fdes st' !! l = Some e' /\
    fde_events e' = Z.land (fde_events e) (Z.land ev FDE_EVENTMASK)) as (st' & e' & Hr & He' & Hev).
  { destruct (inv_active _ I _ _ He Ha) as (n & Hn & _).
    unfold fdevent_set, fdevent_update, bind, load, store, modify, get, check, when, ret.
    cbv beta zeta. rewrite He. cbv beta iota. apply Z.eqb_neq in Hne. rewrite Hne.
    unfold is_active in Ha. rewrite Ha. cbv beta iota. rewrite He. cbv beta iota. rewrite Hn. cbn.
    rewrite lookup_insert_eq.
    cbn. rewrite flag_update_pending.
    destruct (flag (fde_state e) FDE_PENDING) eqn:Hp.
    - case_match; cbn; do 2 eexists; split; [done| |done|]; cbn; rewrite ?lookup_insert_eq; done.
    - do 2 eexists. split; [done|]. cbn. rewrite lookup_insert_eq. split; [done|]. cbn.
      destruct (decide (fde_events e = 0)%Z) as [->|Hnz]; [by rewrite Z.land_0_l|].
      apply (inv_events _ I _ _ He) in Hnz. unfold is_pending in Hnz. congruence. }
  pose proof (wp_done _ _ _ _ _ Hr Hw) as I'. cbn in I'.
  exists e', st'. split_and!; [done|done|done|].
  rewrite (inv_pending _ I'), (inv_events _ I' _ _ He'). split; [|eauto]. intros (? & ? & ?). by simplify_eq.
Qed.

(** ** Witnesses: an object at 1 on descriptor 5, readable and pending *)

Definition demo_run : M (fdstate nat) unit :=
  fdevent_install 1%positive 5 O ;;; fdevent_add 1%positive (Z.lor FDE_READ FDE_WRITE) ;;;
  fdevent_process (Some [(5%Z, POLLIN)]).

Definition demo_state : fdstate nat :=
  match demo_run fd_empty with Done _ st => st | _ => fd_empty end.

Lemma demo_state_inv : fd_inv demo_state.
Proof.
  assert (wp demo_run (fun _ st => fd_inv st) fd_empty) as Hw.
  { unfold demo_run. apply wp_bind, wp_fdevent_install; [apply fd_inv_empty|done|done|lia|].
    intros st I. apply wp_bind. eapply wp_fdevent_add; [exact I|cbn; by simplify_map_eq|done|].
    intros st' e' I' Hf _ _ _ _ _ _ _ _. unfold fdevent_process. apply wp_bind, wp_get.
    assert (exists n, g_poll_node_map st' !! 5%Z = Some n) as [n Hn].
    { pose proof (frame_nodes _ _ _ Hf 5%Z) as Hx. cbn in Hx. simplify_map_eq.
      destruct (g_poll_node_map st' !! 5%Z); [eauto|done]. }
    apply wp_bind, wp_check.
    { apply Nat.ltb_lt. destruct (size (g_poll_node_map st')) eqn:E; [|lia].
      apply map_size_empty_iff in E. rewrite E in Hn. done. }
    apply wp_process; [done| | |done].
    - split; [repeat constructor; set_solver|]. cbn. intros fd ->%list_elem_of_singleton. eauto.
    - intros. destruct (g_pending_list st') as [|x k] eqn:E; [set_solver|].
      pose proof (frame_pending _ _ _ Hf) as Hx. rewrite E in Hx. cbn in Hx. lia. }
  refine (wp_done _ (fun _ st' => fd_inv st') _ _ _ _ Hw). by vm_compute.
Qed.

Lemma fdevent_ops_invariant_witness :
  wp (run_fd_op (OpRemove 1%positive)) (fun _ st' => fd_inv st') demo_state.
Proof.
  apply (fdevent_ops_invariant (OpRemove 1%positive)); [apply demo_state_inv|].
  eexists. split; [vm_compute; reflexivity|vm_compute; reflexivity].
Defined.

(** The callback stops reading its descriptor. *)
Lemma fdevent_loop_turn_ok_witness :
  let run := fun (_ : nat) _ _ => ret tt in
  let st := match (fdevent_install 1%positive 5 O) fd_empty with Done _ st => st | _ => fd_empty end in
  wp (fdevent_loop_turn run (Some [(5%Z, POLLIN)]))
     (fun _ st' => fd_inv st' /\ g_pending_list st' = []) st.
Proof.
  intros run st. apply (fdevent_loop_turn_ok run).
  - intros f fd ev st0 I. by apply wp_ret.
  - refine (wp_done _ (fun _ st' => fd_inv st') _ _ _
              (eq_refl : fdevent_install 1%positive 5 O fd_empty = Done tt st) _).
    apply wp_fdevent_install; [apply fd_inv_empty|done|done|lia|done].
  - split; [done|]. split; [vm_compute; discriminate|].
    split; [repeat constructor; set_solver|]. cbn. intros fd ->%list_elem_of_singleton.
    vm_compute. eauto.
Defined.

Lemma fdevent_set_drops_unwanted_witness :
  exists e' st', fdevent_set 1%positive FDE_WRITE demo_state = Done tt st' /\
    fdes st' !! 1%positive = Some e' /\ fde_events e' = 0%Z /\ g_pending_list st' = [].
Proof.
  destruct (fdes demo_state !! 1%positive) as [e|] eqn:He; [|vm_compute in He; discriminate].
  destruct (fdevent_set_drops_unwanted 1%positive FDE_WRITE demo_state e) as (e' & st' & H1 & H2 & H3 & H4).
  - apply demo_state_inv.
  - exact He.
  - vm_compute in He. injection He as <-. reflexivity.
  - vm_compute in He. injection He as <-. vm_compute. discriminate.
  - exists e', st'. split; [exact H1|]. split; [exact H2|].
    assert (fde_events e' = 0%Z) as Hz.
    { rewrite H3. vm_compute in He. injection He as <-. reflexivity. }
    split; [exact Hz|]. vm_compute in H1. injection H1 as <-. reflexivity.
Defined.
