(* ===== verification/Transport.v ===== *)
(** * Transports: data, features, targets, banners (transport.h, transport.cpp, adb.cpp)

    The [atransport] object as a record, the feature sets, the matching of a
    target string against a transport, the choice of one transport, the text of
    the transport list, and the connection banner in both directions. *)

From S2P Require Import Prelude LibBase Packet FdEvent.

Inductive TransportType := kTransportUsb | kTransportLocal | kTransportAny | kTransportHost.

#[export] Instance TransportType_eq_dec : EqDecision TransportType.
Proof. solve_decision. Defined.

Inductive ConnectionState :=
| kCsAny | kCsOffline | kCsBootloader | kCsDevice | kCsHost | kCsRecovery | kCsNoPerm
| kCsSideload | kCsUnauthorized.

#[export] Instance ConnectionState_eq_dec : EqDecision ConnectionState.
Proof. solve_decision. Defined.

(** [std::unordered_set<std::string>] *)
Abbreviation FeatureSet := (gset bytes).

(** The [func] and [opaque] of an [adisconnect]: the callback is
    [listener_disconnect] with a listener, or that of the device's
    authentication client. *)
Inductive adisconnect := DisconnectListener (l : loc) | DisconnectAuth.

#[export] Instance adisconnect_eq_dec : EqDecision adisconnect.
Proof. solve_decision. Defined.

Record atransport := {
  t_fd : Z;
  t_transport_socket : Z;
  t_ref_count : Z;
  t_sync_token : Z;
  t_online : bool;
  t_type : TransportType;
  t_usb : option Z;
  t_sfd : Z;
  t_serial : option bytes;
  t_product : option bytes;
  t_model : option bytes;
  t_device : option bytes;
  t_devpath : option bytes;
  t_token : bytes;
  t_failed_auth_attempts : Z;
  t_local_port_for_emulator : Z;
  t_kicked : bool;
  t_features : FeatureSet;
  t_protocol_version : Z;
  t_max_payload : Z;
  t_disconnects : list adisconnect;
  t_connection_state : ConnectionState;
  t_has_send_connect_on_error : bool;
  t_keys : list (option loc);
}.

(** ** Field updates *)

Definition set_t_fd (v : Z) (x : atransport) : atransport :=
  {| t_fd := v; t_transport_socket := t_transport_socket x; t_ref_count := t_ref_count x;
     t_sync_token := t_sync_token x; t_online := t_online x; t_type := t_type x;
     t_usb := t_usb x; t_sfd := t_sfd x; t_serial := t_serial x; t_product := t_product x;
     t_model := t_model x; t_device := t_device x; t_devpath := t_devpath x;
     t_token := t_token x; t_failed_auth_attempts := t_failed_auth_attempts x;
     t_local_port_for_emulator := t_local_port_for_emulator x; t_kicked := t_kicked x;
     t_features := t_features x; t_protocol_version := t_protocol_version x;
     t_max_payload := t_max_payload x; t_disconnects := t_disconnects x;
     t_connection_state := t_connection_state x;
     t_has_send_connect_on_error := t_has_send_connect_on_error x; t_keys := t_keys x |}.
Definition set_t_transport_socket (v : Z) (x : atransport) : atransport :=
  {| t_fd := t_fd x; t_transport_socket := v; t_ref_count := t_ref_count x;
     t_sync_token := t_sync_token x; t_online := t_online x; t_type := t_type x;
     t_usb := t_usb x; t_sfd := t_sfd x; t_serial := t_serial x; t_product := t_product x;
     t_model := t_model x; t_device := t_device x; t_devpath := t_devpath x;
     t_token := t_token x; t_failed_auth_attempts := t_failed_auth_attempts x;
     t_local_port_for_emulator := t_local_port_for_emulator x; t_kicked := t_kicked x;
     t_features := t_features x; t_protocol_version := t_protocol_version x;
     t_max_payload := t_max_payload x; t_disconnects := t_disconnects x;
     t_connection_state := t_connection_state x;
     t_has_send_connect_on_error := t_has_send_connect_on_error x; t_keys := t_keys x |}.
Definition set_t_ref_count (v : Z) (x : atransport) : atransport :=
  {| t_fd := t_fd x; t_transport_socket := t_transport_socket x; t_ref_count := v;
     t_sync_token := t_sync_token x; t_online := t_online x; t_type := t_type x;
     t_usb := t_usb x; t_sfd := t_sfd x; t_serial := t_serial x; t_product := t_product x;
     t_model := t_model x; t_device := t_device x; t_devpath := t_devpath x;
     t_token := t_token x; t_failed_auth_attempts := t_failed_auth_attempts x;
     t_local_port_for_emulator := t_local_port_for_emulator x; t_kicked := t_kicked x;
     t_features := t_features x; t_protocol_version := t_protocol_version x;
     t_max_payload := t_max_payload x; t_disconnects := t_disconnects x;
     t_connection_state := t_connection_state x;
     t_has_send_connect_on_error := t_has_send_connect_on_error x; t_keys := t_keys x |}.
Definition set_t_sync_token (v : Z) (x : atransport) : atransport :=
  {| t_fd := t_fd x; t_transport_socket := t_transport_socket x; t_ref_count := t_ref_count x;
     t_sync_token := v; t_online := t_online x; t_type := t_type x; t_usb := t_usb x;
     t_sfd := t_sfd x; t_serial := t_serial x; t_product := t_product x; t_model := t_model x;
     t_device := t_device x; t_devpath := t_devpath x; t_token := t_token x;
     t_failed_auth_attempts := t_failed_auth_attempts x;
     t_local_port_for_emulator := t_local_port_for_emulator x; t_kicked := t_kicked x;
     t_features := t_features x; t_protocol_version := t_protocol_version x;
     t_max_payload := t_max_payload x; t_disconnects := t_disconnects x;
     t_connection_state := t_connection_state x;
     t_has_send_connect_on_error := t_has_send_connect_on_error x; t_keys := t_keys x |}.
Definition set_t_online (v : bool) (x : atransport) : atransport :=
  {| t_fd := t_fd x; t_transport_socket := t_transport_socket x; t_ref_count := t_ref_count x;
     t_sync_token := t_sync_token x; t_online := v; t_type := t_type x; t_usb := t_usb x;
     t_sfd := t_sfd x; t_serial := t_serial x; t_product := t_product x; t_model := t_model x;
     t_device := t_device x; t_devpath := t_devpath x; t_token := t_token x;
     t_failed_auth_attempts := t_failed_auth_attempts x;
     t_local_port_for_emulator := t_local_port_for_emulator x; t_kicked := t_kicked x;
     t_features := t_features x; t_protocol_version := t_protocol_version x;
     t_max_payload := t_max_payload x; t_disconnects := t_disconnects x;
     t_connection_state := t_connection_state x;
     t_has_send_connect_on_error := t_has_send_connect_on_error x; t_keys := t_keys x |}.
Definition set_t_type (v : TransportType) (x : atransport) : atransport :=
  {| t_fd := t_fd x; t_transport_socket := t_transport_socket x; t_ref_count := t_ref_count x;
     t_sync_token := t_sync_token x; t_online := t_online x; t_type := v; t_usb := t_usb x;
     t_sfd := t_sfd x; t_serial := t_serial x; t_product := t_product x; t_model := t_model x;
     t_device := t_device x; t_devpath := t_devpath x; t_token := t_token x;
     t_failed_auth_attempts := t_failed_auth_attempts x;
     t_local_port_for_emulator := t_local_port_for_emulator x; t_kicked := t_kicked x;
     t_features := t_features x; t_protocol_version := t_protocol_version x;
     t_max_payload := t_max_payload x; t_disconnects := t_disconnects x;
     t_connection_state := t_connection_state x;
     t_has_send_connect_on_error := t_has_send_connect_on_error x; t_keys := t_keys x |}.
Definition set_t_usb (v : option Z) (x : atransport) : atransport :=
  {| t_fd := t_fd x; t_transport_socket := t_transport_socket x; t_ref_count := t_ref_count x;
     t_sync_token := t_sync_token x; t_online := t_online x; t_type := t_type x; t_usb := v;
     t_sfd := t_sfd x; t_serial := t_serial x; t_product := t_product x; t_model := t_model x;
     t_device := t_device x; t_devpath := t_devpath x; t_token := t_token x;
     t_failed_auth_attempts := t_failed_auth_attempts x;
     t_local_port_for_emulator := t_local_port_for_emulator x; t_kicked := t_kicked x;
     t_features := t_features x; t_protocol_version := t_protocol_version x;
     t_max_payload := t_max_payload x; t_disconnects := t_disconnects x;
     t_connection_state := t_connection_state x;
     t_has_send_connect_on_error := t_has_send_connect_on_error x; t_keys := t_keys x |}.
Definition set_t_sfd (v : Z) (x : atransport) : atransport :=
  {| t_fd := t_fd x; t_transport_socket := t_transport_socket x; t_ref_count := t_ref_count x;
     t_sync_token := t_sync_token x; t_online := t_online x; t_type := t_type x;
     t_usb := t_usb x; t_sfd := v; t_serial := t_serial x; t_product := t_product x;
     t_model := t_model x; t_device := t_device x; t_devpath := t_devpath x;
     t_token := t_token x; t_failed_auth_attempts := t_failed_auth_attempts x;
     t_local_port_for_emulator := t_local_port_for_emulator x; t_kicked := t_kicked x;
     t_features := t_features x; t_protocol_version := t_protocol_version x;
     t_max_payload := t_max_payload x; t_disconnects := t_disconnects x;
     t_connection_state := t_connection_state x;
     t_has_send_connect_on_error := t_has_send_connect_on_error x; t_keys := t_keys x |}.
Definition set_t_serial (v : option bytes) (x : atransport) : atransport :=
  {| t_fd := t_fd x; t_transport_socket := t_transport_socket x; t_ref_count := t_ref_count x;
     t_sync_token := t_sync_token x; t_online := t_online x; t_type := t_type x;
     t_usb := t_usb x; t_sfd := t_sfd x; t_serial := v; t_product := t_product x;
     t_model := t_model x; t_device := t_device x; t_devpath := t_devpath x;
     t_token := t_token x; t_failed_auth_attempts := t_failed_auth_attempts x;
     t_local_port_for_emulator := t_local_port_for_emulator x; t_kicked := t_kicked x;
     t_features := t_features x; t_protocol_version := t_protocol_version x;
     t_max_payload := t_max_payload x; t_disconnects := t_disconnects x;
     t_connection_state := t_connection_state x;
     t_has_send_connect_on_error := t_has_send_connect_on_error x; t_keys := t_keys x |}.
Definition set_t_product (v : option bytes) (x : atransport) : atransport :=
  {| t_fd := t_fd x; t_transport_socket := t_transport_socket x; t_ref_count := t_ref_count x;
     t_sync_token := t_sync_token x; t_online := t_online x; t_type := t_type x;
     t_usb := t_usb x; t_sfd := t_sfd x; t_serial := t_serial x; t_product := v;
     t_model := t_model x; t_device := t_device x; t_devpath := t_devpath x;
     t_token := t_token x; t_failed_auth_attempts := t_failed_auth_attempts x;
     t_local_port_for_emulator := t_local_port_for_emulator x; t_kicked := t_kicked x;
     t_features := t_features x; t_protocol_version := t_protocol_version x;
     t_max_payload := t_max_payload x; t_disconnects := t_disconnects x;
     t_connection_state := t_connection_state x;
     t_has_send_connect_on_error := t_has_send_connect_on_error x; t_keys := t_keys x |}.
Definition set_t_model (v : option bytes) (x : atransport) : atransport :=
  {| t_fd := t_fd x; t_transport_socket := t_transport_socket x; t_ref_count := t_ref_count x;
     t_sync_token := t_sync_token x; t_online := t_online x; t_type := t_type x;
     t_usb := t_usb x; t_sfd := t_sfd x; t_serial := t_serial x; t_product := t_product x;
     t_model := v; t_device := t_device x; t_devpath := t_devpath x; t_token := t_token x;
     t_failed_auth_attempts := t_failed_auth_attempts x;
     t_local_port_for_emulator := t_local_port_for_emulator x; t_kicked := t_kicked x;
     t_features := t_features x; t_protocol_version := t_protocol_version x;
     t_max_payload := t_max_payload x; t_disconnects := t_disconnects x;
     t_connection_state := t_connection_state x;
     t_has_send_connect_on_error := t_has_send_connect_on_error x; t_keys := t_keys x |}.
Definition set_t_device (v : option bytes) (x : atransport) : atransport :=
  {| t_fd := t_fd x; t_transport_socket := t_transport_socket x; t_ref_count := t_ref_count x;
     t_sync_token := t_sync_token x; t_online := t_online x; t_type := t_type x;
     t_usb := t_usb x; t_sfd := t_sfd x; t_serial := t_serial x; t_product := t_product x;
     t_model := t_model x; t_device := v; t_devpath := t_devpath x; t_token := t_token x;
     t_failed_auth_attempts := t_failed_auth_attempts x;
     t_local_port_for_emulator := t_local_port_for_emulator x; t_kicked := t_kicked x;
     t_features := t_features x; t_protocol_version := t_protocol_version x;
     t_max_payload := t_max_payload x; t_disconnects := t_disconnects x;
     t_connection_state := t_connection_state x;
     t_has_send_connect_on_error := t_has_send_connect_on_error x; t_keys := t_keys x |}.
Definition set_t_devpath (v : option bytes) (x : atransport) : atransport :=
  {| t_fd := t_fd x; t_transport_socket := t_transport_socket x; t_ref_count := t_ref_count x;
     t_sync_token := t_sync_token x; t_online := t_online x; t_type := t_type x;
     t_usb := t_usb x; t_sfd := t_sfd x; t_serial := t_serial x; t_product := t_product x;
     t_model := t_model x; t_device := t_device x; t_devpath := v; t_token := t_token x;
     t_failed_auth_attempts := t_failed_auth_attempts x;
     t_local_port_for_emulator := t_local_port_for_emulator x; t_kicked := t_kicked x;
     t_features := t_features x; t_protocol_version := t_protocol_version x;
     t_max_payload := t_max_payload x; t_disconnects := t_disconnects x;
     t_connection_state := t_connection_state x;
     t_has_send_connect_on_error := t_has_send_connect_on_error x; t_keys := t_keys x |}.
Definition set_t_token (v : bytes) (x : atransport) : atransport :=
  {| t_fd := t_fd x; t_transport_socket := t_transport_socket x; t_ref_count := t_ref_count x;
     t_sync_token := t_sync_token x; t_online := t_online x; t_type := t_type x;
     t_usb := t_usb x; t_sfd := t_sfd x; t_serial := t_serial x; t_product := t_product x;
     t_model := t_model x; t_device := t_device x; t_devpath := t_devpath x; t_token := v;
     t_failed_auth_attempts := t_failed_auth_attempts x;
     t_local_port_for_emulator := t_local_port_for_emulator x; t_kicked := t_kicked x;
     t_features := t_features x; t_protocol_version := t_protocol_version x;
     t_max_payload := t_max_payload x; t_disconnects := t_disconnects x;
     t_connection_state := t_connection_state x;
     t_has_send_connect_on_error := t_has_send_connect_on_error x; t_keys := t_keys x |}.
Definition set_t_failed_auth_attempts (v : Z) (x : atransport) : atransport :=
  {| t_fd := t_fd x; t_transport_socket := t_transport_socket x; t_ref_count := t_ref_count x;
     t_sync_token := t_sync_token x; t_online := t_online x; t_type := t_type x;
     t_usb := t_usb x; t_sfd := t_sfd x; t_serial := t_serial x; t_product := t_product x;
     t_model := t_model x; t_device := t_device x; t_devpath := t_devpath x;
     t_token := t_token x; t_failed_auth_attempts := v;
     t_local_port_for_emulator := t_local_port_for_emulator x; t_kicked := t_kicked x;
     t_features := t_features x; t_protocol_version := t_protocol_version x;
     t_max_payload := t_max_payload x; t_disconnects := t_disconnects x;
     t_connection_state := t_connection_state x;
     t_has_send_connect_on_error := t_has_send_connect_on_error x; t_keys := t_keys x |}.
Definition set_t_local_port_for_emulator (v : Z) (x : atransport) : atransport :=
  {| t_fd := t_fd x; t_transport_socket := t_transport_socket x; t_ref_count := t_ref_count x;
     t_sync_token := t_sync_token x; t_online := t_online x; t_type := t_type x;
     t_usb := t_usb x; t_sfd := t_sfd x; t_serial := t_serial x; t_product := t_product x;
     t_model := t_model x; t_device := t_device x; t_devpath := t_devpath x;
     t_token := t_token x; t_failed_auth_attempts := t_failed_auth_attempts x;
     t_local_port_for_emulator := v; t_kicked := t_kicked x; t_features := t_features x;
     t_protocol_version := t_protocol_version x; t_max_payload := t_max_payload x;
     t_disconnects := t_disconnects x; t_connection_state := t_connection_state x;
     t_has_send_connect_on_error := t_has_send_connect_on_error x; t_keys := t_keys x |}.
Definition set_t_kicked (v : bool) (x : atransport) : atransport :=
  {| t_fd := t_fd x; t_transport_socket := t_transport_socket x; t_ref_count := t_ref_count x;
     t_sync_token := t_sync_token x; t_online := t_online x; t_type := t_type x;
     t_usb := t_usb x; t_sfd := t_sfd x; t_serial := t_serial x; t_product := t_product x;
     t_model := t_model x; t_device := t_device x; t_devpath := t_devpath x;
     t_token := t_token x; t_failed_auth_attempts := t_failed_auth_attempts x;
     t_local_port_for_emulator := t_local_port_for_emulator x; t_kicked := v;
     t_features := t_features x; t_protocol_version := t_protocol_version x;
     t_max_payload := t_max_payload x; t_disconnects := t_disconnects x;
     t_connection_state := t_connection_state x;
     t_has_send_connect_on_error := t_has_send_connect_on_error x; t_keys := t_keys x |}.
Definition set_t_features (v : FeatureSet) (x : atransport) : atransport :=
  {| t_fd := t_fd x; t_transport_socket := t_transport_socket x; t_ref_count := t_ref_count x;
     t_sync_token := t_sync_token x; t_online := t_online x; t_type := t_type x;
     t_usb := t_usb x; t_sfd := t_sfd x; t_serial := t_serial x; t_product := t_product x;
     t_model := t_model x; t_device := t_device x; t_devpath := t_devpath x;
     t_token := t_token x; t_failed_auth_attempts := t_failed_auth_attempts x;
     t_local_port_for_emulator := t_local_port_for_emulator x; t_kicked := t_kicked x;
     t_features := v; t_protocol_version := t_protocol_version x;
     t_max_payload := t_max_payload x; t_disconnects := t_disconnects x;
     t_connection_state := t_connection_state x;
     t_has_send_connect_on_error := t_has_send_connect_on_error x; t_keys := t_keys x |}.
Definition set_t_protocol_version (v : Z) (x : atransport) : atransport :=
  {| t_fd := t_fd x; t_transport_socket := t_transport_socket x; t_ref_count := t_ref_count x;
     t_sync_token := t_sync_token x; t_online := t_online x; t_type := t_type x;
     t_usb := t_usb x; t_sfd := t_sfd x; t_serial := t_serial x; t_product := t_product x;
     t_model := t_model x; t_device := t_device x; t_devpath := t_devpath x;
     t_token := t_token x; t_failed_auth_attempts := t_failed_auth_attempts x;
     t_local_port_for_emulator := t_local_port_for_emulator x; t_kicked := t_kicked x;
     t_features := t_features x; t_protocol_version := v; t_max_payload := t_max_payload x;
     t_disconnects := t_disconnects x; t_connection_state := t_connection_state x;
     t_has_send_connect_on_error := t_has_send_connect_on_error x; t_keys := t_keys x |}.
Definition set_t_max_payload (v : Z) (x : atransport) : atransport :=
  {| t_fd := t_fd x; t_transport_socket := t_transport_socket x; t_ref_count := t_ref_count x;
     t_sync_token := t_sync_token x; t_online := t_online x; t_type := t_type x;
     t_usb := t_usb x; t_sfd := t_sfd x; t_serial := t_serial x; t_product := t_product x;
     t_model := t_model x; t_device := t_device x; t_devpath := t_devpath x;
     t_token := t_token x; t_failed_auth_attempts := t_failed_auth_attempts x;
     t_local_port_for_emulator := t_local_port_for_emulator x; t_kicked := t_kicked x;
     t_features := t_features x; t_protocol_version := t_protocol_version x; t_max_payload := v;
     t_disconnects := t_disconnects x; t_connection_state := t_connection_state x;
     t_has_send_connect_on_error := t_has_send_connect_on_error x; t_keys := t_keys x |}.
Definition set_t_disconnects (v : list adisconnect) (x : atransport) : atransport :=
  {| t_fd := t_fd x; t_transport_socket := t_transport_socket x; t_ref_count := t_ref_count x;
     t_sync_token := t_sync_token x; t_online := t_online x; t_type := t_type x;
     t_usb := t_usb x; t_sfd := t_sfd x; t_serial := t_serial x; t_product := t_product x;
     t_model := t_model x; t_device := t_device x; t_devpath := t_devpath x;
     t_token := t_token x; t_failed_auth_attempts := t_failed_auth_attempts x;
     t_local_port_for_emulator := t_local_port_for_emulator x; t_kicked := t_kicked x;
     t_features := t_features x; t_protocol_version := t_protocol_version x;
     t_max_payload := t_max_payload x; t_disconnects := v;
     t_connection_state := t_connection_state x;
     t_has_send_connect_on_error := t_has_send_connect_on_error x; t_keys := t_keys x |}.
Definition set_t_connection_state (v : ConnectionState) (x : atransport) : atransport :=
  {| t_fd := t_fd x; t_transport_socket := t_transport_socket x; t_ref_count := t_ref_count x;
     t_sync_token := t_sync_token x; t_online := t_online x; t_type := t_type x;
     t_usb := t_usb x; t_sfd := t_sfd x; t_serial := t_serial x; t_product := t_product x;
     t_model := t_model x; t_device := t_device x; t_devpath := t_devpath x;
     t_token := t_token x; t_failed_auth_attempts := t_failed_auth_attempts x;
     t_local_port_for_emulator := t_local_port_for_emulator x; t_kicked := t_kicked x;
     t_features := t_features x; t_protocol_version := t_protocol_version x;
     t_max_payload := t_max_payload x; t_disconnects := t_disconnects x; t_connection_state := v;
     t_has_send_connect_on_error := t_has_send_connect_on_error x; t_keys := t_keys x |}.
Definition set_t_has_send_connect_on_error (v : bool) (x : atransport) : atransport :=
  {| t_fd := t_fd x; t_transport_socket := t_transport_socket x; t_ref_count := t_ref_count x;
     t_sync_token := t_sync_token x; t_online := t_online x; t_type := t_type x;
     t_usb := t_usb x; t_sfd := t_sfd x; t_serial := t_serial x; t_product := t_product x;
     t_model := t_model x; t_device := t_device x; t_devpath := t_devpath x;
     t_token := t_token x; t_failed_auth_attempts := t_failed_auth_attempts x;
     t_local_port_for_emulator := t_local_port_for_emulator x; t_kicked := t_kicked x;
     t_features := t_features x; t_protocol_version := t_protocol_version x;
     t_max_payload := t_max_payload x; t_disconnects := t_disconnects x;
     t_connection_state := t_connection_state x; t_has_send_connect_on_error := v;
     t_keys := t_keys x |}.
Definition set_t_keys (v : list (option loc)) (x : atransport) : atransport :=
  {| t_fd := t_fd x; t_transport_socket := t_transport_socket x; t_ref_count := t_ref_count x;
     t_sync_token := t_sync_token x; t_online := t_online x; t_type := t_type x;
     t_usb := t_usb x; t_sfd := t_sfd x; t_serial := t_serial x; t_product := t_product x;
     t_model := t_model x; t_device := t_device x; t_devpath := t_devpath x;
     t_token := t_token x; t_failed_auth_attempts := t_failed_auth_attempts x;
     t_local_port_for_emulator := t_local_port_for_emulator x; t_kicked := t_kicked x;
     t_features := t_features x; t_protocol_version := t_protocol_version x;
     t_max_payload := t_max_payload x; t_disconnects := t_disconnects x;
     t_connection_state := t_connection_state x; t_has_send_connect_on_error := t_has_send_connect_on_error x;
     t_keys := v |}.

(** [atransport(ConnectionState state)] *)
Definition new_atransport (state : ConnectionState) : atransport :=
  {| t_fd := -1; t_transport_socket := -1; t_ref_count := 0; t_sync_token := 0;
     t_online := false; t_type := kTransportAny; t_usb := None; t_sfd := -1;
     t_serial := None; t_product := None; t_model := None; t_device := None;
     t_devpath := None; t_token := replicate 20 NUL; t_failed_auth_attempts := 0;
     t_local_port_for_emulator := -1; t_kicked := false; t_features := ∅;
     t_protocol_version := A_VERSION; t_max_payload := MAX_PAYLOAD; t_disconnects := [];
     t_connection_state := state; t_has_send_connect_on_error := false; t_keys := [] |}.

(** [SetLocalPortForEmulator] fails its [CHECK_EQ] when a port is set. *)
Definition SetLocalPortForEmulator (port : Z) (t : atransport) : option atransport :=
  if (t_local_port_for_emulator t =? -1)%Z then Some (set_t_local_port_for_emulator port t) else None.

Definition GetLocalPortForEmulator (t : atransport) : option Z :=
  if bool_decide (t_type t = kTransportLocal) && negb (t_local_port_for_emulator t =? -1)%Z
  then Some (t_local_port_for_emulator t) else None.

Definition IsTcpDevice (t : atransport) : bool :=
  bool_decide (t_type t = kTransportLocal) && (t_local_port_for_emulator t =? -1)%Z.

Definition serial_name (t : atransport) : bytes :=
  match t_serial t with Some s => s | None => str "<unknown>" end.

(** [int version] takes the wire's [uint32_t]. *)
Definition update_version (version payload : Z) (t : atransport) : atransport :=
  set_t_max_payload (Z.min payload MAX_PAYLOAD)
    (set_t_protocol_version (Z.min (i32 version) A_VERSION) t).

Definition AddDisconnect (d : adisconnect) (t : atransport) : atransport :=
  set_t_disconnects (t_disconnects t ++ [d]) t.

Definition RemoveDisconnect (d : adisconnect) (t : atransport) : atransport :=
  set_t_disconnects (filter (fun x => x <> d) (t_disconnects t)) t.

(** [SetSendConnectOnError]: true the first time only. *)
Definition SetSendConnectOnError (t : atransport) : bool * atransport :=
  if t_has_send_connect_on_error t then (false, t)
  else (true, set_t_has_send_connect_on_error true t).

(** ** Features *)

Definition comma : ascii := byte_of 44.
Definition colon : ascii := byte_of 58.
Definition semicolon : ascii := byte_of 59.
Definition equals : ascii := byte_of 61.

Definition kFeatureShell2 : bytes := str "shell_v2".
Definition kFeatureCmd : bytes := str "cmd".
Definition kFeatureStat2 : bytes := str "stat_v2".
Definition kFeatureLibusb : bytes := str "libusb".
Definition kFeaturePushSync : bytes := str "push_sync".

Definition kFeatureStringDelimiter : ascii := comma.

Definition supported_features : FeatureSet := {[ kFeatureShell2; kFeatureCmd; kFeatureStat2 ]}.

(** The order in which an [unordered_set] is walked is not specified. *)
Class SetOrder := {
  set_order : FeatureSet -> list bytes;
  set_order_elements s : set_order s ≡ₚ elements s;
}.

#[export] Instance elements_order : SetOrder :=
  {| set_order := elements; set_order_elements s := Permutation_refl (elements s) |}.

Section Features.
Context `{LibBase} `{SetOrder}.

Definition FeatureSetToString (features : FeatureSet) : bytes :=
  Join (set_order features) kFeatureStringDelimiter.

Definition StringToFeatureSet (features_string : bytes) : FeatureSet :=
  match features_string with
  | [] => ∅
  | _ => list_to_set (Split features_string kFeatureStringDelimiter)
  end.

Definition CanUseFeature (feature_set : FeatureSet) (feature : bytes) : bool :=
  bool_decide (feature ∈ feature_set) && bool_decide (feature ∈ supported_features).

Definition has_feature (feature : bytes) (t : atransport) : bool := bool_decide (feature ∈ t_features t).

Definition SetFeatures (features_string : bytes) (t : atransport) : atransport :=
  set_t_features (StringToFeatureSet features_string) t.

End Features.

(** ** Matching a target *)

Definition sanitize (c : ascii) : ascii := if isalnum c then c else byte_of 95.

(** [while ( *prefix ) if ( *prefix++ != *to_test++ ) return 0]: what is left of
    [to_test], or [None] for a mismatch. *)
Fixpoint eat_prefix (prefix to_test : bytes) : option bytes :=
  match prefix with
  | [] => Some to_test
  | a :: p =>
      match to_test with
      | b :: t => if Ascii.eqb a b then eat_prefix p t else None
      | [] => None
      end
  end.

Fixpoint eat_qual (qual to_test : bytes) (sanitize_qual : bool) : option bytes :=
  match qual with
  | [] => Some to_test
  | c :: q =>
      let ch := if sanitize_qual then sanitize c else c in
      match to_test with
      | b :: t => if Ascii.eqb ch b then eat_qual q t sanitize_qual else None
      | [] => None
      end
  end.

Definition qual_match (to_test prefix : bytes) (qual : option bytes) (sanitize_qual : bool) : bool :=
  match to_test, qual with
  | [], None => true
  | [], Some q => match q with [] => true | _ => false end
  | _, None => false
  | _, Some q =>
      match eat_prefix prefix to_test with
      | None => false
      | Some rest =>
          match eat_qual q rest sanitize_qual with
          | Some [] => true
          | _ => false
          end
      end
  end.

Section Targets.
Context `{LibBase}.

(** The address part: hosts equal, and ports equal where the target gives one. *)
Definition matches_address (serial target : bytes) : bool :=
  let local_target := if StartsWith target (str "tcp:") || StartsWith target (str "udp:")
                      then drop 4 target else target in
  match ParseNetAddress serial with
  | inl _ => false
  | inr (serial_host, sp) =>
      let serial_port := default (-1)%Z sp in
      match ParseNetAddress (c_str local_target) with
      | inl _ => false
      | inr (target_host, tp) =>
          let target_port := default serial_port tp in
          bool_decide (serial_host = target_host) && (serial_port =? target_port)%Z
      end
  end.

Definition MatchesTarget (target : bytes) (t : atransport) : bool :=
  let by_serial :=
    match t_serial t with
    | None => false
    | Some serial =>
        bool_decide (target = serial) ||
        (bool_decide (t_type t = kTransportLocal) && matches_address serial target)
    end in
  by_serial ||
  match t_devpath t with Some d => bool_decide (target = d) | None => false end ||
  qual_match (c_str target) (str "product:") (t_product t) false ||
  qual_match (c_str target) (str "model:") (t_model t) true ||
  qual_match (c_str target) (str "device:") (t_device t) false.

(** ** acquire_one_transport *)

Record acquired := {
  acq_result : option loc;
  acq_error : bytes;
  acq_ambiguous : bool;        (* written to *is_ambiguous *)
}.

(** Does the loop body take the transport as a candidate? *)
Definition candidate (type : TransportType) (serial : option bytes) (t : atransport) : bool :=
  match serial with
  | Some s => MatchesTarget s t
  | None =>
      (bool_decide (type = kTransportUsb) && bool_decide (t_type t = kTransportUsb)) ||
      (bool_decide (type = kTransportLocal) && bool_decide (t_type t = kTransportLocal)) ||
      bool_decide (type = kTransportAny)
  end.

Definition more_than_one (type : TransportType) (serial : option bytes) : bytes :=
  match serial, type with
  | Some _, _ => str "more than one device"
  | None, kTransportUsb => str "more than one device"
  | None, kTransportLocal => str "more than one emulator"
  | None, _ => str "more than one device/emulator"
  end.

(** The loop over [transport_list]; [no_perm_text] is
    [UsbNoPermissionsLongHelpText()], used on the host only. *)
Fixpoint acquire_loop (host : bool) (no_perm_text : bytes) (type : TransportType)
    (serial : option bytes) (l : list (loc * atransport)) (r : acquired) : acquired :=
  match l with
  | [] => r
  | (a, t) :: rest =>
      if bool_decide (t_connection_state t = kCsNoPerm) then
        acquire_loop host no_perm_text type serial rest
          (if host then {| acq_result := acq_result r; acq_error := no_perm_text;
                           acq_ambiguous := acq_ambiguous r |} else r)
      else if candidate type serial t then
        match acq_result r with
        | Some _ => {| acq_result := None; acq_error := more_than_one type serial; acq_ambiguous := true |}
        | None => acquire_loop host no_perm_text type serial rest
                    {| acq_result := Some a; acq_error := acq_error r; acq_ambiguous := acq_ambiguous r |}
        end
      else acquire_loop host no_perm_text type serial rest r
  end.

Definition not_found_text (type : TransportType) (serial : option bytes) : bytes :=
  match serial, type with
  | Some s, _ => str "device '" ++ c_str s ++ str "' not found"
  | None, kTransportLocal => str "no emulators found"
  | None, kTransportAny => str "no devices/emulators found"
  | None, _ => str "no devices found"
  end.

Definition unauthorized_text (vendor_keys : option bytes) : bytes :=
  str "device unauthorized." ++ [byte_of 10] ++ str "This adb server's $ADB_VENDOR_KEYS is " ++
  match vendor_keys with Some k => k | None => str "not set" end ++ [byte_of 10] ++
  str "Try 'adb kill-server' if that seems wrong." ++ [byte_of 10] ++
  str "Otherwise check for a confirmation dialog on your device.".

(** [state_of] reads the connection state again after the lock is released. *)
Definition acquire_one_transport (host : bool) (no_perm_text : bytes) (vendor_keys : option bytes)
    (type : TransportType) (serial : option bytes) (accept_any_state : bool)
    (transport_list : list (loc * atransport)) (state_of : loc -> ConnectionState) : acquired :=
  let r := acquire_loop host no_perm_text type serial transport_list
             {| acq_result := None; acq_error := not_found_text type serial; acq_ambiguous := false |} in
  match acq_result r with
  | None => r
  | Some a =>
      if bool_decide (state_of a = kCsUnauthorized) && negb accept_any_state
      then {| acq_result := None; acq_error := unauthorized_text vendor_keys;
              acq_ambiguous := acq_ambiguous r |}
      else if bool_decide (state_of a = kCsOffline) && negb accept_any_state
      then {| acq_result := None; acq_error := str "device offline"; acq_ambiguous := acq_ambiguous r |}
      else {| acq_result := Some a; acq_error := str "success"; acq_ambiguous := acq_ambiguous r |}
  end.

(** ** The transport list as text *)

(** [short_help] is [UsbNoPermissionsShortHelpText()]. *)
Definition connection_state_name (short_help : bytes) (t : atransport) : bytes :=
  match t_connection_state t with
  | kCsOffline => str "offline"
  | kCsBootloader => str "bootloader"
  | kCsDevice => str "device"
  | kCsHost => str "host"
  | kCsRecovery => str "recovery"
  | kCsNoPerm => short_help
  | kCsSideload => str "sideload"
  | kCsUnauthorized => str "unauthorized"
  | _ => str "unknown"
  end.

Definition append_transport_info (result key : bytes) (value : option bytes) (san : bool) : bytes :=
  match value with
  | None | Some [] => result
  | Some v => result ++ [byte_of 32] ++ key ++ map (fun c => if negb san || isalnum c then c else byte_of 95) v
  end.

(** ["%-22s"] *)
Definition pad_right (n : nat) (s : bytes) : bytes := s ++ replicate (n - length s) (byte_of 32).

Definition append_transport (short_help : bytes) (t : atransport) (result : bytes) (long_listing : bool) : bytes :=
  let serial := match t_serial t with Some (c :: s) => c :: s | _ => str "(no serial number)" end in
  let result :=
    if negb long_listing
    then result ++ serial ++ [byte_of 9] ++ connection_state_name short_help t
    else
      let r := result ++ pad_right 22 serial ++ [byte_of 32] ++ connection_state_name short_help t in
      let r := append_transport_info r [] (t_devpath t) false in
      let r := append_transport_info r (str "product:") (t_product t) false in
      let r := append_transport_info r (str "model:") (t_model t) true in
      append_transport_info r (str "device:") (t_device t) false
  in result ++ [byte_of 10].

Definition list_transports (short_help : bytes) (l : list atransport) (long_listing : bool) : bytes :=
  fold_left (fun r t => append_transport short_help t r long_listing) l [].

(** ** Banners *)

Context `{SetOrder}.

(** [props]: the values of the system properties, on the device. *)
Definition get_connection_string (host : bool) (banner : bytes) (prop : bytes -> bytes) : bytes :=
  let cnxn_props := [str "ro.product.name"; str "ro.product.model"; str "ro.product.device"] in
  let connection_properties :=
    (if host then [] else map (fun p => p ++ str "=" ++ prop p) cnxn_props) ++
    [str "features=" ++ FeatureSetToString supported_features] in
  banner ++ str "::" ++ Join connection_properties semicolon.

Definition parse_prop (t : atransport) (prop : bytes) : atransport :=
  match prop with
  | [] => t
  | _ =>
      match Split prop equals with
      | [key; value] =>
          if bool_decide (key = str "ro.product.name") then set_t_product (Some (c_str value)) t
          else if bool_decide (key = str "ro.product.model") then set_t_model (Some (c_str value)) t
          else if bool_decide (key = str "ro.product.device") then set_t_device (Some (c_str value)) t
          else if bool_decide (key = str "features") then SetFeatures value t
          else t
      | _ => t
      end
  end.

Definition banner_state (type : bytes) : ConnectionState :=
  if bool_decide (type = str "bootloader") then kCsBootloader
  else if bool_decide (type = str "device") then kCsDevice
  else if bool_decide (type = str "recovery") then kCsRecovery
  else if bool_decide (type = str "sideload") then kCsSideload
  else kCsHost.

Definition parse_banner (banner : bytes) (t : atransport) : atransport :=
  let pieces := Split banner colon in
  let t := SetFeatures [] t in
  let t := match pieces with
           | _ :: _ :: props :: _ => fold_left parse_prop (Split props semicolon) t
           | _ => t
           end in
  match pieces with
  | type :: _ => set_t_connection_state (banner_state type) t
  | [] => t
  end.

End Targets.

(** ** Lemmas *)

Lemma eat_prefix_spec p s r : eat_prefix p s = Some r <-> s = p ++ r.
Proof.
  revert s. induction p as [|a p IH]; intros s; cbn.
  - split; [by intros [= ->]|by intros ->].
  - destruct s as [|b s]; [done|]. destruct (Ascii.eqb_spec a b) as [->|Hne].
    + rewrite IH. split; [by intros ->|by intros [= ->]].
    + split; [done|]. by intros [= ->].
Qed.

Lemma eat_qual_spec q s san r :
  eat_qual q s san = Some r <-> s = map (fun c => if san then sanitize c else c) q ++ r.
Proof.
  revert s. induction q as [|a q IH]; intros s; cbn [eat_qual map].
  - split; [by intros [= ->]|by intros ->].
  - destruct s as [|b s]; [by destruct san|].
    destruct (Ascii.eqb_spec (if san then sanitize a else a) b) as [->|Hne].
    + rewrite IH. cbn. split; [by intros ->|by intros [= ->]].
    + split; [done|]. by intros [= ->].
Qed.

Lemma qual_match_spec s p q san :
  s <> [] ->
  qual_match s p q san = true <->
  exists v, q = Some v /\ s = p ++ map (fun c => if san then sanitize c else c) v.
Proof.
  intros Hs. destruct s as [|b s]; [done|]. unfold qual_match.
  destruct q as [q|]; [|split; [done|by intros (? & ? & _)]].
  destruct (eat_prefix p (b :: s)) as [r|] eqn:Hp.
  - apply eat_prefix_spec in Hp. rewrite Hp.
    assert (match eat_qual q r san with Some [] => true | _ => false end = true <->
            eat_qual q r san = Some []) as ->.
    { destruct (eat_qual q r san) as [[|]|]; split; done. }
    rewrite eat_qual_spec, app_nil_r. split.
    + intros ->. by exists q.
    + intros (v & [= <-] & E). by apply app_inv_head in E.
  - split; [done|]. intros (v & [= <-] & E).
    assert (eat_prefix p (b :: s) = Some (map (fun c => if san then sanitize c else c) q)) by (by apply eat_prefix_spec).
    congruence.
Qed.

Lemma notin_intercalate (c d : ascii) l : c <> d -> Forall (fun p => c ∉ p) l -> c ∉ intercalate d l.
Proof.
  intros Hne. induction 1 as [|p l Hp Hl IH]; [set_solver|].
  destruct l as [|q l]; [done|]. rewrite intercalate_cons by done. set_solver.
Qed.

Lemma intercalate_nil d l : intercalate d l = [] -> l = [] \/ l = [[]].
Proof.
  destruct l as [|p [|q l]]; [auto| |].
  - cbn. intros ->. auto.
  - rewrite intercalate_cons by done. intros E. by apply app_nil in E as [_ ?].
Qed.

Section AcquireLemmas.
Context `{LibBase}.

(** What a request asks for: a target by its text, or a kind of transport. *)
Definition fits (type : TransportType) (serial : option bytes) (t : atransport) : Prop :=
  match serial with
  | Some s => MatchesTarget s t = true
  | None => type = kTransportAny \/ (type <> kTransportHost /\ t_type t = type)
  end.

#[export] Instance fits_dec type serial t : Decision (fits type serial t).
Proof. unfold fits. destruct serial; apply _. Defined.

Lemma candidate_fits type serial t : candidate type serial t = bool_decide (fits type serial t).
Proof.
  apply eq_true_iff_eq. rewrite bool_decide_eq_true. unfold candidate, fits.
  destruct serial as [s|]; [done|]. destruct type, (t_type t); vm_compute; naive_solver.
Qed.

(** The transports the request fits, permissions permitting. *)
Definition usable (type : TransportType) (serial : option bytes) (l : list (loc * atransport)) :
    list (loc * atransport) :=
  filter (fun x => t_connection_state x.2 <> kCsNoPerm /\ fits type serial x.2) l.

Lemma acquire_loop_spec host txt type serial l r :
  acq_ambiguous r = false ->
  let r' := acquire_loop host txt type serial l r in
  acq_result r' = match acq_result r, usable type serial l with
                  | Some a, [] => Some a
                  | None, [(a, _)] => Some a
                  | _, _ => None
                  end /\
  (acq_ambiguous r' = true <->
   2 <= length (usable type serial l) + match acq_result r with Some _ => 1 | None => 0 end).
Proof.
  revert r. induction l as [|[a t] l IH]; intros r Hr; cbn [acquire_loop].
  - cbn. rewrite Hr. destruct (acq_result r); split; try done; split; try done; lia.
  - unfold usable. rewrite filter_cons, candidate_fits. cbn [snd]. fold (usable type serial l).
    destruct (bool_decide_reflect (t_connection_state t = kCsNoPerm)).
    { rewrite decide_False by tauto. destruct host; [|by apply IH].
      by apply (IH {| acq_result := acq_result r; acq_error := txt; acq_ambiguous := acq_ambiguous r |}). }
    case_bool_decide; [rewrite decide_True by done|rewrite decide_False by tauto; by apply IH].
    destruct (acq_result r) as [b|] eqn:Hb.
    + cbn. split; [done|]. split; [lia|done].
    + destruct (IH {| acq_result := Some a; acq_error := acq_error r; acq_ambiguous := acq_ambiguous r |} Hr)
        as [H1 H2]. cbn [acq_result] in *. split.
      * rewrite H1. by destruct (usable type serial l).
      * rewrite H2. cbn. lia.
Qed.

End AcquireLemmas.

Section BannerLemmas.
Context `{!LibBaseLaws L} `{SetOrder}.

Lemma FeatureSetToString_parse (fs : FeatureSet) :
  (forall f, f ∈ fs -> comma ∉ f) -> fs <> {[ [] ]} ->
  StringToFeatureSet (FeatureSetToString fs) = fs.
Proof.
  intros Hc Hne. unfold StringToFeatureSet, FeatureSetToString. rewrite Join_spec.
  assert (Hel : forall x, x ∈ set_order fs <-> x ∈ fs).
  { intros x. rewrite (set_order_elements fs). apply elem_of_elements. }
  assert (Hset : list_to_set (set_order fs) = fs) by (apply set_eq; intros; by rewrite elem_of_list_to_set, Hel).
  destruct (intercalate kFeatureStringDelimiter (set_order fs)) eqn:E.
  - apply intercalate_nil in E as [E|E]; rewrite E in Hset; cbn in Hset; [done|].
    rewrite union_empty_r_L in Hset. done.
  - rewrite <- E, Split_intercalate; [done| |].
    + intros E'. by rewrite E' in E.
    + apply Forall_forall. intros x Hx. by apply Hc, Hel.
Qed.

(** No feature this build supports holds a separator of the banner. *)
Lemma supported_features_plain f :
  f ∈ supported_features -> comma ∉ f /\ colon ∉ f /\ semicolon ∉ f /\ equals ∉ f.
Proof.
  unfold supported_features. rewrite !elem_of_union, !elem_of_singleton.
  intros [[-> | ->] | ->]; split_and!; by_decide.
Qed.

Lemma features_text_plain (c : ascii) :
  c <> comma -> (forall f, f ∈ supported_features -> c ∉ f) -> c ∉ FeatureSetToString supported_features.
Proof.
  intros Hc Hf. unfold FeatureSetToString. rewrite Join_spec. apply notin_intercalate; [done|].
  apply Forall_forall. intros x Hx. apply Hf.
  by rewrite (set_order_elements supported_features), elem_of_elements in Hx.
Qed.

(** A [key=value] piece whose halves hold no further [=] splits in two. *)
Lemma Split_key_value k v : equals ∉ k -> equals ∉ v -> Split (k ++ str "=" ++ v) equals = [k; v].
Proof.
  intros Hk Hv. change (k ++ str "=" ++ v) with (intercalate equals [k; v]).
  apply Split_intercalate; [done|]. repeat constructor; done.
Qed.

Lemma parse_prop_split t k v :
  k <> [] -> equals ∉ k -> equals ∉ v ->
  parse_prop t (k ++ str "=" ++ v) =
  if bool_decide (k = str "ro.product.name") then set_t_product (Some (c_str v)) t
  else if bool_decide (k = str "ro.product.model") then set_t_model (Some (c_str v)) t
  else if bool_decide (k = str "ro.product.device") then set_t_device (Some (c_str v)) t
  else if bool_decide (k = str "features") then SetFeatures v t
  else t.
Proof.
  intros Hne Hk Hv. unfold parse_prop. rewrite Split_key_value by done. by destruct k.
Qed.

(** The four keys the parser knows. *)
Lemma parse_prop_known t v :
  equals ∉ v ->
  parse_prop t (str "ro.product.name=" ++ v) = set_t_product (Some (c_str v)) t /\
  parse_prop t (str "ro.product.model=" ++ v) = set_t_model (Some (c_str v)) t /\
  parse_prop t (str "ro.product.device=" ++ v) = set_t_device (Some (c_str v)) t /\
  parse_prop t (str "features=" ++ v) = SetFeatures v t.
Proof.
  intros Hv.
  pose proof (parse_prop_split t (str "ro.product.name") v) as H1.
  pose proof (parse_prop_split t (str "ro.product.model") v) as H2.
  pose proof (parse_prop_split t (str "ro.product.device") v) as H3.
  pose proof (parse_prop_split t (str "features") v) as H4.
  split_and!; [apply H1|apply H2|apply H3|apply H4]; first [done|by_decide].
Qed.

End BannerLemmas.

(** ** Properties *)

(** C31: [acquire_one_transport] returns a transport exactly when one single
    transport of the list, not counting those without permissions, fits the
    request and its state allows use (or any state is accepted); two or more
    fitting ones are reported as ambiguous, and only they. *)
Theorem acquire_one_transport_unique `{LibBase} host txt keys type serial any l state_of :
  let r := acquire_one_transport host txt keys type serial any l state_of in
  (forall a, acq_result r = Some a <->
     exists t, usable type serial l = [(a, t)] /\
       (any = true \/ (state_of a <> kCsUnauthorized /\ state_of a <> kCsOffline))) /\
  (acq_ambiguous r = true <-> 2 <= length (usable type serial l)) /\
  (is_Some (acq_result r) -> acq_error r = str "success").
Proof.
  cbv zeta. unfold acquire_one_transport.
  destruct (acquire_loop_spec host txt type serial l
    {| acq_result := None; acq_error := not_found_text type serial; acq_ambiguous := false |} eq_refl) as [H1 H2].
  cbn [acq_result] in H1, H2. rewrite Nat.add_0_r in H2.
  set (r := acquire_loop _ _ _ _ _ _) in *.
  destruct (acq_result r) as [b|] eqn:Hb.
  - assert (exists t, usable type serial l = [(b, t)]) as [t Ht].
    { destruct (usable type serial l) as [|[a' t'] [|]]; simplify_eq. eauto. }
    rewrite Ht in *. destruct (bool_decide_reflect (state_of b = kCsUnauthorized)), any; cbn;
      destruct (bool_decide_reflect (state_of b = kCsOffline)); cbn; split_and!; try done;
      try (intros a; split; [try done; intros [= <-]; naive_solver|naive_solver]); try by intros [].
  - assert (Hnone : forall a t, usable type serial l <> [(a, t)]) by (intros a t E; by rewrite E in H1).
    split_and!; [|done|rewrite Hb; by intros []].
    intros a. rewrite Hb. split; [done|]. intros (t & E & _). by apply Hnone in E.
Qed.

(** What a target string matches: the serial, for a local transport an equal
    network address, the device path, or [product:], [model:] (with everything
    but letters and digits turned into underscores) or [device:] and the value. *)
Theorem MatchesTarget_spec `{LibBase} target t :
  target <> [] -> NUL ∉ target ->
  MatchesTarget target t = true <->
  (exists s, t_serial t = Some s /\
     (target = s \/ (t_type t = kTransportLocal /\ matches_address s target = true))) \/
  t_devpath t = Some target \/
  (exists v, t_product t = Some v /\ target = str "product:" ++ v) \/
  (exists v, t_model t = Some v /\ target = str "model:" ++ map sanitize v) \/
  (exists v, t_device t = Some v /\ target = str "device:" ++ v).
Proof.
  intros Hne Hn. unfold MatchesTarget. rewrite (c_str_no_nul target Hn).
  rewrite !orb_true_iff, !qual_match_spec by done. setoid_rewrite map_id.
  assert (Hs : (match t_serial t with
                | Some serial => bool_decide (target = serial) ||
                    (bool_decide (t_type t = kTransportLocal) && matches_address serial target)
                | None => false
                end = true) <->
               exists s, t_serial t = Some s /\
                 (target = s \/ (t_type t = kTransportLocal /\ matches_address s target = true))).
  { destruct (t_serial t) as [s|]; [|naive_solver].
    rewrite orb_true_iff, andb_true_iff, !bool_decide_eq_true. naive_solver. }
  assert (Hd : match t_devpath t with Some d => bool_decide (target = d) | None => false end = true <->
               t_devpath t = Some target).
  { destruct (t_devpath t) as [d|]; [|naive_solver]. rewrite bool_decide_eq_true. naive_solver. }
  rewrite Hs, Hd. change (fun c => if true then sanitize c else c) with sanitize. tauto.
Qed.

(** A feature set survives its encoding in the banner, in whatever order the
    set is walked, if no feature holds the delimiter (and the set is not the
    one with just the empty name). *)
Theorem feature_set_roundtrip `{!LibBaseLaws L} `{SetOrder} (fs : FeatureSet) :
  (forall f, f ∈ fs -> comma ∉ f) -> fs <> {[ [] ]} ->
  StringToFeatureSet (FeatureSetToString fs) = fs.
Proof. apply FeatureSetToString_parse. Qed.

(** The banner a device sends with its connection packet is understood by
    the receiver: product, model, device, features and state are those of the
    device, as long as the property values hold no separator and no NUL. *)
Theorem banner_roundtrip `{!LibBaseLaws L} `{SetOrder} banner prop t :
  let names := [str "ro.product.name"; str "ro.product.model"; str "ro.product.device"] in
  colon ∉ banner ->
  (forall n, n ∈ names -> colon ∉ prop n /\ semicolon ∉ prop n /\ equals ∉ prop n /\ NUL ∉ prop n) ->
  parse_banner (get_connection_string false banner prop) t =
  set_t_connection_state (banner_state banner)
    (set_t_features supported_features
      (set_t_device (Some (prop (str "ro.product.device")))
        (set_t_model (Some (prop (str "ro.product.model")))
          (set_t_product (Some (prop (str "ro.product.name"))) t)))).
Proof.
  intros names Hb Hp. unfold get_connection_string. rewrite Join_spec. cbn [map app].
  set (fstr := FeatureSetToString supported_features).
  assert (Hplain : forall c, c ∈ [colon; semicolon; equals] -> c ∉ fstr).
  { intros c Hc. apply features_text_plain.
    - rewrite !elem_of_cons, elem_of_nil in Hc. naive_solver.
    - intros f Hf. destruct (supported_features_plain f Hf) as (? & ? & ? & ?).
      rewrite !elem_of_cons, elem_of_nil in Hc. naive_solver. }
  set (pieces := [_; _; _; _]).
  assert (Hpieces : Forall (fun p => colon ∉ p /\ semicolon ∉ p) pieces).
  { assert (Hkv : forall k v, colon ∉ k -> semicolon ∉ k -> colon ∉ v -> semicolon ∉ v ->
        colon ∉ k ++ str "=" ++ v /\ semicolon ∉ k ++ str "=" ++ v).
    { intros k v ? ? ? ?. rewrite !elem_of_app.
      assert (colon ∉ str "=") by by_decide.
      assert (semicolon ∉ str "=") by by_decide. tauto. }
    subst pieces. repeat (apply Forall_cons; split); [..|apply Forall_nil; done].
    4: { change (str "features=" ++ fstr) with (str "features" ++ str "=" ++ fstr).
         apply Hkv; [by_decide|by_decide|apply Hplain; set_solver..]. }
    all: apply Hkv; [by_decide|by_decide|apply Hp; set_solver..]. }
  change (banner ++ str "::" ++ intercalate semicolon pieces)
    with (intercalate colon [banner; []; intercalate semicolon pieces]).
  unfold parse_banner. rewrite Split_intercalate; [|done|].
  2: { repeat constructor; [done|set_solver|]. apply notin_intercalate; [done|].
       eapply Forall_impl; [exact Hpieces|]. by intros ? []. }
  cbv zeta iota. rewrite (Split_intercalate semicolon); [|done|eapply Forall_impl; [exact Hpieces|]; by intros ? []].
  subst pieces. cbn [fold_left].
  assert (Heq : forall n, n ∈ names -> equals ∉ prop n) by (intros n Hn; apply (Hp n Hn)).
  assert (Hc : forall n, n ∈ names -> c_str (prop n) = prop n)
    by (intros n Hn; apply c_str_no_nul, (Hp n Hn)).
  change (str "ro.product.name" ++ str "=" ++ ?v) with (str "ro.product.name=" ++ v).
  change (str "ro.product.model" ++ str "=" ++ ?v) with (str "ro.product.model=" ++ v).
  change (str "ro.product.device" ++ str "=" ++ ?v) with (str "ro.product.device=" ++ v).
  rewrite (proj1 (parse_prop_known _ _ (Heq (str "ro.product.name") ltac:(set_solver)))).
  rewrite (proj1 (proj2 (parse_prop_known _ _ (Heq (str "ro.product.model") ltac:(set_solver))))).
  rewrite (proj1 (proj2 (proj2 (parse_prop_known _ _ (Heq (str "ro.product.device") ltac:(set_solver)))))).
  rewrite (proj2 (proj2 (proj2 (parse_prop_known _ fstr (Hplain equals ltac:(set_solver)))))).
  rewrite !Hc by set_solver.
  unfold SetFeatures, fstr. rewrite FeatureSetToString_parse; [by destruct t| |].
  - intros f Hf. apply (supported_features_plain f Hf).
  - intros E. assert (kFeatureCmd ∈ supported_features) as Hin by set_solver.
    rewrite E in Hin. by apply elem_of_singleton in Hin.
Qed.

(** ** Witnesses *)

Definition demo_transport : atransport :=
  set_t_connection_state kCsDevice
    (set_t_product (Some (str "sailfish")) (set_t_model (Some (str "Pixel XL"))
      (set_t_serial (Some (str "HT69")) (set_t_type kTransportUsb (new_atransport kCsOffline))))).

Lemma MatchesTarget_spec_witness :
  MatchesTarget (str "model:Pixel_XL") demo_transport = true.
Proof.
  apply (MatchesTarget_spec (str "model:Pixel_XL") demo_transport); [discriminate|by_decide|].
  right. right. right. left. exists (str "Pixel XL"). split; reflexivity.
Defined.

Lemma acquire_one_transport_unique_witness :
  acq_result (acquire_one_transport true [] None kTransportUsb None false
    [(7%positive, demo_transport)] (fun _ => kCsDevice)) = Some 7%positive.
Proof.
  apply (acquire_one_transport_unique true [] None kTransportUsb None false
    [(7%positive, demo_transport)] (fun _ => kCsDevice)).
  exists demo_transport. split; [vm_compute; reflexivity|]. right. split; discriminate.
Defined.

Lemma feature_set_roundtrip_witness :
  StringToFeatureSet (FeatureSetToString supported_features) = supported_features.
Proof.
  apply feature_set_roundtrip.
  - intros f Hf. apply (supported_features_plain f Hf).
  - intros E. assert (kFeatureCmd ∈ supported_features) as Hin by set_solver.
    rewrite E in Hin. by apply elem_of_singleton in Hin.
Defined.

Lemma banner_roundtrip_witness :
  t_model (parse_banner (get_connection_string false (str "device") (fun n => drop 11 n)) demo_transport)
  = Some (str "model").
Proof.
  rewrite (banner_roundtrip (str "device") (fun n => drop 11 n) demo_transport); [reflexivity|by_decide|].
  intros n. rewrite !elem_of_cons, elem_of_nil.
  intros [-> | [-> | [-> | []]]]; split_and!; by_decide.
Defined.
