(* ===== verification/World.v ===== *)
(** * The state of the process (socket.h, and the globals of sockets.cpp,
      transport.cpp and jdwp_service.cpp)

    Objects that the code allocates ([asocket], [atransport], [JdwpProcess])
    live in maps from addresses; a pointer is an address, [nullptr] is [None],
    and following a pointer to a freed object is a [Crash].  An [fdevent]
    embedded in an object has the object's address.  A linked list of objects
    is the list of their addresses.  The kernel is the state [E] under the
    operations of [Kernel]. *)

From S2P Require Import Prelude LibBase Packet AdbIo FdEvent Transport.

(** ** The kernel and the build *)

(** [refusals fd e] bounds the [EAGAIN]s that [fd] may still answer to writes;
    [pipe_put] and [pipe_get] move an [apacket*] through the socket pair between
    the main thread and the threads of a transport. *)
Class Kernel (E : Type) := {
  kernel_fd_ops :: FdOps E;
  refusals : Z -> E -> nat;
  pipe_put : Z -> apacket -> E -> bool * E;
  pipe_get : Z -> E -> option apacket * E;
}.

(** What [read] and [write] promise, and that a descriptor the code writes to
    synchronously takes the data in the end. *)
Class KernelLaws (E : Type) `{Kernel E} := {
  write_count fd buf (e e' : E) n : adb_write fd buf e = (WrOk n, e') -> (0 <= n <= Zlen buf)%Z;
  write_progress fd buf (e e' : E) r : adb_write fd buf e = (r, e') ->
    refusals fd e' <= refusals fd e /\
    (buf <> [] -> r = WrOk 0 \/ r = WrErr EAGAIN -> refusals fd e' < refusals fd e);
  read_count fd n (e e' : E) bs : (0 <= n)%Z -> adb_read fd n e = (RdOk bs, e') -> (Zlen bs <= n)%Z;
}.

(** Which program is built, and the texts other files produce:
    [UsbNoPermissionsLongHelpText] (diagnose_usb.cpp) and [$ADB_VENDOR_KEYS]. *)
Class Build := {
  ADB_HOST : bool;
  no_perm_long_text : bytes;
  no_perm_short_text : bytes;
  vendor_keys : option bytes;
}.

(** ** Sockets *)

(** The functions the pointers of an [asocket] can hold. *)
Inductive enqueue_fn := enq_local | enq_remote | enq_smart | enq_device_tracker | enq_jdwp | enq_jdwp_tracker.
Inductive ready_fn :=
| rdy_local | rdy_local_notify | rdy_remote | rdy_smart | rdy_device_tracker | rdy_jdwp | rdy_jdwp_tracker.
Inductive shutdown_fn := shut_remote.
Inductive close_fn :=
| cls_local | cls_local_notify | cls_remote | cls_smart | cls_device_tracker | cls_jdwp | cls_jdwp_tracker.

#[export] Instance enqueue_fn_eq_dec : EqDecision enqueue_fn.
Proof. solve_decision. Defined.
#[export] Instance ready_fn_eq_dec : EqDecision ready_fn.
Proof. solve_decision. Defined.
#[export] Instance shutdown_fn_eq_dec : EqDecision shutdown_fn.
Proof. solve_decision. Defined.
#[export] Instance close_fn_eq_dec : EqDecision close_fn.
Proof. solve_decision. Defined.

(** [s_flag]: [update_needed] of a [device_tracker], [need_initial] of a
    [JdwpTracker], [pass] of a [JdwpSocket], the structures that extend [asocket]. *)
Record asocket := {
  s_id : Z;
  s_closing : bool;
  s_has_write_error : bool;
  s_exit_on_close : bool;
  s_peer : option loc;
  s_fd : Z;
  s_pkts : list apacket;
  s_enqueue : enqueue_fn;
  s_ready : ready_fn;
  s_shutdown : option shutdown_fn;
  s_close : close_fn;
  s_transport : option loc;
  s_flag : bool;
}.

(** [calloc]. *)
Definition new_asocket (e : enqueue_fn) (r : ready_fn) (sh : option shutdown_fn) (c : close_fn) : asocket :=
  {| s_id := 0; s_closing := false; s_has_write_error := false; s_exit_on_close := false;
     s_peer := None; s_fd := 0; s_pkts := []; s_enqueue := e; s_ready := r; s_shutdown := sh;
     s_close := c; s_transport := None; s_flag := false |}.

Definition set_s_id (v : Z) (x : asocket) : asocket :=
  {| s_id := v; s_closing := s_closing x; s_has_write_error := s_has_write_error x;
     s_exit_on_close := s_exit_on_close x; s_peer := s_peer x; s_fd := s_fd x;
     s_pkts := s_pkts x; s_enqueue := s_enqueue x; s_ready := s_ready x;
     s_shutdown := s_shutdown x; s_close := s_close x; s_transport := s_transport x;
     s_flag := s_flag x |}.
Definition set_s_closing (v : bool) (x : asocket) : asocket :=
  {| s_id := s_id x; s_closing := v; s_has_write_error := s_has_write_error x;
     s_exit_on_close := s_exit_on_close x; s_peer := s_peer x; s_fd := s_fd x;
     s_pkts := s_pkts x; s_enqueue := s_enqueue x; s_ready := s_ready x;
     s_shutdown := s_shutdown x; s_close := s_close x; s_transport := s_transport x;
     s_flag := s_flag x |}.
Definition set_s_has_write_error (v : bool) (x : asocket) : asocket :=
  {| s_id := s_id x; s_closing := s_closing x; s_has_write_error := v;
     s_exit_on_close := s_exit_on_close x; s_peer := s_peer x; s_fd := s_fd x;
     s_pkts := s_pkts x; s_enqueue := s_enqueue x; s_ready := s_ready x;
     s_shutdown := s_shutdown x; s_close := s_close x; s_transport := s_transport x;
     s_flag := s_flag x |}.
Definition set_s_exit_on_close (v : bool) (x : asocket) : asocket :=
  {| s_id := s_id x; s_closing := s_closing x; s_has_write_error := s_has_write_error x;
     s_exit_on_close := v; s_peer := s_peer x; s_fd := s_fd x; s_pkts := s_pkts x;
     s_enqueue := s_enqueue x; s_ready := s_ready x; s_shutdown := s_shutdown x;
     s_close := s_close x; s_transport := s_transport x; s_flag := s_flag x |}.
Definition set_s_peer (v : option loc) (x : asocket) : asocket :=
  {| s_id := s_id x; s_closing := s_closing x; s_has_write_error := s_has_write_error x;
     s_exit_on_close := s_exit_on_close x; s_peer := v; s_fd := s_fd x; s_pkts := s_pkts x;
     s_enqueue := s_enqueue x; s_ready := s_ready x; s_shutdown := s_shutdown x;
     s_close := s_close x; s_transport := s_transport x; s_flag := s_flag x |}.
Definition set_s_fd (v : Z) (x : asocket) : asocket :=
  {| s_id := s_id x; s_closing := s_closing x; s_has_write_error := s_has_write_error x;
     s_exit_on_close := s_exit_on_close x; s_peer := s_peer x; s_fd := v; s_pkts := s_pkts x;
     s_enqueue := s_enqueue x; s_ready := s_ready x; s_shutdown := s_shutdown x;
     s_close := s_close x; s_transport := s_transport x; s_flag := s_flag x |}.
Definition set_s_pkts (v : list apacket) (x : asocket) : asocket :=
  {| s_id := s_id x; s_closing := s_closing x; s_has_write_error := s_has_write_error x;
     s_exit_on_close := s_exit_on_close x; s_peer := s_peer x; s_fd := s_fd x; s_pkts := v;
     s_enqueue := s_enqueue x; s_ready := s_ready x; s_shutdown := s_shutdown x;
     s_close := s_close x; s_transport := s_transport x; s_flag := s_flag x |}.
Definition set_s_enqueue (v : enqueue_fn) (x : asocket) : asocket :=
  {| s_id := s_id x; s_closing := s_closing x; s_has_write_error := s_has_write_error x;
     s_exit_on_close := s_exit_on_close x; s_peer := s_peer x; s_fd := s_fd x;
     s_pkts := s_pkts x; s_enqueue := v; s_ready := s_ready x; s_shutdown := s_shutdown x;
     s_close := s_close x; s_transport := s_transport x; s_flag := s_flag x |}.
Definition set_s_ready (v : ready_fn) (x : asocket) : asocket :=
  {| s_id := s_id x; s_closing := s_closing x; s_has_write_error := s_has_write_error x;
     s_exit_on_close := s_exit_on_close x; s_peer := s_peer x; s_fd := s_fd x;
     s_pkts := s_pkts x; s_enqueue := s_enqueue x; s_ready := v; s_shutdown := s_shutdown x;
     s_close := s_close x; s_transport := s_transport x; s_flag := s_flag x |}.
Definition set_s_shutdown (v : option shutdown_fn) (x : asocket) : asocket :=
  {| s_id := s_id x; s_closing := s_closing x; s_has_write_error := s_has_write_error x;
     s_exit_on_close := s_exit_on_close x; s_peer := s_peer x; s_fd := s_fd x;
     s_pkts := s_pkts x; s_enqueue := s_enqueue x; s_ready := s_ready x; s_shutdown := v;
     s_close := s_close x; s_transport := s_transport x; s_flag := s_flag x |}.
Definition set_s_close (v : close_fn) (x : asocket) : asocket :=
  {| s_id := s_id x; s_closing := s_closing x; s_has_write_error := s_has_write_error x;
     s_exit_on_close := s_exit_on_close x; s_peer := s_peer x; s_fd := s_fd x;
     s_pkts := s_pkts x; s_enqueue := s_enqueue x; s_ready := s_ready x;
     s_shutdown := s_shutdown x; s_close := v; s_transport := s_transport x;
     s_flag := s_flag x |}.
Definition set_s_transport (v : option loc) (x : asocket) : asocket :=
  {| s_id := s_id x; s_closing := s_closing x; s_has_write_error := s_has_write_error x;
     s_exit_on_close := s_exit_on_close x; s_peer := s_peer x; s_fd := s_fd x;
     s_pkts := s_pkts x; s_enqueue := s_enqueue x; s_ready := s_ready x;
     s_shutdown := s_shutdown x; s_close := s_close x; s_transport := v; s_flag := s_flag x |}.
Definition set_s_flag (v : bool) (x : asocket) : asocket :=
  {| s_id := s_id x; s_closing := s_closing x; s_has_write_error := s_has_write_error x;
     s_exit_on_close := s_exit_on_close x; s_peer := s_peer x; s_fd := s_fd x;
     s_pkts := s_pkts x; s_enqueue := s_enqueue x; s_ready := s_ready x;
     s_shutdown := s_shutdown x; s_close := s_close x; s_transport := s_transport x;
     s_flag := v |}.

Record JdwpProcess := { jp_pid : Z; jp_socket : Z; jp_out_fds : list Z }.

(** ** Event functions, with their argument *)

Inductive fd_func :=
| fn_local_socket (s : loc)
| fn_transport_socket (t : loc)
| fn_transport_registration
| fn_listener (l : loc)
| fn_smart_listener (l : loc)
| fn_jdwp_control
| fn_jdwp_process (p : loc)
| fn_auth_listener
| fn_auth_event
| fn_auth_inotify
(** [ref]: the object whose [sdRef_] it is, or [None] for [service_ref] *)
| fn_pump_service_ref (ref : option loc)
| fn_mdns_install.

(** A listener of [listener_list]; its address is that of its event object. *)
Record alistener := {
  l_fd : Z;
  l_local_name : bytes;
  l_connect_to : bytes;
  l_transport : option loc;
}.

#[export] Instance alistener_eq_dec : EqDecision alistener.
Proof. solve_decision. Defined.

(** The globals of adbd_auth.cpp; [framework_fde] is the address of the event object. *)
Record adbd_auth := {
  au_required : bool;
  au_framework_fde : loc;
  au_framework_fd : Z;
  au_usb_transport : option loc;
  au_needs_retry : bool;
}.

(** The globals of adb_auth_host.cpp (the keys by fingerprint, in order, and
    the watched paths), transport_local.cpp (the emulators, and the ports to try
    again with the tries left), transport.cpp (the two ends of the
    registration socket pair) and adb.cpp (what the start of the server waits
    for).  An [RSA] is known by its address. *)
Record globals := {
  g_keys : list (bytes * loc);
  g_monitored_paths : gmap Z bytes;
  g_local_transports : list (option loc);
  g_retry_ports : list (Z * Z);
  g_registration_send : Z;
  g_registration_recv : Z;
  g_device_scan_complete : bool;
  g_transports_ready : bool;
}.

Definition set_g_keys (v : list (bytes * loc)) (x : globals) : globals :=
  {| g_keys := v; g_monitored_paths := g_monitored_paths x;
     g_local_transports := g_local_transports x; g_retry_ports := g_retry_ports x;
     g_registration_send := g_registration_send x; g_registration_recv := g_registration_recv x;
     g_device_scan_complete := g_device_scan_complete x;
     g_transports_ready := g_transports_ready x |}.
Definition set_g_monitored_paths (v : gmap Z bytes) (x : globals) : globals :=
  {| g_keys := g_keys x; g_monitored_paths := v; g_local_transports := g_local_transports x;
     g_retry_ports := g_retry_ports x; g_registration_send := g_registration_send x;
     g_registration_recv := g_registration_recv x;
     g_device_scan_complete := g_device_scan_complete x;
     g_transports_ready := g_transports_ready x |}.
Definition set_g_local_transports (v : list (option loc)) (x : globals) : globals :=
  {| g_keys := g_keys x; g_monitored_paths := g_monitored_paths x; g_local_transports := v;
     g_retry_ports := g_retry_ports x; g_registration_send := g_registration_send x;
     g_registration_recv := g_registration_recv x;
     g_device_scan_complete := g_device_scan_complete x;
     g_transports_ready := g_transports_ready x |}.
Definition set_g_retry_ports (v : list (Z * Z)) (x : globals) : globals :=
  {| g_keys := g_keys x; g_monitored_paths := g_monitored_paths x;
     g_local_transports := g_local_transports x; g_retry_ports := v;
     g_registration_send := g_registration_send x; g_registration_recv := g_registration_recv x;
     g_device_scan_complete := g_device_scan_complete x;
     g_transports_ready := g_transports_ready x |}.
Definition set_g_registration_send (v : Z) (x : globals) : globals :=
  {| g_keys := g_keys x; g_monitored_paths := g_monitored_paths x;
     g_local_transports := g_local_transports x; g_retry_ports := g_retry_ports x;
     g_registration_send := v; g_registration_recv := g_registration_recv x;
     g_device_scan_complete := g_device_scan_complete x;
     g_transports_ready := g_transports_ready x |}.
Definition set_g_registration_recv (v : Z) (x : globals) : globals :=
  {| g_keys := g_keys x; g_monitored_paths := g_monitored_paths x;
     g_local_transports := g_local_transports x; g_retry_ports := g_retry_ports x;
     g_registration_send := g_registration_send x; g_registration_recv := v;
     g_device_scan_complete := g_device_scan_complete x;
     g_transports_ready := g_transports_ready x |}.
Definition set_g_device_scan_complete (v : bool) (x : globals) : globals :=
  {| g_keys := g_keys x; g_monitored_paths := g_monitored_paths x;
     g_local_transports := g_local_transports x; g_retry_ports := g_retry_ports x;
     g_registration_send := g_registration_send x; g_registration_recv := g_registration_recv x;
     g_device_scan_complete := v; g_transports_ready := g_transports_ready x |}.
Definition set_g_transports_ready (v : bool) (x : globals) : globals :=
  {| g_keys := g_keys x; g_monitored_paths := g_monitored_paths x;
     g_local_transports := g_local_transports x; g_retry_ports := g_retry_ports x;
     g_registration_send := g_registration_send x; g_registration_recv := g_registration_recv x;
     g_device_scan_complete := g_device_scan_complete x; g_transports_ready := v |}.

(** ** The world *)

Section World.
Context {E : Type}.

(** [w_sent] records the packets handed to the transports, oldest first;
    [w_live] counts the packets allocated and not freed or handed over. *)
Record world := {
  w_env : E;
  w_fds : fdstate fd_func;
  w_next : loc;
  w_socks : gmap loc asocket;
  w_local : list loc;
  w_closing : list loc;
  w_next_id : Z;
  w_transports : gmap loc atransport;
  w_transport_list : list loc;
  w_pending : list loc;
  w_trackers : list loc;
  w_jdwp_list : list (loc * JdwpProcess);
  w_jdwp_trackers : list loc;
  w_sent : list (loc * apacket);
  w_live : Z;
  w_listeners : list (loc * alistener);
  w_auth : adbd_auth;
  w_globals : globals;
}.

Definition set_w_env (v : E) (x : world) : world :=
  {| w_env := v; w_fds := w_fds x; w_next := w_next x; w_socks := w_socks x;
     w_local := w_local x; w_closing := w_closing x; w_next_id := w_next_id x;
     w_transports := w_transports x; w_transport_list := w_transport_list x;
     w_pending := w_pending x; w_trackers := w_trackers x; w_jdwp_list := w_jdwp_list x;
     w_jdwp_trackers := w_jdwp_trackers x; w_sent := w_sent x; w_live := w_live x;
     w_listeners := w_listeners x; w_auth := w_auth x; w_globals := w_globals x |}.
Definition set_w_fds (v : fdstate fd_func) (x : world) : world :=
  {| w_env := w_env x; w_fds := v; w_next := w_next x; w_socks := w_socks x;
     w_local := w_local x; w_closing := w_closing x; w_next_id := w_next_id x;
     w_transports := w_transports x; w_transport_list := w_transport_list x;
     w_pending := w_pending x; w_trackers := w_trackers x; w_jdwp_list := w_jdwp_list x;
     w_jdwp_trackers := w_jdwp_trackers x; w_sent := w_sent x; w_live := w_live x;
     w_listeners := w_listeners x; w_auth := w_auth x; w_globals := w_globals x |}.
Definition set_w_next (v : loc) (x : world) : world :=
  {| w_env := w_env x; w_fds := w_fds x; w_next := v; w_socks := w_socks x;
     w_local := w_local x; w_closing := w_closing x; w_next_id := w_next_id x;
     w_transports := w_transports x; w_transport_list := w_transport_list x;
     w_pending := w_pending x; w_trackers := w_trackers x; w_jdwp_list := w_jdwp_list x;
     w_jdwp_trackers := w_jdwp_trackers x; w_sent := w_sent x; w_live := w_live x;
     w_listeners := w_listeners x; w_auth := w_auth x; w_globals := w_globals x |}.
Definition set_w_socks (v : gmap loc asocket) (x : world) : world :=
  {| w_env := w_env x; w_fds := w_fds x; w_next := w_next x; w_socks := v; w_local := w_local x;
     w_closing := w_closing x; w_next_id := w_next_id x; w_transports := w_transports x;
     w_transport_list := w_transport_list x; w_pending := w_pending x;
     w_trackers := w_trackers x; w_jdwp_list := w_jdwp_list x;
     w_jdwp_trackers := w_jdwp_trackers x; w_sent := w_sent x; w_live := w_live x;
     w_listeners := w_listeners x; w_auth := w_auth x; w_globals := w_globals x |}.
Definition set_w_local (v : list loc) (x : world) : world :=
  {| w_env := w_env x; w_fds := w_fds x; w_next := w_next x; w_socks := w_socks x; w_local := v;
     w_closing := w_closing x; w_next_id := w_next_id x; w_transports := w_transports x;
     w_transport_list := w_transport_list x; w_pending := w_pending x;
     w_trackers := w_trackers x; w_jdwp_list := w_jdwp_list x;
     w_jdwp_trackers := w_jdwp_trackers x; w_sent := w_sent x; w_live := w_live x;
     w_listeners := w_listeners x; w_auth := w_auth x; w_globals := w_globals x |}.
Definition set_w_closing (v : list loc) (x : world) : world :=
  {| w_env := w_env x; w_fds := w_fds x; w_next := w_next x; w_socks := w_socks x;
     w_local := w_local x; w_closing := v; w_next_id := w_next_id x;
     w_transports := w_transports x; w_transport_list := w_transport_list x;
     w_pending := w_pending x; w_trackers := w_trackers x; w_jdwp_list := w_jdwp_list x;
     w_jdwp_trackers := w_jdwp_trackers x; w_sent := w_sent x; w_live := w_live x;
     w_listeners := w_listeners x; w_auth := w_auth x; w_globals := w_globals x |}.
Definition set_w_next_id (v : Z) (x : world) : world :=
  {| w_env := w_env x; w_fds := w_fds x; w_next := w_next x; w_socks := w_socks x;
     w_local := w_local x; w_closing := w_closing x; w_next_id := v;
     w_transports := w_transports x; w_transport_list := w_transport_list x;
     w_pending := w_pending x; w_trackers := w_trackers x; w_jdwp_list := w_jdwp_list x;
     w_jdwp_trackers := w_jdwp_trackers x; w_sent := w_sent x; w_live := w_live x;
     w_listeners := w_listeners x; w_auth := w_auth x; w_globals := w_globals x |}.
Definition set_w_transports (v : gmap loc atransport) (x : world) : world :=
  {| w_env := w_env x; w_fds := w_fds x; w_next := w_next x; w_socks := w_socks x;
     w_local := w_local x; w_closing := w_closing x; w_next_id := w_next_id x;
     w_transports := v; w_transport_list := w_transport_list x; w_pending := w_pending x;
     w_trackers := w_trackers x; w_jdwp_list := w_jdwp_list x;
     w_jdwp_trackers := w_jdwp_trackers x; w_sent := w_sent x; w_live := w_live x;
     w_listeners := w_listeners x; w_auth := w_auth x; w_globals := w_globals x |}.
Definition set_w_transport_list (v : list loc) (x : world) : world :=
  {| w_env := w_env x; w_fds := w_fds x; w_next := w_next x; w_socks := w_socks x;
     w_local := w_local x; w_closing := w_closing x; w_next_id := w_next_id x;
     w_transports := w_transports x; w_transport_list := v; w_pending := w_pending x;
     w_trackers := w_trackers x; w_jdwp_list := w_jdwp_list x;
     w_jdwp_trackers := w_jdwp_trackers x; w_sent := w_sent x; w_live := w_live x;
     w_listeners := w_listeners x; w_auth := w_auth x; w_globals := w_globals x |}.
Definition set_w_pending (v : list loc) (x : world) : world :=
  {| w_env := w_env x; w_fds := w_fds x; w_next := w_next x; w_socks := w_socks x;
     w_local := w_local x; w_closing := w_closing x; w_next_id := w_next_id x;
     w_transports := w_transports x; w_transport_list := w_transport_list x; w_pending := v;
     w_trackers := w_trackers x; w_jdwp_list := w_jdwp_list x;
     w_jdwp_trackers := w_jdwp_trackers x; w_sent := w_sent x; w_live := w_live x;
     w_listeners := w_listeners x; w_auth := w_auth x; w_globals := w_globals x |}.
Definition set_w_trackers (v : list loc) (x : world) : world :=
  {| w_env := w_env x; w_fds := w_fds x; w_next := w_next x; w_socks := w_socks x;
     w_local := w_local x; w_closing := w_closing x; w_next_id := w_next_id x;
     w_transports := w_transports x; w_transport_list := w_transport_list x;
     w_pending := w_pending x; w_trackers := v; w_jdwp_list := w_jdwp_list x;
     w_jdwp_trackers := w_jdwp_trackers x; w_sent := w_sent x; w_live := w_live x;
     w_listeners := w_listeners x; w_auth := w_auth x; w_globals := w_globals x |}.
Definition set_w_jdwp_list (v : list (loc * JdwpProcess)) (x : world) : world :=
  {| w_env := w_env x; w_fds := w_fds x; w_next := w_next x; w_socks := w_socks x;
     w_local := w_local x; w_closing := w_closing x; w_next_id := w_next_id x;
     w_transports := w_transports x; w_transport_list := w_transport_list x;
     w_pending := w_pending x; w_trackers := w_trackers x; w_jdwp_list := v;
     w_jdwp_trackers := w_jdwp_trackers x; w_sent := w_sent x; w_live := w_live x;
     w_listeners := w_listeners x; w_auth := w_auth x; w_globals := w_globals x |}.
Definition set_w_jdwp_trackers (v : list loc) (x : world) : world :=
  {| w_env := w_env x; w_fds := w_fds x; w_next := w_next x; w_socks := w_socks x;
     w_local := w_local x; w_closing := w_closing x; w_next_id := w_next_id x;
     w_transports := w_transports x; w_transport_list := w_transport_list x;
     w_pending := w_pending x; w_trackers := w_trackers x; w_jdwp_list := w_jdwp_list x;
     w_jdwp_trackers := v; w_sent := w_sent x; w_live := w_live x; w_listeners := w_listeners x;
     w_auth := w_auth x; w_globals := w_globals x |}.
Definition set_w_sent (v : list (loc * apacket)) (x : world) : world :=
  {| w_env := w_env x; w_fds := w_fds x; w_next := w_next x; w_socks := w_socks x;
     w_local := w_local x; w_closing := w_closing x; w_next_id := w_next_id x;
     w_transports := w_transports x; w_transport_list := w_transport_list x;
     w_pending := w_pending x; w_trackers := w_trackers x; w_jdwp_list := w_jdwp_list x;
     w_jdwp_trackers := w_jdwp_trackers x; w_sent := v; w_live := w_live x;
     w_listeners := w_listeners x; w_auth := w_auth x; w_globals := w_globals x |}.
Definition set_w_live (v : Z) (x : world) : world :=
  {| w_env := w_env x; w_fds := w_fds x; w_next := w_next x; w_socks := w_socks x;
     w_local := w_local x; w_closing := w_closing x; w_next_id := w_next_id x;
     w_transports := w_transports x; w_transport_list := w_transport_list x;
     w_pending := w_pending x; w_trackers := w_trackers x; w_jdwp_list := w_jdwp_list x;
     w_jdwp_trackers := w_jdwp_trackers x; w_sent := w_sent x; w_live := v;
     w_listeners := w_listeners x; w_auth := w_auth x; w_globals := w_globals x |}.
Definition set_w_listeners (v : list (loc * alistener)) (x : world) : world :=
  {| w_env := w_env x; w_fds := w_fds x; w_next := w_next x; w_socks := w_socks x;
     w_local := w_local x; w_closing := w_closing x; w_next_id := w_next_id x;
     w_transports := w_transports x; w_transport_list := w_transport_list x;
     w_pending := w_pending x; w_trackers := w_trackers x; w_jdwp_list := w_jdwp_list x;
     w_jdwp_trackers := w_jdwp_trackers x; w_sent := w_sent x; w_live := w_live x;
     w_listeners := v; w_auth := w_auth x; w_globals := w_globals x |}.
Definition set_w_auth (v : adbd_auth) (x : world) : world :=
  {| w_env := w_env x; w_fds := w_fds x; w_next := w_next x; w_socks := w_socks x;
     w_local := w_local x; w_closing := w_closing x; w_next_id := w_next_id x;
     w_transports := w_transports x; w_transport_list := w_transport_list x;
     w_pending := w_pending x; w_trackers := w_trackers x; w_jdwp_list := w_jdwp_list x;
     w_jdwp_trackers := w_jdwp_trackers x; w_sent := w_sent x; w_live := w_live x;
     w_listeners := w_listeners x; w_auth := v; w_globals := w_globals x |}.
Definition set_w_globals (v : globals) (x : world) : world :=
  {| w_env := w_env x; w_fds := w_fds x; w_next := w_next x; w_socks := w_socks x;
     w_local := w_local x; w_closing := w_closing x; w_next_id := w_next_id x;
     w_transports := w_transports x; w_transport_list := w_transport_list x;
     w_pending := w_pending x; w_trackers := w_trackers x; w_jdwp_list := w_jdwp_list x;
     w_jdwp_trackers := w_jdwp_trackers x; w_sent := w_sent x; w_live := w_live x;
     w_listeners := w_listeners x; w_auth := w_auth x; w_globals := v |}.

End World.
Arguments world E : clear implicits.

(** ** Running the operations of one part on the whole state *)

Section Access.
Context {E : Type}.
Abbreviation W := (world E).

Definition on_env {A} (m : M E A) : M W A :=
  fun w => match m (w_env w) with
           | Done a e => Done a (set_w_env e w)
           | Exit c e => Exit c (set_w_env e w)
           | Fatal s => Fatal s
           | Crash s => Crash s
           | NoFuel => NoFuel
           end.

Definition on_fds {A} (m : M (fdstate fd_func) A) : M W A :=
  fun w => match m (w_fds w) with
           | Done a st => Done a (set_w_fds st w)
           | Exit c st => Exit c (set_w_fds st w)
           | Fatal s => Fatal s
           | Crash s => Crash s
           | NoFuel => NoFuel
           end.

Definition load_sock (s : loc) : M W asocket :=
  fun w => match w_socks w !! s with Some x => Done x w | None => Crash "dangling asocket" end.

Definition upd_sock (s : loc) (f : asocket -> asocket) : M W unit :=
  let* x := load_sock s in
  modify (fun w => set_w_socks (<[s := f x]> (w_socks w)) w).

Definition load_transport (t : loc) : M W atransport :=
  fun w => match w_transports w !! t with Some x => Done x w | None => Crash "dangling atransport" end.

Definition upd_transport (t : loc) (f : atransport -> atransport) : M W unit :=
  let* x := load_transport t in
  modify (fun w => set_w_transports (<[t := f x]> (w_transports w)) w).

(** Following a pointer. *)
Definition deref {A} (p : option A) : M W A :=
  match p with Some a => ret a | None => crash "null pointer" end.

(** A fresh address. *)
Definition alloc : M W loc :=
  let* w := get in
  modify (set_w_next (Pos.succ (w_next w))) ;;; ret (w_next w).

Definition get_apacket : M W apacket :=
  modify (fun w => set_w_live (w_live w + 1) w) ;;; ret fresh_apacket.

Definition put_apacket (p : apacket) : M W unit :=
  modify (fun w => set_w_live (w_live w - 1) w).

(** [free] of an object with an embedded [fdevent]. *)
Definition free_sock (s : loc) : M W unit :=
  modify (fun w => set_w_socks (delete s (w_socks w)) w) ;;;
  on_fds (fdevent_free s).

(** ** send_packet *)

Context `{Kernel E}.

(** [write_packet(t->transport_socket, ...)]. *)
Definition write_packet (fd : Z) (p : apacket) : M W bool :=
  fun w => let '(ok, e) := pipe_put fd p (w_env w) in Done ok (set_w_env e w).

(** A packet taken from the pipe is this thread's to free. *)
Definition read_packet (fd : Z) : M W (option apacket) :=
  fun w => let '(p, e) := pipe_get fd (w_env w) in
           Done p (set_w_live (w_live w + if p then 1 else 0) (set_w_env e w)).

Definition send_packet (p : apacket) (t : option loc) : M W unit :=
  let p := seal_packet p in
  match t with
  | None => fatal "Transport is null"
  | Some t =>
      let* x := load_transport t in
      let* ok := write_packet (t_transport_socket x) p in
      if negb ok then fatal "cannot enqueue packet on transport socket"
      else modify (fun w => set_w_live (w_live w - 1) (set_w_sent (w_sent w ++ [(t, p)]) w))
  end.

(** ** Replies to a client, through the synchronous writes of adb_io.cpp *)

Definition reply_fuel (fd : Z) (e : E) (n : nat) : nat := n + refusals fd e.

Definition SendOkay_fd (fd : Z) : M W wx_result :=
  let* w := get in on_env (SendOkay (reply_fuel fd (w_env w) 4) fd).

Definition SendProtocolString_fd (fd : Z) (s : bytes) : M W wx_result :=
  let* w := get in on_env (SendProtocolString (reply_fuel fd (w_env w) (length s + 64)) fd s).

(** The fuel covers [FAIL], the length and the text. *)
Definition SendFail_fd (fd : Z) (reason : bytes) : M W wx_result :=
  let* w := get in on_env (SendFail (reply_fuel fd (w_env w) (length reason + 64)) fd reason).

Lemma twp_on_env {A} (m : M E A) (Q : A -> W -> Prop) w : twp m (fun a e => Q a (set_w_env e w)) (w_env w) -> twp (on_env m) Q w.
Proof. unfold twp, on_env. by destruct (m (w_env w)). Qed.

End Access.

(** ** A concrete kernel: scripts of answers per descriptor

    The witnesses run on it.  A write with no answer left takes everything, a
    read with none left would block. *)

Record script := {
  sc_reads : gmap Z (list read_result);
  sc_writes : gmap Z (list write_result);
  sc_out : gmap Z bytes;
  sc_pipes : gmap Z (list apacket);
}.

Definition answer_write (r : write_result) (buf : bytes) : write_result :=
  match r with
  | WrOk n => WrOk (Z.max 0 (Z.min n (Zlen buf)))
  | WrErr e => WrErr e
  end.

Definition log_write (fd : Z) (r : write_result) (buf : bytes) (out : gmap Z bytes) : gmap Z bytes :=
  match r with
  | WrOk n => <[fd := default [] (out !! fd) ++ take (Z.to_nat n) buf]> out
  | WrErr _ => out
  end.

Definition script_write (fd : Z) (buf : bytes) (e : script) : write_result * script :=
  let '(r, rest) := match sc_writes e !! fd with
                    | Some (r :: rest) => (answer_write r buf, rest)
                    | _ => (WrOk (Zlen buf), [])
                    end in
  (r, {| sc_reads := sc_reads e; sc_writes := <[fd := rest]> (sc_writes e);
         sc_out := log_write fd r buf (sc_out e); sc_pipes := sc_pipes e |}).

Definition script_read (fd n : Z) (e : script) : read_result * script :=
  match sc_reads e !! fd with
  | Some (r :: rest) =>
      let '(r, rest) := match r with
                        | RdOk bs => if (Zlen bs <=? n)%Z then (RdOk bs, rest)
                                     else (RdOk (take (Z.to_nat n) bs), RdOk (drop (Z.to_nat n) bs) :: rest)
                        | RdErr x => (RdErr x, rest)
                        end in
      (r, {| sc_reads := <[fd := rest]> (sc_reads e); sc_writes := sc_writes e;
             sc_out := sc_out e; sc_pipes := sc_pipes e |})
  | _ => (RdErr EAGAIN, e)
  end.

Definition is_refusal (r : write_result) : bool :=
  match r with WrErr EAGAIN => true | WrOk n => (n <=? 0)%Z | _ => false end.

Definition script_refusals (fd : Z) (e : script) : nat :=
  length (List.filter is_refusal (default [] (sc_writes e !! fd))).

#[export] Instance script_fd_ops : FdOps script := {
  adb_read := script_read;
  adb_write := script_write;
  adb_shutdown fd e := e;
  strerror e := str "error";
}.

#[export] Instance script_kernel : Kernel script := {
  refusals := script_refusals;
  pipe_put fd p e := (true, {| sc_reads := sc_reads e; sc_writes := sc_writes e; sc_out := sc_out e;
                               sc_pipes := <[fd := default [] (sc_pipes e !! fd) ++ [p]]> (sc_pipes e) |});
  pipe_get fd e :=
    match sc_pipes e !! fd with
    | Some (p :: rest) => (Some p, {| sc_reads := sc_reads e; sc_writes := sc_writes e; sc_out := sc_out e;
                                      sc_pipes := <[fd := rest]> (sc_pipes e) |})
    | _ => (None, e)
    end;
}.

Lemma script_refusals_insert fd fd' l e r o p :
  script_refusals fd {| sc_reads := r; sc_writes := <[fd' := l]> (sc_writes e); sc_out := o; sc_pipes := p |} =
  if decide (fd = fd') then length (List.filter is_refusal l) else script_refusals fd e.
Proof.
  unfold script_refusals; cbn. destruct (decide (fd = fd')) as [->|Hne].
  - by rewrite lookup_insert_eq.
  - by rewrite lookup_insert_ne.
Qed.

#[export] Instance script_kernel_laws : KernelLaws script.
Proof.
  split.
  - intros fd buf e e' n Hw. cbn in Hw. unfold script_write in Hw.
    destruct (sc_writes e !! fd) as [[|[n'|]]|]; cbn in Hw; simplify_eq; lia.
  - intros fd buf e e' r Hw. cbn in Hw |- *. unfold script_write in Hw.
    destruct (sc_writes e !! fd) as [[|a rest]|] eqn:Hs; cbn in Hw; injection Hw as <- <-;
      rewrite script_refusals_insert, decide_True by done; unfold script_refusals; rewrite Hs; cbn.
    + split; [lia|]. intros Hb [[=Hx]|Hx]; [|done]. by destruct buf.
    + split.
      * destruct (is_refusal a); cbn; lia.
      * intros Hb Hr. assert (is_refusal a = true) as ->; [|cbn; lia].
        destruct a as [n|x]; cbn in *; [|destruct Hr; by simplify_eq].
        destruct Hr as [[=Hx]|]; [|done]. destruct buf; [done|]. cbn in Hx. lia.
    + split; [lia|]. intros Hb [[=Hx]|Hx]; [|done]. by destruct buf.
  - intros fd n e e' bs Hn Hr. cbn in Hr. unfold script_read in Hr.
    destruct (sc_reads e !! fd) as [[|[b|] rest]|]; cbn in Hr; simplify_eq.
    destruct (Z.leb_spec (Zlen b) n); simplify_eq; [done|]. rewrite length_take. lia.
Qed.
