(* ===== verification/SmartText.v ===== *)
(** * The request text of a smart socket (sockets.cpp: unhex, skip_host_serial) *)

From S2P Require Import Prelude LibBase.

Definition hexval (c : ascii) : option Z :=
  match digit_val c with Some d => if (d <? 16)%Z then Some d else None | None => None end.

(** [n] accumulates in 32 bits. *)
Fixpoint unhex_loop (s : bytes) (n : Z) : Z :=
  match s with
  | [] => n
  | c :: t =>
      match hexval c with
      | None => 0xffffffff
      | Some d => unhex_loop t (Z.lor (u32 (Z.shiftl n 4)) d)
      end
  end.

Definition unhex (s : bytes) (len : nat) : Z := unhex_loop (take len s) 0.

(** The offset of the first [c] in the C string [s] from [from] on. *)
Fixpoint index_of (s : bytes) (c : ascii) : option nat :=
  match s with
  | [] => None
  | a :: t => if Ascii.eqb a c then Some O else option_map S (index_of t c)
  end.

Definition strchr_from (s : bytes) (from : nat) (c : ascii) : option nat :=
  option_map (fun i => from + i) (index_of (drop from s) c).

Fixpoint count_digits (s : bytes) : nat :=
  match s with
  | a :: t => if is_digit a then S (count_digits t) else O
  | [] => O
  end.

Definition colon_c : ascii := byte_of 58.

(** The offset of the [:] before the command. *)
Definition skip_host_serial (service : bytes) : option nat :=
  let try_prefix p k := if is_prefix p service then strchr_from service (length p) colon_c else k in
  try_prefix (str "usb:") (try_prefix (str "product:") (try_prefix (str "model:") (try_prefix (str "device:")
  (let start := if is_prefix (str "tcp:") service || is_prefix (str "udp:") service then 4 else 0 in
   let start := match drop start service with
                | c :: _ => if Ascii.eqb c (byte_of 91)
                            then match strchr_from service start (byte_of 93) with
                                 | Some e => e
                                 | None => start
                                 end
                            else start
                | [] => start
                end in
   match strchr_from service start colon_c with
   | None => None
   | Some colon_ptr =>
       let digits := count_digits (drop (S colon_ptr) service) in
       if Nat.eqb digits 0 then Some colon_ptr
       else let serial_end := S colon_ptr + digits in
            match drop serial_end service with
            | c :: _ => if Ascii.eqb c colon_c then Some serial_end else Some colon_ptr
            | [] => Some colon_ptr
            end
   end)))).

(** ** The length field *)

Lemma hexval_ok c : digit_ok 16 c -> exists d, hexval c = Some d /\ digit_val c = Some d /\ (0 <= d < 16)%Z.
Proof.
  intros (d & Hd & Hr). unfold hexval. exists d. rewrite Hd. rewrite (proj2 (Z.ltb_lt d 16)) by lia. done.
Qed.

Lemma nibble_lor n d : (0 <= d < 16)%Z -> (0 <= n)%Z -> (n * 16 + d < 2 ^ 32)%Z ->
  Z.lor (u32 (Z.shiftl n 4)) d = (n * 16 + d)%Z.
Proof.
  intros Hd Hn Hb. rewrite Z.shiftl_mul_pow2 by lia. change (2 ^ 4)%Z with 16%Z.
  rewrite u32_small by lia. rewrite <- Z.add_lor_land.
  assert (Z.land (n * 16) d = 0)%Z as ->; [|lia].
  apply Z.bits_inj'. intros i Hi. rewrite Z.land_spec, Z.bits_0. replace (n * 16)%Z with (Z.shiftl n 4) by (rewrite Z.shiftl_mul_pow2; lia).
  destruct (Z.ltb_spec i 4).
  - by rewrite Z.shiftl_spec_low.
  - rewrite (Z.bits_above_log2 d i), andb_false_r; [done|lia|]. destruct (Z.eq_dec d 0%Z) as [->|]; [cbn; lia|].
    assert (Z.log2 d < 4)%Z by (apply Z.log2_lt_pow2; lia). lia.
Qed.

Lemma unhex_loop_num l n : Forall (digit_ok 16) l -> (0 <= n)%Z -> ((n + 1) * 16 ^ Zlen l <= 2 ^ 32)%Z ->
  unhex_loop l n = num_acc 16 l n.
Proof.
  revert n. induction l as [|c t IH]; intros n Hd Hn Hb; [done|].
  apply Forall_cons in Hd as [Hc Ht]. destruct (hexval_ok c Hc) as (d & Hh & Hv & Hr).
  cbn [unhex_loop num_acc]. rewrite Hh, Hv.
  assert (Zlen (c :: t) = Zlen t + 1)%Z as Hl by (cbn [length]; lia). rewrite Hl, Z.pow_add_r in Hb by lia.
  change (16 ^ 1)%Z with 16%Z in Hb.
  assert (0 < 16 ^ Zlen t)%Z by (apply Z.pow_pos_nonneg; lia).
  rewrite nibble_lor by (first [lia|nia]). rewrite (proj2 (Z.ltb_lt d 16)) by lia. apply IH; [done|lia|nia].
Qed.

(** The length in front of a request is read back as it is printed: four
    hexadecimal digits, whatever follows them. *)
Theorem unhex_roundtrip n rest :
  (0 <= n < 65536)%Z -> unhex (hex_pad 4 n ++ rest) 4 = n.
Proof.
  intros Hn. unfold unhex.
  assert (length (hex_pad 4 n) = 4) as Hl by (apply hex_pad_length; lia).
  rewrite take_app_length' by done. rewrite unhex_loop_num.
  - apply num_acc_hex_pad. lia.
  - apply hex_pad_digits. lia.
  - done.
  - rewrite Hl. cbn. lia.
Qed.

Lemma unhex_roundtrip_witness : unhex (hex_pad 4 21 ++ str "host:wait-for-any-any") 4 = 21%Z.
Proof. apply (unhex_roundtrip 21 (str "host:wait-for-any-any")). lia. Defined.

(** ** The serial number in front of a command *)

Definition open_c : ascii := byte_of 91.
Definition close_c : ascii := byte_of 93.

(** A host: a name without a colon, or a bracketed IPv6 address. *)
Inductive address : bytes -> Prop :=
| address_name h : colon_c ∉ h -> head h <> Some open_c -> address h
| address_v6 a : close_c ∉ a -> address (open_c :: a ++ [close_c]).

Definition serial_of (proto host port : bytes) : bytes :=
  proto ++ host ++ match port with [] => [] | _ => colon_c :: port end.

(** A command that does not look like [<port>:...]. *)
Definition not_a_port (cmd : bytes) : Prop :=
  forall d r, cmd = d ++ colon_c :: r -> Forall (fun c => is_digit c = true) d -> d = [].

Lemma index_of_app a c r : c ∉ a -> index_of (a ++ c :: r) c = Some (length a).
Proof.
  induction a as [|b a IH]; intros Hc; cbn; [by rewrite Ascii.eqb_refl|].
  apply not_elem_of_cons in Hc as [Hne Hc]. destruct (Ascii.eqb_spec b c) as [->|]; [done|]. by rewrite IH.
Qed.

Lemma strchr_from_app pre a c r : c ∉ a -> strchr_from (pre ++ a ++ c :: r) (length pre) c = Some (length pre + length a).
Proof. intros Hc. unfold strchr_from. rewrite drop_app_length. by rewrite index_of_app. Qed.

Lemma count_digits_app d c r : Forall (fun c => is_digit c = true) d -> is_digit c = false ->
  count_digits (d ++ c :: r) = length d.
Proof. intros Hd Hc. induction Hd as [|b d Hb _ IH]; cbn; [by rewrite Hc|]. by rewrite Hb, IH. Qed.

Lemma count_digits_split s : exists d r, s = d ++ r /\ length d = count_digits s /\ Forall (fun c => is_digit c = true) d.
Proof.
  induction s as [|c s (d & r & Hs & Hl & Hd)]; [by exists [], []|]. cbn. destruct (is_digit c) eqn:Hc.
  - exists (c :: d), r. split_and!; [by rewrite Hs|cbn; by rewrite Hl|by constructor].
  - by exists [], (c :: s).
Qed.

(** A reserved word is a prefix only when it is the whole host. *)
Lemma reserved_prefix q h r : colon_c ∉ q -> head q <> Some open_c -> q <> [] -> address h -> h <> q ->
  is_prefix (q ++ [colon_c]) (h ++ colon_c :: r) = false.
Proof.
  intros Hq Ho Hne Ha Hd. apply not_true_iff_false. intros [t Ht]%is_prefix_spec. rewrite <- app_assoc in Ht.
  destruct Ha as [h Hc _|a _].
  - apply Hd. clear - Ht Hc Hq. revert q Hq Ht. induction h as [|b h IH]; intros [|c q] Hq Ht; cbn in Ht; simplify_eq; try done.
    + exfalso. apply Hq. left.
    + exfalso. apply Hc. left.
    + f_equal. apply IH; [set_solver|set_solver|done].
  - destruct q as [|c q]; [done|]. cbn in Ht. by simplify_eq.
Qed.

(** What comes after the colon that follows the host. *)
Lemma port_or_command pre port cmd :
  Forall (fun c => is_digit c = true) port -> (port = [] -> not_a_port cmd) ->
  let rest := match port with [] => cmd | _ => port ++ colon_c :: cmd end in
  let service := pre ++ colon_c :: rest in
  (let digits := count_digits (drop (S (length pre)) service) in
   if Nat.eqb digits 0 then Some (length pre)
   else let serial_end := S (length pre) + digits in
        match drop serial_end service with
        | c :: _ => if Ascii.eqb c colon_c then Some serial_end else Some (length pre)
        | [] => Some (length pre)
        end) = Some (length pre + length (match port with [] => [] | _ => colon_c :: port end)).
Proof.
  intros Hd Hp rest service.
  assert (Hs : service = (pre ++ [colon_c]) ++ rest) by (unfold service; by rewrite <- app_assoc).
  assert (Hl : S (length pre) = length (pre ++ [colon_c])) by (rewrite length_app; cbn; lia).
  cbn zeta. rewrite Hl, Hs, drop_app_length, <- drop_drop, drop_app_length.
  destruct port as [|b port].
  - destruct (count_digits_split rest) as (d & r & Hr & Hdl & Hdd). rewrite <- Hdl. rewrite Hr.
    rewrite drop_app_length. cbn. rewrite Nat.add_0_r.
    destruct d as [|c d]; [done|]. cbn [length Nat.eqb]. destruct r as [|c' r]; [done|].
    destruct (Ascii.eqb_spec c' colon_c) as [->|]; [|done]. by discriminate (Hp eq_refl (c :: d) r).
  - unfold rest. rewrite count_digits_app by done. rewrite drop_app_length. cbn. f_equal. rewrite length_app. cbn. lia.
Qed.

(** Where the colon after the host is looked for, and found. *)
Lemma host_colon proto host r : address host ->
  let service := proto ++ host ++ colon_c :: r in
  let start := match drop (length proto) service with
               | c :: _ => if Ascii.eqb c open_c
                           then match strchr_from service (length proto) close_c with Some e => e | None => length proto end
                           else length proto
               | [] => length proto
               end in
  strchr_from service start colon_c = Some (length (proto ++ host)).
Proof.
  intros Ha service. unfold service. rewrite drop_app_length, length_app. destruct Ha as [h Hc Ho|a Hb].
  - assert (match h ++ colon_c :: r with
            | c :: _ => if Ascii.eqb c open_c
                        then match strchr_from (proto ++ h ++ colon_c :: r) (length proto) close_c with Some e => e | None => length proto end
                        else length proto
            | [] => length proto end = length proto) as ->.
    { destruct h as [|b h]; [done|]. cbn. destruct (Ascii.eqb_spec b open_c) as [->|]; [done|done]. }
    by apply strchr_from_app.
  - cbn [app]. rewrite Ascii.eqb_refl, <- app_assoc. cbn [app].
    assert (strchr_from (proto ++ open_c :: a ++ close_c :: colon_c :: r) (length proto) close_c =
            Some (length proto + S (length a))) as ->.
    { apply (strchr_from_app proto (open_c :: a) close_c). apply not_elem_of_cons. by split. }
    replace (proto ++ open_c :: a ++ close_c :: colon_c :: r) with ((proto ++ open_c :: a) ++ [close_c] ++ colon_c :: r)
      by (by rewrite <- app_assoc).
    replace (length proto + S (length a)) with (length (proto ++ open_c :: a)) by (rewrite length_app; cbn; lia).
    rewrite strchr_from_app by (by apply not_elem_of_cons; split; [|apply not_elem_of_nil]).
    f_equal. repeat (rewrite ?length_app; cbn [length]). lia.
Qed.

Definition qualifiers : list bytes := [str "usb"; str "product"; str "model"; str "device"].
Definition protocols : list bytes := [str "tcp"; str "udp"].

(** In [<serial>:<command>], the end of the serial number is found: an
    optional [tcp:] or [udp:], a host name or a bracketed IPv6 address (whose
    colons do not count), and an optional numeric port. *)
Theorem skip_host_serial_spec proto host port cmd :
  proto ∈ [] :: map (fun q => q ++ [colon_c]) protocols -> address host -> host ∉ qualifiers ->
  (proto = [] -> host ∉ protocols) ->
  Forall (fun c => is_digit c = true) port -> (port = [] -> not_a_port cmd) ->
  skip_host_serial (serial_of proto host port ++ colon_c :: cmd) = Some (length (serial_of proto host port)).
Proof.
  intros Hproto Ha Hq Hp Hport Hcmd.
  set (rest := match port with [] => cmd | _ => port ++ colon_c :: cmd end).
  assert (Hs : serial_of proto host port ++ colon_c :: cmd = proto ++ host ++ colon_c :: rest).
  { unfold serial_of, rest. destruct port; cbn; by rewrite <- !app_assoc. }
  rewrite Hs. set (service := proto ++ host ++ colon_c :: rest).
  assert (Hres : forall q, q ∈ qualifiers ++ protocols -> proto = [] -> host <> q -> is_prefix (q ++ [colon_c]) service = false).
  { intros q Hin -> Hne. assert (colon_c ∉ q /\ head q <> Some open_c /\ q <> []) as (? & ? & ?).
    { clear - Hin. unfold qualifiers, protocols in Hin. cbn [app] in Hin. elem_cases Hin; split_and!; by_decide. }
    by apply reserved_prefix. }
  assert (Hqual : forall q, q ∈ qualifiers -> is_prefix (q ++ [colon_c]) service = false).
  { intros q Hin. rewrite elem_of_cons in Hproto. destruct Hproto as [->|Hpr].
    - apply Hres; [apply elem_of_app; by left|done|]. intros ->. done.
    - unfold service. clear - Hin Hpr. unfold qualifiers in Hin. unfold protocols in Hpr. cbn [map] in Hpr.
      elem_cases Hin; by elem_cases Hpr. }
  assert (Hstart : (if is_prefix (str "tcp:") service || is_prefix (str "udp:") service then 4 else 0) = length proto).
  { rewrite elem_of_cons in Hproto. destruct Hproto as [Hp0|Hpr].
    - change (str "tcp:") with (str "tcp" ++ [colon_c]). change (str "udp:") with (str "udp" ++ [colon_c]).
      rewrite (Hres (str "tcp")), (Hres (str "udp")); [by rewrite Hp0|by_decide|done| |by_decide|done|].
      all: intros ->; apply (Hp Hp0); by_decide.
    - unfold service. clear - Hpr. unfold protocols in Hpr. cbn [map] in Hpr. by elem_cases Hpr. }
  unfold skip_host_serial. cbn zeta.
  change (str "usb:") with (str "usb" ++ [colon_c]). change (str "product:") with (str "product" ++ [colon_c]).
  change (str "model:") with (str "model" ++ [colon_c]). change (str "device:") with (str "device" ++ [colon_c]).
  rewrite (Hqual (str "usb")), (Hqual (str "product")), (Hqual (str "model")), (Hqual (str "device")) by by_decide.
  rewrite Hstart. fold open_c close_c. pose proof (host_colon proto host rest Ha) as Hc. cbn zeta in Hc. fold service in Hc. rewrite Hc.
  replace service with ((proto ++ host) ++ colon_c :: rest) by (unfold service; by rewrite <- app_assoc).
  etrans; [exact (port_or_command (proto ++ host) port cmd Hport Hcmd)|]. f_equal.
  unfold serial_of. by rewrite !length_app, Nat.add_assoc.
Qed.

Lemma skip_host_serial_spec_witness :
  skip_host_serial (serial_of (str "tcp:") (str "[fe80::1]") (str "5555") ++ colon_c :: str "get-state") =
  Some (length (serial_of (str "tcp:") (str "[fe80::1]") (str "5555"))).
Proof.
  apply skip_host_serial_spec; [by_decide| |by_decide|done|by repeat constructor|done].
  apply (address_v6 (str "fe80::1")). by_decide.
Defined.
