(* ===== verification/Sockets.v ===== *)
(** * Sockets (sockets.cpp, jdwp_service.cpp's service sockets,
      transport.cpp's device trackers)

    Every function a pointer of an [asocket] can hold, with the calls through
    the pointers as parameters of the functions that make them; [sock_close],
    [sock_enqueue] and [sock_ready] tie the knot.  Their fuel bounds the depth
    of the calls, not the data. *)

From S2P Require Import Prelude LibBase Packet AdbIo FdEvent Transport World.

(** ** The lists of local sockets *)

Section Lists.
Context {E : Type}.
Abbreviation W := (world E).

Fixpoint find_in (l : list loc) (local_id peer_id : Z) : M W (option loc) :=
  match l with
  | [] => ret None
  | s :: rest =>
      let* x := load_sock s in
      if negb (s_id x =? local_id)%Z then find_in rest local_id peer_id
      else if (peer_id =? 0)%Z then ret (Some s)
      else match s_peer x with
           | None => ret None
           | Some p => let* px := load_sock p in ret (if (s_id px =? peer_id)%Z then Some s else None)
           end
  end.

Definition find_local_socket (local_id peer_id : Z) : M W (option loc) :=
  let* w := get in find_in (w_local w) local_id peer_id.

Definition install_local_socket (s : loc) : M W unit :=
  let* w := get in
  upd_sock s (set_s_id (w_next_id w)) ;;;
  modify (set_w_next_id (u32 (w_next_id w + 1))) ;;;
  if (u32 (w_next_id w + 1) =? 0)%Z then fatal "local socket id overflow"
  else modify (fun w => set_w_local (w_local w ++ [s]) w).

(** A socket is linked when it is on one of the two lists. *)
Definition remove_socket (s : loc) : M W unit :=
  let* w := get in
  when (bool_decide (s ∈ w_local w) || bool_decide (s ∈ w_closing w)) (
    modify (fun w => set_w_local (filter (fun x => x <> s) (w_local w))
                       (set_w_closing (filter (fun x => x <> s) (w_closing w)) w)) ;;;
    upd_sock s (set_s_id 0)).

(** ** Sizes *)

Definition transport_max_payload (t : option loc) (m : Z) : M W Z :=
  match t with
  | None => ret m
  | Some t => let* x := load_transport t in ret (Z.min m (t_max_payload x))
  end.

Definition get_max_payload (s : loc) : M W Z :=
  let* x := load_sock s in
  let* m := transport_max_payload (s_transport x) MAX_PAYLOAD in
  match s_peer x with
  | None => ret m
  | Some p => let* px := load_sock p in transport_max_payload (s_transport px) m
  end.

End Lists.

(** ** Writing what a packet still holds *)

Definition advance (n : Z) (p : apacket) : apacket :=
  {| len := u64 (len p - n); ptr := ptr p + n; msg := msg p; data := data p |}.

Definition unsent (p : apacket) : bytes := take (Z.to_nat (len p)) (drop (Z.to_nat (ptr p)) (data p)).

Inductive push_result := PushDone | PushBlocked | PushError.

Section Push.
Context {E : Type} `{Kernel E}.
Abbreviation W := (world E).

(** The loop [while (p->len > 0)] of [local_socket_enqueue] and of
    [local_socket_event_func]. *)
Fixpoint push_loop (fuel : nat) (fd : Z) (p : apacket) : M E (push_result * apacket) :=
  if (0 <? len p)%Z then
    match fuel with
    | O => no_fuel
    | S f =>
        let* r := sys_write fd (unsent p) in
        match r with
        | WrOk n => if (0 <? n)%Z then push_loop f fd (advance n p) else ret (PushError, p)
        | WrErr EAGAIN => ret (PushBlocked, p)
        | WrErr _ => ret (PushError, p)
        end
    end
  else ret (PushDone, p).

Definition push_packet (fd : Z) (p : apacket) : M W (push_result * apacket) :=
  on_env (push_loop (Z.to_nat (len p)) fd p).

End Push.

(** ** close *)

Section Close.
Context {E : Type} `{Kernel E}.
Abbreviation W := (world E).

Definition local_socket_ready (s : loc) : M W unit := on_fds (fdevent_add s FDE_READ).

Definition local_socket_destroy (s : loc) : M W unit :=
  let* x := load_sock s in
  on_fds (fdevent_remove s) ;;;
  iter_list put_apacket (s_pkts x) ;;;
  remove_socket s ;;;
  free_sock s ;;;
  if s_exit_on_close x then exit_with 1 else ret tt.

Definition remote_socket_shutdown (s : loc) : M W unit :=
  let* x := load_sock s in
  let* p := get_apacket in
  let* a0 := match s_peer x with
             | Some q => let* qx := load_sock q in ret (s_id qx)
             | None => ret 0%Z
             end in
  send_packet (mk_packet A_CLSE a0 (s_id x) []) (s_transport x).

Definition shutdown_of (s : loc) (f : option shutdown_fn) : M W unit :=
  match f with
  | None => ret tt
  | Some shut_remote => remote_socket_shutdown s
  end.

(** The functions that close a socket call [s->peer->close] or [s->close]
    through [close]. *)
Section Recursive.
Context (close : loc -> M W unit).

(** What is left once the peer is gone. *)
Definition local_socket_finish (s : loc) : M W unit :=
  let* x := load_sock s in
  if s_closing x || s_has_write_error x || bool_decide (s_pkts x = [])
  then local_socket_destroy s
  else
    upd_sock s (set_s_closing true) ;;;
    on_fds (fdevent_del s FDE_READ) ;;;
    remove_socket s ;;;
    modify (fun w => set_w_closing (w_closing w ++ [s]) w) ;;;
    let* e := on_fds (load s) in
    check (flag (fde_state e) FDE_WRITE) "CHECK_EQ(FDE_WRITE, s->fde.state & FDE_WRITE)".

Definition local_socket_close (s : loc) : M W unit :=
  let* x := load_sock s in
  match s_peer x with
  | None => ret tt
  | Some p =>
      let* px := load_sock p in
      shutdown_of p (s_shutdown px) ;;;
      upd_sock p (set_s_peer None) ;;;
      close p ;;;
      upd_sock s (set_s_peer None)
  end ;;;
  local_socket_finish s.

Definition local_socket_close_notify (s : loc) : M W unit :=
  upd_sock s (fun x => set_s_close cls_local (set_s_shutdown None (set_s_ready rdy_local x))) ;;;
  let* x := load_sock s in
  let* _ := SendFail_fd (s_fd x) (str "closed") in
  close s.

Definition remote_socket_close (s : loc) : M W unit :=
  let* x := load_sock s in
  match s_peer x with
  | None => ret tt
  | Some p => upd_sock p (set_s_peer None) ;;; close p
  end ;;;
  free_sock s.

Definition smart_socket_close (s : loc) : M W unit :=
  let* x := load_sock s in
  match s_pkts x with [] => ret tt | p :: _ => put_apacket p end ;;;
  match s_peer x with
  | None => ret tt
  | Some p => upd_sock p (set_s_peer None) ;;; close p ;;; upd_sock s (set_s_peer None)
  end ;;;
  free_sock s.

Definition device_tracker_remove (s : loc) : M W unit :=
  modify (fun w => set_w_trackers (filter (fun x => x <> s) (w_trackers w)) w).

Definition device_tracker_close (s : loc) : M W unit :=
  let* x := load_sock s in
  match s_peer x with
  | None => ret tt
  | Some p => upd_sock p (set_s_peer None) ;;; close p
  end ;;;
  device_tracker_remove s ;;;
  free_sock s.

Definition jdwp_socket_close (s : loc) : M W unit :=
  let* x := load_sock s in
  match s_peer x with
  | None => ret tt
  | Some p => upd_sock p (set_s_peer None) ;;; close p ;;; upd_sock s (set_s_peer None)
  end ;;;
  remove_socket s ;;;
  free_sock s.

(** The vector of [unique_ptr]s owns the tracker: erasing frees it. *)
Definition jdwp_tracker_close (s : loc) : M W unit :=
  let* x := load_sock s in
  match s_peer x with
  | None => ret tt
  | Some p => upd_sock p (set_s_peer None) ;;; close p ;;; upd_sock s (set_s_peer None)
  end ;;;
  remove_socket s ;;;
  let* w := get in
  when (bool_decide (s ∈ w_jdwp_trackers w)) (
    modify (fun w => set_w_jdwp_trackers (filter (fun x => x <> s) (w_jdwp_trackers w)) w) ;;;
    free_sock s).

End Recursive.

(** [s->close(s)]. *)
Fixpoint sock_close (fuel : nat) (s : loc) : M W unit :=
  match fuel with
  | O => no_fuel
  | S f =>
      let* x := load_sock s in
      match s_close x with
      | cls_local => local_socket_close (sock_close f) s
      | cls_local_notify => local_socket_close_notify (sock_close f) s
      | cls_remote => remote_socket_close (sock_close f) s
      | cls_smart => smart_socket_close (sock_close f) s
      | cls_device_tracker => device_tracker_close (sock_close f) s
      | cls_jdwp => jdwp_socket_close (sock_close f) s
      | cls_jdwp_tracker => jdwp_tracker_close (sock_close f) s
      end
  end.

(** Two sockets, each of which may have to send its failure message first. *)
Definition close_depth : nat := 4.
Definition close_socket (s : loc) : M W unit := sock_close close_depth s.

(** ** close_all_sockets *)

(** The first socket of the list that is bound to [t], or whose peer is. *)
Fixpoint first_using (t : loc) (l : list loc) : M W (option loc) :=
  match l with
  | [] => ret None
  | s :: rest =>
      let* x := load_sock s in
      if bool_decide (s_transport x = Some t) then ret (Some s)
      else match s_peer x with
           | None => first_using t rest
           | Some p => let* px := load_sock p in
                       if bool_decide (s_transport px = Some t) then ret (Some s) else first_using t rest
           end
  end.

(** The scan restarts after each socket closed. *)
Fixpoint close_all_loop (fuel : nat) (t : loc) : M W unit :=
  let* w := get in
  let* found := first_using t (w_local w) in
  match found with
  | None => ret tt
  | Some s =>
      match fuel with
      | O => no_fuel
      | S f => close_socket s ;;; close_all_loop f t
      end
  end.

Definition close_all_sockets (t : loc) : M W unit :=
  let* w := get in close_all_loop (length (w_local w)) t.

End Close.
