(* ===== verification/SocketInv.v ===== *)
(** * The invariant of the sockets

    [wf H w]: the sockets of [w] are consistent, but for the ones in [H],
    which a function is in the middle of changing.  The lemmas say what each
    update of the state does to it. *)

From S2P Require Import Prelude LibBase Packet AdbIo FdEvent Transport World SmartText.
From S2P Require Import Sockets.

Section Inv.
Context {E : Type}.
Implicit Types (w : world E) (s t : loc) (x y : asocket) (H : gset loc).

(** The event object of a local socket. *)
Definition fde_of (w : world E) (s : loc) (x : asocket) (e : fdevent fd_func) : Prop :=
  fdes (w_fds w) !! s = Some e /\ is_active e /\ fde_fd e = s_fd x /\ fde_func e = fn_local_socket s /\
  flag (fde_state e) FDE_DONT_CLOSE = false /\
  (s_pkts x <> [] -> flag (fde_state e) FDE_WRITE = true).

(** What holds of a socket of each kind at all times. *)
Definition kind_ok (w : world E) (s : loc) (x : asocket) : Prop :=
  match s_enqueue x with
  | enq_local =>
      (s_ready x = rdy_local /\ s_close x = cls_local \/
       s_ready x = rdy_local_notify /\ s_close x = cls_local_notify) /\
      s_shutdown x = None /\
      (exists e, fde_of w s x e) /\
      (if s_closing x then s ∈ w_closing w /\ s_peer x = None else s ∈ w_local w)
  | enq_remote =>
      s_ready x = rdy_remote /\ s_close x = cls_remote /\ s_shutdown x = Some shut_remote /\ s_closing x = false /\
      s_pkts x = [] /\ is_Some (s_transport x) /\
      fdes (w_fds w) !! s = None
  | enq_smart =>
      s_ready x = rdy_smart /\ s_close x = cls_smart /\ s_shutdown x = None /\ s_closing x = false /\ s_id x = 0%Z /\
      fdes (w_fds w) !! s = None
  | enq_device_tracker =>
      s_ready x = rdy_device_tracker /\ s_close x = cls_device_tracker /\ s_shutdown x = None /\
      s_pkts x = [] /\ s_closing x = false /\ s ∈ w_trackers w /\ fdes (w_fds w) !! s = None
  | enq_jdwp =>
      s_ready x = rdy_jdwp /\ s_close x = cls_jdwp /\ s_shutdown x = None /\ s_pkts x = [] /\
      s_closing x = false /\ s ∈ w_local w /\ fdes (w_fds w) !! s = None
  | enq_jdwp_tracker =>
      s_ready x = rdy_jdwp_tracker /\ s_close x = cls_jdwp_tracker /\ s_shutdown x = None /\ s_pkts x = [] /\
      s_closing x = false /\ s ∈ w_local w /\ s ∈ w_jdwp_trackers w /\
      fdes (w_fds w) !! s = None
  end.

(** Which sockets are connected to which. *)
Definition link_ok (a b : enqueue_fn) : Prop :=
  match a, b with
  | enq_local, (enq_local | enq_remote | enq_smart | enq_device_tracker) => True
  | (enq_remote | enq_smart | enq_device_tracker), enq_local => True
  | (enq_jdwp | enq_jdwp_tracker), enq_remote | enq_remote, (enq_jdwp | enq_jdwp_tracker) => True
  | _, _ => False
  end.

(** What holds of it between the functions. *)
Record quiet (socks : gmap loc asocket) (fds : gmap loc (fdevent fd_func)) (s : loc) (x : asocket) : Prop := {
  q_error : s_has_write_error x = false;
  q_peer : forall p, s_peer x = Some p -> p <> s /\ exists y, socks !! p = Some y /\ s_peer y = Some s;
  q_idle : s_enqueue x = enq_local -> s_closing x = false -> s_peer x = None -> s_pkts x = [];
  q_closing : s_closing x = true -> s_pkts x <> [];
  q_write : forall e, s_enqueue x = enq_local -> fds !! s = Some e ->
              flag (fde_state e) FDE_WRITE = true -> s_pkts x <> [];
  q_link : forall p y, s_peer x = Some p -> socks !! p = Some y -> link_ok (s_enqueue x) (s_enqueue y);
  q_flag : s_enqueue x = enq_device_tracker -> is_Some (s_peer x) -> s_flag x = false;
  q_smart : forall p y, s_enqueue x = enq_local -> s_peer x = Some p -> socks !! p = Some y ->
              s_enqueue y = enq_smart -> s_pkts x = [];
}.

Definition listed_kind (x : asocket) : Prop :=
  s_enqueue x = enq_local \/ s_enqueue x = enq_jdwp \/ s_enqueue x = enq_jdwp_tracker.

Record wf (H : gset loc) (w : world E) : Prop := {
  wf_fd : fd_inv (w_fds w);
  wf_kind : forall s x, w_socks w !! s = Some x -> kind_ok w s x;
  wf_quiet : forall s x, s ∉ H -> w_socks w !! s = Some x -> quiet (w_socks w) (fdes (w_fds w)) s x;
  wf_transport : forall s x t, w_socks w !! s = Some x -> s_transport x = Some t ->
                   is_Some (w_transports w !! t);
  wf_local : forall s, s ∈ w_local w -> exists x, w_socks w !! s = Some x /\ listed_kind x /\
               s_closing x = false /\ (0 < s_id x < w_next_id w)%Z;
  wf_ids : forall s1 s2 x1 x2, s1 ∈ w_local w -> s2 ∈ w_local w -> w_socks w !! s1 = Some x1 ->
             w_socks w !! s2 = Some x2 -> s_id x1 = s_id x2 -> s1 = s2;
  wf_next_id : (0 < w_next_id w < 2 ^ 32)%Z;
  wf_closing : forall s, s ∈ w_closing w -> exists x, w_socks w !! s = Some x /\ s_enqueue x = enq_local /\
                 s_closing x = true;
  wf_nodup_local : NoDup (w_local w);
  wf_nodup_closing : NoDup (w_closing w);
  wf_trackers : forall s, s ∈ w_trackers w -> exists x, w_socks w !! s = Some x /\ s_enqueue x = enq_device_tracker;
  wf_jdwp_trackers : forall s, s ∈ w_jdwp_trackers w ->
                       exists x, w_socks w !! s = Some x /\ s_enqueue x = enq_jdwp_tracker;
  wf_fresh : forall l, is_Some (w_socks w !! l) \/ is_Some (fdes (w_fds w) !! l) \/ is_Some (w_transports w !! l) ->
               (l < w_next w)%positive;
}.

(** ** Primitive steps *)

Lemma wp_load_sock s x (Q : asocket -> world E -> Prop) w :
  w_socks w !! s = Some x -> Q x w -> wp (load_sock s) Q w.
Proof. intros Hx HQ. unfold wp, load_sock. by rewrite Hx. Qed.

Lemma wp_upd_sock s f x (Q : unit -> world E -> Prop) w :
  w_socks w !! s = Some x -> Q tt (set_w_socks (<[s := f x]> (w_socks w)) w) -> wp (upd_sock s f) Q w.
Proof. intros Hx HQ. unfold upd_sock. apply wp_bind. by eapply wp_load_sock. Qed.

Lemma wp_load_transport t tx (Q : atransport -> world E -> Prop) w :
  w_transports w !! t = Some tx -> Q tx w -> wp (load_transport t) Q w.
Proof. intros Hx HQ. unfold wp, load_transport. by rewrite Hx. Qed.

Lemma wp_on_fds {A} (m : M (fdstate fd_func) A) (Q : A -> world E -> Prop) w :
  wp m (fun a st => Q a (set_w_fds st w)) (w_fds w) -> wp (on_fds m) Q w.
Proof. unfold wp, on_fds. by destruct (m (w_fds w)). Qed.

Lemma wp_on_env {A} (m : M E A) (Q : A -> world E -> Prop) w :
  wp m (fun a e => Q a (set_w_env e w)) (w_env w) -> wp (on_env m) Q w.
Proof. unfold wp, on_env. by destruct (m (w_env w)). Qed.

Lemma wp_deref {A} (p : option A) a (Q : A -> world E -> Prop) w :
  p = Some a -> Q a w -> wp (deref p) Q w.
Proof. by intros ->. Qed.

(** ** Parts of the state the invariant does not read *)

Lemma wf_set_env H e w : wf H w -> wf H (set_w_env e w).
Proof. by destruct 1; constructor. Qed.
Lemma wf_set_live H n w : wf H w -> wf H (set_w_live n w).
Proof. by destruct 1; constructor. Qed.
Lemma wf_set_sent H l w : wf H w -> wf H (set_w_sent l w).
Proof. by destruct 1; constructor. Qed.

(** ** Holes *)

Lemma wf_weaken H H' w : wf H w -> H ⊆ H' -> wf H' w.
Proof. intros [] Hs. constructor; try done. intros s x Hn. apply wf_quiet0. set_solver. Qed.

(** A hole whose socket is consistent again, or freed, can be closed. *)
Lemma wf_fill H s w :
  wf ({[s]} ∪ H) w -> (forall x, w_socks w !! s = Some x -> quiet (w_socks w) (fdes (w_fds w)) s x) -> wf H w.
Proof.
  intros [] Hs. constructor; try done. intros s' x Hn Hx.
  destruct (decide (s' = s)) as [->|]; [by apply Hs|]. apply wf_quiet0; [set_solver|done].
Qed.

(** ** Changing one socket *)

(** The fields of a socket that decide its place in the lists. *)
Definition same_place x x' : Prop :=
  s_enqueue x' = s_enqueue x /\ s_closing x' = s_closing x /\ s_id x' = s_id x.

Lemma kind_ok_mono w w' s x :
  kind_ok w s x -> fdes (w_fds w') !! s = fdes (w_fds w) !! s ->
  (s ∈ w_local w -> s ∈ w_local w') -> (s ∈ w_closing w -> s ∈ w_closing w') ->
  (s ∈ w_trackers w -> s ∈ w_trackers w') -> (s ∈ w_jdwp_trackers w -> s ∈ w_jdwp_trackers w') ->
  kind_ok w' s x.
Proof.
  unfold kind_ok, fde_of. intros Hk Hf ? ? ? ?. rewrite Hf.
  destruct (s_enqueue x); destruct_and?; split_and!; auto.
  destruct (s_closing x); destruct_and?; auto.
Qed.

Lemma wf_upd_fds H s x x' st w :
  wf H w -> w_socks w !! s = Some x -> same_place x x' -> s ∈ H ->
  fd_inv st -> (forall l, l <> s -> fdes st !! l = fdes (w_fds w) !! l) ->
  kind_ok (set_w_fds st w) s x' ->
  (forall t, s_transport x' = Some t -> is_Some (w_transports w !! t)) ->
  (forall q y, q ∉ H -> w_socks w !! q = Some y -> s_peer y = Some s -> s_peer x' = Some q) ->
  wf H (set_w_socks (<[s := x']> (w_socks w)) (set_w_fds st w)).
Proof.
  intros I Hx (He & Hc & Hid) Hs Ist Hfds Hk Ht Hp. pose proof I as [].
  assert (Hl : forall P : loc -> asocket -> Prop,
    (forall x, P s x -> same_place x x' -> P s x') -> forall r, (exists y, w_socks w !! r = Some y /\ P r y) ->
    exists y, <[s := x']> (w_socks w) !! r = Some y /\ P r y).
  { intros P HP r (y & Hy & HPy). destruct (decide (r = s)) as [->|Hne].
    - simplify_eq. exists x'. rewrite lookup_insert_eq. split; [done|]. by apply (HP x).
    - exists y. by rewrite lookup_insert_ne. }
  constructor; cbn; try done.
  - intros r y Hy. destruct (decide (r = s)) as [->|Hne]; simplify_map_eq; [exact Hk|].
    apply wf_kind0 in Hy. by apply (kind_ok_mono w); [|apply Hfds|..].
  - intros r y Hn Hy. assert (r <> s) by (intros ->; done). simplify_map_eq.
    destruct (wf_quiet0 r y Hn Hy) as [? Hpe ? ? ? Hlk ? Hsm]. constructor; cbn; try done.
    + intros p Hpr. destruct (Hpe p Hpr) as (Hne & z & Hz & Hzp). split; [done|].
      destruct (decide (p = s)) as [->|]; simplify_map_eq; [|eauto].
      exists x'. split; [by simplify_map_eq|]. by apply (Hp r y).
    + intros e ? Hfe. rewrite Hfds in Hfe by done. eauto.
    + intros p z Hpr Hz. destruct (decide (p = s)) as [->|]; simplify_map_eq; [|by eapply Hlk].
      rewrite He. by eapply Hlk.
    + intros p z Hl' Hpr Hz Hsz. destruct (decide (p = s)) as [->|]; simplify_map_eq; [|by eapply Hsm].
      eapply Hsm; [done|done|exact Hx|]. congruence.
  - intros r y t Hy. destruct (decide (r = s)) as [->|]; simplify_map_eq; [apply Ht|by eapply wf_transport0].
  - intros r Hr. apply wf_local0 in Hr.
    apply (Hl (fun r y => listed_kind y /\ s_closing y = false /\ (0 < s_id y < w_next_id w)%Z)) in Hr; [exact Hr|].
    intros y (? & ? & ?) (E1 & E2 & E3). unfold listed_kind in *. by rewrite E1, E2, E3.
  - intros s1 s2 y1 y2 H1 H2 Hy1 Hy2 Heq.
    assert (Hlk : forall r y, <[s := x']> (w_socks w) !! r = Some y ->
              exists y', w_socks w !! r = Some y' /\ s_id y' = s_id y).
    { intros r y Hy. destruct (decide (r = s)) as [->|]; simplify_map_eq; eauto. }
    destruct (Hlk s1 y1 Hy1) as (z1 & ? & ?), (Hlk s2 y2 Hy2) as (z2 & ? & ?).
    apply (wf_ids0 s1 s2 z1 z2); congruence.
  - intros r Hr. apply wf_closing0 in Hr.
    apply (Hl (fun _ y => s_enqueue y = enq_local /\ s_closing y = true)) in Hr; [exact Hr|].
    intros y (? & ?) (E1 & E2 & E3). by rewrite E1, E2.
  - intros r Hr. apply wf_trackers0 in Hr.
    apply (Hl (fun _ y => s_enqueue y = enq_device_tracker)) in Hr; [exact Hr|].
    intros y ? (E1 & E2 & E3). by rewrite E1.
  - intros r Hr. apply wf_jdwp_trackers0 in Hr.
    apply (Hl (fun _ y => s_enqueue y = enq_jdwp_tracker)) in Hr; [exact Hr|].
    intros y ? (E1 & E2 & E3). by rewrite E1.
  - intros l Hl'. apply wf_fresh0. destruct (decide (l = s)) as [->|]; [rewrite Hx; eauto|].
    rewrite lookup_insert_ne, Hfds in Hl' by done. tauto.
Qed.

Lemma wf_upd H s x x' w :
  wf H w -> w_socks w !! s = Some x -> same_place x x' -> s ∈ H ->
  kind_ok w s x' ->
  (forall t, s_transport x' = Some t -> is_Some (w_transports w !! t)) ->
  (forall q y, q ∉ H -> w_socks w !! q = Some y -> s_peer y = Some s -> s_peer x' = Some q) ->
  wf H (set_w_socks (<[s := x']> (w_socks w)) w).
Proof.
  intros I Hx Hp Hs Hk Ht Hq.
  exact (wf_upd_fds H s x x' (w_fds w) w I Hx Hp Hs (wf_fd _ _ I) (fun _ _ => eq_refl) Hk Ht Hq).
Qed.

(** ** Removing a socket *)

(** [w'] is [w] without the socket at [s]. *)
Record deleted (s : loc) (w w' : world E) : Prop := {
  del_socks : w_socks w' = delete s (w_socks w);
  del_fd : fd_inv (w_fds w');
  del_fdes : forall l, l <> s -> fdes (w_fds w') !! l = fdes (w_fds w) !! l;
  del_fde : fdes (w_fds w') !! s = None;
  del_local : w_local w' = filter (fun l => l <> s) (w_local w);
  del_closing : w_closing w' = filter (fun l => l <> s) (w_closing w);
  del_trackers : w_trackers w' = filter (fun l => l <> s) (w_trackers w);
  del_jdwp : w_jdwp_trackers w' = filter (fun l => l <> s) (w_jdwp_trackers w);
  del_transports : w_transports w' = w_transports w;
  del_next : w_next w' = w_next w;
  del_next_id : w_next_id w' = w_next_id w;
}.

Lemma wf_delete H s w w' :
  wf H w -> deleted s w w' ->
  (forall q y, q <> s -> q ∉ H -> w_socks w !! q = Some y -> s_peer y <> Some s) ->
  wf (H ∖ {[s]}) w'.
Proof.
  intros [] [] Hp.
  assert (Hin : forall (l : loc) (k : list loc), l ∈ filter (fun r => r <> s) k <-> l <> s /\ l ∈ k)
    by (intros; apply filter_ne_in).
  assert (Hex : forall (P : loc -> asocket -> Prop) l, l <> s ->
    (exists x, w_socks w !! l = Some x /\ P l x) -> exists x, w_socks w' !! l = Some x /\ P l x).
  { intros P l Hne (x & Hx & HP). exists x. by rewrite del_socks0, lookup_delete_ne. }
  constructor; rewrite ?del_local0, ?del_closing0, ?del_trackers0, ?del_jdwp0, ?del_transports0,
    ?del_next0, ?del_next_id0; try done.
  - intros r y Hy. rewrite del_socks0 in Hy. apply lookup_delete_Some in Hy as [Hne Hy].
    apply wf_kind0 in Hy. apply (kind_ok_mono w); [done|by apply del_fdes0|..];
      rewrite ?del_local0, ?del_closing0, ?del_trackers0, ?del_jdwp0, ?Hin; done.
  - intros r y Hn Hy. rewrite del_socks0 in Hy. apply lookup_delete_Some in Hy as [Hne Hy].
    assert (r ∉ H) as Hr by set_solver.
    destruct (wf_quiet0 r y Hr Hy) as [? Hpe ? ? ? Hlk ? Hsm]. constructor; try done.
    + intros p Hpr. destruct (Hpe p Hpr) as (? & z & Hz & Hzp). split; [done|].
      exists z. rewrite del_socks0, lookup_delete_ne; [done|]. intros <-. by apply (Hp r y).
    + intros e ? He. rewrite del_fdes0 in He by done. eauto.
    + intros p z Hpr Hz. rewrite del_socks0 in Hz. apply lookup_delete_Some in Hz as [_ Hz]. by eapply Hlk.
    + intros p z Hl Hpr Hz. rewrite del_socks0 in Hz. apply lookup_delete_Some in Hz as [_ Hz]. by eapply Hsm.
  - intros r y t Hy. rewrite del_socks0 in Hy. apply lookup_delete_Some in Hy as [_ Hy]. by eapply wf_transport0.
  - intros r [Hne Hr]%Hin. apply (Hex (fun r y => listed_kind y /\ s_closing y = false /\ (0 < s_id y < w_next_id w)%Z));
      [done|by apply wf_local0].
  - intros s1 s2 x1 x2 [_ H1]%Hin [_ H2]%Hin Hx1 Hx2. rewrite del_socks0 in Hx1, Hx2.
    apply lookup_delete_Some in Hx1 as [_ Hx1]. apply lookup_delete_Some in Hx2 as [_ Hx2].
    by apply (wf_ids0 s1 s2 x1 x2).
  - intros r [Hne Hr]%Hin. apply (Hex (fun _ y => s_enqueue y = enq_local /\ s_closing y = true)); auto.
  - by apply NoDup_filter.
  - by apply NoDup_filter.
  - intros r [Hne Hr]%Hin. apply (Hex (fun _ y => s_enqueue y = enq_device_tracker)); auto.
  - intros r [Hne Hr]%Hin. apply (Hex (fun _ y => s_enqueue y = enq_jdwp_tracker)); auto.
  - intros l Hl. apply wf_fresh0. destruct (decide (l = s)) as [->|Hne].
    + rewrite del_socks0, del_fde0, lookup_delete_eq in Hl. destruct Hl as [[? ?]|[[? ?]|?]]; [done|done|tauto].
    + rewrite del_socks0, lookup_delete_ne, del_fdes0 in Hl by done. done.
Qed.

(** ** What an operation leaves alone *)

(** The parts no operation on sockets touches. *)
Definition rest_of w := (w_pending w, w_jdwp_list w, w_listeners w, w_auth w, w_globals w).

(** Only the sockets of [D] changed, and sockets were only removed. *)
Record frame (D : gset loc) (w w' : world E) : Prop := {
  fr_socks : forall q, q ∉ D -> w_socks w' !! q = w_socks w !! q;
  fr_dom : forall q, is_Some (w_socks w' !! q) -> is_Some (w_socks w !! q);
  fr_fdes : forall q, q ∉ D -> fdes (w_fds w') !! q = fdes (w_fds w) !! q;
  fr_local : forall q, q ∈ w_local w' -> q ∈ w_local w;
  fr_local_keep : forall q, q ∉ D -> q ∈ w_local w -> q ∈ w_local w';
  fr_closing : forall q, q ∉ D -> q ∈ w_closing w' <-> q ∈ w_closing w;
  fr_trackers : forall q, q ∈ w_trackers w' -> q ∈ w_trackers w;
  fr_trackers_sub : w_trackers w' `sublist_of` w_trackers w;
  fr_trackers_keep : forall q, q ∉ D -> q ∈ w_trackers w -> q ∈ w_trackers w';
  fr_pending : length (g_pending_list (w_fds w')) <= length (g_pending_list (w_fds w));
  fr_transports : w_transports w' = w_transports w;
  fr_transport_list : w_transport_list w' = w_transport_list w;
  fr_next : w_next w' = w_next w;
  fr_next_id : w_next_id w' = w_next_id w;
  fr_rest : rest_of w' = rest_of w;
}.

Lemma frame_refl D w : frame D w w.
Proof. by constructor. Qed.

Lemma frame_trans D1 D2 w1 w2 w3 : frame D1 w1 w2 -> frame D2 w2 w3 -> frame (D1 ∪ D2) w1 w3.
Proof.
  intros F1 F2. constructor.
  - intros q [H1 H2]%not_elem_of_union. by rewrite (fr_socks _ _ _ F2), (fr_socks _ _ _ F1).
  - intros q Hq. by apply (fr_dom _ _ _ F1), (fr_dom _ _ _ F2).
  - intros q [H1 H2]%not_elem_of_union. by rewrite (fr_fdes _ _ _ F2), (fr_fdes _ _ _ F1).
  - intros q Hq. by apply (fr_local _ _ _ F1), (fr_local _ _ _ F2).
  - intros q [H1 H2]%not_elem_of_union Hq. by apply (fr_local_keep _ _ _ F2), (fr_local_keep _ _ _ F1).
  - intros q [H1 H2]%not_elem_of_union. by rewrite (fr_closing _ _ _ F2), (fr_closing _ _ _ F1).
  - intros q Hq. by apply (fr_trackers _ _ _ F1), (fr_trackers _ _ _ F2).
  - etrans; [apply (fr_trackers_sub _ _ _ F2)|apply (fr_trackers_sub _ _ _ F1)].
  - intros q [H1 H2]%not_elem_of_union Hq. by apply (fr_trackers_keep _ _ _ F2), (fr_trackers_keep _ _ _ F1).
  - etrans; [apply (fr_pending _ _ _ F2)|apply (fr_pending _ _ _ F1)].
  - by rewrite (fr_transports _ _ _ F2), (fr_transports _ _ _ F1).
  - by rewrite (fr_transport_list _ _ _ F2), (fr_transport_list _ _ _ F1).
  - by rewrite (fr_next _ _ _ F2), (fr_next _ _ _ F1).
  - by rewrite (fr_next_id _ _ _ F2), (fr_next_id _ _ _ F1).
  - by rewrite (fr_rest _ _ _ F2), (fr_rest _ _ _ F1).
Qed.

Lemma frame_mono D D' w w' : frame D w w' -> D ⊆ D' -> frame D' w w'.
Proof. intros [] Hs. constructor; auto. Qed.

(** [s] is closed: freed, or waiting on the closing list for its last packets. *)
Definition gone (s : loc) (w : world E) : Prop :=
  s ∉ w_local w /\
  (w_socks w !! s = None \/
   s ∈ w_closing w /\ exists x, w_socks w !! s = Some x /\ s_closing x = true /\ s_peer x = None).

End Inv.
