(* ===== verification/SocketClose.v ===== *)
(** * Closing sockets

    What [close] does, through whatever pointer it is called: a socket without
    a peer first, then a socket with one, then all the sockets of a
    transport. *)

From S2P Require Import Prelude LibBase Packet AdbIo FdEvent Transport World SmartText.
From S2P Require Import Sockets SocketInv.

Section Replies.
Context {E : Type} {K : Kernel E} {KL : KernelLaws E}.
Implicit Types (w : world E) (e : E).

Lemma wp_WriteFdExactly fuel fd buf e :
  length buf + refusals fd e <= fuel ->
  wp (WriteFdExactly fuel fd buf) (fun _ e' => refusals fd e' <= refusals fd e) e.
Proof.
  unfold WriteFdExactly. revert buf e. induction fuel as [|f IH]; intros buf e Hf.
  { destruct buf; [by apply wp_ret|cbn in Hf; lia]. }
  destruct buf as [|b bs]; [by apply wp_ret|]. cbn [WriteFdExactly_loop].
  apply wp_bind. unfold wp, sys_write. destruct (adb_write fd (b :: bs) e) as [r e'] eqn:Hw.
  destruct (write_progress _ _ _ _ _ Hw) as [Hle Hlt].
  assert (Hret : forall x, wp (ret (WX_fail x)) (fun _ e'' => refusals fd e'' <= refusals fd e) e') by done.
  assert (Hrec : forall buf', length buf' + refusals fd e' <= f ->
    wp (WriteFdExactly_loop f fd buf') (fun _ e'' => refusals fd e'' <= refusals fd e) e').
  { intros buf' Hb. eapply wp_mono; [by apply IH|]. cbn. lia. }
  destruct r as [n|[]]; try apply Hret.
  - pose proof (write_count _ _ _ _ _ Hw). apply Hrec. rewrite length_drop.
    destruct (decide (n = 0%Z)) as [->|]; [|cbn [length] in *; lia].
    specialize (Hlt ltac:(done) ltac:(auto)). cbn [length] in *. lia.
  - apply Hrec. specialize (Hlt ltac:(done) ltac:(auto)). lia.
Qed.

Lemma c_str_length bs : length (c_str bs) <= length bs.
Proof. induction bs as [|a t IH]; cbn; [done|]. destruct (Ascii.eqb a NUL); cbn; lia. Qed.

Lemma to_digits_bound f b z acc : length (to_digits f b z acc) <= f + length acc.
Proof.
  revert z acc. induction f as [|f IH]; intros z acc; cbn; [done|].
  destruct (z <? b)%Z; cbn; [lia|]. etrans; [apply IH|]. cbn. lia.
Qed.

Lemma hex_pad_length_le n z : (0 <= z < 2 ^ 32)%Z -> length (hex_pad n z) <= n + 33.
Proof.
  intros Hz. unfold hex_pad, zero_pad, hex, print_num. rewrite length_app, length_replicate.
  pose proof (to_digits_bound (S (Z.to_nat (Z.log2 z))) 16 z []) as Hl.
  assert (Z.log2 z < 32)%Z; [|cbn [length] in Hl; lia].
  destruct (decide (z = 0%Z)) as [->|]; [done|]. apply Z.log2_lt_pow2; lia.
Qed.

Lemma wp_SendOkay_fd fd (Q : wx_result -> world E -> Prop) w :
  (forall r e, Q r (set_w_env e w)) -> wp (SendOkay_fd fd) Q w.
Proof.
  intros HQ. unfold SendOkay_fd. apply wp_bind, wp_get, wp_on_env. unfold SendOkay.
  eapply wp_mono; [apply wp_WriteFdExactly; done|]. auto.
Qed.

Lemma wp_SendFail_fd fd reason (Q : wx_result -> world E -> Prop) w :
  (forall r e, Q r (set_w_env e w)) -> wp (SendFail_fd fd reason) Q w.
Proof.
  intros HQ. unfold SendFail_fd. apply wp_bind, wp_get, wp_on_env. unfold SendFail, reply_fuel.
  apply wp_bind. eapply wp_mono; [apply wp_WriteFdExactly; cbn; lia|]. cbn beta.
  intros [|x] e Hr; [|by apply wp_ret]. unfold SendProtocolString. cbv zeta.
  destruct (_ <? _)%Z; [by apply wp_ret|].
  eapply wp_mono; [apply wp_WriteFdExactly|auto].
  rewrite length_app. pose proof (c_str_length (take (Z.to_nat (u32 (Zlen reason))) reason)).
  rewrite length_take in *.
  pose proof (hex_pad_length_le 4 (u32 (Zlen reason)) (Z.mod_pos_bound (Zlen reason) (2 ^ 32) eq_refl)). lia.
Qed.

Lemma wp_send_packet p t tx (Q : unit -> world E -> Prop) w :
  w_transports w !! t = Some tx ->
  (forall e n, Q tt (set_w_live n (set_w_sent (w_sent w ++ [(t, seal_packet p)]) (set_w_env e w)))) ->
  wp (send_packet p (Some t)) Q w.
Proof.
  intros Ht HQ. unfold send_packet. cbv zeta. apply wp_bind. eapply wp_load_transport; [done|].
  apply wp_bind. unfold wp, write_packet. destruct (pipe_put _ _ _) as [ok e].
  destruct ok; cbn; [apply HQ|exact I].
Qed.

Lemma wp_put_all l (Q : unit -> world E -> Prop) w :
  (forall n, Q tt (set_w_live n w)) -> wp (iter_list put_apacket l) Q w.
Proof.
  revert w. induction l as [|p l IH]; intros w HQ.
  - apply wp_ret. specialize (HQ (w_live w)). by destruct w.
  - cbn. apply wp_bind, wp_modify, IH. intros n. apply (HQ n).
Qed.

End Replies.

(** ** A socket without a peer *)

Section Leaf.
Context {E : Type} {K : Kernel E} {KL : KernelLaws E}.
Implicit Types (w : world E) (s : loc) (x : asocket) (H : gset loc).

Lemma wp_remove_socket s x (Q : unit -> world E -> Prop) w :
  w_socks w !! s = Some x ->
  (s ∉ w_local w -> s ∉ w_closing w -> Q tt w) ->
  Q tt (set_w_socks (<[s := set_s_id 0 x]> (w_socks w))
         (set_w_local (filter (fun l => l <> s) (w_local w))
           (set_w_closing (filter (fun l => l <> s) (w_closing w)) w))) ->
  wp (remove_socket s) Q w.
Proof.
  intros Hx HQ1 HQ2. unfold remove_socket. apply wp_bind, wp_get. apply wp_when; intros Hb.
  - apply wp_bind, wp_modify. by eapply wp_upd_sock.
  - apply orb_false_iff in Hb as [H1%bool_decide_eq_false H2%bool_decide_eq_false]. auto.
Qed.

Lemma wp_free_sock s (Q : unit -> world E -> Prop) w :
  Q tt (set_w_fds (set_fdes (delete s (fdes (w_fds w))) (w_fds w)) (set_w_socks (delete s (w_socks w)) w)) ->
  wp (free_sock s) Q w.
Proof. intros HQ. unfold free_sock. apply wp_bind, wp_modify, wp_on_fds, wp_modify, HQ. Qed.

(** Freeing memory that no active event object is in. *)
Lemma fd_free_any l (st : fdstate fd_func) :
  fd_inv st -> (forall e, fdes st !! l = Some e -> ~ is_active e) ->
  fd_inv (set_fdes (delete l (fdes st)) st).
Proof.
  intros I Ha. destruct (fdes st !! l) as [e|] eqn:He; [eapply fd_free_inv; eauto|].
  rewrite delete_id by done. by destruct st.
Qed.

(** What is common to all the ways to free [s]: [w1] is [w] but for [s], its
    event object and the lists. *)
Lemma freed_deleted s w w1 :
  fd_inv (w_fds w1) -> (forall e, fdes (w_fds w1) !! s = Some e -> ~ is_active e) ->
  (forall l, l <> s -> fdes (w_fds w1) !! l = fdes (w_fds w) !! l) ->
  length (g_pending_list (w_fds w1)) <= length (g_pending_list (w_fds w)) ->
  delete s (w_socks w1) = delete s (w_socks w) ->
  w_local w1 = filter (fun l => l <> s) (w_local w) ->
  w_closing w1 = filter (fun l => l <> s) (w_closing w) ->
  w_trackers w1 = filter (fun l => l <> s) (w_trackers w) ->
  w_jdwp_trackers w1 = filter (fun l => l <> s) (w_jdwp_trackers w) ->
  w_transports w1 = w_transports w -> w_transport_list w1 = w_transport_list w ->
  w_next w1 = w_next w -> w_next_id w1 = w_next_id w -> rest_of w1 = rest_of w ->
  let w' := set_w_fds (set_fdes (delete s (fdes (w_fds w1))) (w_fds w1)) (set_w_socks (delete s (w_socks w1)) w1) in
  deleted s w w' /\ frame {[s]} w w' /\ gone s w'.
Proof.
  intros I Ha Hf Hlen Hs Hl Hc Ht Hj Htr Htl Hn Hi Hre w'.
  assert (Hin : forall (k : list loc) (l : loc), l ∈ filter (fun r => r <> s) k <-> l <> s /\ l ∈ k)
    by (intros; apply filter_ne_in).
  assert (Hfd : forall l, l <> s -> fdes (w_fds w') !! l = fdes (w_fds w) !! l).
  { intros l Hne. cbn. rewrite lookup_delete_ne by done. auto. }
  split_and!.
  - constructor; cbn; auto; [by apply fd_free_any|apply lookup_delete_eq].
  - constructor; cbn; rewrite ?Hs, ?Hl, ?Hc, ?Ht, ?Htr, ?Htl, ?Hn, ?Hi; try done.
    + intros q Hq%not_elem_of_singleton. by rewrite lookup_delete_ne.
    + intros q [y Hy]. apply lookup_delete_Some in Hy as [_ Hy]. eauto.
    + intros q Hq%not_elem_of_singleton. by apply Hfd.
    + intros q Hq%Hin. tauto.
    + intros q Hq%not_elem_of_singleton ?. by apply Hin.
    + intros q Hq%not_elem_of_singleton. rewrite Hin. tauto.
    + intros q Hq%Hin. tauto.
    + apply sublist_filter.
    + intros q Hq%not_elem_of_singleton ?. by apply Hin.
  - split; cbn; rewrite ?Hl, ?Hin, ?Hs; [tauto|]. left. apply lookup_delete_eq.
Qed.

(** A socket is on no list that holds sockets of other kinds. *)
Lemma off_local H s x w : wf H w -> w_socks w !! s = Some x -> ~ listed_kind x \/ s_closing x = true ->
  filter (fun l => l <> s) (w_local w) = w_local w.
Proof.
  intros I Hx Hk. apply filter_ne_id. intros (y & Hy & Hl & Hc & _)%(wf_local _ _ I). simplify_eq.
  destruct Hk; congruence.
Qed.
Lemma off_closing H s x w : wf H w -> w_socks w !! s = Some x -> s_closing x = false \/ s_enqueue x <> enq_local ->
  filter (fun l => l <> s) (w_closing w) = w_closing w.
Proof.
  intros I Hx Hk. apply filter_ne_id. intros (y & Hy & Hl & Hc)%(wf_closing _ _ I). simplify_eq.
  destruct Hk; congruence.
Qed.
Lemma off_trackers H s x w : wf H w -> w_socks w !! s = Some x -> s_enqueue x <> enq_device_tracker ->
  filter (fun l => l <> s) (w_trackers w) = w_trackers w.
Proof.
  intros I Hx Hk. apply filter_ne_id. intros (y & Hy & ?)%(wf_trackers _ _ I). congruence.
Qed.
Lemma off_jdwp_trackers H s x w : wf H w -> w_socks w !! s = Some x -> s_enqueue x <> enq_jdwp_tracker ->
  filter (fun l => l <> s) (w_jdwp_trackers w) = w_jdwp_trackers w.
Proof.
  intros I Hx Hk. apply filter_ne_id. intros (y & Hy & ?)%(wf_jdwp_trackers _ _ I). congruence.
Qed.

(** The event object of a local socket, removed. *)
Lemma wp_local_destroy H s x w (Q : unit -> world E -> Prop) :
  wf H w -> w_socks w !! s = Some x -> s_enqueue x = enq_local ->
  (forall w', deleted s w w' -> frame {[s]} w w' -> gone s w' -> w_sent w' = w_sent w -> Q tt w') ->
  wp (local_socket_destroy s) Q w.
Proof.
  intros I Hx Hk HQ. unfold local_socket_destroy. apply wp_bind. eapply wp_load_sock; [done|].
  pose proof (wf_kind _ _ I _ _ Hx) as Hkind. unfold kind_ok in Hkind. rewrite Hk in Hkind.
  destruct Hkind as (_ & _ & (e & He & Ha & Hfd & Hfn & Hdc & _) & Hplace).
  apply wp_bind, wp_on_fds. eapply wp_fdevent_remove; [apply (wf_fd _ _ I)|done|done|].
  intros st Ist R. apply wp_bind, wp_put_all. intros n.
  destruct (removed_self _ _ _ _ R) as (e' & He' & Hs' & _).
  assert (Hina : forall e0, fdes st !! s = Some e0 -> ~ is_active e0).
  { intros e0 He0. simplify_eq. unfold is_active. by rewrite Hs'. }
  apply wp_bind. eapply wp_remove_socket; cbn; [done| |].
  - intros Hl Hc. exfalso. destruct (s_closing x); destruct_and?; done.
  - apply wp_bind, wp_free_sock.
    set (w1 := set_w_socks _ _).
    destruct (freed_deleted s w w1) as (Hd & Hf & Hg); cbn; try done.
    + apply (removed_others _ _ _ _ R).
    + apply (removed_length _ _ _ _ R).
    + by rewrite delete_insert_eq.
    + symmetry. eapply (off_trackers H s x w); [done|done|by rewrite Hk].
    + symmetry. eapply (off_jdwp_trackers H s x w); [done|done|by rewrite Hk].
    + destruct (s_exit_on_close x); [apply wp_exit|]. apply wp_ret. by apply HQ.
Qed.

Definition moved_to_closing (s : loc) (x : asocket) (st : fdstate fd_func) (w : world E) : world E :=
  set_w_closing (w_closing w ++ [s])
    (set_w_socks (<[s := set_s_id 0 (set_s_closing true x)]> (w_socks w))
      (set_w_local (filter (fun l => l <> s) (w_local w)) (set_w_fds st w))).

(** A detached local socket with packets left goes to the closing list. *)
Lemma wf_move_closing H s x w st e' :
  wf H w -> w_socks w !! s = Some x -> s_enqueue x = enq_local -> s_peer x = None ->
  s_closing x = false -> s_has_write_error x = false -> s_pkts x <> [] ->
  fd_inv st -> fd_frame s (w_fds w) st -> fdes st !! s = Some e' -> is_active e' -> fde_fd e' = s_fd x ->
  fde_func e' = fn_local_socket s -> flag (fde_state e') FDE_DONT_CLOSE = false ->
  flag (fde_state e') FDE_WRITE = true ->
  let w' := moved_to_closing s x st w in
  wf (H ∖ {[s]}) w' /\ frame {[s]} w w' /\ gone s w'.
Proof.
  intros I Hx Hk Hp Hc Herr Hpk Ist F He' Ha Hfd Hfn Hdc Hw w'.
  pose proof (wf_kind _ _ I _ _ Hx) as Hkind. unfold kind_ok in Hkind. rewrite Hk, Hc in Hkind.
  destruct Hkind as (Hrc & Hsh & _ & Hloc).
  assert (Hnc : s ∉ w_closing w).
  { intros (y & Hy & _ & Hcl)%(wf_closing _ _ I). simplify_eq. congruence. }
  assert (Hin : forall (k : list loc) (l : loc), l ∈ filter (fun r => r <> s) k <-> l <> s /\ l ∈ k)
    by (intros; apply filter_ne_in).
  assert (Hex : forall (P : loc -> asocket -> Prop) l, l <> s ->
    (exists x, w_socks w !! l = Some x /\ P l x) -> exists x, w_socks w' !! l = Some x /\ P l x).
  { intros P l Hne (y & Hy & HP). exists y. cbn. by rewrite lookup_insert_ne. }
  assert (Hself : w_socks w' !! s = Some (set_s_id 0 (set_s_closing true x))) by apply lookup_insert_eq.
  split_and!.
  - constructor.
    + exact Ist.
    + intros r y Hy. cbn in Hy. destruct (decide (r = s)) as [->|Hne].
      * rewrite lookup_insert_eq in Hy. injection Hy as <-. unfold kind_ok. cbn. rewrite Hk.
        split_and!; [done|done| |set_solver|done]. exists e'. split_and!; done.
      * rewrite lookup_insert_ne in Hy by done. pose proof (wf_kind _ _ I _ _ Hy) as Hky.
        apply (kind_ok_mono w); [done|cbn; by apply (frame_others _ _ _ F)| | |done|done]; cbn.
        -- intros ?. by apply Hin.
        -- intros ?. set_solver.
    + intros r y Hr Hy. cbn in Hy. destruct (decide (r = s)) as [->|Hne].
      * rewrite lookup_insert_eq in Hy. injection Hy as <-. constructor; cbn; try done; try congruence.
      * rewrite lookup_insert_ne in Hy by done. destruct (wf_quiet _ _ I r y ltac:(set_solver) Hy) as [? Hpe ? ? ? Hlk ? Hsm].
        constructor; cbn; try done.
        -- intros p Hpr. destruct (Hpe p Hpr) as (? & z & Hz & Hzp). split; [done|].
           destruct (decide (p = s)) as [->|]; [simplify_eq; congruence|].
           exists z. by rewrite lookup_insert_ne.
        -- intros e0 ? He0. rewrite (frame_others _ _ _ F) in He0 by done. eauto.
        -- intros p z Hpr Hz. destruct (decide (p = s)) as [->|]; [|rewrite lookup_insert_ne in Hz by done; by eapply Hlk].
           rewrite lookup_insert_eq in Hz. injection Hz as <-. by apply (Hlk s x).
        -- intros p z Hl Hpr Hz. destruct (decide (p = s)) as [->|]; [|rewrite lookup_insert_ne in Hz by done; by eapply Hsm].
           rewrite lookup_insert_eq in Hz. injection Hz as <-. by apply (Hsm s x).
    + intros r y t Hy. cbn in Hy |- *. destruct (decide (r = s)) as [->|Hne].
      * rewrite lookup_insert_eq in Hy. injection Hy as <-. apply (wf_transport _ _ I s x t Hx).
      * rewrite lookup_insert_ne in Hy by done. apply (wf_transport _ _ I r y t Hy).
    + intros r [Hne Hr]%Hin.
      apply (Hex (fun r y => listed_kind y /\ s_closing y = false /\ (0 < s_id y < w_next_id w)%Z)); [done|].
      by apply (wf_local _ _ I).
    + intros s1 s2 x1 x2 [N1 H1]%Hin [N2 H2]%Hin Hx1 Hx2. cbn in Hx1, Hx2.
      rewrite lookup_insert_ne in Hx1, Hx2 by done. by apply (wf_ids _ _ I s1 s2 x1 x2).
    + apply (wf_next_id _ _ I).
    + intros r [Hr| ->%list_elem_of_singleton]%elem_of_app.
      * apply (Hex (fun _ y => s_enqueue y = enq_local /\ s_closing y = true)); [by intros ->|].
        by apply (wf_closing _ _ I).
      * exists (set_s_id 0 (set_s_closing true x)). by rewrite Hself.
    + apply NoDup_filter, (wf_nodup_local _ _ I).
    + apply NoDup_app. split_and!; [apply (wf_nodup_closing _ _ I)| |apply NoDup_singleton].
      intros r Hr Hrs%list_elem_of_singleton. by subst.
    + intros r Hr. destruct (decide (r = s)) as [->|Hne].
      { apply (wf_trackers _ _ I) in Hr as (y & ? & ?). congruence. }
      apply (Hex (fun _ y => s_enqueue y = enq_device_tracker)); [done|]. by apply (wf_trackers _ _ I).
    + intros r Hr. destruct (decide (r = s)) as [->|Hne].
      { apply (wf_jdwp_trackers _ _ I) in Hr as (y & ? & ?). congruence. }
      apply (Hex (fun _ y => s_enqueue y = enq_jdwp_tracker)); [done|]. by apply (wf_jdwp_trackers _ _ I).
    + intros l Hl. apply (wf_fresh _ _ I). destruct (decide (l = s)) as [->|Hne]; [rewrite Hx; eauto|].
      cbn in Hl. rewrite lookup_insert_ne, (frame_others _ _ _ F) in Hl by done. done.
  - constructor; cbn; try done.
    + intros q Hq%not_elem_of_singleton. by rewrite lookup_insert_ne.
    + intros q Hq. destruct (decide (q = s)) as [->|]; [rewrite Hx; eauto|]. by rewrite lookup_insert_ne in Hq.
    + intros q Hq%not_elem_of_singleton. by apply (frame_others _ _ _ F).
    + intros q Hq%Hin. tauto.
    + intros q Hq%not_elem_of_singleton ?. by apply Hin.
    + intros q Hq%not_elem_of_singleton. set_solver.
    + apply (frame_pending _ _ _ F).
  - split; [cbn; rewrite Hin; tauto|]. right. split; [cbn; set_solver|]. eexists. split; [exact Hself|done].
Qed.

Lemma wp_local_finish H s x w (Q : unit -> world E -> Prop) :
  wf H w -> s ∈ H -> w_socks w !! s = Some x -> s_enqueue x = enq_local -> s_peer x = None ->
  (forall w', wf (H ∖ {[s]}) w' -> frame {[s]} w w' -> gone s w' -> w_sent w' = w_sent w -> Q tt w') ->
  wp (local_socket_finish s) Q w.
Proof.
  intros I Hs Hx Hk Hp HQ. unfold local_socket_finish. apply wp_bind. eapply wp_load_sock; [done|].
  destruct (s_closing x || s_has_write_error x || bool_decide (s_pkts x = [])) eqn:Hb.
  { eapply wp_local_destroy; [done..|]. intros w' Hd Hf Hg Hsent. apply HQ; [|done..].
    eapply wf_delete; [done|done|]. intros q y Hne Hq Hy Hpy.
    destruct (q_peer _ _ _ _ (wf_quiet _ _ I q y Hq Hy) s Hpy) as (_ & z & Hz & Hzp). congruence. }
  apply orb_false_iff in Hb as [Hb Hpk%bool_decide_eq_false]. apply orb_false_iff in Hb as [Hc Herr].
  pose proof (wf_kind _ _ I _ _ Hx) as Hkind. unfold kind_ok in Hkind. rewrite Hk, Hc in Hkind.
  destruct Hkind as (Hrc & Hsh & (e & He & Ha & Hfd & Hfn & Hdc & Hwr) & Hloc).
  apply wp_bind. eapply wp_upd_sock; [done|]. apply wp_bind, wp_on_fds.
  eapply wp_fdevent_del; [apply (wf_fd _ _ I)|done|done|].
  intros st e' Ist F He' Ha' Hfd' Hfn' _ _ Hw' Hd'.
  apply wp_bind. eapply wp_remove_socket; cbn; [by rewrite lookup_insert_eq|done|].
  rewrite (off_closing H s x w) by eauto. rewrite insert_insert_eq.
  apply wp_bind, wp_modify. cbn. apply wp_bind, wp_on_fds. cbn. eapply wp_load; [done|]. cbn.
  assert (Hwt : flag (fde_state e') FDE_WRITE = true) by (rewrite Hw', Hwr by done; done).
  apply wp_check; [done|].
  destruct (wf_move_closing H s x w st e') as (Hwf & Hf & Hg); try done; try congruence.
  { by rewrite Hd', Hdc. }
  by apply HQ.
Qed.

(** What every way to close promises about a socket with no peer. *)
Definition leaf_post H s w (Q : unit -> world E -> Prop) : Prop :=
  forall w', wf (H ∖ {[s]}) w' -> frame {[s]} w w' -> gone s w' -> w_sent w' = w_sent w -> Q tt w'.

(** [w1]: the lists no longer hold [s], nothing else that matters changed. *)
Definition unlisted (s : loc) (w w1 : world E) : Prop :=
  w_fds w1 = w_fds w /\ delete s (w_socks w1) = delete s (w_socks w) /\
  w_local w1 = filter (fun l => l <> s) (w_local w) /\
  w_closing w1 = filter (fun l => l <> s) (w_closing w) /\
  w_trackers w1 = filter (fun l => l <> s) (w_trackers w) /\
  w_jdwp_trackers w1 = filter (fun l => l <> s) (w_jdwp_trackers w) /\
  w_transports w1 = w_transports w /\ w_transport_list w1 = w_transport_list w /\
  w_next w1 = w_next w /\ w_next_id w1 = w_next_id w /\ w_sent w1 = w_sent w /\ rest_of w1 = rest_of w.

Definition unreferenced H s w : Prop :=
  forall q y, q <> s -> q ∉ H -> w_socks w !! q = Some y -> s_peer y <> Some s.

Lemma unreferenced_peer H s x w :
  wf H w -> w_socks w !! s = Some x -> (forall p, s_peer x = Some p -> p ∈ H \/ gone p w) -> unreferenced H s w.
Proof.
  intros I Hx Hp q y Hne Hq Hy Hpy.
  destruct (q_peer _ _ _ _ (wf_quiet _ _ I q y Hq Hy) s Hpy) as (_ & z & Hz & Hzp). simplify_eq.
  destruct (Hp q Hzp) as [|[_ [?|(_ & ? & ? & _ & ?)]]]; congruence.
Qed.

Lemma unreferenced_none H s x w : wf H w -> w_socks w !! s = Some x -> s_peer x = None -> unreferenced H s w.
Proof. intros I Hx Hp. eapply unreferenced_peer; [done|done|]. intros p. by rewrite Hp. Qed.

Lemma wp_free_nonlocal H s x w w1 (Q : unit -> world E -> Prop) :
  wf H w -> w_socks w !! s = Some x -> s_enqueue x <> enq_local -> unreferenced H s w ->
  unlisted s w w1 -> leaf_post H s w Q -> wp (free_sock s) Q w1.
Proof.
  intros I Hx Hk Hp (Hf & Hs & Hl & Hc & Ht & Hj & Htr & Htl & Hn & Hi & Hsent & Hre) HQ.
  apply wp_free_sock.
  assert (Hno : fdes (w_fds w) !! s = None).
  { pose proof (wf_kind _ _ I _ _ Hx) as Hkind. unfold kind_ok in Hkind.
    destruct (s_enqueue x); destruct_and?; done. }
  destruct (freed_deleted s w w1) as (Hd & Hfr & Hg); try done.
  - rewrite Hf. apply (wf_fd _ _ I).
  - intros e He. rewrite Hf, Hno in He. done.
  - intros l _. by rewrite Hf.
  - by rewrite Hf.
  - apply HQ; [|done|done|done]. by eapply wf_delete.
Qed.

(** A socket that is on no list. *)
Lemma unlisted_refl H s x w :
  wf H w -> w_socks w !! s = Some x -> ~ listed_kind x -> s_enqueue x <> enq_device_tracker -> unlisted s w w.
Proof.
  intros I Hx Hl Ht. unfold listed_kind in Hl. unfold unlisted.
  erewrite off_local, off_closing, off_trackers, off_jdwp_trackers; eauto 7.
  by split_and!.
Qed.

(** [remove_socket] on a socket that is not a local one. *)
Lemma wp_remove_jdwp H s x w (Q : unit -> world E -> Prop) :
  wf H w -> w_socks w !! s = Some x -> listed_kind x -> s_enqueue x <> enq_local ->
  (forall w1, w_fds w1 = w_fds w -> delete s (w_socks w1) = delete s (w_socks w) ->
     w_local w1 = filter (fun l => l <> s) (w_local w) ->
     w_closing w1 = filter (fun l => l <> s) (w_closing w) ->
     w_trackers w1 = w_trackers w -> w_jdwp_trackers w1 = w_jdwp_trackers w ->
     w_transports w1 = w_transports w -> w_transport_list w1 = w_transport_list w ->
     w_next w1 = w_next w -> w_next_id w1 = w_next_id w -> w_sent w1 = w_sent w -> rest_of w1 = rest_of w -> Q tt w1) ->
  wp (remove_socket s) Q w.
Proof.
  intros I Hx Hl Hk HQ. eapply wp_remove_socket; [done| |].
  - intros H1 H2. exfalso. pose proof (wf_kind _ _ I _ _ Hx) as Hkind. unfold kind_ok in Hkind.
    destruct Hl as [Hl|[Hl|Hl]]; rewrite Hl in *; destruct_and?; done.
  - apply HQ; try done. cbn. by rewrite delete_insert_eq.
Qed.

Lemma wp_leaf_local close H s x w (Q : unit -> world E -> Prop) :
  wf H w -> s ∈ H -> w_socks w !! s = Some x -> s_peer x = None -> s_enqueue x = enq_local ->
  leaf_post H s w Q -> wp (local_socket_close close s) Q w.
Proof.
  intros I Hs Hx Hp Hk HQ. unfold local_socket_close. apply wp_bind. eapply wp_load_sock; [done|].
  rewrite Hp. apply wp_bind, wp_ret. by eapply wp_local_finish.
Qed.

(** A frame from a state in which only [s] was changed before. *)
Lemma frame_upd D s x x' en w w' :
  frame D (set_w_env en (set_w_socks (<[s := x']> (w_socks w)) w)) w' ->
  w_socks w !! s = Some x -> s ∈ D -> frame D w w'.
Proof.
  intros F Hx Hs. constructor; try apply F.
  - intros q Hq. rewrite (fr_socks _ _ _ F) by done. cbn. rewrite lookup_insert_ne; [done|]. by intros <-.
  - intros q Hq%(fr_dom _ _ _ F). destruct (decide (q = s)) as [->|]; [rewrite Hx; eauto|].
    cbn in Hq. by rewrite lookup_insert_ne in Hq.
Qed.

Lemma wp_leaf_notify n H s x w (Q : unit -> world E -> Prop) :
  wf H w -> s ∈ H -> w_socks w !! s = Some x -> s_peer x = None -> s_enqueue x = enq_local ->
  leaf_post H s w Q -> wp (local_socket_close_notify (sock_close (S n)) s) Q w.
Proof.
  intros I Hs Hx Hp Hk HQ. pose proof (wf_kind _ _ I _ _ Hx) as Hkind. unfold kind_ok in Hkind. rewrite Hk in Hkind.
  destruct Hkind as (_ & Hsh & (e & Hfde) & Hpl).
  unfold local_socket_close_notify. apply wp_bind. eapply wp_upd_sock; [done|].
  set (x' := set_s_close _ _). apply wp_bind. eapply wp_load_sock; [apply lookup_insert_eq|].
  apply wp_bind, wp_SendFail_fd. intros _ en. set (w1 := set_w_env _ _).
  assert (I1 : wf H w1).
  { apply wf_set_env. eapply wf_upd; [done|done|done|done| |intros t; apply (wf_transport _ _ I _ _ t Hx)|].
    - unfold kind_ok. cbn. rewrite Hk. split_and!; [by left|done|by exists e|done].
    - intros q y Hq Hy Hpy. cbn.
      destruct (q_peer _ _ _ _ (wf_quiet _ _ I q y Hq Hy) s Hpy) as (_ & z & Hz & Hzp). congruence. }
  assert (Hx1 : w_socks w1 !! s = Some x') by apply lookup_insert_eq.
  cbn [sock_close]. apply wp_bind. eapply wp_load_sock; [exact Hx1|]. cbn [x' s_close set_s_close].
  eapply wp_leaf_local; [done|done|done|done|done|].
  intros w' Hwf Hf Hg Hse. apply HQ; [done| |done|done].
  eapply frame_upd; [exact Hf|done|set_solver].
Qed.

(** [smart_socket_close] frees the request. *)
Lemma wp_put_first l (Q : unit -> world E -> Prop) w :
  (forall n, Q tt (set_w_live n w)) ->
  wp (match l with [] => ret tt | p :: _ => put_apacket p end) Q w.
Proof.
  intros HQ. destruct l; [|apply wp_modify, HQ]. apply wp_ret. specialize (HQ (w_live w)). by destruct w.
Qed.

(** The ends of the functions that free a socket of another kind. *)
Lemma wp_tail_free H s x w (Q : unit -> world E -> Prop) :
  wf H w -> w_socks w !! s = Some x -> s_enqueue x = enq_remote \/ s_enqueue x = enq_smart ->
  unreferenced H s w -> leaf_post H s w Q -> wp (free_sock s) Q w.
Proof.
  intros I Hx Hk U HQ. eapply wp_free_nonlocal; [done|done|destruct Hk; congruence|done| |done].
  eapply unlisted_refl; [done|done|unfold listed_kind; destruct Hk; intuition congruence|destruct Hk; congruence].
Qed.

Lemma wp_tail_tracker H s x w (Q : unit -> world E -> Prop) :
  wf H w -> w_socks w !! s = Some x -> s_enqueue x = enq_device_tracker ->
  unreferenced H s w -> leaf_post H s w Q -> wp (device_tracker_remove s ;;; free_sock s) Q w.
Proof.
  intros I Hx Hk U HQ. unfold device_tracker_remove. apply wp_bind, wp_modify.
  eapply (wp_free_nonlocal H s x w); [done|done|by rewrite Hk|done| |done].
  unfold unlisted. cbn. erewrite off_local, off_closing, off_jdwp_trackers; eauto; [by split_and!|by rewrite Hk| |].
  - right. by rewrite Hk.
  - left. unfold listed_kind. rewrite Hk. naive_solver.
Qed.

Lemma wp_tail_jdwp H s x w (Q : unit -> world E -> Prop) :
  wf H w -> w_socks w !! s = Some x -> s_enqueue x = enq_jdwp ->
  unreferenced H s w -> leaf_post H s w Q -> wp (remove_socket s ;;; free_sock s) Q w.
Proof.
  intros I Hx Hk U HQ. apply wp_bind. eapply wp_remove_jdwp; [done|done|right; by left|by rewrite Hk|].
  intros w1 ? ? ? ? Ht Hj ? ? ? ? ? ?. eapply (wp_free_nonlocal H s x w); [done|done|by rewrite Hk|done| |done].
  unfold unlisted. rewrite Ht, Hj. split_and!; try done; symmetry;
    [eapply off_trackers|eapply off_jdwp_trackers]; try done; by rewrite Hk.
Qed.

Lemma wp_tail_jdwp_tracker H s x w (Q : unit -> world E -> Prop) :
  wf H w -> w_socks w !! s = Some x -> s_enqueue x = enq_jdwp_tracker ->
  unreferenced H s w -> leaf_post H s w Q ->
  wp (remove_socket s ;;;
      let* w := get in
      when (bool_decide (s ∈ w_jdwp_trackers w)) (
        modify (fun w => set_w_jdwp_trackers (filter (fun r => r <> s) (w_jdwp_trackers w)) w) ;;;
        free_sock s)) Q w.
Proof.
  intros I Hx Hk U HQ. pose proof (wf_kind _ _ I _ _ Hx) as Hkind. unfold kind_ok in Hkind. rewrite Hk in Hkind.
  destruct Hkind as (_ & _ & _ & _ & _ & _ & Hjt & _).
  apply wp_bind. eapply wp_remove_jdwp; [done|done|right; by right|by rewrite Hk|].
  intros w1 ? ? ? ? Ht Hj ? ? ? ? ? ?. apply wp_bind, wp_get. rewrite Hj. rewrite bool_decide_true by done.
  apply wp_bind, wp_modify. eapply (wp_free_nonlocal H s x w); [done|done|by rewrite Hk|done| |done].
  unfold unlisted. cbn. rewrite Hj, Ht. split_and!; try done. symmetry. eapply off_trackers; try done; by rewrite Hk.
Qed.

Lemma wp_close_leaf n H s x w (Q : unit -> world E -> Prop) :
  2 <= n -> wf H w -> s ∈ H -> w_socks w !! s = Some x -> s_peer x = None -> leaf_post H s w Q ->
  wp (sock_close n s) Q w.
Proof.
  intros Hn I Hs Hx Hp HQ. destruct n as [|[|n]]; [lia|lia|].
  pose proof (unreferenced_none H s x w I Hx Hp) as U.
  pose proof (wf_kind _ _ I _ _ Hx) as Hkind. unfold kind_ok in Hkind.
  remember (S n) as m. cbn [sock_close]. apply wp_bind. eapply wp_load_sock; [done|].
  destruct (s_enqueue x) eqn:Hk.
  { destruct Hkind as ([[_ ->]|[_ ->]] & _); [by eapply wp_leaf_local|subst m; by eapply wp_leaf_notify]. }
  all: destruct Hkind as (_ & -> & _).
  - unfold remote_socket_close. apply wp_bind. eapply wp_load_sock; [done|].
    rewrite Hp. apply wp_bind, wp_ret. eapply wp_tail_free; eauto.
  - unfold smart_socket_close. apply wp_bind. eapply wp_load_sock; [done|].
    apply wp_bind, wp_put_first. intros k. rewrite Hp. apply wp_bind, wp_ret.
    eapply (wp_tail_free H s x (set_w_live k w)); eauto using wf_set_live.
    intros w' ? F ? ?. apply HQ; try done. destruct F. by constructor.
  - unfold device_tracker_close. apply wp_bind. eapply wp_load_sock; [done|].
    rewrite Hp. apply wp_bind, wp_ret. eapply wp_tail_tracker; eauto.
  - unfold jdwp_socket_close. apply wp_bind. eapply wp_load_sock; [done|].
    rewrite Hp. apply wp_bind, wp_ret. eapply wp_tail_jdwp; eauto.
  - unfold jdwp_tracker_close. apply wp_bind. eapply wp_load_sock; [done|].
    rewrite Hp. apply wp_bind, wp_ret. eapply wp_tail_jdwp_tracker; eauto.
Qed.

End Leaf.

(** ** A socket with a peer *)

Section Full.
Context {E : Type} {K : Kernel E} {KL : KernelLaws E}.
Implicit Types (w : world E) (s p : loc) (x y : asocket) (H : gset loc).

Lemma frame_upd1 s x x' w : w_socks w !! s = Some x -> frame {[s]} w (set_w_socks (<[s := x']> (w_socks w)) w).
Proof.
  intros Hx. constructor; cbn; try done.
  - intros q Hq%not_elem_of_singleton. by rewrite lookup_insert_ne.
  - intros q Hq. destruct (decide (q = s)) as [->|]; [rewrite Hx; eauto|]. by rewrite lookup_insert_ne in Hq.
Qed.

Lemma gone_frame D s w w' : gone s w -> frame D w w' -> s ∉ D -> gone s w'.
Proof.
  intros [Hl Hg] F Hs. split; [intros Hin; by apply Hl, (fr_local _ _ _ F)|].
  rewrite (fr_socks _ _ _ F) by done. destruct Hg as [?|[Hc ?]]; [by left|right].
  split; [by apply (fr_closing _ _ _ F)|done].
Qed.

(** The two ends of a connection. *)
Definition linked w s x p y : Prop :=
  w_socks w !! s = Some x /\ w_socks w !! p = Some y /\ s_peer x = Some p /\ s_peer y = Some s /\ p <> s.

(** Cutting one end off. *)
Lemma wf_detach H s x w :
  wf H w -> s ∈ H -> w_socks w !! s = Some x -> unreferenced H s w ->
  wf H (set_w_socks (<[s := set_s_peer None x]> (w_socks w)) w).
Proof.
  intros I Hs Hx Hp. eapply wf_upd; [done|done|done|done| |intros t; apply (wf_transport _ _ I s x t Hx)|].
  - pose proof (wf_kind _ _ I _ _ Hx) as Hk. unfold kind_ok, fde_of in *. cbn.
    destruct (s_enqueue x); destruct_and?; split_and!; try done. destruct (s_closing x); destruct_and?; done.
  - intros q y Hq Hy Hpy. exfalso. apply (Hp q y); [by intros ->|done|done|done].
Qed.

(** [s->peer->shutdown(s->peer)]: a remote peer sends the close message. *)
Definition close_message w x y : list (loc * apacket) :=
  match s_enqueue y, s_transport y with
  | enq_remote, Some t => [(t, seal_packet (mk_packet A_CLSE (s_id x) (s_id y) []))]
  | _, _ => []
  end.

Lemma wp_shutdown_peer H s x p y w (Q : unit -> world E -> Prop) :
  wf H w -> linked w s x p y ->
  (forall w', wf H w' -> w_socks w' = w_socks w -> frame ∅ w w' ->
     w_sent w' = w_sent w ++ close_message w x y -> Q tt w') ->
  wp (shutdown_of p (s_shutdown y)) Q w.
Proof.
  intros I (Hx & Hy & Hxp & Hyp & Hne) HQ.
  pose proof (wf_kind _ _ I _ _ Hy) as Hk. unfold kind_ok in Hk.
  assert (Hnone : s_shutdown y = None -> s_enqueue y <> enq_remote -> wp (shutdown_of p (s_shutdown y)) Q w).
  { intros -> Hr. apply wp_ret, HQ; [done|done|apply frame_refl|].
    unfold close_message. destruct (s_enqueue y); by rewrite ?app_nil_r. }
  destruct (s_enqueue y) eqn:He; destruct_and?; try (apply Hnone; [done|by rewrite ?He]).
  match goal with H : s_shutdown y = Some _ |- _ => rewrite H end.
  match goal with H : is_Some (s_transport y) |- _ => destruct H as [t Ht] end.
  destruct (wf_transport _ _ I _ _ t Hy Ht) as [tx Htx].
  cbn. unfold remote_socket_shutdown. apply wp_bind. eapply wp_load_sock; [done|]. rewrite Hyp, Ht.
  apply wp_bind. apply wp_bind, wp_modify, wp_ret.
  apply wp_bind. apply wp_bind. eapply wp_load_sock; [exact Hx|]. apply wp_ret.
  eapply wp_send_packet; [exact Htx|]. intros en n. apply HQ.
  - by apply wf_set_live, wf_set_sent, wf_set_env, wf_set_live.
  - done.
  - by constructor.
  - unfold close_message. by rewrite He, Ht.
Qed.

(** The sockets and messages that closing [s] concerns. *)
Definition peer_set (x : asocket) : gset loc := match s_peer x with Some p => {[p]} | None => ∅ end.

Definition close_sends w x : list (loc * apacket) :=
  match s_enqueue x, s_peer x with
  | enq_local, Some p => match w_socks w !! p with Some y => close_message w x y | None => [] end
  | _, _ => []
  end.

Definition peer_ok w s x : Prop := forall p, s_peer x = Some p -> exists y, linked w s x p y.

(** What closing [s] promises. *)
Definition close_post s x w (Q : unit -> world E -> Prop) : Prop :=
  forall w', wf ∅ w' -> frame ({[s]} ∪ peer_set x) w w' -> gone s w' ->
    (forall p, s_peer x = Some p -> gone p w') -> w_sent w' = w_sent w ++ close_sends w x -> Q tt w'.

(** Calling [close] on the peer, once it is cut off from [s]. *)
Lemma wp_close_peer n s x p y w (Q : unit -> world E -> Prop) :
  2 <= n -> wf {[s]} w -> linked w s x p y ->
  (forall w', wf {[s]} w' -> w_socks w' !! s = Some x -> frame {[p]} w w' -> gone p w' ->
     w_sent w' = w_sent w -> Q tt w') ->
  wp (upd_sock p (set_s_peer None) ;;; sock_close n p) Q w.
Proof.
  intros Hn I (Hx & Hy & Hxp & Hyp & Hne) HQ.
  apply wp_bind. eapply wp_upd_sock; [done|]. set (w1 := set_w_socks _ w).
  assert (I1 : wf ({[p]} ∪ {[s]}) w1).
  { assert (wf ({[p]} ∪ {[s]}) w) by (eapply wf_weaken; [done|set_solver]).
    apply wf_detach; [done|set_solver|done|]. eapply unreferenced_peer; [done|done|].
    intros q Hq. rewrite Hyp in Hq. injection Hq as <-. left. set_solver. }
  eapply wp_close_leaf; [done|exact I1|set_solver|apply lookup_insert_eq|done|].
  intros w' Hwf F Hg Hs. apply HQ.
  - eapply wf_weaken; [exact Hwf|set_solver].
  - rewrite (fr_socks _ _ _ F) by set_solver. cbn. by rewrite lookup_insert_ne.
  - eapply frame_mono; [eapply frame_trans; [eapply frame_upd1; exact Hy|exact F]|set_solver].
  - done.
  - done.
Qed.

Lemma wp_close_peer_then {B} n s x p y (m : M (world E) B) w (Q : B -> world E -> Prop) :
  2 <= n -> wf {[s]} w -> linked w s x p y ->
  (forall w', wf {[s]} w' -> w_socks w' !! s = Some x -> frame {[p]} w w' -> gone p w' ->
     w_sent w' = w_sent w -> wp m Q w') ->
  wp (upd_sock p (set_s_peer None) ;;; sock_close n p ;;; m) Q w.
Proof.
  intros Hn I L HQ. apply wp_bind.
  eapply wp_mono; [apply (wp_bind_inv _ (fun _ => sock_close n p)), (wp_close_peer n s x p y w (fun _ => wp m Q)); done|].
  intros [] w' Hw. by apply wp_bind.
Qed.

(** The last part of closing [s], after its peer. *)
Lemma leaf_of_close s x w w1 (Q : unit -> world E -> Prop) :
  close_post s x w Q -> frame ({[s]} ∪ peer_set x) w w1 ->
  (forall p, s_peer x = Some p -> p <> s /\ gone p w1) -> w_sent w1 = w_sent w ++ close_sends w x ->
  leaf_post {[s]} s w1 Q.
Proof.
  intros HQ F1 Hp Hs w' I' F' G' Hsent. apply HQ.
  - eapply wf_weaken; [exact I'|set_solver].
  - eapply frame_mono; [eapply frame_trans; [exact F1|exact F']|set_solver].
  - done.
  - intros p Hxp. destruct (Hp p Hxp) as [Hne Hg]. eapply gone_frame; [exact Hg|exact F'|set_solver].
  - congruence.
Qed.

Lemma wp_close_local n s x w (Q : unit -> world E -> Prop) :
  2 <= n -> wf {[s]} w -> w_socks w !! s = Some x -> s_enqueue x = enq_local -> peer_ok w s x ->
  close_post s x w Q -> wp (local_socket_close (sock_close n) s) Q w.
Proof.
  intros Hn I Hx Hk Hp HQ. unfold local_socket_close. apply wp_bind. eapply wp_load_sock; [done|].
  destruct (s_peer x) as [p|] eqn:Hxp.
  - destruct (Hp p Hxp) as [y L]. pose proof L as (_ & Hy & _ & Hyp & Hne).
    apply wp_bind, wp_bind. eapply wp_load_sock; [exact Hy|]. apply wp_bind.
    eapply wp_shutdown_peer; [exact I|exact L|]. intros w1 I1 Hs1 F1 Hsent1.
    assert (L1 : linked w1 s x p y) by (unfold linked; rewrite Hs1; done).
    eapply wp_close_peer_then; [done|exact I1|exact L1|]. intros w2 I2 Hx2 F2 G2 Hsent2.
    assert (U2 : unreferenced {[s]} s w2).
    { eapply unreferenced_peer; [done|done|]. intros q Hq. right. by replace q with p by congruence. }
    eapply wp_upd_sock; [exact Hx2|]. set (w3 := set_w_socks _ w2).
    eapply (wp_local_finish {[s]} s (set_s_peer None x) w3);
      [apply wf_detach; [done|set_solver|done|done]|set_solver|apply lookup_insert_eq|done|done|].
    eapply leaf_of_close; [exact HQ| |intros q Hq; replace q with p by congruence; split; [done|]|].
    + eapply frame_mono; [eapply frame_trans; [exact F1|eapply frame_trans; [exact F2|by eapply (frame_upd1 s)]]|].
      unfold peer_set. rewrite Hxp. set_solver.
    + eapply gone_frame; [exact G2|by eapply (frame_upd1 s)|set_solver].
    + unfold close_sends. rewrite Hk, Hxp, Hy. cbn. by rewrite Hsent2, Hsent1.
  - apply wp_bind, wp_ret. eapply wp_local_finish; [done|set_solver|done|done|done|].
    eapply leaf_of_close; [exact HQ|apply frame_refl|congruence|].
    unfold close_sends. by rewrite Hk, Hxp, app_nil_r.
Qed.

(** Closing the peer, for the kinds of socket that then free themselves. *)
Definition drop_post s x w (Q : unit -> world E -> Prop) : Prop :=
  forall w' x', wf {[s]} w' -> w_socks w' !! s = Some x' -> s_enqueue x' = s_enqueue x ->
    (forall q, s_peer x' = Some q -> s_peer x = Some q) ->
    frame ({[s]} ∪ peer_set x) w w' -> (forall p, s_peer x = Some p -> p <> s /\ gone p w') ->
    w_sent w' = w_sent w -> Q tt w'.

Lemma wp_drop_peer n s x w (Q : unit -> world E -> Prop) :
  2 <= n -> wf {[s]} w -> w_socks w !! s = Some x -> peer_ok w s x -> drop_post s x w Q ->
  wp (match s_peer x with
      | None => ret tt
      | Some p => upd_sock p (set_s_peer None) ;;; sock_close n p
      end) Q w.
Proof.
  intros Hn I Hx Hp HQ. unfold drop_post, peer_set in HQ. destruct (s_peer x) as [p|] eqn:Hxp.
  - destruct (Hp p Hxp) as [y L]. eapply wp_close_peer; [done|done|exact L|].
    intros w' I' Hx' F' G' Hs'. eapply HQ; [done|exact Hx'|done|by intros q <-| |intros q [= <-]|done].
    + eapply frame_mono; [exact F'|set_solver].
    + split; [apply L|done].
  - apply wp_ret. eapply HQ; [done|exact Hx|done|congruence|apply frame_refl|done|done].
Qed.

(** The same, with [s->peer = nullptr] after it. *)
Lemma wp_drop_peer_null n s x w (Q : unit -> world E -> Prop) :
  2 <= n -> wf {[s]} w -> w_socks w !! s = Some x -> peer_ok w s x -> drop_post s x w Q ->
  wp (match s_peer x with
      | None => ret tt
      | Some p => upd_sock p (set_s_peer None) ;;; sock_close n p ;;; upd_sock s (set_s_peer None)
      end) Q w.
Proof.
  intros Hn I Hx Hp HQ. unfold drop_post, peer_set in HQ. destruct (s_peer x) as [p|] eqn:Hxp.
  - destruct (Hp p Hxp) as [y L]. eapply wp_close_peer_then; [done|done|exact L|].
    intros w' I' Hx' F' G' Hs'.
    assert (U : unreferenced {[s]} s w').
    { eapply unreferenced_peer; [done|done|]. intros q Hq. right. by replace q with p by congruence. }
    eapply wp_upd_sock; [exact Hx'|].
    eapply (HQ _ (set_s_peer None x)); [apply wf_detach; [done|set_solver|done|done]|apply lookup_insert_eq|done|done| | |done].
    + eapply frame_mono; [eapply frame_trans; [exact F'|by eapply (frame_upd1 s)]|set_solver].
    + intros q [= <-]. destruct L as (_ & _ & _ & _ & Hne). split; [done|].
      eapply gone_frame; [exact G'|by eapply (frame_upd1 s)|set_solver].
  - apply wp_ret. eapply HQ; [done|exact Hx|done|congruence|apply frame_refl|done|done].
Qed.

(** A frame from a state that differs in the environment and counters only. *)
Lemma close_post_live k s x w (Q : unit -> world E -> Prop) : close_post s x w Q -> close_post s x (set_w_live k w) Q.
Proof. intros HQ w' ? F ? ? ?. apply HQ; try done. destruct F. by constructor. Qed.

Lemma close_sends_nonlocal w x : s_enqueue x <> enq_local -> close_sends w x = [].
Proof. unfold close_sends. by destruct (s_enqueue x). Qed.

(** From what dropping the peer promises to what the last part needs. *)
Lemma wp_dropped s x w (Q : unit -> world E -> Prop) (tail : M (world E) unit) :
  s_enqueue x <> enq_local -> close_post s x w Q ->
  (forall w' x', wf {[s]} w' -> w_socks w' !! s = Some x' -> s_enqueue x' = s_enqueue x ->
     unreferenced {[s]} s w' -> leaf_post {[s]} s w' Q -> wp tail Q w') ->
  drop_post s x w (fun _ w' => wp tail Q w').
Proof.
  intros Hk HQ Ht w' x' I' Hx' He Hq F' Hp Hs'. eapply Ht; [done|done|done| |].
  - eapply unreferenced_peer; [done|done|]. intros q Hxq. right. by apply Hp, Hq.
  - eapply leaf_of_close; [exact HQ|done|done|]. by rewrite close_sends_nonlocal, app_nil_r.
Qed.

Lemma wp_close_kinds n s x w (Q : unit -> world E -> Prop) :
  2 <= n -> wf {[s]} w -> w_socks w !! s = Some x -> s_enqueue x <> enq_local -> peer_ok w s x ->
  close_post s x w Q -> wp (sock_close (S n) s) Q w.
Proof.
  intros Hn I Hx Hne Hp HQ. pose proof (wf_kind _ _ I _ _ Hx) as Hkind. unfold kind_ok in Hkind.
  cbn [sock_close]. apply wp_bind. eapply wp_load_sock; [done|].
  destruct (s_enqueue x) eqn:Hk; [done|destruct Hkind as (_ & -> & _)..].
  - unfold remote_socket_close. apply wp_bind. eapply wp_load_sock; [done|]. apply wp_bind.
    eapply wp_drop_peer; [done|done|done|done|]. apply wp_dropped; [by rewrite Hk|done|].
    intros. eapply wp_tail_free; eauto. left. congruence.
  - unfold smart_socket_close. apply wp_bind. eapply wp_load_sock; [done|].
    apply wp_bind, wp_put_first. intros k. apply wp_bind.
    eapply (wp_drop_peer_null n s x (set_w_live k w)); [done|by apply wf_set_live|done|done|].
    apply wp_dropped; [by rewrite Hk|by apply close_post_live|].
    intros. eapply wp_tail_free; eauto. right. congruence.
  - unfold device_tracker_close. apply wp_bind. eapply wp_load_sock; [done|]. apply wp_bind.
    eapply wp_drop_peer; [done|done|done|done|]. apply wp_dropped; [by rewrite Hk|done|].
    intros. eapply wp_tail_tracker; eauto. congruence.
  - unfold jdwp_socket_close. apply wp_bind. eapply wp_load_sock; [done|]. apply wp_bind.
    eapply wp_drop_peer_null; [done|done|done|done|]. apply wp_dropped; [by rewrite Hk|done|].
    intros. eapply wp_tail_jdwp; eauto. congruence.
  - unfold jdwp_tracker_close. apply wp_bind. eapply wp_load_sock; [done|]. apply wp_bind.
    eapply wp_drop_peer_null; [done|done|done|done|]. apply wp_dropped; [by rewrite Hk|done|].
    intros. eapply wp_tail_jdwp_tracker; eauto. congruence.
Qed.

Lemma wp_close_notify n s x w (Q : unit -> world E -> Prop) :
  2 <= n -> wf {[s]} w -> w_socks w !! s = Some x -> s_enqueue x = enq_local -> peer_ok w s x ->
  close_post s x w Q -> wp (local_socket_close_notify (sock_close (S n)) s) Q w.
Proof.
  intros Hn I Hx Hk Hp HQ. pose proof (wf_kind _ _ I _ _ Hx) as Hkind. unfold kind_ok in Hkind. rewrite Hk in Hkind.
  destruct Hkind as (_ & Hsh & (e & Hfde) & Hpl).
  unfold local_socket_close_notify. apply wp_bind. eapply wp_upd_sock; [done|].
  set (x' := set_s_close _ _). apply wp_bind. eapply wp_load_sock; [apply lookup_insert_eq|].
  apply wp_bind, wp_SendFail_fd. intros _ en. set (w1 := set_w_env _ _).
  assert (I1 : wf {[s]} w1).
  { apply wf_set_env. eapply wf_upd; [done|done|done|set_solver| |intros t; apply (wf_transport _ _ I _ _ t Hx)|].
    - unfold kind_ok. cbn. rewrite Hk. split_and!; [by left|done|by exists e|done].
    - intros q y Hq Hy Hpy. cbn.
      destruct (q_peer _ _ _ _ (wf_quiet _ _ I q y Hq Hy) s Hpy) as (_ & z & Hz & Hzp). congruence. }
  assert (Hx1 : w_socks w1 !! s = Some x') by apply lookup_insert_eq.
  assert (Hoth : forall q, q <> s -> w_socks w1 !! q = w_socks w !! q)
    by (intros q Hne; cbn; by rewrite lookup_insert_ne).
  cbn [sock_close]. apply wp_bind. eapply wp_load_sock; [exact Hx1|]. cbn [x' s_close set_s_close].
  eapply wp_close_local; [done|exact I1|exact Hx1|done| |].
  - intros p Hxp. destruct (Hp p Hxp) as (y & _ & Hy & _ & Hyp & Hne). exists y. unfold linked.
    rewrite (Hoth p) by done. split_and!; [exact Hx1|exact Hy|exact Hxp|exact Hyp|exact Hne].
  - intros w' I' F' G' Gp Hs'. apply HQ; [done| |done|done|].
    + eapply frame_upd; [exact F'|done|set_solver].
    + rewrite Hs'. f_equal. unfold close_sends. rewrite (Hk : s_enqueue x' = enq_local), Hk.
      rewrite (eq_refl : s_peer x' = s_peer x). destruct (s_peer x) as [p|] eqn:Hxp; [|done].
      destruct (Hp p Hxp) as (y & _ & Hy & _ & _ & Hne). by rewrite (Hoth p), Hy.
Qed.

(** Closing any socket, in the middle of a change to it. *)
Lemma wp_close_socket s x w (Q : unit -> world E -> Prop) :
  wf {[s]} w -> w_socks w !! s = Some x -> peer_ok w s x -> close_post s x w Q ->
  wp (close_socket s) Q w.
Proof.
  intros I Hx Hp HQ. unfold close_socket, close_depth.
  destruct (decide (s_enqueue x = enq_local)) as [Hk|Hk]; [|eapply wp_close_kinds; eauto].
  pose proof (wf_kind _ _ I _ _ Hx) as Hkind. unfold kind_ok in Hkind. rewrite Hk in Hkind.
  remember 3 as m. cbn [sock_close]. apply wp_bind. eapply wp_load_sock; [done|].
  destruct Hkind as ([[_ ->]|[_ ->]] & _).
  - eapply wp_close_local; [lia|done..].
  - subst m. eapply wp_close_notify; [lia|done..].
Qed.

(** Closing a socket of a consistent state. *)
Lemma wf_peer_ok s x w : wf ∅ w -> w_socks w !! s = Some x -> peer_ok w s x.
Proof.
  intros I Hx p Hp. destruct (q_peer _ _ _ _ (wf_quiet _ _ I s x ltac:(set_solver) Hx) p Hp) as (Hne & y & Hy & Hyp).
  exists y. by unfold linked.
Qed.

Lemma wp_close_wf s x w (Q : unit -> world E -> Prop) :
  wf ∅ w -> w_socks w !! s = Some x -> close_post s x w Q -> wp (close_socket s) Q w.
Proof.
  intros I Hx HQ. eapply wp_close_socket; [eapply wf_weaken; [done|set_solver]|done|by apply wf_peer_ok|done].
Qed.

(** ** close_all_sockets *)

(** The socket is bound to [t], or its peer is. *)
Definition bound_to w t x : Prop :=
  s_transport x = Some t \/ exists p y, s_peer x = Some p /\ w_socks w !! p = Some y /\ s_transport y = Some t.

Lemma wp_first_using t l w (Q : option loc -> world E -> Prop) :
  wf ∅ w -> (forall s, s ∈ l -> s ∈ w_local w) ->
  (forall s x, s ∈ l -> w_socks w !! s = Some x -> bound_to w t x -> Q (Some s) w) ->
  ((forall s x, s ∈ l -> w_socks w !! s = Some x -> ~ bound_to w t x) -> Q None w) ->
  wp (first_using t l) Q w.
Proof.
  intros I. induction l as [|s l IH]; intros Hl HS HN; cbn [first_using].
  - apply wp_ret, HN. set_solver.
  - destruct (wf_local _ _ I s ltac:(set_solver)) as (x & Hx & _).
    apply wp_bind. eapply wp_load_sock; [done|].
    assert (Hrest : ~ bound_to w t x -> wp (first_using t l) Q w).
    { intros Hnb. apply IH; [set_solver|intros; eapply HS; eauto; set_solver|]. intros Hno. apply HN.
      intros s' x' [->|Hin]%elem_of_cons Hx'; [congruence|by eapply Hno]. }
    destruct (bool_decide_reflect (s_transport x = Some t)) as [Ht|Ht].
    { apply wp_ret. eapply HS; [set_solver|done|by left]. }
    destruct (s_peer x) as [p|] eqn:Hp.
    + destruct (wf_peer_ok s x w I Hx p Hp) as (y & _ & Hy & _).
      apply wp_bind. eapply wp_load_sock; [done|].
      destruct (bool_decide_reflect (s_transport y = Some t)) as [Hty|Hty].
      * apply wp_ret. eapply HS; [set_solver|done|right; eauto].
      * apply Hrest. intros [?|(p' & y' & ? & ? & ?)]; congruence.
    + apply Hrest. intros [?|(p' & y' & ? & _)]; congruence.
Qed.

Lemma local_shrinks s w w' D :
  wf ∅ w' -> frame D w w' -> s ∈ w_local w -> s ∉ w_local w' -> length (w_local w') < length (w_local w).
Proof.
  intros I' F Hs Hn.
  assert (s :: w_local w' ⊆+ w_local w) as Hsub.
  { apply NoDup_submseteq; [apply NoDup_cons; split; [done|apply (wf_nodup_local _ _ I')]|].
    intros q [->|Hq]%elem_of_cons; [done|by apply (fr_local _ _ _ F)]. }
  apply submseteq_length in Hsub. cbn in Hsub. lia.
Qed.

(** Both ends of a connection are bound to the same transports. *)
Lemma bound_to_linked w t s x p y : linked w s x p y -> bound_to w t x -> bound_to w t y.
Proof.
  intros (Hx & Hy & Hxp & Hyp & _) [Ht|(p' & y' & Hp & Hy' & Ht)].
  - right. eauto.
  - left. congruence.
Qed.

(** What closing the sockets of [t] leaves: no socket of the list is bound to
    [t], and those that were not bound to it are as before. *)
Record closed_for (t : loc) w w' : Prop := {
  clf_wf : wf ∅ w';
  clf_none : forall s x, s ∈ w_local w' -> w_socks w' !! s = Some x -> ~ bound_to w' t x;
  clf_local : forall q, q ∈ w_local w' -> q ∈ w_local w;
  clf_others : forall q y, w_socks w !! q = Some y -> ~ bound_to w t y ->
    w_socks w' !! q = Some y /\ (q ∈ w_local w -> q ∈ w_local w');
  clf_dom : forall q, is_Some (w_socks w' !! q) -> is_Some (w_socks w !! q);
  clf_transports : w_transports w' = w_transports w;
  clf_list : w_transport_list w' = w_transport_list w;
  clf_next : w_next w' = w_next w;
  clf_rest : rest_of w' = rest_of w;
  clf_fdes : forall l, w_socks w !! l = None -> fdes (w_fds w') !! l = fdes (w_fds w) !! l;
  clf_trackers_sub : w_trackers w' `sublist_of` w_trackers w;
  clf_trackers : forall q y, q ∈ w_trackers w' -> w_socks w' !! q = Some y ->
    q ∈ w_trackers w /\ w_socks w !! q = Some y;
}.

(** A tracker that is closed is freed. *)
Lemma tracker_gone w q : wf ∅ w -> gone q w -> q ∉ w_trackers w.
Proof.
  intros I [_ Hg] Hq. destruct (wf_trackers _ _ I q Hq) as (x & Hx & Hk).
  destruct Hg as [|(Hcl & _)]; [congruence|]. destruct (wf_closing _ _ I q Hcl) as (y & Hy & Hky & _). congruence.
Qed.

Lemma closed_for_step t s x w w1 w' :
  wf ∅ w -> w_socks w !! s = Some x -> bound_to w t x -> frame ({[s]} ∪ peer_set x) w w1 ->
  (forall q, q ∈ ({[s]} ∪ peer_set x : gset loc) -> q ∉ w_trackers w1) -> closed_for t w1 w' ->
  closed_for t w w'.
Proof.
  intros I Hx Hb F Hgone C.
  assert (Hkeep : forall q y, w_socks w !! q = Some y -> ~ bound_to w t y -> q ∉ ({[s]} ∪ peer_set x : gset loc)).
  { intros q y Hy Hnb [->%elem_of_singleton|Hq]%elem_of_union; [congruence|].
    unfold peer_set in Hq. destruct (s_peer x) as [p|] eqn:Hp; [|set_solver]. apply elem_of_singleton in Hq as ->.
    destruct (wf_peer_ok s x w I Hx p Hp) as (z & L). pose proof L as (_ & Hz & _). simplify_eq.
    by eapply Hnb, bound_to_linked. }
  constructor; try apply C.
  - intros q Hq. by apply (fr_local _ _ _ F), (clf_local _ _ _ C).
  - intros q y Hy Hnb. pose proof (Hkeep q y Hy Hnb) as Hq.
    assert (Hy1 : w_socks w1 !! q = Some y) by (by rewrite (fr_socks _ _ _ F)).
    assert (Hnb1 : ~ bound_to w1 t y).
    { intros [Ht|(p & z & Hp & Hz & Ht)]; apply Hnb; [by left|]. right. exists p, z. split; [done|]. split; [|done].
      destruct (wf_peer_ok q y w I Hy p Hp) as (z' & L). pose proof L as (_ & Hz' & _).
      rewrite (fr_socks _ _ _ F) in Hz; [done|]. eapply (Hkeep p z'); [done|].
      intros Hbp. apply Hnb. eapply bound_to_linked; [|exact Hbp]. unfold linked in *. naive_solver. }
    destruct (clf_others _ _ _ C q y Hy1 Hnb1) as [? Hl]. split; [done|]. intros. by apply Hl, (fr_local_keep _ _ _ F).
  - intros q Hq. by apply (fr_dom _ _ _ F), (clf_dom _ _ _ C).
  - rewrite (clf_transports _ _ _ C). apply F.
  - rewrite (clf_list _ _ _ C). apply F.
  - rewrite (clf_next _ _ _ C). apply F.
  - rewrite (clf_rest _ _ _ C). apply F.
  - intros l Hl. rewrite (clf_fdes _ _ _ C).
    + apply (fr_fdes _ _ _ F). apply not_elem_of_union. split; [apply not_elem_of_singleton; congruence|].
      unfold peer_set. destruct (s_peer x) as [p|] eqn:Hp; [|set_solver]. apply not_elem_of_singleton. intros ->.
      destruct (wf_peer_ok s x w I Hx p Hp) as (z & _ & Hz & _). congruence.
    + apply eq_None_not_Some. intros Hs. apply (fr_dom _ _ _ F) in Hs. by apply eq_None_not_Some in Hl.
  - etrans; [apply (clf_trackers_sub _ _ _ C)|apply (fr_trackers_sub _ _ _ F)].
  - intros q y Hq Hy. destruct (clf_trackers _ _ _ C q y Hq Hy) as [Hq1 Hy1].
    assert (q ∉ ({[s]} ∪ peer_set x : gset loc)) as Hn by (intros Hd; by apply (Hgone q Hd)).
    split; [by apply (fr_trackers _ _ _ F)|]. by rewrite <- (fr_socks _ _ _ F).
Qed.

Lemma wp_close_all fuel t w (Q : unit -> world E -> Prop) :
  wf ∅ w -> length (w_local w) <= fuel -> (forall w', closed_for t w w' -> Q tt w') ->
  wp (close_all_loop fuel t) Q w.
Proof.
  revert w. induction fuel as [|f IH]; intros w I Hf HQ; cbn [close_all_loop];
    apply wp_bind, wp_get, wp_bind; (apply wp_first_using; [done|done| |]).
  1: { intros s x Hs. destruct (w_local w); [set_solver|cbn in Hf; lia]. }
  2: { intros s x Hs Hx Hb. apply wp_bind. eapply wp_close_wf; [done|done|].
       intros w1 I1 F1 G1 Gp1 _. pose proof G1 as [Hg _]. apply IH; [done| |].
       - pose proof (local_shrinks s w w1 _ I1 F1 Hs Hg). lia.
       - intros w' C. apply HQ. eapply closed_for_step; [done..| |done].
         intros q [->%elem_of_singleton|Hq]%elem_of_union; [by apply tracker_gone|]. apply tracker_gone; [done|].
         unfold peer_set in Hq. destruct (s_peer x); [|set_solver]. apply elem_of_singleton in Hq as ->. by apply Gp1. }
  all: intros Hno; apply wp_ret, HQ; constructor; try done; intros q Hq; done.
Qed.

End Full.
