(* ===== verification/SocketIo.v ===== *)
(** * Data through sockets, and the smart socket (sockets.cpp)

    [enqueue] and [ready] of every kind of socket, the event function of a
    local socket, the creation of sockets, and the requests a client makes to
    the server.  [Services] is what services.cpp and the request handlers of
    adb.cpp provide. *)

From S2P Require Import Prelude LibBase Packet AdbIo FdEvent Transport World SmartText.
From S2P Require Import Sockets.

(** The functions the service threads run, with their argument. *)
Inductive service_thread :=
| svc_wait_for_state (type : TransportType) (serial : bytes) (state : ConnectionState)
| svc_connect (host : bytes)
| svc_framebuffer
| svc_file_sync
| svc_remount
| svc_reboot (arg : bytes)
| svc_restart_root
| svc_restart_unroot
| svc_restart_tcp (port : Z)
| svc_restart_usb
| svc_verity (enabled : bool)
| svc_reconnect (t : option loc).

Class Services (E : Type) := {
  service_to_fd : bytes -> option loc -> M (world E) Z;
  create_service_thread : service_thread -> M (world E) Z;
  handle_host_request : bytes -> TransportType -> option bytes -> Z -> loc -> M (world E) Z;
  getuid : Z;
  log_is_debuggable : bool;
}.

Section SocketIo.
Context {E : Type} `{Kernel E} `{Build} `{LibBase} `{SetOrder} `{!Services E}.
Abbreviation W := (world E).

(** ** What the socket functions read of the transports *)

Definition transport_entries (w : W) : list (loc * atransport) :=
  omap (fun t => option_map (pair t) (w_transports w !! t)) (w_transport_list w).

Definition connection_state_of (w : W) (t : loc) : ConnectionState :=
  match w_transports w !! t with Some x => t_connection_state x | None => kCsOffline end.

Definition acquire_transport (type : TransportType) (serial : option bytes) (any : bool) : M W acquired :=
  gets (fun w => acquire_one_transport ADB_HOST no_perm_long_text vendor_keys type serial any
                   (transport_entries w) (connection_state_of w)).

Definition list_transports_text (long : bool) : M W bytes :=
  gets (fun w => list_transports no_perm_short_text (map snd (transport_entries w)) long).

(** ** The list of debuggable processes as text *)

Fixpoint jdwp_process_list (l : list (loc * JdwpProcess)) (bufferlen : Z) (temp : bytes) : bytes :=
  match l with
  | [] => temp
  | (_, proc) :: rest =>
      if (jp_pid proc <? 0)%Z then jdwp_process_list rest bufferlen temp
      else
        let next := dec (jp_pid proc) ++ [byte_of 10] in
        if (bufferlen <? Zlen temp + Zlen next)%Z then temp
        else jdwp_process_list rest bufferlen (temp ++ next)
  end.

Definition jdwp_process_list_msg (bufferlen : Z) : M W bytes :=
  if (bufferlen <? 4)%Z then fatal "invalid JDWP process list buffer size" else
  let* w := get in
  let text := jdwp_process_list (w_jdwp_list w) (bufferlen - 4) [] in
  ret (take 4 (hex_pad 4 (Zlen text)) ++ text).

(** ** enqueue *)

Definition append_packet (p : apacket) (x : asocket) : asocket := set_s_pkts (s_pkts x ++ [p]) x.

Definition local_socket_enqueue (s : loc) (p : apacket) : M W Z :=
  let* x := load_sock s in
  let p := {| len := len p; ptr := 0; msg := msg p; data := data p |} in
  let enqueue p := upd_sock s (append_packet p) ;;; on_fds (fdevent_add s FDE_WRITE) ;;; ret 1%Z in
  match s_pkts x with
  | _ :: _ => enqueue p
  | [] =>
      let* (r, p) := push_packet (s_fd x) p in
      match r with
      | PushError =>
          put_apacket p ;;;
          upd_sock s (set_s_has_write_error true) ;;;
          close_socket s ;;;
          ret 1%Z
      | PushDone => put_apacket p ;;; ret 0%Z
      | PushBlocked => enqueue p
      end
  end.

Definition remote_socket_enqueue (s : loc) (p : apacket) : M W Z :=
  let* x := load_sock s in
  let* q := deref (s_peer x) in
  let* qx := load_sock q in
  send_packet {| len := len p; ptr := ptr p; data := data p;
                 msg := {| command := A_WRTE; arg0 := s_id qx; arg1 := s_id x; data_length := u32 (len p);
                           data_check := data_check (msg p); magic := magic (msg p) |} |}
              (s_transport x) ;;;
  ret 1%Z.

Definition device_tracker_enqueue (s : loc) (p : apacket) : M W Z :=
  put_apacket p ;;;
  device_tracker_close (sock_close close_depth) s ;;;
  ret (-1)%Z.

(** [jdwp_socket_enqueue] and [jdwp_tracker_enqueue] are the same. *)
Definition jdwp_socket_enqueue (s : loc) (p : apacket) : M W Z :=
  put_apacket p ;;;
  let* x := load_sock s in
  let* q := deref (s_peer x) in
  close_socket q ;;;
  ret (-1)%Z.

(** ** ready *)

Definition remote_socket_ready (s : loc) : M W unit :=
  let* x := load_sock s in
  let* p := get_apacket in
  let* q := deref (s_peer x) in
  let* qx := load_sock q in
  send_packet (mk_packet A_OKAY (s_id qx) (s_id x) []) (s_transport x).

Section Recursive.
Context (enqueue : loc -> apacket -> M W Z) (ready : loc -> M W unit).

Definition local_socket_ready_notify (s : loc) : M W unit :=
  upd_sock s (fun x => set_s_close cls_local (set_s_shutdown None (set_s_ready rdy_local x))) ;;;
  let* x := load_sock s in
  let* _ := SendOkay_fd (s_fd x) in
  ready s.

(** A packet with the payload to deliver to a socket. *)
Definition data_packet (payload : bytes) : apacket :=
  {| len := Zlen payload; ptr := 0; msg := zero_message; data := payload |}.

(** [snprintf] into five bytes, NUL included. *)
Definition device_tracker_send (tracker : loc) (text : bytes) : M W Z :=
  let* _ := get_apacket in
  let* x := load_sock tracker in
  let* peer := deref (s_peer x) in
  enqueue peer (data_packet (take 4 (hex_pad 4 (u32 (Zlen text))) ++ text)).

Definition device_tracker_ready (s : loc) : M W unit :=
  let* x := load_sock s in
  when (s_flag x) (
    upd_sock s (set_s_flag false) ;;;
    let* transports := list_transports_text false in
    let* _ := device_tracker_send s transports in
    ret tt).

Definition jdwp_socket_ready (s : loc) : M W unit :=
  let* x := load_sock s in
  if negb (s_flag x) then
    let* _ := get_apacket in
    let* n := get_max_payload s in
    let* w := get in
    let* peer := deref (s_peer x) in
    let* _ := enqueue peer (data_packet (jdwp_process_list (w_jdwp_list w) n [])) in
    upd_sock s (set_s_flag true)
  else
    let* peer := deref (s_peer x) in close_socket peer.

Definition jdwp_tracker_ready (s : loc) : M W unit :=
  let* x := load_sock s in
  when (s_flag x) (
    let* _ := get_apacket in
    upd_sock s (set_s_flag false) ;;;
    let* n := get_max_payload s in
    let* text := jdwp_process_list_msg n in
    let* peer := deref (s_peer x) in
    let* _ := enqueue peer (data_packet text) in
    ret tt).

End Recursive.
(** ** Creating sockets *)

Definition add_sock (x : asocket) : M W loc :=
  let* s := alloc in
  modify (fun w => set_w_socks (<[s := x]> (w_socks w)) w) ;;;
  ret s.

Definition create_local_socket (fd : Z) : M W loc :=
  let* s := add_sock (set_s_fd fd (new_asocket enq_local rdy_local None cls_local)) in
  install_local_socket s ;;;
  on_fds (fdevent_install s fd (fn_local_socket s)) ;;;
  ret s.

Definition create_remote_socket (id : Z) (t : loc) : M W loc :=
  if (id =? 0)%Z then fatal "invalid remote socket id (0)"
  else add_sock (set_s_transport (Some t) (set_s_id id
         (new_asocket enq_remote rdy_remote (Some shut_remote) cls_remote))).

Definition create_device_tracker : M W loc :=
  let* s := add_sock (set_s_flag true (new_asocket enq_device_tracker rdy_device_tracker None cls_device_tracker)) in
  modify (fun w => set_w_trackers (s :: w_trackers w) w) ;;;
  ret s.

Definition create_jdwp_service_socket : M W loc :=
  let* s := add_sock (new_asocket enq_jdwp rdy_jdwp None cls_jdwp) in
  install_local_socket s ;;;
  ret s.

Definition create_jdwp_tracker_service_socket : M W loc :=
  let* s := add_sock (set_s_flag true (new_asocket enq_jdwp_tracker rdy_jdwp_tracker None cls_jdwp_tracker)) in
  install_local_socket s ;;;
  modify (fun w => set_w_jdwp_trackers (w_jdwp_trackers w ++ [s]) w) ;;;
  ret s.

Definition wait_type (name : bytes) : option (TransportType * bytes) :=
  if StartsWith name (str "local") then Some (kTransportLocal, drop 5 name)
  else if StartsWith name (str "usb") then Some (kTransportUsb, drop 3 name)
  else if StartsWith name (str "any") then Some (kTransportAny, drop 3 name)
  else None.

Definition wait_state (name : bytes) : option ConnectionState :=
  if bool_decide (name = str "-device") then Some kCsDevice
  else if bool_decide (name = str "-recovery") then Some kCsRecovery
  else if bool_decide (name = str "-sideload") then Some kCsSideload
  else if bool_decide (name = str "-bootloader") then Some kCsBootloader
  else if bool_decide (name = str "-any") then Some kCsAny
  else None.

Definition host_service_to_socket (name : bytes) (serial : option bytes) : M W (option loc) :=
  if bool_decide (name = str "track-devices") then let* s := create_device_tracker in ret (Some s)
  else if StartsWith name (str "wait-for-") then
    match wait_type (drop 9 name) with
    | None => ret None
    | Some (type, name) =>
        match wait_state name with
        | None => ret None
        | Some state =>
            let* fd := create_service_thread (svc_wait_for_state type (default [] serial) state) in
            let* s := create_local_socket fd in ret (Some s)
        end
    end
  else if is_prefix (str "connect:") name then
    let* fd := create_service_thread (svc_connect (drop 8 name)) in
    let* s := create_local_socket fd in ret (Some s)
  else ret None.

Definition exits_on_close (name : bytes) : bool :=
  (is_prefix (str "root:") name && negb (getuid =? 0)%Z && log_is_debuggable) ||
  (is_prefix (str "unroot:") name && (getuid =? 0)%Z) ||
  is_prefix (str "usb:") name || is_prefix (str "tcpip:") name.

Definition create_local_service_socket (name : bytes) (transport : option loc) : M W (option loc) :=
  if negb ADB_HOST && bool_decide (name = str "jdwp")
  then let* s := create_jdwp_service_socket in ret (Some s)
  else if negb ADB_HOST && bool_decide (name = str "track-jdwp")
  then let* s := create_jdwp_tracker_service_socket in ret (Some s)
  else
    let* fd := service_to_fd name transport in
    if (fd <? 0)%Z then ret None else
    let* s := create_local_socket fd in
    when (negb ADB_HOST && exits_on_close name) (upd_sock s (set_s_exit_on_close true)) ;;;
    ret (Some s).

Definition create_host_service_socket (name : bytes) (serial : option bytes) : M W (option loc) :=
  host_service_to_socket name serial.

Definition connect_to_remote (s : loc) (destination : bytes) : M W unit :=
  let* p := get_apacket in
  let len := (Zlen destination + 1)%Z in
  let* m := get_max_payload s in
  if (m - 1 <? len)%Z then fatal "destination oversized" else
  let* x := load_sock s in
  send_packet (mk_packet A_OPEN (s_id x) 0 (destination ++ [NUL])) (s_transport x).

(** ** The smart socket *)

(** The bytes of the request so far, in the first packet. *)
Definition smart_append (s : loc) (p : apacket) : M W (option apacket) :=
  let* x := load_sock s in
  match s_pkts x with
  | [] => upd_sock s (set_s_pkts [p]) ;;; ret (Some p)
  | first :: rest =>
      let* m := get_max_payload s in
      if (m <? len first + len p)%Z then put_apacket p ;;; ret None
      else
        let first' := {| len := len first + len p; ptr := ptr first; msg := msg first;
                         data := take (Z.to_nat (len first)) (data first) ++
                                 take (Z.to_nat (len p)) (data p) |} in
        upd_sock s (set_s_pkts (first' :: rest)) ;;;
        put_apacket p ;;;
        ret (Some first')
  end.

(** [service], [type] and [serial] as the prefixes of the request set them;
    [None]: the request is not for the server itself. *)
Definition parse_host_prefix (request : bytes) : option (bytes * TransportType * option bytes) :=
  if is_prefix (str "host-serial:") request then
    let service := drop 12 request in
    match skip_host_serial service with
    | Some e => Some (drop (S e) service, kTransportAny, Some (take e service))
    | None => Some (service, kTransportAny, None)
    end
  else if is_prefix (str "host-usb:") request then Some (drop 9 request, kTransportUsb, None)
  else if is_prefix (str "host-local:") request then Some (drop 11 request, kTransportLocal, None)
  else if is_prefix (str "host:") request then Some (drop 5 request, kTransportAny, None)
  else None.

Definition smart_fail (s : loc) : M W Z := close_socket s ;;; ret (-1)%Z.

(** [p->len = 0]. *)
Definition reset_first (x : asocket) : asocket :=
  match s_pkts x with
  | [] => x
  | p :: rest => set_s_pkts ({| len := 0; ptr := ptr p; msg := msg p; data := data p |} :: rest) x
  end.

Section Smart.
Context (ready : loc -> M W unit).

Definition smart_host_request (s : loc) (service : bytes) (type : TransportType) (serial : option bytes) : M W Z :=
  let* x := load_sock s in
  let* q := deref (s_peer x) in
  let* qx := load_sock q in
  let* r := handle_host_request service type serial (s_fd qx) s in
  if (r =? 0)%Z then smart_fail s else
  if is_prefix (str "transport") service then upd_sock s reset_first ;;; ret 0%Z else
  let* s2 := create_host_service_socket service serial in
  let* x := load_sock s in
  let* q := deref (s_peer x) in
  let* qx := load_sock q in
  match s2 with
  | None =>
      let* _ := SendFail_fd (s_fd qx) (str "unknown host service") in
      smart_fail s
  | Some s2 =>
      let* _ := SendOkay_fd (s_fd qx) in
      upd_sock q (fun x => set_s_peer (Some s2)
        (set_s_close cls_local (set_s_shutdown None (set_s_ready rdy_local x)))) ;;;
      upd_sock s2 (set_s_peer (Some q)) ;;;
      upd_sock s (set_s_peer None) ;;;
      close_socket s ;;;
      ready s2 ;;;
      ret 0%Z
  end.

(** On the device the transport is looked up here; [None]: refused. *)
Definition smart_transport (s : loc) : M W (option loc) :=
  let* x := load_sock s in
  match s_transport x with
  | Some t => ret (Some t)
  | None =>
      if ADB_HOST then ret None else
      let* r := acquire_transport kTransportAny None false in
      upd_sock s (set_s_transport (acq_result r)) ;;;
      match acq_result r with
      | Some t => ret (Some t)
      | None =>
          let* q := deref (s_peer x) in
          let* qx := load_sock q in
          let* _ := SendFail_fd (s_fd qx) (acq_error r) in
          ret None
      end
  end.

Definition smart_remote_request (s : loc) (destination : bytes) : M W Z :=
  let* t := smart_transport s in
  let* x := load_sock s in
  let* q := deref (s_peer x) in
  let* qx := load_sock q in
  match t with
  | None =>
      (if ADB_HOST
       then let* _ := SendFail_fd (s_fd qx) (str "device offline (no transport)") in ret tt
       else ret tt) ;;;
      smart_fail s
  | Some t =>
      let* tx := load_transport t in
      if bool_decide (t_connection_state tx = kCsOffline) then
        let* _ := SendFail_fd (s_fd qx) (str "device offline (transport offline)") in
        smart_fail s
      else
        upd_sock q (fun x => set_s_transport (Some t) (set_s_peer None
          (set_s_close cls_local_notify (set_s_shutdown None (set_s_ready rdy_local_notify x))))) ;;;
        connect_to_remote q destination ;;;
        upd_sock s (set_s_peer None) ;;;
        close_socket s ;;;
        ret 1%Z
  end.

Definition smart_socket_enqueue (s : loc) (p : apacket) : M W Z :=
  let* joined := smart_append s p in
  match joined with
  | None => smart_fail s
  | Some p =>
      if (len p <? 4)%Z then ret 0%Z else
      let n := unhex (data p) 4 in
      if ((n <? 1) || (MAX_PAYLOAD <? n))%Z then smart_fail s else
      if (len p <? n + 4)%Z then ret 0%Z else
      check (n + 4 <? MAX_PAYLOAD)%Z "p->data[len + 4] out of bounds" ;;;
      let text := c_str (take (Z.to_nat n) (drop 4 (data p))) in
      match (if ADB_HOST then parse_host_prefix text else None) with
      | Some (service, type, serial) => smart_host_request s service type serial
      | None => smart_remote_request s text
      end
  end.

End Smart.

(** ** The calls through the pointers *)

Fixpoint sock_enqueue (fuel : nat) (s : loc) (p : apacket) : M W Z :=
  match fuel with
  | O => no_fuel
  | S f =>
      let* x := load_sock s in
      match s_enqueue x with
      | enq_local => local_socket_enqueue s p
      | enq_remote => remote_socket_enqueue s p
      | enq_smart => smart_socket_enqueue (sock_ready f) s p
      | enq_device_tracker => device_tracker_enqueue s p
      | enq_jdwp | enq_jdwp_tracker => jdwp_socket_enqueue s p
      end
  end
with sock_ready (fuel : nat) (s : loc) : M W unit :=
  match fuel with
  | O => no_fuel
  | S f =>
      let* x := load_sock s in
      match s_ready x with
      | rdy_local => local_socket_ready s
      | rdy_local_notify => local_socket_ready_notify (sock_ready f) s
      | rdy_remote => remote_socket_ready s
      | rdy_smart => ret tt
      | rdy_device_tracker => device_tracker_ready (sock_enqueue f) s
      | rdy_jdwp => jdwp_socket_ready (sock_enqueue f) s
      | rdy_jdwp_tracker => jdwp_tracker_ready (sock_enqueue f) s
      end
  end.

(** A request to a smart socket readies a tracker, which sends to a local socket. *)
Definition call_depth : nat := 4.
Definition enqueue_socket (s : loc) (p : apacket) : M W Z := sock_enqueue call_depth s p.
Definition ready_socket (s : loc) : M W unit := sock_ready call_depth s.
Definition send_to_tracker (s : loc) (text : bytes) : M W Z := device_tracker_send enqueue_socket s text.

Definition connect_to_smartsocket (s : loc) : M W unit :=
  let* ss := add_sock (new_asocket enq_smart rdy_smart None cls_smart) in
  upd_sock s (set_s_peer (Some ss)) ;;;
  upd_sock ss (set_s_peer (Some s)) ;;;
  ready_socket s.
(** ** The event function of a local socket *)

(** [while ((p = s->pkt_first) != nullptr)]; [false]: the function returns. *)
Fixpoint drain_packets (fuel : nat) (fd : Z) (s : loc) : M W bool :=
  let* x := load_sock s in
  match s_pkts x with
  | [] => ret true
  | p :: rest =>
      match fuel with
      | O => no_fuel
      | S f =>
          let* (r, p') := push_packet fd p in
          upd_sock s (set_s_pkts (p' :: rest)) ;;;
          match r with
          | PushBlocked => ret false
          | PushError => upd_sock s (set_s_has_write_error true) ;;; close_socket s ;;; ret false
          | PushDone => upd_sock s (set_s_pkts rest) ;;; put_apacket p' ;;; drain_packets f fd s
          end
      end
  end.

Definition event_write (fd : Z) (s : loc) : M W bool :=
  let* x := load_sock s in
  let* go := drain_packets (length (s_pkts x)) fd s in
  if negb go then ret false else
  let* x := load_sock s in
  if s_closing x then close_socket s ;;; ret false
  else
    on_fds (fdevent_del s FDE_WRITE) ;;;
    let* q := deref (s_peer x) in
    ready_socket q ;;;
    ret true.

(** The bytes read, the last [r] and [is_eof]. *)
Fixpoint pull_loop (fuel : nat) (fd avail r : Z) (acc : bytes) : M E (bytes * Z * bool) :=
  if (0 <? avail)%Z then
    match fuel with
    | O => no_fuel
    | S f =>
        let* x := sys_read fd avail in
        match x with
        | RdErr EAGAIN => ret (acc, (-1)%Z, false)
        | RdErr _ => ret (acc, (-1)%Z, true)
        | RdOk [] => ret (acc, 0%Z, true)
        | RdOk bs => pull_loop f fd (avail - Zlen bs) (Zlen bs) (acc ++ bs)
        end
    end
  else ret (acc, r, false).

(** [true]: the function returns.  [s] is used again after
    [s->peer->enqueue]. *)
Definition event_read (fd : Z) (s : loc) : M W bool :=
  let* p := get_apacket in
  let* max_payload := get_max_payload s in
  let* (bs, r, is_eof) := on_env (pull_loop (Z.to_nat max_payload) fd max_payload 0 []) in
  let* x := load_sock s in
  let* r :=
    match bs, s_peer x with
    | [], _ | _, None => put_apacket p ;;; ret (Some r)
    | _, Some q =>
        let* r := enqueue_socket q {| len := Zlen bs; ptr := ptr p; msg := msg p; data := bs |} in
        if (r <? 0)%Z then ret None else
        when (0 <? r)%Z (on_fds (fdevent_del s FDE_READ)) ;;;
        ret (Some r)
    end in
  match r with
  | None => ret true
  | Some r =>
      let* e := on_fds (load s) in
      if (fde_force_eof e && (r =? 0)%Z) || is_eof
      then close_socket s ;;; ret true
      else ret false
  end.

Definition local_socket_event_func (fd ev : Z) (s : loc) : M W unit :=
  let* go := if flag ev FDE_WRITE then event_write fd s else ret true in
  when (go && flag ev FDE_READ) (let* _ := event_read fd s in ret tt).
End SocketIo.
