(* ===== verification/SocketCreate.v ===== *)
(** * Creating and connecting sockets: what the constructors establish *)

From S2P Require Import Prelude LibBase Packet AdbIo FdEvent Transport World SmartText.
From S2P Require Import Sockets SocketInv SocketClose SocketIo.

Section Create.
Context {E : Type} {K : Kernel E} {KL : KernelLaws E}.
Implicit Types (w : world E) (s p t : loc) (x y : asocket) (H : gset loc).

(** [w'] is [w] with the fresh socket [x] at [s]. *)
Record added (s : loc) (x : asocket) (w w' : world E) : Prop := {
  add_fresh : s = w_next w;
  add_socks : w_socks w' = <[s := x]> (w_socks w);
  add_fd : fd_inv (w_fds w');
  add_fdes : forall l, l <> s -> fdes (w_fds w') !! l = fdes (w_fds w) !! l;
  add_local : w_local w' = w_local w \/
    (w_local w' = w_local w ++ [s] /\ listed_kind x /\ s_closing x = false /\ s_id x = w_next_id w /\
     w_next_id w' = (w_next_id w + 1)%Z /\ (w_next_id w + 1 < 2 ^ 32)%Z);
  add_next_id : (w_next_id w <= w_next_id w' < 2 ^ 32)%Z;
  add_closing : w_closing w' = w_closing w;
  add_trackers : w_trackers w' = w_trackers w \/
    (w_trackers w' = s :: w_trackers w /\ s_enqueue x = enq_device_tracker);
  add_jdwp : w_jdwp_trackers w' = w_jdwp_trackers w \/
    (w_jdwp_trackers w' = w_jdwp_trackers w ++ [s] /\ s_enqueue x = enq_jdwp_tracker);
  add_transports : w_transports w' = w_transports w;
  add_transport_list : w_transport_list w' = w_transport_list w;
  add_next : w_next w' = Pos.succ (w_next w);
  add_sent : w_sent w' = w_sent w;
  add_rest : rest_of w' = rest_of w;
  add_pending : g_pending_list (w_fds w') = g_pending_list (w_fds w);
}.

Lemma fresh_unused H w : wf H w ->
  w_socks w !! w_next w = None /\ fdes (w_fds w) !! w_next w = None /\ w_transports w !! w_next w = None.
Proof.
  intros I. split_and!; apply eq_None_not_Some; intros Hs.
  - pose proof (wf_fresh _ _ I (w_next w) (or_introl Hs)). lia.
  - pose proof (wf_fresh _ _ I (w_next w) (or_intror (or_introl Hs))). lia.
  - pose proof (wf_fresh _ _ I (w_next w) (or_intror (or_intror Hs))). lia.
Qed.

Lemma wf_add H s x w w' :
  wf H w -> added s x w w' -> kind_ok w' s x -> s_has_write_error x = false -> s_peer x = None -> s_pkts x = [] ->
  s_closing x = false ->
  (forall e, s_enqueue x = enq_local -> fdes (w_fds w') !! s = Some e -> flag (fde_state e) FDE_WRITE = false) ->
  (forall t, s_transport x = Some t -> is_Some (w_transports w !! t)) -> wf H w'.
Proof.
  intros I A Hk Herr Hp Hpk Hc Hw Ht. pose proof (fresh_unused H w I) as (Hn & Hnf & Hnt).
  rewrite <- (add_fresh _ _ _ _ A) in Hn, Hnf, Hnt.
  assert (Hex : forall (P : loc -> asocket -> Prop) l,
    (exists x, w_socks w !! l = Some x /\ P l x) -> exists x, w_socks w' !! l = Some x /\ P l x).
  { intros P l (y & Hy & HP). exists y. rewrite (add_socks _ _ _ _ A), lookup_insert_ne; [done|]. congruence. }
  assert (Hold : forall q y, w_socks w' !! q = Some y -> q <> s -> w_socks w !! q = Some y).
  { intros q y Hy Hne. by rewrite (add_socks _ _ _ _ A), lookup_insert_ne in Hy. }
  assert (Hself : w_socks w' !! s = Some x) by (rewrite (add_socks _ _ _ _ A); apply lookup_insert_eq).
  assert (Hnl : s ∉ w_local w) by (intros (z & Hz & _)%(wf_local _ _ I); congruence).
  assert (Hin : forall q, q ∈ w_local w -> q ∈ w_local w').
  { intros q Hq. destruct (add_local _ _ _ _ A) as [->|(-> & _)]; [done|]. apply elem_of_app. by left. }
  constructor.
  - apply A.
  - intros r y Hy. destruct (decide (r = s)) as [->|Hne]; [congruence|].
    pose proof (wf_kind _ _ I r y (Hold r y Hy Hne)) as Hky. apply (kind_ok_mono w); try done.
    + by apply (add_fdes _ _ _ _ A).
    + apply Hin.
    + by rewrite (add_closing _ _ _ _ A).
    + destruct (add_trackers _ _ _ _ A) as [->|[-> _]]; set_solver.
    + destruct (add_jdwp _ _ _ _ A) as [->|[-> _]]; set_solver.
  - intros r y Hr Hy. destruct (decide (r = s)) as [->|Hne].
    + assert (y = x) as -> by congruence. constructor; try done; try congruence.
      * intros e He Hf Hwe. rewrite (Hw e He Hf) in Hwe. done.
      * intros _ Hs. rewrite Hp in Hs. by destruct Hs.
    + pose proof (Hold r y Hy Hne) as Hy0. destruct (wf_quiet _ _ I r y Hr Hy0) as [? Hpe ? ? ? Hlk ? Hsm].
      constructor; try done.
      * intros p Hpr. destruct (Hpe p Hpr) as (? & z & Hz & Hzp). split; [done|]. exists z. split; [|done].
        rewrite (add_socks _ _ _ _ A), lookup_insert_ne; [done|]. congruence.
      * intros e ? He. rewrite (add_fdes _ _ _ _ A) in He by done. eauto.
      * intros p z Hpr Hz. destruct (Hpe p Hpr) as (? & z' & Hz' & _).
        rewrite (add_socks _ _ _ _ A), lookup_insert_ne in Hz by congruence. by eapply Hlk.
      * intros p z Hl Hpr Hz. destruct (Hpe p Hpr) as (? & z' & Hz' & _).
        rewrite (add_socks _ _ _ _ A), lookup_insert_ne in Hz by congruence. by eapply Hsm.
  - intros r y t Hy. rewrite (add_transports _ _ _ _ A). destruct (decide (r = s)) as [->|Hne].
    + assert (y = x) as -> by congruence. apply Ht.
    + apply (wf_transport _ _ I r y t (Hold r y Hy Hne)).
  - pose proof (add_next_id _ _ _ _ A) as Hle.
    assert (Hr0 : forall r, r ∈ w_local w -> exists y, w_socks w' !! r = Some y /\ listed_kind y /\
       s_closing y = false /\ (0 < s_id y < w_next_id w')%Z).
    { intros r Hr. apply (Hex (fun r y => listed_kind y /\ s_closing y = false /\ (0 < s_id y < w_next_id w')%Z)).
      destruct (wf_local _ _ I r Hr) as (y & Hy & ? & ? & ?). exists y. split_and!; try done; lia. }
    intros r Hr. destruct (add_local _ _ _ _ A) as [El|(El & Hl & _ & Hid & Hni & _)]; rewrite El in Hr; [by apply Hr0|].
    apply elem_of_app in Hr as [Hr| ->%list_elem_of_singleton]; [by apply Hr0|].
    exists x. split_and!; try done; pose proof (wf_next_id _ _ I); lia.
  - intros s1 s2 x1 x2 H1 H2 Hx1 Hx2 Heq.
    assert (Hcase : forall r y, r ∈ w_local w' -> w_socks w' !! r = Some y ->
      (r ∈ w_local w /\ w_socks w !! r = Some y /\ (s_id y < w_next_id w)%Z) \/ (r = s /\ s_id y = w_next_id w)).
    { intros r y Hr Hy. assert (Hro : r ∈ w_local w -> (r ∈ w_local w /\ w_socks w !! r = Some y /\ (s_id y < w_next_id w)%Z)).
      { intros Hr'. assert (r <> s) by (intros ->; done). pose proof (Hold r y Hy ltac:(done)) as Hy'.
        destruct (wf_local _ _ I r Hr') as (y' & ? & _ & _ & ?). simplify_eq. split_and!; [done|done|lia]. }
      destruct (add_local _ _ _ _ A) as [El|(El & _ & _ & Hid & _)]; rewrite El in Hr; [auto|].
      apply elem_of_app in Hr as [Hr| ->%list_elem_of_singleton]; [auto|]. right. split; [done|]. congruence. }
    destruct (Hcase s1 x1 H1 Hx1) as [(? & ? & ?)|[? ?]], (Hcase s2 x2 H2 Hx2) as [(? & ? & ?)|[? ?]];
      [by apply (wf_ids _ _ I s1 s2 x1 x2)|lia|lia|congruence].
  - pose proof (add_next_id _ _ _ _ A). pose proof (wf_next_id _ _ I). lia.
  - rewrite (add_closing _ _ _ _ A). intros r Hr.
    apply (Hex (fun _ y => s_enqueue y = enq_local /\ s_closing y = true)). by apply (wf_closing _ _ I).
  - pose proof (wf_nodup_local _ _ I). destruct (add_local _ _ _ _ A) as [->|(-> & _)]; [done|].
    apply NoDup_app. split_and!; [done| |apply NoDup_singleton]. intros r Hr ->%list_elem_of_singleton. done.
  - rewrite (add_closing _ _ _ _ A). apply (wf_nodup_closing _ _ I).
  - intros r Hr. destruct (add_trackers _ _ _ _ A) as [Et|[Et Hkx]]; rewrite Et in Hr.
    + apply (Hex (fun _ y => s_enqueue y = enq_device_tracker)). by apply (wf_trackers _ _ I).
    + apply elem_of_cons in Hr as [->|Hr]; [by exists x|].
      apply (Hex (fun _ y => s_enqueue y = enq_device_tracker)). by apply (wf_trackers _ _ I).
  - intros r Hr. destruct (add_jdwp _ _ _ _ A) as [Et|[Et Hkx]]; rewrite Et in Hr.
    + apply (Hex (fun _ y => s_enqueue y = enq_jdwp_tracker)). by apply (wf_jdwp_trackers _ _ I).
    + apply elem_of_app in Hr as [Hr| ->%list_elem_of_singleton]; [|by exists x].
      apply (Hex (fun _ y => s_enqueue y = enq_jdwp_tracker)). by apply (wf_jdwp_trackers _ _ I).
  - intros l Hl. rewrite (add_next _ _ _ _ A). destruct (decide (l = s)) as [->|Hne]; [rewrite (add_fresh _ _ _ _ A); lia|].
    assert (l < w_next w)%positive; [|lia]. apply (wf_fresh _ _ I).
    rewrite (add_socks _ _ _ _ A), lookup_insert_ne, (add_fdes _ _ _ _ A), (add_transports _ _ _ _ A) in Hl by done. done.
Qed.

Lemma wp_add_sock x w (Q : loc -> world E -> Prop) :
  Q (w_next w) (set_w_socks (<[w_next w := x]> (w_socks w)) (set_w_next (Pos.succ (w_next w)) w)) ->
  wp (add_sock x) Q w.
Proof.
  intros HQ. unfold add_sock, alloc. apply wp_bind, wp_bind, wp_get, wp_bind, wp_modify, wp_ret.
  apply wp_bind, wp_modify, wp_ret, HQ.
Qed.

Lemma wp_install_local_socket s x w (Q : unit -> world E -> Prop) :
  w_socks w !! s = Some x -> (0 < w_next_id w < 2 ^ 32)%Z ->
  ((w_next_id w + 1 < 2 ^ 32)%Z ->
   Q tt (set_w_local (w_local w ++ [s]) (set_w_next_id (w_next_id w + 1)
          (set_w_socks (<[s := set_s_id (w_next_id w) x]> (w_socks w)) w)))) ->
  wp (install_local_socket s) Q w.
Proof.
  intros Hx Hn HQ. unfold install_local_socket. apply wp_bind, wp_get, wp_bind. eapply wp_upd_sock; [done|].
  apply wp_bind, wp_modify. destruct (Z.eqb_spec (u32 (w_next_id w + 1)) 0) as [H0|H0]; [apply wp_fatal|].
  assert (w_next_id w + 1 < 2 ^ 32)%Z as Hlt.
  { destruct (decide (w_next_id w + 1 = 2 ^ 32)%Z) as [E0|]; [|lia]. exfalso. apply H0. unfold u32. by rewrite E0. }
  apply wp_modify. unfold u32. rewrite Z.mod_small by lia. by apply HQ.
Qed.

(** What a constructor promises. *)
Definition create_post H x w (Q : loc -> world E -> Prop) : Prop :=
  forall w', added (w_next w) x w w' -> wf H w' -> Q (w_next w) w'.

Definition local_asocket (id fd : Z) : asocket :=
  set_s_id id (set_s_fd fd (new_asocket enq_local rdy_local None cls_local)).

Lemma wp_create_local_socket H fd w (Q : loc -> world E -> Prop) :
  wf H w -> (0 <= fd)%Z -> g_poll_node_map (w_fds w) !! fd = None ->
  create_post H (local_asocket (w_next_id w) fd) w Q -> wp (create_local_socket fd) Q w.
Proof.
  intros I Hfd Hpoll HQ. destruct (fresh_unused H w I) as (_ & Hnf & _).
  unfold create_local_socket. apply wp_bind, wp_add_sock.
  apply wp_bind. eapply wp_install_local_socket; [apply lookup_insert_eq|apply (wf_next_id _ _ I)|].
  cbn. intros Hlt. rewrite insert_insert_eq. apply wp_bind, wp_on_fds. cbn.
  apply wp_fdevent_install; [apply (wf_fd _ _ I)|done|done|done|]. intros st Ist. apply wp_ret.
  set (w' := set_w_fds _ _).
  assert (A : added (w_next w) (local_asocket (w_next_id w) fd) w w').
  { pose proof (wf_next_id _ _ I). constructor; cbn; try done; try lia.
    - intros l Hne. subst st. cbn. by rewrite lookup_insert_ne.
    - right. split_and!; try done. by left.
    - by left.
    - by left. }
  apply HQ; [exact A|]. eapply wf_add; [exact I|exact A| |done|done|done|done| |done].
  - unfold kind_ok. cbn. split_and!; [by left|done| |set_solver].
    eexists. unfold fde_of. cbn. rewrite lookup_insert_eq. split_and!; [reflexivity|done..].
  - intros e _ He. cbn in He. rewrite lookup_insert_eq in He. by injection He as <-.
Qed.

Lemma wp_create_remote_socket H id t tx w (Q : loc -> world E -> Prop) :
  wf H w -> id <> 0%Z -> w_transports w !! t = Some tx ->
  create_post H (set_s_transport (Some t) (set_s_id id (new_asocket enq_remote rdy_remote (Some shut_remote) cls_remote))) w Q ->
  wp (create_remote_socket id t) Q w.
Proof.
  intros I Hid Ht HQ. destruct (fresh_unused H w I) as (_ & Hnf & _). unfold create_remote_socket.
  rewrite (proj2 (Z.eqb_neq id 0) Hid). apply wp_add_sock. set (w' := set_w_socks _ _). set (x := set_s_transport _ _) in *.
  assert (A : added (w_next w) x w w').
  { pose proof (wf_next_id _ _ I). constructor; cbn; try done; try (by left); try lia. apply (wf_fd _ _ I). }
  apply HQ; [exact A|]. eapply wf_add; [exact I|exact A| |done|done|done|done|done|].
  - unfold kind_ok. cbn. split_and!; done.
  - intros t' [= <-]. eauto.
Qed.

Lemma wp_create_device_tracker H w (Q : loc -> world E -> Prop) :
  wf H w ->
  create_post H (set_s_flag true (new_asocket enq_device_tracker rdy_device_tracker None cls_device_tracker)) w Q ->
  wp create_device_tracker Q w.
Proof.
  intros I HQ. destruct (fresh_unused H w I) as (_ & Hnf & _). unfold create_device_tracker.
  apply wp_bind, wp_add_sock. apply wp_bind, wp_modify, wp_ret. set (w' := set_w_trackers _ _). set (x := set_s_flag _ _) in *.
  assert (A : added (w_next w) x w w').
  { pose proof (wf_next_id _ _ I). constructor; cbn; try done; try (by left); try lia; [apply (wf_fd _ _ I)|by right]. }
  apply HQ; [exact A|]. eapply wf_add; [exact I|exact A| |done|done|done|done|done|done].
  unfold kind_ok. cbn. split_and!; try done. set_solver.
Qed.

Lemma wp_create_jdwp_service_socket H w (Q : loc -> world E -> Prop) :
  wf H w -> create_post H (set_s_id (w_next_id w) (new_asocket enq_jdwp rdy_jdwp None cls_jdwp)) w Q ->
  wp create_jdwp_service_socket Q w.
Proof.
  intros I HQ. destruct (fresh_unused H w I) as (_ & Hnf & _). unfold create_jdwp_service_socket.
  apply wp_bind, wp_add_sock. apply wp_bind. eapply wp_install_local_socket; [apply lookup_insert_eq|apply (wf_next_id _ _ I)|].
  cbn. intros Hlt. rewrite insert_insert_eq. apply wp_ret. set (w' := set_w_local _ _). set (x := set_s_id _ _) in *.
  assert (A : added (w_next w) x w w').
  { pose proof (wf_next_id _ _ I). constructor; cbn; try done; try (by left); try lia; [apply (wf_fd _ _ I)|].
    right. split_and!; try done. right. by left. }
  apply HQ; [exact A|]. eapply wf_add; [exact I|exact A| |done|done|done|done|done|done].
  unfold kind_ok. cbn. split_and!; try done. set_solver.
Qed.

Lemma wp_create_jdwp_tracker H w (Q : loc -> world E -> Prop) :
  wf H w ->
  create_post H (set_s_id (w_next_id w) (set_s_flag true (new_asocket enq_jdwp_tracker rdy_jdwp_tracker None cls_jdwp_tracker))) w Q ->
  wp create_jdwp_tracker_service_socket Q w.
Proof.
  intros I HQ. destruct (fresh_unused H w I) as (_ & Hnf & _). unfold create_jdwp_tracker_service_socket.
  apply wp_bind, wp_add_sock. apply wp_bind. eapply wp_install_local_socket; [apply lookup_insert_eq|apply (wf_next_id _ _ I)|].
  cbn. intros Hlt. rewrite insert_insert_eq. set (w' := set_w_jdwp_trackers _ _).
  set (x := set_s_id _ _) in *.
  assert (A : added (w_next w) x w w').
  { pose proof (wf_next_id _ _ I). constructor; cbn; try done; try (by left); try lia; [apply (wf_fd _ _ I)| |by right].
    right. split_and!; try done. right. by right. }
  apply HQ; [exact A|]. eapply wf_add; [exact I|exact A| |done|done|done|done|done|done].
  unfold kind_ok. cbn. split_and!; try done; set_solver.
Qed.

(** ** Connecting two sockets *)

Lemma link_ok_sym a b : link_ok a b -> link_ok b a.
Proof. by destruct a, b. Qed.

Lemma kind_ok_peer w w' s x q :
  kind_ok w s x -> s_closing x = false -> w_fds w' = w_fds w -> w_local w' = w_local w -> w_closing w' = w_closing w ->
  w_trackers w' = w_trackers w -> w_jdwp_trackers w' = w_jdwp_trackers w -> kind_ok w' s (set_s_peer q x).
Proof.
  intros Hk Hc Hf Hl Hcl Ht Hj. unfold kind_ok, fde_of in *. rewrite Hf, Hl, Hcl, Ht, Hj. cbn.
  destruct (s_enqueue x); rewrite Hc in *; exact Hk.
Qed.

(** A tracker that is connected has sent its list already, unless it is a hole. *)
Definition flag_ok H s x : Prop := s ∈ H \/ s_enqueue x <> enq_device_tracker \/ s_flag x = false.

Definition link_state (s r : loc) (x y : asocket) w : world E :=
  set_w_socks (<[r := set_s_peer (Some s) y]> (<[s := set_s_peer (Some r) x]> (w_socks w))) w.

Lemma link_quiet_self H s x r y w :
  wf H w -> s ∉ H -> w_socks w !! s = Some x -> r <> s -> s_peer x = None -> s_closing x = false ->
  link_ok (s_enqueue x) (s_enqueue y) -> flag_ok H s x ->
  forall m, m !! r = Some (set_s_peer (Some s) y) ->
  quiet m (fdes (w_fds w)) s (set_s_peer (Some r) x).
Proof.
  intros I Hs Hx Hne Hxp Hc Hl Hf m Hm. destruct (wf_quiet _ _ I s x Hs Hx) as [Herr Hpe Hidle Hclo Hwr Hlk Hfl Hsm].
  constructor; cbn; try done.
  - intros p [= <-]. split; [done|]. eexists. split; [exact Hm|done].
  - intros p z [= <-] Hz. rewrite Hm in Hz. by injection Hz as <-.
  - intros Ht _. destruct Hf as [?|[?|?]]; done.
  - intros p z Hk _ _ _. by apply Hidle.
Qed.

Lemma wf_link H s x r y w :
  wf H w -> w_socks w !! s = Some x -> w_socks w !! r = Some y -> r <> s ->
  s_peer x = None -> s_peer y = None -> s_closing x = false -> s_closing y = false ->
  link_ok (s_enqueue x) (s_enqueue y) -> flag_ok H s x -> flag_ok H r y -> wf H (link_state s r x y w).
Proof.
  intros I Hx Hy Hne Hxp Hyp Hxc Hyc Hl Hfx Hfy.
  set (H' := {[s]} ∪ ({[r]} ∪ H) : gset loc).
  assert (Hunx : forall q z, q ∉ H' -> w_socks w !! q = Some z -> s_peer z <> Some s /\ s_peer z <> Some r).
  { intros q z Hq Hz. assert (q ∉ H) as Hq' by set_solver.
    split; intros Hp; destruct (q_peer _ _ _ _ (wf_quiet _ _ I q z Hq' Hz) _ Hp) as (_ & u & Hu & Hup); congruence. }
  assert (I1 : wf H' (set_w_socks (<[s := set_s_peer (Some r) x]> (w_socks w)) w)).
  { eapply wf_upd; [eapply wf_weaken; [exact I|set_solver]|exact Hx|done|set_solver| | |].
    - by eapply kind_ok_peer; [apply (wf_kind _ _ I)|..].
    - intros t. apply (wf_transport _ _ I s x t Hx).
    - intros q z Hq Hz Hp. exfalso. by destruct (Hunx q z Hq Hz). }
  assert (I2 : wf H' (link_state s r x y w)).
  { refine (wf_upd H' r y (set_s_peer (Some s) y) _ I1 _ _ _ _ _ _); cbn; [by rewrite lookup_insert_ne|done|set_solver| | |].
    - by eapply kind_ok_peer; [apply (wf_kind _ _ I)|..].
    - intros t. apply (wf_transport _ _ I r y t Hy).
    - intros q z Hq Hz Hp. exfalso. assert (q <> s) by set_solver. rewrite lookup_insert_ne in Hz by done.
      by destruct (Hunx q z Hq Hz). }
  assert (Hsx : w_socks (link_state s r x y w) !! s = Some (set_s_peer (Some r) x)).
  { cbn. rewrite lookup_insert_ne, lookup_insert_eq by done. done. }
  assert (Hsy : w_socks (link_state s r x y w) !! r = Some (set_s_peer (Some s) y)) by apply lookup_insert_eq.
  assert (I3 : wf ({[r]} ∪ H) (link_state s r x y w)).
  { destruct (decide (s ∈ H)); [eapply wf_weaken; [exact I2|set_solver]|]. eapply wf_fill; [exact I2|].
    intros z Hz. rewrite Hsx in Hz. injection Hz as <-. exact (link_quiet_self H s x r y w I ltac:(done) Hx Hne Hxp Hxc Hl Hfx _ Hsy). }
  destruct (decide (r ∈ H)); [eapply wf_weaken; [exact I3|set_solver]|]. eapply wf_fill; [exact I3|].
  intros z Hz. rewrite Hsy in Hz. injection Hz as <-. exact (link_quiet_self H r y s x w I ltac:(done) Hy (not_eq_sym Hne) Hyp Hyc (link_ok_sym _ _ Hl) Hfy _ Hsx).
Qed.

(** Setting the two pointers, in the order the code does. *)
Lemma wp_link s x r y (m : M (world E) unit) w (Q : unit -> world E -> Prop) :
  w_socks w !! s = Some x -> w_socks w !! r = Some y -> r <> s -> wp m Q (link_state s r x y w) ->
  wp (upd_sock s (set_s_peer (Some r)) ;;; upd_sock r (set_s_peer (Some s)) ;;; m) Q w.
Proof.
  intros Hx Hy Hne HQ. apply wp_bind. eapply wp_upd_sock; [done|]. apply wp_bind.
  eapply wp_upd_sock; [cbn; by rewrite lookup_insert_ne|]. exact HQ.
Qed.

End Create.
