(* ===== verification/SocketFlow.v ===== *)
(** * Data through the sockets: [enqueue], [ready] and the event function keep
      the invariant *)

From S2P Require Import Prelude LibBase Packet AdbIo FdEvent Transport World SmartText.
From S2P Require Import Sockets SocketInv SocketClose SocketIo SocketCreate.

Section Push.
Context {E : Type} {K : Kernel E} {KL : KernelLaws E}.
Implicit Types (w : world E) (e : E).

Lemma unsent_length p : (0 <= len p)%Z -> (Zlen (unsent p) <= len p)%Z.
Proof. intros Hp. unfold unsent. rewrite length_take. lia. Qed.

(** A relation between what is left of a packet and the environment that
    every [write] to [fd] keeps. *)
Definition push_keeps (fd : Z) (R : apacket -> E -> Prop) : Prop := forall p e r e',
  (0 < len p)%Z -> R p e -> adb_write fd (unsent p) e = (r, e') ->
  R (match r with WrOk n => if (0 <? n)%Z then advance n p else p | WrErr _ => p end) e'.

(** What is asked when only safety matters. *)
Definition any_push (p : apacket) (e : E) : Prop := True.

Lemma any_push_keeps fd : push_keeps fd any_push.
Proof. done. Qed.

(** The loop ends, and says [PushDone] only when nothing is left. *)
Lemma wp_push_loop fuel fd R p e (Q : push_result * apacket -> E -> Prop) :
  Z.to_nat (len p) <= fuel -> push_keeps fd R -> R p e ->
  (forall r p' e', R p' e' -> (r = PushDone <-> (len p' <= 0)%Z) -> (len p' <= len p)%Z -> Q (r, p') e') ->
  wp (push_loop fuel fd p) Q e.
Proof.
  intros Hf HR. revert p e Hf. induction fuel as [|f IH]; intros p e Hf Hp0 HQ; cbn [push_loop].
  - destruct (Z.ltb_spec 0 (len p)); [lia|]. apply wp_ret, HQ; try done.
  - destruct (Z.ltb_spec 0 (len p)) as [Hp|Hp]; [|apply wp_ret, HQ; done].
    apply wp_bind. unfold wp at 1, sys_write. destruct (adb_write fd (unsent p) e) as [r e'] eqn:Hw.
    pose proof (HR p e r e' Hp Hp0 Hw) as HR'.
    assert (Hstop : forall x, R p e' -> x <> PushDone -> wp (ret (x, p)) Q e').
    { intros x ? Hx. apply wp_ret, HQ; try done. split; [done|lia]. }
    destruct r as [n|[]]; try (by apply Hstop).
    pose proof (write_count _ _ _ _ _ Hw). pose proof (unsent_length p ltac:(lia)).
    destruct (Z.ltb_spec 0 n) as [Hn|Hn].
    2: by apply Hstop.
    assert (len (advance n p) <= len p - n)%Z by (cbn; unfold u64; apply Z.mod_le; lia).
    apply IH; [lia|done|]. intros r p' e'' ? ? ?. apply HQ; try done. lia.
Qed.

Lemma wp_push_packet fd R p w (Q : push_result * apacket -> world E -> Prop) :
  push_keeps fd R -> R p (w_env w) ->
  (forall r p' e', R p' e' -> (r = PushDone <-> (len p' <= 0)%Z) -> Q (r, p') (set_w_env e' w)) ->
  wp (push_packet fd p) Q w.
Proof.
  intros HR Hp HQ. unfold push_packet. eapply wp_on_env, wp_push_loop; [done..|]. intros. by apply HQ.
Qed.

(** Reading stops as soon as the buffer is full. *)
Definition pull_keeps (fd : Z) (R : bytes -> E -> Prop) : Prop := forall n acc e r e',
  (0 < n)%Z -> R acc e -> adb_read fd n e = (r, e') -> R (match r with RdOk bs => acc ++ bs | RdErr _ => acc end) e'.

(** How the loop ends: full, with nothing to read for now, or at the end. *)
Definition pull_end (avail r r' : Z) (eof : bool) (acc bs : bytes) : Prop :=
  (Zlen bs <= Zlen acc + Z.max 0 avail)%Z /\
  (eof = true \/ (Zlen acc + Z.max 0 avail <= Zlen bs)%Z \/ (r' = -1)%Z).

Lemma wp_pull_loop fuel fd R avail r acc e (Q : bytes * Z * bool -> E -> Prop) :
  Z.to_nat avail <= fuel -> pull_keeps fd R -> R acc e ->
  (forall bs r' eof e', R bs e' -> pull_end avail r r' eof acc bs -> Q (bs, r', eof) e') ->
  wp (pull_loop fuel fd avail r acc) Q e.
Proof.
  unfold pull_end. intros Hf HR. revert avail r acc e Hf.
  induction fuel as [|f IH]; intros avail r acc e Hf Hacc HQ; cbn [pull_loop].
  - destruct (Z.ltb_spec 0 avail); [lia|]. apply wp_ret, HQ; [done|lia].
  - destruct (Z.ltb_spec 0 avail) as [Hp|Hp]; [|apply wp_ret, HQ; [done|lia]].
    apply wp_bind. unfold wp at 1, sys_read. destruct (adb_read fd avail e) as [x e'] eqn:Hr.
    pose proof (HR avail acc e x e' Hp Hacc Hr) as HR'.
    destruct x as [[|b bs]|[]]; try (apply wp_ret, HQ; [by rewrite ?app_nil_r in HR'|split; [lia|tauto]]).
    assert (Zlen (b :: bs) <= avail)%Z as Hc by (eapply read_count; [|exact Hr]; lia).
    assert (0 < Zlen (b :: bs))%Z by (cbn [length]; lia).
    apply IH; [lia|done|]. intros bs' r' eof e'' HR'' [Hb Hor]. rewrite length_app in Hb, Hor. apply HQ; [done|].
    split; [lia|]. destruct Hor as [?|[?|?]]; [by left|right; left; lia|tauto].
Qed.

End Push.

Section Flow.
Context {E : Type} {K : Kernel E} {KL : KernelLaws E}.
Context {B : Build} {LB : LibBase} {SO : SetOrder} {SV : Services E}.
Implicit Types (w : world E) (s p t : loc) (x y : asocket).

Lemma frame_env e w D : frame D w (set_w_env e w).
Proof. by constructor. Qed.

(** A change to the interest of a local socket in events. *)
Lemma wf_set_fds s x st e w :
  wf ∅ w -> w_socks w !! s = Some x -> s_enqueue x = enq_local -> fd_inv st -> fd_frame s (w_fds w) st ->
  fdes st !! s = Some e -> is_active e -> fde_fd e = s_fd x -> fde_func e = fn_local_socket s ->
  flag (fde_state e) FDE_DONT_CLOSE = false -> (flag (fde_state e) FDE_WRITE = true <-> s_pkts x <> []) ->
  wf ∅ (set_w_fds st w) /\ frame {[s]} w (set_w_fds st w).
Proof.
  intros I Hx Hk Ist F He Ha Hfd Hfn Hdc Hw.
  pose proof (wf_kind _ _ I _ _ Hx) as Hkind. unfold kind_ok in Hkind. rewrite Hk in Hkind.
  destruct Hkind as (Hrc & Hsh & _ & Hpl).
  split.
  - eapply (wf_fill ∅ s); [|intros x' Hx'; assert (x' = x) as -> by (cbn in Hx'; congruence)].
    + replace (set_w_fds st w) with (set_w_socks (<[s := x]> (w_socks w)) (set_w_fds st w))
        by (rewrite insert_id by done; by destruct w).
      eapply wf_upd_fds; [eapply wf_weaken; [exact I|set_solver]|done|done|set_solver|done| | | |].
      * intros l Hl. by apply (frame_others _ _ _ F).
      * unfold kind_ok. rewrite Hk. split_and!; [done|done| |done]. exists e. unfold fde_of. cbn. naive_solver.
      * intros t. apply (wf_transport _ _ I s x t Hx).
      * intros q y Hq Hy Hp. destruct (q_peer _ _ _ _ (wf_quiet _ _ I q y ltac:(set_solver) Hy) s Hp) as (_ & z & ? & ?). congruence.
    + destruct (wf_quiet _ _ I s x ltac:(set_solver) Hx). constructor; try done.
      intros e' _ He'. cbn in He'. assert (e' = e) as -> by congruence. apply Hw.
  - constructor; cbn; try done; [intros q Hq%not_elem_of_singleton; by apply (frame_others _ _ _ F)|apply (frame_pending _ _ _ F)].
Qed.

Lemma wf_local_fde s x w : wf ∅ w -> w_socks w !! s = Some x -> s_enqueue x = enq_local ->
  exists e, fde_of w s x e /\ (flag (fde_state e) FDE_WRITE = true <-> s_pkts x <> []).
Proof.
  intros I Hx Hk. pose proof (wf_kind _ _ I _ _ Hx) as Hkind. unfold kind_ok in Hkind. rewrite Hk in Hkind.
  destruct Hkind as (_ & _ & (e & He) & _). exists e. split; [done|]. split; [|apply He].
  destruct He as (He & _). by apply (q_write _ _ _ _ (wf_quiet _ _ I s x ltac:(set_solver) Hx)).
Qed.

(** [local_socket_ready]. *)
Lemma wp_local_ready s x w (Q : unit -> world E -> Prop) :
  wf ∅ w -> w_socks w !! s = Some x -> s_enqueue x = enq_local ->
  (forall st, wf ∅ (set_w_fds st w) -> frame {[s]} w (set_w_fds st w) -> Q tt (set_w_fds st w)) ->
  wp (local_socket_ready s) Q w.
Proof.
  intros I Hx Hk HQ. destruct (wf_local_fde s x w I Hx Hk) as (e & (He & Ha & Hfd & Hfn & Hdc & _) & Hw).
  unfold local_socket_ready. apply wp_on_fds. eapply wp_fdevent_add; [apply (wf_fd _ _ I)|done|done|].
  intros st e' Ist F He' Ha' Hfd' Hfn' _ _ Hw' Hd'.
  rewrite orb_false_r in Hw'. rewrite orb_false_r in Hd'.
  apply HQ; eapply (wf_set_fds s x st e' w); try done; try congruence; by rewrite Hw'.
Qed.

(** Not paying attention to readable events any more. *)
Definition reads_off (st : fdstate fd_func) s : Prop :=
  exists e, fdes st !! s = Some e /\ flag (fde_state e) FDE_READ = false.

Lemma wp_stop_reading s x w (Q : unit -> world E -> Prop) :
  wf ∅ w -> w_socks w !! s = Some x -> s_enqueue x = enq_local ->
  (forall st, wf ∅ (set_w_fds st w) -> frame {[s]} w (set_w_fds st w) -> reads_off st s -> Q tt (set_w_fds st w)) ->
  wp (on_fds (fdevent_del s FDE_READ)) Q w.
Proof.
  intros I Hx Hk HQ. destruct (wf_local_fde s x w I Hx Hk) as (e & (He & Ha & Hfd & Hfn & Hdc & _) & Hw).
  apply wp_on_fds. eapply wp_fdevent_del; [apply (wf_fd _ _ I)|done|done|].
  intros st e' Ist F He' Ha' Hfd' Hfn' _ Hrd Hw' Hd'.
  rewrite andb_true_r in Hw'. rewrite andb_false_r in Hrd.
  apply HQ; [| |by exists e'];
    eapply (wf_set_fds s x st e' w); try done; try congruence; first [by rewrite Hd', Hdc|by rewrite Hw'].
Qed.

(** ** Closing after a change to the socket itself *)

Lemma close_post_upd s x x' w w1 (Q : unit -> world E -> Prop) :
  w_socks w1 = <[s := x']> (w_socks w) -> frame {[s]} w w1 -> w_sent w1 = w_sent w ->
  s_enqueue x' = s_enqueue x -> s_peer x' = s_peer x -> s_id x' = s_id x -> peer_ok w s x ->
  close_post s x w Q -> close_post s x' w1 Q.
Proof.
  intros Hs F Hsent He Hp Hid Hok HQ w' I' F' G' Gp Hs'. apply HQ; [done| |done|by rewrite <- Hp|].
  - eapply frame_mono; [eapply frame_trans; [exact F|exact F']|]. unfold peer_set. rewrite Hp. set_solver.
  - rewrite Hs', Hsent. f_equal. unfold close_sends, close_message. rewrite He, Hp, Hid.
    destruct (s_enqueue x); try done. destruct (s_peer x) as [p|] eqn:Hxp; [|done].
    destruct (Hok p Hxp) as (y & _ & Hy & _ & _ & Hne). by rewrite Hs, lookup_insert_ne, Hy by done.
Qed.

Lemma peer_ok_upd s x x' w w1 :
  w_socks w1 = <[s := x']> (w_socks w) -> s_peer x' = s_peer x -> peer_ok w s x -> peer_ok w1 s x'.
Proof.
  intros Hs Hp Hok p Hxp. rewrite Hp in Hxp. destruct (Hok p Hxp) as (y & Hx & Hy & _ & Hyp & Hne).
  exists y. unfold linked. rewrite Hs, lookup_insert_eq, lookup_insert_ne by done. split_and!; congruence.
Qed.

(** A change to a local socket that leaves its event object as it is. *)
Lemma wf_upd_local s x x' w :
  wf ∅ w -> w_socks w !! s = Some x -> s_enqueue x = enq_local -> same_place x x' ->
  s_peer x' = s_peer x -> s_transport x' = s_transport x -> s_ready x' = s_ready x -> s_close x' = s_close x ->
  s_shutdown x' = s_shutdown x -> s_fd x' = s_fd x -> (s_pkts x' <> [] -> s_pkts x <> []) ->
  wf {[s]} (set_w_socks (<[s := x']> (w_socks w)) w) /\
  frame {[s]} w (set_w_socks (<[s := x']> (w_socks w)) w).
Proof.
  intros I Hx Hk Hpl Hp Ht Hr Hc Hsh Hfd Hpk. split; [|by eapply frame_upd1].
  eapply wf_upd; [eapply wf_weaken; [exact I|set_solver]|exact Hx|done|set_solver| | |].
  - pose proof (wf_kind _ _ I _ _ Hx) as Hkind. unfold kind_ok, fde_of in *.
    destruct Hpl as (He & Hcl & _). rewrite He, Hk in *. rewrite Hr, Hc, Hsh, Hcl, Hfd, Hp.
    destruct Hkind as (? & ? & (e & ? & ? & ? & ? & ? & ?) & ?). split_and!; try done. exists e. by split_and!; auto.
  - intros t. rewrite Ht. apply (wf_transport _ _ I s x t Hx).
  - intros q y Hq Hy Hpy. rewrite Hp.
    destruct (q_peer _ _ _ _ (wf_quiet _ _ I q y ltac:(set_solver) Hy) s Hpy) as (_ & z & ? & ?). congruence.
Qed.

Lemma frame_upd_fds s x x' st w :
  w_socks w !! s = Some x -> fd_frame s (w_fds w) st ->
  frame {[s]} w (set_w_fds st (set_w_socks (<[s := x']> (w_socks w)) w)).
Proof.
  intros Hx F. destruct (frame_upd1 s x x' w Hx). constructor; cbn in *; try done.
  - intros q Hq%not_elem_of_singleton. by apply (frame_others _ _ _ F).
  - apply (frame_pending _ _ _ F).
Qed.

(** ** enqueue on a local socket *)

(** What [local_socket_enqueue] starts from. *)
Definition rewound (pk : apacket) : apacket :=
  {| len := len pk; ptr := 0; msg := msg pk; data := data pk |}.

(** Either the socket stays, with its place and its peer, or it is closed.
    The result tells whether the packet is written or waits at the end of the
    queue; [R] relates what is left of it to the environment. *)
Definition same_socket x x' : Prop :=
  s_enqueue x' = s_enqueue x /\ s_peer x' = s_peer x /\ s_id x' = s_id x /\ s_closing x' = s_closing x /\
  s_transport x' = s_transport x.

Definition enqueue_result (R : apacket -> E -> Prop) x x' (r : Z) (e : E) : Prop :=
  exists p : apacket, R p e /\
    ((r = 0)%Z /\ (len p <= 0)%Z /\ s_pkts x = [] /\ s_pkts x' = [] \/ (r = 1)%Z /\ s_pkts x' = s_pkts x ++ [p]).

Definition enqueue_stay R s x w (Q : Z -> world E -> Prop) : Prop :=
  forall r w' x', enqueue_result R x x' r (w_env w') -> wf ∅ w' -> frame {[s]} w w' -> w_socks w' !! s = Some x' ->
    same_socket x x' -> w_sent w' = w_sent w -> Q r w'.

(** The peer that hands over data is not a smart socket. *)
Definition takes_data w x : Prop :=
  exists q y, s_peer x = Some q /\ w_socks w !! q = Some y /\ s_enqueue y <> enq_smart.

Lemma wp_append_packet R s x (pk : apacket) w (Q : Z -> world E -> Prop) :
  wf ∅ w -> w_socks w !! s = Some x -> s_enqueue x = enq_local -> takes_data w x -> R pk (w_env w) ->
  enqueue_stay R s x w Q ->
  wp (upd_sock s (append_packet pk) ;;; on_fds (fdevent_add s FDE_WRITE) ;;; ret 1%Z) Q w.
Proof.
  intros I Hx Hk (q & y & Hq & Hy & Hns) HR HQ. destruct (wf_local_fde s x w I Hx Hk) as (e & (He & Ha & Hfd & Hfn & Hdc & _) & Hw).
  pose proof (wf_kind _ _ I _ _ Hx) as Hkind. unfold kind_ok in Hkind. rewrite Hk in Hkind.
  destruct Hkind as (Hrc & Hsh & _ & Hpl).
  apply wp_bind. eapply wp_upd_sock; [done|]. apply wp_bind, wp_on_fds. cbn.
  eapply wp_fdevent_add; [apply (wf_fd _ _ I)|done|done|].
  intros st e' Ist F He' Ha' Hfd' Hfn' _ _ Hw' Hd'. rewrite orb_false_r in Hd'.
  assert (Hwt : flag (fde_state e') FDE_WRITE = true) by (rewrite Hw'; apply orb_true_r).
  apply wp_ret. set (x' := append_packet pk x).
  assert (Hne : s_pkts x' <> []) by (cbn; by destruct (s_pkts x)).
  eapply (HQ 1%Z _ x'); [by exists pk; split; [|right]| | |apply lookup_insert_eq|done|done].
  - eapply (wf_fill ∅ s); [|intros z Hz; cbn in Hz; rewrite lookup_insert_eq in Hz; injection Hz as <-].
    + eapply wf_upd_fds; [eapply wf_weaken; [exact I|set_solver]|done|done|set_solver|done| | | |].
      * intros l Hl. by apply (frame_others _ _ _ F).
      * unfold kind_ok. cbn. rewrite Hk. split_and!; [done|done| |done]. exists e'. unfold fde_of. cbn.
        split_and!; try done; congruence.
      * intros t. apply (wf_transport _ _ I s x t Hx).
      * intros r z Hr Hz Hp. destruct (q_peer _ _ _ _ (wf_quiet _ _ I r z ltac:(set_solver) Hz) s Hp) as (_ & u & ? & ?).
        cbn. congruence.
    + destruct (wf_quiet _ _ I s x ltac:(set_solver) Hx) as [? Hpe ? ? ? Hlk ? Hsm]. constructor; try done.
      * intros r Hr. destruct (Hpe r Hr) as (Hrs & z & Hz & Hzp). split; [done|]. exists z. cbn.
        by rewrite lookup_insert_ne.
      * intros _ _ Hn. cbn in Hn. congruence.
      * intros r z Hr Hz. cbn in Hr, Hz. destruct (Hpe r Hr) as (Hrs & _). rewrite lookup_insert_ne in Hz by done.
        by eapply Hlk.
      * intros r z _ Hr Hz Hsz. cbn in Hr, Hz. destruct (Hpe r Hr) as (Hrs & _). rewrite lookup_insert_ne in Hz by done.
        congruence.
  - by eapply (frame_upd_fds s x x').
Qed.

Lemma same_socket_refl x : same_socket x x.
Proof. by split_and!. Qed.

Lemma wp_local_enqueue R s x (pk : apacket) w (Q : Z -> world E -> Prop) :
  wf ∅ w -> w_socks w !! s = Some x -> s_enqueue x = enq_local -> takes_data w x ->
  (s_pkts x = [] -> push_keeps (s_fd x) R) -> R (rewound pk) (w_env w) ->
  enqueue_stay R s x w Q -> close_post s x w (fun _ => Q 1%Z) ->
  wp (local_socket_enqueue s pk) Q w.
Proof.
  intros I Hx Hk Hp HRk HR HS HC. unfold local_socket_enqueue. apply wp_bind. eapply wp_load_sock; [done|].
  destruct (s_pkts x) as [|p0 rest] eqn:Hpk; [|by eapply wp_append_packet].
  eapply wp_bind, wp_push_packet; [by apply HRk|exact HR|]. intros r p' e HR' Hr. set (w1 := set_w_env e w).
  assert (I1 : wf ∅ w1) by by apply wf_set_env.
  assert (HS1 : enqueue_stay R s x w1 Q).
  { intros r' w' x' Hr' I' F' Hx' Hs' Hse. eapply (HS r' w' x'); try done. destruct F'. by constructor. }
  destruct r.
  - apply wp_bind, wp_modify, wp_ret. eapply (HS1 0%Z _ x); [exists p'; naive_solver|by apply wf_set_live|by constructor|done|apply same_socket_refl|done].
  - by eapply wp_append_packet.
  - apply wp_bind, wp_modify. apply wp_bind. eapply wp_upd_sock; [done|]. set (x' := set_s_has_write_error true x).
    set (w2 := set_w_socks _ _).
    assert (wf {[s]} w2 /\ frame {[s]} (set_w_live (w_live w1 - 1) w1) w2) as [I2 F2].
    { eapply (wf_upd_local s x x'); try done. by apply wf_set_live. }
    apply wp_bind. eapply (wp_close_socket s x'); [exact I2|apply lookup_insert_eq| |].
    + eapply (peer_ok_upd s x x' w); [done|done|by apply wf_peer_ok].
    + eapply (close_post_upd s x x' w); [done| |done|done|done|done|by apply wf_peer_ok|].
      * destruct F2. by constructor.
      * intros w' I' F' G' Gp Hs'. apply wp_ret. by apply HC.
Qed.

(** ** The other kinds *)

(** A remote socket passes the packet on and takes no more for now. *)
Definition write_message w x y (pk : apacket) : list (loc * apacket) :=
  match s_transport x with
  | Some t => [(t, seal_packet {| len := len pk; ptr := ptr pk; data := data pk;
                    msg := {| command := A_WRTE; arg0 := s_id y; arg1 := s_id x; data_length := u32 (len pk);
                              data_check := data_check (msg pk); magic := magic (msg pk) |} |})]
  | None => []
  end.

Lemma wp_remote_enqueue s x q y (pk : apacket) w (Q : Z -> world E -> Prop) :
  wf ∅ w -> linked w s x q y -> s_enqueue x = enq_remote ->
  (forall w', wf ∅ w' -> frame ∅ w w' -> w_sent w' = w_sent w ++ write_message w x y pk -> Q 1%Z w') ->
  wp (remote_socket_enqueue s pk) Q w.
Proof.
  intros I (Hx & Hy & Hxq & Hyp & Hne) Hk HQ. unfold remote_socket_enqueue.
  apply wp_bind. eapply wp_load_sock; [done|]. apply wp_bind. eapply wp_deref; [done|].
  apply wp_bind. eapply wp_load_sock; [done|].
  pose proof (wf_kind _ _ I _ _ Hx) as Hkind. unfold kind_ok in Hkind. rewrite Hk in Hkind.
  destruct Hkind as (_ & _ & _ & _ & _ & [t Ht] & _). destruct (wf_transport _ _ I s x t Hx Ht) as [tx Htx].
  rewrite Ht. apply wp_bind. eapply wp_send_packet; [done|]. intros e n. apply wp_ret, HQ.
  - by apply wf_set_live, wf_set_sent, wf_set_env.
  - by constructor.
  - unfold write_message. by rewrite Ht.
Qed.

Definition okay_message x y : list (loc * apacket) :=
  match s_transport x with
  | Some t => [(t, seal_packet (mk_packet A_OKAY (s_id y) (s_id x) []))]
  | None => []
  end.

Lemma wp_remote_ready s x q y w (Q : unit -> world E -> Prop) :
  wf ∅ w -> linked w s x q y -> s_enqueue x = enq_remote ->
  (forall w', wf ∅ w' -> frame ∅ w w' -> w_sent w' = w_sent w ++ okay_message x y -> Q tt w') ->
  wp (remote_socket_ready s) Q w.
Proof.
  intros I (Hx & Hy & Hxq & Hyp & Hne) Hk HQ. unfold remote_socket_ready.
  apply wp_bind. eapply wp_load_sock; [done|]. apply wp_bind, wp_bind, wp_modify, wp_ret.
  apply wp_bind. eapply wp_deref; [done|]. apply wp_bind. eapply wp_load_sock; [done|].
  pose proof (wf_kind _ _ I _ _ Hx) as Hkind. unfold kind_ok in Hkind. rewrite Hk in Hkind.
  destruct Hkind as (_ & _ & _ & _ & _ & [t Ht] & _). destruct (wf_transport _ _ I s x t Hx Ht) as [tx Htx].
  rewrite Ht. eapply wp_send_packet; [done|]. intros e n. apply HQ.
  - by apply wf_set_live, wf_set_sent, wf_set_env, wf_set_live.
  - by constructor.
  - unfold okay_message. by rewrite Ht.
Qed.

(** Data for a device tracker closes it, and its peer with it. *)
Lemma wp_tracker_enqueue s x (pk : apacket) w (Q : Z -> world E -> Prop) :
  wf ∅ w -> w_socks w !! s = Some x -> s_enqueue x = enq_device_tracker ->
  close_post s x w (fun _ => Q (-1)%Z) -> wp (device_tracker_enqueue s pk) Q w.
Proof.
  intros I Hx Hk HQ. unfold device_tracker_enqueue. apply wp_bind, wp_modify. apply wp_bind.
  unfold device_tracker_close. apply wp_bind. eapply wp_load_sock; [done|]. apply wp_bind.
  set (w1 := set_w_live _ w).
  eapply (wp_drop_peer close_depth s x w1); [unfold close_depth; lia| |done| |].
  - eapply wf_weaken; [by apply wf_set_live|set_solver].
  - apply (peer_ok_upd s x x w w1); [by rewrite insert_id|done|by apply wf_peer_ok].
  - apply wp_dropped; [by rewrite Hk| |].
    + intros w' I' F' G' Gp Hs'. apply wp_ret. apply HQ; try done. destruct F'. by constructor.
    + intros w' x' I' Hx' He' U HL. eapply wp_tail_tracker; [done|done|congruence|done|done].
Qed.

(** ** ready *)

(** Turning a socket back into a plain local socket. *)
Definition plain (x : asocket) : asocket := set_s_close cls_local (set_s_shutdown None (set_s_ready rdy_local x)).

Lemma wf_plain H s x w :
  wf H w -> w_socks w !! s = Some x -> s_enqueue x = enq_local ->
  wf H (set_w_socks (<[s := plain x]> (w_socks w)) w).
Proof.
  intros I Hx Hk.
  assert (I1 : wf ({[s]} ∪ H) (set_w_socks (<[s := plain x]> (w_socks w)) w)).
  { eapply wf_upd; [eapply wf_weaken; [exact I|set_solver]|exact Hx|done|set_solver| | |].
    - pose proof (wf_kind _ _ I _ _ Hx) as Hkind. unfold kind_ok in *. cbn. rewrite Hk in *.
      destruct Hkind as (_ & _ & ? & ?). split_and!; try done. by left.
    - intros t. apply (wf_transport _ _ I s x t Hx).
    - intros q y Hq Hy Hp.
      destruct (q_peer _ _ _ _ (wf_quiet _ _ I q y ltac:(set_solver) Hy) s Hp) as (_ & z & ? & ?). cbn. congruence. }
  destruct (decide (s ∈ H)); [eapply wf_weaken; [exact I1|set_solver]|]. eapply wf_fill; [exact I1|].
  intros z Hz. cbn in Hz. rewrite lookup_insert_eq in Hz. injection Hz as <-.
  destruct (wf_quiet _ _ I s x ltac:(done) Hx) as [? Hpe ? ? ? Hlk ? Hsm]. constructor; try done.
  - intros p Hp. destruct (Hpe p Hp) as (Hne & y & Hy & Hyp). split; [done|]. exists y. cbn. by rewrite lookup_insert_ne.
  - intros p y Hp Hy. cbn in Hp, Hy. destruct (Hpe p Hp) as (Hne & _). rewrite lookup_insert_ne in Hy by done. by eapply Hlk.
  - intros p y Hl Hp Hy. cbn in Hp, Hy. destruct (Hpe p Hp) as (Hne & _). rewrite lookup_insert_ne in Hy by done. by eapply Hsm.
Qed.

Definition ready_sends (x y : asocket) : list (loc * apacket) :=
  match s_enqueue x with enq_remote => okay_message x y | _ => [] end.

(** [s->ready(s)] on a local socket. *)
Lemma wp_ready_local n s x w (Q : unit -> world E -> Prop) :
  wf ∅ w -> w_socks w !! s = Some x -> s_enqueue x = enq_local ->
  (forall w' x', wf ∅ w' -> frame {[s]} w w' -> w_socks w' !! s = Some x' -> same_socket x x' ->
     w_sent w' = w_sent w -> Q tt w') ->
  wp (sock_ready (S (S n)) s) Q w.
Proof.
  intros I Hx Hk HQ. pose proof (wf_kind _ _ I _ _ Hx) as Hkind. unfold kind_ok in Hkind. rewrite Hk in Hkind.
  remember (S n) as m. cbn [sock_ready]. apply wp_bind. eapply wp_load_sock; [done|].
  destruct Hkind as ([[-> _]|[-> _]] & _).
  - eapply wp_local_ready; [done|done|done|]. intros st I' F'. eapply HQ; [done|done|exact Hx|by split_and!|done].
  - unfold local_socket_ready_notify. apply wp_bind. eapply wp_upd_sock; [done|].
    apply wp_bind. eapply wp_load_sock; [apply lookup_insert_eq|]. apply wp_bind, wp_SendOkay_fd. intros _ e.
    set (w1 := set_w_env e _). subst m. cbn [sock_ready]. apply wp_bind.
    eapply wp_load_sock; [apply lookup_insert_eq|]. cbn [s_ready set_s_close set_s_shutdown set_s_ready].
    eapply (wp_local_ready s (plain x) w1); [by apply wf_set_env, wf_plain|apply lookup_insert_eq|done|].
    intros st I' F'. eapply (HQ _ (plain x)); [done| |apply lookup_insert_eq|by split_and!|done].
    eapply frame_upd; [exact F'|done|set_solver].
Qed.

(** [s->ready(s)] on the peer of a local socket. *)
Lemma wp_ready_peer n s x q y w (Q : unit -> world E -> Prop) :
  wf ∅ w -> linked w s x q y -> s_enqueue y = enq_local ->
  (forall w' x', wf ∅ w' -> frame {[s]} w w' -> w_socks w' !! s = Some x' -> same_socket x x' ->
     w_sent w' = w_sent w ++ ready_sends x y -> Q tt w') ->
  wp (sock_ready (S (S n)) s) Q w.
Proof.
  intros I L Hyk HQ. pose proof L as (Hx & Hy & Hxq & Hyp & Hne).
  pose proof (wf_kind _ _ I _ _ Hx) as Hkind. unfold kind_ok in Hkind.
  pose proof (wf_quiet _ _ I s x ltac:(set_solver) Hx) as Hqt.
  pose proof (q_link _ _ _ _ Hqt q y Hxq Hy) as Hlk. rewrite Hyk in Hlk.
  unfold ready_sends in HQ. destruct (decide (s_enqueue x = enq_local)) as [Hk|Hnk].
  { rewrite Hk, app_nil_r in HQ. by eapply (wp_ready_local n). }
  remember (S n) as m. cbn [sock_ready]. apply wp_bind. eapply wp_load_sock; [done|].
  destruct (s_enqueue x) eqn:Hk; try done.
  - destruct Hkind as (-> & _). eapply wp_remote_ready; [done|done|done|].
    intros w' I' F' Hs'. eapply (HQ _ x); [done|eapply frame_mono; [done|set_solver]| |by split_and!|done].
    by rewrite (fr_socks _ _ _ F').
  - destruct Hkind as (-> & _). rewrite app_nil_r in HQ. apply wp_ret.
    eapply HQ; [done|apply frame_refl|done|by split_and!|done].
  - destruct Hkind as (-> & _). rewrite app_nil_r in HQ. unfold device_tracker_ready. apply wp_bind.
    eapply wp_load_sock; [done|]. rewrite (q_flag _ _ _ _ Hqt Hk) by eauto. apply wp_ret.
    eapply HQ; [done|apply frame_refl|done|by split_and!|done].
Qed.

(** ** The event function: writing *)

(** [w] with the queue of [s] replaced, and time passed for the kernel. *)
Definition requeued s x (e : E) (n : Z) (l : list apacket) w : world E :=
  set_w_live n (set_w_env e (set_w_socks (<[s := set_s_pkts l x]> (w_socks w)) w)).

Lemma requeued_id s x w : w_socks w !! s = Some x -> requeued s x (w_env w) (w_live w) (s_pkts x) w = w.
Proof. intros Hx. unfold requeued. rewrite insert_id; [by destruct w|]. by destruct x. Qed.

Section Requeued.
Context (s : loc) (x : asocket) (w : world E).
Hypothesis (I : wf ∅ w) (Hx : w_socks w !! s = Some x) (Hk : s_enqueue x = enq_local) (Hpk : s_pkts x <> []).

Lemma requeued_self e n l : w_socks (requeued s x e n l w) !! s = Some (set_s_pkts l x).
Proof. apply lookup_insert_eq. Qed.

Lemma requeued_wf e n l : wf {[s]} (requeued s x e n l w) /\ frame {[s]} w (requeued s x e n l w).
Proof.
  destruct (wf_upd_local s x (set_s_pkts l x) w) as [I1 F1]; try done.
  split; [by apply wf_set_live, wf_set_env|]. destruct F1. by constructor.
Qed.

Lemma requeued_quiet e n l : l <> [] -> wf ∅ (requeued s x e n l w).
Proof.
  intros Hl. eapply (wf_fill ∅ s); [eapply wf_weaken; [apply requeued_wf|set_solver]|].
  intros z Hz. rewrite requeued_self in Hz. injection Hz as <-.
  destruct (wf_quiet _ _ I s x ltac:(set_solver) Hx) as [? Hpe Hid ? ? Hlk ? Hsm]. constructor; try done.
  - intros p Hp. destruct (Hpe p Hp) as (Hne & y & Hy & Hyp). split; [done|]. exists y. cbn. by rewrite lookup_insert_ne.
  - intros Hk' Hc Hp. exfalso. by apply Hpk, Hid.
  - intros p y Hp Hy. cbn in Hp, Hy. destruct (Hpe p Hp) as (Hne & _). rewrite lookup_insert_ne in Hy by done. by eapply Hlk.
  - intros p y Hlc Hp Hy. cbn in Hp, Hy. destruct (Hpe p Hp) as (Hne & _). rewrite lookup_insert_ne in Hy by done. intros Hys. exfalso. by eapply Hpk, Hsm.
Qed.

Lemma requeued_peer_ok e n l : peer_ok (requeued s x e n l w) s (set_s_pkts l x).
Proof. eapply (peer_ok_upd s x _ w); [done|done|by apply wf_peer_ok]. Qed.

Lemma requeued_twice e n l e' n' l' :
  requeued s x e' n' l' (requeued s x e n l w) = requeued s x e' n' l' w.
Proof. unfold requeued. cbn. by rewrite insert_insert_eq. Qed.

(** What the loop over the queue leaves. *)
Record drain_post (R : list apacket -> E -> Prop) (Q : bool -> world E -> Prop) : Prop := {
  dp_stop : forall e n l, R l e -> l <> [] -> Q false (requeued s x e n l w);
  dp_closed : close_post s x w (fun _ => Q false);
  dp_done : forall e n, R [] e -> Q true (requeued s x e n [] w);
}.

(** A relation on the whole queue that each write keeps, and that forgets a
    packet that is written. *)
Record drain_keeps (fd : Z) (R : list apacket -> E -> Prop) : Prop := {
  dk_push : forall rest, push_keeps fd (fun p : apacket => R (p :: rest));
  dk_pop : forall (p : apacket) rest e, (len p <= 0)%Z -> R (p :: rest) e -> R rest e;
}.

Lemma wp_drain_packets fuel fd R e n l Q :
  length l <= fuel -> drain_keeps fd R -> R l e -> drain_post R Q ->
  wp (drain_packets fuel fd s) Q (requeued s x e n l w).
Proof.
  intros Hf [HRk HRp] HR HQ. revert e n l Hf HR. induction fuel as [|f IH]; intros e n l Hf HR; cbn [drain_packets];
    apply wp_bind; (eapply wp_load_sock; [apply requeued_self|]); cbn [s_pkts set_s_pkts].
  { destruct l; [|cbn in Hf; lia]. by apply wp_ret, (dp_done _ _ HQ). }
  destruct l as [|p rest]; [by apply wp_ret, (dp_done _ _ HQ)|].
  eapply wp_bind, wp_push_packet; [apply (HRk rest)|exact HR|]. intros r p' e' HR' Hr.
  change (set_w_env e' (requeued s x e n (p :: rest) w)) with (requeued s x e' n (p :: rest) w).
  apply wp_bind. eapply wp_upd_sock; [apply requeued_self|].
  match goal with |- wp _ _ ?v => replace v with (requeued s x e' n (p' :: rest) w) end.
  2: { unfold requeued. cbn. by rewrite insert_insert_eq. }
  destruct r.
  - apply wp_bind. eapply wp_upd_sock; [apply requeued_self|]. apply wp_bind, wp_modify.
    match goal with |- wp _ _ ?v => replace v with (requeued s x e' (n - 1) rest w) end.
    2: { unfold requeued. cbn. by rewrite insert_insert_eq. }
    apply IH; [cbn in Hf; lia|]. eapply HRp; [by apply Hr|done].
  - by apply wp_ret, (dp_stop _ _ HQ).
  - apply wp_bind. eapply wp_upd_sock; [apply requeued_self|].
    set (x' := set_s_has_write_error true (set_s_pkts (p' :: rest) x)). set (w2 := set_w_socks _ _).
    assert (Hs2 : w_socks w2 = <[s := x']> (w_socks w)) by (cbn; by rewrite insert_insert_eq).
    assert (wf {[s]} w2 /\ frame {[s]} w w2) as [I2 F2].
    { destruct (wf_upd_local s x x' w) as [I2 F2]; try done.
      replace w2 with (set_w_live n (set_w_env e' (set_w_socks (<[s:=x']> (w_socks w)) w))).
      - split; [by apply wf_set_live, wf_set_env|]. destruct F2. by constructor.
      - unfold w2, requeued. cbn. by rewrite insert_insert_eq. }
    apply wp_bind. eapply (wp_close_socket s x'); [exact I2|by rewrite Hs2, lookup_insert_eq| |].
    + eapply (peer_ok_upd s x x' w); [done|done|by apply wf_peer_ok].
    + eapply (close_post_upd s x x' w); [done|done|done|done|done|done|by apply wf_peer_ok|].
      intros w' I' F' G' Gp Hs'. apply wp_ret. by apply (dp_closed _ _ HQ).
Qed.

End Requeued.

(** With the queue empty, the interest in writing is dropped. *)
Lemma wp_stop_writing s x e n w (Q : unit -> world E -> Prop) :
  wf ∅ w -> w_socks w !! s = Some x -> s_enqueue x = enq_local -> s_pkts x <> [] -> s_closing x = false ->
  (forall w', wf ∅ w' -> frame {[s]} w w' -> w_socks w' !! s = Some (set_s_pkts [] x) -> w_sent w' = w_sent w -> Q tt w') ->
  wp (on_fds (fdevent_del s FDE_WRITE)) Q (requeued s x e n [] w).
Proof.
  intros I Hx Hk Hpk Hc HQ. destruct (wf_local_fde s x w I Hx Hk) as (e0 & (He & Ha & Hfd & Hfn & Hdc & _) & Hw).
  pose proof (wf_kind _ _ I _ _ Hx) as Hkind. unfold kind_ok in Hkind. rewrite Hk, Hc in Hkind.
  destruct Hkind as (Hrc & Hsh & _ & Hpl).
  apply wp_on_fds. cbn. eapply wp_fdevent_del; [apply (wf_fd _ _ I)|done|done|].
  intros st e' Ist F He' Ha' Hfd' Hfn' _ _ Hw' Hd'.
  assert (Hwf : flag (fde_state e') FDE_WRITE = false) by (rewrite Hw'; by rewrite andb_false_r).
  set (x' := set_s_pkts [] x). apply HQ; [|destruct (frame_upd_fds s x x' st w Hx F); by constructor|apply lookup_insert_eq|done].
  assert (I1 : wf {[s]} (set_w_fds st (requeued s x e n [] w))).
  { apply (wf_set_live {[s]} n (set_w_env e (set_w_socks (<[s := x']> (w_socks w)) (set_w_fds st w)))), wf_set_env.
    eapply wf_upd_fds; [eapply wf_weaken; [exact I|set_solver]|done|done|set_solver|done| | | |].
    - intros l Hl. by apply (frame_others _ _ _ F).
    - unfold kind_ok. cbn. rewrite Hk, Hc. split_and!; [done|done| |done]. exists e'. unfold fde_of. cbn.
      split_and!; try done; [congruence|congruence|by rewrite Hd', Hdc].
    - intros t. apply (wf_transport _ _ I s x t Hx).
    - intros q y Hq Hy Hp.
      destruct (q_peer _ _ _ _ (wf_quiet _ _ I q y ltac:(set_solver) Hy) s Hp) as (_ & z & ? & ?). cbn. congruence. }
  eapply (wf_fill ∅ s); [eapply wf_weaken; [exact I1|set_solver]|]. intros z Hz. cbn in Hz.
  rewrite lookup_insert_eq in Hz. injection Hz as <-.
  destruct (wf_quiet _ _ I s x ltac:(set_solver) Hx) as [? Hpe ? ? ? Hlk ? Hsm]. constructor; try done.
  - intros p Hp. destruct (Hpe p Hp) as (Hne & y & Hy & Hyp). split; [done|]. exists y. cbn. by rewrite lookup_insert_ne.
  - intros Hc'. cbn in Hc'. congruence.
  - intros e1 _ He1. cbn in He1. assert (e1 = e') as -> by congruence. congruence.
  - intros p y Hp Hy. cbn in Hp, Hy. destruct (Hpe p Hp) as (Hne & _). rewrite lookup_insert_ne in Hy by done. by eapply Hlk.
Qed.

(** Either the function returns, or the socket is there, empty, and its peer
    knows it is ready. *)
Definition event_write_post s x w (Q : bool -> world E -> Prop) : Prop :=
  (forall w', wf ∅ w' -> Q false w') /\
  (forall w' x' q y', wf ∅ w' -> w_socks w' !! s = Some x' -> same_socket x x' -> s_pkts x' = [] ->
     s_peer x = Some q -> w_socks w' !! q = Some y' ->
     (exists y, w_socks w !! q = Some y /\ s_enqueue y' = s_enqueue y) -> Q true w').

Lemma wp_event_write fd s x w (Q : bool -> world E -> Prop) :
  wf ∅ w -> w_socks w !! s = Some x -> s_enqueue x = enq_local -> s_pkts x <> [] -> event_write_post s x w Q ->
  wp (event_write fd s) Q w.
Proof.
  intros I Hx Hk Hpk [HF HT]. unfold event_write. apply wp_bind. eapply wp_load_sock; [done|]. apply wp_bind.
  rewrite <- (requeued_id s x w Hx) at 1.
  apply (wp_drain_packets s x w I Hx Hk Hpk _ fd (fun _ _ => True)); try done. constructor.
  - intros e n l _ Hl. apply wp_ret, HF. by apply requeued_quiet.
  - intros w' I' _ _ _ _. apply wp_ret. by apply HF.
  - intros e n _. cbn [negb]. apply wp_bind. eapply wp_load_sock; [apply requeued_self|]. cbn [s_closing set_s_pkts].
    destruct (s_closing x) eqn:Hc.
    + apply wp_bind. eapply wp_close_socket; [by apply requeued_wf|apply requeued_self|by apply requeued_peer_ok|].
      intros w' I' _ _ _ _. apply wp_ret. by apply HF.
    + apply wp_bind. eapply wp_stop_writing; [done..|]. intros w1 I1 F1 Hx1 Hs1.
      destruct (s_peer x) as [q|] eqn:Hq.
      2: { exfalso. by apply Hpk, (q_idle _ _ _ _ (wf_quiet _ _ I s x ltac:(set_solver) Hx)). }
      apply wp_bind. eapply wp_deref; [exact Hq|].
      destruct (wf_peer_ok s _ w1 I1 Hx1 q Hq) as (y & _ & Hy & _ & Hyp & Hne).
      assert (L : linked w1 q y s (set_s_pkts [] x)) by exact (conj Hy (conj Hx1 (conj Hyp (conj Hq (not_eq_sym Hne))))).
      apply wp_bind. eapply (wp_ready_peer 2 q y s); [done|exact L|done|].
      intros w2 y' I2 F2 Hy' Hsm _. apply wp_ret. eapply (HT _ (set_s_pkts [] x) q y'); [done| |by split_and!|done|done|done|].
      * by rewrite (fr_socks _ _ _ F2) by set_solver.
      * exists y. split; [|apply Hsm]. rewrite <- Hy. symmetry. apply (fr_socks _ _ _ F1). set_solver.
Qed.

(** ** The event function: reading *)

Lemma wp_transport_max w (ot : option loc) (m : Z) (Q : Z -> world E -> Prop) :
  (forall t, ot = Some t -> is_Some (w_transports w !! t)) -> (forall n, (n <= m)%Z -> Q n w) ->
  wp (transport_max_payload ot m) Q w.
Proof.
  intros Ht HQ. destruct ot as [t|]; cbn; [|by apply wp_ret, HQ].
  destruct (Ht t eq_refl) as [tx Htx]. apply wp_bind. eapply wp_load_transport; [done|]. apply wp_ret, HQ. lia.
Qed.

Lemma wp_get_max_payload s x w (Q : Z -> world E -> Prop) :
  wf ∅ w -> w_socks w !! s = Some x -> (forall n, (n <= MAX_PAYLOAD)%Z -> Q n w) -> wp (get_max_payload s) Q w.
Proof.
  intros I Hx HQ. unfold get_max_payload. apply wp_bind. eapply wp_load_sock; [done|].
  apply wp_bind, wp_transport_max; [intros t; apply (wf_transport _ _ I s x t Hx)|]. intros n Hn.
  destruct (s_peer x) as [p|] eqn:Hp; [|by apply wp_ret, HQ].
  destruct (wf_peer_ok s x w I Hx p Hp) as (y & _ & Hy & _). apply wp_bind. eapply wp_load_sock; [done|].
  apply wp_transport_max; [intros t; apply (wf_transport _ _ I p y t Hy)|]. intros m Hm. apply HQ. lia.
Qed.

(** What the event function relies on when it hands data to the peer: unless
    the result is negative, its own socket is still there. *)
Definition enqueue_keeps s w (q : loc) : Prop :=
  forall pk w1, wf ∅ w1 -> w_socks w1 = w_socks w -> w_transports w1 = w_transports w ->
    wp (enqueue_socket q pk) (fun r w' => wf ∅ w' /\
      ((r < 0)%Z \/ exists x', w_socks w' !! s = Some x' /\ s_enqueue x' = enq_local)) w1.

Lemma wp_event_read fd s x w (Q : bool -> world E -> Prop) :
  wf ∅ w -> w_socks w !! s = Some x -> s_enqueue x = enq_local ->
  (forall q, s_peer x = Some q -> enqueue_keeps s w q) ->
  (forall b w', wf ∅ w' -> Q b w') -> wp (event_read fd s) Q w.
Proof.
  intros I Hx Hk Henq HQ. unfold event_read. apply wp_bind, wp_bind, wp_modify, wp_ret.
  set (w1 := set_w_live _ w). assert (I1 : wf ∅ w1) by by apply wf_set_live.
  apply wp_bind. eapply (wp_get_max_payload s x w1); [done|done|]. intros m Hm.
  eapply wp_bind, wp_on_env, (wp_pull_loop _ _ (fun _ _ => True)); [done..|]. intros bs r eof e _ _. set (w2 := set_w_env e w1).
  assert (I2 : wf ∅ w2) by by apply wf_set_env.
  apply wp_bind. eapply (wp_load_sock s x); [done|]. apply wp_bind.
  (* what follows the hand-over *)
  assert (Hend : forall r x' w', wf ∅ w' -> w_socks w' !! s = Some x' -> s_enqueue x' = enq_local ->
    wp (let* e := on_fds (load s) in
        if (fde_force_eof e && (r =? 0)%Z) || eof then close_socket s ;;; ret true else ret false) Q w').
  { intros r' x' w' I' Hx' Hk'. destruct (wf_local_fde s x' w' I' Hx' Hk') as (e' & (He' & _) & _).
    apply wp_bind, wp_on_fds. eapply wp_load; [done|]. destruct ((_ && _) || _).
    - apply wp_bind. eapply wp_close_wf; [by destruct w'|destruct w'; exact Hx'|].
      intros w'' I'' _ _ _ _. by apply wp_ret, HQ.
    - apply wp_ret, HQ. by destruct w'. }
  assert (Hput : wp (put_apacket fresh_apacket ;;; ret (Some r))
    (fun r w' => exists r' x', r = Some r' /\ wf ∅ w' /\ w_socks w' !! s = Some x' /\ s_enqueue x' = enq_local) w2).
  { apply wp_bind, wp_modify, wp_ret. exists r, x. split_and!; try done. by apply wf_set_live. }
  assert (Hfin : forall r w', (r = None /\ wf ∅ w' \/ exists r' x', r = Some r' /\ wf ∅ w' /\
      w_socks w' !! s = Some x' /\ s_enqueue x' = enq_local) ->
    wp (match r with
        | None => ret true
        | Some r => let* e := on_fds (load s) in
            if (fde_force_eof e && (r =? 0)%Z) || eof then close_socket s ;;; ret true else ret false
        end) Q w').
  { intros r' w' [[-> I']|(r'' & x' & -> & I' & Hx' & Hk')]; [by apply wp_ret, HQ|by eapply Hend]. }
  destruct bs as [|b bs]; [eapply wp_mono; [exact Hput|]; intros; apply Hfin; by right|].
  destruct (s_peer x) as [q|] eqn:Hq; [|eapply wp_mono; [exact Hput|]; intros; apply Hfin; by right].
  apply wp_bind. eapply wp_mono; [by apply (Henq q eq_refl)|]. cbn beta. intros r' w' [I' Hor].
  destruct (Z.ltb_spec r' 0) as [Hneg|Hneg]; [by apply wp_ret, HQ|].
  destruct Hor as [|(x' & Hx' & Hk')]; [lia|]. apply wp_bind, wp_when; intros Hr'.
  - eapply wp_stop_reading; [done..|]. intros st I'' F'' _. apply wp_ret, (Hfin (Some r')). right. exists r', x'. by split_and!.
  - apply wp_ret, (Hfin (Some r')). right. exists r', x'. by split_and!.
Qed.

(** A peer that is a remote socket or a device tracker keeps the promise. *)
Lemma remote_keeps s x q y w :
  wf ∅ w -> w_socks w !! s = Some x -> s_enqueue x = enq_local -> s_peer x = Some q -> w_socks w !! q = Some y ->
  s_enqueue y = enq_remote \/ s_enqueue y = enq_device_tracker -> enqueue_keeps s w q.
Proof.
  intros I Hx Hk Hq Hy Hky pk w1 I1 Hs1 _. unfold enqueue_socket, call_depth. remember 3 as m.
  cbn [sock_enqueue]. apply wp_bind. eapply (wp_load_sock q y); [by rewrite Hs1|].
  assert (L : linked w1 q y s x).
  { destruct (wf_peer_ok s x w I Hx q Hq) as (y' & _ & Hy' & _ & Hyp & Hne). simplify_eq.
    unfold linked. rewrite Hs1. split_and!; try done. }
  destruct Hky as [Hky|Hky]; rewrite Hky.
  - eapply wp_remote_enqueue; [done|exact L|done|]. intros w' I' F' _. split; [done|]. right. exists x.
    rewrite (fr_socks _ _ _ F') by set_solver. by rewrite Hs1.
  - eapply (wp_tracker_enqueue q y); [done|by rewrite Hs1|done|]. intros w' I' _ _ _ _. split; [done|]. left. lia.
Qed.

(** ** Finding the socket a message is for *)

(** The socket a message with the ids [lid] and [pid] is for. *)
Definition addressed w (lid pid : Z) s : Prop :=
  s ∈ w_local w /\ exists x, w_socks w !! s = Some x /\ s_id x = lid /\
    (pid = 0%Z \/ exists p y, s_peer x = Some p /\ w_socks w !! p = Some y /\ s_id y = pid).

Lemma wp_find_in l lid pid w (Q : option loc -> world E -> Prop) :
  wf ∅ w -> (forall s, s ∈ l -> s ∈ w_local w) ->
  (forall s, addressed w lid pid s -> Q (Some s) w) ->
  ((forall s, s ∈ l -> ~ addressed w lid pid s) -> Q None w) ->
  wp (find_in l lid pid) Q w.
Proof.
  intros I. induction l as [|s l IH]; intros Hl HS HN; cbn [find_in]; [apply wp_ret, HN; set_solver|].
  assert (Hsl : s ∈ w_local w) by (apply Hl; by left).
  destruct (wf_local _ _ I s Hsl) as (x & Hx & _). apply wp_bind. eapply wp_load_sock; [done|].
  destruct (Z.eqb_spec (s_id x) lid) as [Hid|Hid]; cbn.
  2: { apply IH; [intros; apply Hl; by right|done|]. intros Hno. apply HN.
       intros q [->|Hq]%elem_of_cons; [intros (_ & z & Hz & Hzi & _); congruence|by apply Hno]. }
  assert (Hother : ~ addressed w lid pid s -> Q None w).
  { intros Hns. apply HN. intros q Hq (Hql & z & Hz & Hzi & Hp). apply Hns.
    assert (q = s) as -> by (eapply (wf_ids _ _ I q s z x); try done; congruence). split; [done|]. by exists z. }
  destruct (Z.eqb_spec pid 0) as [Hpid|Hpid]; [apply wp_ret, HS; split; [done|]; exists x; auto|].
  destruct (s_peer x) as [p|] eqn:Hp.
  - destruct (wf_peer_ok s x w I Hx p Hp) as (y & _ & Hy & _). apply wp_bind. eapply wp_load_sock; [done|].
    apply wp_ret. destruct (Z.eqb_spec (s_id y) pid) as [Hy'|Hy'].
    + apply HS. split; [done|]. exists x. split_and!; [done..|]. right. by exists p, y.
    + apply Hother. intros (_ & z & Hz & _ & [?|(p' & y' & ? & ? & ?)]); congruence.
  - apply wp_ret, Hother. intros (_ & z & Hz & _ & [?|(p' & y' & ? & ? & ?)]); congruence.
Qed.

End Flow.
