(* ===== verification/SocketStream.v ===== *)
(** * The bytes that go through a local socket

    What is written to a descriptor, followed by what its socket still holds,
    is at any time what was handed to the socket: nothing is lost, repeated or
    reordered.  What is read from a descriptor goes to the peer as it came. *)

From S2P Require Import Prelude LibBase Packet AdbIo FdEvent Transport World SmartText.
From S2P Require Import Sockets SocketInv SocketClose SocketIo SocketCreate SocketFlow.

(** [tx]: the bytes a descriptor took so far; [rx]: the bytes it has to give. *)
Class WriteLog (E : Type) {K : Kernel E} (fd : Z) (tx : E -> bytes) := {
  write_ok buf e e' n : adb_write fd buf e = (WrOk n, e') -> tx e' = tx e ++ take (Z.to_nat n) buf;
  write_err buf e e' x : adb_write fd buf e = (WrErr x, e') -> tx e' = tx e;
}.

Class ReadLog (E : Type) {K : Kernel E} (fd : Z) (rx : E -> bytes) := {
  read_ok n e e' bs : (0 < n)%Z -> adb_read fd n e = (RdOk bs, e') -> rx e = bs ++ rx e';
  read_err n e e' x : (0 < n)%Z -> adb_read fd n e = (RdErr x, e') -> rx e' = rx e;
}.

(** The packet's bytes are inside its buffer. *)
Definition pkt_ok (p : apacket) : Prop :=
  (0 <= len p < 2 ^ 64 /\ 0 <= ptr p /\ ptr p + len p <= Zlen (data p))%Z.

(** What a socket has accepted and not yet written. *)
Definition pending_bytes (l : list apacket) : bytes := concat (map unsent l).

Lemma unsent_full p : pkt_ok p -> Zlen (unsent p) = len p.
Proof. unfold pkt_ok, unsent. intros ?. rewrite length_take, length_drop. lia. Qed.

Lemma unsent_done p : (len p <= 0)%Z -> unsent p = [].
Proof. intros Hp. unfold unsent. by replace (Z.to_nat (len p)) with 0 by lia. Qed.

Lemma advance_ok p n : pkt_ok p -> (0 < n <= len p)%Z ->
  pkt_ok (advance n p) /\ unsent (advance n p) = drop (Z.to_nat n) (unsent p).
Proof.
  unfold pkt_ok. intros Hp Hn.
  assert (u64 (len p - n) = len p - n)%Z as He by (unfold u64; apply Z.mod_small; lia).
  unfold unsent. cbn. rewrite He. split; [lia|].
  rewrite skipn_firstn_comm, drop_drop. f_equal; [lia|]. f_equal. lia.
Qed.

Lemma pending_app l1 l2 : pending_bytes (l1 ++ l2) = pending_bytes l1 ++ pending_bytes l2.
Proof. unfold pending_bytes. by rewrite map_app, concat_app. Qed.

Section Stream.
Context {E : Type} {K : Kernel E} {KL : KernelLaws E} {B : Build} {LB : LibBase} {SO : SetOrder} {SV : Services E}.
Implicit Types (w : world E) (s t : loc) (x y : asocket) (e : E).

Section Write.
Context (fd : Z) (tx : E -> bytes) {WL : WriteLog E fd tx}.

(** The queue and the descriptor together hold [c]. *)
Definition in_order (c : bytes) (l : list apacket) e : Prop :=
  Forall pkt_ok l /\ tx e ++ pending_bytes l = c.

Lemma in_order_push c rest : push_keeps fd (fun p => in_order c (p :: rest)).
Proof.
  intros p e r e' Hp [[Hok Hrest]%Forall_cons Hc] Hw. unfold in_order. cbn in *.
  destruct r as [n|er].
  - pose proof (write_ok _ _ _ _ Hw) as Ht. pose proof (write_count _ _ _ _ _ Hw) as Hn.
    rewrite (unsent_full p Hok) in Hn. destruct (Z.ltb_spec 0 n) as [Hpos|Hz].
    + destruct (advance_ok p n Hok ltac:(lia)) as [Hok' Hu]. split; [by constructor|].
      rewrite Ht. change (pending_bytes (advance n p :: rest)) with (unsent (advance n p) ++ pending_bytes rest).
      rewrite Hu, <- app_assoc, (app_assoc (take _ _)), take_drop. exact Hc.
    + split; [by constructor|]. rewrite Ht. replace (Z.to_nat n) with 0 by lia. by rewrite take_0, app_nil_r.
  - rewrite (write_err _ _ _ _ Hw). split; [by constructor|done].
Qed.

Lemma in_order_drain c : drain_keeps fd (in_order c).
Proof.
  constructor; [apply in_order_push|]. intros p rest e Hp [[_ ?]%Forall_cons Hc]. split; [done|].
  cbn in Hc. by rewrite (unsent_done p Hp) in Hc.
Qed.

Lemma in_order_single c p e : in_order c [p] e <-> pkt_ok p /\ tx e ++ unsent p = c.
Proof.
  unfold in_order, pending_bytes. cbn. rewrite app_nil_r. rewrite Forall_cons. split; [|intros []]; naive_solver.
Qed.

(** C11: Handing a packet to a local socket: the bytes its descriptor took,
    followed by those the socket still holds, are what they were before,
    followed by the packet's; the result is 0 exactly when nothing is left to
    write, and 1 when the peer has to wait or the socket is closed because of
    a write error. *)
Theorem local_enqueue_stream s x (pk : apacket) w :
  wf ∅ w -> w_socks w !! s = Some x -> s_enqueue x = enq_local -> takes_data w x -> s_fd x = fd ->
  Forall pkt_ok (s_pkts x) -> pkt_ok (rewound pk) ->
  wp (local_socket_enqueue s pk) (fun r w' => wf ∅ w' /\
    (r = 1%Z /\ gone s w' \/
     exists x', w_socks w' !! s = Some x' /\ same_socket x x' /\ Forall pkt_ok (s_pkts x') /\
       tx (w_env w') ++ pending_bytes (s_pkts x') =
         tx (w_env w) ++ pending_bytes (s_pkts x) ++ unsent (rewound pk) /\
       (r = 0%Z /\ s_pkts x' = [] \/ r = 1%Z /\ s_pkts x' <> []))) w.
Proof.
  intros I Hx Hk Ht Hfd Hok Hpk.
  set (c := tx (w_env w) ++ unsent (rewound pk)).
  set (R := fun (p : apacket) e => in_order c [p] e /\ (s_pkts x = [] \/ p = rewound pk /\ tx e = tx (w_env w))).
  apply (wp_local_enqueue R s x); [done..| | | |].
  - intros Hn p e r e' Hp [Ho _] Hw. rewrite Hfd in Hw.
    split; [exact (in_order_push c [] p e r e' Hp Ho Hw)|by left].
  - split; [by apply in_order_single|by right].
  - intros r w' x' (p & [Ho Hor] & Hr) I' F' Hx' Hs' _. split; [done|]. right. exists x'. split; [done|]. split; [done|].
    apply in_order_single in Ho as [Hpok Hc]. destruct Hr as [(-> & Hl & Hn & Hn')|(-> & Hn')]; rewrite Hn'.
    + rewrite Hn. cbn. rewrite (unsent_done p Hl), app_nil_r in Hc. rewrite app_nil_r. naive_solver.
    + split; [apply Forall_app; by split; [|constructor]|]. split; [|right; split; [done|by destruct (s_pkts x)]].
      rewrite pending_app, (app_assoc (tx _)).
      assert (tx (w_env w') ++ pending_bytes (s_pkts x) ++ unsent p =
              tx (w_env w) ++ pending_bytes (s_pkts x) ++ unsent (rewound pk)) as <-.
      { destruct Hor as [->|[-> ->]]; [exact Hc|done]. }
      unfold pending_bytes at 2. cbn. by rewrite app_nil_r, app_assoc.
  - intros w' I' _ G' _ _. split; [done|]. by left.
Qed.

(** When its descriptor is writable, a local socket writes what it holds in
    order: the bytes written and those still held are the ones before; the
    queue is emptied, or the descriptor takes no more for now and the rest
    stays queued, or the socket is closed because of a write error. *)
Theorem drain_in_order s x w :
  wf ∅ w -> w_socks w !! s = Some x -> s_enqueue x = enq_local -> s_pkts x <> [] -> Forall pkt_ok (s_pkts x) ->
  wp (drain_packets (length (s_pkts x)) fd s) (fun go w' =>
    go = false /\ wf ∅ w' /\ gone s w' \/
    exists l, w_socks w' !! s = Some (set_s_pkts l x) /\ Forall pkt_ok l /\
      tx (w_env w') ++ pending_bytes l = tx (w_env w) ++ pending_bytes (s_pkts x) /\
      (go = true <-> l = [])) w.
Proof.
  intros I Hx Hk Hn Hok.
  rewrite <- (requeued_id s x w Hx) at 1.
  apply (wp_drain_packets s x w I Hx Hk Hn _ fd (in_order (tx (w_env w) ++ pending_bytes (s_pkts x))));
    [done|apply in_order_drain|by split|].
  constructor.
  - intros e n l [Ho Hc] Hl. right. exists l. split; [apply requeued_self|]. split_and!; done.
  - intros w' I' _ G' _ _. by left.
  - intros e n [Ho Hc]. right. exists []. split; [apply requeued_self|]. split_and!; done.
Qed.

End Write.

Section Read.
Context (fd : Z) (rx : E -> bytes) {RL : ReadLog E fd rx}.

Lemma pull_rx c : pull_keeps fd (fun bs e => c = bs ++ rx e).
Proof.
  intros n acc e r e' Hn -> Hr. destruct r as [bs|x].
  - by rewrite (read_ok (rx := rx) _ _ _ _ Hn Hr), app_assoc.
  - by rewrite (read_err (rx := rx) _ _ _ _ Hn Hr).
Qed.

(** The packet the event function makes of what it read. *)
Definition read_packet (bs : bytes) : apacket := {| len := Zlen bs; ptr := 0; msg := msg fresh_apacket; data := bs |}.

(** What the peer is sent for [bs]: nothing, or one write message. *)
Definition read_sends w x y (bs : bytes) : list (loc * apacket) :=
  match bs with [] => [] | _ => write_message w y x (read_packet bs) end.

Definition after_read s q w x y (bs : bytes) (eof : bool) w' : Prop :=
  wf ∅ w' /\
  w_sent w' = w_sent w ++ read_sends w x y bs ++ (if eof then close_message w x y else []) /\
  (eof = true -> gone s w' /\ gone q w') /\
  (eof = false -> w_socks w' !! s = Some x /\ (bs <> [] -> reads_off (w_fds w') s)).

Lemma get_max_payload_live s m n w :
  get_max_payload s w = Done m w -> get_max_payload s (set_w_live n w) = Done m (set_w_live n w).
Proof.
  unfold get_max_payload, transport_max_payload, bind, load_sock, load_transport, ret. cbn.
  destruct (w_socks w !! s) as [x|]; [|done]. cbn.
  destruct (s_transport x) as [t|]; cbn; [destruct (w_transports w !! t); [|done]; cbn|];
    (destruct (s_peer x) as [q|]; [|by intros [= ->]]); cbn; (destruct (w_socks w !! q) as [y|]; [|done]); cbn;
    (destruct (s_transport y) as [t'|]; cbn; [destruct (w_transports w !! t'); [|done]; cbn|]); by intros [= ->].
Qed.

(** The part of the event function after the read. *)
Lemma wp_after_read s q w x y bs r eof e n :
  wf ∅ w -> linked w s x q y -> s_enqueue x = enq_local -> s_enqueue y = enq_remote ->
  (eof = true \/ bs <> [] \/ r = (-1)%Z) ->
  let w1 := set_w_env e (set_w_live n w) in
  wp (let* r :=
        match bs, s_peer x with
        | [], _ | _, None => put_apacket fresh_apacket ;;; ret (Some r)
        | _, Some q =>
            let* r := enqueue_socket q (read_packet bs) in
            if (r <? 0)%Z then ret None else when (0 <? r)%Z (on_fds (fdevent_del s FDE_READ)) ;;; ret (Some r)
        end in
      match r with
      | None => ret true
      | Some r =>
          let* ev := on_fds (load s) in
          if (fde_force_eof ev && (r =? 0)%Z) || eof then close_socket s ;;; ret true else ret false
      end) (fun _ => after_read s q w x y bs eof) w1.
Proof.
  intros I L Hk Hky Hor w1. pose proof L as (Hx & Hy & Hxq & Hyp & Hne).
  assert (I1 : wf ∅ w1) by by apply wf_set_env, wf_set_live.
  (* the end: closing when the stream ended *)
  assert (Hend : forall r w', wf ∅ w' -> w_socks w' = w_socks w -> w_sent w' = w_sent w ++ read_sends w x y bs ->
    (eof = false -> bs <> [] -> reads_off (w_fds w') s) -> (r = 0%Z -> eof = true) ->
    wp (let* ev := on_fds (load s) in
        if (fde_force_eof ev && (r =? 0)%Z) || eof then close_socket s ;;; ret true else ret false)
       (fun _ => after_read s q w x y bs eof) w').
  { intros r' w' I' Hs' Hse Hoff Hr0. assert (Hx' : w_socks w' !! s = Some x) by by rewrite Hs'.
    destruct (wf_local_fde s x w' I' Hx' Hk) as (ev & (He' & _) & _).
    apply wp_bind, wp_on_fds. eapply wp_load; [done|]. destruct ((_ && _) || eof) eqn:Hc.
    - assert (eof = true) as -> by (destruct eof; [done|]; rewrite orb_false_r in Hc; apply Hr0; lia).
      apply wp_bind. eapply wp_close_wf; [by destruct w'|destruct w'; exact Hx'|].
      intros w'' I'' F'' G'' Gp Hse'. apply wp_ret. split; [done|]. split.
      + rewrite Hse'. cbn. rewrite Hse, <- app_assoc. do 2 f_equal. unfold close_sends.
        rewrite Hk, Hxq. cbn. by rewrite Hs', Hy.
      + split; [|done]. intros _. split; [done|by apply Gp].
    - destruct eof; [by rewrite orb_true_r in Hc|]. apply wp_ret. replace (set_w_fds _ w') with w' by by destruct w'.
      split; [done|]. split; [by rewrite app_nil_r|]. split; [done|]. intros _. split; [done|by apply Hoff]. }
  apply wp_bind. destruct bs as [|b bs]; [|rewrite Hxq].
  - apply wp_bind, wp_modify, wp_ret. apply Hend; [by apply wf_set_live|done|by rewrite app_nil_r|done|]. intros ->. naive_solver.
  - apply wp_bind. unfold enqueue_socket, call_depth. remember 3 as k. cbn [sock_enqueue].
    apply wp_bind. eapply (wp_load_sock q y); [done|]. rewrite Hky.
    assert (L' : linked w1 q y s x) by exact (conj Hy (conj Hx (conj Hyp (conj Hxq (not_eq_sym Hne))))).
    eapply wp_remote_enqueue; [done|exact L'|done|]. intros w2 I2 F2 Hs2. cbn. apply wp_bind.
    assert (Hx2 : w_socks w2 !! s = Some x) by (rewrite (fr_socks _ _ _ F2) by set_solver; done).
    eapply wp_stop_reading; [done..|]. intros st I3 F3 Hoff. apply wp_ret.
    apply Hend; [done| |exact Hs2|done|done].
    apply map_eq. intros l. apply (fr_socks _ _ _ F2). set_solver.
Qed.

(** C24: When the descriptor of a local socket is readable and its peer is a
    remote socket, the event function takes what the descriptor has, at most the
    payload both ends accept, and sends exactly these bytes to the remote as one
    write message, after which it stops reading until the remote is ready
    again; at the end of the stream both sockets are closed and the remote is told. *)
Theorem event_read_forwards s x q y m w :
  wf ∅ w -> linked w s x q y -> s_enqueue x = enq_local -> s_enqueue y = enq_remote ->
  get_max_payload s w = Done m w -> (0 < m)%Z ->
  wp (event_read fd s) (fun _ w' => exists bs r eof e,
    pull_loop (Z.to_nat m) fd m 0 [] (w_env w) = Done (bs, r, eof) e /\
    rx (w_env w) = bs ++ rx e /\ (Zlen bs <= m)%Z /\ after_read s q w x y bs eof w') w.
Proof.
  intros I L Hk Hky Hm Hpos. pose proof L as (Hx & _).
  unfold event_read. apply wp_bind, wp_bind, wp_modify, wp_ret.
  apply wp_bind. eapply wp_call; [by apply get_max_payload_live|].
  apply wp_bind, wp_on_env, wp_run. eapply (wp_pull_loop _ _ (fun bs e => rx (w_env w) = bs ++ rx e)); [done|apply pull_rx|done|].
  intros bs r eof e Hrx [Hb Hend] Hrun. cbn in Hb, Hend.
  apply wp_bind. eapply (wp_load_sock s x); [done|]. eapply wp_mono.
  - apply (wp_after_read s q w x y bs r eof e); [done..|].
    destruct Hend as [?|[?|?]]; [by left| |by right; right]. right; left. intros ->. cbn in *. lia.
  - intros a w' Ha. exists bs, r, eof, e. split_and!; [exact Hrun|done|lia|done].
Qed.

End Read.
End Stream.
