(* ===== verification/SocketProps.v ===== *)
(** * What the sockets promise

    The theorems about closing, about the event function and about the local
    ids, with a small world on which they are exercised. *)

From S2P Require Import Prelude LibBase Packet AdbIo FdEvent Transport World SmartText.
From S2P Require Import Sockets SocketInv SocketClose SocketIo SocketCreate SocketFlow SocketStream.

Section Props.
Context {E : Type} {K : Kernel E} {KL : KernelLaws E} {B : Build} {LB : LibBase} {SO : SetOrder} {SV : Services E}.
Implicit Types (w : world E) (s t : loc) (x y : asocket).

(** C3: Closing a socket of any kind never touches freed memory, keeps the
    invariant, closes the socket and its peer (they are freed, or wait on the
    closing list for their last packets) and no other socket, and tells a
    remote peer exactly once, with the ids of both ends. *)
Theorem close_socket_spec s x w :
  wf ∅ w -> w_socks w !! s = Some x ->
  wp (close_socket s) (fun _ w' => wf ∅ w' /\ gone s w' /\ (forall p, s_peer x = Some p -> gone p w') /\
    (forall q, q <> s -> s_peer x <> Some q ->
       w_socks w' !! q = w_socks w !! q /\ fdes (w_fds w') !! q = fdes (w_fds w) !! q) /\
    w_sent w' = w_sent w ++ close_sends w x) w.
Proof.
  intros I Hx. eapply wp_close_wf; [done|done|]. intros w' I' F G Gp Hs. split_and!; [done..| |done].
  intros q Hq Hp. assert (q ∉ ({[s]} ∪ peer_set x : gset loc)) as Hn.
  { apply not_elem_of_union. split; [by apply not_elem_of_singleton|]. unfold peer_set.
    destruct (s_peer x) as [p|]; [|set_solver]. apply not_elem_of_singleton. congruence. }
  split; [by apply (fr_socks _ _ _ F)|by apply (fr_fdes _ _ _ F)].
Qed.

(** C13: [close_all_sockets] ends, whatever the calls it makes do to the list it
    walks: afterwards no socket of the list belongs to the transport or has a
    peer that does, and every socket that has nothing to do with the transport
    is as it was. *)
Theorem close_all_sockets_spec t w :
  wf ∅ w -> wp (close_all_sockets t) (fun _ w' => closed_for t w w') w.
Proof.
  intros I. unfold close_all_sockets. apply wp_bind, wp_get. apply wp_close_all; [done|lia|done].
Qed.

(** C23: The event function of a local socket keeps the invariant and never
    touches freed memory, when the socket has no peer or one that belongs to a
    transport or lists the devices: data and errors on the descriptor, in any
    order, included. *)
Theorem local_socket_event_func_safe fd ev s x w :
  wf ∅ w -> w_socks w !! s = Some x -> s_enqueue x = enq_local ->
  (flag ev FDE_WRITE = true -> s_pkts x <> []) ->
  (forall q y, s_peer x = Some q -> w_socks w !! q = Some y ->
     s_enqueue y = enq_remote \/ s_enqueue y = enq_device_tracker) ->
  wp (local_socket_event_func fd ev s) (fun _ w' => wf ∅ w') w.
Proof.
  intros I Hx Hk Hw Hp. unfold local_socket_event_func. apply wp_bind.
  assert (Hread : forall w' x', wf ∅ w' -> w_socks w' !! s = Some x' -> s_enqueue x' = enq_local ->
    (forall q y, s_peer x' = Some q -> w_socks w' !! q = Some y -> s_enqueue y = enq_remote \/ s_enqueue y = enq_device_tracker) ->
    wp (event_read fd s) (fun _ w' => wf ∅ w') w').
  { intros w' x' I' Hx' Hk' Hp'. eapply wp_event_read; [done..| |by intros].
    intros q Hq. destruct (wf_peer_ok s x' w' I' Hx' q Hq) as (y & _ & Hy & _).
    eapply (remote_keeps s x' q y); eauto. }
  destruct (flag ev FDE_WRITE) eqn:Hfw.
  - eapply (wp_event_write fd s x); [done..|by apply Hw|]. split.
    + intros w' I'. done.
    + intros w' x' q y' I' Hx' Hs' Hpk Hq Hy' (y & Hy & Hky). apply wp_when; [|done]. intros _. apply wp_bind.
      apply (Hread w' x' I' Hx'); [by destruct Hs' as [-> _]|]. intros q' z Hq' Hz.
      destruct Hs' as (_ & Hpe & _). assert (q' = q) as -> by congruence. simplify_eq. rewrite Hky. by eapply Hp.
  - apply wp_ret, wp_when; [|done]. intros _. apply wp_bind. by eapply Hread.
Qed.

(** A new local socket gets an id that is not 0 and that no socket of the
    list has, an event object that waits for nothing, and leaves every other
    socket as it was. *)
Theorem create_local_socket_spec fd w :
  wf ∅ w -> (0 <= fd)%Z -> g_poll_node_map (w_fds w) !! fd = None ->
  wp (create_local_socket fd) (fun s w' => wf ∅ w' /\ w_socks w !! s = None /\ s ∈ w_local w' /\
    (exists x, w_socks w' !! s = Some x /\ s_id x <> 0%Z /\ s_fd x = fd /\ s_peer x = None /\ s_pkts x = [] /\
       (forall q y, q ∈ w_local w -> w_socks w !! q = Some y -> s_id y <> s_id x)) /\
    (forall q, q <> s -> w_socks w' !! q = w_socks w !! q)) w.
Proof.
  intros I Hfd Hpoll. apply (wp_create_local_socket ∅); [done..|]. intros w' A I'.
  destruct (fresh_unused _ _ I) as (Hfresh & _). set (s := w_next w) in *. set (x := local_asocket (w_next_id w) fd) in *.
  assert (Hx : w_socks w' !! s = Some x) by (rewrite (add_socks _ _ _ _ A); apply lookup_insert_eq).
  assert (Hoth : forall q, q <> s -> w_socks w' !! q = w_socks w !! q)
    by (intros q Hq; by rewrite (add_socks _ _ _ _ A), lookup_insert_ne).
  assert (Hl : s ∈ w_local w').
  { pose proof (wf_kind _ _ I' s x Hx) as Hk. unfold kind_ok in Hk. cbn in Hk. by destruct Hk as (_ & _ & _ & ?). }
  split_and!; [done..| |done]. exists x. destruct (wf_local _ _ I' s Hl) as (x' & Hx' & _ & _ & Hid). simplify_eq.
  split_and!; try done; [lia|]. intros q y Hq Hy Heq.
  assert (q <> s) as Hne by congruence. apply Hne. apply (wf_ids _ _ I' q s y x); try done; [|by rewrite Hoth].
  destruct (add_local _ _ _ _ A) as [->|(-> & _)]; [done|]. apply elem_of_app. by left.
Qed.

(** [find_local_socket] finds a socket exactly when there is one on the
    list with that id, and with a peer of the given id when one is given;
    there is never a second one. *)
Theorem find_local_socket_spec lid pid w :
  wf ∅ w ->
  wp (find_local_socket lid pid) (fun r w' => w' = w /\
    (forall s, r = Some s <-> addressed w lid pid s)) w.
Proof.
  intros I. unfold find_local_socket. apply wp_bind, wp_get. apply wp_find_in; [done..| |].
  - intros s Hs. split; [done|]. intros q. split; [by intros [= <-]|]. intros Hq. f_equal.
    destruct Hs as (? & x & ? & ? & _), Hq as (? & y & ? & ? & _).
    eapply (wf_ids _ _ I s q x y); try done; congruence.
  - intros Hno. split; [done|]. intros q. split; [done|]. intros Hq. exfalso. apply (Hno q); [apply Hq|done].
Qed.

End Props.

(** ** The bytes of the scripted descriptors *)

Definition script_tx (fd : Z) (e : script) : bytes := default [] (sc_out e !! fd).

Definition script_rx (fd : Z) (e : script) : bytes :=
  concat (map (fun r => match r with RdOk bs => bs | RdErr _ => [] end) (default [] (sc_reads e !! fd))).

#[export] Instance script_write_log fd : WriteLog script fd (script_tx fd).
Proof.
  split; intros buf e e' r Hw; cbn in Hw; unfold script_write in Hw; unfold script_tx;
    destruct (sc_writes e !! fd) as [[|[n|er] rest]|]; cbn in Hw; simplify_eq; cbn; by rewrite ?lookup_insert_eq.
Qed.

#[export] Instance script_read_log fd : ReadLog script fd (script_rx fd).
Proof.
  split; intros n e e' r Hn Hr; cbn in Hr; unfold script_read in Hr; unfold script_rx;
    destruct (sc_reads e !! fd) as [[|[b|er] rest]|] eqn:Hs; cbn in Hr; simplify_eq; cbn;
    try (by rewrite Hs); try (by rewrite lookup_insert_eq).
  all: destruct (Z.leb_spec (Zlen b) n); simplify_eq; cbn; rewrite lookup_insert_eq.
  all: cbn; first [done|by rewrite ?lookup_insert_eq; cbn; rewrite ?app_assoc, ?take_drop].
Qed.

(** ** A small world *)

(** The host program; it serves nothing itself. *)
Section Demo.
#[local] Instance demo_build : Build :=
  {| ADB_HOST := true; no_perm_long_text := []; no_perm_short_text := []; vendor_keys := None |}.
#[local] Instance demo_services : Services script := {|
  service_to_fd _ _ := ret (-1)%Z; create_service_thread _ := ret 9%Z;
  handle_host_request _ _ _ _ _ := ret 1%Z; getuid := 0; log_is_debuggable := false |}.

(** One device, at address 1. *)
Definition start_world (env : script) : world script := {|
  w_env := env; w_fds := fd_empty; w_next := 2; w_socks := ∅; w_local := []; w_closing := []; w_next_id := 1;
  w_transports := {[ 1%positive := set_t_online true (new_atransport kCsDevice) ]}; w_transport_list := [1%positive];
  w_pending := []; w_trackers := []; w_jdwp_list := []; w_jdwp_trackers := []; w_sent := []; w_live := 0;
  w_listeners := []; w_auth := {| au_required := false; au_framework_fde := 1; au_framework_fd := -1;
                                  au_usb_transport := None; au_needs_retry := false |};
  w_globals := {| g_keys := []; g_monitored_paths := ∅; g_local_transports := replicate 16 None; g_retry_ports := [];
                  g_registration_send := -1; g_registration_recv := -1;
                  g_device_scan_complete := false; g_transports_ready := false |} |}.

Lemma wf_start env : wf ∅ (start_world env).
Proof.
  constructor; cbn; try done; try (by intros *; set_solver); try (by intros *; rewrite lookup_empty).
  - apply fd_inv_empty.
  - constructor.
  - constructor.
  - intros l [[? Hl]|[[? Hl]|[? Hl]]]; [by rewrite lookup_empty in Hl..|].
    apply lookup_singleton_Some in Hl as [<- _]. lia.
Qed.

(** A client on descriptor 5 connected to the device's socket 7: the local
    socket is at 2, the remote one at 3. *)
Definition demo_pair : M (world script) unit :=
  let* s := create_local_socket 5 in
  let* r := create_remote_socket 7 1 in
  upd_sock s (set_s_peer (Some r)) ;;;
  upd_sock r (set_s_peer (Some s)) ;;;
  ret tt.

Definition pair_world (env : script) : world script :=
  match demo_pair (start_world env) with Done _ w => w | _ => start_world env end.

Definition pair_local : asocket := set_s_peer (Some 3%positive) (local_asocket 1 5).
Definition pair_remote : asocket :=
  set_s_peer (Some 2%positive) (set_s_transport (Some 1%positive) (set_s_id 7
    (new_asocket enq_remote rdy_remote (Some shut_remote) cls_remote))).

Lemma pair_done env : demo_pair (start_world env) = Done tt (pair_world env).
Proof. vm_compute. reflexivity. Qed.

Lemma pair_linked env : linked (pair_world env) 2 pair_local 3 pair_remote.
Proof. by split_and!. Qed.

Lemma wf_pair env : wf ∅ (pair_world env).
Proof.
  eapply (wp_done demo_pair (fun _ => wf ∅)); [apply pair_done|]. unfold demo_pair.
  apply wp_bind, (wp_create_local_socket ∅); [apply wf_start|done|done|]. intros w1 A1 I1.
  assert (Hs : w_socks w1 !! 2%positive = Some (local_asocket 1 5))
    by (rewrite (add_socks _ _ _ _ A1); apply lookup_insert_eq).
  apply wp_bind. eapply (wp_create_remote_socket ∅); [done|done|by rewrite (add_transports _ _ _ _ A1)|].
  intros w2 A2 I2. assert (Hn : w_next w1 = 3%positive) by (by rewrite (add_next _ _ _ _ A1)). rewrite Hn in *.
  assert (Hs2 : w_socks w2 !! 2%positive = Some (local_asocket 1 5))
    by (rewrite (add_socks _ _ _ _ A2), lookup_insert_ne by done; done).
  assert (Hr2 : w_socks w2 !! 3%positive = Some (set_s_peer None pair_remote))
    by (rewrite (add_socks _ _ _ _ A2); apply lookup_insert_eq).
  eapply wp_link; [exact Hs2|exact Hr2|done|]. apply wp_ret.
  apply wf_link; try done; by right; left.
Qed.

Definition quiet_env : script := {| sc_reads := ∅; sc_writes := ∅; sc_out := ∅; sc_pipes := ∅ |}.

Lemma close_socket_spec_witness :
  w_socks (pair_world quiet_env) !! 2%positive = Some pair_local /\
  close_sends (pair_world quiet_env) pair_local = [(1%positive, seal_packet (mk_packet A_CLSE 1 7 []))] /\
  wp (close_socket 2) (fun _ w' => wf ∅ w' /\ gone 2%positive w' /\ (forall p, s_peer pair_local = Some p -> gone p w') /\
    (forall q, q <> 2%positive -> s_peer pair_local <> Some q ->
       w_socks w' !! q = w_socks (pair_world quiet_env) !! q /\
       fdes (w_fds w') !! q = fdes (w_fds (pair_world quiet_env)) !! q) /\
    w_sent w' = w_sent (pair_world quiet_env) ++ close_sends (pair_world quiet_env) pair_local)
    (pair_world quiet_env).
Proof. split; [by vm_compute|]. split; [by vm_compute|]. apply close_socket_spec; [apply wf_pair|by vm_compute]. Defined.

Lemma close_all_sockets_spec_witness :
  wp (close_all_sockets 1) (fun _ w' => closed_for 1 (pair_world quiet_env) w') (pair_world quiet_env).
Proof. apply close_all_sockets_spec, wf_pair. Defined.

Lemma create_local_socket_spec_witness :
  wp (create_local_socket 6) (fun s w' => wf ∅ w' /\ w_socks (pair_world quiet_env) !! s = None /\ s ∈ w_local w' /\
    (exists x, w_socks w' !! s = Some x /\ s_id x <> 0%Z /\ s_fd x = 6%Z /\ s_peer x = None /\ s_pkts x = [] /\
       (forall q y, q ∈ w_local (pair_world quiet_env) -> w_socks (pair_world quiet_env) !! q = Some y -> s_id y <> s_id x)) /\
    (forall q, q <> s -> w_socks w' !! q = w_socks (pair_world quiet_env) !! q)) (pair_world quiet_env).
Proof. apply create_local_socket_spec; [apply wf_pair|lia|by vm_compute]. Defined.

Lemma find_local_socket_spec_witness :
  find_local_socket 1 7 (pair_world quiet_env) = Done (Some 2%positive) (pair_world quiet_env) /\
  wp (find_local_socket 1 7) (fun r w' => w' = pair_world quiet_env /\
    (forall s, r = Some s <-> addressed (pair_world quiet_env) 1 7 s)) (pair_world quiet_env).
Proof. split; [by vm_compute|]. apply find_local_socket_spec, wf_pair. Defined.

Lemma local_socket_event_func_safe_witness :
  wp (local_socket_event_func 5 FDE_READ 2) (fun _ w' => wf ∅ w') (pair_world quiet_env).
Proof.
  apply (local_socket_event_func_safe 5 FDE_READ 2 pair_local); [apply wf_pair|by vm_compute|by vm_compute|done|].
  intros q y [= <-] Hy. vm_compute in Hy. injection Hy as <-. by left.
Defined.

(** ** A client of the server itself *)

(** The request [0015host:wait-for-any-any] of the client on descriptor 5: its
    socket is linked to that of the waiting thread, on descriptor 9. *)
Definition host_request : M (world script) Z :=
  let* s := create_local_socket 5 in
  connect_to_smartsocket s ;;;
  let* x := load_sock s in
  let* q := deref (s_peer x) in
  enqueue_socket q {| len := 25; ptr := 0; msg := zero_message; data := str "0015host:wait-for-any-any" |}.

(** The client takes the first reply and then hangs up. *)
Definition hangup_env : script :=
  {| sc_reads := {[ 9%Z := [RdOk (str "OKAY")] ]}; sc_writes := {[ 5%Z := [WrOk 4; WrErr EPIPE] ]};
     sc_out := ∅; sc_pipes := ∅ |}.

(** When the peer of a local socket is itself a local socket, which is what
    a request to the server gives, the event function may use its own socket
    after it is freed: handing the data to a client that has hung up closes the
    client's socket and, with it, the one whose event is being handled, yet
    [local_socket_enqueue] answers 1 and the function goes on with the socket.
    Such a state is reached from an empty server by one request. *)
Theorem local_socket_event_func_dangles :
  exists w, host_request (start_world hangup_env) = Done 0%Z w /\
    (exists s x p y, linked w s x p y /\ s_enqueue x = enq_local /\ s_enqueue y = enq_local /\
       local_socket_event_func (s_fd x) FDE_READ s w = Crash "dangling fdevent").
Proof.
  destruct (host_request (start_world hangup_env)) as [r w| | | |] eqn:Hw; [|by vm_compute in Hw..].
  vm_compute in Hw. injection Hw as <- <-. eexists. split; [reflexivity|].
  exists 4%positive. eexists. exists 2%positive. eexists. split; [split_and!; [vm_compute; reflexivity..|done]|]. split_and!; [vm_compute; reflexivity..|].
  vm_compute. reflexivity.
Qed.

(** ** Data on the pair *)

(** The client takes two bytes, and has three to give before it hangs up. *)
Definition data_env : script :=
  {| sc_reads := {[ 5%Z := [RdOk (str "abc"); RdOk []] ]}; sc_writes := {[ 5%Z := [WrOk 2; WrErr EAGAIN] ]};
     sc_out := ∅; sc_pipes := ∅ |}.

Definition hello : apacket := {| len := 5; ptr := 0; msg := zero_message; data := str "hello" |}.

Lemma local_enqueue_stream_witness :
  wp (local_socket_enqueue 2 hello) (fun r w' => wf ∅ w' /\
    (r = 1%Z /\ gone 2%positive w' \/
     exists x', w_socks w' !! 2%positive = Some x' /\ same_socket pair_local x' /\ Forall pkt_ok (s_pkts x') /\
       script_tx 5 (w_env w') ++ pending_bytes (s_pkts x') =
         script_tx 5 data_env ++ pending_bytes [] ++ unsent (rewound hello) /\
       (r = 0%Z /\ s_pkts x' = [] \/ r = 1%Z /\ s_pkts x' <> []))) (pair_world data_env).
Proof.
  apply (local_enqueue_stream 5 (script_tx 5) 2 pair_local hello (pair_world data_env));
    [apply wf_pair|by vm_compute|done| |done|constructor|by vm_compute].
  exists 3%positive, pair_remote. split; [done|]. split; [by vm_compute|done].
Defined.

(** The state in which three of the five bytes wait. *)
Definition waiting_world : world script :=
  match local_socket_enqueue 2 hello (pair_world data_env) with Done _ w => w | _ => pair_world data_env end.

Definition rest_of_hello : apacket := {| len := 3; ptr := 2; msg := zero_message; data := str "hello" |}.

Lemma wf_waiting : wf ∅ waiting_world.
Proof.
  eapply (wp_done (local_socket_enqueue 2 hello) (fun _ => wf ∅) (pair_world data_env) 1%Z); [by vm_compute|].
  apply (wp_local_enqueue any_push 2 pair_local); [apply wf_pair|by vm_compute|done| |done|done| |].
  - exists 3%positive, pair_remote. split; [done|]. split; [by vm_compute|done].
  - by intros r w' x' _ I'.
  - by intros w' I'.
Qed.

Lemma drain_in_order_witness :
  w_socks waiting_world !! 2%positive = Some (set_s_pkts [rest_of_hello] pair_local) /\
  wp (drain_packets 1 5 2) (fun go w' =>
    go = false /\ wf ∅ w' /\ gone 2%positive w' \/
    exists l, w_socks w' !! 2%positive = Some (set_s_pkts l (set_s_pkts [rest_of_hello] pair_local)) /\ Forall pkt_ok l /\
      script_tx 5 (w_env w') ++ pending_bytes l = script_tx 5 (w_env waiting_world) ++ pending_bytes [rest_of_hello] /\
      (go = true <-> l = [])) waiting_world.
Proof.
  split; [by vm_compute|].
  apply (drain_in_order 5 (script_tx 5) 2 (set_s_pkts [rest_of_hello] pair_local) waiting_world);
    [apply wf_waiting|by vm_compute|done|done|by constructor; [by vm_compute|constructor]].
Defined.

Lemma event_read_forwards_witness :
  get_max_payload 2 (pair_world data_env) = Done MAX_PAYLOAD (pair_world data_env) /\
  wp (event_read 5 2) (fun _ w' => exists bs r eof e,
    pull_loop (Z.to_nat MAX_PAYLOAD) 5 MAX_PAYLOAD 0 [] (w_env (pair_world data_env)) = Done (bs, r, eof) e /\
    script_rx 5 (w_env (pair_world data_env)) = bs ++ script_rx 5 e /\ (Zlen bs <= MAX_PAYLOAD)%Z /\
    after_read 2 3 (pair_world data_env) pair_local pair_remote bs eof w') (pair_world data_env).
Proof.
  assert (Hm : get_max_payload 2 (pair_world data_env) = Done MAX_PAYLOAD (pair_world data_env)) by by vm_compute.
  split; [exact Hm|].
  apply (event_read_forwards 5 (script_rx 5)); [apply wf_pair|apply pair_linked|done|done|exact Hm|done].
Defined.

End Demo.
