(* ===== verification/SocketSpec.v ===== *)
(** * Socket specifications (socket_spec.cpp)

    [tcp:<port>], [tcp:<host>:<port>] and [local...:<name>]: what they parse
    to, and which call of the network library connects or listens. *)

From S2P Require Import Prelude LibBase Packet AdbIo FdEvent Transport World.

(** The platform the program is built for, and the [-a] flag. *)
Class Platform := {
  ADB_LINUX : bool;
  ADB_WINDOWS : bool;
  gListenAll : bool;
}.

Inductive socket_namespace :=
| ANDROID_SOCKET_NAMESPACE_ABSTRACT
| ANDROID_SOCKET_NAMESPACE_RESERVED
| ANDROID_SOCKET_NAMESPACE_FILESYSTEM.

(** The calls on sockets of sysdeps.h and libcutils, which Posix models: the
    descriptor, or a negative number and the text of the error. *)
Class Net (E : Type) := {
  network_loopback_client : Z -> M E (Z * bytes);
  network_loopback_server : Z -> M E (Z * bytes);
  network_inaddr_any_server : Z -> M E (Z * bytes);
  network_connect : bytes -> Z -> M E (Z * bytes);
  network_local_client : bytes -> socket_namespace -> M E (Z * bytes);
  network_local_server : bytes -> socket_namespace -> M E (Z * bytes);
  adb_socket_get_local_port : Z -> M E Z;
  disable_tcp_nagle : Z -> M E unit;
  adb_socket_accept : Z -> M E Z;
}.

Record LocalSocketType := { lst_namespace : socket_namespace; lst_available : bool }.

Section Spec.
Context {B : Build} {PF : Platform} {LB : LibBase}.

Definition kLocalSocketTypes : list (bytes * LocalSocketType) :=
  [(str "local",
    {| lst_namespace := if ADB_HOST then ANDROID_SOCKET_NAMESPACE_FILESYSTEM else ANDROID_SOCKET_NAMESPACE_RESERVED;
       lst_available := negb ADB_WINDOWS |});
   (str "localreserved", {| lst_namespace := ANDROID_SOCKET_NAMESPACE_RESERVED; lst_available := negb ADB_HOST |});
   (str "localabstract", {| lst_namespace := ANDROID_SOCKET_NAMESPACE_ABSTRACT; lst_available := ADB_LINUX |});
   (str "localfilesystem", {| lst_namespace := ANDROID_SOCKET_NAMESPACE_FILESYSTEM; lst_available := negb ADB_WINDOWS |})].

(** The text of the error, or the host name and the port. *)
Definition parse_tcp_socket_spec (spec : bytes) : bytes + (bytes * Z) :=
  if negb (StartsWith spec (str "tcp:"))
  then inl (str "specification is not tcp: '" ++ c_str spec ++ str "'")
  else
    match ParseInt (c_str (drop 4 spec)) with
    | Some port_value =>
        if (port_value <? 0)%Z || (65535 <? port_value)%Z
        then inl (str "bad port number '" ++ dec port_value ++ str "'")
        else inr ([], port_value)
    | None =>
        match ParseNetAddress (drop 4 spec) with
        | inl error => inl error
        | inr (hostname_value, None) => inl (str "missing port in specification: '" ++ c_str spec ++ str "'")
        | inr (hostname_value, Some port_value) =>
            if (port_value =? -1)%Z
            then inl (str "missing port in specification: '" ++ c_str spec ++ str "'")
            else inr (hostname_value, port_value)
        end
    end.

Definition tcp_host_is_local (hostname : bytes) : bool :=
  bool_decide (hostname = []) || bool_decide (hostname = str "localhost").

(** The loops over the table stop at the first entry whose prefix matches. *)
Fixpoint find_local_type (table : list (bytes * LocalSocketType)) (spec : bytes) : option (bytes * LocalSocketType) :=
  match table with
  | [] => None
  | (name, ty) :: rest =>
      if StartsWith spec (name ++ [colon]) then Some (name, ty) else find_local_type rest spec
  end.

Definition is_socket_spec_in (table : list (bytes * LocalSocketType)) (spec : bytes) : bool :=
  match find_local_type table spec with Some _ => true | None => StartsWith spec (str "tcp:") end.
Definition is_socket_spec : bytes -> bool := is_socket_spec_in kLocalSocketTypes.

Definition is_local_socket_spec (spec : bytes) : bool :=
  match find_local_type kLocalSocketTypes spec with
  | Some _ => true
  | None =>
      match parse_tcp_socket_spec spec with
      | inl _ => false
      | inr (hostname, _) => tcp_host_is_local hostname
      end
  end.

Section Calls.
Context {E : Type} {N : Net E}.

Definition socket_spec_connect_in (table : list (bytes * LocalSocketType)) (spec : bytes) : M E (Z * bytes) :=
  if StartsWith spec (str "tcp:") then
    match parse_tcp_socket_spec spec with
    | inl error => ret ((-1)%Z, error)
    | inr (hostname, port) =>
        let connected (r : Z * bytes) : M E (Z * bytes) :=
          when (0 <=? fst r)%Z (disable_tcp_nagle (fst r)) ;;; ret r in
        if tcp_host_is_local hostname then let* r := network_loopback_client port in connected r
        else if ADB_HOST then let* r := network_connect hostname port in connected r
        else ret ((-1)%Z, str "adbd does not support arbitrary tcp connections")
    end
  else
    match find_local_type table spec with
    | Some (name, ty) =>
        if negb (lst_available ty)
        then ret ((-1)%Z, str "socket type " ++ name ++ str " is unavailable on this platform")
        else network_local_client (c_str (drop (S (length name)) spec)) (lst_namespace ty)
    | None => ret ((-1)%Z, str "unknown socket specification '" ++ c_str spec ++ str "'")
    end.
Definition socket_spec_connect : bytes -> M E (Z * bytes) := socket_spec_connect_in kLocalSocketTypes.

(** The descriptor, the error and the port when the system chose it;
    [want_port]: [resolved_tcp_port] is not null. *)
Definition socket_spec_listen_in (table : list (bytes * LocalSocketType)) (spec : bytes) (want_port : bool) :
  M E (Z * bytes * option Z) :=
  if StartsWith spec (str "tcp:") then
    match parse_tcp_socket_spec spec with
    | inl error => ret ((-1)%Z, error, None)
    | inr (hostname, port) =>
        let bound (r : Z * bytes) : M E (Z * bytes * option Z) :=
          if (0 <=? fst r)%Z && (port =? 0)%Z && want_port
          then let* p := adb_socket_get_local_port (fst r) in ret (r, Some p)
          else ret (r, None) in
        if bool_decide (hostname = []) && gListenAll then let* r := network_inaddr_any_server port in bound r
        else if tcp_host_is_local hostname then let* r := network_loopback_server port in bound r
        else ret ((-1)%Z, str "listening on specified hostname currently unsupported", None)
    end
  else
    match find_local_type table spec with
    | Some (name, ty) =>
        if negb (lst_available ty)
        then ret ((-1)%Z, str "attempted to listen on unavailable socket type: '" ++ c_str spec ++ str "'", None)
        else let* r := network_local_server (c_str (drop (S (length name)) spec)) (lst_namespace ty) in ret (r, None)
    | None => ret ((-1)%Z, str "unknown socket specification '" ++ c_str spec ++ str "'", None)
    end.
Definition socket_spec_listen : bytes -> bool -> M E (Z * bytes * option Z) := socket_spec_listen_in kLocalSocketTypes.

End Calls.
End Spec.

(** ** The table and its order *)

Section Table.
Context {LB : LibBase} {LL : LibBaseLaws LB}.

(** The names are words without colons, and all different. *)
Definition table_ok (table : list (bytes * LocalSocketType)) : Prop :=
  NoDup (map fst table) /\ Forall (fun e => colon ∉ fst e) table.

Lemma word_prefix_unique n1 n2 (s : bytes) : colon ∉ n1 -> colon ∉ n2 ->
  is_prefix (n1 ++ [colon]) s = true -> is_prefix (n2 ++ [colon]) s = true -> n1 = n2.
Proof.
  intros H1 H2 [t1 ->]%is_prefix_spec [t2 Ht]%is_prefix_spec. rewrite <- !app_assoc in Ht. cbn in Ht.
  by apply app_delim_inj in Ht as [-> _].
Qed.

Lemma find_local_type_spec table spec name ty : table_ok table ->
  find_local_type table spec = Some (name, ty) <-> (name, ty) ∈ table /\ is_prefix (name ++ [colon]) spec = true.
Proof.
  intros [Hnd Hc]. induction table as [|[n t] rest IH]; cbn.
  - split; [done|]. intros [H _]. by apply not_elem_of_nil in H.
  - cbn in Hnd. apply NoDup_cons in Hnd as [Hn Hnd]. apply Forall_cons in Hc as [Hcn Hc]. cbn in Hcn.
    rewrite StartsWith_spec, elem_of_cons. destruct (is_prefix (n ++ [colon]) spec) eqn:Hp.
    + split; [intros [= <- <-]; by split; [left|]|]. intros [[[= -> ->]|Hin] Hp']; [done|].
      assert (name = n) as ->.
      { rewrite Forall_forall in Hc. eapply word_prefix_unique; [|exact Hcn|done|done]. by apply (Hc (name, ty)). }
      exfalso. apply Hn. rewrite list_elem_of_fmap. by exists (n, ty).
    + rewrite (IH Hnd Hc). split; [intros [??]; split; [by right|done]|]. intros [[[= -> ->]|Hin] Hp']; [congruence|done].
Qed.

Lemma table_ok_perm t1 t2 : Permutation t1 t2 -> table_ok t1 -> table_ok t2.
Proof. intros Hp [Hn Hc]. split; [by rewrite <- Hp|]. by rewrite <- Hp. Qed.

Lemma find_local_type_perm t1 t2 spec : Permutation t1 t2 -> table_ok t1 ->
  find_local_type t1 spec = find_local_type t2 spec.
Proof.
  intros Hp Hok. pose proof (table_ok_perm _ _ Hp Hok) as Hok2. apply option_eq. intros [name ty].
  rewrite !find_local_type_spec by done. by rewrite Hp.
Qed.
End Table.

Lemma kLocalSocketTypes_ok {B : Build} {PF : Platform} : table_ok kLocalSocketTypes.
Proof. split; [by_decide|]. repeat constructor; cbn; by_decide. Qed.

(** The table of the local socket types is an unordered map, so the code may
    walk it in any order; whether a specification is one, where it connects and
    where it listens do not depend on that order. *)
Theorem socket_spec_order {B : Build} {PF : Platform} {LB : LibBase} {LL : LibBaseLaws LB} {E} {N : Net E} table spec :
  Permutation kLocalSocketTypes table ->
  is_socket_spec_in table spec = is_socket_spec spec /\
  socket_spec_connect_in table spec = socket_spec_connect spec /\
  (forall want, socket_spec_listen_in table spec want = socket_spec_listen spec want).
Proof.
  intros Hp. pose proof (find_local_type_perm _ _ spec Hp kLocalSocketTypes_ok) as Hf.
  unfold is_socket_spec, is_socket_spec_in, socket_spec_connect, socket_spec_connect_in, socket_spec_listen,
    socket_spec_listen_in. by rewrite Hf.
Qed.

(** [tcp:<port>] is understood for exactly the ports 0 to 65535; any other
    number is refused with the reason, not wrapped. *)
Theorem parse_tcp_port {B : Build} {PF : Platform} {LB : LibBase} {LL : LibBaseLaws LB} z :
  (- 2 ^ 31 <= z < 2 ^ 31)%Z ->
  parse_tcp_socket_spec (str "tcp:" ++ dec z) =
    if decide (0 <= z <= 65535)%Z then inr ([], z) else inl (str "bad port number '" ++ dec z ++ str "'").
Proof.
  intros Hz. unfold parse_tcp_socket_spec. rewrite StartsWith_spec, is_prefix_app. cbn [negb].
  rewrite (drop_app_length' (str "tcp:") (dec z) 4) by done.
  rewrite c_str_no_nul by apply dec_no_nul. rewrite (ParseInt_dec z Hz).
  destruct (decide _) as [Hr|Hr].
  - replace ((z <? 0) || (65535 <? z))%Z with false by lia. done.
  - replace ((z <? 0) || (65535 <? z))%Z with true by lia. done.
Qed.

(** Two network libraries that differ at most in [network_connect]. *)
Definition same_but_connect {E} (N1 N2 : Net E) : Prop :=
  @network_loopback_client E N1 = @network_loopback_client E N2 /\
  @network_local_client E N1 = @network_local_client E N2 /\
  @disable_tcp_nagle E N1 = @disable_tcp_nagle E N2.

(** The daemon never connects to another host: whatever specification it is
    given, what [socket_spec_connect] does is independent of what
    [network_connect] would do. *)
Theorem adbd_never_dials {B : Build} {PF : Platform} {LB : LibBase} {E} (N1 N2 : Net E) spec :
  ADB_HOST = false -> same_but_connect N1 N2 -> socket_spec_connect (N := N1) spec = socket_spec_connect (N := N2) spec.
Proof.
  intros HB (Hl & Hc & Hd). unfold socket_spec_connect, socket_spec_connect_in. rewrite HB, Hl, Hc, Hd. done.
Qed.

(** ** Examples *)

Section Demo.
#[local] Instance linux : Platform := {| ADB_LINUX := true; ADB_WINDOWS := false; gListenAll := false |}.
#[local] Instance daemon : Build :=
  {| ADB_HOST := false; no_perm_long_text := []; no_perm_short_text := []; vendor_keys := None |}.

(** A network that records the ports connected to; [dial] is its [network_connect]. *)
Definition port_log (dial : Z) : Net (list Z) := {|
  network_loopback_client p := modify (cons p) ;;; ret (3%Z, []);
  network_loopback_server p := modify (cons p) ;;; ret (4%Z, []);
  network_inaddr_any_server p := modify (cons p) ;;; ret (5%Z, []);
  network_connect h p := modify (cons dial) ;;; ret (dial, []);
  network_local_client n ns := ret (6%Z, []);
  network_local_server n ns := ret (7%Z, []);
  adb_socket_get_local_port fd := ret 5037%Z;
  disable_tcp_nagle fd := ret tt;
  adb_socket_accept fd := ret 8%Z;
|}.

Lemma adbd_never_dials_witness :
  same_but_connect (port_log 8) (port_log 9) /\
  socket_spec_connect (N := port_log 8) (str "tcp:example.com:80") [] =
    Done ((-1)%Z, str "adbd does not support arbitrary tcp connections") [] /\
  socket_spec_connect (N := port_log 8) (str "tcp:example.com:80") =
    socket_spec_connect (N := port_log 9) (str "tcp:example.com:80").
Proof. split; [by split_and!|]. split; [by vm_compute|]. by apply adbd_never_dials. Defined.

Lemma parse_tcp_port_witness :
  parse_tcp_socket_spec (str "tcp:" ++ dec 65536) =
    if decide (0 <= 65536 <= 65535)%Z then inr ([], 65536%Z) else inl (str "bad port number '" ++ dec 65536 ++ str "'").
Proof. apply parse_tcp_port. lia. Defined.

Lemma socket_spec_order_witness :
  let table := rev kLocalSocketTypes in let spec := str "localabstract:chrome" in
  is_socket_spec_in table spec = is_socket_spec spec /\
  socket_spec_connect_in (N := port_log 8) table spec = socket_spec_connect (N := port_log 8) spec /\
  (forall want, socket_spec_listen_in (N := port_log 8) table spec want = socket_spec_listen (N := port_log 8) spec want).
Proof. apply (socket_spec_order (N := port_log 8)). apply Permutation_rev. Defined.
End Demo.
