(* ===== verification/AdbUtils.v ===== *)
(** * Helpers (adb_utils.cpp): shell quoting, directories, forwarding targets *)

From S2P Require Import Prelude LibBase.

Definition quote_c : ascii := byte_of 39.
Definition backslash_c : ascii := byte_of 92.

(** ** escape_arg *)

(** [std::string::insert] at an index of the string. *)
Definition insert_at (i : nat) (piece s : bytes) : bytes := take i s ++ piece ++ drop i s.

(** The loop over [i < s.size()]; it reads [s] and changes [result]. *)
Fixpoint escape_loop (fuel : nat) (s : bytes) (i : nat) (result : bytes) : bytes :=
  match fuel with
  | O => result
  | S f =>
      match s !! i with
      | None => result
      | Some c =>
          if Ascii.eqb c quote_c
          then escape_loop f s (S (i + 2)) (insert_at i [quote_c; backslash_c; quote_c] result)
          else escape_loop f s (S i) result
      end
  end.

Definition escape_arg (s : bytes) : bytes := quote_c :: escape_loop (length s) s 0 s ++ [quote_c].

(** ** mkdirs *)

(** [stat] and [mkdir]; [is_directory p]: [p] exists and is a directory. *)
Class FileSystem (E : Type) := {
  is_directory : bytes -> E -> bool;
  adb_mkdir : bytes -> Z -> E -> Z * E;
}.

Section Dirs.
Context {LB : LibBase} {E : Type} {FS : FileSystem E}.

Definition directory_exists (path : bytes) (e : E) : bool := is_directory (c_str path) e.

Fixpoint mkdirs_fuel (fuel : nat) (path : bytes) : M E bool :=
  let* e := get in
  if is_directory (c_str path) e then ret true else
  let parent := Dirname path in
  if bool_decide (parent = path) then ret false else
  match fuel with
  | O => no_fuel
  | S f =>
      let* ok := mkdirs_fuel f parent in
      if negb ok then ret false else
      let* r := (fun e => let '(r, e') := adb_mkdir (c_str path) 0x1fd e in Done r e') in
      if (r =? -1)%Z then let* e := get in ret (directory_exists path e) else ret true
  end.

Definition mkdirs (path : bytes) : M E bool := mkdirs_fuel (S (length path)) path.

End Dirs.

(** ** forward_targets_are_valid *)

Section Forward.
Context {LB : LibBase}.

(** [None]: valid; otherwise the text of the error. *)
Definition forward_targets_are_valid (source dest : bytes) : option bytes :=
  let port s := ParseInt (c_str (drop 4 s)) in
  let bad (kind s : bytes) := Some (str "Invalid " ++ kind ++ str " port: '" ++ c_str (drop 4 s) ++ str "'") in
  let dest_check :=
    if StartsWith dest (str "tcp:")
    then match port dest with
         | Some p => if (p <=? 0)%Z then bad (str "destination") dest else None
         | None => bad (str "destination") dest
         end
    else None in
  if StartsWith source (str "tcp:")
  then match port source with
       | Some p => if (p <? 0)%Z then bad (str "source") source else dest_check
       | None => bad (str "source") source
       end
  else dest_check.

End Forward.

(** ** What a shell makes of a quoted word *)

(** The word a POSIX shell reads: inside single quotes every character stands
    for itself; outside, only an escaped character or a quoted part may follow;
    [None]: the quotes do not balance, or a character is left unprotected. *)
Fixpoint sh_word (quoted : bool) (s : bytes) : option bytes :=
  match s with
  | [] => if quoted then None else Some []
  | c :: t =>
      if quoted then
        if Ascii.eqb c quote_c then sh_word false t else cons c <$> sh_word true t
      else if Ascii.eqb c quote_c then sh_word true t
      else if Ascii.eqb c backslash_c
           then match t with [] => None | c' :: t' => cons c' <$> sh_word false t' end
           else None
  end.

(** Quoting as the comment of [escape_arg] describes it. *)
Fixpoint quote_all (s : bytes) : bytes :=
  match s with
  | [] => []
  | c :: t => if Ascii.eqb c quote_c
              then [quote_c; backslash_c; quote_c; quote_c] ++ quote_all t
              else c :: quote_all t
  end.

Lemma sh_word_quoted s : sh_word true (quote_all s ++ [quote_c]) = Some s.
Proof.
  induction s as [|c t IH]; [done|]. cbn [quote_all]. destruct (Ascii.eqb c quote_c) eqn:Hc.
  - apply Ascii.eqb_eq in Hc as ->. cbn. by rewrite IH.
  - cbn. by rewrite Hc, IH.
Qed.

Lemma escape_loop_plain fuel s i r : length s <= fuel + i -> quote_c ∉ drop i s -> escape_loop fuel s i r = r.
Proof.
  revert i. induction fuel as [|f IH]; intros i Hf Hq; [done|]. cbn.
  destruct (s !! i) as [c|] eqn:Hi; [|done].
  rewrite (drop_S _ _ _ Hi) in Hq. apply not_elem_of_cons in Hq as [Hc Hq].
  destruct (Ascii.eqb_spec c quote_c) as [->|]; [done|]. apply IH; [lia|done].
Qed.

Lemma escape_loop_skip a s i r fuel : length s <= fuel + i -> s = take i s ++ a ++ drop (i + length a) s ->
  quote_c ∉ a -> escape_loop fuel s i r = escape_loop (fuel - length a) s (i + length a) r.
Proof.
  revert i fuel. induction a as [|c a IH]; intros i fuel Hf Hs Hq.
  - cbn. by rewrite Nat.sub_0_r, Nat.add_0_r.
  - assert (Hi : s !! i = Some c).
    { rewrite Hs. apply list_lookup_middle. rewrite length_take.
      destruct (le_lt_dec i (length s)); [lia|]. apply (f_equal length) in Hs. rewrite !length_app, length_take, length_drop in Hs.
      cbn [length] in Hs. lia. }
    pose proof (lookup_lt_Some _ _ _ Hi) as Hlt. destruct fuel as [|f]; [lia|]. cbn [escape_loop].
    rewrite Hi. apply not_elem_of_cons in Hq as [Hc Hq]. destruct (Ascii.eqb_spec c quote_c) as [->|]; [done|].
    rewrite IH; [|lia| |done].
    + cbn [length]. f_equal; lia.
    + cbn [length] in Hs. rewrite (take_S_r _ _ _ Hi), <- app_assoc. cbn.
      replace (i + S (length a)) with (S (i + length a)) in Hs by lia. exact Hs.
Qed.

Lemma quote_all_plain s : quote_c ∉ s -> quote_all s = s.
Proof.
  induction s as [|c t IH]; [done|]. intros [Hc Ht]%not_elem_of_cons. cbn.
  destruct (Ascii.eqb_spec c quote_c) as [->|]; [done|]. by rewrite IH.
Qed.

Lemma quote_all_app a b : quote_all (a ++ b) = quote_all a ++ quote_all b.
Proof. induction a as [|c a IH]; [done|]. cbn. destruct (Ascii.eqb c quote_c); cbn; by rewrite IH. Qed.

(** With at most one quote, the loop does what the comment says. *)
Lemma escape_arg_quote_all a b : quote_c ∉ a -> quote_c ∉ b ->
  escape_arg (a ++ quote_c :: b) = quote_c :: quote_all (a ++ quote_c :: b) ++ [quote_c].
Proof.
  intros Ha Hb. unfold escape_arg. do 2 f_equal.
  set (s := a ++ quote_c :: b). assert (Hl : length s = length a + S (length b)) by (unfold s; by rewrite length_app).
  rewrite (escape_loop_skip a) by (first [lia|by unfold s; cbn; rewrite drop_app_length|done]). cbn [Nat.add].
  replace (length s - length a) with (S (length b)) by lia. cbn [escape_loop].
  assert (s !! length a = Some quote_c) as -> by (unfold s; by apply list_lookup_middle).
  rewrite Ascii.eqb_refl, escape_loop_plain.
  - unfold insert_at, s. rewrite take_app_length, drop_app_length, quote_all_app, (quote_all_plain a Ha). cbn.
    by rewrite (quote_all_plain b Hb).
  - lia.
  - replace (S (length a + 2)) with (length a + S 2) by lia. unfold s. rewrite drop_app_add. cbn [drop].
    intros Hin. apply Hb. rewrite <- (take_drop 2 b). apply elem_of_app. by right.
Qed.

(** ** Properties *)

(** A string with at most one single quote, quoted by [escape_arg], is read
    back by a shell as that very string, whatever other characters it has. *)
Theorem escape_arg_one_quote s : length (filter (fun c => c = quote_c) s) <= 1 ->
  sh_word false (escape_arg s) = Some s.
Proof.
  intros Hs. destruct (decide (quote_c ∈ s)) as [Hin|Hno].
  - apply list_elem_of_split in Hin as (a & b & ->).
    rewrite filter_app, filter_cons_True, length_app in Hs by done. cbn [length] in Hs.
    assert (forall l, length (filter (fun c => c = quote_c) l) = 0 -> quote_c ∉ l) as Hz.
    { intros l Hl Hq. apply length_zero_iff_nil in Hl. assert (quote_c ∈ filter (fun c => c = quote_c) l) as Hf
        by (by apply list_elem_of_filter). rewrite Hl in Hf. by apply not_elem_of_nil in Hf. }
    rewrite escape_arg_quote_all by (apply Hz; lia). cbn. apply sh_word_quoted.
  - unfold escape_arg. rewrite escape_loop_plain by (first [lia|by rewrite drop_0]).
    rewrite <- (quote_all_plain s Hno) at 1. cbn. apply sh_word_quoted.
Qed.

(** With two single quotes the result is wrong: the second is overlooked when
    it comes less than three characters after the first, and the quotes do not
    balance; otherwise the escape is inserted three characters too early, and
    characters of the string are left where the shell interprets them, as the
    [;w&] of ['x;w&'] here. *)
Theorem escape_arg_two_quotes :
  escape_arg (str "a'b'c") = str "'a'\''b'c'" /\ sh_word false (escape_arg (str "a'b'c")) = None /\
  escape_arg (str "'x;w&'") = str "''\''x'\';w&''" /\ sh_word false (escape_arg (str "'x;w&'")) = None.
Proof. split_and!; by vm_compute. Qed.

(** What the calls on the file system promise. *)
Class FileSystemLaws (E : Type) {FS : FileSystem E} := {
  mkdir_done p m e e' r : adb_mkdir p m e = (r, e') -> r <> (-1)%Z -> is_directory p e' = true;
  mkdir_keeps p q m e e' r : adb_mkdir p m e = (r, e') -> is_directory q e = true -> is_directory q e' = true;
}.

Section DirProofs.
Context {LB : LibBase} {LL : LibBaseLaws LB} {E : Type} {FS : FileSystem E} {FL : FileSystemLaws E}.

(** How many parents can be left. *)
Definition depth (p : bytes) : nat := if bool_decide (p = str ".") then 0 else S (length p).

Lemma depth_dirname p : Dirname p <> p -> depth (Dirname p) < depth p.
Proof.
  intros Hne. unfold depth. rewrite (bool_decide_false (p = str ".")).
  2: { intros ->. by rewrite Dirname_dot in Hne. }
  destruct (Dirname_shorter p) as [?|[->|Hl]]; [done|..].
  - rewrite bool_decide_true by done. lia.
  - case_bool_decide; lia.
Qed.

Lemma wp_mkdirs_fuel fuel p e (Q : bool -> E -> Prop) : depth p <= fuel ->
  (forall e', (forall q, is_directory q e = true -> is_directory q e' = true) -> is_directory (c_str p) e' = true -> Q true e') ->
  (forall e', (forall q, is_directory q e = true -> is_directory q e' = true) -> Q false e') ->
  wp (mkdirs_fuel fuel p) Q e.
Proof.
  revert p e Q. induction fuel as [|f IH]; intros p e Q Hf HT HF; cbn [mkdirs_fuel]; apply wp_bind, wp_get;
    (destruct (is_directory (c_str p) e) eqn:Hd; [by apply wp_ret, HT|]);
    (case_bool_decide as Hp; [by apply wp_ret, HF|]); pose proof (depth_dirname p Hp); [lia|].
  apply wp_bind, IH; [lia| |].
  - intros e1 Hk1 Hd1. cbn [negb]. apply wp_bind. unfold wp at 1.
    destruct (adb_mkdir (c_str p) 0x1fd e1) as [r e2] eqn:Hm.
    assert (Hk2 : forall q, is_directory q e = true -> is_directory q e2 = true) by (intros q Hq; eapply mkdir_keeps; eauto).
    destruct (Z.eqb_spec r (-1)) as [->|Hr].
    + apply wp_bind, wp_get, wp_ret. unfold directory_exists. destruct (is_directory (c_str p) e2) eqn:He2; [by apply HT|by apply HF].
    + apply wp_ret, HT; [done|]. by eapply mkdir_done.
  - intros e1 Hk1. by apply wp_ret, HF.
Qed.

(** [mkdirs] ends for every path, removes no directory, and if it answers
    [true] the path is a directory. *)
Theorem mkdirs_spec p e :
  wp (mkdirs p) (fun ok e' => (forall q, is_directory q e = true -> is_directory q e' = true) /\
    (ok = true -> is_directory (c_str p) e' = true)) e.
Proof.
  unfold mkdirs. apply wp_mkdirs_fuel; [|done|done]. unfold depth. case_bool_decide; lia.
Qed.

End DirProofs.

(** ** Examples *)

(** Directories only: every [mkdir] succeeds. *)
#[export] Instance dir_set : FileSystem (gset bytes) := {|
  is_directory p e := bool_decide (p ∈ e);
  adb_mkdir p m e := (0%Z, {[p]} ∪ e);
|}.

#[export] Instance dir_set_laws : FileSystemLaws (gset bytes).
Proof.
  split.
  - intros p m e e' r [= <- <-] _. cbn. apply bool_decide_true. set_solver.
  - intros p q m e e' r [= <- <-] Hq. cbn in *. apply bool_decide_eq_true in Hq. apply bool_decide_true. set_solver.
Qed.

Lemma escape_arg_one_quote_witness : sh_word false (escape_arg (str "it's; $HOME")) = Some (str "it's; $HOME").
Proof. apply escape_arg_one_quote. by apply Nat.leb_le. Defined.

Lemma mkdirs_spec_witness :
  wp (mkdirs (str "/sdcard/a/b")) (fun ok (e' : gset bytes) =>
    (forall q, is_directory q ({[str "/"]} : gset bytes) = true -> is_directory q e' = true) /\
    (ok = true -> is_directory (c_str (str "/sdcard/a/b")) e' = true)) {[str "/"]}.
Proof. apply mkdirs_spec. Defined.
