(* ===== verification/ShellProtocol.v ===== *)
(** * The shell protocol (shell_service.h, shell_service_protocol.cpp)

    Packets of an id, a four-byte length and data, over a descriptor; a packet
    larger than the receiver's buffer is read in pieces. *)

From S2P Require Import Prelude LibBase Packet AdbIo.

Definition kIdStdin : Z := 0.
Definition kIdStdout : Z := 1.
Definition kIdStderr : Z := 2.
Definition kIdExit : Z := 3.
Definition kIdCloseStdin : Z := 4.
Definition kIdWindowSizeChange : Z := 5.
Definition kIdInvalid : Z := 255.

Definition kBufferSize : Z := MAX_PAYLOAD.
Definition kHeaderSize : Z := 5.

(** [sp_id] is [buffer_[0]], [sp_data] what the buffer holds after the header;
    its length is the capacity. *)
Record shell_protocol := {
  sp_fd : Z;
  sp_id : Z;
  sp_data : bytes;
  sp_data_length : Z;
  sp_bytes_left : Z;
}.

Definition new_shell_protocol (fd : Z) (buffer : bytes) : shell_protocol :=
  {| sp_fd := fd; sp_id := kIdInvalid; sp_data := buffer; sp_data_length := 0; sp_bytes_left := 0 |}.

Definition data_capacity (p : shell_protocol) : Z := Zlen (sp_data p).

Definition set_header (id len : Z) (p : shell_protocol) : shell_protocol :=
  {| sp_fd := sp_fd p; sp_id := id; sp_data := sp_data p; sp_data_length := 0; sp_bytes_left := len |}.

(** [memcpy] of what was read to the start of the data. *)
Definition set_piece (bs : bytes) (p : shell_protocol) : shell_protocol :=
  {| sp_fd := sp_fd p; sp_id := sp_id p; sp_data := bs ++ drop (length bs) (sp_data p);
     sp_data_length := Zlen bs; sp_bytes_left := sp_bytes_left p - Zlen bs |}.

Section Shell.
Context {W : Type} {FO : FdOps W}.

(** The second half of [Read]. *)
Definition ReadPiece (p : shell_protocol) : M W (bool * shell_protocol) :=
  let read_length := Z.min (sp_bytes_left p) (data_capacity p) in
  if (read_length =? 0)%Z then ret (true, set_piece [] p)
  else
    let* r := ReadFdExactly (sp_fd p) read_length in
    match r with
    | RX_ok bs => ret (true, set_piece bs p)
    | RX_fail _ => ret (false, p)
    end.

Definition Read (p : shell_protocol) : M W (bool * shell_protocol) :=
  if (sp_bytes_left p =? 0)%Z then
    let* r := ReadFdExactly (sp_fd p) kHeaderSize in
    match r with
    | RX_fail _ => ret (false, p)
    | RX_ok header =>
        match header with
        | [] => ret (false, p)
        | id :: packet_length => ReadPiece (set_header (byte_val id) (le_decode packet_length) p)
        end
    end
  else ReadPiece p.

(** Writing more than the buffer holds would read past its end. *)
Definition Write (fuel : nat) (id length : Z) (p : shell_protocol) : M W (bool * shell_protocol) :=
  let typed_length := u32 length in
  check (length <=? data_capacity p)%Z "ShellProtocol: read past the buffer" ;;;
  let* r := WriteFdExactly fuel (sp_fd p)
              (byte_of id :: le_encode 4 typed_length ++ take (Z.to_nat length) (sp_data p)) in
  ret (wx_bool r, {| sp_fd := sp_fd p; sp_id := u8 id; sp_data := sp_data p;
                     sp_data_length := sp_data_length p; sp_bytes_left := sp_bytes_left p |}).

(** How a client reads one packet: [Read] until nothing is left of it. *)
Fixpoint read_packet (fuel : nat) (p : shell_protocol) (acc : bytes) : M W (option (Z * bytes) * shell_protocol) :=
  match fuel with
  | O => no_fuel
  | S f =>
      let* (ok, p) := Read p in
      if negb ok then ret (None, p)
      else
        let acc := acc ++ take (Z.to_nat (sp_data_length p)) (sp_data p) in
        if (sp_bytes_left p =? 0)%Z then ret (Some (sp_id p, acc), p) else read_packet f p acc
  end.

End Shell.

(** The bytes of a packet on the wire. *)
Definition shell_packet (id : Z) (payload : bytes) : bytes :=
  byte_of id :: le_encode 4 (Zlen payload) ++ payload.

(** A buffer the protocol can work with. *)
Definition sp_ok (p : shell_protocol) : Prop := (0 < data_capacity p)%Z /\ (0 <= sp_bytes_left p)%Z.

Lemma set_piece_data bs p : take (length bs) (sp_data (set_piece bs p)) = bs.
Proof. cbn. apply take_app_length. Qed.

Lemma set_piece_capacity bs p : (Zlen bs <= data_capacity p)%Z -> data_capacity (set_piece bs p) = data_capacity p.
Proof. unfold data_capacity. cbn. intros Hb. rewrite length_app, length_drop. lia. Qed.

Section ShellStream.
Context {W : Type} {FO : FdOps W} (fd : Z) (rx tx : W -> bytes) (stall : W -> nat).
Context `{!FdStream W fd rx tx stall}.

(** One piece of what is left. *)
Lemma ReadPiece_spec p body rest w :
  sp_fd p = fd -> (0 < data_capacity p)%Z -> sp_bytes_left p = Zlen body -> rx w = body ++ rest ->
  let piece := take (Z.to_nat (data_capacity p)) body in
  exists w', ReadPiece p w = Done (true, set_piece piece p) w' /\ rx w' = drop (length piece) body ++ rest.
Proof.
  intros Hfd Hc Hl Hrx piece. unfold ReadPiece. rewrite Hl, Hfd.
  assert (Hlen : Zlen piece = Z.min (Zlen body) (data_capacity p)) by (unfold piece; rewrite length_take; lia).
  destruct (Z.eqb_spec (Z.min (Zlen body) (data_capacity p)) 0) as [Hz0|Hn].
  - assert (body = []) as -> by (destruct body; [done|cbn [length] in *; lia]).
    exists w. unfold piece. by rewrite take_nil.
  - rewrite <- Hlen. destruct (ReadFdExactly_app fd rx tx stall piece (drop (length piece) body ++ rest) w)
      as (w' & Hr & Hrx' & _ & _).
    { rewrite Hrx. rewrite app_assoc. f_equal. unfold piece at 1 2. rewrite length_take.
      destruct (le_lt_dec (Z.to_nat (data_capacity p)) (length body)).
      - rewrite Nat.min_l by lia. by rewrite take_drop.
      - rewrite Nat.min_r, drop_all, app_nil_r, take_ge by lia. done. }
    exists w'. unfold bind. by rewrite Hr.
Qed.

(** All the pieces of what is left. *)
Lemma read_packet_rest fuel p body rest acc w :
  sp_fd p = fd -> (0 < data_capacity p)%Z -> sp_bytes_left p = Zlen body -> body <> [] -> length body <= fuel ->
  rx w = body ++ rest ->
  exists p' w', read_packet fuel p acc w = Done (Some (sp_id p, acc ++ body), p') w' /\ rx w' = rest /\
    sp_fd p' = fd /\ data_capacity p' = data_capacity p /\ sp_bytes_left p' = 0%Z.
Proof.
  revert p body acc w. induction fuel as [|f IH]; intros p body acc w Hfd Hc Hl Hne Hf Hrx.
  { destruct body; [done|cbn in Hf; lia]. }
  destruct (ReadPiece_spec p body rest w Hfd Hc Hl Hrx) as (w1 & Hr & Hrx1).
  set (piece := take (Z.to_nat (data_capacity p)) body) in *.
  assert (Hpl : length piece = Nat.min (Z.to_nat (data_capacity p)) (length body)) by (unfold piece; by rewrite length_take).
  assert (0 < length body) by (destruct body; [done|cbn; lia]).
  cbn [read_packet]. unfold bind, Read. rewrite (proj2 (Z.eqb_neq (sp_bytes_left p) 0)) by lia. rewrite Hr. cbn [negb].
  rewrite (eq_refl : sp_data_length (set_piece piece p) = Zlen piece), Nat2Z.id, set_piece_data.
  rewrite (eq_refl : sp_bytes_left (set_piece piece p) = (sp_bytes_left p - Zlen piece)%Z).
  destruct (Z.eqb_spec (sp_bytes_left p - Zlen piece) 0) as [Hz0|Hz0].
  - assert (piece = body) as Hpb by (unfold piece; apply take_ge; lia).
    exists (set_piece piece p), w1. rewrite Hpb in *. rewrite drop_all in Hrx1. split_and!; try done. apply set_piece_capacity. lia.
  - destruct (IH (set_piece piece p) (drop (length piece) body) (acc ++ piece) w1)
      as (p' & w' & Hr' & Hrx' & Hfd' & Hc' & Hb').
    + done.
    + rewrite set_piece_capacity by lia. done.
    + rewrite (eq_refl : sp_bytes_left (set_piece piece p) = (sp_bytes_left p - Zlen piece)%Z), length_drop. lia.
    + intros Hd. apply (f_equal length) in Hd. rewrite length_drop in Hd. cbn in Hd. lia.
    + rewrite length_drop. lia.
    + done.
    + exists p', w'. split_and!; try done.
      * rewrite Hr', <- app_assoc. do 4 f_equal. unfold piece. rewrite length_take.
        destruct (le_lt_dec (Z.to_nat (data_capacity p)) (length body)); [by rewrite Nat.min_l, take_drop by lia|].
        rewrite Nat.min_r, drop_all, app_nil_r, take_ge by lia. done.
      * rewrite Hc'. apply set_piece_capacity. lia.
Qed.

(** A packet is received as it was sent, whatever the sizes of the two
    buffers: [Write] puts the id, the length and the data on the wire, and a
    receiver that calls [Read] until nothing is left gets the same id and the
    same data, and has consumed exactly the packet. *)
Theorem shell_packet_roundtrip fuel fuel' id payload p q junk w1 :
  (0 <= id < 256)%Z -> (Zlen payload < 2 ^ 32)%Z -> sp_fd p = fd -> sp_data p = payload ++ junk ->
  length payload + 5 + stall w1 <= fuel -> length payload < fuel' ->
  sp_fd q = fd -> (0 < data_capacity q)%Z -> sp_bytes_left q = 0%Z ->
  exists p' w1', Write fuel id (Zlen payload) p w1 = Done (true, p') w1' /\
    tx w1' = tx w1 ++ shell_packet id payload /\
    forall w2 rest, rx w2 = shell_packet id payload ++ rest ->
      exists q' w2', read_packet fuel' q [] w2 = Done (Some (id, payload), q') w2' /\ rx w2' = rest /\
        data_capacity q' = data_capacity q /\ sp_bytes_left q' = 0%Z.
Proof.
  intros Hid Hlen Hfd Hdata Hf Hf' Hfq Hcq Hbq. unfold Write, bind.
  unfold check, data_capacity. rewrite Hdata, length_app.
  rewrite (proj2 (Z.leb_le (Zlen payload) (Z.of_nat (length payload + length junk)))) by lia. unfold ret at 1.
  rewrite Nat2Z.id, take_app_length, u32_small, Hfd by lia.
  destruct (WriteFdExactly_loop_spec fd rx tx stall fuel (shell_packet id payload) w1) as (w1' & Hw & Htx & _).
  { unfold shell_packet. cbn [length]. rewrite length_app, length_le_encode. lia. }
  unfold WriteFdExactly. unfold shell_packet at 1 in Hw. rewrite Hw. eexists _, w1'. split_and!; [done|done|].
  intros w2 rest Hrx. destruct fuel' as [|f']; [lia|]. cbn [read_packet]. unfold bind, Read. rewrite Hbq. cbn [Z.eqb].
  unfold shell_packet in Hrx. rewrite <- app_comm_cons, <- app_assoc in Hrx.
  destruct (ReadFdExactly_app fd rx tx stall (byte_of id :: le_encode 4 (Zlen payload)) (payload ++ rest) w2)
    as (w3 & Hr & Hrx3 & _ & _); [done|].
  change (Zlen (byte_of id :: le_encode 4 (Zlen payload))) with kHeaderSize in Hr. unfold bind. rewrite Hfq, Hr.
  rewrite byte_val_of, Z.mod_small by lia. rewrite le32_roundtrip by lia.
  set (q1 := set_header id (Zlen payload) q). assert (Hq1 : data_capacity q1 = data_capacity q) by done.
  destruct (ReadPiece_spec q1 payload rest w3) as (w4 & Hr4 & Hrx4); [done|done|done|done|].
  set (piece := take (Z.to_nat (data_capacity q1)) payload) in *. rewrite Hr4. cbn [negb].
  assert (Hpl : length piece = Nat.min (Z.to_nat (data_capacity q1)) (length payload)) by (unfold piece; by rewrite length_take).
  rewrite (eq_refl : sp_data_length (set_piece piece q1) = Zlen piece), Nat2Z.id, set_piece_data.
  rewrite (eq_refl : sp_bytes_left (set_piece piece q1) = (Zlen payload - Zlen piece)%Z).
  assert (Hcap : data_capacity (set_piece piece q1) = data_capacity q) by (rewrite <- Hq1; apply set_piece_capacity; lia).
  destruct (Z.eqb_spec (Zlen payload - Zlen piece) 0) as [Hz0|Hz0].
  - assert (piece = payload) as Hpb by (unfold piece; apply take_ge; lia).
    exists (set_piece piece q1), w4. rewrite Hpb in *. rewrite drop_all in Hrx4. split_and!; done.
  - destruct (read_packet_rest f' (set_piece piece q1) (drop (length piece) payload) rest ([] ++ piece) w4)
      as (q' & w' & Hr' & Hrx' & _ & Hc' & Hb'); try done.
    + by rewrite Hcap.
    + rewrite (eq_refl : sp_bytes_left (set_piece piece q1) = (Zlen payload - Zlen piece)%Z), length_drop. lia.
    + intros Hd. apply (f_equal length) in Hd. rewrite length_drop in Hd. cbn in Hd. lia.
    + rewrite length_drop. lia.
    + exists q', w'. split_and!; [|done|exact (eq_trans Hc' Hcap)|done]. rewrite Hr'. cbn [app]. do 4 f_equal.
      unfold piece. rewrite length_take. rewrite Nat.min_l by lia. by rewrite take_drop.
Qed.

(** What is left of the stream is not a whole piece: the header is cut, or the
    data is shorter than what the header and the buffer ask for. *)
Definition truncated (p : shell_protocol) (bs : bytes) : Prop :=
  (Zlen bs < kHeaderSize)%Z \/
  exists id n body, bs = byte_of id :: le_encode 4 n ++ body /\ (0 <= n < 2 ^ 32)%Z /\
    (Zlen body < Z.min n (data_capacity p))%Z.

(** A stream that ends in the middle of a packet, in its header or in its
    data, makes [Read] fail: no data the sender did not send is ever returned. *)
Theorem shell_read_truncated p w :
  sp_fd p = fd -> sp_bytes_left p = 0%Z -> truncated p (rx w) ->
  exists p' w', Read p w = Done (false, p') w' /\ sp_data p' = sp_data p.
Proof.
  intros Hfd Hb Ht. unfold Read, bind. rewrite Hb, Hfd. cbn [Z.eqb].
  destruct Ht as [Hl|(id & n & body & Hrx & Hn & Hl)].
  - destruct (ReadFdExactly_spec fd rx tx stall kHeaderSize w) as (w' & _ & _ & Hr); [unfold kHeaderSize; lia|].
    rewrite decide_False in Hr by lia. destruct Hr as [-> _]. by exists p, w'.
  - destruct (ReadFdExactly_app fd rx tx stall (byte_of id :: le_encode 4 n) body w) as (w1 & Hr & Hrx1 & _ & _); [done|].
    change (Zlen (byte_of id :: le_encode 4 n)) with kHeaderSize in Hr. rewrite Hr, le32_roundtrip by lia.
    unfold ReadPiece, bind. cbn [sp_bytes_left sp_fd set_header].
    rewrite (eq_refl : data_capacity (set_header _ n p) = data_capacity p), Hfd.
    destruct (Z.eqb_spec (Z.min n (data_capacity p)) 0); [lia|].
    destruct (ReadFdExactly_spec fd rx tx stall (Z.min n (data_capacity p)) w1) as (w2 & _ & _ & Hr2); [lia|].
    rewrite Hrx1 in Hr2. rewrite decide_False in Hr2 by lia. destruct Hr2 as [-> _]. by eexists _, w2.
Qed.

End ShellStream.

(** ** Examples *)

Definition sender : shell_protocol := new_shell_protocol 7 (str "hello, world" ++ replicate 20 NUL).
Definition receiver : shell_protocol := new_shell_protocol 7 (replicate 5 NUL).

Lemma shell_packet_roundtrip_witness :
  exists p' w1', Write 40 kIdStdout 12 sender wire_a = Done (true, p') w1' /\
    wire_tx w1' = wire_tx wire_a ++ shell_packet kIdStdout (str "hello, world") /\
    forall w2 rest, wire_in w2 = shell_packet kIdStdout (str "hello, world") ++ rest ->
      exists q' w2', read_packet 13 receiver [] w2 = Done (Some (kIdStdout, str "hello, world"), q') w2' /\
        wire_in w2' = rest /\ data_capacity q' = data_capacity receiver /\ sp_bytes_left q' = 0%Z.
Proof.
  apply (shell_packet_roundtrip 7 wire_in wire_tx (fun w => length (wire_plan w)) 40 13 kIdStdout (str "hello, world")
           sender receiver (replicate 20 NUL)); try done; cbn; lia.
Defined.

Lemma shell_read_truncated_witness :
  let w := {| wire_rx := [byte_of 1 :: le_encode 4 3 ++ str "ab"]; wire_tx := []; wire_plan := [] |} in
  exists p' w', Read receiver w = Done (false, p') w' /\ sp_data p' = sp_data receiver.
Proof.
  apply (shell_read_truncated 7 wire_in wire_tx (fun w => length (wire_plan w))); [done|done|].
  right. exists 1%Z, 3%Z, (str "ab"). split; [by vm_compute|]. split; [lia|by vm_compute].
Defined.
