(* ===== verification/Listeners.v ===== *)
(** * Listeners (adb_listeners.cpp): local ports forwarded to services *)

From S2P Require Import Prelude LibBase Packet AdbIo FdEvent Transport World SmartText.
From S2P Require Import Sockets SocketIo SocketSpec.

Inductive InstallStatus :=
| INSTALL_STATUS_OK | INSTALL_STATUS_INTERNAL_ERROR | INSTALL_STATUS_CANNOT_BIND
| INSTALL_STATUS_CANNOT_REBIND | INSTALL_STATUS_LISTENER_NOT_FOUND.

#[export] Instance InstallStatus_eq_dec : EqDecision InstallStatus.
Proof. solve_decision. Defined.

Definition smartsocket : bytes := str "*smartsocket*".

(** [l->connect_to[0] == '*'] *)
Definition is_special (L : alistener) : bool :=
  match l_connect_to L with c :: _ => Ascii.eqb c (byte_of 42) | [] => false end.

Definition set_l_connect_to (v : bytes) (L : alistener) : alistener :=
  {| l_fd := l_fd L; l_local_name := l_local_name L; l_connect_to := v; l_transport := l_transport L |}.
Definition set_l_transport (v : option loc) (L : alistener) : alistener :=
  {| l_fd := l_fd L; l_local_name := l_local_name L; l_connect_to := l_connect_to L; l_transport := v |}.

Section Listeners.
Context {E : Type} {K : Kernel E} {B : Build} {PF : Platform} {LB : LibBase} {SO : SetOrder} {SV : Services E} {N : Net E}.
Abbreviation W := (world E).

(** [~alistener], and the release of the memory. *)
Definition alistener_delete (l : loc) (L : alistener) : M W unit :=
  on_fds (fdevent_remove l) ;;;
  match l_transport L with
  | Some t => upd_transport t (RemoveDisconnect (DisconnectListener l))
  | None => ret tt
  end ;;;
  on_fds (fdevent_free l).

(** [listener_list.erase(iter)] *)
Definition erase_listener (l : loc) (L : alistener) : M W unit :=
  modify (fun w => set_w_listeners (List.filter (fun e => negb (bool_decide (fst e = l))) (w_listeners w)) w) ;;;
  alistener_delete l L.

(** The event functions. *)
Definition ss_listener_event_func (fd ev : Z) : M W unit :=
  when (flag ev FDE_READ) (
    let* fd := on_env (adb_socket_accept fd) in
    if (fd <? 0)%Z then ret tt
    else let* s := create_local_socket fd in connect_to_smartsocket s).

Definition listener_event_func (fd ev : Z) (l : loc) : M W unit :=
  when (flag ev FDE_READ) (
    let* fd := on_env (adb_socket_accept fd) in
    if (fd <? 0)%Z then ret tt
    else
      let* s := create_local_socket fd in
      let* w := get in
      let* L := deref (snd <$> List.find (fun e => bool_decide (fst e = l)) (w_listeners w)) in
      upd_sock s (set_s_transport (l_transport L)) ;;;
      connect_to_remote s (c_str (l_connect_to L))).

(** Called as a transport disconnect function. *)
Definition listener_disconnect (l : loc) : M W unit :=
  let* w := get in
  match List.find (fun e => bool_decide (fst e = l)) (w_listeners w) with
  | Some (_, L) => erase_listener l (set_l_transport None L)
  | None => ret tt
  end.

Fixpoint format_entries (l : list (loc * alistener)) (result : bytes) : M W bytes :=
  match l with
  | [] => ret result
  | (_, L) :: rest =>
      if is_special L then format_entries rest result
      else
        let* t := deref (l_transport L) in
        let* x := load_transport t in
        let serial := match t_serial x with Some s => c_str s | None => str "(reverse)" end in
        format_entries rest (result ++ serial ++ str " " ++ c_str (l_local_name L) ++ str " " ++
                             c_str (l_connect_to L) ++ [byte_of 10])
  end.

Definition format_listeners : M W bytes := let* w := get in format_entries (w_listeners w) [].

Definition remove_listener (local_name : bytes) (transport : option loc) : M W InstallStatus :=
  let* w := get in
  match List.find (fun e => bool_decide (l_local_name (snd e) = local_name)) (w_listeners w) with
  | Some (l, L) => erase_listener l L ;;; ret INSTALL_STATUS_OK
  | None => ret INSTALL_STATUS_LISTENER_NOT_FOUND
  end.

(** The walk over the list; entries that are kept stay in place. *)
Definition remove_all_listeners : M W unit :=
  let* w := get in
  iter_list (fun e => if is_special (snd e) then ret tt else erase_listener (fst e) (snd e)) (w_listeners w).

(** [erase(remove_if(...))] with one argument: the element at the position
    [remove_if] returns, which is the end of the list, where there is none to
    erase, when no element is to be removed. *)
Definition close_smartsockets : M W unit :=
  let* w := get in
  let pred (e : loc * alistener) := bool_decide (l_local_name (snd e) = smartsocket) in
  match List.filter pred (w_listeners w) with
  | [] => crash "erase of the end iterator"
  | (l, L) :: _ => erase_listener l L
  end.

(** The status, the port resolved if there is one, and the text of the error. *)
Definition install_listener (local_name connect_to : bytes) (transport : option loc) (no_rebind : bool)
  (want_port : bool) : M W (InstallStatus * option Z * bytes) :=
  let* w := get in
  match List.find (fun e => bool_decide (l_local_name (snd e) = local_name)) (w_listeners w) with
  | Some (l, L) =>
      if is_special L then ret (INSTALL_STATUS_INTERNAL_ERROR, None, str "cannot repurpose smartsocket")
      else if no_rebind then ret (INSTALL_STATUS_CANNOT_REBIND, None, str "cannot rebind")
      else
        let update L' := modify (fun w => set_w_listeners
              (map (fun e => if bool_decide (fst e = l) then (l, L') else e) (w_listeners w)) w) in
        let L1 := set_l_connect_to connect_to L in
        update L1 ;;;
        (if bool_decide (l_transport L = transport) then ret tt
         else
           let* old := deref (l_transport L) in
           upd_transport old (RemoveDisconnect (DisconnectListener l)) ;;;
           update (set_l_transport transport L1) ;;;
           let* new := deref transport in
           upd_transport new (AddDisconnect (DisconnectListener l))) ;;;
        ret (INSTALL_STATUS_OK, None, [])
  | None =>
      let* (r, resolved) := on_env (socket_spec_listen local_name true) in
      if (fst r <? 0)%Z then ret (INSTALL_STATUS_CANNOT_BIND, None, snd r)
      else
        let fd := fst r in
        let port := match resolved with Some p => if (p =? 0)%Z then None else Some p | None => None end in
        let name := match port with Some p => str "tcp:" ++ dec p | None => local_name end in
        let* l := alloc in
        on_fds (fdevent_install l fd (if bool_decide (connect_to = smartsocket) then fn_smart_listener l else fn_listener l)) ;;;
        on_fds (fdevent_set l FDE_READ) ;;;
        match transport with
        | Some t => upd_transport t (AddDisconnect (DisconnectListener l))
        | None => ret tt
        end ;;;
        modify (fun w => set_w_listeners (w_listeners w ++
          [(l, {| l_fd := fd; l_local_name := name; l_connect_to := connect_to; l_transport := transport |})]) w) ;;;
        ret (INSTALL_STATUS_OK, if want_port then port else None, [])
  end.

End Listeners.
