(* ===== verification/ListenerInv.v ===== *)
(** * Listeners: their invariant, and what their operations do *)

From S2P Require Import Prelude LibBase Packet AdbIo FdEvent Transport World SmartText.
From S2P Require Import Sockets SocketInv SocketIo SocketProps SocketSpec Listeners.

Section Keep.
Context {E : Type}.
Implicit Types (w : world E) (s t l : loc) (H : gset loc).

(** What the invariant of the sockets reads. *)
Definition socks_of w := (w_socks w, w_local w, w_closing w, w_next_id w, w_trackers w, w_jdwp_trackers w).

(** An operation that leaves the sockets and their event objects alone. *)
Record beside w w' : Prop := {
  be_socks : socks_of w' = socks_of w;
  be_fd : fd_inv (w_fds w');
  be_fdes : forall s, is_Some (w_socks w !! s) -> fdes (w_fds w') !! s = fdes (w_fds w) !! s;
  be_transports : forall t, is_Some (w_transports w !! t) -> is_Some (w_transports w' !! t);
  be_fresh : forall l, is_Some (fdes (w_fds w') !! l) \/ is_Some (w_transports w' !! l) -> (l < w_next w')%positive;
  be_next : (w_next w <= w_next w')%positive;
}.

Lemma wf_beside H w w' : wf H w -> beside w w' -> wf H w'.
Proof.
  intros I [Hs Hfd Hf Ht Hfr Hn]. unfold socks_of in Hs. injection Hs as Hs Hl Hc Hi Htr Hj. constructor.
  - done.
  - intros s x Hx. rewrite Hs in Hx. pose proof (wf_kind _ _ I s x Hx) as Hk. unfold kind_ok, fde_of in *.
    rewrite Hf by done. by rewrite Hl, Hc, Htr, Hj.
  - intros s x Hn' Hx. rewrite Hs in *. destruct (wf_quiet _ _ I s x Hn' Hx) as [? ? ? ? Hw ? ? ?]. constructor; try done.
    intros e He Hfe. rewrite Hf in Hfe by done. by apply Hw.
  - intros s x t Hx Hxt. rewrite Hs in Hx. apply Ht. by eapply (wf_transport _ _ I).
  - intros s. rewrite Hl, Hs, Hi. apply (wf_local _ _ I).
  - intros s1 s2 x1 x2. rewrite Hl, Hs. apply (wf_ids _ _ I).
  - rewrite Hi. apply (wf_next_id _ _ I).
  - intros s. rewrite Hc, Hs. apply (wf_closing _ _ I).
  - rewrite Hl. apply (wf_nodup_local _ _ I).
  - rewrite Hc. apply (wf_nodup_closing _ _ I).
  - intros s. rewrite Htr, Hs. apply (wf_trackers _ _ I).
  - intros s. rewrite Hj, Hs. apply (wf_jdwp_trackers _ _ I).
  - intros l [Hl'|Hl']; [|by apply Hfr]. rewrite Hs in Hl'. pose proof (wf_fresh _ _ I l (or_introl Hl')). lia.
Qed.

Lemma beside_refl w : wf ∅ w -> beside w w.
Proof. intros I. constructor; try done; [apply (wf_fd _ _ I)|]. intros l Hl. apply (wf_fresh _ _ I). tauto. Qed.

Lemma beside_trans w1 w2 w3 : beside w1 w2 -> beside w2 w3 -> beside w1 w3.
Proof.
  intros [Hs1 ? Hf1 Ht1 ? ?] [Hs2 ? Hf2 Ht2 ? ?]. constructor; try done; [congruence| |auto|lia].
  intros s Hs. rewrite Hf2, Hf1; [done..|]. unfold socks_of in Hs1. injection Hs1 as -> _ _ _ _ _. done.
Qed.

(** ** The invariant of the listeners *)

(** [T]: the transports whose disconnect functions are being run. *)
Record wf_listeners (T : gset loc) w : Prop := {
  wl_nodup : NoDup (map fst (w_listeners w));
  wl_socks : forall l L, (l, L) ∈ w_listeners w -> w_socks w !! l = None;
  wl_fde : forall l L, (l, L) ∈ w_listeners w ->
    exists e, fdes (w_fds w) !! l = Some e /\ is_active e /\ fde_fd e = l_fd L;
  wl_transport : forall l L t, (l, L) ∈ w_listeners w -> l_transport L = Some t ->
    exists x, w_transports w !! t = Some x /\ DisconnectListener l ∈ t_disconnects x;
  wl_disconnect : forall t x l, t ∉ T -> w_transports w !! t = Some x -> DisconnectListener l ∈ t_disconnects x ->
    exists L, (l, L) ∈ w_listeners w /\ l_transport L = Some t;
  wl_forward : forall l L, (l, L) ∈ w_listeners w -> is_special L = false -> is_Some (l_transport L);
}.

(** Entries are determined by their address. *)
Lemma listener_unique T w l L1 L2 : wf_listeners T w -> (l, L1) ∈ w_listeners w -> (l, L2) ∈ w_listeners w -> L1 = L2.
Proof.
  intros I. pose proof (wl_nodup _ _ I) as Hnd. revert Hnd. generalize (w_listeners w). clear. intros k Hnd H1 H2.
  induction k as [|[l' L'] k IH]; [by apply not_elem_of_nil in H1|].
  cbn in Hnd. apply NoDup_cons in Hnd as [Hn Hnd].
  assert (Hin : forall L, (l', L) ∈ k -> False) by (intros L HL; apply Hn; apply list_elem_of_fmap; by exists (l', L)).
  apply elem_of_cons in H1 as [H1|H1], H2 as [H2|H2]; simplify_eq; [done|by exfalso; eauto..|auto].
Qed.

Lemma find_listener T w l : wf_listeners T w ->
  match List.find (fun e => bool_decide (fst e = l)) (w_listeners w) with
  | Some (l', L) => l' = l /\ (l, L) ∈ w_listeners w
  | None => forall L, (l, L) ∉ w_listeners w
  end.
Proof.
  intros I. destruct (List.find _ _) as [[l' L]|] eqn:Hf.
  - apply find_some in Hf as [Hin Hb]. apply bool_decide_eq_true in Hb. cbn in Hb. subst.
    split; [done|]. by apply list_elem_of_In.
  - intros L Hin. apply list_elem_of_In in Hin. apply (find_none _ _ Hf) in Hin. by apply bool_decide_eq_false in Hin.
Qed.

(** The list without [l]. *)
Definition without (l : loc) (k : list (loc * alistener)) : list (loc * alistener) :=
  List.filter (fun e => negb (bool_decide (fst e = l))) k.

Lemma elem_of_without l k e : e ∈ without l k <-> e ∈ k /\ fst e <> l.
Proof.
  unfold without. rewrite list_elem_of_In, filter_In, <- list_elem_of_In.
  rewrite negb_true_iff, bool_decide_eq_false. done.
Qed.

Lemma without_nodup l k : NoDup (map fst k) -> NoDup (map fst (without l k)).
Proof.
  induction k as [|[l' L] k IH]; [done|]. cbn. intros [Hn Hnd]%NoDup_cons. case_bool_decide; cbn; [auto|].
  apply NoDup_cons. split; [|auto]. intros Hin. apply Hn. apply list_elem_of_fmap in Hin as ([l2 L2] & Heq & Hin).
  apply elem_of_without in Hin as [Hin _]. apply list_elem_of_fmap. by exists (l2, L2).
Qed.

(** An operation that leaves the listeners, their event objects and the
    transports alone keeps the invariant. *)
Lemma wf_listeners_keep T w w' :
  wf_listeners T w -> w_listeners w' = w_listeners w -> w_transports w' = w_transports w ->
  (forall l L, (l, L) ∈ w_listeners w ->
     w_socks w' !! l = w_socks w !! l /\ fdes (w_fds w') !! l = fdes (w_fds w) !! l) ->
  wf_listeners T w'.
Proof.
  intros IL Hl Ht Hk. constructor; rewrite ?Hl, ?Ht; try apply IL.
  - intros l L Hin. destruct (Hk l L Hin) as [-> _]. by apply (wl_socks _ _ IL l L).
  - intros l L Hin. destruct (Hk l L Hin) as [_ ->]. by apply (wl_fde _ _ IL).
Qed.

(** The address of a listener is not that of a socket. *)
Lemma listener_not_sock T w l L s : wf_listeners T w -> (l, L) ∈ w_listeners w -> is_Some (w_socks w !! s) -> l <> s.
Proof. intros IL Hin [x Hx] ->. by rewrite (wl_socks _ _ IL s L Hin) in Hx. Qed.

(** The frame of an operation on sockets. *)
Lemma wf_listeners_frame T D w w' :
  wf_listeners T w -> frame D w w' -> (forall q, q ∈ D -> is_Some (w_socks w !! q)) -> wf_listeners T w'.
Proof.
  intros IL F HD. pose proof (fr_rest _ _ _ F) as Hr. unfold rest_of in Hr. injection Hr as _ _ Hl _ _.
  apply (wf_listeners_keep T w); [done|done|apply (fr_transports _ _ _ F)|]. intros l L Hin.
  assert (l ∉ D) by (intros Hd; by apply (listener_not_sock T w l L l IL Hin (HD l Hd))).
  split; [by apply (fr_socks _ _ _ F)|by apply (fr_fdes _ _ _ F)].
Qed.

End Keep.

Section Ops.
Context {E : Type} {K : Kernel E} {B : Build} {PF : Platform} {LB : LibBase} {SO : SetOrder} {SV : Services E} {N : Net E}.
Implicit Types (w : world E) (s t l : loc).

(** The event object of [l] removed and freed. *)
Record fd_gone (l : loc) (fd : Z) (st st' : fdstate fd_func) : Prop := {
  fg_inv : fd_inv st';
  fg_self : fdes st' !! l = None;
  fg_others : forall q, q <> l -> fdes st' !! q = fdes st !! q;
  fg_nodes : g_poll_node_map st' = delete fd (g_poll_node_map st);
}.

Lemma removed_gone l e (st st1 : fdstate fd_func) :
  fd_inv st1 -> fd_removed l e st st1 -> fd_gone l (fde_fd e) st (set_fdes (delete l (fdes st1)) st1).
Proof.
  intros I1 R. destruct (removed_self _ _ _ _ R) as (e' & He' & Hs' & _). constructor; cbn.
  - eapply fd_free_inv; [done|done|]. unfold is_active. by rewrite Hs'.
  - apply lookup_delete_eq.
  - intros q Hq. rewrite lookup_delete_ne by done. by apply (removed_others _ _ _ _ R).
  - apply (removed_nodes _ _ _ _ R).
Qed.

(** The transport [ot] forgets the listener [l]. *)
Definition disconnects_of (ot : option loc) (l : loc) (m : gmap loc atransport) : gmap loc atransport :=
  match ot with Some t => alter (RemoveDisconnect (DisconnectListener l)) t m | None => m end.

(** What erasing [l] leaves; [ot]: the transport that forgets it. *)
Definition erased (l : loc) (ot : option loc) (st : fdstate fd_func) w : world E :=
  set_w_fds st (set_w_transports (disconnects_of ot l (w_transports w)) (set_w_listeners (without l (w_listeners w)) w)).

Lemma disconnects_dom ot l m t x' : disconnects_of ot l m !! t = Some x' ->
  exists x, m !! t = Some x /\ (forall d, d ∈ t_disconnects x' -> d ∈ t_disconnects x) /\
    (forall d, d <> DisconnectListener l -> d ∈ t_disconnects x -> d ∈ t_disconnects x') /\
    (ot = Some t -> DisconnectListener l ∉ t_disconnects x').
Proof.
  unfold disconnects_of. destruct ot as [t0|]; [|intros Hx; exists x'; by split_and!].
  destruct (decide (t0 = t)) as [->|Hne].
  - rewrite lookup_alter_eq. destruct (m !! t) as [x|]; [|done]. intros [= <-].
    exists x. split; [done|]. unfold RemoveDisconnect. cbn. split_and!.
    + intros d [_ Hd]%list_elem_of_filter. done.
    + intros d Hne Hd. by apply list_elem_of_filter.
    + intros _ [Hn _]%list_elem_of_filter. done.
  - rewrite lookup_alter_ne by done. intros Hx. exists x'. split_and!; [done..|]. congruence.
Qed.

Lemma disconnects_keep ot l m (t : loc) : is_Some (m !! t) -> is_Some (disconnects_of ot l m !! t).
Proof.
  intros Hx. unfold disconnects_of. destruct ot as [t0|]; [|done].
  destruct (decide (t0 = t)) as [->|Hne]; [rewrite lookup_alter_eq; by destruct Hx as [x ->]|by rewrite lookup_alter_ne].
Qed.

Lemma erased_beside T l L0 ot fd st w :
  wf ∅ w -> wf_listeners T w -> (l, L0) ∈ w_listeners w -> fd_gone l fd (w_fds w) st -> beside w (erased l ot st w).
Proof.
  intros I IL Hin G. pose proof (wl_socks _ _ IL l L0 Hin) as Hsock. constructor; cbn; try done.
  - apply G.
  - intros s Hs. apply (fg_others _ _ _ _ G). intros ->. rewrite Hsock in Hs. by destruct Hs.
  - intros t. apply disconnects_keep.
  - intros q [Hq|[x' Hx']].
    + apply (wf_fresh _ _ I). right; left. rewrite <- (fg_others _ _ _ _ G); [done|]. intros ->.
      rewrite (fg_self _ _ _ _ G) in Hq. by destruct Hq.
    + destruct (disconnects_dom _ _ _ _ _ Hx') as (x & Hx & _). apply (wf_fresh _ _ I). right; right. by exists x.
Qed.

(** The entry that is erased is the one of the list, or that entry cut off from
    a transport whose disconnect functions are being run. *)
Definition cut_off (T : gset loc) (L0 L : alistener) : Prop :=
  L = L0 \/ L = set_l_transport None L0 /\ (forall t, l_transport L0 = Some t -> t ∈ T).

Lemma erased_wf_listeners T l L0 L fd st w :
  wf_listeners T w -> (l, L0) ∈ w_listeners w -> cut_off T L0 L -> fd_gone l fd (w_fds w) st ->
  wf_listeners T (erased l (l_transport L) st w).
Proof.
  intros IL Hin HL G. constructor; cbn.
  - apply without_nodup, (wl_nodup _ _ IL).
  - intros q L' [Hq _]%elem_of_without. by apply (wl_socks _ _ IL q L').
  - intros q L' [Hq Hne]%elem_of_without. rewrite (fg_others _ _ _ _ G) by done. by apply (wl_fde _ _ IL).
  - intros q L' t [Hq Hne]%elem_of_without Ht. destruct (wl_transport _ _ IL q L' t Hq Ht) as (x & Hx & Hd).
    destruct (disconnects_keep (l_transport L) l _ t (ex_intro _ x Hx)) as [x' Hx'].
    destruct (disconnects_dom _ _ _ _ _ Hx') as (x2 & Hx2 & _ & Hd2 & _). exists x'. split; [done|].
    apply Hd2; [by intros [= ->]|]. congruence.
  - intros t x' q HT Hx' Hd. destruct (disconnects_dom _ _ _ _ _ Hx') as (x & Hx & Hsub & _ & Hrem).
    destruct (wl_disconnect _ _ IL t x q HT Hx (Hsub _ Hd)) as (L' & HL' & Ht). exists L'. split; [|done].
    apply elem_of_without. split; [done|]. cbn. intros ->.
    pose proof (listener_unique _ _ _ _ _ IL Hin HL') as <-. destruct HL as [->|[_ HT']]; [by apply Hrem|].
    by apply HT, HT'.
  - intros q L' [Hq _]%elem_of_without. by apply (wl_forward _ _ IL q L').
Qed.

Lemma wp_erase_listener T l L0 L w (Q : unit -> world E -> Prop) :
  wf ∅ w -> wf_listeners T w -> (l, L0) ∈ w_listeners w -> cut_off T L0 L ->
  (forall st, wf ∅ (erased l (l_transport L) st w) -> wf_listeners T (erased l (l_transport L) st w) ->
     beside w (erased l (l_transport L) st w) -> fd_gone l (l_fd L0) (w_fds w) st ->
     Q tt (erased l (l_transport L) st w)) ->
  wp (erase_listener l L) Q w.
Proof.
  intros I IL Hin HL HQ. destruct (wl_fde _ _ IL l L0 Hin) as (e & He & Ha & Hfd).
  unfold erase_listener, alistener_delete. apply wp_bind, wp_modify. apply wp_bind, wp_on_fds. cbn.
  eapply wp_fdevent_remove; [apply (wf_fd _ _ I)|done|done|]. intros st1 I1 R.
  pose proof (removed_gone _ _ _ _ I1 R) as G. set (st := set_fdes _ st1) in G.
  assert (Hend : Q tt (erased l (l_transport L) st w)).
  { pose proof (erased_beside _ _ _ (l_transport L) _ _ _ I IL Hin G) as Hbe.
    apply HQ; [by eapply wf_beside|by eapply erased_wf_listeners|done|by rewrite <- Hfd]. }
  apply wp_bind. destruct (l_transport L) as [t|] eqn:Ht.
  - assert (HL' : L = L0) by (destruct HL as [|[-> _]]; [done|by cbn in Ht]). subst L0.
    destruct (wl_transport _ _ IL l L t Hin Ht) as (x & Hx & _).
    unfold upd_transport. apply wp_bind. eapply wp_load_transport; [exact Hx|]. apply wp_modify, wp_on_fds, wp_modify.
    match goal with |- Q tt ?w' => replace w' with (erased l (Some t) st w); [done|] end.
    unfold erased, disconnects_of. cbn. unfold set_w_fds, set_w_transports. cbn. f_equal.
    apply map_eq. intros q. destruct (decide (q = t)) as [->|]; [by rewrite lookup_alter_eq, lookup_insert_eq, Hx|].
    by rewrite lookup_alter_ne, lookup_insert_ne by done.
  - by apply wp_ret, wp_on_fds, wp_modify.
Qed.

(** Both invariants, and nothing but listeners touched. *)
Definition listeners_step w w' : Prop := wf ∅ w' /\ wf_listeners ∅ w' /\ beside w w' /\ w_sent w' = w_sent w.

Lemma wp_erase_whole l L w (Q : unit -> world E -> Prop) :
  wf ∅ w -> wf_listeners ∅ w -> (l, L) ∈ w_listeners w ->
  (forall w', listeners_step w w' -> w_listeners w' = without l (w_listeners w) ->
     g_poll_node_map (w_fds w') = delete (l_fd L) (g_poll_node_map (w_fds w)) -> Q tt w') ->
  wp (erase_listener l L) Q w.
Proof.
  intros I IL Hin HQ. eapply (wp_erase_listener ∅ l L L); [done..|by left|]. intros st I' IL' Hbe G.
  apply HQ; [|done|apply (fg_nodes _ _ _ _ G)]. by split_and!.
Qed.

(** [remove_listener] answers [INSTALL_STATUS_OK] exactly when a listener has
    the name; then that listener, the first one, is off the list, its socket is
    closed and no transport refers to it any more; otherwise nothing changes. *)
Theorem remove_listener_spec name ot w :
  wf ∅ w -> wf_listeners ∅ w ->
  wp (remove_listener name ot) (fun r w' => listeners_step w w' /\
    if decide (name ∈ map (fun e => l_local_name (snd e)) (w_listeners w))
    then r = INSTALL_STATUS_OK /\ exists l L, (l, L) ∈ w_listeners w /\ l_local_name L = name /\
           w_listeners w' = without l (w_listeners w) /\
           g_poll_node_map (w_fds w') !! l_fd L = None /\
           (forall t x, w_transports w' !! t = Some x -> DisconnectListener l ∉ t_disconnects x)
    else r = INSTALL_STATUS_LISTENER_NOT_FOUND /\ w' = w) w.
Proof.
  intros I IL. unfold remove_listener. apply wp_bind, wp_get.
  destruct (List.find _ _) as [[l L]|] eqn:Hf.
  - apply find_some in Hf as [Hin%list_elem_of_In Hb%bool_decide_eq_true]. cbn in Hb.
    apply wp_bind, (wp_erase_whole l L); [done..|]. intros w' S Hl Hn. apply wp_ret. split; [done|].
    rewrite decide_True by (apply list_elem_of_fmap; by exists (l, L)). split; [done|].
    exists l, L. split_and!; [done..|by rewrite Hn, lookup_delete_eq|].
    intros t x Hx Hd. destruct S as (_ & IL' & _). destruct (wl_disconnect _ _ IL' t x l ltac:(set_solver) Hx Hd) as (L' & Hin' & _).
    rewrite Hl in Hin'. apply elem_of_without in Hin' as [_ Hne]. done.
  - apply wp_ret. split; [split_and!; [done..|by apply beside_refl|done]|]. rewrite decide_False; [done|].
    intros ([l L] & -> & Hin)%list_elem_of_fmap. apply list_elem_of_In in Hin. apply (find_none _ _ Hf) in Hin.
    by apply bool_decide_eq_false in Hin.
Qed.

Lemma wp_remove_all k w :
  wf ∅ w -> wf_listeners ∅ w -> NoDup (map fst k) -> (forall e, e ∈ k -> e ∈ w_listeners w) ->
  wp (iter_list (fun e => if is_special (snd e) then ret tt else erase_listener (fst e) (snd e)) k)
    (fun _ w' => listeners_step w w' /\
      forall e, e ∈ w_listeners w' <-> e ∈ w_listeners w /\ (is_special (snd e) = true \/ e ∉ k)) w.
Proof.
  revert w. induction k as [|[l L] k IH]; intros w I IL Hnd Hin; cbn.
  - split; [split_and!; [done..|by apply beside_refl|done]|]. intros e. split; [|tauto]. intros He. split; [done|]. right. apply not_elem_of_nil.
  - cbn in Hnd. apply NoDup_cons in Hnd as [Hl Hnd]. apply wp_bind. destruct (is_special L) eqn:Hsp.
    + apply wp_ret. eapply wp_mono; [apply IH; [done..|intros e He; apply Hin; by right]|]. cbn. intros _ w' [S Hm].
      split; [done|]. intros e. rewrite Hm. rewrite not_elem_of_cons. split; [|tauto]. intros [He [Hs|Hn]]; [tauto|].
      split; [done|]. destruct (decide (e = (l, L))) as [->|]; [by left|by right].
    + apply (wp_erase_whole l L); [done..|apply Hin; by left|]. intros w1 (I1 & IL1 & Hb1 & Hs1) Hl1 _.
      eapply wp_mono; [apply IH; [done..|]|].
      * intros e He. rewrite Hl1. apply elem_of_without. split; [apply Hin; by right|]. intros <-. apply Hl.
        apply list_elem_of_fmap. by exists e.
      * cbn. intros _ w' [(I' & IL' & Hb' & Hs') Hm]. split; [split_and!; [done..|by eapply beside_trans|congruence]|].
        intros e. rewrite Hm, Hl1, elem_of_without, not_elem_of_cons. split.
        -- intros [[He Hne] Hor]. split; [done|]. destruct Hor as [|Hn]; [by left|]. right. split; [by intros ->|done].
        -- intros [He Hor]. assert (e <> (l, L)) as Hne by (intros ->; destruct Hor as [Hs|[Hn _]]; [cbn in Hs; congruence|done]).
           split; [|tauto]. split; [done|]. intros Hfst. apply Hne. destruct e as [l' L']. cbn in Hfst. subst l'.
           f_equal. eapply (listener_unique ∅ w l); [done..|]. apply Hin. by left.
Qed.

(** [remove_all_listeners] removes every forward and keeps the smart sockets,
    whatever their order; the invariants hold afterwards. *)
Theorem remove_all_listeners_spec w :
  wf ∅ w -> wf_listeners ∅ w ->
  wp remove_all_listeners (fun _ w' => listeners_step w w' /\
    forall e, e ∈ w_listeners w' <-> e ∈ w_listeners w /\ is_special (snd e) = true) w.
Proof.
  intros I IL. unfold remove_all_listeners. apply wp_bind, wp_get.
  eapply wp_mono; [apply wp_remove_all; [done..|apply (wl_nodup _ _ IL)|done]|]. cbn. intros _ w' [S Hm].
  split; [done|]. intros e. rewrite Hm. split; [|tauto]. intros [He [Hs|Hn]]; [done|by exfalso; apply Hn].
Qed.

(** ** Installing *)

(** The listener [l] changed to [L'], and the transports to [m]. *)
Definition relisted (l : loc) (L' : alistener) (m : gmap loc atransport) w : world E :=
  set_w_listeners (map (fun e => if bool_decide (fst e = l) then (l, L') else e) (w_listeners w)) (set_w_transports m w).

Lemma elem_of_relisted l L' (k : list (loc * alistener)) q Q' :
  l ∈ map fst k ->
  (q, Q') ∈ map (fun e => if bool_decide (fst e = l) then (l, L') else e) k <->
  (q = l /\ Q' = L') \/ (q <> l /\ (q, Q') ∈ k).
Proof.
  intros Hl. rewrite list_elem_of_fmap. split.
  - intros ([r R] & Heq & Hin). cbn in Heq. case_bool_decide; simplify_eq; [by left|by right].
  - intros [[-> ->]|[Hne Hin]].
    + apply list_elem_of_fmap in Hl as ([r R] & Hr & Hin). cbn in Hr. subst r. exists (l, R). cbn. by rewrite bool_decide_true.
    + exists (q, Q'). cbn. by rewrite bool_decide_false.
Qed.

Lemma relisted_fst l L' (k : list (loc * alistener)) :
  map fst (map (fun e => if bool_decide (fst e = l) then (l, L') else e) k) = map fst k.
Proof. rewrite map_map. apply map_ext. intros [r R]. cbn. by case_bool_decide. Qed.

Lemma listener_fst (k : list (loc * alistener)) l L : (l, L) ∈ k -> l ∈ map fst k.
Proof. intros Hin. apply list_elem_of_fmap. by exists (l, L). Qed.

(** What has to hold of the transports when [l] moves to [ot]. *)
Record moved (T : gset loc) (l : loc) (ot : option loc) w (m : gmap loc atransport) : Prop := {
  mv_keep : forall t, is_Some (w_transports w !! t) <-> is_Some (m !! t);
  mv_self : forall t, ot = Some t -> exists x, m !! t = Some x /\ DisconnectListener l ∈ t_disconnects x;
  mv_only : forall t x, t ∉ T -> m !! t = Some x -> DisconnectListener l ∈ t_disconnects x -> ot = Some t;
  mv_others : forall t x x' d, w_transports w !! t = Some x -> m !! t = Some x' -> d <> DisconnectListener l ->
                d ∈ t_disconnects x' <-> d ∈ t_disconnects x;
}.

Lemma relisted_ok T l L L' m w :
  wf ∅ w -> wf_listeners T w -> (l, L) ∈ w_listeners w -> l_fd L' = l_fd L ->
  (is_special L' = false -> is_Some (l_transport L')) -> moved T l (l_transport L') w m ->
  wf ∅ (relisted l L' m w) /\ wf_listeners T (relisted l L' m w).
Proof.
  intros I IL Hin Hfd Hsp [Hk Hs Ho Hd]. pose proof (listener_fst _ _ _ Hin) as Hl. split.
  - eapply wf_beside; [exact I|]. constructor; cbn; try done; [apply (wf_fd _ _ I)|intros t; apply Hk|].
    intros q [Hq|Hq]; [|apply Hk in Hq]; apply (wf_fresh _ _ I); tauto.
  - constructor; cbn.
    + rewrite relisted_fst. apply (wl_nodup _ _ IL).
    + intros q Q [[-> ->]|[_ Hq]]%elem_of_relisted; [by apply (wl_socks _ _ IL l L)|by apply (wl_socks _ _ IL q Q)|done].
    + intros q Q [[-> ->]|[_ Hq]]%elem_of_relisted; [|by apply (wl_fde _ _ IL)|done].
      rewrite Hfd. by apply (wl_fde _ _ IL).
    + intros q Q t [[-> ->]|[Hne Hq]]%elem_of_relisted Ht; [by apply Hs| |done].
      destruct (wl_transport _ _ IL q Q t Hq Ht) as (x & Hx & Hdx).
      destruct (proj1 (Hk t) (ex_intro _ x Hx)) as [x' Hx']. exists x'. split; [done|].
      apply (Hd t x x'); [done..|congruence|done].
    + intros t x' q HT Hx' Hdx. destruct (decide (q = l)) as [->|Hne].
      * exists L'. split; [|by eapply Ho]. apply elem_of_relisted; [done|by left].
      * destruct (proj2 (Hk t) (ex_intro _ x' Hx')) as [x Hx].
        assert (DisconnectListener q ∈ t_disconnects x) as Hdq by (apply (Hd t x x'); [done..|congruence|done]).
        destruct (wl_disconnect _ _ IL t x q HT Hx Hdq) as (Q & HQ & Ht). exists Q. split; [|done].
        apply elem_of_relisted; [done|by right].
    + intros q Q [[-> ->]|[_ Hq]]%elem_of_relisted; [done|by apply (wl_forward _ _ IL q Q)|done].
Qed.

(** From the transport [old] to [new]. *)
Definition handed_over (l old new : loc) xo xn (m : gmap loc atransport) : gmap loc atransport :=
  <[new := AddDisconnect (DisconnectListener l) xn]> (<[old := RemoveDisconnect (DisconnectListener l) xo]> m).

Lemma moved_over l L old new xo xn w :
  wf_listeners ∅ w -> (l, L) ∈ w_listeners w -> l_transport L = Some old -> old <> new ->
  w_transports w !! old = Some xo -> w_transports w !! new = Some xn ->
  moved ∅ l (Some new) w (handed_over l old new xo xn (w_transports w)).
Proof.
  intros IL Hin Ho Hne Hxo Hxn. unfold handed_over, AddDisconnect, RemoveDisconnect. constructor.
  - intros t. destruct (decide (t = new)) as [->|]; [rewrite lookup_insert_eq, Hxn; by split|].
    rewrite lookup_insert_ne by done. destruct (decide (t = old)) as [->|]; [rewrite lookup_insert_eq, Hxo; by split|].
    by rewrite lookup_insert_ne.
  - intros t [= <-]. rewrite lookup_insert_eq. eexists. split; [done|]. cbn. apply elem_of_app. right. by left.
  - intros t x HT Hx Hd. destruct (decide (t = new)) as [->|]; [done|]. exfalso. rewrite lookup_insert_ne in Hx by done.
    destruct (decide (t = old)) as [->|Hno].
    + rewrite lookup_insert_eq in Hx. injection Hx as <-. by apply list_elem_of_filter in Hd as [].
    + rewrite lookup_insert_ne in Hx by done.
      destruct (wl_disconnect _ _ IL t x l HT Hx Hd) as (L2 & HL2 & Ht).
      rewrite (listener_unique _ _ _ _ _ IL HL2 Hin) in Ht. congruence.
  - intros t x x' d Hx Hx' Hd. destruct (decide (t = new)) as [->|].
    + rewrite lookup_insert_eq in Hx'. injection Hx' as <-. simplify_eq. cbn. rewrite elem_of_app, list_elem_of_singleton.
      naive_solver.
    + rewrite lookup_insert_ne in Hx' by done. destruct (decide (t = old)) as [->|].
      * rewrite lookup_insert_eq in Hx'. injection Hx' as <-. simplify_eq. cbn. rewrite list_elem_of_filter. naive_solver.
      * rewrite lookup_insert_ne in Hx' by done. by simplify_eq.
Qed.

(** The transport is kept. *)
Lemma moved_stay l L w :
  wf_listeners ∅ w -> (l, L) ∈ w_listeners w -> moved ∅ l (l_transport L) w (w_transports w).
Proof.
  intros IL Hin. constructor; [done| | |].
  - intros t Ht. by apply (wl_transport _ _ IL l L).
  - intros t x HT Hx Hd. destruct (wl_disconnect _ _ IL t x l HT Hx Hd) as (L2 & HL2 & Ht).
    by rewrite (listener_unique _ _ _ _ _ IL HL2 Hin) in Ht.
  - intros t x x' d Hx Hx' _. by simplify_eq.
Qed.

Lemma wp_upd_transport t x f w (Q : unit -> world E -> Prop) :
  w_transports w !! t = Some x -> Q tt (set_w_transports (<[t := f x]> (w_transports w)) w) -> wp (upd_transport t f) Q w.
Proof. intros Hx HQ. unfold upd_transport. apply wp_bind. eapply wp_load_transport; [done|]. by apply wp_modify. Qed.

(** A new listener at the fresh address [l]. *)
Record listened (l : loc) (L : alistener) w w' : Prop := {
  ln_fresh : l = w_next w;
  ln_listeners : w_listeners w' = w_listeners w ++ [(l, L)];
  ln_fde : exists e, fdes (w_fds w') !! l = Some e /\ is_active e /\ fde_fd e = l_fd L;
  ln_fd : fd_inv (w_fds w');
  ln_fdes : forall q, q <> l -> fdes (w_fds w') !! q = fdes (w_fds w) !! q;
  ln_socks : socks_of w' = socks_of w;
  ln_next : w_next w' = Pos.succ (w_next w);
  ln_moved : moved ∅ l (l_transport L) w (w_transports w');
}.

Lemma listened_ok l L w w' :
  wf ∅ w -> wf_listeners ∅ w -> (is_special L = false -> is_Some (l_transport L)) -> listened l L w w' ->
  wf ∅ w' /\ wf_listeners ∅ w'.
Proof.
  intros I IL Hsp [-> Hl Hfde Hfd Hfdes Hs Hn [Hk Hms Hmo Hmd]].
  assert (Hfr : w_socks w !! w_next w = None /\ fdes (w_fds w) !! w_next w = None).
  { split; apply eq_None_not_Some; intros Hx; [pose proof (wf_fresh _ _ I _ (or_introl Hx))|
      pose proof (wf_fresh _ _ I _ (or_intror (or_introl Hx)))]; lia. }
  assert (Hnew : forall Q, (w_next w, Q) ∉ w_listeners w).
  { intros Q HQ. destruct (wl_fde _ _ IL _ Q HQ) as (e & He & _). destruct Hfr. congruence. }
  assert (Hold : forall q Q, (q, Q) ∈ w_listeners w -> q <> w_next w) by (intros q Q HQ ->; by apply (Hnew Q)).
  assert (Hin : forall q Q, (q, Q) ∈ w_listeners w' <-> (q, Q) ∈ w_listeners w \/ (q = w_next w /\ Q = L)).
  { intros q Q. rewrite Hl, elem_of_app, list_elem_of_singleton. naive_solver. }
  split.
  - eapply wf_beside; [exact I|]. constructor; try done.
    + intros s [x Hx]. apply Hfdes. intros ->. destruct Hfr. congruence.
    + intros t. apply Hk.
    + intros q [Hq|Hq].
      * destruct (decide (q = w_next w)) as [->|Hne]; [lia|]. rewrite Hfdes in Hq by done.
        pose proof (wf_fresh _ _ I q (or_intror (or_introl Hq))). lia.
      * apply Hk in Hq. pose proof (wf_fresh _ _ I q (or_intror (or_intror Hq))). lia.
    + lia.
  - unfold socks_of in Hs. injection Hs as Hs _ _ _ _ _. constructor.
    + rewrite Hl, map_app. apply NoDup_app. split_and!; [apply (wl_nodup _ _ IL)| |apply NoDup_singleton].
      intros q Hq ->%list_elem_of_singleton. apply list_elem_of_fmap in Hq as ([r R] & Hr & Hq). cbn in Hr. subst r.
      by apply (Hnew R).
    + intros q Q [Hq|[-> _]]%Hin; rewrite Hs; [by apply (wl_socks _ _ IL q Q)|apply Hfr].
    + intros q Q [Hq|[-> ->]]%Hin; [|exact Hfde]. rewrite Hfdes by by eapply Hold. by apply (wl_fde _ _ IL).
    + intros q Q t [Hq|[-> ->]]%Hin Ht; [|by apply Hms].
      destruct (wl_transport _ _ IL q Q t Hq Ht) as (x & Hx & Hd). destruct (proj1 (Hk t) (ex_intro _ x Hx)) as [x' Hx'].
      exists x'. split; [done|]. apply (Hmd t x x'); [done..| |done]. intros [= ->]. by apply (Hnew Q).
    + intros t x' q HT Hx' Hd. destruct (decide (q = w_next w)) as [->|Hne].
      * exists L. split; [apply Hin; by right|by eapply Hmo].
      * destruct (proj2 (Hk t) (ex_intro _ x' Hx')) as [x Hx].
        destruct (wl_disconnect _ _ IL t x q HT Hx) as (Q & HQ & Ht); [apply (Hmd t x x'); [done..|congruence|done]|].
        exists Q. split; [apply Hin; by left|done].
    + intros q Q [Hq|[-> ->]]%Hin; [by apply (wl_forward _ _ IL q Q)|done].
Qed.

(** The descriptor to listen on is not one that is open already. *)
Definition listens_fresh (name : bytes) w : Prop :=
  wp (socket_spec_listen name true)
    (fun r _ => (0 <= fst (fst r))%Z -> g_poll_node_map (w_fds w) !! fst (fst r) = None) (w_env w).

Lemma wp_rebind l L connect_to ot want w (Q : InstallStatus * option Z * bytes -> world E -> Prop) :
  wf ∅ w -> wf_listeners ∅ w -> (l, L) ∈ w_listeners w -> is_special L = false ->
  (is_Some ot) -> (forall t, ot = Some t -> is_Some (w_transports w !! t)) ->
  (forall m, let L' := set_l_connect_to connect_to (set_l_transport ot L) in
     wf ∅ (relisted l L' m w) -> wf_listeners ∅ (relisted l L' m w) -> Q want (relisted l L' m w)) ->
  let update L' := modify (fun w => set_w_listeners
    (map (fun e => if bool_decide (fst e = l) then (l, L') else e) (w_listeners w)) w) in
  let L1 := set_l_connect_to connect_to L in
  wp (update L1 ;;;
      (if bool_decide (l_transport L = ot) then ret tt
       else
         let* old := deref (l_transport L) in
         upd_transport old (RemoveDisconnect (DisconnectListener l)) ;;;
         update (set_l_transport ot L1) ;;;
         let* new := deref ot in
         upd_transport new (AddDisconnect (DisconnectListener l))) ;;;
      ret want) Q w.
Proof.
  intros I IL Hin Hsp [new ->] Hnew HQ update L1. destruct (wl_forward _ _ IL l L Hin Hsp) as [old Hold].
  unfold update. apply wp_bind, wp_modify, wp_bind. case_bool_decide as Heq.
  - apply wp_ret, wp_ret. cbn in HQ. specialize (HQ (w_transports w)).
    assert (set_l_connect_to connect_to (set_l_transport (Some new) L) = L1) as HL by (by rewrite <- Heq; destruct L).
    rewrite HL in HQ. assert (relisted l L1 (w_transports w) w = set_w_listeners
      (map (fun e => if bool_decide (fst e = l) then (l, L1) else e) (w_listeners w)) w) as Hw by by destruct w.
    rewrite Hw in HQ. destruct (relisted_ok ∅ l L L1 (w_transports w) w) as [I1 IL1];
      [done|done|done|done|intros _; cbn; by rewrite Hold|by eapply (moved_stay l L)|].
    rewrite Hw in I1, IL1. by apply HQ.
  - destruct (wl_transport _ _ IL l L old Hin Hold) as (xo & Hxo & _). destruct (Hnew new eq_refl) as [xn Hxn].
    assert (old <> new) as Hne by congruence.
    apply wp_bind. eapply wp_deref; [done|]. apply wp_bind. eapply wp_upd_transport; [done|].
    apply wp_bind, wp_modify, wp_bind. eapply wp_deref; [done|].
    eapply wp_upd_transport; [cbn; rewrite lookup_insert_ne by done; exact Hxn|]. apply wp_ret.
    set (L' := set_l_connect_to connect_to (set_l_transport (Some new) L)) in *.
    specialize (HQ (handed_over l old new xo xn (w_transports w))). cbn in HQ.
    assert (Hmap : map (fun e => if bool_decide (fst e = l) then (l, set_l_transport (Some new) L1) else e)
        (map (fun e => if bool_decide (fst e = l) then (l, L1) else e) (w_listeners w)) =
      map (fun e => if bool_decide (fst e = l) then (l, L') else e) (w_listeners w)).
    { rewrite map_map. apply map_ext. intros [q R]. cbn. destruct (bool_decide (q = l)) eqn:Hb; cbn; [by rewrite bool_decide_true|by rewrite Hb]. }
    destruct (relisted_ok ∅ l L L' (handed_over l old new xo xn (w_transports w)) w) as [I1 IL1]; try done.
    { by eapply moved_over. }
    unfold relisted, handed_over in *. cbn. rewrite Hmap. by apply HQ.
Qed.

Lemma wp_listen_new {A} (a : A) l L fn w (Q : A -> world E -> Prop) :
  wf ∅ w -> wf_listeners ∅ w -> (is_special L = false -> is_Some (l_transport L)) -> l = w_next w ->
  (0 <= l_fd L)%Z -> g_poll_node_map (w_fds w) !! l_fd L = None ->
  (forall t, l_transport L = Some t -> is_Some (w_transports w !! t)) ->
  (forall w', wf ∅ w' -> wf_listeners ∅ w' -> w_listeners w' = w_listeners w ++ [(l, L)] ->
     pn_fde <$> g_poll_node_map (w_fds w') !! l_fd L = Some l -> Q a w') ->
  wp (on_fds (fdevent_install l (l_fd L) fn) ;;;
      on_fds (fdevent_set l FDE_READ) ;;;
      match l_transport L with
      | Some t => upd_transport t (AddDisconnect (DisconnectListener l))
      | None => ret tt
      end ;;;
      modify (fun w => set_w_listeners (w_listeners w ++ [(l, L)]) w) ;;; ret a) Q (set_w_next (Pos.succ (w_next w)) w).
Proof.
  intros I IL Hsp -> Hfd Hpoll Ht HQ.
  assert (Hnf : fdes (w_fds w) !! w_next w = None).
  { apply eq_None_not_Some. intros Hx. pose proof (wf_fresh _ _ I _ (or_intror (or_introl Hx))). lia. }
  apply wp_bind, wp_on_fds, wp_fdevent_install; [apply (wf_fd _ _ I)|done|done|done|]. intros st1 Ist1.
  apply wp_bind, wp_on_fds. cbn. eapply wp_fdevent_set; [done|apply lookup_insert_eq|done|].
  intros st2 e Ist2 F He Ha Hfde Hfn _ _.
  assert (Hend : forall m, moved ∅ (w_next w) (l_transport L) w m ->
    Q a (set_w_listeners (w_listeners w ++ [(w_next w, L)]) (set_w_transports m (set_w_fds st2 (set_w_next (Pos.succ (w_next w)) w))))).
  { intros m Hm. set (w' := set_w_listeners _ _).
    assert (LN : listened (w_next w) L w w').
    { constructor; try done; cbn.
      - by exists e.
      - intros q Hq. rewrite (frame_others _ _ _ F) by done. cbn. by rewrite lookup_insert_ne. }
    destruct (listened_ok _ _ _ _ I IL Hsp LN) as [I' IL']. apply HQ; try done. cbn.
    rewrite (frame_nodes _ _ _ F). cbn. by rewrite lookup_insert_eq. }
  apply wp_bind. destruct (l_transport L) as [t|] eqn:Hlt.
  - destruct (Ht t eq_refl) as [x Hx]. eapply wp_upd_transport; [exact Hx|]. apply wp_bind, wp_modify, wp_ret. cbn.
    apply (Hend (<[t := AddDisconnect (DisconnectListener (w_next w)) x]> (w_transports w))). constructor.
    + intros q. destruct (decide (q = t)) as [->|]; [rewrite lookup_insert_eq, Hx; by split|by rewrite lookup_insert_ne].
    + intros q [= <-]. rewrite lookup_insert_eq. eexists. split; [done|]. cbn. apply elem_of_app. right. by left.
    + intros q y HT Hy Hd. destruct (decide (q = t)) as [->|Hne]; [done|]. rewrite lookup_insert_ne in Hy by done.
      destruct (wl_disconnect _ _ IL q y _ HT Hy Hd) as (R & HR & _). destruct (wl_fde _ _ IL _ R HR) as (e' & He' & _). congruence.
    + intros q y y' d Hy Hy' Hd. destruct (decide (q = t)) as [->|Hne].
      * rewrite lookup_insert_eq in Hy'. injection Hy' as <-. simplify_eq. cbn. rewrite elem_of_app, list_elem_of_singleton.
        naive_solver.
      * rewrite lookup_insert_ne in Hy' by done. by simplify_eq.
  - apply wp_ret, wp_bind, wp_modify, wp_ret. cbn. replace (set_w_fds st2 _) with (set_w_transports (w_transports w) (set_w_fds st2 (set_w_next (Pos.succ (w_next w)) w))) by by destruct w.
    apply Hend. constructor; try done.
    + intros q y HT Hy Hd. destruct (wl_disconnect _ _ IL q y _ HT Hy Hd) as (R & HR & _).
      destruct (wl_fde _ _ IL _ R HR) as (e' & He' & _). congruence.
    + intros q y y' d Hy Hy' _. by simplify_eq.
Qed.

(** What [install_listener] answers and leaves. *)
Definition installed (name connect_to : bytes) (ot : option loc) (no_rebind : bool) w (r : InstallStatus) w' : Prop :=
  match List.find (fun e => bool_decide (l_local_name (snd e) = name)) (w_listeners w) with
  | Some (l, L) =>
      if is_special L then r = INSTALL_STATUS_INTERNAL_ERROR /\ w' = w
      else if no_rebind then r = INSTALL_STATUS_CANNOT_REBIND /\ w' = w
      else r = INSTALL_STATUS_OK /\ exists m, w' = relisted l (set_l_connect_to connect_to (set_l_transport ot L)) m w
  | None =>
      r = INSTALL_STATUS_CANNOT_BIND /\ w_listeners w' = w_listeners w \/
      r = INSTALL_STATUS_OK /\ exists L, w_listeners w' = w_listeners w ++ [(w_next w, L)] /\
        l_connect_to L = connect_to /\ l_transport L = ot /\
        pn_fde <$> g_poll_node_map (w_fds w') !! l_fd L = Some (w_next w)
  end.

(** What the callers of [install_listener] see to. *)
Record installable (name connect_to : bytes) (ot : option loc) w : Prop := {
  ib_fresh : listens_fresh name w;
  ib_transport : forall t, ot = Some t -> is_Some (w_transports w !! t);
  ib_forward : hd NUL connect_to <> byte_of 42 -> is_Some ot;
  ib_name : is_Some ot \/ name ∉ map (fun e => l_local_name (snd e)) (w_listeners w);
}.

Lemma wp_install_listener name connect_to ot no_rebind want w (Q : InstallStatus * option Z * bytes -> world E -> Prop) :
  wf ∅ w -> wf_listeners ∅ w -> installable name connect_to ot w ->
  (forall r w', wf ∅ w' -> wf_listeners ∅ w' -> installed name connect_to ot no_rebind w (fst (fst r)) w' -> Q r w') ->
  wp (install_listener name connect_to ot no_rebind want) Q w.
Proof.
  intros I IL [Hnet Ht Hot Hname] HQ. unfold install_listener, installed in *. apply wp_bind, wp_get.
  destruct (List.find _ _) as [[l L]|] eqn:Hf.
  - apply find_some in Hf as [Hin%list_elem_of_In Hb%bool_decide_eq_true]. cbn in Hb.
    destruct (is_special L) eqn:Hsp; [by apply wp_ret, HQ|]. destruct no_rebind; [by apply wp_ret, HQ|].
    apply (wp_rebind l L); try done.
    + destruct Hname as [|Hn]; [done|]. exfalso. apply Hn, list_elem_of_fmap. by exists (l, L).
    + intros m L' I' IL'. apply HQ; [done..|]. split; [done|]. by exists m.
  - apply wp_bind, wp_on_env. eapply wp_mono; [exact Hnet|]. cbn. intros [[fd err] resolved] en Hfd. cbn [fst snd] in *.
    destruct (Z.ltb_spec fd 0) as [Hneg|Hpos].
    { apply wp_ret, HQ; [by apply wf_set_env|by eapply wf_listeners_keep|by left]. }
    unfold alloc. apply wp_bind, wp_bind, wp_get, wp_bind, wp_modify, wp_ret. cbn [w_next set_w_env].
    match goal with |- context [ {| l_fd := fd; l_local_name := ?n; l_connect_to := _; l_transport := _ |} ] =>
      set (L := {| l_fd := fd; l_local_name := n; l_connect_to := connect_to; l_transport := ot |}) end.
    set (w1 := set_w_env en w).
    apply (wp_listen_new _ (w_next w1) L _ w1); try done.
    + by apply wf_set_env.
    + by eapply wf_listeners_keep.
    + intros Hsp. apply Hot. intros Hh. unfold is_special in Hsp. cbn in Hsp. destruct connect_to; [done|].
      cbn in Hh. by rewrite Hh in Hsp.
    + by apply Hfd.
    + intros w' I' IL' Hl Hn. apply HQ; [done..|]. right. split; [done|]. by exists L.
Qed.


(** [close_smartsockets] looks for a listener whose local name is
    [*smartsocket*]; but that is what smart sockets connect to, and their local
    name is the address they listen on: with no listener of that local name, the
    listener stays and the end of the list is erased. *)
Theorem close_smartsockets_misses w :
  (forall l L, (l, L) ∈ w_listeners w -> l_local_name L <> smartsocket) ->
  close_smartsockets w = Crash "erase of the end iterator".
Proof.
  intros Hn. unfold close_smartsockets, bind, get.
  assert (List.filter (fun e : loc * alistener => bool_decide (l_local_name (snd e) = smartsocket)) (w_listeners w) = []) as ->; [|done].
  destruct (List.filter _ _) as [|[l L] rest] eqn:Hf; [done|].
  assert (In (l, L) ((l, L) :: rest)) as Hin by by left. rewrite <- Hf in Hin.
  apply filter_In in Hin as [Hin%list_elem_of_In Hb%bool_decide_eq_true]. by destruct (Hn l L Hin).
Qed.

End Ops.

(** ** Examples *)

Section Demo.
#[local] Instance linux : Platform := {| ADB_LINUX := true; ADB_WINDOWS := false; gListenAll := false |}.
#[local] Instance server : Build :=
  {| ADB_HOST := true; no_perm_long_text := []; no_perm_short_text := []; vendor_keys := None |}.
#[local] Instance no_services : Services script := {|
  service_to_fd _ _ := ret (-1)%Z; create_service_thread _ := ret 9%Z;
  handle_host_request _ _ _ _ _ := ret 1%Z; getuid := 0; log_is_debuggable := false |}.

(** A port is listened on with the descriptor of its number. *)
#[local] Instance port_net : Net script := {|
  network_loopback_client p := ret (p, []);
  network_loopback_server p := ret (p, []);
  network_inaddr_any_server p := ret (p, []);
  network_connect h p := ret (p, []);
  network_local_client n ns := ret ((-1)%Z, str "refused");
  network_local_server n ns := ret ((-1)%Z, str "in use");
  adb_socket_get_local_port fd := ret 40000%Z;
  disable_tcp_nagle fd := ret tt;
  adb_socket_accept fd := ret 8%Z;
|}.

Definition run_state {A} (m : M (world script) A) (w : world script) : world script :=
  match m w with Done _ w' => w' | _ => w end.

Lemma wf_listeners_start env : wf_listeners ∅ (start_world env).
Proof.
  constructor; cbn; try (by intros * Hl; apply not_elem_of_nil in Hl); [constructor|].
  intros t x l _ Hx. apply lookup_singleton_Some in Hx as [_ <-]. intros Hd. by apply not_elem_of_nil in Hd.
Qed.

Definition install_forward := install_listener (str "tcp:7000") (str "tcp:8000") (Some 1%positive) false true.
Definition install_smart := install_listener (str "tcp:5037") smartsocket None false true.

(** One forward; then the server's own listener as well. *)
Definition forward_world : world script := run_state install_forward (start_world quiet_env).
Definition listening_world : world script := run_state install_smart forward_world.

Lemma start_transport t env : Some 1%positive = Some t -> is_Some (w_transports (start_world env) !! t).
Proof. intros [= <-]. by exists (set_t_online true (new_atransport kCsDevice)). Qed.

Lemma forward_installable : installable (str "tcp:7000") (str "tcp:8000") (Some 1%positive) (start_world quiet_env).
Proof. constructor; [by vm_compute|intros t; apply start_transport|done|by left]. Qed.


Definition sound (w : world script) : Prop := wf ∅ w /\ wf_listeners ∅ w.

Lemma forward_sound : sound forward_world.
Proof.
  apply (wp_done install_forward (fun _ => sound) (start_world quiet_env) (INSTALL_STATUS_OK, None, []));
    [by vm_compute|].
  apply wp_install_listener; [apply wf_start|apply wf_listeners_start|apply forward_installable|]. by split.
Qed.

Lemma listening_sound : sound listening_world.
Proof.
  apply (wp_done install_smart (fun _ => sound) forward_world (INSTALL_STATUS_OK, None, [])); [by vm_compute|].
  apply wp_install_listener; [apply forward_sound..| |by split].
  constructor; [by vm_compute|done|done|]. right. by vm_compute; intros Hin; elem_cases Hin.
Qed.

Lemma remove_listener_spec_witness :
  str "tcp:7000" ∈ map (fun e => l_local_name (snd e)) (w_listeners listening_world) /\
  wp (remove_listener (str "tcp:7000") None) (fun r w' => listeners_step listening_world w' /\
    if decide (str "tcp:7000" ∈ map (fun e => l_local_name (snd e)) (w_listeners listening_world))
    then r = INSTALL_STATUS_OK /\ exists l L, (l, L) ∈ w_listeners listening_world /\ l_local_name L = str "tcp:7000" /\
           w_listeners w' = without l (w_listeners listening_world) /\
           g_poll_node_map (w_fds w') !! l_fd L = None /\
           (forall t x, w_transports w' !! t = Some x -> DisconnectListener l ∉ t_disconnects x)
    else r = INSTALL_STATUS_LISTENER_NOT_FOUND /\ w' = listening_world) listening_world.
Proof. split; [vm_compute; left|]. apply remove_listener_spec; apply listening_sound. Defined.

Lemma remove_all_listeners_spec_witness :
  map (fun e => l_local_name (snd e)) (w_listeners listening_world) = [str "tcp:7000"; str "tcp:5037"] /\
  wp remove_all_listeners (fun _ w' => listeners_step listening_world w' /\
    forall e, e ∈ w_listeners w' <-> e ∈ w_listeners listening_world /\ is_special (snd e) = true) listening_world.
Proof. split; [by vm_compute|]. apply remove_all_listeners_spec; apply listening_sound. Defined.

(** The server's own listener is on the list, and is not found. *)
Lemma close_smartsockets_misses_witness :
  map (fun e => l_connect_to (snd e)) (w_listeners listening_world) = [str "tcp:8000"; smartsocket] /\
  close_smartsockets listening_world = Crash "erase of the end iterator".
Proof.
  split; [by vm_compute|]. apply close_smartsockets_misses. intros l L Hin.
  by vm_compute in Hin; elem_cases Hin; simplify_eq; vm_compute.
Defined.

End Demo.
