(* ===== verification/TransportOps.v ===== *)
(** * Transports: kicking, registration, the list of devices (transport.cpp,
      transport_local.cpp, transport_usb.cpp, adb.cpp)

    [Os] is what the code asks of the system besides reading and writing. *)

From S2P Require Import Prelude LibBase Packet AdbIo FdEvent Transport World SmartText.
From S2P Require Import Sockets SocketIo.

(** The threads the program starts. *)
Inductive thread :=
| thr_read_transport (t : loc)
| thr_write_transport (t : loc)
| thr_service (f : service_thread) (fd : Z)
| thr_client_socket
| thr_server_socket (port : Z)
| thr_qemu_socket (port : Z)
| thr_usb_ffs_open
| thr_usb_poll
| thr_mdns (port : Z)
| thr_notify_parent (fd : Z).

(** [struct tmsg] *)
Record tmsg := { tm_transport : loc; tm_action : Z }.

(** [tmsg_put] and [tmsg_get] move a whole [tmsg] through a socket pair. *)
Class Os (E : Type) := {
  adb_socketpair : E -> option (Z * Z) * E;
  start_thread : thread -> E -> E;
  tmsg_put : Z -> tmsg -> E -> bool * E;
  tmsg_get : Z -> E -> option tmsg * E;
  usb_kick : option Z -> E -> E;
  usb_close : option Z -> E -> E;
  notify_init_cv : E -> E;
  getenv : bytes -> option bytes;
  canonical_address : bytes -> Z -> bytes;
  set_tcp_keepalive : Z -> Z -> E -> E;
}.

Definition ADB_LOCAL_TRANSPORT_MAX : nat := 16.
Definition LOCAL_PORT_RETRY_COUNT : Z := 60.

Section Ops.
Context {E : Type} {K : Kernel E} {B : Build} {OS : Os E}.
Abbreviation W := (world E).

Definition upd_globals (f : globals -> globals) : M W unit := modify (fun w => set_w_globals (f (w_globals w)) w).

Definition adb_close (fd : Z) : M W unit := on_fds (modify (log_close fd)).

Definition run_env (f : E -> E) : M W unit := on_env (modify f).

(** ** transport_local.cpp and transport_usb.cpp: kick and close *)

(** The first slot that holds [t] is cleared. *)
Fixpoint clear_slot (t : loc) (l : list (option loc)) : list (option loc) :=
  match l with
  | [] => []
  | x :: rest => if bool_decide (x = Some t) then None :: rest else x :: clear_slot t rest
  end.

Definition local_remote_kick (t : loc) : M W unit :=
  let* x := load_transport t in
  let fd := t_sfd x in
  upd_transport t (set_t_sfd (-1)) ;;;
  run_env (adb_shutdown fd) ;;;
  adb_close fd ;;;
  when ADB_HOST (upd_globals (fun g => set_g_local_transports (clear_slot t (g_local_transports g)) g)).

Definition local_remote_close (t : loc) : M W unit :=
  let* x := load_transport t in
  let fd := t_sfd x in
  when (negb (fd =? -1)%Z) (upd_transport t (set_t_sfd (-1)) ;;; adb_close fd) ;;;
  if ADB_HOST then
    let* x := load_transport t in
    match GetLocalPortForEmulator x with
    | Some local_port => upd_globals (fun g => set_g_retry_ports (g_retry_ports g ++ [(local_port, LOCAL_PORT_RETRY_COUNT)]) g)
    | None => ret tt
    end
  else ret tt.

Definition usb_remote_kick (t : loc) : M W unit :=
  let* x := load_transport t in run_env (usb_kick (t_usb x)).

Definition usb_remote_close (t : loc) : M W unit :=
  let* x := load_transport t in run_env (usb_close (t_usb x)) ;;; upd_transport t (set_t_usb None).

Definition init_usb_transport (h : Z) (t : loc) : M W unit :=
  upd_transport t (fun x => set_t_usb (Some h) (set_t_type kTransportUsb (set_t_sync_token 1 x))).

(** The functions of a transport are those its [init_*_transport] sets, with
    its type. *)
Definition kick_func (type : TransportType) : option (loc -> M W unit) :=
  match type with
  | kTransportUsb => Some usb_remote_kick
  | kTransportLocal => Some local_remote_kick
  | kTransportAny | kTransportHost => None
  end.

Definition transport_close (t : loc) : M W unit :=
  let* x := load_transport t in
  match t_type x with
  | kTransportUsb => usb_remote_close t
  | kTransportLocal => local_remote_close t
  | kTransportAny | kTransportHost => crash "null pointer"
  end.

(** ** transport.cpp *)

(** [atransport::Kick]. *)
Definition Kick (t : loc) : M W unit :=
  let* x := load_transport t in
  if t_kicked x then ret tt else
  upd_transport t (set_t_kicked true) ;;;
  match kick_func (t_type x) with
  | Some f => f t
  | None => fatal "CHECK(kick_func_ != nullptr)"
  end.

Definition kick_transport (t : loc) : M W unit :=
  let* w := get in when (bool_decide (t ∈ w_transport_list w)) (Kick t).

Definition kick_all_transports : M W unit :=
  let* w := get in iter_list Kick (w_transport_list w).

Definition kick_if (p : atransport -> bool) (t : loc) : M W unit :=
  let* x := load_transport t in when (p x) (Kick t).

Definition close_usb_devices (predicate : atransport -> bool) : M W unit :=
  let* w := get in iter_list (kick_if predicate) (w_transport_list w).

Definition kick_all_tcp_devices : M W unit :=
  let* w := get in iter_list (kick_if IsTcpDevice) (w_transport_list w).

Fixpoint find_serial (serial : bytes) (l : list loc) : M W (option loc) :=
  match l with
  | [] => ret None
  | t :: rest =>
      let* x := load_transport t in
      if bool_decide (t_serial x = Some serial) then ret (Some t) else find_serial serial rest
  end.

Definition find_transport (serial : bytes) : M W (option loc) :=
  let* w := get in find_serial serial (w_transport_list w).

Fixpoint all_transports (fn : atransport -> bool) (l : list loc) : M W bool :=
  match l with
  | [] => ret true
  | t :: rest => let* x := load_transport t in if fn x then all_transports fn rest else ret false
  end.

Definition iterate_transports (fn : atransport -> bool) : M W bool :=
  let* w := get in
  let* r := all_transports fn (w_transport_list w) in
  if r then all_transports fn (w_pending w) else ret false.

(** ** adb.cpp: the state of the start-up *)

Definition usb_online (t : atransport) : bool := negb (bool_decide (t_type t = kTransportUsb) && negb (t_online t)).

Definition update_transport_status : M W unit :=
  let* result := iterate_transports usb_online in
  upd_globals (set_g_transports_ready result) ;;;
  let* w := get in
  when (g_transports_ready (w_globals w) && g_device_scan_complete (w_globals w)) (run_env notify_init_cv).

Definition adb_notify_device_scan_complete : M W unit :=
  let* w := get in
  if g_device_scan_complete (w_globals w) then ret tt
  else upd_globals (set_g_device_scan_complete true) ;;; update_transport_status.

(** ** Registration *)

Definition transport_write_action (m : tmsg) : M W unit :=
  let* w := get in
  let* ok := (fun w => let '(ok, e) := tmsg_put (g_registration_send (w_globals w)) m (w_env w) in Done ok (set_w_env e w)) in
  if (ok : bool) then ret tt else fatal "cannot write transport registration socket".

Definition register_transport (t : loc) : M W unit := transport_write_action {| tm_transport := t; tm_action := 1 |}.
Definition remove_transport (t : loc) : M W unit := transport_write_action {| tm_transport := t; tm_action := 0 |}.

(** [size_t old_refcount = t->ref_count--]. *)
Definition transport_unref (t : loc) : M W unit :=
  let* x := load_transport t in
  let old_refcount := t_ref_count x in
  upd_transport t (set_t_ref_count (old_refcount - 1)) ;;;
  if (old_refcount <=? 0)%Z then fatal "CHECK_GT(old_refcount, 0u)" else
  if (old_refcount =? 1)%Z then transport_close t ;;; remove_transport t else ret tt.

(** Freeing an [atransport] with its event object. *)
Definition delete_transport (t : loc) : M W unit :=
  modify (fun w => set_w_transports (delete t (w_transports w)) w) ;;; on_fds (fdevent_free t).

Definition new_transport (x : atransport) : M W loc :=
  let* t := alloc in
  modify (fun w => set_w_transports (<[t := x]> (w_transports w)) w) ;;;
  ret t.

Definition init_transport_registration : M W unit :=
  let* s := on_env (fun e => let '(s, e) := adb_socketpair e in Done s e) in
  match s with
  | None => fatal "cannot open transport registration socketpair"
  | Some (s0, s1) =>
      upd_globals (fun g => set_g_registration_recv s1 (set_g_registration_send s0 g)) ;;;
      let* l := alloc in
      on_fds (fdevent_install l s1 fn_transport_registration) ;;;
      on_fds (fdevent_set l FDE_READ)
  end.

Definition register_usb_transport (usb : Z) (serial devpath : option bytes) (writeable : bool) : M W unit :=
  let* t := new_transport (new_atransport (if writeable then kCsOffline else kCsNoPerm)) in
  init_usb_transport usb t ;;;
  upd_transport t (fun x => set_t_devpath devpath (set_t_serial serial x)) ;;;
  modify (fun w => set_w_pending (t :: w_pending w) w) ;;;
  register_transport t.

(** What the predicate of [remove_if] finds. *)
Fixpoint keep_transports (p : atransport -> bool) (l : list loc) : M W (list loc) :=
  match l with
  | [] => ret []
  | t :: rest =>
      let* x := load_transport t in
      let* rest := keep_transports p rest in
      ret (if p x then rest else t :: rest)
  end.

Definition unregister_usb_transport (usb : Z) : M W unit :=
  let* w := get in
  let* l := keep_transports (fun x => bool_decide (t_usb x = Some usb) && bool_decide (t_connection_state x = kCsNoPerm))
              (w_transport_list w) in
  modify (set_w_transport_list l).

End Ops.
