(* ===== verification/Registration.v ===== *)
(** * Registering and removing transports, and telling the trackers
      (transport.cpp, transport_local.cpp) *)

From S2P Require Import Prelude LibBase Packet AdbIo FdEvent Transport World SmartText.
From S2P Require Import Sockets SocketIo SocketSpec TransportOps.

Section Registration.
Context {E : Type} {K : Kernel E} {B : Build} {LB : LibBase} {SO : SetOrder} {SV : Services E} {OS : Os E}.
Abbreviation W := (world E).

(** ** Trackers *)

(** [tracker->next] *)
Fixpoint next_tracker (tracker : loc) (l : list loc) : option loc :=
  match l with
  | [] => None
  | s :: rest => if bool_decide (s = tracker) then head rest else next_tracker tracker rest
  end.

Fixpoint notify_trackers (fuel : nat) (tracker : option loc) (transports : bytes) : M W unit :=
  match tracker with
  | None => ret tt
  | Some s =>
      match fuel with
      | O => no_fuel
      | S f =>
          let* _ := load_sock s in
          let* w := get in
          let next := next_tracker s (w_trackers w) in
          let* _ := send_to_tracker s transports in
          notify_trackers f next transports
      end
  end.

Definition update_transports : M W unit :=
  if ADB_HOST then
    update_transport_status ;;;
    let* transports := list_transports_text false in
    let* w := get in
    notify_trackers (length (w_trackers w)) (head (w_trackers w)) transports
  else ret tt.

(** ** The event function of the registration socket *)

Definition transport_read_action (fd : Z) : M W (option tmsg) :=
  on_env (fun e => let '(m, e) := tmsg_get fd e in Done m e).

Definition remove_registered (t : loc) : M W unit :=
  let* x := load_transport t in
  on_fds (fdevent_remove t) ;;;
  adb_close (t_fd x) ;;;
  modify (fun w => set_w_transport_list (filter (fun u => u <> t) (w_transport_list w)) w) ;;;
  delete_transport t ;;;
  update_transports.

Definition start_transport (t : loc) : M W unit :=
  upd_transport t (set_t_ref_count 2) ;;;
  let* s := on_env (fun e => let '(s, e) := adb_socketpair e in Done s e) in
  match s with
  | None => fatal "cannot open transport socketpair"
  | Some (s0, s1) =>
      upd_transport t (fun x => set_t_fd s1 (set_t_transport_socket s0 x)) ;;;
      on_fds (fdevent_install t s0 (fn_transport_socket t)) ;;;
      on_fds (fdevent_set t FDE_READ) ;;;
      run_env (start_thread (thr_write_transport t)) ;;;
      run_env (start_thread (thr_read_transport t))
  end.

Definition add_registered (t : loc) : M W unit :=
  let* x := load_transport t in
  when (negb (bool_decide (t_connection_state x = kCsNoPerm))) (start_transport t) ;;;
  modify (fun w => set_w_transport_list (t :: w_transport_list w)
                     (set_w_pending (filter (fun u => u <> t) (w_pending w)) w)) ;;;
  update_transports.

Definition transport_registration_func (fd ev : Z) : M W unit :=
  when (flag ev FDE_READ) (
    let* m := transport_read_action fd in
    match m with
    | None => fatal "cannot read transport registration socket"
    | Some m => if (tm_action m =? 0)%Z then remove_registered (tm_transport m) else add_registered (tm_transport m)
    end).

End Registration.

(** ** Sockets as transports *)

Section Emulators.
Context {E : Type} {K : Kernel E} {B : Build} {LB : LibBase} {N : Net E} {OS : Os E}.
Abbreviation W := (world E).

Definition getEmulatorSerialString (console_port : Z) : bytes := str "emulator-" ++ dec console_port.

Fixpoint find_emulator (adb_port : Z) (l : list (option loc)) : M W (option loc) :=
  match l with
  | [] => ret None
  | None :: rest => find_emulator adb_port rest
  | Some t :: rest =>
      let* x := load_transport t in
      match GetLocalPortForEmulator x with
      | Some local_port => if (local_port =? adb_port)%Z then ret (Some t) else find_emulator adb_port rest
      | None => find_emulator adb_port rest
      end
  end.

Definition find_emulator_transport_by_adb_port (adb_port : Z) : M W (option loc) :=
  let* w := get in find_emulator adb_port (g_local_transports (w_globals w)).

Definition find_emulator_transport_by_console_port (console_port : Z) : M W (option loc) :=
  find_transport (getEmulatorSerialString console_port).

Fixpoint free_slot (i : nat) (l : list (option loc)) : option nat :=
  match l with
  | [] => None
  | None :: _ => Some i
  | Some _ :: rest => free_slot (S i) rest
  end.

Definition get_available_local_transport_index : M W (option nat) :=
  gets (fun w => free_slot 0 (g_local_transports (w_globals w))).

(** [false]: it fails. *)
Definition init_socket_transport (t : loc) (s adb_port : Z) (local : bool) : M W bool :=
  upd_transport t (fun x => set_t_type kTransportLocal (set_t_sync_token 1 (set_t_sfd s x))) ;;;
  if ADB_HOST && local then
    let* x := load_transport t in
    match SetLocalPortForEmulator adb_port x with
    | None => fatal "CHECK_EQ(local_port_for_emulator_, -1)"
    | Some x' =>
        upd_transport t (fun _ => x') ;;;
        let* existing_transport := find_emulator_transport_by_adb_port adb_port in
        let* index := get_available_local_transport_index in
        match existing_transport, index with
        | Some _, _ => ret false
        | None, None => ret false
        | None, Some i =>
            upd_globals (fun g => set_g_local_transports (<[i := Some t]> (g_local_transports g)) g) ;;;
            ret true
        end
    end
  else ret true.

(** [false]: the socket could not be registered.  Every caller has a serial. *)
Definition register_socket_transport (s : Z) (serial : bytes) (port : Z) (local : bool) : M W bool :=
  let* t := new_transport (new_atransport kCsOffline) in
  let* ok := init_socket_transport t s port local in
  if negb ok then delete_transport t ;;; ret false else
  let* w := get in
  let* pending := find_serial serial (w_pending w) in
  match pending with
  | Some _ => delete_transport t ;;; ret false
  | None =>
      let* known := find_serial serial (w_transport_list w) in
      match known with
      | Some _ => delete_transport t ;;; ret false
      | None =>
          modify (fun w => set_w_pending (t :: w_pending w) w) ;;;
          upd_transport t (set_t_serial (Some serial)) ;;;
          register_transport t ;;;
          ret true
      end
  end.

(** ** Connecting to emulators and to devices on the network *)

Definition DEFAULT_ADB_LOCAL_TRANSPORT_PORT : Z := 5555.

(** 0 and -1; [*error] is what the last connection attempt leaves in it. *)
Definition local_connect_arbitrary_ports (console_port adb_port : Z) : M W (bool * bytes) :=
  let* known :=
    (if ADB_HOST then
       let* a := find_emulator_transport_by_adb_port adb_port in
       match a with
       | Some _ => ret true
       | None => let* c := find_emulator_transport_by_console_port console_port in ret (bool_decide (is_Some c))
       end
     else ret false) in
  if (known : bool) then ret (false, []) else
  let* (fd, error) :=
    (match (if ADB_HOST then getenv (str "ADBHOST") else None) with
     | Some host => on_env (network_connect host adb_port)
     | None => ret ((-1)%Z, [])
     end) in
  let* (fd, error) := (if (fd <? 0)%Z then on_env (network_loopback_client adb_port) else ret (fd, error)) in
  if (0 <=? fd)%Z then
    on_env (disable_tcp_nagle fd) ;;;
    let* ok := register_socket_transport fd (getEmulatorSerialString console_port) adb_port true in
    if (ok : bool) then ret (true, error) else adb_close fd ;;; ret (false, error)
  else ret (false, error).

Definition local_connect (port : Z) : M W bool :=
  let* r := local_connect_arbitrary_ports (port - 1) port in ret (fst r).

Definition PollAllLocalPortsForEmulator : M W unit :=
  iter_list (fun i => let* _ := local_connect (DEFAULT_ADB_LOCAL_TRANSPORT_PORT + 2 * Z.of_nat i) in ret tt)
    (seq 0 ADB_LOCAL_TRANSPORT_MAX).

(** One round of [client_socket_thread] on the ports it took; the ports to try
    again. *)
Fixpoint retry_round (ports next_ports : list (Z * Z)) : M W (list (Z * Z)) :=
  match ports with
  | [] => ret next_ports
  | (port, retry_count) :: rest =>
      let* ok := local_connect port in
      if (ok : bool) then retry_round rest next_ports
      else let retry_count := u32 (retry_count - 1) in
           retry_round rest (if (0 <? retry_count)%Z then next_ports ++ [(port, retry_count)] else next_ports)
  end.

Definition client_socket_round : M W unit :=
  let* w := get in
  let ports := g_retry_ports (w_globals w) in
  upd_globals (set_g_retry_ports []) ;;;
  let* next_ports := retry_round ports [] in
  upd_globals (fun g => set_g_retry_ports (g_retry_ports g ++ next_ports) g).

Definition connect_device (address : bytes) : M W bytes :=
  if bool_decide (address = []) then ret (str "empty address") else
  match ParseNetAddress address with
  | inl error => ret error
  | inr (host, port) =>
      let port := match port with Some p => p | None => DEFAULT_ADB_LOCAL_TRANSPORT_PORT end in
      let serial := canonical_address host port in
      let* (fd, error) := on_env (network_connect (c_str host) port) in
      if (fd =? -1)%Z then ret (str "unable to connect to " ++ c_str serial ++ str ": " ++ c_str error) else
      on_env (disable_tcp_nagle fd) ;;;
      run_env (set_tcp_keepalive fd 1) ;;;
      let* ok := register_socket_transport fd (c_str serial) port false in
      if (ok : bool) then ret (str "connected to " ++ c_str serial)
      else adb_close fd ;;; ret (str "already connected to " ++ c_str serial)
  end.

End Emulators.
