(* ===== verification/Requests.v ===== *)
(** * The requests the server and the daemon answer themselves (adb.cpp)

    Forwarding requests, and the [host:] requests. *)

From S2P Require Import Prelude LibBase Packet AdbIo FdEvent Transport World SmartText.
From S2P Require Import Sockets SocketIo SocketSpec Listeners TransportOps Registration.

Definition ADB_SERVER_VERSION : Z := 39.

(** What [bool] becomes as an [int]. *)
Definition as_int (r : wx_result) : Z := if wx_bool r then 1 else 0.

Section Requests.
Context {E : Type} {K : Kernel E} {B : Build} {PF : Platform} {LB : LibBase} {SO : SetOrder} {N : Net E} {OS : Os E}.
Abbreviation W := (world E).

(** ** Forwarding *)

(** What a [forward:] or [killforward:] request asks for. *)
Record forward_request := {
  fr_kill : bool;
  fr_no_rebind : bool;
  fr_text : bytes;
}.

Definition parse_forward (service : bytes) : option forward_request :=
  if is_prefix (str "killforward:") service
  then Some {| fr_kill := true; fr_no_rebind := false; fr_text := drop 12 service |}
  else if is_prefix (str "forward:") service then
    let service := drop 8 service in
    if StartsWith service (str "norebind:")
    then Some {| fr_kill := false; fr_no_rebind := true; fr_text := drop 9 service |}
    else Some {| fr_kill := false; fr_no_rebind := false; fr_text := service |}
  else None.

(** The local name and the remote one, or [None]: refused. *)
Definition forward_pieces (kill_forward : bool) (text : bytes) : option (bytes * bytes) :=
  if kill_forward then
    match Split text semicolon with
    | [a] => if bool_decide (a = []) then None else Some (a, [])
    | _ => None
    end
  else
    match Split text semicolon with
    | [a; b] => if bool_decide (a = []) || bool_decide (b = []) || bool_decide (head b = Some (byte_of 42))
                then None else Some (a, b)
    | _ => None
    end.

Definition install_message (r : InstallStatus) (service error : bytes) : bytes :=
  match r with
  | INSTALL_STATUS_OK => str "success (!)"
  | INSTALL_STATUS_INTERNAL_ERROR => str "internal error"
  | INSTALL_STATUS_CANNOT_BIND => str "cannot bind listener: " ++ c_str error
  | INSTALL_STATUS_CANNOT_REBIND => str "cannot rebind existing socket"
  | INSTALL_STATUS_LISTENER_NOT_FOUND => str "listener '" ++ service ++ str "' not found"
  end.

(** [SendOkay], ignoring what it returns; on the host one OKAY more. *)
Definition okay (fd : Z) : M W unit := let* _ := SendOkay_fd fd in ret tt.
Definition fail (fd : Z) (reason : bytes) : M W unit := let* _ := SendFail_fd fd reason in ret tt.
Definition status_okay (fd : Z) : M W unit := when ADB_HOST (okay fd) ;;; okay fd.

Definition forward_reply (fd : Z) (service : bytes) (r : InstallStatus * option Z * bytes) : M W unit :=
  match fst (fst r) with
  | INSTALL_STATUS_OK =>
      status_okay fd ;;;
      match snd (fst r) with
      | Some port => let* _ := SendProtocolString_fd fd (dec port) in ret tt
      | None => ret tt
      end
  | status => fail fd (install_message status service (snd r))
  end.

Definition handle_forward_request (service : bytes) (type : TransportType) (serial : option bytes) (reply_fd : Z) :
  M W Z :=
  if bool_decide (service = str "list-forward") then
    let* listeners := format_listeners in
    when ADB_HOST (okay reply_fd) ;;;
    let* r := SendProtocolString_fd reply_fd listeners in
    ret (as_int r)
  else if bool_decide (service = str "killforward-all") then
    remove_all_listeners ;;;
    status_okay reply_fd ;;;
    ret 1%Z
  else
    match parse_forward service with
    | None => ret 0%Z
    | Some q =>
        match forward_pieces (fr_kill q) (fr_text q) with
        | None =>
            fail reply_fd (str "bad " ++ (if fr_kill q then str "killforward" else str "forward") ++ str ": " ++ fr_text q) ;;;
            ret 1%Z
        | Some (local_name, remote) =>
            let* a := acquire_transport type serial false in
            match acq_result a with
            | None => fail reply_fd (acq_error a) ;;; ret 1%Z
            | Some t =>
                let* r := (if fr_kill q then let* r := remove_listener local_name (Some t) in ret (r, None, [])
                           else install_listener local_name remote (Some t) (fr_no_rebind q) true) in
                forward_reply reply_fd (fr_text q) r ;;;
                ret 1%Z
            end
        end
    end.

(** ** Requests to the server *)

(** [SendOkay(fd, s)] *)
Definition SendOkay_text (fd : Z) (s : bytes) : M W Z :=
  let* _ := SendOkay_fd fd in
  let* _ := SendProtocolString_fd fd s in
  ret 0%Z.

Definition send_fail (fd : Z) (reason : bytes) : M W Z := let* r := SendFail_fd fd reason in ret (as_int r).

(** The type and serial a [transport...] request asks for. *)
Definition transport_choice (service : bytes) (serial : option bytes) : TransportType * option bytes :=
  if is_prefix (str "transport-usb") service then (kTransportUsb, serial)
  else if is_prefix (str "transport-local") service then (kTransportLocal, serial)
  else if is_prefix (str "transport-any") service then (kTransportAny, serial)
  else if is_prefix (str "transport:") service then (kTransportAny, Some (drop 10 service))
  else (kTransportAny, serial).

Definition state_name (x : atransport) : bytes := connection_state_name no_perm_short_text x.

Definition needs_reconnect (x : atransport) : bool :=
  match t_connection_state x with kCsOffline | kCsUnauthorized => true | _ => false end.

(** [close_usb_devices] with the predicate that also collects the names. *)
Fixpoint reconnect_offline (l : list loc) (response : bytes) : M W bytes :=
  match l with
  | [] => ret response
  | t :: rest =>
      let* x := load_transport t in
      if needs_reconnect x
      then Kick t ;;; reconnect_offline rest (response ++ str "reconnecting " ++ c_str (serial_name x) ++ [byte_of 10])
      else reconnect_offline rest response
  end.

Definition should_use_libusb : bool :=
  ADB_HOST && negb ADB_WINDOWS && bool_decide (getenv (str "ADB_LIBUSB") = Some (str "1")).

Definition host_features : FeatureSet :=
  (if should_use_libusb then {[ kFeatureLibusb ]} else ∅) ∪ {[ kFeaturePushSync ]} ∪ supported_features.

(** Requests about one transport: its answer, or the error. *)
Definition about_transport (type : TransportType) (serial : option bytes) (reply_fd : Z) (f : atransport -> bytes) : M W Z :=
  let* a := acquire_transport type serial false in
  match acq_result a with
  | Some t => let* x := load_transport t in SendOkay_text reply_fd (f x)
  | None => send_fail reply_fd (acq_error a)
  end.

Definition disconnect_request (address : bytes) (reply_fd : Z) : M W Z :=
  if bool_decide (address = []) then
    kick_all_tcp_devices ;;; SendOkay_text reply_fd (str "disconnected everything")
  else
    match ParseNetAddress address with
    | inl error => send_fail reply_fd (str "couldn't parse '" ++ address ++ str "': " ++ c_str error)
    | inr (host, port) =>
        let serial := canonical_address host (default DEFAULT_ADB_LOCAL_TRANSPORT_PORT port) in
        let* t := find_transport (c_str serial) in
        match t with
        | None => send_fail reply_fd (str "no such device '" ++ c_str serial ++ str "'")
        | Some t => kick_transport t ;;; SendOkay_text reply_fd (str "disconnected " ++ address)
        end
    end.

Definition handle_host (service : bytes) (type : TransportType) (serial : option bytes) (reply_fd : Z) (s : loc) : M W Z :=
  if bool_decide (service = str "kill") then okay reply_fd ;;; exit_with 0
  else if is_prefix (str "transport") service then
    let '(type, serial) := transport_choice service serial in
    let* a := acquire_transport type serial false in
    match acq_result a with
    | Some t => upd_sock s (set_s_transport (Some t)) ;;; okay reply_fd ;;; ret 1%Z
    | None => fail reply_fd (acq_error a) ;;; ret 1%Z
    end
  else if is_prefix (str "devices") service then
    let long_listing := bool_decide (drop 7 service = str "-l") in
    if long_listing || bool_decide (drop 7 service = []) then
      let* device_list := list_transports_text long_listing in SendOkay_text reply_fd device_list
    else ret 1%Z
  else if bool_decide (service = str "reconnect-offline") then
    let* w := get in
    let* response := reconnect_offline (w_transport_list w) [] in
    SendOkay_text reply_fd (take (length response - 1) response)
  else if bool_decide (service = str "features") then
    let* a := acquire_transport type serial false in
    match acq_result a with
    | Some t =>
        let* x := load_transport t in
        let* _ := SendOkay_text reply_fd (FeatureSetToString (t_features x)) in ret 0%Z
    | None => fail reply_fd (acq_error a) ;;; ret 0%Z
    end
  else if bool_decide (service = str "host-features") then
    let* _ := SendOkay_text reply_fd (FeatureSetToString host_features) in ret 0%Z
  else if is_prefix (str "disconnect:") service then disconnect_request (drop 11 service) reply_fd
  else if bool_decide (service = str "version") then SendOkay_text reply_fd (hex_pad 4 ADB_SERVER_VERSION)
  else if bool_decide (service = str "get-serialno") then
    about_transport type serial reply_fd (fun x => default (str "unknown") (t_serial x))
  else if bool_decide (service = str "get-devpath") then
    about_transport type serial reply_fd (fun x => default (str "unknown") (t_devpath x))
  else if bool_decide (service = str "get-state") then about_transport type serial reply_fd state_name
  else if is_prefix (str "emulator:") service then
    let* _ := local_connect (atoi (drop 9 service)) in ret 0%Z
  else if bool_decide (service = str "reconnect") then
    let* a := acquire_transport type serial true in
    let* response :=
      match acq_result a with
      | Some t =>
          kick_transport t ;;;
          let* x := load_transport t in
          ret (str "reconnecting " ++ c_str (serial_name x) ++ str " [" ++ state_name x ++ str "]" ++ [byte_of 10])
      | None => ret (acq_error a)
      end in
    SendOkay_text reply_fd response
  else
    let* r := handle_forward_request service type serial reply_fd in
    ret (if (0 <=? r)%Z then r - 1 else -1)%Z.

End Requests.
