(* ===== verification/Jdwp.v ===== *)
(** * The processes that can be debugged (jdwp_service.cpp)

    A process connects to the control socket, says its pid, and is then handed
    the descriptors of the debuggers that ask for it. *)

From S2P Require Import Prelude LibBase Packet AdbIo FdEvent Transport World SmartText.
From S2P Require Import Sockets SocketIo SocketSpec TransportOps.

Definition PID_LEN : nat := 4.

(** [sscanf(buf, "%04x", &pid)]: the conversion needs a digit. *)
Definition scan_pid (buf : bytes) : option Z :=
  let s := skip_spaces buf in
  let s := match s with
           | a :: t => if Ascii.eqb a (byte_of 45) || Ascii.eqb a (byte_of 43) then t else s
           | [] => s
           end in
  match s with
  | a :: _ =>
      match hexval a with
      | Some _ => let '(neg, v) := scan_number buf 16 in Some (i32 (u32 (if neg then - v else v)))
      | None => None
      end
  | [] => None
  end.

(** The calls on a process's socket that are its own. *)
Class JdwpOs (E : Type) := {
  set_file_block_mode : Z -> bool -> E -> bool * E;
  send_descriptor : Z -> Z -> E -> bool * E;
}.

Section Jdwp.
Context {E : Type} {K : Kernel E} {B : Build} {LB : LibBase} {SO : SetOrder} {SV : Services E} {N : Net E} {OS : Os E} {JO : JdwpOs E}.
Abbreviation W := (world E).

Definition find_process (p : loc) : M W (option JdwpProcess) :=
  gets (fun w => snd <$> List.find (fun e => bool_decide (fst e = p)) (w_jdwp_list w)).

Definition load_process (p : loc) : M W JdwpProcess :=
  let* r := find_process p in
  match r with Some x => ret x | None => crash "dangling JdwpProcess" end.

Definition upd_process (p : loc) (f : JdwpProcess -> JdwpProcess) : M W unit :=
  modify (fun w => set_w_jdwp_list (map (fun e => if bool_decide (fst e = p) then (p, f (snd e)) else e) (w_jdwp_list w)) w).

Definition set_jp_pid (v : Z) (x : JdwpProcess) : JdwpProcess :=
  {| jp_pid := v; jp_socket := jp_socket x; jp_out_fds := jp_out_fds x |}.
Definition set_jp_out_fds (v : list Z) (x : JdwpProcess) : JdwpProcess :=
  {| jp_pid := jp_pid x; jp_socket := jp_socket x; jp_out_fds := v |}.

(** [JdwpProcess(socket)]; its event object has the address of the process. *)
Definition new_process (socket : Z) : M W loc :=
  let* p := alloc in
  let* _ := on_fds (fdevent_create p socket (fn_jdwp_process p)) in
  let* e := on_fds (load p) in
  on_fds (store p (upd_state (Z.lor (fde_state e) FDE_DONT_CLOSE) e)) ;;;
  on_fds (fdevent_add p FDE_READ) ;;;
  ret p.

(** [~JdwpProcess] *)
Definition delete_process (p : loc) (x : JdwpProcess) : M W unit :=
  when (0 <=? jp_socket x)%Z (run_env (adb_shutdown (jp_socket x)) ;;; adb_close (jp_socket x)) ;;;
  on_fds (fdevent_destroy p) ;;;
  iter_list adb_close (jp_out_fds x).

Definition RemoveFromList (p : loc) : M W unit :=
  let* x := load_process p in
  modify (fun w => set_w_jdwp_list (List.filter (fun e => negb (bool_decide (fst e = p))) (w_jdwp_list w)) w) ;;;
  delete_process p x.

(** Every tracker is told, if it is connected. *)
Definition tell_tracker (text : bytes) (t : loc) : M W unit :=
  let* _ := get_apacket in
  let* x := load_sock t in
  match s_peer x with
  | Some peer => let* _ := enqueue_socket peer (data_packet text) in ret tt
  | None => ret tt
  end.

Definition jdwp_process_list_updated : M W unit :=
  let* text := jdwp_process_list_msg 1024 in
  let* w := get in
  iter_list (tell_tracker text) (w_jdwp_trackers w).

Inductive read_outcome := KeepProcess | CloseProcess | ReturnNow.

(** Nothing more is expected once the pid is known. *)
Fixpoint drain_control (fuel : nat) (socket : Z) : M W read_outcome :=
  match fuel with
  | O => no_fuel
  | S f =>
      let* r := on_env (sys_read socket 32) in
      match r with
      | RdOk [] => ret CloseProcess
      | RdErr EAGAIN => ret ReturnNow
      | RdErr _ => ret CloseProcess
      | RdOk _ => drain_control f socket
      end
  end.

Definition process_read (fuel : nat) (socket : Z) (p : loc) : M W read_outcome :=
  let* x := load_process p in
  if (jp_pid x <? 0)%Z then
    let* r := on_env (sys_read socket (Z.of_nat PID_LEN)) in
    match r with
    | RdOk buf =>
        if (length buf =? PID_LEN)%nat then
          match scan_pid (c_str buf) with
          | None => ret CloseProcess
          | Some pid => upd_process p (set_jp_pid pid) ;;; jdwp_process_list_updated ;;; ret KeepProcess
          end
        else ret CloseProcess
    | RdErr _ => ret CloseProcess
    end
  else drain_control fuel socket.

(** The descriptor handed over is closed, and closed again by [pop_back]. *)
Definition process_write (p : loc) : M W read_outcome :=
  let* x := load_process p in
  match last (jp_out_fds x) with
  | None => ret KeepProcess
  | Some fd =>
      let* ok := on_env (fun e => let '(ok, e) := set_file_block_mode (jp_socket x) true e in Done ok e) in
      if negb ok then ret CloseProcess else
      let* ok := on_env (fun e => let '(ok, e) := send_descriptor (jp_socket x) fd e in Done ok e) in
      if negb ok then ret CloseProcess else
      adb_close fd ;;;
      upd_process p (fun x => set_jp_out_fds (removelast (jp_out_fds x)) x) ;;;
      adb_close fd ;;;
      let* ok := on_env (fun e => let '(ok, e) := set_file_block_mode (jp_socket x) false e in Done ok e) in
      if negb ok then ret CloseProcess else
      let* x := load_process p in
      when (bool_decide (jp_out_fds x = [])) (on_fds (fdevent_del p FDE_WRITE)) ;;;
      ret KeepProcess
  end.

Definition close_process (p : loc) : M W unit := RemoveFromList p ;;; jdwp_process_list_updated.

(** [fuel] bounds the reads of unexpected data. *)
Definition jdwp_process_event (fuel : nat) (socket ev : Z) (p : loc) : M W unit :=
  let* r := (if flag ev FDE_READ then process_read fuel socket p else ret KeepProcess) in
  match r with
  | ReturnNow => ret tt
  | CloseProcess => close_process p
  | KeepProcess =>
      let* r := (if flag ev FDE_WRITE then process_write p else ret KeepProcess) in
      match r with
      | CloseProcess => close_process p
      | _ => ret tt
      end
  end.

Definition create_jdwp_connection_fd (pid : Z) : M W Z :=
  let* w := get in
  match List.find (fun e => (jp_pid (snd e) =? pid)%Z) (w_jdwp_list w) with
  | None => ret (-1)%Z
  | Some (p, _) =>
      let* s := on_env (fun e => let '(s, e) := adb_socketpair e in Done s e) in
      match s with
      | None => ret (-1)%Z
      | Some (s0, s1) =>
          upd_process p (fun x => set_jp_out_fds (jp_out_fds x ++ [s1]) x) ;;;
          let* x := load_process p in
          when (length (jp_out_fds x) =? 1)%nat (on_fds (fdevent_add p FDE_WRITE)) ;;;
          ret s0
      end
  end.

Definition jdwp_control_event (listen_socket ev : Z) : M W unit :=
  when (flag ev FDE_READ) (
    let* s := on_env (adb_socket_accept listen_socket) in
    if (s <? 0)%Z then ret tt
    else
      let* p := new_process s in
      modify (fun w => set_w_jdwp_list (w_jdwp_list w ++ [(p, {| jp_pid := -1; jp_socket := s; jp_out_fds := [] |})]) w)).

End Jdwp.
