(* ===== verification/Services.v ===== *)
(** * The services of the daemon, and the requests to the server, as what the
      sockets are created for (services.cpp)

    [all_services] is the instance of [Services] that the program has. *)

From S2P Require Import Prelude LibBase Packet AdbIo FdEvent Transport World SmartText.
From S2P Require Import Sockets SocketIo SocketSpec Listeners TransportOps Registration Requests Jdwp.

Inductive SubprocessType := kPty | kRaw.
Inductive SubprocessProtocol := kNone | kShell.

#[export] Instance SubprocessType_eq_dec : EqDecision SubprocessType.
Proof. solve_decision. Defined.
#[export] Instance SubprocessProtocol_eq_dec : EqDecision SubprocessProtocol.
Proof. solve_decision. Defined.

(** [open] of a device, the start of a subprocess (shell_service.cpp), and what
    the daemon runs as. *)
Class ServiceOs (E : Type) := {
  unix_open_rw : bytes -> E -> Z * E;
  StartSubprocess : bytes -> option bytes -> SubprocessType -> SubprocessProtocol -> E -> Z * E;
  daemon_uid : Z;
  daemon_debuggable : bool;
}.

Definition kShellServiceArgRaw : bytes := str "raw".
Definition kShellServiceArgPty : bytes := str "pty".
Definition kShellServiceArgShellProtocol : bytes := str "v2".

(** [sscanf(s, "%d", &port)] *)
Definition scan_int (s : bytes) : option Z :=
  let s' := skip_spaces s in
  let s' := match s' with
            | a :: t => if Ascii.eqb a (byte_of 45) || Ascii.eqb a (byte_of 43) then t else s'
            | [] => s'
            end in
  match s' with
  | a :: _ => if is_digit a then Some (atoi s) else None
  | [] => None
  end.

Section Services.
Context {E : Type} {K : Kernel E} {B : Build} {PF : Platform} {LB : LibBase} {SO : SetOrder} {N : Net E}.
Context {OS : Os E} {VO : ServiceOs E}.
Abbreviation W := (world E).

Definition start_service_thread (f : service_thread) : M W Z :=
  let* s := on_env (fun e => let '(s, e) := adb_socketpair e in Done s e) in
  match s with
  | None => ret (-1)%Z
  | Some (s0, s1) => run_env (start_thread (thr_service f s1)) ;;; ret s0
  end.

(** ** The shell service *)

Record shell_args := { sh_type : SubprocessType; sh_protocol : SubprocessProtocol; sh_terminal : bytes }.

Definition shell_arg (a : shell_args) (arg : bytes) : shell_args :=
  if bool_decide (arg = kShellServiceArgRaw)
  then {| sh_type := kRaw; sh_protocol := sh_protocol a; sh_terminal := sh_terminal a |}
  else if bool_decide (arg = kShellServiceArgPty)
  then {| sh_type := kPty; sh_protocol := sh_protocol a; sh_terminal := sh_terminal a |}
  else if bool_decide (arg = kShellServiceArgShellProtocol)
  then {| sh_type := sh_type a; sh_protocol := kShell; sh_terminal := sh_terminal a |}
  else if StartsWith arg (str "TERM=")
  then {| sh_type := sh_type a; sh_protocol := sh_protocol a; sh_terminal := drop 5 arg |}
  else a.

(** [None]: no [:] in the arguments. *)
Definition parse_shell (args : bytes) : option (bytes * shell_args) :=
  match index_of args colon with
  | None => None
  | Some i =>
      let command := drop (S i) args in
      Some (command, fold_left shell_arg (Split (take i args) comma)
        {| sh_type := if bool_decide (command = []) then kPty else kRaw; sh_protocol := kNone; sh_terminal := str "dumb" |})
  end.

Definition run_subprocess (name : bytes) (terminal : option bytes) (type : SubprocessType) (protocol : SubprocessProtocol) :
  M W Z := on_env (fun e => let '(fd, e) := StartSubprocess name terminal type protocol e in Done fd e).

Definition ShellService (args : bytes) : M W Z :=
  match parse_shell args with
  | None => ret (-1)%Z
  | Some (command, a) => run_subprocess command (Some (sh_terminal a)) (sh_type a) (sh_protocol a)
  end.

Definition reverse_service (command : bytes) : M W Z :=
  let* s := on_env (fun e => let '(s, e) := adb_socketpair e in Done s e) in
  match s with
  | None => ret (-1)%Z
  | Some (s0, s1) =>
      let* r := handle_forward_request command kTransportAny None s1 in
      when (r <? 0)%Z (fail s1 (str "not a reverse forwarding command")) ;;;
      adb_close s1 ;;;
      ret s0
  end.

(** ** service_to_fd *)

Definition daemon_service (name : bytes) (t : option loc) : M W Z :=
  if is_prefix (str "dev:") name then
    on_env (fun e => let '(fd, e) := unix_open_rw (drop 4 name) e in Done fd e)
  else if is_prefix (str "framebuffer:") name then start_service_thread svc_framebuffer
  else if is_prefix (str "jdwp:") name then create_jdwp_connection_fd (atoi (drop 5 name))
  else if is_prefix (str "shell") name then ShellService (drop 5 name)
  else if is_prefix (str "exec:") name then run_subprocess (drop 5 name) None kRaw kNone
  else if is_prefix (str "sync:") name then start_service_thread svc_file_sync
  else if is_prefix (str "remount:") name then start_service_thread svc_remount
  else if is_prefix (str "reboot:") name then start_service_thread (svc_reboot (drop 7 name))
  else if is_prefix (str "root:") name then start_service_thread svc_restart_root
  else if is_prefix (str "unroot:") name then start_service_thread svc_restart_unroot
  else if is_prefix (str "backup:") name
  then run_subprocess (str "/system/bin/bu backup " ++ drop 7 name) None kRaw kNone
  else if is_prefix (str "restore:") name then run_subprocess (str "/system/bin/bu restore") None kRaw kNone
  else if is_prefix (str "tcpip:") name then
    match scan_int (drop 6 name) with
    | None => ret (-1)%Z
    | Some port => start_service_thread (svc_restart_tcp port)
    end
  else if is_prefix (str "usb:") name then start_service_thread svc_restart_usb
  else if is_prefix (str "reverse:") name then reverse_service (drop 8 name)
  else if is_prefix (str "disable-verity:") name then start_service_thread (svc_verity false)
  else if is_prefix (str "enable-verity:") name then start_service_thread (svc_verity true)
  else if bool_decide (name = str "reconnect") then start_service_thread (svc_reconnect t)
  else ret (-1)%Z.

Definition open_service (name : bytes) (t : option loc) : M W Z :=
  if is_socket_spec name then let* r := on_env (socket_spec_connect name) in ret (fst r)
  else if ADB_HOST then ret (-1)%Z
  else daemon_service name t.

#[export] Instance all_services : Services E := {|
  service_to_fd := open_service;
  create_service_thread := start_service_thread;
  handle_host_request := handle_host;
  getuid := daemon_uid;
  log_is_debuggable := daemon_debuggable;
|}.

End Services.
