(* ===== verification/Connection.v ===== *)
(** * Connections: authentication and the packets of the protocol
      (adb.cpp, adbd_auth.cpp, adb_auth_host.cpp) *)

From S2P Require Import Prelude LibBase Packet AdbIo FdEvent Transport World SmartText.
From S2P Require Import Sockets SocketIo SocketSpec Listeners TransportOps Registration.

(** The banner and the system properties. *)
Class Banner := {
  adb_device_banner : bytes;
  GetProperty : bytes -> bytes;
}.

(** The files with keys, OpenSSL and the random device.  A public key is a
    value of [RSA]; a private key of the server is known by its address. *)
Class Crypto (E : Type) := {
  RSA : Type;
  access_read : bytes -> E -> bool;
  ReadFileToString : bytes -> E -> option bytes;
  b64_pton : bytes -> Z -> option bytes;
  ANDROID_PUBKEY_ENCODED_SIZE : Z;
  android_pubkey_decode : bytes -> option RSA;
  RSA_verify : bytes -> bytes -> RSA -> bool;
  RSA_sign : bytes -> loc -> E -> option bytes;
  fread_urandom : bytes -> E -> bool * bytes * E;
  android_dir_path : bytes;
}.

Definition TOKEN_SIZE : Z := 20.

(** ** Updates of [w_auth] *)

Definition set_au_usb (t : option loc) (a : adbd_auth) : adbd_auth :=
  {| au_required := au_required a; au_framework_fde := au_framework_fde a; au_framework_fd := au_framework_fd a;
     au_usb_transport := t; au_needs_retry := au_needs_retry a |}.
Definition set_au_retry (b : bool) (a : adbd_auth) : adbd_auth :=
  {| au_required := au_required a; au_framework_fde := au_framework_fde a; au_framework_fd := au_framework_fd a;
     au_usb_transport := au_usb_transport a; au_needs_retry := b |}.
Definition set_au_fd (fd : Z) (a : adbd_auth) : adbd_auth :=
  {| au_required := au_required a; au_framework_fde := au_framework_fde a; au_framework_fd := fd;
     au_usb_transport := au_usb_transport a; au_needs_retry := au_needs_retry a |}.

Section Connection.
Context {E : Type} {K : Kernel E} {B : Build} {BN : Banner} {LB : LibBase} {SO : SetOrder} {CR : Crypto E}.
Abbreviation W := (world E).

Definition upd_auth (f : adbd_auth -> adbd_auth) : M W unit := modify (fun w => set_w_auth (f (w_auth w)) w).

(** ** Online and offline *)

Definition handle_online (t : loc) : M W unit := upd_transport t (set_t_online true).

Definition usb_disconnected : M W unit := upd_auth (fun a => set_au_retry false (set_au_usb None a)).

Definition run_disconnect (d : adisconnect) : M W unit :=
  match d with
  | DisconnectListener l => listener_disconnect l
  | DisconnectAuth => usb_disconnected
  end.

Definition RunDisconnects (t : loc) : M W unit :=
  let* x := load_transport t in
  iter_list run_disconnect (t_disconnects x) ;;;
  upd_transport t (set_t_disconnects []).

Definition handle_offline (t : loc) : M W unit :=
  upd_transport t (set_t_online false) ;;;
  close_all_sockets t ;;;
  RunDisconnects t.

(** [SetConnectionState(kCsOffline)] and [handle_offline]. *)
Definition go_offline (t : loc) : M W unit :=
  upd_transport t (set_t_connection_state kCsOffline) ;;; handle_offline t.

(** ** Sending *)

Definition send_new (p : apacket) (t : loc) : M W unit := let* _ := get_apacket in send_packet p (Some t).

Definition send_ready (local remote : Z) (t : loc) : M W unit := send_new (mk_packet A_OKAY local remote []) t.
Definition send_close (local remote : Z) (t : loc) : M W unit := send_new (mk_packet A_CLSE local remote []) t.

Definition connection_string : bytes := get_connection_string ADB_HOST adb_device_banner GetProperty.

Definition connect_packet (x : atransport) : apacket :=
  mk_packet A_CNXN (u32 (t_protocol_version x)) (u32 (t_max_payload x)) connection_string.

Definition send_connect (t : loc) : M W unit :=
  let* _ := get_apacket in
  let* x := load_transport t in
  if (MAX_PAYLOAD_V1 <? Zlen connection_string)%Z then fatal "Connection banner is too long"
  else send_packet (connect_packet x) (Some t).

Definition SendConnectOnHost (t : loc) : M W unit := send_new fresh_apacket t ;;; send_connect t.

(** ** The daemon: adbd_auth.cpp *)

Definition key_paths : list bytes := [str "/adb_keys"; str "/data/misc/adb/adb_keys"].

(** The line up to a space or a tab. *)
Fixpoint key_text (line : bytes) : bytes :=
  match line with
  | [] => []
  | a :: rest => if Ascii.eqb a (byte_of 32) || Ascii.eqb a (byte_of 9) || Ascii.eqb a NUL then [] else a :: key_text rest
  end.

Definition line_key (line : bytes) : option RSA :=
  match b64_pton (key_text line) (ANDROID_PUBKEY_ENCODED_SIZE + 1) with
  | Some keybuf => if (Zlen keybuf =? ANDROID_PUBKEY_ENCODED_SIZE)%Z then android_pubkey_decode keybuf else None
  | None => None
  end.

Definition line_verifies (token sig line : bytes) : bool :=
  match line_key line with Some key => RSA_verify token sig key | None => false end.

Definition newline : ascii := byte_of 10.

Definition path_verifies (token sig path : bytes) (e : E) : bool :=
  access_read path e &&
  match ReadFileToString path e with
  | Some content => existsb (line_verifies token sig) (Split content newline)
  | None => false
  end.

Definition adbd_auth_verify (token sig : bytes) (e : E) : bool :=
  existsb (fun path => path_verifies token sig path e) key_paths.

(** [false]: the token may be in any state, and nothing is sent. *)
Definition adbd_auth_generate_token (t : loc) : M W bool :=
  let* x := load_transport t in
  let* (okay, token) := on_env (fun e => let '(okay, token, e) := fread_urandom (t_token x) e in Done (okay, token) e) in
  upd_transport t (set_t_token token) ;;;
  ret okay.

Definition send_auth_request (t : loc) : M W unit :=
  let* okay := adbd_auth_generate_token t in
  if negb okay then ret tt else
  let* x := load_transport t in
  send_new (mk_packet A_AUTH ADB_AUTH_TOKEN 0 (t_token x)) t.

Definition adbd_auth_verified (t : loc) : M W unit := handle_online t ;;; send_connect t.

Definition framework_disconnected : M W unit :=
  let* w := get in
  on_fds (fdevent_remove (au_framework_fde (w_auth w))) ;;;
  upd_auth (set_au_fd (-1)).

Definition adbd_auth_event (fd ev : Z) : M W unit :=
  when (flag ev FDE_READ) (
    let* r := on_env (sys_read fd 2) in
    match r with
    | RdOk [] | RdErr _ => framework_disconnected
    | RdOk response =>
        if bool_decide (response = str "OK") then
          let* w := get in
          match au_usb_transport (w_auth w) with
          | Some t => adbd_auth_verified t
          | None => ret tt
          end
        else ret tt
    end).

Definition adbd_auth_confirm_key (key : bytes) (t : loc) : M W unit :=
  let* w := get in
  (if bool_decide (au_usb_transport (w_auth w) = None)
   then upd_auth (set_au_usb (Some t)) ;;; upd_transport t (AddDisconnect DisconnectAuth)
   else ret tt) ;;;
  let fd := au_framework_fd (w_auth w) in
  if (fd <? 0)%Z then upd_auth (set_au_retry true)
  else
    match last key with
    | None => crash "key[len - 1] out of bounds"
    | Some c =>
        if negb (Ascii.eqb c NUL) then ret tt else
        let msg := str "PK" ++ c_str key in
        if (MAX_PAYLOAD_V1 <=? Zlen msg)%Z then ret tt
        else let* _ := on_env (sys_write fd msg) in ret tt
    end.

Context {N : Net E}.

Definition adbd_auth_listener (fd : Z) : M W unit :=
  let* s := on_env (adb_socket_accept fd) in
  if (s <? 0)%Z then ret tt else
  let* w := get in
  when (0 <=? au_framework_fd (w_auth w))%Z framework_disconnected ;;;
  upd_auth (set_au_fd s) ;;;
  on_fds (fdevent_install (au_framework_fde (w_auth w)) s fn_auth_event) ;;;
  on_fds (fdevent_add (au_framework_fde (w_auth w)) FDE_READ) ;;;
  if au_needs_retry (w_auth w) then
    upd_auth (set_au_retry false) ;;;
    let* t := deref (au_usb_transport (w_auth w)) in
    send_auth_request t
  else ret tt.

(** ** The server: adb_auth_host.cpp *)

Definition adb_auth_get_private_keys (w : W) : list (option loc) :=
  map (fun e => Some (snd e)) (g_keys (w_globals w)) ++ [None].

(** [keys_[0]] of a deque that is not empty, then [pop_front]. *)
Definition NextKey (t : loc) : M W (option loc) :=
  let* x := load_transport t in
  let* w := get in
  let keys := match t_keys x with [] => adb_auth_get_private_keys w | _ => t_keys x end in
  match keys with
  | [] => crash "keys_[0] of an empty deque"
  | key :: rest => upd_transport t (set_t_keys rest) ;;; ret key
  end.

Definition get_user_key_path : bytes := android_dir_path ++ str "/" ++ str "adbkey".

(** An empty string when it cannot be read. *)
Definition adb_auth_get_userkey (e : E) : bytes := default [] (ReadFileToString (get_user_key_path ++ str ".pub") e).

Definition send_auth_publickey (t : loc) : M W unit :=
  let* w := get in
  let key := adb_auth_get_userkey (w_env w) in
  if bool_decide (key = []) then ret tt else
  if (MAX_PAYLOAD_V1 <=? Zlen key)%Z then ret tt else
  send_new (mk_packet A_AUTH ADB_AUTH_RSAPUBLICKEY 0 (key ++ [NUL])) t.

Definition adb_auth_sign (key : loc) (token : bytes) (e : E) : option bytes :=
  if negb (Zlen token =? TOKEN_SIZE)%Z then None
  else match RSA_sign token key e with
       | Some [] | None => None
       | Some sig => Some sig
       end.

Definition send_auth_response (token : bytes) (t : loc) : M W unit :=
  let* key := NextKey t in
  match key with
  | None => send_auth_publickey t
  | Some key =>
      let* p := get_apacket in
      let* w := get in
      match adb_auth_sign key token (w_env w) with
      | None => put_apacket p
      | Some sig => send_packet (mk_packet A_AUTH ADB_AUTH_SIGNATURE 0 sig) (Some t)
      end
  end.

(** ** The packets: adb.cpp *)

Context {SV : Services E} {OS : Os E}.

Definition payload (p : apacket) : bytes := take (Z.to_nat (data_length (msg p))) (data p).

(** The answer to a banner. *)
Definition welcome (t : loc) : M W unit :=
  if ADB_HOST then handle_online t
  else
    let* w := get in
    if au_required (w_auth w) then send_auth_request t
    else handle_online t ;;; send_connect t.

Definition handle_new_connection (t : loc) (p : apacket) : M W unit :=
  let* x := load_transport t in
  when (negb (bool_decide (t_connection_state x = kCsOffline))) (go_offline t) ;;;
  upd_transport t (update_version (arg0 (msg p)) (arg1 (msg p))) ;;;
  upd_transport t (parse_banner (payload p)) ;;;
  welcome t ;;;
  update_transports.

Definition handle_sync (t : loc) (p : apacket) : M W unit :=
  if negb (arg0 (msg p) =? 0)%Z then
    send_packet p (Some t) ;;;
    when ADB_HOST (SendConnectOnHost t)
  else
    go_offline t ;;;
    send_packet p (Some t).

Definition handle_token (t : loc) (p : apacket) : M W unit :=
  let* x := load_transport t in
  when (bool_decide (t_connection_state x = kCsOffline)) (upd_transport t (set_t_connection_state kCsUnauthorized)) ;;;
  send_auth_response (payload p) t.

Definition handle_signature (t : loc) (p : apacket) : M W unit :=
  let* x := load_transport t in
  let* w := get in
  if adbd_auth_verify (t_token x) (payload p) (w_env w) then
    adbd_auth_verified t ;;;
    upd_transport t (set_t_failed_auth_attempts 0)
  else
    upd_transport t (set_t_failed_auth_attempts (t_failed_auth_attempts x + 1)) ;;;
    send_auth_request t.

Definition handle_auth (t : loc) (p : apacket) : M W unit :=
  let a := arg0 (msg p) in
  if ADB_HOST && (a =? ADB_AUTH_TOKEN)%Z then handle_token t p
  else if negb ADB_HOST && (a =? ADB_AUTH_SIGNATURE)%Z then handle_signature t p
  else if negb ADB_HOST && (a =? ADB_AUTH_RSAPUBLICKEY)%Z then adbd_auth_confirm_key (payload p) t
  else go_offline t.

(** The name ends at the last byte of the payload at the latest. *)
Definition open_name (p : apacket) : bytes := c_str (take (Z.to_nat (data_length (msg p) - 1)) (data p)).

(** [s->peer = create_remote_socket(id, t); s->peer->peer = s;] *)
Definition connect_remote (s : loc) (id : Z) (t : loc) : M W unit :=
  let* r := create_remote_socket id t in
  upd_sock s (set_s_peer (Some r)) ;;;
  upd_sock r (set_s_peer (Some s)).

Definition handle_open (t : loc) (p : apacket) : M W unit :=
  let* s := create_local_service_socket (open_name p) (Some t) in
  match s with
  | None => send_close 0 (arg0 (msg p)) t
  | Some s =>
      connect_remote s (arg0 (msg p)) t ;;;
      let* x := load_sock s in
      let* q := deref (s_peer x) in
      let* y := load_sock q in
      send_ready (s_id x) (s_id y) t ;;;
      ready_socket s
  end.

Definition handle_okay (t : loc) (p : apacket) : M W unit :=
  let* s := find_local_socket (arg1 (msg p)) 0 in
  match s with
  | None => send_close (arg1 (msg p)) (arg0 (msg p)) t
  | Some s =>
      let* x := load_sock s in
      match s_peer x with
      | None => connect_remote s (arg0 (msg p)) t ;;; ready_socket s
      | Some q => let* y := load_sock q in when (s_id y =? arg0 (msg p))%Z (ready_socket s)
      end
  end.

Definition handle_close (t : loc) (p : apacket) : M W unit :=
  let* s := find_local_socket (arg1 (msg p)) (arg0 (msg p)) in
  match s with
  | None => ret tt
  | Some s =>
      let* x := load_sock s in
      let* other :=
        match s_peer x with
        | Some q => let* y := load_sock q in ret (negb (bool_decide (s_transport y = Some t)))
        | None => ret false
        end in
      if (arg0 (msg p) =? 0)%Z && other then ret tt else close_socket s
  end.

(** [true]: the packet was handed over. *)
Definition handle_write (t : loc) (p : apacket) : M W bool :=
  let* s := find_local_socket (arg1 (msg p)) (arg0 (msg p)) in
  match s with
  | None => ret false
  | Some s =>
      let* r := enqueue_socket s {| len := data_length (msg p); ptr := ptr p; msg := msg p; data := data p |} in
      when (r =? 0)%Z (let* x := load_sock s in send_ready (s_id x) (arg0 (msg p)) t) ;;;
      ret true
  end.

Definition handle_packet (p : apacket) (t : loc) : M W unit :=
  let m := msg p in
  if (command m =? A_SYNC)%Z then handle_sync t p
  else
    let* handed :=
      if (command m =? A_CNXN)%Z then handle_new_connection t p ;;; ret false
      else if (command m =? A_AUTH)%Z then handle_auth t p ;;; ret false
      else
        let* x := load_transport t in
        if (command m =? A_OPEN)%Z then
          when (t_online x && negb (arg0 m =? 0)%Z && (arg1 m =? 0)%Z) (handle_open t p) ;;; ret false
        else if (command m =? A_OKAY)%Z then
          when (t_online x && negb (arg0 m =? 0)%Z && negb (arg1 m =? 0)%Z) (handle_okay t p) ;;; ret false
        else if (command m =? A_CLSE)%Z then
          when (t_online x && negb (arg1 m =? 0)%Z) (handle_close t p) ;;; ret false
        else if (command m =? A_WRTE)%Z then
          if t_online x && negb (arg0 m =? 0)%Z && negb (arg1 m =? 0)%Z then handle_write t p else ret false
        else ret false in
    when (negb handed) (put_apacket p).

(** [transport_socket_events] *)
Definition transport_socket_events (fd ev : Z) (t : loc) : M W unit :=
  when (flag ev FDE_READ) (
    let* p := read_packet fd in
    match p with
    | None => ret tt
    | Some p => handle_packet p t
    end).

End Connection.
