(* ===== verification/TransportIo.v ===== *)
(** * The threads of a transport, and the wire (transport.cpp,
      transport_local.cpp, transport_usb.cpp)

    Each transport has a thread that reads packets from the device and one that
    writes them; they exchange packets with the main thread through a socket
    pair.  One turn of a thread's loop is one step. *)

From S2P Require Import Prelude LibBase Packet AdbIo FdEvent Transport World SmartText.
From S2P Require Import Sockets SocketIo SocketSpec TransportOps Registration Connection.

(** The USB layer, by handle.  [usb_read] gives what arrived, [None] on failure;
    on a device it gives the length that was asked for. *)
Class Usb (E : Type) := {
  usb_get_max_packet_size : option Z -> E -> Z;
  usb_read : option Z -> Z -> E -> option bytes * E;
  usb_write : option Z -> bytes -> E -> bool * E;
}.

(** A packet with the header that was read, and no data yet. *)
Definition headed (m : amessage) : apacket := {| len := 0; ptr := 0; msg := m; data := [] |}.
Definition with_data (bs : bytes) (p : apacket) : apacket := {| len := len p; ptr := ptr p; msg := msg p; data := bs |}.
Definition with_command (c : Z) (p : apacket) : apacket :=
  let m := msg p in
  {| len := len p; ptr := ptr p;
     msg := {| command := c; arg0 := arg0 m; arg1 := arg1 m; data_length := data_length m;
               data_check := data_check m; magic := magic m |};
     data := data p |}.

(** The bytes of a packet: the header and the payload follow each other in it. *)
Definition packet_bytes (p : apacket) : bytes := encode_message (msg p) ++ payload p.

Section TransportIo.
Context {E : Type} {K : Kernel E} {B : Build} {BN : Banner} {OS : Os E} {U : Usb E}.
Abbreviation W := (world E).

(** ** transport_local.cpp *)

Definition local_remote_read (t : loc) : M W (option apacket) :=
  let* x := load_transport t in
  let* r := on_env (ReadFdExactly (t_sfd x) sizeof_amessage) in
  match r with
  | RX_fail _ => ret None
  | RX_ok header =>
      let p := headed (decode_message header) in
      let* x := load_transport t in
      if negb (check_header p (t_max_payload x)) then ret None else
      let* r := on_env (ReadFdExactly (t_sfd x) (data_length (msg p))) in
      match r with
      | RX_fail _ => ret None
      | RX_ok bs => let p := with_data bs p in ret (if check_data p then Some p else None)
      end
  end.

Definition local_remote_write (p : apacket) (t : loc) : M W bool :=
  let* x := load_transport t in
  let* w := get in
  let* r := on_env (WriteFdExactly (reply_fuel (t_sfd x) (w_env w) (length (packet_bytes p))) (t_sfd x) (packet_bytes p)) in
  ret (wx_bool r).

(** ** transport_usb.cpp *)

Definition usb_read_on (h : option Z) (n : Z) : M W (option bytes) :=
  on_env (fun e => let '(r, e) := usb_read h n e in Done r e).

Definition packet_size (h : option Z) : M W Z := gets (fun w => usb_get_max_packet_size h (w_env w)).

Definition UsbReadMessage (h : option Z) : M W (option amessage) :=
  let* usb_packet_size := packet_size h in
  if (usb_packet_size <? sizeof_amessage)%Z then fatal "CHECK(usb_packet_size >= sizeof(*msg))" else
  if (4096 <=? usb_packet_size)%Z then fatal "CHECK(usb_packet_size < 4096)" else
  let* r := usb_read_on h usb_packet_size in
  match r with
  | Some bs => if (Zlen bs =? sizeof_amessage)%Z then ret (Some (decode_message bs)) else ret None
  | None => ret None
  end.

(** Up to a multiple of the packet size. *)
Definition round_up (len usb_packet_size : Z) : Z :=
  let rem_size := (len mod usb_packet_size)%Z in
  if (rem_size =? 0)%Z then len else (len + (usb_packet_size - rem_size))%Z.

Definition UsbReadPayload (h : option Z) (p : apacket) : M W (option bytes) :=
  let* usb_packet_size := packet_size h in
  if (usb_packet_size =? 0)%Z then crash "division by zero" else
  if negb (MAX_PAYLOAD mod usb_packet_size =? 0)%Z then fatal "CHECK(sizeof(p->data) % usb_packet_size == 0)" else
  let len := round_up (data_length (msg p)) usb_packet_size in
  if (MAX_PAYLOAD <? len)%Z then fatal "CHECK(len <= sizeof(p->data))" else
  usb_read_on h len.

(** Something is wrong with the packet: it is skipped. *)
Definition usb_err_msg (p : apacket) (t : loc) : M W (option apacket) :=
  let* x := load_transport t in
  (if bool_decide (t_connection_state x = kCsOffline) then
     let '(first, x') := SetSendConnectOnError x in
     upd_transport t (fun _ => x') ;;;
     when first (SendConnectOnHost t)
   else ret tt) ;;;
  ret (Some (with_command 0 p)).

Definition usb_remote_read_host (t : loc) : M W (option apacket) :=
  let* x := load_transport t in
  let* m := UsbReadMessage (t_usb x) in
  match m with
  | None => ret None
  | Some m =>
      let p := headed m in
      let* x := load_transport t in
      if negb (check_header p (t_max_payload x)) then usb_err_msg p t else
      if bool_decide (t_connection_state x = kCsOffline) && negb (command m =? A_CNXN)%Z && negb (command m =? A_AUTH)%Z
      then usb_err_msg p t
      else
        let* r := if (data_length m =? 0)%Z then ret (Some []) else UsbReadPayload (t_usb x) p in
        match r with
        | None => ret None
        | Some bs =>
            let p := with_data bs p in
            if negb (Zlen bs =? data_length m)%Z then usb_err_msg p t else
            if negb (check_data p) then usb_err_msg p t else ret (Some p)
        end
  end.

Definition usb_remote_read_device (t : loc) : M W (option apacket) :=
  let* x := load_transport t in
  let* r := usb_read_on (t_usb x) sizeof_amessage in
  match r with
  | None => ret None
  | Some header =>
      let p := headed (decode_message header) in
      let* x := load_transport t in
      if negb (check_header p (t_max_payload x)) then ret None else
      let* r := if (data_length (msg p) =? 0)%Z then ret (Some []) else usb_read_on (t_usb x) (data_length (msg p)) in
      match r with
      | None => ret None
      | Some bs => let p := with_data bs p in ret (if check_data p then Some p else None)
      end
  end.

Definition usb_write_on (h : option Z) (bs : bytes) : M W bool :=
  on_env (fun e => let '(ok, e) := usb_write h bs e in Done ok e).

Definition usb_remote_write (p : apacket) (t : loc) : M W bool :=
  let* x := load_transport t in
  let* ok := usb_write_on (t_usb x) (encode_message (msg p)) in
  if negb ok then ret false else
  if (data_length (msg p) =? 0)%Z then ret true else usb_write_on (t_usb x) (payload p).

(** ** transport.cpp *)

Definition read_from_remote (t : loc) : M W (option apacket) :=
  let* x := load_transport t in
  match t_type x with
  | kTransportUsb => if ADB_HOST then usb_remote_read_host t else usb_remote_read_device t
  | kTransportLocal => local_remote_read t
  | kTransportAny | kTransportHost => crash "null pointer"
  end.

(** [atransport::Write] *)
Definition Write (p : apacket) (t : loc) : M W bool :=
  let* x := load_transport t in
  match t_type x with
  | kTransportUsb => usb_remote_write p t
  | kTransportLocal => local_remote_write p t
  | kTransportAny | kTransportHost => crash "bad_function_call"
  end.

(** Handing a packet over through the pipe at [t->fd], or freeing it. *)
Definition pass_on (p : apacket) (t : loc) : M W bool :=
  let* x := load_transport t in
  let* ok := write_packet (t_fd x) p in
  put_apacket p ;;;
  ret ok.

Definition sync_packet (online token : Z) : apacket :=
  {| len := 0; ptr := 0;
     msg := {| command := A_SYNC; arg0 := online; arg1 := token; data_length := 0; data_check := 0;
               magic := xor32 A_SYNC |};
     data := [] |}.

(** What a turn of a loop ends with. *)
Inductive turn := GoOn | Broke | Oops.

#[export] Instance turn_eq_dec : EqDecision turn.
Proof. solve_decision. Defined.

Definition read_transport_start (t : loc) : M W bool :=
  let* _ := get_apacket in
  upd_transport t (fun x => set_t_sync_token (u32 (t_sync_token x + 1)) x) ;;;
  let* x := load_transport t in
  pass_on (sync_packet 1 (t_sync_token x)) t.

Definition read_transport_turn (t : loc) : M W turn :=
  let* p := get_apacket in
  let* r := read_from_remote t in
  match r with
  | None => put_apacket p ;;; ret Broke
  | Some p =>
      if ADB_HOST && (command (msg p) =? 0)%Z then ret GoOn
      else
        let* ok := pass_on p t in
        ret (if ok then GoOn else Oops)
  end.

Definition transport_thread_end (t : loc) : M W unit := kick_transport t ;;; transport_unref t.

Definition read_transport_stop (t : loc) : M W unit :=
  let* _ := get_apacket in
  let* _ := pass_on (sync_packet 0 0) t in
  ret tt.

Fixpoint read_transport_loop (fuel : nat) (t : loc) : M W unit :=
  match fuel with
  | O => no_fuel
  | S f =>
      let* r := read_transport_turn t in
      match r with
      | GoOn => read_transport_loop f t
      | Broke => read_transport_stop t
      | Oops => ret tt
      end
  end.

Definition read_transport_thread (fuel : nat) (t : loc) : M W unit :=
  let* ok := read_transport_start t in
  when ok (read_transport_loop fuel t) ;;;
  transport_thread_end t.

(** One turn of the writing thread: how it ends, and whether the thread is
    active after it. *)
Definition write_transport_turn (t : loc) (active : bool) : M W (turn * bool) :=
  let* x := load_transport t in
  let* p := read_packet (t_fd x) in
  match p with
  | None => ret (Broke, active)
  | Some p =>
      if (command (msg p) =? A_SYNC)%Z then
        let* x := load_transport t in
        put_apacket p ;;;
        ret (if (arg0 (msg p) =? 0)%Z then (Broke, active)
             else (GoOn, active || (arg1 (msg p) =? t_sync_token x)%Z))
      else
        let* ok := if active then Write p t else ret true in
        put_apacket p ;;;
        ret (if ok : bool then GoOn else Broke, active)
  end.

Fixpoint write_transport_loop (fuel : nat) (t : loc) (active : bool) : M W unit :=
  match fuel with
  | O => no_fuel
  | S f =>
      let* (r, active) := write_transport_turn t active in
      match r with
      | GoOn => write_transport_loop f t active
      | Broke | Oops => ret tt
      end
  end.

Definition write_transport_thread (fuel : nat) (t : loc) : M W unit :=
  write_transport_loop fuel t false ;;;
  transport_thread_end t.

End TransportIo.
