(* ===== verification/ConnectionInv.v ===== *)
(** * The invariant of the connections: what going online and offline keep *)

From S2P Require Import Prelude LibBase Packet AdbIo FdEvent Transport World SmartText.
From S2P Require Import Sockets SocketInv SocketClose SocketIo SocketCreate SocketFlow.
From S2P Require Import SocketSpec Listeners ListenerInv TransportOps Registration Connection.

Section Inv.
Context {E : Type}.
Implicit Types (w : world E) (s t l : loc).

(** The device's authentication client; [T]: the transports whose disconnect
    functions are being run. *)
Record wf_auth (T : gset loc) w : Prop := {
  wa_usb : forall t, au_usb_transport (w_auth w) = Some t ->
    exists x, w_transports w !! t = Some x /\ DisconnectAuth ∈ t_disconnects x;
  wa_only : forall t x, t ∉ T -> w_transports w !! t = Some x -> DisconnectAuth ∈ t_disconnects x ->
    au_usb_transport (w_auth w) = Some t;
  wa_retry : au_needs_retry (w_auth w) = true -> is_Some (au_usb_transport (w_auth w));
  wa_fde : forall e, fdes (w_fds w) !! au_framework_fde (w_auth w) = Some e -> is_active e ->
    fde_fd e = au_framework_fd (w_auth w);
  wa_open : (0 <= au_framework_fd (w_auth w))%Z ->
    exists e, fdes (w_fds w) !! au_framework_fde (w_auth w) = Some e /\ is_active e;
  wa_place : w_socks w !! au_framework_fde (w_auth w) = None /\
    (forall L, (au_framework_fde (w_auth w), L) ∉ w_listeners w) /\ (au_framework_fde (w_auth w) < w_next w)%positive;
}.

(** Trackers are connected. *)
Definition trackers_linked w : Prop :=
  forall s x, s ∈ w_trackers w -> w_socks w !! s = Some x -> is_Some (s_peer x).

(** The lists of transports, registered and pending. *)
Definition lists_of w : list loc * list loc := (w_transport_list w, w_pending w).

Definition lists_ok w : Prop := forall t, t ∈ w_transport_list w \/ t ∈ w_pending w -> is_Some (w_transports w !! t).

(** Everything holds between two events. *)
Record good w : Prop := {
  gd_wf : wf ∅ w;
  gd_listeners : wf_listeners ∅ w;
  gd_auth : wf_auth ∅ w;
  gd_trackers : trackers_linked w;
  gd_nodup : NoDup (w_trackers w);
  gd_lists : lists_ok w;
}.

(** ** Changing the transports, but not what waits for their end *)

Definition same_disconnects (m m' : gmap loc atransport) : Prop :=
  forall t, t_disconnects <$> m' !! t = t_disconnects <$> m !! t.

Lemma same_disconnects_lookup m m' (t : loc) x' :
  same_disconnects m m' -> m' !! t = Some x' -> exists x, m !! t = Some x /\ t_disconnects x = t_disconnects x'.
Proof. intros Hs Hx. specialize (Hs t). rewrite Hx in Hs. destruct (m !! t) as [x|]; [|done]. exists x. split; [done|]. by injection Hs. Qed.

Lemma same_disconnects_sym m m' : same_disconnects m m' -> same_disconnects m' m.
Proof. intros Hs t. by rewrite Hs. Qed.

Lemma same_disconnects_insert m (t : loc) x x' :
  m !! t = Some x -> t_disconnects x' = t_disconnects x -> same_disconnects m (<[t := x']> m).
Proof.
  intros Hx Hd u. destruct (decide (u = t)) as [->|]; [by rewrite lookup_insert_eq, Hx; cbn; rewrite Hd|].
  by rewrite lookup_insert_ne.
Qed.

Section Retransport.
Context (w : world E) (m : gmap loc atransport).
Hypothesis (Hm : same_disconnects (w_transports w) m).
Let w' := set_w_transports m w.

Lemma retransport_dom t : is_Some (m !! t) <-> is_Some (w_transports w !! t).
Proof. specialize (Hm t). destruct (m !! t), (w_transports w !! t); naive_solver. Qed.

Lemma retransport_wf : wf ∅ w -> wf ∅ w'.
Proof.
  intros I. eapply wf_beside; [exact I|]. constructor; cbn; try done; [apply (wf_fd _ _ I)|intros t; apply retransport_dom|].
  intros l [Hl|Hl%retransport_dom]; apply (wf_fresh _ _ I); tauto.
Qed.

Lemma retransport_listeners T : wf_listeners T w -> wf_listeners T w'.
Proof.
  intros IL. constructor; cbn; try apply IL.
  - intros l L t Hin Ht. destruct (wl_transport _ _ IL l L t Hin Ht) as (x & Hx & Hd).
    destruct (same_disconnects_lookup m _ t x (same_disconnects_sym _ _ Hm) Hx) as (x' & Hx' & He).
    exists x'. by rewrite He.
  - intros t x' l HT Hx' Hd. destruct (same_disconnects_lookup _ _ _ _ Hm Hx') as (x & Hx & He).
    rewrite <- He in Hd. by apply (wl_disconnect _ _ IL t x).
Qed.

Lemma retransport_auth T : wf_auth T w -> wf_auth T w'.
Proof.
  intros IA. constructor; cbn; try apply IA.
  - intros t Ht. destruct (wa_usb _ _ IA t Ht) as (x & Hx & Hd).
    destruct (same_disconnects_lookup m _ t x (same_disconnects_sym _ _ Hm) Hx) as (x' & Hx' & He).
    exists x'. by rewrite He.
  - intros t x' HT Hx' Hd. destruct (same_disconnects_lookup _ _ _ _ Hm Hx') as (x & Hx & He).
    rewrite <- He in Hd. by apply (wa_only _ _ IA t x).
Qed.

Lemma retransport_good : good w -> good w'.
Proof.
  intros [I IL IA IT IN IP].
  constructor; [by apply retransport_wf|by apply retransport_listeners|by apply retransport_auth|exact IT|exact IN|].
  intros t Ht. by apply retransport_dom, IP.
Qed.

End Retransport.

(** ** Parts of the state that nothing here reads *)

Lemma good_env e w : good w -> good (set_w_env e w).
Proof. intros [I IL IA IT IN IP]. constructor; [by apply wf_set_env|by destruct IL|by destruct IA|done..]. Qed.
Lemma good_live n w : good w -> good (set_w_live n w).
Proof. intros [I IL IA IT IN IP]. constructor; [by apply wf_set_live|by destruct IL|by destruct IA|done..]. Qed.
Lemma good_sent k w : good w -> good (set_w_sent k w).
Proof. intros [I IL IA IT IN IP]. constructor; [by apply wf_set_sent|by destruct IL|by destruct IA|done..]. Qed.

(** ** An operation on sockets *)

Lemma wf_auth_keep T w w' :
  wf_auth T w -> w_auth w' = w_auth w -> w_transports w' = w_transports w ->
  fdes (w_fds w') !! au_framework_fde (w_auth w) = fdes (w_fds w) !! au_framework_fde (w_auth w) ->
  w_socks w' !! au_framework_fde (w_auth w) = None -> (forall e, e ∈ w_listeners w' -> e ∈ w_listeners w) ->
  (w_next w <= w_next w')%positive -> wf_auth T w'.
Proof.
  intros IA Ha Ht Hf Hs Hl Hn. constructor; rewrite ?Ha, ?Ht, ?Hf; try apply IA.
  destruct (wa_place _ _ IA) as (_ & Hpl & Hlt). split_and!; [done| |lia]. intros L Hin. by apply (Hpl L), Hl.
Qed.

Lemma good_frame D w w' :
  good w -> wf ∅ w' -> frame D w w' -> (forall q, q ∈ D -> is_Some (w_socks w !! q)) ->
  (forall q, q ∈ D -> q ∈ w_trackers w' -> forall y, w_socks w' !! q = Some y -> is_Some (s_peer y)) -> good w'.
Proof.
  intros [I IL IA IT IN IP] I' F HD HT. pose proof (fr_rest _ _ _ F) as Hr. unfold rest_of in Hr. injection Hr as Hpd _ Hl Ha _.
  destruct (wa_place _ _ IA) as (Hns & _ & _).
  assert (au_framework_fde (w_auth w) ∉ D) as HnD by (intros Hd; destruct (HD _ Hd); congruence).
  constructor; [done|by eapply wf_listeners_frame| | | |].
  - eapply wf_auth_keep; [exact IA|done|apply (fr_transports _ _ _ F)|by apply (fr_fdes _ _ _ F)| | |].
    + by rewrite (fr_socks _ _ _ F).
    + by rewrite Hl.
    + by rewrite (fr_next _ _ _ F).
  - intros s x Hs Hx. destruct (decide (s ∈ D)) as [Hd|Hd]; [by eapply HT|].
    rewrite (fr_socks _ _ _ F) in Hx by done. apply (IT s x); [|done]. by apply (fr_trackers _ _ _ F).
  - by eapply sublist_NoDup, (fr_trackers_sub _ _ _ F).
  - intros t. rewrite (fr_transports _ _ _ F), (fr_transport_list _ _ _ F), Hpd. apply IP.
Qed.

Lemma good_closed t w w' : good w -> closed_for t w w' -> good w'.
Proof.
  intros [I IL IA IT IN IP] C. pose proof (clf_rest _ _ _ C) as Hr. unfold rest_of in Hr. injection Hr as Hpd _ Hl Ha _.
  assert (Hnone : forall l, w_socks w !! l = None -> w_socks w' !! l = None).
  { intros l Hn. apply eq_None_not_Some. intros Hs%(clf_dom _ _ _ C). rewrite Hn in Hs. by destruct Hs. }
  constructor; [apply (clf_wf _ _ _ C)| | | | |].
  - eapply wf_listeners_keep; [exact IL|done|apply (clf_transports _ _ _ C)|]. intros l L Hin.
    pose proof (wl_socks _ _ IL l L Hin) as Hn. split; [rewrite Hn; by apply Hnone|by apply (clf_fdes _ _ _ C)].
  - destruct (wa_place _ _ IA) as (Hns & _ & _).
    eapply wf_auth_keep; [exact IA|done|apply (clf_transports _ _ _ C)|by apply (clf_fdes _ _ _ C)|by apply Hnone| |].
    + by rewrite Hl.
    + by rewrite (clf_next _ _ _ C).
  - intros s x Hs Hx. destruct (clf_trackers _ _ _ C s x Hs Hx) as [Hs0 Hx0]. by apply (IT s x).
  - by eapply sublist_NoDup, (clf_trackers_sub _ _ _ C).
  - intros u. rewrite (clf_transports _ _ _ C), (clf_list _ _ _ C), Hpd. apply IP.
Qed.

End Inv.

(** ** Running the disconnect functions *)

Section Offline.
Context {E : Type} {K : Kernel E} {KL : KernelLaws E} {B : Build} {LB : LibBase} {SO : SetOrder}.
Implicit Types (w : world E) (s t l : loc).

(** What has run already is [T]'s; what is still to run refers to [t] only. *)
Record running (t : loc) (ds : list adisconnect) w : Prop := {
  rn_wf : wf ∅ w;
  rn_listeners : wf_listeners {[t]} w;
  rn_auth : wf_auth {[t]} w;
  rn_mine : forall l L, DisconnectListener l ∈ ds -> (l, L) ∈ w_listeners w -> l_transport L = Some t;
  rn_usb : DisconnectAuth ∈ ds -> forall u, au_usb_transport (w_auth w) = Some u -> u = t;
}.

(** What running [ds] changes. *)
Record ran (t : loc) (ds : list adisconnect) w w' : Prop := {
  ra_running : running t [] w';
  ra_beside : beside w w';
  ra_transports : w_transports w' = w_transports w;
  ra_sent : w_sent w' = w_sent w;
  ra_list : lists_of w' = lists_of w;
  ra_listeners : forall e, e ∈ w_listeners w' <-> e ∈ w_listeners w /\ DisconnectListener (fst e) ∉ ds;
  ra_auth : w_auth w' = if decide (DisconnectAuth ∈ ds) then set_au_retry false (set_au_usb None (w_auth w)) else w_auth w;
}.

Lemma running_nil t d ds w : running t (d :: ds) w -> running t ds w.
Proof.
  intros [I IL IA Hm Hu]. constructor; try done.
  - intros l L Hin. apply Hm. by right.
  - intros Hin. apply Hu. by right.
Qed.

Lemma ran_nil t w : running t [] w -> ran t [] w w.
Proof.
  intros R. constructor; [done|apply beside_refl, R|done|done|done| |].
  - intros e. split; [|tauto]. intros He. split; [done|apply not_elem_of_nil].
  - rewrite decide_False; [done|apply not_elem_of_nil].
Qed.

Lemma ran_cons t d ds w w1 w' : running t ds w1 -> beside w w1 -> w_transports w1 = w_transports w -> w_sent w1 = w_sent w ->
  lists_of w1 = lists_of w ->
  (forall e, e ∈ w_listeners w1 <-> e ∈ w_listeners w /\ DisconnectListener (fst e) <> d) ->
  w_auth w1 = (if decide (d = DisconnectAuth) then set_au_retry false (set_au_usb None (w_auth w)) else w_auth w) ->
  ran t ds w1 w' -> ran t (d :: ds) w w'.
Proof.
  intros R1 Hb Ht Hs Htl Hl Ha [R' Hb' Ht' Hs' Htl' Hl' Ha'].
  constructor; [done|by eapply beside_trans|congruence|congruence|congruence| |].
  - intros e. rewrite Hl', Hl, not_elem_of_cons. tauto.
  - rewrite Ha', Ha. destruct (decide (DisconnectAuth ∈ ds)) as [Hin|Hin].
    + rewrite (decide_True (P := DisconnectAuth ∈ d :: ds)) by (by right). by case_decide.
    + case_decide as Hd; [subst d; by rewrite decide_True by (by left)|].
      rewrite decide_False; [done|]. rewrite not_elem_of_cons. split; [congruence|done].
Qed.

Lemma erased_running t l L0 ds st w :
  running t (DisconnectListener l :: ds) w -> (l, L0) ∈ w_listeners w ->
  fd_gone l (l_fd L0) (w_fds w) st -> wf ∅ (erased l None st w) -> wf_listeners {[t]} (erased l None st w) ->
  running t ds (erased l None st w).
Proof.
  intros [I IL IA Hm Hu] Hin G I' IL'. constructor; try done.
  - destruct (wa_place _ _ IA) as (Hpl & Hnl & Hlt). eapply wf_auth_keep; [exact IA|done..| |done| |done]; cbn.
    + apply (fg_others _ _ _ _ G). intros Heq. apply (Hnl L0). by rewrite Heq.
    + intros e [He _]%elem_of_without. done.
  - intros q Q Hq [HQ _]%elem_of_without. apply (Hm q Q); [by right|done].
  - intros Hq. apply Hu. by right.
Qed.

Lemma wp_run_disconnect_listener t l ds w (Q : unit -> world E -> Prop) :
  running t (DisconnectListener l :: ds) w ->
  (forall w', running t ds w' -> beside w w' -> w_transports w' = w_transports w -> w_sent w' = w_sent w ->
     lists_of w' = lists_of w ->
     (forall e, e ∈ w_listeners w' <-> e ∈ w_listeners w /\ fst e <> l) -> w_auth w' = w_auth w -> Q tt w') ->
  wp (listener_disconnect l) Q w.
Proof.
  intros R HQ. pose proof R as [I IL IA Hm Hu]. unfold listener_disconnect. apply wp_bind, wp_get.
  pose proof (find_listener _ w l IL) as Hf. destruct (List.find _ _) as [[l' L]|].
  - destruct Hf as [-> Hin]. pose proof (Hm l L ltac:(by left) Hin) as HLt.
    eapply (wp_erase_listener {[t]} l L (set_l_transport None L)); [done|done|done| |].
    + right. split; [done|]. intros u Hu'. rewrite HLt in Hu'. injection Hu' as <-. set_solver.
    + cbn [l_transport set_l_transport]. intros st I' IL' Hb G. apply HQ; try done; [by eapply erased_running|].
      intros e. apply elem_of_without.
  - apply wp_ret, HQ; try done; [by eapply running_nil|by apply beside_refl|].
    intros [q L]. split; [|tauto]. intros Hin. split; [done|]. cbn. intros ->. by apply (Hf L).
Qed.

Lemma usb_disconnected_running t ds w :
  running t (DisconnectAuth :: ds) w ->
  running t ds (set_w_auth (set_au_retry false (set_au_usb None (w_auth w))) w).
Proof.
  intros [I IL IA Hm Hu]. constructor.
  - by destruct I.
  - by destruct IL.
  - destruct IA as [Hus Ho Hr Hf Hop Hp]. constructor; cbn; try done.
    intros u x Hu' Hx Hd. specialize (Ho u x Hu' Hx Hd). rewrite (Hu ltac:(by left) u Ho) in Hu'. set_solver.
  - intros l L Hin. apply Hm. by right.
  - done.
Qed.

Lemma wp_run_disconnects_list t ds w (Q : unit -> world E -> Prop) :
  running t ds w -> (forall w', ran t ds w w' -> Q tt w') -> wp (iter_list run_disconnect ds) Q w.
Proof.
  revert w Q. induction ds as [|d ds IH]; intros w Q R HQ; cbn [iter_list].
  - by apply wp_ret, HQ, ran_nil.
  - apply wp_bind. destruct d as [l|]; cbn [run_disconnect].
    + eapply wp_run_disconnect_listener; [exact R|]. intros w1 R1 Hb Ht Hs Htl Hl Ha. apply IH; [done|]. intros w' R'.
      apply HQ. eapply (ran_cons t (DisconnectListener l)); [done|done|done|done|done| |by rewrite decide_False by done|done].
      intros e. rewrite Hl. split; intros [? Hne]; (split; [done|]); [congruence|]. intros <-. by apply Hne.
    + apply wp_modify. apply IH; [by apply usb_disconnected_running|]. intros w' R'. apply HQ.
      eapply (ran_cons t DisconnectAuth); [by apply usb_disconnected_running| |done|done|done| |by rewrite decide_True by done|done].
      * destruct R as [I _ _ _ _]. by apply beside_refl in I as [].
      * intros e. split; [done|tauto].
Qed.

(** Nothing waits for the end of [t] any more. *)
Lemma good_ran t x w w' :
  good w -> w_transports w !! t = Some x -> ran t (t_disconnects x) w w' ->
  good (set_w_transports (<[t := set_t_disconnects [] x]> (w_transports w')) w').
Proof.
  intros [I IL IA IT IN IP] Hx [[I' IL' IA' _ _] Hb Ht Hs Hli Hl Ha].
  unfold lists_of in Hli. injection Hli as Hli Hpd. pose proof (be_socks _ _ Hb) as Hso. unfold socks_of in Hso.
  injection Hso as Hso _ _ _ Htr _.
  assert (Hdom : forall u, is_Some (<[t := set_t_disconnects [] x]> (w_transports w') !! u) <-> is_Some (w_transports w' !! u)).
  { intros u. destruct (decide (u = t)) as [->|]; [rewrite lookup_insert_eq, Ht, Hx; by split|by rewrite lookup_insert_ne]. }
  constructor.
  - eapply wf_beside; [exact I'|]. constructor; cbn; try done; [apply (wf_fd _ _ I')|intros u; apply Hdom|].
    intros l [Hq|Hq%Hdom]; apply (wf_fresh _ _ I'); tauto.
  - constructor; cbn; try apply IL'.
    + intros l L u Hin HLu. apply Hl in Hin as [Hin Hnd].
      destruct (wl_transport _ _ IL l L u Hin HLu) as (y & Hy & Hd). destruct (decide (u = t)) as [->|Hne].
      * exfalso. simplify_eq. by apply Hnd.
      * exists y. by rewrite lookup_insert_ne, Ht by done.
    + intros u y l _ Hy Hd. destruct (decide (u = t)) as [->|Hne].
      * rewrite lookup_insert_eq in Hy. injection Hy as <-. by apply not_elem_of_nil in Hd.
      * rewrite lookup_insert_ne in Hy by done. apply (wl_disconnect _ _ IL' u y); [set_solver|done|done].
  - constructor; cbn; try apply IA'.
    + intros u Hu. destruct (wa_usb _ _ IA' u Hu) as (y & Hy & Hd). rewrite Ha in Hu.
      case_decide as Hin; [done|]. exists y. rewrite lookup_insert_ne; [done|]. intros <-. rewrite Ht in Hy. simplify_eq. done.
    + intros u y _ Hy Hd. destruct (decide (u = t)) as [->|Hne].
      * rewrite lookup_insert_eq in Hy. injection Hy as <-. by apply not_elem_of_nil in Hd.
      * rewrite lookup_insert_ne in Hy by done. apply (wa_only _ _ IA' u y); [set_solver|done|done].
  - intros s y Hsy Hy. cbn in Hsy, Hy. rewrite Htr in Hsy. rewrite Hso in Hy. by apply (IT s y).
  - cbn. by rewrite Htr.
  - intros u Hu. cbn in *. apply Hdom. rewrite Ht. apply IP. by rewrite <- Hli, <- Hpd.
Qed.

Lemma running_start t x w : good w -> w_transports w !! t = Some x -> running t (t_disconnects x) w.
Proof.
  intros [I IL IA IT IN IP] Hx. constructor; [done| | | |].
  - destruct IL as [H1 H2 H3 H4 H5 H6]. constructor; try done. intros u y l _. apply H5. set_solver.
  - destruct IA as [H1 H2 H3 H4 H5 H6]. constructor; try done. intros u y _. apply H2. set_solver.
  - intros l L Hd Hin. destruct (wl_disconnect _ _ IL t x l ltac:(set_solver) Hx Hd) as (L' & HL' & HLt).
    by rewrite (listener_unique _ _ _ _ _ IL Hin HL').
  - intros Hd u Hu. pose proof (wa_only _ _ IA t x ltac:(set_solver) Hx Hd). congruence.
Qed.

(** What going offline leaves of the transport [t]: [x'] is the transport as it
    is set before the disconnect functions run. *)
Record offline_post (t : loc) x' w w' : Prop := {
  of_good : good w';
  of_transport : w_transports w' !! t = Some (set_t_disconnects [] x');
  of_others : forall u, u <> t -> w_transports w' !! u = w_transports w !! u;
  of_local : forall s y, s ∈ w_local w' -> w_socks w' !! s = Some y -> ~ bound_to w' t y;
  of_unbound : forall q y, w_socks w !! q = Some y -> ~ bound_to w t y ->
    w_socks w' !! q = Some y /\ (q ∈ w_local w -> q ∈ w_local w');
  of_listeners : forall e, e ∈ w_listeners w' <-> e ∈ w_listeners w /\ l_transport (snd e) <> Some t;
  of_auth : au_usb_transport (w_auth w') <> Some t;
  of_required : au_required (w_auth w') = au_required (w_auth w);
  of_list : lists_of w' = lists_of w;
}.

Lemma wp_run_disconnects t x w (Q : unit -> world E -> Prop) :
  good w -> w_transports w !! t = Some x ->
  (forall w', ran t (t_disconnects x) w w' ->
     Q tt (set_w_transports (<[t := set_t_disconnects [] x]> (w_transports w')) w')) ->
  wp (RunDisconnects t) Q w.
Proof.
  intros G Hx HQ. unfold RunDisconnects. apply wp_bind. eapply wp_load_transport; [done|]. apply wp_bind.
  eapply wp_run_disconnects_list; [by apply running_start|]. intros w' R.
  eapply wp_upd_transport; [by rewrite (ra_transports _ _ _ _ R)|]. by apply HQ.
Qed.

Lemma ran_listeners t x w w' : good w -> w_transports w !! t = Some x -> ran t (t_disconnects x) w w' ->
  forall e, e ∈ w_listeners w' <-> e ∈ w_listeners w /\ l_transport (snd e) <> Some t.
Proof.
  intros [I IL IA IT IN IP] Hx R [l L]. rewrite (ra_listeners _ _ _ _ R). cbn. split; intros [Hin Hn]; (split; [done|]).
  - intros Ht. destruct (wl_transport _ _ IL l L t Hin Ht) as (y & Hy & Hd). by simplify_eq.
  - intros Hd. destruct (wl_disconnect _ _ IL t x l ltac:(set_solver) Hx Hd) as (L' & HL' & Ht).
    by rewrite (listener_unique _ _ _ _ _ IL Hin HL') in Hn.
Qed.

Lemma ran_usb t x w w' : good w -> w_transports w !! t = Some x -> ran t (t_disconnects x) w w' ->
  au_usb_transport (w_auth w') <> Some t /\ au_required (w_auth w') = au_required (w_auth w).
Proof.
  intros [I IL IA IT IN IP] Hx R. rewrite (ra_auth _ _ _ _ R). case_decide as Hd; [done|]. split; [|done].
  intros Hu. destruct (wa_usb _ _ IA t Hu) as (y & Hy & Hdy). by simplify_eq.
Qed.

Lemma wp_handle_offline t x w (Q : unit -> world E -> Prop) :
  good w -> w_transports w !! t = Some x ->
  (forall w', offline_post t (set_t_online false x) w w' -> Q tt w') -> wp (handle_offline t) Q w.
Proof.
  intros G Hx HQ. unfold handle_offline. apply wp_bind. eapply wp_upd_transport; [done|].
  set (x' := set_t_online false x). set (w1 := set_w_transports _ w).
  assert (G1 : good w1) by (apply retransport_good; [by eapply same_disconnects_insert|done]).
  apply wp_bind. unfold close_all_sockets. apply wp_bind, wp_get.
  apply wp_close_all; [apply G1|done|]. intros w2 C. pose proof (good_closed _ _ _ G1 C) as G2.
  assert (Hx2 : w_transports w2 !! t = Some x') by (rewrite (clf_transports _ _ _ C); apply lookup_insert_eq).
  eapply wp_run_disconnects; [done|exact Hx2|]. intros w3 R. apply HQ.
  pose proof (be_socks _ _ (ra_beside _ _ _ _ R)) as Hs. unfold socks_of in Hs. injection Hs as Hs Hl _ _ _ _.
  pose proof (clf_rest _ _ _ C) as Hr. unfold rest_of in Hr. injection Hr as Hpd _ HL Ha _.
  destruct (ran_usb _ _ _ _ G2 Hx2 R) as [Hu Hreq].
  constructor; cbn; rewrite ?Hs, ?Hl.
  - by eapply good_ran.
  - apply lookup_insert_eq.
  - intros u Hne. rewrite lookup_insert_ne, (ra_transports _ _ _ _ R), (clf_transports _ _ _ C) by done.
    cbn. by rewrite lookup_insert_ne.
  - intros s y Hsl Hy Hb. apply (clf_none _ _ _ C s y Hsl Hy). unfold bound_to in *. cbn in Hb. by rewrite Hs in Hb.
  - exact (clf_others _ _ _ C).
  - intros e. rewrite (ran_listeners t x' w2 w3 G2 Hx2 R), HL. done.
  - done.
  - by rewrite Hreq, Ha.
  - change (lists_of w3 = lists_of w). rewrite (ra_list _ _ _ _ R). unfold lists_of. by rewrite (clf_list _ _ _ C), Hpd.
Qed.

End Offline.
