(* ===== verification/Demo.v ===== *)
(** * Small programs and worlds on which the theorems are exercised

    The kernel is the script of World.v; the cryptography is a toy in which a
    signature is the key followed by the token. *)

From S2P Require Import Prelude LibBase Packet AdbIo FdEvent Transport World SmartText.
From S2P Require Import Sockets SocketInv SocketIo SocketProps SocketSpec Listeners ListenerInv.
From S2P Require Import TransportOps Registration Connection TransportIo ConnectionInv.

(** ** The two programs *)

Definition server_build : Build :=
  {| ADB_HOST := true; no_perm_long_text := []; no_perm_short_text := []; vendor_keys := None |}.
Definition device_build : Build :=
  {| ADB_HOST := false; no_perm_long_text := []; no_perm_short_text := []; vendor_keys := None |}.

#[export] Instance demo_banner : Banner := {|
  adb_device_banner := str "device";
  GetProperty name := if bool_decide (name = str "ro.product.model") then str "Walleye" else [];
|}.

(** ** Keys *)

Definition demo_key (key : loc) : bytes := hex_pad 4 (Zpos key).

Definition demo_files (path : bytes) : option bytes :=
  if bool_decide (path = str "/adb_keys") then Some (str "0005 user@first" ++ [byte_of 10] ++ str "0007 user@second")
  else if bool_decide (path = str "/home/.android/adbkey.pub") then Some (str "0006 me@here")
  else None.

#[export] Instance demo_crypto : Crypto script := {|
  RSA := bytes;
  access_read path _ := bool_decide (demo_files path <> None);
  ReadFileToString path _ := demo_files path;
  b64_pton s n := if (Zlen s <=? n)%Z then Some s else None;
  ANDROID_PUBKEY_ENCODED_SIZE := 4;
  android_pubkey_decode bs := Some bs;
  RSA_verify token sig key := bool_decide (sig = key ++ token);
  RSA_sign token key _ := Some (demo_key key ++ token);
  fread_urandom old e := (true, str "twenty random bytes!", e);
  android_dir_path := str "/home/.android";
|}.

(** ** The rest of the system *)

#[export] Instance demo_os : Os script := {|
  adb_socketpair e := (Some (20, 21)%Z, e);
  start_thread _ e := e;
  tmsg_put _ _ e := (true, e);
  tmsg_get _ e := (None, e);
  usb_kick _ e := e;
  usb_close _ e := e;
  notify_init_cv e := e;
  TransportOps.getenv _ := None;
  canonical_address h p := h ++ str ":" ++ dec p;
  set_tcp_keepalive _ _ e := e;
|}.

#[export] Instance demo_usb : Usb script := {|
  usb_get_max_packet_size _ _ := 512%Z;
  usb_read h n e := match script_read (default 0%Z h) n e with (RdOk bs, e) => (Some bs, e) | (RdErr _, e) => (None, e) end;
  usb_write h bs e := (true, e);
|}.

#[export] Instance demo_services : Services script := {|
  service_to_fd _ _ := ret (-1)%Z;
  create_service_thread _ := ret 9%Z;
  handle_host_request _ _ _ _ _ := ret 1%Z;
  getuid := 0;
  log_is_debuggable := false;
|}.

(** ** Worlds *)

Definition demo_globals (keys : list (bytes * loc)) : globals := {|
  g_keys := keys; g_monitored_paths := ∅; g_local_transports := replicate 16 None; g_retry_ports := [];
  g_registration_send := -1; g_registration_recv := -1; g_device_scan_complete := false; g_transports_ready := false |}.

(** A process with the transports [ts], the first at address 1; the event
    object of the framework is at 9. *)
Definition idle_world {E} (required : bool) (keys : list (bytes * loc)) (ts : gmap loc atransport) (env : E) : world E := {|
  w_env := env; w_fds := fd_empty; w_next := 10; w_socks := ∅; w_local := []; w_closing := []; w_next_id := 1;
  w_transports := ts; w_transport_list := elements (dom ts); w_pending := []; w_trackers := []; w_jdwp_list := [];
  w_jdwp_trackers := []; w_sent := []; w_live := 0; w_listeners := [];
  w_auth := {| au_required := required; au_framework_fde := 9; au_framework_fd := -1;
               au_usb_transport := None; au_needs_retry := false |};
  w_globals := demo_globals keys |}.

Lemma idle_good {E} required keys ts (env : E) :
  (forall t, is_Some (ts !! t) -> (t < 9)%positive) -> (forall t x, ts !! t = Some x -> t_disconnects x = []) ->
  good (idle_world required keys ts env).
Proof.
  intros Hlt Hd. constructor.
  - constructor; cbn; try done; try (by intros *; set_solver); try (by intros *; rewrite lookup_empty).
    + apply fd_inv_empty.
    + constructor.
    + constructor.
    + intros l [[? Hl]|[[? Hl]|Hl%Hlt]]; [by rewrite lookup_empty in Hl..|lia].
  - constructor; cbn; try done; try (by intros *; set_solver); try (by intros *; rewrite lookup_empty); [constructor|].
    intros t x l _ Hx Hl. rewrite (Hd t x Hx) in Hl. by apply not_elem_of_nil in Hl.
  - constructor; cbn; try done.
    + intros t x _ Hx Hl. rewrite (Hd t x Hx) in Hl. by apply not_elem_of_nil in Hl.
    + split_and!; [done|intros L Hin; by apply not_elem_of_nil in Hin|lia].
  - intros s x Hs. by apply not_elem_of_nil in Hs.
  - constructor.
  - intros t [Ht|Ht]; cbn in Ht; [by apply elem_of_elements, elem_of_dom in Ht|by apply not_elem_of_nil in Ht].
Qed.

Definition demo_transport : atransport := set_t_type kTransportLocal (set_t_fd 12 (set_t_sfd 13 (set_t_transport_socket 14
  (set_t_sync_token 1 (new_atransport kCsOffline))))).

Definition one_transport : gmap loc atransport := {[ 1%positive := demo_transport ]}.

Lemma one_transport_small t : is_Some (one_transport !! t) -> (t < 9)%positive.
Proof. intros [x Hx]. unfold one_transport in Hx. apply lookup_singleton_Some in Hx as [<- _]. lia. Qed.

Lemma one_transport_idle t x : one_transport !! t = Some x -> t_disconnects x = [].
Proof. intros Hx. unfold one_transport in Hx. by apply lookup_singleton_Some in Hx as [_ <-]. Qed.

#[export] Hint Resolve one_transport_small one_transport_idle idle_good : adb.
