(* ===== verification/ConnectionFlow.v ===== *)
(** * What the handlers of adb.cpp keep, one after the other *)

From S2P Require Import Prelude LibBase Packet AdbIo FdEvent Transport World SmartText.
From S2P Require Import Sockets SocketInv SocketClose SocketIo SocketCreate SocketFlow.
From S2P Require Import SocketSpec Listeners ListenerInv TransportOps Registration Connection ConnectionInv.

(** ** Steps *)

Section Steps.
Context {E : Type} {K : Kernel E} {KL : KernelLaws E}.
Implicit Types (w : world E) (s t l : loc).

(** The state of a connection. *)
Definition conn (w : world E) (t : loc) : option (ConnectionState * bool) :=
  (fun x => (t_connection_state x, t_online x)) <$> w_transports w !! t.

(** The invariant holds again and no connection changed. *)
Definition step w w' : Prop :=
  good w' /\ (forall t, conn w' t = conn w t) /\ au_required (w_auth w') = au_required (w_auth w).

(** The connection of [t] may have changed. *)
Definition step_on (t : loc) w w' : Prop :=
  good w' /\ (forall u, u <> t -> conn w' u = conn w u) /\ (is_Some (conn w t) -> is_Some (conn w' t)) /\
  au_required (w_auth w') = au_required (w_auth w).

Lemma step_refl w : good w -> step w w.
Proof. done. Qed.

Lemma step_trans w1 w2 w3 : step w1 w2 -> step w2 w3 -> step w1 w3.
Proof. intros (_ & C1 & R1) (G & C2 & R2). split_and!; [done| |congruence]. intros t. by rewrite C2. Qed.

Lemma step_step_on t w w' : step w w' -> step_on t w w'.
Proof. intros (G & C & R). split_and!; try done. by rewrite C. Qed.

Lemma step_on_trans t w1 w2 w3 : step_on t w1 w2 -> step_on t w2 w3 -> step_on t w1 w3.
Proof.
  intros (_ & C1 & S1 & R1) (G & C2 & S2 & R2). split_and!; [done| |auto|congruence]. intros u Hu. by rewrite C2, C1.
Qed.

Lemma conn_some w t : is_Some (conn w t) <-> is_Some (w_transports w !! t).
Proof. unfold conn. by rewrite fmap_is_Some. Qed.

(** The transport is still there. *)
Lemma step_transport t x w w' : step w w' -> w_transports w !! t = Some x ->
  exists x', w_transports w' !! t = Some x' /\ t_connection_state x' = t_connection_state x /\ t_online x' = t_online x.
Proof.
  intros (_ & C & _) Hx. specialize (C t). unfold conn in C. rewrite Hx in C.
  destruct (w_transports w' !! t) as [x'|]; [|done]. injection C as Hs Ho. by exists x'.
Qed.

Lemma step_same w w' : good w' -> w_transports w' = w_transports w -> w_auth w' = w_auth w -> step w w'.
Proof. intros G Ht Ha. split_and!; [done| |by rewrite Ha]. intros t. unfold conn. by rewrite Ht. Qed.

(** [w] with the transport [t] replaced. *)
Definition at_transport t x w : world E := set_w_transports (<[t := x]> (w_transports w)) w.

Lemma good_at_transport t x x' w :
  good w -> w_transports w !! t = Some x -> t_disconnects x' = t_disconnects x -> good (at_transport t x' w).
Proof. intros G Hx Hd. by apply retransport_good; [eapply same_disconnects_insert|]. Qed.

Lemma step_on_at t x x' w :
  good w -> w_transports w !! t = Some x -> t_disconnects x' = t_disconnects x -> step_on t w (at_transport t x' w).
Proof.
  intros G Hx Hd. split_and!; [by eapply good_at_transport| | |done]; unfold conn; cbn.
  - intros u Hu. by rewrite lookup_insert_ne.
  - intros _. by rewrite lookup_insert_eq.
Qed.

Lemma step_at t x x' w :
  good w -> w_transports w !! t = Some x -> t_disconnects x' = t_disconnects x ->
  t_connection_state x' = t_connection_state x -> t_online x' = t_online x -> step w (at_transport t x' w).
Proof.
  intros G Hx Hd Hs Ho. split_and!; [by eapply good_at_transport| |done]. intros u. unfold conn. cbn.
  destruct (decide (u = t)) as [->|Hne]; [by rewrite lookup_insert_eq, Hx; cbn; rewrite Hs, Ho|by rewrite lookup_insert_ne].
Qed.

(** An operation on sockets that are not trackers, or that are gone. *)
Lemma step_frame D w w' :
  good w -> wf ∅ w' -> frame D w w' -> (forall q, q ∈ D -> is_Some (w_socks w !! q)) ->
  (forall q, q ∈ D -> q ∈ w_trackers w' -> forall y, w_socks w' !! q = Some y -> is_Some (s_peer y)) -> step w w'.
Proof.
  intros G I' F HD HT. pose proof (fr_rest _ _ _ F) as Hr. unfold rest_of in Hr. injection Hr as _ _ _ Ha _.
  apply step_same; [by eapply good_frame|apply (fr_transports _ _ _ F)|done].
Qed.

(** A socket that stays what it is. *)
Lemma step_socket s x x' w w' :
  good w -> wf ∅ w' -> frame {[s]} w w' -> w_socks w !! s = Some x -> w_socks w' !! s = Some x' ->
  s_enqueue x' <> enq_device_tracker \/ is_Some (s_peer x') -> step w w'.
Proof.
  intros G I' F Hx Hx' Hk. eapply step_frame; [done|done|exact F| |].
  - intros q ->%elem_of_singleton. by exists x.
  - intros q ->%elem_of_singleton Hq y Hy. destruct (wf_trackers _ _ I' s Hq) as (z & Hz & Hkz).
    destruct Hk as [Hk|Hk]; [congruence|]. by simplify_eq.
Qed.

Lemma step_close s x w w' :
  good w -> wf ∅ w' -> frame ({[s]} ∪ peer_set x) w w' -> w_socks w !! s = Some x -> gone s w' ->
  (forall p, s_peer x = Some p -> gone p w') -> step w w'.
Proof.
  intros G I' F Hx Hg Hgp. eapply step_frame; [done|done|exact F| |].
  - intros q [->%elem_of_singleton|Hq]%elem_of_union; [by exists x|]. unfold peer_set in Hq.
    destruct (s_peer x) as [p|] eqn:Hp; [|set_solver]. apply elem_of_singleton in Hq as ->.
    destruct (wf_peer_ok s x w (gd_wf _ G) Hx p Hp) as (y & _ & Hy & _). by exists y.
  - intros q Hq Htr. exfalso. apply elem_of_union in Hq as [->%elem_of_singleton|Hq]; [by apply (tracker_gone w' s)|].
    unfold peer_set in Hq. destruct (s_peer x) as [p|]; [|set_solver]. apply elem_of_singleton in Hq as ->.
    by apply (tracker_gone w' p I' (Hgp p eq_refl)).
Qed.

(** A new socket. *)
Lemma step_added s x w w' :
  good w -> wf ∅ w' -> added s x w w' -> s_enqueue x <> enq_device_tracker -> step w w'.
Proof.
  intros G I' A Hk. pose proof (add_rest _ _ _ _ A) as Hr. unfold rest_of in Hr. injection Hr as Hpd _ Hl Ha _.
  pose proof G as [I IL IA IT IN IP].
  destruct (fresh_unused ∅ w I) as (Hns & Hnf & Hnt). pose proof (add_fresh _ _ _ _ A) as ->.
  assert (Htr : w_trackers w' = w_trackers w) by (by destruct (add_trackers _ _ _ _ A) as [|[_ ?]]).
  assert (Hold : forall q, (q < w_next w)%positive -> w_socks w' !! q = w_socks w !! q /\
    fdes (w_fds w') !! q = fdes (w_fds w) !! q).
  { intros q Hq. rewrite (add_socks _ _ _ _ A), lookup_insert_ne by lia. split; [done|]. apply (add_fdes _ _ _ _ A). lia. }
  apply step_same; [|apply (add_transports _ _ _ _ A)|done].
  constructor; [done| | | | |].
  - eapply wf_listeners_keep; [exact IL|done|apply (add_transports _ _ _ _ A)|]. intros l L Hin. apply Hold.
    destruct (wl_fde _ _ IL l L Hin) as (e & He & _). apply (wf_fresh _ _ I). right; left. by exists e.
  - destruct (wa_place _ _ IA) as (Hps & _ & Hlt). destruct (Hold _ Hlt) as [Hos Hof].
    eapply wf_auth_keep; [exact IA|done|apply (add_transports _ _ _ _ A)|done|by rewrite Hos|by rewrite Hl|].
    rewrite (add_next _ _ _ _ A). lia.
  - intros q y Hq Hy. rewrite Htr in Hq. destruct (wf_trackers _ _ I q Hq) as (z & Hz & _).
    rewrite (add_socks _ _ _ _ A), lookup_insert_ne in Hy by congruence. by apply (IT q y).
  - by rewrite Htr.
  - intros t. rewrite (add_transports _ _ _ _ A), (add_transport_list _ _ _ _ A), Hpd. apply IP.
Qed.

(** [w] after sending [msgs]. *)
Definition after (e : E) (n : Z) (msgs : list (loc * apacket)) w : world E :=
  set_w_live n (set_w_sent (w_sent w ++ msgs) (set_w_env e w)).

Lemma step_after e n msgs w : good w -> step w (after e n msgs w).
Proof. intros G. apply step_same; [|done|done]. by apply good_live, good_sent, good_env. Qed.

Lemma after_after e n m e' n' m' w : after e' n' m' (after e n m w) = after e' n' (m ++ m') w.
Proof. unfold after. cbn. by rewrite app_assoc. Qed.

End Steps.

(** ** Going offline, and sending *)

Section Sends.
Context {E : Type} {K : Kernel E} {KL : KernelLaws E} {B : Build} {BN : Banner} {LB : LibBase} {SO : SetOrder} {CR : Crypto E}.
Implicit Types (w : world E) (s t l : loc).

Lemma step_offline t x x' w w' :
  w_transports w !! t = Some x -> offline_post t x' w w' -> step_on t w w'.
Proof.
  intros Hx P. split_and!; [apply (of_good _ _ _ _ P)| | |apply (of_required _ _ _ _ P)].
  - intros u Hu. unfold conn. by rewrite (of_others _ _ _ _ P).
  - intros _. apply conn_some. rewrite (of_transport _ _ _ _ P). eauto.
Qed.

(** The transport after it went offline. *)
Definition offline_transport x : atransport := set_t_disconnects [] (set_t_online false (set_t_connection_state kCsOffline x)).

Lemma wp_go_offline t x w (Q : unit -> world E -> Prop) :
  good w -> w_transports w !! t = Some x ->
  (forall w', step_on t w w' -> w_transports w' !! t = Some (offline_transport x) -> Q tt w') ->
  wp (go_offline t) Q w.
Proof.
  intros G Hx HQ. unfold go_offline. apply wp_bind. eapply wp_upd_transport; [done|].
  set (x1 := set_t_connection_state kCsOffline x). set (w1 := set_w_transports _ w).
  assert (S1 : step_on t w w1) by by eapply step_on_at.
  eapply (wp_handle_offline t x1 w1); [apply S1|apply lookup_insert_eq|]. intros w' P.
  apply HQ; [|apply (of_transport _ _ _ _ P)]. eapply step_on_trans; [exact S1|].
  eapply (step_offline t x1); [apply lookup_insert_eq|exact P].
Qed.

Lemma wp_send_new p t x w (Q : unit -> world E -> Prop) :
  w_transports w !! t = Some x -> (forall e n, Q tt (after e n [(t, seal_packet p)] w)) -> wp (send_new p t) Q w.
Proof.
  intros Hx HQ. unfold send_new, get_apacket. apply wp_bind, wp_bind, wp_modify, wp_ret.
  eapply wp_send_packet; [exact Hx|]. intros e n. apply (HQ e n).
Qed.

Lemma wp_send_packet_after p t x w (Q : unit -> world E -> Prop) :
  w_transports w !! t = Some x -> (forall e n, Q tt (after e n [(t, seal_packet p)] w)) -> wp (send_packet p (Some t)) Q w.
Proof. intros Hx HQ. eapply wp_send_packet; [exact Hx|]. intros e n. apply (HQ e n). Qed.

Lemma wp_send_connect t x w (Q : unit -> world E -> Prop) :
  w_transports w !! t = Some x -> (forall e n, Q tt (after e n [(t, seal_packet (connect_packet x))] w)) ->
  wp (send_connect t) Q w.
Proof.
  intros Hx HQ. unfold send_connect, get_apacket. apply wp_bind, wp_bind, wp_modify, wp_ret.
  apply wp_bind. eapply wp_load_transport; [exact Hx|]. destruct (_ <? _)%Z; [apply wp_fatal|].
  eapply wp_send_packet; [exact Hx|]. intros e n. apply (HQ e n).
Qed.

Lemma wp_SendConnectOnHost t x w (Q : unit -> world E -> Prop) :
  w_transports w !! t = Some x ->
  (forall e n, Q tt (after e n [(t, seal_packet fresh_apacket); (t, seal_packet (connect_packet x))] w)) ->
  wp (SendConnectOnHost t) Q w.
Proof.
  intros Hx HQ. unfold SendConnectOnHost. apply wp_bind. eapply wp_send_new; [exact Hx|]. intros e n.
  eapply wp_send_connect; [exact Hx|]. intros e' n'. rewrite after_after. apply HQ.
Qed.

(** ** Authentication *)

Lemma wp_send_auth_request t x w (Q : unit -> world E -> Prop) :
  w_transports w !! t = Some x ->
  (forall token e, Q tt (at_transport t (set_t_token token x) (set_w_env e w))) ->
  (forall token e n, Q tt (after e n [(t, seal_packet (mk_packet A_AUTH ADB_AUTH_TOKEN 0 token))]
                             (at_transport t (set_t_token token x) w))) ->
  wp (send_auth_request t) Q w.
Proof.
  intros Hx HF HQ. unfold send_auth_request, adbd_auth_generate_token.
  apply wp_bind, wp_bind. eapply wp_load_transport; [exact Hx|]. apply wp_bind, wp_on_env. unfold wp at 1.
  destruct (fread_urandom _ _) as [[okay token] e]. apply wp_bind. eapply wp_upd_transport; [exact Hx|].
  apply wp_ret. destruct okay; cbn [negb]; [|by apply wp_ret, HF].
  apply wp_bind. eapply wp_load_transport; [apply lookup_insert_eq|].
  eapply wp_send_new; [apply lookup_insert_eq|]. intros e' n. apply (HQ token e' n).
Qed.

Lemma step_auth_request t x w : good w -> w_transports w !! t = Some x -> wp (send_auth_request t) (fun _ w' => step w w') w.
Proof.
  intros G Hx. eapply wp_send_auth_request; [exact Hx| |].
  - intros token e. eapply step_trans; [|eapply (step_at t x); [by apply good_env|exact Hx|done..]].
    apply step_same; [by apply good_env|done|done].
  - intros token e n. assert (S1 : step w (at_transport t (set_t_token token x) w)) by by eapply step_at.
    eapply step_trans; [exact S1|]. apply step_after, S1.
Qed.

(** The next key: the rest of the list, or all the keys once more. *)
Definition keys_of x w : list (option loc) :=
  match t_keys x with [] => adb_auth_get_private_keys w | _ => t_keys x end.

Lemma wp_NextKey t x key rest w (Q : option loc -> world E -> Prop) :
  w_transports w !! t = Some x -> keys_of x w = key :: rest -> Q key (at_transport t (set_t_keys rest x) w) ->
  wp (NextKey t) Q w.
Proof.
  intros Hx Hk HQ. unfold NextKey. apply wp_bind. eapply wp_load_transport; [exact Hx|]. apply wp_bind, wp_get.
  fold (keys_of x w). rewrite Hk. apply wp_bind. eapply wp_upd_transport; [exact Hx|]. by apply wp_ret.
Qed.

Lemma keys_of_some x w : exists key rest, keys_of x w = key :: rest.
Proof.
  unfold keys_of, adb_auth_get_private_keys. destruct (t_keys x) as [|k r]; [|by eauto].
  destruct (map _ _); cbn; eauto.
Qed.

Lemma step_auth_response token t x w : good w -> w_transports w !! t = Some x ->
  wp (send_auth_response token t) (fun _ w' => step w w') w.
Proof.
  intros G Hx. unfold send_auth_response. apply wp_bind. destruct (keys_of_some x w) as (key & rest & Hk).
  eapply wp_NextKey; [exact Hx|exact Hk|]. set (w1 := at_transport _ _ w).
  assert (S1 : step w w1) by by eapply step_at.
  assert (Hx1 : w_transports w1 !! t = Some (set_t_keys rest x)) by apply lookup_insert_eq.
  destruct key as [key|].
  - unfold get_apacket. apply wp_bind, wp_bind, wp_modify, wp_ret, wp_bind, wp_get.
    destruct (adb_auth_sign _ _ _) as [sig|].
    + eapply wp_send_packet_after; [exact Hx1|]. intros e n. eapply step_trans; [exact S1|].
      apply (step_after e n _ w1), S1.
    + apply wp_modify. eapply step_trans; [exact S1|]. apply step_same; [|done|done]. by apply good_live, good_live, S1.
  - unfold send_auth_publickey. apply wp_bind, wp_get. case_bool_decide; [by apply wp_ret|].
    destruct (_ <=? _)%Z; [by apply wp_ret|]. eapply wp_send_new; [exact Hx1|]. intros e n.
    eapply step_trans; [exact S1|]. apply step_after, S1.
Qed.

Lemma wp_adbd_auth_verified t x w (Q : unit -> world E -> Prop) :
  w_transports w !! t = Some x ->
  (forall e n, Q tt (after e n [(t, seal_packet (connect_packet x))] (at_transport t (set_t_online true x) w))) ->
  wp (adbd_auth_verified t) Q w.
Proof.
  intros Hx HQ. unfold adbd_auth_verified, handle_online. apply wp_bind. eapply wp_upd_transport; [exact Hx|].
  eapply wp_send_connect; [apply lookup_insert_eq|]. intros e n. apply (HQ e n).
Qed.

Lemma wp_verified_step t x w (Q : unit -> world E -> Prop) :
  good w -> w_transports w !! t = Some x ->
  (forall w', step_on t w w' -> w_transports w' !! t = Some (set_t_online true x) -> Q tt w') -> wp (adbd_auth_verified t) Q w.
Proof.
  intros G Hx HQ. eapply wp_adbd_auth_verified; [exact Hx|]. intros e n. apply HQ; [|apply lookup_insert_eq].
  assert (S : step_on t w (at_transport t (set_t_online true x) w)) by by eapply step_on_at.
  eapply step_on_trans; [exact S|]. apply step_step_on, step_after, S.
Qed.

(** ** The framework *)

(** [t] waits for the user's answer. *)
Lemma good_ask t x w :
  good w -> w_transports w !! t = Some x -> au_usb_transport (w_auth w) = None ->
  good (at_transport t (AddDisconnect DisconnectAuth x) (set_w_auth (set_au_usb (Some t) (w_auth w)) w)).
Proof.
  intros [I IL IA IT IN IP] Hx Hu. set (w' := at_transport _ _ _).
  assert (Hdom : forall u, is_Some (w_transports w' !! u) <-> is_Some (w_transports w !! u)).
  { intros u. cbn. destruct (decide (u = t)) as [->|]; [rewrite lookup_insert_eq, Hx; by split|by rewrite lookup_insert_ne]. }
  assert (Hdis : forall u y', w_transports w' !! u = Some y' -> exists y, w_transports w !! u = Some y /\
    forall d, d ∈ t_disconnects y' <-> d ∈ t_disconnects y \/ (u = t /\ d = DisconnectAuth)).
  { intros u y' Hy'. cbn in Hy'. destruct (decide (u = t)) as [->|Hne].
    - rewrite lookup_insert_eq in Hy'. injection Hy' as <-. exists x. split; [done|]. intros d. cbn.
      rewrite elem_of_app, list_elem_of_singleton. naive_solver.
    - rewrite lookup_insert_ne in Hy' by done. exists y'. split; [done|]. naive_solver. }
  constructor.
  - eapply wf_beside; [exact I|]. constructor; cbn; try done; [apply (wf_fd _ _ I)|intros u; apply Hdom|].
    intros l [Hl|Hl%Hdom]; apply (wf_fresh _ _ I); tauto.
  - constructor; cbn; try apply IL.
    + intros l L u Hin HLu. destruct (wl_transport _ _ IL l L u Hin HLu) as (y & Hy & Hd).
      destruct (proj2 (Hdom u) (ex_intro _ y Hy)) as [y' Hy']. exists y'. split; [done|].
      destruct (Hdis u y' Hy') as (y2 & Hy2 & He). simplify_eq. apply He. by left.
    + intros u y' l Hn Hy' Hd. destruct (Hdis u y' Hy') as (y & Hy & He). destruct (proj1 (He _) Hd) as [Hdy|[_ ?]]; [|done].
      by apply (wl_disconnect _ _ IL u y).
  - constructor; cbn; try apply IA; [| |done].
    + intros u [= <-]. rewrite lookup_insert_eq. eexists. split; [done|]. cbn. apply elem_of_app. right. by left.
    + intros u y' Hn Hy' Hd. destruct (Hdis u y' Hy') as (y & Hy & He). destruct (proj1 (He _) Hd) as [Hdy|[-> _]]; [|done].
      pose proof (wa_only _ _ IA u y Hn Hy Hdy). congruence.
  - exact IT.
  - exact IN.
  - intros u Hu'. by apply Hdom, IP.
Qed.

Lemma good_retry b w : good w -> (b = true -> is_Some (au_usb_transport (w_auth w))) ->
  good (set_w_auth (set_au_retry b (w_auth w)) w).
Proof.
  intros [I IL IA IT IN IP] Hb. constructor; [by destruct I|by destruct IL| |done..]. by destruct IA; constructor.
Qed.

(** After the request of a key to be confirmed, [t] is as before but for what
    waits for its end. *)
Definition asked t w w' : Prop := step w w' /\ is_Some (au_usb_transport (w_auth w')).

Lemma wp_confirm_key key t x w (Q : unit -> world E -> Prop) :
  good w -> w_transports w !! t = Some x -> key <> [] -> (forall w', asked t w w' -> Q tt w') ->
  wp (adbd_auth_confirm_key key t) Q w.
Proof.
  intros G Hx Hkey HQ. unfold adbd_auth_confirm_key. apply wp_bind, wp_get, wp_bind.
  assert (Hrest : forall w1, asked t w w1 ->
    wp (let fd := au_framework_fd (w_auth w) in
        if (fd <? 0)%Z then upd_auth (set_au_retry true)
        else match last key with
             | None => crash "key[len - 1] out of bounds"
             | Some c => if negb (Ascii.eqb c NUL) then ret tt else
                         let msg := str "PK" ++ c_str key in
                         if (MAX_PAYLOAD_V1 <=? Zlen msg)%Z then ret tt
                         else let* _ := on_env (sys_write fd msg) in ret tt
             end) Q w1).
  { intros w1 [S1 Hu1]. cbv zeta. destruct (_ <? 0)%Z.
    - apply wp_modify, HQ. split; [|done]. eapply step_trans; [exact S1|].
      destruct S1 as (G1 & _). by split_and!; [apply good_retry|..].
    - destruct (last key) as [c|] eqn:Hl; [|by apply last_None in Hl].
      assert (HQ1 : forall e, Q tt (set_w_env e w1)).
      { intros e. apply HQ. split; [|done]. eapply step_trans; [exact S1|]. by apply step_same; [apply good_env, S1|..]. }
      assert (HQ0 : Q tt w1) by (by apply HQ).
      destruct (negb _); [by apply wp_ret|]. destruct (_ <=? _)%Z; [by apply wp_ret|].
      apply wp_bind, wp_on_env. unfold wp at 1, sys_write. destruct (adb_write _ _ _) as [r e]. by apply wp_ret. }
  case_bool_decide as Hu.
  - apply wp_bind, wp_modify. eapply wp_upd_transport; [exact Hx|]. apply (Hrest (at_transport t (AddDisconnect DisconnectAuth x)
      (set_w_auth (set_au_usb (Some t) (w_auth w)) w))). split; [|by exists t].
    split_and!; [by apply good_ask| |done]. intros u. unfold conn. cbn.
    destruct (decide (u = t)) as [->|Hne]; [by rewrite lookup_insert_eq, Hx|by rewrite lookup_insert_ne].
  - apply wp_ret, Hrest. split; [by apply step_refl|]. by destruct (au_usb_transport (w_auth w)).
Qed.

End Sends.

(** ** Telling the trackers *)

Lemma sublist_split {A} (k a b : list A) n :
  k `sublist_of` a ++ n :: b -> NoDup (a ++ n :: b) -> n ∈ k -> exists a' b', k = a' ++ n :: b' /\ length b' <= length b.
Proof.
  intros (k1 & k2 & -> & H1 & H2)%sublist_app_r Hnd Hin. apply NoDup_app in Hnd as (_ & Ha & [Hb _]%NoDup_cons).
  assert (n ∉ k1) as Hn1.
  { intros Hk. apply (Ha n); [|by left]. by eapply sublist_subseteq. }
  apply elem_of_app in Hin as [?|Hin]; [done|]. apply sublist_cons_r in H2 as [H2|(b' & -> & H2)].
  - exfalso. apply Hb. by eapply sublist_subseteq.
  - exists k1, b'. split; [done|]. by apply sublist_length.
Qed.

Lemma next_tracker_split pre (s : loc) post : s ∉ pre -> next_tracker s (pre ++ s :: post) = head post.
Proof.
  induction pre as [|a pre IH]; cbn; [by rewrite bool_decide_true|]. intros [Hne Hn]%not_elem_of_cons.
  rewrite bool_decide_false by congruence. by apply IH.
Qed.

Section Trackers.
Context {E : Type} {K : Kernel E} {KL : KernelLaws E} {B : Build} {LB : LibBase} {SO : SetOrder} {SV : Services E} {OS : Os E}.
Implicit Types (w : world E) (s t l : loc).

(** Sending to a tracker removes it from the list, or leaves the list. *)
Lemma wp_send_to_tracker s text w (Q : Z -> world E -> Prop) :
  good w -> s ∈ w_trackers w ->
  (forall r w', step w w' -> w_trackers w' `sublist_of` w_trackers w ->
     (forall n, n ∈ w_trackers w -> n <> s -> n ∈ w_trackers w') -> Q r w') ->
  wp (send_to_tracker s text) Q w.
Proof.
  intros G Hs HQ. pose proof (gd_wf _ G) as I. destruct (wf_trackers _ _ I s Hs) as (x & Hx & Hk).
  destruct (gd_trackers _ G s x Hs Hx) as [p Hp].
  unfold send_to_tracker, device_tracker_send, get_apacket. apply wp_bind, wp_bind, wp_modify, wp_ret.
  set (w1 := set_w_live _ w). assert (G1 : good w1) by by apply good_live. pose proof (gd_wf _ G1) as I1.
  apply wp_bind. eapply wp_load_sock; [exact Hx|]. apply wp_bind. eapply wp_deref; [exact Hp|].
  destruct (wf_peer_ok s x w1 I1 Hx p Hp) as (y & L). pose proof L as (_ & Hy & _ & Hyp & Hne).
  pose proof (q_link _ _ _ _ (wf_quiet _ _ I1 s x ltac:(set_solver) Hx) p y Hp Hy) as Hlk. rewrite Hk in Hlk.
  assert (Hky : s_enqueue y = enq_local) by by destruct (s_enqueue y).
  unfold enqueue_socket, call_depth. remember 3 as m. cbn [sock_enqueue].
  apply wp_bind. eapply wp_load_sock; [exact Hy|]. rewrite Hky.
  assert (Hpt : p ∉ w_trackers w).
  { intros Hpt. destruct (wf_trackers _ _ I p Hpt) as (z & Hz & Hkz). cbn in Hy. simplify_eq. congruence. }
  assert (HL : forall r w', step w w' -> frame {[p]} w1 w' \/ frame ({[p]} ∪ peer_set y) w1 w' -> Q r w').
  { intros r w' S F. apply HQ; [done|by destruct F as [F|F]; apply (fr_trackers_sub _ _ _ F)|].
    intros n Hn Hns. assert (n <> p) by (intros ->; done).
    destruct F as [F|F]; apply (fr_trackers_keep _ _ _ F); try done; unfold peer_set; rewrite ?Hyp; set_solver. }
  assert (S1 : step w w1) by by apply step_same.
  apply (wp_local_enqueue any_push p y); try done.
  - exists s, x. split; [done|]. split; [done|]. congruence.
  - intros r w' y' _ I' F' Hy' Hs' _. apply HL; [|by left]. eapply step_trans; [exact S1|].
    eapply (step_socket p y y'); [done..|]. left. destruct Hs' as (-> & _). congruence.
  - intros w' I' F' Gp Gpp _. apply HL; [|by right]. eapply step_trans; [exact S1|]. by eapply (step_close p y).
Qed.

Lemma wp_notify_trackers fuel tracker text w (Q : unit -> world E -> Prop) :
  good w ->
  (forall s, tracker = Some s -> exists pre post, w_trackers w = pre ++ s :: post /\ S (length post) <= fuel) ->
  (forall w', step w w' -> Q tt w') -> wp (notify_trackers fuel tracker text) Q w.
Proof.
  revert tracker w Q. induction fuel as [|f IH]; intros [s|] w Q G Ht HQ; cbn [notify_trackers];
    try (by apply wp_ret, HQ, step_refl).
  - destruct (Ht s eq_refl) as (pre & post & _ & Hle). lia.
  - destruct (Ht s eq_refl) as (pre & post & Htr & Hle).
    assert (Hs : s ∈ w_trackers w) by (rewrite Htr; apply elem_of_app; right; left).
    destruct (wf_trackers _ _ (gd_wf _ G) s Hs) as (x & Hx & _).
    apply wp_bind. eapply wp_load_sock; [exact Hx|]. apply wp_bind, wp_get, wp_bind.
    pose proof (gd_nodup _ G) as Hnd. rewrite Htr in Hnd. pose proof Hnd as (_ & Hpre & Hpost)%NoDup_app.
    rewrite Htr, next_tracker_split by (intros Hin; apply (Hpre s Hin); by left).
    eapply wp_send_to_tracker; [done|done|]. intros r w1 S1 Hsub Hkeep.
    apply IH; [apply S1| |intros w' S'; apply HQ; by eapply step_trans].
    intros n Hn. destruct post as [|n' post2]; [done|]. injection Hn as ->.
    assert (n <> s) as Hns by (intros ->; apply NoDup_cons in Hpost as [Hin _]; apply Hin; by left).
    assert (n ∈ w_trackers w1) as Hin.
    { apply Hkeep; [|done]. rewrite Htr. apply elem_of_app. right. right. by left. }
    rewrite Htr in Hsub. replace (pre ++ s :: n :: post2) with ((pre ++ [s]) ++ n :: post2) in Hsub, Hnd by (by rewrite <- app_assoc).
    destruct (sublist_split _ _ _ _ Hsub Hnd Hin) as (a' & b' & -> & Hlen). exists a', b'. split; [done|]. cbn in Hle. lia.
Qed.

Lemma wp_all_transports fn (l : list loc) w (Q : bool -> world E -> Prop) :
  (forall t, t ∈ l -> is_Some (w_transports w !! t)) -> (forall b, Q b w) -> wp (all_transports fn l) Q w.
Proof.
  intros Hl HQ. induction l as [|t l IH]; cbn [all_transports]; [by apply wp_ret|].
  destruct (Hl t ltac:(by left)) as [x Hx]. apply wp_bind. eapply wp_load_transport; [exact Hx|].
  destruct (fn x); [|by apply wp_ret]. apply IH. intros u Hu. apply Hl. by right.
Qed.

Lemma good_globals g w : good w -> good (set_w_globals g w).
Proof. intros [I IL IA IT IN IP]. constructor; [by destruct I|by destruct IL|by destruct IA|done..]. Qed.

Lemma step_status w : good w -> wp update_transport_status (fun _ w' => step w w') w.
Proof.
  intros G. unfold update_transport_status, iterate_transports. apply wp_bind, wp_bind, wp_get, wp_bind.
  assert (Hrest : forall r : bool, wp (upd_globals (set_g_transports_ready r) ;;;
      let* w := get in
      when (g_transports_ready (w_globals w) && g_device_scan_complete (w_globals w)) (run_env notify_init_cv))
    (fun _ w' => step w w') w).
  { intros r. apply wp_bind, wp_modify, wp_bind, wp_get. destruct (_ && _); cbn [when].
    - apply wp_on_env, wp_modify. apply step_same; [|done|done]. by apply good_env, good_globals.
    - apply wp_ret. apply step_same; [|done|done]. by apply good_globals. }
  apply wp_all_transports; [intros t Ht; apply (gd_lists _ G); by left|]. intros [|].
  - apply wp_all_transports; [intros t Ht; apply (gd_lists _ G); by right|]. exact Hrest.
  - apply wp_ret, Hrest.
Qed.

Lemma step_update_transports w : good w -> wp update_transports (fun _ w' => step w w') w.
Proof.
  intros G. unfold update_transports. destruct ADB_HOST; [|by apply wp_ret, step_refl].
  apply wp_bind. eapply wp_mono; [by apply step_status|]. cbn. intros [] w1 S1.
  unfold list_transports_text, gets. apply wp_bind, wp_bind, wp_get, wp_ret.
  apply wp_notify_trackers; [apply S1| |intros w2 S2; by eapply step_trans].
  intros s Hs. destruct (w_trackers w1) as [|r post]; [done|]. injection Hs as Hr. subst r. by exists [], post.
Qed.

End Trackers.
