(* ===== verification/PacketFlow.v ===== *)
(** * What the packets about sockets keep: OPEN, OKAY, CLSE and WRTE *)

From S2P Require Import Prelude LibBase Packet AdbIo FdEvent Transport World SmartText.
From S2P Require Import Sockets SocketInv SocketClose SocketIo SocketCreate SocketFlow.
From S2P Require Import SocketSpec Listeners ListenerInv TransportOps Registration Connection ConnectionInv ConnectionFlow.

(** What a service promises: it keeps the invariants, changes no
    connection, and a descriptor it returns is one the loop does not watch yet. *)
Class ServicesLaws (E : Type) {SV : Services E} := {
  service_to_fd_ok name ot (w : world E) :
    good w -> (forall t, ot = Some t -> is_Some (w_transports w !! t)) ->
    wp (service_to_fd name ot) (fun fd w' => step w w' /\
      ((0 <= fd)%Z -> g_poll_node_map (w_fds w') !! fd = None)) w;
}.

Section PacketFlow.
Context {E : Type} {K : Kernel E} {KL : KernelLaws E} {B : Build} {LB : LibBase} {SO : SetOrder} {SV : Services E} {SL : ServicesLaws E}.
Implicit Types (w : world E) (s t l r : loc) (x y : asocket).

(** ** Changing one field of a socket *)

Lemma wf_upd_quiet s x x' w :
  wf ∅ w -> w_socks w !! s = Some x -> same_place x x' -> s_peer x' = s_peer x -> s_pkts x' = s_pkts x ->
  s_has_write_error x' = s_has_write_error x -> s_transport x' = s_transport x -> kind_ok w s x' ->
  (s_enqueue x = enq_device_tracker -> s_flag x' = s_flag x) ->
  wf ∅ (set_w_socks (<[s := x']> (w_socks w)) w) /\ frame {[s]} w (set_w_socks (<[s := x']> (w_socks w)) w).
Proof.
  intros I Hx Hpl Hp Hpk He Ht Hk Hfl. pose proof Hpl as (Hen & Hcl & _). split; [|by eapply frame_upd1].
  eapply (wf_fill ∅ s); [|intros z Hz; cbn in Hz; rewrite lookup_insert_eq in Hz; injection Hz as <-].
  - eapply wf_upd; [eapply wf_weaken; [exact I|set_solver]|exact Hx|done|set_solver|done| |].
    + intros t. rewrite Ht. apply (wf_transport _ _ I s x t Hx).
    + intros q y Hq Hy Hpy. rewrite Hp.
      destruct (q_peer _ _ _ _ (wf_quiet _ _ I q y ltac:(set_solver) Hy) s Hpy) as (_ & z & ? & ?). congruence.
  - destruct (wf_quiet _ _ I s x ltac:(set_solver) Hx) as [H1 Hpe H3 H4 H5 Hlk H7 Hsm].
    constructor; rewrite ?Hen, ?Hcl, ?Hp, ?Hpk, ?He; try done.
    + intros p Hps. destruct (Hpe p Hps) as (Hne & y & Hy & Hyp). split; [done|]. exists y. cbn. by rewrite lookup_insert_ne.
    + intros p y Hps Hy. cbn in Hy. destruct (Hpe p Hps) as (Hne & _). rewrite lookup_insert_ne in Hy by done. by eapply Hlk.
    + intros Hkt Hpt. rewrite (Hfl Hkt). by apply H7.
    + intros p y Hl Hps Hy. cbn in Hy. destruct (Hpe p Hps) as (Hne & _). rewrite lookup_insert_ne in Hy by done. by eapply Hsm.
Qed.

(** ** Readying a listed socket *)

(** Data from a list of processes goes to the remote peer. *)
Lemma wp_enqueue_remote n s x q y (pk : apacket) w (Q : Z -> world E -> Prop) :
  wf ∅ w -> linked w s x q y -> s_enqueue y = enq_remote ->
  (forall w', wf ∅ w' -> frame ∅ w w' -> Q 1%Z w') -> wp (sock_enqueue (S n) q pk) Q w.
Proof.
  intros I L Hk HQ. pose proof L as (Hx & Hy & Hp & Hyp & Hne). cbn [sock_enqueue].
  apply wp_bind. eapply wp_load_sock; [exact Hy|]. rewrite Hk.
  eapply (wp_remote_enqueue q y s x); [done| |done|]; [by split_and!; auto|]. intros w' I' F' _. by apply HQ.
Qed.

Lemma jdwp_flag_step s x b w w' :
  good w -> wf ∅ w' -> frame ∅ w w' -> w_socks w !! s = Some x -> s_enqueue x = enq_jdwp \/ s_enqueue x = enq_jdwp_tracker ->
  step w (set_w_socks (<[s := set_s_flag b x]> (w_socks w')) w').
Proof.
  intros G I' F Hx Hk. assert (Hx' : w_socks w' !! s = Some x) by (rewrite (fr_socks _ _ _ F); [done|set_solver]).
  destruct (wf_upd_quiet s x (set_s_flag b x) w') as [I2 F2]; try done.
  - pose proof (wf_kind _ _ I' _ _ Hx') as Hkind. unfold kind_ok in *. cbn. by destruct Hk as [Hk|Hk]; rewrite Hk in Hkind |- *.
  - by destruct Hk as [->| ->].
  - eapply (step_socket s x (set_s_flag b x)); [done|done| |done|apply lookup_insert_eq|left; cbn; by destruct Hk as [->| ->]].
    eapply frame_mono; [eapply frame_trans; [exact F|exact F2]|set_solver].
Qed.

Lemma jdwp_linked s x q y w : wf ∅ w -> linked w s x q y -> s_enqueue x = enq_jdwp \/ s_enqueue x = enq_jdwp_tracker ->
  s_enqueue y = enq_remote.
Proof.
  intros I (Hx & Hy & Hp & _) Hk. pose proof (q_link _ _ _ _ (wf_quiet _ _ I s x ltac:(set_solver) Hx) q y Hp Hy) as Hl.
  destruct Hk as [Hk|Hk]; rewrite Hk in Hl; by destruct (s_enqueue y).
Qed.

Lemma step_ready_jdwp n s x q y w :
  good w -> linked w s x q y -> s_enqueue x = enq_jdwp ->
  wp (jdwp_socket_ready (sock_enqueue (S n)) s) (fun _ w' => step w w') w.
Proof.
  intros G L Hk. pose proof L as (Hx & Hy & Hp & Hyp & Hne). pose proof (gd_wf _ G) as I.
  pose proof (jdwp_linked s x q y w I L (or_introl Hk)) as Hky.
  unfold jdwp_socket_ready. apply wp_bind. eapply wp_load_sock; [exact Hx|]. destruct (s_flag x); cbn [negb].
  - apply wp_bind. eapply wp_deref; [exact Hp|]. eapply wp_close_wf; [done|exact Hy|].
    intros w' I' F' Gq Gp _. by eapply (step_close q y).
  - unfold get_apacket. apply wp_bind, wp_bind, wp_modify, wp_ret. set (w1 := set_w_live _ w).
    assert (G1 : good w1) by by apply good_live.
    apply wp_bind. eapply (wp_get_max_payload s x w1); [apply G1|done|]. intros m _.
    apply wp_bind, wp_get, wp_bind. eapply wp_deref; [exact Hp|]. apply wp_bind.
    eapply (wp_enqueue_remote n s x q y _ w1); [apply G1|exact L|done|]. intros w2 I2 F2.
    assert (Hx2 : w_socks w2 !! s = Some x) by (rewrite (fr_socks _ _ _ F2); [done|set_solver]).
    eapply wp_upd_sock; [exact Hx2|]. eapply step_trans; [|eapply (jdwp_flag_step s x true w1 w2); eauto].
    by apply step_same.
Qed.

Lemma wp_process_list_msg n w (Q : bytes -> world E -> Prop) : (forall text, Q text w) -> wp (jdwp_process_list_msg n) Q w.
Proof.
  intros HQ. unfold jdwp_process_list_msg. destruct (n <? 4)%Z; [apply wp_fatal|]. apply wp_bind, wp_get, wp_ret, HQ.
Qed.

Lemma step_ready_jdwp_tracker n s x q y w :
  good w -> linked w s x q y -> s_enqueue x = enq_jdwp_tracker ->
  wp (jdwp_tracker_ready (sock_enqueue (S n)) s) (fun _ w' => step w w') w.
Proof.
  intros G L Hk. pose proof L as (Hx & Hy & Hp & Hyp & Hne). pose proof (gd_wf _ G) as I.
  pose proof (jdwp_linked s x q y w I L (or_intror Hk)) as Hky.
  unfold jdwp_tracker_ready. apply wp_bind. eapply wp_load_sock; [exact Hx|]. destruct (s_flag x); cbn [when].
  2: by apply wp_ret, step_refl.
  unfold get_apacket. apply wp_bind, wp_bind, wp_modify, wp_ret. set (w1 := set_w_live _ w).
  assert (G1 : good w1) by by apply good_live.
  assert (S0 : step w w1) by by apply step_same.
  apply wp_bind. eapply wp_upd_sock; [exact Hx|].
  assert (S1 : step w1 (set_w_socks (<[s := set_s_flag false x]> (w_socks w1)) w1)).
  { eapply (jdwp_flag_step s x false w1 w1); [done|apply G1|apply frame_refl|done|by right]. }
  set (w2 := set_w_socks _ w1) in *. pose proof S1 as (G2 & _ & _).
  assert (L2 : linked w2 s (set_s_flag false x) q y).
  { split_and!; try done; [apply lookup_insert_eq|]. cbn. by rewrite lookup_insert_ne. }
  apply wp_bind. eapply (wp_get_max_payload s); [apply G2|apply lookup_insert_eq|]. intros m _.
  apply wp_bind, wp_process_list_msg. intros text. apply wp_bind. eapply wp_deref; [exact Hp|]. apply wp_bind.
  eapply (wp_enqueue_remote n s (set_s_flag false x) q y _ w2); [apply G2|exact L2|done|]. intros w3 I3 F3.
  apply wp_ret. eapply step_trans; [exact S0|]. eapply step_trans; [exact S1|].
  eapply (step_frame ∅); [done|done|exact F3|set_solver|set_solver].
Qed.

(** [s->ready(s)] on a socket of the list that has a peer. *)
Lemma step_ready_listed s x q y w : good w -> linked w s x q y -> listed_kind x -> wp (ready_socket s) (fun _ w' => step w w') w.
Proof.
  intros G L Hk. pose proof L as (Hx & _). pose proof (gd_wf _ G) as I. unfold ready_socket, call_depth.
  destruct Hk as [Hk|[Hk|Hk]].
  - eapply (wp_ready_local 2); [done|done|done|]. intros w' x' I' F' Hx' Hs' _.
    eapply (step_socket s x x'); [done..|]. left. destruct Hs' as (-> & _). congruence.
  - pose proof (wf_kind _ _ I _ _ Hx) as Hkind. unfold kind_ok in Hkind. rewrite Hk in Hkind. destruct Hkind as (Hr & _).
    remember 3 as m. cbn [sock_ready]. apply wp_bind. eapply wp_load_sock; [done|]. rewrite Hr. subst m.
    by eapply (step_ready_jdwp 2).
  - pose proof (wf_kind _ _ I _ _ Hx) as Hkind. unfold kind_ok in Hkind. rewrite Hk in Hkind. destruct Hkind as (Hr & _).
    remember 3 as m. cbn [sock_ready]. apply wp_bind. eapply wp_load_sock; [done|]. rewrite Hr. subst m.
    by eapply (step_ready_jdwp_tracker 2).
Qed.

(** ** Creating the socket of a service *)

(** A listed socket without a peer. *)
Definition unlinked s x w : Prop :=
  w_socks w !! s = Some x /\ listed_kind x /\ s_peer x = None /\ s_closing x = false /\ s ∈ w_local w.

Lemma unlinked_added x w w' :
  good w -> wf ∅ w' -> added (w_next w) x w w' -> listed_kind x -> s_peer x = None -> s_closing x = false ->
  step w w' /\ unlinked (w_next w) x w'.
Proof.
  intros G I' A Hk Hp Hc.
  assert (s_enqueue x <> enq_device_tracker) as Hnt by (destruct Hk as [->|[->| ->]]; done).
  split; [by eapply step_added|]. split_and!; try done; [rewrite (add_socks _ _ _ _ A); apply lookup_insert_eq|].
  assert (Hx : w_socks w' !! w_next w = Some x) by (rewrite (add_socks _ _ _ _ A); apply lookup_insert_eq).
  pose proof (wf_kind _ _ I' _ _ Hx) as Hkind. unfold kind_ok in Hkind. rewrite ?Hc in Hkind.
  destruct Hk as [Hk|[Hk|Hk]]; rewrite Hk in Hkind; tauto.
Qed.

(** The new socket, or [None]. *)
Definition created w (os : option loc) w' : Prop :=
  step w w' /\ match os with Some s => exists x, unlinked s x w' | None => True end.

Lemma wp_create_created (m : M (world E) loc) x w (Q : loc -> world E -> Prop) :
  good w -> listed_kind x -> s_peer x = None -> s_closing x = false ->
  (forall Q', create_post ∅ x w Q' -> wp m Q' w) ->
  (forall s w', created w (Some s) w' -> Q s w') -> wp m Q w.
Proof.
  intros G Hk Hp Hc Hm HQ. apply Hm. intros w' A I'. apply HQ.
  destruct (unlinked_added x w w' G I' A Hk Hp Hc) as [S U]. split; [done|]. by exists x.
Qed.

Lemma step_set_exit s x w : good w -> unlinked s x w -> s_enqueue x = enq_local ->
  created w (Some s) (set_w_socks (<[s := set_s_exit_on_close true x]> (w_socks w)) w).
Proof.
  intros G (Hx & Hk & Hp & Hc & Hl) Hen. destruct (wf_upd_quiet s x (set_s_exit_on_close true x) w) as [I' F']; try done.
  - apply G.
  - pose proof (wf_kind _ _ (gd_wf _ G) _ _ Hx) as Hkind. unfold kind_ok in *. cbn. by rewrite Hen in *.
  - split.
    + eapply (step_socket s x (set_s_exit_on_close true x)); [done|done|done|done|apply lookup_insert_eq|].
      left. cbn. congruence.
    + eexists. split_and!; [apply lookup_insert_eq|done..].
Qed.

Lemma wp_create_service name ot w (Q : option loc -> world E -> Prop) :
  good w -> (forall t, ot = Some t -> is_Some (w_transports w !! t)) -> (forall os w', created w os w' -> Q os w') ->
  wp (create_local_service_socket name ot) Q w.
Proof.
  intros G Ht HQ. unfold create_local_service_socket. destruct (negb ADB_HOST && _).
  { apply wp_bind. eapply (wp_create_created _ (set_s_id (w_next_id w) (new_asocket enq_jdwp rdy_jdwp None cls_jdwp)));
      [done|right; by left|done|done| |].
    - intros Q' HP. apply (wp_create_jdwp_service_socket ∅); [apply G|done].
    - intros s w' C. by apply wp_ret, HQ. }
  destruct (negb ADB_HOST && _).
  { apply wp_bind. eapply (wp_create_created _ (set_s_id (w_next_id w) (set_s_flag true
        (new_asocket enq_jdwp_tracker rdy_jdwp_tracker None cls_jdwp_tracker)))); [done|right; by right|done|done| |].
    - intros Q' HP. apply (wp_create_jdwp_tracker ∅); [apply G|done].
    - intros s w' C. by apply wp_ret, HQ. }
  apply wp_bind. eapply wp_mono; [by apply service_to_fd_ok|]. cbn. intros fd w1 [S1 Hfd].
  destruct (Z.ltb_spec fd 0) as [Hneg|Hpos]; [by apply wp_ret, HQ|].
  pose proof S1 as (G1 & _ & _). apply wp_bind.
  apply (wp_create_local_socket ∅); [apply G1|done|by apply Hfd|]. intros w2 A2 I2.
  set (x := local_asocket (w_next_id w1) fd) in *.
  destruct (unlinked_added x w1 w2 G1 I2 A2 ltac:(by left) eq_refl eq_refl) as [S2 U2].
  assert (S02 : step w w2) by by eapply step_trans.
  apply wp_bind. destruct (negb ADB_HOST && _); cbn [when].
  - eapply wp_upd_sock; [apply U2|]. apply wp_ret, HQ. pose proof S2 as (G2 & _ & _).
    destruct (step_set_exit _ _ _ G2 U2 eq_refl) as [S3 U3]. split; [by eapply step_trans|done].
  - apply wp_ret, wp_ret, HQ. split; [done|]. by exists x.
Qed.

(** ** Connecting it *)

Lemma frame_link s x r y w : w_socks w !! s = Some x -> w_socks w !! r = Some y ->
  frame {[s; r]} w (link_state s r x y w).
Proof.
  intros Hx Hy. constructor; cbn; try done.
  - intros q [Hs Hr]%not_elem_of_union. apply not_elem_of_singleton in Hs, Hr. by rewrite !lookup_insert_ne.
  - intros q Hq. destruct (decide (q = r)) as [->|]; [by exists y|]. rewrite lookup_insert_ne in Hq by done.
    destruct (decide (q = s)) as [->|]; [by exists x|]. by rewrite lookup_insert_ne in Hq.
Qed.

Lemma wp_connect_remote s x id t tx w (Q : unit -> world E -> Prop) :
  good w -> unlinked s x w -> id <> 0%Z -> w_transports w !! t = Some tx ->
  (forall w' r x' y', step w w' -> linked w' s x' r y' -> listed_kind x' -> Q tt w') ->
  wp (connect_remote s id t) Q w.
Proof.
  intros G (Hx & Hk & Hp & Hc & Hl) Hid Ht HQ. unfold connect_remote. apply wp_bind.
  eapply (wp_create_remote_socket ∅); [apply G|done|exact Ht|]. intros w1 A1 I1. set (y := set_s_transport _ _) in *.
  destruct (fresh_unused ∅ w (gd_wf _ G)) as (Hfr & _ & _). assert (w_next w <> s) as Hne by congruence.
  assert (S1 : step w w1) by (by eapply step_added). pose proof S1 as (G1 & _ & _).
  assert (Hx1 : w_socks w1 !! s = Some x) by (rewrite (add_socks _ _ _ _ A1), lookup_insert_ne; done).
  assert (Hy1 : w_socks w1 !! w_next w = Some y) by (rewrite (add_socks _ _ _ _ A1); apply lookup_insert_eq).
  apply wp_bind. eapply wp_upd_sock; [exact Hx1|]. eapply wp_upd_sock; [cbn; by rewrite lookup_insert_ne|].
  change (set_w_socks _ _) with (link_state s (w_next w) x y w1).
  assert (Hnt : s_enqueue x <> enq_device_tracker) by (destruct Hk as [->|[->| ->]]; done).
  assert (I2 : wf ∅ (link_state s (w_next w) x y w1)).
  { apply wf_link; try done; [|by right; left..]. by destruct Hk as [->|[->| ->]]. }
  eapply (HQ _ (w_next w) (set_s_peer (Some (w_next w)) x) (set_s_peer (Some s) y)).
  - eapply step_trans; [exact S1|]. eapply step_frame; [done|done|by apply frame_link| |].
    + intros q [->%elem_of_singleton| ->%elem_of_singleton]%elem_of_union; eauto.
    + intros q Hq _ z Hz. cbn in Hz. apply elem_of_union in Hq as [->%elem_of_singleton| ->%elem_of_singleton].
      * rewrite lookup_insert_ne, lookup_insert_eq in Hz by done. injection Hz as <-. by eexists.
      * rewrite lookup_insert_eq in Hz. injection Hz as <-. by eexists.
  - split_and!; try done; cbn; [by rewrite lookup_insert_ne, lookup_insert_eq|apply lookup_insert_eq].
  - exact Hk.
Qed.

(** ** The packets *)

Lemma step_open t (x : atransport) (p : apacket) w :
  good w -> w_transports w !! t = Some x -> arg0 (msg p) <> 0%Z -> wp (handle_open t p) (fun _ w' => step w w') w.
Proof.
  intros G Hx Hid. unfold handle_open. apply wp_bind, wp_create_service; [done|intros u [= <-]; by exists x|].
  intros [s|] w1 [S1 U1]; pose proof S1 as (G1 & _); destruct (step_transport t x w w1 S1 Hx) as (x1 & Hx1 & _).
  - destruct U1 as (y & U1). apply wp_bind. eapply wp_connect_remote; [done|exact U1|done|exact Hx1|].
    intros w2 r x' y' S2 L2 Hk. pose proof L2 as (Hs & Hr & Hp & _). pose proof S2 as (G2 & _).
    destruct (step_transport t x1 w1 w2 S2 Hx1) as (x2 & Hx2 & _).
    apply wp_bind. eapply wp_load_sock; [exact Hs|]. apply wp_bind. eapply wp_deref; [exact Hp|].
    apply wp_bind. eapply wp_load_sock; [exact Hr|]. apply wp_bind. eapply wp_send_new; [exact Hx2|]. intros e n.
    eapply wp_mono; [eapply (step_ready_listed s x' r y'); [by apply step_after|done|done]|]. cbn. intros [] w3 S3.
    eapply step_trans; [exact S1|]. eapply step_trans; [exact S2|]. eapply step_trans; [by apply step_after|exact S3].
  - eapply wp_send_new; [exact Hx1|]. intros e n. eapply step_trans; [exact S1|]. by apply step_after.
Qed.

Lemma wp_find_local lid pid w (Q : option loc -> world E -> Prop) :
  wf ∅ w -> (forall s, addressed w lid pid s -> Q (Some s) w) -> Q None w -> wp (find_local_socket lid pid) Q w.
Proof. intros I HS HN. unfold find_local_socket. apply wp_bind, wp_get. by apply wp_find_in. Qed.

Lemma addressed_listed w lid pid s : wf ∅ w -> addressed w lid pid s ->
  exists x, w_socks w !! s = Some x /\ listed_kind x /\ s_closing x = false /\ s ∈ w_local w.
Proof.
  intros I (Hl & x & Hx & _). destruct (wf_local _ _ I s Hl) as (y & Hy & Hk & Hc & _). exists y. by split_and!.
Qed.

Lemma step_okay t (x : atransport) (p : apacket) w :
  good w -> w_transports w !! t = Some x -> arg0 (msg p) <> 0%Z -> wp (handle_okay t p) (fun _ w' => step w w') w.
Proof.
  intros G Hx Hid. pose proof (gd_wf _ G) as I. unfold handle_okay. apply wp_bind, wp_find_local; [done| |].
  - intros s Ha. destruct (addressed_listed w _ _ s I Ha) as (y & Hy & Hk & Hc & Hl).
    apply wp_bind. eapply wp_load_sock; [exact Hy|]. destruct (s_peer y) as [q|] eqn:Hp.
    + destruct (wf_peer_ok s y w I Hy q Hp) as (z & L). pose proof L as (_ & Hz & _).
      apply wp_bind. eapply wp_load_sock; [exact Hz|]. destruct (_ =? _)%Z; cbn [when]; [by eapply step_ready_listed|].
      by apply wp_ret, step_refl.
    + apply wp_bind. eapply (wp_connect_remote s y); [done|by split_and!|done|exact Hx|].
      intros w1 r x' y' S1 L1 Hk1. pose proof S1 as (G1 & _ & _).
      eapply wp_mono; [by eapply step_ready_listed|]. cbn. intros [] w2 S2. by eapply step_trans.
  - eapply wp_send_new; [exact Hx|]. intros e n. by apply step_after.
Qed.

Lemma step_handle_close t (p : apacket) w : good w -> wp (handle_close t p) (fun _ w' => step w w') w.
Proof.
  intros G. pose proof (gd_wf _ G) as I. unfold handle_close. apply wp_bind, wp_find_local; [done| |by apply wp_ret, step_refl].
  intros s Ha. destruct (addressed_listed w _ _ s I Ha) as (y & Hy & Hk & Hc & Hl).
  apply wp_bind. eapply wp_load_sock; [exact Hy|]. apply wp_bind.
  assert (Hclose : wp (close_socket s) (fun _ w' => step w w') w).
  { eapply wp_close_wf; [done|exact Hy|]. intros w' I' F' Gs Gp _. by eapply (step_close s y). }
  destruct (s_peer y) as [q|] eqn:Hp.
  - destruct (wf_peer_ok s y w I Hy q Hp) as (z & _ & Hz & _). apply wp_bind. eapply wp_load_sock; [exact Hz|].
    apply wp_ret. destruct (_ && _); [by apply wp_ret, step_refl|exact Hclose].
  - apply wp_ret. rewrite andb_false_r. exact Hclose.
Qed.

(** What happens to data for a listed socket: it stays, or it is closed. *)
Lemma wp_enqueue_listed s y q z (pk : apacket) w (Q : Z -> world E -> Prop) :
  good w -> linked w s y q z -> listed_kind y -> s_enqueue z <> enq_smart ->
  (forall (r : Z) w', step w w' -> (r = 0%Z -> exists y', w_socks w' !! s = Some y') -> Q r w') ->
  wp (enqueue_socket s pk) Q w.
Proof.
  intros G L Hk Hz HQ. pose proof L as (Hy & Hzq & Hp & Hzp & Hne). pose proof (gd_wf _ G) as I.
  unfold enqueue_socket, call_depth. cbn [sock_enqueue]. apply wp_bind. eapply wp_load_sock; [exact Hy|].
  assert (Hjdwp : s_enqueue y = enq_jdwp \/ s_enqueue y = enq_jdwp_tracker -> wp (jdwp_socket_enqueue s pk) Q w).
  { intros Hkj. unfold jdwp_socket_enqueue, put_apacket. apply wp_bind, wp_modify.
    set (w1 := set_w_live _ w). assert (G1 : good w1) by by apply good_live.
    apply wp_bind. eapply wp_load_sock; [exact Hy|]. apply wp_bind. eapply wp_deref; [exact Hp|]. apply wp_bind.
    eapply (wp_close_wf q z w1); [apply G1|exact Hzq|]. intros w' I' F' Gq Gs _. apply wp_ret, HQ; [|done].
    eapply step_trans; [by apply step_same|]. by eapply (step_close q z w1). }
  destruct Hk as [Hk|[Hk|Hk]]; rewrite Hk; [|apply Hjdwp; tauto..].
  apply (wp_local_enqueue any_push s y); try done.
  - by exists q, z.
  - intros r w' y' _ I' F' Hy' Hs' _. apply HQ; [|by exists y']. eapply (step_socket s y y'); [done..|].
    left. destruct Hs' as (-> & _). congruence.
  - intros w' I' F' Gs Gp _. apply HQ; [|done]. by eapply (step_close s y).
Qed.

Lemma step_write t (x : atransport) (p : apacket) w :
  good w -> w_transports w !! t = Some x -> arg0 (msg p) <> 0%Z -> wp (handle_write t p) (fun _ w' => step w w') w.
Proof.
  intros G Hx Hid. pose proof (gd_wf _ G) as I. unfold handle_write. apply wp_bind, wp_find_local; [done| |by apply wp_ret, step_refl].
  intros s Ha. destruct (addressed_listed w _ _ s I Ha) as (y & Hy & Hk & Hc & Hl).
  destruct Ha as (_ & y' & Hy' & _ & [?|(q & z & Hp & Hz & Hzid)]); [done|].
  assert (y' = y) as -> by congruence.
  destruct (wf_peer_ok s y w I Hy q Hp) as (z' & L). pose proof L as (_ & Hz' & _). assert (z' = z) as -> by congruence.
  apply wp_bind. eapply (wp_enqueue_listed s y q z); [done|done|done| |].
  - intros Hsm. pose proof (wf_kind _ _ I _ _ Hz) as Hkind. unfold kind_ok in Hkind. rewrite Hsm in Hkind.
    destruct Hkind as (_ & _ & _ & _ & H0 & _). congruence.
  - intros r w1 S1 Hr. pose proof S1 as (G1 & _). destruct (step_transport t x w w1 S1 Hx) as (x1 & Hx1 & _).
    apply wp_bind. destruct (Z.eqb_spec r 0) as [Hr0|Hr0]; cbn [when].
    + destruct (Hr Hr0) as (y1 & Hy1). apply wp_bind. eapply wp_load_sock; [exact Hy1|].
      eapply wp_send_new; [exact Hx1|]. intros e n. apply wp_ret. eapply step_trans; [exact S1|]. by apply step_after.
    + by apply wp_ret, wp_ret.
Qed.

End PacketFlow.
