(* ===== verification/ConnectionProps.v ===== *)
(** * What a packet does to a connection

    The connection of a transport follows a small automaton, whatever the
    packets and the state of the sockets: [conn_next].  [handle_packet] refines
    it; that nobody gets online on a device without a signature, and that two
    peers get online, are consequences. *)

From S2P Require Import Prelude LibBase Packet AdbIo FdEvent Transport World SmartText.
From S2P Require Import Sockets SocketInv SocketClose SocketIo SocketCreate SocketFlow SocketProps.
From S2P Require Import SocketSpec Listeners ListenerInv TransportOps Registration Connection.
From S2P Require Import TransportIo ConnectionInv Demo ConnectionFlow PacketFlow.

(** ** The specification *)

Section Spec.
Context {B : Build} {LB : LibBase}.

(** The state a banner announces. *)
Definition announced (banner : bytes) : ConnectionState :=
  match Split banner colon with type :: _ => banner_state type | [] => kCsHost end.

(** [required]: the device asks for a signature; [verified]: this packet's
    payload is one that a key of the device confirms. *)
Definition conn_next (required verified : bool) (p : apacket) (c : ConnectionState * bool) : ConnectionState * bool :=
  let m := msg p in
  if (command m =? A_SYNC)%Z then
    if (arg0 m =? 0)%Z then (kCsOffline, false) else c
  else if (command m =? A_CNXN)%Z then
    let online := bool_decide (fst c = kCsOffline) && snd c in
    (announced (payload p), ADB_HOST || negb required || online)
  else if (command m =? A_AUTH)%Z then
    if ADB_HOST && (arg0 m =? ADB_AUTH_TOKEN)%Z then
      (if decide (fst c = kCsOffline) then kCsUnauthorized else fst c, snd c)
    else if negb ADB_HOST && (arg0 m =? ADB_AUTH_SIGNATURE)%Z then (fst c, snd c || verified)
    else if negb ADB_HOST && (arg0 m =? ADB_AUTH_RSAPUBLICKEY)%Z then c
    else (kCsOffline, false)
  else c.

(** A key to be confirmed is not empty (an empty one is read out of bounds). *)
Definition key_given (p : apacket) : Prop :=
  ADB_HOST = false -> command (msg p) = A_AUTH -> arg0 (msg p) = ADB_AUTH_RSAPUBLICKEY -> payload p <> [].

End Spec.

(** ** The refinement *)

Section Refine.
Context {E : Type} {K : Kernel E} {KL : KernelLaws E} {B : Build} {BN : Banner} {LB : LibBase} {LL : LibBaseLaws LB}.
Context {SO : SetOrder} {CR : Crypto E} {SV : Services E} {SL : ServicesLaws E} {OS : Os E}.
Implicit Types (w : world E) (t : loc) (p : apacket).

(** Only the connection of [t] changed, and it is now [c]. *)
Definition moved t (c : ConnectionState * bool) w w' : Prop := step_on t w w' /\ conn w' t = Some c.

Lemma moved_step t c w w' : step w w' -> conn w t = Some c -> moved t c w w'.
Proof. intros S C. split; [by apply step_step_on|]. destruct S as (_ & H & _). by rewrite H. Qed.

Lemma moved_refl t c w : good w -> conn w t = Some c -> moved t c w w.
Proof. intros G C. by apply moved_step; [apply step_refl|]. Qed.

Lemma moved_trans t c c' w1 w2 w3 : moved t c w1 w2 -> moved t c' w2 w3 -> moved t c' w1 w3.
Proof. intros [S1 _] [S2 C2]. split; [by eapply step_on_trans|done]. Qed.

Lemma moved_then t c w1 w2 w3 : moved t c w1 w2 -> step w2 w3 -> moved t c w1 w3.
Proof. intros M S. eapply moved_trans; [exact M|]. apply moved_step; [done|apply M]. Qed.

Lemma moved_good t c w w' : moved t c w w' -> good w'.
Proof. by intros [(G & _) _]. Qed.

Lemma moved_at t x x' w :
  good w -> w_transports w !! t = Some x -> t_disconnects x' = t_disconnects x ->
  moved t (t_connection_state x', t_online x') w (at_transport t x' w).
Proof. intros G Hx Hd. split; [by eapply step_on_at|]. unfold conn. cbn. by rewrite lookup_insert_eq. Qed.

Lemma conn_lookup t x w : w_transports w !! t = Some x -> conn w t = Some (t_connection_state x, t_online x).
Proof. unfold conn. by intros ->. Qed.

Lemma moved_go_offline t x w (Q : unit -> world E -> Prop) :
  good w -> w_transports w !! t = Some x ->
  (forall w', moved t (kCsOffline, false) w w' -> w_transports w' !! t = Some (offline_transport x) -> Q tt w') ->
  wp (go_offline t) Q w.
Proof.
  intros G Hx HQ. eapply wp_go_offline; [done..|]. intros w' S Hx'. apply HQ; [|done]. split; [done|]. by apply conn_lookup in Hx'.
Qed.

(** ** SYNC *)

Lemma moved_sync t x p w :
  good w -> w_transports w !! t = Some x ->
  wp (handle_sync t p) (fun _ w' =>
    moved t (if (arg0 (msg p) =? 0)%Z then (kCsOffline, false) else (t_connection_state x, t_online x)) w w') w.
Proof.
  intros G Hx. unfold handle_sync. pose proof (conn_lookup t x w Hx) as C. destruct (_ =? 0)%Z; cbn [negb].
  - apply wp_bind. eapply moved_go_offline; [done..|]. intros w1 M1 Hx1.
    eapply wp_send_packet_after; [exact Hx1|]. intros e n. eapply moved_then; [exact M1|].
    apply step_after. by eapply moved_good.
  - apply wp_bind. eapply wp_send_packet_after; [exact Hx|]. intros e n. set (w1 := after _ _ _ w).
    assert (S1 : step w w1) by by apply step_after.
    destruct ADB_HOST; cbn [when]; [|by apply wp_ret, moved_step].
    eapply (wp_SendConnectOnHost t x); [exact Hx|]. intros e' n'. apply moved_step; [|done].
    eapply step_trans; [exact S1|]. apply step_after, S1.
Qed.

(** ** CNXN *)

Lemma parse_prop_keeps x (prop : bytes) :
  t_disconnects (parse_prop x prop) = t_disconnects x /\ t_online (parse_prop x prop) = t_online x.
Proof.
  unfold parse_prop. destruct prop as [|a l]; [done|]. destruct (Split _ _) as [|k [|v [|? ?]]]; try done.
  repeat case_bool_decide; done.
Qed.

Lemma parse_props_keep l x :
  t_disconnects (fold_left parse_prop l x) = t_disconnects x /\ t_online (fold_left parse_prop l x) = t_online x.
Proof.
  revert x. induction l as [|a l IH]; intros x; cbn [fold_left]; [done|].
  destruct (IH (parse_prop x a)) as [-> ->]. apply parse_prop_keeps.
Qed.

Lemma parse_banner_keeps banner x :
  let x' := parse_banner banner x in
  t_disconnects x' = t_disconnects x /\ t_online x' = t_online x /\ t_connection_state x' = announced banner.
Proof.
  unfold parse_banner, announced. pose proof (Split_nonempty banner colon) as Hne.
  destruct (Split banner colon) as [|type [|b [|props rest]]]; cbn; [done..|].
  by destruct (parse_props_keep (Split props semicolon) (SetFeatures [] x)) as [-> ->].
Qed.

(** What the two updates of CNXN leave. *)
Lemma moved_banner t x p w (m : M (world E) unit) (Q : unit -> world E -> Prop) :
  good w -> w_transports w !! t = Some x ->
  (forall w' x', moved t (announced (payload p), t_online x) w w' -> w_transports w' !! t = Some x' ->
     t_connection_state x' = announced (payload p) -> t_online x' = t_online x -> wp m Q w') ->
  wp (upd_transport t (update_version (arg0 (msg p)) (arg1 (msg p))) ;;; upd_transport t (parse_banner (payload p)) ;;; m) Q w.
Proof.
  intros G Hx HQ. apply wp_bind. eapply wp_upd_transport; [exact Hx|]. set (x1 := update_version _ _ x).
  assert (M1 : moved t (t_connection_state x1, t_online x1) w (at_transport t x1 w)) by by eapply moved_at.
  apply wp_bind. eapply wp_upd_transport; [apply lookup_insert_eq|].
  destruct (parse_banner_keeps (payload p) x1) as (Hd & Ho & Hs). set (x2 := parse_banner _ x1) in *.
  assert (M2 : moved t (t_connection_state x2, t_online x2) (at_transport t x1 w) (at_transport t x2 (at_transport t x1 w))).
  { eapply moved_at; [by eapply moved_good|apply lookup_insert_eq|done]. }
  apply (HQ _ x2); try done; [|apply lookup_insert_eq].
  rewrite <- Hs. replace (t_online x) with (t_online x2) by (by rewrite Ho). by eapply moved_trans.
Qed.

Lemma moved_auth_request t x w :
  good w -> w_transports w !! t = Some x ->
  wp (send_auth_request t) (fun _ w' => moved t (t_connection_state x, t_online x) w w') w.
Proof.
  intros G Hx. assert (M2 : forall token w0, good w0 -> w_transports w0 !! t = Some x ->
    moved t (t_connection_state x, t_online x) w0 (at_transport t (set_t_token token x) w0)).
  { intros token w0 G0 Hx0. by apply (moved_at t x (set_t_token token x)). }
  eapply wp_send_auth_request; [exact Hx| |].
  - intros token e. eapply moved_trans; [|apply M2; [by apply good_env|done]].
    apply moved_step; [|by apply conn_lookup]. by apply step_same; [apply good_env|..].
  - intros token e n. eapply moved_then; [by apply M2|]. apply step_after. eapply moved_good. by apply M2.
Qed.

Lemma moved_welcome t x w :
  good w -> w_transports w !! t = Some x ->
  wp (welcome t) (fun _ w' =>
    moved t (t_connection_state x, ADB_HOST || negb (au_required (w_auth w)) || t_online x) w w') w.
Proof.
  intros G Hx. assert (M1 : moved t (t_connection_state x, true) w (at_transport t (set_t_online true x) w))
    by by apply (moved_at t x).
  unfold welcome. destruct ADB_HOST; cbn [orb].
  - unfold handle_online. eapply wp_upd_transport; [exact Hx|]. exact M1.
  - apply wp_bind, wp_get. destruct (au_required (w_auth w)); cbn [negb orb]; [by apply moved_auth_request|].
    unfold handle_online. apply wp_bind. eapply wp_upd_transport; [exact Hx|].
    eapply wp_send_connect; [apply lookup_insert_eq|]. intros e n. eapply moved_then; [exact M1|].
    apply step_after. by eapply moved_good.
Qed.

Lemma moved_connection t x p w :
  good w -> w_transports w !! t = Some x ->
  wp (handle_new_connection t p) (fun _ w' =>
    moved t (announced (payload p), ADB_HOST || negb (au_required (w_auth w)) ||
      (bool_decide (t_connection_state x = kCsOffline) && t_online x)) w w') w.
Proof.
  intros G Hx. unfold handle_new_connection. apply wp_bind. eapply wp_load_transport; [exact Hx|].
  set (was := bool_decide (t_connection_state x = kCsOffline) && t_online x). apply wp_bind.
  assert (Hrest : forall w1 x1 c, moved t c w w1 -> w_transports w1 !! t = Some x1 -> t_online x1 = was ->
    wp (upd_transport t (update_version (arg0 (msg p)) (arg1 (msg p))) ;;;
        upd_transport t (parse_banner (payload p)) ;;; welcome t ;;; update_transports)
      (fun _ w' => moved t (announced (payload p), ADB_HOST || negb (au_required (w_auth w)) || was) w w') w1).
  { intros w1 x1 c M1 Hx1 Ho1. eapply moved_banner; [by eapply moved_good|exact Hx1|].
    intros w2 x2 M2 Hx2 Hs2 Ho2. apply wp_bind. eapply wp_mono; [eapply moved_welcome; [by eapply moved_good|exact Hx2]|].
    cbn. intros [] w3 M3. rewrite Hs2, Ho2, Ho1 in M3.
    assert (au_required (w_auth w2) = au_required (w_auth w)) as Hreq.
    { transitivity (au_required (w_auth w1)); [apply M2|apply M1]. }
    rewrite Hreq in M3. eapply wp_mono; [apply step_update_transports; by eapply moved_good|].
    cbn. intros [] w4 S4. eapply moved_then; [|exact S4]. eapply moved_trans; [exact M1|]. by eapply moved_trans. }
  case_bool_decide as Hoff; cbn [negb when].
  - apply wp_ret. eapply Hrest; [by eapply moved_refl, conn_lookup|exact Hx|done].
  - eapply moved_go_offline; [done..|]. intros w1 M1 Hx1. by eapply Hrest.
Qed.

(** ** AUTH *)

Lemma moved_token t x p w :
  good w -> w_transports w !! t = Some x ->
  wp (handle_token t p) (fun _ w' =>
    moved t (if decide (t_connection_state x = kCsOffline) then kCsUnauthorized else t_connection_state x, t_online x) w w') w.
Proof.
  intros G Hx. unfold handle_token. apply wp_bind. eapply wp_load_transport; [exact Hx|]. apply wp_bind.
  case_bool_decide as Hoff; cbn [when].
  - rewrite decide_True by done. eapply wp_upd_transport; [exact Hx|]. set (x1 := set_t_connection_state _ x).
    assert (M1 : moved t (kCsUnauthorized, t_online x) w (at_transport t x1 w)) by by apply (moved_at t x x1).
    eapply wp_mono; [eapply step_auth_response; [by eapply moved_good|apply lookup_insert_eq]|].
    cbn. intros [] w' S. by eapply moved_then.
  - rewrite decide_False by done. apply wp_ret. eapply wp_mono; [by eapply step_auth_response|].
    cbn. intros [] w' S. by apply moved_step; [|apply conn_lookup].
Qed.

Lemma moved_signature t x p w :
  good w -> w_transports w !! t = Some x ->
  wp (handle_signature t p) (fun _ w' =>
    moved t (t_connection_state x, t_online x || adbd_auth_verify (t_token x) (payload p) (w_env w)) w w') w.
Proof.
  intros G Hx. unfold handle_signature. apply wp_bind. eapply wp_load_transport; [exact Hx|]. apply wp_bind, wp_get.
  destruct (adbd_auth_verify _ _ _).
  - rewrite orb_true_r. apply wp_bind. eapply wp_verified_step; [done..|]. intros w1 S1 Hx1.
    eapply wp_upd_transport; [exact Hx1|].
    eapply (moved_trans t (t_connection_state x, true)); [split; [exact S1|by rewrite (conn_lookup _ _ _ Hx1)]|].
    eapply (moved_at t (set_t_online true x)); [apply S1|exact Hx1|done].
  - rewrite orb_false_r. apply wp_bind. eapply wp_upd_transport; [exact Hx|]. set (x1 := set_t_failed_auth_attempts _ x).
    assert (M1 : moved t (t_connection_state x, t_online x) w (at_transport t x1 w)) by by apply (moved_at t x x1).
    eapply wp_mono; [eapply moved_auth_request; [by eapply moved_good|apply lookup_insert_eq]|].
    cbn. intros [] w' M2. by eapply moved_trans.
Qed.

Lemma moved_confirm t x p w :
  good w -> w_transports w !! t = Some x -> payload p <> [] ->
  wp (adbd_auth_confirm_key (payload p) t) (fun _ w' => moved t (t_connection_state x, t_online x) w w') w.
Proof.
  intros G Hx Hp. eapply wp_confirm_key; [done..|]. intros w' [S _]. by apply moved_step; [|apply conn_lookup].
Qed.

Lemma moved_auth t x p w :
  good w -> w_transports w !! t = Some x -> command (msg p) = A_AUTH -> key_given p ->
  wp (handle_auth t p) (fun _ w' => moved t (conn_next (au_required (w_auth w))
    (adbd_auth_verify (t_token x) (payload p) (w_env w)) p (t_connection_state x, t_online x)) w w') w.
Proof.
  intros G Hx Hc Hk. unfold handle_auth, conn_next. cbv zeta. rewrite Hc. cbn [Z.eqb].
  change (A_AUTH =? A_SYNC)%Z with false. change (A_AUTH =? A_CNXN)%Z with false. rewrite Z.eqb_refl. cbv match.
  destruct (ADB_HOST && _) eqn:H1; [by apply moved_token|].
  destruct (negb ADB_HOST && (arg0 (msg p) =? ADB_AUTH_SIGNATURE)%Z); [by apply moved_signature|].
  destruct (negb ADB_HOST && (arg0 (msg p) =? ADB_AUTH_RSAPUBLICKEY)%Z) eqn:H3.
  - apply moved_confirm; [done..|]. apply andb_true_iff in H3 as [H3 Ha]. apply Z.eqb_eq in Ha.
    apply Hk; [by destruct ADB_HOST|done..].
  - eapply moved_go_offline; [done..|]. auto.
Qed.

(** ** All the packets *)

Lemma moved_put t c p w w' : moved t c w w' -> wp (put_apacket p) (fun _ w' => moved t c w w') w'.
Proof.
  intros M. unfold put_apacket. apply wp_modify. eapply moved_then; [exact M|].
  by apply step_same; [eapply good_live, moved_good|..].
Qed.

(** The packets about sockets change no connection. *)
Lemma moved_when t x (b : bool) (m : M (world E) unit) w :
  good w -> w_transports w !! t = Some x -> (b = true -> wp m (fun _ w' => step w w') w) ->
  wp (when b m ;;; ret false) (fun _ w' => moved t (t_connection_state x, t_online x) w w') w.
Proof.
  intros G Hx Hm. pose proof (conn_lookup t x w Hx) as C. apply wp_bind. destruct b; cbn [when].
  - eapply wp_mono; [by apply Hm|]. cbn. intros [] w' S. by apply wp_ret, moved_step.
  - by apply wp_ret, wp_ret, moved_refl.
Qed.

Lemma guard3 a b c : (a && negb (b =? 0)%Z && c)%bool = true -> b <> 0%Z.
Proof. intros [[_ Hb%negb_true_iff]%andb_true_iff _]%andb_true_iff. by apply Z.eqb_neq. Qed.

Lemma handle_packet_moved t x p w :
  good w -> w_transports w !! t = Some x -> key_given p ->
  wp (handle_packet p t) (fun _ w' =>
    moved t (conn_next (au_required (w_auth w)) (adbd_auth_verify (t_token x) (payload p) (w_env w)) p
               (t_connection_state x, t_online x)) w w') w.
Proof.
  intros G Hx Hk. set (c' := conn_next _ _ _ _).
  unfold handle_packet. cbv zeta. pose proof (moved_auth t x p w G Hx) as Hauth. fold c' in Hauth.
  subst c'. unfold conn_next in *. cbv zeta in *.
  destruct (command (msg p) =? A_SYNC)%Z eqn:Hsync; [by apply (moved_sync t x)|].
  apply wp_bind. eapply wp_mono with (P := fun _ w' => moved t _ w w');
    [|intros b w' M; apply wp_when; intros _; [by apply moved_put|exact M]].
  destruct (command (msg p) =? A_CNXN)%Z eqn:Hcnxn.
  { apply wp_bind. eapply wp_mono; [by apply (moved_connection t x)|]. cbn. intros [] w' M. exact M. }
  destruct (Z.eqb_spec (command (msg p)) A_AUTH) as [Ha|Hna].
  { apply wp_bind. eapply wp_mono; [by apply Hauth|]. cbn. intros [] w' M. exact M. }
  apply wp_bind. eapply wp_load_transport; [exact Hx|].
  destruct (_ =? A_OPEN)%Z; [apply moved_when; [done..|]; intros Hg; apply (step_open t x); [done..|by eapply guard3]|].
  destruct (_ =? A_OKAY)%Z; [apply moved_when; [done..|]; intros Hg; apply (step_okay t x); [done..|by eapply guard3]|].
  destruct (_ =? A_CLSE)%Z; [apply moved_when; [done..|]; intros _; by apply step_handle_close|].
  destruct (_ =? A_WRTE)%Z; [|by apply wp_ret, moved_refl, conn_lookup].
  destruct (_ && _) eqn:Hg; [|by apply wp_ret, moved_refl, conn_lookup].
  eapply wp_mono; [apply (step_write t x); [done..|by eapply guard3]|]. cbn. intros b w' S.
  by apply moved_step; [|apply conn_lookup].
Qed.


(** ** Sequences of packets *)

(** The main thread handles packets of any transports one after the other,
    while the environment does what it likes. *)
Inductive serves : world E -> list (loc * apacket) -> world E -> Prop :=
| serves_nil w : serves w [] w
| serves_env w e l w' : serves (set_w_env e w) l w' -> serves w l w'
| serves_packet w t p w1 l w' : handle_packet p t w = Done tt w1 -> serves w1 l w' -> serves w ((t, p) :: l) w'.

(** What a sequence of packets needs: registered transports, keys that are given. *)
Definition servable w (l : list (loc * apacket)) : Prop :=
  forall t p, (t, p) ∈ l -> is_Some (conn w t) /\ key_given p.

Lemma serve_one t p w w1 : good w -> is_Some (conn w t) -> key_given p -> handle_packet p t w = Done tt w1 ->
  exists x, w_transports w !! t = Some x /\
    moved t (conn_next (au_required (w_auth w)) (adbd_auth_verify (t_token x) (payload p) (w_env w)) p
               (t_connection_state x, t_online x)) w w1.
Proof.
  intros G [x Hx]%conn_some Hk Hd. exists x. split; [done|].
  pose proof (handle_packet_moved t x p w G Hx Hk) as H. exact (wp_done _ _ _ _ _ Hd H).
Qed.

Lemma servable_next t c w w1 a l : moved t c w w1 -> servable w (a :: l) -> servable w1 l.
Proof.
  intros [(_ & Ho & Hs & _) Hc] Hl u p Hin. destruct (Hl u p ltac:(by right)) as [Hu Hk]. split; [|done].
  destruct (decide (u = t)) as [->|Hne]; [by rewrite Hc|by rewrite Ho].
Qed.

(** What lets a connection in. *)
Definition signature_accepted t p w : Prop :=
  command (msg p) = A_AUTH /\ arg0 (msg p) = ADB_AUTH_SIGNATURE /\
  exists x, w_transports w !! t = Some x /\ adbd_auth_verify (t_token x) (payload p) (w_env w) = true.

Lemma conn_next_offline (verified : bool) p cs :
  ADB_HOST = false -> snd (conn_next true verified p (cs, false)) = true ->
  command (msg p) = A_AUTH /\ arg0 (msg p) = ADB_AUTH_SIGNATURE /\ verified = true.
Proof.
  intros Hb. unfold conn_next. rewrite Hb. cbv zeta. cbn [fst snd negb orb andb].
  destruct (_ =? A_SYNC)%Z; [by destruct (_ =? 0)%Z|]. destruct (_ =? A_CNXN)%Z; [by rewrite andb_false_r|].
  destruct (Z.eqb_spec (command (msg p)) A_AUTH); [|done].
  destruct (Z.eqb_spec (arg0 (msg p)) ADB_AUTH_SIGNATURE); [by cbn|]. by destruct (_ =? _)%Z.
Qed.


(** ** Packets that are not for this side *)

(** [s] is connected to another transport than [t]. *)
Definition foreign t s w : Prop :=
  exists y q z, w_socks w !! s = Some y /\ s_peer y = Some q /\ w_socks w !! q = Some z /\ s_transport z <> Some t.

Lemma wp_ignored p (m : M (world E) unit) w :
  wp m (fun _ w' => w' = w) w ->
  wp (let* handed := (m ;;; ret false) in when (negb handed) (put_apacket p)) (fun _ w' => w' = set_w_live (w_live w - 1) w) w.
Proof.
  intros Hm. apply wp_bind, wp_bind. eapply wp_mono; [exact Hm|]. cbn. intros [] w' ->. by apply wp_ret.
Qed.

Lemma foreign_close_ignored t p s w :
  wf ∅ w -> arg0 (msg p) = 0%Z -> addressed w (arg1 (msg p)) 0 s -> foreign t s w ->
  wp (handle_close t p) (fun _ w' => w' = w) w.
Proof.
  intros I H0 Ha (y & q & z & Hy & Hp & Hz & Hne). unfold handle_close. rewrite H0. apply wp_bind, wp_find_local; [done| |].
  - intros s' Ha'. assert (s' = s) as ->.
    { destruct Ha as (? & x1 & ? & ? & _), Ha' as (? & x2 & ? & ? & _). eapply (wf_ids _ _ I s' s x2 x1); try done; congruence. }
    apply wp_bind. eapply wp_load_sock; [exact Hy|]. rewrite Hp. apply wp_bind, wp_bind. eapply wp_load_sock; [exact Hz|].
    apply wp_ret. rewrite bool_decide_false by done. by apply wp_ret.
  - by apply wp_ret.
Qed.

(** C25: The packets about sockets of a transport that is not online are only
    freed, and so is an A_CLSE without the id of the sender's socket when the
    socket it names is connected to another transport: one device cannot close
    the connections of another that way. *)
Theorem socket_packets_ignored t x p w :
  good w -> w_transports w !! t = Some x -> command (msg p) ∈ [A_OPEN; A_OKAY; A_CLSE; A_WRTE] ->
  t_online x = false \/
  command (msg p) = A_CLSE /\ arg0 (msg p) = 0%Z /\ (exists s, addressed w (arg1 (msg p)) 0 s /\ foreign t s w) ->
  wp (handle_packet p t) (fun _ w' => w' = set_w_live (w_live w - 1) w) w.
Proof.
  intros G Hx Hcmd Hwhy. unfold handle_packet. cbv zeta.
  assert (Hskip : forall b m, t_online x = false \/ b = false -> wp (when (t_online x && b) m) (fun _ w' => w' = w) w).
  { intros b m [->| ->]; rewrite ?andb_false_r; by apply wp_ret. }
  assert (Hnc : command (msg p) <> A_CLSE -> t_online x = false) by (intros; destruct Hwhy as [|[? _]]; done).
  repeat (apply elem_of_cons in Hcmd as [Hcmd|Hcmd]); [..|by apply not_elem_of_nil in Hcmd].
  all: rewrite Hcmd in Hnc |- *; cbn [Z.eqb Pos.eqb A_SYNC A_CNXN A_AUTH A_OPEN A_OKAY A_CLSE A_WRTE].
  all: apply wp_bind, wp_bind; eapply wp_load_transport; [exact Hx|].
  all: apply wp_bind_inv; rewrite <- ?andb_assoc.
  - apply wp_ignored, Hskip. left. by apply Hnc.
  - apply wp_ignored, Hskip. left. by apply Hnc.
  - apply wp_ignored. destruct Hwhy as [Hoff|(_ & H0 & s & Ha & Hf)]; [apply Hskip; by left|].
    apply wp_when; [|done]. intros _. by eapply foreign_close_ignored; [apply G|..].
  - rewrite (Hnc ltac:(done)). cbn [andb]. by apply wp_ret.
Qed.

End Refine.

(** ** Witnesses *)

#[export] Instance demo_services_laws : ServicesLaws script.
Proof. split. intros name ot w G _. apply wp_ret. split; [by apply step_refl|done]. Qed.

Section ServerDemo.
#[local] Instance on_server : Build := server_build.

Definition quiet_server : world script := idle_world false [] one_transport quiet_env.
Definition phone_banner : apacket := seal_packet (mk_packet A_CNXN A_VERSION MAX_PAYLOAD (str "device::ro.product.model=Walleye;")).


(** Two devices; the client on descriptor 5 is connected to the socket 7 of the
    first one. *)
Definition two_transports : gmap loc atransport :=
  {[ 1%positive := set_t_online true demo_transport; 2%positive := set_t_online true demo_transport ]}.

Definition two_devices : world script := idle_world false [] two_transports quiet_env.

Lemma two_good : good two_devices.
Proof.
  assert (H : forall t x, two_transports !! t = Some x -> (t < 9)%positive /\ t_disconnects x = []).
  { intros t x Hx. unfold two_transports in Hx. apply lookup_insert_Some in Hx as [[<- <-]|[_ Hx]]; [done|].
    by apply lookup_singleton_Some in Hx as [<- <-]. }
  apply idle_good; [intros t [x Hx]|intros t x Hx]; by apply H in Hx as [].
Qed.

Definition connect_client : M (world script) unit := let* s := create_local_socket 5 in connect_remote s 7 1.

Definition client_world : world script :=
  match connect_client two_devices with Done _ w => w | _ => two_devices end.

Lemma client_good : good client_world.
Proof.
  eapply (wp_done connect_client (fun _ => good) two_devices tt); [by vm_compute|]. unfold connect_client.
  apply wp_bind, (wp_create_local_socket ∅); [apply two_good|done|done|]. intros w1 A1 I1.
  destruct (unlinked_added _ _ _ two_good I1 A1 ltac:(by left) eq_refl eq_refl) as [S1 U1].
  destruct (step_transport 1 (set_t_online true demo_transport) two_devices w1 S1 eq_refl) as (x1 & Hx1 & _).
  eapply wp_connect_remote; [apply S1|exact U1|done|exact Hx1|]. by intros w2 r x' y' [G2 _].
Qed.

(** The second device tries to close the first one's connection. *)
Lemma socket_packets_ignored_witness :
  wp (handle_packet (mk_packet A_CLSE 0 1 []) 2) (fun _ w' => w' = set_w_live (w_live client_world - 1) client_world) client_world.
Proof.
  apply (socket_packets_ignored 2 (set_t_online true demo_transport)); [apply client_good|by vm_compute|by right; right; left|].
  right. split; [done|]. split; [done|]. exists 10%positive. split.
  - split; [by left|]. eexists. split; [vm_compute; reflexivity|]. split; [done|by left].
  - eexists _, 11%positive, _. split_and!; [vm_compute; reflexivity|done|vm_compute; reflexivity|done].
Defined.

(** An A_CLSE with both ids, and an A_WRTE, are taken from any device: their
    sender is not compared with the transport of the peer. *)
Example write_from_another_device :
  exists w', handle_packet (mk_packet A_WRTE 7 1 (str "hi")) 2 client_world = Done tt w' /\
    script_tx 5 (w_env w') = str "hi" /\ w_sent w' = [(2%positive, seal_packet (mk_packet A_OKAY 1 7 []))].
Proof. eexists. split_and!; vm_compute; reflexivity. Qed.

Example close_from_another_device :
  exists w', handle_packet (mk_packet A_CLSE 7 1 []) 2 client_world = Done tt w' /\ w_local w' = [].
Proof. eexists. split_and!; vm_compute; reflexivity. Qed.
End ServerDemo.

Section DeviceDemo.
#[local] Instance on_device : Build := device_build.

Definition locked_device : world script := idle_world true [] one_transport quiet_env.
Definition host_banner : apacket := seal_packet (mk_packet A_CNXN A_VERSION MAX_PAYLOAD (str "host::")).
Definition signed (key : loc) : apacket :=
  seal_packet (mk_packet A_AUTH ADB_AUTH_SIGNATURE 0 (demo_key key ++ str "twenty random bytes!")).

(** The host asks, gives a signature of an unknown key, and then a good one. *)
Definition knocking : list (loc * apacket) := [(1%positive, host_banner); (1%positive, signed 6); (1%positive, signed 7)].

Definition opened_device : world script :=
  match iter_list (fun a => handle_packet (snd a) (fst a)) knocking locked_device with Done _ w => w | _ => locked_device end.

Lemma knocking_served : serves locked_device knocking opened_device.
Proof. do 3 (eapply serves_packet; [vm_compute; reflexivity|]). constructor. Qed.


#[local] Instance framework_net : Net script := {|
  network_loopback_client p := ret (p, []); network_loopback_server p := ret (p, []);
  network_inaddr_any_server p := ret (p, []); network_connect h p := ret (p, []);
  network_local_client n ns := ret ((-1)%Z, []); network_local_server n ns := ret ((-1)%Z, []);
  adb_socket_get_local_port fd := ret 40000%Z; disable_tcp_nagle fd := ret tt; adb_socket_accept fd := ret 8%Z |}.

(** A key that is not there is read past its end. *)
Example empty_key_read :
  exists w, adbd_auth_listener 30 locked_device = Done tt w /\
    handle_packet (mk_packet A_AUTH ADB_AUTH_RSAPUBLICKEY 0 []) 1 w = Crash "key[len - 1] out of bounds".
Proof. eexists. split; vm_compute; reflexivity. Qed.

(** The framework's answer goes to the transport that asked first: the user
    confirms the second host's key, and the first host gets in. *)
Definition framework_env : script :=
  {| sc_reads := {[ 8%Z := [RdOk (str "OK")] ]}; sc_writes := ∅; sc_out := ∅; sc_pipes := ∅ |}.
Definition two_hosts : world script :=
  idle_world true [] {[ 1%positive := demo_transport; 2%positive := demo_transport ]} framework_env.
Definition asked_twice : M (world script) unit :=
  adbd_auth_listener 30 ;;;
  handle_packet (mk_packet A_AUTH ADB_AUTH_RSAPUBLICKEY 0 (str "first" ++ [NUL])) 1 ;;;
  handle_packet (mk_packet A_AUTH ADB_AUTH_RSAPUBLICKEY 0 (str "second" ++ [NUL])) 2 ;;;
  adbd_auth_event 8 FDE_READ.

Example answer_goes_to_the_first :
  exists w, asked_twice two_hosts = Done tt w /\ script_tx 8 (w_env w) = str "PKfirstPKsecond" /\
    conn w 1 = Some (kCsOffline, true) /\ conn w 2 = Some (kCsOffline, false).
Proof. eexists. split_and!; vm_compute; reflexivity. Qed.
End DeviceDemo.
