(* ===== verification/TransportWire.v ===== *)
(** * What goes over the wire

    A packet written on one side of a connection is the packet read on the
    other; the reading side takes nothing that its checks reject; and the
    writing thread puts on the wire exactly the packets between the SYNC that
    starts it and the one that ends it. *)

From S2P Require Import Prelude LibBase Packet AdbIo FdEvent Transport World SmartText.
From S2P Require Import Sockets SocketInv SocketIo SocketSpec SocketClose SocketFlow Listeners ListenerInv TransportOps Registration Connection TransportIo ConnectionInv Demo ConnectionFlow.

(** ** Packets *)

(** A packet as the reader builds it. *)
Definition received (p : apacket) : apacket := with_data (data p) (headed (msg p)).

Lemma seal_checks p : packet_ok p -> check_data (received (seal_packet p)) = true.
Proof. intros _. unfold check_data. cbn. apply Z.eqb_eq. reflexivity. Qed.

Lemma payload_ok p : packet_ok p -> payload p = data p.
Proof. intros (_ & Hd & _). unfold payload. by rewrite Hd, Nat2Z.id, firstn_all. Qed.

Lemma WriteFdExactly_loop_keeps {W} `{FdOps W} (I : W -> Prop) fuel fd buf w r w' :
  (forall b e x e', adb_write fd b e = (x, e') -> I e -> I e') ->
  WriteFdExactly_loop fuel fd buf w = Done r w' -> I w -> I w'.
Proof.
  intros HI. revert buf w. induction fuel as [|f IH]; intros buf w; (destruct buf as [|b l]; cbn; [by intros [= _ <-]|]); [done|].
  unfold bind, sys_write. destruct (adb_write fd (b :: l) w) as [x e] eqn:Hw. intros Hr HIw.
  specialize (HI _ _ _ _ Hw HIw). destruct x as [n|er]; [by eapply IH|].
  destruct er; first [by eapply IH|unfold ret in Hr; by simplify_eq].
Qed.

(** ** Local transports *)

Section Local.
Context {E : Type} {K : Kernel E} {B : Build}.
Context (sfd : Z) (rx tx : E -> bytes) {FS : FdStream E sfd rx tx (refusals sfd)}.
Implicit Types (w : world E) (p : apacket) (t : loc).

Lemma on_env_done {A} (m : M E A) a e w : m (w_env w) = Done a e -> on_env m w = Done a (set_w_env e w).
Proof. unfold on_env. by intros ->. Qed.

Lemma local_write_done t x p w :
  w_transports w !! t = Some x -> t_sfd x = sfd -> 
  exists e, local_remote_write p t w = Done true (set_w_env e w) /\ tx e = tx (w_env w) ++ packet_bytes p /\
    rx e = rx (w_env w) /\
    (forall I : E -> Prop, (forall b e x e', adb_write sfd b e = (x, e') -> I e -> I e') -> I (w_env w) -> I e).
Proof.
  intros Hx Hfd. unfold local_remote_write, bind at 1, load_transport. rewrite Hx, Hfd. cbv beta iota.
  unfold bind, get, reply_fuel, WriteFdExactly.
  destruct (WriteFdExactly_loop_spec sfd rx tx (refusals sfd) (length (packet_bytes p) + refusals sfd (w_env w)) (packet_bytes p) (w_env w))
    as (e & Hw & Ht & Hr & _); [lia|].
  exists e. rewrite (on_env_done _ _ _ _ Hw). split_and!; try done.
  intros I HI. by eapply WriteFdExactly_loop_keeps.
Qed.

Lemma local_read_done t x p post w :
  w_transports w !! t = Some x -> t_sfd x = sfd -> packet_ok p -> check_header p (t_max_payload x) = true ->
  check_data p = true -> rx (w_env w) = packet_bytes p ++ post ->
  exists e, local_remote_read t w = Done (Some (received p)) (set_w_env e w) /\ rx e = post /\ tx e = tx (w_env w).
Proof.
  intros Hx Hfd Hok Hh Hc Hrx. pose proof Hok as (Hm & Hd & Hl). unfold packet_bytes in Hrx.
  rewrite payload_ok, <- app_assoc in Hrx by done.
  destruct (ReadFdExactly_app sfd rx tx (refusals sfd) (encode_message (msg p)) (data p ++ post) (w_env w) Hrx)
    as (e1 & Hr1 & Hrx1 & Ht1 & _).
  rewrite length_encode_message in Hr1.
  destruct (ReadFdExactly_app sfd rx tx (refusals sfd) (data p) post e1 Hrx1) as (e2 & Hr2 & Hrx2 & Ht2 & _).
  exists e2. split; [|split; congruence].
  unfold local_remote_read, bind at 1, load_transport at 1. rewrite Hx, Hfd. cbv beta iota.
  unfold bind at 1. change sizeof_amessage with (Z.of_nat 24). rewrite (on_env_done _ _ _ _ Hr1). cbv beta iota zeta.
  unfold bind at 1, load_transport at 1. cbn [w_transports set_w_env]. rewrite Hx. cbv beta iota.
  rewrite <- (app_nil_r (encode_message _)), decode_encode_message by done.
  change (check_header (headed (msg p)) (t_max_payload x)) with (check_header p (t_max_payload x)). rewrite Hh. cbn [negb].
  unfold bind at 1. cbn [msg headed]. rewrite Hd, Hfd. rewrite (on_env_done _ (RX_ok (data p)) e2 (set_w_env e1 w) Hr2).
  cbv beta iota zeta. fold (received p).
  replace (check_data (received p)) with (check_data p) by done. by rewrite Hc.
Qed.

End Local.

(** C22: What [remote_write] puts on a local connection, [remote_read] on the
    other side takes off it: the same packet, with nothing left over and nothing
    of what follows taken, however the stream cuts the bytes and whatever writes
    are refused, as long as the reader accepts payloads of that size. *)
Theorem wire_roundtrip {EA EB : Type} {KA : Kernel EA} {KB : Kernel EB} {B : Build} fa fb rxa txa rxb txb
  {FA : FdStream EA fa rxa txa (refusals fa)} {FB : FdStream EB fb rxb txb (refusals fb)}
  (a b : loc) xa xb p (wa : world EA) (wb : world EB) :
  w_transports wa !! a = Some xa -> t_sfd xa = fa -> w_transports wb !! b = Some xb -> t_sfd xb = fb ->
  packet_ok p -> (data_length (msg p) <= t_max_payload xb)%Z ->
  exists wa', local_remote_write (seal_packet p) a wa = Done true wa' /\
    forall out post, txa (w_env wa') = txa (w_env wa) ++ out -> rxb (w_env wb) = out ++ post ->
      exists wb', local_remote_read b wb = Done (Some (received (seal_packet p))) wb' /\ rxb (w_env wb') = post.
Proof.
  intros Ha Hfa Hb Hfb Hok Hle. pose proof (seal_packet_ok p Hok) as Hs.
  destruct (local_write_done fa rxa txa a xa (seal_packet p) wa Ha Hfa) as (e & Hw & Ht & _).
  eexists. split; [exact Hw|]. intros out post Hout Hrx. cbn in Hout. rewrite Ht in Hout. apply app_inv_head in Hout as <-.
  destruct (local_read_done fb rxb txb b xb (seal_packet p) post wb Hb Hfb Hs) as (e' & Hr & Hpost & _).
  - by apply check_header_true.
  - by apply (seal_checks p).
  - done.
  - eexists. split; [exact Hr|exact Hpost].
Qed.

(** ** The reading side *)

Class UsbLaws (E : Type) {B : Build} {U : Usb E} := {
  usb_read_full h n (e e' : E) bs : ADB_HOST = false -> usb_read h n e = (Some bs, e') -> Zlen bs = n;
}.

Section Reading.
Context {E : Type} {K : Kernel E} {KL : KernelLaws E} {B : Build} {BN : Banner} {OS : Os E} {U : Usb E} {UL : UsbLaws E}.
Implicit Types (w : world E) (p : apacket) (t : loc).

(** All checks passed. *)
Definition sound x p : Prop := packet_ok p /\ check_header p (t_max_payload x) = true /\ check_data p = true.

Lemma ReadFdExactly_loop_length fuel fd n acc (e e' : E) bs :
  ReadFdExactly_loop fuel fd n acc e = Done (RX_ok bs) e' -> (0 <= n)%Z -> Zlen bs = (Zlen acc + n)%Z.
Proof.
  revert n acc e. induction fuel as [|f IH]; intros n acc e; cbn [ReadFdExactly_loop]; destruct (Z.ltb_spec 0 n); try done.
  - intros [= <- _] ?. lia.
  - unfold bind, sys_read. destruct (adb_read fd n e) as [r e1] eqn:Hr. destruct r as [[|b l]|]; [done| |done].
    intros Hl Hn. pose proof (read_count _ _ _ _ _ Hn Hr). apply IH in Hl; [|lia]. rewrite Hl, length_app. lia.
  - intros [= <- _] ?. lia.
Qed.

Lemma wp_ReadFdExactly fd n w (Q : rx_result -> world E -> Prop) :
  (0 <= n)%Z -> (forall e r, (forall bs, r = RX_ok bs -> Zlen bs = n) -> Q r (set_w_env e w)) ->
  wp (on_env (ReadFdExactly fd n)) Q w.
Proof.
  intros Hn HQ. apply wp_on_env. assert (Hloop : forall fuel m acc (e : E), Z.to_nat m <= fuel ->
    wp (ReadFdExactly_loop fuel fd m acc) (fun _ _ => True) e).
  { induction fuel as [|f IH]; intros m acc e Hf; cbn [ReadFdExactly_loop]; destruct (Z.ltb_spec 0 m); try done; [lia|].
    apply wp_bind. unfold wp at 1, sys_read. destruct (adb_read fd m e) as [r e1] eqn:Hr.
    destruct r as [[|b l]|]; [done| |done]. apply IH. cbn [length]. lia. }
  apply wp_run. eapply wp_mono; [apply Hloop; lia|]. intros r e _ Hr. apply HQ.
  intros bs ->. apply ReadFdExactly_loop_length in Hr; [|done]. by rewrite Hr.
Qed.

Lemma sound_read x m bs :
  message_ok m -> check_header (headed m) (t_max_payload x) = true -> (t_max_payload x <= MAX_PAYLOAD)%Z ->
  Zlen bs = data_length m -> check_data (with_data bs (headed m)) = true -> sound x (with_data bs (headed m)).
Proof.
  intros Hm Hh Hmax Hl Hc. split_and!; [|exact Hh|exact Hc]. apply check_header_true in Hh as [_ Hle]. cbn in Hle.
  split_and!; cbn; [done|congruence|lia].
Qed.

(** What a read gives: nothing, a packet that passed the checks, or, over USB
    on the server, a packet to be skipped. *)
Definition read_post x (r : option apacket) w : Prop :=
  match r with
  | None => True
  | Some p => sound x p \/ (ADB_HOST = true /\ t_type x = kTransportUsb /\ command (msg p) = 0%Z)
  end.

Lemma wp_local_read t x w :
  w_transports w !! t = Some x -> (t_max_payload x <= MAX_PAYLOAD)%Z -> wp (local_remote_read t) (read_post x) w.
Proof.
  intros Hx Hmax. unfold local_remote_read. apply wp_bind. eapply wp_load_transport; [exact Hx|].
  apply wp_bind, wp_ReadFdExactly; [done|]. intros e [header|er] _; [|by apply wp_ret].
  apply wp_bind. eapply wp_load_transport; [exact Hx|]. pose proof (decode_message_ok header) as Hm.
  set (m := decode_message header) in *. destruct (check_header _ _) eqn:Hh; cbn [negb]; [|by apply wp_ret].
  apply wp_bind, wp_ReadFdExactly; [apply Hm|]. intros e' [bs|er] Hl; [|by apply wp_ret]. apply wp_ret.
  destruct (check_data _) eqn:Hc; [|done]. left. apply sound_read; try done. by apply Hl.
Qed.

Lemma wp_usb_read h n w (Q : option bytes -> world E -> Prop) :
  (forall e r, (ADB_HOST = false -> forall bs, r = Some bs -> Zlen bs = n) -> Q r (set_w_env e w)) ->
  wp (usb_read_on h n) Q w.
Proof.
  intros HQ. unfold usb_read_on. apply wp_on_env. unfold wp. destruct (usb_read h n (w_env w)) as [r e] eqn:Hr.
  apply HQ. intros Hh bs ->. by eapply usb_read_full.
Qed.

Lemma wp_usb_read_device t x w :
  ADB_HOST = false -> w_transports w !! t = Some x -> (t_max_payload x <= MAX_PAYLOAD)%Z ->
  wp (usb_remote_read_device t) (read_post x) w.
Proof.
  intros Hb Hx Hmax. unfold usb_remote_read_device. apply wp_bind. eapply wp_load_transport; [exact Hx|].
  apply wp_bind, wp_usb_read. intros e [header|] _; [|by apply wp_ret].
  apply wp_bind. eapply wp_load_transport; [exact Hx|]. pose proof (decode_message_ok header) as Hm.
  set (m := decode_message header) in *. destruct (check_header _ _) eqn:Hh; cbn [negb]; [|by apply wp_ret].
  apply wp_bind. cbn [msg headed].
  assert (Hrest : forall e' bs, Zlen bs = data_length m ->
    wp (let p := with_data bs (headed m) in ret (if check_data p then Some p else None)) (read_post x) (set_w_env e' w)).
  { intros e' bs Hl. apply wp_ret. destruct (check_data _) eqn:Hc; [|done]. left. by apply sound_read. }
  destruct (Z.eqb_spec (data_length m) 0) as [Hz|Hz].
  - apply wp_ret. by apply Hrest.
  - apply wp_usb_read. intros e' [bs|] Hl; [|by apply wp_ret]. apply Hrest. by apply Hl.
Qed.

Context {LB : LibBase} {SO : SetOrder} {CR : Crypto E}.

Lemma wp_usb_err t x x' p w :
  ADB_HOST = true -> t_type x' = kTransportUsb -> w_transports w !! t = Some x -> wp (usb_err_msg p t) (read_post x') w.
Proof.
  intros Hb Ht Hx. unfold usb_err_msg. apply wp_bind. eapply wp_load_transport; [exact Hx|]. apply wp_bind.
  assert (Hend : forall w', wp (ret (Some (with_command 0 p))) (read_post x') w') by (intros w'; apply wp_ret; by right).
  case_bool_decide; [|by apply wp_ret]. unfold SetSendConnectOnError.
  destruct (t_has_send_connect_on_error x).
  - apply wp_bind. eapply wp_upd_transport; [exact Hx|]. by apply wp_ret.
  - apply wp_bind. eapply wp_upd_transport; [exact Hx|]. cbn [when].
    eapply wp_SendConnectOnHost; [apply lookup_insert_eq|]. by intros.
Qed.

Lemma wp_UsbReadMessage h w (Q : option amessage -> world E -> Prop) :
  (forall e r, (forall m, r = Some m -> message_ok m) -> Q r (set_w_env e w)) -> wp (UsbReadMessage h) Q w.
Proof.
  intros HQ. unfold UsbReadMessage, packet_size. apply wp_bind, wp_gets.
  destruct (_ <? _)%Z; [done|]. destruct (_ <=? _)%Z; [done|]. apply wp_bind, wp_usb_read.
  intros e [bs|] _; [|by apply wp_ret, HQ]. destruct (_ =? _)%Z; apply wp_ret, HQ; [|done].
  intros m [= <-]. apply decode_message_ok.
Qed.

Lemma wp_UsbReadPayload h p w (Q : option bytes -> world E -> Prop) :
  usb_get_max_packet_size h (w_env w) <> 0%Z -> (forall e r, Q r (set_w_env e w)) -> wp (UsbReadPayload h p) Q w.
Proof.
  intros Hs HQ. unfold UsbReadPayload, packet_size. apply wp_bind, wp_gets.
  destruct (Z.eqb_spec (usb_get_max_packet_size h (w_env w)) 0); [done|].
  destruct (negb _); [done|]. destruct (_ <? _)%Z; [done|]. apply wp_usb_read. auto.
Qed.

Lemma wp_usb_read_host t x w :
  ADB_HOST = true -> t_type x = kTransportUsb -> (forall e, usb_get_max_packet_size (t_usb x) e <> 0%Z) ->
  w_transports w !! t = Some x -> (t_max_payload x <= MAX_PAYLOAD)%Z -> wp (usb_remote_read_host t) (read_post x) w.
Proof.
  intros Hb Ht Hs Hx Hmax. unfold usb_remote_read_host. apply wp_bind. eapply wp_load_transport; [exact Hx|].
  apply wp_bind, wp_UsbReadMessage. intros e [m|] Hm; [|by apply wp_ret]. specialize (Hm m eq_refl).
  apply wp_bind. eapply wp_load_transport; [exact Hx|].
  assert (Herr : forall e' p, wp (usb_err_msg p t) (read_post x) (set_w_env e' w)) by (intros; by eapply wp_usb_err).
  destruct (check_header _ _) eqn:Hh; cbn [negb]; [|apply Herr]. destruct (_ && _); [apply Herr|].
  apply wp_bind.
  assert (Hrest : forall e' bs, wp (let p := with_data bs (headed m) in
      if negb (Zlen bs =? data_length m)%Z then usb_err_msg p t else
      if negb (check_data p) then usb_err_msg p t else ret (Some p)) (read_post x) (set_w_env e' w)).
  { intros e' bs. cbv zeta. destruct (Z.eqb_spec (Zlen bs) (data_length m)) as [Hl|]; cbn [negb]; [|apply Herr].
    destruct (check_data _) eqn:Hc; cbn [negb]; [|apply Herr]. apply wp_ret. left. by apply sound_read. }
  destruct (_ =? 0)%Z; [by apply wp_ret|]. apply wp_UsbReadPayload; [apply Hs|]. intros e' [bs|]; [|by apply wp_ret].
  apply Hrest.
Qed.

(** C30: Whatever bytes arrive, reading from a device never goes out of bounds
    and gives only packets whose fields are 32-bit words, whose payload has the
    length the header announces, at most what was agreed, and whose magic and sum
    are right; over USB the server may also get a packet marked to be skipped. *)
Theorem read_from_remote_typed t x w :
  w_transports w !! t = Some x -> t_type x = kTransportUsb \/ t_type x = kTransportLocal ->
  (t_max_payload x <= MAX_PAYLOAD)%Z -> (forall e, usb_get_max_packet_size (t_usb x) e <> 0%Z) ->
  wp (read_from_remote t) (fun r _ => forall p, r = Some p ->
    packet_ok p /\ check_header p (t_max_payload x) = true /\ check_data p = true \/
    ADB_HOST = true /\ t_type x = kTransportUsb /\ command (msg p) = 0%Z) w.
Proof.
  intros Hx Ht Hmax Hs. assert (wp (read_from_remote t) (read_post x) w) as H.
  { unfold read_from_remote. apply wp_bind. eapply wp_load_transport; [exact Hx|].
    destruct Ht as [Ht|Ht]; rewrite Ht; [|by apply wp_local_read].
    destruct ADB_HOST eqn:Hb; [by apply wp_usb_read_host|by apply wp_usb_read_device]. }
  eapply wp_mono; [exact H|]. intros [p|] w' Hp q Hq; [|done]. by injection Hq as <-.
Qed.

End Reading.

(** ** The writing thread *)

(** What a queue of packets puts on the wire: nothing until the SYNC with the
    transport's token, then every packet up to the SYNC that ends it. *)
Fixpoint wire_of (token : Z) (active : bool) (queue : list apacket) : list apacket :=
  match queue with
  | [] => []
  | p :: rest =>
      if (command (msg p) =? A_SYNC)%Z then
        if (arg0 (msg p) =? 0)%Z then [] else wire_of token (active || (arg1 (msg p) =? token)%Z) rest
      else (if active then [p] else []) ++ wire_of token active rest
  end.

(** The pipe at [pfd] holds [queue] and is closed after it. *)
Class PipeQueue (E : Type) {K : Kernel E} (pfd : Z) (queue : E -> list apacket) (tx : E -> bytes) := {
  pipe_take p rest e : queue e = p :: rest ->
    exists e', pipe_get pfd e = (Some p, e') /\ queue e' = rest /\ tx e' = tx e;
  pipe_none e : queue e = [] -> exists e', pipe_get pfd e = (None, e') /\ tx e' = tx e;
  pipe_write fd b e r e' : adb_write fd b e = (r, e') -> queue e' = queue e;
}.

Section Writing.
Context {E : Type} {K : Kernel E} {B : Build} {U : Usb E}.
Context (sfd pfd : Z) (rx tx : E -> bytes) (queue : E -> list apacket).
Context {FS : FdStream E sfd rx tx (refusals sfd)} {PQ : PipeQueue E pfd queue tx}.
Implicit Types (w : world E) (p : apacket) (t : loc).

Definition on_link x : Prop := t_type x = kTransportLocal /\ t_sfd x = sfd /\ t_fd x = pfd.

(** What one turn does to a queue with a packet in it. *)
Lemma write_turn_done t x active p rest w :
  w_transports w !! t = Some x -> on_link x -> queue (w_env w) = p :: rest ->
  exists w', write_transport_turn t active w = Done
      (if (command (msg p) =? A_SYNC)%Z then
         if (arg0 (msg p) =? 0)%Z then (Broke, active) else (GoOn, active || (arg1 (msg p) =? t_sync_token x)%Z)
       else (GoOn, active)) w' /\
    w_transports w' = w_transports w /\ queue (w_env w') = rest /\
    tx (w_env w') = tx (w_env w) ++
      (if negb (command (msg p) =? A_SYNC)%Z && active then packet_bytes p else []).
Proof.
  intros Hx (Hty & Hsfd & Hpfd) Hq. destruct (pipe_take p rest (w_env w) Hq) as (e & Hg & Hqe & Hte).
  set (w1 := set_w_live (w_live w + 1) (set_w_env e w)).
  assert (Hread : read_packet pfd w = Done (Some p) w1) by (unfold read_packet; by rewrite Hg).
  assert (Hload : load_transport t w = Done x w) by (unfold load_transport; by rewrite Hx).
  assert (Hload1 : load_transport t w1 = Done x w1) by (unfold load_transport, w1; cbn; by rewrite Hx).
  unfold write_transport_turn, bind at 1. rewrite Hload. cbv beta iota. unfold bind at 1. rewrite Hpfd, Hread. cbv beta iota.
  destruct (command (msg p) =? A_SYNC)%Z; cbn [negb andb].
  - unfold bind at 1. rewrite Hload1. cbv beta iota. unfold bind, put_apacket, modify, ret.
    eexists. split; [by destruct (arg0 (msg p) =? 0)%Z|]. cbn. by rewrite app_nil_r.
  - destruct active; cbn [negb].
    + unfold bind at 1, Write, bind at 1. rewrite Hload1. cbv beta iota. rewrite Hty.
      destruct (local_write_done sfd rx tx t x p w1 Hx Hsfd) as (e2 & Hw & Ht2 & _ & Hk). rewrite Hw.
      unfold bind, put_apacket, modify, ret. eexists. split; [done|]. cbn. split; [done|]. split; [|by rewrite Ht2; cbn; rewrite Hte].
      apply (Hk (fun e => queue e = rest)); [|done]. intros b e0 r e' Hw0 Hq0. by rewrite (pipe_write _ _ _ _ _ Hw0).
    + unfold bind, put_apacket, modify, ret. eexists. split; [done|]. cbn. by rewrite app_nil_r.
Qed.

Lemma write_loop_done fuel t x active w :
  w_transports w !! t = Some x -> on_link x -> length (queue (w_env w)) < fuel ->
  exists w', write_transport_loop fuel t active w = Done tt w' /\ w_transports w' = w_transports w /\
    tx (w_env w') = tx (w_env w) ++ concat (map packet_bytes (wire_of (t_sync_token x) active (queue (w_env w)))).
Proof.
  revert active w. induction fuel as [|f IH]; intros active w Hx Hl Hf; [lia|]. cbn [write_transport_loop].
  destruct (queue (w_env w)) as [|p rest] eqn:Hq.
  - destruct (pipe_none (w_env w) Hq) as (e & Hg & Ht). destruct Hl as (_ & _ & Hpfd).
    unfold bind at 1, write_transport_turn, bind at 1, load_transport. rewrite Hx. cbv beta iota.
    unfold bind at 1, read_packet. rewrite Hpfd, Hg. eexists. split; [reflexivity|]. cbn. by rewrite app_nil_r.
  - destruct (write_turn_done t x active p rest w Hx Hl Hq) as (w1 & Hw & Ht1 & Hq1 & Htx1).
    assert (Hx1 : w_transports w1 !! t = Some x) by (by rewrite Ht1).
    unfold bind at 1. rewrite Hw. cbn [wire_of]. cbn [length] in Hf.
    destruct (command (msg p) =? A_SYNC)%Z; cbn [negb andb] in Htx1; rewrite ?app_nil_r in Htx1.
    + destruct (arg0 (msg p) =? 0)%Z; [by exists w1; cbn; rewrite app_nil_r|].
      destruct (IH (active || (arg1 (msg p) =? t_sync_token x)%Z) w1) as (w2 & H2 & Ht2 & Htx2); [done|done|by rewrite Hq1; lia|].
      exists w2. rewrite Htx2, Htx1, Hq1. split_and!; [done|congruence|done].
    + destruct (IH active w1) as (w2 & H2 & Ht2 & Htx2); [done|done|by rewrite Hq1; lia|].
      exists w2. rewrite Htx2, Htx1, Hq1. split_and!; [done|congruence|]. destruct active; cbn; by rewrite <- ?app_assoc.
Qed.


End Writing.

(** ** A link: a stream in both directions, and a queue of packets *)

Record link := { lk_wire : wire; lk_queue : list apacket }.

Definition set_lk_wire (v : wire) (x : link) : link := {| lk_wire := v; lk_queue := lk_queue x |}.

#[export] Instance link_ops : FdOps link := {
  adb_read fd n e := let '(r, v) := adb_read fd n (lk_wire e) in (r, set_lk_wire v e);
  adb_write fd b e := let '(r, v) := adb_write fd b (lk_wire e) in (r, set_lk_wire v e);
  adb_shutdown fd e := set_lk_wire (adb_shutdown fd (lk_wire e)) e;
  strerror e := str "error";
}.

#[export] Instance link_kernel : Kernel link := {
  refusals fd e := length (wire_plan (lk_wire e));
  pipe_put fd p e := (true, e);
  pipe_get fd e := match lk_queue e with
                   | [] => (None, e)
                   | p :: rest => (Some p, {| lk_wire := lk_wire e; lk_queue := rest |})
                   end;
}.

(** It has no USB device. *)
#[export] Instance link_usb : Usb link := {|
  usb_get_max_packet_size _ _ := 512%Z; usb_read _ _ e := (None, e); usb_write _ _ e := (false, e) |}.

Definition link_rx (e : link) : bytes := wire_in (lk_wire e).
Definition link_tx (e : link) : bytes := wire_tx (lk_wire e).

#[export] Instance link_stream fd : FdStream link fd link_rx link_tx (refusals fd).
Proof.
  destruct (wire_stream fd) as [Hr Hw]. split.
  - intros n w Hn. destruct (Hr n (lk_wire w) Hn) as (bs & v & Hread & H). exists bs, (set_lk_wire v w).
    split; [|exact H]. cbn [adb_read link_kernel kernel_fd_ops link_ops]. by rewrite Hread.
  - intros b w Hb. destruct (Hw b (lk_wire w) Hb) as [(n & v & Hwr & H)|(v & Hwr & H)]; [left; exists n|right];
      exists (set_lk_wire v w); (split; [cbn [adb_write link_kernel kernel_fd_ops link_ops]; by rewrite Hwr|exact H]).
Qed.

#[export] Instance link_pipe fd : PipeQueue link fd lk_queue link_tx.
Proof.
  split.
  - intros p rest e Hq. cbn. rewrite Hq. by eexists.
  - intros e Hq. cbn. rewrite Hq. by eexists.
  - intros fd' b e r e' Hw. cbn [adb_write link_kernel kernel_fd_ops link_ops] in Hw.
    destruct (adb_write fd' b (lk_wire e)) as [r' v]. by injection Hw as _ <-.
Qed.

(** ** Witnesses *)

Section Witnesses.
#[local] Instance here : Build := server_build.

Definition link_env (rx : list bytes) (plan : list nat) (queue : list apacket) : link :=
  {| lk_wire := {| wire_rx := rx; wire_tx := []; wire_plan := plan |}; lk_queue := queue |}.

(** The sender's first write is short, the second is refused. *)
Definition sender : world link := idle_world false [] one_transport (link_env [] [3; 0] []).
Definition small_packet : apacket := mk_packet A_WRTE 1 2 (str "hi").
(** The bytes arrive in two pieces, with the start of more. *)
Definition receiver : world link :=
  idle_world false [] one_transport
    (link_env [take 5 (packet_bytes (seal_packet small_packet)); drop 5 (packet_bytes (seal_packet small_packet)) ++ str "WR"] [] []).

Lemma small_packet_ok : packet_ok small_packet.
Proof. unfold packet_ok, message_ok. split_and!; vm_compute; first [reflexivity|discriminate]. Qed.

Lemma wire_roundtrip_witness :
  exists wa', local_remote_write (seal_packet small_packet) 1 sender = Done true wa' /\
    forall out post, link_tx (w_env wa') = link_tx (w_env sender) ++ out -> link_rx (w_env receiver) = out ++ post ->
      exists wb', local_remote_read 1 receiver = Done (Some (received (seal_packet small_packet))) wb' /\
        link_rx (w_env wb') = post.
Proof.
  apply (wire_roundtrip 13 13 link_rx link_tx link_rx link_tx 1 1 demo_transport demo_transport);
    [vm_compute; reflexivity|done|vm_compute; reflexivity|done|apply small_packet_ok|by vm_compute].
Defined.

(** A read over USB of a header that was damaged on the way. *)
Definition usb_transport : atransport := set_t_type kTransportUsb (set_t_usb (Some 13%Z) demo_transport).
Definition usb_world : world script :=
  idle_world false [] {[ 1%positive := usb_transport ]}
    {| sc_reads := {[ 13%Z := [RdOk (NUL :: tail (packet_bytes (seal_packet (mk_packet A_CNXN 1 2 []))))] ]};
       sc_writes := ∅; sc_out := ∅; sc_pipes := ∅ |}.

#[local] Instance host_usb_laws : UsbLaws script.
Proof. by split. Qed.

Lemma read_from_remote_typed_witness :
  (exists p w', read_from_remote 1 usb_world = Done (Some p) w' /\ command (msg p) = 0%Z) /\
  wp (read_from_remote 1) (fun r _ => forall p, r = Some p ->
    packet_ok p /\ check_header p (t_max_payload usb_transport) = true /\ check_data p = true \/
    ADB_HOST = true /\ t_type usb_transport = kTransportUsb /\ command (msg p) = 0%Z) usb_world.
Proof.
  split; [eexists; eexists; split; vm_compute; reflexivity|].
  apply (read_from_remote_typed 1 usb_transport usb_world); [vm_compute; reflexivity|by left|by vm_compute|done].
Defined.

(** A stale SYNC, a packet that is dropped, the SYNC, a packet that is sent,
    the SYNC that ends the thread, and a packet that comes too late. *)
Definition busy_queue : list apacket :=
  [sync_packet 1 7; small_packet; sync_packet 1 1; small_packet; sync_packet 0 0; small_packet].
Definition busy_world : world link := idle_world false [] one_transport (link_env [] [] busy_queue).


End Witnesses.
