(* ===== verification/Handshake.v ===== *)
(** * Two peers get online

    A server and a device that requires authentication, each with its own
    program and world, and the wires between them.  When the server has a key
    that the device knows, both get online, whatever other keys it tries first. *)

From S2P Require Import Prelude LibBase Packet AdbIo FdEvent Transport World SmartText.
From S2P Require Import Sockets SocketInv SocketIo SocketSpec SocketClose SocketFlow Listeners ListenerInv.
From S2P Require Import TransportOps Registration Connection TransportIo ConnectionInv Demo ConnectionFlow PacketFlow.
From S2P Require Import SocketProps ConnectionProps TransportWire.

(** ** The environment *)

(** The pipes to the threads take every packet, the random device works, and
    keys sign. *)
Class Working (E : Type) {K : Kernel E} {CR : Crypto E} := {
  pipe_open fd p (e : E) : exists e', pipe_put fd p e = (true, e');
  urandom_ok old (e : E) : exists token e', fread_urandom old e = (true, token, e') /\ Zlen token = TOKEN_SIZE;
  sign_ok token key (e : E) : exists a sig, RSA_sign token key e = Some (a :: sig);
}.

Section Peer.
Context {E : Type} {K : Kernel E} {B : Build} {BN : Banner} {LB : LibBase} {LL : LibBaseLaws LB} {SO : SetOrder}.
Context {CR : Crypto E} {SV : Services E} {OS : Os E} {WK : Working E}.
Context (Hbanner : (Zlen connection_string <= MAX_PAYLOAD_V1)%Z).
Implicit Types (w : world E) (t : loc) (p : apacket).

(** A process with nothing connected yet. *)
Record idle t x w : Prop := {
  id_transport : w_transports w !! t = Some x;
  id_disconnects : t_disconnects x = [];
  id_local : w_local w = [];
  id_trackers : w_trackers w = [];
  id_lists : lists_ok w;
}.

(** [w'] is idle too, with [x'] at [t], the packets [ps] sent and the same keys. *)
Record next t x' (ps : list apacket) w w' : Prop := {
  nx_idle : idle t x' w';
  nx_sent : w_sent w' = w_sent w ++ map (pair t) ps;
  nx_required : au_required (w_auth w') = au_required (w_auth w);
  nx_keys : g_keys (w_globals w') = g_keys (w_globals w);
}.

Lemma next_refl t x w : idle t x w -> next t x [] w w.
Proof. intros I. constructor; [done|cbn; by rewrite app_nil_r|done..]. Qed.

Lemma next_trans t x1 x2 ps qs w w1 w2 : next t x1 ps w w1 -> next t x2 qs w1 w2 -> next t x2 (ps ++ qs) w w2.
Proof. intros [_ S1 R1 K1] [I S2 R2 K2]. constructor; [done|by rewrite S2, S1, map_app, app_assoc|congruence..]. Qed.

Lemma idle_at t x x' w : idle t x w -> t_disconnects x' = [] -> next t x' [] w (at_transport t x' w).
Proof.
  intros [Hx Hd Hl Ht Hp] Hd'. constructor; [|cbn; by rewrite app_nil_r|done..].
  constructor; cbn; try done; [apply lookup_insert_eq|]. intros u Hu. cbn.
  destruct (decide (u = t)) as [->|Hne]; [by rewrite lookup_insert_eq|]. rewrite lookup_insert_ne by done. by apply Hp.
Qed.

Lemma idle_after t x e n ps w : idle t x w -> next t x ps w (after e n (map (pair t) ps) w).
Proof. intros [Hx Hd Hl Ht Hp]. constructor; [by constructor|done..]. Qed.

Lemma idle_live t x n w : idle t x w -> next t x [] w (set_w_live n w).
Proof. intros [Hx Hd Hl Ht Hp]. constructor; [by constructor|cbn; by rewrite app_nil_r|done..]. Qed.

(** ** Steps that always succeed *)

Lemma twp_load_transport t x w (Q : atransport -> world E -> Prop) :
  w_transports w !! t = Some x -> Q x w -> twp (load_transport t) Q w.
Proof. unfold twp, load_transport. by intros ->. Qed.

Lemma twp_upd_transport t x f w (Q : unit -> world E -> Prop) :
  w_transports w !! t = Some x -> Q tt (at_transport t (f x) w) -> twp (upd_transport t f) Q w.
Proof. intros Hx HQ. unfold upd_transport. apply twp_bind. eapply twp_load_transport; [done|]. by apply twp_modify. Qed.

Lemma twp_send p t x w (Q : unit -> world E -> Prop) :
  idle t x w -> (forall w', next t x [seal_packet p] w w' -> Q tt w') -> twp (send_packet p (Some t)) Q w.
Proof.
  intros I HQ. unfold send_packet. apply twp_bind. eapply twp_load_transport; [apply I|]. apply twp_bind.
  destruct (pipe_open (t_transport_socket x) (seal_packet p) (w_env w)) as [e He].
  unfold twp at 1, write_packet. rewrite He. cbn [negb]. apply twp_modify, HQ.
  apply (idle_after t x e (w_live w - 1) [seal_packet p] w I).
Qed.

Lemma twp_send_new p t x w (Q : unit -> world E -> Prop) :
  idle t x w -> (forall w', next t x [seal_packet p] w w' -> Q tt w') -> twp (send_new p t) Q w.
Proof.
  intros I HQ. unfold send_new, get_apacket. apply twp_bind, twp_bind, twp_modify, twp_ret.
  eapply twp_send; [by apply (nx_idle _ _ _ _ _ (idle_live t x _ w I))|]. intros w' N. apply HQ.
  eapply (next_trans t x x []); [by apply idle_live|exact N].
Qed.

Lemma twp_send_connect t x w (Q : unit -> world E -> Prop) :
  idle t x w -> (forall w', next t x [seal_packet (connect_packet x)] w w' -> Q tt w') -> twp (send_connect t) Q w.
Proof.
  intros I HQ. unfold send_connect, get_apacket. apply twp_bind, twp_bind, twp_modify, twp_ret, twp_bind.
  eapply twp_load_transport; [apply I|]. destruct (Z.ltb_spec MAX_PAYLOAD_V1 (Zlen connection_string)); [lia|].
  eapply twp_send; [by apply (nx_idle _ _ _ _ _ (idle_live t x _ w I))|]. intros w' N. apply HQ.
  eapply (next_trans t x x []); [by apply idle_live|exact N].
Qed.

Lemma twp_put p t x w (Q : unit -> world E -> Prop) :
  idle t x w -> (forall w', next t x [] w w' -> Q tt w') -> twp (put_apacket p) Q w.
Proof. intros I HQ. unfold put_apacket. apply twp_modify, HQ. by apply idle_live. Qed.

Lemma twp_go_offline t x w (Q : unit -> world E -> Prop) :
  idle t x w -> (forall w', next t (offline_transport x) [] w w' -> Q tt w') -> twp (go_offline t) Q w.
Proof.
  intros I HQ. unfold go_offline. apply twp_bind. eapply twp_upd_transport; [apply I|].
  pose proof (idle_at t x (set_t_connection_state kCsOffline x) w I (id_disconnects _ _ _ I)) as N1. set (w1 := at_transport _ _ w) in *.
  unfold handle_offline. apply twp_bind. eapply twp_upd_transport; [apply N1|].
  pose proof (idle_at t _ (set_t_online false (set_t_connection_state kCsOffline x)) w1 (nx_idle _ _ _ _ _ N1) (id_disconnects _ _ _ I)) as N2.
  set (w2 := at_transport _ _ w1) in *. pose proof (nx_idle _ _ _ _ _ N2) as I2.
  apply twp_bind. unfold close_all_sockets. apply twp_bind, twp_get. unfold close_all_loop.
  assert (Hl : w_local w2 = []) by apply I2. rewrite Hl. cbn [length]. apply twp_bind, twp_get. rewrite Hl.
  apply twp_bind, twp_ret, twp_ret.
  unfold RunDisconnects. apply twp_bind. eapply twp_load_transport; [apply I2|]. rewrite (id_disconnects _ _ _ I2).
  apply twp_bind, twp_ret. eapply twp_upd_transport; [apply I2|]. apply HQ.
  eapply (next_trans _ _ _ [] []); [exact N1|]. eapply (next_trans _ _ _ [] []); [exact N2|]. by apply (idle_at t _ _ w2 I2).
Qed.

Lemma twp_all_transports fn (l : list loc) w (Q : bool -> world E -> Prop) :
  (forall t, t ∈ l -> is_Some (w_transports w !! t)) -> (forall b, Q b w) -> twp (all_transports fn l) Q w.
Proof.
  intros Hl HQ. induction l as [|t l IH]; cbn [all_transports]; [by apply twp_ret|].
  destruct (Hl t ltac:(by left)) as [x Hx]. apply twp_bind. eapply twp_load_transport; [exact Hx|].
  destruct (fn x); [|by apply twp_ret]. apply IH. intros u Hu. apply Hl. by right.
Qed.

Lemma twp_update_transports t x w (Q : unit -> world E -> Prop) :
  idle t x w -> (forall w', next t x [] w w' -> Q tt w') -> twp update_transports Q w.
Proof.
  intros I HQ. unfold update_transports. destruct ADB_HOST; [|by apply twp_ret, HQ, next_refl].
  assert (Hrest : forall r : bool, twp (upd_globals (set_g_transports_ready r) ;;;
      let* w := get in when (g_transports_ready (w_globals w) && g_device_scan_complete (w_globals w)) (run_env notify_init_cv))
    (fun _ w' => next t x [] w w') w).
  { intros r. apply twp_bind, twp_modify, twp_bind, twp_get. destruct I as [Hx Hd Hl Ht Hp].
    destruct (_ && _); cbn [when]; (constructor; [by constructor|cbn; by rewrite app_nil_r|done..]). }
  apply twp_bind. eapply twp_mono with (P := fun _ w' => next t x [] w w').
  - unfold update_transport_status, iterate_transports. apply twp_bind, twp_bind, twp_get, twp_bind.
    apply twp_all_transports; [intros u Hu; apply (id_lists _ _ _ I); by left|]. intros [|].
    + apply twp_all_transports; [intros u Hu; apply (id_lists _ _ _ I); by right|]. exact Hrest.
    + apply twp_ret, Hrest.
  - intros [] w1 N1. apply twp_bind. change (twp (list_transports_text false) ?Q w1) with (Q (list_transports no_perm_short_text
      (map snd (transport_entries w1)) false) w1). cbv beta. apply twp_bind, twp_get.
    rewrite (id_trackers _ _ _ (nx_idle _ _ _ _ _ N1)). by apply twp_ret, HQ.
Qed.

Lemma idle_env t x e w : idle t x w -> next t x [] w (set_w_env e w).
Proof. intros [Hx Hd Hl Ht Hp]. constructor; [by constructor|cbn; by rewrite app_nil_r|done..]. Qed.

Lemma next_live t x ps n w w' : next t x ps w w' -> next t x ps w (set_w_live n w').
Proof. intros N. rewrite <- (app_nil_r ps). eapply next_trans; [exact N|]. by apply idle_live, N. Qed.

(** After the packet is handled it is freed. *)
Lemma twp_freed (R : world E -> Prop) p (m : M (world E) unit) w :
  (forall n w', R w' -> R (set_w_live n w')) -> twp m (fun _ w' => R w') w ->
  twp (let* handed := (m ;;; ret false) in when (negb handed) (put_apacket p)) (fun _ w' => R w') w.
Proof.
  intros HR Hm. apply twp_bind, twp_bind. eapply twp_mono; [exact Hm|]. cbv beta. intros [] w1 N1. apply twp_ret. cbn [negb when].
  unfold put_apacket. apply twp_modify. by apply HR.
Qed.

(** ** The device *)

Lemma twp_auth_request t x w (Q : unit -> world E -> Prop) :
  idle t x w ->
  (forall token w', Zlen token = TOKEN_SIZE ->
     next t (set_t_token token x) [seal_packet (mk_packet A_AUTH ADB_AUTH_TOKEN 0 token)] w w' -> Q tt w') ->
  twp (send_auth_request t) Q w.
Proof.
  intros I HQ. unfold send_auth_request, adbd_auth_generate_token. apply twp_bind, twp_bind.
  eapply twp_load_transport; [apply I|]. destruct (urandom_ok (t_token x) (w_env w)) as (token & e & Hu & Hl).
  apply twp_bind. unfold twp at 1, on_env. rewrite Hu. set (w1 := set_w_env e w).
  pose proof (idle_env t x e w I) as N1. fold w1 in N1. apply twp_bind. eapply twp_upd_transport; [apply N1|]. apply twp_ret. cbn [negb].
  pose proof (idle_at t x (set_t_token token x) w1 (nx_idle _ _ _ _ _ N1) (id_disconnects _ _ _ I)) as N2.
  apply twp_bind. eapply twp_load_transport; [apply N2|]. eapply twp_send_new; [apply N2|]. intros w' N3.
  apply (HQ token); [done|]. eapply (next_trans _ _ _ [] _); [exact N1|]. eapply (next_trans _ _ _ [] _); [exact N2|exact N3].
Qed.

(** The device has sent [token] and waits for its signature. *)
Definition asks t token w w' : Prop :=
  exists x', next t x' [seal_packet (mk_packet A_AUTH ADB_AUTH_TOKEN 0 token)] w w' /\ t_token x' = token /\ Zlen token = TOKEN_SIZE.

(** A banner is taken: what follows starts from it. *)
Lemma twp_banner t x p w (m : M (world E) unit) (Q : unit -> world E -> Prop) :
  idle t x w ->
  (forall x' w', next t x' [] w w' -> t_connection_state x' = announced (payload p) -> t_keys x' = t_keys x -> twp m Q w') ->
  twp (upd_transport t (update_version (arg0 (msg p)) (arg1 (msg p))) ;;; upd_transport t (parse_banner (payload p)) ;;; m) Q w.
Proof.
  intros I HQ. apply twp_bind. eapply twp_upd_transport; [apply I|]. set (x1 := update_version _ _ x).
  pose proof (idle_at t x x1 w I (id_disconnects _ _ _ I)) as N1. apply twp_bind. eapply twp_upd_transport; [apply N1|].
  destruct (parse_banner_keeps (payload p) x1) as (Hd & _ & Hs).
  eapply HQ; [|exact Hs|].
  - eapply (next_trans _ _ _ [] []); [exact N1|]. apply (idle_at t x1); [apply N1|]. rewrite Hd. apply (id_disconnects _ _ _ I).
  - unfold parse_banner. destruct (Split _ _) as [|a [|b [|c l]]]; try done. cbn.
    assert (Hk : forall l y, t_keys (fold_left parse_prop l y) = t_keys y).
    { clear. induction l as [|a l IH]; intros y; [done|]. cbn [fold_left]. rewrite IH. unfold parse_prop.
      destruct a; [done|]. destruct (Split _ _) as [|k [|v [|? ?]]]; try done. repeat case_bool_decide; done. }
    by rewrite Hk.
Qed.

Lemma twp_new_connection t x p w (Q : unit -> world E -> Prop) :
  idle t x w ->
  (forall x' w', next t x' [] w w' -> t_connection_state x' = announced (payload p) -> t_keys x' = t_keys x ->
     twp (welcome t ;;; update_transports) Q w') ->
  twp (handle_new_connection t p) Q w.
Proof.
  intros I HQ. unfold handle_new_connection. apply twp_bind. eapply twp_load_transport; [apply I|].
  assert (Hrest : forall x0 w0, next t x0 [] w w0 -> t_keys x0 = t_keys x ->
    twp (upd_transport t (update_version (arg0 (msg p)) (arg1 (msg p))) ;;;
         upd_transport t (parse_banner (payload p)) ;;; welcome t ;;; update_transports) Q w0).
  { intros x0 w0 N0 Hk0. eapply twp_banner; [apply N0|]. intros x' w' N' Hs Hk. eapply HQ; [|exact Hs|congruence].
    by eapply (next_trans _ _ _ [] []). }
  apply twp_bind. case_bool_decide; cbn [negb when].
  - apply twp_ret. eapply Hrest; [by apply next_refl|done].
  - eapply twp_go_offline; [exact I|]. intros w0 N0. by eapply Hrest.
Qed.

Lemma asks_live t token n w w' : asks t token w w' -> asks t token w (set_w_live n w').
Proof. intros (x' & N & H). exists x'. split; [by apply next_live|done]. Qed.

Lemma twp_asks t x w0 w : idle t x w -> next t x [] w0 w ->
  twp (send_auth_request t) (fun _ w' => exists token, asks t token w0 w') w.
Proof.
  intros I N. eapply twp_auth_request; [exact I|]. intros token w' Hl N'. exists token, (set_t_token token x). split; [|done].
  eapply (next_trans _ _ _ []); [exact N|exact N'].
Qed.

Ltac dispatch H := unfold handle_packet; cbv zeta; rewrite H;
  cbn [Z.eqb Pos.eqb A_SYNC A_CNXN A_AUTH A_OPEN A_OKAY A_CLSE A_WRTE].

Lemma device_greets t x p w :
  ADB_HOST = false -> au_required (w_auth w) = true -> idle t x w -> command (msg p) = A_CNXN ->
  twp (handle_packet p t) (fun _ w' => exists token, asks t token w w') w.
Proof.
  intros Hb Hreq I Hc. dispatch Hc. apply twp_freed; [intros n w' (token & Ha); exists token; by apply asks_live|].
  eapply twp_new_connection; [exact I|]. intros x' w1 N1 _ _. unfold welcome, update_transports. rewrite Hb.
  apply twp_bind, twp_bind, twp_get. rewrite (nx_required _ _ _ _ _ N1), Hreq.
  eapply twp_mono; [eapply twp_asks; [apply N1|exact N1]|]. intros [] w' Ha. by apply twp_ret.
Qed.

Lemma device_skips t x p w : idle t x w -> command (msg p) = 0%Z ->
  twp (handle_packet p t) (fun _ w' => next t x [] w w') w.
Proof.
  intros I Hc. dispatch Hc. apply twp_bind, twp_bind. eapply twp_load_transport; [apply I|]. apply twp_ret. cbn [negb when].
  eapply twp_put; [exact I|]. done.
Qed.

(** The device lets the server in. *)
Definition lets_in t w w' : Prop :=
  exists x' y, next t x' [seal_packet (connect_packet y)] w w' /\ t_online x' = true.

Lemma device_checks t x p w :
  ADB_HOST = false -> idle t x w -> command (msg p) = A_AUTH -> arg0 (msg p) = ADB_AUTH_SIGNATURE ->
  twp (handle_packet p t) (fun _ w' =>
    if adbd_auth_verify (t_token x) (payload p) (w_env w) then lets_in t w w' else exists token, asks t token w w') w.
Proof.
  intros Hb I Hc Ha. dispatch Hc. apply twp_freed.
  { intros n w'. destruct (adbd_auth_verify _ _ _).
    - intros (x' & y & N & Ho). exists x', y. split; [by apply next_live|done].
    - intros (token & A). exists token. by apply asks_live. }
  unfold handle_auth. rewrite Hb, Ha. cbn [negb andb Z.eqb Pos.eqb ADB_AUTH_TOKEN ADB_AUTH_SIGNATURE].
  unfold handle_signature. apply twp_bind. eapply twp_load_transport; [apply I|]. apply twp_bind, twp_get.
  destruct (adbd_auth_verify _ _ _).
  - unfold adbd_auth_verified, handle_online. apply twp_bind, twp_bind. eapply twp_upd_transport; [apply I|].
    pose proof (idle_at t x (set_t_online true x) w I (id_disconnects _ _ _ I)) as N1.
    eapply twp_send_connect; [apply N1|]. intros w2 N2. eapply twp_upd_transport; [apply N2|].
    eexists _, _. split; [|].
    + eapply (next_trans _ _ _ []); [exact N1|]. rewrite <- (app_nil_r [_]). eapply next_trans; [exact N2|].
      apply (idle_at t (set_t_online true x)); [apply N2|apply (id_disconnects _ _ _ I)].
    + done.
  - apply twp_bind. eapply twp_upd_transport; [apply I|]. set (x1 := set_t_failed_auth_attempts _ x).
    pose proof (idle_at t x x1 w I (id_disconnects _ _ _ I)) as N1. eapply twp_asks; [apply N1|exact N1].
Qed.

(** ** The server *)

Lemma server_starts t x p w :
  ADB_HOST = true -> idle t x w -> command (msg p) = A_SYNC -> arg0 (msg p) <> 0%Z ->
  twp (handle_packet p t) (fun _ w' =>
    next t x [seal_packet p; seal_packet fresh_apacket; seal_packet (connect_packet x)] w w') w.
Proof.
  intros Hb I Hc Ha. dispatch Hc. unfold handle_sync. apply Z.eqb_neq in Ha. rewrite Ha, Hb. cbn [negb when].
  apply twp_bind. eapply twp_send; [exact I|]. intros w1 N1. unfold SendConnectOnHost. apply twp_bind.
  eapply twp_send_new; [apply N1|]. intros w2 N2. eapply twp_send_connect; [apply N2|]. intros w3 N3.
  eapply (next_trans _ _ _ [_] [_; _]); [exact N1|]. eapply (next_trans _ _ _ [_] [_]); [exact N2|exact N3].
Qed.

(** A device only starts its writing thread. *)
Lemma device_starts t x p w :
  ADB_HOST = false -> idle t x w -> command (msg p) = A_SYNC -> arg0 (msg p) <> 0%Z ->
  twp (handle_packet p t) (fun _ w' => next t x [seal_packet p] w w') w.
Proof.
  intros Hb I Hc Ha. dispatch Hc. unfold handle_sync. apply Z.eqb_neq in Ha. rewrite Ha, Hb. cbn [negb when].
  apply twp_bind. eapply twp_send; [exact I|]. intros w1 N1. by apply twp_ret.
Qed.

Lemma server_signs t x p key rest w :
  ADB_HOST = true -> idle t x w -> command (msg p) = A_AUTH -> arg0 (msg p) = ADB_AUTH_TOKEN ->
  Zlen (payload p) = TOKEN_SIZE -> keys_of x w = Some key :: rest ->
  twp (handle_packet p t) (fun _ w' => exists sig e x',
    RSA_sign (payload p) key e = Some sig /\ t_keys x' = rest /\
    next t x' [seal_packet (mk_packet A_AUTH ADB_AUTH_SIGNATURE 0 sig)] w w') w.
Proof.
  intros Hb I Hc Ha Hl Hk. dispatch Hc. apply twp_freed.
  { intros n w' (sig & e & x' & H1 & H2 & N). exists sig, e, x'. split_and!; [done..|by apply next_live]. }
  unfold handle_auth. rewrite Hb, Ha. cbn [negb andb Z.eqb Pos.eqb ADB_AUTH_TOKEN].
  unfold handle_token. apply twp_bind. eapply twp_load_transport; [apply I|]. apply twp_bind.
  assert (Hsign : forall x0 w0, next t x0 [] w w0 -> t_keys x0 = t_keys x ->
    twp (send_auth_response (payload p) t) (fun _ w' => exists sig e x',
      RSA_sign (payload p) key e = Some sig /\ t_keys x' = rest /\
      next t x' [seal_packet (mk_packet A_AUTH ADB_AUTH_SIGNATURE 0 sig)] w w') w0).
  { intros x0 w0 N0 Hk0. assert (Hks : keys_of x0 w0 = Some key :: rest).
    { rewrite <- Hk. unfold keys_of, adb_auth_get_private_keys. by rewrite Hk0, (nx_keys _ _ _ _ _ N0). }
    unfold send_auth_response, NextKey. apply twp_bind, twp_bind. eapply twp_load_transport; [apply N0|].
    apply twp_bind, twp_get. fold (keys_of x0 w0). rewrite Hks. apply twp_bind. eapply twp_upd_transport; [apply N0|]. apply twp_ret.
    pose proof (idle_at t x0 (set_t_keys rest x0) w0 (nx_idle _ _ _ _ _ N0) (id_disconnects _ _ _ (nx_idle _ _ _ _ _ N0))) as N1.
    set (w1 := at_transport _ _ w0) in *. unfold get_apacket. apply twp_bind, twp_bind, twp_modify, twp_ret, twp_bind, twp_get.
    pose proof (idle_live t _ (w_live w1 + 1) w1 (nx_idle _ _ _ _ _ N1)) as N2. set (w2 := set_w_live _ w1) in *.
    unfold adb_auth_sign. rewrite Hl, Z.eqb_refl. cbn [negb].
    destruct (sign_ok (payload p) key (w_env w2)) as (a & sig & Hs). rewrite Hs.
    eapply twp_send; [apply N2|]. intros w3 N3. exists (a :: sig), (w_env w2), (set_t_keys rest x0). split_and!; [done|done|].
    eapply (next_trans _ _ _ []); [exact N0|]. eapply (next_trans _ _ _ []); [exact N1|]. by eapply (next_trans _ _ _ []). }
  case_bool_decide; cbn [when].
  - eapply twp_upd_transport; [apply I|]. eapply Hsign; [apply (idle_at t x); [exact I|apply (id_disconnects _ _ _ I)]|done].
  - apply twp_ret. eapply Hsign; [by apply next_refl|done].
Qed.

Lemma server_welcomes t x p w :
  ADB_HOST = true -> idle t x w -> command (msg p) = A_CNXN ->
  twp (handle_packet p t) (fun _ w' => exists x', next t x' [] w w' /\
    t_connection_state x' = announced (payload p) /\ t_online x' = true) w.
Proof.
  intros Hb I Hc. dispatch Hc. apply twp_freed.
  { intros n w' (x' & N & H). exists x'. split; [by apply next_live|done]. }
  eapply twp_new_connection; [exact I|]. intros x' w1 N1 Hs _. unfold welcome, handle_online. rewrite Hb.
  apply twp_bind. eapply twp_upd_transport; [apply N1|].
  pose proof (idle_at t x' (set_t_online true x') w1 (nx_idle _ _ _ _ _ N1) (id_disconnects _ _ _ (nx_idle _ _ _ _ _ N1))) as N2.
  eapply twp_update_transports; [apply N2|]. intros w3 N3. exists (set_t_online true x'). split; [|done].
  eapply (next_trans _ _ _ [] []); [exact N1|]. by eapply (next_trans _ _ _ [] []).
Qed.

End Peer.

(** ** The wires *)

Section Net.
Context {E : Type} {K : Kernel E} {LB : LibBase} {LL : LibBaseLaws LB} {SO : SetOrder}.
Context {CR : Crypto E} {SV : Services E} {OS : Os E} {WK : Working E}.
(** The two programs, the transport each has for the other, and the tokens of
    the SYNCs their reading threads begin with. *)
Context (BS BD : Build) (NS ND : Banner) (ts td : loc) (ks kd : Z).
Implicit Types (h d w : world E) (p : apacket) (t : loc).

Definition server_handles := handle_packet (B := BS) (BN := NS) (E := E).
Definition device_handles := handle_packet (B := BD) (BN := ND) (E := E).

(** The two processes, and how many packets each has taken from the other. *)
Record net := { n_server : world E; n_device : world E; n_down : nat; n_up : nat }.

(** What the writing thread puts on the wire. *)
Definition on_wire (k : Z) (w : world E) : list apacket := wire_of k false (map snd (w_sent w)).

Inductive net_step : net -> net -> Prop :=
| step_down h d i j p d' : on_wire ks h !! i = Some p -> device_handles (received p) td d = Done tt d' ->
    net_step {| n_server := h; n_device := d; n_down := i; n_up := j |}
             {| n_server := h; n_device := d'; n_down := S i; n_up := j |}
| step_up h d i j p h' : on_wire kd d !! j = Some p -> command (msg p) <> 0%Z ->
    server_handles (received p) ts h = Done tt h' ->
    net_step {| n_server := h; n_device := d; n_down := i; n_up := j |}
             {| n_server := h'; n_device := d; n_down := i; n_up := S j |}.

(** The device takes every signature by this key. *)
Definition key_known (key : loc) : Prop :=
  forall token sig (e e' : E), RSA_sign token key e = Some sig -> adbd_auth_verify token sig e' = true.

(** A peer that has started and sent the packets [ls]. *)
Record peer t k x ls w : Prop := {
  pr_idle : idle t x w;
  pr_sent : w_sent w = map (pair t) (seal_packet (sync_packet 1 k) :: ls);
  pr_plain : Forall (fun p => command (msg p) <> A_SYNC) ls;
}.

Lemma wire_of_plain k ls : Forall (fun p => command (msg p) <> A_SYNC) ls -> wire_of k true ls = ls.
Proof. induction 1 as [|p ls Hp _ IH]; [done|]. cbn [wire_of]. apply Z.eqb_neq in Hp. rewrite Hp. cbn. by rewrite IH. Qed.

Lemma peer_wire t k x ls w : peer t k x ls w -> on_wire k w = ls.
Proof.
  intros [_ Hs Hp]. unfold on_wire. rewrite Hs, map_map. cbn [map snd]. rewrite map_id. cbn. rewrite Z.eqb_refl. by apply wire_of_plain.
Qed.

Lemma peer_next t k x x' ls ps w w' :
  peer t k x ls w -> next t x' ps w w' -> Forall (fun p => command (msg p) <> A_SYNC) ps -> peer t k x' (ls ++ ps) w'.
Proof.
  intros [_ Hs Hp] [I Hs' _ _] Hps. constructor; [done| |by apply Forall_app].
  rewrite Hs', Hs, <- map_app. by rewrite <- app_comm_cons.
Qed.

Lemma payload_sent c a b bs : payload (received (seal_packet (mk_packet c a b bs))) = bs.
Proof. unfold payload. cbn. by rewrite Nat2Z.id, firstn_all. Qed.

Lemma lookup_last {A} (l : list A) a : (l ++ [a]) !! length l = Some a.
Proof. by rewrite lookup_app_r, Nat.sub_diag by lia. Qed.

Ltac plain := repeat (constructor; [done|]); constructor.

Context (HBS : ADB_HOST (Build := BS) = true) (HBD : ADB_HOST (Build := BD) = false).
Context (Hbs : (Zlen (connection_string (B := BS) (BN := NS)) <= MAX_PAYLOAD_V1)%Z).
Context (Hbd : (Zlen (connection_string (B := BD) (BN := ND)) <= MAX_PAYLOAD_V1)%Z).

(** Both are online. *)
Definition connected (n : net) : Prop :=
  conn (n_server n) ts = Some (announced (connection_string (B := BD) (BN := ND)), true) /\
  exists cs, conn (n_device n) td = Some (cs, true).

Definition token_packet (token : bytes) : apacket := seal_packet (mk_packet A_AUTH ADB_AUTH_TOKEN 0 token).

(** One round: the server signs, and the device lets it in or asks again. *)
Lemma one_round h d lh ld xh xd token key rest :
  peer ts ks xh lh h -> peer td kd xd (ld ++ [token_packet token]) d -> t_token xd = token ->
  Zlen token = TOKEN_SIZE -> keys_of xh h = Some key :: rest ->
  exists h' d' xh' p, let n' := {| n_server := h'; n_device := d'; n_down := S (length lh); n_up := S (length ld) |} in
    rtc net_step {| n_server := h; n_device := d; n_down := length lh; n_up := length ld |} n' /\
    peer ts ks xh' (lh ++ [p]) h' /\ t_keys xh' = rest /\
    ((exists xd' y, peer td kd xd' ((ld ++ [token_packet token]) ++ [seal_packet (connect_packet (B := BD) (BN := ND) y)]) d' /\ t_online xd' = true) \/
     (~ key_known key /\ exists xd' token', peer td kd xd' ((ld ++ [token_packet token]) ++ [token_packet token']) d' /\
        t_token xd' = token' /\ Zlen token' = TOKEN_SIZE)).
Proof.
  intros Ph Pd Ht Hl Hk.
  pose proof (server_signs (B := BS) (BN := NS) ts xh (received (token_packet token)) key rest h HBS (pr_idle _ _ _ _ _ Ph)
    eq_refl eq_refl) as Hs. unfold token_packet in Hs at 1 2 3. rewrite payload_sent in Hs.
  destruct (proj1 (twp_done _ _ _) (Hs Hl Hk)) as ([] & h' & Hh & sig & e & xh' & Hsig & Hrest & Nh). clear Hs.
  set (p := seal_packet (mk_packet A_AUTH ADB_AUTH_SIGNATURE 0 sig)) in *.
  assert (Ph' : peer ts ks xh' (lh ++ [p]) h') by (eapply peer_next; [exact Ph|exact Nh|plain]).
  pose proof (device_checks (B := BD) (BN := ND) Hbd td xd (received p) d HBD (pr_idle _ _ _ _ _ Pd) eq_refl eq_refl) as Hd.
  apply twp_done in Hd as ([] & d' & Hd & Hres). unfold p in Hres at 1. rewrite payload_sent, Ht in Hres.
  exists h', d', xh', p. cbv zeta. split_and!; [|done|done|].
  - eapply rtc_l; [|eapply rtc_once].
    + eapply step_up with (p := token_packet token); [by rewrite (peer_wire _ _ _ _ _ Pd), lookup_last|done|exact Hh].
    + eapply step_down with (p := p); [by rewrite (peer_wire _ _ _ _ _ Ph'), lookup_last|exact Hd].
  - destruct (adbd_auth_verify token sig (w_env d)) eqn:Hv.
    + left. destruct Hres as (xd' & y & N & Ho). exists xd', y. split; [|done]. eapply peer_next; [exact Pd|exact N|plain].
    + right. split; [intros Hkn; by rewrite (Hkn _ _ _ (w_env d) Hsig) in Hv|].
      destruct Hres as (token' & xd' & N & Ht' & Hl'). exists xd', token'. split; [|done]. eapply peer_next; [exact Pd|exact N|plain].
Qed.

Lemma peer_conn t k x ls w : peer t k x ls w -> conn w t = Some (t_connection_state x, t_online x).
Proof. intros P. apply conn_lookup, P. Qed.

Lemma rounds pre key post : key_known key -> forall h d lh ld xh xd token,
  peer ts ks xh lh h -> peer td kd xd (ld ++ [token_packet token]) d -> t_token xd = token ->
  Zlen token = TOKEN_SIZE -> keys_of xh h = map Some pre ++ Some key :: post ->
  exists n, rtc net_step {| n_server := h; n_device := d; n_down := length lh; n_up := length ld |} n /\ connected n.
Proof.
  intros Hkn. induction pre as [|k pre IH]; intros h d lh ld xh xd token Ph Pd Ht Hl Hk; cbn [map app] in Hk;
    destruct (one_round h d lh ld xh xd token _ _ Ph Pd Ht Hl Hk) as (h' & d' & xh' & p & Hsteps & Ph' & Hk' & Hres);
    destruct Hres as [(xd' & y & Pd' & Ho)|(Hno & xd' & token' & Pd' & Ht' & Hl')]; try done.
  1-2: pose proof (server_welcomes (B := BS) (BN := NS) ts xh' (received (seal_packet (connect_packet (B := BD) (BN := ND) y))) h'
      HBS (pr_idle _ _ _ _ _ Ph') eq_refl) as Hs; apply twp_done in Hs as ([] & h'' & Hh & x'' & N & Hst & Hon);
    exists {| n_server := h''; n_device := d'; n_down := S (length lh); n_up := S (S (length ld)) |}; (split; [|split]).
  - eapply rtc_r; [exact Hsteps|]. eapply step_up; [rewrite (peer_wire _ _ _ _ _ Pd')|..|exact Hh].
    2: done.
    replace (S (length ld)) with (length (ld ++ [token_packet token])) by (rewrite length_app; cbn; lia). apply lookup_last.
  - unfold connect_packet in Hst. rewrite payload_sent in Hst. cbn [n_server].
    rewrite (peer_conn ts ks x'' ((lh ++ [p]) ++ []) h''), Hst, Hon; [done|]. eapply peer_next; [exact Ph'|exact N|constructor].
  - eexists. cbn [n_device]. by rewrite (peer_conn _ _ _ _ _ Pd'), Ho.
  - eapply rtc_r; [exact Hsteps|]. eapply step_up; [rewrite (peer_wire _ _ _ _ _ Pd')|..|exact Hh].
    2: done.
    replace (S (length ld)) with (length (ld ++ [token_packet token])) by (rewrite length_app; cbn; lia). apply lookup_last.
  - unfold connect_packet in Hst. rewrite payload_sent in Hst. cbn [n_server].
    rewrite (peer_conn ts ks x'' ((lh ++ [p]) ++ []) h''), Hst, Hon; [done|]. eapply peer_next; [exact Ph'|exact N|constructor].
  - eexists. cbn [n_device]. by rewrite (peer_conn _ _ _ _ _ Pd'), Ho.
  - destruct (IH h' d' (lh ++ [p]) (ld ++ [token_packet token]) xh' xd' token') as (n & Hn & Hc); try done.
    { unfold keys_of. rewrite Hk'. by destruct pre. }
    exists n. split; [|done]. rewrite !length_app, !Nat.add_1_r in Hn. etransitivity; [exact Hsteps|exact Hn].
Qed.

(** C7: Two peers get online.  From the SYNCs of their reading threads on, if
    one of the server's keys is known to the device, the packets they exchange
    lead to a state in which both are online and the server knows what the device
    announced, whichever keys the server tries before. *)
Theorem handshake_completes xh xd h d pre key post :
  idle ts xh h -> w_sent h = [] -> idle td xd d -> w_sent d = [] -> au_required (w_auth d) = true ->
  keys_of xh h = map Some pre ++ Some key :: post -> key_known key ->
  exists h1 d1, server_handles (sync_packet 1 ks) ts h = Done tt h1 /\ device_handles (sync_packet 1 kd) td d = Done tt d1 /\
    exists n, rtc net_step {| n_server := h1; n_device := d1; n_down := 0; n_up := 0 |} n /\ connected n.
Proof.
  intros Ih Hsh Id Hsd Hreq Hk Hkn.
  pose proof (server_starts (B := BS) (BN := NS) Hbs ts xh (sync_packet 1 ks) h HBS Ih eq_refl ltac:(done)) as Hs.
  apply twp_done in Hs as ([] & h1 & Hh & Nh).
  pose proof (device_starts (B := BD) (BN := ND) td xd (sync_packet 1 kd) d HBD Id eq_refl ltac:(done)) as Hs.
  apply twp_done in Hs as ([] & d1 & Hd & Nd).
  exists h1, d1. split; [exact Hh|]. split; [exact Hd|].
  set (hello := seal_packet (connect_packet (B := BS) (BN := NS) xh)) in *.
  assert (Ph : peer ts ks xh [seal_packet fresh_apacket; hello] h1).
  { constructor; [apply Nh|by rewrite (nx_sent _ _ _ _ _ Nh), Hsh|plain]. }
  pose proof (device_skips (B := BD) (BN := ND) td xd (received (seal_packet fresh_apacket)) d1 (nx_idle _ _ _ _ _ Nd) eq_refl) as Hs.
  apply twp_done in Hs as ([] & d2 & Hd2 & N2).
  assert (Hreq2 : au_required (w_auth d2) = true) by (by rewrite (nx_required _ _ _ _ _ N2), (nx_required _ _ _ _ _ Nd)).
  pose proof (device_greets (B := BD) (BN := ND) td xd (received hello) d2 HBD Hreq2 (nx_idle _ _ _ _ _ N2) eq_refl) as Hs.
  apply twp_done in Hs as ([] & d3 & Hd3 & token & xd' & N3 & Ht & Hl).
  assert (Pd : peer td kd xd' ([] ++ [token_packet token]) d3).
  { constructor; [apply N3| |plain]. by rewrite (nx_sent _ _ _ _ _ N3), (nx_sent _ _ _ _ _ N2), (nx_sent _ _ _ _ _ Nd), Hsd. }
  destruct (rounds pre key post Hkn h1 d3 _ [] xh xd' token Ph Pd Ht Hl) as (n & Hn & Hc).
  { rewrite <- Hk. unfold keys_of, adb_auth_get_private_keys. by rewrite (nx_keys _ _ _ _ _ Nh). }
  exists n. split; [|done]. eapply rtc_l; [|eapply rtc_l; [|exact Hn]].
  - eapply step_down; [by rewrite (peer_wire _ _ _ _ _ Ph)|exact Hd2].
  - eapply step_down; [by rewrite (peer_wire _ _ _ _ _ Ph)|exact Hd3].
Qed.

End Net.

(** ** A server with two keys, the second of which the device knows *)

#[export] Instance demo_working : Working script.
Proof.
  split; [by intros; eexists|intros; by eexists _, _|].
  intros token key e. cbn [RSA_sign demo_crypto]. destruct (demo_key key ++ token) as [|a l] eqn:Hd; [|by eauto].
  exfalso. apply (f_equal length) in Hd. rewrite length_app in Hd. unfold demo_key, hex_pad, zero_pad in Hd.
  rewrite length_app, length_replicate in Hd. cbn [length] in Hd. lia.
Qed.

Definition keyed_server : world script := idle_world false [([], 6%positive); ([], 7%positive)] one_transport quiet_env.
Definition keyless_device : world script := idle_world true [] one_transport quiet_env.

Lemma demo_idle required keys : idle 1 demo_transport (idle_world required keys one_transport quiet_env).
Proof.
  constructor; try done. intros t [Ht|Ht]; cbn in Ht; [by apply elem_of_elements, elem_of_dom in Ht|by apply not_elem_of_nil in Ht].
Qed.

Lemma demo_key_known : key_known 7.
Proof.
  intros token sig e e' Hs. assert (sig = demo_key 7 ++ token) as -> by by injection Hs as <-.
  unfold adbd_auth_verify, key_paths. cbn beta iota delta [existsb].
  assert (H : path_verifies token (demo_key 7 ++ token) (str "/adb_keys") e' = true); [|by rewrite H].
  unfold path_verifies.
  change (access_read (str "/adb_keys") e') with true.
  change (ReadFileToString (str "/adb_keys") e') with (Some (str "0005 user@first" ++ [byte_of 10] ++ str "0007 user@second")).
  cbn beta iota delta [andb].
  change (Split _ newline) with [str "0005 user@first"; str "0007 user@second"]. cbn beta iota delta [existsb].
  assert (H2 : line_verifies token (demo_key 7 ++ token) (str "0007 user@second") = true); [|by rewrite H2, orb_true_r].
  unfold line_verifies. change (line_key (str "0007 user@second")) with (Some (str "0007")).
  by apply bool_decide_true.
Qed.

Lemma handshake_completes_witness :
  exists h1 d1, server_handles server_build demo_banner (sync_packet 1 2) 1 keyed_server = Done tt h1 /\
    device_handles device_build demo_banner (sync_packet 1 3) 1 keyless_device = Done tt d1 /\
    exists n, rtc (net_step server_build device_build demo_banner demo_banner 1 1 2 3)
      {| n_server := h1; n_device := d1; n_down := 0; n_up := 0 |} n /\
      connected device_build demo_banner 1 1 n.
Proof.
  apply (handshake_completes server_build device_build demo_banner demo_banner 1 1 2 3) with
    (xh := demo_transport) (xd := demo_transport) (pre := [6%positive]) (key := 7%positive) (post := [None]);
    [done|done|by vm_compute|by vm_compute|apply demo_idle|done|apply demo_idle|done|done|by vm_compute|apply demo_key_known].
Defined.
