(* ===== verification/ShellService.v ===== *)
(** * Subprocesses of the shell service (shell_service.cpp)

    A [Subprocess] starts a shell and passes data between it and the client: the
    main thread forks and returns one end of a socket pair, a thread of its own
    then selects on the other end and on the pipes of the process.  [fork] takes
    what the child does as an argument, so does the start of the thread. *)

From S2P Require Import Prelude LibBase Packet AdbIo Transport World SmartText ShellProtocol Services.

(** ** The system *)

Inductive wait_status := Exited (code : Z) | Signaled (sig : Z) | OtherStatus.

Record passwd := { pw_dir : bytes; pw_name : bytes; pw_shell : bytes }.

Definition SIGHUP : Z := 1.
Definition SIGKILL : Z := 9.
Definition STDIN_FILENO : Z := 0.
Definition STDOUT_FILENO : Z := 1.
Definition STDERR_FILENO : Z := 2.
Definition FD_SETSIZE : Z := 1024.

(** A call and the type of its result; [T] is [struct termios]. *)
Inductive shell_call (T : Type) : Type -> Type :=
| p_socketpair : shell_call T (errno_t + Z * Z)
| p_pipe : shell_call T (option (Z * Z))
| p_close (fd : Z) : shell_call T unit
| p_select (reads writes : gset Z) : shell_call T (errno_t + gset Z * gset Z)
| p_shutdown_write (fd : Z) : shell_call T bool
| p_winsize (fd row col xpixel ypixel : Z) : shell_call T unit
| p_block_mode (fd : Z) (block : bool) : shell_call T bool
| p_kill (pid sig : Z) : shell_call T unit
| p_waitpid (pid : Z) : shell_call T (Z * option wait_status)
| p_environ : shell_call T (option (list bytes))
| p_passwd : shell_call T (option passwd)
| p_setsid : shell_call T unit
| p_open_tty (path : bytes) : shell_call T (errno_t + Z)
| p_tcgetattr (fd : Z) : shell_call T (errno_t + T)
| p_tcsetattr (fd : Z) (t : T) : shell_call T (errno_t + unit)
| p_dup2 (fd to : Z) : shell_call T unit
| p_close_on_exec (fd : Z) : shell_call T unit
| p_default_SIGPIPE : shell_call T unit
| p_execle (path : bytes) (args env : list bytes) : shell_call T (option errno_t).
Arguments p_socketpair {T}. Arguments p_pipe {T}. Arguments p_close {T}. Arguments p_select {T}.
Arguments p_shutdown_write {T}. Arguments p_winsize {T}. Arguments p_block_mode {T}. Arguments p_kill {T}.
Arguments p_waitpid {T}. Arguments p_environ {T}. Arguments p_passwd {T}. Arguments p_setsid {T}.
Arguments p_open_tty {T}. Arguments p_tcgetattr {T}. Arguments p_tcsetattr {T}. Arguments p_dup2 {T}.
Arguments p_close_on_exec {T}. Arguments p_default_SIGPIPE {T}. Arguments p_execle {T}.

(** [map_order] is the order in which an [unordered_map] is walked,
    [uninitialised] what the buffer of a new [ShellProtocol] holds;
    [p_execle] answers [None] when the image of the process was replaced. *)
Class ShellOs (E : Type) := {
  termios : Type;
  cfmakeraw : termios -> termios;
  shell_sys {A} : shell_call termios A -> E -> A * E;
  sys_fork : M E unit -> E -> (errno_t + Z) * E;
  sys_forkpty : (bytes -> M E unit) -> E -> (errno_t + Z * Z) * E;
  start_shell_thread : M E unit -> E -> E;
  map_order : gmap bytes bytes -> list (bytes * bytes);
  uninitialised : bytes;
  SHELL_EXIT_NOTIFY_FD : Z;
  _PATH_BSHELL : bytes;
}.

(** ** A window size *)

(** [%d] of [sscanf]: the number and what follows it. *)
Definition sign_of (s : bytes) : bytes * bytes :=
  match s with
  | a :: t => if Ascii.eqb a (byte_of 45) || Ascii.eqb a (byte_of 43) then ([a], t) else ([], s)
  | [] => ([], [])
  end.

Fixpoint span_digits (s : bytes) : bytes * bytes :=
  match s with
  | a :: t => if is_digit a then let '(d, r) := span_digits t in (a :: d, r) else ([], s)
  | [] => ([], [])
  end.

Definition scan_d (s : bytes) : option (Z * bytes) :=
  let '(sign, s) := sign_of (skip_spaces s) in
  let '(digits, rest) := span_digits s in
  match digits with [] => None | _ => Some (atoi (sign ++ digits), rest) end.

Definition scan_char (c : ascii) (s : bytes) : option bytes :=
  match s with a :: t => if Ascii.eqb a c then Some t else None | [] => None end.

(** ["%dx%d,%dx%d"]: all four, or nothing. *)
Definition scan_winsize (s : bytes) : option (Z * Z * Z * Z) :=
  '(rows, s) ← scan_d s; s ← scan_char (byte_of 120) s;
  '(cols, s) ← scan_d s; s ← scan_char (byte_of 44) s;
  '(x_pixels, s) ← scan_d s; s ← scan_char (byte_of 120) s;
  '(y_pixels, s) ← scan_d s; Some (rows, cols, x_pixels, y_pixels).

(** ** Subprocess *)

(** The descriptors it owns, and the four of [ForkAndExec]'s frame. *)
Inductive sfd :=
| local_socket_sfd_ | stdinout_sfd_ | stderr_sfd_ | protocol_sfd_
| child_stdinout_sfd | child_stderr_sfd | parent_error_sfd | child_error_sfd.

#[export] Instance sfd_eq_dec : EqDecision sfd.
Proof. solve_decision. Defined.

(** [input_] and [output_] are null until the protocol is set up. *)
Record Subprocess (E : Type) := {
  sub_env : E;
  command_ : bytes;
  terminal_type_ : bytes;
  make_pty_raw_ : bool;
  type_ : SubprocessType;
  protocol_ : SubprocessProtocol;
  pid_ : Z;
  sfds : sfd -> Z;
  input_ : option shell_protocol;
  output_ : option shell_protocol;
  input_bytes_left_ : Z;
}.
Arguments sub_env {E}. Arguments command_ {E}. Arguments terminal_type_ {E}. Arguments make_pty_raw_ {E}.
Arguments type_ {E}. Arguments protocol_ {E}. Arguments pid_ {E}. Arguments sfds {E}.
Arguments input_ {E}. Arguments output_ {E}. Arguments input_bytes_left_ {E}.

Definition set_sub_env {E} (v : E) (x : Subprocess E) : Subprocess E :=
  {| sub_env := v; command_ := command_ x; terminal_type_ := terminal_type_ x;
     make_pty_raw_ := make_pty_raw_ x; type_ := type_ x; protocol_ := protocol_ x;
     pid_ := pid_ x; sfds := sfds x; input_ := input_ x; output_ := output_ x;
     input_bytes_left_ := input_bytes_left_ x |}.
Definition set_pid_ {E} (v : Z) (x : Subprocess E) : Subprocess E :=
  {| sub_env := sub_env x; command_ := command_ x; terminal_type_ := terminal_type_ x;
     make_pty_raw_ := make_pty_raw_ x; type_ := type_ x; protocol_ := protocol_ x; pid_ := v;
     sfds := sfds x; input_ := input_ x; output_ := output_ x;
     input_bytes_left_ := input_bytes_left_ x |}.
Definition set_sfds {E} (v : sfd -> Z) (x : Subprocess E) : Subprocess E :=
  {| sub_env := sub_env x; command_ := command_ x; terminal_type_ := terminal_type_ x;
     make_pty_raw_ := make_pty_raw_ x; type_ := type_ x; protocol_ := protocol_ x;
     pid_ := pid_ x; sfds := v; input_ := input_ x; output_ := output_ x;
     input_bytes_left_ := input_bytes_left_ x |}.
Definition set_input_ {E} (v : option shell_protocol) (x : Subprocess E) : Subprocess E :=
  {| sub_env := sub_env x; command_ := command_ x; terminal_type_ := terminal_type_ x;
     make_pty_raw_ := make_pty_raw_ x; type_ := type_ x; protocol_ := protocol_ x;
     pid_ := pid_ x; sfds := sfds x; input_ := v; output_ := output_ x;
     input_bytes_left_ := input_bytes_left_ x |}.
Definition set_output_ {E} (v : option shell_protocol) (x : Subprocess E) : Subprocess E :=
  {| sub_env := sub_env x; command_ := command_ x; terminal_type_ := terminal_type_ x;
     make_pty_raw_ := make_pty_raw_ x; type_ := type_ x; protocol_ := protocol_ x;
     pid_ := pid_ x; sfds := sfds x; input_ := input_ x; output_ := v;
     input_bytes_left_ := input_bytes_left_ x |}.
Definition set_input_bytes_left_ {E} (v : Z) (x : Subprocess E) : Subprocess E :=
  {| sub_env := sub_env x; command_ := command_ x; terminal_type_ := terminal_type_ x;
     make_pty_raw_ := make_pty_raw_ x; type_ := type_ x; protocol_ := protocol_ x;
     pid_ := pid_ x; sfds := sfds x; input_ := input_ x; output_ := output_ x;
     input_bytes_left_ := v |}.

Section Subprocess.
Context {E : Type} {K : Kernel E} {SO : ShellOs E} {LB : LibBase}.
Abbreviation W := (Subprocess E).

(** Running something on the system. *)
Definition on_os {A} (m : M E A) : M W A :=
  fun s => match m (sub_env s) with
           | Done a e => Done a (set_sub_env e s)
           | Exit code e => Exit code (set_sub_env e s)
           | Fatal m => Fatal m
           | Crash m => Crash m
           | NoFuel => NoFuel
           end.

Definition shell_os {A} (c : shell_call termios A) : M E A :=
  fun e => let '(a, e') := shell_sys c e in Done a e'.
Definition os {A} (c : shell_call termios A) : M W A := on_os (shell_os c).

(** What a child or a thread does with its copy, or with the object it owns. *)
Definition with_subprocess (s : Subprocess E) (m : M W unit) : M E unit :=
  fun e => match m (set_sub_env e s) with
           | Done _ s' => Done tt (sub_env s')
           | Exit code s' => Exit code (sub_env s')
           | Fatal m => Fatal m
           | Crash m => Crash m
           | NoFuel => NoFuel
           end.

(** [WriteFdExactly] with the fuel it needs. *)
Definition write_all (fd : Z) (buf : bytes) : M E wx_result :=
  let* e := get in WriteFdExactly (length buf + refusals fd e) fd buf.

Definition WriteShell (id length : Z) (p : shell_protocol) : M E (bool * shell_protocol) :=
  let* e := get in Write (Z.to_nat length + 5 + refusals (sp_fd p) e) id length p.

(** [unique_fd]: [get], [reset], [release]. *)
Definition get_fd (p : sfd) : M W Z := gets (fun s => sfds s p).
Definition put_fd (p : sfd) (fd : Z) : M W unit :=
  modify (fun s => set_sfds (fun q => if decide (q = p) then fd else sfds s q) s).
Definition reset (p : sfd) (fd : Z) : M W unit :=
  let* old := get_fd p in
  when (negb (old =? -1)%Z) (os (p_close old)) ;;;
  put_fd p fd.
Definition release (p : sfd) : M W Z := let* fd := get_fd p in put_fd p (-1)%Z ;;; ret fd.

Definition non_null (p : option shell_protocol) : M W shell_protocol :=
  match p with Some p => ret p | None => crash "null ShellProtocol" end.

(** ** Starting *)

Definition ReadAll_step (fd : Z) : M E (option bytes) :=
  let* r := sys_read fd 512 in
  match r with RdOk (b :: bs) => ret (Some (b :: bs)) | _ => ret None end.

Fixpoint ReadAll (fuel : nat) (fd : Z) (received : bytes) : M E bytes :=
  match fuel with
  | O => no_fuel
  | S f =>
      let* r := ReadAll_step fd in
      match r with None => ret received | Some bs => ReadAll f fd (received ++ bs) end
  end.

(** [inl]: [errno]. *)
Definition CreateSocketpair (fd1 fd2 : sfd) : M W (errno_t + unit) :=
  let* r := os p_socketpair in
  match r with
  | inl e => ret (inl e)
  | inr (s0, s1) => reset fd1 s0 ;;; reset fd2 s1 ;;; ret (inr tt)
  end.

(** The constructor: no raw subprocess without the protocol. *)
Definition new_subprocess (e : E) (command : bytes) (terminal_type : option bytes) (type : SubprocessType)
    (protocol : SubprocessProtocol) : Subprocess E :=
  let pty_raw := match protocol, type with kNone, kRaw => true | _, _ => false end in
  {| sub_env := e; command_ := command; terminal_type_ := default [] terminal_type; make_pty_raw_ := pty_raw;
     type_ := if pty_raw then kPty else type; protocol_ := protocol; pid_ := -1; sfds := fun _ => (-1)%Z;
     input_ := None; output_ := None; input_bytes_left_ := 0 |}.

(** The environment of the child. *)
Definition env_entry (env : gmap bytes bytes) (current : bytes) : gmap bytes bytes :=
  match index_of current (byte_of 61) with
  | Some i => <[take i current := drop (S i) current]> env
  | None => env
  end.

Definition child_env (environ : option (list bytes)) (pw : option passwd) (terminal_type : bytes) : list bytes :=
  let env := fold_left env_entry (default [] environ) ∅ in
  let env := match pw with
             | Some pw => <[str "SHELL" := pw_shell pw]> (<[str "USER" := pw_name pw]>
                            (<[str "LOGNAME" := pw_name pw]> (<[str "HOME" := pw_dir pw]> env)))
             | None => env
             end in
  let env := if bool_decide (terminal_type = []) then env else <[str "TERM" := terminal_type]> env in
  map (fun '(key, value) => c_str key ++ str "=" ++ c_str value) (map_order env).

Definition abort_with {A} (messages : list bytes) : M W A :=
  let* fd := get_fd child_error_sfd in
  iter_list (fun m => on_os (write_all fd m) ;;; ret tt) messages ;;;
  fatal "abort".

Definition OpenPtyChildFd (pts_name : bytes) : M W Z :=
  let* r := os (p_open_tty pts_name) in
  match r with
  | inl e => abort_with [str "child failed to open pseudo-term slave "; pts_name; str ": "; strerror e]
  | inr child_fd =>
      let* s := get in
      if negb (make_pty_raw_ s) then ret child_fd else
      let* t := os (p_tcgetattr child_fd) in
      match t with
      | inl e => abort_with [str "tcgetattr failed: "; strerror e]
      | inr tattr =>
          let* r := os (p_tcsetattr child_fd (cfmakeraw tattr)) in
          match r with
          | inl e => abort_with [str "tcsetattr failed: "; strerror e]
          | inr _ => ret child_fd
          end
      end
  end.

(** What the child does after the fork: it ends, or its image is replaced. *)
Definition child_main (cenv : list bytes) (pts_name : bytes) : M W unit :=
  modify (set_pid_ 0) ;;;
  os p_setsid ;;;
  let* s := get in
  (if bool_decide (type_ s = kPty)
   then let* fd := OpenPtyChildFd pts_name in reset child_stdinout_sfd fd
   else ret tt) ;;;
  let* inout := get_fd child_stdinout_sfd in
  let* err := get_fd child_stderr_sfd in
  os (p_dup2 inout STDIN_FILENO) ;;;
  os (p_dup2 inout STDOUT_FILENO) ;;;
  os (p_dup2 (if (err =? -1)%Z then inout else err) STDERR_FILENO) ;;;
  iter_list (fun p => reset p (-1)%Z)
    [stdinout_sfd_; stderr_sfd_; child_stdinout_sfd; child_stderr_sfd; parent_error_sfd] ;;;
  let* fd := get_fd child_error_sfd in
  os (p_close_on_exec fd) ;;;
  os p_default_SIGPIPE ;;;
  let* r := os (p_execle _PATH_BSHELL
                  (match command_ s with
                   | [] => [_PATH_BSHELL; str "-"]
                   | command => [_PATH_BSHELL; str "-c"; c_str command]
                   end) cenv) in
  match r with
  | None => ret tt
  | Some e =>
      on_os (write_all fd (str "exec '" ++ _PATH_BSHELL ++ str "' failed: ")) ;;;
      on_os (write_all fd (strerror e)) ;;;
      reset child_error_sfd (-1)%Z ;;;
      exit_with 1
  end.

(** The fork itself; [inl]: the text of the error. *)
Definition fork_child (cenv : list bytes) : M W (bytes + unit) :=
  let* s := get in
  if bool_decide (type_ s = kPty) then
    let* r := on_os (fun e => let '(r, e') := sys_forkpty (fun pts_name => with_subprocess s (child_main cenv pts_name)) e
                              in Done r e') in
    match r with
    | inl e => ret (inl (str "fork failed: " ++ strerror e))
    | inr (pid, fd) => modify (set_pid_ pid) ;;; reset stdinout_sfd_ fd ;;; ret (inr tt)
    end
  else
    let* r := CreateSocketpair stdinout_sfd_ child_stdinout_sfd in
    match r with
    | inl e => ret (inl (str "failed to create socketpair for stdin/out: " ++ strerror e))
    | inr _ =>
        let* r := (if bool_decide (protocol_ s = kShell) then CreateSocketpair stderr_sfd_ child_stderr_sfd
                   else ret (inr tt)) in
        match r with
        | inl e => ret (inl (str "failed to create socketpair for stderr: " ++ strerror e))
        | inr _ =>
            let* s := get in
            let* r := on_os (fun e => let '(r, e') := sys_fork (with_subprocess s (child_main cenv [])) e in Done r e') in
            match r with
            | inl e => ret (inl (str "fork failed: " ++ strerror e))
            | inr pid => modify (set_pid_ pid) ;;; ret (inr tt)
            end
        end
    end.

Definition kill_child (sig : Z) : M W unit := let* s := get in os (p_kill (pid_ s) sig).

(** The first of the pipes that cannot be made non-blocking. *)
Fixpoint block_modes (l : list sfd) : M W (option Z) :=
  match l with
  | [] => ret None
  | p :: l =>
      let* fd := get_fd p in
      if (0 <=? fd)%Z then
        let* ok := os (p_block_mode fd false) in
        if ok then block_modes l else ret (Some fd)
      else block_modes l
  end.

(** After the child's [exec]: what the main thread gets to see. *)
Definition setup_protocol : M W (bytes + unit) :=
  let* s := get in
  if bool_decide (protocol_ s = kNone) then
    let* fd := release stdinout_sfd_ in reset local_socket_sfd_ fd ;;; ret (inr tt)
  else
    let* r := CreateSocketpair protocol_sfd_ local_socket_sfd_ in
    match r with
    | inl e =>
        kill_child SIGKILL ;;;
        ret (inl (str "failed to create socketpair to intercept data: " ++ strerror e))
    | inr _ =>
        let* fd := get_fd protocol_sfd_ in
        modify (set_input_ (Some (new_shell_protocol fd uninitialised))) ;;;
        modify (set_output_ (Some (new_shell_protocol fd uninitialised))) ;;;
        let* r := block_modes [stdinout_sfd_; stderr_sfd_] in
        match r with
        | Some fd => kill_child SIGKILL ;;; ret (inl (str "failed to set non-blocking mode for fd " ++ dec fd))
        | None => ret (inr tt)
        end
    end.

(** The frame of [ForkAndExec] goes. *)
Definition close_frame : M W unit :=
  iter_list (fun p => reset p (-1)%Z) [child_error_sfd; parent_error_sfd; child_stderr_sfd; child_stdinout_sfd].

Definition ForkAndExec_body (fuel : nat) : M W (bytes + unit) :=
  let* r := CreateSocketpair parent_error_sfd child_error_sfd in
  match r with
  | inl e => ret (inl (str "failed to create pipe for subprocess error reporting: " ++ strerror e))
  | inr _ =>
      let* pw := os p_passwd in
      let* environ := os p_environ in
      let* s := get in
      let* r := fork_child (child_env environ pw (terminal_type_ s)) in
      match r with
      | inl error => ret (inl error)
      | inr _ =>
          reset child_error_sfd (-1)%Z ;;;
          let* fd := get_fd parent_error_sfd in
          let* error_message := on_os (ReadAll fuel fd []) in
          match error_message with
          | _ :: _ => ret (inl error_message)
          | [] => setup_protocol
          end
      end
  end.

Definition ForkAndExec (fuel : nat) : M W (bytes + unit) :=
  let* r := ForkAndExec_body fuel in close_frame ;;; ret r.

(** ** Passing data

    A set of descriptors; [FD_SET] and its like write past the set for a
    descriptor it cannot hold. *)

Definition fd_fits (fd : Z) : M W unit := check ((0 <=? fd) && (fd <? FD_SETSIZE))%Z "descriptor outside an fd_set".
Definition FD_SET (fd : Z) (fds : gset Z) : M W (gset Z) := fd_fits fd ;;; ret ({[fd]} ∪ fds).
Definition FD_CLR (fd : Z) (fds : gset Z) : M W (gset Z) := fd_fits fd ;;; ret (fds ∖ {[fd]}).

Definition ValidAndInSet (p : sfd) (fds : gset Z) : M W bool :=
  let* fd := get_fd p in
  if (fd =? -1)%Z then ret false else fd_fits fd ;;; ret (bool_decide (fd ∈ fds)).

(** [sscanf] needs a string, but nothing ends the text of a packet. *)
Definition change_window_size (text : bytes) (fd : Z) : M W unit :=
  check (bool_decide (NUL ∈ text)) "sscanf past the buffer" ;;;
  match scan_winsize (c_str text) with
  | Some (rows, cols, x_pixels, y_pixels) => os (p_winsize fd (u16 rows) (u16 cols) (u16 x_pixels) (u16 y_pixels))
  | None => ret tt
  end.

(** The first half of [PassInput]: [Some r] if it returns [r]. *)
Definition take_packet : M W (option (option sfd)) :=
  let* s := get in
  let* p := non_null (input_ s) in
  let* (ok, p) := on_os (Read p) in
  modify (set_input_ (Some p)) ;;;
  if negb ok then ret (Some (Some protocol_sfd_)) else
  let* fd := get_fd stdinout_sfd_ in
  if (fd =? -1)%Z then ret None
  else if (sp_id p =? kIdWindowSizeChange)%Z then change_window_size (sp_data p) fd ;;; ret None
  else if (sp_id p =? kIdStdin)%Z then modify (set_input_bytes_left_ (sp_data_length p)) ;;; ret None
  else if (sp_id p =? kIdCloseStdin)%Z then
    if bool_decide (type_ s = kRaw) then
      let* ok := os (p_shutdown_write fd) in
      ret (Some (if ok then None else Some stdinout_sfd_))
    else ret None
  else ret None.

(** The second half. *)
Definition write_input : M W (option sfd) :=
  let* s := get in
  if negb (0 <? input_bytes_left_ s)%Z then ret None else
  let* p := non_null (input_ s) in
  let* fd := get_fd stdinout_sfd_ in
  let index := (sp_data_length p - input_bytes_left_ s)%Z in
  let* r := on_os (sys_write fd (take (Z.to_nat (input_bytes_left_ s)) (drop (Z.to_nat index) (sp_data p)))) in
  match r with
  | WrErr EAGAIN => ret None
  | WrErr _ | WrOk 0 => modify (set_input_bytes_left_ 0) ;;; ret (Some stdinout_sfd_)
  | WrOk n => modify (fun s => set_input_bytes_left_ (input_bytes_left_ s - n) s) ;;; ret None
  end.

Definition PassInput : M W (option sfd) :=
  let* s := get in
  let* r := if (input_bytes_left_ s =? 0)%Z then take_packet else ret None in
  match r with
  | Some r => ret r
  | None => write_input
  end.

(** What is put into [data()]. *)
Definition put_data (bs : bytes) (p : shell_protocol) : shell_protocol :=
  {| sp_fd := sp_fd p; sp_id := sp_id p; sp_data := bs ++ drop (length bs) (sp_data p);
     sp_data_length := sp_data_length p; sp_bytes_left := sp_bytes_left p |}.

Definition PassOutput (p : sfd) (id : Z) : M W (option sfd) :=
  let* s := get in
  let* out := non_null (output_ s) in
  let* fd := get_fd p in
  let* r := on_os (sys_read fd (data_capacity out)) in
  match r with
  | RdErr EAGAIN => ret None
  | RdErr _ | RdOk [] => ret (Some p)
  | RdOk bs =>
      let* (ok, out) := on_os (WriteShell id (Zlen bs) (put_data bs out)) in
      modify (set_output_ (Some out)) ;;;
      ret (if ok then None else Some protocol_sfd_)
  end.

Record fd_sets := { master_read : gset Z; master_write : gset Z }.

(** The readable or writable descriptors, or how [select] failed. *)
Definition select_fds (m : fd_sets) : M W (errno_t + gset Z * gset Z) := os (p_select (master_read m) (master_write m)).

(** [b]: nothing died so far. *)
Definition unless_dead (dead : option sfd) (m : M W (option sfd)) : M W (option sfd) :=
  match dead with Some p => ret (Some p) | None => m end.

Definition pass_ready (p : sfd) (ready : gset Z) (m : M W (option sfd)) : M W (option sfd) :=
  let* b := ValidAndInSet p ready in if b then m else ret None.

(** The input from the protocol; when some is left, wait for the pipe instead. *)
Definition pass_protocol (ready : gset Z) (m : fd_sets) : M W (option sfd * fd_sets) :=
  let* b := ValidAndInSet protocol_sfd_ ready in
  if negb b then ret (None, m) else
  let* dead := PassInput in
  let* s := get in
  if (input_bytes_left_ s =? 0)%Z then ret (dead, m) else
  let* r := FD_CLR (sfds s protocol_sfd_) (master_read m) in
  let* w := FD_SET (sfds s stdinout_sfd_) (master_write m) in
  ret (dead, {| master_read := r; master_write := w |}).

(** The rest of the input; when all is written, go back to the protocol. *)
Definition pass_rest (ready : gset Z) (m : fd_sets) : M W (option sfd * fd_sets) :=
  let* b := ValidAndInSet stdinout_sfd_ ready in
  if negb b then ret (None, m) else
  let* dead := PassInput in
  let* s := get in
  if negb (input_bytes_left_ s =? 0)%Z then ret (dead, m) else
  let* r := FD_SET (sfds s protocol_sfd_) (master_read m) in
  let* w := FD_CLR (sfds s stdinout_sfd_) (master_write m) in
  ret (dead, {| master_read := r; master_write := w |}).

(** What is done with the descriptors [select] found. *)
Definition pass_turn (reads writes : gset Z) (m : fd_sets) : M W (option sfd * fd_sets) :=
  let* dead := pass_ready stdinout_sfd_ reads (PassOutput stdinout_sfd_ kIdStdout) in
  let* dead := unless_dead dead (pass_ready stderr_sfd_ reads (PassOutput stderr_sfd_ kIdStderr)) in
  let* (dead, m) := match dead with Some p => ret (Some p, m) | None => pass_protocol reads m end in
  match dead with Some p => ret (Some p, m) | None => pass_rest writes m end.

Fixpoint SelectLoop (fuel : nat) (m : fd_sets) : M W (option sfd * fd_sets) :=
  match fuel with
  | O => no_fuel
  | S f =>
      let* r := select_fds m in
      match r with
      | inl EINTR => SelectLoop f m
      | inl _ => reset stdinout_sfd_ (-1)%Z ;;; reset stderr_sfd_ (-1)%Z ;;; ret (None, m)
      | inr (reads, writes) =>
          let* (dead, m) := pass_turn reads writes m in
          match dead with
          | Some p => ret (Some p, m)
          | None => SelectLoop f m
          end
      end
  end.

(** A descriptor died. *)
Definition bury (p : sfd) (m : fd_sets) : M W fd_sets :=
  let* fd := get_fd p in
  let* r := FD_CLR fd (master_read m) in
  let* w := FD_CLR fd (master_write m) in
  when (bool_decide (p = protocol_sfd_))
    (kill_child SIGHUP ;;; reset stdinout_sfd_ (-1)%Z ;;; reset stderr_sfd_ (-1)%Z) ;;;
  reset p (-1)%Z ;;;
  ret {| master_read := r; master_write := w |}.

Definition can_pass (s : Subprocess E) : bool :=
  negb (sfds s protocol_sfd_ =? -1)%Z && (negb (sfds s stdinout_sfd_ =? -1)%Z || negb (sfds s stderr_sfd_ =? -1)%Z).

Fixpoint pass_loop (turns fuel : nat) (m : fd_sets) : M W unit :=
  let* s := get in
  if negb (can_pass s) then ret tt else
  match turns with
  | O => no_fuel
  | S n =>
      let* (dead, m) := SelectLoop fuel m in
      match dead with
      | None => pass_loop n fuel m
      | Some p => let* m := bury p m in pass_loop n fuel m
      end
  end.

(** The sets to begin with. *)
Fixpoint fill_set (l : list sfd) (fds : gset Z) : M W (gset Z) :=
  match l with
  | [] => ret fds
  | p :: l =>
      let* fd := get_fd p in
      if (fd =? -1)%Z then fill_set l fds else let* fds := FD_SET fd fds in fill_set l fds
  end.

Definition PassDataStreams (turns fuel : nat) : M W unit :=
  let* fd := get_fd protocol_sfd_ in
  if (fd =? -1)%Z then ret tt else
  let* r := fill_set [protocol_sfd_; stdinout_sfd_; stderr_sfd_] ∅ in
  pass_loop turns fuel {| master_read := r; master_write := ∅ |}.

(** ** Ending *)

(** [None]: wait again.  The status of a [waitpid] that failed is not set. *)
Definition exit_code_of (st : option wait_status) : M W Z :=
  match st with
  | None => crash "uninitialised status"
  | Some (Signaled sig) => ret (Z.lor 0x80 sig)
  | Some OtherStatus => ret 1%Z
  | Some (Exited code) => ret code
  end.

Fixpoint wait_child (fuel : nat) : M W Z :=
  match fuel with
  | O => no_fuel
  | S f =>
      let* s := get in
      let* (pid, st) := os (p_waitpid (pid_ s)) in
      if (pid =? pid_ s)%Z then exit_code_of st else wait_child f
  end.

(** The exit packet, if the protocol is open. *)
Definition send_exit (exit_code : Z) : M W unit :=
  let* fd := get_fd protocol_sfd_ in
  when (negb (fd =? -1)%Z)
    (let* s := get in
     let* out := non_null (output_ s) in
     let* (_, out) := on_os (WriteShell kIdExit 1 (put_data [byte_of exit_code] out)) in
     modify (set_output_ (Some out)) ;;;
     reset protocol_sfd_ (-1)%Z).

(** The local socket goes to the shell exit event. *)
Definition hand_over : M W unit :=
  when (0 <=? SHELL_EXIT_NOTIFY_FD)%Z
    (let* fd := get_fd local_socket_sfd_ in
     let* r := on_os (write_all SHELL_EXIT_NOTIFY_FD (le_encode 4 (u32 fd))) in
     when (wx_bool r) (put_fd local_socket_sfd_ (-1)%Z)).

Definition WaitForExit (fuel : nat) : M W unit :=
  let* exit_code := wait_child fuel in send_exit exit_code ;;; hand_over.

(** The destructor, and those of the members. *)
Definition delete_subprocess (fuel : nat) : M W unit :=
  WaitForExit fuel ;;;
  iter_list (fun p => reset p (-1)%Z) [protocol_sfd_; stderr_sfd_; stdinout_sfd_; local_socket_sfd_].

Definition ThreadHandler (turns fuel : nat) : M W unit :=
  PassDataStreams turns fuel ;;; delete_subprocess fuel.

(** ** The service *)

Definition ReportError (protocol : SubprocessProtocol) (message : bytes) : M E Z :=
  let* r := shell_os p_pipe in
  match r with
  | None => ret (-1)%Z
  | Some (r, w) =>
      let buf := str "error: " ++ c_str message ++ [byte_of 10] in
      when (bool_decide (protocol = kShell))
        (write_all w [byte_of kIdStderr] ;;; write_all w (le_encode 4 (u32 (Zlen buf))) ;;; ret tt) ;;;
      write_all w buf ;;;
      when (bool_decide (protocol = kShell))
        (write_all w [byte_of kIdExit] ;;; write_all w (le_encode 4 1) ;;; write_all w [byte_of 126] ;;; ret tt) ;;;
      shell_os (p_close w) ;;;
      ret r
  end.

(** The object is deleted after the failure is reported; or its thread owns it. *)
Definition StartSubprocess (turns fuel : nat) (name : bytes) (terminal_type : option bytes) (type : SubprocessType)
    (protocol : SubprocessProtocol) : M E Z :=
  fun e =>
    let report (error : bytes) (s : Subprocess E) : outcome E Z :=
      match ReportError protocol error (sub_env s) with
      | Done fd e =>
          match delete_subprocess fuel (set_sub_env e s) with
          | Done _ s => Done fd (sub_env s)
          | Exit code s => Exit code (sub_env s)
          | Fatal m => Fatal m
          | Crash m => Crash m
          | NoFuel => NoFuel
          end
      | o => o
      end in
    match ForkAndExec fuel (new_subprocess e (c_str name) (option_map c_str terminal_type) type protocol) with
    | Done (inl error) s => report error s
    | Done (inr _) s =>
        let fd := sfds s local_socket_sfd_ in
        let s := set_sfds (fun q => if decide (q = local_socket_sfd_) then (-1)%Z else sfds s q) s in
        Done fd (start_shell_thread (with_subprocess s (ThreadHandler turns fuel)) (sub_env s))
    | Exit code s => Exit code (sub_env s)
    | Fatal m => Fatal m
    | Crash m => Crash m
    | NoFuel => NoFuel
    end.

End Subprocess.
