(* ===== verification/ShellStreams.v ===== *)
(** * The streams of a subprocess (shell_service.cpp)

    What the thread of a subprocess passes on: the output of the process goes to
    the protocol as packets, the packets for its input go to the process, in
    order and without loss for as long as the descriptors live. *)

From S2P Require Import Prelude LibBase Packet AdbIo Transport World SmartText ShellProtocol Services ShellService.

(** ** The bytes of the protocol, one at a time

    Where a reader of packets is in its stream: it has seen a part of a header,
    or [more] bytes of a packet are to come. *)
Inductive frame_state := InHeader (seen : bytes) | InBody (id more : Z).

(** A step over a byte, and what goes to the input of the process. *)
Definition frame_step (st : frame_state) (b : ascii) : frame_state * bytes :=
  match st with
  | InHeader seen =>
      match seen ++ [b] with
      | [id; l0; l1; l2; l3] =>
          let more := le_decode [l0; l1; l2; l3] in
          (if (more =? 0)%Z then InHeader [] else InBody (byte_val id) more, [])
      | seen => (InHeader seen, [])
      end
  | InBody id more =>
      (if (more =? 1)%Z then InHeader [] else InBody id (more - 1)%Z, if (id =? kIdStdin)%Z then [b] else [])
  end.

Fixpoint unframe (st : frame_state) (bs : bytes) : frame_state * bytes :=
  match bs with
  | [] => (st, [])
  | b :: bs =>
      let '(st, out) := frame_step st b in
      let '(st, outs) := unframe st bs in (st, out ++ outs)
  end.

Lemma unframe_app st bs bs' :
  unframe st (bs ++ bs') =
  let '(st1, out1) := unframe st bs in let '(st2, out2) := unframe st1 bs' in (st2, out1 ++ out2).
Proof.
  revert st. induction bs as [|b bs IH]; intros st; [by cbn; destruct (unframe st bs')|].
  cbn. destruct (frame_step st b) as [st1 o1]. rewrite IH. destruct (unframe st1 bs) as [st2 o2].
  destruct (unframe st2 bs') as [st3 o3]. by rewrite app_assoc.
Qed.

(** The state between two calls of [Read]. *)
Definition between (id more : Z) : frame_state := if (more =? 0)%Z then InHeader [] else InBody id more.

(** The part of a packet that goes to the input. *)
Definition stdin_part (id : Z) (body : bytes) : bytes := if (id =? kIdStdin)%Z then body else [].

Lemma unframe_body id more body : (Zlen body <= more)%Z ->
  unframe (between id more) body = (between id (more - Zlen body), stdin_part id body).
Proof.
  revert more. induction body as [|b body IH]; intros more Hl.
  { cbn. rewrite Z.sub_0_r. unfold stdin_part. by destruct (_ =? _)%Z. }
  cbn [length] in Hl. unfold between at 1. rewrite (proj2 (Z.eqb_neq more 0)) by lia. cbn [unframe frame_step].
  replace (if (more =? 1)%Z then InHeader [] else InBody id (more - 1)) with (between id (more - 1))
    by (unfold between; destruct (Z.eqb_spec more 1) as [->|]; [done|by rewrite (proj2 (Z.eqb_neq (more - 1) 0)) by lia]).
  rewrite IH by lia. f_equal; [f_equal; cbn [length]; lia|]. unfold stdin_part. by destruct (_ =? _)%Z.
Qed.

Lemma unframe_header header : length header = 5 ->
  unframe (InHeader []) header =
  (between (byte_val (hd NUL header)) (le_decode (tl header)), []).
Proof. intros Hl. do 5 (destruct header as [|? header]; [done|]). destruct header; [|done]. by cbn. Qed.

(** The packets of the output. *)
Definition shell_wire (packets : list (Z * bytes)) : bytes :=
  concat (map (fun '(id, payload) => shell_packet id payload) packets).

Definition payloads (id : Z) (packets : list (Z * bytes)) : bytes :=
  concat (map (fun '(id', payload) => if (id' =? id)%Z then payload else []) packets).

Lemma shell_wire_snoc ps id bs : shell_wire (ps ++ [(id, bs)]) = shell_wire ps ++ shell_packet id bs.
Proof. unfold shell_wire. rewrite map_app, concat_app. cbn. by rewrite app_nil_r. Qed.

Lemma payloads_snoc ps id id' bs :
  payloads id (ps ++ [(id', bs)]) = payloads id ps ++ (if (id' =? id)%Z then bs else []).
Proof. unfold payloads. rewrite map_app, concat_app. cbn. by rewrite app_nil_r. Qed.

(** ** What the system remembers

    [got fd]: the bytes read from [fd] so far; [took fd]: the bytes written to
    it; [events]: a bound on the times that [select] can still answer. *)
Class FdHistory (E : Type) {K : Kernel E} {SO : ShellOs E} (got took : Z -> E -> bytes) (events : E -> nat) := {
  history_read fd n e r e' : (0 < n)%Z -> adb_read fd n e = (r, e') ->
    got fd e' = got fd e ++ match r with RdOk bs => bs | RdErr _ => [] end /\
    (forall fd', fd' <> fd -> got fd' e' = got fd' e) /\ (forall fd', took fd' e' = took fd' e) /\ events e' <= events e;
  history_write fd buf e r e' : adb_write fd buf e = (r, e') ->
    took fd e' = took fd e ++ match r with WrOk n => take (Z.to_nat n) buf | WrErr _ => [] end /\
    (forall fd', fd' <> fd -> took fd' e' = took fd' e) /\ (forall fd', got fd' e' = got fd' e) /\ events e' <= events e;
  history_call {A} (c : shell_call termios A) e a e' : shell_sys c e = (a, e') ->
    (forall fd, got fd e' = got fd e) /\ (forall fd, took fd e' = took fd e) /\ events e' <= events e;
  select_subset m w e reads writes e' : shell_sys (p_select m w) e = (inr (reads, writes), e') -> reads ⊆ m /\ writes ⊆ w;
}.

(** One descriptor read or written: what changes. *)
Record io_moved {E} (got took : Z -> E -> bytes) (events : E -> nat) (rfd wfd : option Z) (inp outp : bytes) (e e' : E) := {
  moved_got fd : got fd e' = got fd e ++ (if bool_decide (rfd = Some fd) then inp else []);
  moved_took fd : took fd e' = took fd e ++ (if bool_decide (wfd = Some fd) then outp else []);
  moved_events : events e' <= events e;
}.

Section History.
Context {E : Type} {K : Kernel E} {KL : KernelLaws E} {SO : ShellOs E}.
Context {got took : Z -> E -> bytes} {events : E -> nat} {FH : FdHistory E got took events}.
Abbreviation moved := (io_moved got took events).
Implicit Types (e : E).

Lemma moved_none e : moved None None [] [] e e.
Proof. split; [intros; by rewrite app_nil_r..|done]. Qed.

Lemma moved_read fd n e r e' : (0 < n)%Z -> adb_read fd n e = (r, e') ->
  moved (Some fd) None (match r with RdOk bs => bs | RdErr _ => [] end) [] e e'.
Proof.
  intros Hn Hr. destruct (history_read fd n e r e' Hn Hr) as (H1 & H2 & H3 & H4). split; [|by intros; rewrite H3, app_nil_r|done].
  intros fd'. case_bool_decide as Hd; [by injection Hd as ->|]. rewrite app_nil_r. apply H2. congruence.
Qed.

Lemma moved_write fd buf e r e' : adb_write fd buf e = (r, e') ->
  moved None (Some fd) [] (match r with WrOk n => take (Z.to_nat n) buf | WrErr _ => [] end) e e'.
Proof.
  intros Hr. destruct (history_write fd buf e r e' Hr) as (H1 & H2 & H3 & H4). split; [by intros; rewrite H3, app_nil_r| |done].
  intros fd'. case_bool_decide as Hd; [by injection Hd as ->|]. rewrite app_nil_r. apply H2. congruence.
Qed.

Lemma moved_call {A} (c : shell_call termios A) e a e' : shell_sys c e = (a, e') -> moved None None [] [] e e'.
Proof.
  intros Hr. destruct (history_call c e a e' Hr) as (H1 & H2 & H4). split; [by intros; rewrite H1, app_nil_r|by intros; rewrite H2, app_nil_r|done].
Qed.

Lemma moved_more_in fd inp inp' e e1 e2 :
  moved (Some fd) None inp [] e e1 -> moved (Some fd) None inp' [] e1 e2 -> moved (Some fd) None (inp ++ inp') [] e e2.
Proof.
  intros [H1 H2 H3] [H4 H5 H6]. split; [| |lia].
  - intros fd'. rewrite H4, H1. case_bool_decide; [by rewrite app_assoc|by rewrite !app_nil_r].
  - intros fd'. rewrite H5, H2, <- app_assoc. by destruct (bool_decide _).
Qed.

Lemma moved_more_out fd outp outp' e e1 e2 :
  moved None (Some fd) [] outp e e1 -> moved None (Some fd) [] outp' e1 e2 -> moved None (Some fd) [] (outp ++ outp') e e2.
Proof.
  intros [H1 H2 H3] [H4 H5 H6]. split; [| |lia].
  - intros fd'. rewrite H4, H1, <- app_assoc. by destruct (bool_decide _).
  - intros fd'. rewrite H5, H2. case_bool_decide; [by rewrite app_assoc|by rewrite !app_nil_r].
Qed.

(** [ReadFdExactly] reads what it returns, or stops in the middle. *)
Lemma ReadFdExactly_history N C fd len e (Q : rx_result -> E -> Prop) : (0 <= len)%Z ->
  (forall bs e', Zlen bs = len -> moved (Some fd) None bs [] e e' -> Q (RX_ok bs) e') ->
  (forall bs x e', moved (Some fd) None bs [] e e' -> Q (RX_fail x) e') ->
  cwp N C (ReadFdExactly fd len) Q e.
Proof.
  intros Hlen Hok Hfail. unfold ReadFdExactly, cwp.
  cut (forall fuel len acc e1, (0 <= len <= Z.of_nat fuel)%Z -> moved (Some fd) None acc [] e e1 ->
       (forall bs e', Zlen bs = (Zlen acc + len)%Z -> moved (Some fd) None bs [] e e' -> Q (RX_ok bs) e') ->
       cwp N C (ReadFdExactly_loop fuel fd len acc) Q e1).
  { intros Hl. apply Hl; [lia| |by intros bs e' Hb; apply Hok]. split; [intros; by destruct (bool_decide _); rewrite ?app_nil_r..|done]. }
  clear Hok len Hlen. intros fuel. induction fuel as [|f IH]; intros len acc e1 Hl Hm Hok; cbn [ReadFdExactly_loop].
  { destruct (Z.ltb_spec 0 len); [lia|]. apply cwp_ret, Hok; [lia|done]. }
  destruct (Z.ltb_spec 0 len) as [Hp|]; [|apply cwp_ret, Hok; [lia|done]].
  unfold cwp, bind, sys_read. destruct (adb_read fd len e1) as [r e2] eqn:Hr.
  pose proof (moved_read fd len e1 r e2 Hp Hr) as Hm2. pose proof (moved_more_in _ _ _ _ _ _ Hm Hm2) as Hm3.
  destruct r as [[|b bs]|x]; [by eapply Hfail| |by eapply Hfail].
  pose proof (read_count fd len e1 e2 (b :: bs) ltac:(lia) Hr) as Hc. apply IH; [cbn [length] in *; lia|done|].
  intros bs' e' Hb. apply Hok. rewrite length_app in Hb. lia.
Qed.

(** [WriteFdExactly] writes it all, or fails after a part; it has the fuel it needs. *)
Lemma WriteFdExactly_history C fuel fd buf e (Q : wx_result -> E -> Prop) : length buf + refusals fd e <= fuel ->
  (forall e', moved None (Some fd) [] buf e e' -> Q WX_ok e') ->
  (forall part x e', part `prefix_of` buf -> moved None (Some fd) [] part e e' -> Q (WX_fail x) e') ->
  cwp False C (WriteFdExactly fuel fd buf) Q e.
Proof.
  intros Hf Hok Hfail. unfold WriteFdExactly.
  cut (forall fuel done rest e1, buf = done ++ rest -> length rest + refusals fd e1 <= fuel ->
       moved None (Some fd) [] done e e1 -> cwp False C (WriteFdExactly_loop fuel fd rest) Q e1).
  { intros Hl. apply (Hl fuel [] buf e); [done|done|]. split; [intros; by destruct (bool_decide _); rewrite ?app_nil_r..|done]. }
  clear Hf fuel. intros fuel. induction fuel as [|f IH]; intros dn rest e1 Hb Hf Hm.
  { destruct rest as [|? ?]; [|cbn in Hf; lia]. apply cwp_ret, Hok. by rewrite Hb, app_nil_r. }
  destruct rest as [|b bs]; [apply cwp_ret, Hok; by rewrite Hb, app_nil_r|].
  cbn [WriteFdExactly_loop]. unfold cwp, bind, sys_write. destruct (adb_write fd (b :: bs) e1) as [r e2] eqn:Hr.
  pose proof (moved_more_out _ _ _ _ _ _ Hm (moved_write fd (b :: bs) e1 r e2 Hr)) as Hm2.
  destruct (write_progress fd (b :: bs) e1 e2 r Hr) as [Hle Hlt].
  destruct r as [n|x].
  - pose proof (write_count fd (b :: bs) e1 e2 n Hr) as Hc. apply (IH (dn ++ take (Z.to_nat n) (b :: bs))); [|rewrite length_drop|done].
    + by rewrite <- app_assoc, take_drop.
    + destruct (decide (n = 0%Z)) as [->|]; [specialize (Hlt ltac:(done) ltac:(by left)); cbn [length] in *; lia|lia].
  - rewrite app_nil_r in Hm2. destruct x; try (apply (Hfail dn); [rewrite Hb; by apply prefix_app_r|done]).
    specialize (Hlt ltac:(done) ltac:(by right)). apply (IH dn); [done|lia|done].
Qed.

End History.

(** ** The protocol's two ends *)

Section Protocol.
Context {E : Type} {K : Kernel E} {KL : KernelLaws E} {SO : ShellOs E}.
Context {got took : Z -> E -> bytes} {events : E -> nat} {FH : FdHistory E got took events}.
Abbreviation moved := (io_moved got took events).
Implicit Types (e : E) (p : shell_protocol).

(** A protocol object on [fd]. *)
Record protocol_on (fd : Z) p : Prop := {
  on_fd : sp_fd p = fd;
  on_capacity : (0 < data_capacity p < 2 ^ 32)%Z;
  on_more : (0 <= sp_bytes_left p)%Z;
  on_length : (0 <= sp_data_length p <= data_capacity p)%Z;
}.

(** Where its reader is. *)
Definition reader_state p : frame_state := between (sp_id p) (sp_bytes_left p).

(** What the buffer holds. *)
Definition held p : bytes := take (Z.to_nat (sp_data_length p)) (sp_data p).

(** Some bytes were consumed, from one state of the reader to another. *)
Definition consumed_to (st : frame_state) (bs : bytes) p' : Prop :=
  unframe st bs = (reader_state p', stdin_part (sp_id p') (held p')).

Lemma ReadPiece_history N C fd p e (Q : bool * shell_protocol -> E -> Prop) : protocol_on fd p ->
  (forall bs p' e', moved (Some fd) None bs [] e e' -> protocol_on fd p' -> consumed_to (reader_state p) bs p' -> Q (true, p') e') ->
  (forall bs p' e', moved (Some fd) None bs [] e e' -> protocol_on fd p' -> Q (false, p') e') ->
  cwp N C (ReadPiece p) Q e.
Proof.
  intros [Hfd Hc Hm Hl] Hok Hfail. unfold ReadPiece.
  assert (Hset : forall bs, Zlen bs = Z.min (sp_bytes_left p) (data_capacity p) ->
            protocol_on fd (set_piece bs p) /\ consumed_to (reader_state p) bs (set_piece bs p)).
  { intros bs Hb. assert (Hcap : data_capacity (set_piece bs p) = data_capacity p) by (apply set_piece_capacity; lia). split.
    - split; [done|by rewrite Hcap|cbn; lia|rewrite Hcap; cbn; lia].
    - unfold consumed_to, reader_state. rewrite unframe_body by lia. unfold held. cbn [sp_data_length set_piece].
      by rewrite Nat2Z.id, set_piece_data. }
  destruct (Z.eqb_spec (Z.min (sp_bytes_left p) (data_capacity p)) 0) as [Hz|Hz].
  - destruct (Hset [] ltac:(cbn; lia)). apply cwp_ret. eapply Hok; [|done|done].
    split; [intros; by destruct (bool_decide _); rewrite app_nil_r..|done].
  - apply cwp_bind. rewrite Hfd. apply ReadFdExactly_history; [lia| |].
    + intros bs e' Hb Hmv. destruct (Hset bs Hb). by eapply cwp_ret, Hok.
    + intros bs x e' Hmv. by eapply cwp_ret, Hfail.
Qed.

Lemma Read_history N C fd p e (Q : bool * shell_protocol -> E -> Prop) : protocol_on fd p ->
  (forall bs p' e', moved (Some fd) None bs [] e e' -> protocol_on fd p' -> consumed_to (reader_state p) bs p' -> Q (true, p') e') ->
  (forall bs p' e', moved (Some fd) None bs [] e e' -> protocol_on fd p' -> Q (false, p') e') ->
  cwp N C (Read p) Q e.
Proof.
  intros Hp Hok Hfail. unfold Read. destruct (Z.eqb_spec (sp_bytes_left p) 0) as [Hz|Hz]; [|by apply (ReadPiece_history N C fd)].
  pose proof Hp as [Hfd Hc Hm Hl]. apply cwp_bind. rewrite Hfd. apply ReadFdExactly_history; [done| |by intros; eapply cwp_ret, Hfail].
  intros header e1 Hlen Hm1. destruct header as [|id len] eqn:Hh; [done|]. rewrite <- Hh in *.
  assert (Hlen5 : length header = 5) by (unfold kHeaderSize in Hlen; lia).
  pose proof (le_decode_range len) as Hr.
  apply (ReadPiece_history N C fd).
  - split; [done|done|cbn; lia|cbn; unfold data_capacity in *; cbn; lia].
  - intros bs p' e' Hm2 Hp' Hc'. eapply Hok; [by eapply moved_more_in|done|].
    unfold consumed_to, reader_state in *. unfold between at 1. rewrite Hz. cbn [Z.eqb]. rewrite unframe_app, unframe_header by done.
    rewrite Hh. cbn [hd tl]. cbn [sp_id sp_bytes_left set_header] in Hc'. by rewrite Hc'.
  - intros bs p' e' Hm2 Hp'. eapply Hfail; [by eapply moved_more_in|done].
Qed.

Lemma WriteShell_history C fd id length p e (Q : bool * shell_protocol -> E -> Prop) : protocol_on fd p ->
  (0 <= length <= data_capacity p)%Z ->
  let packet := shell_packet id (take (Z.to_nat length) (sp_data p)) in
  (forall p' e', moved None (Some fd) [] packet e e' -> protocol_on fd p' -> Q (true, p') e') ->
  (forall part p' e', part `prefix_of` packet -> moved None (Some fd) [] part e e' -> protocol_on fd p' -> Q (false, p') e') ->
  cwp False C (WriteShell id length p) Q e.
Proof.
  intros Hp Hl packet Hok Hfail. pose proof Hp as [Hfd Hc Hm Hd]. unfold WriteShell. apply cwp_bind, cwp_get. unfold Write.
  apply cwp_bind, cwp_check; [intros Hf; apply Z.leb_nle in Hf; lia|intros _]. apply cwp_bind.
  assert (Hlen : Zlen (take (Z.to_nat length) (sp_data p)) = length) by (unfold data_capacity in *; rewrite length_take; lia).
  rewrite u32_small by lia.
  replace (byte_of id :: le_encode 4 length ++ take (Z.to_nat length) (sp_data p)) with packet
    by (unfold packet, shell_packet; by rewrite Hlen).
  rewrite Hfd. apply WriteFdExactly_history.
  - unfold packet, shell_packet. cbn [List.length]. rewrite length_app, length_le_encode. lia.
  - intros e' Hmv. apply cwp_ret, Hok; [done|]. by split.
  - intros part x e' Hpre Hmv. eapply cwp_ret, Hfail; [done|done|]. by split.
Qed.

End Protocol.
