(* ===== verification/ShellPass.v ===== *)
(** * Passing data keeps the streams (shell_service.cpp)

    The invariant of a subprocess whose data is passed, and what each function
    of the loop does to it. *)

From S2P Require Import Prelude LibBase Packet AdbIo Transport World SmartText ShellProtocol Services ShellService ShellStreams.

(** The one way the code can crash here. *)
Definition sscanf_reads_on (why : string) : Prop := why = "sscanf past the buffer"%string.

Section Pass.
Context {E : Type} {K : Kernel E} {KL : KernelLaws E} {SO : ShellOs E} {LB : LibBase}.
Context {got took : Z -> E -> bytes} {events : E -> nat} {FH : FdHistory E got took events}.
Abbreviation moved := (io_moved got took events).
Abbreviation cwp := (cwp False sscanf_reads_on).
Implicit Types (e : E) (s : Subprocess E) (p : shell_protocol) (d : option sfd).

(** The protocol's descriptor and the two pipes; [e0] is the system before;
    [bound] bounds what [select] can still answer. *)
Context (P O R : Z) (e0 : E) (bound : nat).

(** Three descriptors; the last may be missing. *)
Record three_fds : Prop := {
  fds_proto : (0 <= P < FD_SETSIZE)%Z;
  fds_out : (0 <= O < FD_SETSIZE)%Z;
  fds_err : (R = -1 \/ 0 <= R < FD_SETSIZE)%Z;
  fds_distinct : P <> O /\ P <> R /\ O <> R;
}.
Context (H3 : three_fds).

(** It has [fd], or it was closed. *)
Definition is_or_closed s (q : sfd) (fd : Z) : Prop := sfds s q = fd \/ sfds s q = (-1)%Z.

(** The part of the packet for the process that is still to be written. *)
Definition pending s p : bytes :=
  take (Z.to_nat (input_bytes_left_ s)) (drop (Z.to_nat (sp_data_length p - input_bytes_left_ s)) (sp_data p)).

(** The descriptor lives: it is open, and [d] was not found dead. *)
Definition lives s d (q : sfd) : Prop := d <> Some q /\ sfds s q <> (-1)%Z.

(** [outs]: the packets sent; what was sent is all of them while the protocol
    lives; they hold what was read from the process. *)
Record output_ok s d (outs : list (Z * bytes)) : Prop := {
  out_object : exists p, output_ s = Some p /\ protocol_on P p;
  out_sent : exists w, took P (sub_env s) = took P e0 ++ w /\ w `prefix_of` shell_wire outs /\
    (lives s d protocol_sfd_ -> w = shell_wire outs);
  out_packets : Forall (fun '(id, bs) => (id = kIdStdout \/ id = kIdStderr) /\ (0 < Zlen bs < 2 ^ 32)%Z) outs;
  out_read : got O (sub_env s) = got O e0 ++ payloads kIdStdout outs;
  out_read_err : got R (sub_env s) = got R e0 ++ payloads kIdStderr outs;
}.

(** [fed]: what the process was given; with what is pending it is what the
    packets read so far say, while both ends live. *)
Record input_ok s d : Prop := {
  in_object : exists p consumed fed lost st, input_ s = Some p /\ protocol_on P p /\
    (0 <= input_bytes_left_ s <= sp_data_length p)%Z /\
    got P (sub_env s) = got P e0 ++ consumed /\ took O (sub_env s) = took O e0 ++ fed /\
    unframe (InHeader []) consumed = (st, fed ++ pending s p ++ lost) /\
    (lives s d protocol_sfd_ -> st = reader_state p /\ (lives s d stdinout_sfd_ -> lost = []));
}.

(** A descriptor found dead is one of the three, and open. *)
Definition found s d : Prop :=
  match d with
  | None => True
  | Some q => (q = protocol_sfd_ \/ q = stdinout_sfd_ \/ q = stderr_sfd_) /\ sfds s q <> (-1)%Z
  end.

Record passing s d (outs : list (Z * bytes)) : Prop := {
  pass_proto : is_or_closed s protocol_sfd_ P;
  pass_out : is_or_closed s stdinout_sfd_ O;
  pass_err : is_or_closed s stderr_sfd_ R;
  pass_output : output_ok s d outs;
  pass_input : input_ok s d;
  pass_events : events (sub_env s) <= bound;
  pass_found : found s d;
}.

(** ** Rules *)

Lemma cwp_on_os {A} N C (m : M E A) (Q : A -> Subprocess E -> Prop) s :
  Prelude.cwp N C m (fun a e => Q a (set_sub_env e s)) (sub_env s) -> Prelude.cwp N C (on_os m) Q s.
Proof. unfold Prelude.cwp, on_os. by destruct (m (sub_env s)). Qed.

Lemma cwp_os {A} N C (c : shell_call termios A) (Q : A -> Subprocess E -> Prop) s :
  (forall a e', moved None None [] [] (sub_env s) e' -> Q a (set_sub_env e' s)) -> Prelude.cwp N C (os c) Q s.
Proof.
  intros HQ. apply cwp_on_os. unfold Prelude.cwp, shell_os. destruct (shell_sys c (sub_env s)) as [a e'] eqn:Hc.
  apply HQ. by eapply moved_call.
Qed.

(** What did not move. *)
Lemma moved_same_got fd rfd wfd inp outp e e' : moved rfd wfd inp outp e e' -> rfd <> Some fd -> got fd e' = got fd e.
Proof. intros [H _ _] Hn. by rewrite H, bool_decide_eq_false_2, app_nil_r. Qed.
Lemma moved_same_took fd rfd wfd inp outp e e' : moved rfd wfd inp outp e e' -> wfd <> Some fd -> took fd e' = took fd e.
Proof. intros [_ H _] Hn. by rewrite H, bool_decide_eq_false_2, app_nil_r. Qed.
Lemma moved_the_got fd wfd inp outp e e' : moved (Some fd) wfd inp outp e e' -> got fd e' = got fd e ++ inp.
Proof. intros [H _ _]. by rewrite H, bool_decide_eq_true_2. Qed.
Lemma moved_the_took fd rfd inp outp e e' : moved rfd (Some fd) inp outp e e' -> took fd e' = took fd e ++ outp.
Proof. intros [_ H _]. by rewrite H, bool_decide_eq_true_2. Qed.

(** The two halves depend on different streams, and on different fields. *)
Lemma output_ok_frame s s' d d' outs :
  output_ s' = output_ s -> (lives s' d' protocol_sfd_ -> lives s d protocol_sfd_) ->
  got O (sub_env s') = got O (sub_env s) -> got R (sub_env s') = got R (sub_env s) ->
  took P (sub_env s') = took P (sub_env s) -> output_ok s d outs -> output_ok s' d' outs.
Proof.
  intros Ho Hl H1 H2 HP [Hobj (w & Hw & Hpre & Hall) Hids Ho1 Ho2]. split; [by rewrite Ho| |done|by rewrite H1|by rewrite H2].
  exists w. rewrite HP. auto.
Qed.

Lemma input_ok_frame s s' d d' :
  input_ s' = input_ s -> input_bytes_left_ s' = input_bytes_left_ s ->
  (forall q, lives s' d' q -> lives s d q) ->
  got P (sub_env s') = got P (sub_env s) -> took O (sub_env s') = took O (sub_env s) -> input_ok s d -> input_ok s' d'.
Proof.
  intros Hi Hb Hl HP HO [(p & consumed & fed & lost & st & Hp & Hon & Hr & Hg & Ht & Hu & Hlive)].
  split. exists p, consumed, fed, lost, st. unfold pending in *. rewrite Hi, Hb, HP, HO. split_and!; try done; try lia.
  intros Hl1. destruct (Hlive (Hl _ Hl1)) as [-> Hlost]. auto.
Qed.

(** A call that moves nothing. *)
Lemma passing_env s d outs e' : moved None None [] [] (sub_env s) e' -> passing s d outs -> passing (set_sub_env e' s) d outs.
Proof.
  intros Hm [H1 H2 H3' Ho Hi He Hfd]. split; try done.
  - eapply output_ok_frame, Ho; try done; first [by apply (moved_same_got _ _ _ _ _ _ _ Hm)|by apply (moved_same_took _ _ _ _ _ _ _ Hm)].
  - eapply input_ok_frame, Hi; try done; first [by apply (moved_same_got _ _ _ _ _ _ _ Hm)|by apply (moved_same_took _ _ _ _ _ _ _ Hm)].
  - cbn. pose proof (moved_events _ _ _ _ _ _ _ _ _ Hm). lia.
Qed.

Lemma lives_open s q : sfds s q <> (-1)%Z -> lives s None q.
Proof. by split. Qed.

(** What is known of a dead descriptor is less. *)
Lemma lives_none s d q : lives s d q -> lives s None q.
Proof. by intros [_ Hl]. Qed.

Lemma output_dead s d outs : output_ok s None outs -> output_ok s d outs.
Proof. intros Ho. eapply output_ok_frame, Ho; try done. apply lives_none. Qed.

Lemma input_dead s d : input_ok s None -> input_ok s d.
Proof. intros Hi. eapply input_ok_frame, Hi; try done. apply lives_none. Qed.

Lemma passing_dead s d outs : found s d -> passing s None outs -> passing s d outs.
Proof. intros Hd []. split; try done; [by apply output_dead|by apply input_dead]. Qed.

(** ** The input *)

(** What is pending, when the buffer is taken over and when a part is written. *)
Lemma pending_all s p : input_bytes_left_ s = sp_data_length p -> pending s p = held p.
Proof. unfold pending, held. intros ->. by rewrite Z.sub_diag. Qed.

Lemma pending_none s p : input_bytes_left_ s = 0%Z -> pending s p = [].
Proof. unfold pending. by intros ->. Qed.

Lemma pending_written s s' p n : protocol_on P p -> (0 < n <= input_bytes_left_ s)%Z ->
  (input_bytes_left_ s <= sp_data_length p)%Z -> input_bytes_left_ s' = (input_bytes_left_ s - n)%Z ->
  pending s p = take (Z.to_nat n) (pending s p) ++ pending s' p.
Proof.
  intros [_ _ _ Hl] Hn Hle Hs'. unfold pending. rewrite Hs'.
  set (l := Z.to_nat (input_bytes_left_ s)). set (d := Z.to_nat (sp_data_length p - input_bytes_left_ s)).
  replace (Z.to_nat (sp_data_length p - (input_bytes_left_ s - n))) with (d + Z.to_nat n) by lia.
  replace (Z.to_nat (input_bytes_left_ s - n)) with (l - Z.to_nat n) by lia.
  rewrite <- drop_drop, take_take, Nat.min_l by lia.
  rewrite <- (take_drop (Z.to_nat n) (take l (drop d (sp_data p)))) at 1. f_equal; [by rewrite take_take, Nat.min_l by lia|].
  rewrite skipn_firstn_comm. done.
Qed.

(** A state after [Read] gave [p'] from the state [s]: where nothing else but
    [input_bytes_left_] differs, the streams are as they should be. *)
Lemma passing_read s outs p p' bs e' s' :
  passing s None outs -> input_bytes_left_ s = 0%Z -> sfds s protocol_sfd_ <> (-1)%Z -> input_ s = Some p ->
  moved (Some P) None bs [] (sub_env s) e' -> protocol_on P p' -> consumed_to (reader_state p) bs p' ->
  input_ s' = Some p' -> output_ s' = output_ s -> sfds s' = sfds s -> moved None None [] [] e' (sub_env s') ->
  (input_bytes_left_ s' = 0%Z /\ (sfds s stdinout_sfd_ <> (-1)%Z -> sp_id p' <> kIdStdin)) \/
  (input_bytes_left_ s' = sp_data_length p' /\ sp_id p' = kIdStdin /\ sfds s stdinout_sfd_ <> (-1)%Z) ->
  passing s' None outs.
Proof.
  intros [Hpr Hou Her Ho [(q & consumed & fed & lost & st & Hp & Hon & Hr & Hg & Ht & Hu & Hlive)] He Hfd] Hz Hproto Hin Hm Hon' Hc
    Hi' Ho' Hs' Hm' Hleft.
  destruct H3 as [HP HO HR (HPO & HPR & HOR)].
  assert (q = p) as -> by congruence. destruct (Hlive (lives_open _ _ Hproto)) as [-> Hlost]. rewrite pending_none in Hu by done.
  split; try (unfold is_or_closed; by rewrite Hs'); try done.
  - eapply output_ok_frame, Ho; try done; try (unfold lives; by rewrite Hs').
    + rewrite (moved_same_got _ _ _ _ _ _ _ Hm') by done. apply (moved_same_got _ _ _ _ _ _ _ Hm). congruence.
    + rewrite (moved_same_got _ _ _ _ _ _ _ Hm') by done. apply (moved_same_got _ _ _ _ _ _ _ Hm). congruence.
    + by rewrite (moved_same_took _ _ _ _ _ _ _ Hm'), (moved_same_took _ _ _ _ _ _ _ Hm) by done.
  - assert (Hu2 : unframe (InHeader []) (consumed ++ bs) = (reader_state p', fed ++ lost ++ stdin_part (sp_id p') (held p'))).
    { rewrite unframe_app, Hu, Hc. cbn [app]. by rewrite <- app_assoc. }
    set (out := stdin_part (sp_id p') (held p')) in *.
    assert (Hex : exists lost', fed ++ lost ++ out = fed ++ pending s' p' ++ lost' /\ (sfds s stdinout_sfd_ <> (-1)%Z -> lost' = []) /\
              (0 <= input_bytes_left_ s' <= sp_data_length p')%Z).
    { destruct Hon' as [_ _ _ Hl]. destruct Hleft as [[Hl0 Hid]|(Hl0 & Hid & Hopen)].
      - exists (lost ++ out). rewrite pending_none, Hl0 by done. split_and!; [done| |lia|lia]. intros Hopen.
        rewrite (Hlost (lives_open _ _ Hopen)). unfold out, stdin_part. by rewrite (proj2 (Z.eqb_neq _ _) (Hid Hopen)).
      - exists []. rewrite (pending_all s'), Hl0, (Hlost (lives_open _ _ Hopen)) by done. unfold out, stdin_part. rewrite Hid.
        split_and!; [by rewrite app_nil_r|done|lia|lia]. }
    destruct Hex as (lost' & Hl' & Hnil & Hrange).
    split. exists p', (consumed ++ bs), fed, lost', (reader_state p').
    rewrite (moved_same_got _ _ _ _ _ _ _ Hm'), (moved_the_got _ _ _ _ _ _ Hm), Hg, app_assoc by done.
    rewrite (moved_same_took _ _ _ _ _ _ _ Hm'), (moved_same_took _ _ _ _ _ _ _ Hm) by done.
    split_and!; try done; [lia|lia|by rewrite Hu2, Hl'|]. intros _. split; [done|]. unfold lives. rewrite Hs'. intros [_ ?]. auto.
  - pose proof (moved_events _ _ _ _ _ _ _ _ _ Hm). pose proof (moved_events _ _ _ _ _ _ _ _ _ Hm'). lia.
Qed.

(** When [Read] fails, the protocol is dead. *)
Lemma passing_read_fails s outs p p' bs e' :
  passing s None outs -> input_bytes_left_ s = 0%Z -> sfds s protocol_sfd_ <> (-1)%Z -> input_ s = Some p ->
  moved (Some P) None bs [] (sub_env s) e' -> protocol_on P p' ->
  passing (set_input_ (Some p') (set_sub_env e' s)) (Some protocol_sfd_) outs.
Proof.
  intros Hs Hz Hproto Hin Hm Hon'.
  pose proof Hs as [Hpr Hou Her Ho [(q & consumed & fed & lost & st & Hp & Hon & Hr & Hg & Ht & Hu & Hlive)] He Hfd].
  destruct H3 as [HP HO HR (HPO & HPR & HOR)]. split; try done.
  - eapply output_ok_frame, (output_dead _ _ _ Ho); try done.
    + apply (moved_same_got _ _ _ _ _ _ _ Hm). congruence.
    + apply (moved_same_got _ _ _ _ _ _ _ Hm). congruence.
    + by rewrite (moved_same_took _ _ _ _ _ _ _ Hm) by done.
  - destruct (unframe st bs) as [st' out] eqn:Hst. split.
    exists p', (consumed ++ bs), fed, (lost ++ out), st'. cbn -[unframe]. rewrite (moved_the_got _ _ _ _ _ _ Hm), Hg, app_assoc by done.
    rewrite (moved_same_took _ _ _ _ _ _ _ Hm) by done. rewrite Hz, unframe_app, Hu, Hst, !pending_none by done.
    destruct Hon'. split_and!; try done; try lia; [by cbn; rewrite <- app_assoc|by intros []].
  - pose proof (moved_events _ _ _ _ _ _ _ _ _ Hm). cbn in *. lia.
  - split; [by left|done].
Qed.

Lemma take_packet_passing s outs (Q : option (option sfd) -> Subprocess E -> Prop) :
  passing s None outs -> input_bytes_left_ s = 0%Z -> sfds s protocol_sfd_ <> (-1)%Z ->
  (forall r s', sfds s' = sfds s -> passing s' (default None r) outs -> (r <> None -> input_bytes_left_ s' = 0%Z) ->
     (input_bytes_left_ s' <> 0%Z -> sfds s stdinout_sfd_ <> (-1)%Z) -> Q r s') ->
  cwp take_packet Q s.
Proof.
  intros Hs Hz Hproto HQ. pose proof Hs as [_ _ _ _ [(p & _ & _ & _ & _ & Hp & Hon & _)] _].
  unfold take_packet. apply cwp_bind, cwp_get, cwp_bind. rewrite Hp. apply cwp_ret, cwp_bind, cwp_on_os.
  apply (Read_history (got := got) (took := took) (events := events) _ _ P); [done| |].
  - intros bs p' e' Hm Hon' Hc. apply cwp_bind, cwp_modify. cbn [negb]. apply cwp_bind, cwp_gets.
    assert (Hkeep : forall s', input_ s' = Some p' -> output_ s' = output_ s -> sfds s' = sfds s -> moved None None [] [] e' (sub_env s') ->
       (input_bytes_left_ s' = 0%Z /\ (sfds s stdinout_sfd_ <> (-1)%Z -> sp_id p' <> kIdStdin)) \/
       (input_bytes_left_ s' = sp_data_length p' /\ sp_id p' = kIdStdin /\ sfds s stdinout_sfd_ <> (-1)%Z) -> passing s' None outs)
      by (intros; by eapply passing_read).
    assert (Hout : forall r e2, moved None None [] [] e' e2 -> (sfds s stdinout_sfd_ <> (-1)%Z -> sp_id p' <> kIdStdin) ->
       r = None \/ r = Some None \/ r = Some (Some stdinout_sfd_) /\ sfds s stdinout_sfd_ <> (-1)%Z -> Q r (set_sub_env e2 (set_input_ (Some p') (set_sub_env e' s)))).
    { intros r e2 Hm2 Hid Hr. assert (passing (set_sub_env e2 (set_input_ (Some p') (set_sub_env e' s))) None outs) by (apply Hkeep; auto).
      apply HQ; [done| |done|by cbn]. destruct Hr as [->|[->|[-> ?]]]; cbn; try done. apply passing_dead; [split; auto|done]. }
    assert (Hsame : Q None (set_input_ (Some p') (set_sub_env e' s)) <-> Q None (set_sub_env e' (set_input_ (Some p') (set_sub_env e' s)))) by done.
    destruct (Z.eqb_spec (sfds s stdinout_sfd_) (-1)) as [Hc1|Hopen]; cbn [sfds set_input_ set_sub_env]; rewrite ?Hc1.
    { apply cwp_ret, Hsame, Hout; [apply moved_none|lia|by left]. }
    rewrite (proj2 (Z.eqb_neq _ _) Hopen).
    destruct (Z.eqb_spec (sp_id p') kIdWindowSizeChange) as [Hw|Hw].
    { assert (sp_id p' <> kIdStdin) by (rewrite Hw; done). apply cwp_bind. unfold change_window_size. apply cwp_bind, cwp_check; [done|intros _].
      destruct (scan_winsize _) as [[[[]]]|]; [apply cwp_os; intros; apply cwp_ret, Hout; [done|done|by left]|].
      apply cwp_ret, cwp_ret, Hsame, Hout; [apply moved_none|done|by left]. }
    destruct (Z.eqb_spec (sp_id p') kIdStdin) as [Hi|Hi].
    { apply cwp_bind, cwp_modify, cwp_ret, HQ; [done| |done|done]. apply Hkeep; try done; [apply moved_none|by right]. }
    destruct (Z.eqb_spec (sp_id p') kIdCloseStdin) as [Hcl|Hcl]; [|apply cwp_ret, Hsame, Hout; [apply moved_none|done|by left]].
    case_bool_decide; [|apply cwp_ret, Hsame, Hout; [apply moved_none|done|by left]].
    apply cwp_bind, cwp_os. intros ok e2 Hm2. apply cwp_ret, Hout; [done|done|]. destruct ok; auto.
  - intros bs p' e' Hm Hon'. apply cwp_bind, cwp_modify. cbn [negb]. apply cwp_ret, HQ; [done|by eapply passing_read_fails|done|by cbn].
Qed.

Lemma open_is s q fd : is_or_closed s q fd -> sfds s q <> (-1)%Z -> sfds s q = fd.
Proof. by intros [|]. Qed.

Lemma write_input_passing s outs (Q : option sfd -> Subprocess E -> Prop) :
  passing s None outs -> (input_bytes_left_ s <> 0%Z -> sfds s stdinout_sfd_ <> (-1)%Z) ->
  (forall r s', sfds s' = sfds s -> passing s' r outs -> (r <> None -> input_bytes_left_ s' = 0%Z) ->
     (input_bytes_left_ s' <> 0%Z -> sfds s stdinout_sfd_ <> (-1)%Z) -> Q r s') ->
  cwp write_input Q s.
Proof.
  intros Hs Hopen HQ. unfold write_input. apply cwp_bind, cwp_get.
  destruct (Z.ltb_spec 0 (input_bytes_left_ s)) as [Hpos|]; cbn [negb]; [|by apply cwp_ret, HQ].
  pose proof Hs as [Hpr Hou Her Ho [(p & consumed & fed & lost & st & Hp & Hon & Hr & Hg & Ht & Hu & Hlive)] He Hfd].
  assert (Hso : sfds s stdinout_sfd_ <> (-1)%Z) by (apply Hopen; lia).
  apply cwp_bind. rewrite Hp. apply cwp_ret, cwp_bind, cwp_gets, cwp_bind, cwp_on_os. rewrite (open_is _ _ _ Hou Hso).
  change (take _ (drop _ (sp_data p))) with (pending s p).
  unfold Prelude.cwp, sys_write. destruct (adb_write O (pending s p) (sub_env s)) as [r e'] eqn:Hw.
  pose proof (moved_write (got := got) (took := took) (events := events) _ _ _ _ _ Hw) as Hm.
  destruct H3 as [HP HO HR (HPO & HPR & HOR)].
  assert (Hout : forall s' d, output_ s' = output_ s -> sfds s' = sfds s -> sub_env s' = e' -> output_ok s' d outs).
  { intros s' d Ho' Hs' He'. apply (output_ok_frame s _ d _ _ Ho'); rewrite ?He'; try (by apply (moved_same_got _ _ _ _ _ _ _ Hm)).
    - unfold lives. by rewrite Hs'.
    - apply (moved_same_took _ _ _ _ _ _ _ Hm). congruence.
    - by apply output_dead. }
  assert (Hev : events e' <= bound) by (pose proof (moved_events _ _ _ _ _ _ _ _ _ Hm); lia).
  assert (Hfail : match r with WrOk n => n = 0%Z | WrErr _ => True end ->
            Q (Some stdinout_sfd_) (set_input_bytes_left_ 0 (set_sub_env e' s))).
  { intros Hn. apply HQ; try done. split; try done; [by apply Hout| |by split; auto].
    split. exists p, consumed, fed, (pending s p ++ lost), st. cbn -[unframe].
    rewrite (moved_same_got _ _ _ _ _ _ _ Hm), (moved_the_took _ _ _ _ _ _ Hm), Ht by done.
    split_and!; try done; try lia; [destruct r as [n|]; [subst n; by rewrite take_0, app_nil_r|by rewrite app_nil_r]|].
    intros [_ Hl]. destruct (Hlive (lives_open _ _ Hl)) as [-> _]. split; [done|]. by intros []. }
  destruct r as [n|x].
  - pose proof (write_count _ _ _ _ _ Hw) as Hn. destruct (decide (n = 0%Z)) as [->|Hn0]; [by apply Hfail|].
    assert (Hle : (n <= input_bytes_left_ s)%Z) by (unfold pending in Hn; rewrite length_take in Hn; lia).
    assert (Hcont : Q None (set_input_bytes_left_ (input_bytes_left_ s - n) (set_sub_env e' s))).
    { apply HQ; try done. split; try done; [by apply Hout|].
      split. exists p, consumed, (fed ++ take (Z.to_nat n) (pending s p)), lost, st. cbn -[unframe].
      rewrite (moved_same_got _ _ _ _ _ _ _ Hm), (moved_the_took _ _ _ _ _ _ Hm), Ht, app_assoc by done.
      split_and!; try done; try lia. rewrite Hu. f_equal. rewrite <- !app_assoc. f_equal. rewrite app_assoc. f_equal.
      apply pending_written; [done|lia|lia|done]. }
    destruct n; [done|exact Hcont|exact Hcont].
  - destruct x; try exact (Hfail I). apply cwp_ret, HQ; try done. split; try done; [by apply Hout|].
    apply (input_ok_frame s _ None); try done; [..|exact (pass_input _ _ _ Hs)].
    + by apply (moved_same_got _ _ _ _ _ _ _ Hm).
    + etrans; [apply (moved_the_took _ _ _ _ _ _ Hm)|apply app_nil_r].
Qed.

Lemma PassInput_passing s outs (Q : option sfd -> Subprocess E -> Prop) :
  passing s None outs -> sfds s protocol_sfd_ <> (-1)%Z -> (input_bytes_left_ s <> 0%Z -> sfds s stdinout_sfd_ <> (-1)%Z) ->
  (forall r s', sfds s' = sfds s -> passing s' r outs -> (r <> None -> input_bytes_left_ s' = 0%Z) ->
     (input_bytes_left_ s' <> 0%Z -> sfds s stdinout_sfd_ <> (-1)%Z) -> Q r s') ->
  cwp PassInput Q s.
Proof.
  intros Hs Hproto Hopen HQ. unfold PassInput. apply cwp_bind, cwp_get, cwp_bind.
  destruct (Z.eqb_spec (input_bytes_left_ s) 0) as [Hz|Hz].
  - apply (take_packet_passing s outs); try done. intros [r|] s' Hs' Hp Hl Hl'.
    + apply cwp_ret, HQ; try done. intros _. by apply Hl.
    + apply (write_input_passing s' outs); rewrite ?Hs'; auto.
  - apply cwp_ret, (write_input_passing s outs); auto.
Qed.

(** ** The output *)

Definition channel (q : sfd) (id fd : Z) : Prop :=
  (q = stdinout_sfd_ /\ id = kIdStdout /\ fd = O) \/ (q = stderr_sfd_ /\ id = kIdStderr /\ fd = R).

Lemma channel_fd s outs q id fd : passing s None outs -> channel q id fd -> sfds s q <> (-1)%Z -> sfds s q = fd.
Proof. intros [H1 H2 H3' _ _ _ _] [(-> & _ & ->)|(-> & _ & ->)]; by apply open_is. Qed.

(** A protocol object, whatever is put in its buffer. *)
Lemma put_data_on fd bs p : protocol_on fd p -> (Zlen bs <= data_capacity p)%Z ->
  protocol_on fd (put_data bs p) /\ data_capacity (put_data bs p) = data_capacity p.
Proof.
  intros [H1 H2 H3' H4] Hb. assert (Hc : data_capacity (put_data bs p) = data_capacity p)
    by (unfold data_capacity in *; cbn; rewrite length_app, length_drop; lia).
  split; [|done]. split; rewrite ?Hc; done.
Qed.

(** After a read from [fd] of what goes out as a packet: [w] is what was written of it. *)
Lemma passing_output s outs q id fd bs p' w e1 e2 d :
  passing s None outs -> channel q id fd -> sfds s q <> (-1)%Z -> sfds s protocol_sfd_ <> (-1)%Z -> (0 < Zlen bs < 2 ^ 32)%Z ->
  moved (Some fd) None bs [] (sub_env s) e1 -> moved None (Some P) [] w e1 e2 -> protocol_on P p' ->
  w `prefix_of` shell_packet id bs -> (d <> Some protocol_sfd_ -> w = shell_packet id bs) -> found s d ->
  passing (set_output_ (Some p') (set_sub_env e2 s)) d (outs ++ [(id, bs)]).
Proof.
  intros Hs Hch Hq Hproto Hb Hm1 Hm2 Hon Hpre Hall Hfound.
  pose proof Hs as [Hpr Hou Her [Hobj (w0 & Hw0 & Hpre0 & Hall0) Hids Ho1 Ho2] _ He Hfd]. destruct H3 as [HP HO HR (HPO & HPR & HOR)].
  assert (w0 = shell_wire outs) as -> by (by apply Hall0, lives_open).
  assert (HfdP : fd <> P) by (destruct Hch as [(_ & _ & ->)|(_ & _ & ->)]; congruence).
  split; try done.
  - split; [by exists p'| | | |].
    + exists (shell_wire outs ++ w). cbn. rewrite (moved_the_took _ _ _ _ _ _ Hm2), (moved_same_took _ _ _ _ _ _ _ Hm1), Hw0 by done.
      rewrite shell_wire_snoc. split_and!; [by rewrite app_assoc|by apply prefix_app|]. intros [Hd _]. by rewrite (Hall Hd).
    + apply Forall_app. split; [done|]. apply Forall_singleton. destruct Hch as [(_ & -> & _)|(_ & -> & _)]; auto.
    + cbn. rewrite (moved_same_got _ _ _ _ _ _ _ Hm2) by done. rewrite payloads_snoc.
      destruct Hch as [(_ & -> & ->)|(_ & -> & ->)]; cbn.
      * by rewrite (moved_the_got _ _ _ _ _ _ Hm1), Ho1, app_assoc.
      * rewrite app_nil_r. rewrite (moved_same_got _ _ _ _ _ _ _ Hm1); [done|congruence].
    + cbn. rewrite (moved_same_got _ _ _ _ _ _ _ Hm2) by done. rewrite payloads_snoc.
      destruct Hch as [(_ & -> & ->)|(_ & -> & ->)]; cbn.
      * rewrite app_nil_r. rewrite (moved_same_got _ _ _ _ _ _ _ Hm1); [done|congruence].
      * by rewrite (moved_the_got _ _ _ _ _ _ Hm1), Ho2, app_assoc.
  - apply (input_ok_frame s _ d); try done; [..|exact (input_dead _ d (pass_input _ _ _ Hs))]; cbn.
    + rewrite (moved_same_got _ _ _ _ _ _ _ Hm2) by done. apply (moved_same_got _ _ _ _ _ _ _ Hm1). congruence.
    + rewrite (moved_same_took _ _ _ _ _ _ _ Hm2) by congruence. by apply (moved_same_took _ _ _ _ _ _ _ Hm1).
  - pose proof (moved_events _ _ _ _ _ _ _ _ _ Hm1). pose proof (moved_events _ _ _ _ _ _ _ _ _ Hm2). cbn. lia.
Qed.

Lemma PassOutput_passing s outs q id fd (Q : option sfd -> Subprocess E -> Prop) :
  passing s None outs -> channel q id fd -> sfds s q <> (-1)%Z -> sfds s protocol_sfd_ <> (-1)%Z ->
  (forall r s' outs', sfds s' = sfds s -> input_bytes_left_ s' = input_bytes_left_ s -> passing s' r (outs ++ outs') -> Q r s') ->
  cwp (PassOutput q id) Q s.
Proof.
  intros Hs Hch Hq Hproto HQ. pose proof Hs as [_ _ _ [(p & Hp & Hon) _ _ _ _] _ _ _]. pose proof Hon as [_ Hcap _ _].
  unfold PassOutput. apply cwp_bind, cwp_get, cwp_bind. rewrite Hp. apply cwp_ret, cwp_bind, cwp_gets, cwp_bind, cwp_on_os.
  rewrite (channel_fd _ _ _ _ _ Hs Hch Hq). unfold Prelude.cwp at 1, sys_read.
  destruct (adb_read fd (data_capacity p) (sub_env s)) as [r e1] eqn:Hr.
  pose proof (moved_read (got := got) (took := took) (events := events) _ _ _ _ _ (proj1 Hcap) Hr) as Hm1.
  assert (Hdead : match r with RdOk (_ :: _) => False | _ => True end -> forall d, d = None \/ d = Some q -> Q d (set_sub_env e1 s)).
  { intros Hnil d Hd. apply (HQ d _ []); [done|done|]. rewrite app_nil_r. apply passing_dead; [by destruct Hd as [->| ->]; [|split; [destruct Hch as [(-> & _)|(-> & _)]; auto|]]|apply passing_env; [|done]].
    destruct r as [[|]|]; [|done|]; (destruct Hm1 as [G1 G2 G3]; split; [intros; rewrite G1; by destruct (bool_decide _)|done|done]). }
  destruct r as [[|b bs]|x]; [by apply Hdead; auto| |destruct x; apply Hdead; auto].
  apply cwp_bind, cwp_on_os. pose proof (read_count fd (data_capacity p) _ _ _ ltac:(lia) Hr) as Hlen.
  destruct (put_data_on P (b :: bs) p Hon Hlen) as [Hon1 Hcap1].
  assert (Htake : take (Z.to_nat (Zlen (b :: bs))) (sp_data (put_data (b :: bs) p)) = b :: bs) by (rewrite Nat2Z.id; apply take_app_length).
  assert (Hlen2 : (0 < Zlen (b :: bs) < 2 ^ 32)%Z) by (cbn [length] in *; lia).
  apply (WriteShell_history (got := got) (took := took) (events := events) _ P); [done|rewrite Hcap1; lia| |]; rewrite Htake.
  - intros p' e2 Hm2 Hon2. apply cwp_bind, cwp_modify, cwp_ret. apply (HQ None _ [(id, b :: bs)]); [done|done|].
    by eapply (passing_output s outs q id fd).
  - intros part p' e2 Hpre Hm2 Hon2. apply cwp_bind, cwp_modify, cwp_ret. apply (HQ (Some protocol_sfd_) _ [(id, b :: bs)]); [done|done|].
    eapply (passing_output s outs q id fd); try done. split; auto.
Qed.
End Pass.
