(* ===== verification/ShellLoop.v ===== *)
(** * The loop of a subprocess (shell_service.cpp)

    The descriptors [select] waits for, the turns of the loop, and what is known
    when the thread has ended. *)

From S2P Require Import Prelude LibBase Packet AdbIo Transport World SmartText ShellProtocol Services ShellService ShellStreams ShellPass.

Section Loop.
Context {E : Type} {K : Kernel E} {KL : KernelLaws E} {SO : ShellOs E} {LB : LibBase}.
Context {got took : Z -> E -> bytes} {events : E -> nat} {FH : FdHistory E got took events}.
Abbreviation moved := (io_moved got took events).
Abbreviation turn_cwp := (cwp False sscanf_reads_on).
Implicit Types (e : E) (s : Subprocess E) (p : shell_protocol) (d : option sfd) (m : fd_sets).

Context (P O R : Z) (e0 : E) (H3 : three_fds P O R).
Abbreviation passing_to := (@passing E got took events P O R e0).
Context (bound : nat).
Abbreviation passing := (passing_to bound).

(** [select] waits for open descriptors; for the protocol until there is input
    to write, then for the pipe of the process to take it. *)
Record sets_ok s m : Prop := {
  reads_open fd : fd ∈ master_read m ->
    fd <> (-1)%Z /\ (fd = sfds s protocol_sfd_ \/ fd = sfds s stdinout_sfd_ \/ fd = sfds s stderr_sfd_);
  writes_open fd : fd ∈ master_write m ->
    fd <> (-1)%Z /\ fd = sfds s stdinout_sfd_ /\ input_bytes_left_ s <> 0%Z;
  wait_protocol : sfds s protocol_sfd_ <> (-1)%Z ->
    (sfds s protocol_sfd_ ∈ master_read m <-> input_bytes_left_ s = 0%Z);
  wait_pipe : sfds s stdinout_sfd_ <> (-1)%Z -> input_bytes_left_ s <> 0%Z -> sfds s stdinout_sfd_ ∈ master_write m;
  wait_output : sfds s stdinout_sfd_ <> (-1)%Z -> sfds s stdinout_sfd_ ∈ master_read m;
  wait_errors : sfds s stderr_sfd_ <> (-1)%Z -> sfds s stderr_sfd_ ∈ master_read m;
}.

Lemma open_fits s d outs q : passing s d outs -> q = protocol_sfd_ \/ q = stdinout_sfd_ \/ q = stderr_sfd_ ->
  sfds s q <> (-1)%Z -> ((0 <=? sfds s q) && (sfds s q <? FD_SETSIZE))%Z = true.
Proof.
  intros [[H1|H1] [H2|H2] [H4|H4] _ _ _ _] [->|[->| ->]] Hq; destruct H3 as [HP HO HR _]; try done; lia.
Qed.

(** Open descriptors are different. *)
Lemma open_differ s d outs q q' : passing s d outs ->
  q = protocol_sfd_ \/ q = stdinout_sfd_ \/ q = stderr_sfd_ -> q' = protocol_sfd_ \/ q' = stdinout_sfd_ \/ q' = stderr_sfd_ ->
  sfds s q <> (-1)%Z -> sfds s q = sfds s q' -> q = q'.
Proof.
  intros [[H1|H1] [H2|H2] [H4|H4] _ _ _ _] [->|[->| ->]] [->|[->| ->]] Hq Heq; destruct H3 as [HP HO HR (? & ? & ?)]; try done; lia.
Qed.

Lemma cwp_fits {A} N C (f : M (Subprocess E) A) (Q : A -> Subprocess E -> Prop) s fd :
  ((0 <=? fd) && (fd <? FD_SETSIZE))%Z = true -> cwp N C f Q s -> cwp N C (fd_fits fd ;;; f) Q s.
Proof. intros Hf HQ. unfold fd_fits. apply cwp_bind, cwp_check; [by rewrite Hf|done]. Qed.

(** [ValidAndInSet] on one of the three. *)
Lemma cwp_valid N C q ready (Q : bool -> Subprocess E -> Prop) s d outs : passing s d outs ->
  q = protocol_sfd_ \/ q = stdinout_sfd_ \/ q = stderr_sfd_ ->
  Q (negb (sfds s q =? -1)%Z && bool_decide (sfds s q ∈ ready)) s -> cwp N C (ValidAndInSet q ready) Q s.
Proof.
  intros Hs Hq HQ. unfold ValidAndInSet. apply cwp_bind, cwp_gets. destruct (Z.eqb_spec (sfds s q) (-1)); [by apply cwp_ret|].
  apply cwp_fits; [by eapply open_fits|]. by apply cwp_ret.
Qed.

(** One ready descriptor of the process. *)
Lemma pass_ready_passing s outs q id fd ready (Q : option sfd -> Subprocess E -> Prop) :
  passing s None outs -> channel O R q id fd -> sfds s protocol_sfd_ <> (-1)%Z ->
  (forall r s' outs', sfds s' = sfds s -> input_bytes_left_ s' = input_bytes_left_ s -> passing s' r (outs ++ outs') -> Q r s') ->
  turn_cwp (pass_ready q ready (PassOutput q id)) Q s.
Proof.
  intros Hs Hch Hproto HQ. unfold pass_ready. apply cwp_bind.
  assert (Hq : q = protocol_sfd_ \/ q = stdinout_sfd_ \/ q = stderr_sfd_) by (destruct Hch as [(-> & _)|(-> & _)]; auto).
  eapply cwp_valid; [done|done|]. destruct (Z.eqb_spec (sfds s q) (-1)) as [Hc|Hc]; cbn [negb andb].
  { apply cwp_ret, (HQ None s []); [done|done|by rewrite app_nil_r]. }
  case_bool_decide; [|apply cwp_ret, (HQ None s []); [done|done|by rewrite app_nil_r]].
  by eapply (PassOutput_passing P O R e0 bound H3).
Qed.

(** The input: the two functions share their shape. *)
Lemma pass_protocol_passing s outs m reads (Q : option sfd * fd_sets -> Subprocess E -> Prop) :
  passing s None outs -> sets_ok s m -> sfds s protocol_sfd_ <> (-1)%Z -> reads ⊆ master_read m ->
  (forall r m' s', sfds s' = sfds s -> passing s' r outs -> sets_ok s' m' ->
     (input_bytes_left_ s' = input_bytes_left_ s \/ input_bytes_left_ s = 0%Z) -> Q (r, m') s') ->
  turn_cwp (pass_protocol reads m) Q s.
Proof.
  intros Hs Hm Hproto Hsub HQ. unfold pass_protocol. apply cwp_bind. eapply cwp_valid; [done|by left|].
  rewrite (proj2 (Z.eqb_neq _ _) Hproto). cbn [negb andb]. case_bool_decide as Hin; cbn [negb]; [|apply cwp_ret, HQ; auto].
  assert (Hz : input_bytes_left_ s = 0%Z) by (apply (wait_protocol _ _ Hm Hproto), Hsub, Hin).
  apply cwp_bind, (PassInput_passing P O R e0 bound H3 s outs); [done|done|by rewrite Hz|]. intros r s' Hs' Hp Hl Hl'.
  apply cwp_bind, cwp_get. destruct Hm as [M1 M2 M3 M4 M5 M6].
  destruct (Z.eqb_spec (input_bytes_left_ s') 0) as [Hz'|Hz'].
  - apply cwp_ret, HQ; auto. split; rewrite ?Hs', ?Hz' in *; auto.
    + intros fd Hfd. destruct (M2 fd Hfd) as (_ & _ & Hn). by rewrite Hz in Hn.
    + intros _. rewrite (M3 Hproto), Hz. done.
  - assert (Hr : r = None) by (destruct r; [by rewrite Hl in Hz'|done]). subst r.
    assert (Hopen : sfds s stdinout_sfd_ <> (-1)%Z) by auto.
    unfold FD_CLR, FD_SET. rewrite !Hs'. apply cwp_bind, cwp_fits; [eapply open_fits; eauto|].
    apply cwp_ret, cwp_bind, cwp_fits; [eapply open_fits; eauto|]. apply cwp_ret, cwp_ret, HQ; auto.
    assert (Hdiff : forall q, q = stdinout_sfd_ \/ q = stderr_sfd_ -> sfds s q <> (-1)%Z -> sfds s q <> sfds s protocol_sfd_).
    { intros q Hq Hqo Heq. enough (q = protocol_sfd_) as -> by (by destruct Hq). apply (open_differ s None outs); auto; destruct Hq; auto. }
    split; cbn [master_read master_write]; rewrite ?Hs'.
    + intros fd [Hfd _]%elem_of_difference. auto.
    + intros fd [->%elem_of_singleton|Hfd]%elem_of_union; [done|]. destruct (M2 fd Hfd) as (_ & _ & Hn). by rewrite Hz in Hn.
    + intros _. split; [|by intros]. intros [_ Hno]%elem_of_difference. by rewrite elem_of_singleton in Hno.
    + intros _ _. set_solver.
    + intros Ho. apply elem_of_difference. rewrite elem_of_singleton. auto.
    + intros He. apply elem_of_difference. rewrite elem_of_singleton. auto.
Qed.

Lemma pass_rest_passing s outs m writes (Q : option sfd * fd_sets -> Subprocess E -> Prop) :
  passing s None outs -> sets_ok s m -> sfds s protocol_sfd_ <> (-1)%Z ->
  (forall fd, fd ∈ writes -> input_bytes_left_ s <> 0%Z) ->
  (forall r m' s', sfds s' = sfds s -> passing s' r outs -> sets_ok s' m' -> Q (r, m') s') ->
  turn_cwp (pass_rest writes m) Q s.
Proof.
  intros Hs Hm Hproto Hw HQ. unfold pass_rest. apply cwp_bind. eapply cwp_valid; [done|by right; left|].
  destruct (Z.eqb_spec (sfds s stdinout_sfd_) (-1)) as [Hc|Hopen]; cbn [negb andb]; [by apply cwp_ret, HQ|].
  case_bool_decide as Hin; cbn [negb]; [|by apply cwp_ret, HQ].
  assert (Hnz : input_bytes_left_ s <> 0%Z) by eauto.
  apply cwp_bind, (PassInput_passing P O R e0 bound H3 s outs); [done|done|done|]. intros r s' Hs' Hp Hl Hl'.
  apply cwp_bind, cwp_get. destruct Hm as [M1 M2 M3 M4 M5 M6].
  destruct (Z.eqb_spec (input_bytes_left_ s') 0) as [Hz'|Hz']; cbn [negb].
  - unfold FD_CLR, FD_SET. rewrite !Hs'. apply cwp_bind, cwp_fits; [eapply open_fits; eauto|].
    apply cwp_ret, cwp_bind, cwp_fits; [eapply open_fits; eauto|]. apply cwp_ret, cwp_ret, HQ; auto.
    split; cbn [master_read master_write]; rewrite ?Hs', ?Hz'.
    + intros fd [->%elem_of_singleton|Hfd]%elem_of_union; auto.
    + intros fd [Hfd Hno]%elem_of_difference. rewrite elem_of_singleton in Hno. by destruct (M2 fd Hfd) as (_ & ? & _).
    + intros _. split; [done|]. set_solver.
    + done.
    + set_solver.
    + set_solver.
  - apply cwp_ret, HQ; auto. split; rewrite ?Hs'; auto.
    + intros fd Hfd. destruct (M2 fd Hfd) as (? & ? & ?). auto.
    + intros Hp'. rewrite (M3 Hp'). by split.
Qed.

(** A turn: the streams and the sets stay as they should be. *)
Lemma pass_turn_passing s outs m reads writes :
  passing s None outs -> sets_ok s m -> sfds s protocol_sfd_ <> (-1)%Z -> reads ⊆ master_read m -> writes ⊆ master_write m ->
  turn_cwp (pass_turn reads writes m)
    (fun '(d, m') s' => sfds s' = sfds s /\ sets_ok s' m' /\ exists outs', passing s' d (outs ++ outs')) s.
Proof.
  intros Hs Hm Hproto Hr Hw. unfold pass_turn. apply cwp_bind.
  assert (Hsets : forall s', sfds s' = sfds s -> input_bytes_left_ s' = input_bytes_left_ s -> sets_ok s' m).
  { intros s' Hs' Hl'. destruct Hm. by split; rewrite ?Hs', ?Hl'. }
  eapply (pass_ready_passing s outs _ _ O); [done|by left|done|]. intros r1 s1 o1 Hs1 Hl1 Hp1.
  apply cwp_bind. destruct r1 as [q1|]; cbn [unless_dead].
  { apply cwp_ret, cwp_bind, cwp_ret, cwp_ret. eauto. }
  eapply (pass_ready_passing s1 (outs ++ o1) _ _ R); [done|by right|by rewrite Hs1|]. intros r2 s2 o2 Hs2 Hl2 Hp2.
  rewrite <- app_assoc in Hp2. rewrite Hs1 in Hs2. rewrite Hl1 in Hl2. apply cwp_bind. destruct r2 as [q2|].
  { apply cwp_ret, cwp_ret. eauto. }
  eapply (pass_protocol_passing s2); [done|by apply Hsets|by rewrite Hs2|done|]. intros r3 m3 s3 Hs3 Hp3 Hm3 Hl3.
  rewrite Hs2 in Hs3. destruct r3 as [q3|]; [apply cwp_ret; eauto|].
  eapply (pass_rest_passing s3); [done|done|by rewrite Hs3| |].
  - intros fd Hfd. destruct (writes_open _ _ Hm fd (Hw fd Hfd)) as (_ & _ & Hn). rewrite Hl2 in Hl3. destruct Hl3 as [->|]; done.
  - intros r m' s' Hs' Hp Hm'. rewrite Hs3 in Hs'. eauto.
Qed.

End Loop.

Section Select.
Context {E : Type} {K : Kernel E} {KL : KernelLaws E} {SO : ShellOs E} {LB : LibBase}.
Context {got took : Z -> E -> bytes} {events : E -> nat} {FH : FdHistory E got took events}.
Abbreviation moved := (io_moved got took events).
Implicit Types (e : E) (s : Subprocess E) (p : shell_protocol) (d : option sfd) (m : fd_sets).
Context (P O R : Z) (e0 : E) (H3 : three_fds P O R).
Abbreviation passing := (@passing E got took events P O R e0).

(** Another bound. *)
Lemma passing_bound n n' s d outs : passing n s d outs -> events (sub_env s) <= n' -> passing n' s d outs.
Proof. intros [H1 H2 H4 Ho Hi He Hf] Hn. by split. Qed.

(** ** Until a descriptor dies *)

(** The state with [q] closed. *)
Definition closed_fds (q : sfd) (f : sfd -> Z) : sfd -> Z := fun q' => if decide (q' = q) then (-1)%Z else f q'.

Lemma closed_open q f q' : closed_fds q f q' <> (-1)%Z -> q' <> q /\ f q' <> (-1)%Z.
Proof. unfold closed_fds. by case_decide. Qed.

Lemma closed_or q f q' v : f q' = v \/ f q' = (-1)%Z -> closed_fds q f q' = v \/ closed_fds q f q' = (-1)%Z.
Proof. unfold closed_fds. case_decide; auto. Qed.

(** Closing [q]: what is known afterwards may be about another dead descriptor. *)
Lemma reset_passing N C n s d d' outs q (Q : unit -> Subprocess E -> Prop) :
  passing n s d outs -> (forall q', q' <> q -> d' <> Some q' -> d <> Some q') ->
  match d' with None => True | Some q' => q' <> q /\ (q' = protocol_sfd_ \/ q' = stdinout_sfd_ \/ q' = stderr_sfd_) /\ sfds s q' <> (-1)%Z end ->
  (forall s', sfds s' = closed_fds q (sfds s) -> input_bytes_left_ s' = input_bytes_left_ s -> passing n s' d' outs -> Q tt s') ->
  cwp N C (reset q (-1)%Z) Q s.
Proof.
  intros [H1 H2 H4 Ho Hi He Hf] Hd Hd' HQ.
  assert (Hdone : forall e', moved None None [] [] (sub_env s) e' ->
            Q tt (set_sfds (closed_fds q (sfds s)) (set_sub_env e' s))).
  { intros e' Hm. apply HQ; [done|done|]. set (s' := set_sfds _ _).
    assert (Hlives : forall q', lives s' d' q' -> lives s d q').
    { intros q' [Hn Hl]. cbn in Hl. destruct (closed_open _ _ _ Hl). split; [by apply Hd|done]. }
    split; try (by apply closed_or).
    - apply (output_ok_frame P O R e0 s _ d); auto; cbn; first [by apply (moved_same_got _ _ _ _ _ _ _ Hm)|by apply (moved_same_took _ _ _ _ _ _ _ Hm)].
    - apply (input_ok_frame P O e0 s _ d); auto; cbn; first [by apply (moved_same_got _ _ _ _ _ _ _ Hm)|by apply (moved_same_took _ _ _ _ _ _ _ Hm)].
    - pose proof (moved_events _ _ _ _ _ _ _ _ _ Hm). cbn. lia.
    - destruct d' as [q'|]; [|done]. destruct Hd' as (Hn & Hq & Hl). split; [done|]. cbn. unfold closed_fds. by rewrite decide_False. }
  unfold reset. apply cwp_bind, cwp_gets, cwp_bind, cwp_when.
  - intros _. apply cwp_os. intros [] e' Hm. apply cwp_modify. by apply Hdone.
  - intros _. apply cwp_modify. specialize (Hdone (sub_env s) (moved_none _)). by destruct s.
Qed.

(** How many of the three are open. *)
Definition opened (f : sfd -> Z) : nat :=
  length (filter (fun q => f q <> (-1)%Z) [protocol_sfd_; stdinout_sfd_; stderr_sfd_]).

(** [select] answers finitely often, and then fails. *)
Definition select_ends : Prop := forall r w e a e', shell_sys (p_select r w) e = (a, e') ->
  (exists x, a = inl x /\ x <> EINTR) \/ events e' < events e.

(** What the loop leaves: a descriptor found dead, or the pipes closed. *)
Definition select_left s s' d m' : Prop :=
  match d with
  | Some q => sfds s' = sfds s /\ sets_ok s' m'
  | None => sfds s' = closed_fds stderr_sfd_ (closed_fds stdinout_sfd_ (sfds s))
  end.

Lemma SelectLoop_passing (N : Prop) fuel bound s outs m :
  passing bound s None outs -> sets_ok s m -> sfds s protocol_sfd_ <> (-1)%Z -> N \/ select_ends /\ events (sub_env s) < fuel ->
  cwp N sscanf_reads_on (SelectLoop fuel m)
    (fun '(d, m') s' => exists outs', passing bound s' d (outs ++ outs') /\ select_left s s' d m') s.
Proof.
  revert s outs m. induction fuel as [|f IH]; intros s outs m Hs Hm Hproto HN.
  { destruct HN as [HN|[_ HN]]; [exact HN|lia]. }
  cbn [SelectLoop]. apply cwp_bind. unfold select_fds. apply cwp_on_os. unfold cwp at 1, shell_os.
  destruct (shell_sys (p_select (master_read m) (master_write m)) (sub_env s)) as [r e'] eqn:Hr.
  pose proof (moved_call (got := got) (took := took) (events := events) _ _ _ _ Hr) as Hmv.
  pose proof (moved_events _ _ _ _ _ _ _ _ _ Hmv) as Hev. pose proof (pass_events _ _ _ _ _ _ _ _ Hs) as Hb.
  assert (Hs' : passing bound (set_sub_env e' s) None outs) by (by apply passing_env).
  assert (Hm' : sets_ok (set_sub_env e' s) m) by (destruct Hm; by split).
  assert (HN' : (exists x, r = inl x /\ x <> EINTR) \/ N \/ select_ends /\ events e' < f).
  { destruct HN as [HN|[Hsel HN]]; [by auto|]. destruct (Hsel _ _ _ _ _ Hr); [by left|]. right; right. split; [done|lia]. }
  assert (Hfail : cwp N sscanf_reads_on (reset stdinout_sfd_ (-1)%Z ;;; reset stderr_sfd_ (-1)%Z ;;; ret (None, m))
     (fun '(d, m') s' => exists outs', passing bound s' d (outs ++ outs') /\ select_left s s' d m') (set_sub_env e' s)).
  { apply cwp_bind, (reset_passing _ _ bound _ None None outs); [done|done|done|]. intros s1 Hs1 _ Hp1.
    apply cwp_bind, (reset_passing _ _ bound _ None None outs); [done|done|done|]. intros s2 Hs2 _ Hp2.
    apply cwp_ret. exists []. rewrite app_nil_r. split; [done|]. by cbn; rewrite Hs2, Hs1. }
  destruct r as [x|[reads writes]].
  - destruct (decide (x = EINTR)) as [->|Hx]; [|destruct x; try exact Hfail; done].
    destruct HN' as [(x & [= <-] & ?)|HN']; [done|]. exact (IH (set_sub_env e' s) outs m Hs' Hm' Hproto HN').
  - destruct HN' as [(x & [=] & _)|HN']. destruct (select_subset _ _ _ _ _ _ Hr) as [Hrs Hws]. apply cwp_bind.
    assert (Hin : passing (events e') (set_sub_env e' s) None outs) by (by eapply passing_bound).
    eapply cwp_mono; [by apply cwp_weaken, (pass_turn_passing P O R e0 H3 (events e') _ outs)|].
    intros [d m2] s2 (Hs2 & Hm2 & o2 & Hp2). pose proof (pass_events _ _ _ _ _ _ _ _ Hp2) as Hev2.
    assert (Hp2' : passing bound s2 d (outs ++ o2)) by (eapply passing_bound; [done|lia]).
    destruct d as [q|]; [by apply cwp_ret; exists o2|].
    eapply cwp_mono; [apply (IH s2 (outs ++ o2)); [done|done|by rewrite Hs2|]|].
    { destruct HN' as [|[Hsel HN']]; [by left|right]. split; [done|lia]. }
    intros [d3 m3] s3 (o3 & Hp3 & Hcase). rewrite <- app_assoc in Hp3. exists (o2 ++ o3). split; [done|].
    unfold select_left in *. cbn in Hs2. by rewrite Hs2 in Hcase.
Qed.

(** ** Until the streams end *)

Lemma opened_le f q : opened (closed_fds q f) <= opened f.
Proof. unfold opened, closed_fds. cbn [filter list_filter]. repeat (case_decide; cbn [length]); subst; try done; lia. Qed.

Lemma opened_lt f q : (q = protocol_sfd_ \/ q = stdinout_sfd_ \/ q = stderr_sfd_) -> f q <> (-1)%Z -> opened (closed_fds q f) < opened f.
Proof.
  intros Hq Hf. unfold opened, closed_fds. cbn [filter list_filter].
  destruct Hq as [->|[->| ->]]; repeat (case_decide; cbn [length]); subst; try done; lia.
Qed.

Lemma can_pass_open s : can_pass s = true -> sfds s protocol_sfd_ <> (-1)%Z.
Proof. unfold can_pass. intros [H _]%andb_true_iff. intros Hc. by rewrite Hc in H. Qed.

(** After a descriptor is buried, it is closed, and out of the sets. *)
Lemma bury_passing C bound s q outs m : passing bound s (Some q) outs -> sets_ok s m -> sfds s protocol_sfd_ <> (-1)%Z ->
  cwp False C (bury q m) (fun m' s' => passing bound s' None outs /\ opened (sfds s') < opened (sfds s) /\
    (can_pass s' = true -> sets_ok s' m')) s.
Proof.
  intros Hs Hm Hproto. pose proof (pass_found _ _ _ _ _ _ _ _ Hs) as [Hq Hopen]. unfold bury. apply cwp_bind, cwp_gets.
  unfold FD_CLR. apply cwp_bind, cwp_fits; [by eapply open_fits|]. apply cwp_ret, cwp_bind, cwp_fits; [by eapply open_fits|].
  apply cwp_ret, cwp_bind, cwp_when.
  - intros ->%bool_decide_eq_true. unfold kill_child. apply cwp_bind, cwp_bind, cwp_get, cwp_os. intros [] e1 Hm1.
    apply (passing_env P O R e0 bound _ _ _ _ Hm1) in Hs.
    apply cwp_bind, (reset_passing _ _ bound _ (Some protocol_sfd_) (Some protocol_sfd_) outs); [done|done|split_and!; auto; done|].
    intros s1 Hs1 _ Hp1. apply (reset_passing _ _ bound _ (Some protocol_sfd_) (Some protocol_sfd_) outs); [done|done|split_and!; auto; by rewrite Hs1|].
    intros s2 Hs2 _ Hp2. apply cwp_bind, (reset_passing _ _ bound _ (Some protocol_sfd_) None outs); [done|congruence|done|].
    intros s3 Hs3 _ Hp3. apply cwp_ret. rewrite Hs3, Hs2, Hs1. cbn [sfds set_sub_env]. split_and!; [done| |].
    + eapply Nat.lt_le_trans; [apply opened_lt; [auto|]|etrans; apply opened_le]. by cbn.
    + intros Hc%can_pass_open. by rewrite Hs3 in Hc.
  - intros Hne%bool_decide_eq_false.
    apply cwp_bind, (reset_passing _ _ bound _ (Some q) None outs); [done|congruence|done|]. intros s' Hs' Hl' Hp'.
    apply cwp_ret. rewrite Hs'. split_and!; [done|by apply opened_lt|]. intros _. destruct Hm as [M1 M2 M3 M4 M5 M6].
    assert (Hin : forall q' (fds : gset Z), sfds s' q' <> (-1)%Z -> (q' = protocol_sfd_ \/ q' = stdinout_sfd_ \/ q' = stderr_sfd_) ->
              sfds s q' ∈ fds <-> sfds s' q' ∈ fds ∖ {[sfds s q]}).
    { intros q' fds Ho Hq'. rewrite Hs' in Ho. destruct (closed_open _ _ _ Ho) as [Hqq Ho'].
      rewrite Hs'. unfold closed_fds. rewrite decide_False by done. rewrite elem_of_difference, elem_of_singleton. split; [|by intros []].
      intros Hi. split; [done|]. intros Heq. exact (Hqq (open_differ P O R e0 H3 bound s (Some q) outs q' q Hs Hq' Hq Ho' Heq)). }
    assert (Ho : forall q', sfds s' q' <> (-1)%Z -> sfds s q' <> (-1)%Z /\ sfds s' q' = sfds s q').
    { intros q' Ho. rewrite Hs' in *. destruct (closed_open _ _ _ Ho). split; [done|]. unfold closed_fds. by rewrite decide_False. }
    assert (Hback : forall q', sfds s q' <> sfds s q -> sfds s' q' = sfds s q').
    { intros q' Hn. rewrite Hs'. unfold closed_fds. rewrite decide_False; [done|]. by intros ->. }
    split; cbn [master_read master_write]; rewrite ?Hl'.
    + intros fd [Hfd Hno]%elem_of_difference. rewrite elem_of_singleton in Hno. destruct (M1 fd Hfd) as [Hn [->|[->| ->]]]; (split; [done|]).
      * left. by rewrite Hback.
      * right; left. by rewrite Hback.
      * right; right. by rewrite Hback.
    + intros fd [Hfd Hno]%elem_of_difference. rewrite elem_of_singleton in Hno. destruct (M2 fd Hfd) as (Hn & -> & ?). by rewrite Hback.
    + intros Hp. rewrite <- Hin by auto. apply M3, Ho, Hp.
    + intros Hp Hn. rewrite <- Hin by auto. by apply M4; [apply Ho|].
    + intros Hp. rewrite <- Hin by auto. apply M5, Ho, Hp.
    + intros Hp. rewrite <- Hin by auto. apply M6, Ho, Hp.
Qed.

Lemma can_pass_closed s s' : sfds s' = closed_fds stderr_sfd_ (closed_fds stdinout_sfd_ (sfds s)) -> can_pass s' = false.
Proof. unfold can_pass. intros ->. cbn. by rewrite andb_false_r. Qed.

(** The loop ends: each turn of it closes a descriptor. *)
Lemma pass_loop_passing (N : Prop) turns fuel bound s outs m :
  passing bound s None outs -> (can_pass s = true -> sets_ok s m) -> opened (sfds s) <= turns ->
  N \/ select_ends /\ bound < fuel ->
  cwp N sscanf_reads_on (pass_loop turns fuel m) (fun _ s' => can_pass s' = false /\ exists outs', passing bound s' None (outs ++ outs')) s.
Proof.
  revert s outs m. induction turns as [|n IH]; intros s outs m Hs Hm Ht HN; cbn [pass_loop]; apply cwp_bind, cwp_get;
    (destruct (can_pass s) eqn:Hc; cbn [negb]; [|apply cwp_ret; split; [done|exists []; by rewrite app_nil_r]]).
  { apply can_pass_open in Hc. pose proof (opened_lt (sfds s) protocol_sfd_ ltac:(auto) Hc). lia. }
  pose proof (can_pass_open s Hc) as Hproto. apply cwp_bind.
  eapply cwp_mono; [apply (SelectLoop_passing N fuel bound s outs); auto|].
  { destruct HN as [HN|[Hsel HN]]; [by left|right]. split; [done|]. pose proof (pass_events _ _ _ _ _ _ _ _ Hs). lia. }
  intros [d m'] s1 (o1 & Hp1 & Hleft). destruct d as [q|]; cbn in Hleft.
  - destruct Hleft as [Hs1 Hm1]. apply cwp_bind. eapply cwp_mono; [apply cwp_weaken, (bury_passing _ bound); [done|done|by rewrite Hs1]|].
    intros m2 s2 (Hp2 & Ho2 & Hm2). eapply cwp_mono; [apply (IH s2 (outs ++ o1)); auto|]; [rewrite Hs1 in Ho2; lia|].
    intros [] s3 [Hc3 (o3 & Hp3)]. rewrite <- app_assoc in Hp3. eauto.
  - pose proof (can_pass_closed _ _ Hleft) as Hc1.
    assert (Hend : forall n', cwp N sscanf_reads_on (pass_loop n' fuel m') (fun _ s' => can_pass s' = false /\ exists outs', passing bound s' None (outs ++ outs')) s1).
    { intros n'. destruct n'; cbn [pass_loop]; apply cwp_bind, cwp_get; rewrite Hc1; apply cwp_ret; eauto. }
    apply Hend.
Qed.

(** A subprocess as [ForkAndExec] leaves it, with the protocol. *)
Record set_up s : Prop := {
  up_fds : sfds s protocol_sfd_ = P /\ sfds s stdinout_sfd_ = O /\ sfds s stderr_sfd_ = R;
  up_left : input_bytes_left_ s = 0%Z;
  up_input : exists p, input_ s = Some p /\ protocol_on P p /\ sp_bytes_left p = 0%Z;
  up_output : exists p, output_ s = Some p /\ protocol_on P p;
}.

Lemma set_up_passing s : set_up s -> sub_env s = e0 -> passing (events e0) s None [].
Proof.
  intros [(F1 & F2 & F3) Hl (p & Hp & Hon & Hb) Ho] He. split; unfold is_or_closed; auto; rewrite ?He; try done.
  - split; rewrite ?He; try (by rewrite app_nil_r); [done| |by constructor]. exists []. by rewrite app_nil_r.
  - split. exists p, [], [], [], (InHeader []). rewrite He, Hl, pending_none by done. rewrite !app_nil_r.
    destruct Hon. split_and!; try done; try lia. intros _. split; [|done]. unfold reader_state, between. by rewrite Hb.
Qed.

Lemma fill_set_spec N C bound s outs l fds (Q : gset Z -> Subprocess E -> Prop) : passing bound s None outs ->
  (forall q, q ∈ l -> q = protocol_sfd_ \/ q = stdinout_sfd_ \/ q = stderr_sfd_) ->
  (forall r, (forall fd, fd ∈ r <-> fd ∈ fds \/ exists q, q ∈ l /\ fd = sfds s q /\ fd <> (-1)%Z) -> Q r s) ->
  cwp N C (fill_set l fds) Q s.
Proof.
  intros Hs. revert fds Q. induction l as [|q l IH]; intros fds Q Hl HQ; cbn [fill_set].
  { apply cwp_ret, HQ. intros fd. split; [by left|]. intros [?|(q & Hq & _)]; [done|by apply not_elem_of_nil in Hq]. }
  apply cwp_bind, cwp_gets. destruct (Z.eqb_spec (sfds s q) (-1)) as [Hc|Hc].
  - apply IH; [intros q' Hq'; apply Hl; by right|]. intros r Hr. apply HQ. intros fd. rewrite Hr. split.
    + intros [?|(q' & Hq' & ?)]; [by left|right]. exists q'. split; [by right|done].
    + intros [?|(q' & [->|Hq']%elem_of_cons & -> & Hn)]; [by left|done|]. right. by exists q'.
  - apply cwp_bind. unfold FD_SET. apply cwp_fits; [eapply (open_fits P O R e0 H3); [done|apply Hl; left|done]|]. apply cwp_ret.
    apply IH; [intros q' Hq'; apply Hl; by right|]. intros r Hr. apply HQ. intros fd. rewrite Hr, elem_of_union, elem_of_singleton. split.
    + intros [[->|?]|(q' & Hq' & ?)]; [right; exists q; split; [left|done]|by left|right; exists q'; split; [by right|done]].
    + intros [?|(q' & [->|Hq']%elem_of_cons & -> & Hn)]; [by left; right|by left; left|]. right. by exists q'.
Qed.

Lemma PassDataStreams_passing (N : Prop) turns fuel s : set_up s -> sub_env s = e0 ->
  3 <= turns -> N \/ select_ends /\ events e0 < fuel ->
  cwp N sscanf_reads_on (PassDataStreams turns fuel) (fun _ s' => can_pass s' = false /\ exists outs, passing (events e0) s' None outs) s.
Proof.
  intros Hup He Ht HN. pose proof (set_up_passing s Hup He) as Hs. destruct Hup as [(F1 & F2 & F3) Hl _ _]. unfold PassDataStreams.
  pose proof (fds_proto _ _ _ H3) as HP. apply cwp_bind, cwp_gets. rewrite F1, (proj2 (Z.eqb_neq P (-1))) by lia.
  apply cwp_bind. eapply fill_set_spec; [done| |].
  { intros q Hq. elem_cases Hq; auto. }
  intros r Hr. apply (pass_loop_passing N turns fuel (events e0) s []); [done| | |done].
  - intros _. split; cbn [master_read master_write]; rewrite ?Hl.
    + intros fd Hfd. apply Hr in Hfd as [?%not_elem_of_empty|(q & Hq & -> & Hn)]; [done|]. split; [done|]. elem_cases Hq; auto.
    + by intros fd ?%not_elem_of_empty.
    + intros Hn. split; [done|]. intros _. apply Hr. right. exists protocol_sfd_. split; [left|done].
    + done.
    + intros Hn. apply Hr. right. exists stdinout_sfd_. split; [right; left|done].
    + intros Hn. apply Hr. right. exists stderr_sfd_. split; [right; right; left|done].
  - unfold opened. etrans; [apply length_filter|done].
Qed.

End Select.

(** * How a subprocess ends (shell_service.cpp)

    Waiting for the process, its exit code as the last packet, and the local
    socket for the main thread. *)

Section End_.
Context {E : Type} {K : Kernel E} {KL : KernelLaws E} {SO : ShellOs E} {LB : LibBase}.
Context {got took : Z -> E -> bytes} {events : E -> nat} {FH : FdHistory E got took events}.
Implicit Types (e : E) (s : Subprocess E).

(** The exit code that is reported. *)
Definition exit_code (st : wait_status) : Z :=
  match st with Exited code => code | Signaled sig => Z.lor 0x80 sig | OtherStatus => 1 end.

Abbreviation safe := (cwp False (fun _ => False)).

Definition same_reads s s' : Prop := forall fd, got fd (sub_env s') = got fd (sub_env s).
Definition same_writes s s' : Prop := forall fd, took fd (sub_env s') = took fd (sub_env s).

Lemma reset_streams N C q (Q : unit -> Subprocess E -> Prop) s :
  (forall s', sfds s' = closed_fds q (sfds s) -> same_reads s s' -> same_writes s s' -> Q tt s') ->
  cwp N C (reset q (-1)%Z) Q s.
Proof.
  intros HQ. unfold reset. apply cwp_bind, cwp_gets, cwp_bind, cwp_when.
  - intros _. apply (cwp_os (got := got) (took := took) (events := events)). intros [] e' Hm. apply cwp_modify, HQ; [done| |].
    + intros fd. by apply (moved_same_got _ _ _ _ _ _ _ Hm).
    + intros fd. by apply (moved_same_took _ _ _ _ _ _ _ Hm).
  - intros _. by apply cwp_modify, HQ.
Qed.

(** The exit packet, and the protocol closed. *)
Lemma send_exit_code P code s p (Q : unit -> Subprocess E -> Prop) :
  sfds s protocol_sfd_ = P -> P <> (-1)%Z -> output_ s = Some p -> protocol_on P p ->
  (forall s' sent, sent `prefix_of` shell_packet kIdExit [byte_of code] -> sfds s' = closed_fds protocol_sfd_ (sfds s) -> same_reads s s' ->
     took P (sub_env s') = took P (sub_env s) ++ sent ->
     (forall fd, fd <> P -> took fd (sub_env s') = took fd (sub_env s)) -> Q tt s') ->
  safe (send_exit code) Q s.
Proof.
  intros HP Hopen Hp Hon HQ. pose proof Hon as [_ Hcap _ _]. unfold send_exit. apply cwp_bind, cwp_gets. rewrite HP.
  rewrite (proj2 (Z.eqb_neq _ _) Hopen). apply cwp_when; [intros _|done]. apply cwp_bind, cwp_get, cwp_bind. rewrite Hp.
  apply cwp_ret, cwp_bind, cwp_on_os. destruct (put_data_on P [byte_of code] p Hon ltac:(cbn; lia)) as [Hon1 Hcap1].
  assert (Hrest : forall (b : bool) p' sent e2, sent `prefix_of` shell_packet kIdExit [byte_of code] ->
            io_moved got took events None (Some P) [] sent (sub_env s) e2 ->
            safe (modify (set_output_ (Some p')) ;;; reset protocol_sfd_ (-1)%Z) Q (set_sub_env e2 s)).
  { intros b p' sent e2 Hpre Hm. apply cwp_bind, cwp_modify, reset_streams. intros s' Hs' Hg Ht. apply (HQ s' sent Hpre Hs').
    - intros fd. rewrite Hg. by apply (moved_same_got _ _ _ _ _ _ _ Hm).
    - rewrite Ht. by apply (moved_the_took _ _ _ _ _ _ Hm).
    - intros fd Hfd. rewrite Ht. apply (moved_same_took _ _ _ _ _ _ _ Hm). congruence. }
  apply (WriteShell_history (got := got) (took := took) (events := events) _ P); [done|rewrite Hcap1; lia|..]; cbn [take Z.to_nat sp_data put_data app Pos.to_nat].
  - intros p' e2 Hm _. by eapply (Hrest true).
  - intros part p' e2 Hpre Hm _. by eapply (Hrest false).
Qed.

(** The local socket goes to the main thread. *)
Lemma hand_over_socket s (Q : unit -> Subprocess E -> Prop) : (0 <= SHELL_EXIT_NOTIFY_FD)%Z ->
  (forall s' noted, noted `prefix_of` le_encode 4 (u32 (sfds s local_socket_sfd_)) -> same_reads s s' ->
     took SHELL_EXIT_NOTIFY_FD (sub_env s') = took SHELL_EXIT_NOTIFY_FD (sub_env s) ++ noted ->
     (forall fd, fd <> SHELL_EXIT_NOTIFY_FD -> took fd (sub_env s') = took fd (sub_env s)) ->
     sfds s' = closed_fds local_socket_sfd_ (sfds s) /\ noted = le_encode 4 (u32 (sfds s local_socket_sfd_)) \/ sfds s' = sfds s -> Q tt s') ->
  safe hand_over Q s.
Proof.
  intros Hn HQ. unfold hand_over. apply cwp_when; [intros _|intros Hf; by apply Z.leb_nle in Hf].
  apply cwp_bind, cwp_gets, cwp_bind, cwp_on_os. unfold write_all. apply cwp_bind, cwp_get.
  apply (WriteFdExactly_history (got := got) (took := took) (events := events)); [done| |].
  - intros e' Hm. cbn [wx_bool]. apply cwp_when; [intros _|done]. apply cwp_modify.
    apply (HQ _ (le_encode 4 (u32 (sfds s local_socket_sfd_)))); [done|intros fd; by apply (moved_same_got _ _ _ _ _ _ _ Hm)|by apply (moved_the_took _ _ _ _ _ _ Hm)| |by left].
    intros fd Hfd. apply (moved_same_took _ _ _ _ _ _ _ Hm). congruence.
  - intros part x e' Hpre Hm. cbn [wx_bool]. apply cwp_when; [done|intros _].
    apply (HQ _ part); [done|intros fd; by apply (moved_same_got _ _ _ _ _ _ _ Hm)|by apply (moved_the_took _ _ _ _ _ _ Hm)| |by right].
    intros fd Hfd. apply (moved_same_took _ _ _ _ _ _ _ Hm). congruence.
Qed.

(** All of it; nothing is sent when the protocol is closed. *)
Lemma WaitForExit_streams P fuel s st e1 (Q : unit -> Subprocess E -> Prop) :
  0 < fuel -> shell_sys (p_waitpid (pid_ s)) (sub_env s) = ((pid_ s, Some st), e1) ->
  is_or_closed s protocol_sfd_ P -> P <> (-1)%Z -> P <> SHELL_EXIT_NOTIFY_FD -> (0 <= SHELL_EXIT_NOTIFY_FD)%Z ->
  (exists p, output_ s = Some p /\ protocol_on P p) ->
  (forall s' sent noted, sfds s' protocol_sfd_ = (-1)%Z -> same_reads s s' ->
     took P (sub_env s') = took P (sub_env s) ++ sent -> sent `prefix_of` shell_packet kIdExit [byte_of (exit_code st)] ->
     (sfds s protocol_sfd_ = (-1)%Z -> sent = []) ->
     took SHELL_EXIT_NOTIFY_FD (sub_env s') = took SHELL_EXIT_NOTIFY_FD (sub_env s) ++ noted ->
     noted `prefix_of` le_encode 4 (u32 (sfds s local_socket_sfd_)) ->
     sfds s' local_socket_sfd_ = (-1)%Z /\ noted = le_encode 4 (u32 (sfds s local_socket_sfd_)) \/
       sfds s' local_socket_sfd_ = sfds s local_socket_sfd_ -> Q tt s') ->
  safe (WaitForExit fuel) Q s.
Proof.
  intros Hf Hw HP Hopen Hne Hnote (p & Hp & Hon) HQ. destruct fuel as [|f]; [lia|].
  pose proof (moved_call (got := got) (took := took) (events := events) _ _ _ _ Hw) as Hm1.
  unfold WaitForExit. cbn [wait_child]. apply cwp_bind, cwp_bind, cwp_get, cwp_bind, cwp_on_os. unfold cwp at 1, shell_os. rewrite Hw, Z.eqb_refl.
  assert (Hcode : forall (Q : Z -> Subprocess E -> Prop) s, Q (exit_code st) s -> safe (exit_code_of (Some st)) Q s) by (by destruct st).
  assert (Hsame : same_writes s (set_sub_env e1 s)) by (intros fd; by apply (moved_same_took _ _ _ _ _ _ _ Hm1)).
  assert (Hgot : same_reads s (set_sub_env e1 s)) by (intros fd; by apply (moved_same_got _ _ _ _ _ _ _ Hm1)).
  apply Hcode, cwp_bind. destruct HP as [HP|HP].
  - apply (send_exit_code P _ _ p); [done..|]. intros s2 sent Hpre Hs2 Hg2 Ht2 Ho2.
    apply hand_over_socket; [done|]. intros s3 noted Hpre3 Hg3 Ht3 Ho3 Hs3. rewrite Hs2 in Hpre3, Hs3.
    apply (HQ s3 sent noted); rewrite ?Ho3, ?Ht2, ?Ht3, ?Ho2, ?Hsame by done; try done.
    + by destruct Hs3 as [[-> _]| ->].
    + intros fd. by rewrite Hg3, Hg2, Hgot.
    + intros Hc. congruence.
    + destruct Hs3 as [[-> Hall]| ->]; [by left|by right].
  - unfold send_exit. apply cwp_bind, cwp_gets. cbn [set_sub_env sfds]. rewrite HP. apply cwp_ret.
    apply hand_over_socket; [done|]. intros s3 noted Hpre3 Hg3 Ht3 Ho3 Hs3.
    apply (HQ s3 [] noted); rewrite ?Ho3, ?Ht3, ?Hsame by done; try done.
    + by destruct Hs3 as [[-> _]| ->].
    + intros fd. by rewrite Hg3, Hgot.
    + by rewrite app_nil_r.
    + apply prefix_nil.
    + destruct Hs3 as [[-> Hall]| ->]; [by left|by right].
Qed.

End End_.
