(* ===== verification/ShellProps.v ===== *)
(** * Subprocesses: what their thread does (shell_service.cpp) *)

From S2P Require Import Prelude LibBase Packet AdbIo Transport World SmartText ShellProtocol Services ShellService ShellStreams ShellPass.
From S2P Require Import ShellLoop.

(** * A small system on which subprocesses are exercised

    Every descriptor gives the chunks it holds and takes what its plan says;
    [select] finds everything ready, a given number of times. *)

(** [hub_room]: for each write to a descriptor, how much it takes; 0: [EAGAIN].
    [hub_kills]: the signals sent; [hub_next]: the next descriptor. *)
Record hub := {
  hub_in : gmap Z (list bytes);
  hub_room : gmap Z (list nat);
  hub_got : gmap Z bytes;
  hub_took : gmap Z bytes;
  hub_ticks : nat;
  hub_kills : list (Z * Z);
  hub_closed : list Z;
  hub_next : Z;
}.

Definition got_of (fd : Z) (h : hub) : bytes := default [] (hub_got h !! fd).
Definition took_of (fd : Z) (h : hub) : bytes := default [] (hub_took h !! fd).

Definition hub_give (fd : Z) (bs : bytes) (rest : list bytes) (h : hub) : hub :=
  {| hub_in := <[fd := rest]> (hub_in h); hub_room := hub_room h; hub_got := <[fd := got_of fd h ++ bs]> (hub_got h);
     hub_took := hub_took h; hub_ticks := hub_ticks h; hub_kills := hub_kills h; hub_closed := hub_closed h; hub_next := hub_next h |}.

Definition hub_accept (fd : Z) (bs : bytes) (plan : list nat) (h : hub) : hub :=
  {| hub_in := hub_in h; hub_room := <[fd := plan]> (hub_room h); hub_got := hub_got h;
     hub_took := <[fd := took_of fd h ++ bs]> (hub_took h); hub_ticks := hub_ticks h; hub_kills := hub_kills h;
     hub_closed := hub_closed h; hub_next := hub_next h |}.

Definition hub_note (ticks : nat) (kills : list (Z * Z)) (closed : list Z) (next : Z) (h : hub) : hub :=
  {| hub_in := hub_in h; hub_room := hub_room h; hub_got := hub_got h; hub_took := hub_took h; hub_ticks := ticks;
     hub_kills := kills; hub_closed := closed; hub_next := next |}.

#[export] Instance hub_fd_ops : FdOps hub := {
  adb_read fd n h :=
    match default [] (hub_in h !! fd) with
    | [] => (RdOk [], hub_give fd [] [] h)
    | c :: cs =>
        let k := Z.to_nat n in
        (RdOk (take k c), hub_give fd (take k c) (if (length c <=? k) then cs else drop k c :: cs) h)
    end;
  adb_write fd buf h :=
    match default [] (hub_room h !! fd) with
    | [] => (WrOk (Zlen buf), hub_accept fd buf [] h)
    | O :: plan => (WrErr EAGAIN, hub_accept fd [] plan h)
    | S k :: plan => (WrOk (Zlen (take (S k) buf)), hub_accept fd (take (S k) buf) plan h)
    end;
  adb_shutdown _ h := h;
  strerror _ := str "error";
}.

#[export] Instance hub_kernel : Kernel hub := {
  refusals fd h := length (default [] (hub_room h !! fd));
  pipe_put _ _ h := (true, h);
  pipe_get _ h := (None, h);
}.

#[export] Instance hub_kernel_laws : KernelLaws hub.
Proof.
  split.
  - intros fd buf h h' n. cbn. destruct (default [] (hub_room h !! fd)) as [|[|k] plan]; [|done|]; intros [= <- _]; rewrite ?length_take; lia.
  - intros fd buf h h' r. cbn. destruct (default [] (hub_room h !! fd)) as [|[|k] plan] eqn:Hd; intros [= <- <-]; cbn; rewrite lookup_insert_eq; cbn [default length id].
    + split; [cbn; lia|]. intros Hb [[= Hr]|]; [|done]. destruct buf; [done|cbn in Hr; lia].
    + split; [lia|]. intros _ _. lia.
    + split; [lia|]. intros _ _. lia.
  - intros fd n h h' bs Hn. cbn. destruct (default [] (hub_in h !! fd)) as [|c cs]; intros [= <- _]; [cbn; lia|rewrite length_take; lia].
Qed.

Definition hub_sys {A} (c : shell_call unit A) (h : hub) : A * hub :=
  match c in shell_call _ A return A * hub with
  | p_socketpair => (inr (hub_next h, hub_next h + 1)%Z, hub_note (hub_ticks h) (hub_kills h) (hub_closed h) (hub_next h + 2) h)
  | p_pipe => (Some (hub_next h, hub_next h + 1)%Z, hub_note (hub_ticks h) (hub_kills h) (hub_closed h) (hub_next h + 2) h)
  | p_close fd => (tt, hub_note (hub_ticks h) (hub_kills h) (hub_closed h ++ [fd]) (hub_next h) h)
  | p_select r w =>
      match hub_ticks h with
      | O => (inl EINVAL, h)
      | S k => (inr (r, w), hub_note k (hub_kills h) (hub_closed h) (hub_next h) h)
      end
  | p_shutdown_write _ => (true, h)
  | p_winsize _ _ _ _ _ => (tt, h)
  | p_block_mode _ _ => (true, h)
  | p_kill pid sig => (tt, hub_note (hub_ticks h) (hub_kills h ++ [(pid, sig)]) (hub_closed h) (hub_next h) h)
  | p_waitpid pid => ((pid, Some (Exited 3)), h)
  | p_environ => (Some [str "PATH=/bin"], h)
  | p_passwd => (None, h)
  | p_setsid => (tt, h)
  | p_open_tty _ => (inr 50%Z, h)
  | p_tcgetattr _ => (inr tt, h)
  | p_tcsetattr _ _ => (inr tt, h)
  | p_dup2 _ _ => (tt, h)
  | p_close_on_exec _ => (tt, h)
  | p_default_SIGPIPE => (tt, h)
  | p_execle _ _ _ => (None, h)
  end.

(** The child does not run here. *)
#[export] Instance hub_os : ShellOs hub := {
  termios := unit;
  cfmakeraw t := t;
  shell_sys A c := hub_sys c;
  sys_fork _ h := (inr 100%Z, h);
  sys_forkpty _ h := (inr (100, hub_next h)%Z, hub_note (hub_ticks h) (hub_kills h) (hub_closed h) (hub_next h + 1) h);
  start_shell_thread _ h := h;
  map_order m := map_to_list m;
  uninitialised := replicate 40 NUL;
  SHELL_EXIT_NOTIFY_FD := 9;
  _PATH_BSHELL := str "/system/bin/sh";
}.

#[export] Instance hub_history : FdHistory hub got_of took_of hub_ticks.
Proof.
  split.
  - intros fd n h r h' _. cbn. destruct (default [] (hub_in h !! fd)) as [|c cs]; intros [= <- <-]; unfold got_of, took_of; cbn;
      (split_and!; [by rewrite lookup_insert_eq|intros fd' Hn; by rewrite lookup_insert_ne by congruence|intros; reflexivity|cbn; lia]).
  - intros fd buf h r h'. cbn. destruct (default [] (hub_room h !! fd)) as [|[|k] plan]; intros [= <- <-]; unfold got_of, took_of; cbn;
      (split_and!; [rewrite lookup_insert_eq; cbn|intros fd' Hn; by rewrite lookup_insert_ne by congruence|intros; reflexivity|cbn; lia]).
    + by rewrite Nat2Z.id, firstn_all.
    + done.
    + f_equal. rewrite Nat2Z.id, <- (firstn_all (take (S k) buf)) at 1. cbn. destruct buf; [done|]. cbn. f_equal.
      rewrite length_take, take_take. f_equal. lia.
  - intros A c h a h'. destruct c; cbn; try (destruct (hub_ticks h) eqn:Hk); intros [= _ <-]; split_and!; cbn; try done; lia.
  - intros r w h reads writes h'. cbn. destruct (hub_ticks h); [done|]. by intros [= <- <- _].
Qed.

(** A subprocess with the protocol on 10, its input and output on 11, its errors on 12. *)
Definition hub_subprocess (h : hub) : Subprocess hub :=
  {| sub_env := h; command_ := str "cat"; terminal_type_ := str "dumb"; make_pty_raw_ := false; type_ := kRaw; protocol_ := kShell;
     pid_ := 100;
     sfds := fun q => match q with
                      | protocol_sfd_ => 10 | stdinout_sfd_ => 11 | stderr_sfd_ => 12 | local_socket_sfd_ => 13 | _ => -1
                      end%Z;
     input_ := Some (new_shell_protocol 10 (replicate 40 NUL)); output_ := Some (new_shell_protocol 10 (replicate 40 NUL));
     input_bytes_left_ := 0 |}.

Definition new_hub (ins : list (Z * list bytes)) (room : list (Z * list nat)) (ticks : nat) : hub :=
  {| hub_in := list_to_map ins; hub_room := list_to_map room; hub_got := ∅; hub_took := ∅; hub_ticks := ticks;
     hub_kills := []; hub_closed := []; hub_next := 20 |}.

Section Props.
Context {E : Type} {K : Kernel E} {KL : KernelLaws E} {SO : ShellOs E} {LB : LibBase}.
Context {got took : Z -> E -> bytes} {events : E -> nat} {FH : FdHistory E got took events}.
Implicit Types (e : E) (s : Subprocess E).

(** A turn of the loop keeps the descriptors and the streams as they should
    be: [select] is asked about open descriptors only, about the protocol exactly
    while no input is pending and otherwise about the pipe of the process; what
    was read from the process is in the packets sent; and what the packets read
    say for the process is what it was given and what is pending.  A turn never
    blocks for want of fuel; it crashes in one way at most, reading past a window
    size that is not ended. *)
Theorem pass_turn_keeps P O R e0 bound s outs m reads writes :
  three_fds P O R -> passing (got := got) (took := took) (events := events) P O R e0 bound s None outs -> sets_ok s m ->
  sfds s protocol_sfd_ <> (-1)%Z -> reads ⊆ master_read m -> writes ⊆ master_write m ->
  cwp False sscanf_reads_on (pass_turn reads writes m)
    (fun '(d, m') s' => sfds s' = sfds s /\ sets_ok s' m' /\
       exists outs', passing (got := got) (took := took) (events := events) P O R e0 bound s' d (outs ++ outs')) s.
Proof. intros. by apply pass_turn_passing. Qed.


(** When the process has exited, the thread sends its exit code, 128 with the
    signal if it was killed, as the last packet, closes the protocol, and hands
    the local socket to the main thread; if that fails it keeps the socket. *)
Theorem WaitForExit_reports P fuel s st e1 p :
  0 < fuel -> shell_sys (p_waitpid (pid_ s)) (sub_env s) = ((pid_ s, Some st), e1) ->
  sfds s protocol_sfd_ = P -> P <> (-1)%Z -> P <> SHELL_EXIT_NOTIFY_FD -> (0 <= SHELL_EXIT_NOTIFY_FD)%Z ->
  output_ s = Some p -> protocol_on P p ->
  cwp False (fun _ => False) (WaitForExit fuel)
    (fun _ s' =>
       sfds s' protocol_sfd_ = (-1)%Z /\
       exists sent noted,
         took P (sub_env s') = took P (sub_env s) ++ sent /\ sent `prefix_of` shell_packet kIdExit [byte_of (exit_code st)] /\
         took SHELL_EXIT_NOTIFY_FD (sub_env s') = took SHELL_EXIT_NOTIFY_FD (sub_env s) ++ noted /\
         noted `prefix_of` le_encode 4 (u32 (sfds s local_socket_sfd_)) /\
         (sfds s' local_socket_sfd_ = (-1)%Z /\ noted = le_encode 4 (u32 (sfds s local_socket_sfd_)) \/
          sfds s' local_socket_sfd_ = sfds s local_socket_sfd_)) s.
Proof.
  intros Hf Hw HP Hopen Hne Hnote Hp Hon. eapply (WaitForExit_streams P fuel s st e1); [done|done|by left|done..|by eexists|].
  intros s' sent noted H1 _ H2 H3 _ H4 H5 H6. split; [done|]. by exists sent, noted.
Qed.

End Props.

(** ** Examples *)

Definition typed (text : string) : bytes := shell_packet kIdStdin (str text).

Definition quiet_hub : hub :=
  new_hub [(10%Z, [typed "ls"; typed "pwd"]); (11%Z, [str "a"; str "b"; str "c"; str "d"; str "e"; str "f"]); (12%Z, [str "oops"])] [(11%Z, [1; 0])] 20.

Lemma hub_fds : three_fds 10 11 12.
Proof. split; unfold FD_SETSIZE; lia. Qed.

Lemma hub_protocol : protocol_on 10 (new_shell_protocol 10 (replicate 40 NUL)).
Proof. split; unfold data_capacity; cbn; lia. Qed.

Lemma hub_set_up h : set_up 10 11 12 (hub_subprocess h).
Proof. split; try done; eexists; split; try done; try split; try done; apply hub_protocol. Qed.

Lemma hub_select_ends : select_ends (E := hub) (events := hub_ticks).
Proof.
  intros r w h a h'. cbn. destruct (hub_ticks h) eqn:Hk; intros [= <- <-]; [left; by exists EINVAL|right]. cbn. lia.
Qed.


(** What that run leaves: the client closed the protocol, so the process got SIGHUP. *)
Example quiet_hub_run :
  match PassDataStreams 3 21 (hub_subprocess quiet_hub) with
  | Done _ s =>
      took_of 10 (sub_env s) = shell_wire [(1%Z, str "a"); (2%Z, str "oops"); (1%Z, str "b"); (1%Z, str "c"); (1%Z, str "d");
        (1%Z, str "e"); (1%Z, str "f")] /\
      took_of 11 (sub_env s) = str "lspwd" /\ hub_kills (sub_env s) = [(100, SIGHUP)]%Z
  | _ => False
  end.
Proof. by vm_compute. Qed.

(** When the process closes its output while input for it is pending, nobody
    reads the protocol any more: the client may be gone, and a process that
    still has its errors open is neither told so nor killed. *)
Example protocol_unwatched :
  let h := new_hub [(10%Z, [typed "ls"; typed "pwd"]); (11%Z, [str "a"]); (12%Z, [str "1"; str "2"; str "3"])] [(11%Z, [0])] 20 in
  match PassDataStreams 3 21 (hub_subprocess h) with
  | Done _ s => hub_in (sub_env s) !! 10%Z = Some [typed "pwd"] /\ hub_kills (sub_env s) = [] /\ hub_closed (sub_env s) = [11; 12]%Z
  | _ => False
  end.
Proof. by vm_compute. Qed.

(** A turn on the same system. *)
Definition all_three : fd_sets := {| master_read := {[10; 11; 12]}%Z; master_write := ∅ |}.

Lemma pass_turn_keeps_witness :
  cwp False sscanf_reads_on (pass_turn {[10; 11; 12]}%Z ∅ all_three)
    (fun '(d, m') s' => sfds s' = sfds (hub_subprocess quiet_hub) /\ sets_ok s' m' /\
       exists outs', passing (got := got_of) (took := took_of) (events := hub_ticks) 10 11 12 quiet_hub 20 s' d ([] ++ outs'))
    (hub_subprocess quiet_hub).
Proof.
  apply (pass_turn_keeps (got := got_of) (took := took_of) (events := hub_ticks) 10 11 12 quiet_hub 20 (hub_subprocess quiet_hub) [] all_three);
    [exact hub_fds| | |done|done|done].
  - exact (set_up_passing 10 11 12 quiet_hub (hub_subprocess quiet_hub) (hub_set_up quiet_hub) eq_refl).
  - split; cbn [master_read master_write all_three]; try set_solver; cbn; set_solver by lia.
Defined.

Lemma WaitForExit_reports_witness :
  let s := hub_subprocess quiet_hub in
  cwp False (fun _ => False) (WaitForExit 1)
    (fun _ s' =>
       sfds s' protocol_sfd_ = (-1)%Z /\
       exists sent noted,
         took_of 10 (sub_env s') = took_of 10 (sub_env s) ++ sent /\ sent `prefix_of` shell_packet kIdExit [byte_of (exit_code (Exited 3))] /\
         took_of SHELL_EXIT_NOTIFY_FD (sub_env s') = took_of SHELL_EXIT_NOTIFY_FD (sub_env s) ++ noted /\
         noted `prefix_of` le_encode 4 (u32 (sfds s local_socket_sfd_)) /\
         (sfds s' local_socket_sfd_ = (-1)%Z /\ noted = le_encode 4 (u32 (sfds s local_socket_sfd_)) \/
          sfds s' local_socket_sfd_ = sfds s local_socket_sfd_)) s.
Proof.
  intros s. refine (WaitForExit_reports (got := got_of) (took := took_of) (events := hub_ticks) 10 1 s (Exited 3) quiet_hub
           (new_shell_protocol 10 (replicate 40 NUL)) _ _ _ _ _ _ _ hub_protocol); [lia|reflexivity|reflexivity|lia|discriminate|discriminate|reflexivity].
Defined.
