(* ===== verification/FileSync.v ===== *)
(** * File synchronisation: the messages (file_sync_service.h), the errors on
      the wire (sysdeps/errno.cpp), and the calls on files

    Both sides of the sync protocol are made of system calls on files; a call
    is a value of [sys_call], and [SysCalls] is the system. *)

From S2P Require Import Prelude LibBase Packet AdbIo Transport World.

(** ** Message ids *)

Definition MKID (a b c d : Z) : Z :=
  Z.lor (Z.lor (Z.lor a (Z.shiftl b 8)) (Z.shiftl c 16)) (Z.shiftl d 24).

Definition ID_LSTAT_V1 : Z := MKID 83 84 65 84.
Definition ID_STAT_V2 : Z := MKID 83 84 65 50.
Definition ID_LSTAT_V2 : Z := MKID 76 83 84 50.
Definition ID_LIST : Z := MKID 76 73 83 84.
Definition ID_SEND : Z := MKID 83 69 78 68.
Definition ID_RECV : Z := MKID 82 69 67 86.
Definition ID_DENT : Z := MKID 68 69 78 84.
Definition ID_DONE : Z := MKID 68 79 78 69.
Definition ID_DATA : Z := MKID 68 65 84 65.
Definition ID_OKAY : Z := MKID 79 75 65 89.
Definition ID_FAIL : Z := MKID 70 65 73 76.
Definition ID_QUIT : Z := MKID 81 85 73 84.

Definition SYNC_DATA_MAX : Z := (64 * 1024)%Z.

(** ** Messages

    [SyncRequest], [data] and [status] have the same layout: an id and a number. *)

Definition encode_request (id n : Z) : bytes := le_encode 4 id ++ le_encode 4 n.

Definition request_id (m : bytes) : Z := le_decode (take 4 m).
Definition request_arg (m : bytes) : Z := le_decode (take 4 (drop 4 m)).

(** The [n]-byte field at an offset. *)
Definition field (off n : nat) (m : bytes) : Z := le_decode (take n (drop off m)).

(** A signed 64-bit field. *)
Definition i64 (z : Z) : Z := ((z + 2 ^ 63) mod 2 ^ 64 - 2 ^ 63)%Z.

(** [struct stat], the members the code uses. *)
Record stat_t := {
  st_dev : Z; st_ino : Z; st_mode : Z; st_nlink : Z; st_uid : Z; st_gid : Z;
  st_size : Z; st_atime : Z; st_mtime : Z; st_ctime : Z;
}.

Definition zero_stat : stat_t :=
  {| st_dev := 0; st_ino := 0; st_mode := 0; st_nlink := 0; st_uid := 0; st_gid := 0;
     st_size := 0; st_atime := 0; st_mtime := 0; st_ctime := 0 |}.

Definition encode_stat_v1 (id mode size time : Z) : bytes :=
  le_encode 4 id ++ le_encode 4 mode ++ le_encode 4 size ++ le_encode 4 time.

Definition encode_stat_v2 (id error : Z) (st : stat_t) : bytes :=
  le_encode 4 id ++ le_encode 4 error ++ le_encode 8 (st_dev st) ++ le_encode 8 (st_ino st) ++
  le_encode 4 (st_mode st) ++ le_encode 4 (st_nlink st) ++ le_encode 4 (st_uid st) ++ le_encode 4 (st_gid st) ++
  le_encode 8 (st_size st) ++ le_encode 8 (st_atime st) ++ le_encode 8 (st_mtime st) ++ le_encode 8 (st_ctime st).

Definition encode_dent (id mode size time namelen : Z) : bytes :=
  le_encode 4 id ++ le_encode 4 mode ++ le_encode 4 size ++ le_encode 4 time ++ le_encode 4 namelen.

(** ** File modes *)

Definition S_IFMT : Z := 0xf000.
Definition S_IFDIR : Z := 0x4000.
Definition S_IFREG : Z := 0x8000.
Definition S_IFLNK : Z := 0xa000.
Definition S_IFBLK : Z := 0x6000.
Definition S_IFCHR : Z := 0x2000.

Definition is_type (t mode : Z) : bool := (Z.land mode S_IFMT =? t)%Z.
Abbreviation S_ISDIR := (is_type S_IFDIR).
Abbreviation S_ISREG := (is_type S_IFREG).
Abbreviation S_ISLNK := (is_type S_IFLNK).
Abbreviation S_ISBLK := (is_type S_IFBLK).
Abbreviation S_ISCHR := (is_type S_IFCHR).

(** ** Errors on the wire

    The numbers of this host's errors; the names are the macros of errno.h. *)

Class HostErrno := {
  errno_code : errno_t -> Z;
  errno_of : Z -> errno_t;
}.

(** [ERRNO_VALUES()] *)
Definition ERRNO_VALUES : list (errno_t * Z) :=
  [(EACCES, 13); (EEXIST, 17); (EFAULT, 14); (EFBIG, 27); (EINTR, 4); (EINVAL, 22); (EIO, 5);
   (EISDIR, 21); (ELOOP, 40); (EMFILE, 24); (ENAMETOOLONG, 36); (ENFILE, 23); (ENOENT, 2);
   (ENOMEM, 12); (ENOSPC, 28); (ENOTDIR, 20); (EOVERFLOW, 75); (EPERM, 1); (EROFS, 30);
   (ETXTBSY, 26)]%Z.

Section Wire.
Context {HE : HostErrno}.

(** The tables; [insert] keeps the first value of a key. *)
Definition generate_host_to_wire : list (Z * Z) := map (fun '(e, wire) => (errno_code e, wire)) ERRNO_VALUES.
Definition generate_wire_to_host : list (Z * Z) := map (fun '(e, wire) => (wire, errno_code e)) ERRNO_VALUES.

Fixpoint find_key (k : Z) (l : list (Z * Z)) : option Z :=
  match l with
  | [] => None
  | (k', v) :: rest => if (k =? k')%Z then Some v else find_key k rest
  end.

Definition errno_to_wire (error : Z) : Z := default 5%Z (find_key error generate_host_to_wire).

(** It looks in [host_to_wire] too. *)
Definition errno_from_wire (error : Z) : Z := default (errno_code EIO) (find_key error generate_host_to_wire).

End Wire.

(** ** The system *)

Definition O_RDONLY : Z := 0.
Definition O_WRONLY : Z := 1.
Definition O_CREAT : Z := 0x40.
Definition O_EXCL : Z := 0x80.
Definition O_CLOEXEC : Z := 0x80000.

(** A call and the type of its result: an error, or the value.  [c_readdir] is
    [opendir] with the names that [readdir] gives; [c_poll] asks whether there is
    something to read now; [c_ReadFileToString] is libbase's. *)
Inductive sys_call : Type -> Type :=
| c_stat (path : bytes) : sys_call (errno_t + stat_t)
| c_lstat (path : bytes) : sys_call (errno_t + stat_t)
| c_readdir (path : bytes) : sys_call (errno_t + list bytes)
| c_readlink (path : bytes) : sys_call (errno_t + bytes)
| c_ReadFileToString (path : bytes) : sys_call (errno_t + bytes)
| c_open (path : bytes) (flags mode : Z) : sys_call (errno_t + Z)
| c_creat (path : bytes) (mode : Z) : sys_call (errno_t + Z)
| c_close (fd : Z) : sys_call unit
| c_unlink (path : bytes) : sys_call unit
| c_mkdir (path : bytes) (mode : Z) : sys_call (errno_t + unit)
| c_symlink (target path : bytes) : sys_call (errno_t + unit)
| c_chown (path : bytes) (uid gid : Z) : sys_call (errno_t + unit)
| c_fchown (fd uid gid : Z) : sys_call (errno_t + unit)
| c_fchmod (fd mode : Z) : sys_call unit
| c_chmod (path : bytes) (mode : Z) : sys_call (errno_t + unit)
| c_restorecon (path : bytes) : sys_call unit
| c_removexattr (path : bytes) : sys_call unit
| c_setxattr (path : bytes) (permitted_low permitted_high : Z) : sys_call (errno_t + unit)
| c_utime (path : bytes) (actime modtime : Z) : sys_call (errno_t + unit)
| c_umask : sys_call Z
| c_poll (fd : Z) : sys_call (errno_t + bool).

(** [fs_config] is the table of owners and modes of Android's system files.
    [back_of_empty] is what [back()] of an empty string reads. *)
Class SysCalls (E : Type) := {
  sys {A} : sys_call A -> E -> A * E;
  fs_config : bytes -> bool -> Z -> Z * Z * Z * Z;
  back_of_empty : ascii;
}.

Definition call {E} {SC : SysCalls E} {A} (c : sys_call A) : M E A :=
  fun e => let '(a, e') := sys c e in Done a e'.

(** [WriteFdExactly] with the fuel it needs. *)
Definition WriteFully {E} {K : Kernel E} (fd : Z) (buf : bytes) : M E wx_result :=
  let* e := get in WriteFdExactly (length buf + refusals fd e) fd buf.

Definition slash : ascii := byte_of 47.

Definition back {E} {SC : SysCalls E} (s : bytes) : ascii := default back_of_empty (last s).

(** ** Reading back what is encoded *)

Lemma length_encode_request id n : length (encode_request id n) = 8.
Proof. done. Qed.

Lemma request_id_encode id n : (0 <= id < 2 ^ 32)%Z -> request_id (encode_request id n) = id.
Proof. intros Hi. unfold request_id, encode_request. rewrite take_app_le, take_ge by done. by apply le32_roundtrip. Qed.

Lemma request_arg_encode id n : (0 <= n < 2 ^ 32)%Z -> request_arg (encode_request id n) = n.
Proof.
  intros Hi. unfold request_arg, encode_request. rewrite drop_app_ge by done. cbn [length]. rewrite take_ge by done.
  by apply le32_roundtrip.
Qed.

(** ** What travels *)

(** A piece of a file. *)
Definition frame (bs : bytes) : bytes := encode_request ID_DATA (Zlen bs) ++ bs.
Definition frames (chunks : list bytes) : bytes := concat (map frame chunks).

(** A failure with its reason. *)
Definition fail_message (reason : bytes) : bytes := encode_request ID_FAIL (Zlen reason) ++ reason.

(** What a client sends for a file. *)
Definition send_message (spec : bytes) (chunks : list bytes) (mtime : Z) : bytes :=
  encode_request ID_SEND (Zlen spec) ++ spec ++ frames chunks ++ encode_request ID_DONE mtime.

(** A piece that the other side takes. *)
Definition chunk_ok (bs : bytes) : Prop := (Zlen bs <= SYNC_DATA_MAX)%Z.

(** Comparisons of constants. *)
Ltac ids :=
  repeat match goal with
         | |- context [Z.eqb ?a ?b] =>
             let v := eval vm_compute in (Z.eqb a b) in
             lazymatch v with true => idtac | false => idtac end; change (Z.eqb a b) with v
         end; cbn [negb orb andb].

(** The parts of a header. *)
Ltac header := rewrite ?request_id_encode, ?request_arg_encode by first [done|by unfold chunk_ok, SYNC_DATA_MAX in *; lia]; ids.

(** ** Numbers in decimal: what [%d] prints, [strtoul] with base 0 reads *)

Definition zero_c : ascii := byte_of 48.

Lemma to_digits_head b fuel z acc : (2 <= b <= 36)%Z -> (0 < z)%Z -> (z < b ^ Z.of_nat fuel)%Z ->
  exists a ds, to_digits fuel b z acc = a :: ds /\ a <> zero_c.
Proof.
  intros Hb. revert z acc. induction fuel as [|f IH]; intros z acc Hz Hf; [cbn in Hf; lia|].
  cbn [to_digits]. destruct (Z.ltb_spec z b).
  - exists (digit_char z), acc. split; [done|]. intros He.
    assert (Some z = Some 0%Z) as [= ->]; [|lia]. rewrite <- (digit_val_char z) by lia. by rewrite He.
  - apply IH.
    + apply Z.div_str_pos. lia.
    + rewrite Nat2Z.inj_succ, Z.pow_succ_r in Hf by lia. by apply Z.div_lt_upper_bound; lia.
Qed.

Lemma dec_digits z : (0 <= z)%Z -> Forall (digit_ok 10) (dec z).
Proof.
  intros Hz. unfold dec. rewrite (proj2 (Z.ltb_ge z 0)) by lia. by apply print_num_spec.
Qed.

Lemma dec_plain z a : (0 <= z)%Z -> a = NUL \/ a = byte_of 44 -> a ∉ dec z.
Proof.
  intros Hz Ha Hin. apply dec_digits in Hz. rewrite Forall_forall in Hz. specialize (Hz a Hin) as (d & Hd & _).
  destruct Ha as [-> | ->]; by vm_compute in Hd.
Qed.

Lemma strtoul_dec z : (0 < z < 2 ^ 64)%Z -> strtoul (dec z) 0 = (z, false).
Proof.
  intros Hz. pose proof (dec_digits z ltac:(lia)) as Hd. unfold dec in *. rewrite (proj2 (Z.ltb_ge z 0)) in * by lia.
  assert (Hh : exists a ds, print_num 10 z = a :: ds /\ a <> zero_c).
  { apply to_digits_head; [lia|lia|]. apply log2_fuel; lia. }
  destruct Hh as (a & ds & He & Ha). pose proof (num_acc_print 10 z ltac:(lia) ltac:(lia)) as Hv. rewrite He in *.
  apply Forall_cons in Hd as [H1 _]. destruct (digit_not_special _ _ H1) as (Hs & Hm & Hp & _).
  unfold strtoul, scan_number. cbn [skip_spaces]. rewrite Hs, Hm, Hp. cbn [Z.eqb orb].
  assert (Ascii.eqb a (byte_of 48) = false) as Hz0 by (by apply Ascii.eqb_neq).
  assert (is_hex_prefix (a :: ds) = false) as -> by (destruct ds as [|x [|y ds]]; cbn [is_hex_prefix]; by rewrite ?Hz0).
  cbn [andb]. rewrite Hz0, Hv, (proj2 (Z.ltb_lt z (2 ^ 64))) by lia. done.
Qed.

(** ** Fields *)

Lemma field_here n z m : field 0 n (le_encode n z ++ m) = (z mod 256 ^ Z.of_nat n)%Z.
Proof. unfold field. rewrite drop_0, take_app_le, take_ge by (rewrite length_le_encode; lia). apply le_decode_encode. Qed.

Lemma field_end n z : field 0 n (le_encode n z) = (z mod 256 ^ Z.of_nat n)%Z.
Proof. rewrite <- (app_nil_r (le_encode n z)). apply field_here. Qed.

Lemma field_skip k off n z m : (k <= off)%nat -> field off n (le_encode k z ++ m) = field (off - k) n m.
Proof. intros Hk. unfold field. rewrite drop_app_ge by (rewrite length_le_encode; lia). by rewrite length_le_encode. Qed.

Lemma i64_small z : (- 2 ^ 63 <= z < 2 ^ 63)%Z -> i64 (z mod 256 ^ 8) = z.
Proof.
  intros Hz. unfold i64. change (256 ^ 8)%Z with (2 ^ 64)%Z. rewrite <- Zplus_mod_idemp_l, Zmod_mod, Zplus_mod_idemp_l.
  rewrite Z.mod_small; lia.
Qed.

(** Reads a field of an encoded message. *)
Ltac fields :=
  repeat first [rewrite field_skip by lia; cbn [Nat.sub]
               | rewrite field_here | rewrite field_end];
  change (256 ^ Z.of_nat 4)%Z with (2 ^ 32)%Z; change (256 ^ Z.of_nat 8)%Z with (2 ^ 64)%Z.
