(* ===== verification/SyncService.v ===== *)
(** * The daemon's side of file synchronisation (file_sync_service.cpp)

    A session reads requests from its descriptor until one fails.  The buffer
    is the session's: it keeps what earlier requests left in it. *)

From S2P Require Import Prelude LibBase Packet AdbIo Transport World FileSync.

Section Service.
Context {E : Type} {K : Kernel E} {SC : SysCalls E} {LB : LibBase} {HE : HostErrno}.

Definition should_use_fs_config (path : bytes) : bool :=
  StartsWith path (str "/system/") || StartsWith path (str "/vendor/") || StartsWith path (str "/oem/").

Definition update_capabilities (path : bytes) (capabilities : Z) : M E (errno_t + unit) :=
  if (capabilities =? 0)%Z then
    call (c_removexattr (c_str path)) ;;; ret (inr tt)
  else call (c_setxattr (c_str path) (Z.land capabilities 0xffffffff) (Z.shiftr capabilities 32)).

(** ** secure_mkdirs *)

(** The owner, mode and capabilities; they stay from one component to the next. *)
Record dir_attrs := { da_uid : Z; da_gid : Z; da_mode : Z; da_capabilities : Z }.

Fixpoint mkdirs_loop (components : list bytes) (partial_path : bytes) (a : dir_attrs) : M E (errno_t + unit) :=
  match components with
  | [] => ret (inr tt)
  | path_component :: rest =>
      let partial_path :=
        (if Ascii.eqb (back partial_path) slash then partial_path else partial_path ++ [slash]) ++ path_component in
      let a :=
        if should_use_fs_config partial_path then
          let '(uid, gid, mode, capabilities) := fs_config (c_str partial_path) true (da_mode a) in
          {| da_uid := uid; da_gid := gid; da_mode := mode; da_capabilities := capabilities |}
        else a in
      let* r := call (c_mkdir (c_str partial_path) (da_mode a)) in
      match r with
      | inl EEXIST => mkdirs_loop rest partial_path a
      | inl e => ret (inl e)
      | inr _ =>
          let* r := call (c_chown (c_str partial_path) (da_uid a) (da_gid a)) in
          match r with
          | inl e => ret (inl e)
          | inr _ =>
              call (c_restorecon (c_str partial_path)) ;;;
              let* r := update_capabilities partial_path (da_capabilities a) in
              match r with
              | inl e => ret (inl e)
              | inr _ => mkdirs_loop rest partial_path a
              end
          end
      end
  end.

(** [errno]: its value before the call, still there if the path is not absolute. *)
Definition secure_mkdirs (errno : errno_t) (path : bytes) : M E (errno_t + unit) :=
  match path with
  | c :: _ =>
      if Ascii.eqb c slash then
        mkdirs_loop (Split path slash) []
          {| da_uid := 0xffffffff; da_gid := 0xffffffff; da_mode := 0x1fd; da_capabilities := 0 |}
      else ret (inl errno)
  | [] => ret (inl errno)
  end.

(** ** Stat and list *)

Definition do_lstat_v1 (s : Z) (path : bytes) : M E bool :=
  let* r := call (c_lstat path) in
  let st := match r with inr st => st | inl _ => zero_stat end in
  let* r := WriteFully s (encode_stat_v1 ID_LSTAT_V1 (st_mode st) (st_size st) (st_mtime st)) in
  ret (wx_bool r).

Definition do_stat_v2 (s id : Z) (path : bytes) : M E bool :=
  let* r := call (if (id =? ID_STAT_V2)%Z then c_stat path else c_lstat path) in
  let msg := match r with
             | inl errno => encode_stat_v2 id (errno_to_wire (errno_code errno)) zero_stat
             | inr st => encode_stat_v2 id 0 st
             end in
  let* r := WriteFully s msg in
  ret (wx_bool r).

Fixpoint list_entries (s : Z) (path : bytes) (names : list bytes) : M E bool :=
  match names with
  | [] => ret true
  | d_name :: rest =>
      let* r := call (c_lstat (path ++ str "/" ++ d_name)) in
      match r with
      | inl _ => list_entries s path rest
      | inr st =>
          let* r := WriteFully s (encode_dent ID_DENT (st_mode st) (st_size st) (st_mtime st) (Zlen d_name)) in
          if negb (wx_bool r) then ret false else
          let* r := WriteFully s d_name in
          if negb (wx_bool r) then ret false else list_entries s path rest
      end
  end.

Definition do_list (s : Z) (path : bytes) : M E bool :=
  let* d := call (c_readdir path) in
  let* ok := list_entries s path (match d with inr names => names | inl _ => [] end) in
  if negb ok then ret false else
  let* r := WriteFully s (encode_dent ID_DONE 0 0 0 0) in
  ret (wx_bool r).

Definition SendSyncFail (fd : Z) (reason : bytes) : M E bool :=
  let* r := WriteFully fd (encode_request ID_FAIL (Zlen reason)) in
  if negb (wx_bool r) then ret false else
  let* r := WriteFully fd reason in
  ret (wx_bool r).

Definition SendSyncFailErrno (errno : errno_t) (fd : Z) (reason : bytes) : M E bool :=
  SendSyncFail fd (reason ++ str ": " ++ strerror errno).

(** ** Receiving a file *)

(** [ReadFdExactly] into the buffer. *)
Definition read_buffer (s len : Z) (buffer : bytes) : M E (option bytes) :=
  check (len <=? Zlen buffer)%Z "write past the buffer" ;;;
  let* r := ReadFdExactly s len in
  ret (match r with RX_ok bs => Some (bs ++ drop (length bs) buffer) | RX_fail _ => None end).

(** [abort:] *)
Definition send_abort (fd : Z) (path : bytes) (do_unlink : bool) : M E unit :=
  when (0 <=? fd)%Z (call (c_close fd)) ;;;
  when do_unlink (call (c_unlink path)).

(** [fail:] reads and throws away until the other side is done.  A failure to
    read a header starts the loop over. *)
Fixpoint send_fail_loop (fuel : nat) (s : Z) (buffer : bytes) : M E bytes :=
  match fuel with
  | O => no_fuel
  | S f =>
      let* r := ReadFdExactly s 8 in
      match r with
      | RX_fail _ => send_fail_loop f s buffer
      | RX_ok msg =>
          if (request_id msg =? ID_DONE)%Z then ret buffer
          else if negb (request_id msg =? ID_DATA)%Z then ret buffer
          else if (Zlen buffer <? request_arg msg)%Z then ret buffer
          else
            let* b := read_buffer s (request_arg msg) buffer in
            match b with None => ret buffer | Some buffer => send_fail_loop f s buffer end
      end
  end.

(** How the loop over the data messages ends: with the time stamp, or at one of
    the labels. *)
Inductive send_outcome := SendDone (timestamp : Z) | SendFailed | SendAborted.

Fixpoint send_data_loop (fuel : nat) (s fd : Z) (buffer : bytes) : M E (send_outcome * bytes) :=
  match fuel with
  | O => no_fuel
  | S f =>
      let* r := ReadFdExactly s 8 in
      match r with
      | RX_fail _ => ret (SendFailed, buffer)
      | RX_ok msg =>
          if negb (request_id msg =? ID_DATA)%Z then
            if (request_id msg =? ID_DONE)%Z then ret (SendDone (request_arg msg), buffer)
            else SendSyncFail s (str "invalid data message") ;;; ret (SendAborted, buffer)
          else if (Zlen buffer <? request_arg msg)%Z then
            SendSyncFail s (str "oversize data message") ;;; ret (SendAborted, buffer)
          else
            let* b := read_buffer s (request_arg msg) buffer in
            match b with
            | None => ret (SendAborted, buffer)
            | Some buffer =>
                let* r := WriteFully fd (take (Z.to_nat (request_arg msg)) buffer) in
                match r with
                | WX_fail errno => SendSyncFailErrno errno s (str "write failed") ;;; ret (SendFailed, buffer)
                | WX_ok => send_data_loop f s fd buffer
                end
            end
      end
  end.

(** [fail:], which goes on to [abort:]. *)
Definition send_fail (fuel : nat) (s fd : Z) (path : bytes) (do_unlink : bool) (buffer : bytes) : M E (bool * bytes) :=
  let* buffer := send_fail_loop fuel s buffer in
  send_abort fd path do_unlink ;;;
  ret (false, buffer).

(** A file that is there already is opened as it is. *)
Definition or_existing (path : bytes) (mode : Z) (fd : errno_t + Z) : M E (errno_t * bytes + Z) :=
  let* fd := match fd with
             | inl EEXIST => call (c_open path (Z.lor O_WRONLY O_CLOEXEC) mode)
             | _ => ret fd
             end in
  ret (match fd with inl errno => inl (errno, str "couldn't create file") | inr fd => inr fd end).

Definition create_file (path : bytes) (mode : Z) : M E (errno_t + Z) :=
  call (c_open path (Z.lor (Z.lor (Z.lor O_WRONLY O_CREAT) O_EXCL) O_CLOEXEC) mode).

(** The file to write to, or what to tell the client. *)
Definition open_for_send (path : bytes) (mode : Z) : M E (errno_t * bytes + Z) :=
  let* fd := create_file path mode in
  match fd with
  | inl ENOENT =>
      let* r := secure_mkdirs ENOENT (Dirname path) in
      match r with
      | inl errno => ret (inl (errno, str "secure_mkdirs failed"))
      | inr _ => let* fd := create_file path mode in or_existing path mode fd
      end
  | _ => or_existing path mode fd
  end.

Definition handle_send_file (fuel : nat) (s : Z) (path : bytes) (uid gid capabilities mode : Z)
    (buffer : bytes) (do_unlink : bool) : M E (bool * bytes) :=
  let* r := open_for_send path mode in
  match r with
  | inl (errno, reason) =>
      SendSyncFailErrno errno s reason ;;; send_fail fuel s (-1) path do_unlink buffer
  | inr fd =>
      let* r := call (c_fchown fd uid gid) in
      match r with
      | inl errno =>
          SendSyncFailErrno errno s (str "fchown failed") ;;; send_fail fuel s fd path do_unlink buffer
      | inr _ =>
          call (c_restorecon path) ;;;
          call (c_fchmod fd mode) ;;;
          let* (o, buffer) := send_data_loop fuel s fd buffer in
          match o with
          | SendFailed => send_fail fuel s fd path do_unlink buffer
          | SendAborted => send_abort fd path do_unlink ;;; ret (false, buffer)
          | SendDone timestamp =>
              call (c_close fd) ;;;
              let* r := update_capabilities path capabilities in
              match r with
              | inl errno =>
                  SendSyncFailErrno errno s (str "update_capabilities failed") ;;;
                  send_fail fuel s fd path do_unlink buffer
              | inr _ =>
                  call (c_utime path timestamp timestamp) ;;;
                  let* r := WriteFully s (encode_request ID_OKAY 0) in
                  ret (wx_bool r, buffer)
              end
          end
      end
  end.

(** ** Receiving a link *)

(** [symlink] takes the buffer as a C string. *)
Definition symlink_buffer (buffer path : bytes) : M E (errno_t + unit) :=
  check (bool_decide (NUL ∈ buffer)) "read past the buffer" ;;;
  call (c_symlink (c_str buffer) path).

Definition make_link (buffer path : bytes) : M E (errno_t * bytes + unit) :=
  let finish (r : errno_t + unit) : errno_t * bytes + unit :=
    match r with inl errno => inl (errno, str "symlink failed") | inr _ => inr tt end in
  let* r := symlink_buffer buffer path in
  match r with
  | inl ENOENT =>
      let* r := secure_mkdirs ENOENT (Dirname path) in
      match r with
      | inl errno => ret (inl (errno, str "secure_mkdirs failed"))
      | inr _ => let* r := symlink_buffer buffer path in ret (finish r)
      end
  | _ => ret (finish r)
  end.

Definition handle_send_link (s : Z) (path buffer : bytes) : M E (bool * bytes) :=
  let* r := ReadFdExactly s 8 in
  match r with
  | RX_fail _ => ret (false, buffer)
  | RX_ok msg =>
      if negb (request_id msg =? ID_DATA)%Z then
        SendSyncFail s (str "invalid data message: expected ID_DATA") ;;; ret (false, buffer)
      else if (Zlen buffer <? request_arg msg)%Z then
        SendSyncFail s (str "oversize data message") ;;; ret (false, buffer)
      else
        let* b := read_buffer s (request_arg msg) buffer in
        match b with
        | None => ret (false, buffer)
        | Some buffer =>
            let* r := make_link buffer path in
            match r with
            | inl (errno, reason) => SendSyncFailErrno errno s reason ;;; ret (false, buffer)
            | inr _ =>
                let* r := ReadFdExactly s 8 in
                match r with
                | RX_fail _ => ret (false, buffer)
                | RX_ok msg =>
                    if (request_id msg =? ID_DONE)%Z then
                      let* r := WriteFully s (encode_request ID_OKAY 0) in ret (wx_bool r, buffer)
                    else SendSyncFail s (str "invalid data message: expected ID_DONE") ;;; ret (false, buffer)
                end
            end
        end
  end.

(** ** Send and receive *)

(** [find_last_of(',')] with the two [substr]s: the text before and after. *)
Fixpoint split_last (c : ascii) (s : bytes) : option (bytes * bytes) :=
  match s with
  | [] => None
  | a :: t =>
      match split_last c t with
      | Some (before, after) => Some (a :: before, after)
      | None => if Ascii.eqb a c then Some ([], t) else None
      end
  end.

(** Copies the user's permission bits to the group's and the others'. *)
Definition spread_mode (mode : Z) : Z :=
  let mode := Z.land mode 0x1ff in
  let mode := Z.lor mode (Z.land (Z.shiftr mode 3) 0x38) in
  Z.lor mode (Z.land (Z.shiftr mode 3) 0x7).

Definition do_send (fuel : nat) (s : Z) (spec buffer : bytes) : M E (bool * bytes) :=
  match split_last (byte_of 44) spec with
  | None => SendSyncFail s (str "missing , in ID_SEND") ;;; ret (false, buffer)
  | Some (path, mode_text) =>
      let '(mode, out_of_range) := strtoul (c_str mode_text) 0 in
      if out_of_range : bool then SendSyncFail s (str "bad mode") ;;; ret (false, buffer) else
      let mode := u32 mode in
      let* st := call (c_lstat (c_str path)) in
      let do_unlink := match st with
                       | inl _ => true
                       | inr st => S_ISREG (st_mode st) || S_ISLNK (st_mode st)
                       end in
      when do_unlink (call (c_unlink (c_str path))) ;;;
      if S_ISLNK mode then handle_send_link s (c_str path) buffer else
      let mode := spread_mode mode in
      let '(uid, gid, mode, capabilities) :=
        if should_use_fs_config path then fs_config (c_str path) false mode
        else (0xffffffff, 0xffffffff, mode, 0)%Z in
      handle_send_file fuel s (c_str path) uid gid capabilities mode buffer do_unlink
  end.

Fixpoint recv_loop (fuel : nat) (s fd : Z) (buffer : bytes) : M E (bool * bytes) :=
  match fuel with
  | O => no_fuel
  | S f =>
      let* r := sys_read fd (Zlen buffer) in
      match r with
      | RdOk [] => ret (true, buffer)
      | RdErr errno =>
          SendSyncFailErrno errno s (str "read failed") ;;;
          call (c_close fd) ;;; ret (false, buffer)
      | RdOk bs =>
          let buffer := bs ++ drop (length bs) buffer in
          let* r := WriteFully s (encode_request ID_DATA (Zlen bs)) in
          if negb (wx_bool r) then call (c_close fd) ;;; ret (false, buffer) else
          let* r := WriteFully s (take (length bs) buffer) in
          if negb (wx_bool r) then call (c_close fd) ;;; ret (false, buffer) else
          recv_loop f s fd buffer
      end
  end.

Definition do_recv (fuel : nat) (s : Z) (path buffer : bytes) : M E (bool * bytes) :=
  let* fd := call (c_open path (Z.lor O_RDONLY O_CLOEXEC) 0) in
  match fd with
  | inl errno => SendSyncFailErrno errno s (str "open failed") ;;; ret (false, buffer)
  | inr fd =>
      let* (ok, buffer) := recv_loop fuel s fd buffer in
      if negb ok then ret (false, buffer) else
      call (c_close fd) ;;;
      let* r := WriteFully s (encode_request ID_DONE 0) in
      ret (wx_bool r, buffer)
  end.

(** ** Requests *)

(** The answer of a request that does not use the buffer. *)
Definition keeping (buffer : bytes) (m : M E bool) : M E (bool * bytes) :=
  let* ok := m in ret (ok, buffer).

(** The [switch] over the request. *)
Definition run_request (fuel : nat) (fd id : Z) (name buffer : bytes) : M E (bool * bytes) :=
  if (id =? ID_LSTAT_V1)%Z then keeping buffer (do_lstat_v1 fd name)
  else if (id =? ID_LSTAT_V2)%Z || (id =? ID_STAT_V2)%Z then keeping buffer (do_stat_v2 fd id name)
  else if (id =? ID_LIST)%Z then keeping buffer (do_list fd name)
  else if (id =? ID_SEND)%Z then do_send fuel fd name buffer
  else if (id =? ID_RECV)%Z then do_recv fuel fd name buffer
  else if (id =? ID_QUIT)%Z then ret (false, buffer)
  else SendSyncFail fd (str "unknown command " ++ hex_pad 8 id) ;;; ret (false, buffer).

(** [name] has room for 1024 bytes and the NUL. *)
Definition handle_sync_command (fuel : nat) (fd : Z) (buffer : bytes) : M E (bool * bytes) :=
  let* r := ReadFdExactly fd 8 in
  match r with
  | RX_fail _ => SendSyncFail fd (str "command read failure") ;;; ret (false, buffer)
  | RX_ok request =>
      let path_length := request_arg request in
      if (1024 <? path_length)%Z then SendSyncFail fd (str "path too long") ;;; ret (false, buffer) else
      let* r := ReadFdExactly fd path_length in
      match r with
      | RX_fail _ => SendSyncFail fd (str "filename read failure") ;;; ret (false, buffer)
      | RX_ok name =>
          check (path_length <? 1025)%Z "write past the name" ;;;
          run_request fuel fd (request_id request) (c_str name) buffer
      end
  end.

Fixpoint sync_commands (fuel : nat) (fd : Z) (buffer : bytes) : M E unit :=
  match fuel with
  | O => no_fuel
  | S f =>
      let* (go_on, buffer) := handle_sync_command fuel fd buffer in
      if go_on : bool then sync_commands f fd buffer else ret tt
  end.

Definition file_sync_service (fuel : nat) (fd : Z) : M E unit :=
  sync_commands fuel fd (replicate (Z.to_nat SYNC_DATA_MAX) NUL) ;;;
  call (c_close fd).

End Service.
