(* ===== verification/SyncEnv.v ===== *)
(** * What file synchronisation relies on: the connection and the files

    [SyncEnv s rx tx]: the descriptor [s] is a connection that delivers the bytes
    [rx] in chunks and takes the bytes [tx]; the calls on files do not touch it,
    and the files are what the other operations say they are. *)

From S2P Require Import Prelude LibBase Packet AdbIo Transport World FileSync.

(** What is known of the files: the path a descriptor was opened on, what is left
    to read from it, what was written to a path since it was last opened for
    writing, and what a reader of the path finds. *)
Class Files (E : Type) := {
  fd_path : Z -> E -> option bytes;
  unread : Z -> E -> bytes;
  stored : bytes -> E -> bytes;
  content : bytes -> E -> bytes;
}.

Definition same_files {E} {F : Files E} (e e' : E) : Prop :=
  (forall fd, fd_path fd e' = fd_path fd e /\ unread fd e' = unread fd e) /\
  (forall p, stored p e' = stored p e /\ content p e' = content p e).

(** What the directories and the inodes say. *)
Class Directories (E : Type) := {
  names_of : bytes -> E -> errno_t + list bytes;
  stat_of : bytes -> E -> errno_t + stat_t;
  lstat_of : bytes -> E -> errno_t + stat_t;
}.

Definition same_dirs {E} {D : Directories E} (e e' : E) : Prop :=
  forall p, names_of p e' = names_of p e /\ stat_of p e' = stat_of p e /\ lstat_of p e' = lstat_of p e.

(** The calls that change what a descriptor stands for, or what a path holds. *)
Definition touches {A} (c : sys_call A) : bool :=
  match c with c_open _ _ _ | c_creat _ _ | c_close _ | c_unlink _ => true | _ => false end.

Definition for_writing (flags : Z) : bool := Z.testbit flags 0.

Class SyncEnv (E : Type) {K : Kernel E} {SC : SysCalls E} {F : Files E} {D : Directories E} (s : Z) (rx tx : E -> bytes) := {
  env_stream :: FdStream E s rx tx (refusals s);
  read_conn n e r e' : adb_read s n e = (r, e') -> same_files e e' /\ same_dirs e e';
  write_conn buf e r e' : adb_write s buf e = (r, e') -> same_files e e' /\ same_dirs e e';
  sys_conn {A} (c : sys_call A) e a e' : sys c e = (a, e') -> rx e' = rx e /\ tx e' = tx e;
  sys_keeps {A} (c : sys_call A) e a e' : touches c = false -> sys c e = (a, e') -> same_files e e';
  readdir_ok path e r e' : sys (c_readdir path) e = (r, e') -> r = names_of path e /\ same_dirs e e';
  stat_ok path e r e' : sys (c_stat path) e = (r, e') -> r = stat_of path e /\ same_dirs e e';
  lstat_ok path e r e' : sys (c_lstat path) e = (r, e') -> r = lstat_of path e /\ same_dirs e e';
  open_ok path flags mode e fd e' : sys (c_open path flags mode) e = (inr fd, e') ->
    (0 <= fd)%Z /\ fd <> s /\ fd_path fd e' = Some path /\
    (if for_writing flags then stored path e' = [] else unread fd e' = content path e);
  creat_ok path mode e fd e' : sys (c_creat path mode) e = (inr fd, e') ->
    (0 <= fd)%Z /\ fd <> s /\ fd_path fd e' = Some path /\ stored path e' = [];
  read_file_ok path e data e' : sys (c_ReadFileToString path) e = (inr data, e') -> data = content path e;
  close_keeps fd e r e' : sys (c_close fd) e = (r, e') -> forall p, stored p e' = stored p e;
  file_write fd p buf e r e' : fd <> s -> fd_path fd e = Some p -> adb_write fd buf e = (r, e') ->
    rx e' = rx e /\ tx e' = tx e /\ fd_path fd e' = Some p /\
    stored p e' = stored p e ++ match r with WrOk n => take (Z.to_nat n) buf | WrErr _ => [] end;
  file_read fd p n e r e' : fd <> s -> fd_path fd e = Some p -> (0 < n)%Z -> adb_read fd n e = (r, e') ->
    rx e' = rx e /\ tx e' = tx e /\ fd_path fd e' = Some p /\
    (forall q, stored q e' = stored q e) /\
    match r with
    | RdOk bs => unread fd e = bs ++ unread fd e' /\ (bs = [] -> unread fd e = [])
    | RdErr _ => True
    end;
}.

Section Keeps.
Context {E : Type} {F : Files E}.

#[export] Instance same_files_refl : Reflexive (@same_files E F).
Proof. by intros e; split. Qed.

#[export] Instance same_files_trans : Transitive (@same_files E F).
Proof.
  intros e1 e2 e3 [H1 H2] [H3 H4]. split.
  - intros fd. destruct (H1 fd), (H3 fd). split; congruence.
  - intros p. destruct (H2 p), (H4 p). split; congruence.
Qed.

Lemma same_fd_path e e' fd : same_files e e' -> fd_path fd e' = fd_path fd e.
Proof. intros [Hs _]. apply Hs. Qed.
Lemma same_unread e e' fd : same_files e e' -> unread fd e' = unread fd e.
Proof. intros [Hs _]. apply Hs. Qed.
Lemma same_stored e e' p : same_files e e' -> stored p e' = stored p e.
Proof. intros [_ Hs]. apply Hs. Qed.
Lemma same_content e e' p : same_files e e' -> content p e' = content p e.
Proof. intros [_ Hs]. apply Hs. Qed.
End Keeps.

#[export] Instance same_dirs_refl {E} {D : Directories E} : Reflexive (@same_dirs E D).
Proof. by intros e p. Qed.

#[export] Instance same_dirs_trans {E} {D : Directories E} : Transitive (@same_dirs E D).
Proof. intros e1 e2 e3 H1 H2 p. destruct (H1 p) as (?&?&?), (H2 p) as (?&?&?). split_and!; congruence. Qed.

(** ** Loops of reads and writes keep what each read and write keeps *)

Section Loops.
Context {E : Type} {FO : FdOps E} (R : E -> E -> Prop) `{!Reflexive R, !Transitive R} (fd : Z).

Lemma ReadFdExactly_loop_keeps fuel len acc e a e' :
  (forall n e r e', adb_read fd n e = (r, e') -> R e e') ->
  ReadFdExactly_loop fuel fd len acc e = Done a e' -> R e e'.
Proof.
  intros HR. revert len acc e. induction fuel as [|f IH]; intros len acc e; cbn [ReadFdExactly_loop];
    (destruct (0 <? len)%Z; [|by intros [= <- <-]]); [done|].
  unfold bind, sys_read. destruct (adb_read fd len e) as [r e1] eqn:Hr. apply HR in Hr.
  destruct r as [[|b bs]|x]; [by intros [= <- <-]| |by intros [= <- <-]].
  intros Hl. etrans; [exact Hr|]. by eapply IH.
Qed.

Lemma write_conn_keeps fuel buf e a e' :
  (forall b e r e', adb_write fd b e = (r, e') -> R e e') ->
  WriteFdExactly_loop fuel fd buf e = Done a e' -> R e e'.
Proof.
  intros HR. revert buf e. induction fuel as [|f IH]; intros buf e; (destruct buf as [|b bs]; [by intros [= <- <-]|]); [done|].
  cbn [WriteFdExactly_loop]. unfold bind, sys_write. destruct (adb_write fd (b :: bs) e) as [r e1] eqn:Hr. apply HR in Hr.
  destruct r as [n|[]]; try (by intros [= <- <-]); intros Hl; (etrans; [exact Hr|]); by eapply IH.
Qed.
End Loops.

(** ** The calls, one by one *)

Section Env.
Context {E : Type} {K : Kernel E} {KL : KernelLaws E} {SC : SysCalls E} {F : Files E} {D : Directories E}.
Context (s : Z) (rx tx : E -> bytes) {SE : SyncEnv E s rx tx}.
Implicit Types (e : E) (N : Prop).

#[local] Existing Instance env_stream.

(** Reading and writing on the connection leave the files and the directories alone. *)
Lemma owp_read_keeps N len e (Q : rx_result -> E -> Prop) :
  owp N (ReadFdExactly s len) (fun r e' => same_files e e' -> same_dirs e e' -> Q r e') e -> owp N (ReadFdExactly s len) Q e.
Proof.
  unfold owp. destruct (ReadFdExactly s len e) as [a e'| | | |] eqn:Hr; try done. intros HQ. unfold ReadFdExactly in Hr.
  apply HQ; [eapply (ReadFdExactly_loop_keeps same_files)|eapply (ReadFdExactly_loop_keeps same_dirs)]; try exact Hr; intros n e1 r e2 H; by apply read_conn in H as [].
Qed.

Lemma owp_write_keeps N buf e (Q : wx_result -> E -> Prop) :
  owp N (WriteFully s buf) (fun r e' => same_files e e' -> same_dirs e e' -> Q r e') e -> owp N (WriteFully s buf) Q e.
Proof.
  unfold owp, WriteFully, bind, get, WriteFdExactly. destruct (WriteFdExactly_loop _ s buf e) as [a e'| | | |] eqn:Hr; try done. intros HQ.
  apply HQ; [eapply (write_conn_keeps same_files)|eapply (write_conn_keeps same_dirs)]; try exact Hr; intros n e1 r e2 H; by apply write_conn in H as [].
Qed.

Lemma owp_read_conn_dirs N pre post e (Q : rx_result -> E -> Prop) : rx e = pre ++ post ->
  (forall e', rx e' = post -> tx e' = tx e -> same_files e e' -> same_dirs e e' -> Q (RX_ok pre) e') ->
  owp N (ReadFdExactly s (Zlen pre)) Q e.
Proof.
  intros Hrx HQ. apply owp_read_keeps. destruct (ReadFdExactly_app s rx tx (refusals s) pre post e Hrx) as (e' & Hr & H1 & H2 & _).
  unfold owp. rewrite Hr. by apply HQ.
Qed.

Lemma owp_read_conn N pre post e (Q : rx_result -> E -> Prop) : rx e = pre ++ post ->
  (forall e', rx e' = post -> tx e' = tx e -> same_files e e' -> Q (RX_ok pre) e') ->
  owp N (ReadFdExactly s (Zlen pre)) Q e.
Proof. intros Hrx HQ. eapply owp_read_conn_dirs; [exact Hrx|]. auto. Qed.

Lemma owp_read_eof N len e (Q : rx_result -> E -> Prop) : (Zlen (rx e) < len)%Z ->
  (forall e', rx e' = [] -> tx e' = tx e -> same_files e e' -> Q (RX_fail E_NONE) e') ->
  owp N (ReadFdExactly s len) Q e.
Proof.
  intros Hl HQ. apply owp_read_keeps. destruct (ReadFdExactly_spec s rx tx (refusals s) len e ltac:(lia)) as (e' & H2 & _ & Hr).
  rewrite decide_False in Hr by lia. destruct Hr as [Hr H1]. unfold owp. rewrite Hr. auto.
Qed.

Lemma owp_write_conn_dirs N buf e (Q : wx_result -> E -> Prop) :
  (forall e', rx e' = rx e -> tx e' = tx e ++ buf -> same_files e e' -> same_dirs e e' -> Q WX_ok e') -> owp N (WriteFully s buf) Q e.
Proof.
  intros HQ. apply owp_write_keeps. unfold WriteFully. apply owp_bind, owp_get. unfold WriteFdExactly.
  destruct (WriteFdExactly_loop_spec s rx tx (refusals s) (length buf + refusals s e) buf e) as (e' & Hw & H1 & H2 & _); [lia|].
  unfold owp. rewrite Hw. by apply HQ.
Qed.

Lemma owp_write_conn N buf e (Q : wx_result -> E -> Prop) :
  (forall e', rx e' = rx e -> tx e' = tx e ++ buf -> same_files e e' -> Q WX_ok e') -> owp N (WriteFully s buf) Q e.
Proof. intros HQ. apply owp_write_conn_dirs. auto. Qed.

Lemma owp_call N {A} (c : sys_call A) e (Q : A -> E -> Prop) :
  (forall a e', sys c e = (a, e') -> rx e' = rx e -> tx e' = tx e -> Q a e') -> owp N (call c) Q e.
Proof.
  intros HQ. unfold owp, call. destruct (sys c e) as [a e'] eqn:Hc. destruct (sys_conn c e a e' Hc). by apply HQ.
Qed.

(** A call that leaves the files alone. *)
Lemma owp_call_keeps N {A} (c : sys_call A) e (Q : A -> E -> Prop) : touches c = false ->
  (forall a e', rx e' = rx e -> tx e' = tx e -> same_files e e' -> Q a e') -> owp N (call c) Q e.
Proof. intros Ht HQ. apply owp_call. intros a e' Hc H1 H2. apply HQ; [done|done|]. by eapply sys_keeps. Qed.

Lemma owp_file_write N fd p buf e (Q : wx_result -> E -> Prop) : fd <> s -> fd_path fd e = Some p ->
  (forall r e', rx e' = rx e -> tx e' = tx e -> fd_path fd e' = Some p ->
     (r = WX_ok -> stored p e' = stored p e ++ buf) -> Q r e') ->
  owp N (WriteFully fd buf) Q e.
Proof.
  intros Hfd. unfold WriteFully. intros Hp HQ. apply owp_bind, owp_get. unfold WriteFdExactly.
  assert (Hfuel : length buf + refusals fd e <= length buf + refusals fd e) by lia. revert Hfuel HQ Hp.
  generalize (length buf + refusals fd e) at 2 3. intros fuel. revert buf e Q.
  induction fuel as [|f IH]; intros buf e Q Hf HQ Hp; (destruct buf as [|b bs]; [apply owp_ret, HQ; [done..|by rewrite app_nil_r]|]);
    [cbn [length] in Hf; lia|].
  cbn [WriteFdExactly_loop]. apply owp_bind. unfold owp at 1, sys_write. destruct (adb_write fd (b :: bs) e) as [r e1] eqn:Hw.
  destruct (file_write (rx := rx) (tx := tx) fd p (b :: bs) e r e1 Hfd Hp Hw) as (H1 & H2 & H3 & H4).
  destruct (write_progress _ _ _ _ _ Hw) as [Hle Hlt].
  assert (Hfail : forall x, owp N (ret (WX_fail x)) Q e1) by (intros x; apply owp_ret, HQ; done).
  assert (Hgo : forall buf', length buf' + refusals fd e1 <= f -> stored p e1 ++ buf' = stored p e ++ (b :: bs) ->
    owp N (WriteFdExactly_loop f fd buf') Q e1).
  { intros buf' Hl Hs. apply IH; [lia| |done]. intros r' e2 ??? Hok. apply HQ; [congruence..|]. intros Hr. by rewrite (Hok Hr). }
  destruct r as [n|[]]; try apply Hfail.
  - pose proof (write_count _ _ _ _ _ Hw). apply Hgo.
    + rewrite length_drop. destruct (decide (n = 0%Z)) as [->|]; [|cbn [length] in *; lia].
      specialize (Hlt ltac:(done) ltac:(auto)). cbn [length] in *. lia.
    + by rewrite H4, <- app_assoc, take_drop.
  - apply Hgo; [specialize (Hlt ltac:(done) ltac:(auto)); cbn [length] in *; lia|]. by rewrite H4, app_nil_r.
Qed.

Lemma owp_file_read N fd p n e (Q : read_result -> E -> Prop) : fd <> s -> fd_path fd e = Some p -> (0 < n)%Z ->
  (forall r e', rx e' = rx e -> tx e' = tx e -> fd_path fd e' = Some p -> (forall q, stored q e' = stored q e) ->
     match r with
     | RdOk bs => unread fd e = bs ++ unread fd e' /\ (bs = [] -> unread fd e = []) /\ (Zlen bs <= n)%Z
     | RdErr _ => True
     end -> Q r e') ->
  owp N (sys_read fd n) Q e.
Proof.
  intros Hfd Hp Hn HQ. unfold owp, sys_read. destruct (adb_read fd n e) as [r e'] eqn:Hr.
  destruct (file_read (rx := rx) (tx := tx) fd p n e r e' Hfd Hp Hn Hr) as (H1 & H2 & H3 & H4 & H5).
  apply HQ; [done..|]. destruct r as [bs|]; [|done]. destruct H5. split_and!; [done|done|]. eapply read_count; [|exact Hr]. lia.
Qed.

End Env.
