(* ===== verification/AdbClient.v ===== *)
(** * The client's requests to the server (adb_client.cpp)

    [launch_server] (adb.cpp) starts a process and waits for its first words;
    it is an operation of [ClientOs], with printing to the standard error. *)

From S2P Require Import Prelude LibBase Packet AdbIo FdEvent Transport World SmartText.
From S2P Require Import SocketSpec Requests Jdwp FileSync.

(** The file's static variables. *)
Record client_options := {
  adb_transport : TransportType;
  adb_serial : option bytes;
  adb_server_socket_spec : option bytes;
}.

Definition initial_options : client_options :=
  {| adb_transport := kTransportAny; adb_serial := None; adb_server_socket_spec := None |}.

Definition adb_set_transport (type : TransportType) (serial : option bytes) (o : client_options) : client_options :=
  {| adb_transport := type; adb_serial := serial; adb_server_socket_spec := adb_server_socket_spec o |}.

(** It can be set once. *)
Definition adb_set_socket_spec (socket_spec : bytes) : M client_options unit :=
  let* o := get in
  match adb_server_socket_spec o with
  | Some _ => fatal "attempted to reinitialize adb_server_socket_spec"
  | None => modify (fun o => {| adb_transport := adb_transport o; adb_serial := adb_serial o;
                                adb_server_socket_spec := Some socket_spec |})
  end.

Class ClientOs (E : Type) := {
  launch_server : bytes -> M E Z;
  eprint : bytes -> E -> E;
}.

Definition format_host_command (command : bytes) (type : TransportType) (serial : option bytes) : bytes :=
  match serial with
  | Some serial => str "host-serial:" ++ serial ++ str ":" ++ command
  | None =>
      match type with
      | kTransportUsb => str "host-usb"
      | kTransportLocal => str "host-local"
      | _ => str "host"
      end ++ str ":" ++ command
  end.

Section Answer.
Context {W : Type} {FO : FdOps W}.

(** A [char] of the status, as [%02x] prints it: it is signed. *)
Definition status_char (c : ascii) : bytes :=
  hex_pad 2 (u32 (if (byte_val c <? 128)%Z then byte_val c else byte_val c - 256)).

(** [inl]: the text of the error. *)
Definition adb_status (fd : Z) : M W (bytes + unit) :=
  let* r := ReadFdExactly fd 4 in
  match r with
  | RX_fail errno => ret (inl (perror_str (str "protocol fault (couldn't read status)") errno))
  | RX_ok buf =>
      if bool_decide (buf = str "OKAY") then ret (inr tt)
      else if negb (bool_decide (buf = str "FAIL")) then
        ret (inl (str "protocol fault (status " ++ intercalate (byte_of 32) (map status_char buf) ++ str "?!)"))
      else
        let* r := ReadProtocolString fd in
        ret (inl (match r with inl error => error | inr reason => reason end))
  end.

End Answer.

Section Client.
Context {E : Type} {K : Kernel E} {SC : SysCalls E} {B : Build} {PF : Platform} {LB : LibBase} {N : Net E} {CO : ClientOs E}.

Definition SendString (fd : Z) (s : bytes) : M E wx_result :=
  let* e := get in SendProtocolString (reply_fuel fd e (length s + 64)) fd s.

Definition close_fd (fd : Z) : M E unit := call (c_close fd).

(** The request for a transport, if there is one to make. *)
Definition transport_service (o : client_options) : option bytes :=
  match adb_serial o, adb_transport o with
  | Some serial, _ => Some (str "host:transport:" ++ serial)
  | None, kTransportUsb => Some (str "host:transport-usb")
  | None, kTransportLocal => Some (str "host:transport-local")
  | None, kTransportAny => Some (str "host:transport-any")
  | None, kTransportHost => None
  end.

(** A request and the status of the answer; the descriptor is closed when it fails. *)
Definition request_status (fd : Z) (service : bytes) : M E (bytes + unit) :=
  let* r := SendString fd service in
  match r with
  | WX_fail errno =>
      close_fd fd ;;; ret (inl (perror_str (str "write failure during connection") errno))
  | WX_ok =>
      let* st := adb_status fd in
      match st with
      | inl error => close_fd fd ;;; ret (inl error)
      | inr _ => ret (inr tt)
      end
  end.

Definition switch_socket_transport (o : client_options) (fd : Z) : M E (bytes + unit) :=
  match transport_service o with
  | None => ret (inr tt)
  | Some service => request_status fd service
  end.

(** Following the null pointer of a specification that was not set. *)
Definition server_spec (o : client_options) : M E bytes :=
  match adb_server_socket_spec o with Some spec => ret spec | None => crash "no socket specification" end.

(** The descriptor, or a negative number and the text of the error. *)
Definition adb_connect_ (o : client_options) (service : bytes) : M E (Z * bytes) :=
  if bool_decide (service = []) || (MAX_PAYLOAD <? Zlen service)%Z then
    ret ((-1)%Z, str "bad service name length (" ++ dec (Zlen service) ++ str ")")
  else
    let* spec := server_spec o in
    let* (fd, reason) := socket_spec_connect spec in
    if (fd <? 0)%Z then ret ((-2)%Z, str "cannot connect to daemon at " ++ spec ++ str ": " ++ c_str reason) else
    let* sw := if is_prefix (str "host") service then ret (inr tt) else switch_socket_transport o fd in
    match sw with
    | inl error => ret ((-1)%Z, error)
    | inr _ =>
        let* st := request_status fd service in
        match st with
        | inl error => ret ((-1)%Z, error)
        | inr _ => ret (fd, [])
        end
    end.

Definition print_error (s : bytes) : M E unit := modify (eprint s).
Definition newline : bytes := [byte_of 10].

Definition adb_kill_server (o : client_options) : M E bool :=
  let* spec := server_spec o in
  let* (fd, reason) := socket_spec_connect spec in
  if (fd <? 0)%Z then
    print_error (str "cannot connect to daemon at " ++ spec ++ str ": " ++ c_str reason ++ newline) ;;; ret true
  else
    let* r := SendString fd (str "host:kill") in
    match r with
    | WX_fail errno =>
        print_error (str "error: write failure during connection: " ++ strerror errno ++ newline) ;;; ret false
    | WX_ok => let* _ := ReadOrderlyShutdown fd in ret true
    end.

(** [start_server:]; the text of the error when that fails. *)
Definition start_server (spec : bytes) : M E (option bytes) :=
  let* r := launch_server spec in
  if negb (r =? 0)%Z then
    print_error (str "* failed to start daemon" ++ newline) ;;; ret (Some (str "cannot connect to daemon"))
  else print_error (str "* daemon started successfully" ++ newline) ;;; ret None.

(** The version the server at [fd] gives; [inl]: the error. *)
Definition read_version (fd : Z) : M E (bytes + Z) :=
  let* r := ReadProtocolString fd in
  match r with
  | inl error => close_fd fd ;;; ret (inl error)
  | inr version_string =>
      let* _ := ReadOrderlyShutdown fd in
      close_fd fd ;;;
      match scan_pid (take 4 (skip_spaces (c_str version_string))) with
      | None => ret (inl (str "cannot parse version string: " ++ c_str version_string))
      | Some version => ret (inr version)
      end
  end.

(** The first part: a server with the right version is there ([None]), or the
    result is known already. *)
Definition ensure_server (o : client_options) : M E (option (Z * bytes)) :=
  let* (fd, error) := adb_connect_ o (str "host:version") in
  let* spec := server_spec o in
  let launched (r : option bytes) : M E (option (Z * bytes)) :=
    ret (match r with Some error => Some ((-1)%Z, error) | None => None end) in
  if (fd =? -2)%Z && negb (is_local_socket_spec spec) then
    print_error (str "* cannot start server on remote host" ++ newline) ;;; ret (Some (fd, error))
  else if (fd =? -2)%Z then
    print_error (str "* daemon not running; starting now at " ++ spec ++ newline) ;;;
    let* r := start_server spec in launched r
  else
    let* v := if (0 <=? fd)%Z then read_version fd
              else if bool_decide (error = str "unknown host service") then ret (inr (ADB_SERVER_VERSION - 1)%Z)
              else ret (inl error) in
    match v with
    | inl error => ret (Some ((-1)%Z, error))
    | inr version =>
        if (version =? ADB_SERVER_VERSION)%Z then ret None else
        print_error (str "adb server version (" ++ dec version ++ str ") doesn't match this client (" ++
                     dec ADB_SERVER_VERSION ++ str "); killing..." ++ newline) ;;;
        let* _ := adb_kill_server o in
        let* r := start_server spec in launched r
    end.

Definition adb_connect (o : client_options) (service : bytes) : M E (Z * bytes) :=
  let* r := ensure_server o in
  match r with
  | Some r => ret r
  | None =>
      if bool_decide (service = str "host:start-server") then ret (0%Z, []) else
      let* (fd, error) := adb_connect_ o service in
      when (fd =? -2)%Z (print_error (str "* daemon still not running" ++ newline)) ;;;
      ret (fd, error)
  end.

Definition adb_command (o : client_options) (service : bytes) : M E bool :=
  let* (fd, error) := adb_connect o service in
  if (fd <? 0)%Z then print_error (str "error: " ++ c_str error ++ newline) ;;; ret false else
  let* st := adb_status fd in
  match st with
  | inl error => print_error (str "error: " ++ c_str error ++ newline) ;;; close_fd fd ;;; ret false
  | inr _ =>
      let* _ := ReadOrderlyShutdown fd in
      close_fd fd ;;; ret true
  end.

Definition adb_query (o : client_options) (service : bytes) : M E (bytes + bytes) :=
  let* (fd, error) := adb_connect o service in
  if (fd <? 0)%Z then ret (inl error) else
  let* r := ReadProtocolString fd in
  match r with
  | inl error => close_fd fd ;;; ret (inl error)
  | inr result =>
      let* _ := ReadOrderlyShutdown fd in
      close_fd fd ;;; ret (inr result)
  end.

Definition adb_get_feature_set (o : client_options) : M E (bytes + FeatureSet) :=
  let* r := adb_query o (format_host_command (str "features") (adb_transport o) (adb_serial o)) in
  ret (match r with inl error => inl error | inr result => inr (StringToFeatureSet result) end).

End Client.

(** ** The status of an answer *)

Section Status.
Context {A : Type} {FOA : FdOps A} (fa : Z) (rxa txa : A -> bytes) (stalla : A -> nat) {SA : FdStream A fa rxa txa stalla}.
Context {D : Type} {FOD : FdOps D} (fd : Z) (rxd txd : D -> bytes) (stalld : D -> nat) {SD : FdStream D fd rxd txd stalld}.

Lemma SendFail_spec fuel reason d : NUL ∉ reason -> (Zlen reason <= 0xffff)%Z -> length reason + 12 + stalld d <= fuel ->
  exists d', SendFail fuel fd reason d = Done WX_ok d' /\
    txd d' = txd d ++ str "FAIL" ++ hex_pad 4 (Zlen reason) ++ reason.
Proof.
  intros Hn Hl Hf. unfold SendFail, bind.
  destruct (WriteFdExactly_loop_spec fd rxd txd stalld fuel (str "FAIL") d) as (d1 & Hw & H1 & _ & H2); [cbn; lia|].
  unfold WriteFdExactly. rewrite Hw.
  destruct (SendProtocolString_spec fd rxd txd stalld fuel reason d1) as (d2 & Hs & H3 & _); [done| |lia|].
  - change (MAX_PAYLOAD - 4)%Z with 262140%Z. lia.
  - exists d2. split; [done|]. by rewrite H3, H1, <- app_assoc.
Qed.

(** The status of an answer is read as it was sent: after [SendOkay] the client
    goes on, after [SendFail] it has the server's reason, and in both cases exactly the
    status is taken from the connection.  If the server says neither, or nothing, the
    client gives a protocol fault and does not go on. *)
Theorem status_roundtrip fuel reason (d : D) rest (a : A) :
  NUL ∉ reason -> (Zlen reason <= 0xffff)%Z -> length reason + 12 + stalld d <= fuel ->
  (exists d' m, SendOkay fuel fd d = Done WX_ok d' /\ txd d' = txd d ++ m /\
     (rxa a = m ++ rest -> exists a', adb_status fa a = Done (inr tt) a' /\ rxa a' = rest)) /\
  (exists d' m, SendFail fuel fd reason d = Done WX_ok d' /\ txd d' = txd d ++ m /\
     (rxa a = m ++ rest -> exists a', adb_status fa a = Done (inl reason) a' /\ rxa a' = rest)) /\
  (~ (exists t, rxa a = str "OKAY" ++ t) -> ~ (exists t, rxa a = str "FAIL" ++ t) ->
     exists text a', adb_status fa a = Done (inl text) a' /\ is_prefix (str "protocol fault") text = true).
Proof.
  intros Hn Hl Hf. split_and!.
  - destruct (WriteFdExactly_loop_spec fd rxd txd stalld fuel (str "OKAY") d) as (d1 & Hw & H1 & _); [cbn; lia|].
    exists d1, (str "OKAY"). split; [exact Hw|]. split; [done|]. intros Hrx.
    destruct (ReadFdExactly_app fa rxa txa stalla (str "OKAY") rest a Hrx) as (a' & Hr & Hp & _).
    exists a'. unfold adb_status, bind. change 4%Z with (Zlen (str "OKAY")). rewrite Hr. done.
  - destruct (SendFail_spec fuel reason d) as (d1 & Hw & H1); [done..|]. eexists d1, _. split; [exact Hw|]. split; [exact H1|].
    intros Hrx. rewrite <- !app_assoc in Hrx.
    destruct (ReadFdExactly_app fa rxa txa stalla (str "FAIL") _ a Hrx) as (a1 & Hr & Hp & _).
    destruct (ReadProtocolString_digits fa rxa txa stalla (hex_pad 4 (Zlen reason)) reason rest a1) as (a' & Hr' & Hp' & _).
    + apply hex_pad_digits. lia.
    + apply hex_pad_length. change (16 ^ Z.of_nat 4)%Z with 65536%Z. lia.
    + apply num_acc_hex_pad. lia.
    + lia.
    + done.
    + exists a'. unfold adb_status, bind. change 4%Z with (Zlen (str "FAIL")) at 1. rewrite Hr. cbn [bool_decide].
      rewrite bool_decide_false by done. rewrite bool_decide_true by done. cbn [negb]. by rewrite Hr'.
  - intros Ho Hfl. unfold adb_status, bind.
    destruct (ReadFdExactly_spec fa rxa txa stalla 4 a) as (a' & _ & _ & Hr); [done|]. destruct (decide (4 <= Zlen (rxa a))%Z).
    + destruct Hr as [-> Hp]. rewrite !bool_decide_false.
      * cbn [negb]. by eexists _, a'.
      * intros Ht. apply Hfl. exists (drop 4 (rxa a)). rewrite <- Ht. symmetry. apply take_drop.
      * intros Ht. apply Ho. exists (drop 4 (rxa a)). rewrite <- Ht. symmetry. apply take_drop.
    + destruct Hr as [-> Hp]. by eexists _, a'.
Qed.

End Status.

(** A refused and a short write on the server's side, small chunks on the client's. *)
Lemma status_roundtrip_witness :
  let d := {| wire_rx := []; wire_tx := []; wire_plan := [0; 3] |} in
  let a := {| wire_rx := [str "FA"; str "IL0"; str "006clos"; str "ed"]; wire_tx := []; wire_plan := [] |} in
  (exists d' m, SendOkay 100 7 d = Done WX_ok d' /\ wire_tx d' = [] ++ m /\
     (wire_in a = m ++ [] -> exists a', adb_status 7 a = Done (inr tt) a' /\ wire_in a' = [])) /\
  (exists d' m, SendFail 100 7 (str "closed") d = Done WX_ok d' /\ wire_tx d' = [] ++ m /\
     (wire_in a = m ++ [] -> exists a', adb_status 7 a = Done (inl (str "closed")) a' /\ wire_in a' = [])) /\
  (~ (exists t, wire_in a = str "OKAY" ++ t) -> ~ (exists t, wire_in a = str "FAIL" ++ t) ->
     exists text a', adb_status 7 a = Done (inl text) a' /\ is_prefix (str "protocol fault") text = true).
Proof.
  intros d a. apply (status_roundtrip 7 wire_in wire_tx (fun w => length (wire_plan w)) 7 wire_in wire_tx (fun w => length (wire_plan w))).
  - by_decide.
  - by_decide.
  - by_decide.
Defined.
