(* ===== verification/SyncClient.v ===== *)
(** * The client's side of file synchronisation (file_sync_client.cpp): the connection

    One connection to the daemon carries the requests of a command, one after the
    other.  Modelled as built for a host other than Windows. *)

From S2P Require Import Prelude LibBase Packet AdbIo FdEvent Transport World.
From S2P Require Import SocketSpec Requests AdbUtils FileSync AdbClient.

Definition ensure_trailing_separators {E} {SC : SysCalls E} (local_path remote_path : bytes) : bytes * bytes :=
  let add p := if Ascii.eqb (back p) slash then p else p ++ [slash] in
  (add local_path, add remote_path).

Definition should_pull_file (mode : Z) : bool := S_ISREG mode || S_ISBLK mode || S_ISCHR mode.
Definition should_push_file (mode : Z) : bool := S_ISREG mode || S_ISLNK mode.

Record copyinfo := {
  ci_lpath : bytes; ci_rpath : bytes; ci_time : Z; ci_mode : Z; ci_size : Z; ci_skip : bool;
}.

Definition new_copyinfo {E} {SC : SysCalls E} (local_path remote_path name : bytes) (mode : Z) : copyinfo :=
  let '(lpath, rpath) := ensure_trailing_separators local_path remote_path in
  let '(lpath, rpath) := (lpath ++ name, rpath ++ name) in
  let '(lpath, rpath) := if S_ISDIR mode then ensure_trailing_separators lpath rpath else (lpath, rpath) in
  {| ci_lpath := lpath; ci_rpath := rpath; ci_time := 0; ci_mode := mode; ci_size := 0; ci_skip := false |}.

Definition set_ci_skip (ci : copyinfo) : copyinfo :=
  {| ci_lpath := ci_lpath ci; ci_rpath := ci_rpath ci; ci_time := ci_time ci; ci_mode := ci_mode ci;
     ci_size := ci_size ci; ci_skip := true |}.
Definition set_ci_time_size (time size : Z) (ci : copyinfo) : copyinfo :=
  {| ci_lpath := ci_lpath ci; ci_rpath := ci_rpath ci; ci_time := time; ci_mode := ci_mode ci;
     ci_size := size; ci_skip := ci_skip ci |}.

Inductive TransferDirection := push | pull.

(** ** The ledger of a transfer

    [rate_text] is the text of the rate, which depends on the clock and on how
    floating-point numbers are printed: empty when no time has passed. *)

Record TransferLedger := {
  files_transferred : Z; files_skipped : Z; bytes_transferred : Z; bytes_expected : Z;
  expect_multiple_files : bool;
}.

(** [Reset] leaves [expect_multiple_files] as it is. *)
Definition reset_ledger (l : TransferLedger) : TransferLedger :=
  {| files_transferred := 0; files_skipped := 0; bytes_transferred := 0; bytes_expected := 0;
     expect_multiple_files := expect_multiple_files l |}.

Definition ledger_eqb (a b : TransferLedger) : bool :=
  (files_transferred a =? files_transferred b)%Z && (files_skipped a =? files_skipped b)%Z &&
  (bytes_transferred a =? bytes_transferred b)%Z.

Definition add_to_ledger (bytes transferred skipped : Z) (l : TransferLedger) : TransferLedger :=
  {| files_transferred := u64 (files_transferred l + transferred); files_skipped := u64 (files_skipped l + skipped);
     bytes_transferred := u64 (bytes_transferred l + bytes); bytes_expected := bytes_expected l;
     expect_multiple_files := expect_multiple_files l |}.

Definition expect_in_ledger (expected : Z) (multiple : bool) (l : TransferLedger) : TransferLedger :=
  {| files_transferred := files_transferred l; files_skipped := files_skipped l;
     bytes_transferred := bytes_transferred l; bytes_expected := expected; expect_multiple_files := multiple |}.

(** [%4s] *)
Definition pad_left (n : nat) (s : bytes) : bytes := replicate (n - length s) (byte_of 32) ++ s.

Definition progress_text (l : TransferLedger) (file : bytes) (file_copied_bytes file_total_bytes : Z) : bytes :=
  let overall :=
    if negb (bytes_expected l =? 0)%Z && (bytes_transferred l <=? bytes_expected l)%Z then
      let p := i32 (u64 (bytes_transferred l * 100) / bytes_expected l) in
      if (p <=? 100)%Z then take 4 (dec p ++ str "%") else str "?"
    else str "?" in
  let head := str "[" ++ pad_left 4 overall ++ str "] " ++ c_str file in
  if (file_total_bytes <? file_copied_bytes)%Z || (file_total_bytes =? 0)%Z then
    head ++ str ": " ++ dec (i64 file_copied_bytes) ++ str "/?"
  else if expect_multiple_files l then
    head ++ str ": " ++ dec (i32 (u64 (file_copied_bytes * 100) / file_total_bytes)) ++ str "%"
  else head.

Class Clock (E : Type) := { rate_text : TransferLedger -> E -> bytes }.

Definition plural (n : Z) : bytes := if (n =? 1)%Z then [] else str "s".

Definition rate_report (l : TransferLedger) (rate name : bytes) (direction : TransferDirection) : bytes :=
  match name with [] => [] | _ => name ++ str ": " end ++
  dec (files_transferred l) ++ str " file" ++ plural (files_transferred l) ++ str " " ++
  match direction with push => str "pushed" | pull => str "pulled" end ++ str "." ++
  (if (0 <? files_skipped l)%Z
   then str " " ++ dec (files_skipped l) ++ str " file" ++ plural (files_skipped l) ++ str " skipped."
   else []) ++
  (if (bytes_transferred l =? 0)%Z then [] else rate).

(** ** The connection *)

(** What goes to the terminal: the line printer's lines, and [KeepInfoLine]. *)
Inductive printed := INFO (s : bytes) | WARNING (s : bytes) | ERROR (s : bytes) | KeepInfoLine | STDOUT (s : bytes).

Record SyncConnection (E : Type) := {
  sc_env : E;
  sc_fd : Z;
  sc_max : Z;
  sc_expect_done : bool;
  sc_have_stat_v2 : bool;
  sc_global_ledger : TransferLedger;
  sc_current_ledger : TransferLedger;
  sc_printed : list printed;
  sc_errno : errno_t;
}.
Arguments sc_env {E}. Arguments sc_fd {E}. Arguments sc_max {E}. Arguments sc_expect_done {E}.
Arguments sc_have_stat_v2 {E}. Arguments sc_global_ledger {E}. Arguments sc_current_ledger {E}.
Arguments sc_printed {E}. Arguments sc_errno {E}.

Definition empty_ledger : TransferLedger :=
  {| files_transferred := 0; files_skipped := 0; bytes_transferred := 0; bytes_expected := 0; expect_multiple_files := false |}.

Definition set_sc_env {E} (v : E) (c : SyncConnection E) : SyncConnection E :=
    {| sc_env := v; sc_fd := sc_fd c; sc_max := sc_max c; sc_expect_done := sc_expect_done c;
     sc_have_stat_v2 := sc_have_stat_v2 c; sc_global_ledger := sc_global_ledger c; sc_current_ledger :=
     sc_current_ledger c; sc_printed := sc_printed c; sc_errno := sc_errno c |}.
Definition set_sc_expect_done {E} (v : bool) (c : SyncConnection E) : SyncConnection E :=
    {| sc_env := sc_env c; sc_fd := sc_fd c; sc_max := sc_max c; sc_expect_done := v; sc_have_stat_v2 :=
     sc_have_stat_v2 c; sc_global_ledger := sc_global_ledger c; sc_current_ledger := sc_current_ledger c;
     sc_printed := sc_printed c; sc_errno := sc_errno c |}.
Definition set_sc_global_ledger {E} (v : TransferLedger) (c : SyncConnection E) : SyncConnection E :=
    {| sc_env := sc_env c; sc_fd := sc_fd c; sc_max := sc_max c; sc_expect_done := sc_expect_done c;
     sc_have_stat_v2 := sc_have_stat_v2 c; sc_global_ledger := v; sc_current_ledger := sc_current_ledger c;
     sc_printed := sc_printed c; sc_errno := sc_errno c |}.
Definition set_sc_current_ledger {E} (v : TransferLedger) (c : SyncConnection E) : SyncConnection E :=
    {| sc_env := sc_env c; sc_fd := sc_fd c; sc_max := sc_max c; sc_expect_done := sc_expect_done c;
     sc_have_stat_v2 := sc_have_stat_v2 c; sc_global_ledger := sc_global_ledger c; sc_current_ledger := v;
     sc_printed := sc_printed c; sc_errno := sc_errno c |}.
Definition set_sc_printed {E} (v : list printed) (c : SyncConnection E) : SyncConnection E :=
    {| sc_env := sc_env c; sc_fd := sc_fd c; sc_max := sc_max c; sc_expect_done := sc_expect_done c;
     sc_have_stat_v2 := sc_have_stat_v2 c; sc_global_ledger := sc_global_ledger c; sc_current_ledger :=
     sc_current_ledger c; sc_printed := v; sc_errno := sc_errno c |}.
Definition set_sc_errno {E} (v : errno_t) (c : SyncConnection E) : SyncConnection E :=
    {| sc_env := sc_env c; sc_fd := sc_fd c; sc_max := sc_max c; sc_expect_done := sc_expect_done c;
     sc_have_stat_v2 := sc_have_stat_v2 c; sc_global_ledger := sc_global_ledger c; sc_current_ledger :=
     sc_current_ledger c; sc_printed := sc_printed c; sc_errno := v |}.

Section Connection.
Context {E : Type} {K : Kernel E} {SC : SysCalls E} {B : Build} {PF : Platform} {LB : LibBase}.
Context {N : Net E} {CO : ClientOs E} {HE : HostErrno} {CK : Clock E}.
Abbreviation C := (SyncConnection E).

(** Running something on the system. *)
Definition on_sys {A} (m : M E A) : M C A :=
  fun c => match m (sc_env c) with
           | Done a e => Done a (set_sc_env e c)
           | Exit code e => Exit code (set_sc_env e c)
           | Fatal s => Fatal s
           | Crash s => Crash s
           | NoFuel => NoFuel
           end.

Definition set_errno (e : errno_t) : M C unit := modify (set_sc_errno e).

(** A call that sets [errno] when it fails. *)
Definition sys_call_errno {A} (m : sys_call (errno_t + A)) : M C (option A) :=
  let* r := on_sys (call m) in
  match r with
  | inl e => set_errno e ;;; ret None
  | inr a => ret (Some a)
  end.

Definition read_exactly (fd len : Z) : M C (option bytes) :=
  let* r := on_sys (ReadFdExactly fd len) in
  match r with
  | RX_fail e => set_errno e ;;; ret None
  | RX_ok bs => ret (Some bs)
  end.

Definition write_exactly (fd : Z) (buf : bytes) : M C bool :=
  let* r := on_sys (WriteFully fd buf) in
  match r with
  | WX_fail e => set_errno e ;;; ret false
  | WX_ok => ret true
  end.

Definition print_line (l : printed) : M C unit := modify (fun c => set_sc_printed (sc_printed c ++ [l]) c).
Definition Printf (s : bytes) : M C unit := print_line (INFO s).
Definition Println (s : bytes) : M C unit := print_line (INFO s) ;;; print_line KeepInfoLine.
Definition Error (s : bytes) : M C unit := print_line (ERROR (str "adb: error: " ++ s)).
Definition Warning (s : bytes) : M C unit := print_line (WARNING (str "adb: warning: " ++ s)).
Definition errno_text : M C bytes := gets (fun c => strerror (sc_errno c)).

(** [name], quoted in a message. *)
Definition quoted (s : bytes) : bytes := str "'" ++ s ++ str "'".

(** ["...: %s", strerror(errno)] *)
Definition ErrorErrno (s : bytes) : M C unit :=
  let* t := errno_text in Error (s ++ str ": " ++ t).
Definition WarningErrno (s : bytes) : M C unit :=
  let* t := errno_text in Warning (s ++ str ": " ++ t).

(** ** Opening and closing *)

(** The constructor: the connection is valid if [sc_fd] is not negative. *)
Definition open_connection (o : client_options) (e : E) : outcome E (SyncConnection E) :=
  let fresh fd have printed e : SyncConnection E :=
    {| sc_env := e; sc_fd := fd; sc_max := SYNC_DATA_MAX; sc_expect_done := false; sc_have_stat_v2 := have;
       sc_global_ledger := empty_ledger; sc_current_ledger := empty_ledger;
       sc_printed := printed; sc_errno := E_NONE |} in
  (let* r := adb_get_feature_set o in
   match r with
   | inl error =>
       gets (fresh (-1)%Z false [ERROR (str "adb: error: failed to get feature set: " ++ c_str error)])
   | inr features =>
       let* (fd, error) := adb_connect o (str "sync:") in
       gets (fresh fd (CanUseFeature features kFeatureStat2)
         (if (fd <? 0)%Z then [ERROR (str "adb: error: connect failed: " ++ c_str error)] else []))
   end) e.

Definition IsValid : M C bool := gets (fun c => (0 <=? sc_fd c)%Z).

(** ** The ledgers *)

Definition upd_current (f : TransferLedger -> TransferLedger) : M C unit :=
  modify (fun c => set_sc_current_ledger (f (sc_current_ledger c)) c).
Definition upd_both (f : TransferLedger -> TransferLedger) : M C unit :=
  modify (fun c => set_sc_global_ledger (f (sc_global_ledger c)) (set_sc_current_ledger (f (sc_current_ledger c)) c)).

Definition NewTransfer : M C unit := upd_current reset_ledger.
Definition RecordBytesTransferred (n : Z) : M C unit := upd_both (add_to_ledger n 0 0).
Definition RecordFilesTransferred (n : Z) : M C unit := upd_both (add_to_ledger 0 n 0).
Definition RecordFilesSkipped (n : Z) : M C unit := upd_both (add_to_ledger 0 0 n).

Definition ReportProgress (file : bytes) (copied total : Z) : M C unit :=
  let* c := get in Printf (progress_text (sc_current_ledger c) file copied total).

Definition report_rate (l : TransferLedger) (name : bytes) (direction : TransferDirection) : M C unit :=
  let* c := get in
  Printf (rate_report l (rate_text l (sc_env c)) name direction) ;;;
  print_line KeepInfoLine.

Definition ReportTransferRate (name : bytes) (direction : TransferDirection) : M C unit :=
  let* c := get in report_rate (sc_current_ledger c) name direction.

Definition ReportOverallTransferRate (direction : TransferDirection) : M C unit :=
  let* c := get in
  when (negb (ledger_eqb (sc_current_ledger c) (sc_global_ledger c))) (report_rate (sc_global_ledger c) [] direction).

Definition ComputeExpectedTotalBytes (file_list : list copyinfo) : M C unit :=
  upd_current (expect_in_ledger
    (fold_left (fun n ci => if ci_skip ci then n else u64 (n + ci_size ci)) file_list 0%Z) true).
Definition SetExpectedTotalBytes (n : Z) : M C unit := upd_current (expect_in_ledger (u64 n) false).

(** ** Requests *)

Definition SendRequest (id : Z) (path_and_mode : bytes) : M C bool :=
  let path_length := Zlen path_and_mode in
  if (1024 <? path_length)%Z then
    Error (str "SendRequest failed: path too long: " ++ dec path_length) ;;;
    set_errno ENAMETOOLONG ;;; ret false
  else
    let* fd := gets sc_fd in
    write_exactly fd (encode_request id path_length ++ path_and_mode).

Definition SendStat (path : bytes) : M C bool :=
  let* c := get in
  if negb (sc_have_stat_v2 c) then set_errno ENOTSUP ;;; ret false
  else SendRequest ID_STAT_V2 path.

Definition SendLstat (path : bytes) : M C bool :=
  let* c := get in
  SendRequest (if sc_have_stat_v2 c then ID_LSTAT_V2 else ID_LSTAT_V1) path.

(** The fields of the answer, converted to those of [struct stat]. *)
Definition stat_of_v2 (msg : bytes) : stat_t :=
  {| st_dev := field 8 8 msg; st_ino := field 16 8 msg; st_mode := field 24 4 msg; st_nlink := field 28 4 msg;
     st_uid := field 32 4 msg; st_gid := field 36 4 msg; st_size := i64 (field 40 8 msg);
     st_atime := i64 (field 48 8 msg); st_mtime := i64 (field 56 8 msg); st_ctime := i64 (field 64 8 msg) |}.

Definition stat_of_v1 (msg : bytes) : stat_t :=
  {| st_dev := 0; st_ino := 0; st_mode := field 4 4 msg; st_nlink := 0; st_uid := 0; st_gid := 0;
     st_size := field 8 4 msg; st_atime := 0; st_mtime := field 12 4 msg; st_ctime := field 12 4 msg |}.

Definition FinishStat : M C (option stat_t) :=
  let* c := get in
  if sc_have_stat_v2 c then
    let* r := read_exactly (sc_fd c) 72 in
    match r with
    | None => fatal "protocol fault: failed to read stat response"
    | Some msg =>
        if negb (field 0 4 msg =? ID_LSTAT_V2)%Z && negb (field 0 4 msg =? ID_STAT_V2)%Z then
          fatal "protocol fault: stat response has wrong message id"
        else if negb (field 4 4 msg =? 0)%Z then
          set_errno (errno_of (errno_from_wire (i32 (field 4 4 msg)))) ;;; ret None
        else ret (Some (stat_of_v2 msg))
    end
  else
    let* r := read_exactly (sc_fd c) 16 in
    match r with
    | None => fatal "protocol fault: failed to read stat response"
    | Some msg =>
        if negb (field 0 4 msg =? ID_LSTAT_V1)%Z then fatal "protocol fault: stat response has wrong message id"
        else if (field 4 4 msg =? 0)%Z && (field 8 4 msg =? 0)%Z && (field 12 4 msg =? 0)%Z then
          set_errno ENOPROTOOPT ;;; ret None
        else ret (Some (stat_of_v1 msg))
    end.

(** ** Failures *)

(** The buffer for the reason has [msglen + 1] bytes, in 32 bits. *)
Definition ReportCopyFailure (from to : bytes) (msglen : Z) : M C bool :=
  check (msglen <? u32 (msglen + 1))%Z "write past the buffer" ;;;
  let* fd := gets sc_fd in
  let* r := read_exactly fd msglen in
  match r with
  | None =>
      ErrorErrno (str "failed to copy " ++ quoted from ++ str " to " ++ quoted to ++ str "; failed to read reason (!)") ;;;
      ret false
  | Some reason =>
      Error (str "failed to copy " ++ quoted from ++ str " to " ++ quoted to ++ str ": remote " ++ c_str reason) ;;;
      ret false
  end.

Definition CopyDone (from to : bytes) : M C bool :=
  let failed := str "failed to copy " ++ quoted from ++ str " to " ++ quoted to ++ str ": " in
  let* c := get in
  let* r := read_exactly (sc_fd c) 8 in
  match r with
  | None => Error (failed ++ str "couldn't read from device") ;;; ret false
  | Some msg =>
      if (request_id msg =? ID_OKAY)%Z then
        if sc_expect_done c then
          modify (set_sc_expect_done false) ;;; RecordFilesTransferred 1 ;;; ret true
        else Error (failed ++ str "received premature success") ;;; ret true
      else if negb (request_id msg =? ID_FAIL)%Z then
        Error (failed ++ str "unknown reason " ++ dec (i32 (request_id msg))) ;;; ret false
      else ReportCopyFailure from to (request_arg msg)
  end.

(** When the daemon has reset the connection, it has perhaps said why. *)
Definition WriteOrDie (from to data : bytes) : M C unit :=
  let* fd := gets sc_fd in
  let* ok := write_exactly fd data in
  if ok : bool then ret tt else
  let* errno := gets sc_errno in
  let failed := str "failed to copy " ++ quoted from ++ str " to " ++ quoted to ++ str ": " in
  (if bool_decide (errno = ECONNRESET) then
     let* r := read_exactly fd 8 in
     match r with
     | None => ErrorErrno (failed ++ str "no response")
     | Some msg =>
         if negb (request_id msg =? ID_FAIL)%Z then Error (failed ++ str "not ID_FAIL: " ++ dec (i32 (request_id msg)))
         else let* _ := ReportCopyFailure from to (request_arg msg) in ret tt
     end
   else ErrorErrno (dec (Zlen data) ++ str "-byte write failed")) ;;;
  exit_with 1.

(** ** Sending a file *)

Definition SendSmallFile (path_and_mode lpath rpath : bytes) (mtime : Z) (data : bytes) : M C bool :=
  let path_length := Zlen path_and_mode in
  if (1024 <? path_length)%Z then
    Error (str "SendSmallFile failed: path too long: " ++ dec path_length) ;;;
    set_errno ENAMETOOLONG ;;; ret false
  else
    WriteOrDie lpath rpath
      (encode_request ID_SEND path_length ++ path_and_mode ++
       encode_request ID_DATA (Zlen data) ++ data ++
       encode_request ID_DONE mtime) ;;;
    modify (set_sc_expect_done true) ;;;
    RecordBytesTransferred (Zlen data) ;;;
    ReportProgress rpath (Zlen data) (Zlen data) ;;;
    ret true.

(** Has the daemon said something while the data is being sent? *)
Definition ReceivedError : M C bool :=
  let* fd := gets sc_fd in
  let* r := on_sys (call (c_poll fd)) in
  match r with
  | inl e => set_errno e ;;; ErrorErrno (str "failed to poll") ;;; ret true
  | inr readable => ret readable
  end.

(** The loop over the file; [false]: reading it failed. *)
Fixpoint send_loop (fuel : nat) (lfd : Z) (lpath rpath : bytes) (bytes_copied total_size : Z) : M C bool :=
  match fuel with
  | O => no_fuel
  | S f =>
      let* max := gets sc_max in
      let* r := on_sys (sys_read lfd max) in
      match r with
      | RdErr e =>
          set_errno e ;;;
          ErrorErrno (str "reading " ++ quoted lpath ++ str " locally failed") ;;;
          on_sys (call (c_close lfd)) ;;; ret false
      | RdOk [] => ret true
      | RdOk data =>
          WriteOrDie lpath rpath (encode_request ID_DATA (Zlen data) ++ data) ;;;
          RecordBytesTransferred (Zlen data) ;;;
          let bytes_copied := u64 (bytes_copied + Zlen data) in
          let* e := ReceivedError in
          if e : bool then ret true else
          ReportProgress rpath bytes_copied total_size ;;;
          send_loop f lfd lpath rpath bytes_copied total_size
      end
  end.

Definition SendLargeFile (fuel : nat) (path_and_mode lpath rpath : bytes) (mtime : Z) : M C bool :=
  let* ok := SendRequest ID_SEND path_and_mode in
  if negb ok then ErrorErrno (str "failed to send ID_SEND message " ++ quoted path_and_mode) ;;; ret false else
  let* st := sys_call_errno (c_stat lpath) in
  match st with
  | None => ErrorErrno (str "cannot stat " ++ quoted lpath) ;;; ret false
  | Some st =>
      let* lfd := sys_call_errno (c_open lpath O_RDONLY 0) in
      match lfd with
      | None => ErrorErrno (str "opening " ++ quoted lpath ++ str " locally failed") ;;; ret false
      | Some lfd =>
          let* ok := send_loop fuel lfd lpath rpath 0 (u64 (st_size st)) in
          if negb ok then ret false else
          on_sys (call (c_close lfd)) ;;;
          modify (set_sc_expect_done true) ;;;
          WriteOrDie lpath rpath (encode_request ID_DONE mtime) ;;;
          ret true
      end
  end.

End Connection.
