(* ===== verification/SyncCommands.v ===== *)
(** * The client's side of file synchronisation (file_sync_client.cpp): the commands

    [adb ls], [push], [pull] and [sync]: walking the directories on both sides
    and copying what is to be copied. *)

From S2P Require Import Prelude LibBase Packet AdbIo FdEvent Transport World.
From S2P Require Import SocketSpec Requests AdbUtils FileSync AdbClient SyncClient.

Section Commands.
Context {E : Type} {K : Kernel E} {SC : SysCalls E} {B : Build} {PF : Platform} {LB : LibBase}.
Context {N : Net E} {CO : ClientOs E} {HE : HostErrno} {CK : Clock E}.
Abbreviation C := (SyncConnection E).

(** ** ls and stat *)

(** [func] gets the mode, the size, the time and the name of each entry. *)
Fixpoint sync_ls_loop (fuel : nat) {A} (func : Z -> Z -> Z -> bytes -> A -> M C A) (a : A) : M C (bool * A) :=
  match fuel with
  | O => no_fuel
  | S f =>
      let* fd := gets sc_fd in
      let* r := read_exactly fd 20 in
      match r with
      | None => ret (false, a)
      | Some msg =>
          if (field 0 4 msg =? ID_DONE)%Z then ret (true, a)
          else if negb (field 0 4 msg =? ID_DENT)%Z then ret (false, a)
          else
            let len := field 16 4 msg in
            if (256 <? len)%Z then ret (false, a) else
            let* r := read_exactly fd len in
            match r with
            | None => ret (false, a)
            | Some buf =>
                check (len <? 257)%Z "write past the name" ;;;
                let* a := func (field 4 4 msg) (field 8 4 msg) (field 12 4 msg) (c_str buf) a in
                sync_ls_loop f func a
            end
      end
  end.

Definition sync_ls (fuel : nat) (path : bytes) {A} (func : Z -> Z -> Z -> bytes -> A -> M C A) (a : A) : M C (bool * A) :=
  let* ok := SendRequest ID_LIST path in
  if negb ok then ret (false, a) else sync_ls_loop fuel func a.

Definition sync_stat (path : bytes) : M C (option stat_t) :=
  let* ok := SendStat path in if ok : bool then FinishStat else ret None.

Definition sync_lstat (path : bytes) : M C (option stat_t) :=
  let* ok := SendLstat path in if ok : bool then FinishStat else ret None.

Definition set_st_mode_size (mode size : Z) (st : stat_t) : stat_t :=
  {| st_dev := st_dev st; st_ino := st_ino st; st_mode := mode; st_nlink := st_nlink st; st_uid := st_uid st;
     st_gid := st_gid st; st_size := size; st_atime := st_atime st; st_mtime := st_mtime st; st_ctime := st_ctime st |}.

(** An old daemon only has lstat: a link is a directory if the path with a slash exists. *)
Definition sync_stat_fallback (path : bytes) : M C (option stat_t) :=
  let* r := sync_stat path in
  match r with
  | Some st => ret (Some st)
  | None =>
      let* errno := gets sc_errno in
      if negb (bool_decide (errno = ENOTSUP)) then ret None else
      let* r := sync_lstat path in
      match r with
      | None => ret None
      | Some st =>
          if S_ISLNK (st_mode st) then
            let mode := Z.land (st_mode st) (Z.lnot S_IFMT) in
            let* dir := sync_lstat (path ++ [slash]) in
            ret (Some (set_st_mode_size (Z.lor mode (match dir with Some _ => S_IFDIR | None => S_IFREG end)) 0 st))
          else ret (Some st)
      end
  end.

(** ** Sending and receiving a file *)

(** Is the file on the device as new as this one? *)
Definition up_to_date (mode mtime : Z) (st : stat_t) : bool :=
  (S_ISREG (Z.land mode (st_mode st)) && (st_mtime st =? mtime)%Z) ||
  (S_ISLNK (Z.land mode (st_mode st)) && (mtime <=? st_mtime st)%Z).

Definition PATH_MAX : Z := 4096.

(** [mtime] is [unsigned]; [mode] is printed as an [int]. *)
Definition sync_send (fuel : nat) (lpath rpath : bytes) (mtime mode : Z) (sync : bool) : M C bool :=
  let mtime := u32 mtime in
  let path_and_mode := rpath ++ str "," ++ dec (i32 mode) in
  let* skip :=
    if sync then
      let* r := sync_lstat rpath in
      ret (match r with Some st => up_to_date mode mtime st | None => false end)
    else ret false in
  if skip : bool then RecordFilesSkipped 1 ;;; ret true
  else if S_ISLNK mode then
    let* r := sys_call_errno (c_readlink lpath) in
    match r with
    | None => ErrorErrno (str "readlink " ++ quoted lpath ++ str " failed") ;;; ret false
    | Some target =>
        let* ok := SendSmallFile path_and_mode lpath rpath mtime (take (Z.to_nat (PATH_MAX - 1)) target ++ [NUL]) in
        if negb ok then ret false else CopyDone lpath rpath
    end
  else
    let* st := sys_call_errno (c_stat lpath) in
    match st with
    | None => ErrorErrno (str "failed to stat local file " ++ quoted lpath) ;;; ret false
    | Some st =>
        let* sent :=
          if (st_size st <? SYNC_DATA_MAX)%Z then
            let* r := sys_call_errno (c_ReadFileToString lpath) in
            match r with
            | None => ErrorErrno (str "failed to read all of " ++ quoted lpath) ;;; ret false
            | Some data => SendSmallFile path_and_mode lpath rpath mtime data
            end
          else SendLargeFile fuel path_and_mode lpath rpath mtime in
        if negb sent then ret false else CopyDone lpath rpath
    end.

(** Closes the file and removes it. *)
Definition drop_file (lfd : Z) (lpath : bytes) : M C unit :=
  on_sys (call (c_close lfd)) ;;; on_sys (call (c_unlink lpath)).

Fixpoint sync_recv_loop (fuel : nat) (lfd : Z) (rpath lpath : bytes) (name : option bytes)
    (bytes_copied expected_size : Z) : M C bool :=
  match fuel with
  | O => no_fuel
  | S f =>
      let* c := get in
      let* r := read_exactly (sc_fd c) 8 in
      match r with
      | None => drop_file lfd lpath ;;; ret false
      | Some msg =>
          let size := request_arg msg in
          if (request_id msg =? ID_DONE)%Z then ret true
          else if negb (request_id msg =? ID_DATA)%Z then
            drop_file lfd lpath ;;;
            let* _ := ReportCopyFailure rpath lpath size in ret false
          else if (sc_max c <? size)%Z then
            Error (str "msg.data.size too large: " ++ dec size ++ str " (max " ++ dec (sc_max c) ++ str ")") ;;;
            drop_file lfd lpath ;;; ret false
          else
            check (size <=? SYNC_DATA_MAX)%Z "write past the buffer" ;;;
            let* r := read_exactly (sc_fd c) size in
            match r with
            | None => drop_file lfd lpath ;;; ret false
            | Some buffer =>
                let* ok := write_exactly lfd buffer in
                if negb ok then
                  ErrorErrno (str "cannot write " ++ quoted lpath) ;;;
                  drop_file lfd lpath ;;; ret false
                else
                  let bytes_copied := u64 (bytes_copied + size) in
                  RecordBytesTransferred size ;;;
                  ReportProgress (default rpath name) bytes_copied expected_size ;;;
                  sync_recv_loop f lfd rpath lpath name bytes_copied expected_size
            end
      end
  end.

Definition sync_recv (fuel : nat) (rpath lpath : bytes) (name : option bytes) (expected_size : Z) : M C bool :=
  let* ok := SendRequest ID_RECV rpath in
  if negb ok then ret false else
  on_sys (call (c_unlink lpath)) ;;;
  let* lfd := sys_call_errno (c_creat lpath 0x1a4) in
  match lfd with
  | None => ErrorErrno (str "cannot create " ++ quoted lpath) ;;; ret false
  | Some lfd =>
      let* ok := sync_recv_loop fuel lfd rpath lpath name 0 (u64 expected_size) in
      if negb ok then ret false else
      RecordFilesTransferred 1 ;;;
      on_sys (call (c_close lfd)) ;;; ret true
  end.

(** ** Pushing a directory *)

Definition IsDotOrDotDot (name : bytes) : bool :=
  bool_decide (name = str ".") || bool_decide (name = str "..").

Definition special_file (path : bytes) (mode : Z) : bytes :=
  str "skipping special file " ++ quoted path ++ str " (mode = 0o" ++ print_num 8 mode ++ str ")".

(** The entries of one directory: the subdirectories, the files, and whether
    there was any. *)
Fixpoint local_entries (lpath rpath : bytes) (names : list bytes) (dirlist file_list : list copyinfo) (empty_dir : bool) :
    M C (list copyinfo * list copyinfo * bool) :=
  match names with
  | [] => ret (dirlist, file_list, empty_dir)
  | d_name :: rest =>
      if IsDotOrDotDot d_name then local_entries lpath rpath rest dirlist file_list empty_dir
      else
        let stat_path := lpath ++ d_name in
        let* st := sys_call_errno (c_lstat stat_path) in
        match st with
        | None =>
            ErrorErrno (str "cannot lstat " ++ quoted stat_path) ;;;
            local_entries lpath rpath rest dirlist file_list false
        | Some st =>
            let ci := new_copyinfo lpath rpath d_name (st_mode st) in
            if S_ISDIR (st_mode st) then local_entries lpath rpath rest (dirlist ++ [ci]) file_list false
            else
              let special := negb (should_push_file (st_mode st)) in
              when special (Warning (special_file lpath (st_mode st))) ;;;
              let ci := set_ci_time_size (st_mtime st) (u64 (st_size st)) (if special then set_ci_skip ci else ci) in
              local_entries lpath rpath rest dirlist (file_list ++ [ci]) false
        end
  end.

(** [depth] bounds the depth of the directories. *)
Fixpoint local_build_list (depth : nat) (file_list : list copyinfo) (lpath rpath : bytes) : M C (bool * list copyinfo) :=
  match depth with
  | O => no_fuel
  | S d =>
      let* dir := sys_call_errno (c_readdir lpath) in
      match dir with
      | None => ErrorErrno (str "cannot open " ++ quoted lpath) ;;; ret (false, file_list)
      | Some names =>
          let* (dirlist, file_list, empty_dir) := local_entries lpath rpath names [] file_list true in
          if empty_dir : bool then
            Warning (str "skipping empty directory " ++ quoted lpath) ;;;
            ret (true, file_list ++ [set_ci_skip (new_copyinfo (Dirname lpath) (Dirname rpath) (Basename lpath) S_IFDIR)])
          else
            (fix each (dirs : list copyinfo) (file_list : list copyinfo) : M C (bool * list copyinfo) :=
               match dirs with
               | [] => ret (true, file_list)
               | ci :: rest =>
                   let* (_, file_list) := local_build_list d file_list (ci_lpath ci) (ci_rpath ci) in
                   each rest file_list
               end) dirlist file_list
      end
  end.

Fixpoint send_lstats (file_list : list copyinfo) : M C bool :=
  match file_list with
  | [] => ret true
  | ci :: rest =>
      let* ok := SendLstat (ci_rpath ci) in
      if negb ok then Error (str "failed to send lstat") ;;; ret false else send_lstats rest
  end.

(** The answers come in the order of the requests. *)
Fixpoint finish_stats (file_list : list copyinfo) : M C (list copyinfo) :=
  match file_list with
  | [] => ret []
  | ci :: rest =>
      let* r := FinishStat in
      let ci := match r with
                | Some st =>
                    if (st_size st =? i64 (ci_size ci))%Z && up_to_date (ci_mode ci) (ci_time ci) st
                    then set_ci_skip ci else ci
                | None => ci
                end in
      let* rest := finish_stats rest in ret (ci :: rest)
  end.

(** How many were skipped, or [None] when one could not be sent. *)
Fixpoint push_files (fuel : nat) (list_only : bool) (file_list : list copyinfo) (skipped : Z) : M C (option Z) :=
  match file_list with
  | [] => ret (Some skipped)
  | ci :: rest =>
      if ci_skip ci then push_files fuel list_only rest (i32 (skipped + 1))
      else if list_only then
        Println (str "would push: " ++ ci_lpath ci ++ str " -> " ++ ci_rpath ci) ;;;
        push_files fuel list_only rest skipped
      else
        let* ok := sync_send fuel (ci_lpath ci) (ci_rpath ci) (ci_time ci) (ci_mode ci) false in
        if negb ok then ret None else push_files fuel list_only rest skipped
  end.

Definition copy_local_dir_remote (fuel depth : nat) (lpath rpath : bytes) (check_timestamps list_only : bool) : M C bool :=
  NewTransfer ;;;
  let '(lpath, rpath) := ensure_trailing_separators lpath rpath in
  let* (ok, file_list) := local_build_list depth [] lpath rpath in
  if negb ok then ret false else
  let* checked :=
    if check_timestamps then
      let* ok := send_lstats file_list in
      if negb ok then ret None else let* l := finish_stats file_list in ret (Some l)
    else ret (Some file_list) in
  match checked with
  | None => ret false
  | Some file_list =>
      ComputeExpectedTotalBytes file_list ;;;
      let* r := push_files fuel list_only file_list 0 in
      match r with
      | None => ret false
      | Some skipped =>
          RecordFilesSkipped skipped ;;;
          ReportTransferRate lpath push ;;;
          ret true
      end
  end.

(** A name below a directory on the device. *)
Definition below (dir name : bytes) : bytes :=
  (if Ascii.eqb (back dir) slash then dir else dir ++ [slash]) ++ name.

(** The loop over the sources; [None]: the command returns [false] at once. *)
Fixpoint push_sources (fuel depth : nat) (srcs : list bytes) (dst : bytes) (dst_exists dst_isdir sync success : bool) :
    M C (option bool) :=
  match srcs with
  | [] => ret (Some success)
  | src_path :: rest =>
      let* st := sys_call_errno (c_stat src_path) in
      match st with
      | None =>
          ErrorErrno (str "cannot stat " ++ quoted src_path) ;;;
          push_sources fuel depth rest dst dst_exists dst_isdir sync false
      | Some st =>
          if S_ISDIR (st_mode st) then
            if dst_exists && negb dst_isdir then
              Error (str "target " ++ quoted dst ++ str " is not a directory") ;;; ret None
            else
              let dst_dir := if dst_exists then below dst (Basename src_path) else dst in
              let* ok := copy_local_dir_remote fuel depth src_path dst_dir sync false in
              push_sources fuel depth rest dst dst_exists dst_isdir sync (success && ok)
          else if negb (should_push_file (st_mode st)) then
            Warning (special_file src_path (st_mode st)) ;;;
            push_sources fuel depth rest dst dst_exists dst_isdir sync success
          else
            let dst_path := if dst_isdir then below dst (Basename src_path) else dst in
            NewTransfer ;;;
            SetExpectedTotalBytes (st_size st) ;;;
            let* ok := sync_send fuel src_path dst_path (st_mtime st) (st_mode st) sync in
            ReportTransferRate src_path push ;;;
            push_sources fuel depth rest dst dst_exists dst_isdir sync (success && ok)
      end
  end.

(** When the target is not a directory: one source only, and a path that ends
    in a slash must not exist yet.  [dst[dst_len - 1]] is read in any case. *)
Definition target_ok (srcs : list bytes) (dst : bytes) (dst_exists : bool) : M C bool :=
  if (1 <? length srcs)%nat then Error (str "target " ++ quoted dst ++ str " is not a directory") ;;; ret false
  else
    match last dst with
    | None => crash "read before the string"
    | Some c =>
        if Ascii.eqb c slash && dst_exists then
          Error (str "failed to access " ++ quoted dst ++ str ": Not a directory") ;;; ret false
        else ret true
    end.

Definition push_body (fuel depth : nat) (srcs : list bytes) (dst : bytes) (sync : bool) : M C bool :=
  let* st := sync_stat_fallback dst in
  let* errno := gets sc_errno in
  let missing := bool_decide (errno = ENOENT) || bool_decide (errno = ENOPROTOOPT) in
  match st, missing with
  | None, false =>
      ErrorErrno (str "stat failed when trying to push to " ++ dst) ;;; ret false
  | _, _ =>
      let dst_exists := bool_decide (is_Some st) in
      let dst_isdir := match st with Some st => S_ISDIR (st_mode st) | None => false end in
      let* ok := if dst_isdir then ret true else target_ok srcs dst dst_exists in
      if negb ok then ret false else
      let* r := push_sources fuel depth srcs dst dst_exists dst_isdir sync true in
      match r with
      | None => ret false
      | Some success => ReportOverallTransferRate push ;;; ret success
      end
  end.

(** ** Pulling a directory *)

(** What the listing of a directory is sorted into. *)
Record sorted_entries := { se_dirs : list copyinfo; se_links : list copyinfo; se_files : list copyinfo }.

Definition sort_entry (lpath rpath : bytes) (mode size time : Z) (name : bytes) (l : sorted_entries) : M C sorted_entries :=
  if IsDotOrDotDot name then ret l else
  let ci := new_copyinfo lpath rpath name mode in
  if S_ISDIR mode then ret {| se_dirs := se_dirs l ++ [ci]; se_links := se_links l; se_files := se_files l |}
  else if S_ISLNK mode then ret {| se_dirs := se_dirs l; se_links := se_links l ++ [ci]; se_files := se_files l |}
  else
    let special := negb (should_pull_file mode) in
    when special (Warning (special_file (ci_rpath ci) mode)) ;;;
    let ci := set_ci_time_size time size (if special then set_ci_skip ci else ci) in
    ret {| se_dirs := se_dirs l; se_links := se_links l; se_files := se_files l ++ [ci] |}.

(** A link is followed: what it leads to is a directory or a file. *)
Fixpoint follow_links (links dirlist file_list : list copyinfo) : M C (list copyinfo * list copyinfo) :=
  match links with
  | [] => ret (dirlist, file_list)
  | ci :: rest =>
      let* st := sync_stat_fallback (ci_rpath ci) in
      match st with
      | None =>
          WarningErrno (str "stat failed for path " ++ ci_rpath ci) ;;;
          follow_links rest dirlist file_list
      | Some st =>
          if S_ISDIR (st_mode st) then follow_links rest (dirlist ++ [ci]) file_list
          else follow_links rest dirlist (file_list ++ [ci])
      end
  end.

(** The directory itself comes first; its directories are taken from the back. *)
Fixpoint remote_build_list (fuel depth : nat) (file_list : list copyinfo) (rpath lpath : bytes) : M C (bool * list copyinfo) :=
  match depth with
  | O => no_fuel
  | S d =>
      let file_list := file_list ++ [new_copyinfo (Dirname lpath) (Dirname rpath) (Basename lpath) S_IFDIR] in
      let* (ok, l) := sync_ls fuel rpath (sort_entry lpath rpath)
                        {| se_dirs := []; se_links := []; se_files := file_list |} in
      if negb ok then ret (false, se_files l) else
      let* (dirlist, file_list) := follow_links (se_links l) (se_dirs l) (se_files l) in
      (fix each (dirs : list copyinfo) (file_list : list copyinfo) : M C (bool * list copyinfo) :=
         match dirs with
         | [] => ret (true, file_list)
         | current :: rest =>
             let* (ok, file_list) := remote_build_list fuel d file_list (ci_rpath current) (ci_lpath current) in
             if negb ok then ret (false, file_list) else each rest file_list
         end) (reverse dirlist) file_list
  end.

(** Both calls are made; either may fail. *)
Definition set_time_and_mode (lpath : bytes) (time mode : Z) : M C bool :=
  let* r1 := sys_call_errno (c_utime lpath time time) in
  let* mask := on_sys (call c_umask) in
  let* r2 := sys_call_errno (c_chmod lpath (Z.land mode (Z.lnot mask))) in
  ret (bool_decide (is_Some r1) && bool_decide (is_Some r2)).

Definition directory_exists (path : bytes) : M C bool :=
  let* st := sys_call_errno (c_stat path) in
  ret (match st with Some st => S_ISDIR (st_mode st) | None => false end).

(** [mkdirs] of adb_utils.cpp, with the [errno] it leaves. *)
Fixpoint mkdirs_errno (fuel : nat) (path : bytes) : M C bool :=
  let* there := directory_exists path in
  if there : bool then ret true else
  let parent := Dirname path in
  if bool_decide (parent = path) then set_errno ENOENT ;;; ret false else
  match fuel with
  | O => no_fuel
  | S f =>
      let* ok := mkdirs_errno f parent in
      if negb ok then ret false else
      let* r := sys_call_errno (c_mkdir path 0x1fd) in
      match r with
      | Some _ => ret true
      | None =>
          let* saved_errno := gets sc_errno in
          let* there := directory_exists path in
          if there : bool then ret true else set_errno saved_errno ;;; ret false
      end
  end.

Fixpoint pull_files (fuel : nat) (copy_attrs : bool) (file_list : list copyinfo) (skipped : Z) : M C (option Z) :=
  match file_list with
  | [] => ret (Some skipped)
  | ci :: rest =>
      if ci_skip ci then pull_files fuel copy_attrs rest (i32 (skipped + 1))
      else if S_ISDIR (ci_mode ci) then
        let* ok := mkdirs_errno (S (length (ci_lpath ci))) (ci_lpath ci) in
        if negb ok then ErrorErrno (str "failed to create directory " ++ quoted (ci_lpath ci)) ;;; ret None
        else pull_files fuel copy_attrs rest skipped
      else
        let* ok := sync_recv fuel (ci_rpath ci) (ci_lpath ci) None (ci_size ci) in
        if negb ok then ret None else
        let* ok := if copy_attrs then set_time_and_mode (ci_lpath ci) (ci_time ci) (ci_mode ci) else ret true in
        if negb ok then ret None else pull_files fuel copy_attrs rest skipped
  end.

Definition copy_remote_dir_local (fuel depth : nat) (rpath lpath : bytes) (copy_attrs : bool) : M C bool :=
  NewTransfer ;;;
  let '(lpath, rpath) := ensure_trailing_separators lpath rpath in
  Printf (str "pull: building file list...") ;;;
  let* (ok, file_list) := remote_build_list fuel depth [] rpath lpath in
  if negb ok then ret false else
  ComputeExpectedTotalBytes file_list ;;;
  let* r := pull_files fuel copy_attrs file_list 0 in
  match r with
  | None => ret false
  | Some skipped =>
      RecordFilesSkipped skipped ;;;
      ReportTransferRate rpath pull ;;;
      ret true
  end.

Fixpoint pull_sources (fuel depth : nat) (srcs : list bytes) (dst : bytes) (dst_exists dst_isdir copy_attrs : bool)
    (name : option bytes) (success : bool) : M C (option bool) :=
  match srcs with
  | [] => ret (Some success)
  | src_path :: rest =>
      let next := pull_sources fuel depth rest dst dst_exists dst_isdir copy_attrs name in
      let* src_st := sync_stat_fallback src_path in
      match src_st with
      | None =>
          let* errno := gets sc_errno in
          (if bool_decide (errno = ENOPROTOOPT) then Error (str "remote object " ++ quoted src_path ++ str " does not exist")
           else ErrorErrno (str "failed to stat remote object " ++ quoted src_path)) ;;;
          next false
      | Some src_st =>
          if S_ISDIR (st_mode src_st) then
            if dst_exists && negb dst_isdir then
              Error (str "target " ++ quoted dst ++ str " is not a directory") ;;; ret None
            else
              let dst_dir := if dst_exists then below dst (Basename src_path) else dst in
              let* ok := copy_remote_dir_local fuel depth src_path dst_dir copy_attrs in
              next (success && ok)
          else if negb (should_pull_file (st_mode src_st)) then
            Warning (special_file src_path (st_mode src_st)) ;;; next success
          else
            let dst_path := if dst_isdir then dst ++ [slash] ++ Basename src_path else dst in
            NewTransfer ;;;
            SetExpectedTotalBytes (st_size src_st) ;;;
            let* ok := sync_recv fuel src_path dst_path name (u64 (st_size src_st)) in
            if negb ok then next false else
            let* ok := if copy_attrs then set_time_and_mode dst_path (st_mtime src_st) (st_mode src_st) else ret true in
            if negb ok then next false else
            ReportTransferRate src_path pull ;;;
            next success
      end
  end.

(** The target of [pull]: it is there, or one source goes to a new name in a
    directory that is. *)
Definition pull_target (srcs : list bytes) (dst : bytes) : M C (option (option stat_t)) :=
  let* st := sys_call_errno (c_stat dst) in
  match st with
  | Some st => ret (Some (Some st))
  | None =>
      let* errno := gets sc_errno in
      if (length srcs =? 1)%nat && bool_decide (errno = ENOENT) then
        let* parent_st := sys_call_errno (c_stat (Dirname dst)) in
        match parent_st with
        | Some _ => ret (Some None)
        | None => ErrorErrno (str "cannot create file/directory " ++ quoted dst) ;;; ret None
        end
      else ErrorErrno (str "failed to access " ++ quoted dst) ;;; ret None
  end.

Definition pull_body (fuel depth : nat) (srcs : list bytes) (dst : bytes) (copy_attrs : bool) (name : option bytes) : M C bool :=
  let* r := pull_target srcs dst in
  match r with
  | None => ret false
  | Some st =>
      let dst_exists := bool_decide (is_Some st) in
      let dst_isdir := match st with Some st => S_ISDIR (st_mode st) | None => false end in
      let* ok := if dst_isdir then ret true else target_ok srcs dst dst_exists in
      if negb ok then ret false else
      let* r := pull_sources fuel depth srcs dst dst_exists dst_isdir copy_attrs name true in
      match r with
      | None => ret false
      | Some success => ReportOverallTransferRate pull ;;; ret success
      end
  end.

(** ** The commands *)

(** The destructor. *)
Definition close_connection : M C unit :=
  let* valid := IsValid in
  if negb valid then ret tt else
  let* fd := gets sc_fd in
  let* ok := SendRequest ID_QUIT [] in
  when ok (let* _ := on_sys (ReadOrderlyShutdown fd) in ret tt) ;;;
  on_sys (call (c_close fd)) ;;;
  print_line KeepInfoLine.

(** A command on a connection of its own: the result, and what was printed. *)
Definition with_connection (o : client_options) (body : M C bool) (e : E) : outcome E (bool * list printed) :=
  match open_connection o e with
  | Done c _ =>
      match (let* valid := IsValid in
             let* ok := if valid then body else ret false in
             close_connection ;;; ret ok) c with
      | Done ok c => Done (ok, sc_printed c) (sc_env c)
      | Exit code c => Exit code (sc_env c)
      | Fatal s => Fatal s
      | Crash s => Crash s
      | NoFuel => NoFuel
      end
  | Exit code e => Exit code e
  | Fatal s => Fatal s
  | Crash s => Crash s
  | NoFuel => NoFuel
  end.

(** ["%08x %08x %08x %s\n"] *)
Definition ls_line (mode size time : Z) (name : bytes) : bytes :=
  hex_pad 8 mode ++ str " " ++ hex_pad 8 size ++ str " " ++ hex_pad 8 time ++ str " " ++ name ++ newline.

Definition do_sync_ls (fuel : nat) (o : client_options) (path : bytes) : E -> outcome E (bool * list printed) :=
  with_connection o
    (let* (ok, _) := sync_ls fuel path (fun mode size time name _ => print_line (STDOUT (ls_line mode size time name))) tt in
     ret ok).

Definition do_sync_push (fuel depth : nat) (o : client_options) (srcs : list bytes) (dst : bytes) (sync : bool) :
    E -> outcome E (bool * list printed) := with_connection o (push_body fuel depth srcs dst sync).

Definition do_sync_pull (fuel depth : nat) (o : client_options) (srcs : list bytes) (dst : bytes) (copy_attrs : bool)
    (name : option bytes) : E -> outcome E (bool * list printed) :=
  with_connection o (pull_body fuel depth srcs dst copy_attrs name).

Definition do_sync_sync (fuel depth : nat) (o : client_options) (lpath rpath : bytes) (list_only : bool) :
    E -> outcome E (bool * list printed) :=
  with_connection o
    (let* success := copy_local_dir_remote fuel depth lpath rpath true list_only in
     when (negb list_only) (ReportOverallTransferRate push) ;;;
     ret success).

End Commands.
