(* ===== verification/SyncDemo.v ===== *)
(** * A small system on which file synchronisation is exercised

    One connection, the descriptor 7, and files in memory.  Reads give at most
    500 bytes, writes to files take at most three. *)

From S2P Require Import Prelude LibBase Packet AdbIo FdEvent Transport World SmartText SocketSpec Requests.
From S2P Require Import FileSync SyncEnv AdbClient SyncClient.

Record box := {
  bx_rx : bytes;
  bx_tx : bytes;
  bx_files : gmap bytes bytes;
  bx_fds : gmap Z (bytes * bytes);   (* the path, and what is left to read *)
}.

Definition box_conn : Z := 7.

Definition file_of (p : bytes) (b : box) : bytes := default [] (bx_files b !! p).
Definition with_files (files : gmap bytes bytes) (fds : gmap Z (bytes * bytes)) (b : box) : box :=
  {| bx_rx := bx_rx b; bx_tx := bx_tx b; bx_files := files; bx_fds := fds |}.

#[export] Instance box_fd_ops : FdOps box := {
  adb_read fd n b :=
    let k := Z.to_nat (Z.min n 500) in
    if bool_decide (fd = box_conn) then
      (RdOk (take k (bx_rx b)), {| bx_rx := drop k (bx_rx b); bx_tx := bx_tx b; bx_files := bx_files b; bx_fds := bx_fds b |})
    else match bx_fds b !! fd with
         | Some (p, rest) => (RdOk (take k rest), with_files (bx_files b) (<[fd := (p, drop k rest)]> (bx_fds b)) b)
         | None => (RdErr EINVAL, b)
         end;
  adb_write fd buf b :=
    if bool_decide (fd = box_conn) then
      (WrOk (Zlen buf), {| bx_rx := bx_rx b; bx_tx := bx_tx b ++ buf; bx_files := bx_files b; bx_fds := bx_fds b |})
    else match bx_fds b !! fd with
         | Some (p, _) =>
             (WrOk (Zlen (take 3 buf)), with_files (<[p := file_of p b ++ take 3 buf]> (bx_files b)) (bx_fds b) b)
         | None => (WrErr EINVAL, b)
         end;
  adb_shutdown _ b := b;
  strerror _ := str "error";
}.

#[export] Instance box_kernel : Kernel box := {
  refusals _ _ := 0;
  pipe_put _ _ b := (true, b);
  pipe_get _ b := (None, b);
}.

#[export] Instance box_kernel_laws : KernelLaws box.
Proof.
  split.
  - intros fd buf b b' n Hw. cbn in Hw. case_bool_decide; [by simplify_eq; lia|].
    destruct (bx_fds b !! fd) as [[p l]|]; simplify_eq. rewrite length_take. lia.
  - intros fd buf b b' r Hw. split; [done|]. intros Hb Hr. cbn in Hw. exfalso. case_bool_decide.
    + simplify_eq. destruct Hr as [[= Hr]|]; [|done]. destruct buf; [done|]. cbn in Hr. lia.
    + destruct (bx_fds b !! fd) as [[p l]|]; simplify_eq; destruct Hr as [[= Hr]|]; try done.
      destruct buf; [done|]. cbn in Hr. lia.
  - intros fd n b b' bs Hn Hr. cbn in Hr. case_bool_decide; [|destruct (bx_fds b !! fd) as [[p l]|]];
      simplify_eq; rewrite length_take; lia.
Qed.

Definition box_open (p : bytes) (fresh : bool) (b : box) : (errno_t + Z) * box :=
  let fd := (8 + Z.of_nat (size (bx_fds b)))%Z in
  if fresh then (inr fd, with_files (<[p := []]> (bx_files b)) (<[fd := (p, [])]> (bx_fds b)) b)
  else (inr fd, with_files (bx_files b) (<[fd := (p, file_of p b)]> (bx_fds b)) b).

Definition file_stat (data : bytes) : stat_t :=
  {| st_dev := 1; st_ino := 2; st_mode := 0x81a4; st_nlink := 1; st_uid := 0; st_gid := 0;
     st_size := Zlen data; st_atime := 10; st_mtime := 20; st_ctime := 30 |}.

Definition box_stat (p : bytes) (b : box) : errno_t + stat_t :=
  match bx_files b !! p with Some data => inr (file_stat data) | None => inl ENOENT end.

(** The names of the files right below a directory. *)
Definition box_names (p : bytes) (b : box) : list bytes :=
  omap (fun f => let d := p ++ [slash] in
                 if is_prefix d f && negb (bool_decide (slash ∈ drop (length d) f)) then Some (drop (length d) f) else None)
    (map fst (map_to_list (bx_files b))).

Definition box_sys {A} (c : sys_call A) (b : box) : A * box :=
  match c in sys_call A return A * box with
  | c_stat p => (box_stat p b, b)
  | c_lstat p => (box_stat p b, b)
  | c_readdir p => (inr (box_names p b), b)
  | c_readlink _ => (inl EINVAL, b)
  | c_ReadFileToString p => (match bx_files b !! p with Some data => inr data | None => inl ENOENT end, b)
  | c_open p flags _ =>
      match bx_files b !! p with
      | Some _ => if Z.testbit flags 7 then (inl EEXIST, b) else box_open p (for_writing flags) b
      | None => if Z.testbit flags 6 then box_open p true b else (inl ENOENT, b)
      end
  | c_creat p _ => box_open p true b
  | c_close fd => (tt, with_files (bx_files b) (delete fd (bx_fds b)) b)
  | c_unlink p => (tt, with_files (delete p (bx_files b)) (bx_fds b) b)
  | c_mkdir _ _ | c_symlink _ _ | c_chown _ _ _ | c_fchown _ _ _ | c_chmod _ _ | c_setxattr _ _ _ | c_utime _ _ _ => (inr tt, b)
  | c_fchmod _ _ | c_restorecon _ | c_removexattr _ => (tt, b)
  | c_umask => (0x12%Z, b)
  | c_poll _ => (inr false, b)
  end.

#[export] Instance box_sys_calls : SysCalls box := {
  sys _ c b := box_sys c b;
  fs_config _ _ mode := (0, 0, mode, 0)%Z;
  back_of_empty := NUL;
}.

#[export] Instance box_view : Files box := {
  fd_path fd b := fst <$> bx_fds b !! fd;
  unread fd b := match bx_fds b !! fd with Some (_, rest) => rest | None => [] end;
  stored p b := file_of p b;
  content p b := file_of p b;
}.

#[export] Instance box_dirs : Directories box := {
  names_of p b := inr (box_names p b);
  stat_of := box_stat;
  lstat_of := box_stat;
}.

Lemma box_open_ok p fresh b fd b' : box_open p fresh b = (inr fd, b') ->
  (0 <= fd)%Z /\ fd <> box_conn /\ fst <$> bx_fds b' !! fd = Some p /\
  (if fresh then file_of p b' = [] /\ unread fd b' = [] else unread fd b' = file_of p b).
Proof.
  unfold box_open, box_conn. intros Ho. destruct fresh; injection Ho as <- <-; cbn; rewrite lookup_insert_eq;
    (split; [lia|]; split; [lia|]; split; [done|]); [|done]. unfold file_of. cbn. by rewrite !lookup_insert_eq.
Qed.

#[export] Instance box_stream : FdStream box box_conn bx_rx bx_tx (refusals box_conn).
Proof.
  split.
  - intros n b Hn. cbn. rewrite bool_decide_true by done. eexists _, _. split; [done|]. cbn. rewrite take_drop. split_and!; try done.
    + rewrite length_take. lia.
    + intros H0. apply (f_equal length) in H0. rewrite length_take in H0. cbn in H0. destruct (bx_rx b); [done|]. cbn in H0. lia.
  - intros buf b Hb. left. exists (Zlen buf). cbn. rewrite bool_decide_true by done. eexists. split; [done|]. split.
    + destruct buf; [done|]. cbn. lia.
    + rewrite Nat2Z.id, take_ge by done. done.
Qed.

#[export] Instance box_env : SyncEnv box box_conn bx_rx bx_tx.
Proof.
  split.
  - exact box_stream.
  - intros n b r b' Hr. cbn in Hr. injection Hr as _ <-. done.
  - intros buf b r b' Hw. cbn in Hw. injection Hw as _ <-. done.
  - intros A c b a b' Hc. cbn in Hc. destruct c; cbn in Hc; unfold box_open in Hc; repeat case_match; by simplify_eq.
  - intros A c b a b' Ht Hc. cbn in Hc. destruct c; try done; cbn in Hc; by simplify_eq.
  - intros p b r b' Hc. cbn in Hc. by simplify_eq.
  - intros p b r b' Hc. cbn in Hc. by simplify_eq.
  - intros p b r b' Hc. cbn in Hc. by simplify_eq.
  - intros p flags mode b fd b' Hc. cbn [sys box_sys_calls box_sys] in Hc. destruct (bx_files b !! p) eqn:Hp.
    + destruct (Z.testbit flags 7); [done|]. apply box_open_ok in Hc as (H1 & H2 & H3 & H4). split_and!; [done..|]. destruct (for_writing flags); [by destruct H4|done].
    + destruct (Z.testbit flags 6); [|done]. apply box_open_ok in Hc as (H1 & H2 & H3 & H4 & H5).
      split_and!; [done..|]. destruct (for_writing flags); [done|]. rewrite H5. unfold content, box_view, file_of. by rewrite Hp.
  - intros p mode b fd b' Hc. cbn [sys box_sys_calls box_sys] in Hc. apply box_open_ok in Hc as (?&?&?&?&?). done.
  - intros p b data b' Hc. cbn in *. unfold file_of. by destruct (bx_files b !! p); simplify_eq.
  - intros fd b [] b' Hc p. cbn in Hc. by simplify_eq.
  - intros fd p buf b r b' Hfd Hp Hw. cbn in *. rewrite bool_decide_false in Hw by done.
    destruct (bx_fds b !! fd) as [[q l]|] eqn:Hl; [|done]. cbn in Hp. injection Hp as ->. injection Hw as <- <-. cbn.
    rewrite Hl. split_and!; [done..|]. unfold file_of at 1. cbn. rewrite lookup_insert_eq. cbn. f_equal.
    rewrite Nat2Z.id. destruct buf as [|? [|? [|? ?]]]; done.
  - intros fd p n b r b' Hfd Hp Hn Hr. cbn in *. rewrite bool_decide_false in Hr by done.
    destruct (bx_fds b !! fd) as [[q l]|] eqn:Hl; [|done]. cbn in Hp. injection Hp as ->. injection Hr as <- <-. cbn.
    rewrite lookup_insert_eq. split_and!; [done..| |].
    + by rewrite take_drop.
    + intros H0. apply (f_equal length) in H0. rewrite length_take in H0. destruct l; [done|]. cbn in H0. lia.
Qed.

(** ** A client and a daemon *)

#[export] Instance linux_errno : HostErrno := {
  errno_code x :=
    match x with
    | E_NONE => 0 | EAGAIN => 11 | EPIPE => 32 | EINTR => 4 | ENOENT => 2 | EEXIST => 17 | EINVAL => 22
    | EMSGSIZE => 90 | ECONNABORTED => 103 | ERANGE => 34 | EACCES => 13 | EFAULT => 14 | EFBIG => 27 | EIO => 5
    | EISDIR => 21 | ELOOP => 40 | EMFILE => 24 | ENAMETOOLONG => 36 | ENFILE => 23 | ENOMEM => 12 | ENOSPC => 28
    | ENOTDIR => 20 | EOVERFLOW => 75 | EPERM => 1 | EROFS => 30 | ETXTBSY => 26 | ENOTSUP => 95 | ENOPROTOOPT => 92
    | ECONNRESET => 104 | E_OTHER code => code
    end%Z;
  errno_of z :=
    match List.find (fun x => (snd x =? z)%Z) ERRNO_VALUES with Some (x, _) => x | None => E_OTHER z end;
}.

#[export] Instance box_clock : Clock box := { rate_text _ _ := [] }.

Definition box_with (rx : bytes) (files : list (bytes * bytes)) : box :=
  {| bx_rx := rx; bx_tx := []; bx_files := list_to_map files; bx_fds := ∅ |}.

Definition client_on (b : box) (v2 : bool) : SyncConnection box :=
  {| sc_env := b; sc_fd := box_conn; sc_max := SYNC_DATA_MAX; sc_expect_done := false; sc_have_stat_v2 := v2;
     sc_global_ledger := empty_ledger; sc_current_ledger := empty_ledger; sc_printed := []; sc_errno := E_NONE |}.

Definition empty_buffer : bytes := replicate (Z.to_nat SYNC_DATA_MAX) NUL.

Definition local_file : bytes := str "/home/a.txt".
Definition remote_file : bytes := str "/data/a.txt".
Definition some_text : bytes := str "all the bytes of a file".
