(* ===== verification/SyncSend.v ===== *)
(** * Files sent to the device *)

From S2P Require Import Prelude LibBase Packet AdbIo Transport World FileSync SyncService SyncEnv.
From S2P Require Import AdbClient SyncClient SyncDemo.

Section Send.
Context {E : Type} {K : Kernel E} {KL : KernelLaws E} {SC : SysCalls E} {LB : LibBase} {HE : HostErrno} {F : Files E} {D : Directories E}.
Context (s : Z) (rx tx : E -> bytes) {SE : SyncEnv E s rx tx}.
Implicit Types (e : E) (N : Prop).

(** Reading a header of 8 bytes. *)
Lemma owp_read_request N id n post e (Q : rx_result -> E -> Prop) : rx e = encode_request id n ++ post ->
  (forall e', rx e' = post -> tx e' = tx e -> same_files e e' -> Q (RX_ok (encode_request id n)) e') ->
  owp N (ReadFdExactly s 8) Q e.
Proof. intros Hrx. by apply (owp_read_conn s rx tx N (encode_request id n)). Qed.

Lemma owp_read_buffer N bs post buffer e (Q : option bytes -> E -> Prop) : rx e = bs ++ post ->
  (Zlen bs <= Zlen buffer)%Z ->
  (forall e', rx e' = post -> tx e' = tx e -> same_files e e' -> Q (Some (bs ++ drop (length bs) buffer)) e') ->
  owp N (read_buffer s (Zlen bs) buffer) Q e.
Proof.
  intros Hrx Hb HQ. unfold read_buffer. apply owp_bind, owp_check; [by apply Z.leb_le|].
  apply owp_bind. eapply owp_read_conn; [apply SE|exact Hrx|]. intros e' H1 H2 H3. by apply owp_ret, HQ.
Qed.

Lemma length_refill (bs buffer : bytes) : (Zlen bs <= Zlen buffer)%Z -> length (bs ++ drop (length bs) buffer) = length buffer.
Proof. rewrite length_app, length_drop. lia. Qed.

Lemma owp_SendSyncFail N reason e (Q : bool -> E -> Prop) :
  (forall e', rx e' = rx e -> tx e' = tx e ++ fail_message reason -> same_files e e' -> Q true e') ->
  owp N (SendSyncFail s reason) Q e.
Proof.
  intros HQ. unfold SendSyncFail. apply owp_bind. apply (owp_write_conn s rx tx). intros e1 H1 H2 H3. cbn [wx_bool negb].
  apply owp_bind. apply (owp_write_conn s rx tx). intros e2 H4 H5 H6. apply owp_ret, HQ; [congruence| |by etrans].
  unfold fail_message. by rewrite H5, H2, <- app_assoc.
Qed.

Lemma owp_SendSyncFailErrno N x reason e (Q : bool -> E -> Prop) :
  (forall reason' e', rx e' = rx e -> tx e' = tx e ++ fail_message reason' -> same_files e e' -> Q true e') ->
  owp N (SendSyncFailErrno x s reason) Q e.
Proof. intros HQ. apply owp_SendSyncFail. intros e'. apply HQ. Qed.

Lemma owp_send_abort N fd path b e (Q : unit -> E -> Prop) :
  (forall e', rx e' = rx e -> tx e' = tx e -> Q tt e') -> owp N (send_abort fd path b) Q e.
Proof.
  intros HQ. unfold send_abort. apply owp_bind.
  assert (Hu : forall e1, rx e1 = rx e -> tx e1 = tx e -> owp N (when b (call (c_unlink path))) Q e1).
  { intros e1 H1 H2. apply owp_when; [|by intros; apply HQ]. intros _. apply (owp_call s rx tx). intros [] e2 ???.
    apply HQ; congruence. }
  apply owp_when; [|by intros; apply Hu]. intros _. apply (owp_call s rx tx). intros. by apply Hu.
Qed.

Lemma frame_cons bs chunks : frames (bs :: chunks) = encode_request ID_DATA (Zlen bs) ++ bs ++ frames chunks.
Proof. unfold frames, frame. cbn [map concat]. by rewrite <- app_assoc. Qed.

Lemma chunk_u32 bs : chunk_ok bs -> (0 <= Zlen bs < 2 ^ 32)%Z.
Proof. unfold chunk_ok, SYNC_DATA_MAX. lia. Qed.

(** ** Throwing away what still comes *)

Lemma owp_send_fail_loop N chunks t post fuel buffer e (Q : bytes -> E -> Prop) :
  rx e = frames chunks ++ encode_request ID_DONE t ++ post -> Forall chunk_ok chunks ->
  Zlen buffer = SYNC_DATA_MAX -> length chunks < fuel ->
  (forall buffer' e', rx e' = post -> tx e' = tx e -> Zlen buffer' = SYNC_DATA_MAX -> Q buffer' e') ->
  owp N (send_fail_loop fuel s buffer) Q e.
Proof.
  revert fuel buffer e. induction chunks as [|bs chunks IH]; intros fuel buffer e Hrx Hok Hb Hf HQ;
    (destruct fuel as [|f]; [cbn in Hf; lia|]); cbn [send_fail_loop]; apply owp_bind.
  - cbn in Hrx. eapply owp_read_request; [exact Hrx|]. intros e1 H1 H2 _. rewrite request_id_encode by done. by apply owp_ret, HQ.
  - inversion Hok as [|? ? Hbs Hrest]; subst. rewrite frame_cons, <- !app_assoc in Hrx.
    eapply owp_read_request; [exact Hrx|]. intros e1 H1 H2 _.
    header. rewrite (proj2 (Z.ltb_ge _ _)) by (unfold chunk_ok in Hbs; lia). apply owp_bind.
    eapply owp_read_buffer; [exact H1|unfold chunk_ok in Hbs; lia|]. intros e2 H3 H4 _.
    eapply IH; [done|done| |cbn [length] in Hf; lia|].
    + rewrite length_refill; [done|unfold chunk_ok in Hbs; lia].
    + intros b' e' ?? Hb'. apply HQ; congruence.
Qed.

(** A connection that ends between two messages. *)
Lemma send_fail_loop_spins chunks fuel buffer e :
  rx e = frames chunks -> Forall chunk_ok chunks -> Zlen buffer = SYNC_DATA_MAX ->
  owp True (send_fail_loop fuel s buffer) (fun _ _ => False) e.
Proof.
  revert chunks buffer e. induction fuel as [|f IH]; intros chunks buffer e Hrx Hok Hb; [done|]. cbn [send_fail_loop]. apply owp_bind.
  destruct chunks as [|bs chunks].
  - apply (owp_read_eof s rx tx); [by rewrite Hrx|]. intros e1 H1 H2 _. by apply (IH []).
  - inversion Hok as [|? ? Hbs Hrest]; subst. rewrite frame_cons in Hrx.
    eapply owp_read_request; [exact Hrx|]. intros e1 H1 H2 _. header.
    rewrite (proj2 (Z.ltb_ge _ _)) by (unfold chunk_ok in Hbs; lia). apply owp_bind.
    eapply owp_read_buffer; [exact H1|unfold chunk_ok in Hbs; lia|]. intros e2 H3 H4 _.
    apply (IH chunks); [done|done|]. rewrite length_refill; [done|unfold chunk_ok in Hbs; lia].
Qed.

(** ** The data *)

(** The loop over the data: it takes all the pieces, and goes on; or a write
    fails, and the reason is on its way. *)
Lemma owp_send_data_loop N chunks tail k fd p buffer e (Q : send_outcome * bytes -> E -> Prop) :
  rx e = frames chunks ++ tail -> Forall chunk_ok chunks -> Zlen buffer = SYNC_DATA_MAX -> fd <> s -> fd_path fd e = Some p ->
  (forall buffer' e', rx e' = tail -> tx e' = tx e -> Zlen buffer' = SYNC_DATA_MAX -> fd_path fd e' = Some p ->
     stored p e' = stored p e ++ concat chunks -> owp N (send_data_loop k s fd buffer') Q e') ->
  (forall rest reason buffer' e', rx e' = frames rest ++ tail -> tx e' = tx e ++ fail_message reason ->
     Zlen buffer' = SYNC_DATA_MAX -> Forall chunk_ok rest -> length rest <= length chunks -> Q (SendFailed, buffer') e') ->
  owp N (send_data_loop (length chunks + k) s fd buffer) Q e.
Proof.
  revert buffer e. induction chunks as [|bs chunks IH]; intros buffer e Hrx Hok Hb Hfd Hp Hgo Hfail.
  - apply Hgo; [done..|]. by rewrite app_nil_r.
  - cbn [length Nat.add send_data_loop]. inversion Hok as [|? ? Hbs Hrest]; subst. rewrite frame_cons, <- !app_assoc in Hrx.
    apply owp_bind. eapply owp_read_request; [exact Hrx|]. intros e1 H1 H2 S1. header.
    rewrite (proj2 (Z.ltb_ge _ _)) by (unfold chunk_ok in Hbs; lia). apply owp_bind.
    eapply owp_read_buffer; [exact H1|unfold chunk_ok in Hbs; lia|]. intros e2 H3 H4 S2.
    rewrite Nat2Z.id, take_app_length. apply owp_bind.
    assert (Hl : Zlen (bs ++ drop (length bs) buffer) = SYNC_DATA_MAX)
      by (rewrite length_refill; [done|unfold chunk_ok in Hbs; lia]).
    assert (S : same_files e e2) by (by etrans). pose proof (same_fd_path _ _ fd S) as Hp2.
    apply (owp_file_write s rx tx N fd p); [done|congruence|]. intros r e3 H5 H6 H7 H8. destruct r as [|x].
    + eapply IH; [by rewrite H5|done..|congruence| |].
      * intros b' e' H9 H10 H11 H12 H13. apply Hgo; [congruence..|].
        rewrite H13, H8 by done. rewrite (same_stored _ _ p S). cbn [concat]. by rewrite <- app_assoc.
      * intros rest reason b' e' H9 H10 H11 H12 H13. eapply Hfail; [done| |done..|cbn; lia]. rewrite H10. f_equal. congruence.
    + apply owp_bind, owp_SendSyncFailErrno. intros reason e4 H9 H10 _. apply owp_ret.
      apply (Hfail chunks reason); [congruence| |done..|cbn; lia]. rewrite H10. f_equal. congruence.
Qed.

(** ** Opening the file *)

(** A call whose result does not matter to the connection. *)
Ltac quiet_call := apply (owp_call s rx tx); intros ? ? _ ? ?.

Lemma owp_update_capabilities N path c e (Q : errno_t + unit -> E -> Prop) :
  (forall r e', rx e' = rx e -> tx e' = tx e -> same_files e e' -> (c = 0%Z -> r = inr tt) -> Q r e') ->
  owp N (update_capabilities path c) Q e.
Proof.
  intros HQ. unfold update_capabilities. destruct (Z.eqb_spec c 0).
  - apply owp_bind, (owp_call_keeps s rx tx); [done|]. intros. by apply owp_ret, HQ.
  - apply (owp_call_keeps s rx tx); [done|]. intros. by apply HQ.
Qed.

Lemma owp_mkdirs_loop N components partial a e (Q : errno_t + unit -> E -> Prop) :
  (forall r e', rx e' = rx e -> tx e' = tx e -> Q r e') -> owp N (mkdirs_loop components partial a) Q e.
Proof.
  revert partial a e. induction components as [|c rest IH]; intros partial a e HQ; [by apply HQ|].
  cbn [mkdirs_loop]. set (partial' := _ ++ c). set (a' := if should_use_fs_config partial' then _ else a). clearbody partial' a'.
  assert (Hgo : forall e1, rx e1 = rx e -> tx e1 = tx e -> owp N (mkdirs_loop rest partial' a') Q e1).
  { intros e1 H1 H2. apply IH. intros. apply HQ; congruence. }
  apply owp_bind. quiet_call.
  lazymatch goal with r : errno_t + unit |- _ => destruct r as [x|[]] end.
  { destruct x; try (by apply owp_ret, HQ). by apply Hgo. }
  apply owp_bind. quiet_call. lazymatch goal with r : errno_t + unit |- _ => destruct r as [x|[]] end; [apply owp_ret, HQ; congruence|].
  apply owp_bind. quiet_call. apply owp_bind, owp_update_capabilities. intros [x|[]] e4 ?? _ _;
    [apply owp_ret, HQ; congruence|apply Hgo; congruence].
Qed.

Lemma owp_secure_mkdirs N x path e (Q : errno_t + unit -> E -> Prop) :
  (forall r e', rx e' = rx e -> tx e' = tx e -> Q r e') -> owp N (secure_mkdirs x path) Q e.
Proof.
  intros HQ. unfold secure_mkdirs. destruct path as [|c p]; [by apply owp_ret, HQ|].
  destruct (Ascii.eqb c slash); [by apply owp_mkdirs_loop|by apply owp_ret, HQ].
Qed.

(** A descriptor that is ready to take the file. *)
Definition opened (path : bytes) (fd : Z) e : Prop :=
  (0 <= fd)%Z /\ fd <> s /\ fd_path fd e = Some path /\ stored path e = [].

Lemma owp_open N path flags mode e (Q : errno_t + Z -> E -> Prop) : for_writing flags = true ->
  (forall r e', rx e' = rx e -> tx e' = tx e -> (forall fd, r = inr fd -> opened path fd e') -> Q r e') ->
  owp N (call (c_open path flags mode)) Q e.
Proof.
  intros Hw HQ. apply (owp_call s rx tx). intros r e' Hc H1 H2. apply HQ; [done..|]. intros fd ->.
  destruct (open_ok _ _ _ _ _ _ Hc) as (? & ? & ? & Hs). rewrite Hw in Hs. done.
Qed.

Lemma owp_open_for_send N path mode e (Q : errno_t * bytes + Z -> E -> Prop) :
  (forall r e', rx e' = rx e -> tx e' = tx e -> (forall fd, r = inr fd -> opened path fd e') -> Q r e') ->
  owp N (open_for_send path mode) Q e.
Proof.
  intros HQ. unfold open_for_send, create_file.
  assert (Hfin : forall (r : errno_t + Z) e1, rx e1 = rx e -> tx e1 = tx e -> (forall fd, r = inr fd -> opened path fd e1) ->
    owp N (or_existing path mode r) Q e1).
  { intros r e1 H1 H2 Ho. unfold or_existing. apply owp_bind.
    assert (Hret : forall (r : errno_t + Z) e2, rx e2 = rx e1 -> tx e2 = tx e1 -> (forall fd, r = inr fd -> opened path fd e2) ->
      owp N (ret (match r with inl errno => inl (errno, str "couldn't create file") | inr fd => inr fd end)) Q e2).
    { intros r2 e2 ?? Ho2. apply owp_ret, HQ; [congruence..|]. intros fd Hfd. destruct r2; [done|]. injection Hfd as ->. by apply Ho2. }
    destruct (decide (r = inl EEXIST)) as [->|Hne].
    - apply owp_open; [done|]. intros. by apply Hret.
    - replace (match r with inl EEXIST => _ | _ => ret r end) with (ret r : M E (errno_t + Z)) by (by destruct r as [[]|]).
      by apply owp_ret, Hret. }
  apply owp_bind, owp_open; [done|]. intros r e1 H1 H2 Ho.
  destruct r as [x|fd]; [|by apply Hfin]. destruct (decide (x = ENOENT)) as [->|]; [|destruct x; first [by apply Hfin|congruence]].
  apply owp_bind, owp_secure_mkdirs. intros [x|[]] e2 H3 H4; [apply owp_ret, HQ; [congruence..|done]|].
  apply owp_bind, owp_open; [done|]. intros. apply Hfin; congruence || done.
Qed.

(** ** The file *)

(** What the daemon does with a file, apart from its owner and times: it takes
    all that is sent and answers once. *)
Definition answered (path data : bytes) (post : bytes) e (ok : bool) e' : Prop :=
  rx e' = post /\
  if ok then stored path e' = data /\ tx e' = tx e ++ encode_request ID_OKAY 0
  else exists reason, tx e' = tx e ++ fail_message reason.

Lemma owp_send_fail N chunks t post fuel fd path b buffer e (Q : bool * bytes -> E -> Prop) :
  rx e = frames chunks ++ encode_request ID_DONE t ++ post -> Forall chunk_ok chunks ->
  Zlen buffer = SYNC_DATA_MAX -> length chunks < fuel ->
  (forall buffer' e', rx e' = post -> tx e' = tx e -> Zlen buffer' = SYNC_DATA_MAX -> Q (false, buffer') e') ->
  owp N (send_fail fuel s fd path b buffer) Q e.
Proof.
  intros Hrx Hok Hb Hf HQ. unfold send_fail. apply owp_bind. eapply owp_send_fail_loop; [done..|].
  intros buffer' e1 H1 H2 H3. apply owp_bind, owp_send_abort. intros e2 H4 H5. apply owp_ret, HQ; congruence.
Qed.

Lemma owp_handle_send_file N chunks t post fuel path uid gid mode buffer b e (Q : bool * bytes -> E -> Prop) :
  rx e = frames chunks ++ encode_request ID_DONE t ++ post -> Forall chunk_ok chunks -> (0 <= t < 2 ^ 32)%Z ->
  Zlen buffer = SYNC_DATA_MAX -> length chunks < fuel ->
  (forall ok buffer' e', answered path (concat chunks) post e ok e' -> Zlen buffer' = SYNC_DATA_MAX -> Q (ok, buffer') e') ->
  owp N (handle_send_file fuel s path uid gid 0 mode buffer b) Q e.
Proof.
  intros Hrx Hok Ht Hb Hf HQ. unfold handle_send_file.
  (* A failure before the data. *)
  assert (Hfail : forall fd x reason e1, rx e1 = rx e -> tx e1 = tx e ->
    owp N (SendSyncFailErrno x s reason ;;; send_fail fuel s fd path b buffer) Q e1).
  { intros fd x reason e1 H1 H2. apply owp_bind, owp_SendSyncFailErrno. intros reason' e2 H3 H4 _.
    eapply owp_send_fail; [rewrite H3, H1; exact Hrx|done..|]. intros buffer' e3 H5 H6 H7. apply HQ; [|done].
    split; [done|]. exists reason'. congruence. }
  apply owp_bind, owp_open_for_send. intros r e1 H1 H2 Ho. destruct r as [[x reason]|fd]; [by apply Hfail|].
  destruct (Ho fd eq_refl) as (Hfd0 & Hfds & Hp & Hst).
  apply owp_bind, (owp_call_keeps s rx tx); [done|]. intros [x|[]] e2 H3 H4 S2; [apply Hfail; congruence|].
  apply owp_bind, (owp_call_keeps s rx tx); [done|]. intros _ e3 H5 H6 S3.
  apply owp_bind, (owp_call_keeps s rx tx); [done|]. intros _ e4 H7 H8 S4.
  assert (Sf : same_files e1 e4) by (etrans; [exact S2|by etrans]).
  apply owp_bind. replace fuel with (length chunks + S (fuel - length chunks - 1)) at 1 by lia.
  eapply (owp_send_data_loop N chunks _ _ fd path); [rewrite H7, H5, H3, H1; exact Hrx|done|done|done| | |].
  - rewrite (same_fd_path _ _ _ Sf). exact Hp.
  - intros b' e5 H9 H10 H11 Hp5 Hst5. rewrite (same_stored _ _ _ Sf), Hst in Hst5. cbn [send_data_loop].
    apply owp_bind. eapply owp_read_request; [exact H9|]. intros e6 H12 H13 S6. header. apply owp_ret. cbn beta iota.
    apply owp_bind, (owp_call s rx tx). intros [] e7 Hc H14 H15. pose proof (close_keeps _ _ _ _ Hc path) as Hk.
    apply owp_bind, owp_update_capabilities. intros r e8 H16 H17 S8 Hr. rewrite (Hr eq_refl).
    apply owp_bind, (owp_call_keeps s rx tx); [done|]. intros _ e9 H18 H19 S9.
    apply owp_bind, (owp_write_conn s rx tx). intros e10 H20 H21 S10. apply owp_ret, HQ; [|done].
    split; [congruence|]. split.
    + rewrite (same_stored _ _ _ S10), (same_stored _ _ _ S9), (same_stored _ _ _ S8), Hk, (same_stored _ _ _ S6). exact Hst5.
    + rewrite H21. f_equal. congruence.
  - intros rest reason b' e5 H9 H10 H11 H12 H13. cbn beta iota.
    eapply owp_send_fail; [exact H9|done|done|lia|]. intros b'' e6 H14 H15 H16. apply HQ; [|done].
    split; [done|]. exists reason. rewrite H15, H10. f_equal. congruence.
Qed.

(** ** A connection that ends between two messages *)

Lemma owp_send_data_loop_cut fuel chunks fd p buffer e :
  rx e = frames chunks -> Forall chunk_ok chunks -> Zlen buffer = SYNC_DATA_MAX -> fd <> s -> fd_path fd e = Some p ->
  owp True (send_data_loop fuel s fd buffer)
    (fun ob e' => ob.1 = SendFailed /\ Zlen ob.2 = SYNC_DATA_MAX /\
       exists rest, rx e' = frames rest /\ Forall chunk_ok rest) e.
Proof.
  intros Hrx Hok Hb Hfd Hp. destruct (le_lt_dec fuel (length chunks)) as [Hf|Hf].
  { (* The fuel does not last for the pieces. *)
    rewrite <- (take_drop fuel chunks) in Hrx, Hok. apply Forall_app in Hok as [Hok1 Hok2].
    unfold frames in Hrx. rewrite map_app, concat_app in Hrx.
    replace fuel with (length (take fuel chunks) + 0) by (rewrite length_take; lia).
    eapply (owp_send_data_loop True (take fuel chunks) _ 0 fd p); [exact Hrx|done..| |].
    - done.
    - intros rest reason b' e' H1 _ H3 H4 _. split_and!; [done|done|]. exists (rest ++ drop fuel chunks).
      split; [|by apply Forall_app]. rewrite H1. unfold frames. by rewrite map_app, concat_app. }
  replace fuel with (length chunks + S (fuel - length chunks - 1)) by lia.
  eapply (owp_send_data_loop True chunks [] _ fd p); [by rewrite app_nil_r|done..| |].
  - intros b' e1 H1 _ H3 _ _. cbn [send_data_loop]. apply owp_bind, (owp_read_eof s rx tx); [by rewrite H1|].
    intros e2 H4 _ _. apply owp_ret. split_and!; [done|done|]. by exists [].
  - intros rest reason b' e' H1 _ H3 H4 _. rewrite app_nil_r in H1. split_and!; [done|done|]. by exists rest.
Qed.

Lemma handle_send_file_spins fuel path uid gid caps mode chunks buffer b e :
  rx e = frames chunks -> Forall chunk_ok chunks -> Zlen buffer = SYNC_DATA_MAX ->
  owp True (handle_send_file fuel s path uid gid caps mode buffer b) (fun _ _ => False) e.
Proof.
  intros Hrx Hok Hb. unfold handle_send_file.
  assert (Hspin : forall fd rest buffer e1, rx e1 = frames rest -> Forall chunk_ok rest -> Zlen buffer = SYNC_DATA_MAX ->
    owp True (send_fail fuel s fd path b buffer) (fun _ _ => False) e1).
  { intros fd rest buffer' e1 H1 H2 H3. unfold send_fail. apply owp_bind. eapply owp_mono; [by eapply send_fail_loop_spins|]. done. }
  assert (Hfail : forall fd x reason e1, rx e1 = rx e ->
    owp True (SendSyncFailErrno x s reason ;;; send_fail fuel s fd path b buffer) (fun _ _ => False) e1).
  { intros fd x reason e1 H1. apply owp_bind, owp_SendSyncFailErrno. intros reason' e2 H3 H4 _.
    apply (Hspin fd chunks); [congruence|done..]. }
  apply owp_bind, owp_open_for_send. intros r e1 H1 _ Ho. destruct r as [[x reason]|fd]; [by apply Hfail|].
  destruct (Ho fd eq_refl) as (Hfd0 & Hfds & Hp & _).
  apply owp_bind, (owp_call_keeps s rx tx); [done|]. intros [x|[]] e2 H3 _ S2; [apply Hfail; congruence|].
  apply owp_bind, (owp_call_keeps s rx tx); [done|]. intros _ e3 H5 _ S3.
  apply owp_bind, (owp_call_keeps s rx tx); [done|]. intros _ e4 H7 _ S4.
  apply owp_bind. eapply owp_mono.
  - apply (owp_send_data_loop_cut fuel chunks fd path); [congruence|done..|].
    rewrite (same_fd_path _ _ _ S4), (same_fd_path _ _ _ S3), (same_fd_path _ _ _ S2). exact Hp.
  - intros [o b'] e5 (Ho5 & Hb' & rest & Hr & Hrest). cbn in Ho5, Hb'. rewrite Ho5. by eapply Hspin.
Qed.

(** ** Requests *)

Lemma owp_request N fuel id name post buffer e (Q : bool * bytes -> E -> Prop) :
  rx e = encode_request id (Zlen name) ++ name ++ post -> (0 <= id < 2 ^ 32)%Z -> (Zlen name <= 1024)%Z -> NUL ∉ name ->
  (forall e', rx e' = post -> tx e' = tx e -> same_files e e' -> same_dirs e e' ->
     owp N (run_request fuel s id name buffer) Q e') ->
  owp N (handle_sync_command fuel s buffer) Q e.
Proof.
  intros Hrx Hid Hl Hn HQ. unfold handle_sync_command. apply owp_bind.
  apply (owp_read_conn_dirs s rx tx N (encode_request id (Zlen name)) (name ++ post)); [done|].
  intros e1 H1 H2 S1 D1. rewrite request_id_encode, request_arg_encode by lia.
  rewrite (proj2 (Z.ltb_ge _ _)) by lia. apply owp_bind. apply (owp_read_conn_dirs s rx tx N name post); [done|].
  intros e2 H3 H4 S2 D2. apply owp_bind, owp_check; [lia|]. rewrite c_str_no_nul by done.
  apply HQ; [congruence..|by etrans|by etrans].
Qed.

Lemma split_last_app c before after : c ∉ after -> split_last c (before ++ c :: after) = Some (before, after).
Proof.
  intros Hc. assert (Hnone : split_last c after = None).
  { induction after as [|a t IH]; [done|]. apply not_elem_of_cons in Hc as [Ha Ht]. cbn. rewrite IH by done.
    destruct (Ascii.eqb_spec a c); congruence. }
  induction before as [|a t IH]; cbn; [by rewrite Hnone, Ascii.eqb_refl|by rewrite IH].
Qed.

(** What a client asks for: a file, not a link, whose owner and mode the system does not fix. *)
Record plain_file (path mode_text : bytes) (mode : Z) : Prop := {
  pf_path : NUL ∉ path;
  pf_text : NUL ∉ mode_text /\ byte_of 44 ∉ mode_text;
  pf_length : (Zlen path + 1 + Zlen mode_text <= 1024)%Z;
  pf_mode : strtoul mode_text 0 = (mode, false);
  pf_link : S_ISLNK (u32 mode) = false;
  pf_config : should_use_fs_config path = false;
}.

Definition spec_of (path mode_text : bytes) : bytes := path ++ byte_of 44 :: mode_text.

Lemma owp_send_request N fuel path mode_text mode post buffer e (Q : bool * bytes -> E -> Prop) :
  plain_file path mode_text mode -> rx e = encode_request ID_SEND (Zlen (spec_of path mode_text)) ++ spec_of path mode_text ++ post ->
  (forall e' b, rx e' = post -> tx e' = tx e ->
     owp N (handle_send_file fuel s path 0xffffffff 0xffffffff 0 (spread_mode (u32 mode)) buffer b) Q e') ->
  owp N (handle_sync_command fuel s buffer) Q e.
Proof.
  intros [Hn [Ht1 Ht2] Hl Hm Hk Hc] Hrx HQ. eapply owp_request; [exact Hrx|done| | |].
  - unfold spec_of. rewrite length_app. cbn [length]. lia.
  - unfold spec_of. rewrite not_elem_of_app, not_elem_of_cons. by split_and!.
  - intros e1 H1 H2 S1 _. unfold run_request. ids. unfold do_send, spec_of. rewrite split_last_app, (c_str_no_nul mode_text), Hm, Hc by done.
    rewrite (c_str_no_nul path) by done. apply owp_bind, (owp_call s rx tx). intros st e2 _ H3 H4. apply owp_bind.
    set (b := match st with inl _ => _ | inr _ => _ end). clearbody b. rewrite Hk.
    apply owp_when; [|intros _; apply HQ; congruence]. intros _. apply (owp_call s rx tx). intros [] e3 _ H5 H6. apply HQ; congruence.
Qed.

(** The daemon takes the request and all the data up to the message that ends it,
    and answers once. *)
Lemma send_stores fuel path mode_text mode chunks t post buffer e :
  plain_file path mode_text mode -> Forall chunk_ok chunks -> (0 <= t < 2 ^ 32)%Z ->
  Zlen buffer = SYNC_DATA_MAX -> length chunks < fuel ->
  rx e = send_message (spec_of path mode_text) chunks t ++ post ->
  exists ok buffer' e', handle_sync_command fuel s buffer e = Done (ok, buffer') e' /\
    answered path (concat chunks) post e ok e' /\ Zlen buffer' = SYNC_DATA_MAX.
Proof.
  intros Hp Hok Ht Hb Hf Hrx.
  assert (H : owp False (handle_sync_command fuel s buffer)
    (fun ob e' => answered path (concat chunks) post e ob.1 e' /\ Zlen ob.2 = SYNC_DATA_MAX) e).
  { unfold send_message in Hrx. rewrite <- !app_assoc in Hrx. eapply owp_send_request; [done|exact Hrx|].
    intros e1 b H1 H2. eapply owp_handle_send_file; [exact H1|done..|]. intros ok b' e2 [H3 H4] Hb'. split; [|done].
    split; [done|]. cbn [fst]. by rewrite H2 in H4. }
  apply owp_done in H as ([ok b'] & e' & Hr & H1 & H2). by exists ok, b', e'.
Qed.

(** C33: When the connection ends while a file is sent, after any whole message but
    the last, [handle_sync_command] never returns: the label [fail] reads until it gets
    a header, and there is none to come.  No fuel is enough. *)
Theorem send_cut_spins fuel path mode_text mode chunks buffer e :
  plain_file path mode_text mode -> Forall chunk_ok chunks -> Zlen buffer = SYNC_DATA_MAX ->
  rx e = encode_request ID_SEND (Zlen (spec_of path mode_text)) ++ spec_of path mode_text ++ frames chunks ->
  handle_sync_command fuel s buffer e = NoFuel.
Proof.
  intros Hp Hok Hb Hrx. apply owp_spins. eapply owp_send_request; [done|exact Hrx|].
  intros e1 b H1 H2. by apply (handle_send_file_spins fuel path _ _ _ _ chunks).
Qed.

(** ** Files sent by the device *)

Lemma frames_app l1 l2 : frames (l1 ++ l2) = frames l1 ++ frames l2.
Proof. unfold frames. by rewrite map_app, concat_app. Qed.

Lemma owp_recv_loop N fuel fd p buffer e (Q : bool * bytes -> E -> Prop) :
  fd <> s -> fd_path fd e = Some p -> Zlen buffer = SYNC_DATA_MAX -> length (unread fd e) < fuel ->
  (forall (ok : bool) chunks buffer' e', rx e' = rx e -> Zlen buffer' = SYNC_DATA_MAX -> Forall chunk_ok chunks ->
     length chunks <= length (unread fd e) ->
     (if ok then concat chunks = unread fd e /\ tx e' = tx e ++ frames chunks
      else exists reason, tx e' = tx e ++ frames chunks ++ fail_message reason) -> Q (ok, buffer') e') ->
  owp N (recv_loop fuel s fd buffer) Q e.
Proof.
  intros Hfd. revert buffer e Q. induction fuel as [|f IH]; intros buffer e Q Hp Hb Hf HQ; [lia|].
  cbn [recv_loop]. apply owp_bind. rewrite Hb. apply (owp_file_read s rx tx N fd p); [done|done|done|].
  intros r e1 H1 H2 H3 _ H4. destruct r as [[|b bs]|x].
  - destruct H4 as (Hu & Hn & _). apply owp_ret, (HQ true []); [congruence|done|done|cbn; lia|].
    split; [by rewrite (Hn eq_refl)|]. cbn. by rewrite app_nil_r.
  - destruct H4 as (Hu & _ & Hlen). set (data := b :: bs) in *. cbv zeta.
    apply owp_bind, (owp_write_conn s rx tx). intros e2 H5 H6 S2. cbn [wx_bool negb].
    apply owp_bind, (owp_write_conn s rx tx). intros e3 H7 H8 S3. cbn [wx_bool negb]. rewrite take_app_length in H8.
    assert (Sf : same_files e1 e3) by (by etrans). pose proof (same_unread _ _ fd Sf) as Hun.
    assert (Hl : length (unread fd e) = length data + length (unread fd e3)) by (by rewrite Hu, length_app, Hun).
    assert (Hdata : 0 < length data) by (cbn; lia).
    apply IH; [by rewrite (same_fd_path _ _ fd Sf)|by rewrite length_refill by lia|lia|].
    intros ok chunks b' e4 A1 A2 A3 A4 A5. apply (HQ ok (data :: chunks)); [congruence|done|by constructor|cbn [length] in *; lia|].
    destruct ok.
    + destruct A5 as [Hc ->]. split; [cbn [concat]; congruence|]. by rewrite frame_cons, H8, H6, H2, <- !app_assoc.
    + destruct A5 as [reason ->]. exists reason. by rewrite frame_cons, H8, H6, H2, <- !app_assoc.
  - apply owp_bind, owp_SendSyncFailErrno. intros reason e2 H5 H6 _.
    apply owp_bind, (owp_call s rx tx). intros [] e3 _ H7 H8. apply owp_ret, (HQ false []); [congruence|done|done|cbn; lia|].
    exists reason. by rewrite H8, H6, H2.
Qed.

(** What a client that asks for a file gets: all of it and the message that ends
    it, or some of it and a reason. *)
Definition served (data post : bytes) e (ok : bool) e' : Prop :=
  rx e' = post /\ exists chunks, Forall chunk_ok chunks /\ length chunks <= length data /\
  if ok then concat chunks = data /\ tx e' = tx e ++ frames chunks ++ encode_request ID_DONE 0
  else exists reason, tx e' = tx e ++ frames chunks ++ fail_message reason.

(** The content of the file, cut into pieces that fit the other side's buffer, and
    the message that ends it; or a failure message.  The next request is not touched. *)
Lemma recv_serves fuel path post buffer e :
  NUL ∉ path -> (Zlen path <= 1024)%Z -> Zlen buffer = SYNC_DATA_MAX -> length (content path e) < fuel ->
  rx e = encode_request ID_RECV (Zlen path) ++ path ++ post ->
  exists ok buffer' e', handle_sync_command fuel s buffer e = Done (ok, buffer') e' /\
    served (content path e) post e ok e' /\ Zlen buffer' = SYNC_DATA_MAX.
Proof.
  intros Hn Hl Hb Hf Hrx.
  assert (H : owp False (handle_sync_command fuel s buffer)
    (fun ob e' => served (content path e) post e ob.1 e' /\ Zlen ob.2 = SYNC_DATA_MAX) e).
  { eapply owp_request; [exact Hrx|done|lia|done|]. intros e1 H1 H2 S1 _. unfold run_request. ids. unfold do_recv.
    apply owp_bind, (owp_call s rx tx). intros r e2 Ho H3 H4. destruct r as [x|fd].
    - apply owp_bind, owp_SendSyncFailErrno. intros reason e3 H5 H6 _. apply owp_ret. split; [|done].
      split; [congruence|]. exists []. split_and!; [done|cbn; lia|]. exists reason. by rewrite H6, H4, H2.
    - apply open_ok in Ho as (_ & Hfd & Hp & Hu). change (for_writing _) with false in Hu. cbn in Hu.
      rewrite (same_content _ _ _ S1) in Hu.
      apply owp_bind. eapply owp_recv_loop; [done|exact Hp|done|by rewrite Hu|].
      intros ok chunks b' e3 A1 A2 A3 A4 A5. rewrite Hu in *. destruct ok; cbn [negb].
      + destruct A5 as [Hc Ht]. apply owp_bind, (owp_call s rx tx). intros [] e4 _ H5 H6.
        apply owp_bind, (owp_write_conn s rx tx). intros e5 H7 H8 _. apply owp_ret. split; [|done].
        split; [congruence|]. exists chunks. split_and!; [done|done|]. split; [done|]. rewrite H8, H6, Ht, H4, H2. by rewrite <- !app_assoc.
      + apply owp_ret. split; [|done]. split; [congruence|]. exists chunks. split_and!; [done|done|].
        destruct A5 as [reason Ht]. exists reason. rewrite Ht, H4, H2. done. }
  apply owp_done in H as ([ok b'] & e' & Hr & H1 & H2). by exists ok, b', e'.
Qed.

End Send.

(** ** Witnesses *)

(** The client goes away behind the first piece. *)
Definition cut_message : bytes :=
  let spec := spec_of remote_file (dec 0x81a4) in
  encode_request ID_SEND (Zlen spec) ++ spec ++ frames [str "some bytes"].

Lemma remote_plain : plain_file remote_file (dec 0x81a4) 0x81a4.
Proof. split; by_decide. Qed.

Lemma send_cut_spins_witness : handle_sync_command 1000 box_conn empty_buffer (box_with cut_message []) = NoFuel.
Proof.
  apply (send_cut_spins box_conn bx_rx bx_tx 1000 remote_file (dec 0x81a4) 0x81a4 [str "some bytes"]).
  - exact remote_plain.
  - by_decide.
  - by vm_compute.
  - by vm_compute.
Defined.
