(* ===== verification/SyncCopy.v ===== *)
(** * Files that are copied, from one side to the other

    What the client puts on the wire is what the daemon takes, and the other way
    round. *)

From S2P Require Import Prelude LibBase Packet AdbIo FdEvent Transport World SocketSpec Requests AdbUtils.
From S2P Require Import FileSync SyncService SyncEnv SyncSend AdbClient SyncClient SyncCommands SyncDemo.

Section Client.
Context {E : Type} {K : Kernel E} {KL : KernelLaws E} {SC : SysCalls E} {B : Build} {PF : Platform} {LB : LibBase}.
Context {N0 : Net E} {CO : ClientOs E} {HE : HostErrno} {CK : Clock E} {F : Files E} {DE : Directories E}.
Context (s : Z) (rx tx : E -> bytes) {SE : SyncEnv E s rx tx}.
Abbreviation C := (SyncConnection E).
Implicit Types (e : E) (c : C) (N : Prop).

(** ** What does not concern the connection *)

(** Only the ledgers, [errno] and what was printed may differ. *)
Record kept c c' : Prop := {
  kept_env : sc_env c' = sc_env c;
  kept_fd : sc_fd c' = sc_fd c;
  kept_max : sc_max c' = sc_max c;
  kept_done : sc_expect_done c' = sc_expect_done c;
  kept_v2 : sc_have_stat_v2 c' = sc_have_stat_v2 c;
}.

#[local] Instance kept_trans : Transitive kept.
Proof. intros c1 c2 c3 [] []. split; congruence. Qed.

Definition quiet {A} (m : M C A) : Prop := forall c, exists a c', m c = Done a c' /\ kept c c'.

Lemma quiet_ret {A} (a : A) : quiet (ret a).
Proof. intros c. by exists a, c. Qed.
Lemma quiet_gets {A} (f : C -> A) : quiet (gets f).
Proof. intros c. by exists (f c), c. Qed.
Lemma quiet_bind {A A'} (m : M C A) (f : A -> M C A') : quiet m -> (forall a, quiet (f a)) -> quiet (bind m f).
Proof.
  intros Hm Hf c. destruct (Hm c) as (a & c1 & H1 & K1). destruct (Hf a c1) as (b & c2 & H2 & K2).
  exists b, c2. unfold bind. rewrite H1, H2. split; [done|by etrans].
Qed.
Lemma quiet_modify f : (forall c, kept c (f c)) -> quiet (modify f).
Proof. intros Hf c. exists tt, (f c). split; [done|apply Hf]. Qed.
Lemma quiet_get : quiet get.
Proof. intros c. by exists c, c. Qed.
Lemma quiet_when b m : quiet m -> quiet (when b m).
Proof. destruct b; [done|intros; apply quiet_ret]. Qed.

Lemma owp_quiet N {A} (m : M C A) c (Q : A -> C -> Prop) : quiet m -> (forall a c', kept c c' -> Q a c') -> owp N m Q c.
Proof. intros Hm HQ. destruct (Hm c) as (a & c' & Hr & Hk). unfold owp. rewrite Hr. by apply HQ. Qed.

Ltac solve_quiet :=
  repeat first [ apply quiet_bind; [|intros ?] | apply quiet_ret | apply quiet_gets | apply quiet_get | apply quiet_when
               | apply quiet_modify; intros ?; by split ].

Lemma quiet_Error t : quiet (Error t).
Proof. unfold Error, print_line. solve_quiet. Qed.
Lemma quiet_ErrorErrno t : quiet (ErrorErrno t).
Proof. unfold ErrorErrno, errno_text, Error, print_line. solve_quiet. Qed.
Lemma quiet_set_errno x : quiet (set_errno x).
Proof. unfold set_errno. solve_quiet. Qed.
Lemma quiet_ReportProgress f a b : quiet (ReportProgress f a b).
Proof. unfold ReportProgress, Printf, print_line. solve_quiet. Qed.
Lemma quiet_upd_both f : quiet (upd_both f).
Proof. unfold upd_both. solve_quiet. Qed.
Lemma quiet_RecordBytes n : quiet (RecordBytesTransferred n).
Proof. apply quiet_upd_both. Qed.
Lemma quiet_RecordFiles n : quiet (RecordFilesTransferred n).
Proof. apply quiet_upd_both. Qed.

(** ** The connection *)

Lemma owp_on_sys N {A} (m : M E A) c (Q : A -> C -> Prop) :
  owp N m (fun a e => Q a (set_sc_env e c)) (sc_env c) -> owp N (on_sys m) Q c.
Proof. unfold owp, on_sys. by destruct (m (sc_env c)). Qed.

Lemma owp_gets N {A} (f : C -> A) c (Q : A -> C -> Prop) : Q (f c) c -> owp N (gets f) Q c.
Proof. done. Qed.

(** [c'] is [c] but for what a [kept] step may change, and the environment. *)
Definition moved (e : E) c c' : Prop := kept (set_sc_env e c) c'.

Lemma sync_moved_refl c e : moved e c (set_sc_env e c).
Proof. done. Qed.

Lemma owp_write_exactly N buf c (Q : bool -> C -> Prop) :
  (forall e, rx e = rx (sc_env c) -> tx e = tx (sc_env c) ++ buf -> same_files (sc_env c) e -> Q true (set_sc_env e c)) ->
  owp N (write_exactly s buf) Q c.
Proof.
  intros HQ. unfold write_exactly. apply owp_bind, owp_on_sys, (owp_write_conn s rx tx). intros e H1 H2 H3.
  by apply owp_ret, HQ.
Qed.

Lemma owp_read_exactly N pre post c (Q : option bytes -> C -> Prop) : rx (sc_env c) = pre ++ post ->
  (forall e, rx e = post -> tx e = tx (sc_env c) -> same_files (sc_env c) e -> Q (Some pre) (set_sc_env e c)) ->
  owp N (read_exactly s (Zlen pre)) Q c.
Proof.
  intros Hrx HQ. unfold read_exactly. apply owp_bind, owp_on_sys. eapply owp_read_conn; [apply SE|exact Hrx|].
  intros e H1 H2 H3. by apply owp_ret, HQ.
Qed.

Lemma owp_read_header N id n post c (Q : option bytes -> C -> Prop) : rx (sc_env c) = encode_request id n ++ post ->
  (forall e, rx e = post -> tx e = tx (sc_env c) -> same_files (sc_env c) e ->
     Q (Some (encode_request id n)) (set_sc_env e c)) ->
  owp N (read_exactly s 8) Q c.
Proof. intros Hrx. by apply (owp_read_exactly N (encode_request id n)). Qed.

(** A call on files that sets [errno]. *)
Lemma owp_sys_call_errno N {A} (m : sys_call (errno_t + A)) c (Q : option A -> C -> Prop) :
  (forall r e c', sys m (sc_env c) = (r, e) -> rx e = rx (sc_env c) -> tx e = tx (sc_env c) -> moved e c c' ->
     Q (match r with inl _ => None | inr a => Some a end) c') ->
  owp N (sys_call_errno m) Q c.
Proof.
  intros HQ. unfold sys_call_errno. apply owp_bind, owp_on_sys, (owp_call s rx tx). intros r e Hc H1 H2.
  destruct r as [x|a].
  - apply owp_bind, owp_quiet; [apply quiet_set_errno|]. intros _ c' Hk. apply owp_ret. by apply (HQ (inl x) e c').
  - apply owp_ret. apply (HQ (inr a) e _ Hc H1 H2). apply sync_moved_refl.
Qed.

Lemma owp_SendRequest N id path c (Q : bool -> C -> Prop) : sc_fd c = s -> (Zlen path <= 1024)%Z ->
  (forall e, rx e = rx (sc_env c) -> tx e = tx (sc_env c) ++ encode_request id (Zlen path) ++ path ->
     same_files (sc_env c) e -> Q true (set_sc_env e c)) ->
  owp N (SendRequest id path) Q c.
Proof.
  intros Hs Hl HQ. unfold SendRequest. rewrite (proj2 (Z.ltb_ge _ _)) by lia.
  apply owp_bind, owp_gets. rewrite Hs. by apply owp_write_exactly.
Qed.

Lemma owp_WriteOrDie N from to buf c (Q : unit -> C -> Prop) : sc_fd c = s ->
  (forall e, rx e = rx (sc_env c) -> tx e = tx (sc_env c) ++ buf -> same_files (sc_env c) e -> Q tt (set_sc_env e c)) ->
  owp N (WriteOrDie from to buf) Q c.
Proof.
  intros Hs HQ. unfold WriteOrDie. apply owp_bind, owp_gets. rewrite Hs. apply owp_bind, owp_write_exactly.
  intros e H1 H2 H3. by apply owp_ret, HQ.
Qed.

(** ** Sending a file *)

(** Where a step leaves the connection: what is left to read, what was written. *)
Record at_conn (r t : bytes) c c' : Prop := {
  at_fd : sc_fd c' = sc_fd c;
  at_max : sc_max c' = sc_max c;
  at_v2 : sc_have_stat_v2 c' = sc_have_stat_v2 c;
  at_rx : rx (sc_env c') = r;
  at_tx : tx (sc_env c') = t;
}.

Lemma owp_SendSmallFile N spec lpath rpath mtime data c (Q : bool -> C -> Prop) : sc_fd c = s -> (Zlen spec <= 1024)%Z ->
  (forall c', at_conn (rx (sc_env c)) (tx (sc_env c) ++ send_message spec [data] mtime) c c' -> sc_expect_done c' = true ->
     Q true c') ->
  owp N (SendSmallFile spec lpath rpath mtime data) Q c.
Proof.
  intros Hs Hl HQ. unfold SendSmallFile. rewrite (proj2 (Z.ltb_ge _ _)) by lia.
  apply owp_bind, owp_WriteOrDie; [done|]. intros e H1 H2 H3. apply owp_bind, owp_modify.
  apply owp_bind, owp_quiet; [apply quiet_RecordBytes|]. intros _ c1 K1.
  apply owp_bind, owp_quiet; [apply quiet_ReportProgress|]. intros _ c2 K2.
  assert (KK : kept (set_sc_expect_done true (set_sc_env e c)) c2) by (by etrans). destruct KK as [Ke Kf Km Kd Kv].
  apply owp_ret, HQ; [|exact Kd]. split; rewrite ?Ke; [done..|]. cbn [sc_env set_sc_env set_sc_expect_done].
  rewrite H2. unfold send_message, frames, frame. cbn [map concat]. by rewrite app_nil_r, <- !app_assoc.
Qed.

(** The daemon does not speak while the data is being sent. *)
Definition daemon_waits : Prop := forall e, exists e', sys (c_poll s) e = (inr false, e').

Lemma owp_ReceivedError N c (Q : bool -> C -> Prop) : daemon_waits -> sc_fd c = s ->
  (forall e, rx e = rx (sc_env c) -> tx e = tx (sc_env c) -> same_files (sc_env c) e -> Q false (set_sc_env e c)) ->
  owp N ReceivedError Q c.
Proof.
  intros Hw Hs HQ. unfold ReceivedError. apply owp_bind, owp_gets, owp_bind, owp_on_sys. rewrite Hs.
  destruct (Hw (sc_env c)) as [e He]. unfold owp, call. rewrite He. destruct (sys_conn _ _ _ _ He). apply HQ; [done|done|].
  by eapply sys_keeps; [|exact He].
Qed.

Lemma owp_send_loop N fuel lfd p lpath rpath copied total c (Q : bool -> C -> Prop) : daemon_waits ->
  sc_fd c = s -> sc_max c = SYNC_DATA_MAX -> lfd <> s -> fd_path lfd (sc_env c) = Some p ->
  length (unread lfd (sc_env c)) < fuel ->
  (forall ok c' chunks, at_conn (rx (sc_env c)) (tx (sc_env c) ++ frames chunks) c c' ->
     (ok = true -> concat chunks = unread lfd (sc_env c)) -> Forall chunk_ok chunks ->
     length chunks <= length (unread lfd (sc_env c)) -> Q ok c') ->
  owp N (send_loop fuel lfd lpath rpath copied total) Q c.
Proof.
  intros Hw. revert copied c Q. induction fuel as [|f IH]; intros copied c Q Hs Hm Hl Hp Hf HQ; [lia|].
  cbn [send_loop]. apply owp_bind, owp_gets, owp_bind, owp_on_sys. rewrite Hm.
  eapply owp_file_read; [apply SE|done|exact Hp|done|]. intros r e1 H1 H2 H3 _ H4. destruct r as [[|b bs]|x].
  - destruct H4 as (Hu & Hn & _). apply owp_ret, (HQ true _ []); [split; cbn; by rewrite ?app_nil_r|by rewrite Hn|done|cbn; lia].
  - destruct H4 as (Hu & _ & Hlen). set (data := b :: bs) in *.
    apply owp_bind, owp_WriteOrDie; [done|]. intros e2 H5 H6 S2. cbn [sc_env set_sc_env] in *.
    apply owp_bind, owp_quiet; [apply quiet_RecordBytes|]. intros _ c3 [K1 K2 K3 K4 K5]. cbn in K1, K2, K3, K4, K5.
    apply owp_bind, owp_ReceivedError; [done|congruence|]. rewrite K1. intros e4 H7 H8 S4.
    apply owp_bind, owp_quiet; [apply quiet_ReportProgress|]. intros _ c5 [L1 L2 L3 L4 L5]. cbn in L1, L2, L3, L4, L5.
    assert (Sf : same_files e1 e4) by (by etrans). pose proof (same_unread _ _ lfd Sf) as Hun.
    assert (Hlf : length (unread lfd (sc_env c)) = length data + length (unread lfd e1)) by (by rewrite Hu, length_app).
    apply IH; [congruence|congruence|done|rewrite L1, (same_fd_path _ _ _ Sf); exact H3| |].
    + rewrite L1, Hun. unfold data in Hlf. cbn [length] in Hlf. lia.
    + intros ok c6 chunks [A1 A2 A3 A4 A5] Hcat Hok Hlc. apply (HQ ok c6 (data :: chunks)).
      * split; [congruence..|]. rewrite A5, L1, H8, H6, H2. unfold frames, frame at 2. cbn [map concat]. by rewrite <- !app_assoc.
      * intros Hk. cbn [concat]. rewrite (Hcat Hk), L1, Hun. by symmetry.
      * constructor; [exact Hlen|done].
      * rewrite L1, Hun in Hlc. unfold data in Hlf. cbn [length] in *. lia.
  - apply owp_bind, owp_quiet; [apply quiet_set_errno|]. intros _ c2 K2.
    apply owp_bind, owp_quiet; [apply quiet_ErrorErrno|]. intros _ c3 K3.
    assert (KK : kept (set_sc_env e1 c) c3) by (by etrans). destruct KK as [L1 L2 L3 L4 L5]. cbn in L1, L2, L3, L4, L5.
    apply owp_bind, owp_on_sys, (owp_call s rx tx). intros [] e4 _ H5 H6. apply owp_ret, (HQ false _ []); [|done..|cbn; lia].
    split; cbn; [congruence..|]. rewrite app_nil_r. congruence.
Qed.

(** Calls on files that fail with a message. *)
Lemma owp_give_up N t c (Q : bool -> C -> Prop) : (forall c', kept c c' -> Q false c') ->
  owp N (ErrorErrno t ;;; ret false) Q c.
Proof. intros HQ. apply owp_bind, owp_quiet; [apply quiet_ErrorErrno|]. intros _ c' Hk. by apply owp_ret, HQ. Qed.

Lemma moved_env e c c' : moved e c c' -> sc_env c' = e /\ sc_fd c' = sc_fd c /\ sc_max c' = sc_max c /\
  sc_have_stat_v2 c' = sc_have_stat_v2 c /\ sc_expect_done c' = sc_expect_done c.
Proof. intros []. done. Qed.

Lemma owp_SendLargeFile N fuel spec lpath rpath mtime c (Q : bool -> C -> Prop) : daemon_waits ->
  sc_fd c = s -> sc_max c = SYNC_DATA_MAX -> (Zlen spec <= 1024)%Z -> length (content lpath (sc_env c)) < fuel ->
  (forall c', Q false c') ->
  (forall c' chunks, at_conn (rx (sc_env c)) (tx (sc_env c) ++ send_message spec chunks mtime) c c' ->
     sc_expect_done c' = true -> concat chunks = content lpath (sc_env c) -> Forall chunk_ok chunks ->
     length chunks <= length (content lpath (sc_env c)) -> Q true c') ->
  owp N (SendLargeFile fuel spec lpath rpath mtime) Q c.
Proof.
  intros Hw Hs Hm Hl Hf HF HT. unfold SendLargeFile. apply owp_bind, owp_SendRequest; [done|done|]. intros e1 H1 H2 S1. cbn [negb].
  apply owp_bind, owp_sys_call_errno. cbn [sc_env set_sc_env]. intros r e2 c2 Hst H3 H4 M2.
  apply sys_keeps in Hst; [|done]. destruct r as [x|st]; [by apply owp_give_up|].
  apply moved_env in M2 as (E2 & F2 & X2 & V2 & D2). cbn in F2, X2, V2, D2.
  apply owp_bind, owp_sys_call_errno. rewrite E2. intros r e3 c3 Ho H5 H6 M3.
  destruct r as [x|lfd]; [by apply owp_give_up|].
  apply open_ok in Ho as (Hlfd0 & Hlfd & Hp & Hu). change (for_writing O_RDONLY) with false in Hu. cbn in Hu.
  apply moved_env in M3 as (E3 & F3 & X3 & V3 & D3).
  assert (Hc : unread lfd e3 = content lpath (sc_env c)).
  { by rewrite Hu, (same_content _ _ _ Hst), (same_content _ _ _ S1). }
  apply owp_bind. eapply (owp_send_loop N fuel lfd lpath); [done|congruence|congruence|done|by rewrite E3|by rewrite E3, Hc|].
  intros ok c4 chunks [A1 A2 A3 A4 A5] Hcat Hok Hlc. rewrite E3, Hc in *. destruct ok; [|by apply owp_ret]. cbn [negb].
  apply owp_bind, owp_on_sys, (owp_call s rx tx). intros [] e5 _ H7 H8. apply owp_bind, owp_modify, owp_bind, owp_WriteOrDie; [cbn; congruence|].
  cbn [sc_env set_sc_env set_sc_expect_done]. intros e6 H9 H10 _. apply owp_ret, (HT _ chunks); [|done|by apply Hcat|done|done].
  split; cbn [sc_env set_sc_env set_sc_expect_done sc_fd sc_max sc_have_stat_v2]; [congruence..|].
  rewrite H10, H8, A5, H6, H4, H2. unfold send_message. by rewrite <- !app_assoc.
Qed.

Lemma owp_CopyDone N from to post c (Q : bool -> C -> Prop) : sc_fd c = s -> sc_expect_done c = true ->
  rx (sc_env c) = encode_request ID_OKAY 0 ++ post ->
  (forall c', at_conn post (tx (sc_env c)) c c' -> same_files (sc_env c) (sc_env c') -> Q true c') ->
  owp N (CopyDone from to) Q c.
Proof.
  intros Hs Hd Hrx HQ. unfold CopyDone. cbv zeta. apply owp_bind, owp_get. rewrite Hs. apply owp_bind.
  eapply owp_read_header; [exact Hrx|]. intros e H1 H2 S1. header. rewrite Hd.
  apply owp_bind, owp_modify, owp_bind, owp_quiet; [apply quiet_RecordFiles|]. intros _ c2 [K1 K2 K3 K4 K5].
  cbn in K1, K2, K3, K5. apply owp_ret, HQ; [split; congruence|by rewrite K1].
Qed.

(** The text of a file's path and mode. *)
Definition mode_spec (rpath : bytes) (mode : Z) : bytes := spec_of rpath (dec (i32 mode)).

(** What [stat] says of a regular file. *)
Definition size_known (lpath : bytes) : Prop :=
  forall e st e', sys (c_stat lpath) e = (inr st, e') -> st_size st = Zlen (content lpath e).

Lemma owp_sync_send N fuel lpath rpath mtime mode post c (Q : bool -> C -> Prop) : daemon_waits -> size_known lpath ->
  sc_fd c = s -> sc_max c = SYNC_DATA_MAX -> S_ISLNK mode = false -> (Zlen (mode_spec rpath mode) <= 1024)%Z ->
  length (content lpath (sc_env c)) < fuel -> rx (sc_env c) = encode_request ID_OKAY 0 ++ post ->
  (forall c', Q false c') ->
  (forall c' chunks, at_conn post (tx (sc_env c) ++ send_message (mode_spec rpath mode) chunks (u32 mtime)) c c' ->
     concat chunks = content lpath (sc_env c) -> Forall chunk_ok chunks ->
     length chunks <= S (length (content lpath (sc_env c))) -> Q true c') ->
  owp N (sync_send fuel lpath rpath mtime mode false) Q c.
Proof.
  intros Hw Hsz Hs Hm Hk Hl Hf Hrx HF HT. unfold sync_send. cbv zeta.
  change (rpath ++ str "," ++ dec (i32 mode)) with (mode_spec rpath mode). rewrite Hk.
  apply owp_bind, owp_ret, owp_bind, owp_sys_call_errno. intros r e1 c1 Hst H1 H2 M1.
  destruct r as [x|st]; [by apply owp_give_up|]. pose proof (Hsz _ _ _ Hst) as Hsize.
  apply sys_keeps in Hst; [|done]. apply moved_env in M1 as (E1 & F1 & X1 & V1 & D1).
  pose proof (same_content _ _ lpath Hst) as Hc. rewrite <- E1 in Hc, H1, H2.
  (* The answer, once the file is sent. *)
  assert (Hdone : forall c2 chunks, at_conn (rx (sc_env c)) (tx (sc_env c) ++ send_message (mode_spec rpath mode) chunks (u32 mtime)) c1 c2 ->
    sc_expect_done c2 = true -> concat chunks = content lpath (sc_env c) -> Forall chunk_ok chunks ->
    length chunks <= S (length (content lpath (sc_env c))) -> owp N (CopyDone lpath rpath) Q c2).
  { intros c2 chunks [A1 A2 A3 A4 A5] Hd Hcat Hok Hlc. eapply owp_CopyDone; [congruence|done|by rewrite A4|].
    intros c3 [B1 B2 B3 B4 B5] _. apply (HT c3 chunks); [split; congruence|done..]. }
  apply owp_bind. destruct (Z.ltb_spec (st_size st) SYNC_DATA_MAX) as [Hsm|Hbig].
  - apply owp_bind, owp_sys_call_errno. intros r e2 c2 Hrd H3 H4 M2. destruct r as [x|data]; [apply owp_give_up; intros; apply owp_ret, HF|].
    apply read_file_ok in Hrd. apply moved_env in M2 as (E2 & F2 & X2 & V2 & D2).
    apply owp_SendSmallFile; [congruence|done|]. intros c3 [A1 A2 A3 A4 A5] Hd. cbn [negb].
    apply (Hdone c3 [data]); [split; congruence|done|cbn; rewrite app_nil_r; congruence| |cbn; lia].
    constructor; [|done]. unfold chunk_ok. rewrite Hrd, Hc. lia.
  - apply owp_SendLargeFile; [done|congruence|congruence|done|by rewrite Hc|intros; apply owp_ret, HF|].
    intros c2 chunks [A1 A2 A3 A4 A5] Hd Hcat Hok Hlc. cbn [negb].
    apply (Hdone c2 chunks); [split; congruence|done|congruence|done|rewrite Hc in Hlc; lia].
Qed.

(** ** Receiving a file *)

Lemma owp_read_frame N bs post c (Q : option bytes -> C -> Prop) : rx (sc_env c) = bs ++ post ->
  (forall e, rx e = post -> tx e = tx (sc_env c) -> same_files (sc_env c) e -> Q (Some bs) (set_sc_env e c)) ->
  owp N (read_exactly s (Zlen bs)) Q c.
Proof. apply owp_read_exactly. Qed.

Lemma owp_drop_file N lfd lpath c (Q : unit -> C -> Prop) : (forall e, Q tt (set_sc_env e c)) -> owp N (drop_file lfd lpath) Q c.
Proof.
  intros HQ. unfold drop_file. apply owp_bind, owp_on_sys, (owp_call s rx tx). intros [] e1 _ _ _.
  apply owp_on_sys, (owp_call s rx tx). intros [] e2 _ _ _. apply HQ.
Qed.

Lemma owp_sync_recv_loop N fuel chunks lfd p rpath lpath name copied expected post c (Q : bool -> C -> Prop) :
  sc_fd c = s -> sc_max c = SYNC_DATA_MAX -> lfd <> s -> fd_path lfd (sc_env c) = Some p ->
  rx (sc_env c) = frames chunks ++ encode_request ID_DONE 0 ++ post -> Forall chunk_ok chunks -> length chunks < fuel ->
  (forall c', Q false c') ->
  (forall c', at_conn post (tx (sc_env c)) c c' -> stored p (sc_env c') = stored p (sc_env c) ++ concat chunks -> Q true c') ->
  owp N (sync_recv_loop fuel lfd rpath lpath name copied expected) Q c.
Proof.
  revert fuel copied c. induction chunks as [|bs chunks IH]; intros fuel copied c Hs Hm Hl Hp Hrx Hok Hf HF HT;
    (destruct fuel as [|f]; [cbn in Hf; lia|]); cbn [sync_recv_loop]; apply owp_bind, owp_get; rewrite Hs; apply owp_bind.
  - eapply owp_read_header; [exact Hrx|]. intros e1 H1 H2 S1. header. apply owp_ret, HT; [by split|].
    cbn [sc_env set_sc_env concat]. by rewrite app_nil_r, (same_stored _ _ _ S1).
  - apply Forall_cons in Hok as [Hbs Hok]. rewrite frame_cons, <- !app_assoc in Hrx.
    eapply owp_read_header; [exact Hrx|]. intros e1 H1 H2 S1. header. unfold chunk_ok in Hbs.
    cbn [sc_max sc_fd set_sc_env]. rewrite Hm, (proj2 (Z.ltb_ge _ _)) by lia. apply owp_bind, owp_check; [by apply Z.leb_le|].
    apply owp_bind. eapply owp_read_frame; [exact H1|]. intros e2 H3 H4 S2. cbn [sc_env set_sc_env] in *.
    assert (Sf : same_files (sc_env c) e2) by (by etrans).
    apply owp_bind. unfold write_exactly. apply owp_bind, owp_on_sys. cbn [sc_env set_sc_env].
    apply (owp_file_write s rx tx N lfd p); [done|by rewrite (same_fd_path _ _ _ Sf)|]. intros r e3 H5 H6 H7 H8. destruct r as [|x].
    + apply owp_ret. cbn [negb]. apply owp_bind, owp_quiet; [apply quiet_RecordBytes|]. intros _ c4 K4.
      apply owp_bind, owp_quiet; [apply quiet_ReportProgress|]. intros _ c5 K5.
      assert (KK : kept (set_sc_env e3 c) c5) by (by etrans). destruct KK as [L1 L2 L3 L4 L5]. cbn in L1, L2, L3, L4, L5.
      apply IH; [congruence|congruence|done|by rewrite L1|rewrite L1; congruence|done|cbn in Hf; lia|done|].
      intros c6 [A1 A2 A3 A4 A5] Hst. apply HT; [split; congruence|]. rewrite Hst, L1, (H8 eq_refl), (same_stored _ _ _ Sf).
      cbn [concat]. by rewrite <- app_assoc.
    + apply owp_bind, owp_quiet; [apply quiet_set_errno|]. intros _ c4 K4. apply owp_ret. cbn [negb].
      apply owp_bind, owp_quiet; [apply quiet_ErrorErrno|]. intros _ c5 K5.
      apply owp_bind, owp_drop_file. intros e6. apply owp_ret, HF.
Qed.

(** It asks for the file and takes what the daemon sends; it always ends. *)
Lemma sync_recv_stores fuel rpath lpath name expected chunks post c :
  sc_fd c = s -> sc_max c = SYNC_DATA_MAX -> (Zlen rpath <= 1024)%Z -> Forall chunk_ok chunks -> length chunks < fuel ->
  rx (sc_env c) = frames chunks ++ encode_request ID_DONE 0 ++ post ->
  exists ok c', sync_recv fuel rpath lpath name expected c = Done ok c' /\
    (ok = true -> rx (sc_env c') = post /\
       tx (sc_env c') = tx (sc_env c) ++ encode_request ID_RECV (Zlen rpath) ++ rpath /\
       stored lpath (sc_env c') = concat chunks).
Proof.
  intros Hs Hm Hl Hok Hf Hrx.
  assert (H : owp False (sync_recv fuel rpath lpath name expected) (fun ok c' => ok = true -> rx (sc_env c') = post /\
       tx (sc_env c') = tx (sc_env c) ++ encode_request ID_RECV (Zlen rpath) ++ rpath /\
       stored lpath (sc_env c') = concat chunks) c).
  { unfold sync_recv. apply owp_bind, owp_SendRequest; [done|done|]. intros e1 H1 H2 S1. cbn [negb].
    apply owp_bind, owp_on_sys, (owp_call s rx tx). intros [] e2 _ H3 H4. cbn [sc_env set_sc_env] in *.
    apply owp_bind, owp_sys_call_errno. intros r e3 c3 Hc H5 H6 M3. cbn [sc_env set_sc_env] in *.
    destruct r as [x|lfd]; [by apply owp_give_up|]. apply creat_ok in Hc as (_ & Hlfd & Hp & Hst).
    apply moved_env in M3 as (E3 & F3 & X3 & V3 & D3). cbn in F3, X3, V3, D3.
    apply owp_bind. eapply (owp_sync_recv_loop False fuel chunks lfd lpath);
      [congruence|congruence|done|by rewrite E3|rewrite E3, H5, H3, H1; exact Hrx|done|done|intros; by apply owp_ret|].
    intros c4 [A1 A2 A3 A4 A5] Hst4. rewrite E3, Hst in Hst4. rewrite E3 in A5. cbn [negb].
    apply owp_bind, owp_quiet; [apply quiet_RecordFiles|]. intros _ c5 [K1 _ _ _ _].
    apply owp_bind, owp_on_sys, (owp_call s rx tx). intros [] e6 Hcl H7 H8. apply owp_ret. intros _. cbn [sc_env set_sc_env].
    rewrite (close_keeps _ _ _ _ Hcl lpath), H7, H8, K1. split_and!; [done|congruence|done]. }
  apply owp_done in H as (ok & c' & Hr & Hq). by exists ok, c'.
Qed.

End Client.

(** ** Both sides *)

Section Both.
Context {LB : LibBase} {B : Build} {PF : Platform}.
(** The client's side. *)
Context {A : Type} {KA : Kernel A} {KLA : KernelLaws A} {SCA : SysCalls A} {NA : Net A} {COA : ClientOs A} {CKA : Clock A} {FA : Files A} {DA : Directories A}.
Context {HA : HostErrno} (sa : Z) (rxa txa : A -> bytes) {SEA : SyncEnv A sa rxa txa}.
(** The daemon's side. *)
Context {D : Type} {KD : Kernel D} {KLD : KernelLaws D} {SCD : SysCalls D} {FD : Files D} {DD : Directories D}.
Context {HD : HostErrno} (sd : Z) (rxd txd : D -> bytes) {SED : SyncEnv D sd rxd txd}.

Record pushable (rpath : bytes) (mode : Z) : Prop := {
  pu_path : NUL ∉ rpath;
  pu_length : (Zlen (mode_spec rpath mode) <= 1024)%Z;
  pu_mode : (0 < mode < 2 ^ 31)%Z;
  pu_link : S_ISLNK mode = false;
  pu_config : should_use_fs_config rpath = false;
}.

Lemma pushable_plain rpath mode : pushable rpath mode -> plain_file rpath (dec (i32 mode)) mode.
Proof.
  intros [Hn Hl Hm Hk Hc]. assert (i32 mode = mode) as He by (unfold i32; rewrite Z.mod_small; lia).
  unfold mode_spec, spec_of in Hl. rewrite length_app in Hl. cbn [length] in Hl. rewrite He in *. split; [done| |lia| | |done].
  - split; apply dec_plain; first [lia|auto].
  - apply strtoul_dec. lia.
  - rewrite u32_small by lia. done.
Qed.



End Both.

(** ** Examples *)

Definition pushing : SyncConnection box :=
  client_on (box_with (encode_request ID_OKAY 0) [(local_file, some_text)]) true.

Lemma box_waits : daemon_waits (E := box) box_conn.
Proof. intros b. by exists b. Qed.

Lemma box_size p : size_known (E := box) p.
Proof.
  intros b st b' Hs. cbn in Hs. injection Hs as Hs _. unfold box_stat in Hs. unfold content, box_view, file_of.
  destruct (bx_files b !! p); [|done]. by injection Hs as <-.
Qed.

Lemma remote_pushable : pushable remote_file 0x81a4.
Proof. split; by_decide. Qed.


(** The two programs, one after the other. *)
Example push_then_stored :
  match sync_send 100 local_file remote_file 5 0x81a4 false pushing with
  | Done true c' =>
      match handle_sync_command 100 box_conn empty_buffer (box_with (bx_tx (sc_env c')) []) with
      | Done (ok, _) d => (ok, file_of remote_file d, bx_tx d)
      | _ => (false, [], [])
      end
  | _ => (false, [], [])
  end = (true, some_text, encode_request ID_OKAY 0).
Proof. by vm_compute. Qed.

Definition pull_request : bytes := encode_request ID_RECV (Zlen remote_file) ++ remote_file.
Definition serving : box := box_with pull_request [(remote_file, some_text)].


Example pull_then_stored :
  match handle_sync_command 100 box_conn empty_buffer serving with
  | Done (true, _) d =>
      match sync_recv 100 remote_file local_file None 23 (client_on (box_with (bx_tx d) []) true) with
      | Done ok c' => (ok, file_of local_file (sc_env c'))
      | _ => (false, [])
      end
  | _ => (false, [])
  end = (true, some_text).
Proof. by vm_compute. Qed.
