(* ===== verification/SyncList.v ===== *)
(** * What the client is told about the files on the device *)

From S2P Require Import Prelude LibBase Packet AdbIo FdEvent Transport World SocketSpec Requests AdbUtils.
From S2P Require Import FileSync SyncService SyncEnv AdbClient SyncClient SyncCommands SyncDemo SyncSend SyncCopy.

(** ** The messages *)

Lemma length_stat_v2 id err st : length (encode_stat_v2 id err st) = 72.
Proof. done. Qed.
Lemma length_stat_v1 id mode size time : length (encode_stat_v1 id mode size time) = 16.
Proof. done. Qed.
Lemma length_dent id mode size time n : length (encode_dent id mode size time n) = 20.
Proof. done. Qed.

(** The fields of [struct stat] are of the width of those of the message. *)
Record well_formed (st : stat_t) : Prop := {
  so_unsigned : Forall (fun z => 0 <= z < 2 ^ 64)%Z [st_dev st; st_ino st];
  so_words : Forall (fun z => 0 <= z < 2 ^ 32)%Z [st_mode st; st_nlink st; st_uid st; st_gid st];
  so_signed : Forall (fun z => - 2 ^ 63 <= z < 2 ^ 63)%Z [st_size st; st_atime st; st_mtime st; st_ctime st];
}.

Lemma stat_v2_roundtrip id err st : well_formed st -> stat_of_v2 (encode_stat_v2 id err st) = st.
Proof.
  intros [Hu Hw Hs]. repeat rewrite Forall_cons in Hu. repeat rewrite Forall_cons in Hw. repeat rewrite Forall_cons in Hs.
  destruct Hu as (?&?&_), Hw as (?&?&?&?&_), Hs as (?&?&?&?&_). unfold stat_of_v2, encode_stat_v2. fields.
  change (2 ^ 64)%Z with (256 ^ 8)%Z. rewrite !i64_small by assumption. change (256 ^ 8)%Z with (2 ^ 64)%Z.
  rewrite !Z.mod_small by assumption. by destruct st.
Qed.

Lemma stat_v2_head id err st : (0 <= id < 2 ^ 32)%Z -> (0 <= err < 2 ^ 32)%Z ->
  field 0 4 (encode_stat_v2 id err st) = id /\ field 4 4 (encode_stat_v2 id err st) = err.
Proof. intros Hi He. unfold encode_stat_v2. fields. rewrite !Z.mod_small by lia. done. Qed.

Lemma dent_fields id mode size time n : (0 <= id < 2 ^ 32)%Z -> (0 <= n < 2 ^ 32)%Z ->
  field 0 4 (encode_dent id mode size time n) = id /\ field 4 4 (encode_dent id mode size time n) = u32 mode /\
  field 8 4 (encode_dent id mode size time n) = u32 size /\ field 12 4 (encode_dent id mode size time n) = u32 time /\
  field 16 4 (encode_dent id mode size time n) = n.
Proof. intros Hi Hn. unfold encode_dent. fields. rewrite !(Z.mod_small id), !(Z.mod_small n) by lia. done. Qed.

(** An entry of a directory, and what travels for it. *)
Record entry := { en_mode : Z; en_size : Z; en_time : Z; en_name : bytes }.
Definition entry_of (d_name : bytes) (st : stat_t) : entry :=
  {| en_mode := st_mode st; en_size := st_size st; en_time := st_mtime st; en_name := d_name |}.
Definition encode_entry (x : entry) : bytes :=
  encode_dent ID_DENT (en_mode x) (en_size x) (en_time x) (Zlen (en_name x)) ++ en_name x.
Definition listing (l : list entry) : bytes := concat (map encode_entry l) ++ encode_dent ID_DONE 0 0 0 0.
(** What is left of an entry on the way: the fields have 32 bits. *)
Definition told (x : entry) : Z * Z * Z * bytes := (u32 (en_mode x), u32 (en_size x), u32 (en_time x), en_name x).

Definition name_ok (name : bytes) : Prop := (Zlen name <= 256)%Z /\ NUL ∉ name.

#[export] Instance name_ok_dec name : Decision (name_ok name).
Proof. unfold name_ok. apply _. Defined.

(** ** The daemon *)

Section Daemon.
Context {E : Type} {K : Kernel E} {KL : KernelLaws E} {SC : SysCalls E} {LB : LibBase} {HE : HostErrno} {F : Files E} {DE : Directories E}.
Context (s : Z) (rx tx : E -> bytes) {SE : SyncEnv E s rx tx}.
Implicit Types (e : E) (N : Prop).

(** The entries of a directory that [lstat] knows, in their order. *)
Definition entries_of (path : bytes) (names : list bytes) e : list entry :=
  omap (fun d => match lstat_of (path ++ str "/" ++ d) e with inr st => Some (entry_of d st) | inl _ => None end) names.

Definition directory (path : bytes) e : list entry :=
  match names_of path e with inr names => entries_of path names e | inl _ => [] end.

Lemma entries_of_same path names e e' : same_dirs e e' -> entries_of path names e' = entries_of path names e.
Proof.
  intros Hd. unfold entries_of. apply list_omap_ext, Forall2_same_length_lookup_2; [done|]. intros i x y Hx Hy. simplify_eq.
  destruct (Hd (path ++ str "/" ++ x)) as (_ & _ & ->). done.
Qed.

Lemma owp_list_entries N path names e (Q : bool -> E -> Prop) :
  (forall e', rx e' = rx e -> tx e' = tx e ++ concat (map encode_entry (entries_of path names e)) -> Q true e') ->
  owp N (list_entries s path names) Q e.
Proof.
  revert e Q. induction names as [|d names IH]; intros e Q HQ.
  { apply owp_ret, HQ; [done|]. by rewrite app_nil_r. }
  cbn [list_entries]. apply owp_bind, (owp_call s rx tx). intros r e1 Hr H1 H2. apply lstat_ok in Hr as [-> D1].
  assert (He : entries_of path (d :: names) e =
    match lstat_of (path ++ str "/" ++ d) e with inr st => [entry_of d st] | inl _ => [] end ++ entries_of path names e).
  { unfold entries_of. cbn. by destruct (lstat_of _ e). }
  rewrite He in HQ. clear He. destruct (lstat_of (path ++ str "/" ++ d) e) as [x|st].
  - apply IH. intros e' H3 H4. apply HQ; [congruence|]. by rewrite H4, H2, (entries_of_same _ _ _ _ D1).
  - apply owp_bind, (owp_write_conn_dirs s rx tx). intros e2 H3 H4 _ D2. cbn [wx_bool negb].
    apply owp_bind, (owp_write_conn_dirs s rx tx). intros e3 H5 H6 _ D3. cbn [wx_bool negb].
    apply IH. intros e' H7 H8. apply HQ; [congruence|]. assert (Hd : same_dirs e e3) by (etrans; [exact D1|by etrans]).
    rewrite H8, H6, H4, H2, (entries_of_same _ _ _ _ Hd). cbn [app map concat]. unfold encode_entry at 2. by rewrite <- !app_assoc.
Qed.

Lemma owp_list_request N fuel path post buffer e (Q : bool * bytes -> E -> Prop) :
  NUL ∉ path -> (Zlen path <= 1024)%Z -> rx e = encode_request ID_LIST (Zlen path) ++ path ++ post ->
  (forall e', rx e' = post -> tx e' = tx e ++ listing (directory path e) -> Q (true, buffer) e') ->
  owp N (handle_sync_command fuel s buffer) Q e.
Proof.
  intros Hn Hl Hrx HQ. eapply owp_request; [apply SE|exact Hrx|done|lia|done|]. intros e1 H1 H2 _ D1.
  unfold run_request. ids. unfold keeping, do_list. apply owp_bind, owp_bind.
  apply (owp_call s rx tx). intros r e2 Hr H3 H4. apply readdir_ok in Hr as [-> D2].
  destruct (D1 path) as (Hnames & _ & _). rewrite Hnames.
  apply owp_bind, owp_list_entries. intros e3 H5 H6. cbn [negb].
  apply owp_bind, (owp_write_conn s rx tx). intros e4 H7 H8 _. apply owp_ret, owp_ret, HQ; [congruence|].
  rewrite H8, H6, H4, H2. unfold listing, directory. rewrite <- !app_assoc. assert (Hd : same_dirs e e2) by (by etrans).
  destruct (names_of path e) as [x|names]; [done|]. by rewrite (entries_of_same _ _ _ _ Hd).
Qed.

(** The answer to a request for what is known of a path. *)
Definition stat_reply (id : Z) (r : errno_t + stat_t) : bytes :=
  match r with
  | inl x => encode_stat_v2 id (errno_to_wire (errno_code x)) zero_stat
  | inr st => encode_stat_v2 id 0 st
  end.

Definition stat_answer (id : Z) (path : bytes) e : errno_t + stat_t :=
  if (id =? ID_STAT_V2)%Z then stat_of path e else lstat_of path e.

Lemma owp_stat_request N fuel id path post buffer e (Q : bool * bytes -> E -> Prop) :
  NUL ∉ path -> (Zlen path <= 1024)%Z -> id = ID_STAT_V2 \/ id = ID_LSTAT_V2 ->
  rx e = encode_request id (Zlen path) ++ path ++ post ->
  (forall e', rx e' = post -> tx e' = tx e ++ stat_reply id (stat_answer id path e) -> Q (true, buffer) e') ->
  owp N (handle_sync_command fuel s buffer) Q e.
Proof.
  intros Hn Hl Hid Hrx HQ. eapply owp_request; [apply SE|exact Hrx|by destruct Hid as [-> | ->]|lia|done|]. intros e1 H1 H2 _ D1.
  unfold run_request. replace (id =? ID_LSTAT_V1)%Z with false by (by destruct Hid as [-> | ->]).
  replace ((id =? ID_LSTAT_V2)%Z || (id =? ID_STAT_V2)%Z) with true by (by destruct Hid as [-> | ->]).
  unfold keeping, do_stat_v2. apply owp_bind, owp_bind, (owp_call s rx tx). intros r e2 Hr H3 H4.
  assert (r = stat_answer id path e) as Hr'.
  { destruct (D1 path) as (_ & Hst & Hls). unfold stat_answer. destruct (id =? ID_STAT_V2)%Z.
    - by apply stat_ok in Hr as [-> _].
    - by apply lstat_ok in Hr as [-> _]. }
  rewrite Hr'. apply owp_bind, (owp_write_conn s rx tx). intros e3 H5 H6 _.
  apply owp_ret, owp_ret, HQ; [congruence|]. rewrite H6, H4, H2. by destruct (stat_answer id path e).
Qed.

End Daemon.

(** ** Errors *)

(** The numbers of a system where the errors of the table have the numbers of the
    wire, as Linux has. *)
Definition numbers_agree (HE : HostErrno) : Prop :=
  Forall (fun '(x, w) => errno_code x = w /\ errno_of w = x) ERRNO_VALUES.

Lemma linux_agrees : numbers_agree linux_errno.
Proof. by_decide. Qed.

Lemma host_to_wire_id HE : numbers_agree HE -> generate_host_to_wire = map (fun '(_, w) => (w, w)) ERRNO_VALUES.
Proof.
  unfold numbers_agree, generate_host_to_wire. generalize ERRNO_VALUES as l.
  induction l as [|[x w] l IH]; [done|]. intros [[Hx _] Hl]%Forall_cons. cbn. by rewrite Hx, IH.
Qed.

Lemma find_key_id (l : list (errno_t * Z)) z :
  find_key z (map (fun '(_, w) => (w, w)) l) = if decide (z ∈ map snd l) then Some z else None.
Proof.
  induction l as [|[x w] l IH]; [done|]. cbn. destruct (Z.eqb_spec z w) as [->|Hne].
  - rewrite decide_True by left. done.
  - rewrite IH. destruct (decide (z ∈ map snd l)); [by rewrite decide_True by (by right)|].
    rewrite decide_False; [done|]. rewrite elem_of_cons. naive_solver.
Qed.

Lemma errno_to_wire_agrees HE z : numbers_agree HE -> errno_to_wire z = if decide (z ∈ map snd ERRNO_VALUES) then z else 5%Z.
Proof. intros Ha. unfold errno_to_wire. rewrite (host_to_wire_id HE Ha), find_key_id. by destruct (decide _). Qed.

Lemma errno_from_wire_agrees HE z : numbers_agree HE -> z ∈ map snd ERRNO_VALUES -> errno_from_wire z = z.
Proof. intros Ha Hz. unfold errno_from_wire. rewrite (host_to_wire_id HE Ha), find_key_id. by rewrite decide_True. Qed.

(** An error of the table crosses the wire, any other becomes [EIO]. *)
Lemma errno_crosses HA HD x : numbers_agree HA -> numbers_agree HD ->
  let y := errno_of (HostErrno := HA) (errno_from_wire (HE := HA) (i32 (errno_to_wire (HE := HD) (errno_code (HostErrno := HD) x)))) in
  (x ∈ map fst ERRNO_VALUES -> y = x) /\ (errno_code (HostErrno := HD) x ∉ map snd ERRNO_VALUES -> y = EIO).
Proof.
  intros Ha Hd y. unfold y. rewrite (errno_to_wire_agrees HD) by done.
  assert (Hof : forall x w, (x, w) ∈ ERRNO_VALUES -> errno_of (HostErrno := HA) (errno_from_wire (HE := HA) (i32 w)) = x).
  { intros x' w Hin. assert (i32 w = w) as ->.
    { revert w x' Hin. assert (Forall (fun '(x, w) => i32 w = w) ERRNO_VALUES) as Hf by by_decide.
      intros w x' Hin. rewrite Forall_forall in Hf. by apply (Hf (x', w)). }
    rewrite (errno_from_wire_agrees HA); [|done|by apply (list_elem_of_fmap_2 snd _ (x', w))].
    unfold numbers_agree in Ha. rewrite Forall_forall in Ha. by apply (Ha (x', w)). }
  split; intros Hx.
  - apply list_elem_of_fmap in Hx as ([x' w] & -> & Hin). cbn [fst].
    assert (errno_code (HostErrno := HD) x' = w) as ->.
    { unfold numbers_agree in Hd. rewrite Forall_forall in Hd. by apply (Hd (x', w)). }
    rewrite decide_True; [by apply Hof|]. by apply (list_elem_of_fmap_2 snd _ (x', w)).
  - rewrite decide_False by done. apply Hof. by_decide.
Qed.

(** ** The client *)

Section ListClient.
Context {E : Type} {K : Kernel E} {KL : KernelLaws E} {SC : SysCalls E} {HE : HostErrno} {F : Files E} {DE : Directories E}.
Context (s : Z) (rx tx : E -> bytes) {SE : SyncEnv E s rx tx}.
Abbreviation C := (SyncConnection E).
Implicit Types (e : E) (c : C) (N : Prop).

(** The callback that gathers the entries. *)
Definition collect (mode size time : Z) (name : bytes) (l : list (Z * Z * Z * bytes)) : M C (list (Z * Z * Z * bytes)) :=
  ret (l ++ [(mode, size, time, name)]).

Lemma owp_sync_ls_loop N fuel l acc post c (Q : bool * list (Z * Z * Z * bytes) -> C -> Prop) :
  sc_fd c = s -> Forall (fun x => name_ok (en_name x)) l -> length l < fuel -> rx (sc_env c) = listing l ++ post ->
  (forall e, rx e = post -> tx e = tx (sc_env c) -> Q (true, acc ++ map told l) (set_sc_env e c)) ->
  owp N (sync_ls_loop fuel collect acc) Q c.
Proof.
  revert fuel acc c. induction l as [|x l IH]; intros fuel acc c Hs Hok Hf Hrx HQ;
    (destruct fuel as [|f]; [cbn in Hf; lia|]); cbn [sync_ls_loop]; apply owp_bind, owp_gets; rewrite Hs; apply owp_bind.
  - unfold listing in Hrx. cbn [map concat app] in Hrx.
    apply (owp_read_exactly s rx tx N (encode_dent ID_DONE 0 0 0 0) post); [done|]. intros e H1 H2 _.
    destruct (dent_fields ID_DONE 0 0 0 0) as (-> & _); [done|done|]. ids.
    apply owp_ret. specialize (HQ e H1 H2). by rewrite app_nil_r in HQ.
  - apply Forall_cons in Hok as [[Hl Hn] Hok]. unfold listing, encode_entry at 1 in Hrx. cbn [map concat] in Hrx. rewrite <- !app_assoc in Hrx.
    eapply (owp_read_exactly s rx tx N (encode_dent ID_DENT _ _ _ _)); [exact Hrx|]. intros e1 H1 H2 _.
    destruct (dent_fields ID_DENT (en_mode x) (en_size x) (en_time x) (Zlen (en_name x))) as (-> & -> & -> & -> & ->); [done|lia|]. ids.
    rewrite (proj2 (Z.ltb_ge _ _)) by lia. apply owp_bind. eapply (owp_read_exactly s rx tx); [exact H1|]. intros e2 H3 H4 _.
    apply owp_bind, owp_check; [lia|]. rewrite c_str_no_nul by done. apply owp_bind, owp_ret. cbn [sc_env set_sc_env] in *.
    apply IH; [done|done|cbn in Hf; lia|cbn [sc_env set_sc_env]; rewrite H3; unfold listing; by rewrite <- ?app_assoc|].
    intros e3 H5 H6. cbn [sc_env set_sc_env] in *. rewrite <- app_assoc. apply HQ; [done|congruence].
Qed.

Lemma owp_FinishStat N id r post c (Q : option stat_t -> C -> Prop) : sc_fd c = s -> sc_have_stat_v2 c = true ->
  id = ID_STAT_V2 \/ id = ID_LSTAT_V2 -> forall err, (0 < err < 2 ^ 32)%Z ->
  rx (sc_env c) = match r with inr st => encode_stat_v2 id 0 st | inl tt => encode_stat_v2 id err zero_stat end ++ post ->
  (forall c' a, rx (sc_env c') = post ->
     match r with
     | inr st => well_formed st -> a = Some st
     | inl tt => a = None /\ sc_errno c' = errno_of (errno_from_wire (i32 err))
     end -> Q a c') ->
  owp N FinishStat Q c.
Proof.
  intros Hs Hv Hid err Herr Hrx HQ. unfold FinishStat. apply owp_bind, owp_get. rewrite Hv, Hs. apply owp_bind.
  assert (Hids : (0 <= id < 2 ^ 32)%Z) by (by destruct Hid as [-> | ->]).
  assert (Hno : forall m, field 0 4 m = id -> negb (field 0 4 m =? ID_LSTAT_V2)%Z && negb (field 0 4 m =? ID_STAT_V2)%Z = false).
  { intros m ->. by destruct Hid as [-> | ->]. }
  destruct r as [[]|st].
  - eapply (owp_read_exactly s rx tx N (encode_stat_v2 id err zero_stat)); [exact Hrx|]. intros e H1 H2 _.
    destruct (stat_v2_head id err zero_stat) as [Hi He]; [done|lia|]. rewrite (Hno _ Hi), He.
    rewrite (proj2 (Z.eqb_neq err 0)) by lia. cbn [negb]. apply owp_bind, owp_modify, owp_ret, HQ; done.
  - eapply (owp_read_exactly s rx tx N (encode_stat_v2 id 0 st)); [exact Hrx|]. intros e H1 H2 _.
    destruct (stat_v2_head id 0 st) as [Hi He]; [done|lia|]. rewrite (Hno _ Hi), He. ids.
    apply owp_ret, HQ; [done|]. intros Hok. by rewrite stat_v2_roundtrip.
Qed.

End ListClient.

(** ** Both sides *)

Section Both.
Context {LB : LibBase} {A : Type} {KA : Kernel A} {KLA : KernelLaws A} {SCA : SysCalls A} {FA : Files A} {DA : Directories A}.
Context {HA : HostErrno} (sa : Z) (rxa txa : A -> bytes) {SEA : SyncEnv A sa rxa txa}.
Context {D : Type} {KD : Kernel D} {KLD : KernelLaws D} {SCD : SysCalls D} {FD : Files D} {DD : Directories D}.
Context {HD : HostErrno} (sd : Z) (rxd txd : D -> bytes) {SED : SyncEnv D sd rxd txd}.

(** The client is told the entries of a directory as they are: what the daemon
    answers to a request to list a directory makes the client call back once for each
    entry that [lstat] knows, in the order of the directory, with its name and its
    mode, size and time in 32 bits, and then stop. *)
Theorem list_roundtrip fuel path rest buffer (d : D) :
  NUL ∉ path -> (Zlen path <= 1024)%Z -> Forall (fun x => name_ok (en_name x)) (directory path d) ->
  length (directory path d) < fuel -> rxd d = encode_request ID_LIST (Zlen path) ++ path ++ rest ->
  exists d' m, handle_sync_command fuel sd buffer d = Done (true, buffer) d' /\ rxd d' = rest /\ txd d' = txd d ++ m /\
    forall (c : SyncConnection A) post, sc_fd c = sa -> rxa (sc_env c) = m ++ post ->
      exists c', sync_ls fuel path collect [] c = Done (true, map told (directory path d)) c' /\ rxa (sc_env c') = post.
Proof.
  intros Hn Hl Hok Hf Hrx.
  assert (H : owp False (handle_sync_command fuel sd buffer)
    (fun r d' => r = (true, buffer) /\ rxd d' = rest /\ txd d' = txd d ++ listing (directory path d)) d).
  { eapply (owp_list_request sd rxd txd); [done|done|exact Hrx|]. intros d' H1 H2. done. }
  apply owp_done in H as (r & d' & Hr & -> & H1 & H2). exists d', (listing (directory path d)). split_and!; [done..|].
  intros c post Hs Hrc.
  assert (H : owp False (sync_ls fuel path collect [])
    (fun r c' => r = (true, map told (directory path d)) /\ rxa (sc_env c') = post) c).
  { unfold sync_ls. apply owp_bind. apply (owp_SendRequest sa rxa txa); [done|done|]. intros e1 H3 H4 _. cbn [negb].
    eapply (owp_sync_ls_loop sa rxa txa); [done|done|done|cbn [sc_env set_sc_env]; rewrite H3; exact Hrc|]. done. }
  apply owp_done in H as (r & c' & Hr' & -> & Hp). by exists c'.
Qed.

(** What is known of a path on the device comes over as it is: when [stat] or
    [lstat] succeeds there, the client has the same record; when it fails with an error
    of the table, the client has the same error, and with any other [EIO] - between
    systems whose errors have the numbers of the wire. *)
Theorem stat_roundtrip fuel id path rest buffer (d : D) :
  NUL ∉ path -> (Zlen path <= 1024)%Z -> id = ID_STAT_V2 \/ id = ID_LSTAT_V2 ->
  numbers_agree HA -> numbers_agree HD -> (forall st, stat_answer id path d = inr st -> well_formed st) ->
  rxd d = encode_request id (Zlen path) ++ path ++ rest ->
  exists d' m, handle_sync_command fuel sd buffer d = Done (true, buffer) d' /\ rxd d' = rest /\ txd d' = txd d ++ m /\
    forall (c : SyncConnection A) post, sc_fd c = sa -> sc_have_stat_v2 c = true -> rxa (sc_env c) = m ++ post ->
      exists a c', FinishStat (HE := HA) c = Done a c' /\ rxa (sc_env c') = post /\
        match stat_answer id path d with
        | inr st => a = Some st
        | inl x => a = None /\ (x ∈ map fst ERRNO_VALUES -> sc_errno c' = x) /\
                   (errno_code (HostErrno := HD) x ∉ map snd ERRNO_VALUES -> sc_errno c' = EIO)
        end.
Proof.
  intros Hn Hl Hid Ha Hd Hok Hrx. set (r := stat_answer id path d) in *.
  assert (H : owp False (handle_sync_command fuel sd buffer)
    (fun o d' => o = (true, buffer) /\ rxd d' = rest /\ txd d' = txd d ++ stat_reply id r) d).
  { eapply (owp_stat_request sd rxd txd); [done|done|exact Hid|exact Hrx|]. done. }
  apply owp_done in H as (o & d' & Hr & -> & H1 & H2). exists d', (stat_reply id r). split_and!; [done..|].
  intros c post Hc Hv Hrc.
  set (err := match r with inl x => errno_to_wire (errno_code (HostErrno := HD) x) | inr _ => 5%Z end).
  assert (Herr : (0 < err < 2 ^ 32)%Z).
  { unfold err. destruct r as [x|]; [|done]. rewrite (errno_to_wire_agrees HD) by done.
    destruct (decide (_ ∈ map snd ERRNO_VALUES)) as [Hin|]; [|done].
    assert (Forall (fun z => 0 < z < 2 ^ 32)%Z (map snd ERRNO_VALUES)) as Hf by by_decide.
    rewrite Forall_forall in Hf. by apply Hf. }
  assert (H : owp False (FinishStat (HE := HA)) (fun a c' => rxa (sc_env c') = post /\
      match (match r with inl _ => inl tt | inr st => inr st end : unit + stat_t) with
      | inr st => well_formed st -> a = Some st
      | inl tt => a = None /\ sc_errno c' = errno_of (HostErrno := HA) (errno_from_wire (HE := HA) (i32 err))
      end) c).
  { eapply (owp_FinishStat (HE := HA) sa rxa txa False id (match r with inl _ => inl tt | inr st => inr st end) post); [done|done|done|exact Herr| |].
    - rewrite Hrc. unfold err, stat_reply. by destruct r.
    - intros c' a Hp Hres. exact (conj Hp Hres). }
  apply owp_done in H as (a & c' & Hr' & Hp & Hres). exists a, c'. split_and!; [done..|].
  destruct r as [x|st]; [|by apply Hres, Hok]. destruct Hres as [Ha' He]. split; [done|]. rewrite He. by apply errno_crosses.
Qed.

End Both.

(** ** Examples *)

Definition data_dir : bytes := str "/data".
Definition two_files : list (bytes * bytes) := [(remote_file, some_text); (str "/data/b", str "x")].
Definition listing_box : box := box_with (encode_request ID_LIST (Zlen data_dir) ++ data_dir) two_files.

Lemma list_roundtrip_witness :
  exists d' m, handle_sync_command 5 box_conn empty_buffer listing_box = Done (true, empty_buffer) d' /\ bx_rx d' = [] /\
    bx_tx d' = bx_tx listing_box ++ m /\
    forall (c : SyncConnection box) post, sc_fd c = box_conn -> bx_rx (sc_env c) = m ++ post ->
      exists c', sync_ls 5 data_dir collect [] c = Done (true, map told (directory data_dir listing_box)) c' /\
        bx_rx (sc_env c') = post.
Proof.
  apply (list_roundtrip box_conn bx_rx bx_tx box_conn bx_rx bx_tx 5 data_dir [] empty_buffer listing_box).
  - by_decide.
  - by_decide.
  - by_decide.
  - by_decide.
  - by vm_compute.
Defined.

Example listing_has_both : map en_name (directory data_dir listing_box) = [str "a.txt"; str "b"].
Proof. by vm_compute. Qed.

Definition stat_box : box := box_with (encode_request ID_STAT_V2 (Zlen remote_file) ++ remote_file) two_files.

Lemma stat_roundtrip_witness :
  exists d' m, handle_sync_command 5 box_conn empty_buffer stat_box = Done (true, empty_buffer) d' /\ bx_rx d' = [] /\
    bx_tx d' = bx_tx stat_box ++ m /\
    forall (c : SyncConnection box) post, sc_fd c = box_conn -> sc_have_stat_v2 c = true -> bx_rx (sc_env c) = m ++ post ->
      exists a c', FinishStat c = Done a c' /\ bx_rx (sc_env c') = post /\
        match stat_answer ID_STAT_V2 remote_file stat_box with
        | inr st => a = Some st
        | inl x => a = None /\ (x ∈ map fst ERRNO_VALUES -> sc_errno c' = x) /\
                   (errno_code x ∉ map snd ERRNO_VALUES -> sc_errno c' = EIO)
        end.
Proof.
  apply (stat_roundtrip box_conn bx_rx bx_tx box_conn bx_rx bx_tx 5 ID_STAT_V2 remote_file [] empty_buffer stat_box).
  - by_decide.
  - by_decide.
  - by left.
  - exact linux_agrees.
  - exact linux_agrees.
  - intros st Hst. vm_compute in Hst. injection Hst as <-. split; by_decide.
  - by vm_compute.
Defined.

(** A missing file: the client knows why. *)
Example stat_missing :
  match handle_sync_command 5 box_conn empty_buffer (box_with (encode_request ID_STAT_V2 4 ++ str "/non") two_files) with
  | Done (true, _) d =>
      match FinishStat (client_on (box_with (bx_tx d) []) true) with
      | Done a c' => (a, sc_errno c')
      | _ => (Some zero_stat, E_NONE)
      end
  | _ => (Some zero_stat, E_NONE)
  end = (None, ENOENT).
Proof. by vm_compute. Qed.

(** Numbers of a system where [ELOOP] is not 40 (a Mac's): the lookup in the table of
    this host's numbers finds nothing for the wire's 40, and the client sees [EIO]. *)
Definition mac_errno : HostErrno := {|
  errno_code x := match x with ELOOP => 62 | ENAMETOOLONG => 63 | EOVERFLOW => 84 | _ => errno_code x end%Z;
  errno_of z := if (z =? 62)%Z then ELOOP else if (z =? 63)%Z then ENAMETOOLONG else if (z =? 84)%Z then EOVERFLOW else errno_of z;
|}.

Example errno_elsewhere :
  errno_of (HostErrno := mac_errno) (errno_from_wire (HE := mac_errno) (errno_to_wire (HE := linux_errno) (errno_code ELOOP))) = EIO.
Proof. by vm_compute. Qed.

(** A link whose data fills the buffer without a NUL: [symlink] reads on behind it. *)
Definition long_link : bytes :=
  let spec := spec_of (str "/data/l") (dec 0xa1ff) in
  encode_request ID_SEND (Zlen spec) ++ spec ++ frame (replicate (Z.to_nat SYNC_DATA_MAX) (byte_of 120)).

Example link_reads_past_buffer :
  match handle_sync_command 5 box_conn empty_buffer (box_with long_link []) with Crash _ => true | _ => false end = true.
Proof. by vm_compute. Qed.

(** A link whose data has no NUL: what the previous request left in the buffer is
    read behind it. *)
Definition short_link : bytes :=
  let spec := spec_of (str "/data/l") (dec 0xa1ff) in
  encode_request ID_SEND (Zlen spec) ++ spec ++ frame (str "ab").

Example link_reads_old_data :
  match handle_sync_command 5 box_conn (str "0123456789" ++ drop 10 empty_buffer) (box_with (short_link ++ encode_request ID_DONE 0) []) with
  | Done (_, buffer) _ => c_str buffer
  | _ => []
  end = str "ab23456789".
Proof. by vm_compute. Qed.
