(* ===== verification/Terminal.v ===== *)
(** * The client's side of a terminal (commandline.cpp, commandline.h)

    What the commands use of the system beside files and sockets, the streams of
    a command, and what is typed: a thread passes it to the device, and looks for
    escape sequences in it. *)

From S2P Require Import Prelude LibBase Packet AdbIo Transport World SocketSpec AdbUtils ShellProtocol.
From S2P Require Import FileSync AdbClient.

Definition STDIN_FD : Z := 0.
Definition STDOUT_FD : Z := 1.

(** A call and the type of its result; [T] is [struct termios], [TCSAFLUSH] is
    the action of [tcsetattr], and a window is its rows, columns and pixels. *)
Inductive tool_call (T : Type) : Type -> Type :=
| t_getenv (name : bytes) : tool_call T (option bytes)
| t_isatty (fd : Z) : tool_call T bool
| t_tcgetattr (fd : Z) : tool_call T (option T)
| t_tcsetattr (fd : Z) (t : T) : tool_call T unit
| t_window (fd : Z) : tool_call T (option (Z * Z * Z * Z))
| t_read_interruptible (fd n : Z) : tool_call T read_result
| t_read_stdin (n : Z) : tool_call T read_result
| t_close_stdin : tool_call T unit
| t_sndbuf (fd size : Z) : tool_call T unit
| t_lseek (fd offset : Z) : tool_call T (errno_t + Z)
| t_sleep (milliseconds : Z) : tool_call T unit
| t_getcwd : tool_call T (errno_t + bytes)
| t_homedir : tool_call T bytes
| t_dup2 (fd to : Z) : tool_call T unit
| t_execvp (file : bytes) (args : list bytes) : tool_call T (option errno_t)
| t_getopt_error (option : ascii) (needs_argument : bool) : tool_call T unit
| t_adb_server_main (is_daemon listen_all : bool) (spec : bytes) (ack_reply_fd : Z) : tool_call T Z
| t_adb_auth_keygen (filename : bytes) : tool_call T Z
| t_trace_auth : tool_call T unit
| t_pipe : tool_call T (errno_t + Z * Z)
| t_execv (path : bytes) (args : list bytes) : tool_call T (option errno_t)
| t_executable_path : tool_call T bytes
| t_getuid : tool_call T Z
| t_lseek_end (fd offset : Z) : tool_call T (errno_t + Z).
Arguments t_getenv {T}. Arguments t_isatty {T}. Arguments t_tcgetattr {T}. Arguments t_tcsetattr {T}.
Arguments t_window {T}. Arguments t_read_interruptible {T}. Arguments t_read_stdin {T}. Arguments t_close_stdin {T}.
Arguments t_sndbuf {T}. Arguments t_lseek {T}. Arguments t_sleep {T}. Arguments t_getcwd {T}. Arguments t_homedir {T}.
Arguments t_dup2 {T}. Arguments t_execvp {T}.
Arguments t_getopt_error {T}. Arguments t_adb_server_main {T}. Arguments t_adb_auth_keygen {T}. Arguments t_trace_auth {T}.
Arguments t_pipe {T}. Arguments t_execv {T}. Arguments t_executable_path {T}. Arguments t_getuid {T}. Arguments t_lseek_end {T}.

(** [raw_mode] is [cfmakeraw] with one character per read; [zero_tty] what a
    global variable holds before it is set; [fresh_buffer] the buffer of a new
    [ShellProtocol], and [stack_garbage] an array that was not set; [ratio_text]
    is ["%.2f"] of a quotient.  A fork and a thread are given what they do. *)
Class Tool (E : Type) := {
  tty : Type;
  raw_mode : tty -> tty;
  zero_tty : tty;
  tool_sys {A} : tool_call tty A -> E -> A * E;
  oprint : bytes -> E -> E;
  tool_fork : M E unit -> E -> (errno_t + Z) * E;
  start_tool_thread : M E unit -> E -> E;
  fresh_buffer : bytes;
  stack_garbage : bytes;
  BUFSIZ : Z;
  adb_version : bytes;
  ratio_text : Z -> Z -> bytes;
}.

Section Terminal.
Context {E : Type} {K : Kernel E} {SC : SysCalls E} {CO : ClientOs E} {TL : Tool E}.

Definition tool {A} (c : tool_call tty A) : M E A := fun e => let '(a, e') := tool_sys c e in Done a e'.

(** [printf] and [fwrite] to the two streams. *)
Definition out (s : bytes) : M E unit := modify (oprint s).
Definition err (s : bytes) : M E unit := modify (eprint s).

Definition syntax_error (text : bytes) : M E Z := err (str "adb: usage: ") ;;; err text ;;; err newline ;;; ret 1%Z.

(** ** Raw mode

    [g_saved_terminal_state] is a value that [stdin_raw_init] gives and
    [stdin_raw_restore] takes. *)

Definition stdin_raw_init : M E tty :=
  let* saved := tool (t_tcgetattr STDIN_FD) in
  match saved with
  | None => ret zero_tty
  | Some saved =>
      let* tio := tool (t_tcgetattr STDIN_FD) in
      match tio with
      | None => ret saved
      | Some tio => tool (t_tcsetattr STDIN_FD (raw_mode tio)) ;;; ret saved
      end
  end.

Definition stdin_raw_restore (saved : tty) : M E unit := tool (t_tcsetattr STDIN_FD saved).

(** ** The streams of a command *)

(** [StandardStreamsCallbackInterface], over the state [C] of the object. *)
Record callback (C : Type) := {
  OnStdout : bytes -> C -> M E C;
  OnStderr : bytes -> C -> M E C;
  OnDone : Z -> C -> M E (Z * C);
}.
Arguments OnStdout {C}. Arguments OnStderr {C}. Arguments OnDone {C}.

(** [OnStream] with a string to append to, or none. *)
Definition OnStream (print : bytes -> M E unit) (buffer : bytes) (string : option bytes) : M E (option bytes) :=
  match string with
  | Some s => ret (Some (s ++ buffer))
  | None => print buffer ;;; ret None
  end.

(** [DefaultStandardStreamsCallback]: the strings for the two streams. *)
Definition default_callback : callback (option bytes * option bytes) := {|
  OnStdout buffer c := let* s := OnStream out buffer (fst c) in ret (s, snd c);
  OnStderr buffer c := let* s := OnStream err buffer (snd c) in ret (fst c, s);
  OnDone status c := ret (status, c);
|}.

Definition DEFAULT_STANDARD_STREAMS : option bytes * option bytes := (None, None).

(** ** read_and_dump *)

(** A [char] as an [int]: it is signed. *)
Definition char_int (a : ascii) : Z := if (byte_val a <? 128)%Z then byte_val a else (byte_val a - 256)%Z.

Section Dump.
Context {C : Type} (cb : callback C).

(** A packet; the exit code it leaves. *)
Definition dump_packet (p : shell_protocol) (exit_code : Z) (c : C) : M E (Z * C) :=
  let data := take (Z.to_nat (sp_data_length p)) (sp_data p) in
  if (sp_id p =? kIdStdout)%Z then let* c := OnStdout cb data c in ret (exit_code, c)
  else if (sp_id p =? kIdStderr)%Z then let* c := OnStderr cb data c in ret (exit_code, c)
  else if (sp_id p =? kIdExit)%Z then ret (char_int (hd NUL (sp_data p)), c)
  else ret (exit_code, c).

Fixpoint dump_shell (fuel : nat) (p : shell_protocol) (exit_code : Z) (c : C) : M E (Z * C) :=
  match fuel with
  | O => no_fuel
  | S f =>
      let* (ok, p) := Read p in
      if negb ok then ret (exit_code, c) else
      let* (exit_code, c) := dump_packet p exit_code c in
      dump_shell f p exit_code c
  end.

Fixpoint dump_raw (fuel : nat) (fd : Z) (c : C) : M E C :=
  match fuel with
  | O => no_fuel
  | S f =>
      let* r := sys_read fd BUFSIZ in
      match r with
      | RdErr _ | RdOk [] => ret c
      | RdOk buffer => let* c := OnStdout cb buffer c in dump_raw f fd c
      end
  end.

Definition read_and_dump (fuel : nat) (fd : Z) (use_shell_protocol : bool) (c : C) : M E (Z * C) :=
  if (fd <? 0)%Z then ret (0%Z, c) else
  let* (exit_code, c) :=
    if use_shell_protocol then dump_shell fuel (new_shell_protocol fd fresh_buffer) 0 c
    else let* c := dump_raw fuel fd c in ret (0%Z, c) in
  OnDone cb exit_code c.

End Dump.

(** [read_and_dump] with the default streams; its result. *)
Definition dump_to_terminal (fuel : nat) (fd : Z) (use_shell_protocol : bool) : M E Z :=
  let* (status, _) := read_and_dump default_callback fuel fd use_shell_protocol DEFAULT_STANDARD_STREAMS in ret status.

(** [read_status_line]: as much as fits into [count] bytes with the NUL. *)
Fixpoint status_loop (fuel : nat) (fd count : Z) (buf : bytes) : M E bytes :=
  if negb (0 <? count)%Z then ret buf else
  match fuel with
  | O => no_fuel
  | S f =>
      let* r := sys_read fd count in
      match r with
      | RdErr _ | RdOk [] => ret buf
      | RdOk bs => status_loop f fd (count - Zlen bs) (buf ++ bs)
      end
  end.

Definition read_status_line (fd count : Z) : M E bytes :=
  let* buf := status_loop (Z.to_nat (count - 1)) fd (count - 1) [] in ret (c_str buf).

(** ** copy_to_file *)

Definition copy_read (inFd : Z) : M E read_result :=
  if (inFd =? STDIN_FD)%Z then tool (t_read_stdin 32768) else sys_read inFd 32768.

(** What [adb_write] does not take is lost. *)
Definition copy_write (outFd : Z) (buf : bytes) : M E unit :=
  if (outFd =? STDOUT_FD)%Z then out buf else let* _ := sys_write outFd buf in ret tt.

Fixpoint copy_loop (fuel : nat) (inFd outFd : Z) : M E unit :=
  match fuel with
  | O => no_fuel
  | S f =>
      let* r := copy_read inFd in
      match r with
      | RdErr _ | RdOk [] => ret tt
      | RdOk buf => copy_write outFd buf ;;; copy_loop f inFd outFd
      end
  end.

Definition copy_to_file (fuel : nat) (inFd outFd : Z) : M E unit :=
  let* saved := if (inFd =? STDIN_FD)%Z then let* s := stdin_raw_init in ret (Some s) else ret None in
  copy_loop fuel inFd outFd ;;;
  match saved with Some s => stdin_raw_restore s | None => ret tt end.

Definition write_zeros (bytes fd : Z) : M E unit := copy_write fd (replicate (Z.to_nat bytes) NUL).

(** ** What is typed *)

Definition put_text (bs : bytes) (p : shell_protocol) : shell_protocol :=
  {| sp_fd := sp_fd p; sp_id := sp_id p; sp_data := bs ++ drop (length bs) (sp_data p);
     sp_data_length := sp_data_length p; sp_bytes_left := sp_bytes_left p |}.

Definition WritePacket (id length : Z) (p : shell_protocol) : M E (bool * shell_protocol) :=
  let* e := get in Write (Z.to_nat length + 5 + refusals (sp_fd p) e) id length p.

(** [snprintf] cuts the text to the buffer, but gives its whole length. *)
Definition window_text (rows cols x_pixels y_pixels : Z) : bytes :=
  dec rows ++ [byte_of 120] ++ dec cols ++ [byte_of 44] ++ dec x_pixels ++ [byte_of 120] ++ dec y_pixels.

Definition send_window_size_change (fd : Z) (shell : option shell_protocol) : M E (option shell_protocol) :=
  match shell with
  | None => ret None
  | Some p =>
      let* ws := tool (t_window fd) in
      match ws with
      | None => ret (Some p)
      | Some (rows, cols, x, y) =>
          let text := window_text rows cols x y in
          let kept := take (Z.to_nat (data_capacity p) - 1) text ++ [NUL] in
          let* (_, p) := WritePacket kIdWindowSizeChange (Zlen text + 1) (put_text kept p) in
          ret (Some p)
      end
  end.

Inductive EscapeState := kMidFlow | kStartOfLine | kInEscape.

(** What to do with a character: nothing, leave, or send some text. *)
Inductive escape_action := Swallow | Disconnect | Pass (text : bytes).

Definition is_newline (ch : ascii) : bool := Ascii.eqb ch (byte_of 10) || Ascii.eqb ch (byte_of 13).

Definition escape_step (escape_char : ascii) (state : EscapeState) (ch : ascii) : EscapeState * escape_action :=
  let next := if is_newline ch then kStartOfLine else kMidFlow in
  if Ascii.eqb ch escape_char then
    match state with
    | kStartOfLine => (kInEscape, Swallow)
    | _ => (kMidFlow, Pass [ch])
    end
  else
    match state with
    | kInEscape => if Ascii.eqb ch (byte_of 46) then (state, Disconnect) else (next, Pass [escape_char; ch])
    | _ => (next, Pass [ch])
    end.

Record StdinReadArgs := {
  stdin_fd : Z;
  write_fd : Z;
  raw_stdin : bool;
  protocol : option shell_protocol;
  escape_char : ascii;
}.

Definition parses_escapes (a : StdinReadArgs) : bool := raw_stdin a && negb (Ascii.eqb (escape_char a) NUL).

(** Sending: [None] when it fails. *)
Definition send_typed (a : StdinReadArgs) (p : option shell_protocol) (text : bytes) : M E (option (option shell_protocol)) :=
  match p with
  | Some p =>
      let* (ok, p) := WritePacket kIdStdin (Zlen text) (put_text text p) in
      ret (if ok then Some (Some p) else None)
  | None =>
      let* e := get in
      let* r := WriteFdExactly (length text + refusals (write_fd a) e) (write_fd a) text in
      ret (if wx_bool r then Some None else None)
  end.

Fixpoint stdin_loop (fuel : nat) (a : StdinReadArgs) (saved : tty) (state : EscapeState) (p : option shell_protocol) : M E unit :=
  match fuel with
  | O => no_fuel
  | S f =>
      let size := if parses_escapes a then 1%Z else match p with Some p => data_capacity p | None => BUFSIZ end in
      let* r := tool (t_read_interruptible (stdin_fd a) size) in
      match r with
      | RdErr EINTR => let* p := send_window_size_change (stdin_fd a) p in stdin_loop f a saved state p
      | RdErr _ | RdOk [] =>
          match p with
          | Some p => let* _ := WritePacket kIdCloseStdin 0 p in ret tt
          | None => ret tt
          end
      | RdOk ((ch :: _) as text) =>
          let '(state, action) := if parses_escapes a then escape_step (escape_char a) state ch else (state, Pass text) in
          match action with
          | Swallow => stdin_loop f a saved state p
          | Disconnect =>
              err ([byte_of 13; byte_of 10] ++ str "[ disconnected ]" ++ [byte_of 13; byte_of 10]) ;;;
              stdin_raw_restore saved ;;;
              exit_with 0
          | Pass text =>
              let* sent := send_typed a p text in
              match sent with
              | Some p => stdin_loop f a saved state p
              | None => ret tt
              end
          end
      end
  end.

Definition stdin_read_thread_loop (fuel : nat) (a : StdinReadArgs) (saved : tty) : M E unit :=
  let* p := send_window_size_change (stdin_fd a) (protocol a) in
  stdin_loop fuel a saved kStartOfLine p.

End Terminal.
Arguments OnStdout {E C}. Arguments OnStderr {E C}. Arguments OnDone {E C}.
