(* ===== verification/LinePrinter.v ===== *)
(** * Lines on the terminal, and the emulator's console (line_printer.cpp, console.cpp) *)

From S2P Require Import Prelude LibBase Packet AdbIo Transport World SocketSpec Requests Services.
From S2P Require Import FileSync AdbClient SyncClient Terminal.

(** ** LinePrinter *)

(** Lengths are [size_t]: for a terminal narrower than the dots the length to
    keep wraps around, and [substr] throws past the end of the string. *)
Definition ElideMiddle {W} (s : bytes) (width : Z) : M W bytes :=
  if (width <? Zlen s + 3)%Z then
    let elide_size := (u64 (width - 3) / 2)%Z in
    let from := u64 (Zlen s - elide_size) in
    check (from <=? Zlen s)%Z "std::out_of_range" ;;;
    ret (take (Z.to_nat elide_size) s ++ str "..." ++ drop (Z.to_nat from) s)
  else ret s.

Record LinePrinter := { smart_terminal_ : bool; have_blank_line_ : bool }.

Section Printer.
Context {E : Type} {K : Kernel E} {SC : SysCalls E} {CO : ClientOs E} {TL : Tool E}.

Definition new_line_printer : M E LinePrinter :=
  let* term := tool (t_getenv (str "TERM")) in
  let* tty := tool (t_isatty 1) in
  ret {| smart_terminal_ := tty && match term with Some t => negb (bool_decide (t = str "dumb")) | None => false end;
         have_blank_line_ := true |}.

Definition Print (to_print : bytes) (info : bool) (p : LinePrinter) : M E LinePrinter :=
  if negb (smart_terminal_ p) then out (to_print ++ newline) ;;; ret p else
  out [byte_of 13] ;;;
  if info then
    let* size := tool (t_window 0) in
    let* to_print := match size with
                     | Some (_, cols, _, _) => if (cols =? 0)%Z then ret to_print else ElideMiddle to_print cols
                     | None => ret to_print
                     end in
    out to_print ;;;
    out (byte_of 27 :: str "[K") ;;;
    ret {| smart_terminal_ := smart_terminal_ p; have_blank_line_ := false |}
  else
    out to_print ;;; out newline ;;;
    ret {| smart_terminal_ := smart_terminal_ p; have_blank_line_ := true |}.

Definition keep_info_line (p : LinePrinter) : M E LinePrinter :=
  when (negb (have_blank_line_ p)) (out newline) ;;;
  ret {| smart_terminal_ := smart_terminal_ p; have_blank_line_ := true |}.

(** What a connection for file synchronisation printed. *)
Definition print_printed (l : printed) (p : LinePrinter) : M E LinePrinter :=
  match l with
  | INFO s => Print s true p
  | WARNING s | ERROR s => Print s false p
  | KeepInfoLine => keep_info_line p
  | STDOUT s => out s ;;; ret p
  end.

Fixpoint print_all (l : list printed) (p : LinePrinter) : M E LinePrinter :=
  match l with
  | [] => ret p
  | x :: l => let* p := print_printed x p in print_all l p
  end.

Definition show_lines (l : list printed) : M E unit :=
  let* p := new_line_printer in let* _ := print_all l p in ret tt.

(** ** The emulator's console *)

Context {B : Build} {PF : Platform} {LB : LibBase} {N : Net E}.

Definition adb_construct_auth_command : M E bytes :=
  let* home := tool t_homedir in
  let* r := call (c_ReadFileToString (c_str (home ++ str "/.emulator_console_auth_token"))) in
  match r with
  | inl _ | inr [] => ret []
  | inr token => ret (str "auth " ++ token ++ newline)
  end.

(** [sscanf(s, "emulator-%d", &port) == 1] *)
Definition scan_emulator (s : bytes) : option Z :=
  let prefix := str "emulator-" in
  if is_prefix prefix s then scan_int (drop (length prefix) s) else None.

(** The port of the last emulator in the list, and how many there were, up to two. *)
Fixpoint find_emulators (devices : list bytes) (port : Z) (count : nat) : option (Z * nat) :=
  match devices with
  | [] => Some (port, count)
  | device :: rest =>
      match scan_emulator (c_str device) with
      | None => find_emulators rest port count
      | Some port => match count with O => find_emulators rest port 1 | S _ => None end
      end
  end.

Definition adb_get_emulator_console_port (o : client_options) (serial : option bytes) : M E Z :=
  match serial with
  | Some serial => ret (default (-1)%Z (scan_emulator serial))
  | None =>
      let* r := adb_query o (str "host:devices") in
      match r with
      | inl error => err (str "error: no emulator connected: " ++ c_str error ++ newline) ;;; ret (-1)%Z
      | inr devices =>
          match find_emulators (Split devices (byte_of 10)) 0 0 with
          | None => err (str "error: more than one emulator detected; use -s" ++ newline) ;;; ret (-1)%Z
          | Some (_, O) => err (str "error: no emulator detected" ++ newline) ;;; ret (-1)%Z
          | Some (port, _) => ret port
          end
      end
  end.

Definition connect_to_console (o : client_options) (serial : option bytes) : M E Z :=
  let* port := adb_get_emulator_console_port o serial in
  if (port =? -1)%Z then ret (-1)%Z else
  let* (fd, error) := network_loopback_client port in
  if (fd =? -1)%Z then
    err (str "error: could not connect to TCP port " ++ dec port ++ str ": " ++ c_str error ++ newline) ;;; ret (-1)%Z
  else ret fd.

(** The arguments, with spaces between them and a newline after the last. *)
Fixpoint console_arguments (args : list bytes) : bytes :=
  match args with
  | [] => []
  | [a] => a ++ newline
  | a :: rest => a ++ byte_of 32 :: console_arguments rest
  end.

Fixpoint drain (fuel : nat) (fd : Z) : M E unit :=
  match fuel with
  | O => no_fuel
  | S f => let* r := sys_read fd BUFSIZ in match r with RdOk (_ :: _) => drain f fd | _ => ret tt end
  end.

Definition adb_send_emulator_command (fuel : nat) (o : client_options) (args : list bytes) (serial : option bytes) : M E Z :=
  let* fd := connect_to_console o serial in
  if (fd =? -1)%Z then ret 1%Z else
  let* auth := adb_construct_auth_command in
  let* r := WriteFully fd (auth ++ console_arguments args ++ str "quit" ++ newline) in
  match r with
  | WX_fail e => err (str "error: cannot write to emulator: " ++ strerror e ++ newline) ;;; close_fd fd ;;; ret 1%Z
  | WX_ok => drain fuel fd ;;; close_fd fd ;;; ret 0%Z
  end.

End Printer.
