(* ===== verification/ShellClient.v ===== *)
(** * Shell commands of the client (commandline.cpp)

    The request for the shell service, the session with it, and the commands
    that are a shell command on the device. *)

From S2P Require Import Prelude LibBase Packet AdbIo Transport World SocketSpec AdbUtils ShellProtocol Services.
From S2P Require Import FileSync AdbClient Terminal.

(** ** getopt, for the options [+e:ntTx]

    The options before the first operand; [next] is what is left of the word
    that is read. *)

Inductive shell_option := opt_e (arg : bytes) | opt_n | opt_t | opt_T | opt_x.

Inductive getopt_result :=
| GotOption (o : shell_option) (next : bytes) (args : list bytes)
| GotError (c : ascii) (needs_argument : bool)
| GotEnd (args : list bytes).

Definition char (s : string) : ascii := hd NUL (str s).
Definition dash : ascii := byte_of 45.

(** A character of a word of options. *)
Definition getopt_char (c : ascii) (next : bytes) (args : list bytes) : getopt_result :=
  if Ascii.eqb c (char "e") then
    match next, args with
    | _ :: _, _ => GotOption (opt_e next) [] args
    | [], arg :: args => GotOption (opt_e arg) [] args
    | [], [] => GotError c true
    end
  else if Ascii.eqb c (char "n") then GotOption opt_n next args
  else if Ascii.eqb c (char "t") then GotOption opt_t next args
  else if Ascii.eqb c (char "T") then GotOption opt_T next args
  else if Ascii.eqb c (char "x") then GotOption opt_x next args
  else GotError c false.

Definition getopt (next : bytes) (args : list bytes) : getopt_result :=
  match next with
  | c :: next => getopt_char c next args
  | [] =>
      match args with
      | [] => GotEnd []
      | (d :: c :: word) :: rest =>
          if negb (Ascii.eqb d dash) then GotEnd args
          else if Ascii.eqb c dash && bool_decide (word = []) then GotEnd rest
          else getopt_char c word rest
      | _ => GotEnd args
      end
  end.

Inductive PtyAllocationMode := kPtyAuto | kPtyNo | kPtyYes | kPtyDefinitely.

Record shell_options := { so_escape_char : ascii; so_use_shell_protocol : bool; so_tty : PtyAllocationMode }.

Definition strstr (s pattern : bytes) : bool := existsb (fun i => is_prefix pattern (drop i s)) (seq 0 (S (length s))).

Section ShellClient.
Context {E : Type} {K : Kernel E} {SC : SysCalls E} {B : Build} {PF : Platform} {LB : LibBase} {N : Net E}.
Context {CO : ClientOs E} {TL : Tool E}.

Definition error_line (s : bytes) : M E unit := err (str "error: " ++ c_str s ++ newline).

(** Returns a shell service string with the indicated arguments and command. *)
Definition ShellServiceString (use_shell_protocol : bool) (type_arg command : bytes) : M E bytes :=
  let* term := if use_shell_protocol then tool (t_getenv (str "TERM")) else ret None in
  let args := (if use_shell_protocol then kShellServiceArgShellProtocol ::
                 match term with Some t => [str "TERM=" ++ t] | None => [] end else []) ++
              match type_arg with [] => [] | _ => [type_arg] end in
  ret (str "shell" ++ (match args with [] => [] | _ => str "," end) ++ c_str (Join args (byte_of 44)) ++ str ":" ++ c_str command).

(** ** RemoteShell *)

Definition RemoteShell (fuel : nat) (o : client_options) (use_shell_protocol : bool) (type_arg : bytes) (escape_char : ascii)
    (command : bytes) : M E Z :=
  let* service_string := ShellServiceString use_shell_protocol type_arg command in
  if (MAX_PAYLOAD_V1 <? Zlen service_string)%Z && negb use_shell_protocol then
    err (str "error: shell command too long" ++ newline) ;;; ret 1%Z else
  let raw_stdin := bool_decide (type_arg = kShellServiceArgPty) || bool_decide (type_arg = []) && bool_decide (command = []) in
  let* (fd, error) := adb_connect o service_string in
  if (fd <? 0)%Z then error_line error ;;; ret 1%Z else
  let args := {| stdin_fd := STDIN_FD; write_fd := fd; raw_stdin := raw_stdin;
                 protocol := if use_shell_protocol then Some (new_shell_protocol fd fresh_buffer) else None;
                 escape_char := escape_char |} in
  let* saved := if raw_stdin then stdin_raw_init else ret zero_tty in
  modify (start_tool_thread (stdin_read_thread_loop fuel args saved)) ;;;
  let* exit_code := dump_to_terminal fuel fd use_shell_protocol in
  when raw_stdin (stdin_raw_restore saved) ;;;
  ret exit_code.

(** ** adb_shell *)

(** [inl]: what [adb_shell] returns. *)
Definition apply_option (opt : shell_option) (s : shell_options) : M E (Z + shell_options) :=
  match opt with
  | opt_e arg =>
      let none := bool_decide (arg = str "none") in
      if negb ((Zlen arg =? 1)%Z || none) then
        let* r := syntax_error (str "-e requires a single-character argument or 'none'") in ret (inl r)
      else ret (inr {| so_escape_char := if none then NUL else hd NUL arg;
                       so_use_shell_protocol := so_use_shell_protocol s; so_tty := so_tty s |})
  | opt_n => tool t_close_stdin ;;; ret (inr s)
  | opt_x => ret (inr {| so_escape_char := char "~"; so_use_shell_protocol := false; so_tty := kPtyDefinitely |})
  | opt_t => ret (inr {| so_escape_char := so_escape_char s; so_use_shell_protocol := so_use_shell_protocol s;
                         so_tty := match so_tty s with kPtyYes | kPtyDefinitely => kPtyDefinitely | _ => kPtyYes end |})
  | opt_T => ret (inr {| so_escape_char := so_escape_char s; so_use_shell_protocol := so_use_shell_protocol s; so_tty := kPtyNo |})
  end.

(** The options and the operands. *)
Fixpoint parse_shell_options (fuel : nat) (next : bytes) (args : list bytes) (s : shell_options) :
    M E (Z + shell_options * list bytes) :=
  match fuel with
  | O => no_fuel
  | S f =>
      match getopt next args with
      | GotEnd args => ret (inr (s, args))
      | GotError c needs_argument => tool (t_getopt_error c needs_argument) ;;; ret (inl 1%Z)
      | GotOption opt next args =>
          let* r := apply_option opt s in
          match r with
          | inl r => ret (inl r)
          | inr s => parse_shell_options f next args s
          end
      end
  end.

(** Each option takes a character. *)
Definition option_fuel (next : bytes) (args : list bytes) : nat := S (length next + length (concat args)).

Definition shell_type_of (tty : PtyAllocationMode) (is_interactive : bool) : M E bytes :=
  match tty with
  | kPtyNo => ret kShellServiceArgRaw
  | kPtyAuto =>
      let* t := tool (t_isatty STDIN_FD) in
      ret (if negb t || negb is_interactive then kShellServiceArgRaw else kShellServiceArgPty)
  | kPtyYes =>
      let* t := tool (t_isatty STDIN_FD) in
      if t then ret kShellServiceArgPty else
      err (str "Remote PTY will not be allocated because stdin is not a terminal." ++ newline ++
           str "Use multiple -t options to force remote PTY allocation." ++ newline) ;;;
      ret kShellServiceArgRaw
  | kPtyDefinitely => ret kShellServiceArgPty
  end.

(** [args]: what follows [shell]. *)
Definition adb_shell (fuel : nat) (o : client_options) (args : list bytes) : M E Z :=
  let* r := adb_get_feature_set o in
  match r with
  | inl error => error_line error ;;; ret 1%Z
  | inr features =>
      let shell2 := CanUseFeature features kFeatureShell2 in
      let* r := parse_shell_options (option_fuel [] args) [] args
                  {| so_escape_char := char "~"; so_use_shell_protocol := shell2;
                     so_tty := if shell2 then kPtyAuto else kPtyDefinitely |} in
      match r with
      | inl r => ret r
      | inr (s, operands) =>
          let* shell_type_arg := shell_type_of (so_tty s) (bool_decide (operands = [])) in
          let pty := bool_decide (shell_type_arg = kShellServiceArgPty) in
          if negb (so_use_shell_protocol s) && negb pty then
            err (str "error: " ++ (if shell2 then str "-x" else str "device") ++ str " only supports allocating a pty" ++ newline) ;;;
            ret 1%Z
          else
            RemoteShell fuel o (so_use_shell_protocol s) (if so_use_shell_protocol s then shell_type_arg else [])
              (so_escape_char s) (Join operands (byte_of 32))
      end
  end.

(** ** wait-for-device *)

Definition wait_type (type : TransportType) : bytes :=
  match type with kTransportUsb => str "usb" | kTransportLocal => str "local" | _ => str "any" end.

Definition wait_types : list bytes := [str "any"; str "local"; str "usb"].
Definition wait_states : list bytes := [str "any"; str "bootloader"; str "device"; str "recovery"; str "sideload"].

(** The request; [inl]: the text of the error. *)
Definition wait_request (service : bytes) (type : TransportType) : bytes + bytes :=
  let check_state (components : list bytes) (state : bytes) : bytes + bytes :=
    if bool_decide (state ∈ wait_states) then inr (Join components dash)
    else inl (str "adb: unknown state " ++ c_str state ++
              str "; expected 'any', 'bootloader', 'device', 'recovery', or 'sideload'") in
  match Split service dash with
  | [wait; for_; state] => check_state [wait; for_; wait_type type; state] state
  | [wait; for_; type; state] =>
      if bool_decide (type ∈ wait_types) then check_state [wait; for_; type; state] state
      else inl (str "adb: unknown type " ++ c_str type ++ str "; expected 'any', 'local', or 'usb'")
  | _ => inl (str "adb: couldn't parse 'wait-for' command: " ++ service)
  end.

Definition wait_for_device (o : client_options) (service : bytes) (type : TransportType) (serial : option bytes) : M E bool :=
  match wait_request service type with
  | inl error => err (error ++ newline) ;;; ret false
  | inr request => adb_command o (format_host_command (c_str request) type serial)
  end.

(** ** send_shell_command *)

(** The connection, once the device can be reached. *)
Fixpoint connect_for_command (fuel : nat) (o : client_options) (type : TransportType) (serial : option bytes) (command : bytes)
    (disable_shell_protocol : bool) : M E (option (Z * bool)) :=
  match fuel with
  | O => no_fuel
  | S f =>
      let* use := if disable_shell_protocol then ret (Some false) else
                    let* r := adb_get_feature_set o in
                    ret (match r with inl _ => None | inr features => Some (CanUseFeature features kFeatureShell2) end) in
      let* connected :=
        match use with
        | None => ret None
        | Some use_shell_protocol =>
            let* service_string := ShellServiceString use_shell_protocol [] command in
            let* (fd, _) := adb_connect o service_string in
            ret (if (0 <=? fd)%Z then Some (fd, use_shell_protocol) else None)
        end in
      match connected with
      | Some c => ret (Some c)
      | None =>
          err (str "- waiting for device -" ++ newline) ;;;
          let* ok := wait_for_device o (str "wait-for-device") type serial in
          if ok then connect_for_command f o type serial command disable_shell_protocol else ret None
      end
  end.

(** The callback's object is part of the result. *)
Definition send_shell_command {C} (cb : callback C) (fuel : nat) (o : client_options) (type : TransportType)
    (serial : option bytes) (command : bytes) (disable_shell_protocol : bool) (c : C) : M E (Z * C) :=
  let* r := connect_for_command fuel o type serial command disable_shell_protocol in
  match r with
  | None => ret (1%Z, c)
  | Some (fd, use_shell_protocol) =>
      let* r := read_and_dump cb fuel fd use_shell_protocol c in
      close_fd fd ;;;
      ret r
  end.

Definition run_shell_command (fuel : nat) (o : client_options) (type : TransportType) (serial : option bytes) (command : bytes)
    (disable_shell_protocol : bool) : M E Z :=
  let* (status, _) := send_shell_command default_callback fuel o type serial command disable_shell_protocol DEFAULT_STANDARD_STREAMS in
  ret status.

(** The arguments, quoted. *)
Definition quoted_args (args : list bytes) : bytes := concat (map (fun a => byte_of 32 :: escape_arg a) args).

Definition logcat (fuel : nat) (o : client_options) (type : TransportType) (serial : option bytes) (name : bytes) (args : list bytes) :
    M E Z :=
  let* log_tags := tool (t_getenv (str "ANDROID_LOG_TAGS")) in
  let quote := [byte_of 34] in
  let cmd := str "export ANDROID_LOG_TAGS=" ++ quote ++ escape_arg (default [] log_tags) ++ quote ++ str "; exec logcat" ++
             (if bool_decide (name = str "longcat") then str " -v long" else []) ++ quoted_args args in
  run_shell_command fuel o type serial cmd true.

Definition pm_command (fuel : nat) (o : client_options) (type : TransportType) (serial : option bytes) (argv : list bytes) : M E Z :=
  run_shell_command fuel o type serial (str "pm" ++ quoted_args argv) false.

Definition delete_file (fuel : nat) (o : client_options) (type : TransportType) (serial : option bytes) (filename : bytes) : M E Z :=
  run_shell_command fuel o type serial (str "rm -f " ++ escape_arg filename) false.

Definition keep_data_text (command : bytes) : bytes :=
  str "The -k option uninstalls the application while retaining the data/cache." ++ newline ++
  str "At the moment, there is no way to remove the remaining data." ++ newline ++
  str "You will have to reinstall the application with the same signature, and fully uninstall it." ++ newline ++
  str "If you truly wish to continue, execute 'adb shell " ++ command.

Definition uninstall_app (fuel : nat) (o : client_options) (type : TransportType) (serial : option bytes) (argv : list bytes) : M E Z :=
  if bool_decide (str "-k" ∈ argv) then out (keep_data_text (str "cmd package uninstall -k'." ++ newline)) ;;; ret 1%Z
  else run_shell_command fuel o type serial (str "cmd package" ++ quoted_args argv) false.

Definition uninstall_app_legacy (fuel : nat) (o : client_options) (type : TransportType) (serial : option bytes) (argv : list bytes) :
    M E Z :=
  if bool_decide (str "-k" ∈ drop 1 argv) then out (keep_data_text (str "pm uninstall -k'" ++ newline ++ str ".")) ;;; ret 1%Z
  else pm_command fuel o type serial argv.

(** ** adb root *)

Fixpoint root_loop (fuel : nat) (fd bytes_left : Z) (buf : bytes) : M E (errno_t + bytes) :=
  if negb (0 <? bytes_left)%Z then ret (inr buf) else
  match fuel with
  | O => no_fuel
  | S f =>
      let* r := sys_read fd bytes_left in
      match r with
      | RdOk [] => ret (inr buf)
      | RdErr e => ret (inl e)
      | RdOk bs => root_loop f fd (bytes_left - Zlen bs) (buf ++ bs)
      end
  end.

(** [strstr] looks in an array that nothing ends. *)
Definition adb_root (o : client_options) (command : bytes) : M E bool :=
  let* (fd, error) := adb_connect o (command ++ str ":") in
  if (fd <? 0)%Z then
    err (str "adb: unable to connect for " ++ command ++ str ": " ++ c_str error ++ newline) ;;; ret false else
  let* r := root_loop 256 fd 256 [] in
  match r with
  | inl e => err (str "adb: error while reading for " ++ command ++ str ": " ++ strerror e ++ newline) ;;; close_fd fd ;;; ret false
  | inr buf =>
      if (Zlen buf =? 256)%Z then
        err (str "adb: unexpected output length for " ++ command ++ newline) ;;; close_fd fd ;;; ret false
      else
        let* _ := WriteFully STDOUT_FD buf in
        let array := buf ++ take (256 - length buf) stack_garbage in
        match buf with
        | [] => tool (t_sleep 3000) ;;; close_fd fd ;;; ret true
        | _ =>
            check (bool_decide (NUL ∈ array)) "strstr past the array" ;;;
            when (strstr (c_str array) (str "restarting")) (tool (t_sleep 3000)) ;;;
            close_fd fd ;;; ret true
        end
  end.

End ShellClient.
