(* ===== verification/Bugreport.v ===== *)
(** * adb bugreport (bugreport.cpp)

    The lines of [bugreportz], as they come in pieces over the shell protocol,
    and the file that is pulled at the end. *)

From S2P Require Import Prelude LibBase Packet AdbIo Transport World SocketSpec AdbUtils.
From S2P Require Import FileSync AdbClient SyncClient SyncCommands Terminal LinePrinter ShellClient.

Definition BUGZ_BEGIN_PREFIX : bytes := str "BEGIN:".
Definition BUGZ_PROGRESS_PREFIX : bytes := str "PROGRESS:".
Definition BUGZ_OK_PREFIX : bytes := str "OK:".
Definition BUGZ_FAIL_PREFIX : bytes := str "FAIL:".

(** The last place of a text, as [rfind] gives it. *)
Fixpoint rfind_from (n : nat) (s pattern : bytes) : option nat :=
  if is_prefix pattern (drop n s) then Some n else match n with O => None | S n => rfind_from n s pattern end.
Definition rfind (s pattern : bytes) : option nat := rfind_from (length s) s pattern.

(** [std::stoi]: it throws without a number, or with one that is no [int]. *)
Definition stoi {W} (s : bytes) : M W Z :=
  let t := skip_spaces s in
  let '(neg, t) := match t with
                   | a :: t' => if Ascii.eqb a (byte_of 45) then (true, t') else if Ascii.eqb a (byte_of 43) then (false, t') else (false, t)
                   | [] => (false, [])
                   end in
  match t with
  | a :: _ =>
      if is_digit a then
        let z := (if neg : bool then - num_acc 10 t 0 else num_acc 10 t 0)%Z in
        check ((- 2 ^ 31 <=? z) && (z <? 2 ^ 31))%Z "std::out_of_range" ;;; ret z
      else crash "std::invalid_argument"
  | [] => crash "std::invalid_argument"
  end.

(** [br_]: the line printer of the object that runs the command. *)
Record bugreport := {
  br_printer : LinePrinter;
  src_file_ : bytes;
  dest_dir_ : bytes;
  dest_file_ : bytes;
  line_message_ : bytes;
  invalid_lines_ : list bytes;
  show_progress_ : bool;
  status_ : Z;
  line_ : bytes;
  last_progress_percentage_ : Z;
}.

Definition set_br_printer (v : LinePrinter) (x : bugreport) : bugreport :=
  {| br_printer := v; src_file_ := src_file_ x; dest_dir_ := dest_dir_ x;
     dest_file_ := dest_file_ x; line_message_ := line_message_ x;
     invalid_lines_ := invalid_lines_ x; show_progress_ := show_progress_ x;
     status_ := status_ x; line_ := line_ x;
     last_progress_percentage_ := last_progress_percentage_ x |}.
Definition set_src_file_ (v : bytes) (x : bugreport) : bugreport :=
  {| br_printer := br_printer x; src_file_ := v; dest_dir_ := dest_dir_ x;
     dest_file_ := dest_file_ x; line_message_ := line_message_ x;
     invalid_lines_ := invalid_lines_ x; show_progress_ := show_progress_ x;
     status_ := status_ x; line_ := line_ x;
     last_progress_percentage_ := last_progress_percentage_ x |}.
Definition set_dest_file_ (v : bytes) (x : bugreport) : bugreport :=
  {| br_printer := br_printer x; src_file_ := src_file_ x; dest_dir_ := dest_dir_ x;
     dest_file_ := v; line_message_ := line_message_ x; invalid_lines_ := invalid_lines_ x;
     show_progress_ := show_progress_ x; status_ := status_ x; line_ := line_ x;
     last_progress_percentage_ := last_progress_percentage_ x |}.
Definition set_line_message_ (v : bytes) (x : bugreport) : bugreport :=
  {| br_printer := br_printer x; src_file_ := src_file_ x; dest_dir_ := dest_dir_ x;
     dest_file_ := dest_file_ x; line_message_ := v; invalid_lines_ := invalid_lines_ x;
     show_progress_ := show_progress_ x; status_ := status_ x; line_ := line_ x;
     last_progress_percentage_ := last_progress_percentage_ x |}.
Definition set_invalid_lines_ (v : list bytes) (x : bugreport) : bugreport :=
  {| br_printer := br_printer x; src_file_ := src_file_ x; dest_dir_ := dest_dir_ x;
     dest_file_ := dest_file_ x; line_message_ := line_message_ x; invalid_lines_ := v;
     show_progress_ := show_progress_ x; status_ := status_ x; line_ := line_ x;
     last_progress_percentage_ := last_progress_percentage_ x |}.
Definition set_status_ (v : Z) (x : bugreport) : bugreport :=
  {| br_printer := br_printer x; src_file_ := src_file_ x; dest_dir_ := dest_dir_ x;
     dest_file_ := dest_file_ x; line_message_ := line_message_ x;
     invalid_lines_ := invalid_lines_ x; show_progress_ := show_progress_ x; status_ := v;
     line_ := line_ x; last_progress_percentage_ := last_progress_percentage_ x |}.
Definition set_line_ (v : bytes) (x : bugreport) : bugreport :=
  {| br_printer := br_printer x; src_file_ := src_file_ x; dest_dir_ := dest_dir_ x;
     dest_file_ := dest_file_ x; line_message_ := line_message_ x;
     invalid_lines_ := invalid_lines_ x; show_progress_ := show_progress_ x;
     status_ := status_ x; line_ := v;
     last_progress_percentage_ := last_progress_percentage_ x |}.
Definition set_last_progress_percentage_ (v : Z) (x : bugreport) : bugreport :=
  {| br_printer := br_printer x; src_file_ := src_file_ x; dest_dir_ := dest_dir_ x;
     dest_file_ := dest_file_ x; line_message_ := line_message_ x;
     invalid_lines_ := invalid_lines_ x; show_progress_ := show_progress_ x;
     status_ := status_ x; line_ := line_ x; last_progress_percentage_ := v |}.

Section Bugreport.
Context {E : Type} {K : Kernel E} {SC : SysCalls E} {B : Build} {PF : Platform} {LB : LibBase} {N : Net E}.
Context {CO : ClientOs E} {HE : HostErrno} {CK : Clock E} {TL : Tool E}.

Definition SetLineMessage (action : bytes) (b : bugreport) : bugreport :=
  set_line_message_ (action ++ str " " ++ Basename (dest_file_ b)) b.

Definition new_bugreport (printer : LinePrinter) (dest_dir dest_file : bytes) (show_progress : bool) : bugreport :=
  SetLineMessage (str "generating")
    {| br_printer := printer; src_file_ := []; dest_dir_ := dest_dir; dest_file_ := dest_file; line_message_ := [];
       invalid_lines_ := []; show_progress_ := show_progress; status_ := 0; line_ := []; last_progress_percentage_ := 0 |}.

Definition SetSrcFile (path : bytes) (b : bugreport) : bugreport :=
  let b := set_src_file_ path b in
  match dest_dir_ b with
  | [] => b
  | _ => SetLineMessage (str "generating") (set_dest_file_ (Basename path) b)
  end.

Definition UpdateProgress (message : bytes) (progress_percentage : Z) (p : LinePrinter) : M E LinePrinter :=
  Print (str "[" ++ pad_left 3 (dec progress_percentage) ++ str "%] " ++ c_str message) true p.

(** The two numbers of a line of progress. *)
Definition progress_texts (line : bytes) : bytes * bytes :=
  let idx1 := default 0 (rfind line BUGZ_PROGRESS_PREFIX) + length BUGZ_PROGRESS_PREFIX in
  match rfind line (str "/") with
  | Some idx2 => ((if idx1 <=? idx2 then take (idx2 - idx1) (drop idx1 line) else drop idx1 line), drop (S idx2) line)
  | None => (drop idx1 line, line)
  end.

Definition percentage {W} (progress total : Z) : M W Z :=
  check ((- 2 ^ 31 <=? progress * 100) && (progress * 100 <? 2 ^ 31))%Z "signed overflow" ;;;
  check (negb (total =? 0)%Z) "division by zero" ;;;
  check (negb ((progress * 100 =? - 2 ^ 31) && (total =? -1)))%Z "signed overflow" ;;;
  ret (Z.quot (progress * 100) total).

Definition ProcessLine (line : bytes) (b : bugreport) : M E bugreport :=
  match line with
  | [] => ret b
  | _ =>
      if StartsWith line BUGZ_BEGIN_PREFIX then ret (SetSrcFile (c_str (drop (length BUGZ_BEGIN_PREFIX) line)) b)
      else if StartsWith line BUGZ_OK_PREFIX then ret (SetSrcFile (c_str (drop (length BUGZ_OK_PREFIX) line)) b)
      else if StartsWith line BUGZ_FAIL_PREFIX then
        err (str "adb: device failed to take a zipped bugreport: " ++ c_str (drop (length BUGZ_FAIL_PREFIX) line) ++ newline) ;;;
        ret (set_status_ (-1) b)
      else if show_progress_ b && StartsWith line BUGZ_PROGRESS_PREFIX then
        let '(t1, t2) := progress_texts line in
        let* progress := stoi t1 in
        let* total := stoi t2 in
        let* p := percentage progress total in
        if negb (p =? 0)%Z && (p <=? last_progress_percentage_ b)%Z then ret b else
        let* printer := UpdateProgress (line_message_ b) p (br_printer b) in
        ret (set_br_printer printer (set_last_progress_percentage_ p b))
      else ret (set_invalid_lines_ (invalid_lines_ b ++ [line]) b)
  end.

Fixpoint bugreport_stdout (buffer : bytes) (b : bugreport) : M E bugreport :=
  match buffer with
  | [] => ret b
  | c :: buffer =>
      if Ascii.eqb c (byte_of 10) then
        let* b := ProcessLine (line_ b) b in bugreport_stdout buffer (set_line_ [] b)
      else bugreport_stdout buffer (set_line_ (line_ b ++ [c]) b)
  end.

Definition warn_invalid (lines : list bytes) : M E unit :=
  match lines with
  | [] => ret tt
  | _ =>
      err (str "WARNING: bugreportz generated " ++ dec (Zlen lines) ++
           str " line(s) with unknown commands, device might not support zipped bugreports:" ++ newline) ;;;
      iter_list (fun line => err (byte_of 9 :: c_str line ++ newline)) lines ;;;
      err (str "If the zipped bugreport was not generated, try 'adb bugreport' instead." ++ newline)
  end.

(** The result of a command for files, after its lines are printed. *)
Definition sync_command (m : E -> outcome E (bool * list printed)) : M E bool :=
  let* (ok, lines) := m in show_lines lines ;;; ret ok.

Definition pull_destination (b : bugreport) : bytes :=
  match dest_dir_ b with [] => dest_file_ b | dir => c_str dir ++ str "/" ++ c_str (dest_file_ b) end.

Definition bugreport_done (fuel depth : nat) (o : client_options) (b : bugreport) : M E (Z * bugreport) :=
  let* b := ProcessLine (line_ b) b in
  warn_invalid (invalid_lines_ b) ;;;
  if negb (status_ b =? 0)%Z then ret (status_ b, b) else
  match src_file_ b with
  | [] =>
      err (str "bugreportz did not return a '" ++ BUGZ_OK_PREFIX ++ str "' or '" ++ BUGZ_FAIL_PREFIX ++ str "' line" ++ newline) ;;;
      ret ((-1)%Z, b)
  | src =>
      let destination := pull_destination b in
      let b := SetLineMessage (str "pulling") b in
      let* ok := sync_command (do_sync_pull fuel depth o [c_str src] (c_str destination) true (Some (c_str (line_message_ b)))) in
      let b := set_status_ (if ok then 0 else 1)%Z b in
      when (negb ok)
        (err (str "Bug report finished but could not be copied to '" ++ c_str destination ++ str "'." ++ newline ++
              str "Try to run 'adb pull " ++ c_str src ++ str " <directory>'" ++ newline ++
              str "to copy it to a directory that can be written." ++ newline)) ;;;
      ret (status_ b, b)
  end.

Definition bugreport_callback (fuel depth : nat) (o : client_options) : callback bugreport := {|
  OnStdout := bugreport_stdout;
  OnStderr buffer b := err buffer ;;; ret b;
  OnDone _ b := bugreport_done fuel depth o b;
|}.

(** ** DoIt *)

Definition is_dir (path : bytes) : M E bool :=
  let* st := call (c_stat (c_str path)) in
  ret (match st with inr st => S_ISDIR (st_mode st) | inl _ => false end).

(** The directory and the file the report goes to; [inl]: the result. *)
Definition bugreport_destination (arg : option bytes) : M E (Z + bytes * bytes) :=
  match arg with
  | None =>
      let* cwd := tool t_getcwd in
      match cwd with
      | inl e => err (str "adb: getcwd failed: " ++ strerror e ++ newline) ;;; ret (inl 1%Z)
      | inr dir => ret (inr (dir, []))
      end
  | Some arg =>
      let* d := is_dir arg in
      ret (inr (if d : bool then (arg, []) else ([], arg)))
  end.

Definition zip_name (dest_file : bytes) : bytes :=
  match dest_file with
  | [] => str "bugreport.zip"
  | _ => if EndsWithIgnoreCase dest_file (str ".zip") then dest_file else dest_file ++ str ".zip"
  end.

(** [args]: what follows [bugreport]. *)
Definition Bugreport_DoIt (fuel depth : nat) (o : client_options) (type : TransportType) (serial : option bytes) (args : list bytes) :
    M E Z :=
  let* printer := new_line_printer in
  if 1 <? length args then syntax_error (str "adb bugreport [PATH]") else
  let* (status, texts) := send_shell_command default_callback fuel o type serial (str "bugreportz -v") false (Some [], Some []) in
  let bugz_version := Trim (default [] (snd texts)) in
  let bugz_output := Trim (default [] (fst texts)) in
  if negb (status =? 0)%Z || bool_decide (bugz_version = []) then
    match args with
    | [] =>
        err (str "Failed to get bugreportz version, which is only available on devices running Android 7.0 or later." ++ newline ++
             str "Trying a plain-text bug report instead." ++ newline) ;;;
        run_shell_command fuel o type serial (str "bugreport") false
    | _ =>
        err (str "Failed to get bugreportz version: 'bugreportz -v' returned '" ++ c_str bugz_output ++ str "' (code " ++ dec status ++
             str ")." ++ newline ++ str "If the device does not run Android 7.0 or above, try 'adb bugreport' instead." ++ newline) ;;;
        ret (if (status =? 0)%Z then (-1)%Z else status)
    end
  else
    let* dest := bugreport_destination (head args) in
    match dest with
    | inl r => ret r
    | inr (dest_dir, dest_file) =>
        let dest_file := zip_name dest_file in
        let old := bool_decide (bugz_version = str "1.0") in
        when old
          (err (str "Bugreport is in progress and it could take minutes to complete." ++ newline ++
                str "Please be patient and do not cancel or disconnect your device until it completes." ++ newline)) ;;;
        let* (status, _) := send_shell_command (bugreport_callback fuel depth o) fuel o type serial
                              (if old then str "bugreportz" else str "bugreportz -p") false
                              (new_bugreport printer dest_dir dest_file (negb old)) in
        ret status
    end.

End Bugreport.
