(* ===== verification/ClientCommands.v ===== *)
(** * Commands that move a file (commandline.cpp)

    Sideloading, backup and restore, installing, and the arguments of push and
    pull. *)

From S2P Require Import Prelude LibBase Packet AdbIo Transport World SocketSpec AdbUtils.
From S2P Require Import FileSync AdbClient SyncClient SyncCommands Terminal LinePrinter ShellClient Bugreport.

Definition CHUNK_SIZE : Z := 65536.
Definition SIDELOAD_HOST_BLOCK_SIZE : Z := CHUNK_SIZE.
Definition EXIT_FAILURE : Z := 1.

(** The last place of a character. *)
Definition strrchr (s : bytes) (c : ascii) : option nat := rfind s [c].

Section Commands.
Context {E : Type} {K : Kernel E} {SC : SysCalls E} {B : Build} {PF : Platform} {LB : LibBase} {N : Net E}.
Context {CO : ClientOs E} {HE : HostErrno} {CK : Clock E} {TL : Tool E}.

Definition err_line (s : bytes) : M E unit := err (s ++ newline).

(** The text of the error an answer has, or what was there before. *)
Definition status_error (fd : Z) : M E bytes :=
  let* st := adb_status fd in ret (match st with inl error => error | inr _ => [] end).

(** ** Sideloading *)

(** The blocks of a file to an old device; [false] after an error. *)
Fixpoint legacy_loop (fuel : nat) (filename : bytes) (in_fd out_fd size total : Z) : M E bool :=
  if negb (0 <? size)%Z then ret true else
  match fuel with
  | O => no_fuel
  | S f =>
      let xfer := Z.min size CHUNK_SIZE in
      let* r := ReadFdExactly in_fd xfer in
      match r with
      | RX_fail e => err_line (str "adb: failed to read data from " ++ filename ++ str ": " ++ strerror e) ;;; ret false
      | RX_ok buf =>
          let* r := WriteFully out_fd buf in
          match r with
          | WX_fail _ =>
              let* error := status_error out_fd in
              err_line (str "adb: failed to write data: " ++ c_str error) ;;; ret false
          | WX_ok =>
              let size := (size - xfer)%Z in
              out (str "sending: '" ++ filename ++ str "' " ++ pad_left 4 (dec (i32 (100 - (100 * size) / total))) ++ str "%    " ++
                   [byte_of 13]) ;;;
              legacy_loop f filename in_fd out_fd size total
          end
      end
  end.

Definition adb_sideload_legacy (o : client_options) (filename : bytes) (in_fd size : Z) : M E Z :=
  let* (out_fd, error) := adb_connect o (str "sideload:" ++ dec size) in
  if (out_fd <? 0)%Z then
    err_line (str "adb: pre-KitKat sideload connection failed: " ++ c_str error) ;;; ret (-1)%Z else
  tool (t_sndbuf out_fd CHUNK_SIZE) ;;;
  let* ok := legacy_loop (Z.to_nat size) filename in_fd out_fd size size in
  if negb ok then close_fd out_fd ;;; ret (-1)%Z else
  out newline ;;;
  let* st := adb_status out_fd in
  match st with
  | inl error => err_line (str "adb: error response: " ++ c_str error) ;;; close_fd out_fd ;;; ret (-1)%Z
  | inr _ => close_fd out_fd ;;; ret 0%Z
  end.

(** The part of a file that a block is: where it starts and how long it is;
    [None]: past the end.  The product is one of [int]s. *)
Definition block_range {W} (block st_size : Z) : M W (option (Z * Z)) :=
  let product := (block * SIDELOAD_HOST_BLOCK_SIZE)%Z in
  check ((- 2 ^ 31 <=? product) && (product <? 2 ^ 31))%Z "signed overflow" ;;;
  let offset := u64 product in
  if (u64 st_size <=? offset)%Z then ret None else
  ret (Some (offset, if (u64 st_size <? u64 (offset + SIDELOAD_HOST_BLOCK_SIZE))%Z then u64 (st_size - offset)
                     else SIDELOAD_HOST_BLOCK_SIZE)).

(** A block to the device: how many bytes went, or the text of the error. *)
Definition serve_block (package_fd device_fd st_size block : Z) : M E (bytes + Z) :=
  let* range := block_range block st_size in
  match range with
  | None => ret (inl (str "adb: failed to read block " ++ dec block ++ str " past end"))
  | Some (offset, to_write) =>
      let* r := tool (t_lseek package_fd offset) in
      let sought := match r with inr at_ => (at_ =? i32 offset)%Z | inl _ => (-1 =? i32 offset)%Z end in
      if negb sought then
        ret (inl (str "adb: failed to seek to package block: " ++ strerror (match r with inl e => e | inr _ => E_NONE end))) else
      let* r := ReadFdExactly package_fd to_write in
      match r with
      | RX_fail e => ret (inl (str "adb: failed to read package block: " ++ strerror e))
      | RX_ok buf =>
          let* r := WriteFully device_fd buf in
          match r with
          | WX_ok => ret (inr to_write)
          | WX_fail _ =>
              let* error := status_error device_fd in
              ret (inl (str "adb: failed to write data '" ++ c_str error ++ str "' *"))
          end
      end
  end.

Definition or_one (z : Z) : Z := if (z =? 0)%Z then 1 else z.

Fixpoint serve_loop (fuel : nat) (filename : bytes) (package_fd device_fd st_size xfer last_percent : Z) : M E Z :=
  match fuel with
  | O => no_fuel
  | S f =>
      let* r := ReadFdExactly device_fd 8 in
      match r with
      | RX_fail e => err_line (str "adb: failed to read command: " ++ strerror e) ;;; ret (-1)%Z
      | RX_ok buf =>
          let command := c_str buf in
          if bool_decide (command = str "DONEDONE") then
            out ([byte_of 13] ++ str "Total xfer: " ++ ratio_text xfer (or_one st_size) ++ str "x" ++
                 replicate (length filename + 10) (byte_of 32) ++ newline) ;;;
            ret 0%Z
          else
            let* r := serve_block package_fd device_fd st_size (i32 (strtol command 10)) in
            match r with
            | inl error => err_line error ;;; ret (-1)%Z
            | inr n =>
                let xfer := u64 (xfer + n) in
                let percent := i32 (u64 (xfer * 47) / u64 (or_one st_size)) in
                when (negb (percent =? last_percent)%Z)
                  (out ([byte_of 13] ++ str "serving: '" ++ filename ++ str "'  (~" ++ dec percent ++ str "%)    ")) ;;;
                serve_loop f filename package_fd device_fd st_size xfer percent
            end
      end
  end.

Definition adb_sideload_host (fuel : nat) (o : client_options) (filename : bytes) : M E Z :=
  let* st := call (c_stat filename) in
  match st with
  | inl e => err_line (str "adb: failed to stat file " ++ filename ++ str ": " ++ strerror e) ;;; ret (-1)%Z
  | inr sb =>
      let* r := call (c_open filename O_RDONLY 0) in
      match r with
      | inl e => err_line (str "adb: failed to open file " ++ filename ++ str ": " ++ strerror e) ;;; ret (-1)%Z
      | inr package_fd =>
          let* (device_fd, error) := adb_connect o (str "sideload-host:" ++ dec (i32 (st_size sb)) ++ str ":" ++ dec SIDELOAD_HOST_BLOCK_SIZE) in
          if (device_fd <? 0)%Z then
            err_line (str "adb: sideload connection failed: " ++ c_str error) ;;;
            err_line (str "adb: trying pre-KitKat sideload method...") ;;;
            let* r := adb_sideload_legacy o filename package_fd (i32 (st_size sb)) in
            when (negb (device_fd =? -1)%Z) (close_fd device_fd) ;;;
            close_fd package_fd ;;; ret r
          else
            tool (t_sndbuf device_fd SIDELOAD_HOST_BLOCK_SIZE) ;;;
            let* r := serve_loop fuel filename package_fd device_fd (st_size sb) 0 (-1) in
            close_fd device_fd ;;; close_fd package_fd ;;; ret r
      end
  end.

(** ** ppp *)

Definition ppp_child (fd : Z) (options : list bytes) : M E unit :=
  tool (t_dup2 fd STDIN_FD) ;;; tool (t_dup2 fd STDOUT_FD) ;;;
  close_fd 2 ;;; close_fd fd ;;;
  let* r := tool (t_execvp (str "pppd") (str "pppd" :: options)) in
  match r with
  | None => ret tt
  | Some e => err_line (str "execing pppd: " ++ strerror e) ;;; exit_with (-1)
  end.

(** [args]: the service and the options. *)
Definition ppp (o : client_options) (args : list bytes) : M E Z :=
  match args with
  | [] => syntax_error (str "adb ppp <adb service name> [ppp opts]")
  | service :: options =>
      let* (fd, error) := adb_connect o service in
      if (fd <? 0)%Z then
        err_line (str "adb: could not open adb service " ++ service ++ str ": " ++ c_str error) ;;; ret 1%Z else
      let* r := (fun e => let '(r, e') := tool_fork (ppp_child fd options) e in Done r e') in
      match r with
      | inl e => err_line (str "from fork(): " ++ strerror e) ;;; ret 1%Z
      | inr _ => close_fd fd ;;; ret 0%Z
      end
  end.

(** ** backup and restore *)

(** The first [-f] and the name after it, taken out of the arguments; [None]:
    there is no name. *)
Fixpoint take_filename (args : list bytes) : option (option bytes * list bytes) :=
  match args with
  | [] => Some (None, [])
  | a :: rest =>
      if bool_decide (a = str "-f") then
        match rest with
        | [] => None
        | filename :: rest => Some (Some filename, rest)
        end
      else
        match take_filename rest with
        | Some (f, rest) => Some (f, a :: rest)
        | None => None
        end
  end.

Definition backup (fuel : nat) (o : client_options) (args : list bytes) : M E Z :=
  match take_filename args with
  | None => syntax_error (str "backup -f passed with no filename")
  | Some (_, []) => syntax_error (str "backup either needs a list of packages or -all/-shared")
  | Some (f, packages) =>
      let filename := default (str "backup.ab") f in
      call (c_unlink filename) ;;;
      let* r := call (c_creat filename 0x1a0) in
      match r with
      | inl e =>
          err_line (str "adb: backup unable to create file '" ++ filename ++ str "': " ++ strerror e) ;;; ret EXIT_FAILURE
      | inr outFd =>
          let* (fd, error) := adb_connect o (str "backup:" ++ quoted_args packages) in
          if (fd <? 0)%Z then
            err_line (str "adb: unable to connect for backup: " ++ c_str error) ;;; close_fd outFd ;;; ret EXIT_FAILURE else
          out (str "Now unlock your device and confirm the backup operation..." ++ newline) ;;;
          copy_to_file fuel fd outFd ;;;
          close_fd fd ;;; close_fd outFd ;;; ret 0%Z
      end
  end.

Definition restore (fuel : nat) (o : client_options) (args : list bytes) : M E Z :=
  match args with
  | [filename] =>
      let* r := call (c_open filename O_RDONLY 0) in
      match r with
      | inl e => err_line (str "adb: unable to open file " ++ filename ++ str ": " ++ strerror e) ;;; ret (-1)%Z
      | inr tarFd =>
          let* (fd, error) := adb_connect o (str "restore:") in
          if (fd <? 0)%Z then
            err_line (str "adb: unable to connect for restore: " ++ c_str error) ;;; close_fd tarFd ;;; ret (-1)%Z else
          out (str "Now unlock your device and confirm the restore operation." ++ newline) ;;;
          copy_to_file fuel tarFd fd ;;;
          write_zeros 1024 fd ;;;
          copy_to_file fuel fd STDOUT_FD ;;;
          close_fd fd ;;; close_fd tarFd ;;; ret 0%Z
      end
  | _ => syntax_error (str "restore requires an argument")
  end.

(** ** The arguments of push and pull *)

Record copy_args := { ca_srcs : list bytes; ca_copy_attrs : bool; ca_sync : bool; ca_ignore_flags : bool }.

(** [None]: an option that is not known. *)
Definition copy_arg (a : copy_args) (arg : bytes) : option copy_args :=
  if ca_ignore_flags a || negb (bool_decide (head arg = Some dash)) then
    Some {| ca_srcs := ca_srcs a ++ [arg]; ca_copy_attrs := ca_copy_attrs a; ca_sync := ca_sync a; ca_ignore_flags := ca_ignore_flags a |}
  else if bool_decide (arg = str "-p") then Some a
  else if bool_decide (arg = str "-a") then
    Some {| ca_srcs := ca_srcs a; ca_copy_attrs := true; ca_sync := ca_sync a; ca_ignore_flags := ca_ignore_flags a |}
  else if bool_decide (arg = str "--sync") then
    Some {| ca_srcs := ca_srcs a; ca_copy_attrs := ca_copy_attrs a; ca_sync := true; ca_ignore_flags := ca_ignore_flags a |}
  else if bool_decide (arg = str "--") then
    Some {| ca_srcs := ca_srcs a; ca_copy_attrs := ca_copy_attrs a; ca_sync := ca_sync a; ca_ignore_flags := true |}
  else None.

Fixpoint parse_copy_args (args : list bytes) (a : copy_args) : bytes + copy_args :=
  match args with
  | [] => inr a
  | arg :: rest => match copy_arg a arg with Some a => parse_copy_args rest a | None => inl arg end
  end.

(** The sources, and the destination if there are two names. *)
Definition parse_push_pull_args (args : list bytes) (dst : option bytes) : M E (list bytes * option bytes * bool * bool) :=
  match parse_copy_args args {| ca_srcs := []; ca_copy_attrs := false; ca_sync := false; ca_ignore_flags := false |} with
  | inl arg => let* _ := syntax_error (str "unrecognized option '" ++ arg ++ str "'") in exit_with 1
  | inr a =>
      ret (match ca_srcs a with
           | _ :: _ :: _ => (removelast (ca_srcs a), last (ca_srcs a), ca_copy_attrs a, ca_sync a)
           | _ => (ca_srcs a, dst, ca_copy_attrs a, ca_sync a)
           end)
  end.

(** ** Installing *)

Definition is_apk (file : bytes) : bool := EndsWithIgnoreCase file (str ".apk").
Definition succeeded (buf : bytes) : bool := is_prefix (str "Success") buf.

Definition _use_legacy_install (o : client_options) : M E bool :=
  let* r := adb_get_feature_set o in
  match r with
  | inl error => error_line error ;;; ret true
  | inr features => ret (negb (CanUseFeature features kFeatureCmd))
  end.

(** [argv]: [install] and its arguments. *)
Definition install_app (fuel : nat) (o : client_options) (argv : list bytes) : M E Z :=
  let file := default [] (last argv) in
  if negb (is_apk file) then syntax_error (str "filename doesn't end .apk: " ++ file) else
  let* st := call (c_stat file) in
  match st with
  | inl e => err_line (str "adb: failed to stat " ++ file ++ str ": " ++ strerror e) ;;; ret 1%Z
  | inr sb =>
      let* r := call (c_open file O_RDONLY 0) in
      match r with
      | inl e => err_line (str "adb: failed to open " ++ file ++ str ": " ++ strerror e) ;;; ret 1%Z
      | inr localFd =>
          let cmd := str "exec:cmd package" ++ quoted_args (removelast argv) ++ str " -S " ++ dec (u64 (st_size sb)) in
          let* (remoteFd, error) := adb_connect o cmd in
          if (remoteFd <? 0)%Z then
            err_line (str "adb: connect error for write: " ++ c_str error) ;;; close_fd localFd ;;; ret 1%Z else
          copy_to_file fuel localFd remoteFd ;;;
          let* buf := read_status_line remoteFd BUFSIZ in
          close_fd localFd ;;; close_fd remoteFd ;;;
          if succeeded buf then out buf ;;; ret 0%Z
          else err (str "adb: failed to install " ++ file ++ str ": " ++ buf) ;;; ret 1%Z
      end
  end.

(** The arguments from the end for as long as they are packages: the index of
    the first, and the size of those that can be found. *)
Fixpoint find_apks (argv : list bytes) (i : nat) (first_apk : option nat) (total_size : Z) : M E (option nat * Z) :=
  match i with
  | O => ret (first_apk, total_size)
  | S i =>
      let file := default [] (argv !! i) in
      if is_apk file then
        let* st := call (c_stat file) in
        find_apks argv i (Some i) (match st with inr sb => u64 (total_size + st_size sb) | inl _ => total_size end)
      else ret (first_apk, total_size)
  end.

(** The number in the last brackets of an answer. *)
Definition session_of (buf : bytes) : Z :=
  if succeeded buf then
    match strrchr buf (char "["), strrchr buf (char "]") with
    | Some start, Some end_ =>
        i32 (strtol (if start <? end_ then take (end_ - S start) (drop (S start) buf) else drop (S start) buf) 10)
    | _, _ => (-1)%Z
    end
  else (-1)%Z.

(** One package of a session: whether it went. *)
Definition install_write (fuel : nat) (o : client_options) (install_cmd : bytes) (session_id : Z) (i : nat) (file : bytes) : M E bool :=
  let* st := call (c_stat file) in
  match st with
  | inl e => err_line (str "adb: failed to stat " ++ file ++ str ": " ++ strerror e) ;;; ret false
  | inr sb =>
      let cmd := install_cmd ++ str " install-write -S " ++ dec (u64 (st_size sb)) ++ str " " ++ dec session_id ++ str " " ++
                 dec (Z.of_nat i) ++ str "_" ++ c_str (Basename file) ++ str " -" in
      let* r := call (c_open file O_RDONLY 0) in
      match r with
      | inl e => err_line (str "adb: failed to open " ++ file ++ str ": " ++ strerror e) ;;; ret false
      | inr localFd =>
          let* (remoteFd, error) := adb_connect o cmd in
          if (remoteFd <? 0)%Z then
            err_line (str "adb: connect error for write: " ++ c_str error) ;;; close_fd localFd ;;; ret false else
          copy_to_file fuel localFd remoteFd ;;;
          let* buf := read_status_line remoteFd BUFSIZ in
          close_fd localFd ;;; close_fd remoteFd ;;;
          if succeeded buf then ret true
          else err_line (str "adb: failed to write " ++ file) ;;; err buf ;;; ret false
      end
  end.

Fixpoint write_apks (fuel : nat) (o : client_options) (install_cmd : bytes) (session_id : Z) (i : nat) (files : list bytes) : M E bool :=
  match files with
  | [] => ret true
  | file :: files =>
      let* ok := install_write fuel o install_cmd session_id i file in
      if ok : bool then write_apks fuel o install_cmd session_id (S i) files else ret false
  end.

Definition finalize_session (o : client_options) (install_cmd : bytes) (session_id : Z) (success : bool) : M E Z :=
  let service := install_cmd ++ str " install-" ++ (if success then str "commit" else str "abandon") ++ str " " ++ dec session_id in
  let* (fd, error) := adb_connect o service in
  if (fd <? 0)%Z then err_line (str "adb: connect error for finalize: " ++ c_str error) ;;; ret EXIT_FAILURE else
  let* buf := read_status_line fd BUFSIZ in
  close_fd fd ;;;
  if succeeded buf then out buf ;;; ret 0%Z
  else err_line (str "adb: failed to finalize session") ;;; err buf ;;; ret EXIT_FAILURE.

Definition install_multiple_app (fuel : nat) (o : client_options) (argv : list bytes) : M E Z :=
  let* (first_apk, total_size) := find_apks argv (length argv) None 0 in
  match first_apk with
  | None => syntax_error (str "need APK file on command line")
  | Some first_apk =>
      let* legacy := _use_legacy_install o in
      let install_cmd := if legacy : bool then str "exec:pm" else str "exec:cmd package" in
      let cmd := install_cmd ++ str " install-create -S " ++ dec total_size ++ quoted_args (drop 1 (take first_apk argv)) in
      let* (fd, error) := adb_connect o cmd in
      if (fd <? 0)%Z then err_line (str "adb: connect error for create: " ++ c_str error) ;;; ret EXIT_FAILURE else
      let* buf := read_status_line fd BUFSIZ in
      close_fd fd ;;;
      let session_id := session_of buf in
      if (session_id <? 0)%Z then
        err_line (str "adb: failed to create session") ;;; err buf ;;; ret EXIT_FAILURE
      else
        let* success := write_apks fuel o install_cmd session_id first_apk (drop first_apk argv) in
        finalize_session o install_cmd session_id success
  end.

(** The last argument that is a package. *)
Fixpoint last_apk_from (argv : list bytes) (i : nat) : option nat :=
  match i with
  | O => None
  | S i => if is_apk (default [] (argv !! i)) then Some i else last_apk_from argv i
  end.

Definition install_app_legacy (fuel depth : nat) (o : client_options) (type : TransportType) (serial : option bytes) (argv : list bytes) :
    M E Z :=
  let sd := bool_decide (str "-s" ∈ drop 1 argv) in
  match last_apk_from argv (length argv) with
  | None => syntax_error (str "need APK file on command line")
  | Some i =>
      let file := default [] (argv !! i) in
      let apk_dest := (if sd then str "/sdcard/tmp/" else str "/data/local/tmp/") ++ c_str (Basename file) in
      let* ok := sync_command (do_sync_push fuel depth o [file] apk_dest false) in
      let* result := if ok : bool then pm_command fuel o type serial (<[i := apk_dest]> argv) else ret (-1)%Z in
      let* _ := delete_file fuel o type serial apk_dest in
      ret result
  end.

End Commands.
