(* ===== verification/Commandline.v ===== *)
(** * The command line (commandline.cpp, adb.cpp)

    [adb_commandline]: the options before the command, the environment, the
    start of the server, and which command is run.  [launch_server] (adb.cpp)
    gives a new process the arguments that [adb_commandline] takes there.  A
    loop without a bound takes [fuel]; [depth] bounds the directories of the
    commands that copy. *)

From S2P Require Import Prelude LibBase Packet AdbIo Transport World SocketSpec AdbUtils.
From S2P Require Import FileSync AdbClient SyncClient SyncCommands Terminal LinePrinter ShellClient Bugreport ClientCommands.

Definition DEFAULT_ADB_PORT : Z := 5037.

(** The lines of the help. *)
Definition help_lines : list bytes :=
  let q := [byte_of 34] in
  [str "global options:";
   str " -a         listen on all network interfaces, not just localhost";
   str " -d         use USB device (error if multiple devices connected)";
   str " -e         use TCP/IP device (error if multiple TCP/IP devices available)";
   str " -s SERIAL  use device with given serial (overrides $ANDROID_SERIAL)";
   str " -H         name of adb server host [default=localhost]";
   str " -P         port of adb server [default=5037]";
   str " -L SOCKET  listen on given socket for adb server [default=tcp:localhost:5037]";
   [];
   str "general commands:";
   str " devices [-l]             list connected devices (-l for long output)";
   str " help                     show this help message";
   str " version                  show version num";
   [];
   str "networking:";
   str " connect HOST[:PORT]      connect to a device via TCP/IP [default port=5555]";
   str " disconnect [HOST[:PORT]]";
   str "     disconnect from given TCP/IP device [default port=5555], or all";
   str " forward --list           list all forward socket connections";
   str " forward [--no-rebind] LOCAL REMOTE";
   str "     forward socket connection using:";
   str "       tcp:<port> (<local> may be " ++ q ++ str "tcp:0" ++ q ++ str " to pick any open port)";
   str "       localabstract:<unix domain socket name>";
   str "       localreserved:<unix domain socket name>";
   str "       localfilesystem:<unix domain socket name>";
   str "       dev:<character device name>";
   str "       jdwp:<process pid> (remote only)";
   str " forward --remove LOCAL   remove specific forward socket connection";
   str " forward --remove-all     remove all forward socket connections";
   str " ppp TTY [PARAMETER...]   run PPP over USB";
   str " reverse --list           list all reverse socket connections from device";
   str " reverse [--no-rebind] REMOTE LOCAL";
   str "     reverse socket connection using:";
   str "       tcp:<port> (<remote> may be " ++ q ++ str "tcp:0" ++ q ++ str " to pick any open port)";
   str "       localabstract:<unix domain socket name>";
   str "       localreserved:<unix domain socket name>";
   str "       localfilesystem:<unix domain socket name>";
   str " reverse --remove REMOTE  remove specific reverse socket connection";
   str " reverse --remove-all     remove all reverse socket connections from device";
   [];
   str "file transfer:";
   str " push [--sync] LOCAL... REMOTE";
   str "     copy local files/directories to device";
   str "     --sync: only push files that are newer on the host than the device";
   str " pull [-a] REMOTE... LOCAL";
   str "     copy files/dirs from device";
   str "     -a: preserve file timestamp and mode";
   str " sync [system|vendor|oem|data|all]";
   str "     sync a local build from $ANDROID_PRODUCT_OUT to the device (default all)";
   str "     -l: list but don't copy";
   [];
   str "shell:";
   str " shell [-e ESCAPE] [-n] [-Tt] [-x] [COMMAND...]";
   str "     run remote shell command (interactive shell if no command given)";
   str "     -e: choose escape character, or " ++ q ++ str "none" ++ q ++ str "; default '~'";
   str "     -n: don't read from stdin";
   str "     -T: disable PTY allocation";
   str "     -t: force PTY allocation";
   str "     -x: disable remote exit codes and stdout/stderr separation";
   str " emu COMMAND              run emulator console command";
   [];
   str "app installation:";
   str " install [-lrtsdg] PACKAGE";
   str " install-multiple [-lrtsdpg] PACKAGE...";
   str "     push package(s) to the device and install them";
   str "     -l: forward lock application";
   str "     -r: replace existing application";
   str "     -t: allow test packages";
   str "     -s: install application on sdcard";
   str "     -d: allow version code downgrade (debuggable packages only)";
   str "     -p: partial application install (install-multiple only)";
   str "     -g: grant all runtime permissions";
   str " uninstall [-k] PACKAGE";
   str "     remove this app package from the device";
   str "     '-k': keep the data and cache directories";
   [];
   str "backup/restore:";
   str "   to show usage run " ++ q ++ str "adb shell bu help" ++ q ++ [];
   [];
   str "debugging:";
   str " bugreport [PATH]";
   str "     write bugreport to given PATH [default=bugreport.zip];";
   str "     if PATH is a directory, the bug report is saved in that directory.";
   str "     devices that don't support zipped bug reports output to stdout.";
   str " jdwp                     list pids of processes hosting a JDWP transport";
   str " logcat                   show device log (logcat --help for more)";
   [];
   str "security:";
   str " disable-verity           disable dm-verity checking on userdebug builds";
   str " enable-verity            re-enable dm-verity checking on userdebug builds";
   str " keygen FILE";
   str "     generate adb public/private key; private key stored in FILE,";
   str "     public key stored in FILE.pub (existing files overwritten)";
   [];
   str "scripting:";
   str " wait-for[-TRANSPORT]-STATE";
   str "     wait for device to be in the given state";
   str "     State: device, recovery, sideload, or bootloader";
   str "     Transport: usb, local, or any [default=any]";
   str " get-state                print offline | bootloader | device";
   str " get-serialno             print <serial-number>";
   str " get-devpath              print <device-path>";
   str " remount";
   str "     remount /system, /vendor, and /oem partitions read-write";
   str " reboot [bootloader|recovery|sideload|sideload-auto-reboot]";
   str "     reboot the device; defaults to booting system image but";
   str "     supports bootloader and recovery too. sideload reboots";
   str "     into recovery and automatically starts sideload mode,";
   str "     sideload-auto-reboot is the same but reboots after sideloading.";
   str " sideload OTAPACKAGE      sideload the given full OTA package";
   str " root                     restart adbd with root permissions";
   str " unroot                   restart adbd without root permissions";
   str " usb                      restart adb server listening on USB";
   str " tcpip PORT               restart adb server listening on TCP on PORT";
   [];
   str "internal debugging:";
   str " start-server             ensure that there is a server running";
   str " kill-server              kill the server if it is running";
   str " reconnect                kick connection from host side to force reconnect";
   str " reconnect device         kick connection from device side to force reconnect";
   str " reconnect offline        reset offline/unauthorized devices to force reconnect";
   [];
   str "environment variables:";
   str " $ADB_TRACE";
   str "     comma-separated list of debug info to log:";
   str "     all,adb,sockets,packets,rwx,usb,sync,sysdeps,transport,jdwp";
   str " $ADB_VENDOR_KEYS         colon-separated list of keys (files or directories)";
   str " $ANDROID_SERIAL          serial number to connect to (see -s)";
   str " $ANDROID_LOG_TAGS        tags to be used by logcat (see logcat --help)"].

(** ** The options before the command *)

(** The variables of [adb_commandline] that the options set, and [gListenAll]. *)
Record global_options := {
  go_server : bool;
  go_nodaemon : bool;
  go_daemon : bool;
  go_type : TransportType;
  go_reply_fd : Z;
  go_serial : option bytes;
  go_host : option bytes;
  go_port : option bytes;
  go_socket : option bytes;
  go_listen_all : bool;
}.

Definition no_options : global_options :=
  {| go_server := false; go_nodaemon := false; go_daemon := false; go_type := kTransportAny; go_reply_fd := -1;
     go_serial := None; go_host := None; go_port := None; go_socket := None; go_listen_all := false |}.

Definition set_go_server (v : bool) (x : global_options) : global_options :=
  {| go_server := v; go_nodaemon := go_nodaemon x; go_daemon := go_daemon x;
     go_type := go_type x; go_reply_fd := go_reply_fd x; go_serial := go_serial x;
     go_host := go_host x; go_port := go_port x; go_socket := go_socket x;
     go_listen_all := go_listen_all x |}.
Definition set_go_nodaemon (v : bool) (x : global_options) : global_options :=
  {| go_server := go_server x; go_nodaemon := v; go_daemon := go_daemon x; go_type := go_type x;
     go_reply_fd := go_reply_fd x; go_serial := go_serial x; go_host := go_host x;
     go_port := go_port x; go_socket := go_socket x; go_listen_all := go_listen_all x |}.
Definition set_go_daemon (v : bool) (x : global_options) : global_options :=
  {| go_server := go_server x; go_nodaemon := go_nodaemon x; go_daemon := v;
     go_type := go_type x; go_reply_fd := go_reply_fd x; go_serial := go_serial x;
     go_host := go_host x; go_port := go_port x; go_socket := go_socket x;
     go_listen_all := go_listen_all x |}.
Definition set_go_type (v : TransportType) (x : global_options) : global_options :=
  {| go_server := go_server x; go_nodaemon := go_nodaemon x; go_daemon := go_daemon x;
     go_type := v; go_reply_fd := go_reply_fd x; go_serial := go_serial x; go_host := go_host x;
     go_port := go_port x; go_socket := go_socket x; go_listen_all := go_listen_all x |}.
Definition set_go_reply_fd (v : Z) (x : global_options) : global_options :=
  {| go_server := go_server x; go_nodaemon := go_nodaemon x; go_daemon := go_daemon x;
     go_type := go_type x; go_reply_fd := v; go_serial := go_serial x; go_host := go_host x;
     go_port := go_port x; go_socket := go_socket x; go_listen_all := go_listen_all x |}.
Definition set_go_serial (v : option bytes) (x : global_options) : global_options :=
  {| go_server := go_server x; go_nodaemon := go_nodaemon x; go_daemon := go_daemon x;
     go_type := go_type x; go_reply_fd := go_reply_fd x; go_serial := v; go_host := go_host x;
     go_port := go_port x; go_socket := go_socket x; go_listen_all := go_listen_all x |}.
Definition set_go_host (v : option bytes) (x : global_options) : global_options :=
  {| go_server := go_server x; go_nodaemon := go_nodaemon x; go_daemon := go_daemon x;
     go_type := go_type x; go_reply_fd := go_reply_fd x; go_serial := go_serial x; go_host := v;
     go_port := go_port x; go_socket := go_socket x; go_listen_all := go_listen_all x |}.
Definition set_go_port (v : option bytes) (x : global_options) : global_options :=
  {| go_server := go_server x; go_nodaemon := go_nodaemon x; go_daemon := go_daemon x;
     go_type := go_type x; go_reply_fd := go_reply_fd x; go_serial := go_serial x;
     go_host := go_host x; go_port := v; go_socket := go_socket x;
     go_listen_all := go_listen_all x |}.
Definition set_go_socket (v : option bytes) (x : global_options) : global_options :=
  {| go_server := go_server x; go_nodaemon := go_nodaemon x; go_daemon := go_daemon x;
     go_type := go_type x; go_reply_fd := go_reply_fd x; go_serial := go_serial x;
     go_host := go_host x; go_port := go_port x; go_socket := v;
     go_listen_all := go_listen_all x |}.
Definition set_go_listen_all (v : bool) (x : global_options) : global_options :=
  {| go_server := go_server x; go_nodaemon := go_nodaemon x; go_daemon := go_daemon x;
     go_type := go_type x; go_reply_fd := go_reply_fd x; go_serial := go_serial x;
     go_host := go_host x; go_port := go_port x; go_socket := go_socket x; go_listen_all := v |}.

(** Disallow stdin, stdout, and stderr. *)
Definition _is_valid_ack_reply_fd (ack_reply_fd : Z) : bool := (2 <? ack_reply_fd)%Z.

(** A word: it sets something, needs the next word (or its absence is an
    error of use), is used wrongly, or is not an option. *)
Inductive global_option :=
| Flag (set : global_options -> global_options)
| Argument (usage : bytes) (set : bytes -> global_options -> bytes + global_options)
| Misused (usage : bytes)
| Operand.

Definition accept (set : option bytes -> global_options -> global_options) (v : bytes) (g : global_options) : bytes + global_options :=
  inr (set (Some v) g).

Definition set_reply_fd (text : bytes) (g : global_options) : bytes + global_options :=
  let fd := i32 (strtol text 10) in
  if _is_valid_ack_reply_fd fd then inr (set_go_reply_fd fd g)
  else inl (str "adb: invalid reply fd " ++ [byte_of 34] ++ text ++ [byte_of 34] ++ newline).

Definition global_option_of (word : bytes) : global_option :=
  if bool_decide (word = str "server") then Flag (set_go_server true)
  else if bool_decide (word = str "nodaemon") then Flag (set_go_nodaemon true)
  else if bool_decide (word = str "fork-server") then Flag (set_go_daemon true)
  else if bool_decide (word = str "--reply-fd") then Argument (str "--reply-fd requires an argument") set_reply_fd
  else if is_prefix (str "-s") word then
    match drop 2 word with
    | [] => Argument (str "-s requires an argument") (accept set_go_serial)
    | (c :: _) as serial => if is_digit c then Flag (set_go_serial (Some serial)) else Misused (str "-s requires an argument")
    end
  else if bool_decide (word = str "-d") then Flag (set_go_type kTransportUsb)
  else if bool_decide (word = str "-e") then Flag (set_go_type kTransportLocal)
  else if bool_decide (word = str "-a") then Flag (set_go_listen_all true)
  else if is_prefix (str "-H") word then
    match drop 2 word with
    | [] => Argument (str "-H requires an argument") (accept set_go_host)
    | host => Flag (set_go_host (Some host))
    end
  else if is_prefix (str "-P") word then
    match drop 2 word with
    | [] => Argument (str "-P requires an argument") (accept set_go_port)
    | port => Flag (set_go_port (Some port))
    end
  else if bool_decide (word = str "-L") then Argument (str "-L requires an argument") (accept set_go_socket)
  else Operand.

Section Commandline.
Context {E : Type} {KE : Kernel E} {SC : SysCalls E} {B : Build} {PF : Platform} {LB : LibBase} {SO : SetOrder} {N : Net E}.
Context {CO : ClientOs E} {HE : HostErrno} {CK : Clock E} {TL : Tool E}.

(** The options and the rest of the words; [inl]: what [adb_commandline] returns. *)
Fixpoint parse_global_options (args : list bytes) (g : global_options) : M E (Z + global_options * list bytes) :=
  match args with
  | [] => ret (inr (g, []))
  | word :: rest =>
      match global_option_of word with
      | Flag set => parse_global_options rest (set g)
      | Argument usage set =>
          match rest with
          | [] => let* r := syntax_error usage in ret (inl r)
          | v :: rest =>
              match set v g with
              | inl text => err text ;;; ret (inl 1%Z)
              | inr g => parse_global_options rest g
              end
          end
      | Misused usage => let* r := syntax_error usage in ret (inl r)
      | Operand => ret (inr (g, args))
      end
  end.

Definition getenv_or (v : option bytes) (name : bytes) : M E (option bytes) :=
  match v with Some _ => ret v | None => tool (t_getenv name) end.

(** The port of the server; a value that is no port ends the program. *)
Definition server_port (port : option bytes) : M E Z :=
  match port with
  | Some ((_ :: _) as text) =>
      let bad : M E Z :=
        err_line (str "adb: Env var ANDROID_ADB_SERVER_PORT must be a positive number less than 65535. Got " ++
                  [byte_of 34] ++ text ++ [byte_of 34]) ;;; exit_with 1 in
      match ParseInt text with
      | Some p => if ((1 <=? p) && (p <=? 65535))%Z then ret p else bad
      | None => bad
      end
  | _ => ret DEFAULT_ADB_PORT
  end.

Definition tcp_spec (host : option bytes) (port : Z) : bytes :=
  match host with
  | Some host => str "tcp:" ++ host ++ str ":" ++ dec port
  | None => str "tcp:" ++ dec port
  end.

(** If -L, -H, or -P are specified, ignore environment variables. *)
Definition server_socket (g : global_options) : M E bytes :=
  let* socket :=
    match go_host g, go_port g, go_socket g with
    | None, None, None => tool (t_getenv (str "ADB_SERVER_SOCKET"))
    | _, _, socket => ret socket
    end in
  match socket with
  | Some socket => ret socket
  | None =>
      let* host := getenv_or (go_host g) (str "ANDROID_ADB_SERVER_ADDRESS") in
      let* port := getenv_or (go_port g) (str "ANDROID_ADB_SERVER_PORT") in
      let* port := server_port port in
      ret (tcp_spec host port)
  end.

(** What is done to the static variables of adb_client.cpp. *)
Definition on_options {A} (m : M client_options A) (o : client_options) : M E (A * client_options) := fun e =>
  match m o with
  | Done a o => Done (a, o) e
  | Exit code _ => Exit code e
  | Fatal s => Fatal s
  | Crash s => Crash s
  | NoFuel => NoFuel
  end.

Definition help : M E unit := out (c_str adb_version ++ newline) ;;; out (concat (map (fun l => l ++ newline) help_lines)).

Definition run_server (g : global_options) (socket : bytes) : M E Z :=
  if (go_nodaemon g || go_daemon g) && (go_daemon g && (go_reply_fd g =? -1)%Z) then
    err (str "reply fd for adb server to client communication not specified." ++ newline) ;;; ret 1%Z
  else
    let* r := if go_nodaemon g || go_daemon g
              then tool (t_adb_server_main (go_daemon g) (go_listen_all g) socket (go_reply_fd g))
              else launch_server socket in
    when (negb (r =? 0)%Z) (err (str "* could not start server *" ++ newline)) ;;;
    ret r.

(** ** The commands *)

Definition adb_connect_command (fuel : nat) (o : client_options) (command : bytes) : M E Z :=
  let* (fd, error) := adb_connect o command in
  if (fd <? 0)%Z then error_line error ;;; ret 1%Z else
  let* _ := dump_to_terminal fuel fd false in
  close_fd fd ;;;
  ret 0%Z.

Definition adb_query_command (o : client_options) (command : bytes) : M E Z :=
  let* r := adb_query o command in
  match r with
  | inl error => error_line error ;;; ret 1%Z
  | inr result => out (c_str result ++ newline) ;;; ret 0%Z
  end.

Definition devices_command (o : client_options) (args : list bytes) : M E Z :=
  let query (listopt : bytes) : M E Z :=
    out (str "List of devices attached" ++ newline) ;;; adb_query_command o (str "host:devices" ++ listopt) in
  match args with
  | [] => query []
  | [opt] => if bool_decide (opt = str "-l") then query opt else syntax_error (str "adb devices [-l]")
  | _ => syntax_error (str "adb devices [-l]")
  end.

Definition exec_command (fuel : nat) (o : client_options) (name : bytes) (args : list bytes) : M E Z :=
  match args with
  | [] => syntax_error (str "adb " ++ name ++ str " command")
  | program :: args =>
      let* (fd, error) := adb_connect o (str "exec:" ++ program ++ quoted_args args) in
      if (fd <? 0)%Z then error_line error ;;; ret (-1)%Z else
      (if bool_decide (name = str "exec-in") then copy_to_file fuel STDIN_FD fd else copy_to_file fuel fd STDOUT_FD) ;;;
      close_fd fd ;;;
      ret 0%Z
  end.

Definition service_command (name : bytes) (args : list bytes) : bytes :=
  if bool_decide (name = str "reboot-bootloader") then str "reboot:bootloader"
  else match args with
       | arg :: _ => name ++ str ":" ++ arg
       | [] => name ++ str ":"
       end.

(** *** forward and reverse *)

Definition forward_prefix (reverse : bool) (type : TransportType) (serial : option bytes) : bytes :=
  if reverse then str "reverse" else
  match serial, type with
  | Some serial, _ => str "host-serial:" ++ serial
  | None, kTransportUsb => str "host-usb"
  | None, kTransportLocal => str "host-local"
  | None, _ => str "host"
  end.

(** What the arguments ask for: a list, a request, or an error of their use or
    of the two addresses. *)
Inductive forward_action := ListForwards (request : bytes) | Forward (request : bytes) | BadUse (usage : bytes) | BadTargets (error : bytes).

Definition forward_targets (prefix kind local remote : bytes) : forward_action :=
  match forward_targets_are_valid local remote with
  | None => Forward (prefix ++ kind ++ local ++ str ";" ++ remote)
  | Some error => BadTargets error
  end.

Definition forward_request (prefix arg : bytes) (args : list bytes) : forward_action :=
  if bool_decide (arg = str "--list") then
    match args with [] => ListForwards (prefix ++ str ":list-forward") | _ => BadUse (str "--list doesn't take any arguments") end
  else if bool_decide (arg = str "--remove-all") then
    match args with [] => Forward (prefix ++ str ":killforward-all") | _ => BadUse (str "--remove-all doesn't take any arguments") end
  else if bool_decide (arg = str "--remove") then
    match args with [local] => Forward (prefix ++ str ":killforward:" ++ local) | _ => BadUse (str "--remove requires an argument") end
  else if bool_decide (arg = str "--no-rebind") then
    match args with
    | [local; remote] => forward_targets prefix (str ":forward:norebind:") local remote
    | _ => BadUse (str "--no-rebind takes two arguments")
    end
  else
    match args with
    | [remote] => forward_targets prefix (str ":forward:") arg remote
    | _ => BadUse (str "forward takes two arguments")
    end.

Definition send_forward (o : client_options) (request : bytes) : M E Z :=
  let* (fd, error) := adb_connect o request in
  let failed (error : bytes) : M E Z := close_fd fd ;;; error_line error ;;; ret 1%Z in
  if (fd <? 0)%Z then failed error else
  let* st := adb_status fd in
  match st with
  | inl error => failed error
  | inr _ =>
      let* port := ReadProtocolString fd in
      (match port with
       | inr ((_ :: _) as resolved_port) => out (c_str resolved_port ++ newline)
       | _ => ret tt
       end) ;;;
      let* _ := ReadOrderlyShutdown fd in
      ret 0%Z
  end.

(** Without an argument the null pointer behind the last one is printed. *)
Definition forward_command (o : client_options) (reverse : bool) (type : TransportType) (serial : option bytes) (args : list bytes) : M E Z :=
  match args with
  | [] => crash "a null pointer for a string"
  | arg :: args =>
      match forward_request (forward_prefix reverse type serial) arg args with
      | ListForwards request => adb_query_command o request
      | Forward request => send_forward o request
      | BadUse usage => syntax_error usage
      | BadTargets error => error_line error ;;; ret 1%Z
      end
  end.

(** *** Files *)

Definition exit_status (ok : bool) : Z := if ok then 0 else 1.

Definition push_command (fuel depth : nat) (o : client_options) (args : list bytes) : M E Z :=
  let* r := parse_push_pull_args args None in
  let '(srcs, dst, _, sync) := r in
  match srcs, dst with
  | _ :: _, Some dst => let* ok := sync_command (do_sync_push fuel depth o srcs dst sync) in ret (exit_status ok)
  | _, _ => syntax_error (str "push requires an argument")
  end.

(** There is nothing to set for [--sync]. *)
Definition pull_command (fuel depth : nat) (o : client_options) (args : list bytes) : M E Z :=
  let* r := parse_push_pull_args args (Some (str ".")) in
  let '(srcs, dst, copy_attrs, _) := r in
  match srcs with
  | _ :: _ => let* ok := sync_command (do_sync_pull fuel depth o srcs (default [] dst) copy_attrs None) in ret (exit_status ok)
  | [] => syntax_error (str "pull requires an argument")
  end.

Definition product_file (file : bytes) : M E bytes :=
  let* product_out := tool (t_getenv (str "ANDROID_PRODUCT_OUT")) in
  match product_out with
  | None => err (str "adb: product directory not specified; set $ANDROID_PRODUCT_OUT" ++ newline) ;;; exit_with 1
  | Some dir => ret (dir ++ str "/" ++ file)
  end.

(** What to copy, and whether only to list it. *)
Definition sync_arguments (args : list bytes) : option (bytes * bool) :=
  match args with
  | [] => Some ([], false)
  | arg :: rest =>
      if bool_decide (arg = str "-l") then Some (match rest with [src] => src | _ => [] end, true)
      else match rest with [] => Some (arg, false) | _ => None end
  end.

Definition partitions : list bytes := [str "system"; str "data"; str "vendor"; str "oem"].

(** A partition, if it is asked for and nothing failed; [optional]: if it is there. *)
Definition sync_partition (fuel depth : nat) (o : client_options) (src : bytes) (list_only : bool) (name path : bytes) (optional okay : bool) :
    M E bool :=
  if okay && (bool_decide (src = []) || bool_decide (src = name)) then
    let* there := if optional then is_dir path else ret true in
    if there : bool then sync_command (do_sync_sync fuel depth o path (byte_of 47 :: name) list_only) else ret okay
  else ret okay.

Definition sync_files (fuel depth : nat) (o : client_options) (args : list bytes) : M E Z :=
  match sync_arguments args with
  | None => syntax_error (str "adb sync [-l] [PARTITION]")
  | Some (src, list_only) =>
      let src := if bool_decide (src = str "all") then [] else src in
      if negb (bool_decide (src = [])) && negb (bool_decide (src ∈ partitions)) then
        syntax_error (str "don't know how to sync " ++ src ++ str " partition")
      else
        let* system_src_path := product_file (str "system") in
        let* data_src_path := product_file (str "data") in
        let* vendor_src_path := product_file (str "vendor") in
        let* oem_src_path := product_file (str "oem") in
        let* okay := sync_partition fuel depth o src list_only (str "system") system_src_path false true in
        let* okay := sync_partition fuel depth o src list_only (str "vendor") vendor_src_path true okay in
        let* okay := sync_partition fuel depth o src list_only (str "oem") oem_src_path true okay in
        let* okay := sync_partition fuel depth o src list_only (str "data") data_src_path false okay in
        ret (exit_status okay)
  end.

(** *** Installing *)

Definition install_command (fuel depth : nat) (o : client_options) (type : TransportType) (serial : option bytes) (argv : list bytes) : M E Z :=
  let* legacy := _use_legacy_install o in
  if legacy : bool then install_app_legacy fuel depth o type serial argv else install_app fuel o argv.

Definition uninstall_command (fuel : nat) (o : client_options) (type : TransportType) (serial : option bytes) (argv : list bytes) : M E Z :=
  let* legacy := _use_legacy_install o in
  if legacy : bool then uninstall_app_legacy fuel o type serial argv else uninstall_app fuel o type serial argv.

(** *** Others *)

Definition start_server_command (o : client_options) : M E Z :=
  let* (result, error) := adb_connect o (str "host:start-server") in
  when (result <? 0)%Z (error_line error) ;;;
  ret result.

(** Only the features common to both the adb client and the device. *)
Definition features_command (o : client_options) : M E Z :=
  let* r := adb_get_feature_set o in
  match r with
  | inl error => error_line error ;;; ret 1%Z
  | inr features =>
      iter_list (fun name => out (c_str name ++ newline)) (filter (fun name => CanUseFeature features name = true) (set_order features)) ;;;
      ret 0%Z
  end.

Definition unknown_command (name : bytes) : M E Z := let* _ := syntax_error (str "unknown command " ++ name) in ret 1%Z.

Definition reconnect_command (o : client_options) (type : TransportType) (serial : option bytes) (name : bytes) (args : list bytes) : M E Z :=
  match args with
  | [] => adb_query_command o (format_host_command name type serial)
  | [what] =>
      if bool_decide (what = str "device") then let* _ := adb_connect o (str "reconnect") in ret 0%Z
      else if bool_decide (what = str "offline") then adb_query_command o (str "host:reconnect-offline")
      else syntax_error (str "adb reconnect [device|offline]")
  | _ => unknown_command name
  end.

(** The commands with one argument. *)
Definition with_argument (usage : bytes) (args : list bytes) (f : bytes -> M E Z) : M E Z :=
  match args with [arg] => f arg | _ => syntax_error usage end.

(** [args]: what follows the name of the command. *)
Definition run_command (fuel depth : nat) (o : client_options) (type : TransportType) (serial : option bytes) (name : bytes) (args : list bytes) :
    M E Z :=
  let named (s : string) : bool := bool_decide (name = str s) in
  let argv := name :: args in
  if named "devices" then devices_command o args
  else if named "connect" then
    with_argument (str "adb connect <host>[:<port>]") args (fun host => adb_query_command o (str "host:connect:" ++ host))
  else if named "disconnect" then
    match args with
    | _ :: _ :: _ => syntax_error (str "adb disconnect [<host>[:<port>]]")
    | _ => adb_query_command o (str "host:disconnect:" ++ default [] (head args))
    end
  else if named "emu" then adb_send_emulator_command fuel o args serial
  else if named "shell" then adb_shell fuel o args
  else if named "exec-in" || named "exec-out" then exec_command fuel o name args
  else if named "kill-server" then let* ok := adb_kill_server o in ret (exit_status ok)
  else if named "sideload" then
    with_argument (str "sideload requires an argument") args
      (fun file => let* r := adb_sideload_host fuel o file in ret (exit_status (r =? 0)%Z))
  else if named "tcpip" && bool_decide (args <> []) then adb_connect_command fuel o (str "tcpip:" ++ default [] (head args))
  else if named "remount" || named "reboot" || named "reboot-bootloader" || named "usb" || named "disable-verity" || named "enable-verity" then
    adb_connect_command fuel o (service_command name args)
  else if named "root" || named "unroot" then let* ok := adb_root o name in ret (exit_status ok)
  else if named "bugreport" then Bugreport_DoIt fuel depth o type serial args
  else if named "forward" || named "reverse" then forward_command o (named "reverse") type serial args
  else if named "ls" then
    with_argument (str "ls requires an argument") args
      (fun path => let* ok := sync_command (do_sync_ls fuel o path) in ret (exit_status ok))
  else if named "push" then push_command fuel depth o args
  else if named "pull" then pull_command fuel depth o args
  else if named "install" then
    match args with [] => syntax_error (str "install requires an argument") | _ => install_command fuel depth o type serial argv end
  else if named "install-multiple" then
    match args with [] => syntax_error (str "install-multiple requires an argument") | _ => install_multiple_app fuel o argv end
  else if named "uninstall" then
    match args with [] => syntax_error (str "uninstall requires an argument") | _ => uninstall_command fuel o type serial argv end
  else if named "sync" then sync_files fuel depth o args
  else if named "get-state" || named "get-serialno" || named "get-devpath" then adb_query_command o (format_host_command name type serial)
  else if named "logcat" || named "lolcat" || named "longcat" then logcat fuel o type serial name args
  else if named "ppp" then ppp o args
  else if named "start-server" then start_server_command o
  else if named "backup" then backup fuel o args
  else if named "restore" then restore fuel o args
  else if named "keygen" then
    with_argument (str "keygen requires an argument") args (fun file => tool t_trace_auth ;;; tool (t_adb_auth_keygen file))
  else if named "jdwp" then adb_connect_command fuel o (str "jdwp")
  else if named "track-jdwp" then adb_connect_command fuel o (str "track-jdwp")
  else if named "track-devices" then adb_connect_command fuel o (str "host:track-devices")
  else if named "--help" || named "help" || named "/?" then help ;;; ret 0%Z
  else if named "--version" || named "version" then out (c_str adb_version) ;;; ret 0%Z
  else if named "features" then features_command o
  else if named "host-features" then adb_query_command o (str "host:host-features")
  else if named "reconnect" then reconnect_command o type serial name args
  else unknown_command name.

(** The prefix wait-for-*, and the command behind it. *)
Definition wait_and_run (fuel depth : nat) (o : client_options) (type : TransportType) (serial : option bytes) (args : list bytes) : M E Z :=
  match args with
  | [] => help ;;; ret 1%Z
  | name :: rest =>
      if is_prefix (str "wait-for-") name then
        let* ok := wait_for_device o name type serial in
        if negb ok then ret 1%Z else
        match rest with
        | [] => ret 0%Z
        | name :: rest => run_command fuel depth o type serial name rest
        end
      else run_command fuel depth o type serial name rest
  end.

(** The specification of the server's socket is set, and the transport. *)
Definition set_client_options (g : global_options) (socket : bytes) : M E (client_options * option bytes) :=
  let* (_, o) := on_options (adb_set_socket_spec socket) initial_options in
  let* serial :=
    match go_type g, go_serial g with
    | kTransportAny, None => tool (t_getenv (str "ANDROID_SERIAL"))
    | _, serial => ret serial
    end in
  ret (adb_set_transport (go_type g) serial o, serial).

Definition adb_commandline (fuel depth : nat) (args : list bytes) : M E Z :=
  let* parsed := parse_global_options args no_options in
  match parsed with
  | inl r => ret r
  | inr (g, args) =>
      if (bool_decide (is_Some (go_host g)) || bool_decide (is_Some (go_port g))) && bool_decide (is_Some (go_socket g)) then
        syntax_error (str "-L is incompatible with -H or -P")
      else
        let* socket := server_socket g in
        let* (o, serial) := set_client_options g socket in
        if go_server g then run_server g socket
        else wait_and_run fuel depth o (go_type g) serial args
  end.

(** ** launch_server, where there is fork *)

Definition GetLogFilePath : M E bytes :=
  let* tmp_dir := tool (t_getenv (str "TMPDIR")) in
  let* uid := tool t_getuid in
  ret (default (str "/tmp") tmp_dir ++ str "/adb." ++ dec (u32 uid) ++ str ".log").

(** The lines from the last that is the header; none if there is no header. *)
Fixpoint from_last (header : bytes) (lines : list bytes) : list bytes :=
  match lines with
  | [] => []
  | l :: rest =>
      match from_last header rest with
      | [] => if bool_decide (l = header) then lines else []
      | found => found
      end
  end.

(** [ReadFdToString]. *)
Fixpoint read_all (fuel : nat) (fd : Z) (content : bytes) : M E (option bytes) :=
  match fuel with
  | O => no_fuel
  | S f =>
      let* r := sys_read fd BUFSIZ in
      match r with
      | RdOk [] => ret (Some content)
      | RdOk bs => read_all f fd (content ++ bs)
      | RdErr _ => ret None
      end
  end.

Definition ReportServerStartupFailure (fuel : nat) (pid : Z) : M E unit :=
  err (str "ADB server didn't ACK" ++ newline) ;;;
  let* path := GetLogFilePath in
  err (str "Full server startup log: " ++ c_str path ++ newline) ;;;
  err (str "Server had pid: " ++ dec pid ++ newline) ;;;
  let* r := call (c_open (c_str path) O_RDONLY 0) in
  match r with
  | inl _ => ret tt
  | inr fd =>
      let* _ := tool (t_lseek_end fd (-128 * 1024)) in
      let* content := read_all fuel fd [] in
      iter_list (fun l => err (c_str l ++ newline))
        match content with
        | Some content => from_last (str "--- adb starting (pid " ++ dec pid ++ str ") ---") (Split content (byte_of 10))
        | None => []
        end ;;;
      close_fd fd
  end.

(** The arguments of the new process. *)
Definition server_arguments (socket_spec : bytes) (reply_fd : Z) : list bytes :=
  [str "-L"; socket_spec; str "fork-server"; str "server"; str "--reply-fd"; dec reply_fd].

(** In the new process: if it cannot be replaced, it goes on as the parent does
    ([rest] is what the caller does then). *)
Definition launch_child (rest : M E unit) (path socket_spec : bytes) (fd0 fd1 : Z) : M E unit :=
  close_fd fd0 ;;;
  let* r := tool (t_execv path (str "adb" :: server_arguments socket_spec fd1)) in
  match r with
  | None => ret tt
  | Some e => err (str "adb: execl returned -1: " ++ strerror e ++ newline) ;;; rest
  end.

(** Waiting for the words of the new server. *)
Definition await_server (fuel : nat) (pid fd0 fd1 : Z) : M E Z :=
  close_fd fd1 ;;;
  let* r := sys_read fd0 3 in
  close_fd fd0 ;;;
  match r with
  | RdErr e =>
      err (str "could not read ok from ADB Server, errno = " ++ dec (errno_code e) ++ newline) ;;; ret (-1)%Z
  | RdOk temp =>
      if bool_decide (temp = str "OK" ++ newline) then ret 0%Z
      else ReportServerStartupFailure fuel pid ;;; ret (-1)%Z
  end.

Definition posix_launch_server (fuel : nat) (rest : M E unit) (socket_spec : bytes) : M E Z :=
  let* r := tool t_pipe in
  match r with
  | inl e => err (str "pipe failed in launch_server, errno: " ++ dec (errno_code e) ++ newline) ;;; ret (-1)%Z
  | inr (fd0, fd1) =>
      let* path := tool t_executable_path in
      let* r := (fun e => let '(r, e') := tool_fork (launch_child rest (c_str path) (c_str socket_spec) fd0 fd1) e in Done r e') in
      match r with
      | inl _ => ret (-1)%Z
      | inr pid => await_server fuel pid fd0 fd1
      end
  end.

End Commandline.
