(* ===== verification/ClientStreams.v ===== *)
(** * The streams of the client (commandline.cpp)

    What the client's functions need of the system it runs on, what is sent of
    what is typed, and what is shown of what is received. *)

From S2P Require Import Prelude LibBase Packet AdbIo Transport World SmartText SocketSpec ShellProtocol Services ShellService ShellStreams.
From S2P Require Import FileSync AdbClient Terminal.

(** A terminal and one connection [fd]: [shown] and [shown_err] are what was
    printed, [typed] what is still to be read from the keyboard, [interrupts]
    how often a change of the window can still interrupt the reading. *)
Class ClientTerminal (E : Type) {K : Kernel E} {CO : ClientOs E} {TL : Tool E} (fd : Z)
    (rx tx shown shown_err typed : E -> bytes) (interrupts : E -> nat) := {
  terminal_stream :: FdStream E fd rx tx (refusals fd);
  terminal_read n e r e' : adb_read fd n e = (r, e') -> shown e' = shown e /\ shown_err e' = shown_err e;
  terminal_write buf e r e' : adb_write fd buf e = (r, e') -> typed e' = typed e /\ interrupts e' = interrupts e;
  oprint_shows s e : shown (oprint s e) = shown e ++ s /\ shown_err (oprint s e) = shown_err e /\ rx (oprint s e) = rx e;
  eprint_shows s e : shown_err (eprint s e) = shown_err e ++ s /\ shown (eprint s e) = shown e /\
    rx (eprint s e) = rx e /\ tx (eprint s e) = tx e;
  keys_read n e r e' : (0 < n)%Z -> tool_sys (t_read_interruptible STDIN_FD n) e = (r, e') ->
    tx e' = tx e /\
    match r with
    | RdOk bs => typed e = bs ++ typed e' /\ (Zlen bs <= n)%Z /\ (bs = [] -> typed e = []) /\ interrupts e' <= interrupts e
    | RdErr x => x = EINTR /\ typed e' = typed e /\ interrupts e' < interrupts e
    end;
  window_call e a e' : tool_sys (t_window STDIN_FD) e = (a, e') ->
    tx e' = tx e /\ typed e' = typed e /\ interrupts e' = interrupts e /\
    match a with Some (r, c, x, y) => Forall (fun v => 0 <= v < 2 ^ 16)%Z [r; c; x; y] | None => True end;
  tcsetattr_call t e e' : tool_sys (t_tcsetattr STDIN_FD t) e = (tt, e') -> tx e' = tx e;
}.

(** ** What is typed *)

(** What is sent of the keys, and whether the sequence to leave is among them. *)
Fixpoint keys_sent (esc : ascii) (st : EscapeState) (keys : bytes) : bytes * bool :=
  match keys with
  | [] => ([], false)
  | ch :: keys =>
      match escape_step esc st ch with
      | (st, Swallow) => keys_sent esc st keys
      | (_, Disconnect) => ([], true)
      | (st, Pass text) => let '(sent, ended) := keys_sent esc st keys in (text ++ sent, ended)
      end
  end.

(** What a user types for a text: the escape character twice at the start of a
    line. *)
Fixpoint guarded (esc : ascii) (start : bool) (text : bytes) : bytes :=
  match text with
  | [] => []
  | ch :: text =>
      if Ascii.eqb ch esc then (if start then [esc; esc] else [esc]) ++ guarded esc false text
      else ch :: guarded esc (is_newline ch) text
  end.

Definition line_state (start : bool) : EscapeState := if start then kStartOfLine else kMidFlow.

(** After a text, where the keys are. *)
Fixpoint line_after (esc : ascii) (start : bool) (text : bytes) : bool :=
  match text with
  | [] => start
  | ch :: text => line_after esc (if Ascii.eqb ch esc then false else is_newline ch) text
  end.

Lemma escape_step_plain esc start ch : Ascii.eqb ch esc = false ->
  escape_step esc (line_state start) ch = (line_state (is_newline ch), Pass [ch]).
Proof. unfold escape_step. intros ->. by destruct start, (is_newline ch). Qed.

Lemma keys_sent_guarded esc start text keys :
  keys_sent esc (line_state start) (guarded esc start text ++ keys) =
  (let '(sent, ended) := keys_sent esc (line_state (line_after esc start text)) keys in (text ++ sent, ended)).
Proof.
  revert start. induction text as [|ch text IH]; intros start; cbn [guarded line_after app].
  { by destruct (keys_sent _ _ keys). }
  destruct (Ascii.eqb ch esc) eqn:Hc.
  - apply Ascii.eqb_eq in Hc as ->. destruct start; cbn [app line_state keys_sent]; unfold escape_step; rewrite Ascii.eqb_refl;
      change kMidFlow with (line_state false) at 1; rewrite IH; by destruct (keys_sent _ _ keys).
  - cbn [app keys_sent]. rewrite escape_step_plain, IH by done. by destruct (keys_sent _ _ keys).
Qed.

(** Leaving: the escape character and a dot at the start of a line. *)
Lemma keys_sent_leave esc keys : Ascii.eqb (byte_of 46) esc = false ->
  keys_sent esc kStartOfLine (esc :: byte_of 46 :: keys) = ([], true).
Proof. intros Hd. cbn [keys_sent]. unfold escape_step. by rewrite Ascii.eqb_refl, Hd. Qed.

(** ** The packets of the client *)

Definition input_packet (packet : Z * bytes) : Prop :=
  (fst packet = kIdStdin \/ fst packet = kIdCloseStdin \/ fst packet = kIdWindowSizeChange) /\ (Zlen (snd packet) < 2 ^ 32)%Z.

(** The daemon finds the text in them. *)
Lemma unframe_packet id bs : (0 <= id < 256)%Z -> (Zlen bs < 2 ^ 32)%Z ->
  unframe (InHeader []) (shell_packet id bs) = (InHeader [], stdin_part id bs).
Proof.
  intros Hid Hl. unfold shell_packet. change (byte_of id :: le_encode 4 (Zlen bs) ++ bs) with ((byte_of id :: le_encode 4 (Zlen bs)) ++ bs).
  rewrite unframe_app, unframe_header by done. cbn [hd tl].
  rewrite byte_val_of, Z.mod_small, le32_roundtrip, unframe_body by lia. by rewrite Z.sub_diag.
Qed.

Lemma unframe_input ps : Forall input_packet ps -> unframe (InHeader []) (shell_wire ps) = (InHeader [], payloads kIdStdin ps).
Proof.
  induction 1 as [|[id bs] ps [Hid Hl] Hps IH]; [done|]. unfold shell_wire, payloads in *. cbn [map concat] in *.
  rewrite unframe_app, unframe_packet, IH; [done| |done].
  unfold kIdStdin, kIdCloseStdin, kIdWindowSizeChange in Hid. cbn [fst] in Hid. lia.
Qed.

Lemma payloads_app id ps qs : payloads id (ps ++ qs) = payloads id ps ++ payloads id qs.
Proof. unfold payloads. by rewrite map_app, concat_app. Qed.
Lemma shell_wire_app ps qs : shell_wire (ps ++ qs) = shell_wire ps ++ shell_wire qs.
Proof. unfold shell_wire. by rewrite map_app, concat_app. Qed.

(** What went to the connection, and the text it says: packets, or the text itself. *)
Definition says (protocol : bool) (sent text : bytes) : Prop :=
  if protocol then exists ps, sent = shell_wire ps /\ Forall input_packet ps /\ payloads kIdStdin ps = text else sent = text.

Lemma says_nil b : says b [] [].
Proof. destruct b; [|done]. by exists []. Qed.
Lemma says_app b sent text sent' text' : says b sent text -> says b sent' text' -> says b (sent ++ sent') (text ++ text').
Proof.
  destruct b; [|by intros -> ->]. intros (ps & -> & Hp & <-) (qs & -> & Hq & <-). exists (ps ++ qs).
  rewrite shell_wire_app, payloads_app. split_and!; [done| |done]. by apply Forall_app.
Qed.

Definition is_some {A} (o : option A) : bool := match o with Some _ => true | None => false end.

(** Room for the text of a window, and for what one key can say. *)
Definition client_protocol (fd : Z) (p : option shell_protocol) : Prop :=
  match p with Some p => sp_fd p = fd /\ (32 <= data_capacity p < 2 ^ 32)%Z | None => True end.

Lemma window_text_length r c x y : Forall (fun v => 0 <= v < 2 ^ 16)%Z [r; c; x; y] -> (Zlen (window_text r c x y) <= 23)%Z.
Proof.
  intros Hf. rewrite !Forall_cons in Hf. destruct Hf as (Hr & Hc & Hx & Hy & _).
  assert (Hd : forall v, (0 <= v < 2 ^ 16)%Z -> length (dec v) <= 5).
  { intros v Hv. unfold dec. rewrite (proj2 (Z.ltb_ge v 0)) by lia.
    unfold print_num. etrans; [apply (to_digits_length 10 _ v [] 4); lia|done]. }
  unfold window_text. rewrite !length_app. cbn [length]. pose proof (Hd r Hr). pose proof (Hd c Hc). pose proof (Hd x Hx). pose proof (Hd y Hy). lia.
Qed.

Section Keyboard.
Context {E : Type} {K : Kernel E} {SC : SysCalls E} {CO : ClientOs E} {TL : Tool E}.
Context (fd : Z) (rx tx shown shown_err typed : E -> bytes) (interrupts : E -> nat).
Context {CT : ClientTerminal E fd rx tx shown shown_err typed interrupts}.
Implicit Types (e : E) (a : StdinReadArgs).

(** Writing changes nothing else. *)
Lemma write_typed fuel buf e r e' : WriteFdExactly fuel fd buf e = Done r e' -> typed e' = typed e /\ interrupts e' = interrupts e.
Proof.
  unfold WriteFdExactly. revert buf e. induction fuel as [|f IH]; intros buf e; [destruct buf; [by intros [= <- <-]|by intros [=]]|].
  destruct buf as [|b bs]; [by intros [= <- <-]|]. cbn [WriteFdExactly_loop]. unfold bind, sys_write.
  destruct (adb_write fd (b :: bs) e) as [w e1] eqn:Hw. destruct (terminal_write _ _ _ _ Hw) as [<- <-].
  destruct w as [n|x]; [apply IH|]. destruct x; first [apply IH|by intros [= <- <-]].
Qed.

Lemma write_stream fuel buf e : length buf + refusals fd e <= fuel ->
  exists e', WriteFdExactly fuel fd buf e = Done WX_ok e' /\ tx e' = tx e ++ buf /\ typed e' = typed e /\ interrupts e' = interrupts e.
Proof.
  intros Hf. destruct (WriteFdExactly_loop_spec fd rx tx (refusals fd) fuel buf e Hf) as (e' & Hw & Ht & _ & _).
  exists e'. split; [exact Hw|]. split; [done|]. by eapply write_typed.
Qed.

Lemma WritePacket_spec id text (p : shell_protocol) e : sp_fd p = fd -> (Zlen text <= data_capacity p < 2 ^ 32)%Z ->
  exists p' e', WritePacket id (Zlen text) (put_text text p) e = Done (true, p') e' /\ client_protocol fd (Some p') = client_protocol fd (Some p) /\
    tx e' = tx e ++ shell_packet id text /\ typed e' = typed e /\ interrupts e' = interrupts e.
Proof.
  intros Hfd Hl. assert (Hcap : data_capacity (put_text text p) = data_capacity p).
  { unfold data_capacity in *. cbn. rewrite length_app, length_drop. lia. }
  unfold WritePacket, bind, get, Write, check. rewrite Hcap, (proj2 (Z.leb_le _ _)) by lia. unfold ret at 1.
  rewrite u32_small by lia. cbn [sp_data put_text sp_fd]. rewrite Nat2Z.id, take_app_length, Hfd.
  destruct (write_stream (length text + 5 + refusals fd e) (shell_packet id text) e) as (e' & Hw & Ht & Hk & Hi).
  { unfold shell_packet. cbn [length]. rewrite length_app, length_le_encode. lia. }
  unfold shell_packet at 1 in Hw. unfold bind. rewrite Hw. eexists _, e'. split; [done|]. split; [|done].
  unfold client_protocol. rewrite <- Hcap. cbn. by rewrite Hfd.
Qed.

Lemma send_window_size_change_spec p e : client_protocol fd p ->
  exists p' sent e', send_window_size_change STDIN_FD p e = Done p' e' /\ client_protocol fd p' /\ is_some p' = is_some p /\
    tx e' = tx e ++ sent /\ says (is_some p) sent [] /\ typed e' = typed e /\ interrupts e' = interrupts e.
Proof.
  intros Hp. destruct p as [p|]; [|exists None, [], e; by rewrite app_nil_r].
  unfold send_window_size_change, bind, tool. destruct (tool_sys (t_window STDIN_FD) e) as [ws e1] eqn:Hw.
  destruct (window_call _ _ _ Hw) as (Ht & Hk & Hi & Hr).
  destruct ws as [[[[r c] x] y]|]; [|exists (Some p), [], e1; rewrite app_nil_r; pose proof (says_nil true); by split_and!].
  pose proof Hp as [Hfd Hcap]. pose proof (window_text_length _ _ _ _ Hr) as Hl.
  rewrite take_ge by lia.
  destruct (WritePacket_spec kIdWindowSizeChange (window_text r c x y ++ [NUL]) p e1 Hfd) as (p' & e' & Hwp & Hp' & Ht' & Hk' & Hi').
  { rewrite length_app. cbn. lia. }
  rewrite length_app in Hwp. cbn [length] in Hwp. rewrite Nat2Z.inj_add in Hwp. change (Z.of_nat 1) with 1%Z in Hwp. rewrite Hwp.
  eexists (Some p'), _, e'. split; [done|]. split; [by rewrite Hp'|]. split; [done|]. split; [by rewrite Ht', Ht|].
  split; [|by rewrite Hk', Hi']. eexists [(_, _)]. split; [by unfold shell_wire; cbn; rewrite app_nil_r|]. split; [|done].
  apply Forall_singleton. split; [by right; right|]. cbn [snd]. rewrite length_app. cbn [length]. lia.
Qed.

Lemma send_typed_spec a p text e : write_fd a = fd -> client_protocol fd p ->
  (match p with Some p => Zlen text <= data_capacity p | None => True end)%Z ->
  exists p' sent e', send_typed a p text e = Done (Some p') e' /\ client_protocol fd p' /\ is_some p' = is_some p /\
    tx e' = tx e ++ sent /\ says (is_some p) sent text /\ typed e' = typed e /\ interrupts e' = interrupts e.
Proof.
  intros Hfd Hp Hl. destruct p as [p|]; unfold send_typed, bind.
  - pose proof Hp as [Hpf Hcap]. destruct (WritePacket_spec kIdStdin text p e Hpf ltac:(lia)) as (p' & e' & -> & Hp' & Ht & Hk & Hi).
    eexists (Some p'), _, e'. split; [done|]. split; [by rewrite Hp'|]. split; [done|]. split; [done|]. split; [|done].
    exists [(kIdStdin, text)]. unfold shell_wire, payloads. cbn. rewrite !app_nil_r. split_and!; [done| |done].
    apply Forall_singleton. split; [by left|]. cbn [snd]. lia.
  - unfold get. rewrite Hfd. destruct (write_stream (length text + refusals fd e) text e) as (e' & -> & Ht & Hk & Hi); [done|].
    by exists None, text, e'.
Qed.

(** What is sent of the keys, with or without escapes. *)
Definition typed_sent a (st : EscapeState) (keys : bytes) : bytes * bool :=
  if parses_escapes a then keys_sent (escape_char a) st keys else (keys, false).

(** What is said when the keyboard has no more. *)
Definition at_end (protocol : bool) : bytes := if protocol then shell_packet kIdCloseStdin [] else [].

(** The loop sends what the keys say, and ends: with the process when the
    sequence to leave was typed, otherwise after closing the input. *)
Lemma stdin_loop_spec fuel a saved st p e : stdin_fd a = STDIN_FD -> write_fd a = fd -> client_protocol fd p -> (0 < BUFSIZ)%Z ->
  length (typed e) + interrupts e < fuel ->
  let '(text, leaves) := typed_sent a st (typed e) in
  exists sent e', stdin_loop fuel a saved st p e = (if leaves then Exit 0 e' else Done tt e') /\
    says (is_some p) sent text /\ tx e' = tx e ++ sent ++ (if leaves then [] else at_end (is_some p)).
Proof.
  intros Hin Hfd Hp Hb. revert st p e Hp. induction fuel as [|f IH]; intros st p e Hp Hf; [lia|]. cbn [stdin_loop].
  set (size := if parses_escapes a then 1%Z else match p with Some p => data_capacity p | None => BUFSIZ end).
  assert (Hsize : (0 < size)%Z) by (unfold size; destruct (parses_escapes a); [lia|]; destruct p as [p|]; [destruct Hp; lia|lia]).
  unfold bind, tool. rewrite Hin. destruct (tool_sys (t_read_interruptible STDIN_FD size) e) as [r e1] eqn:Hr.
  destruct (keys_read _ _ _ _ Hsize Hr) as [Ht Hk]. destruct r as [bs|x].
  - destruct Hk as (Hbs & Hlen & Hnil & Hi). destruct bs as [|ch text].
    { rewrite Hnil by done. replace (typed_sent a st []) with ([] : bytes, false) by (unfold typed_sent; by destruct (parses_escapes a)).
      destruct p as [p|]; [|exists [], e1; by rewrite !app_nil_r].
      destruct Hp as [Hpf Hcap]. destruct (WritePacket_spec kIdCloseStdin [] p e1 Hpf ltac:(cbn; lia)) as (p' & e2 & Hw & _ & Ht2 & _).
      change (put_text [] p) with {| sp_fd := sp_fd p; sp_id := sp_id p; sp_data := drop 0 (sp_data p); sp_data_length := sp_data_length p; sp_bytes_left := sp_bytes_left p |} in Hw.
      rewrite drop_0 in Hw. destruct p as [f0 i0 d0 l0 b0]. cbn [sp_fd sp_id sp_data sp_data_length sp_bytes_left] in Hw.
      change (Zlen ([] : bytes)) with 0%Z in Hw. rewrite Hw. exists [], e2. split; [done|]. split; [apply says_nil|]. by rewrite Ht2, Ht. }
    cbn [length] in Hlen. rewrite Hbs in Hf |- *. rewrite length_app in Hf. cbn [length] in Hf.
    assert (Hsend : forall st' bs', (parses_escapes a = true \/ bs' = ch :: text) -> (Zlen bs' <= Z.max size 2)%Z ->
      let '(text', leaves) := typed_sent a st' (typed e1) in
      exists sent e', bind (send_typed a p bs') (fun s => match s with Some p => stdin_loop f a saved st' p | None => ret tt end) e1
                      = (if leaves then Exit 0 e' else Done tt e') /\
        says (is_some p) sent (bs' ++ text') /\ tx e' = tx e ++ sent ++ (if leaves then [] else at_end (is_some p))).
    { intros st' bs' Hesc Hl. unfold bind. destruct (send_typed_spec a p bs' e1 Hfd Hp) as (p1 & s1 & e2 & -> & Hp1 & Hs1 & Ht1 & Hsay & Hk1 & Hi1).
      { clear - Hp Hl. unfold size in Hl. destruct p as [p|]; [|done]. destruct Hp as [_ Hcap]. cbn beta iota in Hl. destruct (parses_escapes a); lia. }
      specialize (IH st' p1 e2 Hp1 ltac:(rewrite Hk1, Hi1; lia)). rewrite Hk1 in IH.
      destruct (typed_sent a st' (typed e1)) as [text' leaves]. destruct IH as (s2 & e' & -> & Hsay2 & Ht2). rewrite Hs1 in *.
      exists (s1 ++ s2), e'. split; [done|]. split; [by apply says_app|]. by rewrite Ht2, Ht1, Ht, <- !app_assoc. }
    unfold typed_sent in *. destruct (parses_escapes a) eqn:Hpe.
    + assert (text = []) as -> by (destruct text; [done|]; unfold size in Hlen; cbn [length] in Hlen; lia). cbn [app keys_sent].
      destruct (escape_step (escape_char a) st ch) as [st' [| |bs']] eqn:Hst.
      * specialize (IH st' p e1 Hp ltac:(cbn [length] in Hf; lia)). destruct (keys_sent _ st' (typed e1)) as [text' leaves].
        destruct IH as (s2 & e' & Hrun & Hsay2 & Ht2). exists s2, e'. by rewrite Ht2, Ht.
      * unfold err, modify, stdin_raw_restore, tool, exit_with, bind.
        destruct (tool_sys (t_tcsetattr STDIN_FD saved) (eprint _ e1)) as [[] e2] eqn:Htc.
        exists [], e2. split; [done|]. split; [apply says_nil|]. rewrite (tcsetattr_call _ _ _ Htc), !app_nil_r.
        match goal with |- tx (eprint ?s _) = _ => by destruct (eprint_shows s e1) as (_ & _ & _ & ->) end.
      * specialize (Hsend st' bs' ltac:(by left)). destruct (keys_sent _ st' (typed e1)) as [text' leaves]. apply Hsend.
        enough (Zlen bs' <= 2)%Z by lia. unfold escape_step in Hst. repeat case_match; simplify_eq; cbn; lia.
    + specialize (Hsend st (ch :: text) ltac:(by right) ltac:(cbn [length]; lia)). exact Hsend.
  - destruct Hk as (-> & Hk & Hi). destruct (send_window_size_change_spec p e1 Hp) as (p1 & s1 & e2 & -> & Hp1 & Hs1 & Ht1 & Hsay & Hk1 & Hi1).
    specialize (IH st p1 e2 Hp1 ltac:(rewrite Hk1, Hi1, Hk; lia)). rewrite Hk1, Hk in IH.
    destruct (typed_sent a st (typed e)) as [text' leaves]. destruct IH as (s2 & e' & Hrun & Hsay2 & Ht2). rewrite Hs1 in *.
    exists (s1 ++ s2), e'. rewrite Hrun. split; [done|]. split; [by apply (says_app _ s1 [])|]. by rewrite Ht2, Ht1, Ht, <- !app_assoc.
Qed.

End Keyboard.
