(* ===== verification/ClientDump.v ===== *)
(** * What the client shows of a session (commandline.cpp)

    [read_and_dump] on the packets of a subprocess, whole or cut anywhere. *)

From S2P Require Import Prelude LibBase Packet AdbIo Transport World SmartText SocketSpec ShellProtocol Services ShellService ShellStreams.
From S2P Require Import FileSync AdbClient Terminal ClientStreams.

Lemma prefix_split {A} (w a b : list A) : w `prefix_of` a ++ b ->
  (length w < length a /\ w `prefix_of` a) \/ exists w', w = a ++ w' /\ w' `prefix_of` b.
Proof.
  revert w. induction a as [|x a IH]; intros w Hp; [right; by exists w|].
  destruct w as [|y w]; [left; split; [cbn; lia|apply prefix_nil]|]. cbn [app] in Hp.
  pose proof (prefix_cons_inv_1 _ _ _ _ Hp) as ->. apply prefix_cons_inv_2 in Hp.
  destruct (IH w Hp) as [[Hl Hpre]|(w' & -> & Hpre)]; [left; split; [cbn; lia|by apply prefix_cons]|right; by exists w'].
Qed.

(** The packets of the daemon: output, and the exit code. *)
Definition output_packet (packet : Z * bytes) : Prop :=
  (fst packet = kIdStdout \/ fst packet = kIdStderr) /\ (0 < Zlen (snd packet) < 2 ^ 32)%Z.

Definition exit_packet (code : Z) : bytes := shell_packet kIdExit [byte_of code].

Section Dump.
Context {E : Type} {K : Kernel E} {SC : SysCalls E} {CO : ClientOs E} {TL : Tool E}.
Context (fd : Z) (rx tx shown shown_err typed : E -> bytes) (interrupts : E -> nat).
Context {CT : ClientTerminal E fd rx tx shown shown_err typed interrupts}.
Implicit Types (e : E) (p : shell_protocol).

(** Printed between two states. *)
Definition showed (id : Z) (text : bytes) e e' : Prop :=
  shown e' = shown e ++ (if (id =? kIdStdout)%Z then text else []) /\
  shown_err e' = shown_err e ++ (if (id =? kIdStderr)%Z then text else []).

Definition quiet e e' : Prop := shown e' = shown e /\ shown_err e' = shown_err e.

Lemma read_quiet len e r e' : (0 <= len)%Z -> ReadFdExactly fd len e = Done r e' -> quiet e e'.
Proof.
  unfold ReadFdExactly. intros _. generalize (@nil ascii) as acc. generalize (Z.to_nat len) as fuel. intros fuel. revert len e.
  induction fuel as [|f IH]; intros len e acc; cbn [ReadFdExactly_loop].
  { destruct (0 <? len)%Z; [by intros [=]|by intros [= _ <-]]. }
  destruct (0 <? len)%Z; [|by intros [= _ <-]]. unfold bind, sys_read.
  destruct (adb_read fd len e) as [[[|b bs]|x] e1] eqn:Hr; destruct (terminal_read _ _ _ _ Hr) as [H1 H2].
  - by intros [= _ <-].
  - intros Hd. destruct (IH _ _ _ Hd) as [H3 H4]. split; congruence.
  - by intros [= _ <-].
Qed.

(** A descriptor on [fd] with some room. *)
Definition reader p : Prop := sp_fd p = fd /\ (0 < data_capacity p)%Z.

Abbreviation dump := (dump_shell default_callback).
Abbreviation streams := DEFAULT_STANDARD_STREAMS.

Lemma dump_short f p ec c e : reader p -> sp_bytes_left p = 0%Z -> (Zlen (rx e) < 5)%Z ->
  exists e', dump (S f) p ec c e = Done (ec, c) e' /\ quiet e e'.
Proof.
  intros [Hfd Hc] Hb Hl. cbn [dump_shell]. unfold bind at 1, Read. rewrite Hb, Hfd. cbn [Z.eqb].
  destruct (ReadFdExactly_spec fd rx tx (refusals fd) kHeaderSize e ltac:(done)) as (e' & _ & _ & Hr).
  rewrite decide_False in Hr by (unfold kHeaderSize; lia). destruct Hr as [Hr _]. unfold bind. rewrite Hr. cbn.
  exists e'. split; [done|]. by eapply (read_quiet kHeaderSize).
Qed.

(** The header of a packet with data: the reader is as if it had read it. *)
Lemma dump_header f p ec c e id len b : reader p -> sp_bytes_left p = 0%Z -> (0 <= id < 256)%Z -> (0 < len < 2 ^ 32)%Z ->
  rx e = byte_of id :: le_encode 4 len ++ b ->
  exists e', dump (S f) p ec c e = dump (S f) (set_header id len p) ec c e' /\ rx e' = b /\ quiet e e'.
Proof.
  intros [Hfd Hc] Hb Hid Hl Hrx.
  destruct (ReadFdExactly_app fd rx tx (refusals fd) (byte_of id :: le_encode 4 len) b e Hrx) as (e' & Hr & Hrx' & _ & _).
  change (Zlen (byte_of id :: le_encode 4 len)) with kHeaderSize in Hr.
  exists e'. split; [|split; [done|by eapply (read_quiet kHeaderSize)]].
  assert (HR : Read p e = Read (set_header id len p) e').
  { unfold Read, bind. rewrite Hb, Hfd. cbn [Z.eqb]. rewrite Hr, byte_val_of, Z.mod_small, le32_roundtrip by lia. cbn [sp_bytes_left set_header].
    by rewrite (proj2 (Z.eqb_neq len 0)) by lia. }
  cbn [dump_shell]. unfold bind at 1 3. by rewrite HR.
Qed.

(** A piece of output, shown. *)
Lemma dump_piece p ec e : sp_id p = kIdStdout \/ sp_id p = kIdStderr ->
  exists e', dump_packet default_callback p ec streams e = Done (ec, streams) e' /\
    rx e' = rx e /\ showed (sp_id p) (take (Z.to_nat (sp_data_length p)) (sp_data p)) e e'.
Proof.
  set (data := take _ _). intros [Hid|Hid]; unfold dump_packet; fold data; rewrite Hid; cbn [kIdStdout kIdStderr Z.eqb Pos.eqb].
  - destruct (oprint_shows data e) as (H1 & H2 & H3). exists (oprint data e). split; [done|]. split; [done|]. split; cbn; by rewrite ?app_nil_r.
  - destruct (eprint_shows data e) as (H1 & H2 & H3 & _). exists (eprint data e). split; [done|]. split; [done|]. split; cbn; by rewrite ?app_nil_r.
Qed.

Lemma showed_app id a b e e1 e2 : showed id a e e1 -> showed id b e1 e2 -> showed id (a ++ b) e e2.
Proof. intros [H1 H2] [H3 H4]. split; rewrite ?H3, ?H4, ?H1, ?H2, <- app_assoc; [by destruct (id =? kIdStdout)%Z|by destruct (id =? kIdStderr)%Z]. Qed.

Lemma quiet_showed id a e e1 e2 : quiet e e1 -> showed id a e1 e2 -> showed id a e e2.
Proof. intros [H1 H2] [H3 H4]. split; congruence. Qed.

(** A call of [Read] inside a packet, with a piece there. *)
Lemma Read_piece p e body rest : reader p -> (0 < sp_bytes_left p)%Z -> rx e = body ++ rest ->
  Zlen body = Z.min (sp_bytes_left p) (data_capacity p) ->
  exists e', Read p e = Done (true, set_piece body p) e' /\ rx e' = rest /\ quiet e e'.
Proof.
  intros [Hfd Hc] Hb Hrx Hl. unfold Read, ReadPiece. rewrite (proj2 (Z.eqb_neq _ _)) by lia. rewrite (proj2 (Z.eqb_neq (Z.min _ _) 0)) by lia.
  destruct (ReadFdExactly_app fd rx tx (refusals fd) body rest e Hrx) as (e' & Hr & Hrx' & _ & _).
  unfold bind. rewrite Hfd, <- Hl, Hr. exists e'. split; [done|]. split; [done|]. by eapply (read_quiet (Zlen body)); [lia|].
Qed.

(** ... or not enough for it. *)
Lemma Read_cut p e : reader p -> (Zlen (rx e) < Z.min (sp_bytes_left p) (data_capacity p))%Z ->
  exists e', Read p e = Done (false, p) e' /\ quiet e e'.
Proof.
  intros [Hfd Hc] Hl. unfold Read, ReadPiece. rewrite (proj2 (Z.eqb_neq _ _)) by lia. rewrite (proj2 (Z.eqb_neq (Z.min _ _) 0)) by lia.
  destruct (ReadFdExactly_spec fd rx tx (refusals fd) (Z.min (sp_bytes_left p) (data_capacity p)) e ltac:(lia)) as (e' & _ & _ & Hr).
  rewrite decide_False in Hr by lia. destruct Hr as [Hr _]. unfold bind. rewrite Hfd, Hr. exists e'. split; [done|].
  eapply (read_quiet (Z.min (sp_bytes_left p) (data_capacity p))); [lia|done].
Qed.

(** The data of a packet of output: all of it is shown, and the next packet is read ... *)
Lemma dump_body fuel p ec e body rest : reader p -> sp_id p = kIdStdout \/ sp_id p = kIdStderr ->
  sp_bytes_left p = Zlen body -> body <> [] -> rx e = body ++ rest -> length body <= fuel ->
  exists f' p' e', dump fuel p ec streams e = dump f' p' ec streams e' /\ fuel <= f' + length body /\ reader p' /\
    sp_bytes_left p' = 0%Z /\ rx e' = rest /\ showed (sp_id p) body e e'.
Proof.
  revert p e body. induction fuel as [|f IH]; intros p e body Hp Hid Hb Hne Hrx Hf; [destruct body; [done|cbn in Hf; lia]|].
  assert (Hpos : 0 < length body) by (destruct body; [done|cbn; lia]). pose proof Hp as [Hfd Hcap].
  set (k := Z.to_nat (data_capacity p)).
  destruct (Read_piece p e (take k body) (drop k body ++ rest) Hp ltac:(lia)) as (e1 & Hr & Hrx1 & Hq).
  { by rewrite app_assoc, take_drop. }
  { rewrite length_take. lia. }
  assert (Hlen : length (take k body) = k `min` length body) by (by rewrite length_take).
  assert (Hp1 : reader (set_piece (take k body) p)) by (split; [done|]; rewrite set_piece_capacity by lia; done).
  cbn [dump_shell]. unfold bind at 1. rewrite Hr. cbn [negb].
  destruct (dump_piece (set_piece (take k body) p) ec e1 Hid) as (e2 & Hd & Hrx2 & Hs). unfold bind at 1. rewrite Hd.
  cbn [sp_data_length set_piece] in Hs. rewrite Nat2Z.id, set_piece_data in Hs. change (sp_id (set_piece _ p)) with (sp_id p) in Hs.
  pose proof (quiet_showed _ _ _ _ _ Hq Hs) as Hs1. destruct (decide (length body <= k)) as [Hle|Hgt].
  - rewrite take_ge, drop_ge in * by done. exists f, (set_piece body p), e2. split_and!; [done|lia|exact Hp1| |by rewrite Hrx2|done].
    cbn. lia.
  - destruct (IH (set_piece (take k body) p) e2 (drop k body) Hp1 Hid) as (f' & p' & e' & Hrun & Hf' & Hp' & Hb' & Hrx' & Hs').
    + rewrite length_drop. change (sp_bytes_left (set_piece (take k body) p)) with (sp_bytes_left p - Zlen (take k body))%Z. lia.
    + intros H0. apply (f_equal length) in H0. rewrite length_drop in H0. cbn in H0. lia.
    + by rewrite Hrx2.
    + rewrite length_drop. lia.
    + exists f', p', e'. rewrite length_drop in Hf'. split_and!; [done|lia|exact Hp'|done|done|].
      rewrite <- (take_drop k body). by eapply showed_app.
Qed.

(** ... and when the connection ends in it, a part is shown. *)
Lemma dump_body_cut fuel p ec e : reader p -> sp_id p = kIdStdout \/ sp_id p = kIdStderr ->
  (Zlen (rx e) < sp_bytes_left p)%Z -> length (rx e) < fuel ->
  exists part e', dump fuel p ec streams e = Done (ec, streams) e' /\ part `prefix_of` rx e /\ showed (sp_id p) part e e'.
Proof.
  revert p e. induction fuel as [|f IH]; intros p e Hp Hid Hb Hf; [lia|]. pose proof Hp as [Hfd Hcap].
  cbn [dump_shell]. unfold bind at 1. destruct (decide (data_capacity p <= Zlen (rx e))%Z) as [Hle|Hlt].
  - set (k := Z.to_nat (data_capacity p)).
    destruct (Read_piece p e (take k (rx e)) (drop k (rx e)) Hp ltac:(lia)) as (e1 & Hr & Hrx1 & Hq); [by rewrite take_drop|rewrite length_take; lia|].
    assert (Hp1 : reader (set_piece (take k (rx e)) p)) by (split; [done|]; rewrite set_piece_capacity by (rewrite length_take; lia); done).
    rewrite Hr. cbn [negb]. destruct (dump_piece (set_piece (take k (rx e)) p) ec e1 Hid) as (e2 & Hd & Hrx2 & Hs). unfold bind at 1. rewrite Hd.
    cbn [sp_data_length set_piece] in Hs. rewrite Nat2Z.id, set_piece_data in Hs.
    pose proof (quiet_showed _ _ _ _ _ Hq Hs) as Hs1. rewrite Hrx1 in Hrx2.
    destruct (IH (set_piece (take k (rx e)) p) e2 Hp1 Hid) as (part & e' & Hrun & Hpre & Hs').
    + rewrite Hrx2, length_drop. change (sp_bytes_left (set_piece (take k (rx e)) p)) with (sp_bytes_left p - Zlen (take k (rx e)))%Z. rewrite length_take. lia.
    + rewrite Hrx2, length_drop. lia.
    + exists (take k (rx e) ++ part), e'. split; [done|]. split; [|by eapply showed_app].
      rewrite Hrx2 in Hpre. rewrite <- (take_drop k (rx e)) at 2. by apply prefix_app.
  - destruct (Read_cut p e Hp ltac:(lia)) as (e1 & -> & [H1 H2]). exists [], e1. split; [done|]. split; [apply prefix_nil|].
    split; [rewrite H1; destruct (sp_id p =? kIdStdout)%Z|rewrite H2; destruct (sp_id p =? kIdStderr)%Z]; by rewrite app_nil_r.
Qed.

(** What is shown of some packets is a part, from the start, of what they say. *)
Definition showed_of (outs : list (Z * bytes)) (all : bool) e e' : Prop :=
  exists o r, shown e' = shown e ++ o /\ shown_err e' = shown_err e ++ r /\
    o `prefix_of` payloads kIdStdout outs /\ r `prefix_of` payloads kIdStderr outs /\
    (all = true -> o = payloads kIdStdout outs /\ r = payloads kIdStderr outs).

Lemma payloads_cons id id' bs outs : payloads id ((id', bs) :: outs) = (if (id' =? id)%Z then bs else []) ++ payloads id outs.
Proof. done. Qed.

Lemma showed_of_nil all e e' : quiet e e' -> showed_of [] all e e'.
Proof. intros [H1 H2]. exists [], []. rewrite !app_nil_r. split_and!; try done; apply prefix_nil. Qed.

Lemma showed_of_cut id bs part outs e e' : showed id part e e' -> part `prefix_of` bs -> showed_of ((id, bs) :: outs) false e e'.
Proof.
  intros [H1 H2] Hp. eexists _, _. split; [exact H1|]. split; [exact H2|]. rewrite !payloads_cons.
  clear - Hp.
  split_and!; [| |done]; apply prefix_app_r; (case_match; [done|apply prefix_nil]).
Qed.

Lemma showed_of_cons id bs outs all e e1 e2 : showed id bs e e1 -> showed_of outs all e1 e2 -> showed_of ((id, bs) :: outs) all e e2.
Proof.
  intros [H1 H2] (o & r & H3 & H4 & Ho & Hr & Hall). eexists _, _. rewrite H3, H4, H1, H2, <- !app_assoc. split; [done|]. split; [done|].
  rewrite !payloads_cons. split_and!; [by apply prefix_app|by apply prefix_app|]. intros Ha. by destruct (Hall Ha) as [-> ->].
Qed.

Lemma quiet_showed_of outs e e' : quiet e e' -> showed_of outs false e e'.
Proof. intros [H1 H2]. exists [], []. rewrite !app_nil_r. split_and!; try done; apply prefix_nil. Qed.

(** The exit packet, or a part of it. *)
Lemma dump_exit fuel p e code : reader p -> sp_bytes_left p = 0%Z -> rx e `prefix_of` exit_packet code -> 1 < fuel ->
  exists e' status, dump fuel p 0 streams e = Done (status, streams) e' /\ quiet e e' /\
    status = (if bool_decide (rx e = exit_packet code) then char_int (byte_of code) else 0%Z).
Proof.
  intros Hp Hb Hpre Hf. destruct fuel as [|[|f]]; [lia|lia|].
  change (exit_packet code) with ((byte_of kIdExit :: le_encode 4 1) ++ [byte_of code]) in Hpre.
  destruct (prefix_split _ _ _ Hpre) as [[Hl _]|(w & Hw & Hpre')].
  { rewrite bool_decide_false by (intros H0; rewrite H0 in Hl; cbn in Hl; lia).
    destruct (dump_short (S f) p 0 streams e Hp Hb) as (e' & Hr & Hq); [cbn in Hl; lia|]. by exists e', 0%Z. }
  destruct (dump_header (S f) p 0 streams e kIdExit 1 w Hp Hb) as (e1 & -> & Hrx1 & Hq1); [by unfold kIdExit|lia|by rewrite Hw|].
  pose proof Hp as [Hfd Hcap]. set (p1 := set_header kIdExit 1 p) in *. assert (Hp1 : reader p1) by done.
  destruct w as [|b w].
  - rewrite bool_decide_false by (rewrite Hw; by intros H0). cbn [dump_shell]. unfold bind at 1.
    destruct (Read_cut p1 e1 Hp1) as (e2 & -> & [H1 H2]); [rewrite Hrx1; unfold p1, data_capacity in *; cbn in *; lia|].
    exists e2, 0%Z. split; [done|]. split; [|done]. destruct Hq1. split; congruence.
  - pose proof (prefix_cons_inv_1 _ _ _ _ Hpre') as ->. apply prefix_cons_inv_2, prefix_nil_inv in Hpre' as ->.
    rewrite bool_decide_true by done. cbn [dump_shell]. unfold bind at 1.
    destruct (Read_piece p1 e1 [byte_of code] [] Hp1) as (e2 & -> & Hrx2 & Hq2); [by cbn|done|unfold p1, data_capacity in *; cbn in *; lia|].
    cbn [negb]. unfold bind at 1. cbn [dump_packet sp_id set_piece p1 set_header kIdExit kIdStdout kIdStderr Z.eqb Pos.eqb sp_data sp_data_length].
    unfold dump_packet. cbn [sp_id set_piece p1 set_header kIdExit kIdStdout kIdStderr Z.eqb Pos.eqb]. unfold ret at 1.
    destruct (dump_short f (set_piece [byte_of code] p1) (char_int (byte_of code)) streams e2) as (e3 & Hr & Hq3).
    { split; [done|]. rewrite set_piece_capacity by (unfold p1, data_capacity in *; cbn in *; lia). done. }
    { done. }
    { by rewrite Hrx2. }
    exists e3, (char_int (byte_of code)). split; [exact Hr|]. split; [|done]. destruct Hq1, Hq2, Hq3. split; congruence.
Qed.

(** The session, whole or cut. *)
Lemma dump_session outs fuel p e code : Forall output_packet outs -> reader p -> sp_bytes_left p = 0%Z ->
  rx e `prefix_of` shell_wire outs ++ exit_packet code -> length (rx e) + 1 < fuel ->
  exists e' status, dump fuel p 0 streams e = Done (status, streams) e' /\
    showed_of outs (bool_decide (rx e = shell_wire outs ++ exit_packet code)) e e' /\
    status = (if bool_decide (rx e = shell_wire outs ++ exit_packet code) then char_int (byte_of code) else 0%Z).
Proof.
  intros Houts. revert fuel p e. induction Houts as [|[id bs] outs [Hid Hlen] _ IH]; intros fuel p e Hp Hb Hpre Hf.
  { destruct (dump_exit fuel p e code Hp Hb Hpre ltac:(lia)) as (e' & status & Hr & Hq & Hs). exists e', status.
    split; [done|]. split; [by apply showed_of_nil|done]. }
  cbn [fst snd] in Hid, Hlen. unfold kIdStdout, kIdStderr in Hid.
  assert (Hw : shell_wire ((id, bs) :: outs) ++ exit_packet code = shell_packet id bs ++ (shell_wire outs ++ exit_packet code)) by (by rewrite app_assoc).
  rewrite Hw in *. destruct fuel as [|f]; [lia|].
  assert (Hpk : shell_packet id bs = (byte_of id :: le_encode 4 (Zlen bs)) ++ bs) by done.
  destruct (prefix_split _ _ _ Hpre) as [[Hl Hpre1]|(w & Hrx & Hpre')].
  - rewrite bool_decide_false by (intros H0; rewrite H0, length_app in Hl; lia). rewrite Hpk in Hpre1, Hl.
    destruct (prefix_split _ _ _ Hpre1) as [[Hl5 _]|(w & Hrx & Hw')].
    + destruct (dump_short f p 0 streams e Hp Hb) as (e' & Hr & Hq); [cbn in Hl5; lia|]. exists e', 0%Z. split; [done|]. split; [by apply quiet_showed_of|done].
    + destruct (dump_header f p 0 streams e id (Zlen bs) w Hp Hb ltac:(lia) ltac:(lia) Hrx) as (e1 & -> & Hrx1 & Hq1).
      rewrite Hrx, !length_app in Hl. rewrite Hrx, length_app in Hf.
      destruct (dump_body_cut (S f) (set_header id (Zlen bs) p) 0 e1 Hp Hid) as (part & e2 & -> & Hpart & Hs);
        [rewrite Hrx1; cbn [sp_bytes_left set_header]; lia|rewrite Hrx1; lia|].
      exists e2, 0%Z. split; [done|]. split; [|done]. apply (showed_of_cut _ _ part).
      * by eapply quiet_showed.
      * rewrite Hrx1 in Hpart. by trans w.
  - rewrite Hpk, <- app_assoc in Hrx. rewrite Hrx, !length_app in Hf. cbn [length] in Hf.
    destruct (dump_header f p 0 streams e id (Zlen bs) (bs ++ w) Hp Hb ltac:(lia) ltac:(lia) Hrx) as (e1 & -> & Hrx1 & Hq1).
    destruct (dump_body (S f) (set_header id (Zlen bs) p) 0 e1 bs w Hp Hid) as (f' & p' & e2 & -> & Hf' & Hp' & Hb' & Hrx2 & Hs);
      [done|intros ->; cbn in Hlen; lia|done|lia|].
    destruct (IH f' p' e2 Hp' Hb') as (e' & status & Hr & Hso & Hst); [by rewrite Hrx2|rewrite Hrx2; lia|].
    assert (Hdec : bool_decide (rx e = shell_packet id bs ++ shell_wire outs ++ exit_packet code) = bool_decide (rx e2 = shell_wire outs ++ exit_packet code)).
    { apply bool_decide_ext. rewrite Hrx, Hrx2, Hpk, <- app_assoc. split; [by intros H0; do 2 apply app_inv_head in H0|by intros ->]. }
    rewrite Hdec. exists e', status. split; [done|]. split; [|done]. eapply showed_of_cons; [|done]. by eapply quiet_showed.
Qed.

(** [read_and_dump] on it. *)
Lemma dump_to_terminal_session outs fuel e code : Forall output_packet outs -> (0 <= fd)%Z -> fresh_buffer <> [] ->
  rx e `prefix_of` shell_wire outs ++ exit_packet code -> length (rx e) + 1 < fuel ->
  exists e' status, dump_to_terminal fuel fd true e = Done status e' /\
    showed_of outs (bool_decide (rx e = shell_wire outs ++ exit_packet code)) e e' /\
    status = (if bool_decide (rx e = shell_wire outs ++ exit_packet code) then char_int (byte_of code) else 0%Z).
Proof.
  intros Houts Hfd Hbuf Hpre Hf. assert (Hp : reader (new_shell_protocol fd fresh_buffer)).
  { split; [done|]. unfold data_capacity. cbn. destruct fresh_buffer; [done|cbn; lia]. }
  destruct (dump_session outs fuel _ e code Houts Hp eq_refl Hpre Hf) as (e' & status & Hr & Hs & Hst).
  exists e', status. split; [|done]. unfold dump_to_terminal, read_and_dump, bind. rewrite (proj2 (Z.ltb_ge fd 0)) by lia. by rewrite Hr.
Qed.

End Dump.
