(* ===== verification/ClientDemo.v ===== *)
(** * A terminal on which the client is exercised

    One connection, keys that come one chunk at a time, and changes of the
    window between them. *)

From S2P Require Import Prelude LibBase Packet AdbIo Transport World SmartText SocketSpec ShellProtocol Services ShellService ShellStreams.
From S2P Require Import FileSync SyncClient AdbClient Terminal ClientStreams.

(** A key, or a change of the window's size. *)
Inductive key := Typed (text : bytes) | Resized.

#[export] Instance key_eq_dec : EqDecision key.
Proof. solve_decision. Defined.

Record desk := {
  dk_wire : wire;
  dk_keys : list key;
  dk_window : option (Z * Z * Z * Z);
  dk_vars : list (bytes * bytes);
  dk_out : bytes;
  dk_err : bytes;
}.

Definition set_dk_wire (v : wire) (x : desk) : desk :=
  {| dk_wire := v; dk_keys := dk_keys x; dk_window := dk_window x; dk_vars := dk_vars x; dk_out := dk_out x; dk_err := dk_err x |}.
Definition set_dk_keys (v : list key) (x : desk) : desk :=
  {| dk_wire := dk_wire x; dk_keys := v; dk_window := dk_window x; dk_vars := dk_vars x; dk_out := dk_out x; dk_err := dk_err x |}.
Definition set_dk_out (v : bytes) (x : desk) : desk :=
  {| dk_wire := dk_wire x; dk_keys := dk_keys x; dk_window := dk_window x; dk_vars := dk_vars x; dk_out := v; dk_err := dk_err x |}.
Definition set_dk_err (v : bytes) (x : desk) : desk :=
  {| dk_wire := dk_wire x; dk_keys := dk_keys x; dk_window := dk_window x; dk_vars := dk_vars x; dk_out := dk_out x; dk_err := v |}.

Definition key_text (k : key) : bytes := match k with Typed t => t | Resized => [] end.
Definition desk_typed (d : desk) : bytes := concat (map key_text (dk_keys d)).
Definition desk_interrupts (d : desk) : nat := length (filter (fun k => k = Resized) (dk_keys d)).

(** What a read of [n] bytes takes from the keys. *)
Fixpoint take_keys (n : nat) (keys : list key) : read_result * list key :=
  match keys with
  | [] => (RdOk [], [])
  | Resized :: keys => (RdErr EINTR, keys)
  | Typed [] :: keys => take_keys n keys
  | Typed t :: keys => (RdOk (take n t), Typed (drop n t) :: keys)
  end.

#[export] Instance desk_fd_ops : FdOps desk := {
  adb_read fd n d := let '(r, w) := adb_read fd n (dk_wire d) in (r, set_dk_wire w d);
  adb_write fd buf d := let '(r, w) := adb_write fd buf (dk_wire d) in (r, set_dk_wire w d);
  adb_shutdown fd d := set_dk_wire (adb_shutdown fd (dk_wire d)) d;
  strerror _ := str "error";
}.

#[export] Instance desk_kernel : Kernel desk := {
  refusals _ d := length (wire_plan (dk_wire d));
  pipe_put _ _ d := (true, d);
  pipe_get _ d := (None, d);
}.

Definition desk_sys {A} (c : sys_call A) (d : desk) : A * desk :=
  match c in sys_call A return A * desk with
  | c_stat _ | c_lstat _ => (inl ENOENT, d)
  | c_readdir _ | c_readlink _ | c_ReadFileToString _ | c_open _ _ _ | c_creat _ _ => (inl ENOENT, d)
  | c_close _ | c_unlink _ | c_fchmod _ _ | c_restorecon _ | c_removexattr _ => (tt, d)
  | c_mkdir _ _ | c_symlink _ _ | c_chown _ _ _ | c_fchown _ _ _ | c_chmod _ _ | c_setxattr _ _ _ | c_utime _ _ _ => (inr tt, d)
  | c_umask => (0x12%Z, d)
  | c_poll _ => (inr false, d)
  end.

#[export] Instance desk_sys_calls : SysCalls desk := {
  sys _ c d := desk_sys c d;
  fs_config _ _ mode := (0, 0, mode, 0)%Z;
  back_of_empty := NUL;
}.

#[export] Instance desk_client_os : ClientOs desk := {
  launch_server _ := ret (-1)%Z;
  eprint s d := set_dk_err (dk_err d ++ s) d;
}.

Definition desk_var (name : bytes) (d : desk) : option bytes :=
  option_map snd (List.find (fun '(n, _) => bool_decide (n = name)) (dk_vars d)).

Definition desk_tool {A} (c : tool_call unit A) (d : desk) : A * desk :=
  match c in tool_call _ A return A * desk with
  | t_getenv name => (desk_var name d, d)
  | t_isatty _ => (true, d)
  | t_tcgetattr _ => (Some tt, d)
  | t_tcsetattr _ _ => (tt, d)
  | t_window _ => (option_map (fun '(r, c, x, y) => (r mod 2 ^ 16, c mod 2 ^ 16, x mod 2 ^ 16, y mod 2 ^ 16)%Z) (dk_window d), d)
  | t_read_interruptible _ n => let '(r, keys) := take_keys (Z.to_nat n) (dk_keys d) in (r, set_dk_keys keys d)
  | t_read_stdin _ => (RdOk [], d)
  | t_close_stdin | t_sndbuf _ _ | t_sleep _ | t_dup2 _ _ | t_getopt_error _ _ | t_trace_auth => (tt, d)
  | t_lseek _ offset | t_lseek_end _ offset => (inr offset, d)
  | t_getcwd => (inr (str "/"), d)
  | t_homedir | t_executable_path => (str "/", d)
  | t_execvp _ _ | t_execv _ _ => (None, d)
  | t_adb_server_main _ _ _ _ | t_adb_auth_keygen _ | t_getuid => (0%Z, d)
  | t_pipe => (inr (3, 4)%Z, d)
  end.

#[export] Instance desk_terminal_tool : Tool desk := {
  tty := unit;
  raw_mode t := t;
  zero_tty := tt;
  tool_sys _ c d := desk_tool c d;
  oprint s d := set_dk_out (dk_out d ++ s) d;
  tool_fork _ d := (inr 100%Z, d);
  start_tool_thread _ d := d;
  fresh_buffer := replicate 40 NUL;
  stack_garbage := replicate 256 NUL;
  BUFSIZ := 64;
  adb_version := str "adb";
  ratio_text _ _ := [];
}.

#[export] Instance desk_net : Net desk := {
  network_loopback_client _ := ret ((-1)%Z, []);
  network_loopback_server _ := ret ((-1)%Z, []);
  network_inaddr_any_server _ := ret ((-1)%Z, []);
  network_connect _ _ := ret ((-1)%Z, []);
  network_local_client _ _ := ret ((-1)%Z, []);
  network_local_server _ _ := ret ((-1)%Z, []);
  adb_socket_get_local_port _ := ret (-1)%Z;
  disable_tcp_nagle _ := ret tt;
  adb_socket_accept _ := ret (-1)%Z;
}.

#[export] Instance desk_clock : Clock desk := { rate_text _ _ := [] }.

Definition desk_in (d : desk) : bytes := wire_in (dk_wire d).
Definition desk_sent (d : desk) : bytes := wire_tx (dk_wire d).

Lemma take_keys_spec n keys r keys' : 0 < n -> take_keys n keys = (r, keys') ->
  match r with
  | RdOk bs => concat (map key_text keys) = bs ++ concat (map key_text keys') /\ length bs <= n /\
      (bs = [] -> concat (map key_text keys) = []) /\
      length (filter (fun k => k = Resized) keys') <= length (filter (fun k => k = Resized) keys)
  | RdErr x => x = EINTR /\ concat (map key_text keys') = concat (map key_text keys) /\
      length (filter (fun k => k = Resized) keys') < length (filter (fun k => k = Resized) keys)
  end.
Proof.
  intros Hn. induction keys as [|[[|a t]|] keys IH]; cbn [take_keys].
  - intros [= <- <-]. split_and!; try done. cbn. lia.
  - intros Hr. specialize (IH Hr). rewrite filter_cons_False by done. exact IH.
  - intros [= <- <-]. rewrite !filter_cons_False by done. cbn [map concat key_text]. rewrite app_assoc, take_drop, length_take.
    split_and!; [done|lia| |done]. destruct n; [lia|done].
  - intros [= <- <-]. rewrite (filter_cons_True _ Resized) by done. cbn. split_and!; [done|done|lia].
Qed.

Lemma desk_read fd n d : adb_read fd n d = let '(r, w) := adb_read fd n (dk_wire d) in (r, set_dk_wire w d).
Proof. done. Qed.
Lemma desk_write fd buf d : adb_write fd buf d = let '(r, w) := adb_write fd buf (dk_wire d) in (r, set_dk_wire w d).
Proof. done. Qed.

#[export] Instance desk_terminal : ClientTerminal desk 7 desk_in desk_sent dk_out dk_err desk_typed desk_interrupts.
Proof.
  split.
  - split.
    + intros n d Hn. destruct (stream_read (fd := 7%Z) n (dk_wire d) Hn) as (bs & w & Hr & H1 & H2 & H3 & H4 & H5).
      exists bs, (set_dk_wire w d). by rewrite desk_read, Hr.
    + intros buf d Hb. destruct (stream_write (fd := 7%Z) buf (dk_wire d) Hb) as [(n & w & Hw & H)|(w & Hw & H)]; [left; exists n|right];
        exists (set_dk_wire w d); by rewrite desk_write, Hw.
  - intros n d r d'. rewrite desk_read. destruct (adb_read 7 n (dk_wire d)). by intros [= <- <-].
  - intros buf d r d'. rewrite desk_write. destruct (adb_write 7 buf (dk_wire d)). by intros [= <- <-].
  - done.
  - done.
  - intros n d r d' Hn. cbn. destruct (take_keys (Z.to_nat n) (dk_keys d)) as [r' keys] eqn:Hk. intros [= <- <-]. split; [done|].
    apply take_keys_spec in Hk; [|lia]. destruct r' as [bs|x]; [|done]. destruct Hk as (H1 & H2 & H3 & H4). split_and!; [done|lia|done|done].
  - intros d a d'. cbn. intros [= <- <-]. split_and!; [done..|]. destruct (dk_window d) as [[[[r c] x] y]|]; [|done]. cbn.
    repeat constructor; apply Z.mod_pos_bound; lia.
  - cbn. by intros t d d' [= <-].
Qed.

(** A terminal with keys, and a connection that has [rx] to say and takes what
    [plan] says. *)
Definition new_desk (rx : list bytes) (plan : list nat) (keys : list key) (vars : list (bytes * bytes)) : desk :=
  {| dk_wire := {| wire_rx := rx; wire_tx := []; wire_plan := plan |}; dk_keys := keys;
     dk_window := Some (24, 80, 640, 480)%Z; dk_vars := vars; dk_out := []; dk_err := [] |}.
