(* ===== verification/ClientRequests.v ===== *)
(** * The requests of the client, as they are understood

    What the command line sends is what the daemon (services.cpp), the server
    (services.cpp, adb.cpp) and a new server (adb.cpp, commandline.cpp) find in
    it. *)

From S2P Require Import Prelude LibBase Packet AdbIo FdEvent Transport World SmartText Sockets SocketIo SocketSpec AdbUtils Requests Services.
From S2P Require Import FileSync AdbClient SyncClient SyncCommands Terminal LinePrinter ShellClient Bugreport ClientCommands Commandline.
From S2P Require Import ShellProtocol ShellService ShellStreams ClientStreams ClientDemo SyncDemo Demo.

(** ** The shell service *)

Section Shell.
Context {E : Type} {KE : Kernel E} {SC : SysCalls E} {LB : LibBase} {LBL : LibBaseLaws LB} {N : Net E} {CO : ClientOs E} {TL : Tool E}.

(** The environment variable, if it is asked for. *)
Definition term_of (use_shell_protocol : bool) (e : E) : option bytes :=
  if use_shell_protocol then fst (tool_sys (t_getenv (str "TERM")) e) else None.

(** The arguments of the request. *)
Definition shell_request_args (use_shell_protocol : bool) (type_arg : bytes) (term : option bytes) : list bytes :=
  (if use_shell_protocol then kShellServiceArgShellProtocol :: match term with Some t => [str "TERM=" ++ t] | None => [] end else []) ++
  match type_arg with [] => [] | _ => [type_arg] end.

Lemma shell_request_text use type_arg command e : NUL ∉ command -> Forall (fun a => NUL ∉ a) (shell_request_args use type_arg (term_of use e)) ->
  exists e', ShellServiceString use type_arg command e =
    Done (str "shell" ++ (match shell_request_args use type_arg (term_of use e) with [] => [] | _ => str "," end) ++
          intercalate comma (shell_request_args use type_arg (term_of use e)) ++ colon :: command) e'.
Proof.
  intros Hc Ha. assert (Hj : c_str (Join (shell_request_args use type_arg (term_of use e)) comma) = intercalate comma (shell_request_args use type_arg (term_of use e))).
  { rewrite Join_spec. apply c_str_no_nul. clear Hc. induction Ha as [|a l H1 _ IH]; [by apply not_elem_of_nil|].
    destruct l as [|b l]; [done|]. rewrite intercalate_cons by done. set_solver. }
  unfold ShellServiceString, bind, term_of in *. destruct use.
  - unfold tool. destruct (tool_sys _ e) as [t e'] eqn:Ht. cbn [fst] in *. exists e'. unfold ret. rewrite (c_str_no_nul command) by done. by rewrite <- Hj.
  - exists e. unfold ret. rewrite (c_str_no_nul command) by done. by rewrite <- Hj.
Qed.
(** The daemon's reading of the arguments, one after the other. *)
Lemma shell_args_read use type_arg term a : type_arg ∈ [[]; kShellServiceArgRaw; kShellServiceArgPty] ->
  fold_left shell_arg (match shell_request_args use type_arg term with [] => [[]] | _ => [] :: shell_request_args use type_arg term end) a =
  {| sh_type := if bool_decide (type_arg = kShellServiceArgRaw) then kRaw
                else if bool_decide (type_arg = kShellServiceArgPty) then kPty else sh_type a;
     sh_protocol := if use then kShell else sh_protocol a;
     sh_terminal := match term with Some t => if use then t else sh_terminal a | None => sh_terminal a end |}.
Proof.
  assert (Hterm : forall t b, shell_arg b (str "TERM=" ++ t) = {| sh_type := sh_type b; sh_protocol := sh_protocol b; sh_terminal := t |}).
  { intros t b. unfold shell_arg. rewrite !bool_decide_false by (intros H0; by apply (f_equal head) in H0).
    by rewrite StartsWith_spec, is_prefix_app. }
  assert (Hempty : forall b, shell_arg b [] = b) by (intros b; unfold shell_arg; rewrite StartsWith_spec; by destruct b).
  assert (Hv2 : forall b, shell_arg b kShellServiceArgShellProtocol = {| sh_type := sh_type b; sh_protocol := kShell; sh_terminal := sh_terminal b |}) by done.
  assert (Hraw : forall b, shell_arg b kShellServiceArgRaw = {| sh_type := kRaw; sh_protocol := sh_protocol b; sh_terminal := sh_terminal b |}) by done.
  assert (Hpty : forall b, shell_arg b kShellServiceArgPty = {| sh_type := kPty; sh_protocol := sh_protocol b; sh_terminal := sh_terminal b |}) by done.
  intros Ht. elem_cases Ht; destruct use, term as [t|]; unfold shell_request_args;
    try change kShellServiceArgRaw with (hd NUL kShellServiceArgRaw :: tl kShellServiceArgRaw) at 1;
    try change kShellServiceArgPty with (hd NUL kShellServiceArgPty :: tl kShellServiceArgPty) at 1;
    cbn [app fold_left]; cbn [hd tl]; rewrite ?Hempty, ?Hv2, ?Hterm, ?Hraw, ?Hpty; by destruct a.
Qed.

(** C34: The daemon finds in the request for the shell service what the client
    put there: the command, byte for byte; a terminal or none as the client
    chose, or, when the client left that open, a terminal exactly if there is no
    command; the shell protocol exactly if the client uses it; and then the type
    of the client's terminal. *)
Theorem shell_request_parsed use type_arg command (e : E) :
  NUL ∉ command -> type_arg ∈ [[]; kShellServiceArgRaw; kShellServiceArgPty] ->
  (forall t, term_of use e = Some t -> comma ∉ t /\ colon ∉ t /\ NUL ∉ t) ->
  exists args e', ShellServiceString use type_arg command e = Done (str "shell" ++ args) e' /\
    parse_shell args =
      Some (command, {| sh_type := if bool_decide (type_arg = kShellServiceArgRaw) then kRaw
                                   else if bool_decide (type_arg = kShellServiceArgPty) then kPty
                                   else if bool_decide (command = []) then kPty else kRaw;
                        sh_protocol := if use then kShell else kNone;
                        sh_terminal := default (str "dumb") (term_of use e) |}).
Proof.
  intros Hc Ht Hterm. set (l := shell_request_args use type_arg (term_of use e)).
  assert (Hl : Forall (fun a => comma ∉ a /\ colon ∉ a /\ NUL ∉ a) l).
  { unfold l, shell_request_args. apply Forall_app. split.
    - destruct use; [|done]. constructor; [by by_decide|]. destruct (term_of true e) as [t|]; [|done]. apply Forall_singleton.
      destruct (Hterm t eq_refl) as (H1 & H2 & H3). rewrite !not_elem_of_app. split_and!; try done; by by_decide.
    - elem_cases Ht; repeat constructor; by by_decide. }
  destruct (shell_request_text use type_arg command e Hc) as (e' & Hs); [eapply Forall_impl; [exact Hl|]; by intros a (_ & _ & ?)|]. fold l in Hs.
  set (text := (match l with [] => [] | _ => str "," end) ++ intercalate comma l).
  assert (Hcol : colon ∉ text).
  { unfold text. rewrite not_elem_of_app. split; [destruct l; by by_decide|]. clear -Hl. induction Hl as [|a l (_ & H1 & _) _ IH]; [by apply not_elem_of_nil|].
    destruct l as [|b l]; [done|]. rewrite intercalate_cons by done. rewrite not_elem_of_app, not_elem_of_cons. by split_and!. }
  exists (text ++ colon :: command), e'. split; [rewrite Hs; unfold text; by rewrite <- !app_assoc|].
  unfold parse_shell. rewrite index_of_app by done. rewrite take_app_length.
  replace (drop (S (length text)) (text ++ colon :: command)) with command
    by (rewrite drop_app_ge by lia; by replace (S (length text) - length text) with 1 by lia).
  assert (Hsplit : fold_left shell_arg (Split text comma) = fold_left shell_arg (match l with [] => [[]] | _ => [] :: l end)).
  { f_equal. unfold text. destruct l as [|a l']; [by apply Split_single, not_elem_of_nil|].
    apply (Split_intercalate comma ([] :: a :: l')); [done|]. constructor; [apply not_elem_of_nil|].
    eapply Forall_impl; [exact Hl|]. by intros ? [? _]. }
  rewrite Hsplit. do 2 f_equal. etrans; [unfold l; by apply (shell_args_read use type_arg (term_of use e))|]. cbn [sh_type sh_protocol sh_terminal].
  clear. by destruct use; [destruct (term_of true e)|].
Qed.

End Shell.

(** ** Waiting for a device *)

Section Wait.
Context {LB : LibBase} {LBL : LibBaseLaws LB}.

(** Every request to wait that the client makes is one the server
    understands: it names a transport and a state the server knows.  The
    transport is the one in the text, or the one of the options when the text
    has none. *)
Theorem wait_request_understood service type request :
  wait_request service type = inr request -> is_prefix (str "wait-for-") service = true ->
  exists name type' name' state, request = str "wait-for-" ++ name /\ SocketIo.wait_type name = Some (type', name') /\
    SocketIo.wait_state name' = Some state /\
    (length (Split service dash) = 3 -> type' = match type with kTransportHost => kTransportAny | t => t end).
Proof.
  unfold wait_request. intros Hw Hp. apply is_prefix_spec in Hp as [name Hn].
  assert (Hs : Split service dash = str "wait" :: str "for" :: Split name dash).
  { apply (intercalate_inj dash); [apply Split_nonempty|done|apply Split_pieces| |].
    - constructor; [by by_decide|]. constructor; [by by_decide|apply Split_pieces].
    - rewrite Split_Join. rewrite 2 intercalate_cons by (try done; apply Split_nonempty). rewrite Split_Join. by rewrite Hn. }
  rewrite Hs in *. destruct (Split name dash) as [|x [|y [|z l]]] eqn:Hsn; [done| | |done].
  - case_bool_decide as Hst; [|done]. injection Hw as <-. rewrite Join_spec. unfold wait_states in Hst.
    elem_cases Hst; destruct type; cbn; rewrite ?StartsWith_spec; eexists _, _, _, _; (split; [reflexivity|]);
      unfold SocketIo.wait_type; rewrite !StartsWith_spec; vm_compute; split_and!; done.
  - case_bool_decide as Hty; [|done]. case_bool_decide as Hst; [|done]. injection Hw as <-. rewrite Join_spec.
    unfold wait_states, wait_types in *. elem_cases Hty; elem_cases Hst; eexists _, _, _, _; (split; [reflexivity|]);
      unfold SocketIo.wait_type; rewrite !StartsWith_spec; vm_compute; split_and!; done.
Qed.

End Wait.

(** ** Forwarding *)

Section Forward.
Context {LB : LibBase} {LBL : LibBaseLaws LB}.

Definition forward_options : list bytes := [str "--list"; str "--remove-all"; str "--remove"; str "--no-rebind"].

(** Names that a request can hold: [;] separates them, [*] marks the names the
    server keeps to itself, and the first words of a request are taken. *)
Record forwardable (local remote : bytes) : Prop := {
  local_plain : semicolon ∉ local /\ local <> [] /\ is_prefix (str "norebind:") local = false /\ local ∉ forward_options;
  remote_plain : semicolon ∉ remote /\ remote <> [] /\ head remote <> Some (byte_of 42);
}.

(** The server finds in a request to forward, or not to any more, the names
    that were given on the command line, and whether an old forwarding may be
    replaced. *)
Theorem forward_request_parsed prefix local remote (rebind : bool) :
  forwardable local remote -> forward_targets_are_valid local remote = None ->
  (exists service, (if rebind then forward_request prefix local [remote] else forward_request prefix (str "--no-rebind") [local; remote]) =
                   Forward (prefix ++ str ":" ++ service) /\
     exists text, parse_forward service = Some {| fr_kill := false; fr_no_rebind := negb rebind; fr_text := text |} /\
       forward_pieces false text = Some (local, remote)) /\
  (exists service, forward_request prefix (str "--remove") [local] = Forward (prefix ++ str ":" ++ service) /\
     parse_forward service = Some {| fr_kill := true; fr_no_rebind := false; fr_text := local |} /\
     forward_pieces true local = Some (local, [])).
Proof.
  intros [(Hs & Hl & Hr & Ho) (Hs' & Hr' & Hh)] Hv.
  assert (Hpieces : forward_pieces false (local ++ str ";" ++ remote) = Some (local, remote)).
  { unfold forward_pieces. rewrite (Split_intercalate semicolon [local; remote]) by (done || by repeat constructor).
    by rewrite !bool_decide_false by done. }
  split.
  - destruct rebind; [exists (str "forward:" ++ local ++ str ";" ++ remote)|exists (str "forward:norebind:" ++ local ++ str ";" ++ remote)]; split.
    + unfold forward_request, forward_targets. unfold forward_options in Ho. rewrite !not_elem_of_cons in Ho. destruct Ho as (? & ? & ? & ? & _).
      by rewrite !bool_decide_false, Hv by done.
    + exists (local ++ str ";" ++ remote). split; [|done]. unfold parse_forward. cbn [is_prefix]. rewrite StartsWith_spec.
      change (drop 8 (str "forward:" ++ local ++ str ";" ++ remote)) with (local ++ str ";" ++ remote).
      enough (is_prefix (str "norebind:") (local ++ str ";" ++ remote) = false) as -> by done.
      destruct (is_prefix _ (_ ++ _)) eqn:He; [|done]. exfalso. apply is_prefix_spec in He as [t Ht]. revert Hr Ht. clear -Hs.
      assert (Hn : semicolon ∉ str "norebind:") by by_decide. revert Hn Hs. generalize (str "norebind:") as p. intros p Hn Hs.
      revert local Hs. induction p as [|a p IH]; intros [|b local] Hs Hp Ht; cbn [is_prefix app] in *; try done.
      * injection Ht as <- _. apply Hn. left.
      * injection Ht as -> Ht. rewrite Ascii.eqb_refl in Hp. eapply (IH ltac:(set_solver) local); [set_solver|exact Hp|exact Ht].
    + unfold forward_request, forward_targets. cbn [bool_decide]. rewrite bool_decide_false by done. rewrite bool_decide_false by done.
      rewrite bool_decide_false by done. rewrite bool_decide_true by done. by rewrite Hv.
    + exists (local ++ str ";" ++ remote). split; [|done]. unfold parse_forward. by rewrite StartsWith_spec.
  - exists (str "killforward:" ++ local). split_and!; [done|done|].
    unfold forward_pieces. rewrite (Split_single semicolon) by done. by rewrite bool_decide_false.
Qed.

End Forward.

(** ** A new server *)

Section Server.
Context {E : Type} {KE : Kernel E} {SC : SysCalls E} {B : Build} {PF : Platform} {LB : LibBase} {SO : SetOrder} {N : Net E}.
Context {CO : ClientOs E} {HE : HostErrno} {CK : Clock E} {TL : Tool E}.

Lemma strtol_dec z : (0 < z < 2 ^ 63)%Z -> strtol (dec z) 10 = z.
Proof.
  intros Hz. pose proof (dec_digits z ltac:(lia)) as Hd. unfold dec in *. rewrite (proj2 (Z.ltb_ge z 0)) in * by lia.
  assert (Hh : exists a ds, print_num 10 z = a :: ds /\ a <> zero_c).
  { apply to_digits_head; [lia|lia|]. apply log2_fuel; lia. }
  destruct Hh as (a & ds & He & Ha). pose proof (num_acc_print 10 z ltac:(lia) ltac:(lia)) as Hv. rewrite He in *.
  apply Forall_cons in Hd as [H1 _]. destruct (digit_not_special _ _ H1) as (Hs & Hm & Hp & _).
  unfold strtol, scan_number. cbn [skip_spaces]. rewrite Hs, Hm, Hp. cbn [Z.eqb Pos.eqb orb andb]. rewrite Hv. lia.
Qed.

Lemma i32_small z : (- 2 ^ 31 <= z < 2 ^ 31)%Z -> i32 z = z.
Proof. intros Hz. unfold i32. rewrite Z.mod_small by lia. lia. Qed.

(** The process that [launch_server] starts runs the server: its arguments
    are taken as a server in the background, which listens where the client
    said, whatever the environment says, and reports to the descriptor of the
    pipe.  That the client was asked to listen on all interfaces is not among
    the arguments. *)
Theorem server_arguments_parsed fuel depth socket_spec reply_fd (e : E) : (2 < reply_fd < 2 ^ 31)%Z ->
  exists e1, adb_commandline fuel depth (server_arguments socket_spec reply_fd) e =
    (let* r := tool (t_adb_server_main true false socket_spec reply_fd) in
     when (negb (r =? 0)%Z) (err (str "* could not start server *" ++ newline)) ;;; ret r) e1.
Proof.
  intros Hfd. exists (snd (tool_sys (t_getenv (str "ANDROID_SERIAL")) e)).
  assert (Hset : set_reply_fd (dec reply_fd) (set_go_server true (set_go_daemon true (set_go_socket (Some socket_spec) no_options))) =
                 inr (set_go_reply_fd reply_fd (set_go_server true (set_go_daemon true (set_go_socket (Some socket_spec) no_options))))).
  { unfold set_reply_fd. rewrite strtol_dec, i32_small by lia. unfold _is_valid_ack_reply_fd. by rewrite (proj2 (Z.ltb_lt _ _)) by lia. }
  unfold adb_commandline, server_arguments. cbn [parse_global_options].
  change (global_option_of (str "-L")) with (Argument (str "-L requires an argument") (accept set_go_socket)).
  change (global_option_of (str "fork-server")) with (Flag (set_go_daemon true)).
  change (global_option_of (str "server")) with (Flag (set_go_server true)).
  change (global_option_of (str "--reply-fd")) with (Argument (str "--reply-fd requires an argument") set_reply_fd).
  cbn [accept]. rewrite Hset. unfold bind, ret. cbn -[str].
  assert (Hg : tool (t_getenv (str "ANDROID_SERIAL")) e = Done (fst (tool_sys (t_getenv (str "ANDROID_SERIAL")) e)) (snd (tool_sys (t_getenv (str "ANDROID_SERIAL")) e)))
    by (unfold tool; by destruct (tool_sys _ e)).
  unfold run_server. cbn -[str]. rewrite (proj2 (Z.eqb_neq reply_fd (-1))) by lia. unfold bind. by rewrite Hg.
Qed.

End Server.

(** ** Examples *)

Definition xterm_desk : desk := new_desk [] [] [] [(str "TERM", str "xterm-256color")].

Lemma shell_request_parsed_witness :
  exists args e', ShellServiceString true [] (str "ls -l /") xterm_desk = Done (str "shell" ++ args) e' /\
    parse_shell args = Some (str "ls -l /", {| sh_type := kRaw; sh_protocol := kShell; sh_terminal := default (str "dumb") (term_of true xterm_desk) |}).
Proof.
  apply (shell_request_parsed true [] (str "ls -l /") xterm_desk); [by_decide|by_decide|].
  intros t Ht. injection Ht as <-. split_and!; by_decide.
Defined.

(** The hypothesis about the variable is needed: a type of a terminal with a
    colon becomes a part of the command. *)
Example colon_in_TERM :
  match ShellServiceString true [] (str "ls") (new_desk [] [] [] [(str "TERM", str "a:rm ")]) with
  | Done service _ => option_map fst (parse_shell (drop 5 service)) = Some (str "rm :ls")
  | _ => False
  end.
Proof. by vm_compute. Qed.

Lemma wait_request_understood_witness :
  exists name type' name' state, str "wait-for-usb-recovery" = str "wait-for-" ++ name /\ SocketIo.wait_type name = Some (type', name') /\
    SocketIo.wait_state name' = Some state /\
    (length (Split (str "wait-for-recovery") dash) = 3 -> type' = kTransportUsb).
Proof. by apply (wait_request_understood (str "wait-for-recovery") kTransportUsb (str "wait-for-usb-recovery")). Defined.

Lemma forward_request_parsed_witness :
  (exists service, forward_request (str "host") (str "tcp:6100") [str "localabstract:a"] = Forward (str "host" ++ str ":" ++ service) /\
     exists text, parse_forward service = Some {| fr_kill := false; fr_no_rebind := negb true; fr_text := text |} /\
       forward_pieces false text = Some (str "tcp:6100", str "localabstract:a")) /\
  (exists service, forward_request (str "host") (str "--remove") [str "tcp:6100"] = Forward (str "host" ++ str ":" ++ service) /\
     parse_forward service = Some {| fr_kill := true; fr_no_rebind := false; fr_text := str "tcp:6100" |} /\
     forward_pieces true (str "tcp:6100") = Some (str "tcp:6100", [])).
Proof.
  apply (forward_request_parsed (str "host") (str "tcp:6100") (str "localabstract:a") true); [|reflexivity].
  split; split_and!; first [by_decide|reflexivity|discriminate].
Defined.

#[local] Instance linux_host : Platform := {| ADB_LINUX := true; ADB_WINDOWS := false; gListenAll := false |}.
#[local] Instance on_server : Build := server_build.

Lemma server_arguments_parsed_witness :
  exists e1, adb_commandline 9 9 (server_arguments (str "tcp:5037") 12) xterm_desk =
    (let* r := tool (t_adb_server_main true false (str "tcp:5037") 12) in
     when (negb (r =? 0)%Z) (err (str "* could not start server *" ++ newline)) ;;; ret r) e1.
Proof. apply (server_arguments_parsed 9 9 (str "tcp:5037") 12 xterm_desk). lia. Defined.
