(* ===== verification/ShellSession.v ===== *)
(** * A session of the shell, from the process to the terminal and back

    The thread of a subprocess on the device (shell_service.cpp) and the client
    (commandline.cpp), with a connection between them that may end at any
    place. *)

From S2P Require Import Prelude LibBase Packet AdbIo Transport World SmartText SocketSpec ShellProtocol Services ShellService.
From S2P Require Import ShellStreams ShellPass ShellLoop ShellProps.
From S2P Require Import FileSync AdbClient Terminal ClientStreams ClientDump ClientDemo.

(** ** The device *)

Section Device.
Context {D : Type} {KD : Kernel D} {KL : KernelLaws D} {SO : ShellOs D} {LB : LibBase}.
Context {got took : Z -> D -> bytes} {events : D -> nat} {FH : FdHistory D got took events}.
Implicit Types (s : Subprocess D).

(** Whoever is waited for has ended so. *)
Definition ends_with (st : wait_status) : Prop :=
  forall pid (d : D), exists d', shell_sys (p_waitpid pid) d = ((pid, Some st), d').

Lemma resets_streams N C ps (Q : unit -> Subprocess D -> Prop) s :
  (forall s', same_reads (got := got) s s' -> same_writes (took := took) s s' -> Q tt s') -> cwp N C (iter_list (fun p => reset p (-1)%Z) ps) Q s.
Proof.
  revert s. induction ps as [|p ps IH]; intros s HQ; cbn [iter_list]; [by apply cwp_ret, HQ|].
  apply cwp_bind. apply (reset_streams (got := got) (took := took) (events := events)). intros s1 _ Hg Ht. apply IH.
  intros s2 Hg2 Ht2. apply HQ; intros fd; by rewrite ?Hg2, ?Ht2.
Qed.

(** What the thread says, from its start to its end. *)
Lemma ThreadHandler_says (N : Prop) P O R turns fuel s st :
  three_fds P O R -> set_up P O R s -> 3 <= turns -> N \/ select_ends (events := events) /\ events (sub_env s) < fuel -> 0 < fuel ->
  ends_with st -> P <> SHELL_EXIT_NOTIFY_FD -> (0 <= SHELL_EXIT_NOTIFY_FD)%Z ->
  cwp N sscanf_reads_on (ThreadHandler turns fuel)
    (fun _ s' => exists outs sent,
       Forall output_packet outs /\ took P (sub_env s') = took P (sub_env s) ++ sent /\
       sent `prefix_of` shell_wire outs ++ exit_packet (exit_code st) /\
       got O (sub_env s') = got O (sub_env s) ++ payloads kIdStdout outs /\
       got R (sub_env s') = got R (sub_env s) ++ payloads kIdStderr outs) s.
Proof.
  intros H3 Hup Ht HN Hf Hend Hne Hnote. unfold ThreadHandler. apply cwp_bind.
  eapply cwp_mono; [by eapply (PassDataStreams_passing P O R (sub_env s) H3)|].
  intros [] s1 [_ (outs & [HP _ _ [Hobj (w & Hw & Hpre & Hall) Hids Ho1 Ho2] _ _ _])].
  unfold delete_subprocess. apply cwp_bind. destruct (Hend (pid_ s1) (sub_env s1)) as [d' Hwait].
  assert (Hsafe : forall (m : M (Subprocess D) unit) Q s, cwp False (fun _ => False) m Q s -> cwp N sscanf_reads_on m Q s).
  { intros m Q s0. unfold cwp. by destruct (m s0). }
  pose proof (fds_proto _ _ _ H3) as HPr.
  apply Hsafe. apply (WaitForExit_streams (got := got) (took := took) (events := events) P fuel s1 st d'); [done..|lia|done|done|done|].
  intros s2 sent noted _ Hg2 Ht2 Hpre2 Hclosed _ _ _. apply (resets_streams N). intros s3 Hg3 Ht3.
  exists outs, (w ++ sent). rewrite Ht3, Hg3, Hg3, Hg2, Hg2, Ht2, Hw, <- app_assoc. split; [|split; [done|split; [|done]]].
  - eapply Forall_impl; [exact Hids|]. by intros [id bs] [? ?].
  - destruct (decide (sfds s1 protocol_sfd_ = (-1)%Z)) as [Hc|Hc].
    + rewrite Hclosed, app_nil_r by done. by apply prefix_app_r.
    + rewrite Hall by done. by apply prefix_app.
Qed.

(** ** Both ends *)

Context {E : Type} {KE : Kernel E} {SC : SysCalls E} {CO : ClientOs E} {TL : Tool E}.
Context (fd : Z) (rx tx shown shown_err typed : E -> bytes) (interrupts : E -> nat).
Context {CT : ClientTerminal E fd rx tx shown shown_err typed interrupts}.


End Device.

(** The process writes in pieces and exits with 3; its errors go apart. *)
Lemma hub_ends : ends_with (D := hub) (Exited 3).
Proof. intros pid h. by exists h. Qed.


(** ** Typing *)

(** What the device is given of what the client sends. *)
Definition carried (protocol : bool) (sent : bytes) : bytes :=
  if protocol then snd (unframe (InHeader []) sent) else sent.

Lemma says_carried protocol sent text : says protocol sent text ->
  carried protocol (sent ++ at_end protocol) = text /\ carried protocol sent = text.
Proof.
  destruct protocol; unfold carried, says, at_end; [|intros ->; by rewrite app_nil_r].
  intros (ps & -> & Hps & <-). split.
  - rewrite unframe_app, (unframe_input ps Hps), unframe_packet by done.
    cbn. by rewrite app_nil_r.
  - by rewrite (unframe_input ps Hps).
Qed.

Section Typing.
Context {E : Type} {KE : Kernel E} {SC : SysCalls E} {CO : ClientOs E} {TL : Tool E}.
Context (fd : Z) (rx tx shown shown_err typed : E -> bytes) (interrupts : E -> nat).
Context {CT : ClientTerminal E fd rx tx shown shown_err typed interrupts}.

(** C10: What is typed at a terminal in raw mode reaches the process: a text with
    the escape character typed twice where it starts a line arrives exactly as
    meant and never ends the session, changes of the window between the keys or
    not; and the escape character and a dot, at the start of a line, end the
    client with status 0 after everything before them was sent.  The thread
    always ends. *)
Theorem typed_text_arrives fuel a saved text more (e : E) :
  let esc := escape_char a in let packets := is_some (protocol a) in
  stdin_fd a = STDIN_FD -> write_fd a = fd -> parses_escapes a = true -> client_protocol fd (protocol a) -> (0 < BUFSIZ)%Z ->
  length (typed e) + interrupts e < fuel ->
  (typed e = guarded esc true text ->
     exists e' sent, stdin_read_thread_loop fuel a saved e = Done tt e' /\ tx e' = tx e ++ sent /\ carried packets sent = text) /\
  (line_after esc true text = true -> esc <> byte_of 46 -> typed e = guarded esc true text ++ esc :: byte_of 46 :: more ->
     exists e' sent, stdin_read_thread_loop fuel a saved e = Exit 0 e' /\ tx e' = tx e ++ sent /\ carried packets sent = text).
Proof.
  intros esc packets Hin Hfd Hpe Hp Hb Hf. unfold stdin_read_thread_loop.
  destruct (send_window_size_change_spec fd rx tx shown shown_err typed interrupts (protocol a) e Hp) as (p1 & s1 & e1 & Hw & Hp1 & Hs1 & Ht1 & Hsay1 & Hk1 & Hi1).
  pose proof (stdin_loop_spec fd rx tx shown shown_err typed interrupts fuel a saved kStartOfLine p1 e1 Hin Hfd Hp1 Hb ltac:(rewrite Hk1, Hi1; lia)) as Hloop.
  unfold typed_sent in Hloop. rewrite Hpe, Hk1, Hs1 in Hloop. rewrite Hin. unfold bind. rewrite Hw.
  fold esc packets in Hloop, Hsay1.
  assert (Hg : forall keys, keys_sent esc kStartOfLine (guarded esc true text ++ keys) =
    (let '(sent, ended) := keys_sent esc (line_state (line_after esc true text)) keys in (text ++ sent, ended))) by exact (keys_sent_guarded esc true text).
  split.
  - intros Hk. rewrite Hk in Hloop. rewrite <- (app_nil_r (guarded esc true text)), Hg in Hloop. cbn [keys_sent] in Hloop. rewrite app_nil_r in Hloop.
    destruct Hloop as (s2 & e' & -> & Hsay2 & Ht2). exists e', (s1 ++ s2 ++ at_end packets). split; [done|]. split; [by rewrite Ht2, Ht1, <- app_assoc|].
    rewrite app_assoc. by apply (says_carried packets (s1 ++ s2) text), (says_app _ s1 []).
  - intros Hl Hd Hk. rewrite Hk, Hg, Hl in Hloop. cbn [line_state] in Hloop. rewrite keys_sent_leave in Hloop by (apply Ascii.eqb_neq; congruence). rewrite app_nil_r in Hloop.
    destruct Hloop as (s2 & e' & -> & Hsay2 & Ht2). rewrite app_nil_r in Ht2. exists e', (s1 ++ s2). split; [done|]. split; [by rewrite Ht2, Ht1, <- app_assoc|].
    by apply (says_carried packets (s1 ++ s2) text), (says_app _ s1 []).
Qed.

End Typing.

(** The keys of [~/bin], a line, and then [~.], with a change of the window. *)
Definition tilde : ascii := byte_of 126.
Definition some_line : bytes := str "~/bin" ++ [byte_of 13].
Definition typist : StdinReadArgs :=
  {| stdin_fd := STDIN_FD; write_fd := 7; raw_stdin := true; protocol := Some (new_shell_protocol 7 (replicate 40 NUL)); escape_char := tilde |}.
Definition busy_desk : desk := new_desk [] [0; 3] [Typed (str "~~/b"); Resized; Typed (str "in" ++ [byte_of 13] ++ str "~.")] [].

Lemma typed_text_arrives_witness :
  (desk_typed busy_desk = guarded tilde true some_line ->
     exists e' sent, stdin_read_thread_loop 20 typist zero_tty busy_desk = Done tt e' /\ desk_sent e' = desk_sent busy_desk ++ sent /\ carried true sent = some_line) /\
  (line_after tilde true some_line = true -> tilde <> byte_of 46 -> desk_typed busy_desk = guarded tilde true some_line ++ tilde :: byte_of 46 :: [] ->
     exists e' sent, stdin_read_thread_loop 20 typist zero_tty busy_desk = Exit 0 e' /\ desk_sent e' = desk_sent busy_desk ++ sent /\ carried true sent = some_line).
Proof.
  apply (typed_text_arrives 7 desk_in desk_sent dk_out dk_err desk_typed desk_interrupts 20 typist zero_tty some_line [] busy_desk);
    [done|done|done|split; [done|]; by vm_compute|done|vm_compute; lia].
Defined.

Example busy_desk_typed : desk_typed busy_desk = guarded tilde true some_line ++ [tilde; byte_of 46].
Proof. by vm_compute. Qed.
