(* ===== verification/UsbLinux.v ===== *)
(** * USB devices of a Linux host (client/usb_linux.cpp)

    The scan of /dev/bus/usb, the handles it makes, and the transfers on them.
    The descriptors of a device are read into an array of 4096 bytes, of which
    what was read is the beginning; the rest is what the array held before.  A
    mutex is not held while another thread may run: what the others do meanwhile
    is part of the operations that wait ([cv_wait], [reap_urb]). *)

From S2P Require Import Prelude LibBase Packet AdbIo FdEvent Transport World SmartText.
From S2P Require Import Sockets SocketIo TransportOps.

Definition ETIMEDOUT : errno_t := E_OTHER 110.

(** ** The descriptors (linux/usb/ch9.h) *)

Definition USB_DT_DEVICE : Z := 1.
Definition USB_DT_CONFIG : Z := 2.
Definition USB_DT_INTERFACE : Z := 4.
Definition USB_DT_ENDPOINT : Z := 5.
Definition USB_DT_SS_ENDPOINT_COMP : Z := 48.
Definition USB_DT_DEVICE_SIZE : Z := 18.
Definition USB_DT_CONFIG_SIZE : Z := 9.
Definition USB_DT_INTERFACE_SIZE : Z := 9.
Definition USB_DT_ENDPOINT_SIZE : Z := 7.
Definition USB_DT_SS_EP_COMP_SIZE : Z := 6.
Definition USB_ENDPOINT_XFER_BULK : Z := 2.
Definition USB_ENDPOINT_DIR_MASK : Z := 128.

Definition DEVDESC_SIZE : Z := 4096.

Definition is_adb_interface (usb_class usb_subclass usb_protocol : Z) : bool :=
  ((usb_class =? 255) && (usb_subclass =? 66) && (usb_protocol =? 1))%Z.

(** What [register_device_callback] is given besides the names. *)
Record adb_interface := {
  ai_ep_in : Z;
  ai_ep_out : Z;
  ai_number : Z;
  ai_zero_mask : Z;
  ai_max_packet_size : Z;
}.

#[export] Instance adb_interface_eq_dec : EqDecision adb_interface.
Proof. solve_decision. Defined.

Section Descriptors.
Context {W : Type}.

(** A byte of the array. *)
Definition peek (devdesc : bytes) (p : Z) : M W Z :=
  if (p <? 0)%Z then crash "read outside devdesc"
  else match devdesc !! Z.to_nat p with Some a => ret (byte_val a) | None => crash "read outside devdesc" end.

Definition peek16 (devdesc : bytes) (p : Z) : M W Z :=
  let* lo := peek devdesc p in
  let* hi := peek devdesc (p + 1) in
  ret (lo + 256 * hi)%Z.

(** Behind a companion of an endpoint, if there is one at [p]. *)
Definition skip_companion (devdesc : bytes) (bufend p : Z) : M W Z :=
  if (p + 2 <=? bufend)%Z then
    let* length := peek devdesc p in
    if negb (length =? USB_DT_SS_EP_COMP_SIZE)%Z then ret p else
    let* type := peek devdesc (p + 1) in
    ret (if (type =? USB_DT_SS_ENDPOINT_COMP)%Z then (p + USB_DT_SS_EP_COMP_SIZE)%Z else p)
  else ret p.

Definition is_endpoint (devdesc : bytes) (p : Z) : M W bool :=
  let* length := peek devdesc p in
  if negb (length =? USB_DT_ENDPOINT_SIZE)%Z then ret false else
  let* type := peek devdesc (p + 1) in
  ret (type =? USB_DT_ENDPOINT)%Z.

(** The two endpoints from [p]: where they are and what is behind them. *)
Definition find_endpoints (devdesc : bytes) (bufend p : Z) : M W (option (Z * Z * Z)) :=
  let ep1 := p in
  let* ep2 := skip_companion devdesc bufend (p + USB_DT_ENDPOINT_SIZE) in
  let* q := skip_companion devdesc bufend (ep2 + USB_DT_ENDPOINT_SIZE) in
  if (bufend <? q)%Z then ret None else
  let* ok1 := is_endpoint devdesc ep1 in
  if negb ok1 then ret None else
  let* ok2 := is_endpoint devdesc ep2 in
  ret (if ok2 then Some (ep1, ep2, q) else None).

(** The interface at [i] with these endpoints; [None]: they are not both bulk. *)
Definition describe_interface (devdesc : bytes) (i ep1 ep2 : Z) : M W (option adb_interface) :=
  let* attributes1 := peek devdesc (ep1 + 3) in
  let* attributes2 := peek devdesc (ep2 + 3) in
  if negb ((attributes1 =? USB_ENDPOINT_XFER_BULK) && (attributes2 =? USB_ENDPOINT_XFER_BULK))%Z then ret None else
  let* protocol := peek devdesc (i + 7) in
  let* size := peek16 devdesc (ep1 + 4) in
  let* address1 := peek devdesc (ep1 + 2) in
  let* address2 := peek devdesc (ep2 + 2) in
  let* number := peek devdesc (i + 2) in
  let incoming := negb (Z.land address1 USB_ENDPOINT_DIR_MASK =? 0)%Z in
  let needs_zero := (protocol =? 1)%Z in
  ret (Some {| ai_ep_in := if incoming then address1 else address2; ai_ep_out := if incoming then address2 else address1;
               ai_number := number; ai_zero_mask := if needs_zero then u32 (size - 1) else 0;
               ai_max_packet_size := if needs_zero then size else 0 |}).

Definition at_adb_interface (devdesc : bytes) (p : Z) : M W bool :=
  let* endpoints := peek devdesc (p + 4) in
  if negb (endpoints =? 2)%Z then ret false else
  let* usb_class := peek devdesc (p + 5) in
  let* usb_subclass := peek devdesc (p + 6) in
  let* usb_protocol := peek devdesc (p + 7) in
  ret (is_adb_interface usb_class usb_subclass usb_protocol).

(** The loop over the descriptors behind the configuration. *)
Fixpoint scan_descriptors (fuel : nat) (devdesc : bytes) (bufend p : Z) : M W (option adb_interface) :=
  match fuel with
  | O => no_fuel
  | S f =>
      if negb (p <? bufend)%Z then ret None else
      let* length := peek devdesc p in
      let* type := peek devdesc (p + 1) in
      if negb (type =? USB_DT_INTERFACE)%Z then scan_descriptors f devdesc bufend (p + length)
      else if negb (length =? USB_DT_INTERFACE_SIZE)%Z then ret None
      else
        let* found := at_adb_interface devdesc p in
        if negb found then scan_descriptors f devdesc bufend (p + length) else
        let* endpoints := find_endpoints devdesc bufend (p + length) in
        match endpoints with
        | None => ret None
        | Some (ep1, ep2, q) =>
            let* interface := describe_interface devdesc p ep1 ep2 in
            match interface with
            | None => scan_descriptors f devdesc bufend q
            | Some _ => ret interface
            end
        end
  end.

(** The length and the type of a descriptor. *)
Definition is_header (devdesc : bytes) (p size type : Z) : M W bool :=
  let* length := peek devdesc p in
  if negb (length =? size)%Z then ret false else
  let* t := peek devdesc (p + 1) in
  ret (t =? type)%Z.

(** What was read, [None] for a failed [read]: its -1 is a large [size_t], and
    the end is in front of the array.  The result has the index of the serial. *)
Definition parse_descriptors (fuel : nat) (before : bytes) (r : option bytes) : M W (option (adb_interface * Z)) :=
  let '(devdesc, desclength, bufend) :=
    match r with
    | Some d => (d ++ drop (length d) before, Zlen d, Zlen d)
    | None => (before, 2 ^ 64 - 1, -1)%Z
    end in
  if (desclength <? USB_DT_DEVICE_SIZE + USB_DT_CONFIG_SIZE)%Z then ret None else
  let* device := is_header devdesc 0 USB_DT_DEVICE_SIZE USB_DT_DEVICE in
  if negb device then ret None else
  let* config := is_header devdesc USB_DT_DEVICE_SIZE USB_DT_CONFIG_SIZE USB_DT_CONFIG in
  if negb config then ret None else
  let* interface := scan_descriptors fuel devdesc bufend (USB_DT_DEVICE_SIZE + USB_DT_CONFIG_SIZE) in
  match interface with
  | None => ret None
  | Some i => let* iSerialNumber := peek devdesc 16 in ret (Some (i, iSerialNumber))
  end.

End Descriptors.

(** ** The handles *)

Record urb := { urb_status : Z; urb_actual_length : Z }.

Record usb_handle := {
  path : bytes;
  uh_fd : Z;
  ep_in : Z;
  ep_out : Z;
  max_packet_size : Z;
  zero_mask : Z;
  writeable : bool;
  urb_in : urb;
  urb_out : urb;
  urb_in_busy : bool;
  urb_out_busy : bool;
  dead : bool;
  mark : bool;
  reaper_thread : option Z;
}.

(** The objects, and [g_usb_handles]. *)
Record usb_state := { us_objects : gmap Z usb_handle; us_next : Z; g_usb_handles : list Z }.

Definition set_urb_in (v : urb) (x : usb_handle) : usb_handle :=
  {| path := path x; uh_fd := uh_fd x; ep_in := ep_in x; ep_out := ep_out x;
     max_packet_size := max_packet_size x; zero_mask := zero_mask x; writeable := writeable x;
     urb_in := v; urb_out := urb_out x; urb_in_busy := urb_in_busy x;
     urb_out_busy := urb_out_busy x; dead := dead x; mark := mark x;
     reaper_thread := reaper_thread x |}.
Definition set_urb_out (v : urb) (x : usb_handle) : usb_handle :=
  {| path := path x; uh_fd := uh_fd x; ep_in := ep_in x; ep_out := ep_out x;
     max_packet_size := max_packet_size x; zero_mask := zero_mask x; writeable := writeable x;
     urb_in := urb_in x; urb_out := v; urb_in_busy := urb_in_busy x;
     urb_out_busy := urb_out_busy x; dead := dead x; mark := mark x;
     reaper_thread := reaper_thread x |}.
Definition set_urb_in_busy (v : bool) (x : usb_handle) : usb_handle :=
  {| path := path x; uh_fd := uh_fd x; ep_in := ep_in x; ep_out := ep_out x;
     max_packet_size := max_packet_size x; zero_mask := zero_mask x; writeable := writeable x;
     urb_in := urb_in x; urb_out := urb_out x; urb_in_busy := v; urb_out_busy := urb_out_busy x;
     dead := dead x; mark := mark x; reaper_thread := reaper_thread x |}.
Definition set_urb_out_busy (v : bool) (x : usb_handle) : usb_handle :=
  {| path := path x; uh_fd := uh_fd x; ep_in := ep_in x; ep_out := ep_out x;
     max_packet_size := max_packet_size x; zero_mask := zero_mask x; writeable := writeable x;
     urb_in := urb_in x; urb_out := urb_out x; urb_in_busy := urb_in_busy x; urb_out_busy := v;
     dead := dead x; mark := mark x; reaper_thread := reaper_thread x |}.
Definition set_dead (v : bool) (x : usb_handle) : usb_handle :=
  {| path := path x; uh_fd := uh_fd x; ep_in := ep_in x; ep_out := ep_out x;
     max_packet_size := max_packet_size x; zero_mask := zero_mask x; writeable := writeable x;
     urb_in := urb_in x; urb_out := urb_out x; urb_in_busy := urb_in_busy x;
     urb_out_busy := urb_out_busy x; dead := v; mark := mark x;
     reaper_thread := reaper_thread x |}.
Definition set_mark (v : bool) (x : usb_handle) : usb_handle :=
  {| path := path x; uh_fd := uh_fd x; ep_in := ep_in x; ep_out := ep_out x;
     max_packet_size := max_packet_size x; zero_mask := zero_mask x; writeable := writeable x;
     urb_in := urb_in x; urb_out := urb_out x; urb_in_busy := urb_in_busy x;
     urb_out_busy := urb_out_busy x; dead := dead x; mark := v;
     reaper_thread := reaper_thread x |}.
Definition set_reaper_thread (v : option Z) (x : usb_handle) : usb_handle :=
  {| path := path x; uh_fd := uh_fd x; ep_in := ep_in x; ep_out := ep_out x;
     max_packet_size := max_packet_size x; zero_mask := zero_mask x; writeable := writeable x;
     urb_in := urb_in x; urb_out := urb_out x; urb_in_busy := urb_in_busy x;
     urb_out_busy := urb_out_busy x; dead := dead x; mark := mark x; reaper_thread := v |}.

Definition set_us_objects (v : gmap Z usb_handle) (x : usb_state) : usb_state :=
  {| us_objects := v; us_next := us_next x; g_usb_handles := g_usb_handles x |}.
Definition set_us_next (v : Z) (x : usb_state) : usb_state :=
  {| us_objects := us_objects x; us_next := v; g_usb_handles := g_usb_handles x |}.
Definition set_g_usb_handles (v : list Z) (x : usb_state) : usb_state :=
  {| us_objects := us_objects x; us_next := us_next x; g_usb_handles := v |}.

(** Where the state of the handles is in that of the environment. *)
Class UsbState (E : Type) := {
  usb_of : E -> usb_state;
  put_usb : usb_state -> E -> E;
}.

Class UsbStateLaws (E : Type) `{UsbState E} := {
  usb_of_put u (e : E) : usb_of (put_usb u e) = u;
  put_usb_of (e : E) : put_usb (usb_of e) e = e;
  put_put_usb u v (e : E) : put_usb u (put_usb v e) = put_usb u e;
}.

(** A finished request: which one, with its status, its length and, if it was
    to read, the data. *)
Inductive reaped := ReapedIn (h status actual_length : Z) (data : bytes) | ReapedOut (h status actual_length : Z) | ReapedOther | ReapError (e : errno_t).

(** [u_names]: [opendir] and [readdir] up to the end.  [u_devdesc]: what the
    array of the scan holds before the descriptors are read. *)
Class UsbOs (E : Type) := {
  u_names : bytes -> E -> option (list bytes);
  u_open : bytes -> bool -> E -> Z * E;
  u_close : Z -> E -> E;
  u_devdesc : E -> bytes;
  u_read : Z -> Z -> E -> option bytes * E;
  u_char_device : Z -> E -> option (Z * Z);
  u_readlink : bytes -> Z -> E -> option bytes;
  u_claim_interface : Z -> Z -> E -> bool * E;
  u_file : bytes -> E -> option bytes;
  u_submit_urb : Z -> Z -> bool -> bytes -> Z -> E -> option errno_t * E;
  u_discard_urb : Z -> Z -> bool -> E -> E;
  u_cv_wait : Z -> E -> bool * E;
  u_cv_notify : Z -> E -> E;
  u_reap_urb : Z -> E -> reaped * E;
  u_kill_thread : Z -> E -> E;
  u_self : Z;
  u_errno : E -> errno_t;
}.

(** What follows the last [/]. *)
Fixpoint after_slash (s : bytes) : option bytes :=
  match s with
  | [] => None
  | a :: rest => match after_slash rest with Some t => Some t | None => if Ascii.eqb a (byte_of 47) then Some rest else None end
  end.

Definition contains_non_digit (name : bytes) : bool := negb (forallb is_digit name).

Section UsbLinux.
Context {E : Type} {K : Kernel E} {B : Build} {OS : Os E} {LB : LibBase} {US : UsbState E} {UO : UsbOs E}.
Abbreviation W := (world E).

(** *** The handles *)

Definition usb_call {A} (f : E -> A * E) : M E A := fun e => let '(a, e') := f e in Done a e'.
Definition upd_usb (f : usb_state -> usb_state) : M E unit := modify (fun e => put_usb (f (usb_of e)) e).

Definition load_usb (h : Z) : M E usb_handle :=
  fun e => match us_objects (usb_of e) !! h with Some x => Done x e | None => Crash "dangling usb_handle" end.

Definition upd_handle (h : Z) (f : usb_handle -> usb_handle) : M E unit :=
  let* x := load_usb h in
  upd_usb (fun u => set_us_objects (<[h := f x]> (us_objects u)) u).

(** The first handle with this path. *)
Fixpoint find_path (dev_name : bytes) (l : list Z) : M E (option Z) :=
  match l with
  | [] => ret None
  | h :: rest => let* x := load_usb h in if bool_decide (path x = dev_name) then ret (Some h) else find_path dev_name rest
  end.

Definition handles : M E (list Z) := gets (fun e => g_usb_handles (usb_of e)).

Definition is_known_device (dev_name : bytes) : M E bool :=
  let* l := handles in
  let* h := find_path dev_name l in
  match h with
  | Some h => upd_handle h (set_mark true) ;;; ret true
  | None => ret false
  end.

(** *** Transfers *)

(** [TEMP_FAILURE_RETRY] of [USBDEVFS_SUBMITURB]. *)
Fixpoint submit_urb (fuel : nat) (fd h : Z) (incoming : bool) (data : bytes) (len : Z) : M E (option errno_t) :=
  match fuel with
  | O => no_fuel
  | S f =>
      let* r := usb_call (u_submit_urb fd h incoming data len) in
      match r with
      | Some EINTR => submit_urb f fd h incoming data len
      | r => ret r
      end
  end.

Definition errno_of_status (status : Z) : errno_t := E_OTHER (- status).

Fixpoint await_write (fuel : nat) (h : Z) : M E (errno_t + Z) :=
  match fuel with
  | O => no_fuel
  | S f =>
      let* timeout := usb_call (u_cv_wait h) in
      if timeout : bool then ret (inl ETIMEDOUT) else
      let* x := load_usb h in
      if dead x then ret (inl ETIMEDOUT)
      else if urb_out_busy x then await_write f h
      else if negb (urb_status (urb_out x) =? 0)%Z then ret (inl (errno_of_status (urb_status (urb_out x))))
      else ret (inr (urb_actual_length (urb_out x)))
  end.

Definition fresh_urb : urb := {| urb_status := -1; urb_actual_length := 0 |}.

Definition usb_bulk_write (fuel : nat) (h : Z) (data : bytes) : M E (errno_t + Z) :=
  upd_handle h (set_urb_out fresh_urb) ;;;
  let* x := load_usb h in
  if dead x then ret (inl EINVAL) else
  let* r := submit_urb fuel (uh_fd x) h false data (Zlen data) in
  match r with
  | Some e => ret (inl e)
  | None => upd_handle h (set_urb_out_busy true) ;;; await_write fuel h
  end.

(** What the kernel writes into a request that is finished. *)
Definition finish_urb (r : reaped) : M E unit :=
  match r with
  | ReapedIn h status n _ => upd_handle h (set_urb_in {| urb_status := status; urb_actual_length := n |})
  | ReapedOut h status n => upd_handle h (set_urb_out {| urb_status := status; urb_actual_length := n |})
  | _ => ret tt
  end.

Fixpoint await_read (fuel : nat) (h : Z) : M E (errno_t + bytes) :=
  match fuel with
  | O => no_fuel
  | S f =>
      upd_handle h (set_reaper_thread (Some u_self)) ;;;
      let* x := load_usb h in
      let* r := usb_call (u_reap_urb (uh_fd x)) in
      finish_urb r ;;;
      upd_handle h (set_reaper_thread None) ;;;
      let* x := load_usb h in
      if dead x then ret (inl EINVAL) else
      match r with
      | ReapError EINTR => await_read f h
      | ReapError e => ret (inl e)
      | ReapedIn h' status n data =>
          if (h' =? h)%Z then
            upd_handle h (set_urb_in_busy false) ;;;
            (if negb (status =? 0)%Z then ret (inl (errno_of_status status)) else ret (inr (take (Z.to_nat n) data)))
          else await_read f h
      | ReapedOut h' _ _ =>
          when (h' =? h)%Z (upd_handle h (set_urb_out_busy false) ;;; modify (u_cv_notify h)) ;;;
          await_read f h
      | ReapedOther => await_read f h
      end
  end.

Definition usb_bulk_read (fuel : nat) (h len : Z) : M E (errno_t + bytes) :=
  upd_handle h (set_urb_in fresh_urb) ;;;
  let* x := load_usb h in
  if dead x then ret (inl EINVAL) else
  let* r := submit_urb fuel (uh_fd x) h true [] len in
  match r with
  | Some e => ret (inl e)
  | None => upd_handle h (set_urb_in_busy true) ;;; await_read fuel h
  end.

Definition bulk_result (r : errno_t + Z) : Z := match r with inl _ => -1 | inr n => n end.

Definition usb_write (fuel : nat) (h : Z) (data : bytes) : M E Z :=
  let* r := usb_bulk_write fuel h data in
  if negb (bulk_result r =? Zlen data)%Z then ret (-1)%Z else
  let* x := load_usb h in
  if negb (zero_mask x =? 0)%Z && (Z.land (Zlen data) (zero_mask x) =? 0)%Z then
    let* r := usb_bulk_write fuel h [] in ret (bulk_result r)
  else ret 0%Z.

(** An empty transfer leaves [errno] as it was. *)
Fixpoint usb_read (fuel : nat) (h len : Z) : M E (option bytes) :=
  match fuel with
  | O => no_fuel
  | S f =>
      let* r := usb_bulk_read f h len in
      let failed (e : errno_t) : M E (option bytes) :=
        let* x := load_usb h in
        if bool_decide (e = ETIMEDOUT) && negb (uh_fd x =? -1)%Z then usb_read f h len else ret None in
      match r with
      | inl e => failed e
      | inr [] => let* e := gets u_errno in failed e
      | inr data => ret (Some data)
      end
  end.

Definition usb_get_max_packet_size (h : Z) : M E Z := let* x := load_usb h in ret (max_packet_size x).

(** The handle is closed and deleted. *)
Definition delete_usb (h : Z) : M E unit :=
  let* x := load_usb h in
  when (negb (uh_fd x =? -1)%Z) (modify (u_close (uh_fd x))) ;;;
  upd_usb (fun u => set_us_objects (delete h (us_objects u)) u).

Definition usb_close (h : Z) : M E unit :=
  upd_usb (fun u => set_g_usb_handles (filter (fun x => x <> h) (g_usb_handles u)) u) ;;;
  delete_usb h.

(** *** Kicking *)

Definition ENODEV : Z := 19.

(** Pending transfers are cancelled. *)
Definition cancel_transfers (h : Z) (x : usb_handle) : M E unit :=
  (match reaper_thread x with Some thread => modify (u_kill_thread thread) | None => ret tt end) ;;;
  modify (u_discard_urb (uh_fd x) h true) ;;;
  modify (u_discard_urb (uh_fd x) h false) ;;;
  upd_handle h (fun x => set_urb_out {| urb_status := - ENODEV; urb_actual_length := urb_actual_length (urb_out x) |}
                          (set_urb_in {| urb_status := - ENODEV; urb_actual_length := urb_actual_length (urb_in x) |} x)) ;;;
  upd_handle h (fun x => set_urb_out_busy false (set_urb_in_busy false x)) ;;;
  modify (u_cv_notify h).

(** [locked]: the thread holds [transport_lock], a [std::mutex]. *)
Definition usb_kick (locked : bool) (h : Z) : M W unit :=
  let* x := on_env (load_usb h) in
  if dead x then ret tt else
  on_env (upd_handle h (set_dead true)) ;;;
  if writeable x then on_env (cancel_transfers h x)
  else if locked then crash "transport_lock is locked twice by one thread"
  else unregister_usb_transport h.

(** [atransport::Kick] with [kick_all_transports], which holds [transport_lock]:
    what [TransportOps.Kick] does, where a USB handle is one of these. *)
Definition kick_holding_lock (t : loc) : M W unit :=
  let* x := load_transport t in
  if t_kicked x then ret tt else
  upd_transport t (set_t_kicked true) ;;;
  match t_type x, t_usb x with
  | kTransportUsb, Some h => usb_kick true h
  | _, _ => match kick_func (t_type x) with Some f => f t | None => fatal "CHECK(kick_func_ != nullptr)" end
  end.

Definition kick_all_holding_lock : M W unit := let* w := get in iter_list kick_holding_lock (w_transport_list w).

Definition kick_unmarked (h : Z) : M W unit :=
  let* x := on_env (load_usb h) in
  if mark x then on_env (upd_handle h (set_mark false)) else usb_kick false h.

Definition kick_disconnected_devices : M W unit := let* l := on_env handles in iter_list kick_unmarked l.

(** *** New devices *)

Definition new_usb_handle (dev_name : bytes) (i : adb_interface) (fd : Z) (can_write : bool) : usb_handle :=
  {| path := dev_name; uh_fd := fd; ep_in := ai_ep_in i; ep_out := ai_ep_out i; max_packet_size := ai_max_packet_size i;
     zero_mask := ai_zero_mask i; writeable := can_write; urb_in := fresh_urb; urb_out := fresh_urb; urb_in_busy := false;
     urb_out_busy := false; dead := false; mark := true; reaper_thread := None |}.

(** For reading and writing, or else for reading. *)
Definition open_device (dev_name : bytes) : M E (option (Z * bool)) :=
  let* fd := usb_call (u_open dev_name true) in
  if negb (fd =? -1)%Z then ret (Some (fd, true)) else
  let* fd := usb_call (u_open dev_name false) in
  ret (if (fd =? -1)%Z then None else Some (fd, false)).

(** [dev_path + 4] is read, a null pointer or not. *)
Definition read_serial (dev_path : option bytes) : M E bytes :=
  match dev_path with
  | None => crash "a null pointer for a string"
  | Some dev_path =>
      let* serial := gets (u_file (str "/sys/bus/usb/devices/" ++ drop 4 dev_path ++ str "/serial")) in
      ret (Trim (default [] serial))
  end.

Definition add_handle (x : usb_handle) : M E Z :=
  let* h := gets (fun e => us_next (usb_of e)) in
  upd_usb (fun u => {| us_objects := <[h := x]> (us_objects u); us_next := h + 1; g_usb_handles := g_usb_handles u ++ [h] |}) ;;;
  ret h.

Definition register_device (dev_name : bytes) (dev_path : option bytes) (i : adb_interface) : M W unit :=
  let* l := on_env handles in
  let* known := on_env (find_path dev_name l) in
  match known with
  | Some _ => ret tt
  | None =>
      let* opened := on_env (open_device dev_name) in
      match opened with
      | None => ret tt
      | Some (fd, can_write) =>
          let* claimed := if can_write : bool then on_env (usb_call (u_claim_interface fd (ai_number i))) else ret true in
          if negb claimed then on_env (modify (u_close fd)) else
          let* serial := on_env (read_serial dev_path) in
          let* h := on_env (add_handle (new_usb_handle dev_name i fd can_write)) in
          register_usb_transport h (Some serial) dev_path can_write
      end
  end.

(** The name of the device under /sys, for a character device. *)
Definition device_path (fd : Z) : M E (option bytes) :=
  let* st := gets (u_char_device fd) in
  match st with
  | None => ret None
  | Some (major, minor) =>
      let* link := gets (u_readlink (take 127 (str "/sys/dev/char/" ++ dec major ++ str ":" ++ dec minor)) 255) in
      ret (match link with
           | Some ((_ :: _) as link) =>
               match after_slash (c_str link) with Some name => Some (take 127 (str "usb:" ++ name)) | None => None end
           | _ => None
           end)
  end.

(** A device file. *)
Definition scan_device (fuel : nat) (callback : bytes -> option bytes -> adb_interface -> M W unit) (dev_name : bytes) : M W unit :=
  let* known := on_env (is_known_device dev_name) in
  if known : bool then ret tt else
  let* fd := on_env (usb_call (u_open dev_name false)) in
  if (fd =? -1)%Z then ret tt else
  let* before := on_env (gets u_devdesc) in
  let* descriptors := on_env (usb_call (u_read fd DEVDESC_SIZE)) in
  let* r := parse_descriptors fuel before descriptors in
  (match r with
   | None => ret tt
   | Some (i, _) => let* dev_path := on_env (device_path fd) in callback dev_name dev_path i
   end) ;;;
  on_env (modify (u_close fd)).

(** The entries of a directory with names of digits. *)
Definition numbered (base : bytes) : M E (list bytes) :=
  let* names := gets (u_names base) in
  ret (map (fun name => base ++ str "/" ++ name) (filter (fun name => contains_non_digit name = false) (default [] names))).

Definition find_usb_device (fuel : nat) (base : bytes) (callback : bytes -> option bytes -> adb_interface -> M W unit) : M W unit :=
  let* buses := on_env (numbered base) in
  iter_list (fun bus_name => let* devices := on_env (numbered bus_name) in iter_list (scan_device fuel callback) devices) buses.

(** A turn of [device_poll_thread]. *)
Definition device_poll_turn (fuel : nat) : M W unit :=
  find_usb_device fuel (str "/dev/bus/usb") register_device ;;;
  kick_disconnected_devices.

End UsbLinux.
