(* ===== verification/UsbScan.v ===== *)
(** * What a Linux host finds in the descriptors of a USB device

    The descriptors of a device as a list, the adb interface among them, and
    [UsbLinux.scan_descriptors], which works on positions of an array: on a
    well-formed list the two agree, on any other input the scan ends within as
    many steps as there are bytes or never, and it stays in the array unless the
    array is full. *)

From S2P Require Import Prelude LibBase Packet AdbIo FdEvent Transport World SmartText.
From S2P Require Import Sockets SocketIo TransportOps UsbLinux.

(** ** Descriptors as a list *)

Definition d_byte (d : bytes) (i : nat) : Z := default 0%Z (byte_val <$> d !! i).
Definition dtype (d : bytes) : Z := d_byte d 1.

(** Its first byte is its length. *)
Definition well_formed (d : bytes) : Prop := 2 <= length d /\ d_byte d 0 = Zlen d.

Definition is_companion (d : bytes) : bool := ((Zlen d =? 6) && (dtype d =? 48))%Z.
Definition endpoint (d : bytes) : bool := ((Zlen d =? 7) && (dtype d =? 5))%Z.
Definition adb_function (d : bytes) : bool := ((d_byte d 4 =? 2)%Z && is_adb_interface (d_byte d 5) (d_byte d 6) (d_byte d 7)).

Definition companions (ds : list bytes) : nat := match ds with d :: _ => if is_companion d then 1 else 0 | [] => 0 end.

(** The two endpoints at the start, and how many descriptors they take. *)
Definition two_endpoints (ds : list bytes) : option (bytes * bytes * nat) :=
  match ds with
  | ep1 :: r =>
      if negb (endpoint ep1) then None else
      match drop (companions r) r with
      | ep2 :: r' => if endpoint ep2 then Some (ep1, ep2, 2 + companions r + companions r') else None
      | [] => None
      end
  | [] => None
  end.

(** An interface with the endpoints [ep1] and [ep2], if both are bulk. *)
Definition interface_of (d ep1 ep2 : bytes) : option adb_interface :=
  if ((d_byte ep1 3 =? 2) && (d_byte ep2 3 =? 2))%Z then
    let incoming := negb (Z.land (d_byte ep1 2) 128 =? 0)%Z in
    let size := (d_byte ep1 4 + 256 * d_byte ep1 5)%Z in
    Some {| ai_ep_in := if incoming then d_byte ep1 2 else d_byte ep2 2; ai_ep_out := if incoming then d_byte ep2 2 else d_byte ep1 2;
            ai_number := d_byte d 2; ai_zero_mask := if (d_byte d 7 =? 1)%Z then u32 (size - 1) else 0;
            ai_max_packet_size := if (d_byte d 7 =? 1)%Z then size else 0 |}
  else None.

(** The first adb interface with bulk endpoints; an interface of a wrong size
    or without its endpoints ends the search.  [skip]: descriptors to pass over. *)
Fixpoint adb_of (skip : nat) (ds : list bytes) : option adb_interface :=
  match ds with
  | [] => None
  | d :: rest =>
      match skip with
      | S k => adb_of k rest
      | O =>
          if negb (dtype d =? USB_DT_INTERFACE)%Z then adb_of 0 rest
          else if negb (Zlen d =? USB_DT_INTERFACE_SIZE)%Z then None
          else if negb (adb_function d) then adb_of 0 rest
          else match two_endpoints rest with
               | None => None
               | Some (ep1, ep2, n) => match interface_of d ep1 ep2 with None => adb_of n rest | i => i end
               end
      end
  end.

(** ** Positions *)

Section Scan.
Context {W : Type}.

Lemma ret_bind {A B} (a : A) (f : A -> M W B) : bind (ret a) f = f a.
Proof. done. Qed.

Lemma peek_in (pre d post : bytes) (i : Z) : (0 <= i < Zlen d)%Z -> peek (W := W) (pre ++ d ++ post) (Zlen pre + i) = ret (d_byte d (Z.to_nat i)).
Proof.
  unfold peek, d_byte. intros Hi. rewrite (proj2 (Z.ltb_ge _ _)) by lia.
  rewrite Z2Nat.inj_add, Nat2Z.id by lia. rewrite lookup_app_r, Nat.add_comm, Nat.add_sub by lia.
  rewrite lookup_app_l by lia. destruct (lookup_lt_is_Some_2 d (Z.to_nat i)) as [a ->]; [lia|]. done.
Qed.

Lemma d_byte_nonneg d i : (0 <= d_byte d i)%Z.
Proof. unfold d_byte. destruct (d !! i) as [a|]; cbn; [pose proof (byte_val_range a)|]; lia. Qed.

Lemma peek_any (buf : bytes) (p : Z) : (0 <= p < Zlen buf)%Z -> exists v, (0 <= v)%Z /\ peek (W := W) buf p = ret v.
Proof.
  intros Hp. exists (d_byte buf (Z.to_nat p)). split; [apply d_byte_nonneg|]. apply (peek_in [] buf []) in Hp. by rewrite app_nil_r in Hp.
Qed.

Lemma peek_start pre d post : well_formed d ->
  peek (W := W) (pre ++ d ++ post) (Zlen pre) = ret (Zlen d) /\ peek (W := W) (pre ++ d ++ post) (Zlen pre + 1) = ret (dtype d).
Proof.
  intros [Hl H0]. rewrite <- (Z.add_0_r (Zlen pre)) at 1. rewrite !peek_in by lia. change (Z.to_nat 0) with 0. by rewrite H0.
Qed.

Lemma is_endpoint_in pre d post : well_formed d -> is_endpoint (W := W) (pre ++ d ++ post) (Zlen pre) = ret (endpoint d).
Proof.
  intros Hd. destruct (peek_start pre d post Hd) as [H0 H1]. unfold is_endpoint, endpoint. rewrite H0, H1, ret_bind.
  destruct (Z.eqb_spec (Zlen d) USB_DT_ENDPOINT_SIZE) as [->|Hne]; [by rewrite ret_bind|].
  by rewrite (proj2 (Z.eqb_neq _ _)).
Qed.

(** At the start of a descriptor, the companion that is there is passed over. *)
Lemma skip_companion_in pre ds post : Forall well_formed ds ->
  skip_companion (W := W) (pre ++ concat ds ++ post) (Zlen pre + Zlen (concat ds)) (Zlen pre) =
  ret (Zlen pre + Zlen (concat (take (companions ds) ds)))%Z.
Proof.
  unfold skip_companion, companions, is_companion. intros Hds. destruct Hds as [|d ds Hd Hds]; [|pose proof (proj1 Hd) as Hl]; cbn [concat].
  - rewrite (proj2 (Z.leb_gt _ _)) by (cbn; lia). cbn. by rewrite Z.add_0_r.
  - rewrite <- app_assoc, length_app, (proj2 (Z.leb_le _ _)) by lia.
    destruct (peek_start pre d (concat ds ++ post) Hd) as [-> ->]. rewrite ret_bind.
    destruct (Z.eqb_spec (Zlen d) USB_DT_SS_EP_COMP_SIZE) as [He|Hne].
    + rewrite ret_bind. unfold USB_DT_SS_EP_COMP_SIZE in He. rewrite He. cbn [andb Z.eqb Pos.eqb negb]. destruct (dtype d =? 48)%Z eqn:Ht.
      * unfold USB_DT_SS_ENDPOINT_COMP. rewrite Ht. cbn [take concat]. by rewrite app_nil_r, He.
      * unfold USB_DT_SS_ENDPOINT_COMP. rewrite Ht. cbn. by rewrite Z.add_0_r.
    + rewrite (proj2 (Z.eqb_neq _ 6)) by done. cbn. by rewrite Z.add_0_r.
Qed.

(** Anywhere, it is passed over or not. *)
Lemma skip_companion_any buf bufend p : (0 <= p)%Z -> (bufend <= Zlen buf)%Z ->
  exists q, skip_companion (W := W) buf bufend p = ret q /\ (p <= q)%Z.
Proof.
  intros Hp Hb. unfold skip_companion. destruct (Z.leb_spec (p + 2) bufend); [|eexists; split; [done|lia]].
  destruct (peek_any buf p) as (v & _ & ->); [lia|]. destruct (peek_any buf (p + 1)) as (u & _ & Hu); [lia|]. rewrite ret_bind, Hu, ret_bind.
  unfold USB_DT_SS_EP_COMP_SIZE. case_match; eexists; (split; [reflexivity|]); repeat case_match; lia.
Qed.

Lemma is_endpoint_any buf p : (0 <= p)%Z -> (p + 2 <= Zlen buf)%Z -> exists b, is_endpoint (W := W) buf p = ret b.
Proof.
  intros Hp Hb. unfold is_endpoint. destruct (peek_any buf p) as (v & _ & ->); [lia|]. destruct (peek_any buf (p + 1)) as (u & _ & Hu); [lia|].
  rewrite ret_bind, Hu, ret_bind. case_match; by eexists.
Qed.

Lemma concat_take_le n (l : list bytes) : length (concat (take n l)) <= length (concat l).
Proof. rewrite <- (take_drop n l) at 2. rewrite List.concat_app, length_app. lia. Qed.

Lemma endpoint_size d : endpoint d = true -> Zlen d = USB_DT_ENDPOINT_SIZE.
Proof. unfold endpoint, USB_DT_ENDPOINT_SIZE. intros [H _]%andb_prop. lia. Qed.

(** Where the search for the endpoints looks, aligned or not. *)
Lemma find_endpoints_at buf bufend p e2 q :
  skip_companion (W := W) buf bufend (p + 7) = ret e2 -> skip_companion (W := W) buf bufend (e2 + 7) = ret q ->
  find_endpoints (W := W) buf bufend p =
    (if (bufend <? q)%Z then ret None else
     let* ok1 := is_endpoint buf p in if negb ok1 then ret None else
     let* ok2 := is_endpoint buf e2 in ret (if ok2 then Some (p, e2, q) else None)).
Proof. intros H2 Hq. unfold find_endpoints, USB_DT_ENDPOINT_SIZE. by rewrite H2, ret_bind, Hq. Qed.

Lemma find_endpoints_none pre d ds post : Forall well_formed (d :: ds) -> endpoint d = false ->
  find_endpoints (W := W) (pre ++ concat (d :: ds) ++ post) (Zlen pre + Zlen (concat (d :: ds))) (Zlen pre) = ret None.
Proof.
  intros [Hd _]%Forall_cons He. set (buf := pre ++ _). set (e := (Zlen pre + Zlen (concat (d :: ds)))%Z).
  assert (Hb : (e <= Zlen buf)%Z) by (unfold e, buf; rewrite !length_app; lia).
  destruct (skip_companion_any buf e (Zlen pre + 7)) as (e2 & H2 & Hle); [lia..|].
  destruct (skip_companion_any buf e (e2 + 7)) as (q & Hq & _); [lia..|]. rewrite (find_endpoints_at _ _ _ _ _ H2 Hq).
  case_match; [done|]. unfold buf. cbn [concat]. by rewrite <- app_assoc, is_endpoint_in, He by done.
Qed.

Lemma find_endpoints_short pre ds post : (Zlen (concat ds) < 14)%Z ->
  find_endpoints (W := W) (pre ++ concat ds ++ post) (Zlen pre + Zlen (concat ds)) (Zlen pre) = ret None.
Proof.
  intros Hs. set (buf := pre ++ _). set (e := (Zlen pre + Zlen (concat ds))%Z).
  assert (Hb : (e <= Zlen buf)%Z) by (unfold e, buf; rewrite !length_app; lia).
  destruct (skip_companion_any buf e (Zlen pre + 7)) as (e2 & H2 & Hle); [lia..|].
  destruct (skip_companion_any buf e (e2 + 7)) as (q & Hq & Hle'); [lia..|]. rewrite (find_endpoints_at _ _ _ _ _ H2 Hq).
  by rewrite (proj2 (Z.ltb_lt _ _)) by (unfold e; lia).
Qed.

(** Where the second endpoint is looked for. *)
Lemma second_endpoint pre ep1 r post : Zlen ep1 = 7%Z -> Forall well_formed r ->
  skip_companion (W := W) (pre ++ concat (ep1 :: r) ++ post) (Zlen pre + Zlen (concat (ep1 :: r))) (Zlen pre + 7) =
  ret (Zlen pre + Zlen (ep1 ++ concat (take (companions r) r)))%Z.
Proof.
  intros Hs Hr. pose proof (skip_companion_in (pre ++ ep1) _ post Hr) as H. cbn [concat].
  rewrite <- Hs, !length_app, !Nat2Z.inj_add, !Z.add_assoc, <- ?app_assoc in *. exact H.
Qed.

(** Something else is where the second endpoint should be. *)
Lemma find_endpoints_other pre ep1 mid d rest post :
  well_formed ep1 -> endpoint ep1 = true -> well_formed d -> endpoint d = false -> Forall well_formed (mid ++ d :: rest) ->
  mid = take (companions (mid ++ d :: rest)) (mid ++ d :: rest) ->
  let ds := ep1 :: mid ++ d :: rest in
  find_endpoints (W := W) (pre ++ concat ds ++ post) (Zlen pre + Zlen (concat ds)) (Zlen pre) = ret None.
Proof.
  intros Hd1 He1 Hd2 He2 Hr Hmid ds. set (buf := pre ++ _). set (e := (Zlen pre + Zlen (concat ds))%Z).
  pose proof (endpoint_size _ He1) as Hs1. assert (Hb : (e <= Zlen buf)%Z) by (unfold e, buf; rewrite !length_app; lia).
  pose proof (second_endpoint pre ep1 _ post Hs1 Hr) as H2. rewrite <- Hmid in H2.
  destruct (skip_companion_any buf e (Zlen pre + Zlen (ep1 ++ concat mid) + 7)) as (q & Hq & _); [lia..|].
  unfold buf, e, ds in *. rewrite (find_endpoints_at _ _ _ _ _ H2 Hq). case_match; [done|].
  cbn [concat]. rewrite <- app_assoc, is_endpoint_in, He1, ret_bind by done. cbn [negb].
  rewrite List.concat_app. cbn [concat]. rewrite <- Nat2Z.inj_add, <- length_app, <- !app_assoc.
  rewrite (app_assoc ep1), (app_assoc pre). by rewrite is_endpoint_in, He2.
Qed.

(** Both endpoints, with what is between them and behind. *)
Lemma find_endpoints_some pre ep1 mid ep2 rest post :
  well_formed ep1 -> endpoint ep1 = true -> well_formed ep2 -> endpoint ep2 = true -> Forall well_formed (mid ++ ep2 :: rest) ->
  mid = take (companions (mid ++ ep2 :: rest)) (mid ++ ep2 :: rest) ->
  let ds := ep1 :: mid ++ ep2 :: rest in
  find_endpoints (W := W) (pre ++ concat ds ++ post) (Zlen pre + Zlen (concat ds)) (Zlen pre) =
    ret (Some (Zlen pre, Zlen pre + Zlen (ep1 ++ concat mid),
               Zlen pre + Zlen (ep1 ++ concat mid ++ ep2 ++ concat (take (companions rest) rest))))%Z.
Proof.
  intros Hd1 He1 Hd2 He2 Hr Hmid ds. set (buf := pre ++ _). set (e := (Zlen pre + Zlen (concat ds))%Z).
  pose proof (endpoint_size _ He1) as Hs1. pose proof (endpoint_size _ He2) as Hs2. unfold USB_DT_ENDPOINT_SIZE in *.
  assert (Hb : (e <= Zlen buf)%Z) by (unfold e, buf; rewrite !length_app; lia).
  set (e2 := (Zlen pre + Zlen (ep1 ++ concat mid))%Z).
  assert (H2 : skip_companion (W := W) buf e (Zlen pre + 7) = ret e2).
  { pose proof (second_endpoint pre ep1 _ post Hs1 Hr) as H. by rewrite <- Hmid in H. }
  set (q := (Zlen pre + Zlen (ep1 ++ concat mid ++ ep2 ++ concat (take (companions rest) rest)))%Z).
  assert (Hq : skip_companion (W := W) buf e (e2 + 7) = ret q).
  { apply Forall_app in Hr as [_ [_ Hrest]%Forall_cons]. pose proof (skip_companion_in (pre ++ ep1 ++ concat mid ++ ep2) _ post Hrest) as H.
    unfold buf, e, e2, q, ds. cbn [concat]. rewrite List.concat_app. cbn [concat].
    rewrite <- Hs2, !length_app, !Nat2Z.inj_add, !Z.add_assoc, <- ?app_assoc in *. exact H. }
  rewrite (find_endpoints_at _ _ _ _ _ H2 Hq).
  assert (Hle : (q <= e)%Z).
  { unfold q, e, ds. cbn [concat]. rewrite List.concat_app. cbn [concat]. rewrite !length_app.
    pose proof (concat_take_le (companions rest) rest). lia. }
  rewrite (proj2 (Z.ltb_ge _ _)) by done.
  assert (Hi1 : is_endpoint (W := W) buf (Zlen pre) = ret true) by (unfold buf, ds; cbn [concat]; by rewrite <- app_assoc, is_endpoint_in, He1).
  assert (Hi2 : is_endpoint (W := W) buf e2 = ret true).
  { unfold buf, ds, e2. cbn [concat]. rewrite List.concat_app. cbn [concat]. rewrite <- Nat2Z.inj_add, <- length_app, <- !app_assoc.
    rewrite (app_assoc ep1), (app_assoc pre). by rewrite is_endpoint_in, He2. }
  by rewrite Hi1, ret_bind, Hi2.
Qed.

(** [two_endpoints] is what the search finds. *)
Lemma find_endpoints_in pre ds post : Forall well_formed ds ->
  match two_endpoints ds with
  | Some (ep1, ep2, n) => exists mid rest, ds = ep1 :: mid ++ ep2 :: rest /\ endpoint ep1 = true /\ endpoint ep2 = true /\
      find_endpoints (W := W) (pre ++ concat ds ++ post) (Zlen pre + Zlen (concat ds)) (Zlen pre) =
        ret (Some (Zlen pre, Zlen pre + Zlen (ep1 ++ concat mid), Zlen pre + Zlen (concat (take n ds))))%Z
  | None => find_endpoints (W := W) (pre ++ concat ds ++ post) (Zlen pre + Zlen (concat ds)) (Zlen pre) = ret None
  end.
Proof.
  intros Hds. destruct ds as [|ep1 r]; cbn [two_endpoints]; [apply find_endpoints_short; cbn; lia|].
  destruct (endpoint ep1) eqn:He1; cbn [negb]; [|by apply find_endpoints_none].
  pose proof (endpoint_size _ He1) as Hs1. unfold USB_DT_ENDPOINT_SIZE in Hs1. apply Forall_cons in Hds as [Hd1 Hr].
  set (mid := take (companions r) r). destruct (drop (companions r) r) as [|ep2 rest] eqn:Hdrop.
  - clear mid. apply find_endpoints_short. assert (Hc : (Zlen (concat r) <= 6)%Z); [|cbn [concat]; rewrite length_app; lia].
    unfold companions, is_companion in Hdrop. destruct r as [|d r]; [cbn; lia|]. case_match eqn:Hc; [|done].
    cbn in Hdrop. rewrite drop_0 in Hdrop. subst r. cbn [concat]. rewrite app_nil_r. apply andb_prop in Hc as [Hc _]. lia.
  - assert (Hsplit : r = mid ++ ep2 :: rest) by (unfold mid; by rewrite <- Hdrop, take_drop).
    assert (Hd2 : well_formed ep2) by (rewrite Hsplit in Hr; apply Forall_app in Hr as [_ [Hd2 _]%Forall_cons]; done).
    destruct (endpoint ep2) eqn:He2.
    + exists mid, rest. split; [by rewrite Hsplit|]. do 2 (split; [done|]). rewrite Hsplit at 1 2 3.
      rewrite (find_endpoints_some pre ep1 mid ep2 rest post); [|done|done|done|done|by rewrite <- Hsplit|by rewrite <- Hsplit].
      assert (Hn : take (2 + companions r + companions rest) (ep1 :: mid ++ ep2 :: rest) = ep1 :: mid ++ ep2 :: take (companions rest) rest).
      { assert (Hm : length mid = companions r).
        { unfold mid. apply length_take_le. pose proof (f_equal length Hdrop) as H. rewrite length_drop in H. cbn in H. lia. }
        rewrite <- Hm, <- Nat.add_assoc, (Nat.add_comm 2). replace (length mid + companions rest + 2) with (S (length mid + S (companions rest))) by lia.
        cbn [take]. by rewrite take_app_add. }
      rewrite <- Hsplit in Hn. rewrite <- Hsplit, Hn. cbn [concat]. by rewrite List.concat_app.
    + pose proof (find_endpoints_other pre ep1 mid ep2 rest post Hd1 He1 Hd2 He2) as H. rewrite <- Hsplit in H. by apply H.
Qed.

(** The bytes of [d] are at [p]. *)
Definition holds (buf : bytes) (p : Z) (d : bytes) : Prop := forall k, (0 <= k < Zlen d)%Z -> peek (W := W) buf (p + k) = ret (d_byte d (Z.to_nat k)).

Lemma holds_in pre d post : holds (pre ++ d ++ post) (Zlen pre) d.
Proof. intros k Hk. by apply peek_in. Qed.

Lemma at_adb_interface_in buf p d : holds buf p d -> Zlen d = 9%Z -> at_adb_interface (W := W) buf p = ret (adb_function d).
Proof.
  intros H Hd. unfold at_adb_interface, adb_function. do 4 rewrite H, ret_bind by lia. change (Z.to_nat 4) with 4. by destruct (d_byte d 4 =? 2)%Z.
Qed.

Lemma describe_interface_in buf i ep1 ep2 p1 p2 d :
  holds buf i d -> Zlen d = 9%Z -> holds buf p1 ep1 -> Zlen ep1 = 7%Z -> holds buf p2 ep2 -> Zlen ep2 = 7%Z ->
  describe_interface (W := W) buf i p1 p2 = ret (interface_of d ep1 ep2).
Proof.
  intros Hi Hd H1 Hl1 H2 Hl2. unfold describe_interface, interface_of, peek16.
  rewrite H1, ret_bind, H2, ret_bind by lia. change (Z.to_nat 3) with 3. unfold USB_ENDPOINT_XFER_BULK.
  destruct ((d_byte ep1 3 =? 2) && (d_byte ep2 3 =? 2))%Z; [|done]. cbn [negb]. rewrite Hi, ret_bind by lia.
  rewrite H1, <- Z.add_assoc, ret_bind, H1, !ret_bind, H1, ret_bind, H2, ret_bind, Hi, ret_bind by lia. done.
Qed.

Lemma adb_of_skip n ds : adb_of n ds = adb_of 0 (drop n ds).
Proof. revert n. induction ds as [|d ds IH]; intros [|n]; [done..|]. cbn [drop]. by rewrite <- IH. Qed.

(** The equation of the loop at a descriptor. *)
Lemma scan_step f pre d rest post : well_formed d ->
  let buf := pre ++ concat (d :: rest) ++ post in
  let e := (Zlen pre + Zlen (concat (d :: rest)))%Z in
  scan_descriptors (W := W) (S f) buf e (Zlen pre) =
    (if negb (dtype d =? USB_DT_INTERFACE)%Z then scan_descriptors f buf e (Zlen (pre ++ d))
     else if negb (Zlen d =? USB_DT_INTERFACE_SIZE)%Z then ret None
     else if negb (adb_function d) then scan_descriptors f buf e (Zlen (pre ++ d))
     else let* endpoints := find_endpoints buf e (Zlen (pre ++ d)) in
          match endpoints with
          | None => ret None
          | Some (ep1, ep2, q) =>
              let* interface := describe_interface buf (Zlen pre) ep1 ep2 in
              match interface with None => scan_descriptors f buf e q | Some _ => ret interface end
          end).
Proof.
  intros Hd buf e. destruct (peek_start pre d (concat rest ++ post) Hd) as [H0 H1].
  assert (Hbuf : buf = pre ++ d ++ concat rest ++ post) by (unfold buf; cbn [concat]; by rewrite <- app_assoc).
  assert (Hlt : (Zlen pre < e)%Z) by (unfold e; cbn [concat]; destruct Hd; rewrite length_app; lia).
  cbn [scan_descriptors]. rewrite (proj2 (Z.ltb_lt _ _)) by done. cbn [negb]. rewrite Hbuf, H0, ret_bind, H1, ret_bind, <- Hbuf.
  rewrite <- Nat2Z.inj_add, <- length_app. destruct (dtype d =? USB_DT_INTERFACE)%Z; [|done]. cbn [negb].
  destruct (Z.eqb_spec (Zlen d) USB_DT_INTERFACE_SIZE) as [Hl|]; [|done]. cbn [negb].
  rewrite Hbuf at 1. by rewrite (at_adb_interface_in _ _ d), ret_bind by (done || apply holds_in).
Qed.

Lemma concat_shift (pre d : bytes) rest post :
  pre ++ concat (d :: rest) ++ post = (pre ++ d) ++ concat rest ++ post /\
  (Zlen pre + Zlen (concat (d :: rest)) = Zlen (pre ++ d) + Zlen (concat rest))%Z.
Proof. cbn [concat]. split; [by rewrite <- !app_assoc|]. rewrite !length_app. lia. Qed.

Lemma scan_is_reference fuel pre ds post : Forall well_formed ds -> length ds < fuel ->
  scan_descriptors (W := W) fuel (pre ++ concat ds ++ post) (Zlen pre + Zlen (concat ds)) (Zlen pre) = ret (adb_of 0 ds).
Proof.
  revert pre ds. induction fuel as [|f IH]; intros pre ds Hds Hf; [lia|]. destruct ds as [|d rest].
  { cbn. rewrite (proj2 (Z.ltb_ge _ _)) by lia. done. }
  apply Forall_cons in Hds as [Hd Hrest]. rewrite scan_step by done. cbn [length] in Hf. cbn [adb_of].
  destruct (concat_shift pre d rest post) as [Hbuf He].
  assert (Hnext : scan_descriptors (W := W) f (pre ++ concat (d :: rest) ++ post) (Zlen pre + Zlen (concat (d :: rest))) (Zlen (pre ++ d)) = ret (adb_of 0 rest)).
  { rewrite Hbuf, He. apply IH; [done|lia]. }
  destruct (dtype d =? USB_DT_INTERFACE)%Z; cbn [negb]; [|done].
  destruct (Z.eqb_spec (Zlen d) USB_DT_INTERFACE_SIZE) as [Hl|]; cbn [negb]; [|done].
  destruct (adb_function d); cbn [negb]; [|done]. rewrite Hbuf, He.
  pose proof (find_endpoints_in (pre ++ d) rest post Hrest) as Hf'.
  destruct (two_endpoints rest) as [[[ep1 ep2] n]|]; [|by rewrite Hf'].
  destruct Hf' as (mid & r' & Hr & He1 & He2 & ->). rewrite ret_bind.
  rewrite (describe_interface_in _ _ ep1 ep2 _ _ d), ret_bind; [|..].
  - destruct (interface_of d ep1 ep2); [done|]. rewrite adb_of_skip.
    pose proof (IH ((pre ++ d) ++ concat (take n rest)) (drop n rest)) as H.
    assert (Hc : concat rest = concat (take n rest) ++ concat (drop n rest)) by (by rewrite <- List.concat_app, take_drop).
    rewrite Hc. rewrite (length_app (pre ++ d)), Nat2Z.inj_add, <- !app_assoc in H.
    rewrite (length_app (concat _)), Nat2Z.inj_add, Z.add_assoc, <- !app_assoc.
    apply H; [by apply Forall_drop|]. rewrite length_drop. lia.
  - rewrite <- app_assoc. apply holds_in.
  - done.
  - rewrite Hr. cbn [concat]. rewrite <- (app_assoc ep1). apply holds_in.
  - by apply endpoint_size.
  - rewrite Hr. cbn [concat]. rewrite List.concat_app. cbn [concat]. rewrite <- Nat2Z.inj_add, <- length_app, <- !app_assoc.
    rewrite (app_assoc ep1), !app_assoc, <- (app_assoc _ (concat r')), <- app_assoc. apply holds_in.
  - by apply endpoint_size.
Qed.

(** ** Any bytes *)

Lemma find_endpoints_any buf e p : (0 <= p)%Z -> (e <= Zlen buf)%Z ->
  exists r, find_endpoints (W := W) buf e p = ret r /\
    match r with Some (ep1, ep2, q) => (0 <= ep1 /\ ep1 + 7 <= q /\ 0 <= ep2 /\ ep2 + 7 <= q /\ p < q <= e)%Z | None => True end.
Proof.
  intros Hp He. destruct (skip_companion_any buf e (p + 7)) as (e2 & H2 & Hle); [lia..|].
  destruct (skip_companion_any buf e (e2 + 7)) as (q & Hq & Hle'); [lia..|]. rewrite (find_endpoints_at _ _ _ _ _ H2 Hq).
  destruct (Z.ltb_spec e q); [by eexists|]. destruct (is_endpoint_any buf p) as [b1 ->]; [lia..|]. rewrite ret_bind.
  destruct b1; [|by eexists]. destruct (is_endpoint_any buf e2) as [b2 ->]; [lia..|]. rewrite ret_bind. eexists. split; [done|].
  destruct b2; [lia|done].
Qed.

Lemma holds_at buf p n : (0 <= p)%Z -> (0 <= n)%Z -> (p + n <= Zlen buf)%Z -> exists d, Zlen d = n /\ holds buf p d.
Proof.
  intros Hp Hn Hle. exists (take (Z.to_nat n) (drop (Z.to_nat p) buf)). split; [rewrite length_take, length_drop; lia|].
  pose proof (holds_in (take (Z.to_nat p) buf) (take (Z.to_nat n) (drop (Z.to_nat p) buf)) (drop (Z.to_nat n) (drop (Z.to_nat p) buf))) as H.
  rewrite take_drop, take_drop, length_take in H. by replace (Z.of_nat (Z.to_nat p `min` length buf)) with p in H by lia.
Qed.

Lemma describe_interface_any buf i ep1 ep2 : (0 <= i)%Z -> (i + 9 <= Zlen buf)%Z -> (0 <= ep1)%Z -> (ep1 + 7 <= Zlen buf)%Z ->
  (0 <= ep2)%Z -> (ep2 + 7 <= Zlen buf)%Z -> exists r, describe_interface (W := W) buf i ep1 ep2 = ret r.
Proof.
  intros. destruct (holds_at buf i 9) as (d & Hd & Hh); [lia..|]. destruct (holds_at buf ep1 7) as (d1 & Hd1 & Hh1); [lia..|].
  destruct (holds_at buf ep2 7) as (d2 & Hd2 & Hh2); [lia..|]. eexists. by apply (describe_interface_in _ _ d1 d2 _ _ d).
Qed.

(** Where the loop goes from [p]: on, to a later place or the same, or to an end. *)
Lemma scan_next buf e p : (0 <= p < e)%Z -> (e + 8 <= Zlen buf)%Z ->
  (exists r, forall f, scan_descriptors (W := W) (S f) buf e p = ret r) \/
  (exists q, (p <= q)%Z /\ forall f, scan_descriptors (W := W) (S f) buf e p = scan_descriptors f buf e q).
Proof.
  intros Hp He. destruct (peek_any buf p) as (length & Hlen & Hl); [lia|]. destruct (peek_any buf (p + 1)) as (type & _ & Ht); [lia|].
  destruct (holds_at buf p 9) as (d & Hd & Hh); [lia..|]. pose proof (at_adb_interface_in _ _ d Hh Hd) as Hat.
  destruct (find_endpoints_any buf e (p + length)) as (r & Hf & Hr); [lia..|].
  assert (Hfirst : forall f, scan_descriptors (W := W) (S f) buf e p =
    if negb (type =? USB_DT_INTERFACE)%Z then scan_descriptors f buf e (p + length)
    else if negb (length =? USB_DT_INTERFACE_SIZE)%Z then ret None
    else if negb (adb_function d) then scan_descriptors f buf e (p + length)
    else match r with
         | None => ret None
         | Some (ep1, ep2, q) =>
             let* interface := describe_interface buf p ep1 ep2 in
             match interface with None => scan_descriptors f buf e q | Some _ => ret interface end
         end).
  { intros f. cbn [scan_descriptors]. rewrite (proj2 (Z.ltb_lt p e)) by lia. cbn [negb]. by rewrite Hl, ret_bind, Ht, ret_bind, Hat, ret_bind, Hf, ret_bind. }
  destruct (type =? USB_DT_INTERFACE)%Z; cbn [negb] in Hfirst; [|right; exists (p + length)%Z; split; [lia|done]].
  destruct (Z.eqb_spec length USB_DT_INTERFACE_SIZE) as [->|]; cbn [negb] in Hfirst; [|left; by exists None].
  destruct (adb_function d); cbn [negb] in Hfirst; [|right; exists (p + USB_DT_INTERFACE_SIZE)%Z; split; [lia|done]].
  destruct r as [[[ep1 ep2] q]|]; [|left; by exists None]. destruct Hr as (H1 & H2 & H3 & H4 & H5). unfold USB_DT_INTERFACE_SIZE in H5.
  destruct (describe_interface_any buf p ep1 ep2) as [i Hi]; [lia..|]. rewrite Hi in Hfirst.
  destruct i as [i|]; [left; by exists (Some i)|]. right. exists q. split; [lia|done].
Qed.

Lemma scan_stays buf e p : (0 <= p < e)%Z -> (forall f, scan_descriptors (W := W) (S f) buf e p = scan_descriptors f buf e p) ->
  forall fuel, scan_descriptors (W := W) fuel buf e p = no_fuel.
Proof. intros Hp H fuel. induction fuel as [|f IH]; [done|]. by rewrite H. Qed.

(** The loop ends within as many steps as there are bytes, without a read
    outside the array, or it never ends. *)
Lemma scan_decides fuel buf e p : (0 <= p)%Z -> (e + 8 <= Zlen buf)%Z -> Z.to_nat (e - p) < fuel ->
  (exists r, scan_descriptors (W := W) fuel buf e p = ret r) \/ (forall fuel', scan_descriptors (W := W) fuel' buf e p = no_fuel).
Proof.
  revert p. induction fuel as [|f IH]; intros p Hp He Hf; [lia|]. destruct (Z.ltb_spec p e) as [Hlt|Hge].
  - destruct (scan_next buf e p) as [[r Hr]|(q & Hq & Hr)]; [lia|done|left; by exists r|].
    destruct (Z.eq_dec p q) as [<-|]; [right; by apply scan_stays|].
    destruct (IH q) as [[r Hd]|Hs]; [lia|done|lia|left; exists r; by rewrite Hr|].
    right. intros [|f']; [done|]. by rewrite Hr.
  - left. exists None. cbn [scan_descriptors]. by rewrite (proj2 (Z.ltb_ge _ _)).
Qed.

End Scan.

(** ** The descriptors of a device *)

(** A descriptor of the size and the type. *)
Definition header_of (size type : Z) (d : bytes) : Prop := Zlen d = size /\ d_byte d 0 = size /\ dtype d = type.

Lemma is_header_in {W} pre d post size type : header_of size type d -> (2 <= size)%Z ->
  is_header (W := W) (pre ++ d ++ post) (Zlen pre) size type = ret true.
Proof.
  intros (Hl & H0 & Ht) Hs. unfold is_header. destruct (peek_start (W := W) pre d post) as [-> ->]; [split; lia|].
  by rewrite ret_bind, Hl, Z.eqb_refl, ret_bind, Ht, Z.eqb_refl.
Qed.

Lemma is_header_any {W} buf p size type : (0 <= p)%Z -> (p + 2 <= Zlen buf)%Z -> exists b, is_header (W := W) buf p size type = ret b.
Proof.
  intros Hp Hb. unfold is_header. destruct (peek_any (W := W) buf p) as (v & _ & ->); [lia|].
  destruct (peek_any (W := W) buf (p + 1)) as (u & _ & Hu); [lia|]. rewrite ret_bind, Hu, ret_bind. case_match; by eexists.
Qed.

Lemma parse_descriptors_adb_of {W} before device config ds fuel (w : W) :
  header_of USB_DT_DEVICE_SIZE USB_DT_DEVICE device -> header_of USB_DT_CONFIG_SIZE USB_DT_CONFIG config ->
  Forall well_formed ds -> length ds < fuel ->
  parse_descriptors fuel before (Some (device ++ config ++ concat ds)) w =
    Done (option_map (fun i => (i, d_byte device 16)) (adb_of 0 ds)) w.
Proof.
  intros Hd Hc Hds Hf. pose proof (proj1 Hd) as Hl. pose proof (proj1 Hc) as Hl'. unfold parse_descriptors.
  set (post := drop _ before). rewrite (proj2 (Z.ltb_ge _ _)) by (rewrite !length_app; lia).
  pose proof (is_header_in (W := W) [] device ((config ++ concat ds) ++ post) _ _ Hd ltac:(done)) as H0.
  pose proof (is_header_in (W := W) device config (concat ds ++ post) _ _ Hc ltac:(done)) as H1.
  pose proof (scan_is_reference (W := W) fuel (device ++ config) ds post Hds Hf) as Hs.
  pose proof (peek_in (W := W) [] device ((config ++ concat ds) ++ post) 16 ltac:(unfold USB_DT_DEVICE_SIZE in Hl; lia)) as Hi.
  change (Zlen [] + 16)%Z with 16%Z in Hi. change (Zlen []) with 0%Z in H0. rewrite !length_app, !Nat2Z.inj_add, <- !app_assoc in *. cbn [app] in *.
  rewrite Z.add_assoc. rewrite Hl, Hl' in *. rewrite H0, ret_bind. cbn [negb]. rewrite H1, ret_bind. cbn [negb]. rewrite Hs, ret_bind.
  destruct (adb_of 0 ds) as [i|]; [|done]. by rewrite Hi.
Qed.

(** C15: In the descriptors of a device, a device and a configuration descriptor
    and any list of descriptors whose first bytes are their lengths, the scan
    finds the interface that the list has by its definition ([adb_of]), with the
    index of the serial number, whatever the array held before. *)
Theorem parse_descriptors_reference {W} before device config ds fuel (w : W) :
  header_of USB_DT_DEVICE_SIZE USB_DT_DEVICE device -> header_of USB_DT_CONFIG_SIZE USB_DT_CONFIG config ->
  Forall well_formed ds -> length ds < fuel ->
  parse_descriptors fuel before (Some (device ++ config ++ concat ds)) w =
    Done (option_map (fun i => (i, d_byte device 16)) (adb_of 0 ds)) w.
Proof. apply parse_descriptors_adb_of. Qed.

(** Whatever a device sends as its descriptors, the scan of it either ends,
    within as many steps as there are bytes, or never ends; it reads nothing
    outside the array, unless the descriptors fill the array up to its last
    eight bytes. *)
Theorem descriptors_decided {W} fuel before r (w : W) :
  Zlen before = DEVDESC_SIZE -> match r with Some d => (Zlen d <= DEVDESC_SIZE - 8)%Z /\ length d < fuel | None => 0 < fuel end ->
  (exists i, parse_descriptors fuel before r w = Done i w) \/ (forall fuel', parse_descriptors fuel' before r w = NoFuel).
Proof.
  unfold DEVDESC_SIZE. intros Hb Hr. unfold parse_descriptors.
  set (x := match r with Some d => _ | None => _ end).
  assert (Hx : Zlen (fst (fst x)) = 4096%Z /\ (snd x + 8 <= 4096)%Z /\ Z.to_nat (snd x) < fuel).
  { unfold x. destruct r as [d|]; cbn [fst snd]; [|lia]. rewrite length_app, length_drop. lia. }
  destruct x as [[devdesc desclength] bufend]. cbn [fst snd] in Hx. destruct Hx as (Hlen & He & Hf).
  destruct (desclength <? _)%Z; [left; by eexists|]. destruct (is_header_any (W := W) devdesc 0 USB_DT_DEVICE_SIZE USB_DT_DEVICE) as [b1 ->]; [lia..|].
  rewrite ret_bind. destruct b1; cbn [negb]; [|left; by eexists].
  destruct (is_header_any (W := W) devdesc USB_DT_DEVICE_SIZE USB_DT_CONFIG_SIZE USB_DT_CONFIG) as [b2 ->]; [unfold USB_DT_DEVICE_SIZE; lia..|].
  rewrite ret_bind. destruct b2; cbn [negb]; [|left; by eexists].
  destruct (peek_any (W := W) devdesc 16) as (v & _ & Hv); [lia|].
  destruct (scan_decides (W := W) fuel devdesc bufend (USB_DT_DEVICE_SIZE + USB_DT_CONFIG_SIZE)) as [[i Hi]|Hn];
    [unfold USB_DT_DEVICE_SIZE, USB_DT_CONFIG_SIZE; lia..| |].
  - left. rewrite Hi, ret_bind, Hv. destruct i; by eexists.
  - right. intros fuel'. by rewrite Hn.
Qed.

(** A phone: an interface with its endpoints, the first of them with a companion. *)
Definition of_bytes (l : list Z) : bytes := map byte_of l.
Definition phone_device : bytes := of_bytes [18; 1; 16; 2; 0; 0; 0; 64; 209; 24; 231; 78; 0; 0; 1; 2; 3; 1]%Z.
Definition phone_config : bytes := of_bytes [9; 2; 39; 0; 1; 1; 0; 128; 250]%Z.
Definition phone_list : list bytes :=
  [of_bytes [9; 4; 0; 0; 1; 6; 1; 1; 5]%Z; of_bytes [7; 5; 130; 3; 28; 0; 6]%Z;
   of_bytes [9; 4; 1; 0; 2; 255; 66; 1; 6]%Z; of_bytes [7; 5; 131; 2; 0; 2; 0]%Z; of_bytes [6; 48; 0; 0; 0; 0]%Z; of_bytes [7; 5; 2; 2; 0; 2; 0]%Z].
Definition phone_interface : adb_interface :=
  {| ai_ep_in := 131; ai_ep_out := 2; ai_number := 1; ai_zero_mask := 511; ai_max_packet_size := 512 |}.

Lemma parse_descriptors_reference_witness :
  parse_descriptors 7 (replicate 4096 NUL) (Some (phone_device ++ phone_config ++ concat phone_list)) tt = Done (Some (phone_interface, 3%Z)) tt.
Proof.
  refine (parse_descriptors_reference (replicate 4096 NUL) phone_device phone_config phone_list 7 tt _ _ _ _);
    [by split_and!|by split_and!| |cbn; lia].
  repeat constructor; try done; cbn; lia.
Defined.

(** A descriptor of length 0 behind the configuration: the scan stays there. *)
Definition stuck_device : bytes := phone_device ++ phone_config ++ of_bytes [0; 36]%Z.

Example zero_length_spins fuel : parse_descriptors fuel (replicate 4096 NUL) (Some stuck_device) tt = NoFuel.
Proof.
  unfold parse_descriptors. set (devdesc := stuck_device ++ _).
  assert (Hs : forall f, scan_descriptors (W := unit) f devdesc 29 27 = no_fuel) by (apply scan_stays; [lia|done]).
  change (Zlen stuck_device) with 29%Z. cbn [Z.ltb Z.compare]. change (is_header (W := unit) devdesc 0 18 1) with (ret (W := unit) true).
  cbn -[scan_descriptors devdesc]. by rewrite Hs.
Qed.

Lemma descriptors_decided_witness :
  (exists i, parse_descriptors 30 (replicate 4096 NUL) (Some stuck_device) tt = Done i tt) \/
  (forall fuel', parse_descriptors fuel' (replicate 4096 NUL) (Some stuck_device) tt = NoFuel).
Proof. refine (descriptors_decided 30 (replicate 4096 NUL) (Some stuck_device) tt _ _); [by vm_compute|split; [by vm_compute|cbn; lia]]. Defined.

(** Descriptors that fill the array: the type of the last is behind it. *)
Example full_array : parse_descriptors 4096 [] (Some (phone_device ++ phone_config ++ concat (replicate 2034 (of_bytes [2; 36]%Z)) ++ of_bytes [2]%Z)) tt =
  Crash "read outside devdesc".
Proof. by vm_compute. Qed.
