(* ===== verification/UsbTurn.v ===== *)
(** * A turn of the thread that looks for USB devices (client/usb_linux.cpp)

    Between two turns no handle is marked.  A scan marks the handles whose
    device is still there and makes handles for new ones; then those without a
    mark are kicked. *)

From S2P Require Import Prelude LibBase Packet AdbIo FdEvent Transport World SmartText Sockets SocketIo SocketSpec Listeners.
From S2P Require Import TransportOps Registration Requests Connection Demo UsbLinux UsbScan.

(** The system calls and the pipe to the main thread leave the handles alone. *)
Class UsbFrame (E : Type) `{Os E, UsbState E, UsbOs E} := {
  frame_state :: UsbStateLaws E;
  frame_open name w (e e' : E) fd : u_open name w e = (fd, e') -> usb_of e' = usb_of e;
  frame_close fd (e : E) : usb_of (u_close fd e) = usb_of e;
  frame_read fd n (e e' : E) r : u_read fd n e = (r, e') -> usb_of e' = usb_of e;
  frame_claim fd n (e e' : E) r : u_claim_interface fd n e = (r, e') -> usb_of e' = usb_of e;
  frame_discard fd h i (e : E) : usb_of (u_discard_urb fd h i e) = usb_of e;
  frame_notify h (e : E) : usb_of (u_cv_notify h e) = usb_of e;
  frame_kill t (e : E) : usb_of (u_kill_thread t e) = usb_of e;
  frame_tmsg fd m (e e' : E) ok : tmsg_put fd m e = (ok, e') -> usb_of e' = usb_of e;
}.

(** Reading the array changes nothing. *)
Section Steady.
Context {W : Type}.

Definition steady {A} (m : M W A) : Prop := forall w, pwp m (fun _ w' => w' = w) w.

Lemma steady_bind {A B} (m : M W A) (f : A -> M W B) : steady m -> (forall a, steady (f a)) -> steady (bind m f).
Proof. intros Hm Hf w. apply pwp_bind. eapply pwp_mono; [apply Hm|]. intros a w' ->. apply Hf. Qed.
Lemma steady_ret {A} (a : A) : steady (ret a).
Proof. intros w. by apply pwp_ret. Qed.
Lemma steady_peek d p : steady (peek d p).
Proof. intros w. unfold peek. repeat case_match; by (apply pwp_crash || apply pwp_ret). Qed.

Ltac steady_steps :=
  repeat first [apply steady_peek | apply steady_ret | apply steady_bind; [|intros ?] | done | case_match].

Lemma steady_scan fuel d e p : steady (scan_descriptors fuel d e p).
Proof.
  revert p. induction fuel as [|f IH]; intros p; [by intros w a w'|]. cbn [scan_descriptors].
  unfold at_adb_interface, find_endpoints, skip_companion, is_endpoint, describe_interface, peek16. steady_steps.
Qed.

Lemma steady_parse fuel before r : steady (parse_descriptors fuel before r).
Proof. unfold parse_descriptors, is_header. steady_steps; apply steady_scan. Qed.

End Steady.

(** Calls that leave a view [v] of the world alone, for a view of the
    environment and the globals that the pipe to the main thread keeps. *)
Section Views.
Context {E : Type} {K : Kernel E} {B : Build} {OS : Os E} {T : Type} (v : world E -> T).
Abbreviation W := (world E).

Definition keeps {A} (m : M W A) : Prop := forall w, pwp m (fun _ w' => v w' = v w) w.

Lemma keeps_bind {A C} (m : M W A) (f : A -> M W C) : keeps m -> (forall a, keeps (f a)) -> keeps (bind m f).
Proof.
  intros Hm Hf w. apply pwp_bind. eapply pwp_mono; [apply Hm|]. intros a w' Hw. eapply pwp_mono; [apply Hf|]. intros c w2 H. cbn in *. congruence.
Qed.
Lemma keeps_ret {A} (a : A) : keeps (ret a).
Proof. intros w. by apply pwp_ret. Qed.
Lemma keeps_get : keeps get.
Proof. intros w. by apply pwp_get. Qed.
Lemma keeps_fatal {A} why : keeps (A := A) (fatal why).
Proof. intros w. apply pwp_fatal. Qed.
Lemma keeps_load t : keeps (load_transport t).
Proof. intros w a w'. unfold load_transport. case_match; [|done]. by intros [= <- <-]. Qed.

Context (v_env : forall f w, w_env (f w) = w_env w -> w_globals (f w) = w_globals w -> v (f w) = v w).
Context (v_tmsg : forall fd m ok e w, tmsg_put fd m (w_env w) = (ok, e) -> v (set_w_env e w) = v w).

Lemma keeps_modify f : (forall w, w_env (f w) = w_env w) -> (forall w, w_globals (f w) = w_globals w) -> keeps (modify f).
Proof. intros H1 H2 w. apply pwp_modify. by apply v_env. Qed.
Lemma keeps_upd_transport t f : keeps (upd_transport t f).
Proof. apply keeps_bind; [apply keeps_load|]. intros x. by apply keeps_modify. Qed.

Lemma keeps_transport_write m : keeps (transport_write_action m).
Proof.
  apply keeps_bind; [apply keeps_get|]. intros w0. apply keeps_bind.
  - intros w a w'. destruct (tmsg_put _ _ _) as [ok e] eqn:Ht. intros [= <- <-]. by eapply v_tmsg.
  - intros [|]; [apply keeps_ret|apply keeps_fatal].
Qed.

Ltac keeps_steps :=
  repeat first
    [ apply keeps_transport_write | apply keeps_upd_transport | apply keeps_load | apply keeps_get | apply keeps_ret | apply keeps_fatal
    | by apply keeps_modify | apply keeps_bind; [|intros ?] ].

Lemma keeps_register h serial devpath b : keeps (register_usb_transport h serial devpath b).
Proof. unfold register_usb_transport, new_transport, alloc, init_usb_transport, register_transport. keeps_steps. Qed.

Lemma keeps_keep_transports p l : keeps (keep_transports p l).
Proof. induction l as [|t l IH]; cbn [keep_transports]; keeps_steps. done. Qed.

Lemma keeps_unregister h : keeps (unregister_usb_transport h).
Proof. unfold unregister_usb_transport. apply keeps_bind; [apply keeps_get|]. intros w. apply keeps_bind; [apply keeps_keep_transports|]. intros l. keeps_steps. Qed.

Lemma keeps_all_transports p l : keeps (all_transports p l).
Proof. induction l as [|t l IH]; cbn [all_transports]; keeps_steps. by case_match; keeps_steps. Qed.

Lemma keeps_iterate_transports p : keeps (iterate_transports p).
Proof. unfold iterate_transports. keeps_steps; [apply keeps_all_transports|]. case_match; [apply keeps_all_transports|apply keeps_ret]. Qed.

End Views.

Section Turn.
Context {E : Type} {K : Kernel E} {B : Build} {OS : Os E} {LB : LibBase} {US : UsbState E} {UO : UsbOs E} {UF : UsbFrame E}.
Abbreviation W := (world E).

Definition usb (w : W) : usb_state := usb_of (w_env w).

Lemma pwp_on_env {A} (m : M E A) (Q : A -> W -> Prop) (w : W) : pwp m (fun a e => Q a (set_w_env e w)) (w_env w) -> pwp (on_env m) Q w.
Proof. unfold pwp, on_env. intros H a w'. destruct (m (w_env w)) eqn:Hm; try done. intros [= <- <-]. by apply H. Qed.

Lemma usb_set_env e w : usb (set_w_env e w) = usb_of e.
Proof. done. Qed.

(** *** What the handles are after a call *)

Lemma pwp_load_usb h (Q : usb_handle -> E -> Prop) e : (forall x, us_objects (usb_of e) !! h = Some x -> Q x e) -> pwp (load_usb h) Q e.
Proof. intros H a e'. unfold load_usb. destruct (us_objects _ !! h) as [x|] eqn:Hx; [|done]. intros [= <- <-]. by apply H. Qed.

Definition put_object (h : Z) (x : usb_handle) (u : usb_state) : usb_state := set_us_objects (<[h := x]> (us_objects u)) u.

Lemma pwp_upd_handle h f (Q : unit -> E -> Prop) e :
  (forall x e', us_objects (usb_of e) !! h = Some x -> usb_of e' = put_object h (f x) (usb_of e) -> Q tt e') -> pwp (upd_handle h f) Q e.
Proof.
  intros H. unfold upd_handle, upd_usb. apply pwp_bind, pwp_load_usb. intros x Hx. apply pwp_modify, (H x); [done|]. by rewrite usb_of_put.
Qed.

Lemma pwp_usb_call {A} (f : E -> A * E) (Q : A -> E -> Prop) e : (forall a e', f e = (a, e') -> Q a e') -> pwp (usb_call f) Q e.
Proof. unfold usb_call. intros H a e'. destruct (f e) as [a1 e1]. intros [= <- <-]. by apply H. Qed.

(** *** The invariant *)

Definition handle_at (u : usb_state) (h : Z) (x : usb_handle) : Prop := h ∈ g_usb_handles u /\ us_objects u !! h = Some x.

(** The list names objects, each once, and no two for the same device. *)
Record handles_ok (u : usb_state) : Prop := {
  ok_live h : h ∈ g_usb_handles u -> is_Some (us_objects u !! h);
  ok_fresh h : is_Some (us_objects u !! h) -> (h < us_next u)%Z;
  ok_nodup : NoDup (g_usb_handles u);
  ok_paths h h' x x' : handle_at u h x -> handle_at u h' x' -> path x = path x' -> h = h';
}.

Lemma put_object_ok h x y u : handle_at u h x -> path y = path x -> handles_ok u -> handles_ok (put_object h y u).
Proof.
  intros [Hin Hx] Hp [H1 H2 H3 H4]. split; cbn.
  - intros h' Hh'. destruct (decide (h = h')) as [->|]; [rewrite lookup_insert_eq|rewrite lookup_insert_ne by done]; by eauto.
  - intros h'. destruct (decide (h = h')) as [->|]; [intros _; by apply H2|rewrite lookup_insert_ne by done; apply H2].
  - done.
  - assert (Hat : forall k z, handle_at (put_object h y u) k z -> exists z', handle_at u k z' /\ path z' = path z).
    { intros k z [Hk Hz]. cbn in Hk, Hz. destruct (decide (h = k)) as [->|].
      - rewrite lookup_insert_eq in Hz. injection Hz as <-. exists x. by split.
      - rewrite lookup_insert_ne in Hz by done. by exists z. }
    intros k k' z z' Hk Hk' Heq. destruct (Hat _ _ Hk) as (z1 & Hz1 & E1), (Hat _ _ Hk') as (z2 & Hz2 & E2). apply (H4 k k' z1 z2); congruence.
Qed.

(** What a scan of [names] has made of [u0]. *)
Record scanning (u0 : usb_state) (names : list bytes) (u : usb_state) : Prop := {
  sc_ok : handles_ok u;
  sc_old h x : handle_at u0 h x -> handle_at u h (if decide (path x ∈ names) then set_mark true x else x);
  sc_new h x : handle_at u h x -> h ∉ g_usb_handles u0 -> mark x = true /\ dead x = false /\ path x ∈ names;
}.

Lemma scanning_more u0 names name u : scanning u0 names u -> (forall h x, handle_at u h x -> path x <> name) -> scanning u0 (names ++ [name]) u.
Proof.
  intros [H1 H2 H3] Hne. split; [done| |].
  - intros h x Hx. pose proof (H2 _ _ Hx) as Hu. pose proof (Hne _ _ Hu) as Hn.
    destruct (decide (path x ∈ names)) as [Hi|Hi].
    + rewrite decide_True by set_solver. done.
    + rewrite decide_False; [done|]. set_solver.
  - intros h x Hx Hh. destruct (H3 _ _ Hx Hh) as (? & ? & ?). set_solver.
Qed.

(** The first handle with the name. *)
Lemma pwp_find_path name l (Q : option Z -> E -> Prop) e :
  (forall h x, h ∈ l -> us_objects (usb_of e) !! h = Some x -> path x = name -> Q (Some h) e) ->
  ((forall h x, h ∈ l -> us_objects (usb_of e) !! h = Some x -> path x <> name) -> Q None e) -> pwp (find_path name l) Q e.
Proof.
  induction l as [|h l IH]; intros Hs Hn; cbn [find_path].
  - apply pwp_ret, Hn. set_solver.
  - apply pwp_bind, pwp_load_usb. intros x Hx. case_bool_decide as Hp.
    + apply pwp_ret, (Hs h x); set_solver.
    + apply IH; [set_solver|]. intros Hall. apply Hn. intros h' x' [->|Hin]%elem_of_cons Hx'; [congruence|by apply (Hall h')].
Qed.

Lemma pwp_handles (Q : list Z -> E -> Prop) e : Q (g_usb_handles (usb_of e)) e -> pwp handles Q e.
Proof. intros H. by apply pwp_gets. Qed.

Lemma is_known_device_seen u0 names name (Q : bool -> E -> Prop) e :
  scanning u0 names (usb_of e) ->
  (forall e', scanning u0 (names ++ [name]) (usb_of e') -> Q true e') ->
  ((forall h x, handle_at (usb_of e) h x -> path x <> name) -> Q false e) -> pwp (is_known_device name) Q e.
Proof.
  intros Hs Hyes Hno. apply pwp_bind, pwp_handles, pwp_bind, pwp_find_path.
  - intros h x Hin Hx Hp. apply pwp_bind, pwp_upd_handle. intros x' e' Hx' He'. rewrite Hx in Hx'. injection Hx' as <-. apply pwp_ret, Hyes.
    rewrite He'. destruct Hs as [H1 H2 H3]. split.
    + by apply (put_object_ok h x).
    + intros k y Hy. pose proof (H2 _ _ Hy) as [Hk Ho]. split; [done|]. cbn. destruct (decide (h = k)) as [->|Hne].
      * rewrite lookup_insert_eq. rewrite Hx in Ho. injection Ho as Ho. assert (Hpy : path y = name) by (rewrite <- Hp, Ho; by case_decide).
        rewrite decide_True by set_solver. rewrite Ho. by case_decide.
      * rewrite lookup_insert_ne by done. rewrite Ho. f_equal. assert (Hpy : path y <> name).
        { intros Hpy. apply Hne. apply (ok_paths _ H1 h k x (if decide (path y ∈ names) then set_mark true y else y)); [done..|].
          by case_decide; cbn; rewrite Hp. }
        destruct (decide (path y ∈ names)); [rewrite decide_True by set_solver|rewrite decide_False by set_solver]; done.
    + intros k y [Hk Hy] Hn. cbn in Hk, Hy. destruct (decide (h = k)) as [->|Hne].
      * rewrite lookup_insert_eq in Hy. injection Hy as <-. destruct (H3 _ _ (conj Hk Hx) Hn) as (? & ? & ?). cbn. set_solver.
      * rewrite lookup_insert_ne in Hy by done. destruct (H3 _ _ (conj Hk Hy) Hn) as (? & ? & ?). set_solver.
  - intros Hall. apply pwp_ret, Hno. intros h x [Hh Hx]. by apply (Hall h).
Qed.

(** *** Calls that leave the handles alone *)

Lemma usb_env f w : w_env (f w) = w_env w -> w_globals (f w) = w_globals w -> usb (f w) = usb w.
Proof. unfold usb. by intros ->. Qed.
Lemma usb_tmsg fd m ok e w : tmsg_put fd m (w_env w) = (ok, e) -> usb (set_w_env e w) = usb w.
Proof. by intros H%frame_tmsg. Qed.

(** *** A new handle *)

Definition with_handle (x : usb_handle) (u : usb_state) : usb_state :=
  {| us_objects := <[us_next u := x]> (us_objects u); us_next := us_next u + 1; g_usb_handles := g_usb_handles u ++ [us_next u] |}.

Lemma with_handle_at x u h y : handles_ok u -> handle_at (with_handle x u) h y -> handle_at u h y \/ h = us_next u /\ y = x.
Proof.
  intros Hok [[Hin| ->%list_elem_of_singleton]%elem_of_app Hy]; cbn in Hy.
  - rewrite lookup_insert_ne in Hy; [by left|]. intros <-. pose proof (ok_fresh _ Hok _ (ok_live _ Hok _ Hin)). lia.
  - rewrite lookup_insert_eq in Hy. injection Hy as <-. by right.
Qed.

Lemma with_handle_scanning u0 names x u : scanning u0 (names ++ [path x]) u -> (forall h y, handle_at u h y -> path y <> path x) ->
  mark x = true -> dead x = false -> scanning u0 (names ++ [path x]) (with_handle x u).
Proof.
  intros [H1 H2 H3] Hne Hm Hd.
  assert (Hnew : us_next u ∉ g_usb_handles u) by (intros Hin; pose proof (ok_fresh _ H1 _ (ok_live _ H1 _ Hin)); lia).
  split.
  - split; cbn.
    + intros h [Hin| ->%list_elem_of_singleton]%elem_of_app; [|by rewrite lookup_insert_eq].
      destruct (decide (us_next u = h)) as [->|]; [by rewrite lookup_insert_eq|rewrite lookup_insert_ne by done; by apply (ok_live _ H1)].
    + intros h. destruct (decide (us_next u = h)) as [->|]; [lia|]. rewrite lookup_insert_ne by done. intros Hs. apply (ok_fresh _ H1) in Hs. lia.
    + apply NoDup_app. split_and!; [apply (ok_nodup _ H1)|set_solver|apply NoDup_singleton].
    + intros h h' y y' Hy Hy' Hp. destruct (with_handle_at _ _ _ _ H1 Hy) as [Ha|[-> ->]], (with_handle_at _ _ _ _ H1 Hy') as [Hb|[-> ->]]; try done.
      * by apply (ok_paths _ H1 h h' y y').
      * by destruct (Hne _ _ Ha).
      * by destruct (Hne _ _ Hb).
  - intros h y Hy. destruct (H2 _ _ Hy) as [Hin Hl]. split; cbn; [set_solver|]. rewrite lookup_insert_ne by (intros <-; done). done.
  - intros h y Hy Hn. destruct (with_handle_at _ _ _ _ H1 Hy) as [Ha|[-> ->]]; [by apply (H3 h)|set_solver].
Qed.

(** *** A scan *)

Lemma pwp_open_device name (Q : option (Z * bool) -> E -> Prop) e : (forall r e', usb_of e' = usb_of e -> Q r e') -> pwp (open_device name) Q e.
Proof.
  intros H. apply pwp_bind, pwp_usb_call. intros fd e1 H1%frame_open. case_match; [by apply pwp_ret, H|].
  apply pwp_bind, pwp_usb_call. intros fd' e2 H2%frame_open. apply pwp_ret, H. congruence.
Qed.

Lemma register_device_scanning u0 names name dev_path i w :
  scanning u0 (names ++ [name]) (usb w) -> (forall h x, handle_at (usb w) h x -> path x <> name) ->
  pwp (register_device name dev_path i) (fun _ w' => scanning u0 (names ++ [name]) (usb w')) w.
Proof.
  intros Hs Hne. unfold register_device. apply pwp_bind, pwp_on_env, pwp_handles. cbn. apply pwp_bind, pwp_on_env, pwp_find_path.
  { intros. by apply pwp_ret. }
  intros _. apply pwp_bind, pwp_on_env, pwp_open_device. intros r e1 He1. destruct r as [[fd can_write]|]; [|apply pwp_ret; unfold usb in *; cbn in *; by rewrite He1].
  apply pwp_bind. eapply (pwp_mono _ (fun _ w' => usb w' = usb w)).
  { destruct can_write; [|by apply pwp_ret]. apply pwp_on_env, pwp_usb_call. intros b e2 H2%frame_claim. unfold usb in *. cbn in *. congruence. }
  intros claimed w1 Hw1. destruct claimed; cbn [negb].
  - apply pwp_bind, pwp_on_env. eapply (pwp_mono _ (fun _ e => usb_of e = usb w)).
    { unfold read_serial. destruct dev_path; [|apply pwp_crash]. apply pwp_bind, pwp_gets, pwp_ret. exact Hw1. }
    intros serial e2 He2. apply pwp_bind, pwp_on_env. unfold add_handle. apply pwp_bind, pwp_gets, pwp_bind, pwp_modify, pwp_ret.
    eapply pwp_mono; [apply (keeps_register usb usb_env usb_tmsg)|]. intros [] w' ->. unfold usb. cbn. rewrite usb_of_put, He2.
    apply (with_handle_scanning u0 names (new_usb_handle name i fd can_write)); [done|exact Hne|done|done].
  - apply pwp_on_env, pwp_modify. unfold usb in *. cbn. by rewrite frame_close, Hw1.
Qed.

Lemma scan_device_scanning fuel u0 names name w :
  scanning u0 names (usb w) -> pwp (scan_device fuel register_device name) (fun _ w' => scanning u0 (names ++ [name]) (usb w')) w.
Proof.
  intros Hs. apply pwp_bind, pwp_on_env, (is_known_device_seen u0 names); [done|intros e' H; by apply pwp_ret|].
  intros Hne. pose proof (scanning_more _ _ _ _ Hs Hne) as Hs'.
  apply pwp_bind, pwp_on_env, pwp_usb_call. intros fd e1 H1%frame_open. case_match; [apply pwp_ret; unfold usb in *; cbn in *; by rewrite H1|].
  apply pwp_bind, pwp_on_env, pwp_gets, pwp_bind, pwp_on_env, pwp_usb_call. intros d e2 H2%frame_read. cbn in H2.
  apply pwp_bind. eapply pwp_mono; [apply steady_parse|]. intros r w' ->. apply pwp_bind.
  eapply (pwp_mono _ (fun _ w' => scanning u0 (names ++ [name]) (usb w'))).
  - assert (Hu : usb_of e2 = usb w) by (unfold usb in *; cbn in *; congruence).
    destruct r as [[i s]|]; [|apply pwp_ret; unfold usb in *; cbn; by rewrite Hu]. apply pwp_bind, pwp_on_env.
    intros dev_path e3 H3. assert (Hd : e3 = e2).
    { revert H3. unfold device_path, bind, gets. repeat case_match; by intros [= <- <-]. }
    subst e3. by apply register_device_scanning; unfold usb in *; cbn in *; rewrite Hu.
  - intros [] w' Hw'. apply pwp_on_env, pwp_modify. unfold usb in *. cbn. by rewrite frame_close.
Qed.

(** *** Kicking *)

(** A kicked handle is dead and otherwise what it was for the list. *)
Definition kicked (x y : usb_handle) : Prop := dead y = true /\ path y = path x /\ mark y = mark x.

Definition changed_at (h : Z) (P : usb_handle -> usb_handle -> Prop) (u u' : usb_state) : Prop :=
  exists x y, us_objects u !! h = Some x /\ P x y /\ u' = put_object h y u.

Lemma put_put_object h x y u : put_object h x (put_object h y u) = put_object h x u.
Proof. unfold put_object, set_us_objects. cbn. by rewrite insert_insert_eq. Qed.

Lemma cancel_keeps h x e u z : usb_of e = put_object h z u -> dead z = true ->
  pwp (cancel_transfers h x) (fun _ e' => exists y, usb_of e' = put_object h y u /\ dead y = true /\ path y = path z /\ mark y = mark z) e.
Proof.
  intros Hu Hd. unfold cancel_transfers. apply pwp_bind. eapply (pwp_mono _ (fun _ e' => usb_of e' = usb_of e)).
  { case_match; [apply pwp_modify, frame_kill|by apply pwp_ret]. }
  intros [] e1 H1. do 2 apply pwp_bind, pwp_modify. apply pwp_bind, pwp_upd_handle. rewrite !frame_discard, H1, Hu.
  intros y e2 Hy H2. cbn in Hy. rewrite lookup_insert_eq in Hy. injection Hy as <-. rewrite put_put_object in H2.
  apply pwp_bind, pwp_upd_handle. rewrite H2. intros y e3 Hy H3. cbn in Hy. rewrite lookup_insert_eq in Hy. injection Hy as <-. rewrite put_put_object in H3.
  apply pwp_modify. rewrite frame_notify, H3. eexists. by split_and!.
Qed.

Lemma usb_kick_kills locked h w : pwp (usb_kick locked h) (fun _ w' => changed_at h kicked (usb w) (usb w')) w.
Proof.
  unfold usb_kick. apply pwp_bind, pwp_on_env, pwp_load_usb. intros x Hx. destruct (dead x) eqn:Hd.
  { apply pwp_ret. exists x, x. split; [done|]. split; [by split_and!|]. unfold put_object, set_us_objects. rewrite insert_id by done. by destruct (usb_of (w_env w)) eqn:Hu; unfold usb; cbn; rewrite Hu. }
  apply pwp_bind, pwp_on_env, pwp_upd_handle. intros x' e1 Hx' H1. cbn in Hx', H1. rewrite Hx in Hx'. injection Hx' as <-.
  destruct (writeable x).
  - apply pwp_on_env. eapply pwp_mono; [by apply (cancel_keeps h x _ (usb_of (w_env w)) (set_dead true x))|].
    intros [] e2 (y & H2 & ? & ? & ?). exists x, y. by split_and!.
  - destruct locked; [apply pwp_crash|]. eapply pwp_mono; [apply (keeps_unregister usb usb_env)|]. intros [] w' ->. exists x, (set_dead true x). by split_and!.
Qed.

Definition settled (x y : usb_handle) : Prop := if mark x then y = set_mark false x else kicked x y.

Lemma kick_unmarked_settles h w : pwp (kick_unmarked h) (fun _ w' => changed_at h settled (usb w) (usb w')) w.
Proof.
  unfold kick_unmarked, settled. apply pwp_bind, pwp_on_env, pwp_load_usb. intros x Hx. destruct (mark x) eqn:Hm.
  - apply pwp_on_env, pwp_upd_handle. intros x' e1 Hx' H1. cbn in Hx', H1. rewrite Hx in Hx'. injection Hx' as <-.
    exists x, (set_mark false x). rewrite Hm. by split_and!.
  - eapply pwp_mono; [apply usb_kick_kills|]. intros [] w' (x' & y & Hx' & Hk & Hu). unfold usb in Hx'. cbn in Hx'. rewrite Hx in Hx'. injection Hx' as <-.
    exists x, y. rewrite Hm. by split_and!.
Qed.

(** The handles in front are settled, those behind as before. *)
Record settling (u0 : usb_state) (front rest : list Z) (u : usb_state) : Prop := {
  se_list : g_usb_handles u = g_usb_handles u0;
  se_ok : handles_ok u;
  se_split : g_usb_handles u0 = front ++ rest;
  se_front h x : handle_at u0 h x -> h ∈ front -> exists y, handle_at u h y /\ settled x y;
  se_rest h x : handle_at u0 h x -> h ∈ rest -> handle_at u h x;
}.

Lemma settled_path x y : settled x y -> path y = path x.
Proof. unfold settled. destruct (mark x); [by intros ->|by intros (_ & ? & _)]. Qed.

Lemma settling_next u0 front h rest u u' :
  settling u0 front (h :: rest) u -> changed_at h settled u u' -> settling u0 (front ++ [h]) rest u'.
Proof.
  intros [H1 H2 H3 H4 H5] (x & y & Hx & Hs & ->). pose proof (ok_nodup _ H2) as Hnd. rewrite H1, H3 in Hnd.
  assert (Hh : h ∈ g_usb_handles u) by (rewrite H1, H3; set_solver).
  apply NoDup_app in Hnd as (_ & Hf & [Hr _]%NoDup_cons). split.
  - done.
  - apply (put_object_ok h x); [by split|by apply settled_path|done].
  - rewrite H3, <- app_assoc. done.
  - intros k z Hz [Hk| ->%list_elem_of_singleton]%elem_of_app.
    + destruct (H4 _ _ Hz Hk) as (y' & [Hin Hl] & Hs'). exists y'. split; [|done]. split; [done|]. cbn. rewrite lookup_insert_ne; [done|].
      intros <-. apply (Hf _ Hk). set_solver.
    + exists y. split; [split; [done|cbn; apply lookup_insert_eq]|]. destruct (H5 h z Hz) as [_ Hl]; [set_solver|]. rewrite Hx in Hl. by injection Hl as ->.
  - intros k z Hz Hk. destruct (H5 k z Hz) as [Hin Hl]; [set_solver|]. split; [done|]. cbn. rewrite lookup_insert_ne; [done|]. by intros <-.
Qed.

Lemma kick_disconnected_settles w : handles_ok (usb w) ->
  pwp kick_disconnected_devices (fun _ w' => settling (usb w) (g_usb_handles (usb w)) [] (usb w')) w.
Proof.
  intros Hok. unfold kick_disconnected_devices. apply pwp_bind, pwp_on_env, pwp_handles.
  eapply pwp_mono; [apply (pwp_iter_list kick_unmarked (fun front rest w' => settling (usb w) front rest (usb w')) _ _) with (done := [])|].
  - intros front h rest w1 H1. eapply pwp_mono; [apply kick_unmarked_settles|]. intros [] w2 H2. by eapply settling_next.
  - split; [done|done|done|intros h x _ Hin; set_solver|by intros h x Hx _].
  - intros [] w' H. exact H.
Qed.

End Turn.

(** * Properties of the USB devices of a Linux host *)

Section Props.
Context {E : Type} {K : Kernel E} {B : Build} {OS : Os E} {LB : LibBase} {US : UsbState E} {UO : UsbOs E} {UF : UsbFrame E}.
Abbreviation W := (world E).

(** Between two turns. *)
Definition at_rest (u : usb_state) : Prop := handles_ok u /\ forall h x, handle_at u h x -> mark x = false.

(** C14: A turn of the thread that looks for devices, over the device files
    [names] it finds: if it ends, the list of handles is sound again and nothing
    is marked; a handle whose device is still there is as it was; one whose
    device is gone is still in the list, but dead; and every new handle is
    alive, for a device that was found. *)
Theorem device_turn fuel names w : at_rest (usb w) ->
  pwp (iter_list (scan_device fuel register_device) names ;;; kick_disconnected_devices)
    (fun _ w' => at_rest (usb w') /\
       (forall h x, handle_at (usb w) h x ->
          (path x ∈ names -> handle_at (usb w') h x) /\
          (path x ∉ names -> exists y, handle_at (usb w') h y /\ dead y = true /\ path y = path x)) /\
       (forall h y, handle_at (usb w') h y -> h ∉ g_usb_handles (usb w) -> path y ∈ names /\ dead y = false)) w.
Proof.
  intros [Hok Hrest]. apply pwp_bind.
  eapply pwp_mono; [apply (pwp_iter_list (scan_device fuel register_device) (fun seen _ w' => scanning (usb w) seen (usb w')) names w) with (done := [])|].
  - intros seen name rest w1 H1. by apply scan_device_scanning.
  - split; [done|intros h x Hx; by rewrite decide_False by set_solver|intros h x [Hin _] Hn; done].
  - intros [] w1 [H1 Hold Hnew]. cbn [app] in *. eapply pwp_mono; [by apply kick_disconnected_settles|]. intros [] w2 [L1 L2 _ L4 _].
    assert (Hall : forall h y, handle_at (usb w2) h y -> exists x, handle_at (usb w1) h x /\ settled x y).
    { intros h y [Hin Hy]. rewrite L1 in Hin. destruct (ok_live _ H1 _ Hin) as [x Hx]. destruct (L4 h x) as (y' & [_ Hy'] & Hs); [by split|done|].
      rewrite Hy in Hy'. injection Hy' as <-. exists x. by split. }
    split; [split; [done|]|split].
    + intros h y (x & _ & Hs)%Hall. unfold settled in Hs. destruct (mark x) eqn:Hm; [by subst y|]. destruct Hs as (_ & _ & ->). done.
    + intros h x Hx. pose proof (Hold _ _ Hx) as Hx1. pose proof (Hrest _ _ Hx) as Hm.
      destruct (L4 _ _ Hx1 (proj1 Hx1)) as (y & Hy & Hs). split; intros Hp.
      * rewrite decide_True in Hs by done. unfold settled in Hs. cbn in Hs. subst y. replace x with (set_mark false (set_mark true x)); [done|].
        destruct x. cbn in *. by subst.
      * rewrite decide_False in Hs by done. unfold settled in Hs. rewrite Hm in Hs. destruct Hs as (? & ? & _). by exists y.
    + intros h y (x & Hx & Hs)%Hall Hn. destruct (Hnew _ _ Hx Hn) as (Hm & Hd & Hp). unfold settled in Hs. rewrite Hm in Hs. by subst y.
Qed.

(** A handle that could only be opened for reading, when all transports are
    kicked at the exit of the server: the mutex is locked twice. *)
Lemma kick_all_locks_twice w t rest x h u :
  w_transport_list w = t :: rest -> w_transports w !! t = Some x -> t_kicked x = false -> t_type x = kTransportUsb -> t_usb x = Some h ->
  us_objects (usb w) !! h = Some u -> dead u = false -> writeable u = false ->
  kick_all_holding_lock w = Crash "transport_lock is locked twice by one thread".
Proof.
  intros Hl Hx Hk Ht Hu Ho Hd Hw. unfold kick_all_holding_lock, bind, get. rewrite Hl. cbn [iter_list].
  assert (Hkick : kick_holding_lock t w = Crash "transport_lock is locked twice by one thread"); [|unfold bind; by rewrite Hkick].
  assert (Hload : load_transport t w = Done x w) by (unfold load_transport; by rewrite Hx).
  unfold kick_holding_lock, upd_transport, bind. rewrite Hload, Hk, Hload. cbn. rewrite Ht, Hu.
  unfold usb_kick, bind, on_env, load_usb, usb in *. cbn. rewrite Ho, Hd, Hw. cbn.
  unfold upd_handle, bind, load_usb, upd_usb, modify. cbn. by rewrite Ho.
Qed.

(** An empty transfer follows exactly when the length is a multiple of the size
    of a packet, for the sizes that USB allows. *)
Lemma marker_needed (len k : Z) : (0 < k < 32)%Z ->
  (negb (u32 (2 ^ k - 1) =? 0) && (Z.land len (u32 (2 ^ k - 1)) =? 0))%Z = (len mod 2 ^ k =? 0)%Z.
Proof.
  intros Hk. assert (Hp : (2 ^ 1 <= 2 ^ k < 2 ^ 32)%Z) by (split; [apply Z.pow_le_mono_r|apply Z.pow_lt_mono_r]; lia).
  unfold u32. rewrite Z.mod_small by lia. rewrite (proj2 (Z.eqb_neq _ _)) by lia. cbn [negb andb].
  by rewrite Z.sub_1_r, <- Z.ones_equiv, Z.land_ones by lia.
Qed.

End Props.

(** ** A bench with two device files *)

Record bench := { b_usb : usb_state; b_files : list (bytes * bytes); b_registered : nat }.

#[export] Instance bench_fd_ops : FdOps bench := {
  adb_read _ _ e := (RdOk [], e);
  adb_write _ bs e := (WrOk (Zlen bs), e);
  adb_shutdown _ e := e;
  strerror _ := str "error";
}.

#[export] Instance bench_kernel : Kernel bench := {
  refusals _ _ := 0;
  pipe_put _ _ e := (true, e);
  pipe_get _ e := (None, e);
}.

#[export] Instance bench_os : Os bench := {
  adb_socketpair e := (None, e);
  start_thread _ e := e;
  tmsg_put _ _ e := (true, {| b_usb := b_usb e; b_files := b_files e; b_registered := S (b_registered e) |});
  tmsg_get _ e := (None, e);
  usb_kick _ e := e;
  usb_close _ e := e;
  notify_init_cv e := e;
  getenv _ := None;
  canonical_address host port := host ++ str ":" ++ dec port;
  set_tcp_keepalive _ _ e := e;
}.

#[export] Instance bench_state : UsbState bench := {
  usb_of := b_usb;
  put_usb u e := {| b_usb := u; b_files := b_files e; b_registered := b_registered e |};
}.

(** The descriptor of a file is its place in the list. *)
Fixpoint file_place (name : bytes) (l : list (bytes * bytes)) (i : Z) : Z :=
  match l with
  | [] => -1
  | (n, _) :: rest => if bool_decide (n = name) then i else file_place name rest (i + 1)
  end.

#[export] Instance bench_usb : UsbOs bench := {
  u_names dir e := Some (omap (fun '(n, _) => if is_prefix (dir ++ str "/") n then Some (drop (S (length dir)) n) else None) (b_files e));
  u_open name _ e := (file_place name (b_files e) 0, e);
  u_close _ e := e;
  u_devdesc _ := replicate 4096 NUL;
  u_read fd _ e := (snd <$> b_files e !! Z.to_nat fd, e);
  u_char_device fd _ := Some (189, fd)%Z;
  u_readlink _ _ _ := Some (str "../../devices/usb1/1-2");
  u_claim_interface _ _ e := (true, e);
  u_file _ _ := Some (str "0123456789ABCDEF" ++ [byte_of 10]);
  u_submit_urb _ _ _ _ _ e := (None, e);
  u_discard_urb _ _ _ e := e;
  u_cv_wait _ e := (true, e);
  u_cv_notify _ e := e;
  u_reap_urb _ e := (ReapError EINVAL, e);
  u_kill_thread _ e := e;
  u_self := 7;
  u_errno _ := E_NONE;
}.

#[export] Instance bench_frame : UsbFrame bench.
Proof. split; [split; [done|by intros []|done]|..]; cbn; intros; simplify_eq; done. Qed.

Definition phone_file : bytes := phone_device ++ phone_config ++ concat phone_list.
Definition dev_file (n : string) : bytes := str "/dev/bus/usb/001/" ++ str n.

(** A phone that was there before, one that went away, and one that is new. *)
Definition two_phones : bench := {|
  b_usb := {| us_objects := {[ 0%Z := set_mark false (new_usb_handle (dev_file "002") phone_interface 50 true);
                               1%Z := set_mark false (new_usb_handle (dev_file "003") phone_interface 51 true) ]};
              us_next := 2; g_usb_handles := [0; 1]%Z |};
  b_files := [(dev_file "002", phone_file); (dev_file "004", phone_file)];
  b_registered := 0;
|}.

#[local] Instance usb_server : Build := server_build.
Definition bench_world : world bench := idle_world false [] ∅ two_phones.
Definition found_files : list bytes := [dev_file "002"; dev_file "004"].

Example found_files_are_scanned : numbered (str "/dev/bus/usb/001") two_phones = Done found_files two_phones.
Proof. by vm_compute. Qed.

Example one_turn :
  match (iter_list (scan_device 60 register_device) found_files ;;; kick_disconnected_devices) bench_world with
  | Done _ w => map (fun h => option_map (fun x => (path x, dead x, mark x)) (us_objects (usb w) !! h)) (g_usb_handles (usb w)) =
                  [Some (dev_file "002", false, false); Some (dev_file "003", true, false); Some (dev_file "004", false, false)] /\
                b_registered (w_env w) = 1
  | _ => False
  end.
Proof. by vm_compute. Qed.

Lemma bench_at_rest : at_rest (usb bench_world).
Proof.
  assert (Hat : forall h x, handle_at (usb bench_world) h x -> mark x = false /\
            (h = 0%Z /\ path x = dev_file "002" \/ h = 1%Z /\ path x = dev_file "003")).
  { intros h x [Hin Hx]. cbn in Hin. apply elem_of_cons in Hin as [->|[->|Hin]%elem_of_cons]; [..|by apply not_elem_of_nil in Hin];
      vm_compute in Hx; injection Hx as <-; split; [done|by left|done|by right]. }
  split; [split|].
  - intros h Hin. cbn in Hin. apply elem_of_cons in Hin as [->|[->|Hin]%elem_of_cons]; [by eexists|by eexists|by apply not_elem_of_nil in Hin].
  - intros h [x Hx]. cbn in Hx. apply lookup_insert_Some in Hx as [[<- _]|[_ Hx]]; [done|]. by apply lookup_singleton_Some in Hx as [<- _].
  - by apply NoDup_cons_2; [set_solver|apply NoDup_singleton].
  - intros h h' x x' [_ H1]%Hat [_ H2]%Hat Hp. destruct H1 as [[-> H1]|[-> H1]], H2 as [[-> H2]|[-> H2]]; [done| | |done];
      rewrite H1, H2 in Hp; by vm_compute in Hp.
  - intros h x Hx. by apply Hat in Hx as [? _].
Qed.

Lemma device_turn_witness :
  pwp (iter_list (scan_device 60 register_device) found_files ;;; kick_disconnected_devices)
    (fun _ w' => at_rest (usb w') /\
       (forall h x, handle_at (usb bench_world) h x ->
          (path x ∈ found_files -> handle_at (usb w') h x) /\
          (path x ∉ found_files -> exists y, handle_at (usb w') h y /\ dead y = true /\ path y = path x)) /\
       (forall h y, handle_at (usb w') h y -> h ∉ g_usb_handles (usb bench_world) -> path y ∈ found_files /\ dead y = false)) bench_world.
Proof. exact (device_turn 60 found_files bench_world bench_at_rest). Defined.
