(* ===== verification/UsbLib.v ===== *)
(** * USB devices through libusb (client/usb_libusb.cpp)

    libusb tells of devices that come and go; a thread of its own runs the
    callbacks of transfers.  While a thread waits for a transfer
    ([lu_completion]) others may run, and a mutex is not held then. *)

From S2P Require Import Prelude LibBase Packet AdbIo FdEvent Transport World SmartText.
From S2P Require Import Sockets SocketIo TransportOps UsbLinux.

(** ** libusb.h *)

Definition LIBUSB_CLASS_PER_INTERFACE : Z := 0.
Definition LIBUSB_TRANSFER_TYPE_MASK : Z := 3.
Definition LIBUSB_TRANSFER_TYPE_BULK : Z := 2.
Definition LIBUSB_ENDPOINT_DIR_MASK : Z := 0x80.
Definition LIBUSB_ENDPOINT_OUT : Z := 0.
Definition LIBUSB_TRANSFER_COMPLETED : Z := 0.
Definition LIBUSB_TRANSFER_ERROR : Z := 1.

Record endpoint_descriptor := { bEndpointAddress : Z; bmAttributes : Z; wMaxPacketSize : Z }.
Record interface_descriptor := { bInterfaceClass : Z; bInterfaceSubClass : Z; bInterfaceProtocol : Z; endpoint : list endpoint_descriptor }.
Record device_descriptor := { bDeviceClass : Z; iSerialNumber : Z }.

(** The interfaces of a configuration, each with its alternate settings. *)
Abbreviation config_descriptor := (list (list interface_descriptor)).

Inductive hotplug_event := DEVICE_ARRIVED | DEVICE_LEFT.

(** ** The handles *)

(** [transfer_info] with its [libusb_transfer].  [tr_buffer]: from where
    [buffer] points to on; of a read, what has arrived. *)
Record transfer_info := {
  tr_dev_handle : option Z;
  tr_endpoint : Z;
  tr_length : Z;
  tr_buffer : bytes;
  tr_status : Z;
  tr_actual_length : Z;
  is_bulk_out : bool;
  transfer_complete : bool;
  tr_zero_mask : Z;
}.

Definition new_transfer_info (zero_mask : Z) (out : bool) : transfer_info :=
  {| tr_dev_handle := None; tr_endpoint := 0; tr_length := 0; tr_buffer := []; tr_status := 0; tr_actual_length := 0;
     is_bulk_out := out; transfer_complete := false; tr_zero_mask := zero_mask |}.

Definition set_transfer_complete (v : bool) (t : transfer_info) : transfer_info :=
  {| tr_dev_handle := tr_dev_handle t; tr_endpoint := tr_endpoint t; tr_length := tr_length t; tr_buffer := tr_buffer t;
     tr_status := tr_status t; tr_actual_length := tr_actual_length t; is_bulk_out := is_bulk_out t; transfer_complete := v;
     tr_zero_mask := tr_zero_mask t |}.
Definition set_tr_status (v : Z) (t : transfer_info) : transfer_info :=
  {| tr_dev_handle := tr_dev_handle t; tr_endpoint := tr_endpoint t; tr_length := tr_length t; tr_buffer := tr_buffer t;
     tr_status := v; tr_actual_length := tr_actual_length t; is_bulk_out := is_bulk_out t; transfer_complete := transfer_complete t;
     tr_zero_mask := tr_zero_mask t |}.
Definition set_tr_length (v : Z) (t : transfer_info) : transfer_info :=
  {| tr_dev_handle := tr_dev_handle t; tr_endpoint := tr_endpoint t; tr_length := v; tr_buffer := tr_buffer t;
     tr_status := tr_status t; tr_actual_length := tr_actual_length t; is_bulk_out := is_bulk_out t; transfer_complete := transfer_complete t;
     tr_zero_mask := tr_zero_mask t |}.

(** What is not sent yet. *)
Definition advance_transfer (t : transfer_info) : transfer_info :=
  {| tr_dev_handle := tr_dev_handle t; tr_endpoint := tr_endpoint t; tr_length := tr_length t - tr_actual_length t;
     tr_buffer := drop (Z.to_nat (tr_actual_length t)) (tr_buffer t); tr_status := tr_status t; tr_actual_length := tr_actual_length t;
     is_bulk_out := is_bulk_out t; transfer_complete := transfer_complete t; tr_zero_mask := tr_zero_mask t |}.

(** The fields that [usb_write] and [usb_read] fill in. *)
Definition fill_transfer (dh : Z) (ep len : Z) (data : bytes) (t : transfer_info) : transfer_info :=
  {| tr_dev_handle := Some dh; tr_endpoint := ep; tr_length := len; tr_buffer := data; tr_status := tr_status t;
     tr_actual_length := tr_actual_length t; is_bulk_out := is_bulk_out t; transfer_complete := transfer_complete t;
     tr_zero_mask := tr_zero_mask t |}.

(** What libusb says of a transfer that ended; [c_data]: what was read. *)
Record completion := { c_status : Z; c_actual_length : Z; c_data : bytes }.

Definition complete_transfer (c : completion) (t : transfer_info) : transfer_info :=
  {| tr_dev_handle := tr_dev_handle t; tr_endpoint := tr_endpoint t; tr_length := tr_length t;
     tr_buffer := if is_bulk_out t then tr_buffer t else c_data c; tr_status := c_status c; tr_actual_length := c_actual_length c;
     is_bulk_out := is_bulk_out t; transfer_complete := transfer_complete t; tr_zero_mask := tr_zero_mask t |}.

Record lib_handle := {
  lh_device_address : bytes;
  lh_serial : bytes;
  lh_closing : bool;
  lh_device_handle : option Z;
  lh_read : transfer_info;
  lh_write : transfer_info;
  lh_interface : Z;
  lh_bulk_in : Z;
  lh_bulk_out : Z;
  lh_max_packet_size : Z;
}.

Definition set_closed (x : lib_handle) : lib_handle :=
  {| lh_device_address := lh_device_address x; lh_serial := lh_serial x; lh_closing := true; lh_device_handle := None;
     lh_read := lh_read x; lh_write := lh_write x; lh_interface := lh_interface x; lh_bulk_in := lh_bulk_in x;
     lh_bulk_out := lh_bulk_out x; lh_max_packet_size := lh_max_packet_size x |}.

Definition transfer_of (out : bool) (x : lib_handle) : transfer_info := if out then lh_write x else lh_read x.
Definition upd_transfer_of (out : bool) (f : transfer_info -> transfer_info) (x : lib_handle) : lib_handle :=
  {| lh_device_address := lh_device_address x; lh_serial := lh_serial x; lh_closing := lh_closing x;
     lh_device_handle := lh_device_handle x; lh_read := if out then lh_read x else f (lh_read x);
     lh_write := if out then f (lh_write x) else lh_write x; lh_interface := lh_interface x; lh_bulk_in := lh_bulk_in x;
     lh_bulk_out := lh_bulk_out x; lh_max_packet_size := lh_max_packet_size x |}.

(** The objects, [usb_handles], [connecting_devices], [hotplug_queue], and the
    threads that wait a second before they look at their device. *)
Record lib_state := {
  lb_objects : gmap Z lib_handle;
  lb_next : Z;
  usb_handles : gmap bytes Z;
  connecting_devices : Z;
  hotplug_queue : list (hotplug_event * Z);
  connectors : list Z;
}.

Definition set_lb_objects (v : gmap Z lib_handle) (u : lib_state) : lib_state :=
  {| lb_objects := v; lb_next := lb_next u; usb_handles := usb_handles u; connecting_devices := connecting_devices u;
     hotplug_queue := hotplug_queue u; connectors := connectors u |}.
Definition set_usb_handles (v : gmap bytes Z) (u : lib_state) : lib_state :=
  {| lb_objects := lb_objects u; lb_next := lb_next u; usb_handles := v; connecting_devices := connecting_devices u;
     hotplug_queue := hotplug_queue u; connectors := connectors u |}.
Definition set_connecting_devices (v : Z) (u : lib_state) : lib_state :=
  {| lb_objects := lb_objects u; lb_next := lb_next u; usb_handles := usb_handles u; connecting_devices := v;
     hotplug_queue := hotplug_queue u; connectors := connectors u |}.
Definition set_hotplug_queue (v : list (hotplug_event * Z)) (u : lib_state) : lib_state :=
  {| lb_objects := lb_objects u; lb_next := lb_next u; usb_handles := usb_handles u; connecting_devices := connecting_devices u;
     hotplug_queue := v; connectors := connectors u |}.
Definition set_connectors (v : list Z) (u : lib_state) : lib_state :=
  {| lb_objects := lb_objects u; lb_next := lb_next u; usb_handles := usb_handles u; connecting_devices := connecting_devices u;
     hotplug_queue := hotplug_queue u; connectors := v |}.

Class LibState (E : Type) := {
  lib_of : E -> lib_state;
  put_lib : lib_state -> E -> E;
}.

(** A device of libusb is a number.  [lu_open]: the handle.
    [lu_serial_descriptor]: [None] on failure.  A transfer is named by its
    object and its direction.  [lu_linux]: whether the host runs Linux. *)
Class LibUsb (E : Type) := {
  lu_linux : bool;
  lu_bus_number : Z -> Z;
  lu_device_address : Z -> Z;
  lu_port_numbers : Z -> E -> option (list Z);
  lu_device_descriptor : Z -> E -> option device_descriptor;
  lu_active_config : Z -> E -> option config_descriptor;
  lu_open : Z -> E -> option Z * E;
  lu_close : Z -> E -> E;
  lu_serial_descriptor : Z -> Z -> Z -> E -> option bytes * E;
  lu_claim_interface : Z -> Z -> E -> bool * E;
  lu_release_interface : Z -> Z -> E -> E;
  lu_clear_halt : Z -> Z -> E -> bool * E;
  lu_file : bytes -> E -> option bytes;
  lu_submit : Z -> transfer_info -> E -> bool * E;
  lu_completion : Z -> bool -> E -> completion * E;
  lu_cancel : Z -> bool -> E -> E;
  lu_init : E -> bool * E;
  lu_register_callback : E -> option (list Z) * E;
  lu_deregister_callback : E -> E;
}.

Section UsbLib.
Context {E : Type} {K : Kernel E} {B : Build} {OS : Os E} {LB : LibBase} {LS : LibState E} {LU : LibUsb E}.
Abbreviation W := (world E).

Definition upd_lib (f : lib_state -> lib_state) : M E unit := modify (fun e => put_lib (f (lib_of e)) e).

Definition load_lib (h : Z) : M E lib_handle :=
  fun e => match lb_objects (lib_of e) !! h with Some x => Done x e | None => Crash "dangling usb_handle" end.

Definition upd_lib_handle (h : Z) (f : lib_handle -> lib_handle) : M E unit :=
  let* x := load_lib h in
  upd_lib (fun u => set_lb_objects (<[h := f x]> (lb_objects u)) u).

(** Only the first call does anything. *)
Definition Close (h : Z) : M E unit :=
  let* x := load_lib h in
  if lh_closing x then ret tt else
  upd_lib_handle h set_closed ;;;
  match lh_device_handle x with
  | None => ret tt
  | Some handle =>
      modify (lu_cancel h false) ;;;
      modify (lu_cancel h true) ;;;
      modify (lu_release_interface handle (lh_interface x)) ;;;
      modify (lu_close handle)
  end.

(** The destructor. *)
Definition delete_lib (h : Z) : M E unit :=
  Close h ;;;
  upd_lib (fun u => set_lb_objects (delete h (lb_objects u)) u).

(** An entry of [usb_handles] that is erased or overwritten is deleted. *)
Definition erase_handle (device_address : bytes) : M E unit :=
  let* u := gets lib_of in
  match usb_handles u !! device_address with
  | None => ret tt
  | Some h =>
      upd_lib (fun u => set_usb_handles (delete device_address (usb_handles u)) u) ;;;
      delete_lib h
  end.

(** ** Names of devices *)

Definition get_device_address (device : Z) : bytes := str "usb:" ++ dec (lu_bus_number device) ++ str ":" ++ dec (lu_device_address device).

Definition first_port (ports : list Z) : M E Z :=
  match ports with p :: _ => ret p | [] => crash "ports[0] is not initialised" end.

Definition get_device_serial_path (device : Z) : M E bytes :=
  let* ports := gets (lu_port_numbers device) in
  match ports with
  | None => ret []
  | Some ports =>
      let* port0 := first_port ports in
      ret (str "/sys/bus/usb/devices/" ++ dec (lu_bus_number device) ++ str "-" ++ dec port0 ++
           concat (map (fun p => str "." ++ dec p) (tail ports)) ++ str "/serial")
  end.

Definition dec3 (n : Z) : bytes := let s := dec n in replicate (3 - length s) (byte_of 48) ++ s.

Definition get_device_dev_path (device : Z) : M E bytes :=
  let* ports := gets (lu_port_numbers device) in
  match ports with
  | None => ret []
  | Some ports =>
      let* port0 := first_port ports in
      ret (str "/dev/bus/usb/" ++ dec3 (lu_bus_number device) ++ str "/" ++ dec3 port0)
  end.

(** ** The interface of adb *)

Definition endpoint_is_output (ep : Z) : bool := (Z.land ep LIBUSB_ENDPOINT_DIR_MASK =? LIBUSB_ENDPOINT_OUT)%Z.

Definition should_perform_zero_transfer (ep write_length zero_mask : Z) : bool :=
  endpoint_is_output ep && negb (write_length =? 0)%Z && negb (zero_mask =? 0)%Z && (Z.land write_length zero_mask =? 0)%Z.

(** The variables that the loop over the interfaces fills in; they keep what an
    interface left in them that was rejected. *)
Record picked := { pk_bulk_in : Z; pk_bulk_out : Z; pk_zero_mask : option Z; pk_packet_size : Z }.

Definition nothing_picked : picked := {| pk_bulk_in := 0; pk_bulk_out := 0; pk_zero_mask := None; pk_packet_size := 0 |}.
Definition pick_out (e : endpoint_descriptor) (p : picked) : picked :=
  {| pk_bulk_in := pk_bulk_in p; pk_bulk_out := bEndpointAddress e; pk_zero_mask := Some (u16 (wMaxPacketSize e - 1));
     pk_packet_size := pk_packet_size p |}.
Definition pick_in (e : endpoint_descriptor) (p : picked) : picked :=
  {| pk_bulk_in := bEndpointAddress e; pk_bulk_out := pk_bulk_out p; pk_zero_mask := pk_zero_mask p; pk_packet_size := pk_packet_size p |}.
Definition set_pk_packet_size (v : Z) (p : picked) : picked :=
  {| pk_bulk_in := pk_bulk_in p; pk_bulk_out := pk_bulk_out p; pk_zero_mask := pk_zero_mask p; pk_packet_size := v |}.

Definition is_bulk (e : endpoint_descriptor) : bool := (Z.land (bmAttributes e) LIBUSB_TRANSFER_TYPE_MASK =? LIBUSB_TRANSFER_TYPE_BULK)%Z.

Definition check_packet_size {S} (size : Z) (p : picked) : M S picked :=
  if (size =? 0)%Z then fatal "CHECK(endpoint_packet_size != 0)"
  else if (pk_packet_size p =? 0)%Z then ret (set_pk_packet_size size p)
  else if negb (pk_packet_size p =? size)%Z then fatal "CHECK(packet_size == endpoint_packet_size)"
  else ret p.

(** [found_in], [found_out] and the variables. *)
Fixpoint scan_endpoints {S} (l : list endpoint_descriptor) (found_in found_out : bool) (p : picked) : M S (bool * bool * picked) :=
  match l with
  | [] => ret (found_in, found_out, p)
  | e :: rest =>
      if negb (is_bulk e) then scan_endpoints rest found_in found_out p else
      let output := endpoint_is_output (bEndpointAddress e) in
      let take_out := output && negb found_out in
      let take_in := negb output && negb found_in in
      let* p := check_packet_size (wMaxPacketSize e) (if take_out then pick_out e p else if take_in then pick_in e p else p) in
      scan_endpoints rest (found_in || take_in) (found_out || take_out) p
  end.

(** The number of the interface, and the variables. *)
Fixpoint scan_interfaces {S} (config : config_descriptor) (interface_num : Z) (p : picked) : M S (option (Z * picked)) :=
  match config with
  | [] => ret None
  | altsetting :: rest =>
      match altsetting with
      | [i] =>
          if negb (is_adb_interface (bInterfaceClass i) (bInterfaceSubClass i) (bInterfaceProtocol i))
          then scan_interfaces rest (interface_num + 1) p else
          let* r := scan_endpoints (endpoint i) false false p in
          let '(found_in, found_out, p) := r in
          if found_in && found_out then ret (Some (interface_num, p)) else scan_interfaces rest (interface_num + 1) p
      | _ => scan_interfaces rest (interface_num + 1) p
      end
  end.

(** ** New devices *)

Definition new_lib_handle (address serial : bytes) (handle : option Z) (interface : Z) (p : picked) (zero_mask : Z) : lib_handle :=
  {| lh_device_address := address; lh_serial := serial; lh_closing := false; lh_device_handle := handle;
     lh_read := new_transfer_info zero_mask false; lh_write := new_transfer_info zero_mask true;
     lh_interface := u8 interface; lh_bulk_in := pk_bulk_in p; lh_bulk_out := pk_bulk_out p; lh_max_packet_size := pk_packet_size p |}.

(** The serial number of a device that is open and whose interface is claimed;
    [None], and nothing of it is kept, when something fails. *)
Definition take_device (handle serial_number interface : Z) (p : picked) : M E (option bytes) :=
  let* serial := usb_call (lu_serial_descriptor handle serial_number 255) in
  match serial with
  | None | Some [] => modify (lu_close handle) ;;; ret None
  | Some serial =>
      let* claimed := usb_call (lu_claim_interface handle interface) in
      if negb claimed then modify (lu_close handle) ;;; ret None else
      let* ok := usb_call (lu_clear_halt handle (pk_bulk_in p)) in
      let* ok := if ok : bool then usb_call (lu_clear_halt handle (pk_bulk_out p)) else ret false in
      if negb ok then modify (lu_release_interface handle interface) ;;; modify (lu_close handle) ;;; ret None else
      ret (Some serial)
  end.

(** The serial number of a device that cannot be opened, on Linux. *)
Definition sysfs_serial (device : Z) : M E bytes :=
  let* path := get_device_serial_path device in
  let* content := gets (lu_file path) in
  ret (Trim (default (str "unknown") content)).

(** The handle of the device, if there is one, and its serial number. *)
Definition open_lib_device (device serial_number interface : Z) (p : picked) : M E (option (option Z * bytes)) :=
  let* handle := usb_call (lu_open device) in
  match handle with
  | Some handle =>
      let* serial := take_device handle serial_number interface p in
      ret (option_map (fun serial => (Some handle, serial)) serial)
  | None => if lu_linux then let* serial := sysfs_serial device in ret (Some (None, serial)) else ret None
  end.

(** A new object, in the place of one that has the address. *)
Definition add_lib_handle (x : lib_handle) : M E Z :=
  let* u := gets lib_of in
  let h := lb_next u in
  let address := lh_device_address x in
  upd_lib (fun u => {| lb_objects := <[h := x]> (lb_objects u); lb_next := h + 1; usb_handles := <[address := h]> (usb_handles u);
                       connecting_devices := connecting_devices u; hotplug_queue := hotplug_queue u; connectors := connectors u |}) ;;;
  match usb_handles u !! address with Some old => delete_lib old | None => ret tt end ;;;
  ret h.

Definition process_device (device : Z) : M W unit :=
  let device_address := get_device_address device in
  let* e := gets w_env in
  match lu_device_descriptor device e with
  | None => ret tt
  | Some desc =>
      if negb (bDeviceClass desc =? LIBUSB_CLASS_PER_INTERFACE)%Z then ret tt else
      match lu_active_config device e with
      | None => ret tt
      | Some config =>
          let* found := scan_interfaces config 0 nothing_picked in
          match found with
          | None => ret tt
          | Some (interface_num, p) =>
              let* u := gets (fun w => lib_of (w_env w)) in
              if bool_decide (is_Some (usb_handles u !! device_address)) then ret tt else
              let* opened := on_env (open_lib_device device (iSerialNumber desc) interface_num p) in
              match opened with
              | None => ret tt
              | Some (handle, serial) =>
                  match pk_zero_mask p with
                  | None => crash "zero_mask is not initialised"
                  | Some zero_mask =>
                      let* h := on_env (add_lib_handle (new_lib_handle device_address serial handle interface_num p zero_mask)) in
                      register_usb_transport h (Some (c_str serial)) (Some device_address) (bool_decide (is_Some handle))
                  end
              end
          end
      end
  end.

(** ** Devices that come and go *)

(** On Linux a thread is started that waits first. *)
Definition device_connected (device : Z) : M W unit :=
  if lu_linux then on_env (upd_lib (fun u => set_connectors (connectors u ++ [device]) u)) else process_device device.

(** What that thread does after a second. *)
Definition connector_runs (device : Z) : M W unit :=
  process_device device ;;;
  let* u := gets (fun w => lib_of (w_env w)) in
  on_env (upd_lib (fun u => set_connecting_devices (connecting_devices u - 1) u)) ;;;
  when (connecting_devices u - 1 =? 0)%Z adb_notify_device_scan_complete.

(** The [i]-th of the threads; it asks for a path first that it does not use. *)
Definition connector_turn (i : nat) : M W unit :=
  let* u := gets (fun w => lib_of (w_env w)) in
  match connectors u !! i with
  | None => ret tt
  | Some device =>
      on_env (upd_lib (fun u => set_connectors (delete i (connectors u)) u)) ;;;
      let* _ := on_env (get_device_dev_path device) in
      connector_runs device
  end.

Definition device_disconnected (device : Z) : M W unit :=
  let device_address := get_device_address device in
  let* u := gets (fun w => lib_of (w_env w)) in
  match usb_handles u !! device_address with
  | None => ret tt
  | Some h =>
      let* x := on_env (load_lib h) in
      match lh_device_handle x with
      | None => unregister_usb_transport h ;;; on_env (erase_handle device_address)
      | Some _ => ret tt
      end
  end.

Definition handle_hotplug (p : hotplug_event * Z) : M W unit :=
  match fst p with DEVICE_ARRIVED => device_connected (snd p) | DEVICE_LEFT => device_disconnected (snd p) end.

(** A turn of [hotplug_thread]: [PopAll], which waits while the queue is empty. *)
Definition hotplug_turn : M W unit :=
  let* popped := gets (fun w => hotplug_queue (lib_of (w_env w))) in
  on_env (upd_lib (set_hotplug_queue [])) ;;;
  iter_list handle_hotplug popped.

Definition hotplug_callback (event : hotplug_event) (device : Z) : M E unit :=
  (match event with
   | DEVICE_ARRIVED => upd_lib (fun u => set_connecting_devices (connecting_devices u + 1) u)
   | DEVICE_LEFT => ret tt
   end) ;;;
  upd_lib (fun u => set_hotplug_queue (hotplug_queue u ++ [(event, device)]) u).

(** The callback is called for the devices that are there already. *)
Definition usb_init : M E unit :=
  let* ok := usb_call lu_init in
  if negb ok then fatal "failed to initialize libusb" else
  let* present := usb_call lu_register_callback in
  match present with
  | None => fatal "failed to register libusb hotplug callback"
  | Some devices => iter_list (hotplug_callback DEVICE_ARRIVED) devices
  end.

Definition usb_cleanup : M E unit := modify lu_deregister_callback.

(** ** Transfers *)

Definition upd_transfer (h : Z) (out : bool) (f : transfer_info -> transfer_info) : M E unit := upd_lib_handle h (upd_transfer_of out f).
Definition load_transfer (h : Z) (out : bool) : M E transfer_info := let* x := load_lib h in ret (transfer_of out x).

Definition Notify (h : Z) (out : bool) : M E unit := upd_transfer h out (set_transfer_complete true).

Definition submit (h : Z) (out : bool) : M E bool := let* t := load_transfer h out in usb_call (lu_submit h t).

(** Submitting again, from the callback. *)
Definition resubmit (h : Z) (out : bool) (f : transfer_info -> transfer_info) : M E unit :=
  upd_transfer h out f ;;;
  let* ok := submit h out in
  if ok : bool then ret tt else upd_transfer h out (set_tr_status LIBUSB_TRANSFER_ERROR) ;;; Notify h out.

Definition transfer_callback (h : Z) (out : bool) (c : completion) : M E unit :=
  upd_transfer h out (complete_transfer c) ;;;
  let* t := load_transfer h out in
  if negb (tr_status t =? LIBUSB_TRANSFER_COMPLETED)%Z then Notify h out
  else if is_bulk_out t && negb (tr_actual_length t =? tr_length t)%Z then resubmit h out advance_transfer
  else if should_perform_zero_transfer (tr_endpoint t) (tr_length t) (tr_zero_mask t) then resubmit h out (set_tr_length 0)
  else Notify h out.

(** The wait, with the callbacks that the thread of libusb makes meanwhile. *)
Fixpoint await_transfer (fuel : nat) (h : Z) (out : bool) : M E unit :=
  match fuel with
  | O => no_fuel
  | S f =>
      let* t := load_transfer h out in
      if transfer_complete t then ret tt else
      let* c := usb_call (lu_completion h out) in
      transfer_callback h out c ;;;
      await_transfer f h out
  end.

Definition perform_usb_transfer (fuel : nat) (h : Z) (out : bool) : M E bool :=
  upd_transfer h out (set_transfer_complete false) ;;;
  let* ok := submit h out in
  if negb ok then ret false else
  await_transfer fuel h out ;;;
  let* t := load_transfer h out in
  ret (tr_status t =? 0)%Z.

(** Whether all was sent. *)
Definition usb_write (fuel : nat) (h : Z) (data : bytes) : M E bool :=
  let* x := load_lib h in
  match lh_device_handle x with
  | None => ret false
  | Some handle =>
      upd_transfer h true (fill_transfer handle (lh_bulk_out x) (Zlen data) data) ;;;
      perform_usb_transfer fuel h true
  end.

Definition usb_read (fuel : nat) (h len : Z) : M E (option bytes) :=
  let* x := load_lib h in
  match lh_device_handle x with
  | None => ret None
  | Some handle =>
      upd_transfer h false (fill_transfer handle (lh_bulk_in x) len []) ;;;
      let* ok := perform_usb_transfer fuel h false in
      if negb ok then ret None else
      let* t := load_transfer h false in
      ret (Some (take (Z.to_nat (tr_actual_length t)) (tr_buffer t)))
  end.

Definition usb_close (h : Z) : M E unit :=
  let* x := load_lib h in
  let* u := gets lib_of in
  match usb_handles u !! lh_device_address x with
  | None => fatal "attempted to close unregistered usb_handle"
  | Some _ => erase_handle (lh_device_address x)
  end.

Definition usb_kick (h : Z) : M E unit := Close h.

Definition usb_get_max_packet_size (h : Z) : M E Z :=
  let* x := load_lib h in
  if (lh_max_packet_size x =? 0)%Z then fatal "CHECK(h->max_packet_size != 0)" else ret (lh_max_packet_size x).

End UsbLib.
