(* ===== verification/UsbLibProps.v ===== *)
(** * Properties of the USB devices of libusb

    What is written arrives as one message; the handles that are open are those
    of the registered devices; the end of the first scan is announced when all
    devices that were there have been looked at. *)

From S2P Require Import Prelude LibBase Packet AdbIo FdEvent Transport World SmartText Sockets SocketIo SocketSpec Listeners.
From S2P Require Import TransportOps Registration Requests Connection Demo UsbLinux UsbTurn UsbLib.

Class LibStateLaws (E : Type) `{LibState E} := {
  lib_of_put u (e : E) : lib_of (put_lib u e) = u;
  put_put_lib u v (e : E) : put_lib u (put_lib v e) = put_lib u e;
}.

(** ** Writing *)

(** One message, as a device sees it: whole packets, then a short one. *)
Definition one_message (packet : Z) (transfers : list bytes) (data : bytes) : Prop :=
  exists parts rest, transfers = parts ++ [rest] /\ concat transfers = data /\
    Forall (fun s => s <> [] /\ (Zlen s mod packet = 0)%Z) parts /\ (rest = [] \/ (Zlen rest mod packet <> 0)%Z).

(** [wire]: the transfers out of the host so far.  A transfer that ends
    without an error before all of it was sent has sent whole packets, and
    other threads do not delete the handle or touch its transfer meanwhile. *)
Class WireLaws (E : Type) `{LibState E, LibUsb E} (wire : E -> list bytes) (packet : Z) := {
  wire_state :: LibStateLaws E;
  wire_put u (e : E) : wire (put_lib u e) = wire e;
  submit_frame h t (e e' : E) ok : lu_submit h t e = (ok, e') -> lib_of e' = lib_of e /\ wire e' = wire e;
  completion_keeps h out (e e' : E) c x : lu_completion h out e = (c, e') -> lb_objects (lib_of e) !! h = Some x ->
    exists y, lb_objects (lib_of e') !! h = Some y /\ transfer_of out y = transfer_of out x;
  completion_out h (e e' : E) c x : lu_completion h true e = (c, e') -> lb_objects (lib_of e) !! h = Some x -> (0 <= tr_length (lh_write x))%Z ->
    let n := c_actual_length c in
    (0 <= n <= tr_length (lh_write x))%Z /\ wire e' = wire e ++ [take (Z.to_nat n) (tr_buffer (lh_write x))] /\
    (c_status c = 0%Z -> (n < tr_length (lh_write x))%Z -> (0 < n)%Z /\ (n mod packet = 0)%Z);
}.

Section Write.
Context {E : Type} {LS : LibState E} {LU : LibUsb E} {wire : E -> list bytes} {packet : Z} {WL : WireLaws E wire packet}.

Lemma twp_load_lib h x (Q : lib_handle -> E -> Prop) e : lb_objects (lib_of e) !! h = Some x -> Q x e -> twp (load_lib h) Q e.
Proof. unfold twp, load_lib. by intros ->. Qed.

Lemma twp_usb_call {A} (f : E -> A * E) (Q : A -> E -> Prop) e : (forall a e', f e = (a, e') -> Q a e') -> twp (usb_call f) Q e.
Proof. unfold twp, usb_call. intros H. destruct (f e) as [a e1]. by apply H. Qed.

(** The write transfer of a handle, and what has been sent. *)
Definition out_at (h : Z) (e : E) (t : transfer_info) (sent : list bytes) : Prop :=
  exists x, lb_objects (lib_of e) !! h = Some x /\ lh_write x = t /\ wire e = sent.

Lemma twp_upd_transfer h f t sent (Q : unit -> E -> Prop) e :
  out_at h e t sent -> (forall e', out_at h e' (f t) sent -> Q tt e') -> twp (upd_transfer h true f) Q e.
Proof.
  intros (x & Hx & <- & Hw) HQ. unfold upd_transfer, upd_lib_handle, upd_lib. apply twp_bind, (twp_load_lib _ x); [done|]. apply twp_modify, HQ.
  exists (upd_transfer_of true f x). rewrite lib_of_put, wire_put. split; [apply lookup_insert_eq|]. by split.
Qed.

Lemma twp_load_transfer h t sent (Q : transfer_info -> E -> Prop) e : out_at h e t sent -> Q t e -> twp (load_transfer h true) Q e.
Proof. intros (x & Hx & <- & Hw) HQ. apply twp_bind, (twp_load_lib _ x); [done|]. by apply twp_ret. Qed.

Lemma twp_submit h t sent (Q : bool -> E -> Prop) e : out_at h e t sent -> (forall ok e', out_at h e' t sent -> Q ok e') -> twp (submit h true) Q e.
Proof.
  intros Ho HQ. apply twp_bind. eapply twp_load_transfer; [done|]. apply twp_usb_call. intros ok e' H. apply HQ.
  destruct Ho as (x & Hx & Ht & Hw). apply submit_frame in H as [Hl Hs]. exists x. by rewrite Hl, Hs.
Qed.

(** The transfer of [data], not finished; then finished. *)
Definition sending (data : bytes) (t : transfer_info) : Prop :=
  data `prefix_of` tr_buffer t /\ tr_length t = Zlen data /\ transfer_complete t = false /\ is_bulk_out t = true /\
  endpoint_is_output (tr_endpoint t) = true /\ tr_zero_mask t = (packet - 1)%Z.

Definition outcome (h : Z) (data : bytes) (sent0 : list bytes) (e : E) : Prop :=
  exists t sent, out_at h e t (sent0 ++ sent) /\ transfer_complete t = true /\ concat sent `prefix_of` data /\
    (tr_status t = 0%Z -> one_message packet sent data).

(** In front of what is sent later. *)
Lemma outcome_more h n data sent0 e : (0 < n)%nat -> n <= length data -> (Z.of_nat n mod packet = 0)%Z ->
  outcome h (drop n data) (sent0 ++ [take n data]) e -> outcome h data sent0 e.
Proof.
  intros Hn Hle Hm (t & sent & Ho & Hc & Hp & Hs). exists t, (take n data :: sent). split_and!; [by rewrite <- app_assoc in Ho|done|..].
  - cbn [concat]. rewrite <- (take_drop n data) at 2. by apply prefix_app.
  - intros (parts & rest & -> & He & Hf & Hr)%Hs. exists (take n data :: parts), rest. split_and!; [done| |constructor; [|done]|done].
    + cbn [concat]. rewrite He. apply take_drop.
    + split; [|by rewrite length_take_le by lia]. intros H. apply (f_equal length) in H. rewrite length_take_le in H by lia. cbn in H. lia.
Qed.

Lemma await_complete f h t sent (Q : unit -> E -> Prop) e : out_at h e t sent -> transfer_complete t = true -> Q tt e -> twp (await_transfer (S f) h true) Q e.
Proof. intros Ho Hc HQ. cbn [await_transfer]. apply twp_bind. eapply twp_load_transfer; [done|]. rewrite Hc. by apply twp_ret. Qed.

Lemma notified f h t data sent0 sent e : out_at h e t (sent0 ++ sent) -> concat sent `prefix_of` data ->
  (tr_status t = 0%Z -> one_message packet sent data) -> twp (Notify h true) (fun _ => twp (await_transfer (S f) h true) (fun _ e' => outcome h data sent0 e')) e.
Proof.
  intros Ho Hp Hs. eapply twp_upd_transfer; [done|]. intros e1 H1. eapply await_complete; [done..|]. by eexists _, _.
Qed.

Lemma zero_needed k ep len : packet = (2 ^ k)%Z -> (0 < k)%Z -> endpoint_is_output ep = true -> (0 <= len)%Z ->
  should_perform_zero_transfer ep len (packet - 1) = true <-> len <> 0%Z /\ (len mod packet = 0)%Z.
Proof.
  intros Hk Hpos Hep Hlen. unfold should_perform_zero_transfer. rewrite Hep, Hk. rewrite Z.sub_1_r, <- Z.ones_equiv, Z.land_ones by lia.
  assert (Hones : Z.ones k <> 0%Z) by (rewrite Z.ones_equiv; pose proof (Z.pow_le_mono_r 2 1 k ltac:(lia) ltac:(lia)); lia).
  rewrite !andb_true_iff, !negb_true_iff, !Z.eqb_neq, Z.eqb_eq. tauto.
Qed.

(** The fuel that is enough. *)
Definition enough (data : bytes) : nat := match data with [] => 2 | _ => 4 + length data end.

Context (k : Z) (Hpacket : packet = (2 ^ k)%Z) (Hk : (0 < k)%Z).

Definition sends (f : nat) (h : Z) : Prop := forall data e t sent0, out_at h e t sent0 -> sending data t -> enough data <= f ->
  twp (await_transfer f h true) (fun _ e' => outcome h data sent0 e') e.

Lemma resubmitted f h g data rest n t sent0 e : sends (S f) h -> out_at h e t (sent0 ++ [take n data]) -> sending rest (g t) -> rest = drop n data ->
  (0 < n)%nat -> n <= length data -> (Z.of_nat n mod packet = 0)%Z -> enough rest <= S f ->
  twp (resubmit h true g) (fun _ => twp (await_transfer (S f) h true) (fun _ e' => outcome h data sent0 e')) e.
Proof.
  intros IH Ho Hs -> Hn Hle Hm Hf. unfold resubmit. apply twp_bind. eapply twp_upd_transfer; [done|]. intros e1 H1.
  apply twp_bind. eapply twp_submit; [done|]. intros [|] e2 H2.
  - apply twp_ret. eapply twp_mono; [by eapply IH|]. intros [] e3 H3. by eapply outcome_more.
  - apply twp_bind. eapply twp_upd_transfer; [done|]. intros e3 H3. eapply twp_upd_transfer; [done|]. intros e4 H4.
    eapply await_complete; [done..|]. eexists _, _. split_and!; [done|done|cbn; rewrite app_nil_r; by exists (drop n data); rewrite take_drop|done].
Qed.

Lemma await_sends f h : sends f h.
Proof.
  induction f as [|f IH]; intros data e t sent0 Ho Hs Hf; [unfold enough in Hf; destruct data; lia|].
  destruct f as [|f]; [unfold enough in Hf; destruct data; cbn in Hf; lia|].
  destruct Hs as ([tail Hb] & Hl & Hc & Hout & Hep & Hz). cbn [await_transfer]. apply twp_bind. eapply twp_load_transfer; [done|]. rewrite Hc.
  apply twp_bind, twp_usb_call. intros c e1 Hcall. destruct Ho as (x & Hx & Ht & Hw).
  destruct (completion_out _ _ _ _ _ Hcall Hx) as (Hn & Hwire & Hpart); [rewrite Ht, Hl; lia|]. rewrite Ht, Hl in Hn, Hpart. rewrite Ht, Hb in Hwire.
  destruct (completion_keeps _ _ _ _ _ _ Hcall Hx) as (y & Hy & Hty). cbn in Hty.
  set (n := Z.to_nat (c_actual_length c)) in *. assert (Hnn : c_actual_length c = Z.of_nat n) by lia.
  assert (Hle : n <= length data) by lia. rewrite take_app_le in Hwire by done.
  assert (Ho : out_at h e1 t (sent0 ++ [take n data])) by (exists y; rewrite Hty, Hwire, Hw; by split_and!). clear x y Hx Hy Ht Hty Hw Hwire.
  apply twp_bind. unfold transfer_callback. apply twp_bind. eapply twp_upd_transfer; [done|]. intros e2 H2.
  apply twp_bind. eapply twp_load_transfer; [done|]. cbn [tr_status complete_transfer tr_actual_length tr_length is_bulk_out tr_endpoint tr_zero_mask].
  assert (Hpre : concat [take n data] `prefix_of` data) by (cbn; rewrite app_nil_r; by exists (drop n data); rewrite take_drop).
  change LIBUSB_TRANSFER_COMPLETED with 0%Z. destruct (c_status c =? 0)%Z eqn:Hst; cbn [negb]; [apply Z.eqb_eq in Hst|]; cycle 1.
  { apply Z.eqb_neq in Hst. eapply notified; [done..|]. cbn. done. }
  rewrite Hout, Hl. cbn [andb]. destruct (c_actual_length c =? Zlen data)%Z eqn:Hall; cbn [negb].
  - apply Z.eqb_eq in Hall. assert (Hn' : n = length data) by lia. rewrite Hz.
    assert (Htake : take n data = data) by (rewrite Hn'; apply take_ge; lia).
    pose proof (zero_needed k (tr_endpoint t) (Zlen data) Hpacket Hk Hep ltac:(lia)) as Hzero.
    destruct (should_perform_zero_transfer _ _ _).
    + destruct (proj1 Hzero eq_refl) as [Hne Hmod]. eapply (resubmitted _ _ _ _ [] n); [done..| | |lia|done|by rewrite <- Hnn, Hall|cbn; destruct data; cbn in Hf; [done|lia]].
      * split_and!; try done. apply prefix_nil.
      * symmetry. apply drop_ge. lia.
    + eapply notified; [done..|]. intros _. exists [], (take n data). split_and!; [done|by rewrite Htake; cbn; rewrite app_nil_r|constructor|].
      rewrite Htake. destruct data as [|a data]; [by left|right]. intros Hm. enough (false = true) by done. apply Hzero. split; [done|exact Hm].
  - apply Z.eqb_neq in Hall. destruct (Hpart Hst) as [Hpos Hmod]; [lia|].
    eapply (resubmitted _ _ _ _ (drop n data) n); [done..| |done|lia|done|by rewrite <- Hnn|].
    + split_and!; cbn; try done.
      * rewrite Hout, Hb. fold n. exists tail. by rewrite drop_app_le by lia.
      * rewrite length_drop, Hl. lia.
    + unfold enough in *. pose proof (length_drop data n). destruct (drop n data) as [|a r] eqn:Hd; destruct data; cbn in *; lia.
Qed.

End Write.

(** C19: Writing through libusb.  However libusb cuts the transfer into pieces,
    the device sees what is written as one message, which ends with a packet
    that is not full, when the write succeeds; and what was sent is a beginning
    of it when the write fails. *)
Theorem libusb_write_whole {E} {LS : LibState E} {LU : LibUsb E} wire packet `{!WireLaws E wire packet} k fuel h x data (e : E) :
  packet = (2 ^ k)%Z -> (0 < k)%Z -> lb_objects (lib_of e) !! h = Some x -> endpoint_is_output (lh_bulk_out x) = true ->
  is_bulk_out (lh_write x) = true -> tr_zero_mask (lh_write x) = (packet - 1)%Z -> 4 + length data <= fuel ->
  twp (usb_write fuel h data) (fun ok e' => exists sent, wire e' = wire e ++ sent /\ concat sent `prefix_of` data /\
    (ok = true -> one_message packet sent data)) e.
Proof.
  intros Hp Hk Hx Hep Hout Hz Hf. unfold usb_write. apply twp_bind, (twp_load_lib _ x); [done|].
  assert (Hnone : exists sent, wire e = wire e ++ sent /\ concat sent `prefix_of` data /\ (false = true -> one_message packet sent data)).
  { exists []. rewrite app_nil_r. split_and!; [done|apply prefix_nil|done]. }
  destruct (lh_device_handle x) as [handle|]; [|by apply twp_ret]. apply twp_bind. eapply (twp_upd_transfer _ _ _ (wire e)); [by exists x|].
  intros e1 H1. unfold perform_usb_transfer. apply twp_bind. eapply twp_upd_transfer; [done|]. intros e2 H2.
  apply twp_bind. eapply twp_submit; [done|]. intros [|] e3 H3; cbn [negb]; cycle 1.
  { apply twp_ret. exists []. rewrite app_nil_r. destruct H3 as (y & _ & _ & ->). split_and!; [done|apply prefix_nil|done]. }
  apply twp_bind. eapply twp_mono.
  { eapply (await_sends k Hp Hk fuel h data); [done| |unfold enough; destruct data; cbn in *; lia]. by split_and!. }
  intros _ e4 (t & sent & Ho & _ & Hpre & Hs). apply twp_bind. eapply twp_load_transfer; [done|]. apply twp_ret.
  destruct Ho as (y & _ & _ & Hw). exists sent. split_and!; [done..|]. intros Ht%Z.eqb_eq. by apply Hs.
Qed.

(** ** The registered devices *)

#[export] Instance hotplug_event_eq_dec : EqDecision hotplug_event.
Proof. solve_decision. Defined.

(** [opened]: the handles of libusb that are open, with the interfaces that are
    claimed on each. *)
Class LibFrame (E : Type) `{Os E, LibState E, LibUsb E} (opened : E -> gmap Z (gset Z)) := {
  lib_frame_state :: LibStateLaws E;
  opened_put u (e : E) : opened (put_lib u e) = opened e;
  open_frame d (e e' : E) r : lu_open d e = (r, e') -> lib_of e' = lib_of e /\
    match r with Some h => opened e !! h = None /\ opened e' = <[h := ∅]> (opened e) | None => opened e' = opened e end;
  close_frame h (e : E) : lib_of (lu_close h e) = lib_of e /\ opened (lu_close h e) = delete h (opened e);
  serial_frame h i n (e e' : E) r : lu_serial_descriptor h i n e = (r, e') -> lib_of e' = lib_of e /\ opened e' = opened e;
  claim_frame h i (e e' : E) ok : lu_claim_interface h i e = (ok, e') -> lib_of e' = lib_of e /\
    opened e' = if ok : bool then alter (union {[i]}) h (opened e) else opened e;
  release_frame h i (e : E) : lib_of (lu_release_interface h i e) = lib_of e /\
    opened (lu_release_interface h i e) = alter (fun s => s ∖ {[i]}) h (opened e);
  clear_frame h ep (e e' : E) ok : lu_clear_halt h ep e = (ok, e') -> lib_of e' = lib_of e /\ opened e' = opened e;
  cancel_frame h out (e : E) : lib_of (lu_cancel h out e) = lib_of e /\ opened (lu_cancel h out e) = opened e;
  tmsg_frame fd m (e e' : E) ok : tmsg_put fd m e = (ok, e') -> lib_of e' = lib_of e /\ opened e' = opened e;
  cv_frame (e : E) : lib_of (notify_init_cv e) = lib_of e /\ opened (notify_init_cv e) = opened e;
  config_interfaces d (e : E) config : lu_active_config d e = Some config -> length config <= 255;
}.

Section Devices.
Context {E : Type} {K : Kernel E} {B : Build} {OS : Os E} {LB : LibBase} {LS : LibState E} {LU : LibUsb E}.
Context {opened : E -> gmap Z (gset Z)} {LF : LibFrame E opened}.
Abbreviation W := (world E).

(** An object that has the handle [d] open. *)
Definition has_open (u : lib_state) (d h : Z) (x : lib_handle) : Prop := lb_objects u !! h = Some x /\ lh_device_handle x = Some d.

(** What is open and claimed is what the objects have, each its own. *)
Record opened_ok (u : lib_state) (o : gmap Z (gset Z)) : Prop := {
  oo_owner d s : o !! d = Some s -> exists h x, has_open u d h x;
  oo_open d h x : has_open u d h x -> o !! d = Some {[lh_interface x]};
  oo_one d h h' x x' : has_open u d h x -> has_open u d h' x' -> h = h';
  oo_closed h x : lb_objects u !! h = Some x -> lh_closing x = true -> lh_device_handle x = None;
  oo_fresh h : is_Some (lb_objects u !! h) -> (h < lb_next u)%Z;
}.

(** [usb_handles] names every object by its address. *)
Definition registered_ok (u : lib_state) : Prop :=
  forall a h, usb_handles u !! a = Some h <-> exists x, lb_objects u !! h = Some x /\ lh_device_address x = a.

Definition arrivals (q : list (hotplug_event * Z)) : nat := length (filter (fun p => fst p = DEVICE_ARRIVED) q).

(** [popped]: what the thread has taken out of the queue. *)
Definition counted (popped : list (hotplug_event * Z)) (u : lib_state) : Prop :=
  connecting_devices u = Z.of_nat (arrivals popped + arrivals (hotplug_queue u) + length (connectors u)).

Record lib_ok (popped : list (hotplug_event * Z)) (u : lib_state) (o : gmap Z (gset Z)) : Prop := {
  lo_opened : opened_ok u o;
  lo_registered : registered_ok u;
  lo_counted : counted popped u;
}.

(** *** Calls on the environment *)

(** What the invariant looks at. *)
Definition seen (e : E) : lib_state * gmap Z (gset Z) := (lib_of e, opened e).

Lemma pwp_load_lib h (Q : lib_handle -> E -> Prop) e : (forall x, lb_objects (lib_of e) !! h = Some x -> Q x e) -> pwp (load_lib h) Q e.
Proof. intros H a e'. unfold load_lib. destruct (lb_objects _ !! h) as [x|] eqn:Hx; [|done]. intros [= <- <-]. by apply H. Qed.

Lemma pwp_lib_call {A} (f : E -> A * E) (Q : A -> E -> Prop) e : (forall a e', f e = (a, e') -> Q a e') -> pwp (usb_call f) Q e.
Proof. unfold usb_call. intros H a e'. destruct (f e) as [a1 e1]. intros [= <- <-]. by apply H. Qed.

Lemma pwp_upd_lib f (Q : unit -> E -> Prop) e : (forall e', seen e' = (f (lib_of e), opened e) -> Q tt e') -> pwp (upd_lib f) Q e.
Proof. intros H. apply pwp_modify, H. unfold seen. by rewrite lib_of_put, opened_put. Qed.

Lemma pwp_seen f (Q : unit -> E -> Prop) e : (forall e', e' = f e -> Q tt e') -> pwp (modify f) Q e.
Proof. intros H. by apply pwp_modify, H. Qed.

Definition put_lib_object (h : Z) (x : lib_handle) (u : lib_state) : lib_state := set_lb_objects (<[h := x]> (lb_objects u)) u.

Lemma put_lib_closed h x u o d : has_open u d h x -> opened_ok u o -> opened_ok (put_lib_object h (set_closed x) u) (delete d o).
Proof.
  intros Hh [H1 H2 H3 H4 H5]. assert (Hat : forall d' k y, has_open (put_lib_object h (set_closed x) u) d' k y -> has_open u d' k y /\ k <> h).
  { intros d' k y [Hk Hy]. cbn in Hk. destruct (decide (h = k)) as [->|]; [rewrite lookup_insert_eq in Hk; injection Hk as <-; done|].
    rewrite lookup_insert_ne in Hk by done. by split; [|congruence]. }
  split.
  - intros d' s [Hne (k & y & Hk & Hy)%H1]%lookup_delete_Some. exists k, y. split; [|done]. cbn. rewrite lookup_insert_ne; [done|].
    intros <-. destruct Hh as [Hx Hd]. rewrite Hx in Hk. injection Hk as <-. rewrite Hd in Hy. by injection Hy as ->.
  - intros d' k y [Hy Hne]%Hat. rewrite lookup_delete_ne; [by apply (H2 _ k)|]. intros <-. apply Hne. by apply (H3 d k h y x).
  - intros d' k k' y y' [Hy _]%Hat [Hy' _]%Hat. by apply (H3 d' k k' y y').
  - intros k y Hk. cbn in Hk. destruct (decide (h = k)) as [->|]; [rewrite lookup_insert_eq in Hk; by injection Hk as <-|].
    rewrite lookup_insert_ne in Hk by done. by apply (H4 k).
  - intros k Hk. cbn in Hk. destruct (decide (h = k)) as [->|]; [apply H5; destruct Hh as [-> _]; by eexists|].
    rewrite lookup_insert_ne in Hk by done. by apply H5.
Qed.

(** An object without a handle may change its flag or go away. *)
Lemma opened_ok_same u u' o : opened_ok u o -> (forall d h x, has_open u' d h x <-> has_open u d h x) ->
  (forall h x, lb_objects u' !! h = Some x -> lh_closing x = true -> lh_device_handle x = None) ->
  (forall h, is_Some (lb_objects u' !! h) -> (h < lb_next u')%Z) -> opened_ok u' o.
Proof.
  intros [H1 H2 H3 H4 H5] Hiff Hc Hf. split; [| | |done|done].
  - intros d s (h & x & Hx)%H1. exists h, x. by apply Hiff.
  - intros d h x Hx%Hiff. by eapply H2.
  - intros d h h' x x' Hx%Hiff Hx'%Hiff. by apply (H3 d h h' x x').
Qed.

(** *** Closing *)

Definition is_closed (x : lib_handle) : Prop := lh_device_handle x = None.

Lemma Close_closes h (Q : unit -> E -> Prop) e : opened_ok (lib_of e) (opened e) ->
  (forall x y e', lb_objects (lib_of e) !! h = Some x -> lib_of e' = put_lib_object h y (lib_of e) -> is_closed y -> lh_device_address y = lh_device_address x ->
     opened_ok (lib_of e') (opened e') -> Q tt e') -> pwp (Close h) Q e.
Proof.
  intros Hok HQ. unfold Close. apply pwp_bind, pwp_load_lib. intros x Hx. destruct (lh_closing x) eqn:Hc.
  { apply pwp_ret, (HQ x x); [done| |by apply (oo_closed _ _ Hok h)|done|done]. unfold put_lib_object. rewrite insert_id by done. by destruct (lib_of e). }
  apply pwp_bind, pwp_bind, pwp_load_lib. intros x' Hx'. rewrite Hx in Hx'. injection Hx' as <-. apply pwp_upd_lib. intros e1 H1. injection H1 as Hl1 Ho1.
  destruct (lh_device_handle x) as [d|] eqn:Hd.
  - do 2 (apply pwp_bind, pwp_modify). apply pwp_bind, pwp_modify, pwp_modify. set (e2 := lu_cancel h true (lu_cancel h false e1)).
    assert (Hl2 : lib_of e2 = lib_of e1 /\ opened e2 = opened e1).
    { unfold e2. destruct (cancel_frame h true (lu_cancel h false e1)) as [-> ->]. apply cancel_frame. }
    destruct Hl2 as [Hl2 Ho2]. destruct (release_frame d (lh_interface x) e2) as [Hl3 Ho3].
    destruct (close_frame d (lu_release_interface d (lh_interface x) e2)) as [Hl4 Ho4].
    assert (Hl : lib_of (lu_close d (lu_release_interface d (lh_interface x) e2)) = put_lib_object h (set_closed x) (lib_of e)) by (rewrite Hl4, Hl3, Hl2, Hl1; done).
    apply (HQ x (set_closed x)); [done|done|done|done|]. rewrite Hl, Ho4, Ho3, Ho2, Ho1.
    replace (delete d (alter _ d _)) with (delete d (opened e)); [by apply put_lib_closed|].
    apply map_eq. intros k. destruct (decide (k = d)) as [->|]; [by rewrite !lookup_delete_eq|]. by rewrite !lookup_delete_ne, lookup_alter_ne by done.
  - apply pwp_ret, (HQ x (set_closed x)); [done|done|done|done|]. rewrite Hl1, Ho1. eapply opened_ok_same; [done|..].
    + intros d k y. unfold has_open. cbn. destruct (decide (h = k)) as [->|]; [rewrite lookup_insert_eq, Hx|by rewrite lookup_insert_ne].
      split; intros [[= <-] ?]; [done|congruence].
    + intros k y Hk. cbn in Hk. destruct (decide (h = k)) as [->|]; [rewrite lookup_insert_eq in Hk; by injection Hk as <-|].
      rewrite lookup_insert_ne in Hk by done. by apply (oo_closed _ _ Hok k).
    + intros k Hk. cbn in Hk. apply (oo_fresh _ _ Hok). destruct (decide (h = k)) as [->|]; [by rewrite Hx|by rewrite lookup_insert_ne in Hk].
Qed.

Definition drop_lib_object (h : Z) (u : lib_state) : lib_state := set_lb_objects (delete h (lb_objects u)) u.

Lemma delete_lib_deletes h (Q : unit -> E -> Prop) e : opened_ok (lib_of e) (opened e) ->
  (forall e', lib_of e' = drop_lib_object h (lib_of e) -> opened_ok (lib_of e') (opened e') -> Q tt e') -> pwp (delete_lib h) Q e.
Proof.
  intros Hok HQ. apply pwp_bind, Close_closes; [done|]. intros x y e1 Hx Hl1 Hy _ Hok1. apply pwp_upd_lib. intros e2 [= Hl2 Ho2].
  rewrite Hl1 in Hl2. cbn in Hl2. assert (Hl : lib_of e2 = drop_lib_object h (lib_of e)).
  { rewrite Hl2. unfold drop_lib_object, put_lib_object, set_lb_objects. cbn. f_equal. by rewrite delete_insert_eq. }
  apply HQ; [done|]. rewrite Hl, Ho2. eapply opened_ok_same; [exact Hok1|..]; rewrite ?Hl1.
  - intros d k z. unfold has_open. cbn. destruct (decide (h = k)) as [->|]; [rewrite lookup_delete_eq, lookup_insert_eq|by rewrite lookup_delete_ne, lookup_insert_ne].
    split; [by intros []|]. intros [[= <-] Hd]. unfold is_closed in Hy. congruence.
  - intros k z Hk. cbn in Hk. apply lookup_delete_Some in Hk as [_ Hk]. by apply (oo_closed _ _ Hok k).
  - intros k [z Hk]. cbn in Hk. apply lookup_delete_Some in Hk as [_ Hk]. apply (oo_fresh _ _ Hok). by rewrite Hk.
Qed.


(** *** The map *)

Lemma registered_unique u a b h : registered_ok u -> usb_handles u !! a = Some h -> usb_handles u !! b = Some h -> a = b.
Proof. intros Hr (x & Hx & <-)%Hr (y & Hy & <-)%Hr. congruence. Qed.

Lemma registered_drop u a h : registered_ok u -> usb_handles u !! a = Some h ->
  registered_ok (drop_lib_object h (set_usb_handles (delete a (usb_handles u)) u)).
Proof.
  intros Hr Ha b k. cbn. rewrite !lookup_delete_Some, (Hr b k). split.
  - intros (Hne & x & Hx & Hax). exists x. split; [|done]. apply lookup_delete_Some. split; [|done]. intros <-. apply Hne.
    apply (registered_unique u a b h); [done..|]. apply Hr. by exists x.
  - intros (x & [Hne Hx]%lookup_delete_Some & Hax). split; [|by exists x]. intros <-. apply Hne. assert (Hk : usb_handles u !! a = Some k) by (apply Hr; by exists x). congruence.
Qed.

Lemma counted_same popped u u' : connecting_devices u' = connecting_devices u -> hotplug_queue u' = hotplug_queue u -> connectors u' = connectors u ->
  counted popped u -> counted popped u'.
Proof. unfold counted. by intros -> -> ->. Qed.

(** The same object in another state of its own. *)
Lemma registered_put u h x y : registered_ok u -> lb_objects u !! h = Some x -> lh_device_address y = lh_device_address x ->
  registered_ok (put_lib_object h y u).
Proof.
  intros Hr Hx Hy a k. cbn. rewrite (Hr a k). destruct (decide (h = k)) as [->|]; [|by rewrite lookup_insert_ne].
  rewrite lookup_insert_eq, Hx. split; intros (z & [= <-] & Hz); eexists; split; [done|congruence|done|congruence].
Qed.

Lemma Close_lib_ok popped h e : lib_ok popped (lib_of e) (opened e) -> pwp (Close h) (fun _ e' => lib_ok popped (lib_of e') (opened e')) e.
Proof.
  intros [H1 H2 H3]. apply Close_closes; [done|]. intros x y e' Hx Hl _ Hy Ho. split; [done|..]; rewrite Hl; [by eapply registered_put|done].
Qed.

Lemma opened_ok_map u m o : opened_ok u o -> opened_ok (set_usb_handles m u) o.
Proof. intros Ho. eapply opened_ok_same; [done|done|apply (oo_closed _ _ Ho)|apply (oo_fresh _ _ Ho)]. Qed.

Lemma erase_lib_ok popped a e : lib_ok popped (lib_of e) (opened e) -> pwp (erase_handle a) (fun _ e' => lib_ok popped (lib_of e') (opened e')) e.
Proof.
  intros [H1 H2 H3]. unfold erase_handle. apply pwp_bind, pwp_gets. destruct (usb_handles _ !! a) as [h|] eqn:Ha; [|by apply pwp_ret].
  apply pwp_bind, pwp_upd_lib. intros e1 [= Hl1 Ho1]. apply delete_lib_deletes; [rewrite Hl1, Ho1; by apply opened_ok_map|].
  intros e2 Hl2 Ho2. split; [done|..]; rewrite Hl2, Hl1; [by apply registered_drop|done].
Qed.

Lemma usb_close_lib_ok popped h e : lib_ok popped (lib_of e) (opened e) -> pwp (UsbLib.usb_close h) (fun _ e' => lib_ok popped (lib_of e') (opened e')) e.
Proof.
  intros H. apply pwp_bind, pwp_load_lib. intros x Hx. apply pwp_bind, pwp_gets. case_match; [by apply erase_lib_ok|apply pwp_fatal].
Qed.

(** *** New devices *)

Lemma scan_endpoints_same {S} l found_in found_out p (w : S) : pwp (scan_endpoints l found_in found_out p) (fun _ w' => w' = w) w.
Proof.
  revert found_in found_out p. induction l as [|e l IH]; intros fi fo p; cbn [scan_endpoints]; [by apply pwp_ret|]. destruct (negb _); [apply IH|].
  apply pwp_bind. eapply (pwp_mono _ (fun _ w' => w' = w)); [|intros q w' ->; apply IH].
  unfold check_packet_size. repeat case_match; by (apply pwp_fatal || apply pwp_ret).
Qed.

Lemma scan_interfaces_number {S} config n p (w : S) :
  pwp (scan_interfaces config n p) (fun r w' => w' = w /\ match r with Some (m, _) => n <= m < n + Zlen config | None => True end)%Z w.
Proof.
  revert n p. induction config as [|alt config IH]; intros n p; cbn [scan_interfaces]; [by apply pwp_ret|].
  assert (Hrest : forall q, pwp (scan_interfaces config (n + 1) q) (fun r w' => w' = w /\ match r with Some (m, _) => n <= m < n + Zlen (alt :: config) | None => True end)%Z w).
  { intros q. eapply pwp_mono; [apply IH|]. intros [[m q']|] w' [-> Hm]; split; try done. cbn [length]. lia. }
  destruct alt as [|i [|]]; [apply Hrest| |apply Hrest]. destruct (negb _); [apply Hrest|]. apply pwp_bind.
  eapply pwp_mono; [apply scan_endpoints_same|]. intros [[fi fo] q] w' ->. destruct (fi && fo); [|apply Hrest]. apply pwp_ret. split; [done|]. cbn [length]. lia.
Qed.

(** Of a device that was opened: its handle, which is not of an object yet. *)
Definition got_handle (e e' : E) (interface : Z) (r : option (option Z * bytes)) : Prop :=
  lib_of e' = lib_of e /\
  match r with
  | Some (Some d, _) => opened e !! d = None /\ opened e' = <[d := {[interface]}]> (opened e)
  | _ => opened e' = opened e
  end.

Lemma take_device_takes d serial interface p e e1 (Q : option bytes -> E -> Prop) :
  opened e !! d = None -> lib_of e1 = lib_of e -> opened e1 = <[d := ∅]> (opened e) ->
  (forall s e', lib_of e' = lib_of e -> opened e' = match s with Some _ => <[d := {[interface]}]> (opened e) | None => opened e end -> Q s e') ->
  pwp (take_device d serial interface p) Q e1.
Proof.
  intros Hd Hl1 Ho1 HQ.
  assert (Hclose : forall s e2, lib_of e2 = lib_of e -> opened e2 = <[d := s]> (opened e) -> pwp (modify (lu_close d) ;;; ret None) Q e2).
  { intros s e2 H2 H2'. apply pwp_bind, pwp_modify, pwp_ret. destruct (close_frame d e2) as [H3 H3']. apply HQ; [by rewrite H3|].
    rewrite H3', H2', delete_insert_eq. by apply delete_id. }
  unfold take_device. apply pwp_bind, pwp_lib_call. intros s e2 [H2 H2']%serial_frame. rewrite Hl1 in H2. rewrite Ho1 in H2'.
  destruct s as [[|c s]|]; [by eapply Hclose| |by eapply Hclose].
  apply pwp_bind, pwp_lib_call. intros ok e3 [H3 H3']%claim_frame. rewrite H2 in H3. rewrite H2' in H3'. destruct ok; cbn [negb]; [|by eapply Hclose].
  apply pwp_bind, pwp_lib_call. intros ok e4 [H4 H4']%clear_frame. apply pwp_bind.
  assert (Hrest : forall ok e5, seen e5 = seen e3 -> pwp (if negb ok then modify (lu_release_interface d interface) ;;; modify (lu_close d) ;;; ret None else ret (Some (c :: s))) Q e5).
  { intros ok' e5 [= H5 H5']. rewrite H3 in H5. rewrite H3' in H5'. destruct ok'; cbn [negb].
    - apply pwp_ret, HQ; [done|]. rewrite H5', alter_insert_eq. by rewrite union_empty_r_L.
    - apply pwp_bind, pwp_modify. destruct (release_frame d interface e5) as [H6 H6']. rewrite H5 in H6. rewrite H5', !alter_insert_eq in H6'. by eapply Hclose. }
  destruct ok.
  - apply pwp_lib_call. intros ok e5 [H5 H5']%clear_frame. apply Hrest. unfold seen. by rewrite H5, H5', H4, H4'.
  - apply pwp_ret, (Hrest false). unfold seen. by rewrite H4, H4'.
Qed.

Lemma open_lib_device_opens device serial interface p e : pwp (open_lib_device device serial interface p) (fun r e' => got_handle e e' interface r) e.
Proof.
  unfold open_lib_device. apply pwp_bind, pwp_lib_call. intros [d|] e1 [H1 H1']%open_frame.
  - destruct H1' as [Hd Ho1]. apply pwp_bind. eapply take_device_takes; [done..|]. intros [s|] e2 H2 H2'; apply pwp_ret; by split_and!.
  - destruct lu_linux; [|apply pwp_ret; by split]. apply pwp_bind. unfold sysfs_serial, get_device_serial_path.
    apply pwp_bind, pwp_bind, pwp_gets. destruct (lu_port_numbers _ _) as [[|port ports]|].
    + apply pwp_bind, pwp_crash.
    + apply pwp_bind, pwp_ret, pwp_ret, pwp_bind, pwp_gets, pwp_ret, pwp_ret. by split.
    + apply pwp_ret, pwp_bind, pwp_gets, pwp_ret, pwp_ret. by split.
Qed.

(** The state with a new object. *)
Definition with_lib_handle (x : lib_handle) (u : lib_state) : lib_state :=
  {| lb_objects := <[lb_next u := x]> (lb_objects u); lb_next := lb_next u + 1; usb_handles := <[lh_device_address x := lb_next u]> (usb_handles u);
     connecting_devices := connecting_devices u; hotplug_queue := hotplug_queue u; connectors := connectors u |}.

Lemma fresh_object u o : opened_ok u o -> lb_objects u !! lb_next u = None.
Proof. intros Ho. apply eq_None_not_Some. intros H%(oo_fresh _ _ Ho). lia. Qed.

Lemma with_lib_handle_opened x u o o' : opened_ok u o -> lh_closing x = false ->
  (match lh_device_handle x with Some d => o !! d = None /\ o' = <[d := {[lh_interface x]}]> o | None => o' = o end) ->
  opened_ok (with_lib_handle x u) o'.
Proof.
  intros Hok Hc Ho. pose proof (fresh_object _ _ Hok) as Hn. destruct Hok as [H1 H2 H3 H4 H5].
  assert (Hold : forall d h y, has_open u d h y -> has_open (with_lib_handle x u) d h y).
  { intros d h y [Hy Hd]. split; [|done]. cbn. rewrite lookup_insert_ne; [done|]. intros <-. by rewrite Hn in Hy. }
  assert (Hat : forall d h y, has_open (with_lib_handle x u) d h y -> has_open u d h y \/ h = lb_next u /\ y = x /\ lh_device_handle x = Some d).
  { intros d h y [Hy Hd]. cbn in Hy. destruct (decide (h = lb_next u)) as [->|]; [rewrite lookup_insert_eq in Hy; injection Hy as <-; by right|].
    rewrite lookup_insert_ne in Hy by done. by left. }
  split.
  - intros d s Hd. destruct (lh_device_handle x) as [d'|] eqn:Hx; [|subst o'; destruct (H1 _ _ Hd) as (h & y & Hy); exists h, y; by apply Hold].
    destruct Ho as [_ ->]. destruct (decide (d' = d)) as [->|]; [exists (lb_next u), x; split; [apply lookup_insert_eq|done]|].
    rewrite lookup_insert_ne in Hd by done. destruct (H1 _ _ Hd) as (h & y & Hy). exists h, y. by apply Hold.
  - intros d h y [Hy|(-> & -> & Hd)]%Hat; [|rewrite Hd in Ho; destruct Ho as [_ ->]; apply lookup_insert_eq].
    pose proof (H2 _ _ _ Hy) as Hs. destruct (lh_device_handle x) as [d'|]; [|by subst o']. destruct Ho as [Hnone ->].
    rewrite lookup_insert_ne; [done|]. intros <-. by rewrite Hnone in Hs.
  - assert (Hnew : forall d h y, has_open u d h y -> lh_device_handle x = Some d -> False).
    { intros d h y Hy Hd. rewrite Hd in Ho. apply H2 in Hy. destruct Ho as [Ho _]. congruence. }
    intros d h h' y y' [Hy|(-> & -> & Hd)]%Hat [Hy'|(-> & -> & Hd')]%Hat; [by apply (H3 d h h' y y')|by edestruct Hnew|by edestruct Hnew|done].
  - intros h y Hy Hcl. cbn in Hy. destruct (decide (h = lb_next u)) as [->|]; [rewrite lookup_insert_eq in Hy; injection Hy as <-; congruence|].
    rewrite lookup_insert_ne in Hy by done. by apply (H4 h).
  - intros h [y Hy]. cbn in *. destruct (decide (h = lb_next u)) as [->|]; [lia|]. rewrite lookup_insert_ne in Hy by done.
    assert (h < lb_next u)%Z by (apply H5; by eexists). lia.
Qed.

Lemma with_lib_handle_registered x u o : opened_ok u o -> usb_handles u !! lh_device_address x = None -> registered_ok u -> registered_ok (with_lib_handle x u).
Proof.
  intros Hok Hnone Hr a h. pose proof (fresh_object _ _ Hok) as Hn. cbn. destruct (decide (h = lb_next u)) as [->|Hh].
  - rewrite lookup_insert_eq. destruct (decide (a = lh_device_address x)) as [->|Ha]; [rewrite lookup_insert_eq; split; [by exists x|done]|].
    rewrite lookup_insert_ne by done. rewrite (Hr a). rewrite Hn. split; [by intros (? & ? & _)|intros (? & [= <-] & <-); done].
  - rewrite (lookup_insert_ne (lb_objects u)) by done. destruct (decide (a = lh_device_address x)) as [->|Ha]; [|by rewrite lookup_insert_ne, (Hr a) by done].
    rewrite lookup_insert_eq. split; [by intros [= <-]|]. intros Hex. apply Hr in Hex. congruence.
Qed.

Lemma add_lib_handle_adds x e e0 (Q : Z -> E -> Prop) : opened_ok (lib_of e0) (opened e0) -> lib_of e = lib_of e0 ->
  usb_handles (lib_of e0) !! lh_device_address x = None ->
  (forall h e', lib_of e' = with_lib_handle x (lib_of e0) -> opened e' = opened e -> Q h e') -> pwp (add_lib_handle x) Q e.
Proof.
  intros Hok Hl Hnone HQ. unfold add_lib_handle. apply pwp_bind, pwp_gets. apply pwp_bind, pwp_upd_lib. intros e1 [= Hl1 Ho1]. rewrite Hl, Hnone in *.
  apply pwp_bind, pwp_ret, pwp_ret, HQ; [|done]. rewrite Hl1. done.
Qed.

(** *** The threads *)

Definition scan_announced (w : W) : bool := g_device_scan_complete (w_globals w).
Definition lib_view (w : W) : lib_state * gmap Z (gset Z) * bool := (seen (w_env w), scan_announced w).

Lemma view_env f w : w_env (f w) = w_env w -> w_globals (f w) = w_globals w -> lib_view (f w) = lib_view w.
Proof. unfold lib_view, scan_announced. by intros -> ->. Qed.
Lemma view_tmsg fd m ok e w : tmsg_put fd m (w_env w) = (ok, e) -> lib_view (set_w_env e w) = lib_view w.
Proof. intros [H1 H2]%tmsg_frame. unfold lib_view, seen. cbn. by rewrite H1, H2. Qed.

(** The invariant of the world, and whether the end of the scan is announced. *)
Definition lib_holds (popped : list (hotplug_event * Z)) (flag : bool) (w : W) : Prop :=
  lib_ok popped (lib_of (w_env w)) (opened (w_env w)) /\ scan_announced w = flag.

Lemma holds_view popped flag w w' : lib_view w' = lib_view w -> lib_holds popped flag w -> lib_holds popped flag w'.
Proof. unfold lib_holds. by intros [= -> -> ->]. Qed.

Lemma pwp_holds_env {A} popped flag (m : M E A) w : lib_holds popped flag w ->
  pwp m (fun _ e' => lib_ok popped (lib_of e') (opened e')) (w_env w) -> pwp (on_env m) (fun _ w' => lib_holds popped flag w') w.
Proof. intros [_ Hf] H. apply pwp_on_env. eapply pwp_mono; [exact H|]. intros a e' He. by split. Qed.

Lemma process_device_holds popped flag device w : lib_holds popped flag w -> pwp (process_device device) (fun _ w' => lib_holds popped flag w') w.
Proof.
  intros [Hok Hfl]. unfold process_device. apply pwp_bind, pwp_gets. destruct (lu_device_descriptor _ _) as [desc|]; [|by apply pwp_ret].
  destruct (negb _); [by apply pwp_ret|]. destruct (lu_active_config _ _) as [config|] eqn:Hconf; [|by apply pwp_ret].
  apply pwp_bind. eapply pwp_mono; [apply scan_interfaces_number|]. intros [[n p]|] w1 [-> Hn]; [|by apply pwp_ret].
  apply config_interfaces in Hconf. apply pwp_bind, pwp_gets. case_bool_decide as Hnew; [by apply pwp_ret|].
  apply pwp_bind, pwp_on_env. eapply pwp_mono; [apply open_lib_device_opens|]. intros [[handle serial]|] e1 [Hl1 Ho1]; cycle 1.
  { apply pwp_ret. split; [|done]. cbn. by rewrite Hl1, Ho1. }
  destruct (pk_zero_mask p) as [zero_mask|]; [|apply pwp_crash]. set (x := new_lib_handle _ serial handle n p zero_mask).
  apply pwp_bind, pwp_on_env. apply (add_lib_handle_adds x _ (w_env w)); [apply Hok|done|by apply eq_None_not_Some|].
  intros h e2 Hl2 Ho2. eapply pwp_mono; [apply (keeps_register lib_view view_env view_tmsg)|]. intros [] w' Hw'. eapply holds_view; [done|].
  split; [|done]. cbn. rewrite Hl2, Ho2. cbn. destruct Hok as [H1 H2 H3]. split; [|eapply with_lib_handle_registered; [done| |done]; by apply eq_None_not_Some|done].
  eapply with_lib_handle_opened; [done|done|]. cbn. replace (u8 n) with n by (unfold u8; rewrite Z.mod_small; lia). by destruct handle.
Qed.

Lemma upd_counts popped popped' flag f w : lib_holds popped flag w ->
  (forall u, lb_objects (f u) = lb_objects u /\ lb_next (f u) = lb_next u /\ usb_handles (f u) = usb_handles u) ->
  (counted popped (lib_of (w_env w)) -> counted popped' (f (lib_of (w_env w)))) ->
  pwp (on_env (upd_lib f)) (fun _ w' => lib_holds popped' flag w' /\ lib_of (w_env w') = f (lib_of (w_env w))) w.
Proof.
  intros [[H1 H2 H3] Hf] Hsame Hc. apply pwp_on_env, pwp_upd_lib. intros e' [= Hl Ho]. destruct (Hsame (lib_of (w_env w))) as (So & Sn & Su).
  split; [|done]. split; [|done]. cbn. rewrite Hl, Ho. split; [|by unfold registered_ok; rewrite So, Su|by apply Hc].
  eapply opened_ok_same; [exact H1|..]; unfold has_open; rewrite ?So, ?Sn; [done|apply (oo_closed _ _ H1)|apply (oo_fresh _ _ H1)].
Qed.

Lemma arrivals_app q q' : arrivals (q ++ q') = arrivals q + arrivals q'.
Proof. unfold arrivals. by rewrite filter_app, length_app. Qed.

Lemma arrivals_cons p q : arrivals (p :: q) = (if decide (fst p = DEVICE_ARRIVED) then 1 else 0) + arrivals q.
Proof. unfold arrivals. rewrite filter_cons. by case_decide. Qed.

Lemma handle_hotplug_holds p rest flag w : lu_linux = true -> lib_holds (p :: rest) flag w -> pwp (handle_hotplug p) (fun _ w' => lib_holds rest flag w') w.
Proof.
  intros Hlinux Hw. destruct p as [[] device]; unfold handle_hotplug; cbn.
  - unfold device_connected. rewrite Hlinux. eapply pwp_mono; [eapply upd_counts; [done|by intros; split_and!|]|by intros ? ? []].
    unfold counted. rewrite arrivals_cons. cbn -[arrivals]. rewrite length_app. cbn [length]. rewrite decide_True by done. lia.
  - assert (Hrest : lib_holds rest flag w) by (destruct Hw as [[H1 H2 H3] Hf]; by split).
    unfold device_disconnected. apply pwp_bind, pwp_gets. destruct (usb_handles _ !! _) as [h|]; [|by apply pwp_ret].
    apply pwp_bind, pwp_on_env, pwp_load_lib. intros x Hx. destruct (lh_device_handle x); [apply pwp_ret; by eapply holds_view; [|done]|].
    apply pwp_bind. eapply pwp_mono; [apply (keeps_unregister lib_view view_env)|]. intros [] w1 Hw1.
    assert (H1 : lib_holds rest flag w1) by (eapply holds_view; [|exact Hrest]; by rewrite Hw1). apply pwp_holds_env; [done|]. apply erase_lib_ok, H1.
Qed.

Lemma hotplug_turn_holds flag w : lu_linux = true -> lib_holds [] flag w -> pwp hotplug_turn (fun _ w' => lib_holds [] flag w') w.
Proof.
  intros Hlinux Hw. unfold hotplug_turn. apply pwp_bind, pwp_gets. set (q := hotplug_queue _).
  apply pwp_bind. eapply pwp_mono; [apply (upd_counts [] q); [done|by intros; split_and!|unfold counted; cbn; fold q; lia]|]. intros [] w1 [H1 _].
  eapply pwp_mono; [apply (pwp_iter_list handle_hotplug (fun _ rest w' => lib_holds rest flag w')) with (done := []); [|exact H1]|by intros [] w2].
  intros done p rest w2 H2. by apply handle_hotplug_holds.
Qed.

(** No device waits to be looked at. *)
Definition nobody_waits (w : W) : Prop := arrivals (hotplug_queue (lib_of (w_env w))) = 0 /\ connectors (lib_of (w_env w)) = [].

Lemma notify_holds flag w : lib_holds [] flag w -> pwp adb_notify_device_scan_complete (fun _ w' => lib_holds [] true w' /\ lib_of (w_env w') = lib_of (w_env w)) w.
Proof.
  intros [Hok Hf]. unfold adb_notify_device_scan_complete. apply pwp_bind, pwp_get. destruct (g_device_scan_complete (w_globals w)) eqn:Hg.
  { apply pwp_ret. by repeat split; try apply Hok. }
  apply pwp_bind. unfold upd_globals. apply pwp_modify. set (w1 := set_w_globals _ w). assert (H1 : lib_holds [] true w1) by by split.
  change (lib_of (w_env w)) with (lib_of (w_env w1)). clearbody w1. clear w Hok Hf Hg. unfold update_transport_status.
  apply pwp_bind. eapply pwp_mono; [apply (keeps_iterate_transports lib_view)|]. intros r w2 H2. apply pwp_bind, pwp_modify, pwp_bind, pwp_get.
  assert (Hh : lib_holds [] true (set_w_globals (set_g_transports_ready r (w_globals w2)) w2)) by (eapply holds_view; [exact H2|done]).
  apply pwp_when; intros _; [|split; [done|by injection H2]]. apply pwp_on_env, pwp_modify. destruct (cv_frame (w_env w2)) as [C1 C2].
  split; [|cbn; rewrite C1; by injection H2]. split; [cbn; rewrite C1, C2; apply Hh|apply Hh].
Qed.

Lemma connector_turn_holds i flag w : lib_holds [] flag w -> i < length (connectors (lib_of (w_env w))) ->
  pwp (connector_turn i) (fun _ w' => (nobody_waits w' -> lib_holds [] true w') /\ (~ nobody_waits w' -> lib_holds [] flag w')) w.
Proof.
  intros Hw Hi. unfold connector_turn. apply pwp_bind, pwp_gets. destruct (lookup_lt_is_Some_2 _ _ Hi) as [device Hd]. rewrite Hd.
  apply pwp_bind. eapply pwp_mono; [apply (upd_counts [] [(DEVICE_ARRIVED, device)]); [done|by intros; split_and!|]|].
  { unfold counted. rewrite arrivals_cons, decide_True by done. cbn -[arrivals]. rewrite length_delete by by eexists. change (arrivals []) with 0. lia. }
  intros [] w1 [H1 _]. apply pwp_bind, pwp_on_env. eapply (pwp_mono _ (fun _ e => e = w_env w1)).
  { unfold get_device_dev_path. apply pwp_bind, pwp_gets. destruct (lu_port_numbers _ _) as [[|port ports]|]; [apply pwp_bind, pwp_crash|by apply pwp_bind, pwp_ret, pwp_ret|by apply pwp_ret]. }
  intros path e ->. unfold connector_runs. apply pwp_bind. eapply pwp_mono; [apply (process_device_holds [(DEVICE_ARRIVED, device)] flag); exact H1|].
  intros [] w2 H2. apply pwp_bind, pwp_gets. set (u := lib_of (w_env w2)). apply pwp_bind. eapply pwp_mono; [apply (upd_counts [(DEVICE_ARRIVED, device)] []); [done|by intros; split_and!|]|].
  { unfold counted. fold u. rewrite arrivals_cons, decide_True by done. change (arrivals []) with 0. cbn -[arrivals]. lia. }
  intros [] w3 [H3 Hu]. fold u in Hu.
  assert (Hzero : nobody_waits w3 <-> (connecting_devices u - 1 = 0)%Z).
  { destruct H3 as [[_ _ Hc] _]. unfold counted in Hc. rewrite Hu in Hc. change (arrivals []) with 0 in Hc. cbn -[arrivals] in Hc.
    unfold nobody_waits. rewrite Hu. cbn -[arrivals]. rewrite <- length_zero_iff_nil. lia. }
  apply pwp_when; intros Hb.
  - apply Z.eqb_eq in Hb. eapply pwp_mono; [by eapply notify_holds|]. intros [] w4 [H4 Hl]. split; [done|]. intros Hn. exfalso. apply Hn.
    unfold nobody_waits. rewrite Hl. by apply Hzero.
  - apply Z.eqb_neq in Hb. split; [|done]. intros Hn%Hzero. done.
Qed.

(** What the threads do: libusb's calls of the callback, the thread of the queue,
    the threads that wait for a second, and those of the transports. *)
Inductive lib_step :=
| step_event (event : hotplug_event) (device : Z)
| step_hotplug
| step_connector (i : nat)
| step_close (h : Z)
| step_kick (h : Z).

Definition run_lib_step (s : lib_step) : M W unit :=
  match s with
  | step_event event device => on_env (hotplug_callback event device)
  | step_hotplug => hotplug_turn
  | step_connector i => connector_turn i
  | step_close h => on_env (UsbLib.usb_close h)
  | step_kick h => on_env (UsbLib.usb_kick h)
  end.

Definition lib_sound (w : W) : Prop := lib_ok [] (lib_of (w_env w)) (opened (w_env w)).

(** The last device that was waited for has been looked at. *)
Definition ends_scan (s : lib_step) (w w' : W) : Prop :=
  match s with step_connector i => i < length (connectors (lib_of (w_env w))) /\ nobody_waits w' | _ => False end.

Lemma hotplug_callback_holds event device flag w : lib_holds [] flag w -> pwp (on_env (hotplug_callback event device)) (fun _ w' => lib_holds [] flag w') w.
Proof.
  intros [[H1 H2 H3] Hf].
  assert (Hpush : forall e, opened_ok (lib_of e) (opened e) -> registered_ok (lib_of e) ->
            (connecting_devices (lib_of e) = Z.of_nat (arrivals (hotplug_queue (lib_of e)) + length (connectors (lib_of e)) + arrivals [(event, device)])) ->
            pwp (upd_lib (fun u => set_hotplug_queue (hotplug_queue u ++ [(event, device)]) u)) (fun _ e' => lib_ok [] (lib_of e') (opened e')) e).
  { intros e Ho Hr Hc. apply pwp_upd_lib. intros e' [= -> ->]. split; [|done|].
    - eapply opened_ok_same; [exact Ho|done|apply (oo_closed _ _ Ho)|apply (oo_fresh _ _ Ho)].
    - unfold counted. cbn -[arrivals]. rewrite Hc, arrivals_app. change (arrivals []) with 0. lia. }
  apply pwp_on_env. eapply (pwp_mono _ (fun _ e' => lib_ok [] (lib_of e') (opened e'))); [|intros [] e' He; by split].
  unfold counted in H3. change (arrivals []) with 0 in H3. unfold hotplug_callback. apply pwp_bind. destruct event.
  - apply pwp_upd_lib. intros e1 [= Hl Ho]. apply Hpush; rewrite ?Hl, ?Ho; [|done|rewrite arrivals_cons, decide_True by done; change (arrivals []) with 0; cbn -[arrivals]; lia].
    eapply opened_ok_same; [exact H1|done|apply (oo_closed _ _ H1)|apply (oo_fresh _ _ H1)].
  - apply pwp_ret, Hpush; [done..|]. rewrite arrivals_cons, decide_False by done. change (arrivals []) with 0. lia.
Qed.

Lemma lib_step_holds s flag w : lu_linux = true -> lib_holds [] flag w ->
  pwp (run_lib_step s) (fun _ w' => (ends_scan s w w' -> lib_holds [] true w') /\ (~ ends_scan s w w' -> lib_holds [] flag w')) w.
Proof.
  intros Hlinux Hw.
  assert (Hplain : forall m : M W unit, (forall w', ends_scan s w w' -> False) -> pwp m (fun _ w' => lib_holds [] flag w') w ->
            pwp m (fun _ w' => (ends_scan s w w' -> lib_holds [] true w') /\ (~ ends_scan s w w' -> lib_holds [] flag w')) w).
  { intros m Hn Hm. eapply pwp_mono; [exact Hm|]. intros [] w' H. split; [by intros ?%Hn|done]. }
  destruct s as [event device| |i|h|h]; cbn [run_lib_step].
  - by apply Hplain, hotplug_callback_holds.
  - by apply Hplain, hotplug_turn_holds.
  - destruct (decide (i < length (connectors (lib_of (w_env w))))) as [Hi|Hi].
    + eapply pwp_mono; [by apply (connector_turn_holds i flag)|]. intros [] w' [H1 H2]. unfold ends_scan. split; [by intros [_ ?]; apply H1|].
      intros Hn. apply H2. intros ?. by apply Hn.
    + apply Hplain; [by intros w' [? _]|]. unfold connector_turn. apply pwp_bind, pwp_gets. rewrite lookup_ge_None_2 by lia. by apply pwp_ret.
  - apply Hplain; [done|]. apply pwp_holds_env; [done|]. apply usb_close_lib_ok, Hw.
  - apply Hplain; [done|]. apply pwp_holds_env; [done|]. apply Close_lib_ok, Hw.
Qed.

(** C27: Devices of libusb that come and go, on Linux.  Whatever the threads do,
    and in whatever order, the handles of libusb that are open are those of the
    registered devices, each of one device and with its interface claimed, no
    two devices have the same address, and [connecting_devices] is the number of
    devices that arrived and were not looked at yet.  The end of the scan is
    announced by the step after which there are none, and by no other. *)
Theorem libusb_step_sound s w : lu_linux = true -> lib_sound w ->
  pwp (run_lib_step s) (fun _ w' => lib_sound w' /\ (scan_announced w' = true <-> scan_announced w = true \/ ends_scan s w w')) w.
Proof.
  intros Hlinux Hw. eapply pwp_mono; [by apply (lib_step_holds s (scan_announced w))|]. intros [] w' [H1 H2].
  assert (Hdec : ends_scan s w w' \/ ~ ends_scan s w w').
  { destruct s as [| |i| |]; [right; intros []|right; intros []| |right; intros []|right; intros []]. unfold ends_scan, nobody_waits. rewrite <- length_zero_iff_nil. lia. }
  destruct Hdec as [He|He]; [destruct (H1 He) as [Hs Hf]|destruct (H2 He) as [Hs Hf]]; (split; [exact Hs|rewrite Hf; tauto]).
Qed.

End Devices.

(** ** A hub with phones, for the witnesses

    A device is open once; its packets have four bytes and a transfer ends after
    two of them. *)

Record hub := { hb_lib : lib_state; hb_open : gmap Z (gset Z); hb_wire : list bytes }.

#[export] Instance hub_fd_ops : FdOps hub := {
  adb_read _ _ e := (RdOk [], e);
  adb_write _ bs e := (WrOk (Zlen bs), e);
  adb_shutdown _ e := e;
  strerror _ := str "error";
}.

#[export] Instance hub_kernel : Kernel hub := { refusals _ _ := 0; pipe_put _ _ e := (true, e); pipe_get _ e := (None, e) }.

#[export] Instance hub_os : Os hub := {
  adb_socketpair e := (None, e);
  start_thread _ e := e;
  tmsg_put _ _ e := (true, e);
  tmsg_get _ e := (None, e);
  usb_kick _ e := e;
  usb_close _ e := e;
  notify_init_cv e := e;
  getenv _ := None;
  canonical_address host port := host ++ str ":" ++ dec port;
  set_tcp_keepalive _ _ e := e;
}.

#[export] Instance hub_state : LibState hub := {
  lib_of := hb_lib;
  put_lib u e := {| hb_lib := u; hb_open := hb_open e; hb_wire := hb_wire e |};
}.

Definition set_hb_open (m : gmap Z (gset Z)) (e : hub) : hub := {| hb_lib := hb_lib e; hb_open := m; hb_wire := hb_wire e |}.
Definition out_length (h : Z) (e : hub) : Z := match lb_objects (hb_lib e) !! h with Some x => Z.min 8 (tr_length (lh_write x)) | None => 0 end.
Definition out_bytes (h : Z) (e : hub) : bytes :=
  match lb_objects (hb_lib e) !! h with Some x => take (Z.to_nat (out_length h e)) (tr_buffer (lh_write x)) | None => [] end.

Definition phone_interfaces : config_descriptor :=
  [[{| bInterfaceClass := 8; bInterfaceSubClass := 6; bInterfaceProtocol := 80; endpoint := [] |}];
   [{| bInterfaceClass := 255; bInterfaceSubClass := 66; bInterfaceProtocol := 1;
       endpoint := [{| bEndpointAddress := 0x81; bmAttributes := 2; wMaxPacketSize := 4 |}; {| bEndpointAddress := 2; bmAttributes := 2; wMaxPacketSize := 4 |}] |}]].

#[export] Instance hub_usb : LibUsb hub := {
  lu_linux := true;
  lu_bus_number _ := 1%Z;
  lu_device_address d := d;
  lu_port_numbers d _ := Some [d; 2]%Z;
  lu_device_descriptor d _ := Some {| bDeviceClass := 0; iSerialNumber := 3 |};
  lu_active_config _ _ := Some phone_interfaces;
  lu_open d e := match hb_open e !! d with Some _ => (None, e) | None => (Some d, set_hb_open (<[d := ∅]> (hb_open e)) e) end;
  lu_close h e := set_hb_open (delete h (hb_open e)) e;
  lu_serial_descriptor h _ _ e := (Some (str "phone" ++ dec h), e);
  lu_claim_interface h i e := (true, set_hb_open (alter (union {[i]}) h (hb_open e)) e);
  lu_release_interface h i e := set_hb_open (alter (fun s => s ∖ {[i]}) h (hb_open e)) e;
  lu_clear_halt _ _ e := (true, e);
  lu_file _ _ := None;
  lu_submit _ _ e := (true, e);
  lu_completion h out e :=
    if out then ({| c_status := 0; c_actual_length := out_length h e; c_data := [] |},
                 {| hb_lib := hb_lib e; hb_open := hb_open e; hb_wire := hb_wire e ++ [out_bytes h e] |})
    else ({| c_status := 0; c_actual_length := 5%Z; c_data := str "hello" |}, e);
  lu_cancel _ _ e := e;
  lu_init e := (true, e);
  lu_register_callback e := (Some [7; 9]%Z, e);
  lu_deregister_callback e := e;
}.

#[export] Instance hub_wire : WireLaws hub hb_wire 4.
Proof.
  split; [by split|done|by cbn; intros; simplify_eq|..].
  - intros h [] e e' c x H Hx; cbn in H; injection H as <- <-; by exists x.
  - intros h e e' c x H Hx Hlen n. cbn in H. injection H as <- <-. unfold n, out_length, out_bytes. cbn in *. rewrite Hx. unfold out_length. rewrite Hx.
    split; [lia|]. split; [done|]. intros _ Hlt. rewrite Z.min_l by lia. done.
Qed.

#[export] Instance hub_frame : LibFrame hub hb_open.
Proof.
  split; try (by cbn; intros; simplify_eq).
  - intros d e e' r H. cbn in H. destruct (hb_open e !! d) eqn:Hd; by simplify_eq.
  - intros d e config H. cbn in H. injection H as <-. cbn. lia.
Qed.

Definition no_devices : lib_state :=
  {| lb_objects := ∅; lb_next := 0; usb_handles := ∅; connecting_devices := 0; hotplug_queue := []; connectors := [] |}.
Definition empty_hub : hub := {| hb_lib := no_devices; hb_open := ∅; hb_wire := [] |}.

#[local] Instance lib_server : Build := server_build.
Definition hub_world : world hub := idle_world false [] ∅ empty_hub.

(** Two phones that are there at the start, one of which is unplugged and
    closed: the scan ends when both have been looked at. *)
Definition start_and_step (steps : list lib_step) : M (world hub) unit := on_env usb_init ;;; iter_list run_lib_step steps.

Definition ends_with (steps : list lib_step) : option (Z * list (bytes * Z) * bool) :=
  match start_and_step steps hub_world with
  | Done _ w => Some (connecting_devices (lib_of (w_env w)), map_to_list (usb_handles (lib_of (w_env w))), scan_announced w)
  | _ => None
  end.

Example first_phone : ends_with [step_hotplug; step_connector 1] = Some (1%Z, [(str "usb:1:9", 0%Z)], false).
Proof. by vm_compute. Qed.

Example both_phones :
  ends_with [step_hotplug; step_connector 1; step_connector 0; step_kick 0; step_close 0] = Some (0%Z, [(str "usb:1:7", 1%Z)], true).
Proof. by vm_compute. Qed.

(** A phone whose transport was kicked, and which is unplugged before the
    transport is closed: the handle is deleted, and used after that. *)
Example unplugged_before_close :
  start_and_step [step_hotplug; step_connector 0; step_kick 0; step_event DEVICE_LEFT 7; step_hotplug; step_close 0] hub_world = Crash "dangling usb_handle".
Proof. by vm_compute. Qed.

(** Without a device at the start nothing announces the end of the scan. *)
Example nothing_plugged_in :
  match iter_list run_lib_step [step_connector 0] hub_world with Done _ w => scan_announced w | _ => true end = false.
Proof. by vm_compute. Qed.

(** One phone waits to be looked at. *)
Definition one_waits : lib_state := set_connectors [7%Z] (set_connecting_devices 1 no_devices).
Definition waiting_world : world hub := idle_world false [] ∅ {| hb_lib := one_waits; hb_open := ∅; hb_wire := [] |}.

Lemma waiting_sound : lib_sound (opened := hb_open) waiting_world.
Proof.
  assert (Hnone : forall h x, lb_objects one_waits !! h = Some x -> False) by (intros h x H; cbn in H; by apply lookup_empty_Some in H).
  change (lib_ok [] one_waits ∅). split; [split|..].
  - intros d s H. exfalso. by apply lookup_empty_Some in H.
  - by intros d h x [H%Hnone _].
  - by intros d h h' x x' [H%Hnone _].
  - by intros h x H%Hnone.
  - by intros h [x H%Hnone].
  - intros a h. split; [intros H; cbn in H; by apply lookup_empty_Some in H|by intros (x & H%Hnone & _)].
  - done.
Qed.

Lemma libusb_step_sound_witness :
  pwp (run_lib_step (step_connector 0)) (fun _ w' => lib_sound (opened := hb_open) w' /\
    (scan_announced w' = true <-> scan_announced waiting_world = true \/ ends_scan (step_connector 0) waiting_world w')) waiting_world.
Proof. exact (libusb_step_sound (step_connector 0) waiting_world eq_refl waiting_sound). Defined.

(** A phone to write to: sixteen bytes go in two transfers and an empty one. *)
Definition phone_handle : lib_handle :=
  new_lib_handle (str "usb:1:7") (str "phone7") (Some 7%Z) 1
    {| pk_bulk_in := 0x81; pk_bulk_out := 2; pk_zero_mask := Some 3%Z; pk_packet_size := 4 |} 3.
Definition plugged_hub : hub :=
  {| hb_lib := {| lb_objects := {[0%Z := phone_handle]}; lb_next := 1; usb_handles := {[str "usb:1:7" := 0%Z]}; connecting_devices := 0;
                  hotplug_queue := []; connectors := [] |}; hb_open := {[7%Z := {[1%Z]}]}; hb_wire := [] |}.

Example two_pieces :
  match UsbLib.usb_write 30 0 (str "0123456789abcdef") plugged_hub with Done ok e => Some (ok, hb_wire e) | _ => None end =
    Some (true, [str "01234567"; str "89abcdef"; []]).
Proof. by vm_compute. Qed.

Lemma libusb_write_whole_witness :
  twp (UsbLib.usb_write 30 0 (str "0123456789abcdef")) (fun ok e' => exists sent, hb_wire e' = hb_wire plugged_hub ++ sent /\
    concat sent `prefix_of` str "0123456789abcdef" /\ (ok = true -> one_message 4 sent (str "0123456789abcdef"))) plugged_hub.
Proof. apply (libusb_write_whole hb_wire 4 2 30 0 phone_handle); [reflexivity..|vm_compute; lia]. Defined.
