(* ===== verification/UsbWin.v ===== *)
(** * USB devices of a Windows host (client/usb_windows.cpp)

    A thread asks AdbWinApi every second for the interfaces there are.  The
    handles of the devices are in a circular list with pointers both ways, whose
    head [handle_list] is a [usb_handle] itself; a pointer is a number here, that
    of the head 0.  A handle of AdbWinApi that is NULL is 0 too.  [usb_lock] is
    held in every operation on the list. *)

From S2P Require Import Prelude LibBase Packet AdbIo FdEvent Transport World SmartText.
From S2P Require Import Sockets SocketIo TransportOps Demo UsbLinux UsbTurn.

Record win_handle := {
  wh_prev : Z;
  wh_next : Z;
  adb_interface : Z;
  adb_read_pipe : Z;
  adb_write_pipe : Z;
  interface_name : option (list Z);
  wh_max_packet_size : Z;
  wh_zero_mask : Z;
}.

(** [calloc]; the head of the list. *)
Definition empty_handle (self : Z) : win_handle :=
  {| wh_prev := self; wh_next := self; adb_interface := 0; adb_read_pipe := 0; adb_write_pipe := 0; interface_name := None;
     wh_max_packet_size := 0; wh_zero_mask := 0 |}.

Definition set_wh_prev (v : Z) (x : win_handle) : win_handle :=
  {| wh_prev := v; wh_next := wh_next x; adb_interface := adb_interface x; adb_read_pipe := adb_read_pipe x; adb_write_pipe := adb_write_pipe x;
     interface_name := interface_name x; wh_max_packet_size := wh_max_packet_size x; wh_zero_mask := wh_zero_mask x |}.
Definition set_wh_next (v : Z) (x : win_handle) : win_handle :=
  {| wh_prev := wh_prev x; wh_next := v; adb_interface := adb_interface x; adb_read_pipe := adb_read_pipe x; adb_write_pipe := adb_write_pipe x;
     interface_name := interface_name x; wh_max_packet_size := wh_max_packet_size x; wh_zero_mask := wh_zero_mask x |}.
Definition set_endpoints (i r w : Z) (x : win_handle) : win_handle :=
  {| wh_prev := wh_prev x; wh_next := wh_next x; adb_interface := i; adb_read_pipe := r; adb_write_pipe := w;
     interface_name := interface_name x; wh_max_packet_size := wh_max_packet_size x; wh_zero_mask := wh_zero_mask x |}.
Definition set_interface_name (v : option (list Z)) (x : win_handle) : win_handle :=
  {| wh_prev := wh_prev x; wh_next := wh_next x; adb_interface := adb_interface x; adb_read_pipe := adb_read_pipe x; adb_write_pipe := adb_write_pipe x;
     interface_name := v; wh_max_packet_size := wh_max_packet_size x; wh_zero_mask := wh_zero_mask x |}.
Definition set_packet_size (size mask : Z) (x : win_handle) : win_handle :=
  {| wh_prev := wh_prev x; wh_next := wh_next x; adb_interface := adb_interface x; adb_read_pipe := adb_read_pipe x; adb_write_pipe := adb_write_pipe x;
     interface_name := interface_name x; wh_max_packet_size := size; wh_zero_mask := mask |}.

Definition clean_handle (x : win_handle) : win_handle := set_interface_name None (set_endpoints 0 0 0 x).

(** [&handle_list]. *)
Definition HEAD : Z := 0.

Abbreviation win_state := (gmap Z win_handle).

Class WinUsbState (E : Type) := {
  handles_of : E -> win_state;
  put_handles : win_state -> E -> E;
}.

(** What AdbWinApi tells of an interface: the number of endpoints, its class,
    subclass and protocol. *)
Record win_interface := { wi_endpoints : Z; wi_class : Z; wi_subclass : Z; wi_protocol : Z }.

(** AdbWinApi.dll.  [wu_name_length] and [wu_name]: AdbGetInterfaceName without
    and with a buffer; [wu_lower]: what wcsicmp makes of a character. *)
Class WinUsbApi (E : Type) := {
  wu_malloc : Z -> E -> option Z * E;
  wu_lower : Z -> Z;
  wu_create_interface : list Z -> E -> Z * E;
  wu_open_read : Z -> E -> Z * E;
  wu_open_write : Z -> E -> Z * E;
  wu_name_length : Z -> E -> Z;
  wu_name : Z -> Z -> E -> option (list Z);
  wu_close : Z -> E -> E;
  wu_write : Z -> bytes -> Z -> E -> option Z * E;
  wu_read : Z -> Z -> Z -> E -> option bytes * E;
  wu_device_descriptor : Z -> E -> bool;
  wu_interface_descriptor : Z -> E -> option win_interface;
  wu_endpoint_packet_size : Z -> Z -> E -> option Z;
  wu_serial : Z -> E -> option bytes;
  wu_enum : E -> Z * E;
  wu_next_interface : Z -> E -> option (list Z) * E;
}.

Section UsbWin.
Context {E : Type} {K : Kernel E} {B : Build} {OS : Os E} {LB : LibBase} {WS : WinUsbState E} {WU : WinUsbApi E}.
Abbreviation W := (world E).

Definition load_handle (h : Z) : M E win_handle :=
  fun e => match handles_of e !! h with Some x => Done x e | None => Crash "dangling usb_handle" end.
Definition upd_handle_at (h : Z) (f : win_handle -> win_handle) : M E unit :=
  let* x := load_handle h in modify (fun e => put_handles (<[h := f x]> (handles_of e)) e).
Definition free_handle (h : Z) : M E unit := modify (fun e => put_handles (delete h (handles_of e)) e).

(** ** The list *)

Definition wcsicmp_equal (a b : list Z) : bool := bool_decide (map wu_lower a = map wu_lower b).

(** Along [next] from [usb], up to the head. *)
Fixpoint walk (fuel : nat) (found : win_handle -> bool) (usb : Z) : M E bool :=
  match fuel with
  | O => no_fuel
  | S f =>
      if (usb =? HEAD)%Z then ret false else
      let* x := load_handle usb in
      if found x then ret true else walk f found (wh_next x)
  end.

Definition has_name (dev_name : list Z) (x : win_handle) : bool :=
  match interface_name x with Some n => wcsicmp_equal n dev_name | None => false end.

Definition known_device (fuel : nat) (dev_name : option (list Z)) : M E bool :=
  match dev_name with
  | None => ret false
  | Some dev_name => let* head := load_handle HEAD in walk fuel (has_name dev_name) (wh_next head)
  end.

(** At the end of the list; [handle] is not NULL. *)
Definition register_new_device (fuel : nat) (handle : Z) : M E bool :=
  let* x := load_handle handle in
  let* known := known_device fuel (interface_name x) in
  if known : bool then ret false else
  upd_handle_at handle (set_wh_next HEAD) ;;;
  let* head := load_handle HEAD in
  upd_handle_at handle (set_wh_prev (wh_prev head)) ;;;
  upd_handle_at (wh_prev head) (set_wh_next handle) ;;;
  upd_handle_at HEAD (set_wh_prev handle) ;;;
  ret true.

Definition unlink_handle (handle : Z) : M E unit :=
  let* x := load_handle handle in
  if negb (wh_next x =? handle)%Z && negb (wh_prev x =? handle)%Z then
    upd_handle_at (wh_next x) (set_wh_prev (wh_prev x)) ;;;
    let* x := load_handle handle in
    upd_handle_at (wh_prev x) (set_wh_next (wh_next x)) ;;;
    upd_handle_at handle (set_wh_prev handle) ;;;
    upd_handle_at handle (set_wh_next handle)
  else ret tt.

(** ** Handles *)

Definition close_pipe (p : Z) : M E unit := when (negb (p =? 0)%Z) (modify (wu_close p)).

Definition usb_cleanup_handle (handle : Z) : M E unit :=
  let* x := load_handle handle in
  close_pipe (adb_write_pipe x) ;;;
  close_pipe (adb_read_pipe x) ;;;
  close_pipe (adb_interface x) ;;;
  upd_handle_at handle clean_handle.

Definition usb_kick (handle : Z) : M E unit := usb_cleanup_handle handle.

Definition usb_close (handle : Z) : M E unit :=
  unlink_handle handle ;;;
  usb_cleanup_handle handle ;;;
  free_handle handle.

Definition usb_get_max_packet_size (handle : Z) : M E Z := let* x := load_handle handle in ret (wh_max_packet_size x).

(** Along the list, cleaning every handle. *)
Fixpoint kick_from (fuel : nat) (usb : Z) : M E unit :=
  match fuel with
  | O => no_fuel
  | S f =>
      if (usb =? HEAD)%Z then ret tt else
      usb_cleanup_handle usb ;;;
      let* x := load_handle usb in
      kick_from f (wh_next x)
  end.

(** When the computer wakes up. *)
Definition kick_devices (fuel : nat) : M E unit := let* head := load_handle HEAD in kick_from fuel (wh_next head).

(** ** Opening *)

(** [NULL] for a failure of a step, after which what is open is closed. *)
Definition open_failed (ret_handle : Z) : M E (option Z) := usb_cleanup_handle ret_handle ;;; free_handle ret_handle ;;; ret None.

Definition do_usb_open (name : list Z) : M E (option Z) :=
  let* p := usb_call (wu_malloc 1) in
  match p with
  | None => ret None
  | Some h =>
      modify (fun e => put_handles (<[h := empty_handle h]> (handles_of e)) e) ;;;
      let* i := usb_call (wu_create_interface name) in
      upd_handle_at h (set_endpoints i 0 0) ;;;
      if (i =? 0)%Z then open_failed h else
      let* r := usb_call (wu_open_read i) in
      upd_handle_at h (set_endpoints i r 0) ;;;
      if (r =? 0)%Z then open_failed h else
      let* w := usb_call (wu_open_write i) in
      upd_handle_at h (set_endpoints i r w) ;;;
      if (w =? 0)%Z then open_failed h else
      let* name_len := gets (wu_name_length i) in
      if (name_len =? 0)%Z then open_failed h else
      let* buffer := usb_call (wu_malloc name_len) in
      match buffer with
      | None => open_failed h
      | Some _ =>
          let* interface := gets (wu_name i name_len) in
          match interface with
          | None => open_failed h
          | Some n => upd_handle_at h (set_interface_name (Some n)) ;;; ret (Some h)
          end
      end
  end.

(** Whether it is a device of adb; the size of its packets is asked for. *)
Definition recognized_device (h : Z) : M E bool :=
  let* x := load_handle h in
  let* e := get in
  if negb (wu_device_descriptor (adb_interface x) e) then ret false else
  match wu_interface_descriptor (adb_interface x) e with
  | None => ret false
  | Some i =>
      if negb (wi_endpoints i =? 2)%Z then ret false else
      if is_adb_interface (wi_class i) (wi_subclass i) (wi_protocol i) then
        (if (wi_protocol i =? 1)%Z then
           match wu_endpoint_packet_size (adb_interface x) 0 e with
           | Some size => upd_handle_at h (set_packet_size size (u32 (size - 1)))
           | None => ret tt
           end
         else ret tt) ;;;
        ret true
      else ret false
  end.

(** A handle that is not used is closed and freed. *)
Definition discard_handle (h : Z) : M W unit := on_env (usb_cleanup_handle h ;;; free_handle h).

Definition add_interface (fuel : nat) (device_name : list Z) : M W unit :=
  let* known := on_env (known_device fuel (Some device_name)) in
  if known : bool then ret tt else
  let* handle := on_env (do_usb_open device_name) in
  match handle with
  | None => ret tt
  | Some h =>
      let* ok := on_env (recognized_device h) in
      if negb ok then discard_handle h else
      let* x := on_env (load_handle h) in
      let* serial := gets (fun w => wu_serial (adb_interface x) (w_env w)) in
      match serial with
      | None => discard_handle h
      | Some serial_number =>
          let* registered := on_env (register_new_device fuel h) in
          if registered : bool then register_usb_transport h (Some (c_str serial_number)) None true else discard_handle h
      end
  end.

(** The interfaces, as long as there are more. *)
Fixpoint add_interfaces (fuel : nat) (enum_handle : Z) : M W unit :=
  match fuel with
  | O => no_fuel
  | S f =>
      let* next_interface := on_env (usb_call (wu_next_interface enum_handle)) in
      match next_interface with
      | None => ret tt
      | Some device_name => add_interface f device_name ;;; add_interfaces f enum_handle
      end
  end.

Definition find_devices (fuel : nat) : M W unit :=
  let* enum_handle := on_env (usb_call wu_enum) in
  if (enum_handle =? 0)%Z then ret tt else
  add_interfaces fuel enum_handle ;;;
  on_env (modify (wu_close enum_handle)).

(** ** Transfers *)

(** After an error the device is kicked. *)
Definition transfer_failed {A} (handle : Z) : M E (option A) := usb_kick handle ;;; ret None.

Definition usb_write (handle : Z) (data : bytes) : M E (option unit) :=
  let* x := load_handle handle in
  let* written := usb_call (wu_write (adb_write_pipe x) data 5000) in
  match written with
  | None => transfer_failed handle
  | Some written =>
      if negb (written =? Zlen data)%Z then transfer_failed handle else
      if negb (wh_zero_mask x =? 0)%Z && (Z.land (Zlen data) (wh_zero_mask x) =? 0)%Z then
        let* r := usb_call (wu_write (adb_write_pipe x) [] 5000) in
        match r with None => transfer_failed handle | Some _ => ret (Some tt) end
      else ret (Some tt)
  end.

(** Until something is read: an empty transfer is not an answer. *)
Fixpoint usb_read (fuel : nat) (handle len : Z) : M E (option bytes) :=
  match fuel with
  | O => no_fuel
  | S f =>
      let* x := load_handle handle in
      let* r := usb_call (wu_read (adb_read_pipe x) len 0) in
      match r with
      | None => transfer_failed handle
      | Some [] => usb_read f handle len
      | Some data => ret (Some data)
      end
  end.

End UsbWin.

(** ** The list refines a list

    What the operations do to the handles in their order, without pointers. *)

Class WinUsbLaws (E : Type) `{WinUsbState E, WinUsbApi E} := {
  handles_of_put u (e : E) : handles_of (put_handles u e) = u;
  wu_close_frame p (e : E) : handles_of (wu_close p e) = handles_of e;
}.

Section Adjacent.
Context {A : Type}.

(** [x] and [y] follow each other in a list. *)
Fixpoint adjacent (x y : A) (l : list A) : Prop :=
  match l with
  | a :: rest => match rest with b :: _ => (x = a /\ y = b) \/ adjacent x y rest | [] => False end
  | [] => False
  end.

Lemma adjacent_app x y l k : adjacent x y (l ++ k) <-> adjacent x y l \/ adjacent x y k \/ (last l = Some x /\ head k = Some y).
Proof.
  induction l as [|a l IH]; [cbn; naive_solver|]. destruct l as [|b l].
  - destruct k as [|b k]; cbn; naive_solver.
  - change ((a :: b :: l) ++ k) with (a :: (b :: l) ++ k). change (last (a :: b :: l)) with (last (b :: l)).
    change (adjacent x y (a :: (b :: l) ++ k)) with ((x = a /\ y = b) \/ adjacent x y ((b :: l) ++ k)). rewrite IH.
    change (adjacent x y (a :: b :: l)) with ((x = a /\ y = b) \/ adjacent x y (b :: l)). tauto.
Qed.

Lemma adjacent_in x y l : adjacent x y l -> x ∈ l /\ y ∈ l.
Proof.
  induction l as [|a [|b l] IH]; [done..|]. intros [[-> ->]|H]; [split; [apply list_elem_of_here|apply list_elem_of_further, list_elem_of_here]|].
  apply IH in H as [H1 H2]. split; by apply list_elem_of_further.
Qed.

(** Without repetition: the last is not followed, and the first does not follow. *)
Lemma adjacent_last x y l : NoDup l -> adjacent x y l -> last l <> Some x.
Proof.
  induction l as [|a [|b l] IH]; [done..|]. intros [Ha Hnd]%NoDup_cons [[-> ->]|H].
  - change (last (a :: b :: l)) with (last (b :: l)). intros Hl%last_Some_elem_of. done.
  - change (last (a :: b :: l)) with (last (b :: l)). by apply IH.
Qed.

Lemma adjacent_head x y l : NoDup l -> adjacent x y l -> head l <> Some y.
Proof.
  destruct l as [|a [|b l]]; [done..|]. intros [Ha Hnd]%NoDup_cons [[-> ->]|H]; cbn; intros [= ->]; apply Ha; [apply list_elem_of_here|].
  by apply adjacent_in in H as [_ H].
Qed.

End Adjacent.

Section Refines.
Context {E : Type} {K : Kernel E} {B : Build} {OS : Os E} {LB : LibBase} {WS : WinUsbState E} {WU : WinUsbApi E} {WL : WinUsbLaws E}.

(** The pointers of two neighbours. *)
Definition linked_pair (u : win_state) (x y : Z) : Prop := wh_next <$> u !! x = Some y /\ wh_prev <$> u !! y = Some x.

(** The circle through the head and [l]. *)
Definition circle (u : win_state) (l : list Z) : Prop := NoDup (HEAD :: l) /\ forall x y, adjacent x y (HEAD :: l ++ [HEAD]) -> linked_pair u x y.

(** A handle without its pointers. *)
Definition data (x : win_handle) : win_handle := set_wh_prev 0 (set_wh_next 0 x).

Definition represents (u : win_state) (a : list (Z * win_handle)) : Prop :=
  circle u (map fst a) /\ Forall (fun p => data <$> u !! fst p = Some (snd p)) a.

(** The operations on the list that is represented. *)
Definition spec_known (dev_name : option (list Z)) (a : list (Z * win_handle)) : bool :=
  match dev_name with Some n => existsb (fun p => has_name n (snd p)) a | None => false end.
Definition spec_register (h : Z) (d : win_handle) (a : list (Z * win_handle)) : list (Z * win_handle) :=
  if spec_known (interface_name d) a then a else a ++ [(h, d)].
Definition spec_close (h : Z) (a : list (Z * win_handle)) : list (Z * win_handle) := filter (fun p => fst p <> h) a.
Definition spec_kick (a : list (Z * win_handle)) : list (Z * win_handle) := map (fun p => (fst p, clean_handle (snd p))) a.

Lemma last_head l : last (HEAD :: l) = Some (default HEAD (last l)).
Proof.
  destruct l as [|a l]; [done|]. change (last (HEAD :: a :: l)) with (last (a :: l)). destruct (last (a :: l)) eqn:Hl; [done|]. by apply last_None in Hl.
Qed.

(** *** Pointers that change *)

Lemma twp_load_handle h x (Q : win_handle -> E -> Prop) e : handles_of e !! h = Some x -> Q x e -> twp (load_handle h) Q e.
Proof. unfold twp, load_handle. by intros ->. Qed.

Lemma twp_upd_handle_at h f x (Q : unit -> E -> Prop) e : handles_of e !! h = Some x ->
  (forall e', handles_of e' = <[h := f x]> (handles_of e) -> Q tt e') -> twp (upd_handle_at h f) Q e.
Proof. intros Hx HQ. apply twp_bind, (twp_load_handle _ x); [done|]. apply twp_modify, HQ. apply handles_of_put. Qed.

Lemma head_next u l : circle u l -> exists x, u !! HEAD = Some x /\ wh_next x = default HEAD (head l).
Proof.
  intros [_ Hadj]. destruct (Hadj HEAD (default HEAD (head l))) as [Hn _]; [destruct l as [|h l]; by left|].
  apply fmap_Some in Hn as (x & Hx & Hn). by exists x.
Qed.

Lemma head_prev u l : circle u l -> exists x, u !! HEAD = Some x /\ wh_prev x = default HEAD (last l).
Proof.
  intros [_ Hadj]. destruct (Hadj (default HEAD (last l)) HEAD) as [_ Hp].
  { change (HEAD :: l ++ [HEAD]) with ((HEAD :: l) ++ [HEAD]). rewrite adjacent_app. do 2 right. by rewrite last_head. }
  apply fmap_Some in Hp as (x & Hx & Hp). by exists x.
Qed.

Lemma circle_next u l1 h l2 : circle u (l1 ++ h :: l2) -> exists x, u !! h = Some x /\ wh_next x = default HEAD (head l2) /\ wh_prev x = default HEAD (last l1).
Proof.
  intros [_ Hadj]. destruct (Hadj h (default HEAD (head l2))) as [Hn _].
  { rewrite <- app_assoc. change (HEAD :: l1 ++ (h :: l2) ++ [HEAD]) with ((HEAD :: l1) ++ (h :: l2) ++ [HEAD]). rewrite adjacent_app. right. left. destruct l2; by left. }
  destruct (Hadj (default HEAD (last l1)) h) as [_ Hp].
  { rewrite <- app_assoc. change (HEAD :: l1 ++ (h :: l2) ++ [HEAD]) with ((HEAD :: l1) ++ (h :: l2) ++ [HEAD]). rewrite adjacent_app. do 2 right. by rewrite last_head. }
  apply fmap_Some in Hn as (x & Hx & Hn). rewrite Hx in Hp. injection Hp as Hp. by exists x.
Qed.

(** The neighbours of a handle are there. *)
Lemma circle_ends u l1 h l2 : circle u (l1 ++ h :: l2) -> is_Some (u !! default HEAD (last l1)) /\ is_Some (u !! default HEAD (head l2)).
Proof.
  intros [_ Hadj]. change (HEAD :: (l1 ++ h :: l2) ++ [HEAD]) with ((HEAD :: (l1 ++ h :: l2)) ++ [HEAD]) in Hadj.
  assert (Hsplit : (HEAD :: (l1 ++ h :: l2)) ++ [HEAD] = (HEAD :: l1) ++ h :: (l2 ++ [HEAD])) by (cbn; by rewrite <- app_assoc). rewrite Hsplit in Hadj. split.
  - destruct (Hadj (default HEAD (last l1)) h) as [H _]; [rewrite adjacent_app, last_head; auto|]. apply fmap_Some in H as (x & Hx & _). by exists x.
  - destruct (Hadj h (default HEAD (head l2))) as [_ H]; [rewrite adjacent_app; right; left; destruct l2; by left|]. apply fmap_Some in H as (x & Hx & _). by exists x.
Qed.

(** *** Looking for a name *)

Lemma walk_finds found fuel l1 l2 (Q : bool -> E -> Prop) e : circle (handles_of e) (l1 ++ l2) -> length l2 < fuel ->
  Q (existsb (fun h => match handles_of e !! h with Some x => found x | None => false end) l2) e -> twp (walk fuel found (default HEAD (head l2))) Q e.
Proof.
  revert fuel l1. induction l2 as [|h l2 IH]; intros fuel l1 Hc Hf HQ; (destruct fuel as [|fuel]; [cbn in Hf; lia|]); cbn [walk head default existsb].
  - by apply twp_ret.
  - assert (Hh : h <> HEAD). { destruct Hc as [[Hn _]%NoDup_cons _]. intros ->. apply Hn, elem_of_app. right. apply list_elem_of_here. }
    rewrite (proj2 (Z.eqb_neq _ _)) by done. destruct (circle_next _ _ _ _ Hc) as (x & Hx & Hnext & _). apply twp_bind, (twp_load_handle _ x); [done|].
    cbn [existsb] in HQ. rewrite Hx in HQ. destruct (found x); [by apply twp_ret|]. rewrite Hnext. apply (IH fuel (l1 ++ [h])); [by rewrite <- app_assoc|cbn in Hf; lia|done].
Qed.

Lemma has_name_data n x : has_name n (data x) = has_name n x.
Proof. done. Qed.

Lemma represented_names (u : win_state) a n : Forall (fun p => data <$> u !! fst p = Some (snd p)) a ->
  existsb (fun h => match u !! h with Some x => has_name n x | None => false end) (map fst a) = spec_known (Some n) a.
Proof.
  cbn. induction 1 as [|[h d] a Hd _ IH]; [done|]. cbn in *. rewrite IH. f_equal. apply fmap_Some in Hd as (x & -> & ->). by rewrite has_name_data.
Qed.

Lemma known_device_refines fuel dev_name a (Q : bool -> E -> Prop) e : represents (handles_of e) a -> length a < fuel ->
  Q (spec_known dev_name a) e -> twp (known_device fuel dev_name) Q e.
Proof.
  intros [Hc Hd] Hf HQ. unfold known_device. destruct dev_name as [n|]; [|by apply twp_ret]. destruct (head_next _ _ Hc) as (x & Hx & Hn).
  apply twp_bind, (twp_load_handle _ x); [done|]. rewrite Hn. apply (walk_finds _ _ []); [done|by rewrite length_map|]. by rewrite represented_names.
Qed.

(** *** Pointers, one by one *)

Definition nxt (u : win_state) (k : Z) : option Z := wh_next <$> u !! k.
Definition prv (u : win_state) (k : Z) : option Z := wh_prev <$> u !! k.
Definition dat (u : win_state) (k : Z) : option win_handle := data <$> u !! k.

Lemma twp_set_next h v (Q : unit -> E -> Prop) e : is_Some (handles_of e !! h) ->
  (forall e', (forall k, nxt (handles_of e') k = if decide (k = h) then Some v else nxt (handles_of e) k) ->
     (forall k, prv (handles_of e') k = prv (handles_of e) k) -> (forall k, dat (handles_of e') k = dat (handles_of e) k) -> Q tt e') ->
  twp (upd_handle_at h (set_wh_next v)) Q e.
Proof.
  intros [x Hx] HQ. apply (twp_upd_handle_at _ _ x); [done|]. intros e' He. apply HQ; intros k; unfold nxt, prv, dat; rewrite He;
    (destruct (decide (k = h)) as [->|]; [rewrite lookup_insert_eq, ?Hx; done|by rewrite lookup_insert_ne]).
Qed.

Lemma twp_set_prev h v (Q : unit -> E -> Prop) e : is_Some (handles_of e !! h) ->
  (forall e', (forall k, prv (handles_of e') k = if decide (k = h) then Some v else prv (handles_of e) k) ->
     (forall k, nxt (handles_of e') k = nxt (handles_of e) k) -> (forall k, dat (handles_of e') k = dat (handles_of e) k) -> Q tt e') ->
  twp (upd_handle_at h (set_wh_prev v)) Q e.
Proof.
  intros [x Hx] HQ. apply (twp_upd_handle_at _ _ x); [done|]. intros e' He. apply HQ; intros k; unfold nxt, prv, dat; rewrite He;
    (destruct (decide (k = h)) as [->|]; [rewrite lookup_insert_eq, ?Hx; done|by rewrite lookup_insert_ne]).
Qed.

Lemma dat_some u k : is_Some (u !! k) <-> is_Some (dat u k).
Proof. unfold dat. by rewrite fmap_is_Some. Qed.

Lemma represents_dat u u' a b l : represents u a -> (forall k, dat u' k = dat u k) -> b ⊆ a ++ l -> Forall (fun p => dat u (fst p) = Some (snd p)) l ->
  Forall (fun p => dat u' (fst p) = Some (snd p)) b.
Proof.
  intros [_ Ha] Hd Hsub Hl. apply Forall_forall. intros q Hq. rewrite Hd. apply Hsub, elem_of_app in Hq as [Hq|Hq];
    [rewrite Forall_forall in Ha; by apply Ha|rewrite Forall_forall in Hl; by apply Hl].
Qed.

(** *** A new handle *)

(** The circle with [h] at its end. *)
Lemma circle_with u u' l h : circle u l -> h <> HEAD -> h ∉ l ->
  (forall k, nxt u' k = if decide (k = default HEAD (last l)) then Some h else if decide (k = h) then Some HEAD else nxt u k) ->
  (forall k, prv u' k = if decide (k = HEAD) then Some h else if decide (k = h) then Some (default HEAD (last l)) else prv u k) -> circle u' (l ++ [h]).
Proof.
  set (p := default HEAD (last l)). intros [Hnd Hadj] Hh Hnew Hn Hp. assert (Hin : h ∉ HEAD :: l) by (intros [?|?]%elem_of_cons; done).
  assert (Hph : p <> h). { intros Heq. apply Hin. rewrite <- Heq. apply last_Some_elem_of, last_head. }
  split.
  - change (HEAD :: l ++ [h]) with ((HEAD :: l) ++ [h]). apply NoDup_app. split_and!; [done| |apply NoDup_singleton]. intros k Hk ->%list_elem_of_singleton. done.
  - intros y1 y2. rewrite <- app_assoc. change (HEAD :: l ++ [h] ++ [HEAD]) with ((HEAD :: l) ++ [h; HEAD]). rewrite adjacent_app, last_head. fold p. cbn [head].
    unfold linked_pair. fold (nxt u' y1) (prv u' y2). rewrite Hn, Hp. intros [Hy|[Hy|[[= <-] [= <-]]]].
    + pose proof (adjacent_in _ _ _ Hy) as [I1 I2]. pose proof (adjacent_last _ _ _ Hnd Hy) as L1. rewrite last_head in L1. fold p in L1.
      pose proof (adjacent_head _ _ _ Hnd Hy) as L2. cbn in L2. rewrite !decide_False by (congruence || by intros ->).
      apply Hadj. change (HEAD :: l ++ [HEAD]) with ((HEAD :: l) ++ [HEAD]). rewrite adjacent_app. by left.
    + destruct Hy as [[-> ->]|[]]. rewrite decide_False by done. by rewrite !decide_True.
    + rewrite decide_True by done. rewrite decide_False by done. by rewrite decide_True.
Qed.

Lemma register_refines fuel h d a (Q : bool -> E -> Prop) e : represents (handles_of e) a -> length a < fuel ->
  h <> HEAD -> h ∉ map fst a -> dat (handles_of e) h = Some d ->
  (forall e', represents (handles_of e') (spec_register h d a) -> Q (negb (spec_known (interface_name d) a)) e') ->
  twp (register_new_device fuel h) Q e.
Proof.
  intros Hr Hf Hh Hnew Hdat HQ. pose proof Hr as [Hc _]. assert (Hx : exists x, handles_of e !! h = Some x /\ data x = d).
  { apply fmap_Some in Hdat as (x & ? & ?). by exists x. }
  destruct Hx as (x & Hx & Hd). unfold register_new_device. apply twp_bind, (twp_load_handle _ x); [done|]. apply twp_bind.
  apply (known_device_refines _ _ a); [done..|]. replace (interface_name x) with (interface_name d) by by rewrite <- Hd.
  unfold spec_register in HQ. destruct (spec_known (interface_name d) a); [by apply twp_ret, HQ|]. set (p := default HEAD (last (map fst a))).
  apply twp_bind, twp_set_next; [by exists x|]. intros e1 N1 P1 D1.
  destruct (head_prev _ _ Hc) as (z & Hz & Hzp). fold p in Hzp.
  assert (Hhead : exists z', handles_of e1 !! HEAD = Some z' /\ wh_prev z' = p).
  { specialize (P1 HEAD). unfold prv in P1. rewrite Hz in P1. apply fmap_Some in P1 as (z' & Hz' & Hp'). exists z'. split; [done|]. by rewrite <- Hp'. }
  destruct Hhead as (z' & Hz' & Hp'). apply twp_bind, (twp_load_handle _ z'); [done|]. rewrite Hp'.
  apply twp_bind, twp_set_prev; [apply dat_some; rewrite D1, Hdat; by eexists|]. intros e2 P2 N2 D2.
  assert (Hpin : is_Some (handles_of e !! p)).
  { unfold p. destruct (last (map fst a)) as [q|] eqn:Hl; [|by exists z]. apply last_Some in Hl as [l1 Hl]. rewrite Hl in Hc.
    destruct (circle_next _ _ _ _ Hc) as (y & Hy & _). by exists y. }
  apply twp_bind, twp_set_next; [apply dat_some; rewrite D2, D1; by apply dat_some|]. intros e3 N3 P3 D3.
  apply twp_bind, twp_set_prev; [apply dat_some; rewrite D3, D2, D1; apply dat_some; by exists z|]. intros e4 P4 N4 D4.
  apply twp_ret, HQ. split; [|eapply (represents_dat _ _ _ _ [(h, d)]); [done|intros k; by rewrite D4, D3, D2, D1|done|by apply Forall_singleton]].
  rewrite map_app. apply (circle_with (handles_of e)); [done..| |]; intros k; fold p; [by rewrite N4, N3, N2, N1|by rewrite P4, P3, P2, P1].
Qed.

(** *** A handle that goes *)

(** A handle of the list, with its neighbours. *)
Lemma represented_split u a h d : represents u a -> (h, d) ∈ a -> exists a1 a2, a = a1 ++ (h, d) :: a2 /\ h ∉ map fst a1 /\ h ∉ map fst a2 /\ h <> HEAD.
Proof.
  intros [[Hnd _] _] (a1 & a2 & ->)%list_elem_of_split. exists a1, a2. rewrite map_app in Hnd. cbn in Hnd.
  apply NoDup_cons in Hnd as [Hh Hnd]. apply NoDup_app in Hnd as (_ & Hd & [Hd2 _]%NoDup_cons). split; [done|]. split.
  - intros Hin. apply (Hd _ Hin), list_elem_of_here.
  - split; [done|]. intros ->. apply Hh, elem_of_app. right. apply list_elem_of_here.
Qed.

Lemma spec_close_split h d a1 a2 : h ∉ map fst a1 -> h ∉ map fst a2 -> spec_close h (a1 ++ (h, d) :: a2) = a1 ++ a2.
Proof.
  assert (Hsame : forall l : list (Z * win_handle), h ∉ map fst l -> filter (fun p => fst p <> h) l = l).
  { induction l as [|[k z] l IH]; intros Hl; [done|]. apply not_elem_of_cons in Hl as [Hk Hl]. rewrite filter_cons, decide_True by (cbn in *; congruence). by rewrite IH. }
  intros H1 H2. unfold spec_close. rewrite filter_app, filter_cons. cbn. rewrite decide_False by (intros Hn; by apply Hn). by rewrite !Hsame.
Qed.

(** The circle without [h], when its neighbours point to each other. *)
Lemma circle_without u u' l1 h l2 : circle u (l1 ++ h :: l2) ->
  (forall k, k <> h -> nxt u' k = if decide (k = default HEAD (last l1)) then Some (default HEAD (head l2)) else nxt u k) ->
  (forall k, k <> h -> prv u' k = if decide (k = default HEAD (head l2)) then Some (default HEAD (last l1)) else prv u k) ->
  circle u' (l1 ++ l2).
Proof.
  set (nb := default HEAD (head l2)). set (pb := default HEAD (last l1)). intros [Hnd Hadj] Hn Hp.
  change (HEAD :: l1 ++ h :: l2) with ((HEAD :: l1) ++ h :: l2) in Hnd. apply NoDup_app in Hnd as (Hnd1 & Hdis & [Hnd2 Hnd3]%NoDup_cons).
  assert (Hsub : forall k, k ∈ HEAD :: l1 -> k ∉ l2) by (intros k Hk Hk2; by apply (Hdis k Hk), list_elem_of_further).
  assert (Hh : h ∉ HEAD :: l1) by (intros Hk; apply (Hdis h Hk), list_elem_of_here).
  split. { change (HEAD :: l1 ++ l2) with ((HEAD :: l1) ++ l2). by apply NoDup_app. }
  assert (Hnd4 : NoDup (l2 ++ [HEAD])). { apply NoDup_app. split_and!; [done| |apply NoDup_singleton]. intros k Hk ->%list_elem_of_singleton. by apply (Hsub HEAD); [apply list_elem_of_here|]. }
  assert (Hh2 : h ∉ l2 ++ [HEAD]). { intros [?|?%list_elem_of_singleton]%elem_of_app; [done|]. subst h. apply Hh, list_elem_of_here. }
  assert (Hheadl : head (l2 ++ [HEAD]) = Some nb) by (unfold nb; by destruct l2). assert (Hpin : pb ∈ HEAD :: l1) by (apply last_Some_elem_of; apply last_head).
  assert (Hnin : nb ∈ l2 ++ [HEAD]) by by apply head_Some_elem_of.
  intros y1 y2. rewrite <- app_assoc. change (HEAD :: l1 ++ l2 ++ [HEAD]) with ((HEAD :: l1) ++ (l2 ++ [HEAD])). rewrite adjacent_app, last_head. fold pb.
  assert (Hold : adjacent y1 y2 (HEAD :: l1) \/ adjacent y1 y2 (l2 ++ [HEAD]) -> y1 <> pb -> y2 <> nb -> y1 <> h -> y2 <> h -> linked_pair u' y1 y2).
  { intros H N1 N2 N3 N4. unfold linked_pair. fold (nxt u' y1) (prv u' y2). rewrite Hn, Hp, !decide_False by done. apply Hadj. rewrite <- app_assoc.
    change (HEAD :: l1 ++ (h :: l2) ++ [HEAD]) with ((HEAD :: l1) ++ [h] ++ (l2 ++ [HEAD])). rewrite adjacent_app, (adjacent_app _ _ [h]). tauto. }
  intros [Hy|[Hy|[[= <-] Hy2]]].
  - pose proof (adjacent_in _ _ _ Hy) as [I1 I2]. pose proof (adjacent_last _ _ _ Hnd1 Hy) as L1. rewrite last_head in L1. fold pb in L1.
    pose proof (adjacent_head _ _ _ Hnd1 Hy) as L2. cbn in L2. apply Hold; [by left|congruence| |by intros ->|by intros ->].
    intros ->. apply elem_of_app in Hnin as [Hb|Hb%list_elem_of_singleton]; [by apply (Hsub nb)|congruence].
  - pose proof (adjacent_in _ _ _ Hy) as [I1 I2]. pose proof (adjacent_last _ _ _ Hnd4 Hy) as L1. rewrite last_snoc in L1.
    pose proof (adjacent_head _ _ _ Hnd4 Hy) as L2. rewrite Hheadl in L2. apply Hold; [by right| |congruence|by intros ->|by intros ->].
    apply elem_of_app in I1 as [I1|I1%list_elem_of_singleton]; [|congruence]. intros ->. by apply (Hsub pb).
  - rewrite Hheadl in Hy2. injection Hy2 as <-. unfold linked_pair. fold (nxt u' pb) (prv u' nb). rewrite Hn, Hp, !decide_True by (done || by intros ->). done.
Qed.

Lemma unlink_refines h d a1 a2 (Q : unit -> E -> Prop) e : represents (handles_of e) (a1 ++ (h, d) :: a2) -> h ∉ map fst a1 -> h ∉ map fst a2 -> h <> HEAD ->
  (forall e', represents (handles_of e') (a1 ++ a2) -> dat (handles_of e') h = Some d -> Q tt e') -> twp (unlink_handle h) Q e.
Proof.
  intros Hr Hh1 Hh2 Hh HQ. pose proof Hr as [Hc Hd]. rewrite map_app in Hc. cbn [map fst] in Hc.
  destruct (circle_next _ _ _ _ Hc) as (x & Hx & Hn & Hp). destruct (circle_ends _ _ _ _ Hc) as [Hpb Hnb].
  set (nb := default HEAD (head (map fst a2))) in *. set (pb := default HEAD (last (map fst a1))) in *.
  assert (Hnh : nb <> h). { unfold nb. intros Heq. destruct (map fst a2) as [|b l2]; cbn in Heq; [done|]. subst b. apply Hh2, list_elem_of_here. }
  assert (Hph : pb <> h). { unfold pb. intros Heq. destruct (last (map fst a1)) as [b|] eqn:Hl; cbn in Heq; [|done]. subst b. by apply last_Some_elem_of in Hl. }
  unfold unlink_handle. apply twp_bind, (twp_load_handle _ x); [done|]. rewrite Hn, Hp. rewrite !(proj2 (Z.eqb_neq _ _)) by done. cbn [negb andb].
  apply twp_bind, twp_set_prev; [done|]. intros e1 P1 N1 D1.
  assert (Hx1 : exists x1, handles_of e1 !! h = Some x1 /\ wh_next x1 = nb /\ wh_prev x1 = pb).
  { specialize (P1 h). specialize (N1 h). rewrite decide_False in P1 by done. unfold prv, nxt in P1, N1. rewrite Hx in P1, N1. cbn in P1, N1.
    apply fmap_Some in N1 as (x1 & Hx1 & E1). rewrite Hx1 in P1. injection P1 as E2. exists x1. split_and!; [done|congruence..]. }
  destruct Hx1 as (x1 & Hx1 & E1 & E2). apply twp_bind, (twp_load_handle _ x1); [done|]. rewrite E1, E2.
  apply twp_bind, twp_set_next; [apply dat_some; rewrite D1; by apply dat_some|]. intros e2 N2 P2 D2.
  apply twp_bind, twp_set_prev; [apply dat_some; rewrite D2, D1; apply dat_some; by exists x|]. intros e3 P3 N3 D3.
  apply twp_set_next; [apply dat_some; rewrite D3, D2, D1; apply dat_some; by exists x|]. intros e4 N4 P4 D4.
  assert (Hdat : forall k, dat (handles_of e4) k = dat (handles_of e) k) by (intros k; by rewrite D4, D3, D2, D1).
  apply HQ; [|rewrite Hdat; apply Forall_app in Hd as [_ [Hd _]%Forall_cons]; exact Hd]. split.
  - rewrite map_app. apply (circle_without (handles_of e) _ _ h); [done|..]; intros k Hk.
    + rewrite N4, decide_False, N3, N2, N1 by done. done.
    + rewrite P4, P3, decide_False, P2, P1 by done. done.
  - eapply (represents_dat _ _ _ _ []); [done|done| |done]. intros q. rewrite app_nil_r, !elem_of_app, elem_of_cons. tauto.
Qed.

(** *** Handles that are cleaned *)

Lemma circle_same u u' l : (forall k, nxt u' k = nxt u k) -> (forall k, prv u' k = prv u k) -> circle u l -> circle u' l.
Proof.
  intros Hn Hp [Hnd Hadj]. split; [done|]. intros x y Hxy. unfold linked_pair. fold (nxt u' x) (prv u' y). rewrite Hn, Hp. by apply Hadj.
Qed.

Lemma cleanup_cleans h (Q : unit -> E -> Prop) e : is_Some (handles_of e !! h) ->
  (forall e', (forall k, nxt (handles_of e') k = nxt (handles_of e) k) -> (forall k, prv (handles_of e') k = prv (handles_of e) k) ->
     (forall k, dat (handles_of e') k = if decide (k = h) then clean_handle <$> dat (handles_of e) h else dat (handles_of e) k) -> Q tt e') ->
  twp (usb_cleanup_handle h) Q e.
Proof.
  intros [x Hx] HQ. unfold usb_cleanup_handle. apply twp_bind, (twp_load_handle _ x); [done|].
  assert (Hclose : forall p e1, handles_of e1 = handles_of e -> twp (close_pipe p) (fun _ e2 => handles_of e2 = handles_of e) e1).
  { intros p e1 H1. unfold close_pipe, when. destruct (negb _); [apply twp_modify; by rewrite wu_close_frame|by apply twp_ret]. }
  apply twp_bind. eapply twp_mono; [by apply Hclose|]. intros [] e1 H1. apply twp_bind. eapply twp_mono; [by apply Hclose|]. intros [] e2 H2.
  apply twp_bind. eapply twp_mono; [by apply Hclose|]. intros [] e3 H3. apply (twp_upd_handle_at _ _ x); [by rewrite H3|]. intros e4 H4. rewrite H3 in H4.
  apply HQ; intros k; unfold nxt, prv, dat; rewrite H4;
    (destruct (decide (k = h)) as [->|]; [rewrite lookup_insert_eq, ?Hx; done|by rewrite lookup_insert_ne]).
Qed.

(** A handle of the list that is cleaned. *)
Lemma cleanup_refines h d a1 a2 (Q : unit -> E -> Prop) e : represents (handles_of e) (a1 ++ (h, d) :: a2) -> h ∉ map fst a1 -> h ∉ map fst a2 ->
  (forall e', represents (handles_of e') (a1 ++ (h, clean_handle d) :: a2) -> Q tt e') -> twp (usb_cleanup_handle h) Q e.
Proof.
  intros [Hc Hd] H1 H2 HQ. apply Forall_app in Hd as [Hd1 [Hh Hd2]%Forall_cons]. change (dat (handles_of e) h = Some d) in Hh.
  apply cleanup_cleans; [apply dat_some; rewrite Hh; by eexists|]. intros e' Hn Hp Hdat. apply HQ. split.
  - rewrite map_app in *. by apply (circle_same (handles_of e)).
  - assert (Hother : forall l : list (Z * win_handle), h ∉ map fst l -> Forall (fun p => data <$> handles_of e !! fst p = Some (snd p)) l ->
              Forall (fun p => data <$> handles_of e' !! fst p = Some (snd p)) l).
    { intros l Hl Hf. rewrite Forall_forall in *. intros [k z] Hk. fold (dat (handles_of e') (fst (k, z))). rewrite Hdat, decide_False; [by apply Hf|].
      cbn. intros ->. apply Hl, list_elem_of_fmap. by exists (h, z). }
    apply Forall_app. split; [by apply Hother|]. apply Forall_cons. split; [|by apply Hother]. fold (dat (handles_of e') (fst (h, clean_handle d))). cbn [fst snd].
    by rewrite Hdat, decide_True, Hh.
Qed.

Lemma kick_from_refines fuel a1 a2 (Q : unit -> E -> Prop) e : represents (handles_of e) (a1 ++ a2) -> length a2 < fuel ->
  (forall e', represents (handles_of e') (a1 ++ spec_kick a2) -> Q tt e') -> twp (kick_from fuel (default HEAD (head (map fst a2)))) Q e.
Proof.
  revert fuel a1 e. induction a2 as [|[h d] a2 IH]; intros fuel a1 e Hr Hf HQ; (destruct fuel as [|fuel]; [cbn in Hf; lia|]); cbn [kick_from map fst head default].
  - by apply twp_ret, HQ.
  - destruct (represented_split _ _ h d Hr) as (b1 & b2 & Heq & Hb1 & Hb2 & Hh); [apply elem_of_app; right; apply list_elem_of_here|].
    rewrite (proj2 (Z.eqb_neq _ _)) by done. assert (Hnd : NoDup (map fst (a1 ++ (h, d) :: a2))) by (destruct Hr as [[[_ Hnd]%NoDup_cons _] _]; done).
    rewrite map_app in Hnd. cbn [map fst] in Hnd. apply NoDup_app in Hnd as (_ & Hdis & [Hn2 _]%NoDup_cons).
    assert (Hn1 : h ∉ map fst a1) by (intros Hin; apply (Hdis _ Hin), list_elem_of_here). clear b1 b2 Heq Hb1 Hb2.
    apply twp_bind, (cleanup_refines h d a1 a2); [done..|]. intros e1 H1. pose proof H1 as [Hc1 _]. rewrite map_app in Hc1. cbn [map fst] in Hc1.
    destruct (circle_next _ _ _ _ Hc1) as (x & Hx & Hnext & _). apply twp_bind, (twp_load_handle _ x); [done|]. rewrite Hnext.
    apply (IH fuel (a1 ++ [(h, clean_handle d)])); [by rewrite <- app_assoc|cbn in Hf; lia|]. intros e' He'. apply HQ. by rewrite <- app_assoc in He'.
Qed.

Lemma free_refines h a (Q : unit -> E -> Prop) e : represents (handles_of e) a -> h <> HEAD -> h ∉ map fst a ->
  (forall e', represents (handles_of e') a -> handles_of e' !! h = None -> Q tt e') -> twp (free_handle h) Q e.
Proof.
  intros [[Hnd Hadj] Hd] Hh Hn HQ. apply twp_modify, HQ; rewrite handles_of_put; [|apply lookup_delete_eq]. split; [split; [done|]|].
  - intros x y Hxy. pose proof (adjacent_in _ _ _ Hxy) as [Hx Hy]. assert (Hin : h ∉ HEAD :: map fst a ++ [HEAD]) by set_solver.
    unfold linked_pair. rewrite !lookup_delete_ne by (intros ->; done). by apply Hadj.
  - rewrite Forall_forall in *. intros [k z] Hk. cbn. rewrite lookup_delete_ne; [by apply (Hd (k, z))|]. intros ->. apply Hn, list_elem_of_fmap. by exists (k, z).
Qed.

Lemma close_refines h d a (Q : unit -> E -> Prop) e : represents (handles_of e) a -> (h, d) ∈ a ->
  (forall e', represents (handles_of e') (spec_close h a) -> handles_of e' !! h = None -> Q tt e') -> twp (usb_close h) Q e.
Proof.
  intros Hr Hin HQ. destruct (represented_split _ _ h d Hr Hin) as (a1 & a2 & -> & H1 & H2 & Hh). rewrite spec_close_split in HQ by done.
  apply twp_bind, (unlink_refines h d a1 a2); [done..|]. intros e1 R1 D1. apply twp_bind, cleanup_cleans; [apply dat_some; rewrite D1; by eexists|].
  intros e2 Hn Hp Hdat. assert (Hnot : h ∉ map fst (a1 ++ a2)) by (rewrite map_app; intros [?|?]%elem_of_app; done).
  apply (free_refines h (a1 ++ a2)); [|done|done|done]. destruct R1 as [Hc Hd]. split; [by apply (circle_same (handles_of e1))|].
  rewrite Forall_forall in *. intros [k z] Hk. fold (dat (handles_of e2) (fst (k, z))). rewrite Hdat, decide_False; [by apply Hd|].
  cbn. intros ->. apply Hnot, list_elem_of_fmap. by exists (h, z).
Qed.

Lemma map_kick_other h (l : list (Z * win_handle)) : h ∉ map fst l -> map (fun p => if decide (fst p = h) then (h, clean_handle (snd p)) else p) l = l.
Proof.
  induction l as [|[k z] l IH]; intros Hl; [done|]. apply not_elem_of_cons in Hl as [Hk Hl]. cbn in *. rewrite decide_False by congruence. by rewrite IH.
Qed.

(** *** The operations *)

Inductive list_op :=
| op_known (dev_name : option (list Z))
| op_register (h : Z) (d : win_handle)
| op_close (h : Z) (d : win_handle)
| op_kick (h : Z) (d : win_handle)
| op_kick_devices.

Definition done_with (m : M E unit) : M E bool := m ;;; ret true.

Definition run_list_op (fuel : nat) (o : list_op) : M E bool :=
  match o with
  | op_known n => known_device fuel n
  | op_register h _ => register_new_device fuel h
  | op_close h _ => done_with (usb_close h)
  | op_kick h _ => done_with (usb_kick h)
  | op_kick_devices => done_with (kick_devices fuel)
  end.

(** What an operation is used on: a new handle, or one of the list. *)
Definition op_fits (u : win_state) (a : list (Z * win_handle)) (o : list_op) : Prop :=
  match o with
  | op_register h d => h <> HEAD /\ h ∉ map fst a /\ dat u h = Some d
  | op_close h d | op_kick h d => (h, d) ∈ a
  | _ => True
  end.

Definition spec_after (o : list_op) (a : list (Z * win_handle)) : list (Z * win_handle) :=
  match o with
  | op_known _ => a
  | op_register h d => spec_register h d a
  | op_close h _ => spec_close h a
  | op_kick h _ => map (fun p => if decide (fst p = h) then (h, clean_handle (snd p)) else p) a
  | op_kick_devices => spec_kick a
  end.

Definition spec_result (o : list_op) (a : list (Z * win_handle)) : bool :=
  match o with
  | op_known n => spec_known n a
  | op_register _ d => negb (spec_known (interface_name d) a)
  | _ => true
  end.

(** C20: The circular list of the devices of a Windows host, with its pointers
    both ways and its head, is a list: looking for a name, adding a device at
    the end unless its name is known, taking one out and freeing it, and
    cleaning one or all of them do to the circle what they do to a list, no
    pointer is left to a handle that is freed, and every walk ends. *)
Theorem device_circle_refines fuel o a e : represents (handles_of e) a -> op_fits (handles_of e) a o -> length a < fuel ->
  twp (run_list_op fuel o) (fun r e' => represents (handles_of e') (spec_after o a) /\ r = spec_result o a) e.
Proof.
  intros Hr Hfit Hf. destruct o as [n|h d|h d|h d|]; cbn [run_list_op spec_after spec_result].
  - by apply (known_device_refines _ _ a).
  - destruct Hfit as (H1 & H2 & H3). by apply (register_refines _ _ d a).
  - apply twp_bind, (close_refines h d a); [done..|]. intros e' He' _. by apply twp_ret.
  - destruct (represented_split _ _ h d Hr Hfit) as (a1 & a2 & -> & H1 & H2 & Hh). apply twp_bind, (cleanup_refines h d a1 a2); [done..|].
    intros e' He'. apply twp_ret. split; [|done]. rewrite map_app. cbn [map fst snd]. rewrite decide_True by done. by rewrite !map_kick_other.
  - destruct (head_next _ _ (proj1 Hr)) as (x & Hx & Hn). apply twp_bind. unfold kick_devices. apply twp_bind, (twp_load_handle _ x); [done|]. rewrite Hn.
    apply (kick_from_refines fuel [] a); [done..|]. intros e' He'. by apply twp_ret.
Qed.

End Refines.

(** ** A host with three interfaces *)

Record windows_host := { wb_handles : win_state; wb_next : Z; wb_interfaces : list (list Z); wb_sizes : bool }.

Definition set_wb (u : win_state) (n : Z) (l : list (list Z)) (e : windows_host) : windows_host :=
  {| wb_handles := u; wb_next := n; wb_interfaces := l; wb_sizes := wb_sizes e |}.

#[export] Instance windows_fd_ops : FdOps windows_host := {
  adb_read _ _ e := (RdOk [], e);
  adb_write _ bs e := (WrOk (Zlen bs), e);
  adb_shutdown _ e := e;
  strerror _ := str "error";
}.
#[export] Instance windows_kernel : Kernel windows_host := { refusals _ _ := 0; pipe_put _ _ e := (true, e); pipe_get _ e := (None, e) }.
#[export] Instance windows_os : Os windows_host := {
  adb_socketpair e := (None, e);
  start_thread _ e := e;
  tmsg_put _ _ e := (true, e);
  tmsg_get _ e := (None, e);
  usb_kick _ e := e;
  usb_close _ e := e;
  notify_init_cv e := e;
  getenv _ := None;
  canonical_address host port := host ++ str ":" ++ dec port;
  set_tcp_keepalive _ _ e := e;
}.
#[export] Instance windows_state : WinUsbState windows_host := {
  handles_of := wb_handles;
  put_handles u e := set_wb u (wb_next e) (wb_interfaces e) e;
}.

(** [wu_lower] of letters; the second interface has the name of the first in
    capitals, the third is no device of adb. *)
#[export] Instance windows_api : WinUsbApi windows_host := {
  wu_malloc _ e := (Some (wb_next e), set_wb (wb_handles e) (wb_next e + 1) (wb_interfaces e) e);
  wu_lower c := if ((65 <=? c) && (c <=? 90))%Z then (c + 32)%Z else c;
  wu_create_interface n e := (match n with c :: _ => c | [] => 0%Z end, e);
  wu_open_read i e := ((i + 1000)%Z, e);
  wu_open_write i e := ((i + 2000)%Z, e);
  wu_name_length _ _ := 5%Z;
  wu_name i _ _ := Some [i; 100]%Z;
  wu_close _ e := e;
  wu_write _ bs _ e := (Some (Zlen bs), e);
  wu_read _ _ _ e := (Some (str "data"), e);
  wu_device_descriptor _ _ := true;
  wu_interface_descriptor i _ := Some {| wi_endpoints := 2; wi_class := if (i =? 122)%Z then 8 else 255; wi_subclass := 66; wi_protocol := 1 |};
  wu_endpoint_packet_size _ _ e := if wb_sizes e then Some 512%Z else None;
  wu_serial i _ := Some (str "serial" ++ dec i);
  wu_enum e := (7%Z, e);
  wu_next_interface _ e :=
    match wb_interfaces e with
    | [] => (None, e)
    | n :: rest => (Some n, set_wb (wb_handles e) (wb_next e) rest e)
    end;
}.

#[export] Instance windows_laws : WinUsbLaws windows_host.
Proof. by split. Qed.

Definition three_interfaces (sizes : bool) : windows_host :=
  {| wb_handles := {[HEAD := empty_handle HEAD]}; wb_next := 100; wb_interfaces := [[97; 100]; [65; 68]; [122; 1]; [98; 100]]%Z; wb_sizes := sizes |}.

#[local] Instance windows_server : Build := server_build.

(** The devices in the order of the list, with the sizes of their packets. *)
Fixpoint devices_from (fuel : nat) (u : win_state) (h : Z) : list (Z * option (list Z) * Z) :=
  match fuel with
  | O => []
  | S f => match u !! h with
           | Some x => if (h =? HEAD)%Z then [] else (h, interface_name x, wh_max_packet_size x) :: devices_from f u (wh_next x)
           | None => []
           end
  end.

Definition found_devices (sizes : bool) : option (list (Z * option (list Z) * Z)) :=
  match find_devices 20 (Demo.idle_world false [] ∅ (three_interfaces sizes)) with
  | Done _ w => let u := wb_handles (w_env w) in match u !! HEAD with Some x => Some (devices_from 20 u (wh_next x)) | None => None end
  | _ => None
  end.

Example three_found : found_devices true = Some [(100%Z, Some [97; 100]%Z, 512%Z); (104%Z, Some [98; 100]%Z, 512%Z)].
Proof. by vm_compute. Qed.

(** When the size of the packets is not known the device is used all the same. *)
Example no_packet_size : found_devices false = Some [(100%Z, Some [97; 100]%Z, 0%Z); (104%Z, Some [98; 100]%Z, 0%Z)].
Proof. by vm_compute. Qed.

(** Two devices in the list. *)
Definition in_circle (p n : Z) (name : list Z) : win_handle := set_wh_prev p (set_wh_next n (set_interface_name (Some name) (empty_handle 0))).
Definition two_devices : win_state :=
  {[ HEAD := set_wh_prev 6 (set_wh_next 5 (empty_handle HEAD)); 5%Z := in_circle HEAD 6 [97%Z]; 6%Z := in_circle 5 HEAD [98%Z] ]}.
Definition two_host : windows_host := {| wb_handles := two_devices; wb_next := 10; wb_interfaces := []; wb_sizes := true |}.
Definition two_data : list (Z * win_handle) := [(5%Z, data (in_circle HEAD 6 [97%Z])); (6%Z, data (in_circle 5 HEAD [98%Z]))].

Lemma two_represented : represents (handles_of two_host) two_data.
Proof.
  split; [split|].
  - apply (bool_decide_unpack _). by vm_compute.
  - intros x y [[-> ->]|[[-> ->]|[[-> ->]|[]]]]; by split; vm_compute.
  - repeat (apply Forall_cons; split; [by vm_compute|]). by apply Forall_nil.
Qed.

Lemma device_circle_refines_witness :
  twp (run_list_op 3 (op_close 5 (data (in_circle HEAD 6 [97%Z]))))
    (fun r e' => represents (handles_of e') (spec_after (op_close 5 (data (in_circle HEAD 6 [97%Z]))) two_data) /\
       r = spec_result (op_close 5 (data (in_circle HEAD 6 [97%Z]))) two_data) two_host.
Proof. exact (device_circle_refines 3 (op_close 5 _) two_data two_host two_represented (list_elem_of_here _ _) ltac:(cbn; lia)). Defined.
