(* ===== verification/AuthKeys.v ===== *)
(** * The keys of the server (adb_auth_host.cpp)

    The key of the user, which is made when there is none, the keys in the files
    and directories of [$ADB_VENDOR_KEYS], and the watching of those
    directories.  The globals are [g_keys], a [std::map] from fingerprints to
    keys, and [g_monitored_paths]. *)

From S2P Require Import Prelude LibBase Packet AdbIo FdEvent Transport World SmartText.
From S2P Require Import Sockets SocketIo SocketSpec Listeners TransportOps Registration Connection.

(** ** Strings in the order of [std::less] *)

Fixpoint string_lt (s t : bytes) : bool :=
  match s, t with
  | _, [] => false
  | [], _ :: _ => true
  | a :: s', b :: t' => if (byte_val a <? byte_val b)%Z then true else if (byte_val a =? byte_val b)%Z then string_lt s' t' else false
  end.

(** [std::map::operator[]] and an assignment: an entry with this key is replaced. *)
Fixpoint map_insert {A} (k : bytes) (v : A) (l : list (bytes * A)) : list (bytes * A) :=
  match l with
  | [] => [(k, v)]
  | (k', v') :: rest =>
      if string_lt k k' then (k, v) :: l
      else if bool_decide (k = k') then (k, v) :: rest
      else (k', v') :: map_insert k v rest
  end.

(** [std::set::emplace] *)
Fixpoint set_insert (k : bytes) (l : list bytes) : list bytes :=
  match l with
  | [] => [k]
  | k' :: rest => if string_lt k k' then k :: l else if bool_decide (k = k') then l else k' :: set_insert k rest
  end.

Inductive file_type := RegularFile | Directory | OtherFile.

(** Files, OpenSSL and inotify.  [ks_fopen_r] gives the text of the file; a key
    that is written goes to a file that [ks_fopen_w] opened.  [i2d_RSA_PUBKEY]
    and [android_pubkey_encode] may fail; [EVP_EncodeBlock] is base64. *)
Class KeyStore (E : Type) := {
  ks_stat : bytes -> E -> option file_type;
  ks_names : bytes -> E -> option (list bytes);
  ks_fopen_r : bytes -> E -> option bytes;
  ks_fopen_w : bytes -> E -> bool * E;
  ks_umask : Z -> E -> Z * E;
  WriteStringToFile : bytes -> bytes -> E -> bool * E;
  RSA_generate_key_ex : E -> option loc * E;
  PEM_write_PrivateKey : bytes -> loc -> E -> bool * E;
  PEM_read_RSAPrivateKey : bytes -> E -> option loc * E;
  RSA_free : loc -> E -> E;
  i2d_RSA_PUBKEY : loc -> E -> option bytes;
  SHA256 : bytes -> bytes;
  android_pubkey_encode : loc -> E -> option bytes;
  EVP_EncodeBlock : bytes -> option bytes;
  gethostname : option bytes;
  getlogin : option bytes;
  inotify_init1 : E -> Z * E;
  inotify_add_watch : Z -> bytes -> Z -> E -> Z * E;
}.

Definition IN_MOVED_TO : Z := 128.
Definition IN_CREATE : Z := 256.
Definition IN_ISDIR : Z := 2 ^ 30.
Definition INOTIFY_EVENT_SIZE : Z := 16.
Definition NAME_MAX : Z := 255.

(** The fields of an [inotify_event], with the name behind it. *)
Record inotify_event := { ev_wd : Z; ev_mask : Z; ev_cookie : Z; ev_len : Z; ev_name : bytes }.

Section AuthKeys.
Context {E : Type} {K : Kernel E} {B : Build} {LB : LibBase} {OS : Os E} {CR : Crypto E} {KS : KeyStore E}.
Abbreviation W := (world E).

Definition key_call {A} (f : E -> A * E) : M E A := fun e => let '(a, e') := f e in Done a e'.

(** ** Making a key *)

Definition get_user_info : bytes :=
  let hostname := default [] (getenv (str "HOSTNAME")) in
  let hostname := match hostname with [] => default [] gethostname | _ => hostname end in
  let hostname := match hostname with [] => str "unknown" | _ => hostname end in
  let username := default [] (getenv (str "LOGNAME")) in
  let username := match username with [] => default [] getlogin | _ => username end in
  let hostname := match username with [] => str "unknown" | _ => hostname end in
  str " " ++ username ++ str "@" ++ hostname.

Definition write_public_keyfile (private_key : loc) (private_key_path : bytes) : M E bool :=
  let* binary_key_data := gets (android_pubkey_encode private_key) in
  match binary_key_data with
  | None => ret false
  | Some d =>
      match EVP_EncodeBlock d with
      | None => ret false
      | Some content => key_call (WriteStringToFile (content ++ get_user_info) (private_key_path ++ str ".pub"))
      end
  end.

(** The file is only for its owner; [RSA_free] stands for all that is freed. *)
Definition generate_key (file : bytes) : M E bool :=
  let* rsa := key_call RSA_generate_key_ex in
  match rsa with
  | None => ret false
  | Some rsa =>
      let* old_mask := key_call (ks_umask 63) in
      let* f := key_call (ks_fopen_w file) in
      let* _ := key_call (ks_umask old_mask) in
      let* r :=
        if negb f then ret false else
        let* written := key_call (PEM_write_PrivateKey file rsa) in
        if negb written then ret false else write_public_keyfile rsa file in
      modify (RSA_free rsa) ;;;
      ret r
  end.

Definition adb_auth_keygen (filename : bytes) : M E bool := let* r := generate_key filename in ret (negb r).

(** ** Loading keys *)

(** An empty string when the key cannot be encoded. *)
Definition hash_key (key : loc) (e : E) : bytes :=
  match i2d_RSA_PUBKEY key e with Some pubkey => SHA256 pubkey | None => [] end.

Definition add_key (key : loc) : M W unit :=
  let* w := get in
  let fingerprint := hash_key key (w_env w) in
  if existsb (fun x => bool_decide (fst x = fingerprint)) (g_keys (w_globals w))
  then run_env (RSA_free key)
  else upd_globals (fun g => set_g_keys (map_insert fingerprint key (g_keys g)) g).

Definition read_key_file (file : bytes) : M W bool :=
  let* w := get in
  match ks_fopen_r file (w_env w) with
  | None => ret false
  | Some text =>
      let* key := on_env (key_call (PEM_read_RSAPrivateKey text)) in
      match key with
      | None => ret false
      | Some key => add_key key ;;; ret true
      end
  end.

(** The entries of a directory that are loaded. *)
Definition key_name (name : bytes) : bool :=
  negb (bool_decide (name = str ".")) && negb (bool_decide (name = str "..")) && EndsWith name (str ".adb_key").

Fixpoint read_key_files (files : list bytes) : M W bool :=
  match files with
  | [] => ret false
  | file :: rest => let* r := read_key_file file in let* r' := read_key_files rest in ret (r || r')
  end.

Definition read_keys (path : bytes) (allow_dir : bool) : M W bool :=
  let* w := get in
  match ks_stat path (w_env w) with
  | None => ret false
  | Some RegularFile => read_key_file path
  | Some Directory =>
      if negb allow_dir then ret false else
      match ks_names path (w_env w) with
      | None => ret false
      | Some names => read_key_files (map (fun name => path ++ str "/" ++ name) (filter (fun name => key_name name = true) names))
      end
  | Some OtherFile => ret false
  end.

Definition get_user_key : M W bool :=
  let path := get_user_key_path in
  if bool_decide (path = []) then ret false else
  let* w := get in
  let* there :=
    match ks_stat path (w_env w) with
    | Some _ => ret true
    | None => on_env (generate_key path)
    end in
  if negb there then ret false else read_key_file path.

(** The paths of [$ADB_VENDOR_KEYS], in order and each once. *)
Definition get_vendor_keys : list bytes :=
  match vendor_keys with
  | None => []
  | Some adb_keys_path => fold_left (fun l path => set_insert path l) (Split adb_keys_path (byte_of 58)) []
  end.

(** ** Watching for new keys *)

(** An event at the start of the buffer, and what is behind it; the name ends
    at a NUL. *)
Definition take_event (buf : bytes) : option (inotify_event * bytes) :=
  if (Zlen buf <? INOTIFY_EVENT_SIZE)%Z then None else
  let len := le_decode (take 4 (drop 12 buf)) in
  if (0 <? len)%Z && negb (bool_decide (NUL ∈ drop 16 buf)) then None else
  Some ({| ev_wd := i32 (le_decode (take 4 buf)); ev_mask := le_decode (take 4 (drop 4 buf));
           ev_cookie := le_decode (take 4 (drop 8 buf)); ev_len := len; ev_name := if (0 <? len)%Z then c_str (drop 16 buf) else [] |},
        drop (Z.to_nat (INOTIFY_EVENT_SIZE + len)) buf).

Definition handle_inotify (event : inotify_event) : M W unit :=
  let* w := get in
  match g_monitored_paths (w_globals w) !! ev_wd event with
  | None => fatal "observed inotify event for unmonitored path"
  | Some root =>
      let path := if (0 <? ev_len event)%Z then root ++ str "/" ++ ev_name event else root in
      if negb (Z.land (ev_mask event) (Z.lor IN_CREATE IN_MOVED_TO) =? 0)%Z then
        if negb (Z.land (ev_mask event) IN_ISDIR =? 0)%Z then ret tt
        else let* _ := read_keys path false in ret tt
      else ret tt
  end.

(** The events of one [read]. *)
Fixpoint inotify_events (fuel : nat) (buf : bytes) : M W unit :=
  match buf with
  | [] => ret tt
  | _ =>
      match fuel with
      | O => no_fuel
      | S f =>
          match take_event buf with
          | None => crash "inotify event outside buf"
          | Some (event, rest) => handle_inotify event ;;; inotify_events f rest
          end
      end
  end.

(** [TEMP_FAILURE_RETRY]: a read that was interrupted is repeated. *)
Fixpoint inotify_reads (fuel : nat) (fd : Z) : M W unit :=
  match fuel with
  | O => no_fuel
  | S f =>
      let* rc := on_env (sys_read fd (INOTIFY_EVENT_SIZE + NAME_MAX + 1)) in
      match rc with
      | RdErr EINTR => inotify_reads f fd
      | RdErr EAGAIN => ret tt
      | RdErr _ => fatal "read of inotify event failed"
      | RdOk buf => inotify_events (length buf) buf ;;; inotify_reads f fd
      end
  end.

Definition adb_auth_inotify_update (fuel : nat) (fd ev : Z) : M W unit := when (flag ev FDE_READ) (inotify_reads fuel fd).

Definition watch_path (infd : Z) (path : bytes) : M W unit :=
  let* wd := on_env (key_call (inotify_add_watch infd path (Z.lor IN_CREATE IN_MOVED_TO))) in
  when (0 <=? wd)%Z (upd_globals (fun g => set_g_monitored_paths (<[wd := path]> (g_monitored_paths g)) g)).

Definition adb_auth_inotify_init (paths : list bytes) : M W unit :=
  let* infd := on_env (key_call inotify_init1) in
  if (infd <? 0)%Z then ret tt else
  iter_list (watch_path infd) paths ;;;
  let* event := alloc in
  let* _ := on_fds (fdevent_create event infd fn_auth_inotify) in
  on_fds (fdevent_add event FDE_READ).

Definition adb_auth_init : M W unit :=
  let* ok := get_user_key in
  if negb ok then ret tt else
  adb_auth_inotify_init get_vendor_keys ;;;
  iter_list (fun path => let* _ := read_keys path true in ret tt) get_vendor_keys.

End AuthKeys.
