(* ===== verification/AuthKeysProps.v ===== *)
(** * Properties of the keys of the server

    What files and OpenSSL promise ([KeyLaws]), the ring of keys as an ordered
    map ([keyring_ok]), and what is in it after the server has started, or a
    watched directory has changed. *)

From S2P Require Import Prelude LibBase Packet AdbIo FdEvent Transport World SmartText Sockets SocketIo SocketSpec Listeners.
From S2P Require Import TransportOps Registration Connection Demo AuthKeys.
From stdpp Require Import sorting.

(** ** Ordered maps of strings *)

Lemma string_lt_irrefl s : string_lt s s = false.
Proof. induction s as [|a s IH]; [done|]. cbn. by rewrite Z.ltb_irrefl, Z.eqb_refl. Qed.

Lemma string_lt_total s t : string_lt s t = false -> s <> t -> string_lt t s = true.
Proof.
  revert t. induction s as [|a s IH]; intros [|b t] H Hn; [done..|]. cbn in *.
  destruct (Z.ltb_spec (byte_val a) (byte_val b)); [done|]. destruct (Z.ltb_spec (byte_val b) (byte_val a)) as [|Hle]; [done|].
  assert (byte_val a = byte_val b) as Heq by lia. apply byte_val_inj in Heq as ->. rewrite Z.eqb_refl in *. apply IH; [done|congruence].
Qed.

Lemma string_lt_trans s t u : string_lt s t = true -> string_lt t u = true -> string_lt s u = true.
Proof.
  revert t u. induction s as [|a s IH]; intros [|b t] [|c u] H1 H2; [done..|]. cbn in *.
  destruct (Z.ltb_spec (byte_val a) (byte_val b)), (Z.ltb_spec (byte_val b) (byte_val c)).
  - rewrite (proj2 (Z.ltb_lt _ _)) by lia. done.
  - destruct (Z.eqb_spec (byte_val b) (byte_val c)); [|done]. rewrite (proj2 (Z.ltb_lt _ _)) by lia. done.
  - destruct (Z.eqb_spec (byte_val a) (byte_val b)); [|done]. rewrite (proj2 (Z.ltb_lt _ _)) by lia. done.
  - destruct (Z.eqb_spec (byte_val a) (byte_val b)) as [He|]; [|done]. destruct (Z.eqb_spec (byte_val b) (byte_val c)) as [He'|]; [|done].
    rewrite He, He', Z.ltb_irrefl, Z.eqb_refl. by eapply IH.
Qed.

Section Ordered.
Context {A : Type}.
Implicit Types (l : list (bytes * A)).

Definition below (x y : bytes * A) : Prop := string_lt (fst x) (fst y) = true.
Definition ordered l : Prop := StronglySorted below l.

Lemma map_insert_new k v l : ordered l -> k ∉ map fst l -> ordered (map_insert k v l) /\ forall x, x ∈ map_insert k v l <-> x = (k, v) \/ x ∈ l.
Proof.
  unfold ordered. induction l as [|[k' v'] l IH]; intros Ho Hn.
  - split; [repeat constructor|]. intros x. cbn. by rewrite list_elem_of_singleton, elem_of_nil; tauto.
  - cbn [map fst] in Hn. apply not_elem_of_cons in Hn as [Hne Hn]. apply StronglySorted_inv in Ho as [Ho Hb]. cbn [map_insert].
    destruct (string_lt k k') eqn:Hlt; [|rewrite bool_decide_eq_false_2 by done].
    + split; [|by intros; rewrite elem_of_cons]. constructor; [by constructor|]. constructor; [done|].
      eapply Forall_impl; [exact Hb|]. intros y Hy. by eapply string_lt_trans.
    + apply IH in Ho as [Ho Hin]; [|done]. split; [|intros x; rewrite !elem_of_cons, Hin; tauto].
      constructor; [done|]. rewrite Forall_forall in *. intros x [->|Hx]%Hin; [by apply string_lt_total|by apply Hb].
Qed.

Lemma ordered_unique l k v v' : ordered l -> (k, v) ∈ l -> (k, v') ∈ l -> v = v'.
Proof.
  induction 1 as [|x l Ho IH Hb]; intros H1 H2; [by apply not_elem_of_nil in H1|]. rewrite Forall_forall in Hb.
  apply elem_of_cons in H1 as [H1|H1]; apply elem_of_cons in H2 as [H2|H2]; [congruence| | |by apply IH].
  - subst x. apply Hb in H2. unfold below in H2. cbn in H2. by rewrite string_lt_irrefl in H2.
  - subst x. apply Hb in H1. unfold below in H1. cbn in H1. by rewrite string_lt_irrefl in H1.
Qed.
End Ordered.

(** ** What the code relies on

    [live]: the keys that are allocated.  [parse]: what OpenSSL makes of the
    text of a file; within, its encoding, if it has one. *)
Record same_files {E} {KS : KeyStore E} (e e' : E) : Prop := {
  sf_stat p : ks_stat p e' = ks_stat p e;
  sf_names p : ks_names p e' = ks_names p e;
  sf_read p : ks_fopen_r p e' = ks_fopen_r p e;
}.

(** The keys that are there stay as they are. *)
Definition keeps_keys {E} {KS : KeyStore E} (live : E -> gset loc) (e e' : E) : Prop :=
  forall k, k ∈ live e -> k ∈ live e' /\ i2d_RSA_PUBKEY k e' = i2d_RSA_PUBKEY k e.

Class KeyLaws (E : Type) {KS : KeyStore E} (live : E -> gset loc) (parse : bytes -> option (option bytes)) := {
  kl_read text e r e' : PEM_read_RSAPrivateKey text e = (r, e') ->
    same_files e e' /\ keeps_keys live e e' /\
    match r with
    | Some k => k ∉ live e /\ k ∈ live e' /\ parse text = Some (i2d_RSA_PUBKEY k e')
    | None => parse text = None
    end;
  kl_free k e : same_files e (RSA_free k e) /\
    forall k', k' <> k -> k' ∈ live e -> k' ∈ live (RSA_free k e) /\ i2d_RSA_PUBKEY k' (RSA_free k e) = i2d_RSA_PUBKEY k' e;
  kl_generate e r e' : RSA_generate_key_ex e = (r, e') -> keeps_keys live e e' /\ match r with Some k => k ∉ live e | None => True end;
  kl_umask m e : keeps_keys live e (snd (ks_umask m e));
  kl_fopen p e : keeps_keys live e (snd (ks_fopen_w p e));
  kl_write p k e : keeps_keys live e (snd (PEM_write_PrivateKey p k e));
  kl_public s p e : keeps_keys live e (snd (WriteStringToFile s p e));
  kl_init e : same_files e (snd (inotify_init1 e)) /\ keeps_keys live e (snd (inotify_init1 e));
  kl_watch fd p m e : same_files e (snd (inotify_add_watch fd p m e)) /\ keeps_keys live e (snd (inotify_add_watch fd p m e));
}.

Section Props.
Context {E : Type} {K : Kernel E} {B : Build} {LB : LibBase} {OS : Os E} {CR : Crypto E} {KS : KeyStore E}.
Context {live : E -> gset loc} {parse : bytes -> option (option bytes)} {KL : KeyLaws E live parse}.
Abbreviation W := (world E).
Implicit Types (w : W) (e : E).

#[local] Instance same_files_refl : Reflexive (same_files (E := E)).
Proof. by intros e; split. Qed.
#[local] Instance same_files_trans : Transitive (same_files (E := E)).
Proof. intros e1 e2 e3 [H1 H2 H3] [H4 H5 H6]. split; intros p; congruence. Qed.

Definition keys w : list (bytes * loc) := g_keys (w_globals w).
Definition prints w : gset bytes := list_to_set (map fst (keys w)).

(** The keys are in the order of their fingerprints, and those are theirs. *)
Record keyring_ok w : Prop := {
  kr_ordered : ordered (keys w);
  kr_print fp k : (fp, k) ∈ keys w -> k ∈ live (w_env w) /\ hash_key k (w_env w) = fp;
}.

(** *** By definition *)

Definition print_of (text : bytes) : option bytes :=
  match parse text with
  | Some (Some pubkey) => Some (SHA256 pubkey)
  | Some None => Some []
  | None => None
  end.

Definition file_print (e : E) (path : bytes) : option bytes := match ks_fopen_r path e with Some text => print_of text | None => None end.
Definition file_prints e (path : bytes) : gset bytes := match file_print e path with Some fp => {[fp]} | None => ∅ end.
Definition key_files e (path : bytes) (allow_dir : bool) : list bytes :=
  match ks_stat path e with
  | Some RegularFile => [path]
  | Some Directory =>
      if allow_dir then map (fun name => path ++ str "/" ++ name) (filter (fun name => key_name name = true) (default [] (ks_names path e)))
      else []
  | _ => []
  end.
Definition path_prints e (path : bytes) (allow_dir : bool) : gset bytes := ⋃ map (file_prints e) (key_files e path allow_dir).

(** The ring after [F] was loaded. *)
Record grew (F : gset bytes) w w' : Prop := {
  gr_ok : keyring_ok w';
  gr_prints : prints w' = prints w ∪ F;
  gr_old x : x ∈ keys w -> x ∈ keys w';
  gr_files : same_files (w_env w) (w_env w');
}.

(** Nothing else has happened. *)
Record loaded (F : gset bytes) w w' : Prop := {
  ld_grew : grew F w w';
  ld_frame : w' = set_w_globals (set_g_keys (keys w') (w_globals w)) (set_w_env (w_env w') w);
}.

Lemma grew_trans F G w1 w2 w3 : grew F w1 w2 -> grew G w2 w3 -> grew (F ∪ G) w1 w3.
Proof. intros [H1 H2 H3 H4] [G1 G2 G3 G4]. split; [done|by rewrite G2, H2, (assoc_L (∪))|auto|by etrans]. Qed.

Lemma loaded_trans F G w1 w2 w3 : loaded F w1 w2 -> loaded G w2 w3 -> loaded (F ∪ G) w1 w3.
Proof. intros [H1 H2] [G1 G2]. split; [by eapply grew_trans|]. rewrite G2 at 1. rewrite H2. done. Qed.

(** Only the environment has changed. *)
Lemma env_kept w e : keyring_ok w ->
  (forall k, k ∈ map snd (keys w) -> k ∈ live (w_env w) -> k ∈ live e /\ i2d_RSA_PUBKEY k e = i2d_RSA_PUBKEY k (w_env w)) -> keyring_ok (set_w_env e w).
Proof.
  intros Hok Hk. split; [exact (kr_ordered _ Hok)|]. intros fp k Hin. destruct (kr_print _ Hok _ _ Hin) as [Hl <-].
  destruct (Hk k) as [H1 H2]; [by apply (list_elem_of_fmap_2 snd _ _ Hin)|done|]. split; [done|]. unfold hash_key. cbn. by rewrite H2.
Qed.

Lemma env_loaded w e : keyring_ok w -> same_files (w_env w) e ->
  (forall k, k ∈ map snd (keys w) -> k ∈ live (w_env w) -> k ∈ live e /\ i2d_RSA_PUBKEY k e = i2d_RSA_PUBKEY k (w_env w)) -> loaded ∅ w (set_w_env e w).
Proof.
  intros Hok Hf Hk. split; [|by destruct w as [? ? ? ? ? ? ? ? ? ? ? ? ? ? ? ? ? []]]. split; [by apply env_kept|by rewrite union_empty_r_L|done..].
Qed.

Lemma loaded_refl w : keyring_ok w -> loaded ∅ w w.
Proof. intros H. assert (w = set_w_env (w_env w) w) as Hw by by destruct w. rewrite Hw at 2. by apply env_loaded. Qed.

Lemma elem_of_prints w fp : fp ∈ prints w <-> exists k, (fp, k) ∈ keys w.
Proof.
  unfold prints. rewrite elem_of_list_to_set. split; [|by intros [k Hk]; apply (list_elem_of_fmap_2 fst _ _ Hk)].
  intros ([fp' k] & -> & Hk)%list_elem_of_fmap. by exists k.
Qed.

(** A key that was just read is added or freed. *)
Lemma add_key_loads k w : keyring_ok w -> k ∉ map snd (keys w) -> k ∈ live (w_env w) ->
  twp (add_key k) (fun _ w' => loaded {[hash_key k (w_env w)]} w w') w.
Proof.
  intros Hok Hk Hl. unfold add_key. apply twp_bind, twp_get. set (fp := hash_key k (w_env w)).
  destruct (existsb _ _) eqn:Hex.
  - apply existsb_exists in Hex as ([fp' k'] & Hin & Heq%bool_decide_eq_true). cbn in Heq. subst fp'. apply list_elem_of_In in Hin.
    apply twp_on_env, twp_modify. destruct (kl_free k (w_env w)) as [Hf Hother].
    assert (H0 : loaded ∅ w (set_w_env (RSA_free k (w_env w)) w)) by (apply env_loaded; [done..|]; intros k1 H1 H2; apply Hother; [by intros ->|done]).
    destruct H0 as [[H1 H2 H3 H4] H5]. split; [split; [done| |done..]|done].
    assert (fp ∈ prints w) by (apply elem_of_prints; by exists k'). rewrite H2. set_solver.
  - assert (Hnew : fp ∉ map fst (keys w)).
    { intros ([fp' k'] & Heq & Hin)%list_elem_of_fmap. apply Bool.not_true_iff_false in Hex. apply Hex, existsb_exists.
      exists (fp', k'). split; [by apply list_elem_of_In|by apply bool_decide_eq_true]. }
    destruct (map_insert_new fp k (keys w) (kr_ordered _ Hok) Hnew) as [Ho Hin]. unfold upd_globals. apply twp_modify. split; [split|].
    + split; [exact Ho|]. intros fp1 k1 [Heq|H1]%Hin; [injection Heq as -> ->; by split|by apply Hok].
    + apply set_eq. intros fp1. rewrite elem_of_union, elem_of_singleton, !elem_of_prints. setoid_rewrite Hin.
      split; [intros [k1 [Heq|H1]]; [right; congruence|left; by exists k1]|intros [[k1 H1]| ->]; [exists k1; tauto|exists k; tauto]].
    + intros x Hx. apply Hin. tauto.
    + done.
    + by destruct w.
Qed.

Lemma read_key_file_loads file w : keyring_ok w ->
  twp (read_key_file file) (fun r w' => r = bool_decide (is_Some (file_print (w_env w) file)) /\ loaded (file_prints (w_env w) file) w w') w.
Proof.
  intros Hok. unfold read_key_file, file_prints, file_print. apply twp_bind, twp_get. destruct (ks_fopen_r file (w_env w)) as [text|]; [|apply twp_ret; split; [done|by apply loaded_refl]].
  apply twp_bind, twp_on_env. unfold twp, key_call. destruct (PEM_read_RSAPrivateKey text (w_env w)) as [r e'] eqn:Hr.
  destruct (kl_read _ _ _ _ Hr) as (Hf & Hother & Hnew). set (w1 := set_w_env e' w).
  assert (H1 : loaded ∅ w w1) by (apply env_loaded; [done..|]; intros k _; apply Hother).
  unfold print_of. destruct r as [k|]; [destruct Hnew as (Hk & Hl & ->)|rewrite Hnew; by apply twp_ret].
  apply twp_bind. eapply twp_mono; [apply (add_key_loads k w1); [apply H1| |done]|].
  - intros ([fp k'] & -> & Hin)%list_elem_of_fmap. cbn in Hk. by apply Hk, (kr_print _ Hok fp).
  - intros [] w' Hw. apply twp_ret. pose proof (loaded_trans _ _ _ _ _ H1 Hw) as Hw'. rewrite union_empty_l_L in Hw'.
    unfold hash_key in Hw'. cbn in Hw'. by destruct (i2d_RSA_PUBKEY k e').
Qed.

Lemma file_prints_same e e' p : same_files e e' -> file_prints e' p = file_prints e p.
Proof. intros [_ _ H]. unfold file_prints, file_print. by rewrite H. Qed.

Lemma read_key_files_loads files w : keyring_ok w ->
  twp (read_key_files files) (fun r w' => r = existsb (fun p => bool_decide (is_Some (file_print (w_env w) p))) files /\
                                loaded (⋃ map (file_prints (w_env w)) files) w w') w.
Proof.
  revert w. induction files as [|p files IH]; intros w Hok; [apply twp_ret; split; [done|by apply loaded_refl]|].
  cbn [read_key_files]. apply twp_bind. eapply twp_mono; [by apply read_key_file_loads|]. intros r w1 [-> H1].
  apply twp_bind. eapply twp_mono; [apply IH, H1|]. intros r' w2 [-> H2]. apply twp_ret.
  assert (Hp : forall q, file_print (w_env w1) q = file_print (w_env w) q) by (intros q; unfold file_print; by rewrite (sf_read _ _ (gr_files _ _ _ (ld_grew _ _ _ H1)))).
  split.
  - cbn [existsb]. f_equal. clear -Hp. induction files as [|q files IH]; [done|]. cbn. by rewrite Hp, IH.
  - pose proof (loaded_trans _ _ _ _ _ H1 H2) as H3. replace (map (file_prints (w_env w1)) files) with (map (file_prints (w_env w)) files) in H3; [done|].
    apply map_ext. intros q. unfold file_prints. by rewrite Hp.
Qed.

Lemma read_keys_loads path allow_dir w : keyring_ok w ->
  twp (read_keys path allow_dir) (fun r w' => r = existsb (fun p => bool_decide (is_Some (file_print (w_env w) p))) (key_files (w_env w) path allow_dir) /\
                                    loaded (path_prints (w_env w) path allow_dir) w w') w.
Proof.
  intros Hok. unfold read_keys, path_prints, key_files. apply twp_bind, twp_get.
  assert (Hnone : twp (ret false) (fun r w' => r = false /\ loaded ∅ w w') w) by (apply twp_ret; split; [done|by apply loaded_refl]).
  destruct (ks_stat path (w_env w)) as [[]|]; [|destruct allow_dir; [|done]|done..].
  - eapply twp_mono; [by apply read_key_file_loads|]. intros r w' [-> H]. cbn. by rewrite union_empty_r_L, orb_false_r.
  - destruct (ks_names path (w_env w)) as [names|]; [|done]. by apply read_key_files_loads.
Qed.

(** *** The start of the server *)

Lemma path_prints_same e e' p b : same_files e e' -> path_prints e' p b = path_prints e p b.
Proof.
  intros Hf. unfold path_prints, key_files. rewrite (sf_stat _ _ Hf), (sf_names _ _ Hf). f_equal. apply map_ext. intros q. by apply file_prints_same.
Qed.

Lemma read_all_loads paths w : keyring_ok w ->
  twp (iter_list (fun path => let* _ := read_keys path true in ret tt) paths)
    (fun _ w' => loaded (⋃ map (fun p => path_prints (w_env w) p true) paths) w w') w.
Proof.
  revert w. induction paths as [|p paths IH]; intros w Hok; [by apply twp_ret, loaded_refl|]. cbn [iter_list].
  apply twp_bind, twp_bind. eapply twp_mono; [by apply read_keys_loads|]. intros r w1 [_ H1]. apply twp_ret.
  eapply twp_mono; [apply IH, H1|]. intros [] w2 H2. cbn [map union_list foldr].
  eapply loaded_trans; [exact H1|]. replace (map _ paths) with (map (fun q => path_prints (w_env w1) q true) paths); [done|].
  apply map_ext. intros q. apply path_prints_same, H1.
Qed.

Definition keeps (m : M E bool) : Prop := forall e, twp m (fun _ e' => keeps_keys live e e') e.

#[local] Instance keeps_refl : Reflexive (keeps_keys (E := E) live).
Proof. by intros e k Hk. Qed.
#[local] Instance keeps_trans : Transitive (keeps_keys (E := E) live).
Proof. intros e1 e2 e3 H1 H2 k Hk. destruct (H1 k Hk) as [H3 H4], (H2 k (proj1 (H1 k Hk))) as [H5 H6]. split; [done|congruence]. Qed.

Lemma twp_key_call {A} (f : E -> A * E) (Q : A -> E -> Prop) e : Q (fst (f e)) (snd (f e)) -> twp (key_call f) Q e.
Proof. unfold twp, key_call. by destruct (f e). Qed.

Lemma write_public_keeps k p e : twp (write_public_keyfile k p) (fun _ e' => keeps_keys live e e') e.
Proof.
  unfold write_public_keyfile. apply twp_bind. unfold twp at 1, gets. destruct (android_pubkey_encode k e); [|by apply twp_ret].
  destruct (EVP_EncodeBlock _); [|by apply twp_ret]. apply twp_key_call, kl_public.
Qed.

Lemma generate_key_keeps file : keeps (generate_key file).
Proof.
  intros e. unfold generate_key. apply twp_bind, twp_key_call. destruct (RSA_generate_key_ex e) as [r e1] eqn:Hg. destruct (kl_generate _ _ _ Hg) as [H1 Hk].
  cbn [fst snd]. destruct r as [k|]; [|by apply twp_ret].
  assert (Hend : forall r e2, keeps_keys live e1 e2 -> twp (modify (RSA_free k) ;;; ret (r : bool)) (fun _ e' => keeps_keys live e e') e2).
  { intros r e2 H2. apply twp_bind, twp_modify, twp_ret. intros k' Hk'. destruct (H1 k' Hk') as [H3 H4], (H2 k' H3) as [H5 H6].
    destruct (proj2 (kl_free k e2) k') as [H7 H8]; [by intros ->|done|]. split; [done|congruence]. }
  apply twp_bind, twp_key_call. set (e2 := snd _). assert (H2 : keeps_keys live e1 e2) by apply kl_umask.
  apply twp_bind, twp_key_call. set (e3 := snd _). assert (H3 : keeps_keys live e1 e3) by (etrans; [done|apply kl_fopen]).
  apply twp_bind, twp_key_call. set (e4 := snd _). assert (H4 : keeps_keys live e1 e4) by (etrans; [done|apply kl_umask]).
  apply twp_bind. destruct (negb _); [by apply twp_ret, Hend|].
  apply twp_bind, twp_key_call. set (e5 := snd _). assert (H5 : keeps_keys live e1 e5) by (etrans; [done|apply kl_write]).
  destruct (negb _); [by apply twp_ret, Hend|].
  eapply twp_mono; [apply write_public_keeps|]. intros r e6 H6. apply Hend. by etrans.
Qed.

(** The key of the user, there or made. *)
Lemma get_user_key_loads w : keyring_ok w ->
  twp get_user_key (fun r w' => keyring_ok w' /\ (forall x, x ∈ keys w -> x ∈ keys w') /\ w_fds w' = w_fds w /\
    (if r then exists fp, file_print (w_env w') get_user_key_path = Some fp /\ prints w' = prints w ∪ {[fp]} else prints w' = prints w) /\
    (is_Some (ks_stat get_user_key_path (w_env w)) -> same_files (w_env w) (w_env w') /\ r = bool_decide (is_Some (file_print (w_env w) get_user_key_path)))) w.
Proof.
  intros Hok. unfold get_user_key. rewrite bool_decide_eq_false_2 by (unfold get_user_key_path; intros [_ [? _]%app_eq_nil]%app_eq_nil; done).
  assert (Hread : forall w1, keyring_ok w1 -> keys w1 = keys w -> w_fds w1 = w_fds w ->
    (is_Some (ks_stat get_user_key_path (w_env w)) -> w1 = w) -> 
    twp (read_key_file get_user_key_path) (fun r w' => keyring_ok w' /\ (forall x, x ∈ keys w -> x ∈ keys w') /\ w_fds w' = w_fds w /\
      (if r then exists fp, file_print (w_env w') get_user_key_path = Some fp /\ prints w' = prints w ∪ {[fp]} else prints w' = prints w) /\
      (is_Some (ks_stat get_user_key_path (w_env w)) -> same_files (w_env w) (w_env w') /\ r = bool_decide (is_Some (file_print (w_env w) get_user_key_path)))) w1).
  { intros w1 H1 Hkeys Hfds Hsame. eapply twp_mono; [by apply read_key_file_loads|]. intros r w' [-> [[G1 G2 G3 G4] G5]].
    assert (Hp : prints w1 = prints w) by (unfold prints; by rewrite Hkeys). rewrite Hp in G2.
    assert (Hpr : file_print (w_env w') get_user_key_path = file_print (w_env w1) get_user_key_path) by (unfold file_print; by rewrite (sf_read _ _ G4)).
    split_and!; [done|by rewrite <- Hkeys|by rewrite G5| |intros Hs; by rewrite <- (Hsame Hs)].
    rewrite Hpr. unfold file_prints in G2. destruct (file_print (w_env w1) get_user_key_path) as [fp|]; cbn; [by exists fp|by rewrite G2, union_empty_r_L]. }
  apply twp_bind, twp_get. destruct (ks_stat get_user_key_path (w_env w)) eqn:Hstat.
  - apply twp_bind, twp_ret. cbn. by apply Hread.
  - apply twp_bind, twp_on_env. eapply twp_mono; [apply generate_key_keeps|]. intros r e' Hk. cbn beta.
    assert (keyring_ok (set_w_env e' w)) by (apply (env_kept w); [done|intros k _ ?; by apply Hk]). destruct r; cbn [negb].
    + apply Hread; [done..|]. by intros [? ?].
    + apply twp_ret. split_and!; [done..|]. by intros [? ?].
Qed.

(** Nothing but what the inotify descriptor needs has changed. *)
Record same_ring w w' : Prop := {
  sr_ok : keyring_ok w';
  sr_keys : keys w' = keys w;
  sr_files : same_files (w_env w) (w_env w');
  sr_fds : w_fds w' = w_fds w;
}.

Lemma watch_path_ring infd path w : keyring_ok w -> twp (watch_path infd path) (fun _ w' => same_ring w w') w.
Proof.
  intros Hok. unfold watch_path. apply twp_bind, twp_on_env, twp_key_call. set (w1 := set_w_env _ w).
  destruct (kl_watch infd path (Z.lor IN_CREATE IN_MOVED_TO) (w_env w)) as [Hf Hk].
  assert (H1 : keyring_ok w1) by (apply (env_kept w); [done|intros k _ ?; by apply Hk]).
  assert (same_ring w w1) by done. unfold when. case_match; [|by apply twp_ret]. unfold upd_globals. apply twp_modify. split; [|done..]. destruct H1 as [G1 G2]. by split.
Qed.

Lemma watch_paths_ring infd paths w : keyring_ok w -> twp (iter_list (watch_path infd) paths) (fun _ w' => same_ring w w') w.
Proof.
  revert w. induction paths as [|p paths IH]; intros w Hok; [by apply twp_ret|]. cbn [iter_list]. apply twp_bind.
  eapply twp_mono; [by apply watch_path_ring|]. intros [] w1 [H1 H2 H3 H4]. eapply twp_mono; [by apply IH|]. intros [] w2 [G1 G2 G3 G4].
  split; [done|congruence|by etrans|congruence].
Qed.

Lemma twp_load l x (Q : fdevent fd_func -> fdstate fd_func -> Prop) st : fdes st !! l = Some x -> Q x st -> twp (load l) Q st.
Proof. unfold twp, load. by intros ->. Qed.

Lemma twp_on_fds {A} (m : M (fdstate fd_func) A) (Q : A -> W -> Prop) w : twp m (fun a st => Q a (set_w_fds st w)) (w_fds w) -> twp (on_fds m) Q w.
Proof. unfold twp, on_fds. by destruct (m (w_fds w)). Qed.

(** Two steps of the event loop's interface that cannot fail on a new descriptor. *)
Lemma fdevent_create_done l fd f (Q : loc -> fdstate fd_func -> Prop) (st : fdstate fd_func) : (0 <= fd)%Z -> g_poll_node_map st !! fd = None ->
  (forall st' x, fdes st' !! l = Some x -> fde_fd x = fd -> fde_state x = Z.lor FDE_ACTIVE FDE_CREATED -> is_Some (g_poll_node_map st' !! fd) -> Q l st') ->
  twp (fdevent_create l fd f) Q st.
Proof.
  intros Hfd Hnew HQ. unfold fdevent_create, fdevent_install. apply twp_bind, twp_bind. unfold twp at 1, check. rewrite (proj2 (Z.leb_le _ _)) by done.
  apply twp_bind, twp_modify, twp_bind, twp_get. change (g_poll_node_map (set_fdes _ st)) with (g_poll_node_map st). rewrite Hnew. apply twp_modify.
  eapply twp_bind, twp_load; [apply lookup_insert_eq|]. apply twp_bind, twp_modify, twp_ret.
  eapply HQ; [apply lookup_insert_eq|done..|]. cbn. rewrite lookup_insert_eq. by eexists.
Qed.

Lemma fdevent_add_done l fd x (Q : unit -> fdstate fd_func -> Prop) (st : fdstate fd_func) : fdes st !! l = Some x -> fde_fd x = fd ->
  fde_state x = Z.lor FDE_ACTIVE FDE_CREATED -> is_Some (g_poll_node_map st !! fd) -> (forall st', Q tt st') -> twp (fdevent_add l FDE_READ) Q st.
Proof.
  intros Hx Hfd Hs [node Hn] HQ. unfold fdevent_add. eapply twp_bind, twp_load; [done|]. rewrite Hs. unfold fdevent_set.
  eapply twp_bind, twp_load; [done|]. rewrite Hs. cbn [Z.eqb]. apply twp_bind. unfold twp at 1, check. cbn.
  apply twp_bind. unfold fdevent_update. eapply twp_bind, twp_load; [done|]. apply twp_bind, twp_get. rewrite Hfd, Hn.
  apply twp_bind, twp_modify, twp_modify. eapply twp_bind, twp_load; [apply lookup_insert_eq|]. rewrite Hs. by apply twp_ret.
Qed.

Lemma inotify_init_ring paths w : keyring_ok w -> (forall e, g_poll_node_map (w_fds w) !! fst (inotify_init1 e) = None) ->
  twp (adb_auth_inotify_init paths) (fun _ w' => keyring_ok w' /\ keys w' = keys w /\ same_files (w_env w) (w_env w')) w.
Proof.
  intros Hok Hnew. unfold adb_auth_inotify_init. apply twp_bind, twp_on_env, twp_key_call. destruct (kl_init (w_env w)) as [Hf Hk].
  set (w1 := set_w_env _ w). assert (H1 : keyring_ok w1) by (apply (env_kept w); [done|intros k _ ?; by apply Hk]).
  destruct (Z.ltb_spec (fst (inotify_init1 (w_env w))) 0); [by apply twp_ret|]. apply twp_bind.
  eapply twp_mono; [by apply watch_paths_ring|]. intros [] w2 [H2 Hkeys Hfiles Hfds]. apply twp_bind. unfold alloc. apply twp_bind, twp_get.
  apply twp_bind, twp_modify, twp_ret. apply twp_bind, twp_on_fds. apply fdevent_create_done; [done|cbn; rewrite Hfds; apply Hnew|].
  intros st x Hx Hfd Hs Hn. apply twp_on_fds. eapply fdevent_add_done; [done..|]. intros st'. split; [|split; [exact Hkeys|by etrans]].
  destruct H2 as [G1 G2]. by split.
Qed.


(** *** New files *)

(** What the kernel writes for an event. *)
Definition encode_event (v : inotify_event) : bytes :=
  le_encode 4 (u32 (ev_wd v)) ++ le_encode 4 (ev_mask v) ++ le_encode 4 (ev_cookie v) ++ le_encode 4 (ev_len v) ++
  ev_name v ++ replicate (Z.to_nat (ev_len v) - length (ev_name v)) NUL.

Record event_ok (v : inotify_event) : Prop := {
  vk_wd : (- 2 ^ 31 <= ev_wd v < 2 ^ 31)%Z;
  vk_mask : (0 <= ev_mask v < 2 ^ 32)%Z;
  vk_cookie : (0 <= ev_cookie v < 2 ^ 32)%Z;
  vk_len : (0 <= ev_len v < 2 ^ 32)%Z;
  vk_name : NUL ∉ ev_name v /\ (ev_len v = 0%Z /\ ev_name v = [] \/ (Zlen (ev_name v) < ev_len v)%Z);
}.

Lemma c_str_app s t : NUL ∉ s -> c_str (s ++ NUL :: t) = s.
Proof.
  induction s as [|a s IH]; [done|]. intros [Ha Hs]%not_elem_of_cons. cbn. rewrite IH by done.
  destruct (Ascii.eqb_spec a NUL); [by subst|done].
Qed.

Lemma i32_u32 z : (- 2 ^ 31 <= z < 2 ^ 31)%Z -> i32 (u32 z) = z.
Proof. unfold i32, u32. intros Hz. rewrite Zplus_mod_idemp_l, Z.mod_small by lia. lia. Qed.

Lemma take_event_encode v rest : event_ok v -> take_event (encode_event v ++ rest) = Some (v, rest).
Proof.
  intros [Hwd Hm Hc Hl [Hn Hlen]]. unfold encode_event. set (name := ev_name v ++ replicate _ NUL).
  assert (Hname : Zlen name = ev_len v) by (unfold name; rewrite length_app, length_replicate; destruct Hlen as [[-> ->]|]; cbn; lia).
  set (f1 := le_encode 4 (u32 (ev_wd v))). set (f2 := le_encode 4 (ev_mask v)). set (f3 := le_encode 4 (ev_cookie v)). set (f4 := le_encode 4 (ev_len v)).
  rewrite <- !app_assoc.
  assert (Hd4 : forall (f r : bytes) n, length f = 4 -> drop (4 + n) (f ++ r) = drop n r).
  { intros f r n Hf. rewrite <- drop_drop. f_equal. by rewrite drop_app_length' by done. }
  assert (Ht4 : forall (f r : bytes), length f = 4 -> take 4 (f ++ r) = f) by (intros; by apply take_app_length').
  assert (H1 : length f1 = 4 /\ length f2 = 4 /\ length f3 = 4 /\ length f4 = 4) by (unfold f1, f2, f3, f4; by rewrite !length_le_encode).
  destruct H1 as (L1 & L2 & L3 & L4). unfold take_event, INOTIFY_EVENT_SIZE. rewrite (proj2 (Z.ltb_ge _ _)) by (rewrite !length_app; lia).
  rewrite (Hd4 f1 _ 8), (Hd4 f2 _ 4), (Hd4 f3 _ 0), drop_0, (Hd4 f1 _ 12), (Hd4 f2 _ 8), (Hd4 f3 _ 4), (Hd4 f4 _ 0), drop_0, (Hd4 f1 _ 0), (Hd4 f1 _ 4), (Hd4 f2 _ 0), !drop_0, !Ht4 by done.
  cbv zeta. unfold f4 at 1 2 3 4 5. rewrite !le32_roundtrip by done. unfold f1, f2, f3. rewrite !le32_roundtrip by (done || apply u32_range). rewrite i32_u32 by done.
  replace (Z.to_nat (16 + ev_len v)) with (4 + (4 + (4 + (4 + length name)))) by lia. rewrite !Hd4, drop_app_length by by rewrite length_le_encode.
  destruct (Z.ltb_spec 0 (ev_len v)) as [Hpos|Hz].
  - assert (Hnul : exists t, name = ev_name v ++ NUL :: t).
    { unfold name. destruct Hlen as [[? _]|Hlen]; [lia|]. destruct (Z.to_nat (ev_len v) - length (ev_name v)) as [|n] eqn:He; [lia|]. by exists (replicate n NUL). }
    destruct Hnul as [t ->]. rewrite bool_decide_eq_true_2 by set_solver. cbn [andb negb]. rewrite <- app_assoc. cbn [app]. rewrite c_str_app by done. by destruct v.
  - destruct Hlen as [[_ He]|]; [|lia]. destruct v. cbn in *. by subst.
Qed.

(** What an event about a monitored path loads. *)
Definition event_prints (paths : gmap Z bytes) e (v : inotify_event) : gset bytes :=
  match paths !! ev_wd v with
  | Some root =>
      if negb (Z.land (ev_mask v) (Z.lor IN_CREATE IN_MOVED_TO) =? 0)%Z && (Z.land (ev_mask v) IN_ISDIR =? 0)%Z
      then path_prints e (if (0 <? ev_len v)%Z then root ++ str "/" ++ ev_name v else root) false else ∅
  | None => ∅
  end.

Lemma handle_inotify_loads v w : keyring_ok w -> is_Some (g_monitored_paths (w_globals w) !! ev_wd v) ->
  twp (handle_inotify v) (fun _ w' => loaded (event_prints (g_monitored_paths (w_globals w)) (w_env w) v) w w') w.
Proof.
  intros Hok [root Hroot]. unfold handle_inotify, event_prints. apply twp_bind, twp_get. rewrite Hroot.
  destruct (Z.land _ _ =? 0)%Z; cbn [negb andb]; [by apply twp_ret, loaded_refl|]. destruct (Z.land _ IN_ISDIR =? 0)%Z; cbn [negb]; [|by apply twp_ret, loaded_refl].
  apply twp_bind. eapply twp_mono; [by apply read_keys_loads|]. intros r w' [_ H]. by apply twp_ret.
Qed.

(** The events of one read from inotify, as the kernel lays them out in the
    buffer, load exactly the keys of the files that were created in, or moved
    into, the watched directories, one after the other; the walk over the buffer
    stays in it and ends with it. *)
Theorem events_loaded evs fuel w : keyring_ok w -> Forall event_ok evs ->
  Forall (fun v => is_Some (g_monitored_paths (w_globals w) !! ev_wd v)) evs -> length evs <= fuel ->
  twp (inotify_events fuel (concat (map encode_event evs)))
    (fun _ w' => loaded (⋃ map (event_prints (g_monitored_paths (w_globals w)) (w_env w)) evs) w w') w.
Proof.
  revert fuel w. induction evs as [|v evs IH]; intros fuel w Hok He Hm Hf; [destruct fuel; by apply twp_ret, loaded_refl|].
  apply Forall_cons_1 in He as [Hv He]. apply Forall_cons_1 in Hm as [Hmv Hm]. destruct fuel as [|fuel]; [cbn in Hf; lia|]. cbn [map concat].
  assert (Htake := take_event_encode v (concat (map encode_event evs)) Hv). destruct (encode_event v ++ _) as [|b buf] eqn:Hbuf; [done|].
  cbn [inotify_events]. rewrite Htake. apply twp_bind. eapply twp_mono; [by apply handle_inotify_loads|]. intros [] w1 H1.
  assert (Hsame : g_monitored_paths (w_globals w1) = g_monitored_paths (w_globals w)) by (rewrite (ld_frame _ _ _ H1); by destruct w as [? ? ? ? ? ? ? ? ? ? ? ? ? ? ? ? ? []]).
  eapply twp_mono; [apply IH; [apply H1|done|by rewrite Hsame|cbn in Hf; lia]|]. intros [] w2 H2. cbn [union_list foldr].
  eapply loaded_trans; [exact H1|]. rewrite Hsame in H2. replace (map _ evs) with (map (event_prints (g_monitored_paths (w_globals w)) (w_env w1)) evs); [done|].
  apply map_ext. intros q. unfold event_prints. destruct (g_monitored_paths (w_globals w) !! ev_wd q); [|done]. destruct (_ && _); [|done]. apply path_prints_same, H1.
Qed.

End Props.

(** * A shelf of key files, for the witnesses about the keys of the server

    A key is the text behind [KEY:]; its fingerprint is that text. *)

Record shelf := { sh_files : list (bytes * bytes); sh_keys : gmap loc bytes }.

#[export] Instance shelf_fd_ops : FdOps shelf := {
  adb_read _ _ e := (RdErr EAGAIN, e);
  adb_write _ bs e := (WrOk (Zlen bs), e);
  adb_shutdown _ e := e;
  strerror _ := str "error";
}.

#[export] Instance shelf_kernel : Kernel shelf := {
  refusals _ _ := 0;
  pipe_put _ _ e := (true, e);
  pipe_get _ e := (None, e);
}.

#[export] Instance shelf_os : Os shelf := {
  adb_socketpair e := (None, e);
  start_thread _ e := e;
  tmsg_put _ _ e := (true, e);
  tmsg_get _ e := (None, e);
  usb_kick _ e := e;
  usb_close _ e := e;
  notify_init_cv e := e;
  getenv name := if bool_decide (name = str "HOSTNAME") then Some (str "station") else None;
  canonical_address host port := host ++ str ":" ++ dec port;
  set_tcp_keepalive _ _ e := e;
}.

Fixpoint on_shelf (path : bytes) (l : list (bytes * bytes)) : option bytes :=
  match l with
  | [] => None
  | (p, text) :: rest => if bool_decide (p = path) then Some text else on_shelf path rest
  end.

Definition in_dir (path : bytes) (f : bytes * bytes) : bool := is_prefix (path ++ str "/") (fst f).

#[export] Instance shelf_crypto : Crypto shelf := {
  RSA := bytes;
  access_read path e := bool_decide (is_Some (on_shelf path (sh_files e)));
  ReadFileToString path e := on_shelf path (sh_files e);
  b64_pton s _ := Some s;
  ANDROID_PUBKEY_ENCODED_SIZE := 4;
  android_pubkey_decode bs := Some bs;
  RSA_verify token sig key := bool_decide (sig = key ++ token);
  RSA_sign token key e := match sh_keys e !! key with Some d => Some (d ++ token) | None => None end;
  fread_urandom old e := (true, str "twenty random bytes!", e);
  android_dir_path := str "/home/.android";
}.

Definition shelf_parse (text : bytes) : option (option bytes) := if is_prefix (str "KEY:") text then Some (Some (drop 4 text)) else None.

Definition put_key (e : shelf) (text : bytes) : loc * shelf :=
  let k := fresh (dom (sh_keys e) : gset loc) in (k, {| sh_files := sh_files e; sh_keys := <[k := text]> (sh_keys e) |}).

Definition put_file (path text : bytes) (e : shelf) : shelf := {| sh_files := (path, text) :: sh_files e; sh_keys := sh_keys e |}.

#[export] Instance shelf_store : KeyStore shelf := {
  ks_stat path e :=
    if bool_decide (is_Some (on_shelf path (sh_files e))) then Some RegularFile
    else if existsb (in_dir path) (sh_files e) then Some Directory else None;
  ks_names path e := Some (map (fun f => drop (S (length path)) (fst f)) (filter (fun f => in_dir path f = true) (sh_files e)));
  ks_fopen_r path e := on_shelf path (sh_files e);
  ks_fopen_w path e := (true, put_file path [] e);
  ks_umask _ e := (18%Z, e);
  WriteStringToFile s path e := (true, put_file path s e);
  RSA_generate_key_ex e := let '(k, e) := put_key e (str "made") in (Some k, e);
  PEM_write_PrivateKey path k e := (true, put_file path (str "KEY:" ++ default [] (sh_keys e !! k)) e);
  PEM_read_RSAPrivateKey text e :=
    match shelf_parse text with
    | Some d => let '(k, e) := put_key e (default [] d) in (Some k, e)
    | None => (None, e)
    end;
  RSA_free k e := {| sh_files := sh_files e; sh_keys := delete k (sh_keys e) |};
  i2d_RSA_PUBKEY k e := sh_keys e !! k;
  SHA256 bs := bs;
  android_pubkey_encode k e := sh_keys e !! k;
  EVP_EncodeBlock bs := Some bs;
  gethostname := None;
  getlogin := None;
  inotify_init1 e := (40%Z, e);
  inotify_add_watch _ path _ e := (if bool_decide (path = str "/keys") then 1%Z else (-1)%Z, e);
}.

Definition shelf_live (e : shelf) : gset loc := dom (sh_keys e).

Lemma put_key_keeps e text : let k := fst (put_key e text) in let e' := snd (put_key e text) in
  keeps_keys shelf_live e e' /\ k ∉ shelf_live e /\ k ∈ shelf_live e' /\ sh_keys e' !! k = Some text.
Proof.
  cbn. set (k := fresh _). assert (Hk : k ∉ (dom (sh_keys e) : gset loc)) by apply is_fresh. split_and!.
  - intros k' Hk'. unfold shelf_live in *. cbn. split; [set_solver|]. by rewrite lookup_insert_ne by (by intros ->).
  - done.
  - unfold shelf_live. cbn. set_solver.
  - apply lookup_insert_eq.
Qed.

#[export] Instance shelf_laws : KeyLaws shelf shelf_live shelf_parse.
Proof.
  split.
  - cbn [PEM_read_RSAPrivateKey shelf_store]. intros text e r e' H. unfold shelf_parse in *. destruct (is_prefix (str "KEY:") text); [|by simplify_eq].
    destruct (put_key_keeps e (drop 4 text)) as (H1 & H2 & H3 & H4). change (default [] (Some (drop 4 text))) with (drop 4 text) in H. destruct (put_key e (drop 4 text)) as [k e1] eqn:Hp.
    simplify_eq. split; [|split; [done|split; [done|split; [done|by rewrite <- H4]]]]. unfold put_key in Hp. by simplify_eq.
  - intros k e. split; [done|]. intros k' Hne Hk'. unfold shelf_live in *. cbn. split; [set_solver|]. by rewrite lookup_delete_ne by done.
  - cbn [RSA_generate_key_ex shelf_store]. intros e r e' H. destruct (put_key_keeps e (str "made")) as (H1 & H2 & H3 & H4). destruct (put_key e _) as [k e1]. by simplify_eq.
  - done.
  - done.
  - done.
  - done.
  - done.
  - done.
Qed.

#[local] Instance keys_server : Build :=
  {| ADB_HOST := true; no_perm_long_text := []; no_perm_short_text := []; vendor_keys := Some (str "/vendor.key:/keys:/nothing:/keys") |}.

Definition one_shelf : shelf := {|
  sh_files := [(str "/vendor.key", str "KEY:vendor"); (str "/keys/b.adb_key", str "KEY:bb"); (str "/keys/a.adb_key", str "KEY:aa");
               (str "/keys/notes.txt", str "KEY:hidden"); (str "/keys/broken.adb_key", str "none")];
  sh_keys := ∅;
|}.

Definition shelf_world : world shelf := idle_world false [] ∅ one_shelf.

(** The key of the user is made; the ring is in order. *)
Example the_ring_at_start :
  match adb_auth_init shelf_world with
  | Done _ w => map fst (g_keys (w_globals w)) = [str "aa"; str "bb"; str "made"; str "vendor"] /\
                on_shelf (str "/home/.android/adbkey") (sh_files (w_env w)) = Some (str "KEY:made") /\
                on_shelf (str "/home/.android/adbkey.pub") (sh_files (w_env w)) = Some (str "made @unknown")
  | _ => False
  end.
Proof. by vm_compute. Qed.

(** With no name of a user, the name of the host is lost. *)
Example host_without_user : get_user_info = str " @unknown".
Proof. by vm_compute. Qed.

Lemma empty_ring_ok : keyring_ok (live := shelf_live) shelf_world.
Proof. split; [constructor|]. intros fp k Hin. by apply elem_of_nil in Hin. Qed.


(** A file that was created in a watched directory, and one that was removed
    from it. *)
Definition watching : world shelf :=
  set_w_globals (set_g_monitored_paths {[ 1%Z := str "/keys" ]} (demo_globals [])) shelf_world.

Definition two_events : list inotify_event :=
  [{| ev_wd := 1; ev_mask := IN_CREATE; ev_cookie := 0; ev_len := 16; ev_name := str "notes.txt" |};
   {| ev_wd := 1; ev_mask := 512; ev_cookie := 0; ev_len := 16; ev_name := str "a.adb_key" |}].

Lemma two_events_ok : Forall event_ok two_events.
Proof.
  assert (Hok : forall v, 0 < length (ev_name v) < 16 -> NUL ∉ ev_name v -> ev_wd v = 1%Z -> (0 <= ev_mask v < 2 ^ 32)%Z -> ev_cookie v = 0%Z -> ev_len v = 16%Z -> event_ok v).
  { intros v Hl Hn H1 Hm H2 H3. split; [lia..|]. split; [done|right; lia]. }
  apply Forall_cons_2; [|apply Forall_cons_2; [|by apply Forall_nil_2]]; (apply Hok; [cbn; lia|by_decide|done|cbn; unfold IN_CREATE; lia|done..]).
Qed.

Lemma watching_ok : keyring_ok (live := shelf_live) watching.
Proof. split; [constructor|]. intros fp k Hin. by apply elem_of_nil in Hin. Qed.

Lemma events_loaded_witness :
  twp (inotify_events 2 (concat (map encode_event two_events)))
    (fun _ w' => loaded (live := shelf_live)
       (⋃ map (event_prints (parse := shelf_parse) (g_monitored_paths (w_globals watching)) (w_env watching)) two_events) watching w') watching.
Proof.
  refine (events_loaded two_events 2 watching watching_ok two_events_ok _ _); [|done].
  repeat constructor; by eexists.
Defined.

(** A new file is loaded whatever its name is; at the start it would not be. *)
Example any_name_is_loaded :
  match inotify_events 2 (concat (map encode_event two_events)) watching with
  | Done _ w => map fst (g_keys (w_globals w)) = [str "hidden"]
  | _ => False
  end.
Proof. by vm_compute. Qed.
