(* ===== verification/DaemonUsb.v ===== *)
(** * The USB function of a device (daemon/usb.cpp)

    The descriptors the daemon gives to FunctionFS, the endpoints it opens, the
    transfers in pieces, and the thread that waits for a connection to end and
    opens the next. *)

From S2P Require Import Prelude LibBase Packet AdbIo FdEvent Transport World SmartText Sockets SocketIo TransportOps UsbLinux.
From S2P Require Import UsbScan.

Definition MAX_PACKET_SIZE_FS : Z := 64.
Definition MAX_PACKET_SIZE_HS : Z := 512.
Definition MAX_PACKET_SIZE_SS : Z := 1024.
Definition USB_FFS_BULK_SIZE : Z := 16384.
Definition ENDPOINT_ALLOC_RETRIES : Z := 10.

Definition ADB_CLASS : Z := 255.
Definition ADB_SUBCLASS : Z := 66.
Definition ADB_PROTOCOL : Z := 1.
Definition USB_FFS_ADB_EP0 : bytes := str "/dev/usb-ffs/adb/ep0".
Definition USB_FFS_ADB_OUT : bytes := str "/dev/usb-ffs/adb/ep1".
Definition USB_FFS_ADB_IN : bytes := str "/dev/usb-ffs/adb/ep2".

(** linux/usb/ch9.h and linux/usb/functionfs.h *)
Definition USB_DIR_OUT : Z := 0.
Definition USB_DIR_IN : Z := 128.
Definition FUNCTIONFS_DESCRIPTORS_MAGIC : Z := 1.
Definition FUNCTIONFS_STRINGS_MAGIC : Z := 2.
Definition FUNCTIONFS_DESCRIPTORS_MAGIC_V2 : Z := 3.
Definition FUNCTIONFS_FLAGS : Z := 15.

(** ** The descriptors, as they lie in memory *)

Definition le16 (z : Z) : bytes := le_encode 2 z.
Definition le32 (z : Z) : bytes := le_encode 4 z.

(** [usb_interface_descriptor] *)
Definition intf_desc : bytes :=
  map byte_of [USB_DT_INTERFACE_SIZE; USB_DT_INTERFACE; 0; 0; 2; ADB_CLASS; ADB_SUBCLASS; ADB_PROTOCOL; 1]%Z.

(** [usb_endpoint_descriptor_no_audio] *)
Definition endpoint_desc (address max_packet_size : Z) : bytes :=
  map byte_of [USB_DT_ENDPOINT_SIZE; USB_DT_ENDPOINT; address; USB_ENDPOINT_XFER_BULK]%Z ++ le16 max_packet_size ++ [byte_of 0].

(** [usb_ss_ep_comp_descriptor] *)
Definition ss_ep_comp_desc : bytes := map byte_of [USB_DT_SS_EP_COMP_SIZE; USB_DT_SS_ENDPOINT_COMP; 4; 0; 0; 0]%Z.

Definition source_address : Z := Z.lor 1 USB_DIR_OUT.
Definition sink_address : Z := Z.lor 2 USB_DIR_IN.

Definition fs_descriptors : list bytes :=
  [intf_desc; endpoint_desc source_address MAX_PACKET_SIZE_FS; endpoint_desc sink_address MAX_PACKET_SIZE_FS].
Definition hs_descriptors : list bytes :=
  [intf_desc; endpoint_desc source_address MAX_PACKET_SIZE_HS; endpoint_desc sink_address MAX_PACKET_SIZE_HS].
Definition ss_descriptors : list bytes :=
  [intf_desc; endpoint_desc source_address MAX_PACKET_SIZE_SS; ss_ep_comp_desc; endpoint_desc sink_address MAX_PACKET_SIZE_SS; ss_ep_comp_desc].

(** [usb_ext_compat_desc] and [usb_os_desc_header] *)
Definition os_desc_compat : bytes := map byte_of [0; 1]%Z ++ replicate 22 NUL.
Definition os_desc_header : bytes := [byte_of 1] ++ le32 (11 + Zlen os_desc_compat) ++ le16 1 ++ le16 4 ++ map byte_of [1; 0]%Z.

(** The header is 12 bytes, the counts 16. *)
Definition v2_descriptor : bytes :=
  let body := concat fs_descriptors ++ concat hs_descriptors ++ concat ss_descriptors ++ os_desc_header ++ os_desc_compat in
  le32 FUNCTIONFS_DESCRIPTORS_MAGIC_V2 ++ le32 (28 + Zlen body) ++ le32 FUNCTIONFS_FLAGS ++ le32 3 ++ le32 3 ++ le32 5 ++ le32 1 ++ body.

Definition v1_descriptor : bytes :=
  let body := concat fs_descriptors ++ concat hs_descriptors in
  le32 FUNCTIONFS_DESCRIPTORS_MAGIC ++ le32 (16 + Zlen body) ++ le32 3 ++ le32 3 ++ body.

Definition strings : bytes :=
  let lang0 := le16 0x0409 ++ str "ADB Interface" ++ [NUL] in
  le32 FUNCTIONFS_STRINGS_MAGIC ++ le32 (16 + Zlen lang0) ++ le32 1 ++ le32 1 ++ lang0.

(** ** The handle *)

Record ffs_handle := {
  h_kicked : bool;
  h_open_new_connection : bool;
  h_control : Z;
  h_bulk_out : Z;
  h_bulk_in : Z;
  h_max_rw : Z;
}.

Definition new_ffs_handle : ffs_handle :=
  {| h_kicked := false; h_open_new_connection := true; h_control := -1; h_bulk_out := -1; h_bulk_in := -1; h_max_rw := 0 |}.

Definition set_h_kicked (b : bool) (h : ffs_handle) : ffs_handle :=
  {| h_kicked := b; h_open_new_connection := h_open_new_connection h; h_control := h_control h; h_bulk_out := h_bulk_out h;
     h_bulk_in := h_bulk_in h; h_max_rw := h_max_rw h |}.
Definition set_h_open (b : bool) (h : ffs_handle) : ffs_handle :=
  {| h_kicked := h_kicked h; h_open_new_connection := b; h_control := h_control h; h_bulk_out := h_bulk_out h;
     h_bulk_in := h_bulk_in h; h_max_rw := h_max_rw h |}.
Definition set_h_control (fd : Z) (h : ffs_handle) : ffs_handle :=
  {| h_kicked := h_kicked h; h_open_new_connection := h_open_new_connection h; h_control := fd; h_bulk_out := h_bulk_out h;
     h_bulk_in := h_bulk_in h; h_max_rw := h_max_rw h |}.
Definition set_h_bulk_out (fd : Z) (h : ffs_handle) : ffs_handle :=
  {| h_kicked := h_kicked h; h_open_new_connection := h_open_new_connection h; h_control := h_control h; h_bulk_out := fd;
     h_bulk_in := h_bulk_in h; h_max_rw := h_max_rw h |}.
Definition set_h_bulk_in (fd : Z) (h : ffs_handle) : ffs_handle :=
  {| h_kicked := h_kicked h; h_open_new_connection := h_open_new_connection h; h_control := h_control h; h_bulk_out := h_bulk_out h;
     h_bulk_in := fd; h_max_rw := h_max_rw h |}.
Definition set_h_max_rw (n : Z) (h : ffs_handle) : ffs_handle :=
  {| h_kicked := h_kicked h; h_open_new_connection := h_open_new_connection h; h_control := h_control h; h_bulk_out := h_bulk_out h;
     h_bulk_in := h_bulk_in h; h_max_rw := n |}.

(** Where the handle, of which there is one, is in the environment; and
    [dummy_fd]. *)
Class FfsState (E : Type) := {
  ffs_of : E -> ffs_handle;
  put_ffs : ffs_handle -> E -> E;
  ffs_of_put h e : ffs_of (put_ffs h e) = h;
  dummy_fd : E -> Z;
  set_dummy_fd : Z -> E -> E;
}.

(** [f_alloc]: the ioctl [FUNCTIONFS_ENDPOINT_ALLOC], whether it succeeded, and
    [errno] behind it, which it may leave as it was. *)
Class FfsOs (E : Type) := {
  f_open : bytes -> E -> Z * E;
  f_close : Z -> E -> E;
  f_alloc : Z -> Z -> E -> bool * errno_t * E;
  f_clear_halt : Z -> E -> E;
  f_dup2 : Z -> Z -> E -> E;
  f_set_property : bytes -> bytes -> E -> E;
}.

Section DaemonUsb.
Context {E : Type} {K : Kernel E} {B : Build} {OS : Os E} {FS : FfsState E} {FO : FfsOs E}.
Abbreviation W := (world E).

Definition load_ffs : M E ffs_handle := gets ffs_of.
Definition upd_ffs (f : ffs_handle -> ffs_handle) : M E unit := modify (fun e => put_ffs (f (ffs_of e)) e).
Definition ffs_open (path : bytes) : M E Z := fun e => let '(fd, e) := f_open path e in Done fd e.

(** *** Opening the endpoints *)

(** What is done on an error: descriptors that are open are closed. *)
Definition close_endpoint (get : ffs_handle -> Z) (set : Z -> ffs_handle -> ffs_handle) : M E unit :=
  let* h := load_ffs in
  when (0 <? get h)%Z (modify (f_close (get h)) ;;; upd_ffs (set (-1)%Z)).

Definition close_all_endpoints : M E bool :=
  close_endpoint h_bulk_in set_h_bulk_in ;;;
  close_endpoint h_bulk_out set_h_bulk_out ;;;
  close_endpoint h_control set_h_control ;;;
  ret false.

Definition write_ok (fd : Z) (bs : bytes) : M E bool :=
  let* r := sys_write fd bs in ret (match r with WrOk _ => true | WrErr _ => false end).

(** The descriptors and the strings, to a control endpoint that was just opened. *)
Definition write_descriptors (control : Z) : M E bool :=
  let* ok := write_ok control v2_descriptor in
  let* ok := if ok : bool then ret true else write_ok control v1_descriptor in
  if negb ok then ret false else
  let* ok := write_ok control strings in
  if negb ok then ret false else
  modify (f_set_property (str "sys.usb.ffs.ready") (str "1")) ;;;
  ret true.

Definition open_control : M E bool :=
  let* h := load_ffs in
  if (0 <=? h_control h)%Z then ret true else
  let* fd := ffs_open USB_FFS_ADB_EP0 in
  upd_ffs (set_h_control fd) ;;;
  if (fd <? 0)%Z then ret false else write_descriptors fd.

(** How much can be moved at once. *)
Fixpoint alloc_endpoints (fuel : nat) (retries : Z) : M E unit :=
  let* h := load_ffs in
  let max_rw := h_max_rw h in
  if (USB_FFS_BULK_SIZE <=? max_rw)%Z && (retries <? ENDPOINT_ALLOC_RETRIES)%Z then
    match fuel with
    | O => no_fuel
    | S f =>
        let* (ok_in, errno_in) := (fun e => let '(r, e) := f_alloc (h_bulk_in h) max_rw e in Done r e) in
        let* (ok_out, errno_out) := (fun e => let '(r, e) := f_alloc (h_bulk_out h) max_rw e in Done r e) in
        if negb ok_in || negb ok_out then
          if bool_decide (errno_in = E_OTHER ENODEV) || bool_decide (errno_out = E_OTHER ENODEV) then alloc_endpoints f (retries + 1)
          else upd_ffs (set_h_max_rw (max_rw / 2)) ;;; alloc_endpoints f retries
        else ret tt
    end
  else upd_ffs (set_h_max_rw USB_FFS_BULK_SIZE).

Definition init_functionfs (fuel : nat) : M E bool :=
  let* ok := open_control in
  if negb ok then close_all_endpoints else
  let* out := ffs_open USB_FFS_ADB_OUT in
  upd_ffs (set_h_bulk_out out) ;;;
  if (out <? 0)%Z then close_all_endpoints else
  let* inn := ffs_open USB_FFS_ADB_IN in
  upd_ffs (set_h_bulk_in inn) ;;;
  if (inn <? 0)%Z then close_all_endpoints else
  upd_ffs (set_h_max_rw MAX_PAYLOAD) ;;;
  alloc_endpoints fuel 0 ;;;
  ret true.

(** *** Transfers *)

Fixpoint usb_ffs_write (fuel : nat) (buf : bytes) : M E bool :=
  if (0 <? Zlen buf)%Z then
    match fuel with
    | O => no_fuel
    | S f =>
        let* h := load_ffs in
        let* r := sys_write (h_bulk_in h) (take (Z.to_nat (Z.min (h_max_rw h) (Zlen buf))) buf) in
        match r with
        | WrErr _ => ret false
        | WrOk n => usb_ffs_write f (drop (Z.to_nat n) buf)
        end
    end
  else ret true.

(** [None]: a read failed. *)
Fixpoint usb_ffs_read (fuel : nat) (len : Z) (acc : bytes) : M E (option bytes) :=
  if (0 <? len)%Z then
    match fuel with
    | O => no_fuel
    | S f =>
        let* h := load_ffs in
        let* r := sys_read (h_bulk_out h) (Z.min (h_max_rw h) len) in
        match r with
        | RdErr _ => ret None
        | RdOk bs => usb_ffs_read f (len - Zlen bs) (acc ++ bs)
        end
    end
  else ret (Some acc).

(** The endpoints become copies of [dummy_fd]. *)
Definition usb_ffs_kick : M E unit :=
  let* h := load_ffs in
  modify (f_clear_halt (h_bulk_in h)) ;;;
  modify (f_clear_halt (h_bulk_out h)) ;;;
  upd_ffs (set_h_kicked true) ;;;
  let* fd := gets dummy_fd in
  modify (f_dup2 fd (h_bulk_out h)) ;;;
  modify (f_dup2 fd (h_bulk_in h)).

Definition usb_ffs_close : M E unit :=
  upd_ffs (set_h_kicked false) ;;;
  let* h := load_ffs in
  modify (f_close (h_bulk_out h)) ;;;
  modify (f_close (h_bulk_in h)) ;;;
  upd_ffs (set_h_open true).

(** *** The thread *)

Fixpoint init_until_ok (fuel : nat) : M E unit :=
  match fuel with
  | O => no_fuel
  | S f => let* ok := init_functionfs 16 in if ok : bool then ret tt else init_until_ok f
  end.

(** A turn: when the last connection was closed, the next is opened.  [h]: the
    address of the handle. *)
Definition usb_ffs_open_turn (fuel : nat) (h : Z) : M W unit :=
  let* x := on_env load_ffs in
  if negb (h_open_new_connection x) then ret tt else
  on_env (upd_ffs (set_h_open false)) ;;;
  on_env (init_until_ok fuel) ;;;
  register_usb_transport h None None true.

Definition usb_ffs_init : M E unit :=
  upd_ffs (fun _ => new_ffs_handle) ;;; modify (start_thread thr_usb_ffs_open).

Definition daemon_usb_init : M E unit :=
  let* fd := ffs_open (str "/dev/null") in
  modify (set_dummy_fd fd) ;;;
  check (negb (fd =? -1)%Z) "CHECK_NE(dummy_fd, -1)" ;;;
  usb_ffs_init.

End DaemonUsb.

(** * Properties of the USB function of a device

    Opening ends with a usable size of transfers, transfers move what they are
    given, and a host finds the function in the descriptors. *)

(** The system leaves the handle alone. *)
Class FfsFrame (E : Type) {K : Kernel E} {FS : FfsState E} {FO : FfsOs E} := {
  ff_open p e : ffs_of (snd (f_open p e)) = ffs_of e;
  ff_close fd e : ffs_of (f_close fd e) = ffs_of e;
  ff_alloc fd n e : ffs_of (snd (f_alloc fd n e)) = ffs_of e;
  ff_property k v e : ffs_of (f_set_property k v e) = ffs_of e;
  ff_write fd bs e : ffs_of (snd (adb_write fd bs e)) = ffs_of e;
  ff_read fd n e : ffs_of (snd (adb_read fd n e)) = ffs_of e;
}.

Section Props.
Context {E : Type} {K : Kernel E} {FS : FfsState E} {FO : FfsOs E} {FF : FfsFrame E}.
Implicit Types (e : E) (h : ffs_handle).

Lemma twp_load_ffs (Q : ffs_handle -> E -> Prop) e : Q (ffs_of e) e -> twp load_ffs Q e.
Proof. done. Qed.

Lemma twp_upd_ffs f (Q : unit -> E -> Prop) e : (forall e', ffs_of e' = f (ffs_of e) -> Q tt e') -> twp (upd_ffs f) Q e.
Proof. intros HQ. apply twp_modify, HQ, ffs_of_put. Qed.

Lemma twp_ffs_open p (Q : Z -> E -> Prop) e : (forall fd e', ffs_of e' = ffs_of e -> Q fd e') -> twp (ffs_open p) Q e.
Proof. unfold twp, ffs_open. intros HQ. pose proof (ff_open p e) as H. destruct (f_open p e) as [fd e']. by apply HQ. Qed.

Lemma twp_write_ok fd bs (Q : bool -> E -> Prop) e : (forall r e', ffs_of e' = ffs_of e -> Q r e') -> twp (write_ok fd bs) Q e.
Proof.
  intros HQ. unfold write_ok. apply twp_bind. unfold twp at 1, sys_write. pose proof (ff_write fd bs e) as H. destruct (adb_write fd bs e) as [r e'].
  apply twp_ret. by apply HQ.
Qed.

Lemma twp_close_endpoint get set (Q : unit -> E -> Prop) e :
  (forall e', ffs_of e' = (if (0 <? get (ffs_of e))%Z then set (-1)%Z (ffs_of e) else ffs_of e) -> Q tt e') -> twp (close_endpoint get set) Q e.
Proof.
  intros HQ. unfold close_endpoint. apply twp_bind, twp_load_ffs. unfold when. destruct (0 <? get (ffs_of e))%Z; [|by apply HQ].
  apply twp_bind, twp_modify, twp_upd_ffs. intros e'. rewrite ff_close. apply HQ.
Qed.

Definition all_closed h : Prop := (h_control h <= 0 /\ h_bulk_out h <= 0 /\ h_bulk_in h <= 0)%Z.
Definition all_open h : Prop :=
  (0 <= h_control h /\ 0 <= h_bulk_out h /\ 0 <= h_bulk_in h /\ USB_FFS_BULK_SIZE <= h_max_rw h <= MAX_PAYLOAD)%Z.

Lemma give_up_closes (Q : bool -> E -> Prop) e :
  (forall e', all_closed (ffs_of e') -> h_open_new_connection (ffs_of e') = h_open_new_connection (ffs_of e) -> Q false e') -> twp close_all_endpoints Q e.
Proof.
  intros HQ. unfold close_all_endpoints. apply twp_bind, twp_close_endpoint. intros e1 H1. apply twp_bind, twp_close_endpoint. intros e2 H2.
  apply twp_bind, twp_close_endpoint. intros e3 H3. apply twp_ret, HQ; rewrite H3, H2, H1; unfold all_closed; repeat case_match; cbn in *; solve [done|lia].
Qed.

Lemma open_control_ends e (Q : bool -> E -> Prop) :
  (forall r e', h_open_new_connection (ffs_of e') = h_open_new_connection (ffs_of e) -> (r = true -> 0 <= h_control (ffs_of e'))%Z -> Q r e') ->
  twp open_control Q e.
Proof.
  intros HQ. unfold open_control. apply twp_bind, twp_load_ffs. destruct (Z.leb_spec 0 (h_control (ffs_of e))); [by apply twp_ret, HQ|].
  apply twp_bind, twp_ffs_open. intros fd e1 H1. apply twp_bind, twp_upd_ffs. intros e2 H2. rewrite H1 in H2.
  destruct (Z.ltb_spec fd 0); [by apply twp_ret, HQ; [rewrite H2|]|]. unfold write_descriptors.
  assert (Hend : forall r e', ffs_of e' = ffs_of e2 -> Q r e') by (intros r e' Hx; apply HQ; rewrite Hx, H2; done).
  apply twp_bind, twp_write_ok. intros r1 e3 H3. apply twp_bind.
  assert (Hstrings : forall e4, ffs_of e4 = ffs_of e2 -> twp (let* ok := write_ok fd strings in if negb ok then ret false else modify (f_set_property (str "sys.usb.ffs.ready") (str "1")) ;;; ret true) Q e4).
  { intros e4 H4. apply twp_bind, twp_write_ok. intros r5 e5 H5. destruct r5; cbn [negb]; [|apply twp_ret, Hend; congruence].
    apply twp_bind, twp_modify, twp_ret, Hend. rewrite ff_property. congruence. }
  destruct r1; [by apply twp_ret, Hstrings|]. apply twp_write_ok. intros r4 e4 H4. destruct r4; cbn [negb]; [apply Hstrings|apply twp_ret, Hend]; congruence.
Qed.

(** Each turn uses up a try, or half of the size. *)
Lemma alloc_endpoints_ends fuel retries e (Q : unit -> E -> Prop) : (0 <= retries)%Z -> (h_max_rw (ffs_of e) <= MAX_PAYLOAD)%Z ->
  (forall e', (exists n, ffs_of e' = set_h_max_rw n (ffs_of e) /\ (USB_FFS_BULK_SIZE <= n <= MAX_PAYLOAD)%Z) -> Q tt e') ->
  (exists k, (h_max_rw (ffs_of e) < USB_FFS_BULK_SIZE * 2 ^ k)%Z /\ (0 <= k /\ k + (ENDPOINT_ALLOC_RETRIES - retries) <= Z.of_nat fuel)%Z) ->
  twp (alloc_endpoints fuel retries) Q e.
Proof.
  intros Hr Hmax HQ Hk. revert retries e Hr Hmax HQ Hk. unfold USB_FFS_BULK_SIZE, ENDPOINT_ALLOC_RETRIES.
  induction fuel as [|fuel IH]; intros retries e Hr Hmax HQ (k & Hk & Hk0 & Hf); cbn [alloc_endpoints]; unfold USB_FFS_BULK_SIZE, ENDPOINT_ALLOC_RETRIES;
    apply twp_bind, twp_load_ffs.
  - assert (Hout : ((16384 <=? h_max_rw (ffs_of e)) && (retries <? 10) = false)%Z).
    { destruct (Z.leb_spec 16384 (h_max_rw (ffs_of e))); [|done]. cbn. apply Z.ltb_ge. destruct (Z.eq_dec k 0%Z) as [->|]; cbn in *; lia. }
    rewrite Hout. apply twp_upd_ffs. intros e' He. apply HQ. exists 16384%Z. split; [done|unfold MAX_PAYLOAD, MAX_PAYLOAD_V2; lia].
  - destruct (Z.leb_spec 16384 (h_max_rw (ffs_of e))) as [Hbig|]; cbn [andb].
    2:{ apply twp_upd_ffs. intros e' He. apply HQ. exists 16384%Z. split; [done|unfold MAX_PAYLOAD, MAX_PAYLOAD_V2; lia]. }
    destruct (Z.ltb_spec retries 10).
    2:{ apply twp_upd_ffs. intros e' He. apply HQ. exists 16384%Z. split; [done|unfold MAX_PAYLOAD, MAX_PAYLOAD_V2; lia]. }
    apply twp_bind. unfold twp at 1. pose proof (ff_alloc (h_bulk_in (ffs_of e)) (h_max_rw (ffs_of e)) e) as H1. destruct (f_alloc _ _ e) as [[ok_in errno_in] e1].
    apply twp_bind. unfold twp at 1. pose proof (ff_alloc (h_bulk_out (ffs_of e)) (h_max_rw (ffs_of e)) e1) as H2. destruct (f_alloc _ _ e1) as [[ok_out errno_out] e2].
    cbn [snd] in H1, H2. rewrite H1 in H2. destruct (negb ok_in || negb ok_out).
    2:{ apply twp_ret, HQ. exists (h_max_rw (ffs_of e)). split; [rewrite H2; by destruct (ffs_of e)|lia]. }
    destruct (_ || _).
    + apply IH; rewrite ?H2; [lia|done..|]. exists k. split; [done|lia].
    + assert (Hk1 : (1 <= k)%Z) by (destruct (Z.eq_dec k 0%Z) as [->|]; cbn in *; lia).
      apply twp_bind, twp_upd_ffs. intros e3 H3. rewrite H2 in H3. apply IH; rewrite ?H3; cbn.
      * done.
      * pose proof (Z.div_lt (h_max_rw (ffs_of e)) 2). lia.
      * intros e' (n & He & Hn). apply HQ. exists n. by rewrite He.
      * exists (k - 1)%Z. split; [|lia]. replace k with (1 + (k - 1))%Z in Hk by lia. rewrite Z.pow_add_r in Hk by lia.
        apply Z.div_lt_upper_bound; lia.
Qed.


End Props.

(** ** Transfers over endpoints that are streams *)

Section Transfers.
Context {E : Type} {K : Kernel E} {FS : FfsState E} {FO : FfsOs E} {FF : FfsFrame E}.
Context (fd : Z) (rx tx : E -> bytes) (stall : E -> nat) {ST : FdStream E fd rx tx stall}.

(** What is given to [usb_write] arrives, in pieces of [max_rw] at most, unless
    the endpoint refuses a piece. *)
Lemma usb_ffs_write_all fuel buf e : h_bulk_in (ffs_of e) = fd -> (0 < h_max_rw (ffs_of e))%Z -> length buf <= fuel ->
  twp (usb_ffs_write fuel buf) (fun r e' => exists part, part `prefix_of` buf /\ tx e' = tx e ++ part /\ (r = true -> part = buf)) e.
Proof.
  revert buf e. induction fuel as [|fuel IH]; intros buf e Hfd Hmax Hf; cbn [usb_ffs_write].
  - destruct buf; [|cbn in Hf; lia]. apply twp_ret. exists []. by rewrite app_nil_r.
  - destruct (Z.ltb_spec 0 (Zlen buf)); [|destruct buf; [|cbn in *; lia]; apply twp_ret; exists []; by rewrite app_nil_r].
    apply twp_bind, twp_load_ffs. rewrite Hfd. set (n0 := Z.to_nat _). apply twp_bind. unfold twp at 1, sys_write.
    assert (Hne : take n0 buf <> []) by (unfold n0; destruct buf; [cbn in *; lia|]; destruct (Z.to_nat _) eqn:?; [lia|done]).
    pose proof (ff_write fd (take n0 buf) e) as Hframe.
    destruct (stream_write (fd := fd) (rx := rx) (tx := tx) (stall := stall) (take n0 buf) e Hne) as [(n & e1 & Hw & Hn & Htx & _ & _)|(e1 & Hw & Htx & _)];
      rewrite Hw in *; cbn [snd] in Hframe.
    + rewrite length_take in Hn. eapply twp_mono; [apply IH; rewrite ?Hframe; [done..|rewrite length_drop; lia]|].
      intros r e2 (part & Hp & Ht & Hr). exists (take (Z.to_nat n) buf ++ part). split_and!.
      * destruct Hp as [rest Hp]. exists rest. by rewrite <- app_assoc, <- Hp, take_drop.
      * rewrite Ht, Htx, <- app_assoc. f_equal. f_equal. rewrite take_take. f_equal. lia.
      * intros ->%Hr. by rewrite take_drop.
    + apply twp_ret. exists []. split_and!; [by eexists|by rewrite app_nil_r|done].
Qed.

(** As many bytes as were asked for; [usb_read_full] of [TransportWire.UsbLaws]. *)
Lemma usb_ffs_read_full fuel len acc e : h_bulk_out (ffs_of e) = fd -> (0 < h_max_rw (ffs_of e))%Z -> (0 <= len <= Zlen (rx e))%Z -> Z.to_nat len <= fuel ->
  twp (usb_ffs_read fuel len acc) (fun r e' => r = Some (acc ++ take (Z.to_nat len) (rx e)) /\ rx e' = drop (Z.to_nat len) (rx e)) e.
Proof.
  revert len acc e. induction fuel as [|fuel IH]; intros len acc e Hfd Hmax Hl Hf; cbn [usb_ffs_read].
  - replace len with 0%Z by lia. apply twp_ret. by rewrite take_0, app_nil_r, drop_0.
  - destruct (Z.ltb_spec 0 len); [|replace len with 0%Z by lia; apply twp_ret; by rewrite take_0, app_nil_r, drop_0].
    apply twp_bind, twp_load_ffs. rewrite Hfd. apply twp_bind. unfold twp at 1, sys_read. set (n := Z.min _ len). pose proof (ff_read fd n e) as Hframe.
    destruct (stream_read (fd := fd) (rx := rx) (tx := tx) (stall := stall) n e) as (bs & e1 & Hr & Hrx & Hlen & Hnil & _ & _); [lia|].
    rewrite Hr in *. cbn [snd] in Hframe. rewrite Hrx, length_app in Hl.
    assert (Hpos : (0 < Zlen bs)%Z) by (destruct bs; [rewrite Hnil in Hrx by done; cbn in Hrx; rewrite <- Hrx in Hl; cbn in Hl; lia|cbn; lia]).
    eapply twp_mono; [apply IH; rewrite ?Hframe; [done|done|lia|lia]|]. intros r e2 [-> Hrx2]. rewrite Hrx2, Hrx.
    rewrite take_app_ge, drop_app_ge by lia. rewrite <- app_assoc. by replace (Z.to_nat len - length bs) with (Z.to_nat (len - Zlen bs)) by lia.
Qed.

(** When the endpoint has no more to give and says so, the daemon asks for ever. *)
Lemma read_past_end_spins fuel len acc e : (forall e', ffs_of e' = ffs_of e -> exists e'', adb_read fd (Z.min (h_max_rw (ffs_of e)) len) e' = (RdOk [], e'')) ->
  h_bulk_out (ffs_of e) = fd -> (0 < len)%Z -> usb_ffs_read fuel len acc e = NoFuel.
Proof.
  revert e. induction fuel as [|fuel IH]; intros e Hend Hfd Hl; cbn [usb_ffs_read]; rewrite (proj2 (Z.ltb_lt _ _)) by done; [done|].
  unfold bind, load_ffs, gets, sys_read. rewrite Hfd. destruct (Hend e) as [e1 H1]; [done|]. pose proof (ff_read fd (Z.min (h_max_rw (ffs_of e)) len) e) as Hframe.
  rewrite H1 in *. cbn [snd] in Hframe. cbn [length]. rewrite Z.sub_0_r, app_nil_r. apply IH; rewrite ?Hframe; done.
Qed.

End Transfers.

(** ** The host and the device *)

(** A descriptor of another function, or of none. *)
Definition other_function (d : bytes) : Prop :=
  well_formed d /\ (dtype d = USB_DT_INTERFACE -> Zlen d = USB_DT_INTERFACE_SIZE /\ adb_function d = false).

Lemma adb_of_others others ds : Forall other_function others -> adb_of 0 (others ++ ds) = adb_of 0 ds.
Proof.
  induction 1 as [|d others [_ Hd] _ IH]; [done|]. cbn [app adb_of]. destruct (Z.eqb_spec (dtype d) USB_DT_INTERFACE) as [He|]; [|done].
  destruct (Hd He) as [-> ->]. done.
Qed.

(** What a host should find. *)
Definition daemon_interface (max_packet_size : Z) : adb_interface :=
  {| ai_ep_in := 130; ai_ep_out := 1; ai_number := 0; ai_zero_mask := max_packet_size - 1; ai_max_packet_size := max_packet_size |}.

Lemma two_plain_endpoints ep1 ep2 rest : endpoint ep1 = true -> endpoint ep2 = true -> is_companion ep2 = false -> companions rest = 0 ->
  two_endpoints (ep1 :: ep2 :: rest) = Some (ep1, ep2, 2).
Proof. intros H1 H2 H3 H4. unfold two_endpoints. cbn [companions]. rewrite H1, H3. cbn [negb drop]. by rewrite H2, H4. Qed.

Lemma two_ss_endpoints ep1 c1 ep2 c2 rest : endpoint ep1 = true -> endpoint ep2 = true -> is_companion c1 = true -> is_companion c2 = true ->
  two_endpoints (ep1 :: c1 :: ep2 :: c2 :: rest) = Some (ep1, ep2, 4).
Proof. intros H1 H2 H3 H4. unfold two_endpoints. cbn [companions]. rewrite H1, H3. cbn [negb drop]. rewrite H2. cbn [companions]. by rewrite H4. Qed.

Lemma adb_of_daemon ep1 ep2 n i r : two_endpoints r = Some (ep1, ep2, n) -> interface_of intf_desc ep1 ep2 = Some i -> adb_of 0 (intf_desc :: r) = Some i.
Proof. intros Hr Hi. change (adb_of 0 (intf_desc :: r)) with (match two_endpoints r with None => None | Some (ep1, ep2, n) => match interface_of intf_desc ep1 ep2 with None => adb_of n r | i => i end end). by rewrite Hr, Hi. Qed.

(** At each speed. *)
Lemma daemon_descriptors_found ds size rest :
  (ds, size) ∈ [(fs_descriptors, MAX_PACKET_SIZE_FS); (hs_descriptors, MAX_PACKET_SIZE_HS); (ss_descriptors, MAX_PACKET_SIZE_SS)] ->
  companions rest = 0 -> Forall well_formed ds /\ adb_of 0 (ds ++ rest) = Some (daemon_interface size).
Proof.
  intros Hin Hc. repeat (apply elem_of_cons in Hin as [Hin|Hin]; [injection Hin as -> ->|]); [..|by apply not_elem_of_nil in Hin].
  - split; [by repeat constructor|]. eapply adb_of_daemon; [by apply two_plain_endpoints|done].
  - split; [by repeat constructor|]. eapply adb_of_daemon; [by apply two_plain_endpoints|done].
  - split; [by repeat constructor|]. eapply adb_of_daemon; [by apply two_ss_endpoints|done].
Qed.

(** C16: A Linux host finds the daemon: in the descriptors of a device, whatever
    its other functions are, the scan of usb_linux.cpp finds the interface that
    daemon/usb.cpp describes, at full, high or super speed, with its two
    endpoints the right way round and the size of its packets. *)
Theorem daemon_found_by_host {W} before device config others ds size rest fuel (w : W) :
  header_of USB_DT_DEVICE_SIZE USB_DT_DEVICE device -> header_of USB_DT_CONFIG_SIZE USB_DT_CONFIG config ->
  (ds, size) ∈ [(fs_descriptors, MAX_PACKET_SIZE_FS); (hs_descriptors, MAX_PACKET_SIZE_HS); (ss_descriptors, MAX_PACKET_SIZE_SS)] ->
  Forall other_function others -> Forall well_formed rest -> companions rest = 0 -> length (others ++ ds ++ rest) < fuel ->
  parse_descriptors fuel before (Some (device ++ config ++ concat (others ++ ds ++ rest))) w =
    Done (Some (daemon_interface size, d_byte device 16)) w.
Proof.
  intros Hd Hc Hds Ho Hr Hcomp Hf. destruct (daemon_descriptors_found ds size rest Hds Hcomp) as [Hwf Hadb].
  rewrite parse_descriptors_adb_of; [by rewrite adb_of_others, Hadb|done..| |done].
  repeat (apply Forall_app; split); [|done..]. eapply Forall_impl; [exact Ho|]. by intros d [].
Qed.

Lemma daemon_found_by_host_witness :
  parse_descriptors 20 [] (Some (phone_device ++ phone_config ++ concat ([map byte_of [9; 4; 0; 0; 1; 6; 1; 1; 0]%Z] ++ ss_descriptors ++ []))) tt =
    Done (Some (daemon_interface 1024, d_byte phone_device 16)) tt.
Proof.
  apply (daemon_found_by_host (W := unit) [] phone_device phone_config [map byte_of [9; 4; 0; 0; 1; 6; 1; 1; 0]%Z] ss_descriptors 1024 [] 20 tt).
  - by vm_compute.
  - by vm_compute.
  - right. right. left.
  - repeat constructor.
  - constructor.
  - reflexivity.
  - vm_compute. lia.
Defined.

(** ** An endpoint for the witness *)

Record dock := { dk_ffs : ffs_handle; dk_dummy : Z; dk_allocs : nat }.

#[export] Instance dock_fd_ops : FdOps dock := {
  adb_read _ _ e := (RdOk [], e);
  adb_write fd bs e := (if bool_decide (bs = v2_descriptor) then WrErr EINVAL else WrOk (Zlen bs), e);
  adb_shutdown _ e := e;
  strerror _ := str "error";
}.

#[export] Instance dock_kernel : Kernel dock := {
  refusals _ _ := 0;
  pipe_put _ _ e := (true, e);
  pipe_get _ e := (None, e);
}.

#[export] Instance dock_state : FfsState dock := {
  ffs_of := dk_ffs;
  put_ffs h e := {| dk_ffs := h; dk_dummy := dk_dummy e; dk_allocs := dk_allocs e |};
  ffs_of_put h e := eq_refl;
  dummy_fd := dk_dummy;
  set_dummy_fd fd e := {| dk_ffs := dk_ffs e; dk_dummy := fd; dk_allocs := dk_allocs e |};
}.

(** The device is away for three calls, and then has room for 64 KiB. *)
#[export] Instance dock_os : FfsOs dock := {
  f_open path e := (if bool_decide (path = USB_FFS_ADB_EP0) then 10 else if bool_decide (path = USB_FFS_ADB_OUT) then 11 else 12, e)%Z;
  f_close _ e := e;
  f_alloc fd n e := ((3 <=? dk_allocs e) && (n <=? 65536)%Z, if dk_allocs e <? 3 then E_OTHER ENODEV else ENOMEM,
                     {| dk_ffs := dk_ffs e; dk_dummy := dk_dummy e; dk_allocs := S (dk_allocs e) |});
  f_clear_halt _ e := e;
  f_dup2 _ _ e := e;
  f_set_property _ _ e := e;
}.

#[export] Instance dock_frame : FfsFrame dock.
Proof. by split. Qed.

Definition new_dock : dock := {| dk_ffs := new_ffs_handle; dk_dummy := 9; dk_allocs := 0 |}.


Example docked :
  match init_functionfs 16 new_dock with
  | Done r e => r = true /\ h_max_rw (dk_ffs e) = 65536%Z /\ h_control (dk_ffs e) = 10%Z
  | _ => False
  end.
Proof. by vm_compute. Qed.

(** The sizes that the headers give. *)
Example descriptor_sizes : Zlen v2_descriptor = 144%Z /\ Zlen v1_descriptor = 62%Z /\ Zlen strings = 32%Z.
Proof. by vm_compute. Qed.
