(* ===== verification/ServiceThreads.v ===== *)
(** * The threads of the services (services.cpp, remount_service.cpp,
      set_verity_enable_state_service.cpp, framebuffer_service.cpp)

    What [create_service_thread] starts, each on its end of a socket pair. *)

From S2P Require Import Prelude LibBase Packet AdbIo FdEvent Transport World SmartText Sockets SocketIo SocketSpec AdbUtils.
From S2P Require Import Listeners TransportOps Registration Requests Services Connection Demo.

(** libbase: the default for a property without a boolean value. *)
Class BoolProperty := { GetBoolProperty : bytes -> bool -> bool }.

(** Whether the build allows to switch verity off. *)
Class VerityBuild := { kAllowDisableVerity : bool }.

(** Properties, mounts and block devices; the reading of fstab (fs_mgr.h), verity
    metadata (fec/io.h) and AVB; the process that takes a picture of the screen. *)
Class DeviceOs (E : Type) := {
  SetProperty : bytes -> bytes -> E -> bool * E;
  ANDROID_RB_PROPERTY : bytes;
  write_bootloader_message : list bytes -> E -> bool * E;
  dv_sync : E -> E;
  dv_errno : E -> errno_t;
  dv_mounts : E -> option (list (bytes * bytes));
  fs_mgr_entry : bytes -> E -> option bytes;
  fs_mgr_verified : E -> option (list (bytes * bytes));
  dv_open : bytes -> E -> Z * E;
  dv_blkroset : Z -> E -> bool * E;
  dv_close : Z -> E -> E;
  dv_remount : bytes -> bytes -> E -> bool * E;
  fec_open : bytes -> E -> option Z * E;
  fec_disabled : Z -> E -> option bool;
  fec_set_status : Z -> bool -> E -> bool * E;
  avb_ops_new : E -> bool * E;
  avb_verity_get : bytes -> E -> option bool;
  avb_verity_set : bytes -> bool -> E -> bool * E;
  dv_pipe2 : E -> option (Z * Z) * E;
  fork_screencap : Z -> E -> option Z * E;
  dv_waitpid : Z -> E -> E;
}.

(** [adb_poll] for a second: other threads run meanwhile. *)
Inductive poll_result := PollFailed | PollTimeout | PollReady (revents : Z).
Class ServicePoll (E : Type) := { poll_second : Z -> world E -> poll_result * world E }.

Definition POLLHUP : Z := 16.

Section ServiceThreads.
Context {E : Type} {K : Kernel E} {B : Build} {PF : Platform} {BN : Banner} {LB : LibBase} {SO : SetOrder} {SV : Services E} {N : Net E}.
Context {OS : Os E} {VO : ServiceOs E} {FSY : FileSystem E} {BP : BoolProperty} {VB : VerityBuild} {DO : DeviceOs E} {SP : ServicePoll E}.
Abbreviation W := (world E).

Definition dev_call {A} (f : E -> A * E) : M W A := on_env (fun e => let '(a, e) := f e in Done a e).

(** [WriteFdExactly] with a text, [WriteFdFmt]. *)
Definition write_fd (fd : Z) (s : bytes) : M W bool :=
  let* w := get in let* r := on_env (WriteFdExactly (reply_fuel fd (w_env w) (length s)) fd s) in ret (wx_bool r).
Definition say (fd : Z) (s : bytes) : M W unit := let* _ := write_fd fd s in ret tt.
Definition line (s : string) : bytes := str s ++ [byte_of 10].
Definition newline : bytes := [byte_of 10].

Definition set_property (key value : bytes) : M W bool := dev_call (SetProperty key value).

(** ** root, unroot, tcpip, usb *)

Definition restart_root_service (fd : Z) : M W unit :=
  if (daemon_uid =? 0)%Z then say fd (line "adbd is already running as root") ;;; adb_close fd
  else if negb daemon_debuggable then say fd (line "adbd cannot run as root in production builds") ;;; adb_close fd
  else
    let* _ := set_property (str "service.adb.root") (str "1") in
    say fd (line "restarting adbd as root") ;;;
    adb_close fd.

Definition restart_unroot_service (fd : Z) : M W unit :=
  if negb (daemon_uid =? 0)%Z then say fd (line "adbd not running as root") ;;; adb_close fd
  else
    let* _ := set_property (str "service.adb.root") (str "0") in
    say fd (line "restarting adbd as non root") ;;;
    adb_close fd.

Definition restart_tcp_service (port fd : Z) : M W unit :=
  if (port <=? 0)%Z then say fd (str "invalid port " ++ dec port ++ newline) ;;; adb_close fd
  else
    let* _ := set_property (str "service.adb.tcp.port") (dec port) in
    say fd (str "restarting in TCP mode port: " ++ dec port ++ newline) ;;;
    adb_close fd.

Definition restart_usb_service (fd : Z) : M W unit :=
  let* _ := set_property (str "service.adb.tcp.port") (str "0") in
  say fd (line "restarting in USB mode") ;;;
  adb_close fd.

(** ** reboot, reconnect *)

Definition reboot_service_impl (fd : Z) (arg : bytes) : M W bool :=
  let auto_reboot := bool_decide (arg = str "sideload-auto-reboot") in
  let reboot_arg := if auto_reboot then str "sideload" else arg in
  let go (reboot_arg : bytes) : M W bool :=
    run_env dv_sync ;;;
    let reboot_string := str "reboot," ++ reboot_arg in
    let* ok := set_property ANDROID_RB_PROPERTY reboot_string in
    if negb ok then say fd (str "reboot (" ++ reboot_string ++ str ") failed" ++ newline) ;;; ret false
    else ret true in
  if bool_decide (reboot_arg = str "sideload") then
    if negb (daemon_uid =? 0)%Z then say fd (line "'adb root' is required for 'adb reboot sideload'.") ;;; ret false
    else
      let* ok := dev_call (write_bootloader_message [if auto_reboot then str "--sideload_auto_reboot" else str "--sideload"]) in
      if negb ok then ret false else go (str "recovery")
  else go reboot_arg.

(** After a reboot was asked for, the thread pauses for ever. *)
Definition reboot_service (arg : bytes) (fd : Z) : M W unit :=
  let* rebooting := reboot_service_impl fd arg in
  if rebooting : bool then no_fuel else adb_close fd.

Definition reconnect_service (t : option loc) (fd : Z) : M W unit :=
  say fd (str "done") ;;;
  adb_close fd ;;;
  match t with Some t => kick_transport t | None => ret tt end.

(** ** remount *)

Fixpoint mount_of (dir : bytes) (mounts : list (bytes * bytes)) : bytes :=
  match mounts with
  | [] => []
  | (mnt_dir, mnt_fsname) :: rest => if bool_decide (dir = mnt_dir) then mnt_fsname else mount_of dir rest
  end.

Definition find_proc_mount (dir : bytes) (e : E) : bytes := match dv_mounts e with None => [] | Some mounts => mount_of dir mounts end.
Definition find_fstab_mount (dir : bytes) (e : E) : bytes := default [] (fs_mgr_entry dir e).
Definition find_mount (dir : bytes) (e : E) : bytes := if bool_decide (dir = str "/") then find_fstab_mount dir e else find_proc_mount dir e.

Definition make_block_device_writable (dev : bytes) : M W bool :=
  let* fd := dev_call (dv_open dev) in
  if (fd =? -1)%Z then ret false else
  let* result := dev_call (dv_blkroset fd) in
  run_env (dv_close fd) ;;;
  ret result.

Definition errno_text : M W bytes := gets (fun w => strerror (dv_errno (w_env w))).

Definition remount_partition (fd : Z) (dir : bytes) : M W bool :=
  let* w := get in
  if negb (directory_exists dir (w_env w)) then ret true else
  let dev := find_mount dir (w_env w) in
  if bool_decide (dev = []) then ret true else
  let* ok := make_block_device_writable dev in
  if negb ok then
    let* error := errno_text in
    say fd (str "remount of " ++ dir ++ str " failed; couldn't make block device " ++ dev ++ str " writable: " ++ error ++ newline) ;;;
    ret false
  else
    let* ok := dev_call (dv_remount dev dir) in
    if negb ok then
      let* error := errno_text in
      say fd (str "remount of " ++ dir ++ str " failed: " ++ error ++ newline) ;;; ret false
    else ret true.

Definition verity_warning (system_verified vendor_verified : bool) : bytes :=
  let both := system_verified && vendor_verified in
  str "dm_verity is enabled on the " ++ (if system_verified then str "system" else []) ++ (if both then str " and " else []) ++
  (if vendor_verified then str "vendor" else []) ++ str " partition" ++ (if both then str "s" else []) ++ str "." ++ newline.

Definition remount_service (fd : Z) : M W unit :=
  if negb (daemon_uid =? 0)%Z then
    say fd (str "Not running as root. Try " ++ [byte_of 34] ++ str "adb root" ++ [byte_of 34] ++ str " first." ++ newline) ;;; adb_close fd
  else
    let system_verified := negb (bool_decide (GetProperty (str "partition.system.verified") = [])) in
    let vendor_verified := negb (bool_decide (GetProperty (str "partition.vendor.verified") = [])) in
    when (system_verified || vendor_verified) (
      say fd (verity_warning system_verified vendor_verified) ;;;
      say fd (str "Use " ++ [byte_of 34] ++ str "adb disable-verity" ++ [byte_of 34] ++ str " to disable verity." ++ newline ++
              str "If you do not, remount may succeed, however, you will still " ++ str "not be able to write to these volumes." ++ newline)) ;;;
    let* system := remount_partition fd (if GetBoolProperty (str "ro.build.system_root_image") false then str "/" else str "/system") in
    let* vendor := remount_partition fd (str "/vendor") in
    let* oem := remount_partition fd (str "/oem") in
    say fd (if system && vendor && oem then line "remount succeeded" else line "remount failed") ;;;
    adb_close fd.

(** ** verity *)

Definition on_off (enable : bool) : bytes := if enable then str "enabled" else str "disabled".

Definition set_verity_enabled_state (fd : Z) (block_device mount_point : bytes) (enable : bool) : M W bool :=
  let* ok := make_block_device_writable block_device in
  if negb ok then
    let* error := errno_text in say fd (str "Could not make block device " ++ block_device ++ str " writable (" ++ error ++ str ")." ++ newline) ;;; ret false
  else
    let* fh := dev_call (fec_open block_device) in
    match fh with
    | None =>
        let* error := errno_text in
        say fd (str "Could not open block device " ++ block_device ++ str " (" ++ error ++ str ")." ++ newline) ;;;
        say fd (line "Maybe run adb root?") ;;; ret false
    | Some fh =>
        let* w := get in
        match fec_disabled fh (w_env w) with
        | None => say fd (line "Couldn't find verity metadata!") ;;; ret false
        | Some disabled =>
            if negb enable && disabled then say fd (str "Verity already disabled on " ++ mount_point ++ newline) ;;; ret false
            else if enable && negb disabled then say fd (str "Verity already enabled on " ++ mount_point ++ newline) ;;; ret false
            else
              let* ok := dev_call (fec_set_status fh enable) in
              if negb ok then
                let* error := errno_text in
                say fd (str "Could not set verity " ++ on_off enable ++ str " flag on device " ++ block_device ++ str " with error " ++ error ++ newline) ;;; ret false
              else say fd (str "Verity " ++ on_off enable ++ str " on " ++ mount_point ++ newline) ;;; ret true
        end
    end.

Definition get_ab_suffix : bytes :=
  let ab_suffix := match GetProperty (str "ro.boot.slot_suffix") with [] => GetProperty (str "ro.boot.slot") | s => s end in
  match ab_suffix with
  | a :: _ => if Ascii.eqb a (byte_of 95) then ab_suffix else byte_of 95 :: ab_suffix
  | [] => []
  end.

Definition set_avb_verity_enabled_state (fd : Z) (enable_verity : bool) : M W bool :=
  let* w := get in
  match avb_verity_get get_ab_suffix (w_env w) with
  | None => say fd (line "Error getting verity state") ;;; ret false
  | Some verity_enabled =>
      if (verity_enabled && enable_verity) || (negb verity_enabled && negb enable_verity)
      then say fd (str "verity is already " ++ on_off verity_enabled ++ newline) ;;; ret false
      else
        let* ok := dev_call (avb_verity_set get_ab_suffix enable_verity) in
        if negb ok then say fd (line "Error setting verity") ;;; ret false
        else say fd (str "Successfully " ++ on_off enable_verity ++ str " verity" ++ newline) ;;; ret true
  end.

Fixpoint set_verity_partitions (fd : Z) (recs : list (bytes * bytes)) (enable any_changed : bool) : M W bool :=
  match recs with
  | [] => ret any_changed
  | (blk_device, mount_point) :: rest =>
      let* changed := set_verity_enabled_state fd blk_device mount_point enable in
      set_verity_partitions fd rest enable (any_changed || changed)
  end.

(** [None]: it returns. *)
Definition verity_change (fd : Z) (enable : bool) : M W (option bool) :=
  let using_avb := negb (bool_decide (GetProperty (str "ro.boot.vbmeta.digest") = [])) in
  when (negb using_avb && negb kAllowDisableVerity)
    (say fd ((if enable then str "enable" else str "disable") ++ str "-verity only works for userdebug builds" ++ newline)) ;;;
  if negb using_avb && negb (GetBoolProperty (str "ro.secure") false) then say fd (line "verity not enabled - ENG build") ;;; ret None
  else if negb daemon_debuggable then say fd (line "verity cannot be disabled/enabled - USER build") ;;; ret None
  else if using_avb then
    let* ops := dev_call avb_ops_new in
    if negb ops then say fd (line "Error getting AVB ops") ;;; ret None
    else let* changed := set_avb_verity_enabled_state fd enable in ret (Some changed)
  else
    let* w := get in
    match fs_mgr_verified (w_env w) with
    | None => say fd (line "Failed to read fstab" ++ line "Maybe run adb root?") ;;; ret None
    | Some recs => let* changed := set_verity_partitions fd recs enable false in ret (Some changed)
    end.

(** The descriptor is a [unique_fd]. *)
Definition set_verity_enabled_state_service (enable : bool) (fd : Z) : M W unit :=
  let* r := verity_change fd enable in
  when (default false r) (say fd (line "Now reboot your device for settings to take effect")) ;;;
  adb_close fd.

(** ** framebuffer *)

Definition DDMS_RAWIMAGE_VERSION : Z := 2.
Definition FB_CHUNK : Z := 640.

Record fbinfo := {
  fb_version : Z; fb_bpp : Z; fb_colorSpace : Z; fb_size : Z; fb_width : Z; fb_height : Z;
  fb_red_offset : Z; fb_red_length : Z; fb_blue_offset : Z; fb_blue_length : Z;
  fb_green_offset : Z; fb_green_length : Z; fb_alpha_offset : Z; fb_alpha_length : Z;
}.

Definition fbinfo_bytes (i : fbinfo) : bytes :=
  concat (map (fun z => le_encode 4 (u32 z))
    [fb_version i; fb_bpp i; fb_colorSpace i; fb_size i; fb_width i; fb_height i; fb_red_offset i; fb_red_length i;
     fb_blue_offset i; fb_blue_length i; fb_green_offset i; fb_green_length i; fb_alpha_offset i; fb_alpha_length i]).

(** The layout of a format of hardware.h, and how many bytes a pixel has. *)
Definition pixel_format (w h c f : Z) : option (fbinfo * Z) :=
  let info bpp size ro rl bo bl go gl ao al :=
    {| fb_version := DDMS_RAWIMAGE_VERSION; fb_bpp := bpp; fb_colorSpace := u32 c; fb_size := u32 (w * h * size); fb_width := u32 w; fb_height := u32 h;
       fb_red_offset := ro; fb_red_length := rl; fb_blue_offset := bo; fb_blue_length := bl;
       fb_green_offset := go; fb_green_length := gl; fb_alpha_offset := ao; fb_alpha_length := al |} in
  match f with
  | 1 => Some (info 32 4 0 8 16 8 8 8 24 8, 4)
  | 2 => Some (info 32 4 0 8 16 8 8 8 24 0, 4)
  | 3 => Some (info 24 3 0 8 16 8 8 8 24 0, 3)
  | 4 => Some (info 16 2 11 5 0 5 5 6 0 0, 2)
  | 5 => Some (info 32 4 16 8 0 8 8 8 24 8, 4)
  | _ => None
  end%Z.

Definition int_ok (z : Z) : bool := ((- 2 ^ 31 <=? z) && (z <? 2 ^ 31))%Z.

Definition read_fd (fd n : Z) : M W (option bytes) :=
  let* r := on_env (ReadFdExactly fd n) in ret (match r with RX_ok bs => Some bs | RX_fail _ => None end).

Definition read_int (fd : Z) : M W (option Z) := let* r := read_fd fd 4 in ret (option_map (fun bs => i32 (le_decode bs)) r).

(** The pixels, from [i] on; the sums wrap. *)
Fixpoint copy_pixels (fuel : nat) (src dst i size : Z) : M W unit :=
  if (i <? size)%Z then
    match fuel with
    | O => no_fuel
    | S f =>
        let bsize := if (size <? u32 (i + FB_CHUNK))%Z then u32 (size - i) else FB_CHUNK in
        let* buf := read_fd src bsize in
        match buf with
        | None => ret tt
        | Some buf =>
            let* ok := write_fd dst buf in
            if negb ok then ret tt else copy_pixels f src dst (u32 (i + bsize)) size
        end
    end
  else ret tt.

(** What is sent of the picture that [fd_screencap] gives. *)
Definition send_picture (fd_screencap fd : Z) : M W unit :=
  let* w := read_int fd_screencap in
  match w with None => ret tt | Some w =>
  let* h := read_int fd_screencap in
  match h with None => ret tt | Some h =>
  let* f := read_int fd_screencap in
  match f with None => ret tt | Some f =>
  let* c := read_int fd_screencap in
  match c with None => ret tt | Some c =>
  match pixel_format w h c f with
  | None => ret tt
  | Some (fbinfo, n) =>
      check (int_ok (w * h) && int_ok (w * h * n)) "signed overflow" ;;;
      let* ok := write_fd fd (fbinfo_bytes fbinfo) in
      if negb ok then ret tt else copy_pixels (S (Z.to_nat (fb_size fbinfo / FB_CHUNK))) fd_screencap fd 0 (fb_size fbinfo)
  end end end end end.

(** When [fork] fails, it waits for any child, and the end of the pipe to write
    to stays open. *)
Definition framebuffer_service (fd : Z) : M W unit :=
  let* fds := dev_call dv_pipe2 in
  match fds with
  | None => adb_close fd
  | Some (fds0, fds1) =>
      let* pid := dev_call (fork_screencap fds1) in
      (match pid with Some _ => adb_close fds1 ;;; send_picture fds0 fd | None => ret tt end) ;;;
      adb_close fds0 ;;;
      run_env (dv_waitpid (default (-1)%Z pid)) ;;;
      adb_close fd
  end.

(** ** wait-for and connect, in the server *)

Fixpoint wait_for_state (fuel : nat) (type : TransportType) (serial : bytes) (state : ConnectionState) (fd : Z) : M W unit :=
  match fuel with
  | O => no_fuel
  | S f =>
      let* r := acquire_transport type (match serial with [] => None | s => Some (c_str s) end) false in
      let* w := get in
      let reached := match acq_result r with
                     | Some t => bool_decide (state = kCsAny) || bool_decide (state = connection_state_of w t)
                     | None => false
                     end in
      if reached then okay fd ;;; adb_close fd
      else if negb (acq_ambiguous r) then
        let* p := (fun w => let '(p, w) := poll_second fd w in Done p w) in
        match p with
        | PollFailed => fail fd (acq_error r) ;;; adb_close fd
        | PollReady revents => if flag revents POLLHUP then adb_close fd else wait_for_state f type serial state fd
        | PollTimeout => wait_for_state f type serial state fd
        end
      else fail fd (acq_error r) ;;; adb_close fd
  end.

Definition connect_emulator (port_spec : bytes) : M W bytes :=
  match Split port_spec (byte_of 44) with
  | [console; adb] =>
      let console_port := i32 (strtol (c_str console) 0) in
      let adb_port := i32 (strtol (c_str adb) 0) in
      if ((console_port <=? 0) || (adb_port <=? 0))%Z then ret (str "Invalid port numbers: " ++ port_spec) else
      let* known_emulator := find_emulator_transport_by_adb_port adb_port in
      match known_emulator with
      | Some _ => ret (str "Emulator already registered on port " ++ dec adb_port)
      | None =>
          let* candidate_slot := get_available_local_transport_index in
          match candidate_slot with
          | None => ret (str "Cannot accept more emulators")
          | Some _ =>
              let* (ok, error) := local_connect_arbitrary_ports console_port adb_port in
              ret (if ok : bool then str "Connected to emulator on ports " ++ dec console_port ++ str "," ++ dec adb_port
                   else str "Could not connect to emulator on ports " ++ dec console_port ++ str "," ++ dec adb_port ++ str ": " ++ c_str error)
          end
      end
  | _ => ret (str "unable to parse '" ++ port_spec ++ str "' as <console port>,<adb port>")
  end.

Definition connect_service (host : bytes) (fd : Z) : M W unit :=
  let* response := if is_prefix (str "emu:") host then connect_emulator (drop 4 host) else connect_device host in
  let* _ := SendProtocolString_fd fd response in
  adb_close fd.

(** ** service_bootstrap_func *)

(** [sync]: the thread of file_sync_service.cpp. *)
Definition run_service (sync : Z -> M E unit) (fuel : nat) (f : service_thread) (fd : Z) : M W unit :=
  match f with
  | svc_wait_for_state type serial state => wait_for_state fuel type serial state fd
  | svc_connect host => connect_service host fd
  | svc_framebuffer => framebuffer_service fd
  | svc_file_sync => on_env (sync fd)
  | svc_remount => remount_service fd
  | svc_reboot arg => reboot_service arg fd
  | svc_restart_root => restart_root_service fd
  | svc_restart_unroot => restart_unroot_service fd
  | svc_restart_tcp port => restart_tcp_service port fd
  | svc_restart_usb => restart_usb_service fd
  | svc_verity enabled => set_verity_enabled_state_service enabled fd
  | svc_reconnect t => reconnect_service t fd
  end.

End ServiceThreads.

(** * Properties of the threads of the services *)

(** ** From one descriptor to another

    [rx]: what [src] has still to give; [tx]: what [dst] was given. *)
Class Splice (E : Type) {K : Kernel E} (src dst : Z) (rx tx : E -> bytes) := {
  splice_read n e : (0 < n)%Z ->
    exists bs e', adb_read src n e = (RdOk bs, e') /\ rx e = bs ++ rx e' /\ (Zlen bs <= n)%Z /\ (bs = [] -> rx e = []) /\ tx e' = tx e;
  splice_write buf e : buf <> [] ->
    (exists n e', adb_write dst buf e = (WrOk n, e') /\ (0 < n <= Zlen buf)%Z /\ tx e' = tx e ++ take (Z.to_nat n) buf /\ rx e' = rx e) \/
    (exists e', adb_write dst buf e = (WrErr EAGAIN, e') /\ tx e' = tx e /\ rx e' = rx e);
}.

Section Picture.
Context {E : Type} {K : Kernel E} {KL : KernelLaws E} (src dst : Z) (rx tx : E -> bytes) {SPL : Splice E src dst rx tx}.
Abbreviation W := (world E).
Implicit Types (e : E) (w : W).

Lemma read_splice fuel len acc e (Q : rx_result -> E -> Prop) : (0 <= len <= Zlen (rx e))%Z -> Z.to_nat len <= fuel ->
  (forall e', rx e' = drop (Z.to_nat len) (rx e) -> tx e' = tx e -> Q (RX_ok (acc ++ take (Z.to_nat len) (rx e))) e') ->
  twp (ReadFdExactly_loop fuel src len acc) Q e.
Proof.
  revert len acc e. induction fuel as [|fuel IH]; intros len acc e Hl Hf HQ; cbn [ReadFdExactly_loop].
  - rewrite (proj2 (Z.ltb_ge _ _)) by lia. apply twp_ret. replace (Z.to_nat len) with 0 in HQ by lia. specialize (HQ e). rewrite take_0, drop_0, app_nil_r in HQ. by apply HQ.
  - destruct (Z.ltb_spec 0 len) as [Hpos|].
    2:{ apply twp_ret. replace (Z.to_nat len) with 0 in HQ by lia. specialize (HQ e). rewrite take_0, drop_0, app_nil_r in HQ. by apply HQ. }
    apply twp_bind. unfold twp at 1, sys_read. destruct (splice_read len e Hpos) as (bs & e1 & -> & Hrx & Hlen & Hnil & Htx).
    destruct bs as [|b bs]; [rewrite Hnil in Hl by done; cbn in Hl; lia|]. set (chunk := b :: bs) in *. assert (0 < Zlen chunk)%Z by (cbn; lia).
    rewrite Hrx, length_app in Hl. apply IH; [lia|lia|]. intros e2 H2 T2. rewrite <- app_assoc.
    replace (chunk ++ take _ (rx e1)) with (take (Z.to_nat len) (rx e)).
    + apply HQ; [|congruence]. rewrite H2, Hrx, drop_app_ge by lia. f_equal. lia.
    + rewrite Hrx, take_app_ge by lia. f_equal. f_equal. lia.
Qed.

Lemma write_splice fuel buf e (Q : wx_result -> E -> Prop) : length buf + refusals dst e <= fuel ->
  (forall e', tx e' = tx e ++ buf -> rx e' = rx e -> Q WX_ok e') -> twp (WriteFdExactly fuel dst buf) Q e.
Proof.
  unfold WriteFdExactly. revert buf e. induction fuel as [|fuel IH]; intros buf e Hf HQ.
  - destruct buf; [|cbn in Hf; lia]. apply twp_ret, HQ; by rewrite ?app_nil_r.
  - destruct buf as [|b buf]; [apply twp_ret, HQ; by rewrite ?app_nil_r|]. cbn [WriteFdExactly_loop]. set (all := b :: buf) in *.
    assert (Hne : all <> []) by done. apply twp_bind. unfold twp at 1, sys_write.
    destruct (splice_write all e Hne) as [(n & e1 & Hw & Hn & Ht & Hr)|(e1 & Hw & Ht & Hr)]; rewrite Hw; destruct (write_progress _ _ _ _ _ Hw) as [Hle Hlt].
    + apply IH; [rewrite length_drop; lia|]. intros e2 T2 R2. apply HQ; [|congruence]. by rewrite T2, Ht, <- app_assoc, take_drop.
    + specialize (Hlt Hne (or_intror eq_refl)). apply IH; [lia|]. intros e2 T2 R2. apply HQ; congruence.
Qed.

Lemma read_fd_splice n w (Q : option bytes -> W -> Prop) : (0 <= n <= Zlen (rx (w_env w)))%Z ->
  (forall w', rx (w_env w') = drop (Z.to_nat n) (rx (w_env w)) -> tx (w_env w') = tx (w_env w) -> Q (Some (take (Z.to_nat n) (rx (w_env w)))) w') ->
  twp (read_fd src n) Q w.
Proof.
  intros Hn HQ. unfold read_fd. apply twp_bind, twp_on_env. unfold ReadFdExactly. apply read_splice; [done|done|]. intros e' H1 H2. apply twp_ret. by apply HQ.
Qed.

Lemma write_fd_splice buf w (Q : bool -> W -> Prop) :
  (forall w', tx (w_env w') = tx (w_env w) ++ buf -> rx (w_env w') = rx (w_env w) -> Q true w') -> twp (write_fd dst buf) Q w.
Proof.
  intros HQ. unfold write_fd. apply twp_bind, twp_get, twp_bind, twp_on_env. apply write_splice; [done|]. intros e' H1 H2. apply twp_ret. by apply HQ.
Qed.

Lemma read_int_splice z w rest (Q : option Z -> W -> Prop) : (- 2 ^ 31 <= z < 2 ^ 31)%Z -> rx (w_env w) = le_encode 4 (u32 z) ++ rest ->
  (forall w', rx (w_env w') = rest -> tx (w_env w') = tx (w_env w) -> Q (Some z) w') -> twp (read_int src) Q w.
Proof.
  intros Hz Hrx HQ. assert (Hl : length (le_encode 4 (u32 z)) = 4) by apply length_le_encode. unfold read_int. apply twp_bind, read_fd_splice.
  - rewrite Hrx, length_app. lia.
  - intros w' H1 H2. apply twp_ret. rewrite Hrx in *. change (Z.to_nat 4) with 4 in *. rewrite <- Hl, drop_app_length in H1. rewrite <- Hl at 1. rewrite take_app_length.
    cbn [option_map]. rewrite le32_roundtrip by apply u32_range. replace (i32 (u32 z)) with z; [by apply HQ|].
    unfold i32, u32. rewrite Zplus_mod_idemp_l, Z.mod_small by lia. lia.
Qed.

Lemma take_add {A} n m (l : list A) : take (n + m) l = take n l ++ take m (drop n l).
Proof. revert l. induction n as [|n IH]; intros [|x l]; cbn; rewrite ?take_nil; [done..|by rewrite IH]. Qed.

(** In chunks of 640 bytes, the last of them shorter. *)
Lemma copy_pixels_all fuel i size w (Q : unit -> W -> Prop) : (0 <= i <= size)%Z -> (size + FB_CHUNK < 2 ^ 32)%Z ->
  (size - i <= FB_CHUNK * Z.of_nat fuel)%Z -> (size - i <= Zlen (rx (w_env w)))%Z ->
  (forall w', tx (w_env w') = tx (w_env w) ++ take (Z.to_nat (size - i)) (rx (w_env w)) -> rx (w_env w') = drop (Z.to_nat (size - i)) (rx (w_env w)) -> Q tt w') ->
  twp (copy_pixels fuel src dst i size) Q w.
Proof.
  unfold FB_CHUNK. revert i w. induction fuel as [|fuel IH]; intros i w Hi Hs Hf Hrx HQ; cbn [copy_pixels].
  - rewrite (proj2 (Z.ltb_ge _ _)) by lia. apply twp_ret. replace (size - i)%Z with 0%Z in HQ by lia. apply HQ; by rewrite ?app_nil_r.
  - destruct (Z.ltb_spec i size); [|apply twp_ret; replace (size - i)%Z with 0%Z in HQ by lia; apply HQ; by rewrite ?app_nil_r].
    unfold FB_CHUNK. rewrite (u32_small (i + 640)) by lia. set (bsize := if (size <? i + 640)%Z then u32 (size - i) else 640%Z).
    assert (Hb : bsize = Z.min 640 (size - i)) by (unfold bsize; destruct (Z.ltb_spec size (i + 640)); rewrite ?u32_small by lia; lia).
    rewrite Hb. clear bsize Hb. set (n := Z.min 640 (size - i)).
    apply twp_bind, read_fd_splice; [lia|]. intros w1 R1 T1. apply twp_bind, write_fd_splice. intros w2 T2 R2. cbn [negb]. rewrite u32_small by lia.
    apply IH; [lia|lia|lia|rewrite R2, R1, length_drop; lia|]. intros w3 T3 R3. apply HQ.
    + rewrite T3, T2, R2, R1, T1, <- app_assoc. f_equal.
      replace (Z.to_nat (size - i)) with (Z.to_nat n + Z.to_nat (size - (i + n))) by lia. symmetry. apply take_add.
    + rewrite R3, R2, R1, drop_drop. f_equal. lia.
Qed.

(** A picture of the screen: when the process that takes it gives a size, a
    format that is known and as many pixels as that makes, the client gets the
    description of the format and the pixels, all of them and in order. *)
Theorem picture_arrives width height c f info n pixels rest w :
  (0 <= width < 2 ^ 31)%Z -> (0 <= height < 2 ^ 31)%Z -> (- 2 ^ 31 <= c < 2 ^ 31)%Z -> (width * height * n < 2 ^ 31)%Z ->
  pixel_format width height c f = Some (info, n) -> Zlen pixels = (width * height * n)%Z ->
  rx (w_env w) = le_encode 4 (u32 width) ++ le_encode 4 (u32 height) ++ le_encode 4 (u32 f) ++ le_encode 4 (u32 c) ++ pixels ++ rest ->
  twp (send_picture src dst) (fun _ w' => tx (w_env w') = tx (w_env w) ++ fbinfo_bytes info ++ pixels /\ rx (w_env w') = rest) w.
Proof.
  intros Hw Hh Hc Hsize Hf Hp Hrx.
  assert (Hn : (2 <= n <= 4)%Z /\ fb_size info = u32 (width * height * n) /\ (1 <= f <= 5)%Z).
  { unfold pixel_format in Hf. destruct f as [|[[[]|[]|]|[[]|[]|]|]|]; simplify_eq; cbn; (split; [lia|split; [done|lia]]). }
  destruct Hn as (Hn & Hs & Hfr). assert (Hwh : (0 <= width * height)%Z) by nia.
  unfold send_picture.
  apply twp_bind, (read_int_splice width _ _ _ ltac:(lia) Hrx). intros w1 R1 T1.
  apply twp_bind, (read_int_splice height _ _ _ ltac:(lia) R1). intros w2 R2 T2.
  apply twp_bind, (read_int_splice f _ _ _ ltac:(lia) R2). intros w3 R3 T3.
  apply twp_bind, (read_int_splice c _ _ _ ltac:(lia) R3). intros w4 R4 T4. rewrite Hf.
  apply twp_bind. unfold twp at 1, check, int_ok. rewrite !(proj2 (Z.leb_le _ _)), !(proj2 (Z.ltb_lt _ _)) by nia. cbn [andb].
  apply twp_bind, write_fd_splice. intros w5 T5 R5. cbn [negb]. rewrite u32_small in Hs by nia. rewrite Hs. set (size := (width * height * n)%Z) in *.
  assert (0 <= size)%Z by nia. rewrite R4 in R5.
  apply copy_pixels_all; [lia|unfold FB_CHUNK; lia| | |].
  - unfold FB_CHUNK. pose proof (Z.div_mod size 640). pose proof (Z.mod_pos_bound size 640). assert (0 <= size / 640)%Z by (apply Z.div_pos; lia). lia.
  - rewrite R5, length_app. lia.
  - intros w6 T6 R6. rewrite Z.sub_0_r, R5 in T6, R6. assert (Hl : Z.to_nat size = length pixels) by lia. rewrite Hl in T6, R6.
    rewrite take_app_length in T6. rewrite drop_app_length in R6. split; [|done]. rewrite T6, T5, T4, T3, T2, T1, <- !app_assoc. done.
Qed.

End Picture.

(** ** A small screen

    Reads give at most 7 bytes, writes take at most 5. *)

Record reel := { rl_in : bytes; rl_out : bytes }.

#[export] Instance reel_fd_ops : FdOps reel := {
  adb_read fd n r := (RdOk (take (Z.to_nat (Z.min n 7)) (rl_in r)), {| rl_in := drop (Z.to_nat (Z.min n 7)) (rl_in r); rl_out := rl_out r |});
  adb_write fd buf r := (WrOk (Zlen (take 5 buf)), {| rl_in := rl_in r; rl_out := rl_out r ++ take 5 buf |});
  adb_shutdown _ r := r;
  strerror _ := str "error";
}.

#[export] Instance reel_kernel : Kernel reel := { refusals _ _ := 0; pipe_put _ _ r := (true, r); pipe_get _ r := (None, r) }.

#[export] Instance reel_kernel_laws : KernelLaws reel.
Proof.
  split.
  - intros fd buf r r' n H. cbn in H. simplify_eq. rewrite length_take. lia.
  - intros fd buf r r' res H. cbn in H. simplify_eq. split; [done|]. intros Hb [[= H]|]; [destruct buf; [done|]; cbn in H; lia|done].
  - intros fd n r r' bs Hn H. cbn in H. simplify_eq. rewrite length_take. lia.
Qed.

#[export] Instance reel_splice src dst : Splice reel src dst rl_in rl_out.
Proof.
  split.
  - intros n r Hn. eexists _, _. split; [done|]. cbn. rewrite take_drop, length_take. split; [done|]. split; [lia|]. split; [|done].
    destruct (rl_in r); [done|]. replace (Z.to_nat (Z.min n 7)) with (S (Z.to_nat (Z.min n 7 - 1))) by lia. done.
  - intros buf r Hb. assert (0 < length buf) by (destruct buf; [done|cbn; lia]).
    left. eexists _, _. split; [done|]. cbn [rl_out rl_in]. rewrite Nat2Z.id, length_take. split; [lia|].
    split; [|done]. f_equal. destruct (Nat.min_spec 5 (length buf)) as [[? ->]|[? ->]]; [done|]. rewrite !take_ge by lia. done.
Qed.

(** 24 by 20 pixels of two bytes: 960 bytes, two chunks. *)
Definition pixels : bytes := concat (replicate 480 [byte_of 0x1f; byte_of 0xf8]).

Definition screen_world : world reel := idle_world false [] ∅
  {| rl_in := le_encode 4 24 ++ le_encode 4 20 ++ le_encode 4 4 ++ le_encode 4 1 ++ pixels ++ str "more"; rl_out := [] |}.

Lemma picture_arrives_witness : exists info,
  pixel_format 24 20 1 4 = Some (info, 2%Z) /\ fb_bpp info = 16%Z /\
  twp (send_picture 30 31) (fun _ w => rl_out (w_env w) = fbinfo_bytes info ++ pixels /\ rl_in (w_env w) = str "more") screen_world.
Proof.
  eexists. split; [vm_compute; reflexivity|]. split; [reflexivity|].
  refine (picture_arrives 30 31 rl_in rl_out 24 20 1 4 _ 2 pixels (str "more") screen_world _ _ _ _ _ _ _).
  all: first [lia|vm_compute; reflexivity].
Defined.
