(* ===== verification/Startup.v ===== *)
(** * How the server and the daemon start

    client/main.cpp and daemon/main.cpp up to their event loops, with what they
    call for it: the trace mask (adb_trace.cpp), the sockets of the framework and
    of the processes that can be debugged (adbd_auth.cpp, jdwp_service.cpp), the
    thread that waits for connections (transport_local.cpp), mdns
    (daemon/mdns.cpp). *)

From S2P Require Import Prelude LibBase Packet AdbIo FdEvent Transport World SmartText Sockets SocketIo SocketSpec Listeners.
From S2P Require Import TransportOps Registration Services Connection Demo UsbLinux AuthKeys DaemonUsb ServiceThreads.

(** ** Tracing *)

Definition trace_tags : list bytes :=
  map str ["adb"; "sockets"; "packets"; "transport"; "rwx"; "usb"; "sync"; "sysdeps"; "jdwp"; "services"; "auth"; "fdevent"; "shell"]%string.

Fixpoint tag_of (elem : bytes) (tags : list bytes) (i : Z) : option Z :=
  match tags with
  | [] => None
  | t :: rest => if bool_decide (t = elem) then Some i else tag_of elem rest (i + 1)
  end.

(** [inl]: everything is traced. *)
Definition trace_flag (elem : bytes) : option (unit + Z) :=
  if bool_decide (elem = str "1") || bool_decide (elem = str "all") then Some (inl tt) else inr <$> tag_of elem trace_tags 0.

Fixpoint trace_elements (elements : list bytes) (mask : Z) : Z :=
  match elements with
  | [] => mask
  | elem :: rest =>
      match trace_flag elem with
      | None => trace_elements rest mask
      | Some (inl _) => -1
      | Some (inr tag) => trace_elements rest (Z.lor mask (Z.shiftl 1 tag))
      end
  end.

Definition setup_trace_mask {LB : LibBase} (trace_setting : bytes) (adb_trace_mask : Z) : Z :=
  match trace_setting with [] => adb_trace_mask | _ => trace_elements (Split trace_setting (byte_of 32)) adb_trace_mask end.

(** ** What the daemon gives up *)

(** private/android_filesystem_config.h, linux/capability.h *)
Inductive aid := AID_ADB | AID_LOG | AID_INPUT | AID_INET | AID_NET_BT | AID_NET_BT_ADMIN | AID_SDCARD_R | AID_SDCARD_RW
               | AID_NET_BW_STATS | AID_READPROC | AID_UHID | AID_SHELL.
Inductive capability := CAP_SETUID | CAP_SETGID.

#[export] Instance aid_eq_dec : EqDecision aid.
Proof. solve_decision. Defined.
#[export] Instance capability_eq_dec : EqDecision capability.
Proof. solve_decision. Defined.

(** The calls of libminijail that prepare a jail. *)
Inductive jail_setting :=
| set_supplementary_gids (l : list aid)
| capbset_drop (kept : list capability)
| change_gid (a : aid)
| change_uid (a : aid).

#[export] Instance jail_setting_eq_dec : EqDecision jail_setting.
Proof. solve_decision. Defined.

(** Flags of the build. *)
Class DaemonBuild := {
  ALLOW_ADBD_ROOT : bool;
  ALLOW_ADBD_NO_AUTH : bool;
}.

(** [s_clock]: milliseconds.  [qemu_pipe_open]:
    qemu_pipe.h; [s_dns_register]: dns_sd.h, the parts of mdns that are not
    here. *)
Class StartOs (E : Type) := {
  s_set_property : bytes -> bytes -> E -> E;
  s_wait_for_property : bytes -> bytes -> E -> bool * E;
  s_umask : Z -> E -> E;
  s_ignore_sigpipe : E -> E;
  s_catch_sigint : E -> E;
  s_setenv : bytes -> bytes -> E -> E;
  minijail_enter : list jail_setting -> E -> bool * E;
  selinux_android_setcon : bytes -> E -> bool * E;
  android_get_control_socket : bytes -> E -> Z;
  s_set_cloexec : Z -> E -> E;
  s_listen : Z -> Z -> E -> bool * E;
  s_unix_socket : E -> Z * E;
  s_bind : Z -> bytes -> E -> bool * E;
  s_file_exists : bytes -> E -> bool;
  s_getuid : Z;
  s_open_append : bytes -> E -> Z * E;
  s_dup2 : Z -> Z -> E -> bool * E;
  s_close : Z -> E -> E;
  s_open_read : bytes -> E -> Z * E;
  s_at_quick_exit : E -> E;
  s_setsid : E -> option errno_t * E;
  s_clock : E -> Z * E;
  s_sleep : Z -> E -> E;
  s_print : bytes -> E -> E;
  s_wait_for_init : E -> E;
  WriteStringToFd : bytes -> Z -> E -> bool * E;
  s_dns_register : bytes -> Z -> E -> bool * E;
  s_mdns_discovery : E -> E;
  qemu_pipe_open : bytes -> E -> Z * E;
}.

Section Startup.
Context {E : Type} {K : Kernel E} {B : Build} {PF : Platform} {BN : Banner} {LB : LibBase} {SO : SetOrder} {N : Net E}.
Context {OS : Os E} {CR : Crypto E} {KS : KeyStore E} {FS : FfsState E} {FO : FfsOs E} {DB : DaemonBuild} {BP : BoolProperty} {ST : StartOs E}.
Abbreviation W := (world E).

Definition start_call {A} (f : E -> A * E) : M W A := on_env (fun e => let '(a, e) := f e in Done a e).

(** ** The daemon: privileges *)

Definition is_device_unlocked : bool := bool_decide (GetProperty (str "ro.boot.verifiedbootstate") = str "orange").

(** [debuggable]: [__android_log_is_debuggable()]. *)
Definition drop_capabilities_bounding_set_if_needed (debuggable : bool) (j : list jail_setting) : list jail_setting :=
  if (ALLOW_ADBD_ROOT || is_device_unlocked) && debuggable then j else j ++ [capbset_drop [CAP_SETUID; CAP_SETGID]].

Definition should_drop_privileges (debuggable : bool) : bool :=
  if negb ALLOW_ADBD_ROOT && negb is_device_unlocked then true else
  let ro_secure := GetBoolProperty (str "ro.secure") true in
  let drop := ro_secure in
  let prop := GetProperty (str "service.adb.root") in
  let adb_root := bool_decide (prop = str "1") in
  let adb_unroot := bool_decide (prop = str "0") in
  let drop := if debuggable && adb_root then false else drop in
  if adb_unroot then true else drop.

Definition adbd_groups : list aid :=
  [AID_ADB; AID_LOG; AID_INPUT; AID_INET; AID_NET_BT; AID_NET_BT_ADMIN; AID_SDCARD_R; AID_SDCARD_RW; AID_NET_BW_STATS; AID_READPROC; AID_UHID].

(** [minijail_enter] ends the process when a step fails. *)
Definition enter_jail (j : list jail_setting) : M W unit :=
  let* ok := start_call (minijail_enter j) in if ok : bool then ret tt else fatal "libminijail".

Definition drop_privileges (debuggable : bool) (root_seclabel : option bytes) (server_port : Z) : M W unit :=
  let jail := [set_supplementary_gids adbd_groups] in
  if should_drop_privileges debuggable then
    enter_jail (drop_capabilities_bounding_set_if_needed debuggable jail ++ [change_gid AID_SHELL; change_uid AID_SHELL])
  else
    enter_jail jail ;;;
    (match root_seclabel with
     | None => ret tt
     | Some label => let* ok := start_call (selinux_android_setcon label) in if ok : bool then ret tt else fatal "Could not set SELinux context"
     end) ;;;
    let* r := install_listener (str "tcp:" ++ dec server_port) smartsocket None false false in
    match fst (fst r) with
    | INSTALL_STATUS_OK => ret tt
    | _ => fatal "Could not install *smartsocket* listener"
    end.

(** ** The daemon: what it listens on *)

Definition adbd_cloexec_auth_socket : M W unit :=
  let* w := get in
  let fd := android_get_control_socket (str "adbd") (w_env w) in
  if (fd =? -1)%Z then ret tt else run_env (s_set_cloexec fd).

Definition adbd_auth_init : M W unit :=
  let* w := get in
  let fd := android_get_control_socket (str "adbd") (w_env w) in
  if (fd =? -1)%Z then ret tt else
  let* ok := start_call (s_listen fd 4) in
  if negb ok then ret tt else
  let* listener_fde := alloc in
  on_fds (fdevent_install listener_fde fd fn_auth_listener) ;;;
  on_fds (fdevent_add listener_fde FDE_READ).

Definition JDWP_CONTROL_NAME : bytes := [NUL] ++ str "jdwp-control".

(** 108 is the size of [sun_path]; the descriptor of the control socket, or -1. *)
Definition jdwp_control_init (sockname : bytes) : M W Z :=
  if (108 <=? Zlen sockname)%Z then ret (-1)%Z else
  let* s := start_call s_unix_socket in
  if (s <? 0)%Z then ret (-1)%Z else
  let* ok := start_call (s_bind s sockname) in
  if negb ok then adb_close s ;;; ret (-1)%Z else
  let* ok := start_call (s_listen s 4) in
  if negb ok then adb_close s ;;; ret (-1)%Z else
  let* l := alloc in
  let* _ := on_fds (fdevent_create l s fn_jdwp_control) in
  on_fds (fdevent_add l FDE_READ) ;;;
  ret s.

Definition init_jdwp : M W Z := jdwp_control_init JDWP_CONTROL_NAME.

Definition use_qemu_goldfish : bool :=
  GetBoolProperty (str "ro.kernel.qemu") false || bool_decide (GetProperty (str "service.adb.transport") = str "goldfish").

Definition local_init (port : Z) : M W unit :=
  run_env (start_thread (if ADB_HOST then thr_client_socket else if use_qemu_goldfish then thr_qemu_socket port else thr_server_socket port)).

(** The thread of [setup_mdns]. *)
Definition start_mdns : M E unit :=
  if bool_decide (GetProperty (str "init.svc.mdnsd") = str "running") then ret tt else
  modify (s_set_property (str "ctl.start") (str "mdnsd")) ;;;
  let* _ := (fun e => let '(ok, e) := s_wait_for_property (str "init.svc.mdnsd") (str "running") e in Done ok e) in ret tt.

(** Registered, it says, whether or not it worked. *)
Definition setup_mdns_thread (port : Z) : M E bool :=
  start_mdns ;;;
  let serial := match GetProperty (str "ro.serialno") with [] => str "unidentified" | s => s end in
  let* ok := (fun e => let '(ok, e) := s_dns_register (str "adb-" ++ serial) (u16 port) e in Done ok e) in
  let mdns_registered := if negb ok then false else true in
  let mdns_registered := true in
  ret mdns_registered.

Definition setup_port (port : Z) : M W unit :=
  local_init port ;;; run_env (start_thread (thr_mdns port)).

(** ** The daemon: adbd_main, up to the event loop *)

Definition auth_needed : bool := negb ((ALLOW_ADBD_NO_AUTH || is_device_unlocked) && negb (GetBoolProperty (str "ro.adb.secure") false)).

Definition tcp_port_property : bytes :=
  match GetProperty (str "service.adb.tcp.port") with [] => GetProperty (str "persist.adb.tcp.port") | p => p end.

Definition adbd_main (debuggable : bool) (root_seclabel : option bytes) (server_port : Z) : M W unit :=
  run_env (s_umask 0) ;;;
  run_env s_ignore_sigpipe ;;;
  init_transport_registration ;;;
  adbd_cloexec_auth_socket ;;;
  (if auth_needed then ret tt
   else upd_auth (fun a => {| au_required := false; au_framework_fde := au_framework_fde a; au_framework_fd := au_framework_fd a;
                              au_usb_transport := au_usb_transport a; au_needs_retry := au_needs_retry a |})) ;;;
  adbd_auth_init ;;;
  (match getenv (str "ADB_EXTERNAL_STORAGE") with
   | Some storage => run_env (s_setenv (str "EXTERNAL_STORAGE") storage)
   | None => ret tt
   end) ;;;
  drop_privileges debuggable root_seclabel server_port ;;;
  let* w := get in
  let is_usb := s_file_exists USB_FFS_ADB_EP0 (w_env w) in
  when is_usb (on_env daemon_usb_init) ;;;
  (match scan_int tcp_port_property with
   | Some port => if (0 <? port)%Z then setup_port port else when (negb is_usb) (setup_port DEFAULT_ADB_LOCAL_TRANSPORT_PORT)
   | None => when (negb is_usb) (setup_port DEFAULT_ADB_LOCAL_TRANSPORT_PORT)
   end) ;;;
  let* _ := init_jdwp in
  ret tt.

(** ** The daemon: the threads that accept connections *)

(** A turn: a server socket if there is none yet, else a connection. *)
Definition server_socket_turn (port serverfd : Z) : M W Z :=
  let* serverfd := (if (serverfd =? -1)%Z then let* r := on_env (network_inaddr_any_server port) in ret (fst r) else ret serverfd) in
  if (serverfd <? 0)%Z then ret serverfd else
  let* fd := on_env (adb_socket_accept serverfd) in
  (if (0 <=? fd)%Z then
     on_env (disable_tcp_nagle fd) ;;;
     let* ok := register_socket_transport fd (str "host-" ++ dec fd) port true in
     if ok : bool then ret tt else adb_close fd
   else ret tt) ;;;
  ret serverfd.

Definition qemu_con_name (port : Z) : bytes := take 31 (str "pipe:qemud:adb:" ++ dec port).

Definition qemu_write (fd : Z) (s : bytes) : M W bool :=
  let* w := get in let* r := on_env (WriteFdExactly (reply_fuel fd (w_env w) (length s)) fd s) in ret (wx_bool r).

(** A turn on the pipe [fd]; the next pipe, or [None] when the thread ends. *)
Definition qemu_socket_turn (port fd : Z) : M W (option Z) :=
  let* sent := qemu_write fd (str "accept") in
  if negb sent then ret None else
  let* r := on_env (ReadFdExactly fd 2) in
  (if match r with RX_ok tmp => bool_decide (tmp = str "ok") | RX_fail _ => false end then
     let* ok := register_socket_transport fd (str "host-" ++ dec fd) port true in
     let* ok := (if ok : bool then qemu_write fd (str "start") else ret false) in
     if ok : bool then ret tt else adb_close fd
   else adb_close fd) ;;;
  let* fd := start_call (qemu_pipe_open (qemu_con_name port)) in
  ret (if (fd <? 0)%Z then None else Some fd).

(** Its start: without the service of the emulator, TCP. *)
Definition qemu_socket_start (port : Z) : M W (option Z) :=
  let* fd := start_call (qemu_pipe_open (qemu_con_name port)) in
  if (fd <? 0)%Z then run_env (start_thread (thr_server_socket port)) ;;; ret None else ret (Some fd).

(** ** The server: adb_server_main, up to the event loop *)

Definition log_file_path : bytes := default (str "/tmp") (getenv (str "TMPDIR")) ++ str "/adb." ++ dec (u32 s_getuid) ++ str ".log".

Definition setup_daemon_logging (pid : Z) : M W unit :=
  let* fd := start_call (s_open_append log_file_path) in
  if (fd =? -1)%Z then fatal "cannot open the log file" else
  let* ok := start_call (s_dup2 fd 1) in
  if negb ok then fatal "cannot redirect stdout" else
  let* ok := start_call (s_dup2 fd 2) in
  if negb ok then fatal "cannot redirect stderr" else
  run_env (s_close fd) ;;;
  run_env (s_print (str "--- adb starting (pid " ++ dec pid ++ str ") ---" ++ [byte_of 10])).

Definition close_stdin : M W unit :=
  let* fd := start_call (s_open_read (str "/dev/null")) in
  if (fd =? -1)%Z then fatal "failed to open /dev/null" else
  let* ok := start_call (s_dup2 fd 0) in
  if negb ok then fatal "failed to redirect stdin to /dev/null" else run_env (s_close fd).

(** At exit. *)
Definition adb_server_cleanup : M W unit := close_smartsockets ;;; kick_all_transports.

(** Half a second, for the server that was there before. *)
Fixpoint install_smartsocket (fuel : nat) (socket_spec : bytes) (start : Z) : M W unit :=
  match fuel with
  | O => no_fuel
  | S f =>
      let* r := install_listener socket_spec smartsocket None false false in
      match fst (fst r) with
      | INSTALL_STATUS_OK => ret tt
      | _ =>
          let* now := start_call s_clock in
          if (500 <? now - start)%Z then fatal "could not install *smartsocket* listener" else
          run_env (s_sleep 100) ;;;
          install_smartsocket f socket_spec start
      end
  end.

(** The thread that tells the process which started the server. *)
Definition notify_parent (ack_reply_fd : Z) : M E unit :=
  modify s_wait_for_init ;;;
  let* ok := (fun e => let '(ok, e) := WriteStringToFd (str "OK" ++ [byte_of 10]) ack_reply_fd e in Done ok e) in
  if negb ok then fatal "error writing ACK" else modify (s_close ack_reply_fd).

Definition adb_server_main (fuel : nat) (is_daemon : bool) (socket_spec : bytes) (ack_reply_fd pid : Z) : M W unit :=
  run_env s_catch_sigint ;;;
  when is_daemon (close_stdin ;;; setup_daemon_logging pid) ;;;
  run_env s_at_quick_exit ;;;
  init_transport_registration ;;;
  run_env s_mdns_discovery ;;;
  run_env (start_thread thr_usb_poll) ;;;
  local_init DEFAULT_ADB_LOCAL_TRANSPORT_PORT ;;;
  let* start := start_call s_clock in
  install_smartsocket fuel socket_spec start ;;;
  adb_auth_init ;;;
  when is_daemon (
    let* r := start_call s_setsid in
    match r with
    | None | Some EPERM => run_env (start_thread (thr_notify_parent ack_reply_fd))
    | Some _ => fatal "setsid() failed"
    end).

End Startup.

(** * Properties of the start of the daemon and of the server

    Who the daemon runs as and whether it asks for authentication, and which
    bits the trace mask gets. *)

(** ** The trace mask *)

(** Whether an element of the setting asks for the messages of tag [i]. *)
Definition asks_for (i : Z) (elem : bytes) : bool :=
  match trace_flag elem with Some (inl _) => true | Some (inr tag) => (i =? tag)%Z | None => false end.

Lemma tag_of_range elem tags i t : (0 <= i)%Z -> tag_of elem tags i = Some t -> (0 <= t)%Z.
Proof.
  revert i. induction tags as [|x tags IH]; intros i Hi H; [done|]. cbn in H. case_bool_decide; [by injection H as <-|]. apply IH in H; lia.
Qed.

Lemma trace_elements_bits elements mask i : (0 <= i)%Z -> Z.testbit (trace_elements elements mask) i = Z.testbit mask i || existsb (asks_for i) elements.
Proof.
  intros Hi. revert mask. induction elements as [|elem rest IH]; intros mask; [by rewrite orb_false_r|]. cbn [trace_elements existsb]. unfold asks_for at 1.
  destruct (trace_flag elem) as [[[]|tag]|] eqn:Hf.
  - rewrite Z.bits_m1 by done. cbn. by rewrite orb_true_r.
  - assert (Ht : (0 <= tag)%Z).
    { unfold trace_flag in Hf. destruct (_ || _); [done|]. destruct (tag_of elem trace_tags 0) as [t|] eqn:Htag; [|done]. injection Hf as <-. by eapply tag_of_range; [|exact Htag]. }
    rewrite IH, Z.lor_spec, Z.shiftl_spec by done. rewrite <- orb_assoc. f_equal. f_equal.
    destruct (Z.eqb_spec i tag) as [->|Hne]; [by rewrite Z.sub_diag|]. destruct (Z.lt_ge_cases i tag); [by rewrite Z.testbit_neg_r by lia|].
    apply (Z.bits_above_log2 1); cbn; lia.
  - by rewrite IH.
Qed.

(** ** Privileges *)

(** What is left alone by everything that only concerns the environment or the
    event loop. *)
Definition same_security {E} (w w' : world E) : Prop := w_auth w' = w_auth w /\ w_listeners w' = w_listeners w.

Class JailFrame (E : Type) {K : Kernel E} {OS : Os E} {FS : FfsState E} {FO : FfsOs E} {ST : StartOs E} (entered : E -> option (list jail_setting)) := {
  jf_enter j e e' : minijail_enter j e = (true, e') -> entered e' = Some j;
  jf_thread t e : entered (start_thread t e) = entered e;
  jf_open p e : entered (snd (f_open p e)) = entered e;
  jf_put h e : entered (put_ffs h e) = entered e;
  jf_dummy fd e : entered (set_dummy_fd fd e) = entered e;
  jf_socket e : entered (snd (s_unix_socket e)) = entered e;
  jf_bind s n e : entered (snd (s_bind s n e)) = entered e;
  jf_listen s n e : entered (snd (s_listen s n e)) = entered e;
}.

Section Props.
Context {E : Type} {K : Kernel E} {B : Build} {PF : Platform} {BN : Banner} {LB : LibBase} {SO : SetOrder} {N : Net E}.
Context {OS : Os E} {CR : Crypto E} {KS : KeyStore E} {FS : FfsState E} {FO : FfsOs E} {DB : DaemonBuild} {BP : BoolProperty} {ST : StartOs E}.
Context {entered : E -> option (list jail_setting)} {JF : JailFrame E entered}.
Abbreviation W := (world E).
Implicit Types (w : W) (e : E).

(** When the daemon stays root: the build allows it or the device is unlocked,
    it was not asked to drop, and it need not or was asked to stay. *)
Lemma should_drop_privileges_spec debuggable :
  should_drop_privileges debuggable = false <->
  (ALLOW_ADBD_ROOT = true \/ is_device_unlocked = true) /\ GetProperty (str "service.adb.root") <> str "0" /\
  (GetBoolProperty (str "ro.secure") true = false \/ debuggable = true /\ GetProperty (str "service.adb.root") = str "1").
Proof.
  unfold should_drop_privileges. destruct ALLOW_ADBD_ROOT, is_device_unlocked, debuggable, (GetBoolProperty (str "ro.secure") true); cbn [negb andb];
    repeat case_bool_decide; naive_solver.
Qed.

#[local] Instance same_security_refl : Reflexive (same_security (E := E)).
Proof. by split. Qed.

(** [m] touches neither the authentication nor the listeners. *)
Definition harmless {A} (m : M W A) : Prop := forall w, pwp m (fun _ w' => same_security w w') w.
(** Nor the jail. *)
Definition inside {A} (m : M W A) : Prop := forall w, pwp m (fun _ w' => same_security w w' /\ entered (w_env w') = entered (w_env w)) w.

Lemma harmless_bind {A A'} (m : M W A) (f : A -> M W A') : harmless m -> (forall a, harmless (f a)) -> harmless (bind m f).
Proof. intros Hm Hf w. apply pwp_bind. eapply pwp_mono; [apply Hm|]. intros a w1 [H1 H2]. eapply pwp_mono; [apply Hf|]. intros b w2 [H3 H4]. split; congruence. Qed.
Lemma inside_bind {A A'} (m : M W A) (f : A -> M W A') : inside m -> (forall a, inside (f a)) -> inside (bind m f).
Proof.
  intros Hm Hf w. apply pwp_bind. eapply pwp_mono; [apply Hm|]. intros a w1 [[H1 H2] H3]. eapply pwp_mono; [apply Hf|]. intros b w2 [[H4 H5] H6].
  split; [split|]; congruence.
Qed.
Lemma inside_harmless {A} (m : M W A) : inside m -> harmless m.
Proof. intros H w. eapply pwp_mono; [apply H|]. by intros a w' [? _]. Qed.

Lemma inside_ret {A} (a : A) : inside (ret a).
Proof. intros w. by apply pwp_ret. Qed.
Lemma inside_get : inside (A := W) get.
Proof. intros w. by apply pwp_get. Qed.
Lemma inside_fatal {A} why : inside (A := A) (fatal why).
Proof. intros w. apply pwp_fatal. Qed.
Lemma inside_on_fds {A} (m : M (fdstate fd_func) A) : inside (on_fds m).
Proof. intros w a w' H. unfold on_fds in H. by destruct (m (w_fds w)); simplify_eq. Qed.
Lemma inside_alloc : inside (A := loc) alloc.
Proof. by intros w a w' [= <- <-]. Qed.
Lemma inside_when b (m : M W unit) : inside m -> inside (when b m).
Proof. intros H. destruct b; [done|apply inside_ret]. Qed.
Lemma inside_on_env {A} (m : M E A) : (forall e a e', m e = Done a e' -> entered e' = entered e) -> inside (on_env m).
Proof. intros Hm w a w' H. unfold on_env in H. destruct (m (w_env w)) eqn:Hd; simplify_eq. split; [done|]. by eapply Hm. Qed.
Lemma harmless_on_env {A} (m : M E A) : harmless (on_env m).
Proof. intros w a w' H. unfold on_env in H. by destruct (m (w_env w)); simplify_eq. Qed.
Lemma inside_adb_close fd : inside (adb_close fd).
Proof. apply inside_on_fds. Qed.
Lemma inside_run_env f : (forall e, entered (f e) = entered e) -> inside (run_env f).
Proof. intros Hf. apply inside_on_env. intros e a e' [= <- <-]. apply Hf. Qed.
Lemma inside_start_call {A} (f : E -> A * E) : (forall e, entered (snd (f e)) = entered e) -> inside (start_call f).
Proof. intros Hf. apply inside_on_env. intros e a e' H. specialize (Hf e). destruct (f e). by simplify_eq. Qed.

Create HintDb quiet discriminated.
Hint Resolve inside_ret inside_get inside_fatal inside_on_fds inside_alloc inside_adb_close harmless_on_env : quiet.
Hint Resolve jf_thread jf_socket jf_bind jf_listen : quiet.

Ltac quiet_step :=
  first [ progress intros
        | solve [eauto with quiet]
        | apply inside_bind | apply inside_when
        | apply inside_run_env | apply inside_start_call
        | case_match ].
Ltac quietly := repeat quiet_step.

Lemma init_jdwp_inside : inside init_jdwp.
Proof. unfold init_jdwp, jdwp_control_init. quietly. Qed.

Lemma setup_port_inside port : inside (setup_port port).
Proof. unfold setup_port, local_init. quietly. Qed.

Lemma daemon_usb_init_inside : inside (on_env daemon_usb_init).
Proof.
  apply inside_on_env. intros e a e' H. unfold daemon_usb_init, bind, ffs_open in H. pose proof (jf_open (str "/dev/null") e) as Ho.
  destruct (f_open (str "/dev/null") e) as [fd e1]. cbn in H. unfold check, usb_ffs_init, upd_ffs, modify, bind in H. destruct (negb (fd =? -1)%Z); [|done]. cbn in H. simplify_eq. cbn in Ho.
  by rewrite jf_thread, jf_put, jf_dummy.
Qed.

Lemma init_registration_harmless : harmless init_transport_registration.
Proof.
  unfold init_transport_registration. apply harmless_bind; [apply harmless_on_env|]. intros [[s0 s1]|]; [|apply inside_harmless; quietly].
  apply harmless_bind; [by intros w a w' [= <- <-]|]. intros _. apply inside_harmless. quietly.
Qed.

Lemma harmless_run_env f : harmless (run_env f).
Proof. apply harmless_on_env. Qed.

Lemma auth_sockets_harmless : harmless adbd_cloexec_auth_socket /\ harmless adbd_auth_init.
Proof.
  split; (apply harmless_bind; [apply inside_harmless, inside_get|]; intros w; cbv zeta; case_match; [apply inside_harmless, inside_ret|]).
  - apply harmless_run_env.
  - apply harmless_bind; [apply harmless_on_env|]. intros ok. apply inside_harmless. quietly.
Qed.

(** Installing a listener has nothing to do with authentication. *)
Definition auth_kept {A} (m : M W A) : Prop := forall w, pwp m (fun _ w' => w_auth w' = w_auth w) w.

Lemma auth_kept_bind {A A'} (m : M W A) (f : A -> M W A') : auth_kept m -> (forall a, auth_kept (f a)) -> auth_kept (bind m f).
Proof. intros Hm Hf w. apply pwp_bind. eapply pwp_mono; [apply Hm|]. intros a w1 H1. eapply pwp_mono; [apply Hf|]. cbn. congruence. Qed.
Lemma auth_kept_harmless {A} (m : M W A) : harmless m -> auth_kept m.
Proof. intros H w. eapply pwp_mono; [apply H|]. by intros a w' [? _]. Qed.
Lemma auth_kept_load t : auth_kept (load_transport t).
Proof. intros w a w' H. unfold load_transport in H. by case_match; simplify_eq. Qed.
Lemma auth_kept_deref {A} (p : option A) : auth_kept (deref p).
Proof. intros w a w' H. unfold deref, ret, crash in H. destruct p; by simplify_eq. Qed.
Lemma auth_kept_upd t f : auth_kept (upd_transport t f).
Proof. unfold upd_transport. apply auth_kept_bind; [apply auth_kept_load|]. by intros x w a w' [= <- <-]. Qed.
Lemma auth_kept_listeners f : auth_kept (modify (fun w => set_w_listeners (f w) w)).
Proof. by intros w a w' [= <- <-]. Qed.
Lemma auth_kept_inside {A} (m : M W A) : inside m -> auth_kept m.
Proof. intros H. by apply auth_kept_harmless, inside_harmless. Qed.

Hint Resolve auth_kept_load auth_kept_deref auth_kept_upd auth_kept_listeners auth_kept_inside auth_kept_harmless : quiet.

Lemma install_listener_auth name connect_to t rebind want : auth_kept (install_listener name connect_to t rebind want).
Proof.
  unfold install_listener. repeat first [progress intros | solve [eauto with quiet] | apply auth_kept_bind | case_match].
Qed.

Lemma enter_jail_enters j w : pwp (enter_jail j) (fun _ w' => same_security w w' /\ entered (w_env w') = Some j) w.
Proof.
  intros a w'. unfold enter_jail, bind, start_call, on_env. destruct (minijail_enter j (w_env w)) as [ok e] eqn:He. destruct ok; [|done].
  intros [= <- <-]. split; [done|]. by eapply jf_enter.
Qed.

(** The jail of a daemon that drops its privileges. *)
Definition shell_jail (debuggable : bool) : list jail_setting :=
  drop_capabilities_bounding_set_if_needed debuggable [set_supplementary_gids adbd_groups] ++ [change_gid AID_SHELL; change_uid AID_SHELL].

Lemma drop_privileges_drops debuggable label port w :
  pwp (drop_privileges debuggable label port) (fun _ w' => w_auth w' = w_auth w /\
    (should_drop_privileges debuggable = true -> w_listeners w' = w_listeners w /\ entered (w_env w') = Some (shell_jail debuggable))) w.
Proof.
  unfold drop_privileges. destruct (should_drop_privileges debuggable).
  - eapply pwp_mono; [apply enter_jail_enters|]. by intros a w' [[H1 H2] H3].
  - eapply pwp_mono; [|intros a w' H; split; [exact H|done]]. revert w.
    apply auth_kept_bind; [apply auth_kept_harmless; intros w; eapply pwp_mono; [apply enter_jail_enters|]; by intros a w' [? _]|]. intros _.
    apply auth_kept_bind; [|intros _; apply auth_kept_bind; [apply install_listener_auth|]; intros r; case_match; eauto with quiet].
    destruct label; [|eauto with quiet]. apply auth_kept_bind; [apply auth_kept_harmless, harmless_on_env|]. intros ok. case_match; eauto with quiet.
Qed.


End Props.

(** ** A device for the witness *)

Record gate := { gt_jail : option (list jail_setting); gt_ffs : ffs_handle; gt_dummy : Z; gt_threads : list thread; gt_next : Z }.

Definition set_gt_jail j e := {| gt_jail := Some j; gt_ffs := gt_ffs e; gt_dummy := gt_dummy e; gt_threads := gt_threads e; gt_next := gt_next e |}.
Definition set_gt_ffs h e := {| gt_jail := gt_jail e; gt_ffs := h; gt_dummy := gt_dummy e; gt_threads := gt_threads e; gt_next := gt_next e |}.
Definition set_gt_dummy fd e := {| gt_jail := gt_jail e; gt_ffs := gt_ffs e; gt_dummy := fd; gt_threads := gt_threads e; gt_next := gt_next e |}.
Definition add_thread t e := {| gt_jail := gt_jail e; gt_ffs := gt_ffs e; gt_dummy := gt_dummy e; gt_threads := t :: gt_threads e; gt_next := gt_next e |}.
Definition new_fd e : Z * gate :=
  (gt_next e, {| gt_jail := gt_jail e; gt_ffs := gt_ffs e; gt_dummy := gt_dummy e; gt_threads := gt_threads e; gt_next := gt_next e + 1 |}).

#[export] Instance gate_fd_ops : FdOps gate := {
  adb_read _ _ e := (RdOk [], e);
  adb_write _ bs e := (WrOk (Zlen bs), e);
  adb_shutdown _ e := e;
  strerror _ := str "error";
}.

#[export] Instance gate_kernel : Kernel gate := { refusals _ _ := 0; pipe_put _ _ e := (true, e); pipe_get _ e := (None, e) }.

#[export] Instance gate_os : Os gate := {
  adb_socketpair e := (Some (30, 31)%Z, e);
  start_thread := add_thread;
  tmsg_put _ _ e := (true, e);
  tmsg_get _ e := (None, e);
  TransportOps.usb_kick _ e := e;
  TransportOps.usb_close _ e := e;
  notify_init_cv e := e;
  getenv _ := None;
  canonical_address h p := h ++ str ":" ++ dec p;
  set_tcp_keepalive _ _ e := e;
}.

#[export] Instance gate_net : Net gate := {
  network_loopback_client _ := ret ((-1)%Z, []);
  network_loopback_server _ := fun e => let '(fd, e) := new_fd e in Done (fd, []) e;
  network_inaddr_any_server _ := fun e => let '(fd, e) := new_fd e in Done (fd, []) e;
  network_connect _ _ := ret ((-1)%Z, []);
  network_local_client _ _ := ret ((-1)%Z, []);
  network_local_server _ _ := ret ((-1)%Z, []);
  adb_socket_get_local_port _ := ret 5037%Z;
  disable_tcp_nagle _ := ret tt;
  adb_socket_accept _ := ret (-1)%Z;
}.

#[export] Instance gate_ffs : FfsState gate := {
  ffs_of := gt_ffs;
  put_ffs := set_gt_ffs;
  ffs_of_put h e := eq_refl;
  dummy_fd := gt_dummy;
  set_dummy_fd := set_gt_dummy;
}.

#[export] Instance gate_ffs_os : FfsOs gate := {
  f_open _ := new_fd;
  f_close _ e := e;
  f_alloc _ _ e := (true, E_NONE, e);
  f_clear_halt _ e := e;
  f_dup2 _ _ e := e;
  f_set_property _ _ e := e;
}.

#[export] Instance gate_start : StartOs gate := {
  s_set_property _ _ e := e;
  s_wait_for_property _ _ e := (true, e);
  s_umask _ e := e;
  s_ignore_sigpipe e := e;
  s_catch_sigint e := e;
  s_setenv _ _ e := e;
  minijail_enter j e := (true, set_gt_jail j e);
  selinux_android_setcon _ e := (true, e);
  android_get_control_socket _ _ := 20%Z;
  s_set_cloexec _ e := e;
  s_listen _ _ e := (true, e);
  s_unix_socket := new_fd;
  s_bind _ _ e := (true, e);
  s_file_exists _ _ := true;
  s_getuid := 0;
  s_open_append _ := new_fd;
  s_open_read _ := new_fd;
  s_dup2 _ _ e := (true, e);
  s_close _ e := e;
  s_at_quick_exit e := e;
  s_setsid e := (None, e);
  s_clock e := (0%Z, e);
  s_sleep _ e := e;
  s_print _ e := e;
  s_wait_for_init e := e;
  WriteStringToFd _ _ e := (true, e);
  s_dns_register _ _ e := (true, e);
  s_mdns_discovery e := e;
  qemu_pipe_open _ := new_fd;
}.

#[export] Instance gate_properties : BoolProperty := {| GetBoolProperty _ b := b |}.

#[export] Instance gate_jail : JailFrame gate gt_jail.
Proof. split; try done. intros j e e' [= <-]. done. Qed.

#[local] Instance gate_build : DaemonBuild := {| ALLOW_ADBD_ROOT := false; ALLOW_ADBD_NO_AUTH := false |}.
#[local] Instance gate_device : Build := device_build.
#[local] Instance gate_platform : Platform := {| ADB_LINUX := true; ADB_WINDOWS := false; gListenAll := false |}.

Definition gate_world : world gate :=
  idle_world true [] ∅ {| gt_jail := None; gt_ffs := new_ffs_handle; gt_dummy := -1; gt_threads := []; gt_next := 40 |}.


(** It does get to its event loop. *)
Example gate_starts :
  match adbd_main true None 5037 gate_world with
  | Done _ w => au_required (w_auth w) = true /\ gt_threads (w_env w) = [thr_usb_ffs_open] /\
                map fst (map_to_list (g_poll_node_map (w_fds w))) = [31; 41; 20]%Z
  | _ => False
  end.
Proof. by vm_compute. Qed.

(** A build that allows root: with [adb root] the daemon stays root, and listens. *)
#[local] Instance open_build : DaemonBuild := {| ALLOW_ADBD_ROOT := true; ALLOW_ADBD_NO_AUTH := true |}.

Definition rooted : Banner := {|
  adb_device_banner := str "device";
  GetProperty name := if bool_decide (name = str "service.adb.root") then str "1" else [];
|}.

Example gate_stays_root :
  match adbd_main (BN := rooted) true None 5037 gate_world with
  | Done _ w => au_required (w_auth w) = false /\ gt_jail (w_env w) = Some [set_supplementary_gids adbd_groups] /\
                map (fun e => l_local_name (snd e)) (w_listeners w) = [str "tcp:5037"]
  | _ => False
  end.
Proof. by vm_compute. Qed.
