(* ===== verification/WinConsole.v ===== *)
(** * Keys of a Windows console (sysdeps_win32.cpp)

    The server's client reads from a console of Windows what a terminal of Unix
    would send: the events of the keyboard become texts. *)

From S2P Require Import Prelude Packet AdbIo.

(** ** Constants of Windows (wincon.h, winuser.h) *)

Definition RIGHT_ALT_PRESSED : Z := 0x1.
Definition LEFT_ALT_PRESSED : Z := 0x2.
Definition RIGHT_CTRL_PRESSED : Z := 0x4.
Definition LEFT_CTRL_PRESSED : Z := 0x8.
Definition SHIFT_PRESSED : Z := 0x10.
Definition NUMLOCK_ON : Z := 0x20.
Definition CAPSLOCK_ON : Z := 0x80.
Definition ENHANCED_KEY : Z := 0x100.

Definition ENABLE_PROCESSED_INPUT : Z := 0x1.
Definition ENABLE_LINE_INPUT : Z := 0x2.
Definition ENABLE_ECHO_INPUT : Z := 0x4.
Definition ENABLE_WINDOW_INPUT : Z := 0x8.

Definition VK_BACK : Z := 0x08.
Definition VK_TAB : Z := 0x09.
Definition VK_CLEAR : Z := 0x0c.
Definition VK_RETURN : Z := 0x0d.
Definition VK_SHIFT : Z := 0x10.
Definition VK_CONTROL : Z := 0x11.
Definition VK_MENU : Z := 0x12.
Definition VK_SPACE : Z := 0x20.
Definition VK_PRIOR : Z := 0x21.
Definition VK_NEXT : Z := 0x22.
Definition VK_END : Z := 0x23.
Definition VK_HOME : Z := 0x24.
Definition VK_LEFT : Z := 0x25.
Definition VK_UP : Z := 0x26.
Definition VK_RIGHT : Z := 0x27.
Definition VK_DOWN : Z := 0x28.
Definition VK_INSERT : Z := 0x2d.
Definition VK_DELETE : Z := 0x2e.
Definition VK_NUMPAD0 : Z := 0x60.
Definition VK_MULTIPLY : Z := 0x6a.
Definition VK_ADD : Z := 0x6b.
Definition VK_SUBTRACT : Z := 0x6d.
Definition VK_DECIMAL : Z := 0x6e.
Definition VK_DIVIDE : Z := 0x6f.
Definition VK_F1 : Z := 0x70.
Definition VK_OEM_1 : Z := 0xba.
Definition VK_OEM_PLUS : Z := 0xbb.
Definition VK_OEM_COMMA : Z := 0xbc.
Definition VK_OEM_MINUS : Z := 0xbd.
Definition VK_OEM_PERIOD : Z := 0xbe.
Definition VK_OEM_2 : Z := 0xbf.
Definition VK_OEM_3 : Z := 0xc0.
Definition VK_OEM_4 : Z := 0xdb.
Definition VK_OEM_5 : Z := 0xdc.
Definition VK_OEM_6 : Z := 0xdd.
Definition VK_OEM_7 : Z := 0xde.
Definition VK_OEM_102 : Z := 0xe2.

(** A [KEY_EVENT_RECORD] whose key is down, and an [INPUT_RECORD]. *)
Record key_event := {
  wRepeatCount : Z;
  wVirtualKeyCode : Z;
  wVirtualScanCode : Z;
  AsciiChar : ascii;
  dwControlKeyState : Z;
}.

Inductive input_record := KEY_EVENT (bKeyDown : bool) (key : key_event) | WINDOW_BUFFER_SIZE_EVENT | OtherEvent.

(** The console and the keyboard.  [ToAscii] gets the entries of [key_state]
    for shift, control, alt and caps lock, the others being 0; it gives a
    character when its result is 1.  [ReadConsoleInputA] gives the number of
    records and the first. *)
Class ConsoleOs (E : Type) := {
  ReadConsoleInputA : Z -> E -> option (Z * input_record) * E;
  ToAscii : Z -> Z -> Z -> Z -> Z -> Z -> E -> option Z * E;
  MapVirtualKeyA : Z -> Z;
  crt_isatty : Z -> E -> bool;
  get_osfhandle : Z -> E -> Z;
  GetConsoleMode : Z -> E -> option Z;
  SetConsoleMode : Z -> Z -> E -> bool * E;
  crt_read : Z -> Z -> E -> read_result * E;
}.

(** The variables of the file: the input that is translated and not read yet,
    the mode to restore, and the handle when there is one to restore. *)
Record console (E : Type) := {
  co_env : E;
  co_input_buffer : bytes;
  co_old_mode : Z;
  co_handle : option Z;
}.
Arguments co_env {E} _.
Arguments co_input_buffer {E} _.
Arguments co_old_mode {E} _.
Arguments co_handle {E} _.

Definition set_co_env {E} (e : E) (c : console E) : console E :=
  {| co_env := e; co_input_buffer := co_input_buffer c; co_old_mode := co_old_mode c; co_handle := co_handle c |}.
Definition set_co_input_buffer {E} (b : bytes) (c : console E) : console E :=
  {| co_env := co_env c; co_input_buffer := b; co_old_mode := co_old_mode c; co_handle := co_handle c |}.
Definition set_co_old_mode {E} (m : Z) (c : console E) : console E :=
  {| co_env := co_env c; co_input_buffer := co_input_buffer c; co_old_mode := m; co_handle := co_handle c |}.
Definition set_co_handle {E} (h : option Z) (c : console E) : console E :=
  {| co_env := co_env c; co_input_buffer := co_input_buffer c; co_old_mode := co_old_mode c; co_handle := h |}.

(** ** Modifiers *)

Definition pressed (st mask : Z) : bool := negb (Z.land st mask =? 0)%Z.

Definition is_shift_pressed (st : Z) : bool := pressed st SHIFT_PRESSED.
Definition is_ctrl_pressed (st : Z) : bool := pressed st (Z.lor LEFT_CTRL_PRESSED RIGHT_CTRL_PRESSED).
Definition is_alt_pressed (st : Z) : bool := pressed st (Z.lor LEFT_ALT_PRESSED RIGHT_ALT_PRESSED).
Definition is_numlock_on (st : Z) : bool := pressed st NUMLOCK_ON.
Definition is_capslock_on (st : Z) : bool := pressed st CAPSLOCK_ON.
Definition is_enhanced_key (st : Z) : bool := pressed st ENHANCED_KEY.

Definition normalize_altgr_control_key_state (key : key_event) : Z :=
  let st := dwControlKeyState key in
  if is_ctrl_pressed st && is_alt_pressed st && negb (bool_decide (AsciiChar key = NUL)) then
    if pressed st RIGHT_ALT_PRESSED then Z.ldiff (Z.ldiff st RIGHT_ALT_PRESSED) LEFT_CTRL_PRESSED
    else if pressed st LEFT_ALT_PRESSED then
      let st := Z.ldiff st LEFT_ALT_PRESSED in
      if pressed st LEFT_CTRL_PRESSED then Z.ldiff st LEFT_CTRL_PRESSED
      else if pressed st RIGHT_CTRL_PRESSED then Z.ldiff st RIGHT_CTRL_PRESSED
      else st
    else st
  else st.

Definition keypad_key (vk : Z) : bool :=
  bool_decide (vk ∈ [VK_INSERT; VK_DELETE; VK_END; VK_DOWN; VK_NEXT; VK_LEFT; VK_CLEAR; VK_RIGHT; VK_HOME; VK_UP; VK_PRIOR]).

Definition normalize_keypad_control_key_state (vk st : Z) : Z :=
  if negb (is_numlock_on st) then st
  else if negb (is_enhanced_key st) && keypad_key vk then Z.lor st SHIFT_PRESSED else st.

(** ** Texts of keys *)

Definition ESC : bytes := [byte_of 27].
Definition CSI (s : string) : bytes := ESC ++ str "[" ++ str s.
Definition SS3 (s : string) : bytes := ESC ++ str "O" ++ str s.

Definition get_keypad_sequence (st : Z) (normal shifted : bytes) : bytes :=
  if is_shift_pressed st then shifted else normal.

Definition modifier_code (st : Z) : Z :=
  Z.lor (Z.lor (if is_shift_pressed st then 1 else 0) (if is_alt_pressed st then 2 else 0)) (if is_ctrl_pressed st then 4 else 0).

(** The code goes in front of the last character. *)
Definition get_modifier_sequence (vk st : Z) (normal : bytes) : bytes :=
  let code := modifier_code (normalize_keypad_control_key_state vk st) in
  if (code =? 0)%Z then normal else
  match last normal with
  | None => []
  | Some lastChar =>
      take (length normal - 1) normal ++ (if bool_decide (lastChar = byte_of 126) then [] else [byte_of 49]) ++
      [byte_of 59; byte_of (49 + code); lastChar]
  end.

Definition get_modifier_keypad_sequence (vk st : Z) (normal : bytes) (shifted : ascii) : bytes :=
  if is_shift_pressed st then (if bool_decide (shifted = NUL) then [] else [shifted])
  else get_modifier_sequence vk st normal.

Definition escape_prefix (buf : bytes) : bytes := match buf with [] => [] | _ => ESC ++ buf end.

Section WinConsole.
Context {E : Type} {CO : ConsoleOs E}.
Abbreviation C := (console E).

Definition get_decimal_char : ascii := byte_of (MapVirtualKeyA VK_DECIMAL).

Definition console_call {A} (f : E -> A * E) : M C A := fun c => let '(a, e) := f (co_env c) in Done a (set_co_env e c).

Definition key_down (b : bool) : Z := if b then 0x80 else 0x00.
Definition key_toggled (b : bool) : Z := if b then 0x01 else 0x00.

(** What Windows says, when the modifier is not to be ignored or there is no
    character without it. *)
Definition windows_char (key : key_event) : bytes := if bool_decide (AsciiChar key = NUL) then [] else [AsciiChar key].

Definition get_char_ignoring_modifier (key : key_event) (st modifier : Z) : M C bytes :=
  if bool_decide (AsciiChar key = NUL) &&
     ((modifier =? VK_SHIFT)%Z && is_shift_pressed st || (modifier =? VK_CONTROL)%Z && is_ctrl_pressed st ||
      (modifier =? VK_MENU)%Z && is_alt_pressed st) then
    let state vk down := if (modifier =? vk)%Z then 0%Z else key_down down in
    let* translated := console_call (ToAscii (wVirtualKeyCode key) (wVirtualScanCode key)
      (state VK_SHIFT (is_shift_pressed st)) (state VK_CONTROL (is_ctrl_pressed st)) (state VK_MENU (is_alt_pressed st))
      (key_toggled (is_capslock_on st))) in
    ret (match translated with Some t => [byte_of t] | None => windows_char key end)
  else ret (windows_char key).

Definition get_non_control_char (key : key_event) (st : Z) : M C bytes := get_char_ignoring_modifier key st VK_CONTROL.
Definition get_non_alt_char (key : key_event) (st : Z) : M C bytes := get_char_ignoring_modifier key st VK_MENU.

Definition one_of (c : ascii) (s : string) : bool := bool_decide (c ∈ str s).

Definition control_of (alt : bool) (ch : ascii) : ascii :=
  if one_of ch "2@`" then NUL
  else if one_of ch "3[{" then byte_of 0x1b
  else if one_of ch "4\|" then byte_of 0x1c
  else if one_of ch "5]}" then byte_of 0x1d
  else if one_of ch "6^~" then byte_of 0x1e
  else if one_of ch "7-_" then byte_of 0x1f
  else if one_of ch "8" then byte_of 0x7f
  else if one_of ch "/" then (if alt then ch else byte_of 0x1f)
  else if one_of ch "?" then (if alt then ch else byte_of 0x7f)
  else ch.

Definition get_control_character (key : key_event) (st : Z) : M C bytes :=
  let* pch := get_non_control_char key st in
  ret (match pch with
       | [ch] => if is_ctrl_pressed st then [control_of (is_alt_pressed st) ch] else [ch]
       | _ => pch
       end).

(** What the [switch] leaves: [seqstr], or [seqbuf] with its length. *)
Inductive key_seq := SeqStr (s : bytes) | SeqBuf (s : bytes).
Definition NoSeq : key_seq := SeqBuf [].

(** [MATCH_MODIFIER], the same text in both tables. *)
Definition F_KEYS : list bytes :=
  [SS3 "P"; SS3 "Q"; SS3 "R"; SS3 "S"; CSI "15~"; CSI "17~"; CSI "18~"; CSI "19~"; CSI "20~"; CSI "21~"; CSI "23~"; CSI "24~";
   CSI "25~"; CSI "26~"; CSI "28~"; CSI "29~"; CSI "31~"; CSI "32~"; CSI "33~"; CSI "34~"].

(** The cursor keys and the pages, with what shift makes of them on the keypad. *)
Definition CURSOR_KEYS : list (Z * bytes * string) :=
  [(VK_PRIOR, CSI "5~", "9"%string); (VK_NEXT, CSI "6~", "3"%string); (VK_LEFT, CSI "D", "4"%string); (VK_UP, CSI "A", "8"%string);
   (VK_RIGHT, CSI "C", "6"%string); (VK_DOWN, CSI "B", "2"%string); (VK_INSERT, CSI "2~", "0"%string)].

Fixpoint find_key (vk : Z) (keys : list (Z * bytes * string)) : option (bytes * string) :=
  match keys with
  | [] => None
  | (k, normal, shifted) :: rest => if (k =? vk)%Z then Some (normal, shifted) else find_key vk rest
  end.

Definition enhanced_key (vk st : Z) : key_seq :=
  match find_key vk CURSOR_KEYS with
  | Some (normal, _) => SeqBuf (get_modifier_sequence vk st normal)
  | None =>
      if (vk =? VK_RETURN)%Z then SeqStr (if is_ctrl_pressed st then [byte_of 10] else [byte_of 13])
      else if (vk =? VK_END)%Z then SeqStr (CSI "F")
      else if (vk =? VK_HOME)%Z then SeqStr (CSI "H")
      else if (vk =? VK_DELETE)%Z then SeqBuf (get_modifier_sequence vk st (CSI "3~"))
      else if (vk =? VK_DIVIDE)%Z then SeqStr (str "/")
      else NoSeq
  end.

(** Backspace, tab, enter, space, and the keypad without NumLock. *)
Definition editing_key (vk st : Z) : option key_seq :=
  if (vk =? VK_BACK)%Z then Some (SeqStr ((if is_alt_pressed st then ESC else []) ++ [byte_of 0x7f]))
  else if (vk =? VK_TAB)%Z then Some (SeqStr (if is_shift_pressed st then CSI "Z" else [byte_of 9]))
  else if (vk =? VK_CLEAR)%Z then Some (SeqStr (get_keypad_sequence st (CSI "E") (str "5")))
  else if (vk =? VK_RETURN)%Z then
    Some (SeqStr (if is_alt_pressed st then ESC ++ [byte_of 10] else if is_ctrl_pressed st then [byte_of 10] else [byte_of 13]))
  else if (vk =? VK_SPACE)%Z then
    Some (if is_alt_pressed st then SeqStr (ESC ++ str " ") else if is_ctrl_pressed st then SeqBuf [NUL] else SeqStr (str " "))
  else if (vk =? VK_END)%Z then Some (SeqStr (get_keypad_sequence st (CSI "4~") (str "1")))
  else if (vk =? VK_HOME)%Z then Some (SeqStr (get_keypad_sequence st (CSI "1~") (str "7")))
  else if (vk =? VK_DELETE)%Z then Some (SeqBuf (get_modifier_keypad_sequence vk st (CSI "3~") get_decimal_char))
  else match find_key vk CURSOR_KEYS with
       | Some (normal, shifted) => Some (SeqBuf (get_modifier_keypad_sequence vk st normal (default NUL (head (str shifted)))))
       | None => None
       end.

(** The keypad with NumLock, and F1 to F20. *)
Definition function_key (vk st : Z) : option key_seq :=
  if (VK_NUMPAD0 <=? vk)%Z && (vk <=? VK_NUMPAD0 + 9)%Z then Some (SeqStr [byte_of (48 + (vk - VK_NUMPAD0))])
  else if (vk =? VK_MULTIPLY)%Z then Some (SeqStr (str "*"))
  else if (vk =? VK_ADD)%Z then Some (SeqStr (str "+"))
  else if (vk =? VK_SUBTRACT)%Z then Some (SeqStr (str "-"))
  else match (if (VK_F1 <=? vk)%Z then F_KEYS !! Z.to_nat (vk - VK_F1) else None) with
       | Some normal => Some (SeqBuf (get_modifier_sequence vk st normal))
       | None => None
       end.

Definition plain_punctuation (vk : Z) : bool :=
  bool_decide (vk ∈ [0x30; 0x31; 0x39; VK_OEM_1; VK_OEM_PLUS; VK_OEM_COMMA; VK_OEM_PERIOD; VK_OEM_7; VK_OEM_102; VK_OEM_2; VK_OEM_3;
                     VK_OEM_4; VK_OEM_5; VK_OEM_6]%Z).
Definition control_digit (vk : Z) : bool := (0x32 <=? vk)%Z && (vk <=? 0x38)%Z || (vk =? VK_OEM_MINUS)%Z.
Definition letter_key (vk : Z) : bool := (0x41 <=? vk)%Z && (vk <=? 0x5a)%Z.

(** Keys that make characters. *)
Definition character_key (vk st : Z) (key : key_event) : M C key_seq :=
  if plain_punctuation vk then
    let* s := get_control_character key st in
    ret (SeqBuf (if is_alt_pressed st then escape_prefix s else s))
  else if control_digit vk then
    let* s := get_control_character key st in
    ret (SeqBuf (if is_alt_pressed st && negb (is_ctrl_pressed st && negb (is_shift_pressed st)) then escape_prefix s else s))
  else if letter_key vk then
    let* s := get_non_alt_char key st in
    ret (SeqBuf (if is_alt_pressed st then escape_prefix s else s))
  else if (vk =? VK_DECIMAL)%Z then let* s := get_non_control_char key st in ret (SeqBuf s)
  else ret NoSeq.

Definition plain_key (vk st : Z) (key : key_event) : M C key_seq :=
  match editing_key vk st with
  | Some s => ret s
  | None => match function_key vk st with Some s => ret s | None => character_key vk st key end
  end.

(** What a key sends; nothing for a key that is not known. *)
Definition translate_key (key : key_event) : M C bytes :=
  let vk := wVirtualKeyCode key in
  let st := normalize_altgr_control_key_state key in
  let* seq := if is_enhanced_key st then ret (enhanced_key vk st) else plain_key vk st key in
  ret (match seq with
       | SeqStr s => s
       | SeqBuf [] => windows_char key
       | SeqBuf s => s
       end).

(** ** Reading *)

Inductive key_result := GotKey (key : key_event) | KeyError (e : errno_t).

(** Resizing the window interrupts the read. *)
Fixpoint get_key_event_record (fuel : nat) (h : Z) : M C key_result :=
  match fuel with
  | O => no_fuel
  | S f =>
      let* r := console_call (ReadConsoleInputA h) in
      match r with
      | None => ret (KeyError EIO)
      | Some (read_count, record) =>
          if (read_count =? 0)%Z then fatal "ReadConsoleInputA returned 0" else
          if negb (read_count =? 1)%Z then fatal "ReadConsoleInputA did not return one input record" else
          match record with
          | WINDOW_BUFFER_SIZE_EVENT => ret (KeyError EINTR)
          | KEY_EVENT true key =>
              if (wRepeatCount key =? 0)%Z then fatal "ReadConsoleInputA returned a key event with zero repeat count" else ret (GotKey key)
          | KEY_EVENT false _ | OtherEvent => get_key_event_record f h
          end
      end
  end.

Fixpoint console_read (fuel : nat) (h len : Z) : M C read_result :=
  match fuel with
  | O => no_fuel
  | S f =>
      if (len =? 0)%Z then ret (RdOk []) else
      let* c := get in
      match co_input_buffer c with
      | (_ :: _) as buffer =>
          let n := Z.to_nat len in
          modify (set_co_input_buffer (drop n buffer)) ;;;
          ret (RdOk (take n buffer))
      | [] =>
          let* r := get_key_event_record f h in
          match r with
          | KeyError e => ret (RdErr e)
          | GotKey key =>
              let* out := translate_key key in
              modify (fun c => set_co_input_buffer (co_input_buffer c ++ concat (replicate (Z.to_nat (wRepeatCount key)) out)) c) ;;;
              console_read f h len
          end
      end
  end.

(** ** The console of a descriptor, and its mode *)

Definition get_console_handle (fd : Z) (e : E) : option (Z * Z) :=
  if negb (crt_isatty fd e) then None else
  let handle := get_osfhandle fd e in
  if (handle =? -1)%Z then None else
  match GetConsoleMode handle e with Some mode => Some (handle, mode) | None => None end.

Definition unix_isatty (fd : Z) (e : E) : bool := bool_decide (is_Some (get_console_handle fd e)).

Definition raw_mode (mode : Z) : Z :=
  Z.lor (Z.ldiff mode (Z.lor (Z.lor ENABLE_PROCESSED_INPUT ENABLE_LINE_INPUT) ENABLE_ECHO_INPUT)) ENABLE_WINDOW_INPUT.

Definition stdin_raw_init : M C unit :=
  let* c := get in
  match get_console_handle 0 (co_env c) with
  | None => ret tt
  | Some (h, mode) =>
      modify (set_co_old_mode mode) ;;;
      let* _ := console_call (SetConsoleMode h (raw_mode mode)) in
      modify (set_co_handle (Some h))
  end.

Definition stdin_raw_restore : M C unit :=
  let* c := get in
  match co_handle c with
  | None => ret tt
  | Some h =>
      modify (set_co_handle None) ;;;
      let* _ := console_call (SetConsoleMode h (co_old_mode c)) in
      ret tt
  end.

Definition unix_read_interruptible (fuel : nat) (fd len : Z) : M C read_result :=
  let* c := get in
  match co_handle c with
  | Some h => if (fd =? 0)%Z then console_read fuel h len
              else console_call (crt_read fd (if (4096 <? len)%Z && unix_isatty fd (co_env c) then 4096 else len))
  | None => console_call (crt_read fd (if (4096 <? len)%Z && unix_isatty fd (co_env c) then 4096 else len))
  end.

End WinConsole.

(** * Properties of the console of Windows *)

(** ** A keyboard layout

    What a key sends when [ToAscii] answers by the function [lay], whatever was
    typed before (no dead keys). *)
Definition layout : Type := Z -> Z -> Z -> Z -> Z -> Z -> option Z.

Definition layout_os (lay : layout) (decimal : Z) : ConsoleOs unit := {|
  ReadConsoleInputA _ e := (None, e);
  ToAscii vk sc shift ctrl alt caps e := (lay vk sc shift ctrl alt caps, e);
  MapVirtualKeyA _ := decimal;
  crt_isatty _ _ := false; get_osfhandle _ _ := (-1)%Z; GetConsoleMode _ _ := None; SetConsoleMode _ _ e := (false, e);
  crt_read _ _ e := (RdErr EIO, e);
|}.

Definition blank : console unit := {| co_env := tt; co_input_buffer := []; co_old_mode := 0; co_handle := None |}.

Definition key_text (lay : layout) (decimal : Z) (key : key_event) : bytes :=
  match translate_key (CO := layout_os lay decimal) key blank with Done s _ => s | _ => [] end.

(** The text of events, up to a change of the size of the window. *)
Fixpoint typed (text : key_event -> bytes) (evs : list input_record) : bytes :=
  match evs with
  | [] | WINDOW_BUFFER_SIZE_EVENT :: _ => []
  | KEY_EVENT true key :: rest => concat (replicate (Z.to_nat (wRepeatCount key)) (text key)) ++ typed text rest
  | _ :: rest => typed text rest
  end.

Definition event_ok (r : input_record) : Prop := match r with KEY_EVENT true key => (1 <= wRepeatCount key)%Z | _ => True end.

(** A console with the events [pending], and a keyboard with the layout [lay]. *)
Class ConsoleLaws (E : Type) {CO : ConsoleOs E} (lay : layout) (pending : E -> list input_record) := {
  next_event h e r rest : pending e = r :: rest -> exists e', ReadConsoleInputA h e = (Some (1%Z, r), e') /\ pending e' = rest;
  layout_of vk sc shift ctrl alt caps e : exists e', ToAscii vk sc shift ctrl alt caps e = (lay vk sc shift ctrl alt caps, e') /\ pending e' = pending e;
}.

Section Stream.
Context {E : Type} {CO : ConsoleOs E} (lay : layout) (pending : E -> list input_record) {CL : ConsoleLaws E lay pending}.
Abbreviation C := (console E).
Abbreviation text := (key_text lay (MapVirtualKeyA VK_DECIMAL)).
Implicit Types (c : C).

(** Nothing but the keyboard is used. *)
Definition same_console c c' : Prop :=
  pending (co_env c') = pending (co_env c) /\ co_input_buffer c' = co_input_buffer c /\ co_old_mode c' = co_old_mode c /\ co_handle c' = co_handle c.

(** [m] does what [m0] does with the layout alone. *)
Definition as_layout {A} (m : M C A) (m0 : M (console unit) A) : Prop :=
  forall c u, exists a c', m c = Done a c' /\ same_console c c' /\ m0 u = Done a u.

Lemma as_layout_ret {A} (a : A) : as_layout (ret a) (ret a).
Proof. intros c u. exists a, c. by repeat split. Qed.

Lemma as_layout_bind {A B} (m : M C A) m0 (f : A -> M C B) f0 : as_layout m m0 -> (forall a, as_layout (f a) (f0 a)) -> as_layout (bind m f) (bind m0 f0).
Proof.
  intros Hm Hf c u. destruct (Hm c u) as (a & c1 & H1 & (P1 & B1 & O1 & H1') & H0). destruct (Hf a c1 u) as (b & c2 & H2 & (P2 & B2 & O2 & H2') & H3).
  exists b, c2. unfold bind. rewrite H1, H0. split; [done|]. split; [|done]. repeat split; congruence.
Qed.

Lemma as_layout_char key st modifier :
  as_layout (get_char_ignoring_modifier key st modifier) (get_char_ignoring_modifier (CO := layout_os lay (MapVirtualKeyA VK_DECIMAL)) key st modifier).
Proof.
  unfold get_char_ignoring_modifier. case_match; [|apply as_layout_ret]. apply as_layout_bind; [|intros; apply as_layout_ret].
  intros c u. unfold console_call. match goal with |- context [ToAscii ?vk ?sc ?s ?l ?a ?p (co_env c)] => destruct (layout_of vk sc s l a p (co_env c)) as (e' & -> & He) end.
  eexists _, _. split; [done|]. split; [by repeat split|]. by destruct u as [[] ? ? ?].
Qed.

Lemma as_layout_key key : as_layout (translate_key key) (translate_key (CO := layout_os lay (MapVirtualKeyA VK_DECIMAL)) key).
Proof.
  unfold translate_key. apply as_layout_bind; [|intros; apply as_layout_ret]. case_match; [apply as_layout_ret|].
  unfold plain_key. change (editing_key (CO := layout_os _ _)) with (editing_key (CO := CO)).
  repeat (case_match; try apply as_layout_ret).
  unfold character_key, get_control_character, get_non_control_char, get_non_alt_char.
  repeat case_match; try apply as_layout_ret; (apply as_layout_bind; [|intros; apply as_layout_ret]);
    try (apply as_layout_bind; [|intros; apply as_layout_ret]); apply as_layout_char.
Qed.

Lemma translate_text key c : exists c', translate_key key c = Done (text key) c' /\ same_console c c'.
Proof.
  destruct (as_layout_key key c blank) as (a & c' & H & Hs & H0). exists c'. split; [|done]. rewrite H. f_equal. unfold key_text. by rewrite H0.
Qed.

(** The next key, or the change of the window before it. *)
Lemma get_key_spec fuel h c (Q : key_result -> C -> Prop) : length (pending (co_env c)) < fuel -> Forall event_ok (pending (co_env c)) ->
  (forall key rest c', pending (co_env c') = rest -> co_input_buffer c' = co_input_buffer c ->
     (1 <= wRepeatCount key)%Z -> Forall event_ok rest -> length rest < length (pending (co_env c)) ->
     (WINDOW_BUFFER_SIZE_EVENT ∈ pending (co_env c) -> WINDOW_BUFFER_SIZE_EVENT ∈ rest) ->
     typed text (pending (co_env c)) = concat (replicate (Z.to_nat (wRepeatCount key)) (text key)) ++ typed text rest -> Q (GotKey key) c') ->
  (forall c', typed text (pending (co_env c)) = [] -> Q (KeyError EINTR) c') ->
  WINDOW_BUFFER_SIZE_EVENT ∈ pending (co_env c) \/ typed text (pending (co_env c)) <> [] ->
  twp (get_key_event_record fuel h) Q c.
Proof.
  revert c. induction fuel as [|fuel IH]; intros c Hf Hok HK HE Hsome; [lia|]. cbn [get_key_event_record].
  destruct (pending (co_env c)) as [|r rest] eqn:Hp; [exfalso; destruct Hsome as [Hin|]; [by apply not_elem_of_nil in Hin|done]|].
  apply Forall_cons in Hok as [Hr Hok]. destruct (next_event h (co_env c) r rest Hp) as (e' & Hread & Hp').
  apply twp_bind. unfold twp at 1, console_call. rewrite Hread. cbn [Z.eqb Pos.eqb negb].
  assert (Hskip : typed text (r :: rest) = typed text rest -> r <> WINDOW_BUFFER_SIZE_EVENT -> twp (get_key_event_record fuel h) Q (set_co_env e' c)).
  { intros Ht Hne. apply IH; cbn [co_env set_co_env]; rewrite ?Hp'; [cbn in Hf; lia|done| | |].
    - intros key rest' c' H1 H2 H3 H4 H5 H6 H7. apply (HK key rest'); [done..|cbn; lia| |by rewrite Ht].
      intros [|]%elem_of_cons; [done|by apply H6].
    - intros c' H. apply HE. by rewrite Ht.
    - destruct Hsome as [[|]%elem_of_cons|]; [done|by left|right; by rewrite <- Ht]. }
  destruct r as [[] key| |].
  - cbn in Hr. rewrite (proj2 (Z.eqb_neq _ _)) by lia. apply twp_ret.
    apply (HK key rest); [done..|cbn; lia| |done]. by intros [|]%elem_of_cons.
  - by apply Hskip.
  - apply twp_ret. by apply HE.
  - by apply Hskip.
Qed.

(** C29: Reading from the console.  When there is text, translated already or to
    be made of the keys that were pressed, a read gives a first part of it, as
    much as is asked for at most, and leaves the rest for later reads; each
    key's text comes as often as the key was repeated.  When there is none and
    the window changed its size, the read is interrupted. *)
Theorem console_read_types fuel h len c :
  (0 < len)%Z -> Forall event_ok (pending (co_env c)) -> length (pending (co_env c)) + 2 <= fuel ->
  let all := co_input_buffer c ++ typed text (pending (co_env c)) in
  all <> [] \/ WINDOW_BUFFER_SIZE_EVENT ∈ pending (co_env c) ->
  twp (console_read fuel h len) (fun r c' =>
    match r with
    | RdOk out => out <> [] /\ (Zlen out <= len)%Z /\ all = out ++ co_input_buffer c' ++ typed text (pending (co_env c'))
    | RdErr e => e = EINTR /\ all = []
    end) c.
Proof.
  intros Hlen. revert c. induction fuel as [|fuel IH]; intros c Hok Hf all Hsome; [lia|]. subst all. cbn [console_read].
  rewrite (proj2 (Z.eqb_neq _ _)) by lia. apply twp_bind, twp_get. destruct (co_input_buffer c) as [|b buffer] eqn:Hb.
  - apply twp_bind, get_key_spec; [lia|done| | |cbn in Hsome; tauto].
    + intros key rest c1 Hp1 Hb1 Hrep Hok1 Hl1 Hw1 Ht1. apply twp_bind. destruct (translate_text key c1) as (c2 & Hk & Hp2 & Hb2 & _ & _).
      unfold twp at 1. rewrite Hk. apply twp_bind, twp_modify. set (c3 := set_co_input_buffer _ c2).
      assert (Hp3 : pending (co_env c3) = rest) by (cbn; congruence).
      assert (Hb3 : co_input_buffer c3 = concat (replicate (Z.to_nat (wRepeatCount key)) (text key))) by (cbn; rewrite Hb2, Hb1, Hb; done).
      assert (Hall : co_input_buffer c3 ++ typed text (pending (co_env c3)) = typed text (pending (co_env c))) by by rewrite Hp3, Hb3.
      eapply twp_mono; [apply IH; rewrite ?Hall, Hp3; [done|lia|cbn in Hsome; tauto]|]. intros r c'. by rewrite Hall.
    + intros c' H. by apply twp_ret.
  - apply twp_bind, twp_modify, twp_ret. assert (0 < Z.to_nat len) by lia. split; [by destruct (Z.to_nat len); [lia|]|].
    split; [rewrite length_take; lia|]. cbn [co_input_buffer co_env set_co_input_buffer]. by rewrite app_assoc, take_drop.
Qed.

End Stream.

(** ** What the texts are *)

(** A text of [seqbuf] or [seqstr]. *)
Definition seq_text (s : key_seq) : bytes := match s with SeqStr s | SeqBuf s => s end.

(** A program reads the modifiers back: the text of the key without them, and
    their code. *)
Definition read_modifiers (s : bytes) : (bytes * Z)%type :=
  match rev s with
  | final :: code :: semicolon :: rest =>
      if bool_decide (semicolon = byte_of 59) then
        (rev (if bool_decide (final = byte_of 126) then rest else tail rest) ++ [final], byte_val code - 49)%Z
      else (s, 0)%Z
  | _ => (s, 0)%Z
  end.

(** The keys whose texts take modifiers. *)
Definition modified_keys : list (Z * bytes) :=
  map (fun k => (k.1.1, k.1.2)) CURSOR_KEYS ++ [(VK_DELETE, CSI "3~")] ++ imap (fun i s => (VK_F1 + Z.of_nat i, s)%Z) F_KEYS.

Lemma modifier_code_range st : (0 <= modifier_code st < 8)%Z.
Proof. unfold modifier_code. by destruct (is_shift_pressed st), (is_alt_pressed st), (is_ctrl_pressed st). Qed.

Definition with_code (code : Z) (normal : bytes) : bytes :=
  if (code =? 0)%Z then normal else
  match last normal with
  | None => []
  | Some c => take (length normal - 1) normal ++ (if bool_decide (c = byte_of 126) then [] else [byte_of 49]) ++ [byte_of 59; byte_of (49 + code); c]
  end.

Lemma modifiers_read_table :
  forallb (fun k => forallb (fun code => bool_decide (read_modifiers (with_code code k.2) = (k.2, code)) && (Zlen (with_code code k.2) <=? 7)%Z) (seqZ 0 8)) modified_keys = true.
Proof. vm_compute. reflexivity. Qed.

Lemma modifiers_read (vk : Z) (normal : bytes) vk' st : (vk, normal) ∈ modified_keys ->
  read_modifiers (get_modifier_sequence vk' st normal) = (normal, modifier_code (normalize_keypad_control_key_state vk' st)) /\
  length (get_modifier_sequence vk' st normal) <= 7.
Proof.
  intros Hin. pose proof modifiers_read_table as H. rewrite forallb_forall in H. apply list_elem_of_In in Hin. apply H in Hin.
  rewrite forallb_forall in Hin. specialize (Hin (modifier_code (normalize_keypad_control_key_state vk' st))).
  assert (Hc : In (modifier_code (normalize_keypad_control_key_state vk' st)) (seqZ 0 8)).
  { apply list_elem_of_In, elem_of_seqZ. pose proof (modifier_code_range (normalize_keypad_control_key_state vk' st)). lia. }
  apply Hin, andb_true_iff in Hc as [H1 H2]. apply bool_decide_eq_true in H1. apply Z.leb_le in H2.
  change (get_modifier_sequence vk' st normal) with (with_code (modifier_code (normalize_keypad_control_key_state vk' st)) normal). split; [done|]. cbn in H2. lia.
Qed.

(** *** Bits of the state of the keys *)

Lemma pressed_bit st n : (0 <= n)%Z -> pressed st (2 ^ n) = Z.testbit st n.
Proof.
  intros Hn. unfold pressed. destruct (Z.testbit st n) eqn:Hb.
  - apply negb_true_iff, Z.eqb_neq. intros H. assert (Hz : Z.testbit (Z.land st (2 ^ n)) n = false) by (rewrite H; apply Z.bits_0).
    rewrite Z.land_spec, Hb, Z.pow2_bits_true in Hz by done. done.
  - apply negb_false_iff, Z.eqb_eq. apply Z.bits_inj'. intros i Hi. rewrite Z.land_spec, Z.bits_0, Z.pow2_bits_eqb by done.
    destruct (Z.eqb_spec n i) as [<-|]; [by rewrite Hb|by rewrite andb_false_r].
Qed.

Lemma pressed_lor st a b : pressed st (Z.lor a b) = pressed st a || pressed st b.
Proof.
  unfold pressed. rewrite Z.land_lor_distr_r. apply eq_true_iff_eq. rewrite orb_true_iff, !negb_true_iff, !Z.eqb_neq, Z.lor_eq_0_iff.
  destruct (decide (Z.land st a = 0%Z)); tauto.
Qed.

Lemma ctrl_bits st : is_ctrl_pressed st = Z.testbit st 3 || Z.testbit st 2.
Proof. unfold is_ctrl_pressed. rewrite pressed_lor. f_equal; [by apply (pressed_bit st 3)|by apply (pressed_bit st 2)]. Qed.

Lemma alt_bits st : is_alt_pressed st = Z.testbit st 1 || Z.testbit st 0.
Proof. unfold is_alt_pressed. rewrite pressed_lor. f_equal; [by apply (pressed_bit st 1)|by apply (pressed_bit st 0)]. Qed.

Lemma enhanced_bit st : is_enhanced_key st = Z.testbit st 8.
Proof. apply (pressed_bit st 8). lia. Qed.

(** Without the right alt key and the left control key. *)
Definition without_altgr (st : Z) : Z := Z.ldiff (Z.ldiff st RIGHT_ALT_PRESSED) LEFT_CTRL_PRESSED.

Lemma without_altgr_bits st n : (0 <= n)%Z -> Z.testbit (without_altgr st) n = Z.testbit st n && negb (n =? 0)%Z && negb (n =? 3)%Z.
Proof.
  intros Hn. unfold without_altgr. rewrite !Z.ldiff_spec. change RIGHT_ALT_PRESSED with (2 ^ 0)%Z. change LEFT_CTRL_PRESSED with (2 ^ 3)%Z.
  rewrite !Z.pow2_bits_eqb by lia. by rewrite (Z.eqb_sym 0), (Z.eqb_sym 3).
Qed.

(** *** Keys told apart *)

Lemma modified_key_seq {E} {CO : ConsoleOs E} vk normal st : (vk, normal) ∈ modified_keys ->
  let s := SeqBuf (get_modifier_sequence vk st normal) in
  if (vk <? VK_F1)%Z then enhanced_key vk st = s else editing_key vk st = None /\ function_key vk st = Some s.
Proof. intros H. repeat (apply elem_of_cons in H as [[= -> ->]|H]; [by cbn|]). by apply not_elem_of_nil in H. Qed.

Lemma modified_key_vk vk1 vk2 normal : (vk1, normal) ∈ modified_keys -> (vk2, normal) ∈ modified_keys -> vk1 = vk2.
Proof.
  assert (H : forallb (fun k => forallb (fun k' => negb (bool_decide (k.2 = k'.2)) || (k.1 =? k'.1)%Z) modified_keys) modified_keys = true)
    by (vm_compute; reflexivity).
  intros H1 H2. apply list_elem_of_In in H1, H2. rewrite forallb_forall in H. apply H in H1. rewrite forallb_forall in H1. apply H1 in H2. cbn in H2.
  rewrite bool_decide_eq_true_2 in H2 by done. by apply Z.eqb_eq in H2.
Qed.

Lemma modified_key_normal vk normal st : (vk, normal) ∈ modified_keys -> is_enhanced_key st = (vk <? VK_F1)%Z ->
  normalize_keypad_control_key_state vk st = st.
Proof.
  intros H He. unfold normalize_keypad_control_key_state. rewrite He. case_match; [done|].
  repeat (apply elem_of_cons in H as [[= -> ->]|H]; [by cbn|]). by apply not_elem_of_nil in H.
Qed.

Lemma modifier_code_inj st st' : modifier_code st = modifier_code st' ->
  is_shift_pressed st = is_shift_pressed st' /\ is_alt_pressed st = is_alt_pressed st' /\ is_ctrl_pressed st = is_ctrl_pressed st'.
Proof.
  unfold modifier_code.
  by destruct (is_shift_pressed st), (is_alt_pressed st), (is_ctrl_pressed st), (is_shift_pressed st'), (is_alt_pressed st'), (is_ctrl_pressed st').
Qed.

(** A key of the table, for which Windows gives no character. *)
Definition special_key (key : key_event) : Prop :=
  AsciiChar key = NUL /\ is_enhanced_key (dwControlKeyState key) = (wVirtualKeyCode key <? VK_F1)%Z /\
  exists normal, (wVirtualKeyCode key, normal) ∈ modified_keys.

Lemma special_key_text lay d key normal : special_key key -> (wVirtualKeyCode key, normal) ∈ modified_keys ->
  key_text lay d key = get_modifier_sequence (wVirtualKeyCode key) (dwControlKeyState key) normal.
Proof.
  intros (Hc & He & _) Hin. unfold key_text, translate_key.
  assert (Hst : normalize_altgr_control_key_state key = dwControlKeyState key).
  { unfold normalize_altgr_control_key_state. rewrite (bool_decide_eq_true_2 _ Hc), andb_false_r. done. }
  rewrite Hst, He. pose proof (modified_key_seq (CO := layout_os lay d) _ _ (dwControlKeyState key) Hin) as Hs. cbv zeta in Hs.
  assert (Hw : windows_char key = []) by (unfold windows_char; by rewrite bool_decide_eq_true_2).
  destruct (wVirtualKeyCode key <? VK_F1)%Z.
  - unfold bind, ret. rewrite Hs, Hw. by destruct (get_modifier_sequence _ _ _).
  - destruct Hs as [H1 H2]. unfold plain_key. rewrite H1, H2. unfold bind, ret. rewrite Hw. by destruct (get_modifier_sequence _ _ _).
Qed.

(** A cursor key or function key is recognised by what is sent for it: two
    presses of such keys send the same text only when they are of the same key
    with the same of the keys shift, alt and control. *)
Theorem special_keys_told_apart lay d key1 key2 : special_key key1 -> special_key key2 -> key_text lay d key1 = key_text lay d key2 ->
  let st1 := dwControlKeyState key1 in let st2 := dwControlKeyState key2 in
  wVirtualKeyCode key1 = wVirtualKeyCode key2 /\ is_shift_pressed st1 = is_shift_pressed st2 /\
  is_alt_pressed st1 = is_alt_pressed st2 /\ is_ctrl_pressed st1 = is_ctrl_pressed st2.
Proof.
  intros H1 H2 Heq. destruct (H1) as (_ & E1 & n1 & I1). destruct (H2) as (_ & E2 & n2 & I2).
  rewrite (special_key_text _ _ _ n1), (special_key_text _ _ _ n2) in Heq by done.
  apply (f_equal read_modifiers) in Heq. rewrite !(proj1 (modifiers_read _ _ _ _ I1)), !(proj1 (modifiers_read _ _ _ _ I2)) in Heq.
  injection Heq as <- Hcode. rewrite (modified_key_normal _ _ _ I1 E1), (modified_key_normal _ _ _ I2 E2) in Hcode.
  split; [by eapply modified_key_vk|]. by apply modifier_code_inj.
Qed.

(** *** Characters *)

Definition character_keys : list Z :=
  [0x30; 0x31; 0x39; VK_OEM_1; VK_OEM_PLUS; VK_OEM_COMMA; VK_OEM_PERIOD; VK_OEM_7; VK_OEM_102; VK_OEM_2; VK_OEM_3; VK_OEM_4; VK_OEM_5;
   VK_OEM_6; VK_OEM_MINUS]%Z ++ seqZ 0x32 7 ++ seqZ 0x41 26.

Section Characters.
Context {E : Type} {CO : ConsoleOs E}.
Abbreviation C := (console E).

Lemma windows_char_spec key : AsciiChar key <> NUL -> windows_char key = [AsciiChar key].
Proof. intros H. unfold windows_char. by rewrite bool_decide_eq_false_2. Qed.

Lemma plain_char key st modifier : AsciiChar key <> NUL -> get_char_ignoring_modifier key st modifier = (ret [AsciiChar key] : M C bytes).
Proof. intros H. unfold get_char_ignoring_modifier. rewrite bool_decide_eq_false_2, windows_char_spec by done. done. Qed.

Lemma character_key_plain vk st key (c : C) : vk ∈ character_keys -> AsciiChar key <> NUL -> is_ctrl_pressed st = false -> is_alt_pressed st = false ->
  plain_key vk st key c = Done (SeqBuf [AsciiChar key]) c.
Proof.
  intros Hvk Hch Hctrl Halt. unfold plain_key, character_key, get_control_character, get_non_control_char, get_non_alt_char.
  rewrite !plain_char, Hctrl, Halt by done.
  repeat (apply elem_of_cons in Hvk as [->|Hvk]; [by cbn|]). by apply not_elem_of_nil in Hvk.
Qed.

End Characters.

(** With AltGr (the right alt key, which Windows reports together with the
    left control key) a key sends the character that the layout has there, and
    neither an escape nor a control character. *)
Theorem altgr_types lay d key : wVirtualKeyCode key ∈ character_keys -> AsciiChar key <> NUL ->
  let st := dwControlKeyState key in
  pressed st RIGHT_ALT_PRESSED = true -> pressed st LEFT_CTRL_PRESSED = true ->
  pressed st LEFT_ALT_PRESSED = false -> pressed st RIGHT_CTRL_PRESSED = false -> is_enhanced_key st = false ->
  key_text lay d key = [AsciiChar key].
Proof.
  intros Hvk Hch st Hra Hlc Hla Hrc He. unfold key_text, translate_key.
  assert (Hst : normalize_altgr_control_key_state key = without_altgr st).
  { unfold normalize_altgr_control_key_state. fold st. unfold is_ctrl_pressed, is_alt_pressed.
    rewrite !pressed_lor, Hra, Hlc, Hla, Hrc, (bool_decide_eq_false_2 _ Hch). done. }
  change RIGHT_CTRL_PRESSED with (2 ^ 2)%Z in Hrc. change LEFT_ALT_PRESSED with (2 ^ 1)%Z in Hla. rewrite pressed_bit in Hrc, Hla by lia.
  rewrite Hst. unfold bind at 1. rewrite enhanced_bit, without_altgr_bits, <- enhanced_bit, He by lia. cbn [andb].
  rewrite (character_key_plain (CO := layout_os lay d)); [done..| |].
  - rewrite ctrl_bits, !without_altgr_bits, Hrc by lia. by rewrite andb_false_r.
  - rewrite alt_bits, !without_altgr_bits, Hla by lia. by rewrite andb_false_r.
Qed.

(** *** The bounds of [seqbuf], which has 16 bytes *)

Lemma find_key_modified vk normal shifted : find_key vk CURSOR_KEYS = Some (normal, shifted) ->
  (exists k, (k, normal) ∈ modified_keys) /\ length (str shifted) = 1.
Proof.
  cbn [find_key CURSOR_KEYS]. intros H.
  repeat (case_match; [injection H as <- <-; split; [eexists; apply list_elem_of_In; cbn; tauto|done]|]). done.
Qed.

Lemma modifier_sequence_fits vk st k normal : (k, normal) ∈ modified_keys -> length (get_modifier_sequence vk st normal) <= 7.
Proof. intros H. by apply (modifiers_read k normal vk st). Qed.

Lemma keypad_sequence_fits vk st k normal c : (k, normal) ∈ modified_keys -> length (get_modifier_keypad_sequence vk st normal c) <= 7.
Proof. intros H. unfold get_modifier_keypad_sequence. repeat case_match; cbn; [lia..|by eapply modifier_sequence_fits]. Qed.

Section Bounds.
Context {E : Type} {CO : ConsoleOs E}.
Abbreviation C := (console E).
Abbreviation fits := (fun s => length (seq_text s) <= 7).

Lemma enhanced_key_fits vk st : fits (enhanced_key vk st).
Proof.
  unfold enhanced_key. destruct (find_key vk CURSOR_KEYS) as [[normal shifted]|] eqn:H.
  - apply find_key_modified in H as [[k Hk] _]. by apply (modifier_sequence_fits vk st k).
  - repeat case_match; cbn; try lia. apply (modifier_sequence_fits vk st VK_DELETE). apply list_elem_of_In. cbn. tauto.
Qed.

Lemma editing_key_fits vk st s : editing_key vk st = Some s -> fits s.
Proof.
  unfold editing_key, get_keypad_sequence. intros H.
  repeat (case_match; [simplify_eq; cbn; repeat case_match; cbn; try lia; apply (keypad_sequence_fits vk st VK_DELETE), list_elem_of_In; cbn; tauto|]).
  destruct (find_key vk CURSOR_KEYS) as [[normal shifted]|] eqn:Hf; [|done]. simplify_eq. apply find_key_modified in Hf as [[k Hk] _].
  by apply (keypad_sequence_fits vk st k).
Qed.

Lemma function_key_fits vk st s : function_key vk st = Some s -> fits s.
Proof.
  unfold function_key. intros H. repeat (case_match; [simplify_eq; cbn; lia|]).
  destruct (if (VK_F1 <=? vk)%Z then F_KEYS !! Z.to_nat (vk - VK_F1) else None) as [normal|] eqn:Hf; [|done]. simplify_eq.
  destruct (Z.leb VK_F1 vk); [|done]. apply (modifier_sequence_fits vk st (VK_F1 + Z.of_nat (Z.to_nat (vk - VK_F1)))).
  unfold modified_keys. rewrite !elem_of_app. right. right. apply elem_of_lookup_imap. by eexists _, _.
Qed.

Lemma char_fits key st modifier c : twp (get_char_ignoring_modifier key st modifier) (fun s _ => length s <= 1) c.
Proof.
  assert (Hw : length (windows_char key) <= 1) by (unfold windows_char; case_match; cbn; lia).
  unfold get_char_ignoring_modifier. case_match; [|by apply twp_ret]. apply twp_bind. unfold twp at 1, console_call.
  destruct (ToAscii _ _ _ _ _ _ _) as [[t|] e]; apply twp_ret; [by cbn|done].
Qed.

Lemma control_character_fits key st c : twp (get_control_character key st) (fun s _ => length s <= 1) c.
Proof.
  unfold get_control_character, get_non_control_char. apply twp_bind. eapply twp_mono; [apply char_fits|]. intros s c' H. apply twp_ret.
  by destruct s as [|a [|]]; [|case_match|].
Qed.

Lemma escape_prefix_fits (b : bool) s : length s <= 1 -> length (if b then escape_prefix s else s) <= 7.
Proof. intros H. destruct b, s as [|a [|]]; cbn in *; lia. Qed.

(** C39: No key writes more than seven of the sixteen bytes of [seqbuf], whatever
    the modifiers are and the layout of the keyboard says. *)
Theorem seqbuf_fits vk st key c : fits (enhanced_key vk st) /\ twp (plain_key vk st key) (fun s _ => fits s) c.
Proof.
  split; [apply enhanced_key_fits|]. unfold plain_key. destruct (editing_key vk st) eqn:He; [by eapply twp_ret, editing_key_fits|].
  destruct (function_key vk st) eqn:Hf; [by eapply twp_ret, function_key_fits|]. unfold character_key, get_non_alt_char, get_non_control_char.
  destruct (plain_punctuation vk); [|destruct (control_digit vk); [|destruct (letter_key vk); [|destruct (vk =? VK_DECIMAL)%Z; [|apply twp_ret; cbn; lia]]]];
    apply twp_bind; (eapply twp_mono; [first [apply char_fits|apply control_character_fits]|]);
    intros s c' Hs; apply twp_ret; first [by apply escape_prefix_fits|by apply (escape_prefix_fits false)].
Qed.

End Bounds.

(** ** The mode of the console *)

Class ModeLaws (E : Type) {CO : ConsoleOs E} := {
  mode_set h m e : exists e', SetConsoleMode h m e = (true, e') /\ GetConsoleMode h e' = Some m;
}.

(** After raw mode the console has the mode it had. *)
Lemma stdin_raw_restores {E} {CO : ConsoleOs E} {ML : ModeLaws E} (c : console E) h m : get_console_handle 0 (co_env c) = Some (h, m) ->
  twp (stdin_raw_init ;;; stdin_raw_restore) (fun _ c' => GetConsoleMode h (co_env c') = Some m /\ co_handle c' = None) c.
Proof.
  intros Hh. unfold stdin_raw_init, stdin_raw_restore. apply twp_bind, twp_bind, twp_get. rewrite Hh. apply twp_bind, twp_modify.
  apply twp_bind. unfold twp at 1, console_call. destruct (mode_set h (raw_mode m) (co_env (set_co_old_mode m c))) as (e1 & -> & _).
  apply twp_modify, twp_bind, twp_get. cbn [co_handle set_co_handle]. apply twp_bind, twp_modify, twp_bind. unfold twp at 1, console_call.
  match goal with |- context [SetConsoleMode h ?m' ?e] => destruct (mode_set h m' e) as (e2 & -> & H2) end. apply twp_ret. by split.
Qed.

(** ** A small keyboard *)

Definition us_layout : layout := fun vk _ _ _ _ _ => if ((0x41 <=? vk) && (vk <=? 0x5a))%Z then Some (vk + 32)%Z else None.

#[export] Instance keys_os : ConsoleOs (list input_record) := {|
  ReadConsoleInputA _ e := match e with r :: rest => (Some (1%Z, r), rest) | [] => (None, []) end;
  ToAscii vk sc shift ctrl alt caps e := (us_layout vk sc shift ctrl alt caps, e);
  MapVirtualKeyA _ := 46%Z;
  crt_isatty _ _ := true; get_osfhandle fd _ := fd; GetConsoleMode _ _ := Some 7%Z; SetConsoleMode _ _ e := (true, e);
  crt_read _ _ e := (RdErr EIO, e);
|}.

#[export] Instance keys_laws : ConsoleLaws (list input_record) us_layout id.
Proof. split; [intros h e r rest H; unfold id in H; subst e; by eexists|intros; by eexists]. Qed.

Definition press (n vk ch st : Z) : key_event :=
  {| wRepeatCount := n; wVirtualKeyCode := vk; wVirtualScanCode := 0; AsciiChar := byte_of ch; dwControlKeyState := st |}.

(** [l] twice, shift alone, cursor up with control, the key [q] with AltGr, and
    a change of the window. *)
Definition pressed_keys : list input_record :=
  [KEY_EVENT true (press 2 0x4c 108 0); KEY_EVENT false (press 1 0x4c 108 0); KEY_EVENT true (press 1 VK_SHIFT 0 SHIFT_PRESSED);
   KEY_EVENT true (press 1 VK_UP 0 0x108); KEY_EVENT true (press 1 0x51 64 0x9); WINDOW_BUFFER_SIZE_EVENT; KEY_EVENT true (press 1 0x58 120 0)]%Z.

Definition pressed_console : console (list input_record) :=
  {| co_env := pressed_keys; co_input_buffer := []; co_old_mode := 7; co_handle := Some 0%Z |}.

Example pressed_text : typed (key_text us_layout 46) pressed_keys = str "ll" ++ CSI "1;5A" ++ str "@".
Proof. vm_compute. reflexivity. Qed.

Lemma console_read_types_witness :
  twp (console_read 9 0 3) (fun r c' =>
    match r with
    | RdOk out => out <> [] /\ (Zlen out <= 3)%Z /\
        str "ll" ++ CSI "1;5A" ++ str "@" = out ++ co_input_buffer c' ++ typed (key_text us_layout 46) (co_env c')
    | RdErr _ => False
    end) pressed_console.
Proof.
  eapply twp_mono; [refine (console_read_types us_layout id 9 0 3 pressed_console _ _ _ _)|].
  - lia.
  - repeat constructor; cbn; lia.
  - cbn. lia.
  - left. intros H. vm_compute in H. discriminate.
  - intros [out|e] c' H; [|destruct H as [_ H]; vm_compute in H; discriminate].
    destruct H as (H1 & H2 & H3). split; [done|]. split; [done|]. rewrite <- pressed_text. exact H3.
Defined.

Lemma special_keys_told_apart_witness : exists key1 key2, special_key key1 /\ special_key key2 /\
  key_text us_layout 46 key1 = key_text us_layout 46 key2 /\ key1 <> key2 /\
  is_ctrl_pressed (dwControlKeyState key1) = is_ctrl_pressed (dwControlKeyState key2).
Proof.
  set (key1 := press 1 VK_UP 0 0x108). set (key2 := press 1 VK_UP 0 0x104). exists key1, key2.
  assert (H1 : special_key key1) by (split; [done|split; [done|]]; exists (CSI "A"); apply list_elem_of_In; cbn; tauto).
  assert (H2 : special_key key2) by (split; [done|split; [done|]]; exists (CSI "A"); apply list_elem_of_In; cbn; tauto).
  assert (H : key_text us_layout 46 key1 = key_text us_layout 46 key2) by (vm_compute; reflexivity).
  split; [done|]. split; [done|]. split; [done|]. split; [done|]. exact (proj2 (proj2 (proj2 (special_keys_told_apart us_layout 46 key1 key2 H1 H2 H)))).
Defined.

Lemma altgr_types_witness : key_text us_layout 46 (press 1 0x51 64 0x9) = str "@".
Proof. apply (altgr_types us_layout 46 (press 1 0x51 64 0x9)); [apply list_elem_of_In; vm_compute; tauto|vm_compute; discriminate|vm_compute; reflexivity..]. Defined.
