(* ===== verification/WinText.v ===== *)
(** * Texts, names and the environment on Windows (sysdeps_win32.cpp)

    The code works with UTF-8; Windows with UTF-16, here lists of code units.
    What is written to a console is converted when its characters are whole. *)

From S2P Require Import Prelude Packet AdbIo WinConsole.

(** The Unicode functions of libbase and of the C runtime.  [UTF8ToWide] says
    whether the text is valid and gives what it made of it in any case.  A
    stream is its [fileno]; [w_readdir] gives the next name of a directory.  An
    error is the value of errno. *)
Class WinFiles (E : Type) := {
  UTF8ToWide : bytes -> bool * list Z;
  WideToUTF8 : list Z -> option bytes;
  WriteConsoleW : Z -> list Z -> E -> bool * E;
  crt_fflush : Z -> E -> E;
  crt_vfprintf : Z -> bytes -> E -> Z * E;
  crt_fwrite : bytes -> Z -> Z -> E -> Z * E;
  w_open : list Z -> Z -> option Z -> E -> Z * E;
  w_opendir : list Z -> E -> option Z * E;
  w_readdir : Z -> E -> option (list Z) * E;
  w_closedir : Z -> E -> Z * E;
  w_unlink : list Z -> E -> option errno_t * E;
  w_chmod : list Z -> Z -> E -> option errno_t * E;
  w_mkdir : list Z -> E -> option errno_t * E;
  w_utime : list Z -> Z -> E -> option errno_t * E;
  w_fopen : list Z -> list Z -> E -> option Z * E;
  w_getcwd : E -> option (list Z);
  w_environ : option (list (list Z));
}.

(** sys/stat.h, fcntl.h and stdlib.h of Windows; [sizeof] of [d_name]. *)
Definition S_IREAD : Z := 0x100.
Definition S_IWRITE : Z := 0x80.
Definition O_CREAT : Z := 0x100.
Definition WDIRENT_NAME_SIZE : Z := 520.

(** ** Whole characters *)

Definition utf8_codepoint_len (ch : Z) : Z :=
  (Z.land (Z.shiftr 0xe5000000 (Z.land (Z.shiftr ch 3) 0x1e)) 3 + 1)%Z.

Definition high_bit (c : ascii) : bool := negb (Z.land (byte_val c) 0x80 =? 0)%Z.
Definition lead_byte (c : ascii) : bool := (Z.land (byte_val c) 0xc0 =? 0xc0)%Z.

(** The walk from the end: [seen] bytes from [current_after] on; the incomplete
    character at the end, if there is one, is counted. *)
Fixpoint incomplete_at_end (before : bytes) (seen : nat) : nat :=
  match before with
  | [] => 0
  | ch :: rest =>
      if negb (high_bit ch) then 0
      else if lead_byte ch then (if (Z.of_nat (S seen) <? utf8_codepoint_len (byte_val ch))%Z then S seen else 0)
      else incomplete_at_end rest (S seen)
  end.

(** The bytes that are complete, and those that remain. *)
Definition ParseCompleteUTF8 (s : bytes) : bytes * bytes :=
  let n := (length s - incomplete_at_end (rev s) 0)%nat in (take n s, drop n s).

(** ** Lower case, in the C locale *)

Definition tolower (c : ascii) : ascii := if is_upper c then byte_of (byte_val c + 32) else c.
Definition ToLower (anycase : bytes) : bytes := map tolower anycase.

Definition wide_equal : Z := 61.

(** [wcschr]: what is before and what is behind the first [c]. *)
Fixpoint wide_split (s : list Z) (c : Z) : option (list Z * list Z) :=
  match s with
  | [] => None
  | x :: rest => if (x =? c)%Z then Some ([], rest) else match wide_split rest c with Some (a, b) => Some (x :: a, b) | None => None end
  end.

(** The static variables: what is not written yet, and the environment. *)
Record text_state (E : Type) := {
  tx_env : E;
  tx_output_buffer : bytes;
  tx_environ : gmap bytes bytes;
}.
Arguments tx_env {E} _.
Arguments tx_output_buffer {E} _.
Arguments tx_environ {E} _.

Definition set_tx_env {E} (e : E) (t : text_state E) : text_state E :=
  {| tx_env := e; tx_output_buffer := tx_output_buffer t; tx_environ := tx_environ t |}.
Definition set_tx_output_buffer {E} (b : bytes) (t : text_state E) : text_state E :=
  {| tx_env := tx_env t; tx_output_buffer := b; tx_environ := tx_environ t |}.
Definition set_tx_environ {E : Type} (m : gmap bytes bytes) (t : text_state E) : text_state E :=
  {| tx_env := tx_env t; tx_output_buffer := tx_output_buffer t; tx_environ := m |}.

Section WinText.
Context {E : Type} {CO : ConsoleOs E} {WF : WinFiles E}.
Abbreviation T := (text_state E).

Definition text_call {A} (f : E -> A * E) : M T A := fun t => let '(a, e) := f (tx_env t) in Done a (set_tx_env e t).

(** ** Writing to a console *)

(** The bytes that were left come first.  The result is the number of bytes, or
    -1. *)
Definition console_write_utf8 (buf : bytes) (stream console : Z) : M T Z :=
  let* t := get in
  let '(utf8, remaining) := ParseCompleteUTF8 (tx_output_buffer t ++ buf) in
  modify (set_tx_output_buffer remaining) ;;;
  let utf16 := snd (UTF8ToWide utf8) in
  let* _ := text_call (fun e => (tt, crt_fflush stream e)) in
  let* ok := text_call (WriteConsoleW console utf16) in
  ret (if ok : bool then Zlen buf else -1)%Z.

Definition stream_console (stream : Z) : M T (option Z) :=
  gets (fun t => if (stream <? 0)%Z then None else option_map fst (get_console_handle stream (tx_env t))).

(** The formatted text [output_utf8]; [adb_fprintf], [adb_printf]. *)
Definition adb_vfprintf (stream : Z) (output_utf8 : bytes) : M T Z :=
  let* console := stream_console stream in
  match console with
  | Some h => console_write_utf8 output_utf8 stream h
  | None => text_call (crt_vfprintf stream output_utf8)
  end.

(** A C string ends at its first 0. *)
Definition adb_fputs (buf : bytes) (stream : Z) : M T Z := adb_vfprintf stream (c_str buf).
Definition adb_puts (buf : bytes) : M T Z := adb_vfprintf 1 (c_str buf ++ [byte_of 10]).

Definition adb_fputc (ch stream : Z) : M T Z :=
  let* r := adb_vfprintf stream [byte_of ch] in
  ret (if (r =? -1)%Z then -1 else u8 ch)%Z.

Definition adb_putchar (ch : Z) : M T Z := adb_fputc ch 1.

(** [size] bytes for each of [nmemb] items. *)
Definition console_fwrite (ptr : bytes) (size stream console : Z) : M T Z :=
  let* result := console_write_utf8 ptr stream console in
  if (result =? -1)%Z then ret 0%Z else
  check (negb (size =? 0)%Z) "division by zero" ;;;
  ret (result / size)%Z.

Definition adb_fwrite (ptr : bytes) (size stream : Z) : M T Z :=
  let* console := stream_console stream in
  match console with
  | Some h => console_fwrite ptr size stream h
  | None => text_call (crt_fwrite ptr size stream)
  end.

(** ** Names of files *)

Definition wide (path : bytes) : option (list Z) := match UTF8ToWide path with (true, w) => Some w | (false, _) => None end.

Definition unix_open (path : bytes) (options mode : Z) : M T Z :=
  match wide path with
  | None => ret (-1)%Z
  | Some path_wide => text_call (w_open path_wide options (if (Z.land options O_CREAT =? 0)%Z then None else Some mode))
  end.

Definition adb_opendir (path : bytes) : M T (option Z) :=
  match wide path with None => ret None | Some path_wide => text_call (w_opendir path_wide) end.

(** A name that does not fit ends the listing, as one that is no text does. *)
Definition adb_readdir (dir : Z) : M T (option bytes) :=
  let* went := text_call (w_readdir dir) in
  match went with
  | None => ret None
  | Some d_name =>
      match WideToUTF8 d_name with
      | None => ret None
      | Some name_utf8 => ret (if (WDIRENT_NAME_SIZE <? Zlen name_utf8 + 1)%Z then None else Some name_utf8)
      end
  end.

Definition adb_closedir (dir : Z) : M T Z := text_call (w_closedir dir).

(** A file that is read only is made writable first. *)
Definition adb_unlink (path : bytes) : M T bool :=
  match wide path with
  | None => ret false
  | Some wpath =>
      let* rc := text_call (w_unlink wpath) in
      match rc with
      | None => ret true
      | Some EACCES =>
          let* rc := text_call (w_chmod wpath (Z.lor S_IREAD S_IWRITE)) in
          match rc with
          | None => let* rc := text_call (w_unlink wpath) in ret (bool_decide (rc = None))
          | Some _ => ret false
          end
      | Some _ => ret false
      end
  end.

Definition on_path (path : bytes) (f : list Z -> E -> option errno_t * E) : M T bool :=
  match wide path with
  | None => ret false
  | Some path_wide => let* r := text_call (f path_wide) in ret (bool_decide (r = None))
  end.

Definition adb_mkdir (path : bytes) (mode : Z) : M T bool := on_path path w_mkdir.
Definition adb_utime (path : bytes) (u : Z) : M T bool := on_path path (fun p => w_utime p u).
Definition adb_chmod (path : bytes) (mode : Z) : M T bool := on_path path (fun p => w_chmod p mode).

Definition adb_fopen (path mode : bytes) : M T (option Z) :=
  match wide path with
  | None => ret None
  | Some path_wide => match wide mode with None => ret None | Some mode_wide => text_call (w_fopen path_wide mode_wide) end
  end.

(** [size]: 0 when the caller does not say it. *)
Definition adb_getcwd (size : Z) : M T (option bytes) :=
  let* t := get in
  match w_getcwd (tx_env t) with
  | None => ret None
  | Some wbuf =>
      match WideToUTF8 wbuf with
      | None => ret None
      | Some buf_utf8 => ret (if negb (size =? 0)%Z && (size <? Zlen buf_utf8 + 1)%Z then None else Some buf_utf8)
      end
  end.

(** The arguments of the program. *)
Fixpoint NarrowArgs (argv : list (list Z)) : M T (list bytes) :=
  match argv with
  | [] => ret []
  | arg :: rest =>
      match WideToUTF8 arg with
      | None => fatal "cannot convert argument from UTF-16 to UTF-8"
      | Some arg_narrow => let* narrow_args := NarrowArgs rest in ret (c_str arg_narrow :: narrow_args)
      end
  end.

(** ** The environment *)

Definition add_variable (m : gmap bytes bytes) (env : list Z) : gmap bytes bytes :=
  match wide_split env wide_equal with
  | None => m
  | Some (name, value) =>
      match WideToUTF8 name with
      | None => m
      | Some name_utf8 =>
          match WideToUTF8 value with
          | None => m
          | Some value_utf8 =>
              match m !! ToLower name_utf8 with
              | Some _ => m
              | None => <[ToLower name_utf8 := c_str value_utf8]> m
              end
          end
      end
  end.

Definition ensure_env_setup : M T unit :=
  let* t := get in
  if negb (bool_decide (tx_environ t = ∅)) then ret tt else
  match w_environ with
  | None => fatal "_wenviron is not set"
  | Some envs => modify (set_tx_environ (foldl add_variable (tx_environ t) envs))
  end.

Definition adb_getenv (name : bytes) : M T (option bytes) :=
  ensure_env_setup ;;;
  gets (fun t => tx_environ t !! ToLower name).

End WinText.

(** * Properties of the texts and the environment on Windows *)

(** ** UTF-8 *)

Definition continuation (c : ascii) : Prop := high_bit c = true /\ lead_byte c = false.

(** A character: one byte below 128, or a lead byte with the continuation bytes
    it announces. *)
Inductive is_char : bytes -> Prop :=
| char_ascii a : high_bit a = false -> is_char [a]
| char_long a tl : lead_byte a = true -> utf8_codepoint_len (byte_val a) = Zlen (a :: tl) -> Forall continuation tl -> is_char (a :: tl).

Inductive whole : bytes -> Prop :=
| whole_nil : whole []
| whole_char c s : is_char c -> whole s -> whole (c ++ s).

(** The beginning of a character, not all of it; or nothing. *)
Definition part_of_char (p : bytes) : Prop := p = [] \/ exists tl, p <> [] /\ tl <> [] /\ is_char (p ++ tl).

Lemma lead_byte_spec a : lead_byte a = true -> high_bit a = true /\ (2 <= utf8_codepoint_len (byte_val a) <= 4)%Z.
Proof. destruct a as [[] [] [] [] [] [] [] []]; vm_compute; intros H; try done; (split; [done|]; split; discriminate). Qed.

Lemma char_first c : is_char c -> exists a tl, c = a :: tl /\ Forall continuation tl /\ length c <= 4 /\
  (lead_byte a = true /\ utf8_codepoint_len (byte_val a) = Zlen c \/ high_bit a = false /\ tl = []).
Proof.
  intros [a Ha|a tl Ha Hl Ht]; eexists _, _; (split; [done|]); [|destruct (lead_byte_spec a Ha) as [_ H]]; (split; [done|]); split;
    [cbn; lia|by right|lia|by left].
Qed.

(** The walk passes the continuation bytes. *)
Lemma walk_continuations l r n : Forall continuation l -> incomplete_at_end (l ++ r) n = incomplete_at_end r (length l + n).
Proof.
  revert n. induction l as [|c l IH]; intros n Hl; [done|]. apply Forall_cons in Hl as [[H1 H2] Hl]. cbn. rewrite H1, H2. cbn [negb].
  rewrite IH by done. f_equal. lia.
Qed.

Lemma whole_ends s : whole s -> s = [] \/ exists s' c, s = s' ++ c /\ is_char c.
Proof.
  induction 1 as [|c s Hc Hs IH]; [by left|]. right. destruct IH as [->|(s' & c' & -> & Hc')].
  - exists [], c. by rewrite app_nil_r.
  - exists (c ++ s'), c'. by rewrite app_assoc.
Qed.

Lemma parse_whole s p : whole s -> part_of_char p -> ParseCompleteUTF8 (s ++ p) = (s, p).
Proof.
  intros Hs Hp. enough (incomplete_at_end (rev (s ++ p)) 0 = length p) as H.
  { unfold ParseCompleteUTF8. rewrite H, length_app. replace (length s + length p - length p)%nat with (length s) by lia.
    by rewrite take_app_length, drop_app_length. }
  rewrite rev_app_distr. destruct Hp as [->|(tl & Hne & Htl & Hc)].
  - destruct (whole_ends s Hs) as [->|(s' & c & -> & Hc)]; [done|]. rewrite app_nil_l, rev_app_distr.
    destruct (char_first c Hc) as (a & tl & -> & Ht & _ & Hcase). cbn [rev]. rewrite <- app_assoc, walk_continuations by (by apply Forall_rev).
    cbn. destruct Hcase as [[Hl Hlen]|[Hl _]].
    + destruct (lead_byte_spec a Hl) as [-> _]. rewrite Hl, Hlen. cbn [negb]. rewrite length_rev. rewrite (proj2 (Z.ltb_ge _ _)); [done|]. cbn. lia.
    + by rewrite Hl.
  - destruct p as [|a p]; [done|]. destruct (char_first _ Hc) as (a' & tl' & [= <- <-] & Ht & _ & Hcase).
    apply Forall_app in Ht as [Ht _]. cbn [rev]. rewrite <- app_assoc, walk_continuations by (by apply Forall_rev).
    cbn. destruct Hcase as [[Hl Hlen]|[_ Hnil]]; [|by apply app_eq_nil in Hnil as [_ ->]].
    destruct (lead_byte_spec a Hl) as [-> _]. rewrite Hl, Hlen. cbn [negb]. rewrite length_rev.
    rewrite (proj2 (Z.ltb_lt _ _)); [lia|]. cbn. rewrite length_app. destruct tl; [done|]. cbn. lia.
Qed.

Lemma whole_app s t : whole s -> whole t -> whole (s ++ t).
Proof. induction 1 as [|c s Hc Hs IH]; intros Ht; [done|]. rewrite <- app_assoc. constructor; [done|by apply IH]. Qed.

(** A text cut anywhere: whole characters, and the beginning of the next one. *)
Lemma whole_cut s r : whole (s ++ r) -> exists s' p, s = s' ++ p /\ whole s' /\ part_of_char p /\ whole (p ++ r).
Proof.
  remember (s ++ r) as all eqn:H. intros Hw. revert s H. induction Hw as [|c all Hc Hw IH]; intros s H.
  - symmetry in H. apply app_eq_nil in H as [-> ->]. exists [], []. repeat split; [constructor|by left|constructor].
  - apply app_eq_app in H as (k & [[-> H]|[-> ->]]).
    + destruct k as [|b k].
      * rewrite app_nil_r in Hc. cbn in H. subst r. exists s, []. rewrite app_nil_r. repeat split; [|by left|done]. rewrite <- (app_nil_r s). by repeat constructor.
      * destruct s as [|a s].
        -- exists [], []. cbn in *. subst r. repeat split; [constructor|by left|]. exact (whole_char _ _ Hc Hw).
        -- exists [], (a :: s). repeat split; [constructor|right; by exists (b :: k)|]. rewrite H, app_assoc. by constructor.
    + destruct (IH k eq_refl) as (s' & p & -> & Hs' & Hp & Hr). exists (c ++ s'), p. rewrite app_assoc. repeat split; [by constructor|done..].
Qed.

Lemma part_whole p : part_of_char p -> whole p -> p = [].
Proof.
  intros [->|(tl & Hne & Htl & Hc)] Hw; [done|]. destruct Hw as [|c s Hc' Hs]; [done|]. exfalso.
  destruct (char_first _ Hc) as (a & l & Heq & _ & _ & Hcase). destruct (char_first c Hc') as (a' & l' & -> & _ & _ & Hcase').
  cbn in Heq. injection Heq as -> Hl. destruct Hcase as [[H1 H2]|[H1 ->]].
  - destruct Hcase' as [[H1' H2']|[H1' _]]; [|by rewrite (proj1 (lead_byte_spec a H1)) in H1'].
    rewrite H2 in H2'. cbn in H2'. rewrite !length_app in H2'. destruct tl; [done|]. cbn in H2'. lia.
  - symmetry in Hl. rewrite Hl in *. destruct tl as [|b tl]; [done|]. destruct l'; cbn in Hl; [|done]. destruct s; done.
Qed.

(** ** The console

    [screen]: what it was given. *)
Class Screen (E : Type) {WF : WinFiles E} (console : Z) (screen : E -> list Z) := {
  screen_write u e : exists e', WriteConsoleW console u e = (true, e') /\ screen e' = screen e ++ u;
  screen_flush stream e : screen (crt_fflush stream e) = screen e;
  wide_nil : snd (UTF8ToWide []) = [];
  wide_app s t : whole s -> whole t -> snd (UTF8ToWide (s ++ t)) = snd (UTF8ToWide s) ++ snd (UTF8ToWide t);
}.

Section Console.
Context {E : Type} {WF : WinFiles E} (stream console : Z) (screen : E -> list Z) {SC : Screen E console screen}.
Abbreviation T := (text_state E).
Implicit Types (t : T).

(** One write after the other. *)
Definition write_each (bufs : list bytes) : M T unit :=
  iter_list (fun buf => let* r := console_write_utf8 buf stream console in check (r =? Zlen buf)%Z "short write") bufs.

Lemma write_piece buf s p t (Q : Z -> T -> Prop) : tx_output_buffer t ++ buf = s ++ p -> whole s -> part_of_char p ->
  (forall t', tx_output_buffer t' = p -> screen (tx_env t') = screen (tx_env t) ++ snd (UTF8ToWide s) -> Q (Zlen buf) t') ->
  twp (console_write_utf8 buf stream console) Q t.
Proof.
  intros Heq Hs Hp HQ. unfold console_write_utf8. apply twp_bind, twp_get. rewrite Heq, parse_whole by done.
  apply twp_bind, twp_modify, twp_bind. unfold twp at 1, text_call. apply twp_bind. unfold twp at 1, text_call.
  match goal with |- context [WriteConsoleW console ?u ?e] => destruct (screen_write u e) as (e' & -> & He) end.
  apply twp_ret. apply HQ; [done|]. cbn [tx_env set_tx_env]. rewrite He. f_equal. apply (screen_flush (console := console)).
Qed.

Lemma write_each_from bufs t : part_of_char (tx_output_buffer t) -> whole (tx_output_buffer t ++ concat bufs) ->
  twp (write_each bufs) (fun _ t' => tx_output_buffer t' = [] /\
    screen (tx_env t') = screen (tx_env t) ++ snd (UTF8ToWide (tx_output_buffer t ++ concat bufs))) t.
Proof.
  revert t. induction bufs as [|buf bufs IH]; intros t Hp Hw; cbn [concat] in *.
  - apply twp_ret. rewrite app_nil_r in *. assert (Hnil := part_whole _ Hp Hw). by rewrite Hnil, (wide_nil (screen := screen)), app_nil_r.
  - rewrite app_assoc in Hw. destruct (whole_cut _ _ Hw) as (s & p & Heq & Hs & Hp' & Hr).
    apply twp_bind, twp_bind, (write_piece buf s p t); [done..|]. intros t1 Hb1 Hs1. unfold twp at 1, check. rewrite Z.eqb_refl.
    eapply twp_mono; [apply IH; by rewrite Hb1|]. intros _ t2 [Hb2 Hs2]. split; [done|].
    rewrite Hs2, Hs1, Hb1, app_assoc, Heq, <- !app_assoc. f_equal. apply symmetry, (wide_app (screen := screen)); done.
Qed.


End Console.

(** ** The environment *)

Section Environment.
Context {E : Type} {WF : WinFiles E}.
Abbreviation T := (text_state E).
Implicit Types (t : T).

(** The name and value of an entry, the name in lower case. *)
Definition variable (env : list Z) : option (bytes * bytes) :=
  match wide_split env wide_equal with
  | None => None
  | Some (name, value) =>
      match WideToUTF8 name, WideToUTF8 value with Some n, Some v => Some (ToLower n, c_str v) | _, _ => None end
  end.

(** The first entry with the name, in whatever case. *)
Fixpoint first_variable (name : bytes) (envs : list (list Z)) : option bytes :=
  match envs with
  | [] => None
  | env :: rest =>
      match variable env with
      | Some (n, v) => if bool_decide (n = ToLower name) then Some v else first_variable name rest
      | None => first_variable name rest
      end
  end.

Lemma add_variable_lookup m env k : add_variable m env !! k =
  match m !! k with
  | Some v => Some v
  | None => match variable env with Some (n, v) => if bool_decide (n = k) then Some v else None | None => None end
  end.
Proof.
  unfold add_variable, variable. destruct (wide_split env wide_equal) as [[name value]|]; [|by destruct (m !! k)].
  destruct (WideToUTF8 name) as [n|]; [|by destruct (m !! k)]. destruct (WideToUTF8 value) as [v|]; [|by destruct (m !! k)].
  case_bool_decide as Hk; [subst k|].
  - destruct (m !! ToLower n) eqn:Hm; [by rewrite Hm|by rewrite lookup_insert_eq].
  - destruct (m !! ToLower n); [by destruct (m !! k)|]. rewrite lookup_insert_ne by done. by destruct (m !! k).
Qed.

Lemma environ_lookup envs m name : foldl add_variable m envs !! ToLower name =
  match m !! ToLower name with Some v => Some v | None => first_variable name envs end.
Proof.
  revert m. induction envs as [|env envs IH]; intros m; cbn; [by destruct (m !! _)|]. rewrite IH, add_variable_lookup.
  destruct (m !! ToLower name); [done|]. destruct (variable env) as [[n v]|]; [|done]. by case_bool_decide.
Qed.

(** One question after the other. *)
Fixpoint getenv_each (names : list bytes) : M T (list (option bytes)) :=
  match names with
  | [] => ret []
  | name :: rest => let* v := adb_getenv name in let* vs := getenv_each rest in ret (v :: vs)
  end.

Lemma getenv_one envs name t (Q : option bytes -> T -> Prop) : w_environ = Some envs ->
  tx_environ t = ∅ \/ tx_environ t = foldl add_variable ∅ envs ->
  (forall t', tx_environ t' = ∅ \/ tx_environ t' = foldl add_variable ∅ envs -> Q (first_variable name envs) t') -> twp (adb_getenv name) Q t.
Proof.
  intros He Ht HQ. unfold adb_getenv, ensure_env_setup. apply twp_bind, twp_bind, twp_get.
  assert (Hread : forall t', tx_environ t' = foldl add_variable ∅ envs -> twp (gets (fun t => tx_environ t !! ToLower name)) Q t').
  { intros t' Ht'. unfold twp, gets. rewrite Ht', environ_lookup, lookup_empty. apply HQ. by right. }
  case_bool_decide as Hempty; cbn [negb].
  - rewrite He. apply twp_modify, Hread. cbn. by rewrite Hempty.
  - apply twp_ret, Hread. by destruct Ht.
Qed.

(** The environment.  Every question, the first or a later one, is answered
    by the first entry of the environment of Windows whose name is the name
    asked for, in whatever case both are written. *)
Theorem environment_asked envs names t : w_environ = Some envs -> tx_environ t = ∅ ->
  twp (getenv_each names) (fun vs _ => vs = map (fun name => first_variable name envs) names) t.
Proof.
  intros He Ht. assert (H : tx_environ t = ∅ \/ tx_environ t = foldl add_variable ∅ envs) by by left. clear Ht. revert t H.
  induction names as [|name names IH]; intros t Ht; [by apply twp_ret|]. cbn [getenv_each map].
  apply twp_bind, (getenv_one envs); [done..|]. intros t' Ht'. apply twp_bind. eapply twp_mono; [by apply IH|]. intros vs t2 ->. by apply twp_ret.
Qed.

End Environment.

(** ** Files *)

Section Files.
Context {E : Type} {CO : ConsoleOs E} {WF : WinFiles E}.

(** A read-only file goes, too. *)
Lemma unlink_read_only path w t e1 e2 e3 : wide path = Some w -> w_unlink w (tx_env t) = (Some EACCES, e1) ->
  w_chmod w (Z.lor S_IREAD S_IWRITE) e1 = (None, e2) -> w_unlink w e2 = (None, e3) -> adb_unlink path t = Done true (set_tx_env e3 t).
Proof.
  intros Hp H1 H2 H3. unfold adb_unlink. rewrite Hp. unfold bind, text_call. rewrite H1. cbn [tx_env set_tx_env]. rewrite H2. cbn [tx_env set_tx_env].
  rewrite H3. done.
Qed.

End Files.

(** ** A small Windows

    The environment is fixed, the console keeps what it was given. *)

(** The characters of UTF-8; a surrogate pair above the first plane. *)
Definition utf16 (c : Z) : list Z := if (c <? 0x10000)%Z then [c] else [0xd800 + (c - 0x10000) / 1024; 0xdc00 + (c - 0x10000) mod 1024]%Z.

Fixpoint decode_utf8 (need : nat) (acc : Z) (s : bytes) : list Z :=
  match s with
  | [] => []
  | a :: rest =>
      match need with
      | O =>
          let n := Z.to_nat (utf8_codepoint_len (byte_val a)) in
          if (n =? 1)%nat then byte_val a :: decode_utf8 0 0 rest
          else decode_utf8 (n - 1) (Z.land (byte_val a) (2 ^ (7 - Z.of_nat n) - 1)) rest
      | S k =>
          let acc := (acc * 64 + Z.land (byte_val a) 63)%Z in
          match k with O => utf16 acc ++ decode_utf8 0 0 rest | _ => decode_utf8 k acc rest end
      end
  end.

Definition ascii_of_wide (w : list Z) : option bytes := if forallb (fun c => (0 <=? c) && (c <? 128))%Z w then Some (map byte_of w) else None.
Definition wide_of (s : string) : list Z := map byte_val (str s).

#[export] Instance pane_files : WinFiles (list Z) := {|
  UTF8ToWide s := (true, decode_utf8 0 0 s);
  WideToUTF8 := ascii_of_wide;
  WriteConsoleW _ u e := (true, e ++ u);
  crt_fflush _ e := e;
  crt_vfprintf _ s e := (Zlen s, e);
  crt_fwrite s n _ e := (Zlen s / n, e)%Z;
  w_open _ _ _ e := ((-1)%Z, e);
  w_opendir _ e := (None, e);
  w_readdir _ e := (None, e);
  w_closedir _ e := (0%Z, e);
  w_unlink _ e := (None, e);
  w_chmod _ _ e := (None, e);
  w_mkdir _ e := (None, e);
  w_utime _ _ e := (None, e);
  w_fopen _ _ e := (None, e);
  w_getcwd _ := None;
  w_environ := Some [wide_of "Path=C:\tools"; wide_of "PATH=second"; wide_of "broken"; wide_of "=C:=C:\work"; wide_of "ANDROID_SERIAL=emulator-5554"];
|}.

Lemma codepoint_len_ascii a : high_bit a = false -> utf8_codepoint_len (byte_val a) = 1%Z.
Proof. destruct a as [[] [] [] [] [] [] [] []]; vm_compute; by intros H. Qed.

Lemma decode_char c s : is_char c -> decode_utf8 0 0 (c ++ s) = decode_utf8 0 0 c ++ decode_utf8 0 0 s.
Proof.
  intros [a Ha|a tl Ha Hl Ht].
  - cbn [app decode_utf8]. by rewrite codepoint_len_ascii by done.
  - destruct (lead_byte_spec a Ha) as [_ Hr]. cbn [app decode_utf8]. rewrite Hl in *. rewrite Nat2Z.id. cbn [length] in *.
    destruct tl as [|b1 [|b2 [|b3 [|]]]]; cbn in Hr; try lia; cbn; by rewrite ?app_nil_r, <- ?app_assoc.
Qed.

#[export] Instance pane_screen console : Screen (list Z) console id.
Proof.
  split; [intros u e; by eexists|done|done|]. intros s t Hs _. cbn. induction Hs as [|c s Hc Hs IH]; [done|].
  rewrite <- app_assoc, (decode_char c (s ++ t)), (decode_char c s), IH, app_assoc by done. done.
Qed.

Definition empty_pane : text_state (list Z) := {| tx_env := []; tx_output_buffer := []; tx_environ := ∅ |}.

(** "a", the euro sign, a letter of the second plane, "z": cut in the middle of
    both long characters. *)
Definition pieces : list bytes := map (map byte_of) [[0x61; 0xe2]; [0x82]; [0xac; 0xf0; 0x9f]; [0x98; 0x80; 0x7a]]%Z.

Lemma pieces_whole : whole (concat pieces).
Proof.
  change (concat pieces) with (map byte_of [0x61]%Z ++ map byte_of [0xe2; 0x82; 0xac]%Z ++ map byte_of [0xf0; 0x9f; 0x98; 0x80]%Z ++ map byte_of [0x7a]%Z ++ []).
  assert (Hlong : forall a tl, lead_byte a = true -> utf8_codepoint_len (byte_val a) = Zlen (a :: tl) ->
    forallb (fun c => high_bit c && negb (lead_byte c)) tl = true -> is_char (a :: tl)).
  { intros a tl H1 H2 H3. apply char_long; [done..|]. apply Forall_forall. intros c Hc. rewrite forallb_forall in H3.
    apply list_elem_of_In, H3, andb_true_iff in Hc as [H4 H5]. by apply negb_true_iff in H5. }
  apply whole_char; [by apply char_ascii|]. apply whole_char; [by apply Hlong; vm_compute|]. apply whole_char; [by apply Hlong; vm_compute|].
  apply whole_char; [by apply char_ascii|constructor].
Qed.


Lemma environment_asked_witness :
  twp (getenv_each [str "path"; str "android_serial"; str "HOME"])
    (fun vs _ => vs = [Some (str "C:\tools"); Some (str "emulator-5554"); None]) empty_pane.
Proof. eapply twp_mono; [exact (environment_asked _ [str "path"; str "android_serial"; str "HOME"] empty_pane eq_refl eq_refl)|]. intros vs _ ->. vm_compute. reflexivity. Defined.
