(* ===== verification/WinFds.v ===== *)
(** * Descriptors on Windows (sysdeps_win32.cpp)

    Windows has handles of files and sockets of two kinds; the code keeps a
    table of both and gives out numbers from 2048 on, as [open] and [socket]
    do on Unix. *)

From S2P Require Import Prelude Packet AdbIo WinConsole WinText.

Inductive FHClass := FileClass | SocketClass.

#[export] Instance FHClass_eq_dec : EqDecision FHClass.
Proof. solve_decision. Defined.

#[export] Instance FHClass_countable : Countable FHClass.
Proof.
  refine (inj_countable' (fun c => match c with FileClass => true | SocketClass => false end) (fun b : bool => if b then FileClass else SocketClass) _).
  by intros [].
Defined.

Definition WIN32_FH_BASE : Z := 2048.
Definition WIN32_MAX_FHS : Z := 2048.

(** [INVALID_HANDLE_VALUE] and [INVALID_SOCKET]. *)
Definition INVALID : Z := -1.

(** [fh_u]: the handle or the socket. *)
Record FHRec := { fh_clazz : option FHClass; fh_used : bool; fh_eof : bool; fh_u : Z; fh_name : bytes }.

Definition free_fh (u : Z) : FHRec := {| fh_clazz := None; fh_used := false; fh_eof := false; fh_u := u; fh_name := [] |}.
Definition set_fh_u (u : Z) (r : FHRec) : FHRec :=
  {| fh_clazz := fh_clazz r; fh_used := fh_used r; fh_eof := fh_eof r; fh_u := u; fh_name := fh_name r |}.
Definition set_fh_eof (b : bool) (r : FHRec) : FHRec :=
  {| fh_clazz := fh_clazz r; fh_used := fh_used r; fh_eof := b; fh_u := fh_u r; fh_name := fh_name r |}.
Definition set_fh_name (s : bytes) (r : FHRec) : FHRec :=
  {| fh_clazz := fh_clazz r; fh_used := fh_used r; fh_eof := fh_eof r; fh_u := fh_u r; fh_name := take 31 s |}.

Record fd_table (E : Type) := {
  wf_env : E;
  wf_fhs : list FHRec;
  wf_next : nat;
  wf_errno : errno_t;
  wf_winsock_init : bool;
}.
Arguments wf_env {E} _.
Arguments wf_fhs {E} _.
Arguments wf_next {E} _.
Arguments wf_errno {E} _.
Arguments wf_winsock_init {E} _.

Definition set_wf_env {E} (e : E) (w : fd_table E) : fd_table E :=
  {| wf_env := e; wf_fhs := wf_fhs w; wf_next := wf_next w; wf_errno := wf_errno w; wf_winsock_init := wf_winsock_init w |}.
Definition set_wf_fhs {E} (l : list FHRec) (w : fd_table E) : fd_table E :=
  {| wf_env := wf_env w; wf_fhs := l; wf_next := wf_next w; wf_errno := wf_errno w; wf_winsock_init := wf_winsock_init w |}.
Definition set_wf_next {E} (n : nat) (w : fd_table E) : fd_table E :=
  {| wf_env := wf_env w; wf_fhs := wf_fhs w; wf_next := n; wf_errno := wf_errno w; wf_winsock_init := wf_winsock_init w |}.
Definition set_wf_errno {E} (e : errno_t) (w : fd_table E) : fd_table E :=
  {| wf_env := wf_env w; wf_fhs := wf_fhs w; wf_next := wf_next w; wf_errno := e; wf_winsock_init := wf_winsock_init w |}.
Definition set_wf_winsock_init {E} (b : bool) (w : fd_table E) : fd_table E :=
  {| wf_env := wf_env w; wf_fhs := wf_fhs w; wf_next := wf_next w; wf_errno := wf_errno w; wf_winsock_init := b |}.

(** ** Constants of Windows: errno.h of MinGW, fcntl.h, winerror.h, winsock2.h *)

Definition EBADF : errno_t := E_OTHER 9.
Definition EHOSTUNREACH : errno_t := E_OTHER 110.
Definition ENETDOWN : errno_t := E_OTHER 116.
Definition ENETRESET : errno_t := E_OTHER 117.
Definition ENOBUFS : errno_t := E_OTHER 119.
Definition ENOTCONN : errno_t := E_OTHER 126.
Definition ENOTSOCK : errno_t := E_OTHER 128.
Definition EOPNOTSUPP : errno_t := E_OTHER 130.

Definition GENERIC_READ : Z := 0x80000000.
Definition GENERIC_WRITE : Z := 0x40000000.
Definition ERROR_FILE_NOT_FOUND : Z := 2.
Definition ERROR_PATH_NOT_FOUND : Z := 3.
Definition SOCK_STREAM : Z := 1.
Definition SOCK_DGRAM : Z := 2.
Definition AF_INET : Z := 2.
Definition AF_INET6 : Z := 23.
Definition INADDR_ANY : Z := 0.
Definition INADDR_LOOPBACK : Z := 0x7f000001.
Definition LISTEN_BACKLOG : Z := 4.
Definition SOL_SOCKET : Z := 0xffff.
Definition SO_EXCLUSIVEADDRUSE : Z := -5.
Definition POLLNVAL : Z := 4.

Inductive creation := OPEN_EXISTING | CREATE_ALWAYS.
Inductive seek_method := FILE_BEGIN | FILE_CURRENT | FILE_END.

(** An address that the code makes, or one that [getaddrinfo] found. *)
Inductive sockaddr := InetAddr (ip port : Z) | FoundAddr (id : Z).

Record addrinfo := { ai_family : Z; ai_socktype : Z; ai_protocol : Z; ai_addr : sockaddr }.
Record pollfd := { pf_fd : Z; pf_events : Z; pf_revents : Z }.

(** Windows.  [inl]: the error that [GetLastError] or [WSAGetLastError] gives;
    of calls without a result, [None] is success. *)
Class WinApi (E : Type) := {
  ReadFile : Z -> Z -> E -> option bytes * E;
  WriteFile : Z -> bytes -> E -> option Z * E;
  SetFilePointer : Z -> Z -> seek_method -> E -> option Z * E;
  CloseHandle : Z -> E -> E;
  CreateFileW : list Z -> Z -> creation -> E -> (Z + Z) * E;
  WSAStartup : E -> option Z * E;
  ws_socket : Z -> Z -> Z -> E -> (Z + Z) * E;
  ws_connect : Z -> sockaddr -> E -> option Z * E;
  ws_bind : Z -> sockaddr -> E -> option Z * E;
  ws_listen : Z -> Z -> E -> option Z * E;
  ws_accept : Z -> E -> (Z + Z) * E;
  ws_setsockopt : Z -> Z -> Z -> bytes -> E -> option Z * E;
  ws_getsockname : Z -> E -> (Z + (Z * Z)) * E;
  ws_shutdown : Z -> E -> option Z * E;
  ws_closesocket : Z -> E -> option Z * E;
  ws_recv : Z -> Z -> E -> (Z + bytes) * E;
  ws_send : Z -> bytes -> E -> (Z + Z) * E;
  WSAPoll : list (Z * Z) -> Z -> E -> (Z + list Z) * E;
  ws_nonblocking : Z -> bool -> E -> option Z * E;
  ws_keepalive : Z -> bool -> Z -> Z -> E -> option Z * E;
  ws_getaddrinfo : bytes -> bytes -> Z -> Z -> E -> (Z + addrinfo) * E;
  SystemErrorCodeToString : Z -> bytes;
  crt_strerror : errno_t -> bytes;
}.

Section WinFds.
Context {E : Type} {WF : WinFiles E} {WA : WinApi E}.
Abbreviation F := (fd_table E).

Definition win_call {A} (f : E -> A * E) : M F A := fun w => let '(a, e) := f (wf_env w) in Done a (set_wf_env e w).
Definition set_errno (e : errno_t) : M F unit := modify (set_wf_errno e).

(** ** The table *)

Definition load_fh (f : nat) : M F FHRec :=
  let* w := get in match wf_fhs w !! f with Some r => ret r | None => crash "outside of _win32_fhs" end.
Definition upd_fh (f : nat) (g : FHRec -> FHRec) : M F unit := modify (fun w => set_wf_fhs (alter g f (wf_fhs w)) w).

Definition fh_from_int (fd : Z) : M F (option nat) :=
  let fd := (fd - WIN32_FH_BASE)%Z in
  if (fd <? 0)%Z || (WIN32_MAX_FHS <=? fd)%Z then set_errno EBADF ;;; ret None else
  let* f := load_fh (Z.to_nat fd) in
  if negb (fh_used f) then set_errno EBADF ;;; ret None else ret (Some (Z.to_nat fd)).

Definition fh_to_int (f : nat) : M F Z :=
  let* r := load_fh f in ret (if fh_used r then Z.of_nat f + WIN32_FH_BASE else -1)%Z.

(** The first free entry of [l], which starts at [i]. *)
Fixpoint find_free (l : list FHRec) (i : nat) : option nat :=
  match l with
  | [] => None
  | r :: rest => match fh_clazz r with None => Some i | Some _ => find_free rest (S i) end
  end.

Definition fh_alloc (clazz : FHClass) : M F (option nat) :=
  let* w := get in
  match find_free (drop (wf_next w) (wf_fhs w)) (wf_next w) with
  | None => set_errno EMFILE ;;; ret None
  | Some i =>
      modify (set_wf_next (S i)) ;;;
      upd_fh i (fun _ => {| fh_clazz := Some clazz; fh_used := true; fh_eof := false; fh_u := INVALID; fh_name := [] |}) ;;;
      ret (Some i)
  end.

Definition fh_file_close (f : nat) (r : FHRec) : M F unit :=
  win_call (fun e => (tt, CloseHandle (fh_u r) e)) ;;; upd_fh f (set_fh_u INVALID).

Definition fh_socket_close (f : nat) (r : FHRec) : M F unit :=
  if (fh_u r =? INVALID)%Z then ret tt else
  let* _ := win_call (ws_shutdown (fh_u r)) in
  let* _ := win_call (ws_closesocket (fh_u r)) in
  upd_fh f (set_fh_u INVALID).

Definition fh_close (f : nat) : M F unit :=
  modify (fun w => set_wf_next (Nat.min (wf_next w) f) w) ;;;
  let* r := load_fh f in
  if negb (fh_used r) then ret tt else
  (match fh_clazz r with
   | Some FileClass => fh_file_close f r
   | Some SocketClass => fh_socket_close f r
   | None => crash "clazz is NULL"
   end) ;;;
  upd_fh f (fun r => free_fh (fh_u r)).

(** [unique_fh]: an entry that is not released is closed. *)
Definition fh_delete (f : nat) : M F unit :=
  let* w := get in
  let saved_errno := wf_errno w in
  fh_close f ;;; set_errno saved_errno.

(** ** Files *)

Definition fh_file_read (f : nat) (r : FHRec) (len : Z) : M F read_result :=
  let* res := win_call (ReadFile (fh_u r) len) in
  match res with
  | None => set_errno EIO ;;; ret (RdErr EIO)
  | Some bs => when (Zlen bs <? len)%Z (upd_fh f (set_fh_eof true)) ;;; ret (RdOk bs)
  end.

Definition fh_file_write (f : nat) (r : FHRec) (buf : bytes) : M F write_result :=
  let* res := win_call (WriteFile (fh_u r) buf) in
  match res with
  | None => set_errno EIO ;;; ret (WrErr EIO)
  | Some n => when (n <? Zlen buf)%Z (upd_fh f (set_fh_eof true)) ;;; ret (WrOk n)
  end.

(** [origin]: SEEK_SET, SEEK_CUR, SEEK_END. *)
Definition fh_file_lseek (f : nat) (r : FHRec) (pos origin : Z) : M F Z :=
  match (match origin with 0 => Some FILE_BEGIN | 1 => Some FILE_CURRENT | 2 => Some FILE_END | _ => None end)%Z with
  | None => set_errno EINVAL ;;; ret (-1)%Z
  | Some method =>
      let* res := win_call (SetFilePointer (fh_u r) pos method) in
      match res with
      | None => set_errno EIO ;;; ret (-1)%Z
      | Some result => upd_fh f (set_fh_eof false) ;;; ret (i32 result)
      end
  end.

Definition desired_access (options : Z) : option Z :=
  match options with
  | 0 => Some GENERIC_READ
  | 1 => Some GENERIC_WRITE
  | 2 => Some (Z.lor GENERIC_READ GENERIC_WRITE)
  | _ => None
  end%Z.

Definition file_errno (err : Z) : errno_t :=
  if (err =? ERROR_FILE_NOT_FOUND)%Z then ENOENT else if (err =? ERROR_PATH_NOT_FOUND)%Z then ENOTDIR else ENOENT.

(** A path that is no UTF-8 leaves the entry in use. *)
Definition open_entry (path : bytes) (access : Z) (how : creation) : M F Z :=
  let* f := fh_alloc FileClass in
  match f with
  | None => ret (-1)%Z
  | Some f =>
      match wide path with
      | None => ret (-1)%Z
      | Some path_wide =>
          let* h := win_call (CreateFileW path_wide access how) in
          match h with
          | inl err => fh_close f ;;; set_errno (file_errno err) ;;; ret (-1)%Z
          | inr handle =>
              upd_fh f (set_fh_u handle) ;;;
              let* fd := fh_to_int f in
              upd_fh f (set_fh_name (dec fd ++ str "(" ++ c_str path ++ str ")")) ;;;
              fh_to_int f
          end
      end
  end.

Definition adb_open (path : bytes) (options : Z) : M F Z :=
  match desired_access options with
  | None => set_errno EINVAL ;;; ret (-1)%Z
  | Some desiredAccess => open_entry path desiredAccess OPEN_EXISTING
  end.

Definition adb_creat (path : bytes) (mode : Z) : M F Z := open_entry path GENERIC_WRITE CREATE_ALWAYS.

(** ** Sockets *)

Definition errno_of_wsa (err : Z) : errno_t :=
  match err with
  | 0 => E_NONE
  | 10014 => EFAULT
  | 10022 => EINVAL
  | 10024 => EMFILE
  | 10035 => EAGAIN
  | 10038 => ENOTSOCK
  | 10042 => ENOPROTOOPT
  | 10045 => EOPNOTSUPP
  | 10050 => ENETDOWN
  | 10052 => ENETRESET
  | 10053 => EPIPE
  | 10054 => ECONNRESET
  | 10055 => ENOBUFS
  | 10057 => ENOTCONN
  | 10065 => EHOSTUNREACH
  | _ => EINVAL
  end%Z.

Definition socket_set_errno (err : Z) : M F unit := set_errno (errno_of_wsa err).

Definition fh_socket_read (r : FHRec) (len : Z) : M F read_result :=
  let* res := win_call (ws_recv (fh_u r) len) in
  match res with
  | inl err => socket_set_errno err ;;; ret (RdErr (errno_of_wsa err))
  | inr bs => ret (RdOk bs)
  end.

Definition fh_socket_write (r : FHRec) (buf : bytes) : M F write_result :=
  let* res := win_call (ws_send (fh_u r) buf) in
  match res with
  | inl err => socket_set_errno err ;;; ret (WrErr (errno_of_wsa err))
  | inr n => if (Zlen buf <? n)%Z then fatal "CHECK_LE(result, len)" else ret (WrOk n)
  end.

(** ** Operations on descriptors *)

Definition with_fh {A} (fd : Z) (bad : A) (k : nat -> FHRec -> M F A) : M F A :=
  let* f := fh_from_int fd in
  match f with None => ret bad | Some f => let* r := load_fh f in k f r end.

Definition adb_read (fd len : Z) : M F read_result :=
  with_fh fd (RdErr EBADF) (fun f r =>
    match fh_clazz r with
    | Some FileClass => fh_file_read f r len
    | Some SocketClass => fh_socket_read r len
    | None => crash "clazz is NULL"
    end).

Definition adb_write (fd : Z) (buf : bytes) : M F write_result :=
  with_fh fd (WrErr EBADF) (fun f r =>
    match fh_clazz r with
    | Some FileClass => fh_file_write f r buf
    | Some SocketClass => fh_socket_write r buf
    | None => crash "clazz is NULL"
    end).

Definition adb_lseek (fd pos whence : Z) : M F Z :=
  with_fh fd (-1)%Z (fun f r =>
    match fh_clazz r with
    | Some FileClass => fh_file_lseek f r pos whence
    | Some SocketClass => set_errno EPIPE ;;; ret (-1)%Z
    | None => crash "clazz is NULL"
    end).

Definition adb_close (fd : Z) : M F Z := with_fh fd (-1)%Z (fun f _ => fh_close f ;;; ret 0%Z).

(** A descriptor that must be a socket. *)
Definition with_socket {A} (fd : Z) (bad : A) (k : FHRec -> M F A) : M F A :=
  let* f := fh_from_int fd in
  match f with
  | None => set_errno EBADF ;;; ret bad
  | Some f =>
      let* r := load_fh f in
      if bool_decide (fh_clazz r = Some SocketClass) then k r else set_errno EBADF ;;; ret bad
  end.

(** 0, or -1 with errno. *)
Definition report (r : option Z) : M F Z :=
  match r with None => ret 0%Z | Some err => socket_set_errno err ;;; ret (-1)%Z end.

Definition adb_setsockopt (fd level optname : Z) (optval : bytes) : M F Z :=
  with_socket fd (-1)%Z (fun r => let* res := win_call (ws_setsockopt (fh_u r) level optname optval) in report res).

Definition adb_getsockname (fd : Z) : M F (option (Z * Z)) :=
  with_socket fd None (fun r =>
    let* res := win_call (ws_getsockname (fh_u r)) in
    match res with inl err => socket_set_errno err ;;; ret None | inr addr => ret (Some addr) end).

Definition adb_socket_get_local_port (fd : Z) : M F Z :=
  let* addr := adb_getsockname fd in
  match addr with
  | None => ret (-1)%Z
  | Some (family, port) =>
      if (family =? AF_INET)%Z || (family =? AF_INET6)%Z then ret (u16 port) else set_errno ECONNABORTED ;;; ret (-1)%Z
  end.

Definition adb_shutdown (fd : Z) : M F Z :=
  with_socket fd (-1)%Z (fun r => let* res := win_call (ws_shutdown (fh_u r)) in report res).

Definition set_tcp_keepalive (fd interval_sec : Z) : M F bool :=
  with_socket fd false (fun r =>
    let* res := win_call (ws_keepalive (fh_u r) (0 <? interval_sec)%Z (u32 (interval_sec * 1000)) (u32 (interval_sec * 1000))) in
    let* rc := report res in ret (rc =? 0)%Z).

Definition set_file_block_mode (fd : Z) (block : bool) : M F bool :=
  let* f := fh_from_int fd in
  match f with
  | None => set_errno EBADF ;;; ret false
  | Some f =>
      let* r := load_fh f in
      if bool_decide (fh_clazz r = Some SocketClass) then
        let* res := win_call (ws_nonblocking (fh_u r) (negb block)) in
        let* rc := report res in ret (rc =? 0)%Z
      else set_errno ENOTSOCK ;;; ret false
  end.

(** *** adb_poll *)

(** What is no socket is answered here; the others with their sockets. *)
Fixpoint sort_pollfds (fds : list pollfd) : M F (list (pollfd * option Z)) :=
  match fds with
  | [] => ret []
  | p :: rest =>
      let* f := fh_from_int (pf_fd p) in
      let* s := match f with
                | None => ret None
                | Some f => let* r := load_fh f in ret (if bool_decide (fh_clazz r = Some SocketClass) then Some (fh_u r) else None)
                end in
      let* l := sort_pollfds rest in
      ret ((match s with
            | Some _ => p
            | None => {| pf_fd := pf_fd p; pf_events := pf_events p; pf_revents := POLLNVAL |}
            end, s) :: l)
  end.

Fixpoint map_back (l : list (pollfd * option Z)) (revents : list Z) : list pollfd :=
  match l with
  | [] => []
  | (p, None) :: rest => p :: map_back rest revents
  | (p, Some _) :: rest =>
      match revents with
      | r :: revents => {| pf_fd := pf_fd p; pf_events := pf_events p; pf_revents := r |} :: map_back rest revents
      | [] => p :: map_back rest []
      end
  end.

Definition poll_sockets (l : list (pollfd * option Z)) : list (Z * Z) :=
  omap (fun x => match snd x with Some s => Some (s, pf_events (fst x)) | None => None end) l.

(** The entries with their events, and how many of them have some. *)
Definition adb_poll (fds : list pollfd) (timeout : Z) : M F (Z * list pollfd) :=
  let* l := sort_pollfds fds in
  let sockets := poll_sockets l in
  match sockets with
  | [] => ret (Zlen l, map fst l)
  | _ =>
      let* result := win_call (WSAPoll sockets timeout) in
      match result with
      | inl err => socket_set_errno err ;;; ret ((-1)%Z, map fst l)
      | inr revents =>
          let fds := map_back l revents in
          ret (Zlen (filter (fun p => pf_revents p <> 0%Z) fds), fds)
      end
  end.

(** ** Opening sockets

    The result is the descriptor or -1, and the text of the error. *)

Definition init_winsock : M F unit :=
  let* w := get in
  if wf_winsock_init w then ret tt else
  let* rc := win_call WSAStartup in
  match rc with
  | Some _ => fatal "adb: could not initialize Winsock"
  | None => modify (set_wf_winsock_init true)
  end.

Definition GetSocketProtocolFromSocketType (type : Z) : M F Z :=
  if (type =? SOCK_STREAM)%Z then ret 6%Z else if (type =? SOCK_DGRAM)%Z then ret 17%Z else fatal "Unknown socket type".

Definition ip_text (ip : Z) : bytes := if (ip =? INADDR_LOOPBACK)%Z then str "127.0.0.1" else str "0.0.0.0".
Definition udp_mark (type : Z) : bytes := if (type =? SOCK_STREAM)%Z then [] else str "udp:".

(** A failure after the entry was made. *)
Definition failed (f : nat) (what : bytes) (err : Z) : M F (Z * bytes) :=
  socket_set_errno err ;;; fh_delete f ;;; ret ((-1)%Z, what ++ str ": " ++ SystemErrorCodeToString err).

Definition opened (f : nat) (kind : bytes) : M F (Z * bytes) :=
  let* fd := fh_to_int f in
  upd_fh f (set_fh_name (dec fd ++ str "(" ++ kind ++ str ")")) ;;;
  ret (fd, []).

(** An entry with a new socket, which [k] goes on with. *)
Definition with_new_socket (f : nat) (family type protocol : Z) (k : Z -> M F (Z * bytes)) : M F (Z * bytes) :=
  let* s := win_call (ws_socket family type protocol) in
  match s with
  | inl err => failed f (str "cannot create socket") err
  | inr s => upd_fh f (set_fh_u s) ;;; k s
  end.

Definition with_new_entry (k : nat -> M F (Z * bytes)) : M F (Z * bytes) :=
  let* f := fh_alloc SocketClass in
  match f with
  | None => let* w := get in ret ((-1)%Z, crt_strerror (wf_errno w))
  | Some f => init_winsock ;;; k f
  end.

Definition network_loopback_client (port type : Z) : M F (Z * bytes) :=
  with_new_entry (fun f =>
    let* protocol := GetSocketProtocolFromSocketType type in
    with_new_socket f AF_INET type protocol (fun s =>
      let* r := win_call (ws_connect s (InetAddr INADDR_LOOPBACK (u16 port))) in
      match r with
      | Some err => failed f (str "cannot connect to " ++ ip_text INADDR_LOOPBACK ++ str ":" ++ dec (u16 port)) err
      | None => opened f (str "lo-client:" ++ udp_mark type ++ dec port)
      end)).

Definition network_server (port type interface_address : Z) : M F (Z * bytes) :=
  with_new_entry (fun f =>
    let* protocol := GetSocketProtocolFromSocketType type in
    with_new_socket f AF_INET type protocol (fun s =>
      let* r := win_call (ws_setsockopt s SOL_SOCKET SO_EXCLUSIVEADDRUSE (le_encode 4 1)) in
      match r with
      | Some err => failed f (str "cannot set socket option SO_EXCLUSIVEADDRUSE") err
      | None =>
          let* r := win_call (ws_bind s (InetAddr interface_address (u16 port))) in
          match r with
          | Some err => failed f (str "cannot bind to " ++ ip_text interface_address ++ str ":" ++ dec (u16 port)) err
          | None =>
              let* r := if (type =? SOCK_STREAM)%Z then win_call (ws_listen s LISTEN_BACKLOG) else ret None in
              match r with
              | Some err => failed f (str "cannot listen on socket") err
              | None => opened f ((if (interface_address =? INADDR_LOOPBACK)%Z then str "lo" else str "any") ++ str "-server:" ++ udp_mark type ++ dec port)
              end
          end
      end)).

Definition network_loopback_server (port type : Z) : M F (Z * bytes) := network_server port type INADDR_LOOPBACK.
Definition network_inaddr_any_server (port type : Z) : M F (Z * bytes) := network_server port type INADDR_ANY.

(** The first address that is found; [timeout] is not looked at. *)
Definition network_connect (host : bytes) (port type timeout : Z) : M F (Z * bytes) :=
  with_new_entry (fun f =>
    let* protocol := GetSocketProtocolFromSocketType type in
    let port_str := take 15 (dec port) in
    let* found := win_call (ws_getaddrinfo (c_str host) port_str type protocol) in
    match found with
    | inl err => failed f (str "cannot resolve host '" ++ c_str host ++ str "' and port " ++ port_str) err
    | inr ai =>
        with_new_socket f (ai_family ai) (ai_socktype ai) (ai_protocol ai) (fun s =>
          let* r := win_call (ws_connect s (ai_addr ai)) in
          match r with
          | Some err => failed f (str "cannot connect to " ++ c_str host ++ str ":" ++ port_str) err
          | None => opened f (str "net-client:" ++ udp_mark type ++ dec port)
          end)
    end).

(** A full table is not expected. *)
Definition adb_register_socket (s : Z) : M F Z :=
  let* f := fh_alloc SocketClass in
  match f with
  | None => crash "f is NULL"
  | Some f => upd_fh f (set_fh_u s) ;;; fh_to_int f
  end.

Definition adb_socket_accept (serverfd : Z) : M F Z :=
  with_socket serverfd (-1)%Z (fun serverfh =>
    let* fh := fh_alloc SocketClass in
    match fh with
    | None => ret (-1)%Z
    | Some fh =>
        let* s := win_call (ws_accept (fh_u serverfh)) in
        match s with
        | inl err => socket_set_errno err ;;; fh_delete fh ;;; ret (-1)%Z
        | inr s =>
            upd_fh fh (set_fh_u s) ;;;
            let* r := opened fh (str "accept:" ++ fh_name serverfh) in
            ret (fst r)
        end
    end).

Definition close_open (fd : Z) : M F unit := if (0 <=? fd)%Z then let* _ := adb_close fd in ret tt else ret tt.

(** A server on the loopback interface and a connection to it. *)
Definition adb_socketpair : M F (option (Z * Z)) :=
  let* r := network_loopback_server 0 SOCK_STREAM in
  let server := fst r in
  let fail client accepted := close_open server ;;; close_open client ;;; close_open accepted ;;; ret None in
  if (server <? 0)%Z then fail (-1)%Z (-1)%Z else
  let* local_port := adb_socket_get_local_port server in
  if (local_port <? 0)%Z then fail (-1)%Z (-1)%Z else
  let* r := network_loopback_client local_port SOCK_STREAM in
  let client := fst r in
  if (client <? 0)%Z then fail client (-1)%Z else
  let* accepted := adb_socket_accept server in
  if (accepted <? 0)%Z then fail client accepted else
  let* _ := adb_close server in
  ret (Some (client, accepted)).

End WinFds.
