(* ===== verification/WinFdsProps.v ===== *)
(** * Properties of the descriptors on Windows *)

From S2P Require Import Prelude Packet AdbIo WinConsole WinText WinFds.

(** ** What Windows promises

    [live]: the handles and sockets that are open. *)
Class WinLaws (E : Type) {WA : WinApi E} (live : E -> gset (FHClass * Z)) := {
  create_live path access how e h e' : CreateFileW path access how e = (inr h, e') ->
    h <> INVALID /\ (FileClass, h) ∉ live e /\ live e' = {[ (FileClass, h) ]} ∪ live e;
  create_fails path access how e err e' : CreateFileW path access how e = (inl err, e') -> live e' = live e;
  socket_live family type protocol e s e' : ws_socket family type protocol e = (inr s, e') ->
    s <> INVALID /\ (SocketClass, s) ∉ live e /\ live e' = {[ (SocketClass, s) ]} ∪ live e;
  socket_fails family type protocol e err e' : ws_socket family type protocol e = (inl err, e') -> live e' = live e;
  accept_live s0 e s e' : ws_accept s0 e = (inr s, e') ->
    s <> INVALID /\ (SocketClass, s) ∉ live e /\ live e' = {[ (SocketClass, s) ]} ∪ live e;
  accept_fails s0 e err e' : ws_accept s0 e = (inl err, e') -> live e' = live e;
  close_handle_live h e : live (CloseHandle h e) = live e ∖ {[ (FileClass, h) ]};
  closesocket_live s e : live (snd (ws_closesocket s e)) = live e ∖ {[ (SocketClass, s) ]};
  read_live h n e : live (snd (ReadFile h n e)) = live e;
  write_live h bs e : live (snd (WriteFile h bs e)) = live e;
  seek_live h pos m e : live (snd (SetFilePointer h pos m e)) = live e;
  startup_live e : live (snd (WSAStartup e)) = live e;
  connect_live s a e : live (snd (ws_connect s a e)) = live e;
  bind_live s a e : live (snd (ws_bind s a e)) = live e;
  listen_live s n e : live (snd (ws_listen s n e)) = live e;
  setsockopt_live s l o v e : live (snd (ws_setsockopt s l o v e)) = live e;
  getsockname_live s e : live (snd (ws_getsockname s e)) = live e;
  shutdown_live s e : live (snd (ws_shutdown s e)) = live e;
  recv_live s n e : live (snd (ws_recv s n e)) = live e;
  send_live s bs e : live (snd (ws_send s bs e)) = live e;
  poll_live l t e : live (snd (WSAPoll l t e)) = live e;
  nonblocking_live s b e : live (snd (ws_nonblocking s b e)) = live e;
  keepalive_live s b t i e : live (snd (ws_keepalive s b t i e)) = live e;
  getaddrinfo_live h p t pr e : live (snd (ws_getaddrinfo h p t pr e)) = live e;
}.

Create HintDb win.
#[export] Hint Resolve read_live write_live seek_live startup_live connect_live bind_live listen_live setsockopt_live getsockname_live
  shutdown_live recv_live send_live poll_live nonblocking_live keepalive_live getaddrinfo_live : win.

Section WinFdsProps.
Context {E : Type} {WF : WinFiles E} {WA : WinApi E} (live : E -> gset (FHClass * Z)) {WL : WinLaws E live}.
Abbreviation F := (fd_table E).
Implicit Types (w : F) (r : FHRec).

(** What an entry of the table holds. *)
Definition holds r : option (FHClass * Z) := match fh_clazz r with Some c => Some (c, fh_u r) | None => None end.
Definition entry w (i : nat) : option (FHClass * Z) := wf_fhs w !! i ≫= holds.

(** Entries up to the one where the search starts are in use; what Windows has
    open is what the entries hold, each handle and socket once. *)
Record table_ok w : Prop := {
  ok_length : length (wf_fhs w) = 2048;
  ok_next : wf_next w <= 2048;
  ok_below i : i < wf_next w -> entry w i <> None;
  ok_used i r : wf_fhs w !! i = Some r -> fh_used r = bool_decide (is_Some (fh_clazz r));
  ok_owned o : o ∈ live (wf_env w) <-> snd o <> INVALID /\ exists i, entry w i = Some o;
  ok_once i j o : entry w i = Some o -> entry w j = Some o -> snd o <> INVALID -> i = j;
}.

(** The entries are the same, but for [i]. *)
Definition but (i : nat) w w' : Prop := forall j, j <> i -> entry w' j = entry w j.
Definition same_entries w w' : Prop := forall j, entry w' j = entry w j.
Definition lowest_free w (i : nat) : Prop := i < 2048 /\ entry w i = None /\ forall j, j < i -> entry w j <> None.

Lemma entry_lookup w i r : wf_fhs w !! i = Some r -> entry w i = holds r.
Proof. intros H. unfold entry. by rewrite H. Qed.

Lemma entry_some w i o : entry w i = Some o -> exists r, wf_fhs w !! i = Some r /\ holds r = Some o.
Proof. unfold entry. destruct (wf_fhs w !! i) as [r|]; cbn; [|done]. by exists r. Qed.

Lemma entry_in_table w i : table_ok w -> entry w i <> None -> i < 2048.
Proof.
  intros Hok H. destruct (entry w i) as [o|] eqn:He; [|done]. apply entry_some in He as (r & Hr & _). apply lookup_lt_Some in Hr.
  by rewrite ok_length in Hr.
Qed.

(** A new entry [r] at [i], with what is live then. *)
Lemma table_ok_change w w' i r : table_ok w -> i < 2048 -> length (wf_fhs w') = length (wf_fhs w) ->
  wf_fhs w' !! i = Some r -> (forall j, j <> i -> wf_fhs w' !! j = wf_fhs w !! j) ->
  fh_used r = bool_decide (is_Some (fh_clazz r)) -> wf_next w' <= 2048 ->
  (forall j, j < wf_next w' -> j <> i /\ entry w j <> None \/ j = i /\ holds r <> None) ->
  (forall o, o ∈ live (wf_env w') <-> snd o <> INVALID /\ (holds r = Some o \/ exists j, j <> i /\ entry w j = Some o)) ->
  (forall j o, j <> i -> holds r = Some o -> snd o <> INVALID -> entry w j <> Some o) ->
  table_ok w' /\ but i w w' /\ entry w' i = holds r.
Proof.
  intros Hok Hi Hlen Hr Hothers Hused Hnext Hbelow Hlive Honce.
  assert (Hei : entry w' i = holds r) by by apply entry_lookup.
  assert (Hej : but i w w') by (intros j Hj; unfold entry; by rewrite Hothers).
  split; [|done]. split.
  - by rewrite Hlen, ok_length.
  - done.
  - intros j Hj. destruct (Hbelow j Hj) as [[H1 H2]|[-> H]]; [by rewrite Hej|by rewrite Hei].
  - intros j r' Hr'. destruct (decide (j = i)) as [->|Hj]; [by simplify_eq|]. rewrite Hothers in Hr' by done. by eapply ok_used.
  - intros o. rewrite Hlive. split; intros (H1 & H2); (split; [done|]).
    + destruct H2 as [H2|(j & Hj & H2)]; [exists i; congruence|exists j; by rewrite Hej].
    + destruct H2 as (j & H2). destruct (decide (j = i)) as [->|Hj]; [left; congruence|right; exists j; by rewrite <- Hej].
  - intros j k o Hj Hk Ho. destruct (decide (j = i)) as [->|Hji], (decide (k = i)) as [->|Hki]; [done| | |].
    + rewrite Hej in Hk by done. rewrite Hei in Hj. by destruct (Honce k o Hki Hj Ho).
    + rewrite Hej in Hj by done. rewrite Hei in Hk. by destruct (Honce j o Hji Hk Ho).
    + rewrite Hej in Hj, Hk by done. by eapply (ok_once w).
Qed.

(** Only texts and flags change. *)
Lemma table_ok_same w w' : table_ok w -> length (wf_fhs w') = length (wf_fhs w) -> wf_next w' = wf_next w -> live (wf_env w') = live (wf_env w) ->
  (forall j r', wf_fhs w' !! j = Some r' -> exists r, wf_fhs w !! j = Some r /\ fh_used r' = fh_used r /\ fh_clazz r' = fh_clazz r /\ fh_u r' = fh_u r) ->
  table_ok w' /\ same_entries w w'.
Proof.
  intros Hok Hlen Hnext Hlive Hrec. assert (Hsame : same_entries w w').
  { intros j. unfold entry. destruct (wf_fhs w' !! j) as [r'|] eqn:Hr'.
    - destruct (Hrec j r' Hr') as (r & -> & _ & Hc & Hu). cbn. unfold holds. by rewrite Hc, Hu.
    - destruct (wf_fhs w !! j) as [r|] eqn:Hr; [|done]. apply lookup_ge_None in Hr'. apply lookup_lt_Some in Hr. lia. }
  split; [|done]. split.
  - by rewrite Hlen, ok_length.
  - rewrite Hnext. by apply ok_next.
  - intros i Hi. rewrite Hsame. apply ok_below; [done|]. by rewrite <- Hnext.
  - intros i r' Hr'. destruct (Hrec i r' Hr') as (r & Hr & -> & -> & _). by eapply ok_used.
  - intros o. rewrite Hlive, (ok_owned w Hok o). split; intros (H1 & i & H2); (split; [done|]); exists i; [by rewrite Hsame|by rewrite <- Hsame].
  - intros i j o. rewrite !Hsame. by apply ok_once.
Qed.

(** ** Operations that keep the entries *)

Definition keeps {A} (m : M F A) : Prop := forall w, table_ok w -> wp m (fun _ w' => table_ok w' /\ same_entries w w') w.

Lemma wp_keeps {A} (m : M F A) (Q : A -> F -> Prop) w : keeps m -> table_ok w ->
  (forall a w', table_ok w' -> same_entries w w' -> Q a w') -> wp m Q w.
Proof. intros Hm Hok HQ. eapply wp_mono; [by apply Hm|]. intros a w' [H1 H2]. by apply HQ. Qed.

Lemma table_keeps_ret {A} (a : A) : keeps (ret a).
Proof. intros w Hok. apply wp_ret. by split. Qed.

Lemma table_keeps_bind {A B} (m : M F A) (f : A -> M F B) : keeps m -> (forall a, keeps (f a)) -> keeps (bind m f).
Proof.
  intros Hm Hf w Hok. apply wp_bind, wp_keeps; [done..|]. intros a w1 Hok1 Hs1. apply wp_keeps; [done..|]. intros b w2 Hok2 Hs2.
  split; [done|]. intros j. by rewrite Hs2.
Qed.

Lemma table_keeps_get : keeps get.
Proof. intros w Hok. apply wp_get. by split. Qed.

Lemma table_keeps_fatal {A} why : keeps (A := A) (fatal why).
Proof. intros w Hok. apply wp_fatal. Qed.

Lemma keeps_when b (m : M F unit) : keeps m -> keeps (when b m).
Proof. intros H. destruct b; [done|]. apply table_keeps_ret. Qed.

Lemma keeps_call {A} (f : E -> A * E) : (forall e, live (snd (f e)) = live e) -> keeps (win_call f).
Proof.
  intros Hf w Hok. unfold win_call, wp. specialize (Hf (wf_env w)). destruct (f (wf_env w)) as [a e]. cbn in Hf.
  apply table_ok_same; [done..|]. intros j r H. by exists r.
Qed.

Lemma keeps_errno e : keeps (set_errno e).
Proof. intros w Hok. apply wp_modify. apply table_ok_same; [done..|]. intros j r H. by exists r. Qed.

Lemma keeps_upd i g : (forall r, fh_used (g r) = fh_used r /\ fh_clazz (g r) = fh_clazz r /\ fh_u (g r) = fh_u r) -> keeps (upd_fh i g).
Proof.
  intros Hg w Hok. apply wp_modify. apply table_ok_same; [done|cbn; by rewrite length_alter|done..|]. cbn. intros j r' H.
  destruct (decide (j = i)) as [->|Hj].
  - rewrite list_lookup_alter_eq in H. destruct (wf_fhs w !! i) as [r|]; [|done]. cbn in H. simplify_eq. exists r. by destruct (Hg r) as (? & ? & ?).
  - rewrite list_lookup_alter_ne in H by done. by exists r'.
Qed.

Lemma keeps_eof i b : keeps (upd_fh i (set_fh_eof b)).
Proof. by apply keeps_upd. Qed.

Lemma keeps_name i s : keeps (upd_fh i (set_fh_name s)).
Proof. by apply keeps_upd. Qed.

(** *** Descriptors that are looked up *)

Lemma load_in_table f w (Q : FHRec -> F -> Prop) : table_ok w -> f < 2048 ->
  (forall r, wf_fhs w !! f = Some r -> Q r w) -> wp (load_fh f) Q w.
Proof.
  intros Hok Hf HQ. unfold load_fh. apply wp_bind, wp_get. destruct (wf_fhs w !! f) as [r|] eqn:Hr; [by apply wp_ret, HQ|].
  apply lookup_ge_None in Hr. rewrite ok_length in Hr by done. lia.
Qed.

Lemma fh_from_int_spec fd w (Q : option nat -> F -> Prop) : table_ok w ->
  (forall f, fd = (Z.of_nat f + WIN32_FH_BASE)%Z -> entry w f <> None -> Q (Some f) w) ->
  ((forall f, fd = (Z.of_nat f + WIN32_FH_BASE)%Z -> entry w f = None) -> forall w', table_ok w' -> same_entries w w' -> Q None w') ->
  wp (fh_from_int fd) Q w.
Proof.
  intros Hok HS HN. unfold fh_from_int, WIN32_FH_BASE, WIN32_MAX_FHS in *.
  assert (Hbad : (forall f, fd = (Z.of_nat f + 2048)%Z -> entry w f = None) -> wp (set_errno EBADF ;;; ret None) Q w).
  { intros H. apply wp_bind, wp_keeps; [apply keeps_errno|done|]. intros _ w' H1 H2. by apply wp_ret, HN. }
  destruct ((fd - 2048 <? 0)%Z || (2048 <=? fd - 2048)%Z) eqn:Hr.
  - apply Hbad. intros f ->. destruct (entry w f) eqn:He; [|done]. exfalso.
    assert (f < 2048) by (apply (entry_in_table w); [done|congruence]). apply orb_true_iff in Hr. lia.
  - apply orb_false_iff in Hr as [H1 H2]. assert (Hf : Z.to_nat (fd - 2048) < 2048) by lia.
    apply wp_bind, load_in_table; [done..|]. intros r Hr. rewrite (ok_used w Hok _ _ Hr). pose proof (entry_lookup _ _ _ Hr) as He. unfold holds in He.
    destruct (fh_clazz r) as [c|]; cbn.
    + apply wp_ret, HS; [lia|congruence].
    + apply Hbad. intros f ->. by replace (Z.to_nat (Z.of_nat f + 2048 - 2048)) with f in He by lia.
Qed.

(** [with_fh]: the descriptor is good or the result is [bad]. *)
Lemma with_fh_spec {A} fd (bad : A) k w (Q : A -> F -> Prop) : table_ok w ->
  (forall f r c, fd = (Z.of_nat f + WIN32_FH_BASE)%Z -> wf_fhs w !! f = Some r -> fh_clazz r = Some c -> entry w f = Some (c, fh_u r) -> wp (k f r) Q w) ->
  (forall w', table_ok w' -> same_entries w w' -> Q bad w') -> wp (with_fh fd bad k) Q w.
Proof.
  intros Hok Hk Hbad. unfold with_fh. apply wp_bind, fh_from_int_spec; [done| |intros _ w' H1 H2; by apply wp_ret, Hbad].
  intros f Hf He. apply wp_bind, load_in_table; [done|by apply (entry_in_table w)|]. intros r Hr. pose proof (entry_lookup _ _ _ Hr) as Hh.
  unfold holds in Hh. destruct (fh_clazz r) as [c|] eqn:Hc; [|done]. by eapply Hk.
Qed.

Lemma keeps_with_fh {A} fd (bad : A) k : (forall f r c, fh_clazz r = Some c -> keeps (k f r)) -> keeps (with_fh fd bad k).
Proof.
  intros Hk w Hok. apply with_fh_spec; [done| |by intros w' H1 H2]. intros f r c _ _ Hc _. by apply (Hk f r c).
Qed.

Lemma with_socket_spec {A} fd (bad : A) k w (Q : A -> F -> Prop) : table_ok w ->
  (forall f r, fd = (Z.of_nat f + WIN32_FH_BASE)%Z -> wf_fhs w !! f = Some r -> entry w f = Some (SocketClass, fh_u r) -> wp (k r) Q w) ->
  (forall w', table_ok w' -> same_entries w w' -> Q bad w') -> wp (with_socket fd bad k) Q w.
Proof.
  intros Hok Hk Hbad. unfold with_socket.
  assert (Herr : forall w', table_ok w' -> same_entries w w' -> wp (set_errno EBADF ;;; ret bad) Q w').
  { intros w' H1 H2. apply wp_bind, wp_keeps; [apply keeps_errno|done|]. intros _ w2 H3 H4. apply wp_ret, Hbad; [done|]. intros j. by rewrite H4. }
  apply wp_bind, fh_from_int_spec; [done| |intros _; apply Herr].
  intros f Hf He. apply wp_bind, load_in_table; [done|by apply (entry_in_table w)|]. intros r Hr. case_bool_decide as Hc; [|by apply Herr].
  eapply Hk; [done..|]. rewrite (entry_lookup _ _ _ Hr). unfold holds. by rewrite Hc.
Qed.

Lemma keeps_with_socket {A} fd (bad : A) k : (forall r, keeps (k r)) -> keeps (with_socket fd bad k).
Proof. intros Hk w Hok. apply with_socket_spec; [done| |by intros w' H1 H2]. intros f r _ _ _. by apply Hk. Qed.

(** One step of showing that a program keeps the entries. *)
Ltac keeps_step :=
  match goal with
  | |- keeps (bind _ _) => apply table_keeps_bind; [|intros ?]
  | |- keeps (ret _) => apply table_keeps_ret
  | |- keeps get => apply table_keeps_get
  | |- keeps (fatal _) => apply table_keeps_fatal
  | |- keeps (when _ _) => apply keeps_when
  | |- keeps (set_errno _) => apply keeps_errno
  | |- keeps (socket_set_errno _) => apply keeps_errno
  | |- keeps (upd_fh _ (set_fh_eof _)) => apply keeps_eof
  | |- keeps (upd_fh _ (set_fh_name _)) => apply keeps_name
  | |- keeps (win_call _) => apply keeps_call; intros; auto with win
  | |- keeps (with_fh _ _ _) => apply keeps_with_fh; intros ? ? ? ->
  | |- keeps (with_socket _ _ _) => apply keeps_with_socket; intros ?
  | |- keeps (report _) => unfold report
  | |- keeps (match ?x with _ => _ end) => destruct x
  end.
Ltac solve_keeps := repeat keeps_step.

Lemma adb_read_keeps fd len : keeps (adb_read fd len).
Proof. unfold adb_read, fh_file_read, fh_socket_read. solve_keeps. Qed.

Lemma adb_write_keeps fd buf : keeps (adb_write fd buf).
Proof. unfold adb_write, fh_file_write, fh_socket_write. solve_keeps. Qed.

Lemma adb_lseek_keeps fd pos whence : keeps (adb_lseek fd pos whence).
Proof. unfold adb_lseek, fh_file_lseek. solve_keeps. Qed.

Lemma adb_setsockopt_keeps fd level optname optval : keeps (adb_setsockopt fd level optname optval).
Proof. unfold adb_setsockopt. solve_keeps. Qed.

Lemma adb_getsockname_keeps fd : keeps (adb_getsockname fd).
Proof. unfold adb_getsockname. solve_keeps. Qed.

Lemma adb_socket_get_local_port_keeps fd : keeps (adb_socket_get_local_port fd).
Proof. unfold adb_socket_get_local_port. apply table_keeps_bind; [apply adb_getsockname_keeps|]. intros a. solve_keeps. Qed.

Lemma adb_shutdown_keeps fd : keeps (adb_shutdown fd).
Proof. unfold adb_shutdown. solve_keeps. Qed.

Lemma set_tcp_keepalive_keeps fd i : keeps (set_tcp_keepalive fd i).
Proof. unfold set_tcp_keepalive. solve_keeps. Qed.

Lemma keeps_from_int fd : keeps (fh_from_int fd).
Proof. intros w Hok. apply fh_from_int_spec; [done|by intros|by intros]. Qed.

(** Programs about an entry that is in use. *)
Definition keeps_at {A} (f : nat) (m : M F A) : Prop :=
  forall w, table_ok w -> entry w f <> None -> wp m (fun _ w' => table_ok w' /\ same_entries w w') w.

Lemma keeps_at_load {A} f (k : FHRec -> M F A) : (forall r, keeps (k r)) -> keeps_at f (bind (load_fh f) k).
Proof. intros Hk w Hok He. apply wp_bind, load_in_table; [done|by apply (entry_in_table w)|]. intros r _. by apply Hk. Qed.

Lemma keeps_at_bind {A B} f (m : M F A) (k : A -> M F B) : keeps_at f m -> (forall a, keeps (k a)) -> keeps_at f (bind m k).
Proof.
  intros Hm Hk w Hok He. apply wp_bind. eapply wp_mono; [by apply Hm|]. intros a w1 [Hok1 Hs1]. apply wp_keeps; [done..|]. intros b w2 Hok2 Hs2.
  split; [done|]. intros j. by rewrite Hs2.
Qed.

Lemma keeps_lookup {A} fd (k : option nat -> M F A) : keeps (k None) -> (forall f, keeps_at f (k (Some f))) -> keeps (bind (fh_from_int fd) k).
Proof.
  intros HN HS w Hok. apply wp_bind, fh_from_int_spec; [done| |].
  - intros f Hf He. by apply HS.
  - intros _ w' H1 H2. apply wp_keeps; [done..|]. intros a w2 H3 H4. split; [done|]. intros j. by rewrite H4.
Qed.

Lemma set_file_block_mode_keeps fd b : keeps (set_file_block_mode fd b).
Proof. apply keeps_lookup; [solve_keeps|]. intros f. apply keeps_at_load. intros r. solve_keeps. Qed.

Lemma sort_pollfds_keeps fds : keeps (sort_pollfds fds).
Proof.
  induction fds as [|p fds IH]; cbn [sort_pollfds]; [apply table_keeps_ret|].
  assert (Hrest : forall s : option Z, keeps (let* l := sort_pollfds fds in ret ((match s with Some _ => p | None => {| pf_fd := pf_fd p; pf_events := pf_events p; pf_revents := POLLNVAL |} end, s) :: l)))
    by (intros s; apply table_keeps_bind; [done|intros l; apply table_keeps_ret]).
  apply keeps_lookup; [by apply table_keeps_bind; [apply table_keeps_ret|]|]. intros f. apply keeps_at_bind; [|done]. apply keeps_at_load. intros r. apply table_keeps_ret.
Qed.

Lemma adb_poll_keeps fds timeout : keeps (adb_poll fds timeout).
Proof. unfold adb_poll. apply table_keeps_bind; [apply sort_pollfds_keeps|]. intros l. solve_keeps. Qed.

(** ** Entries that come and go *)

Lemma find_free_spec l i : match find_free l i with
  | None => forall k r, l !! k = Some r -> fh_clazz r <> None
  | Some n => exists k r, n = i + k /\ l !! k = Some r /\ fh_clazz r = None /\ forall k' r', k' < k -> l !! k' = Some r' -> fh_clazz r' <> None
  end.
Proof.
  revert i. induction l as [|r l IH]; intros i; cbn; [by intros k r|]. destruct (fh_clazz r) as [c|] eqn:Hc.
  - specialize (IH (S i)). destruct (find_free l (S i)) as [n|].
    + destruct IH as (k & r' & -> & H1 & H2 & H3). exists (S k), r'. split; [lia|]. split; [done|]. split; [done|].
      intros [|k'] r'' Hk Hr''; [cbn in Hr''; congruence|]. eapply H3; [|done]. lia.
    + intros [|k] r' Hr'; [cbn in Hr'; congruence|]. by apply (IH k).
  - exists 0, r. repeat split; [lia|done|]. intros k' r' Hk. lia.
Qed.

(** The entry with the lowest number that is free. *)
Lemma fh_alloc_spec c w (Q : option nat -> F -> Prop) : table_ok w ->
  (forall i w', table_ok w' -> lowest_free w i -> but i w w' -> entry w' i = Some (c, INVALID) -> Q (Some i) w') ->
  (forall w', table_ok w' -> same_entries w w' -> (forall i, i < 2048 -> entry w i <> None) -> Q None w') -> wp (fh_alloc c) Q w.
Proof.
  intros Hok HS HN. unfold fh_alloc. apply wp_bind, wp_get. pose proof (find_free_spec (drop (wf_next w) (wf_fhs w)) (wf_next w)) as Hf.
  destruct (find_free _ _) as [i|].
  - destruct Hf as (k & r & -> & Hr & Hc & Hlow). rewrite lookup_drop in Hr. set (i := wf_next w + k) in *.
    assert (Hi : i < 2048) by (apply lookup_lt_Some in Hr; by rewrite ok_length in Hr).
    assert (Hfree : entry w i = None) by (rewrite (entry_lookup _ _ _ Hr); unfold holds; by rewrite Hc).
    assert (Hused : forall j, j < i -> entry w j <> None).
    { intros j Hj. destruct (decide (j < wf_next w)) as [Hlt|Hge]; [by apply ok_below|].
      destruct (wf_fhs w !! j) as [r'|] eqn:Hr'; [|apply lookup_ge_None in Hr'; rewrite ok_length in Hr' by done; lia].
      rewrite (entry_lookup _ _ _ Hr'). unfold holds. specialize (Hlow (j - wf_next w) r').
      rewrite lookup_drop in Hlow. replace (wf_next w + (j - wf_next w)) with j in Hlow by lia. destruct (fh_clazz r'); [done|]. by destruct Hlow; [lia|..]. }
    apply wp_bind, wp_modify, wp_bind, wp_modify, wp_ret.
    match goal with |- Q _ ?w2 => set (w' := w2) end. set (new := {| fh_clazz := Some c; fh_used := true; fh_eof := false; fh_u := INVALID; fh_name := [] |}).
    destruct (table_ok_change w w' i new) as (H1 & H2 & H3); [done|done|cbn; by rewrite length_alter|cbn; by rewrite list_lookup_alter_eq, Hr
      |intros j Hj; cbn; by rewrite list_lookup_alter_ne|done|cbn; lia| | | |by apply HS].
    + intros j Hj. cbn in Hj. destruct (decide (j = i)) as [->|Hne]; [by right|]. left. split; [done|]. apply Hused. lia.
    + intros o. change (wf_env w') with (wf_env w). rewrite (ok_owned w Hok o). split; intros (Ho & H); (split; [done|]).
      * destruct H as [j H]. right. exists j. split; [|done]. intros ->. congruence.
      * destruct H as [H|(j & _ & H)]; [|by exists j]. unfold holds in H. cbn in H. injection H as <-. by cbn in Ho.
    + intros j o _ H Ho. cbn in H. injection H as <-. by cbn in Ho.
  - apply wp_bind, wp_keeps; [apply keeps_errno|done|]. intros _ w' H1 H2. apply wp_ret. apply HN; [done..|]. intros i Hi.
    destruct (decide (i < wf_next w)) as [Hlt|Hge]; [by apply ok_below|].
    destruct (wf_fhs w !! i) as [r|] eqn:Hr; [|apply lookup_ge_None in Hr; rewrite ok_length in Hr by done; lia].
    rewrite (entry_lookup _ _ _ Hr). unfold holds. specialize (Hf (i - wf_next w) r). rewrite lookup_drop in Hf.
    replace (wf_next w + (i - wf_next w)) with i in Hf by lia. destruct (fh_clazz r); [done|]. by destruct Hf.
Qed.

(** A handle or socket that was just made goes into its entry. *)
Lemma adopt i c h e' w (Q : unit -> F -> Prop) : table_ok w -> entry w i = Some (c, INVALID) ->
  h <> INVALID -> (c, h) ∉ live (wf_env w) -> live e' = {[ (c, h) ]} ∪ live (wf_env w) ->
  (forall w', table_ok w' -> but i w w' -> entry w' i = Some (c, h) -> Q tt w') -> wp (upd_fh i (set_fh_u h)) Q (set_wf_env e' w).
Proof.
  intros Hok He Hh Hnew Hlive HQ. assert (Hi : i < 2048) by (apply (entry_in_table w); [done|congruence]).
  destruct (entry_some _ _ _ He) as (r & Hr & Hrh). assert (Hc : fh_clazz r = Some c) by (unfold holds in Hrh; destruct (fh_clazz r); congruence).
  apply wp_modify. match goal with |- Q _ ?w2 => set (w' := w2) end.
  assert (Hnone : forall j, entry w j <> Some (c, h)).
  { intros j Hj. apply Hnew. apply (ok_owned w Hok). split; [done|by exists j]. }
  destruct (table_ok_change w w' i (set_fh_u h r)) as (H1 & H2 & H3); [done|done|cbn; by rewrite length_alter|cbn; by rewrite list_lookup_alter_eq, Hr
    |intros j Hj; cbn; by rewrite list_lookup_alter_ne|exact (ok_used w Hok i r Hr)|by apply (ok_next w Hok)| | | |].
  - intros j Hj. cbn in Hj. destruct (decide (j = i)) as [->|Hne]; [right; unfold holds; cbn; by rewrite Hc|left; split; [done|by apply ok_below]].
  - intros o. change (wf_env w') with e'. rewrite Hlive, elem_of_union, elem_of_singleton, (ok_owned w Hok o). unfold holds. cbn. rewrite Hc. split.
    + intros [->|[Ho [j Hj]]]; (split; [done|]); [by left|]. right. exists j. split; [|done]. intros ->. rewrite He in Hj. injection Hj as <-. by cbn in Ho.
    + intros [Ho [H|(j & _ & Hj)]]; [left; congruence|right; split; [done|by exists j]].
  - intros j o _ H _. unfold holds in H. cbn in H. rewrite Hc in H. injection H as <-. apply Hnone.
  - apply HQ; [done..|]. rewrite H3. unfold holds. cbn. by rewrite Hc.
Qed.

(** What is in the entry is closed, and nothing else. *)
Lemma closing i c u w w' : table_ok w -> entry w i = Some (c, u) -> length (wf_fhs w') = length (wf_fhs w) ->
  (forall j, j <> i -> wf_fhs w' !! j = wf_fhs w !! j) -> (exists v, wf_fhs w' !! i = Some (free_fh v)) -> wf_next w' = Nat.min (wf_next w) i ->
  live (wf_env w') = live (wf_env w) ∖ {[ (c, u) ]} -> table_ok w' /\ but i w w' /\ entry w' i = None.
Proof.
  intros Hok He Hlen Hothers [v Hv] Hnext Hlive. assert (Hi : i < 2048) by (apply (entry_in_table w); [done|congruence]).
  apply (table_ok_change w w' i (free_fh v)); [done..| | | |].
  - rewrite Hnext. pose proof (ok_next w Hok). lia.
  - intros j Hj. left. rewrite Hnext in Hj. split; [lia|]. apply ok_below; [done|lia].
  - intros o. rewrite Hlive, elem_of_difference, elem_of_singleton, (ok_owned w Hok o). cbn. split.
    + intros [[Ho [j Hj]] Hne]. split; [done|]. right. exists j. split; [|done]. intros ->. congruence.
    + intros [Ho [H|(j & Hne & Hj)]]; [done|]. split; [split; [done|by exists j]|]. intros ->. apply Hne. by apply (ok_once w Hok j i (c, u)).
  - intros j o _ H. done.
Qed.

Lemma fh_close_spec i w (Q : unit -> F -> Prop) : table_ok w -> entry w i <> None ->
  (forall w', table_ok w' -> but i w w' -> entry w' i = None -> Q tt w') -> wp (fh_close i) Q w.
Proof.
  intros Hok Hne HQ. destruct (entry w i) as [[c u]|] eqn:He; [clear Hne|done]. destruct (entry_some _ _ _ He) as (r & Hr & Hrh).
  unfold holds in Hrh. destruct (fh_clazz r) as [c'|] eqn:Hc; [|done]. injection Hrh as -> Hu.
  unfold fh_close. apply wp_bind, wp_modify, wp_bind. unfold load_fh. apply wp_bind, wp_get. cbn [wf_fhs set_wf_next]. rewrite Hr. apply wp_ret.
  rewrite (ok_used w Hok i r Hr), Hc. cbn [negb].
  assert (Hfin : forall w', length (wf_fhs w') = length (wf_fhs w) -> (forall j, j <> i -> wf_fhs w' !! j = wf_fhs w !! j) -> is_Some (wf_fhs w' !! i) ->
    wf_next w' = Nat.min (wf_next w) i -> live (wf_env w') = live (wf_env w) ∖ {[ (c, u) ]} -> wp (upd_fh i (fun r => free_fh (fh_u r))) Q w').
  { intros w1 H1 H2 [r1 H3] H4 H5. apply wp_modify. match goal with |- Q _ ?w2 => set (w' := w2) end.
    destruct (closing i c u w w') as (K1 & K2 & K3); [done|done|cbn; by rewrite length_alter|intros j Hj; cbn; rewrite list_lookup_alter_ne by done; by apply H2
      |cbn; rewrite list_lookup_alter_eq, H3; by eexists|done|done|by apply HQ]. }
  apply wp_bind. destruct c.
  - unfold fh_file_close. apply wp_bind. unfold wp at 1, win_call. cbn [wf_env set_wf_next]. apply wp_modify. apply Hfin; cbn.
    + by rewrite length_alter.
    + intros j Hj. by rewrite list_lookup_alter_ne.
    + rewrite list_lookup_alter_eq, Hr. by eexists.
    + done.
    + by rewrite close_handle_live, Hu.
  - unfold fh_socket_close. destruct (Z.eqb_spec (fh_u r) INVALID) as [Hinv|Hinv].
    + apply wp_ret. apply Hfin; [done|done|cbn; rewrite Hr; by eexists|done|]. cbn. apply set_eq. intros o. rewrite elem_of_difference, elem_of_singleton.
      split; [|by intros [? _]]. intros Ho. split; [done|]. intros ->. apply (ok_owned w Hok) in Ho as [Ho _]. cbn in Ho. congruence.
    + apply wp_bind. unfold wp at 1, win_call. cbn [wf_env set_wf_next]. pose proof (shutdown_live (fh_u r) (wf_env w)) as Hs.
      destruct (ws_shutdown (fh_u r) (wf_env w)) as [x e1]. cbn in Hs. apply wp_bind. unfold wp at 1, win_call. cbn [wf_env set_wf_env].
      pose proof (closesocket_live (fh_u r) e1) as Hcl. destruct (ws_closesocket (fh_u r) e1) as [y e2]. cbn in Hcl. apply wp_modify. apply Hfin; cbn.
      * by rewrite length_alter.
      * intros j Hj. by rewrite list_lookup_alter_ne.
      * rewrite list_lookup_alter_eq, Hr. by eexists.
      * done.
      * by rewrite Hcl, Hs, Hu.
Qed.

Lemma fh_delete_spec i w (Q : unit -> F -> Prop) : table_ok w -> entry w i <> None ->
  (forall w', table_ok w' -> but i w w' -> entry w' i = None -> Q tt w') -> wp (fh_delete i) Q w.
Proof.
  intros Hok Hne HQ. unfold fh_delete. apply wp_bind, wp_get, wp_bind, fh_close_spec; [done..|]. intros w1 H1 H2 H3.
  apply wp_keeps; [apply keeps_errno|done|]. intros [] w2 H4 H5. apply HQ; [done| |by rewrite H5]. intros j Hj. rewrite H5. by apply H2.
Qed.

Lemma fh_to_int_spec i w (Q : Z -> F -> Prop) : table_ok w -> entry w i <> None -> Q (Z.of_nat i + WIN32_FH_BASE)%Z w -> wp (fh_to_int i) Q w.
Proof.
  intros Hok He HQ. unfold fh_to_int. apply wp_bind, load_in_table; [done|by apply (entry_in_table w)|]. intros r Hr. apply wp_ret.
  rewrite (ok_used w Hok i r Hr). rewrite (entry_lookup _ _ _ Hr) in He. unfold holds in He. by destruct (fh_clazz r).
Qed.

(** ** Opening *)

(** Between [w0] and [w] the entry [i] was made, and holds [o]. *)
Record made w0 (i : nat) (o : FHClass * Z) w : Prop := {
  made_ok : table_ok w;
  made_lowest : lowest_free w0 i;
  made_but : but i w0 w;
  made_entry : entry w i = Some o;
}.

(** The descriptor [fd] was opened, the lowest that was free; or none. *)
Definition opens_fd (fd : Z) w w' : Prop :=
  fd = (-1)%Z /\ same_entries w w' \/
  exists i c u, fd = (Z.of_nat i + WIN32_FH_BASE)%Z /\ lowest_free w i /\ u <> INVALID /\ entry w' i = Some (c, u) /\ but i w w'.

Definition opens w0 (fd : Z) w : Prop := table_ok w /\ opens_fd fd w0 w.

Lemma made_same w0 i o w w' : made w0 i o w -> table_ok w' -> same_entries w w' -> made w0 i o w'.
Proof. intros [H1 H2 H3 H4] Hok Hs. split; [done|done| |by rewrite Hs]. intros j Hj. by rewrite Hs, H3. Qed.

Lemma made_deleted w0 i o w w' : made w0 i o w -> but i w w' -> entry w' i = None -> same_entries w0 w'.
Proof.
  intros [H1 (_ & H2 & _) H3 H4] Hb Hn j. destruct (decide (j = i)) as [->|Hj]; [congruence|]. by rewrite Hb, H3.
Qed.

Lemma wp_made {A} (m : M F A) w0 i o w (Q : A -> F -> Prop) : keeps m -> made w0 i o w -> (forall a w', made w0 i o w' -> Q a w') -> wp m Q w.
Proof. intros Hm H HQ. apply wp_keeps; [done|by apply (made_ok _ _ _ _ H)|]. intros a w' H1 H2. apply HQ. by eapply made_same. Qed.

Lemma failed_spec i what err w0 o w : made w0 i o w -> wp (failed i what err) (fun x w' => opens w0 (fst x) w') w.
Proof.
  intros H. unfold failed. apply wp_bind, (wp_made _ w0 i o); [apply keeps_errno|done|]. intros _ w1 H1.
  apply wp_bind, fh_delete_spec; [apply H1|rewrite (made_entry _ _ _ _ H1); done|]. intros w2 K1 K2 K3. apply wp_ret. split; [done|]. left.
  split; [done|]. by eapply made_deleted.
Qed.

Lemma opened_spec i kind w0 c u w : made w0 i (c, u) w -> u <> INVALID -> wp (opened i kind) (fun x w' => opens w0 (fst x) w') w.
Proof.
  intros H Hu. unfold opened. apply wp_bind, fh_to_int_spec; [apply H|rewrite (made_entry _ _ _ _ H); done|].
  apply wp_bind, (wp_made _ w0 i (c, u)); [apply keeps_name|done|]. intros _ w1 [H1 H2 H3 H4]. apply wp_ret. split; [done|]. right.
  by exists i, c, u.
Qed.

Lemma with_new_socket_spec i family type protocol k w0 w : made w0 i (SocketClass, INVALID) w ->
  (forall s w', s <> INVALID -> made w0 i (SocketClass, s) w' -> wp (k s) (fun x w2 => opens w0 (fst x) w2) w') ->
  wp (with_new_socket i family type protocol k) (fun x w' => opens w0 (fst x) w') w.
Proof.
  intros H Hk. unfold with_new_socket. apply wp_bind. unfold wp at 1, win_call.
  destruct (ws_socket family type protocol (wf_env w)) as [[err|s] e'] eqn:Hs.
  - apply socket_fails in Hs. destruct (table_ok_same w (set_wf_env e' w)) as [K1 K2]; [apply H|done|done|done|intros j r Hr; by exists r|].
    by eapply failed_spec, made_same.
  - apply socket_live in Hs as (Hs1 & Hs2 & Hs3). apply wp_bind, (adopt i SocketClass s e' w); [apply H|apply H|done..|]. intros w' K1 K2 K3.
    apply Hk; [done|]. destruct H as [H1 H2 H3 H4]. split; [done|done| |done]. intros j Hj. by rewrite K2, H3.
Qed.

Lemma init_winsock_keeps : keeps init_winsock.
Proof.
  unfold init_winsock. solve_keeps. intros w Hok. apply wp_modify. apply table_ok_same; [done..|]. intros j r Hr. by exists r.
Qed.

Lemma with_new_entry_spec k w : table_ok w ->
  (forall i w', made w i (SocketClass, INVALID) w' -> wp (k i) (fun x w2 => opens w (fst x) w2) w') ->
  wp (with_new_entry k) (fun x w' => opens w (fst x) w') w.
Proof.
  intros Hok Hk. unfold with_new_entry. apply wp_bind, fh_alloc_spec; [done| |].
  - intros i w1 H1 H2 H3 H4. assert (Hm : made w i (SocketClass, INVALID) w1) by by split.
    apply wp_bind, (wp_made _ w i (SocketClass, INVALID)); [apply init_winsock_keeps|done|]. intros _ w2. apply Hk.
  - intros w1 H1 H2 _. apply wp_bind, wp_get, wp_ret. split; [done|]. by left.
Qed.

(** A call on the way that does not change what is open. *)
Lemma made_call {A} (f : E -> A * E) w0 i o w (Q : A -> F -> Prop) : (forall e, live (snd (f e)) = live e) -> made w0 i o w ->
  (forall a w', made w0 i o w' -> Q a w') -> wp (win_call f) Q w.
Proof. intros Hf. apply wp_made. by apply keeps_call. Qed.

Lemma protocol_keeps type : keeps (GetSocketProtocolFromSocketType type).
Proof. unfold GetSocketProtocolFromSocketType. solve_keeps. Qed.

Lemma network_loopback_client_opens port type w : table_ok w -> wp (network_loopback_client port type) (fun x w' => opens w (fst x) w') w.
Proof.
  intros Hok. apply with_new_entry_spec; [done|]. intros i w1 H1. apply wp_bind, (wp_made _ w i _ _ _ (protocol_keeps _) H1). intros protocol w2 H2.
  apply with_new_socket_spec; [done|]. intros s w3 Hs H3. apply wp_bind, (made_call _ w i (SocketClass, s)); [auto with win|done|].
  intros [err|] w4 H4; [by eapply failed_spec|by eapply opened_spec].
Qed.

Lemma network_server_opens port type ip w : table_ok w -> wp (network_server port type ip) (fun x w' => opens w (fst x) w') w.
Proof.
  intros Hok. apply with_new_entry_spec; [done|]. intros i w1 H1. apply wp_bind, (wp_made _ w i _ _ _ (protocol_keeps _) H1). intros protocol w2 H2.
  apply with_new_socket_spec; [done|]. intros s w3 Hs H3. apply wp_bind, (made_call _ w i (SocketClass, s)); [auto with win|done|].
  intros [err|] w4 H4; [by eapply failed_spec|]. apply wp_bind, (made_call _ w i (SocketClass, s)); [auto with win|done|].
  intros [err|] w5 H5; [by eapply failed_spec|]. apply wp_bind, (wp_made _ w i (SocketClass, s)); [solve_keeps|done|].
  intros [err|] w6 H6; [by eapply failed_spec|by eapply opened_spec].
Qed.

Lemma network_connect_opens host port type timeout w : table_ok w -> wp (network_connect host port type timeout) (fun x w' => opens w (fst x) w') w.
Proof.
  intros Hok. apply with_new_entry_spec; [done|]. intros i w1 H1. apply wp_bind, (wp_made _ w i _ _ _ (protocol_keeps _) H1). intros protocol w2 H2.
  apply wp_bind, (made_call _ w i (SocketClass, INVALID)); [auto with win|done|]. intros [err|ai] w3 H3; [by eapply failed_spec|].
  apply with_new_socket_spec; [done|]. intros s w4 Hs H4. apply wp_bind, (made_call _ w i (SocketClass, s)); [auto with win|done|].
  intros [err|] w5 H5; [by eapply failed_spec|by eapply opened_spec].
Qed.

Lemma adb_socket_accept_opens serverfd w : table_ok w -> wp (adb_socket_accept serverfd) (fun fd w' => opens w fd w') w.
Proof.
  intros Hok. unfold adb_socket_accept. apply with_socket_spec; [done| |intros w' H1 H2; split; [done|by left]].
  intros f r _ _ _. apply wp_bind, fh_alloc_spec; [done| |intros w' H1 H2 _; apply wp_ret; split; [done|by left]].
  intros i w1 H1 H2 H3 H4. assert (Hm : made w i (SocketClass, INVALID) w1) by by split. apply wp_bind. unfold wp at 1, win_call.
  destruct (ws_accept (fh_u r) (wf_env w1)) as [[err|s] e'] eqn:Hs.
  - apply accept_fails in Hs. destruct (table_ok_same w1 (set_wf_env e' w1)) as [K1 K2]; [done|done|done|done|intros j r' Hr; by exists r'|].
    pose proof (made_same _ _ _ _ _ Hm K1 K2) as Hm2. apply wp_bind, (wp_made _ w i _ _ _ (keeps_errno _) Hm2). intros _ w2 Hm3.
    apply wp_bind, fh_delete_spec; [apply Hm3|rewrite (made_entry _ _ _ _ Hm3); done|]. intros w3 L1 L2 L3. apply wp_ret. split; [done|]. left.
    split; [done|by eapply made_deleted].
  - apply accept_live in Hs as (Hs1 & Hs2 & Hs3). apply wp_bind, (adopt i SocketClass s e' w1); [done..|]. intros w2 K1 K2 K3.
    apply wp_bind. eapply wp_mono; [apply (opened_spec i _ w SocketClass s); [|done]|].
    + split; [done|done| |done]. intros j Hj. by rewrite K2, H3.
    + intros x w3 Hx. by apply wp_ret.
Qed.

(** A file, when its path is UTF-8. *)
Lemma open_entry_opens path access how w : table_ok w -> wide path <> None -> wp (open_entry path access how) (fun fd w' => opens w fd w') w.
Proof.
  intros Hok Hp. unfold open_entry. apply wp_bind, fh_alloc_spec; [done| |intros w' H1 H2 _; apply wp_ret; split; [done|by left]].
  intros i w1 H1 H2 H3 H4. assert (Hm : made w i (FileClass, INVALID) w1) by by split. destruct (wide path) as [path_wide|]; [|done].
  apply wp_bind. unfold wp at 1, win_call. destruct (CreateFileW path_wide access how (wf_env w1)) as [[err|h] e'] eqn:Hs.
  - apply create_fails in Hs. destruct (table_ok_same w1 (set_wf_env e' w1)) as [K1 K2]; [done|done|done|done|intros j r' Hr; by exists r'|].
    pose proof (made_same _ _ _ _ _ Hm K1 K2) as Hm2. apply wp_bind, fh_close_spec; [done|rewrite (made_entry _ _ _ _ Hm2); done|]. intros w2 L1 L2 L3.
    apply wp_bind, wp_keeps; [apply keeps_errno|done|]. intros _ w3 N1 N2. apply wp_ret. split; [done|]. left. split; [done|].
    intros j. rewrite N2. by apply (made_deleted _ _ _ _ _ Hm2).
  - apply create_live in Hs as (Hs1 & Hs2 & Hs3). apply wp_bind, (adopt i FileClass h e' w1); [done..|]. intros w2 K1 K2 K3.
    assert (Hm2 : made w i (FileClass, h) w2) by (split; [done|done| |done]; intros j Hj; by rewrite K2, H3).
    apply wp_bind, fh_to_int_spec; [done|by rewrite K3|]. apply wp_bind, (wp_made _ w i _ _ _ (keeps_name _ _) Hm2). intros _ w3 [L1 L2 L3 L4].
    apply fh_to_int_spec; [done|by rewrite L4|]. split; [done|]. right. by exists i, FileClass, h.
Qed.

(** ** The theorems *)

Lemma adb_close_spec i fd w (Q : Z -> F -> Prop) : table_ok w -> fd = (Z.of_nat i + WIN32_FH_BASE)%Z -> entry w i <> None ->
  (forall w', table_ok w' -> but i w w' -> entry w' i = None -> Q 0%Z w') -> wp (adb_close fd) Q w.
Proof.
  intros Hok Hfd He HQ. unfold adb_close, with_fh. apply wp_bind, fh_from_int_spec; [done| |].
  - intros f Hf _. assert (f = i) as -> by lia. apply wp_bind, load_in_table; [done|by apply (entry_in_table w)|]. intros r _.
    apply wp_bind, fh_close_spec; [done..|]. intros w' H1 H2 H3. by apply wp_ret, HQ.
  - intros Hnone. by rewrite (Hnone i Hfd) in He.
Qed.

Lemma adb_close_ok fd w : table_ok w -> wp (adb_close fd) (fun _ w' => table_ok w') w.
Proof.
  intros Hok. apply with_fh_spec; [done| |done]. intros f r c _ _ _ He. apply wp_bind, fh_close_spec; [done|by rewrite He|].
  intros w' H1 _ _. by apply wp_ret.
Qed.

Lemma open_entry_ok path access how w : table_ok w -> wp (open_entry path access how) (fun _ w' => table_ok w') w.
Proof.
  intros Hok. destruct (wide path) as [p|] eqn:Hp.
  - eapply wp_mono; [apply open_entry_opens; [done|congruence]|]. by intros fd w' [H _].
  - unfold open_entry. apply wp_bind, fh_alloc_spec; [done| |intros w' H1 _ _; by apply wp_ret].
    intros i w1 H1 _ _ _. rewrite Hp. by apply wp_ret.
Qed.

(** The ways to open a descriptor. *)
Inductive opener :=
| open_file (path : bytes) (options : Z) | create_file (path : bytes) (mode : Z)
| loopback_client (port type : Z) | loopback_server (port type : Z) | any_server (port type : Z)
| connect_to (host : bytes) (port type timeout : Z) | accept_from (serverfd : Z).

Definition run_opener (o : opener) : M F Z :=
  match o with
  | open_file path options => adb_open path options
  | create_file path mode => adb_creat path mode
  | loopback_client port type => let* x := network_loopback_client port type in ret (fst x)
  | loopback_server port type => let* x := network_loopback_server port type in ret (fst x)
  | any_server port type => let* x := network_inaddr_any_server port type in ret (fst x)
  | connect_to host port type timeout => let* x := network_connect host port type timeout in ret (fst x)
  | accept_from serverfd => adb_socket_accept serverfd
  end.

Definition path_ok (o : opener) : Prop :=
  match o with open_file path _ | create_file path _ => wide path <> None | _ => True end.

(** Opening a file or a socket, by whatever way and whichever step of it
    fails, either gives the lowest descriptor that was free, for a new handle,
    or -1 with the table as it was and nothing left open; no descriptor in use
    is touched.  (The path of a file must be UTF-8.) *)
Theorem opening_takes_lowest o w : table_ok w -> path_ok o -> wp (run_opener o) (fun fd w' => table_ok w' /\ opens_fd fd w w') w.
Proof.
  intros Hok Hp.
  assert (Hfst : forall m : M F (Z * bytes), wp m (fun x w' => opens w (fst x) w') w -> wp (let* x := m in ret (fst x)) (fun fd w' => opens w fd w') w).
  { intros m Hm. apply wp_bind. eapply wp_mono; [done|]. intros x w' Hx. by apply wp_ret. }
  destruct o; cbn [run_opener]; [| |apply Hfst..|by apply adb_socket_accept_opens].
  - unfold adb_open. destruct (desired_access options); [by apply open_entry_opens|]. apply wp_bind, wp_keeps; [apply keeps_errno|done|].
    intros _ w' H1 H2. apply wp_ret. split; [done|by left].
  - by apply open_entry_opens.
  - by apply network_loopback_client_opens.
  - by apply network_server_opens.
  - by apply network_server_opens.
  - by apply network_connect_opens.
Qed.

(** The two descriptors of [adb_socketpair], new ones. *)
Definition new_pair (c a : Z) w w' : Prop :=
  exists i j oi oj, c = (Z.of_nat i + WIN32_FH_BASE)%Z /\ a = (Z.of_nat j + WIN32_FH_BASE)%Z /\ i <> j /\ entry w i = None /\ entry w j = None /\
    entry w' i = Some oi /\ entry w' j = Some oj /\ forall k, k <> i -> k <> j -> entry w' k = entry w k.

Lemma opens_failed fd w w' : opens_fd fd w w' -> (fd < 0)%Z -> same_entries w w'.
Proof. unfold opens_fd, WIN32_FH_BASE. intros [[_ H]|(i & c & u & -> & _)] Hfd; [done|lia]. Qed.

Lemma opens_made fd w w' : opens_fd fd w w' -> (0 <= fd)%Z ->
  exists i o, fd = (Z.of_nat i + WIN32_FH_BASE)%Z /\ entry w i = None /\ entry w' i = Some o /\ but i w w'.
Proof. unfold opens_fd, WIN32_FH_BASE. intros [[-> _]|(i & c & u & -> & (_ & H1 & _) & _ & H2 & H3)] Hfd; [lia|]. by exists i, (c, u). Qed.

Lemma adb_socketpair_spec w : table_ok w ->
  wp adb_socketpair (fun x w' => table_ok w' /\ match x with None => same_entries w w' | Some (c, a) => new_pair c a w w' end) w.
Proof.
  intros Hok. unfold adb_socketpair. apply wp_bind. eapply wp_mono; [by apply network_server_opens|]. intros x w1 [Hok1 Hs].
  destruct (Z.ltb_spec (fst x) 0) as [Hneg|Hpos].
  { unfold close_open. rewrite (proj2 (Z.leb_gt 0 (fst x))) by done. repeat (apply wp_bind, wp_ret). apply wp_ret. split; [done|by eapply opens_failed]. }
  destruct (opens_made _ _ _ Hs Hpos) as (i & o & -> & Hi0 & Hi1 & Hb1). set (server := (Z.of_nat i + WIN32_FH_BASE)%Z) in *.
  assert (Hfail : forall client w2, (client < 0)%Z -> table_ok w2 -> same_entries w1 w2 ->
    forall accepted, (accepted < 0)%Z -> wp (close_open server ;;; close_open client ;;; close_open accepted ;;; ret None)
      (fun x w' => table_ok w' /\ match x with None => same_entries w w' | Some (c, a) => new_pair c a w w' end) w2).
  { intros client w2 Hc Hok2 Hs2 accepted Ha. unfold close_open.
    rewrite (proj2 (Z.leb_le 0 server)) by (unfold server, WIN32_FH_BASE; lia). rewrite (proj2 (Z.leb_gt 0 client)), (proj2 (Z.leb_gt 0 accepted)) by done.
    apply wp_bind, wp_bind, (adb_close_spec i); [done|done|by rewrite Hs2, Hi1|]. intros w3 K1 K2 K3. apply wp_ret. repeat (apply wp_bind, wp_ret). apply wp_ret.
    split; [done|]. intros j. destruct (decide (j = i)) as [->|Hj]; [congruence|]. by rewrite K2, Hs2, Hb1. }
  apply wp_bind, wp_keeps; [apply adb_socket_get_local_port_keeps|done|]. intros port w2 Hok2 Hs2.
  destruct (Z.ltb_spec port 0); [by apply Hfail; [lia|done..|lia]|].
  apply wp_bind. eapply wp_mono; [by apply network_loopback_client_opens|]. intros y w3 [Hok3 Hc].
  destruct (Z.ltb_spec (fst y) 0) as [Hcneg|Hcpos].
  { apply Hfail; [done|done| |lia]. intros j. rewrite (opens_failed _ _ _ Hc Hcneg). apply Hs2. }
  destruct (opens_made _ _ _ Hc Hcpos) as (j & oj & Hyj & Hj0 & Hj1 & Hb3). rewrite Hs2 in Hj0. assert (Hij : i <> j) by congruence.
  assert (Hjw : entry w j = None) by (rewrite <- Hb1; done). assert (Hi3 : entry w3 i = Some o) by (rewrite Hb3, Hs2; done).
  apply wp_bind. eapply wp_mono; [by apply adb_socket_accept_opens|]. intros fd w4 [Hok4 Ha].
  destruct (Z.ltb_spec fd 0) as [Haneg|Hapos].
  - pose proof (opens_failed _ _ _ Ha Haneg) as Hs4. unfold close_open.
    rewrite (proj2 (Z.leb_le 0 server)) by (unfold server, WIN32_FH_BASE; lia). rewrite (proj2 (Z.leb_le 0 (fst y))), (proj2 (Z.leb_gt 0 fd)) by done.
    apply wp_bind, wp_bind, (adb_close_spec i); [done|done|by rewrite Hs4, Hi3|]. intros w5 K1 K2 K3. apply wp_ret.
    apply wp_bind, wp_bind, (adb_close_spec j); [done|done|by rewrite K2, Hs4, Hj1|]. intros w6 L1 L2 L3. apply wp_ret. apply wp_bind, wp_ret, wp_ret.
    split; [done|]. intros k. destruct (decide (k = j)) as [->|Hkj]; [congruence|]. rewrite L2 by done.
    destruct (decide (k = i)) as [->|Hki]; [congruence|]. by rewrite K2, Hs4, Hb3, Hs2, Hb1.
  - destruct (opens_made _ _ _ Ha Hapos) as (k & ok & -> & Hk0 & Hk1 & Hb4).
    assert (Hki : k <> i) by congruence. assert (Hkj : k <> j) by congruence.
    apply wp_bind, (adb_close_spec i); [done|done|by rewrite Hb4, Hi3|]. intros w5 K1 K2 K3. apply wp_ret. split; [done|].
    exists j, k, oj, ok. split; [done|]. split; [done|]. split; [done|]. split; [done|]. split; [by rewrite <- Hb1, <- Hs2, <- Hb3|].
    split; [by rewrite K2, Hb4|]. split; [by rewrite K2|]. intros l Hlj Hlk. destruct (decide (l = i)) as [->|Hli]; [congruence|].
    by rewrite K2, Hb4, Hb3, Hs2, Hb1.
Qed.

(** C35: The pair of sockets that stands for socketpair: two new descriptors, the
    server that was needed being closed again; or a failure, with the table as
    it was, wherever it happened. *)
Theorem socketpair_all_or_nothing w : table_ok w ->
  wp adb_socketpair (fun x w' => table_ok w' /\ match x with None => same_entries w w' | Some (c, a) => new_pair c a w w' end) w.
Proof. apply adb_socketpair_spec. Qed.

(** Every operation on descriptors. *)
Inductive fd_op :=
| op_open (o : opener) | op_socketpair | op_close (fd : Z)
| op_read (fd len : Z) | op_write (fd : Z) (buf : bytes) | op_lseek (fd pos whence : Z) | op_shutdown (fd : Z)
| op_setsockopt (fd level optname : Z) (optval : bytes) | op_local_port (fd : Z) | op_keepalive (fd interval : Z) | op_block (fd : Z) (block : bool)
| op_poll (fds : list pollfd) (timeout : Z).

Definition run_fd_op (o : fd_op) : M F unit :=
  match o with
  | op_open o => let* _ := run_opener o in ret tt
  | op_socketpair => let* _ := adb_socketpair in ret tt
  | op_close fd => let* _ := adb_close fd in ret tt
  | op_read fd len => let* _ := adb_read fd len in ret tt
  | op_write fd buf => let* _ := adb_write fd buf in ret tt
  | op_lseek fd pos whence => let* _ := adb_lseek fd pos whence in ret tt
  | op_shutdown fd => let* _ := adb_shutdown fd in ret tt
  | op_setsockopt fd level optname optval => let* _ := adb_setsockopt fd level optname optval in ret tt
  | op_local_port fd => let* _ := adb_socket_get_local_port fd in ret tt
  | op_keepalive fd interval => let* _ := set_tcp_keepalive fd interval in ret tt
  | op_block fd block => let* _ := set_file_block_mode fd block in ret tt
  | op_poll fds timeout => let* _ := adb_poll fds timeout in ret tt
  end.

Lemma run_opener_ok o w : table_ok w -> wp (run_opener o) (fun _ w' => table_ok w') w.
Proof.
  intros Hok.
  assert (Hfst : forall m : M F (Z * bytes), wp m (fun x w' => opens w (fst x) w') w -> wp (let* x := m in ret (fst x)) (fun _ w' => table_ok w') w).
  { intros m Hm. apply wp_bind. eapply wp_mono; [done|]. intros x w' [Hx _]. by apply wp_ret. }
  destruct o; cbn [run_opener].
  - unfold adb_open. destruct (desired_access options); [by apply open_entry_ok|]. apply wp_bind, wp_keeps; [apply keeps_errno|done|].
    intros _ w' H _. by apply wp_ret.
  - by apply open_entry_ok.
  - by apply Hfst, network_loopback_client_opens.
  - by apply Hfst, network_server_opens.
  - by apply Hfst, network_server_opens.
  - by apply Hfst, network_connect_opens.
  - eapply wp_mono; [by apply adb_socket_accept_opens|]. by intros fd w' [H _].
Qed.

Lemma run_fd_op_ok o w : table_ok w -> wp (run_fd_op o) (fun _ w' => table_ok w') w.
Proof.
  intros Hok.
  assert (Hk : forall A (m : M F A), keeps m -> wp (let* _ := m in ret tt) (fun _ w' => table_ok w') w).
  { intros A m Hm. apply wp_bind, wp_keeps; [done..|]. intros a w' H _. by apply wp_ret. }
  assert (Hw : forall A (m : M F A), wp m (fun _ w' => table_ok w') w -> wp (let* _ := m in ret tt) (fun _ w' => table_ok w') w).
  { intros A m Hm. apply wp_bind. eapply wp_mono; [done|]. intros a w' H. by apply wp_ret. }
  destruct o; cbn [run_fd_op].
  - by apply Hw, run_opener_ok.
  - apply Hw. eapply wp_mono; [by apply adb_socketpair_spec|]. by intros x w' [H _].
  - by apply Hw, adb_close_ok.
  - apply Hk, adb_read_keeps.
  - apply Hk, adb_write_keeps.
  - apply Hk, adb_lseek_keeps.
  - apply Hk, adb_shutdown_keeps.
  - apply Hk, adb_setsockopt_keeps.
  - apply Hk, adb_socket_get_local_port_keeps.
  - apply Hk, set_tcp_keepalive_keeps.
  - apply Hk, set_file_block_mode_keeps.
  - apply Hk, adb_poll_keeps.
Qed.

(** C17: Whatever is done with descriptors, good ones and bad ones, the table
    stays sound: the handles and sockets that are open in Windows are those of
    its entries, each once, none is closed twice or forgotten, and the search
    for a free entry starts where it should. *)
Theorem descriptors_owned ops w : table_ok w -> wp (iter_list run_fd_op ops) (fun _ w' => table_ok w') w.
Proof. intros Hok. apply wp_iter_list; [done|]. intros o w' _ H. by apply run_fd_op_ok. Qed.

End WinFdsProps.

(** * A small Windows on which the theorems about descriptors are exercised

    Handles and sockets are numbered as they are made; [sy_refused]: no
    connection is accepted. *)

Record system := { sy_live : gset (FHClass * Z); sy_count : positive; sy_refused : bool }.

(** The next number above those that are in use. *)
Definition next_handle (s : system) : Z := Zpos (foldr (fun o n => Pos.max (Pos.succ (Z.to_pos (snd o))) n) (sy_count s) (elements (sy_live s))).

Definition make (c : FHClass) (s : system) : (Z + Z) * system :=
  (inr (next_handle s), {| sy_live := {[ (c, next_handle s) ]} ∪ sy_live s; sy_count := sy_count s; sy_refused := sy_refused s |}).
Definition unmake (c : FHClass) (h : Z) (s : system) : system :=
  {| sy_live := sy_live s ∖ {[ (c, h) ]}; sy_count := sy_count s; sy_refused := sy_refused s |}.

Lemma next_handle_above s o : o ∈ sy_live s -> (snd o < next_handle s)%Z.
Proof.
  intros H. apply elem_of_elements in H. unfold next_handle. induction (elements (sy_live s)) as [|x l IH]; [by apply not_elem_of_nil in H|].
  cbn [foldr]. apply elem_of_cons in H as [->|H]; [|specialize (IH H); lia]. destruct (snd x) eqn:Hx; cbn; lia.
Qed.

Lemma next_handle_new c s : next_handle s <> INVALID /\ (c, next_handle s) ∉ sy_live s.
Proof. split; [done|]. intros H. apply next_handle_above in H. cbn in H. lia. Qed.

#[export] Instance system_files : WinFiles system := {|
  UTF8ToWide s := (forallb (fun c => negb (high_bit c)) s, map byte_val s);
  WideToUTF8 w := Some (map byte_of w);
  WriteConsoleW _ _ e := (true, e); crt_fflush _ e := e; crt_vfprintf _ s e := (Zlen s, e); crt_fwrite s n _ e := (Zlen s / n, e)%Z;
  w_open _ _ _ e := ((-1)%Z, e); w_opendir _ e := (None, e); w_readdir _ e := (None, e); w_closedir _ e := (0%Z, e); w_unlink _ e := (None, e);
  w_chmod _ _ e := (None, e); w_mkdir _ e := (None, e); w_utime _ _ e := (None, e); w_fopen _ _ e := (None, e); w_getcwd _ := None; w_environ := None;
|}.

#[export] Instance system_api : WinApi system := {|
  ReadFile _ _ e := (Some [], e); WriteFile _ bs e := (Some (Zlen bs), e); SetFilePointer _ pos _ e := (Some pos, e);
  CloseHandle h e := unmake FileClass h e;
  CreateFileW path _ how e := match how with OPEN_EXISTING => if bool_decide (path = map byte_val (str "missing")) then (inl ERROR_FILE_NOT_FOUND, e) else make FileClass e | CREATE_ALWAYS => make FileClass e end;
  WSAStartup e := (None, e); ws_socket _ _ _ e := make SocketClass e; ws_connect _ _ e := (None, e); ws_bind _ _ e := (None, e);
  ws_listen _ _ e := (None, e); ws_accept _ e := if sy_refused e then (inl 10054%Z, e) else make SocketClass e;
  ws_setsockopt _ _ _ _ e := (None, e); ws_getsockname _ e := (inr (AF_INET, 4000%Z), e); ws_shutdown _ e := (None, e);
  ws_closesocket s e := (None, unmake SocketClass s e); ws_recv _ _ e := (inr [], e); ws_send _ bs e := (inr (Zlen bs), e);
  WSAPoll l _ e := (inr (map (fun _ => 0%Z) l), e); ws_nonblocking _ _ e := (None, e); ws_keepalive _ _ _ _ e := (None, e);
  ws_getaddrinfo _ _ t p e := (inr {| ai_family := AF_INET; ai_socktype := t; ai_protocol := p; ai_addr := FoundAddr 1 |}, e);
  SystemErrorCodeToString n := dec n; crt_strerror _ := str "error";
|}.

Lemma make_live c e h e' : make c e = (inr h, e') -> h <> INVALID /\ (c, h) ∉ sy_live e /\ sy_live e' = {[ (c, h) ]} ∪ sy_live e.
Proof. unfold make. intros H. injection H as <- <-. destruct (next_handle_new c e) as [H1 H2]. by repeat split. Qed.

#[export] Instance system_laws : WinLaws system sy_live.
Proof.
  split; try (intros; cbn; done).
  - intros path access how e h e' H. cbn in H. destruct how; [case_bool_decide; [done|]|]; by apply make_live in H.
  - intros path access how e err e' H. cbn in H. destruct how; [case_bool_decide; [by simplify_eq|]|]; done.
  - intros family type protocol e s e' H. by apply make_live in H.
  - intros s0 e s e' H. cbn in H. destruct (sy_refused e); [done|]. by apply make_live in H.
  - intros s0 e err e' H. cbn in H. destruct (sy_refused e); [by simplify_eq|done].
Qed.

(** The table when the program starts. *)
Definition fresh_table (refused : bool) : fd_table system :=
  {| wf_env := {| sy_live := ∅; sy_count := 100; sy_refused := refused |}; wf_fhs := replicate 2048 (free_fh 0); wf_next := 0; wf_errno := E_NONE;
     wf_winsock_init := false |}.

Lemma fresh_entry b i : entry (fresh_table b) i = None.
Proof. unfold entry. cbn [wf_fhs fresh_table]. destruct (replicate 2048 (free_fh 0) !! i) as [r|] eqn:H; [|done]. by apply lookup_replicate in H as [-> _]. Qed.

Lemma fresh_ok b : table_ok sy_live (fresh_table b).
Proof.
  split.
  - apply length_replicate.
  - cbn. lia.
  - intros i H. cbn in H. lia.
  - intros i r H. cbn [wf_fhs fresh_table] in H. by apply lookup_replicate in H as [-> _].
  - intros o. split; [intros H; by apply elem_of_empty in H|]. intros [_ [i Hi]]. by rewrite fresh_entry in Hi.
  - intros i j o H. by rewrite fresh_entry in H.
Qed.

Lemma opening_takes_lowest_witness :
  wp (run_opener (open_file (str "present") 0)) (fun fd w' => table_ok sy_live w' /\ opens_fd fd (fresh_table false) w') (fresh_table false) /\
  exists w', run_opener (open_file (str "present") 0) (fresh_table false) = Done 2048%Z w'.
Proof.
  split; [apply (opening_takes_lowest sy_live (open_file (str "present") 0)); [apply fresh_ok|vm_compute; discriminate]|].
  eexists. vm_compute. reflexivity.
Defined.

Lemma socketpair_all_or_nothing_witness :
  wp adb_socketpair (fun x w' => table_ok sy_live w' /\
    match x with None => same_entries (fresh_table true) w' | Some (c, a) => new_pair c a (fresh_table true) w' end) (fresh_table true).
Proof. apply (socketpair_all_or_nothing sy_live), fresh_ok. Defined.

(** The server took 2048 while the pair was made. *)
Example pair_made : match adb_socketpair (fresh_table false) with Done x w => x = Some (2049%Z, 2050%Z) /\ entry w 0 = None | _ => False end.
Proof. vm_compute. by split. Qed.

Example pair_refused : match adb_socketpair (fresh_table true) with Done x w => x = None /\ wf_next w = 0 /\ sy_live (wf_env w) = ∅ | _ => False end.
Proof. vm_compute. by repeat split. Qed.

Definition some_ops : list fd_op :=
  [op_socketpair; op_open (open_file (str "missing") 0); op_open (loopback_server 5037 SOCK_STREAM); op_write 2050 (str "x"); op_close 2049; op_close 2049;
   op_poll [{| pf_fd := 2050; pf_events := 1; pf_revents := 0 |}; {| pf_fd := 3; pf_events := 1; pf_revents := 0 |}] (-1); op_close 9999]%Z.

Lemma descriptors_owned_witness : wp (iter_list run_fd_op some_ops) (fun _ w' => table_ok sy_live w') (fresh_table false).
Proof. apply (descriptors_owned sy_live), fresh_ok. Defined.

(** A path that is not UTF-8 costs a descriptor each time it is tried. *)
Example bad_path_leaks :
  match adb_open [byte_of 0xff] 0 (fresh_table false) with Done fd w => fd = (-1)%Z /\ entry w 0 = Some (FileClass, INVALID) | _ => False end.
Proof. vm_compute. by split. Qed.
