(* ===== verification/WinLaunch.v ===== *)
(** * Starting the server on Windows (adb.cpp)

    Where there is no fork, the server is started with pipes that it inherits:
    one for its first words, and two whose output threads of the client show.
    A handle that is not used any more must be closed, and the server must not
    inherit more than it needs.  A [unique_handle] is an entry of [ln_owned],
    which holds the handles that are closed when the function returns. *)

From S2P Require Import Prelude Packet AdbIo WinConsole WinText WinFds.

Definition ERROR_BROKEN_PIPE : Z := 109.
Definition WAIT_OBJECT_0 : Z := 0.
Definition WAIT_TIMEOUT : Z := 258.
Definition MAX_PATH : Z := 260.

Inductive std_stream := STD_INPUT | STD_OUTPUT | STD_ERROR.

#[export] Instance std_stream_eq_dec : EqDecision std_stream.
Proof. solve_decision. Defined.

(** The process that was made: the handles of it and of its thread, its number. *)
Record process_information := { hProcess : Z; hThread : Z; dwProcessId : Z }.

(** What [CreateProcessW] is given of the three standard handles. *)
Record startup_info := { hStdInput : Z; hStdOutput : Z; hStdError : Z }.

(** Windows and the C runtime.  [inl]: the error.  [ln_wide_args]: the text that
    [snwprintf] makes, of at most this many characters. *)
Class LaunchOs (E : Type) := {
  ln_err : bytes -> E -> E;
  ln_open_nul : E -> (Z + Z) * E;
  ln_create_pipe : E -> (Z + (Z * Z)) * E;
  ln_get_std_handle : std_stream -> E -> Z;
  ln_not_inherited : Z -> E -> bool * E;
  ln_module_file_name : Z -> E -> option (list Z);
  ln_wide_args : Z -> bytes -> Z -> list Z;
  ln_create_process : list Z -> list Z -> startup_info -> E -> (Z + process_information) * E;
  ln_begin_thread : std_stream -> Z -> E -> option Z * E;
  ln_read : Z -> Z -> E -> (Z + bytes) * E;
  ln_wait_all : list Z -> Z -> E -> Z * E;
  ln_wait_one : Z -> Z -> E -> Z * E;
  ln_close : Z -> E -> E;
  ln_last_error : E -> Z;
  ln_report_startup_failure : Z -> E -> E;
  ln_fileno : std_stream -> E -> Z;
  ln_dup : Z -> E -> Z * E;
  ln_setmode_binary : Z -> E -> bool * E;
  ln_fdopen : Z -> E -> option Z * E;
  ln_unbuffer : Z -> E -> bool * E;
  ln_unix_close : Z -> E -> E;
  ln_fclose : Z -> E -> E;
  ln_fwrite : bytes -> Z -> E -> Z * E;
  ln_error_text : Z -> bytes;
  ln_errno_text : E -> bytes;
}.

Record launcher (E : Type) := { ln_env : E; ln_owned : list Z }.
Arguments ln_env {E} _.
Arguments ln_owned {E} _.

Definition set_ln_env {E} (e : E) (s : launcher E) : launcher E := {| ln_env := e; ln_owned := ln_owned s |}.
Definition set_ln_owned {E} (l : list Z) (s : launcher E) : launcher E := {| ln_env := ln_env s; ln_owned := l |}.

Section WinLaunch.
Context {E : Type} {LO : LaunchOs E}.
Abbreviation L := (launcher E).

Definition win {A} (f : E -> A * E) : M L A := fun s => let '(a, e) := f (ln_env s) in Done a (set_ln_env e s).
Definition win_do (f : E -> E) : M L unit := modify (fun s => set_ln_env (f (ln_env s)) s).
Definition say (text : bytes) : M L unit := win_do (ln_err text).
Definition newline : bytes := [byte_of 10].

(** ** unique_handle *)

Definition own (h : Z) : M L unit := modify (fun s => set_ln_owned (h :: ln_owned s) s).
Definition release (h : Z) : M L unit := modify (fun s => set_ln_owned (filter (fun x => x <> h) (ln_owned s)) s).
Definition reset (h : Z) : M L unit := win_do (ln_close h) ;;; release h.

(** What happens at the end of a function: the handles that [body] has taken and
    still owns are closed. *)
Definition scoped {A} (body : M L A) : M L A :=
  let* s := get in
  let outer := ln_owned s in
  modify (set_ln_owned []) ;;;
  let* a := body in
  let* s := get in
  iter_list (fun h => win_do (ln_close h)) (ln_owned s) ;;;
  modify (set_ln_owned outer) ;;;
  ret a.

(** ** Pipes *)

Definition is_handle (h : Z) : bool := negb (h =? INVALID)%Z && negb (h =? 0)%Z.

Definition try_make_handle_noninheritable (h : Z) : M L bool := if is_handle h then win (ln_not_inherited h) else ret true.

Definition make_handle_noninheritable (h : Z) : M L bool :=
  let* ok := try_make_handle_noninheritable h in
  if ok : bool then ret true else
  let* s := get in
  say (str "adb: cannot make handle non-inheritable: " ++ ln_error_text (ln_last_error (ln_env s)) ++ newline) ;;;
  ret false.

(** The ends for reading and for writing, which the caller owns. *)
Definition create_anonymous_pipe : M L (option (Z * Z)) :=
  let* r := win ln_create_pipe in
  match r with
  | inl e => say (str "adb: CreatePipe failed: " ++ ln_error_text e ++ newline) ;;; ret None
  | inr (pipe_read, pipe_write) =>
      own pipe_read ;;; own pipe_write ;;;
      let* ok := make_handle_noninheritable pipe_read in
      if ok : bool then ret (Some (pipe_read, pipe_write)) else reset pipe_write ;;; reset pipe_read ;;; ret None
  end.

(** ** Showing what the server says *)

Definition output_name (s : std_stream) : bytes := if decide (s = STD_OUTPUT) then str "stdout" else str "stderr".

(** The reading and writing, up to the end of the pipe or an error. *)
Fixpoint copy_pipe (fuel : nat) (h : Z) (name : bytes) (stream : option Z) : M L Z :=
  match fuel with
  | O => no_fuel
  | S f =>
      let* r := win (ln_read h (64 * 1024)) in
      match r with
      | inl e =>
          if (e =? ERROR_BROKEN_PIPE)%Z then ret 0%Z
          else say (str "adb: failed to read from " ++ name ++ str ": " ++ ln_error_text e ++ newline) ;;; ret 1%Z
      | inr buf =>
          match stream with
          | None => copy_pipe f h name stream
          | Some file =>
              let* bytes_written := win (ln_fwrite buf file) in
              if negb (bytes_written =? Zlen buf)%Z then
                say (str "adb: error: only wrote " ++ dec bytes_written ++ str " of " ++ dec (Zlen buf) ++ str " bytes to " ++ name ++ newline) ;;;
                ret 1%Z
              else copy_pipe f h name stream
          end
      end
  end.

(** [what]: a step that failed, with errno. *)
Definition stream_failed (what name : bytes) : M L unit :=
  let* s := get in say (str "adb: failed to " ++ what ++ name ++ str ": " ++ ln_errno_text (ln_env s) ++ newline).

(** A second stream for the output, binary and without a buffer: [inl] when it
    cannot be made, [inr None] when there is no output to write to. *)
Definition open_output (which : std_stream) : M L (unit + option Z) :=
  let name := output_name which in
  let* s := get in
  let original_fd := ln_fileno which (ln_env s) in
  if (original_fd =? -1)%Z then stream_failed (str "get file descriptor for ") name ;;; ret (inl tt) else
  if (original_fd <? 0)%Z then ret (inr None) else
  let* fd := win (ln_dup original_fd) in
  if (fd =? -1)%Z then stream_failed (str "duplicate file descriptor for ") name ;;; ret (inl tt) else
  let* ok := win (ln_setmode_binary fd) in
  if negb ok then stream_failed (str "set binary mode for duplicate of ") name ;;; win_do (ln_unix_close fd) ;;; ret (inl tt) else
  let* file := win (ln_fdopen fd) in
  match file with
  | None => stream_failed (str "open duplicate stream for ") name ;;; win_do (ln_unix_close fd) ;;; ret (inl tt)
  | Some file =>
      let* ok := win (ln_unbuffer file) in
      if negb ok then stream_failed (str "unbuffer ") name ;;; win_do (ln_fclose file) ;;; ret (inl tt) else ret (inr (Some file))
  end.

(** The thread owns the end of the pipe. *)
Definition redirect_pipe_thread (fuel : nat) (h : Z) (which : std_stream) : M L Z :=
  scoped (
    own h ;;;
    let* stream := open_output which in
    match stream with
    | inl _ => ret 1%Z
    | inr stream =>
        let* code := copy_pipe fuel h (output_name which) stream in
        match stream with Some file => win_do (ln_fclose file) | None => ret tt end ;;;
        ret code
    end).

(** ** launch_server *)

Definition cast_handle_to_int (h : Z) : Z := i32 h.

(** A thread that shows the output of [pipe], which it owns from then on. *)
Definition start_redirect (which : std_stream) (pipe : Z) : M L (option Z) :=
  let* thread := win (ln_begin_thread which pipe) in
  match thread with
  | None =>
      let* s := get in
      say (str "adb: cannot create thread: " ++ ln_errno_text (ln_env s) ++ newline) ;;; ret None
  | Some thread => own thread ;;; release pipe ;;; ret (Some thread)
  end.

(** Whether the first words are right; [None] when they are wrong. *)
Definition await_ack (ack_read process : Z) : M L (option bool) :=
  let* r := win (ln_read ack_read 3) in
  match r with
  | inr temp =>
      if bool_decide (temp = str "OK" ++ newline) then ret (Some true)
      else win_do (ln_report_startup_failure process) ;;; ret None
  | inl e =>
      say (str "could not read ok from ADB Server" ++ (if (e =? ERROR_BROKEN_PIPE)%Z then [] else str ": " ++ ln_error_text e) ++ newline) ;;;
      ret (Some false)
  end.

(** Waiting until the threads have shown everything. *)
Definition await_output (threads : list Z) (pinfo : process_information) (got_ack : bool) : M L Z :=
  let* wait_result := win (ln_wait_all threads (15 * 1000)) in
  if (wait_result =? WAIT_TIMEOUT)%Z then
    say (str "adb: timed out waiting for threads to finish reading from ADB server" ++ newline) ;;;
    let* r := win (ln_wait_one (hProcess pinfo) 0) in
    when (r =? WAIT_TIMEOUT)%Z (say (str "adb: server is running with process id " ++ dec (dwProcessId pinfo) ++ newline)) ;;;
    ret (-1)%Z
  else if negb (wait_result =? WAIT_OBJECT_0)%Z then
    let* s := get in
    say (str "adb: unexpected result waiting for threads: " ++ dec wait_result ++ str ": " ++ ln_error_text (ln_last_error (ln_env s)) ++ newline) ;;;
    ret (-1)%Z
  else ret (if got_ack then 0 else -1)%Z.

(** The new process: it inherits what can be inherited. *)
Definition start_process (socket_spec : bytes) (nul_read ack_write stdout_write stderr_write : Z) : M L (option process_information) :=
  let ack_write_as_int := cast_handle_to_int ack_write in
  if negb (ack_write_as_int =? ack_write)%Z then
    say (str "adb: cannot fit pipe handle value into 32-bits" ++ newline) ;;; ret None
  else
    let* s := get in
    match ln_module_file_name MAX_PATH (ln_env s) with
    | None => say (str "adb: cannot get executable path: " ++ ln_error_text (ln_last_error (ln_env s)) ++ newline) ;;; ret None
    | Some program_path =>
        let args := ln_wide_args 64 (c_str socket_spec) ack_write_as_int in
        let* r := win (ln_create_process program_path args {| hStdInput := nul_read; hStdOutput := stdout_write; hStdError := stderr_write |}) in
        match r with
        | inl e => say (str "adb: CreateProcessW failed: " ++ ln_error_text e ++ newline) ;;; ret None
        | inr pinfo => own (hProcess pinfo) ;;; win_do (ln_close (hThread pinfo)) ;;; ret (Some pinfo)
        end
    end.

(** The standard handles of the client are not for the server; older versions of
    Windows have some that cannot be changed. *)
Definition keep_std_handles : M L unit :=
  iter_list (fun s => let* st := get in let* _ := try_make_handle_noninheritable (ln_get_std_handle s (ln_env st)) in ret tt)
    [STD_INPUT; STD_OUTPUT; STD_ERROR].

Definition with_some {A B} (m : M L (option A)) (b : B) (k : A -> M L B) : M L B :=
  let* r := m in match r with None => ret b | Some a => k a end.

Definition open_nul : M L (option Z) :=
  let* r := win ln_open_nul in
  match r with
  | inl e => say (str "adb: CreateFileW 'nul' failed: " ++ ln_error_text e ++ newline) ;;; ret None
  | inr h => own h ;;; ret (Some h)
  end.

Definition win_launch_body (socket_spec : bytes) : M L Z :=
    with_some open_nul (-1)%Z (fun nul_read =>
    with_some create_anonymous_pipe (-1)%Z (fun '(ack_read, ack_write) =>
    with_some create_anonymous_pipe (-1)%Z (fun '(stdout_read, stdout_write) =>
    with_some create_anonymous_pipe (-1)%Z (fun '(stderr_read, stderr_write) =>
    keep_std_handles ;;;
    with_some (start_process socket_spec nul_read ack_write stdout_write stderr_write) (-1)%Z (fun pinfo =>
    reset nul_read ;;; reset ack_write ;;; reset stdout_write ;;; reset stderr_write ;;;
    with_some (start_redirect STD_OUTPUT stdout_read) (-1)%Z (fun stdout_thread =>
    with_some (start_redirect STD_ERROR stderr_read) (-1)%Z (fun stderr_thread =>
    with_some (await_ack ack_read (hProcess pinfo)) (-1)%Z (fun got_ack =>
    await_output [stdout_thread; stderr_thread] pinfo got_ack)))))))).

Definition win_launch_server (socket_spec : bytes) : M L Z := scoped (win_launch_body socket_spec).

End WinLaunch.

(** ** Handles that are left

    [held]: the handles that are open and that no other thread owns. *)
Class LaunchLaws (E : Type) `{LaunchOs E} (held : E -> gset Z) := {
  nul_held (e e' : E) r : ln_open_nul e = (r, e') ->
    match r with inr h => h ∉ held e /\ held e' = {[h]} ∪ held e | inl _ => held e' = held e end;
  pipe_held (e e' : E) r : ln_create_pipe e = (r, e') ->
    match r with inr (p, q) => p <> q /\ p ∉ held e /\ q ∉ held e /\ held e' = {[q]} ∪ ({[p]} ∪ held e) | inl _ => held e' = held e end;
  process_held path args s (e e' : E) r : ln_create_process path args s e = (r, e') ->
    match r with
    | inr i => hProcess i <> hThread i /\ hProcess i ∉ held e /\ hThread i ∉ held e /\ held e' = {[hThread i]} ∪ ({[hProcess i]} ∪ held e)
    | inl _ => held e' = held e
    end;
  thread_held w p (e e' : E) r : ln_begin_thread w p e = (r, e') ->
    match r with Some t => t ∉ held e /\ held e' = ({[t]} ∪ held e) ∖ {[p]} | None => held e' = held e end;
  close_held h (e : E) : held (ln_close h e) = held e ∖ {[h]};
  err_held t (e : E) : held (ln_err t e) = held e;
  report_held p (e : E) : held (ln_report_startup_failure p e) = held e;
  inherit_held h (e e' : E) r : ln_not_inherited h e = (r, e') -> held e' = held e;
  read_held h n (e e' : E) r : ln_read h n e = (r, e') -> held e' = held e;
  wait_all_held l n (e e' : E) r : ln_wait_all l n e = (r, e') -> held e' = held e;
  wait_one_held h n (e e' : E) r : ln_wait_one h n e = (r, e') -> held e' = held e;
}.

Section Handles.
Context {E : Type} {LO : LaunchOs E} {held : E -> gset Z} {LL : LaunchLaws E held}.
Abbreviation L := (launcher E).

(** What is held is what was held before, and what the function owns. *)
Definition balanced (before : gset Z) (s : L) : Prop :=
  held (ln_env s) = before ∪ list_to_set (ln_owned s) /\ NoDup (ln_owned s) /\ (forall h, h ∈ ln_owned s -> h ∉ before).

(** Steps that keep the balance. *)
Definition fair {A} (m : M L A) : Prop := forall before s, balanced before s -> twp m (fun _ s' => balanced before s') s.

Lemma fair_ret {A} (a : A) : fair (ret a).
Proof. intros before s H. by apply twp_ret. Qed.
Lemma fair_bind {A B} (m : M L A) (f : A -> M L B) : fair m -> (forall a, fair (f a)) -> fair (bind m f).
Proof. intros Hm Hf before s H. apply twp_bind. eapply twp_mono; [by apply Hm|]. intros a s' H'. by apply Hf. Qed.
Lemma fair_get : fair get.
Proof. intros before s H. by apply twp_get. Qed.
Lemma fair_when b (m : M L unit) : fair m -> fair (when b m).
Proof. intros H. destruct b; [done|apply fair_ret]. Qed.
Lemma fair_with_some {A B} (m : M L (option A)) (b : B) k : fair m -> (forall a, fair (k a)) -> fair (with_some m b k).
Proof. intros Hm Hk. apply fair_bind; [done|]. intros [a|]; [apply Hk|apply fair_ret]. Qed.
Lemma fair_iter {A} (f : A -> M L unit) l : (forall a, fair (f a)) -> fair (iter_list f l).
Proof. intros Hf. induction l as [|a l IH]; [apply fair_ret|]. by apply fair_bind. Qed.

Lemma fair_win {A} (f : E -> A * E) : (forall e e' a, f e = (a, e') -> held e' = held e) -> fair (win f).
Proof.
  intros Hf before s (H1 & H2 & H3). unfold twp, win. destruct (f (ln_env s)) as [a e] eqn:He. apply Hf in He. split; [|done]. cbn. by rewrite He.
Qed.
Lemma fair_say t : fair (say t).
Proof. intros before s (H1 & H2 & H3). apply twp_modify. split; [|done]. cbn. by rewrite err_held. Qed.

(** A handle that the function takes, and one that it gives away. *)
Lemma balanced_own before s h e : balanced before s -> h ∉ held (ln_env s) -> held e = {[h]} ∪ held (ln_env s) ->
  balanced before (set_ln_owned (h :: ln_owned s) (set_ln_env e s)).
Proof.
  intros (H1 & H2 & H3) Hn He. rewrite H1 in Hn, He. split; [cbn; rewrite He; set_solver|]. split; [apply NoDup_cons; split; [set_solver|done]|].
  cbn. intros x [->|Hx]%elem_of_cons; [set_solver|by apply H3].
Qed.

Lemma balanced_release before s h e : balanced before s -> held e = held (ln_env s) ∖ {[h]} -> h ∈ ln_owned s ->
  balanced before (set_ln_owned (filter (fun x => x <> h) (ln_owned s)) (set_ln_env e s)).
Proof.
  intros (H1 & H2 & H3) He Hin. pose proof (H3 _ Hin) as Hout. split; [|split; [by apply NoDup_filter|]].
  - cbn. rewrite He, H1. apply set_eq. intros x. rewrite elem_of_difference, !elem_of_union, !elem_of_list_to_set, elem_of_singleton, list_elem_of_filter.
    destruct (decide (x = h)) as [->|]; naive_solver.
  - cbn. intros x [_ Hx]%list_elem_of_filter. by apply H3.
Qed.

Lemma fair_noninheritable h : fair (try_make_handle_noninheritable h).
Proof. unfold try_make_handle_noninheritable. destruct (is_handle h); [apply fair_win; intros e e' a; apply inherit_held|apply fair_ret]. Qed.

Lemma fair_make_noninheritable h : fair (make_handle_noninheritable h).
Proof.
  apply fair_bind; [apply fair_noninheritable|]. intros [|]; [apply fair_ret|]. apply fair_bind; [apply fair_get|]. intros s.
  apply fair_bind; [apply fair_say|]. intros _. apply fair_ret.
Qed.

(** [reset] of a handle that is owned, which stays so for the others. *)
Lemma reset_owned before h (Q : unit -> L -> Prop) s : balanced before s -> h ∈ ln_owned s ->
  (forall s', balanced before s' -> (forall x, x ∈ ln_owned s -> x <> h -> x ∈ ln_owned s') -> Q tt s') -> twp (reset h) Q s.
Proof.
  intros Hb Hin HQ. apply twp_bind, twp_modify, twp_modify, HQ; [by apply (balanced_release before s h (ln_close h (ln_env s))); [done|apply close_held|done]|].
  intros x Hx Hne. cbn. by apply list_elem_of_filter.
Qed.

(** [m] takes the handles of its result, if it succeeds. *)
Definition takes {A} (m : M L (option A)) (handles : A -> list Z) : Prop := forall before s, balanced before s ->
  twp m (fun r s' => balanced before s' /\ match r with Some a => ln_owned s' = handles a ++ ln_owned s | None => True end) s.

Lemma open_nul_takes : takes open_nul (fun h => [h]).
Proof.
  intros before s Hb. unfold open_nul. apply twp_bind. unfold twp at 1, win. destruct (ln_open_nul (ln_env s)) as [r e] eqn:He. apply nul_held in He.
  destruct r as [err|h].
  - apply twp_bind, twp_modify, twp_ret. split; [|done]. destruct Hb as (H1 & H2). split; [|done]. cbn. by rewrite err_held, He.
  - destruct He as [Hn He]. apply twp_bind, twp_modify, twp_ret. by split; [apply (balanced_own before s h e)|].
Qed.

Lemma create_pipe_takes : takes create_anonymous_pipe (fun p => [p.2; p.1]).
Proof.
  intros before s Hb. unfold create_anonymous_pipe. apply twp_bind. unfold twp at 1, win. destruct (ln_create_pipe (ln_env s)) as [r e] eqn:He. apply pipe_held in He.
  destruct r as [err|[p q]].
  - apply twp_bind, twp_modify, twp_ret. split; [|done]. destruct Hb as (H1 & H2). split; [|done]. cbn. by rewrite err_held, He.
  - destruct He as (Hpq & Hp & Hq & He). do 2 apply twp_bind, twp_modify. set (s1 := set_ln_owned (q :: _) _).
    assert (Hb1 : balanced before s1).
    { destruct Hb as (H1 & H2 & H3). rewrite H1 in *. unfold s1. split; [cbn; rewrite He; set_solver|]. cbn. split; [repeat (apply NoDup_cons; split); set_solver|].
      intros x Hx. apply elem_of_cons in Hx as [->|[->|Hx]%elem_of_cons]; [set_solver..|by apply H3]. }
    assert (Hs1 : ln_owned s1 = [q; p] ++ ln_owned s) by done. clearbody s1.
    apply twp_bind.
    assert (Hsame : twp (make_handle_noninheritable p) (fun _ s2 => balanced before s2 /\ ln_owned s2 = ln_owned s1) s1).
    { unfold make_handle_noninheritable. apply twp_bind.
      eapply (twp_mono _ (fun _ s2 => balanced before s2 /\ ln_owned s2 = ln_owned s1)).
      { unfold try_make_handle_noninheritable. destruct (is_handle p); [|by apply twp_ret]. unfold twp, win. destruct (ln_not_inherited p (ln_env s1)) as [ok e2] eqn:He2.
        apply inherit_held in He2. split; [|done]. destruct Hb1 as (H1 & H2). split; [|done]. cbn. by rewrite He2. }
      intros [|] s2 [H2 Ho]; [by apply twp_ret|]. apply twp_bind, twp_get, twp_bind, twp_modify, twp_ret. split; [|done].
      destruct H2 as (H2 & H3). split; [|done]. cbn. by rewrite err_held. }
    eapply twp_mono; [exact Hsame|]. intros [|] s2 [H2 Ho].
    + apply twp_ret. by rewrite Ho.
    + apply twp_bind. apply (reset_owned before); [done|rewrite Ho, Hs1; set_solver|]. intros s3 H3 Hk3. apply twp_bind. apply (reset_owned before); [done| |].
      { apply Hk3; [rewrite Ho, Hs1; set_solver|done]. }
      intros s4 H4 _. by apply twp_ret.
Qed.

Lemma fair_keep_std_handles : fair keep_std_handles.
Proof.
  apply fair_iter. intros x. apply fair_bind; [apply fair_get|]. intros st. apply fair_bind; [apply fair_noninheritable|]. intros _. apply fair_ret.
Qed.

(** Steps that own the same handles afterwards. *)
Definition same_owned {A} (m : M L A) : Prop := forall s, twp m (fun _ s' => ln_owned s' = ln_owned s) s.

Lemma same_win {A} (f : E -> A * E) : same_owned (win f).
Proof. intros s. unfold twp, win. by destruct (f (ln_env s)). Qed.

Lemma same_keep_std_handles : same_owned keep_std_handles.
Proof.
  unfold keep_std_handles. generalize [STD_INPUT; STD_OUTPUT; STD_ERROR]. intros l. induction l as [|x l IH]; intros s; [by apply twp_ret|]. cbn [iter_list].
  apply twp_bind, twp_bind, twp_get, twp_bind. eapply (twp_mono _ (fun _ s' => ln_owned s' = ln_owned s)).
  { unfold try_make_handle_noninheritable. destruct (is_handle _); [apply same_win|by apply twp_ret]. }
  intros ok s1 H1. apply twp_ret. eapply twp_mono; [apply IH|]. intros [] s2 H2. congruence.
Qed.

Lemma both {A} (m : M L A) (P Q : A -> L -> Prop) s : twp m P s -> twp m Q s -> twp m (fun a s' => P a s' /\ Q a s') s.
Proof. unfold twp. by destruct (m s). Qed.

Lemma start_process_takes spec n a o e : takes (start_process spec n a o e) (fun i => [hProcess i]).
Proof.
  intros before s Hb. unfold start_process. destruct (negb _).
  { apply twp_bind, twp_modify, twp_ret. split; [|done]. destruct Hb as (H1 & H2). split; [|done]. cbn. by rewrite err_held. }
  apply twp_bind, twp_get. destruct (ln_module_file_name _ _) as [path|].
  2: { apply twp_bind, twp_modify, twp_ret. split; [|done]. destruct Hb as (H1 & H2). split; [|done]. cbn. by rewrite err_held. }
  apply twp_bind. unfold twp at 1, win. destruct (ln_create_process _ _ _ (ln_env s)) as [r e1] eqn:He. apply process_held in He. destruct r as [err|i].
  - apply twp_bind, twp_modify, twp_ret. split; [|done]. destruct Hb as (H1 & H2). split; [|done]. cbn. by rewrite err_held, He.
  - destruct He as (Hne & Hp & Ht & He). apply twp_bind, twp_modify, twp_bind, twp_modify, twp_ret. split; [|done].
    apply (balanced_own before s (hProcess i) (ln_close (hThread i) e1)); [done..|]. rewrite close_held, He. set_solver.
Qed.

(** The pipe that the thread gets is not owned any more. *)
Lemma start_redirect_gives before w pipe s : balanced before s -> pipe ∈ ln_owned s ->
  twp (start_redirect w pipe) (fun _ s' => balanced before s' /\ (forall x, x ∈ ln_owned s -> x <> pipe -> x ∈ ln_owned s')) s.
Proof.
  intros Hb Hin. unfold start_redirect. apply twp_bind. unfold twp at 1, win. destruct (ln_begin_thread w pipe (ln_env s)) as [r e] eqn:He. apply thread_held in He.
  destruct r as [t|].
  - destruct He as [Hn He]. apply twp_bind, twp_modify, twp_bind, twp_modify, twp_ret. destruct Hb as (H1 & H2 & H3). rewrite H1 in Hn, He.
    assert (Hout : pipe ∉ before) by by apply H3.
    split; [|intros x Hx Hne; cbn [ln_owned set_ln_owned set_ln_env]; apply list_elem_of_filter; set_solver]. split; [|split].
    + cbn [ln_env ln_owned set_ln_owned set_ln_env]. rewrite He. apply set_eq. intros x. rewrite elem_of_difference, !elem_of_union, !elem_of_list_to_set, !elem_of_singleton, list_elem_of_filter, elem_of_cons.
      destruct (decide (x = pipe)) as [->|]; naive_solver.
    + apply NoDup_filter, NoDup_cons. split; [set_solver|done].
    + cbn [ln_owned set_ln_owned set_ln_env]. intros x [_ [->|Hx]%elem_of_cons]%list_elem_of_filter; [set_solver|by apply H3].
  - apply twp_bind, twp_get, twp_bind, twp_modify, twp_ret. split; [|by intros x Hx _]. destruct Hb as (H1 & H2). split; [|done]. cbn. by rewrite err_held, He.
Qed.

Lemma fair_await_ack ack p : fair (await_ack ack p).
Proof.
  apply fair_bind; [apply fair_win; intros e e' a; apply read_held|]. intros [e|temp].
  - apply fair_bind; [apply fair_say|]. intros _. apply fair_ret.
  - case_bool_decide; [apply fair_ret|]. apply fair_bind; [|intros _; apply fair_ret]. intros before s (H1 & H2). apply twp_modify.
    split; [|done]. cbn. by rewrite report_held.
Qed.

Lemma fair_await_output threads i got : fair (await_output threads i got).
Proof.
  apply fair_bind; [apply fair_win; intros e e' a; apply wait_all_held|]. intros r. destruct (r =? WAIT_TIMEOUT)%Z; [|destruct (negb _)].
  - apply fair_bind; [apply fair_say|]. intros _. apply fair_bind; [apply fair_win; intros e e' a; apply wait_one_held|]. intros r'.
    apply fair_bind; [apply fair_when, fair_say|]. intros _. apply fair_ret.
  - apply fair_bind; [apply fair_get|]. intros s. apply fair_bind; [apply fair_say|]. intros _. apply fair_ret.
  - apply fair_ret.
Qed.

(** At the end what is owned is closed. *)
Lemma close_owned l before s : held (ln_env s) = before ∪ list_to_set l -> NoDup l -> (forall h, h ∈ l -> h ∉ before) ->
  twp (iter_list (fun h => win_do (ln_close h)) l) (fun _ s' => held (ln_env s') = before) s.
Proof.
  revert s. induction l as [|h l IH]; intros s H1 H2 H3; cbn [iter_list]; [apply twp_ret; rewrite H1; set_solver|].
  apply NoDup_cons in H2 as [Hh H2]. assert (h ∉ before) by (apply H3; set_solver). apply twp_bind, twp_modify, IH; [|done|].
  - cbn. rewrite close_held, H1. set_solver.
  - intros x Hx. apply H3. set_solver.
Qed.

Lemma twp_with_some {A B} (m : M L (option A)) handles (b : B) (k : A -> M L B) (Q : B -> L -> Prop) before s :
  takes m handles -> balanced before s -> (forall s', balanced before s' -> Q b s') ->
  (forall a s', balanced before s' -> ln_owned s' = handles a ++ ln_owned s -> twp (k a) Q s') -> twp (with_some m b k) Q s.
Proof.
  intros Hm Hb HQ Hk. apply twp_bind. eapply twp_mono; [by apply Hm|]. intros [a|] s' [Hb' Ho]; [by apply Hk|by apply twp_ret, HQ].
Qed.

(** From the process on. *)
Lemma process_started before s pinfo nul ack_r ack_w out_r out_w err_r err_w :
  balanced before s -> ln_owned s = [hProcess pinfo; err_w; err_r; out_w; out_r; ack_w; ack_r; nul] ->
  twp (reset nul ;;; reset ack_w ;;; reset out_w ;;; reset err_w ;;;
    with_some (start_redirect STD_OUTPUT out_r) (-1)%Z (fun stdout_thread =>
    with_some (start_redirect STD_ERROR err_r) (-1)%Z (fun stderr_thread =>
    with_some (await_ack ack_r (hProcess pinfo)) (-1)%Z (fun got_ack =>
    await_output [stdout_thread; stderr_thread] pinfo got_ack)))) (fun _ s' => balanced before s') s.
Proof.
  intros Hb Ho. pose proof (proj1 (proj2 Hb)) as Hnd. rewrite Ho, !NoDup_cons, !elem_of_cons, !elem_of_nil in Hnd.
  assert (Hin : forall x, x = nul \/ x = ack_w \/ x = out_w \/ x = err_w \/ x = out_r \/ x = err_r -> x ∈ ln_owned s).
  { intros x Hx. rewrite Ho, !elem_of_cons. clear - Hx. tauto. }
  assert (Hne : nul <> ack_w /\ nul <> out_w /\ nul <> err_w /\ nul <> out_r /\ nul <> err_r /\ ack_w <> out_w /\ ack_w <> err_w /\
    ack_w <> out_r /\ ack_w <> err_r /\ out_w <> err_w /\ out_w <> out_r /\ out_w <> err_r /\ err_w <> out_r /\ err_w <> err_r /\ out_r <> err_r).
  { clear - Hnd. split_and!; intros ->; tauto. }
  clear Ho Hnd. destruct Hne as (N1 & N2 & N3 & N4 & N5 & N6 & N7 & N8 & N9 & N10 & N11 & N12 & N13 & N14 & Hor).
  apply twp_bind. apply (reset_owned before); [done|apply Hin; tauto|]. intros s1 B1 K1.
  apply twp_bind. apply (reset_owned before); [done|apply K1; [apply Hin; tauto|done]|]. intros s2 B2 K2.
  apply twp_bind. apply (reset_owned before); [done|apply K2; [apply K1; [apply Hin; tauto|]|]; done|]. intros s3 B3 K3.
  apply twp_bind. apply (reset_owned before); [done|apply K3; [apply K2; [apply K1; [apply Hin; tauto|]|]|]; done|]. intros s4 B4 K4.
  assert (Hall : forall x, x = out_r \/ x = err_r -> x ∈ ln_owned s4).
  { intros x [->| ->]; (apply K4; [apply K3; [apply K2; [apply K1; [apply Hin; tauto|]|]|]|]; done). }
  apply twp_bind. eapply twp_mono; [apply (start_redirect_gives before); [done|by apply Hall; left]|]. intros [t1|] s5 [B5 K5]; [|by apply twp_ret].
  apply twp_bind. eapply twp_mono; [apply (start_redirect_gives before); [done|apply K5; [by apply Hall; right|done]]|]. intros [t2|] s6 [B6 K6]; [|by apply twp_ret].
  apply fair_with_some; [apply fair_await_ack|intros got; apply fair_await_output|done].
Qed.

Lemma fair_launch spec before s : balanced before s -> ln_owned s = [] ->
  twp (win_launch_body spec) (fun _ s' => balanced before s') s.
Proof.
  intros Hb Ho. unfold win_launch_body.
  eapply twp_with_some; [apply open_nul_takes|done|done|]. intros nul s1 B1 O1. rewrite Ho in O1.
  eapply twp_with_some; [apply create_pipe_takes|done|done|]. intros [ack_r ack_w] s2 B2 O2. rewrite O1 in O2.
  eapply twp_with_some; [apply create_pipe_takes|done|done|]. intros [out_r out_w] s3 B3 O3. rewrite O2 in O3.
  eapply twp_with_some; [apply create_pipe_takes|done|done|]. intros [err_r err_w] s4 B4 O4. rewrite O3 in O4.
  apply twp_bind. eapply twp_mono; [apply both; [by apply fair_keep_std_handles|apply same_keep_std_handles]|]. intros _ s5 [B5 O5]. rewrite O4 in O5.
  eapply twp_with_some; [apply start_process_takes|done|done|]. intros pinfo s6 B6 O6. rewrite O5 in O6. by apply (process_started before _ _ nul ack_r ack_w out_r out_w err_r err_w).
Qed.

Lemma scoped_closes {A} (body : M L A) s : (forall before s, balanced before s -> ln_owned s = [] -> twp body (fun _ s' => balanced before s') s) ->
  twp (scoped body) (fun _ s' => held (ln_env s') = held (ln_env s) /\ ln_owned s' = ln_owned s) s.
Proof.
  intros Hf. unfold scoped. apply twp_bind, twp_get, twp_bind, twp_modify, twp_bind.
  eapply twp_mono; [apply (Hf (held (ln_env s))); [split; [cbn; set_solver|split; [constructor|by intros h Hh%not_elem_of_nil]]|done]|].
  intros a s1 (H1 & H2 & H3). apply twp_bind, twp_get, twp_bind. eapply twp_mono; [by apply close_owned|]. intros [] s2 Hs2. by apply twp_bind, twp_modify, twp_ret.
Qed.

(** C36: Starting the server on Windows leaves no handle behind: whichever call
    of Windows fails, and when none does, every handle that was opened is closed
    again or belongs to the thread that reads from it. *)
Theorem launch_leaves_no_handle spec s : twp (win_launch_server spec) (fun _ s' => held (ln_env s') = held (ln_env s) /\ ln_owned s' = ln_owned s) s.
Proof. apply scoped_closes. intros before s' Hb Ho. by apply fair_launch. Qed.

End Handles.

(** ** A Windows on which a call is refused

    [dk_refused]: after how many calls. *)

Record desk := { dk_held : gset Z; dk_started : option startup_info; dk_refused : nat; dk_said : bytes }.

Definition set_dk_held (l : gset Z) (e : desk) : desk :=
  {| dk_held := l; dk_started := dk_started e; dk_refused := pred (dk_refused e); dk_said := dk_said e |}.

(** The next handle above those that are in use. *)
Definition next_above (l : gset Z) : Z := Zpos (foldr (fun h n => Pos.max (Pos.succ (Z.to_pos h)) n) 1%positive (elements l)).

Lemma next_above_new l h : h ∈ l -> (h < next_above l)%Z.
Proof.
  intros H%elem_of_elements. unfold next_above. induction (elements l) as [|x k IH]; [by apply not_elem_of_nil in H|].
  cbn [foldr]. apply elem_of_cons in H as [->|H]; [|specialize (IH H); lia]. destruct x; cbn; lia.
Qed.

Definition refusing (e : desk) : bool := dk_refused e =? 0.

#[export] Instance desk_os : LaunchOs desk := {
  ln_err t e := {| dk_held := dk_held e; dk_started := dk_started e; dk_refused := dk_refused e; dk_said := dk_said e ++ t |};
  ln_open_nul e := let h := next_above (dk_held e) in if refusing e then (inl 5%Z, e) else (inr h, set_dk_held ({[h]} ∪ dk_held e) e);
  ln_create_pipe e :=
    let h := next_above (dk_held e) in
    if refusing e then (inl 4%Z, e) else (inr (h, h + 1)%Z, set_dk_held ({[(h + 1)%Z]} ∪ ({[h]} ∪ dk_held e)) e);
  ln_get_std_handle s _ := match s with STD_INPUT => 3 | STD_OUTPUT => 7 | STD_ERROR => 11 end%Z;
  ln_not_inherited _ e := (negb (refusing e), e);
  ln_module_file_name _ _ := Some (map byte_val (str "adb.exe"));
  ln_wide_args n spec fd := take (Z.to_nat n - 1) (map byte_val (str "adb -L " ++ spec ++ str " fork-server server --reply-fd " ++ dec fd));
  ln_create_process _ _ si e :=
    let h := next_above (dk_held e) in
    if refusing e then (inl 2%Z, e)
    else (inr {| hProcess := h; hThread := h + 1; dwProcessId := 99 |},
          {| dk_held := {[(h + 1)%Z]} ∪ ({[h]} ∪ dk_held e); dk_started := Some si; dk_refused := pred (dk_refused e); dk_said := dk_said e |});
  ln_begin_thread _ p e :=
    let h := next_above (dk_held e) in if refusing e then (None, e) else (Some h, set_dk_held (({[h]} ∪ dk_held e) ∖ {[p]}) e);
  ln_read _ _ e := (if refusing e then inl ERROR_BROKEN_PIPE else inr (str "OK" ++ [byte_of 10]), e);
  ln_wait_all _ _ e := (WAIT_OBJECT_0, e);
  ln_wait_one _ _ e := (WAIT_TIMEOUT, e);
  ln_close h e := {| dk_held := dk_held e ∖ {[h]}; dk_started := dk_started e; dk_refused := dk_refused e; dk_said := dk_said e |};
  ln_last_error _ := 5%Z;
  ln_report_startup_failure _ e := e;
  ln_fileno s _ := match s with STD_INPUT => 0 | STD_OUTPUT => 1 | STD_ERROR => 2 end%Z;
  ln_dup fd e := ((fd + 10)%Z, e);
  ln_setmode_binary _ e := (true, e);
  ln_fdopen fd e := (Some fd, e);
  ln_unbuffer _ e := (true, e);
  ln_unix_close _ e := e;
  ln_fclose _ e := e;
  ln_fwrite bs _ e := (Zlen bs, e);
  ln_error_text n := dec n;
  ln_errno_text _ := str "error";
}.

#[export] Instance desk_laws : LaunchLaws desk dk_held.
Proof.
  assert (Hnew : forall l n, (0 <= n)%Z -> (next_above l + n)%Z ∉ l) by (intros l n Hn H%next_above_new; lia).
  assert (Hnew0 : forall l, next_above l ∉ l) by (intros l H%next_above_new; lia).
  split; try (by cbn; intros; simplify_eq).
  - intros e e' r H. cbn in H. destruct (refusing e); injection H as <- <-; [done|]. split; [apply Hnew0|done].
  - intros e e' r H. cbn in H. destruct (refusing e); injection H as <- <-; [done|]. split_and!; [lia|apply Hnew0|by apply Hnew|done].
  - intros path args si e e' r H. cbn in H. destruct (refusing e); injection H as <- <-; [done|]. cbn. split_and!; [lia|apply Hnew0|by apply Hnew|done].
  - intros w p e e' r H. cbn in H. destruct (refusing e); injection H as <- <-; [done|]. split; [apply Hnew0|done].
Qed.

Definition the_desk (n : nat) : launcher desk :=
  {| ln_env := {| dk_held := list_to_set [3; 7; 11]%Z; dk_started := None; dk_refused := n; dk_said := [] |}; ln_owned := [] |}.

Definition launched (n : nat) : option (Z * option startup_info * list Z) :=
  match win_launch_server (str "tcp:5037") (the_desk n) with
  | Done r s => Some (r, dk_started (ln_env s), elements (dk_held (ln_env s)))
  | _ => None
  end.

Example launch_succeeds : match launched 20 with Some (0%Z, Some si, l) => length l = 3 | _ => False end.
Proof. by vm_compute. Qed.

Example thread_refused : match launched 6 with Some (r, Some _, l) => r = (-1)%Z /\ length l = 3 | _ => False end.
Proof. by vm_compute. Qed.

Lemma launch_leaves_no_handle_witness :
  twp (win_launch_server (str "tcp:5037")) (fun _ s' => dk_held (ln_env s') = dk_held (ln_env (the_desk 6)) /\ ln_owned s' = ln_owned (the_desk 6)) (the_desk 6).
Proof. exact (launch_leaves_no_handle (str "tcp:5037") (the_desk 6)). Defined.
