(* ===== verification/UsbOsx.v ===== *)
(** * USB devices of a Mac (client/usb_osx.cpp)

    Every second a thread walks over the interfaces IOKit knows of.  What IOKit
    gives out are references, numbers here, that have to be released.  The
    variables of [AndroidInterfaceAdded] that are declared outside its loop keep
    from one interface to the next what a call that fails does not write, and
    have no value at first: they are the record [found_vars]. *)

From S2P Require Import Prelude LibBase Packet AdbIo FdEvent Transport World SmartText Sockets SocketIo TransportOps.
From S2P Require Import Demo UsbLinux UsbTurn.

Record mac_handle := {
  mh_bulkIn : Z;
  mh_bulkOut : Z;
  mh_interface : option Z;
  mh_zero_mask : Z;
  mh_max_packet_size : Z;
  mh_mark : bool;
  mh_devpath : bytes;
  mh_dead : bool;
}.

Definition new_mac_handle : mac_handle :=
  {| mh_bulkIn := 0; mh_bulkOut := 0; mh_interface := None; mh_zero_mask := 0; mh_max_packet_size := 0; mh_mark := false;
     mh_devpath := []; mh_dead := false |}.

Definition set_mh_pipes (i o : Z) (x : mac_handle) : mac_handle :=
  {| mh_bulkIn := i; mh_bulkOut := o; mh_interface := mh_interface x; mh_zero_mask := mh_zero_mask x; mh_max_packet_size := mh_max_packet_size x;
     mh_mark := mh_mark x; mh_devpath := mh_devpath x; mh_dead := mh_dead x |}.
Definition set_mh_sizes (mask size : Z) (x : mac_handle) : mac_handle :=
  {| mh_bulkIn := mh_bulkIn x; mh_bulkOut := mh_bulkOut x; mh_interface := mh_interface x; mh_zero_mask := mask; mh_max_packet_size := size;
     mh_mark := mh_mark x; mh_devpath := mh_devpath x; mh_dead := mh_dead x |}.
Definition set_mh_interface (v : option Z) (x : mac_handle) : mac_handle :=
  {| mh_bulkIn := mh_bulkIn x; mh_bulkOut := mh_bulkOut x; mh_interface := v; mh_zero_mask := mh_zero_mask x; mh_max_packet_size := mh_max_packet_size x;
     mh_mark := mh_mark x; mh_devpath := mh_devpath x; mh_dead := mh_dead x |}.
Definition set_mh_mark (v : bool) (x : mac_handle) : mac_handle :=
  {| mh_bulkIn := mh_bulkIn x; mh_bulkOut := mh_bulkOut x; mh_interface := mh_interface x; mh_zero_mask := mh_zero_mask x;
     mh_max_packet_size := mh_max_packet_size x; mh_mark := v; mh_devpath := mh_devpath x; mh_dead := mh_dead x |}.
Definition set_mh_devpath (v : bytes) (x : mac_handle) : mac_handle :=
  {| mh_bulkIn := mh_bulkIn x; mh_bulkOut := mh_bulkOut x; mh_interface := mh_interface x; mh_zero_mask := mh_zero_mask x;
     mh_max_packet_size := mh_max_packet_size x; mh_mark := mh_mark x; mh_devpath := v; mh_dead := mh_dead x |}.
Definition set_mh_dead (v : bool) (x : mac_handle) : mac_handle :=
  {| mh_bulkIn := mh_bulkIn x; mh_bulkOut := mh_bulkOut x; mh_interface := mh_interface x; mh_zero_mask := mh_zero_mask x;
     mh_max_packet_size := mh_max_packet_size x; mh_mark := mh_mark x; mh_devpath := mh_devpath x; mh_dead := v |}.

(** The objects, and [g_usb_handles]; [ms_inited] is [usb_inited_flag]. *)
Record mac_state := { ms_objects : gmap Z mac_handle; ms_next : Z; ms_handles : list Z; ms_inited : bool }.

Definition set_ms_objects (v : gmap Z mac_handle) (u : mac_state) : mac_state :=
  {| ms_objects := v; ms_next := ms_next u; ms_handles := ms_handles u; ms_inited := ms_inited u |}.
Definition set_ms_handles (v : list Z) (u : mac_state) : mac_state :=
  {| ms_objects := ms_objects u; ms_next := ms_next u; ms_handles := v; ms_inited := ms_inited u |}.
Definition set_ms_inited (v : bool) (u : mac_state) : mac_state :=
  {| ms_objects := ms_objects u; ms_next := ms_next u; ms_handles := ms_handles u; ms_inited := v |}.

Class MacState (E : Type) := {
  mac_of : E -> mac_state;
  put_mac : mac_state -> E -> E;
}.

(** What [GetPipeProperties] tells. *)
Record pipe_properties := { pp_direction : Z; pp_transfer_type : Z; pp_max_packet_size : Z }.

Definition kUSBOut : Z := 0.
Definition kUSBIn : Z := 1.
Definition kUSBBulk : Z := 2.
Definition kUSBStringDesc : Z := 3.

(** A [ReadPipe]: what came, or [kIOUSBPipeStalled] with what it leaves in its
    count, or another error. *)
Variant pipe_read := PipeData (data : bytes) | PipeStalled (numBytes : Z) | PipeFailed.

(** IOKit.  [io_release] is IOObjectRelease and the [Release] of an interface;
    [io_plugin] IOCreatePlugInInterfaceForService, for a device or for an
    interface; [io_request] a DeviceRequest for a descriptor, with [wValue],
    [wIndex] and [wLength], whose answer has [wLenDone] bytes. *)
Class IoKit (E : Type) := {
  io_matching : E -> bool * E;
  io_services : E -> option Z * E;
  io_next : Z -> E -> option Z * E;
  io_plugin : bool -> Z -> E -> option Z * E;
  io_query : bool -> Z -> E -> option Z * E;
  io_release : Z -> E -> E;
  io_class : Z -> E -> option Z;
  io_subclass : Z -> E -> option Z;
  io_protocol : Z -> E -> option Z;
  io_device : Z -> E -> option Z * E;
  io_location : Z -> E -> option Z;
  io_serial_index : Z -> E -> option Z;
  io_request : Z -> Z -> Z -> Z -> E -> option bytes * E;
  io_open : Z -> E -> bool * E;
  io_close : Z -> E -> E;
  io_endpoints : Z -> E -> option Z;
  io_pipe : Z -> Z -> E -> option pipe_properties;
  io_clear_both_ends : Z -> Z -> E -> bool * E;
  io_clear_stall : Z -> Z -> E -> E;
  io_write : Z -> Z -> bytes -> E -> bool * E;
  io_read : Z -> Z -> Z -> E -> pipe_read * E;
}.

Record found_vars := {
  fv_class : option Z;
  fv_subclass : option Z;
  fv_protocol : option Z;
  fv_serial_index : option Z;
  fv_serial : option bytes;
  fv_devpath : bytes;
}.

Definition no_vars : found_vars :=
  {| fv_class := None; fv_subclass := None; fv_protocol := None; fv_serial_index := None; fv_serial := None; fv_devpath := [] |}.

Definition set_fv_interface (c s p : option Z) (v : found_vars) : found_vars :=
  {| fv_class := c; fv_subclass := s; fv_protocol := p; fv_serial_index := fv_serial_index v; fv_serial := fv_serial v; fv_devpath := fv_devpath v |}.
Definition set_fv_serial_index (x : option Z) (v : found_vars) : found_vars :=
  {| fv_class := fv_class v; fv_subclass := fv_subclass v; fv_protocol := fv_protocol v; fv_serial_index := x; fv_serial := fv_serial v; fv_devpath := fv_devpath v |}.
Definition set_fv_serial (x : option bytes) (v : found_vars) : found_vars :=
  {| fv_class := fv_class v; fv_subclass := fv_subclass v; fv_protocol := fv_protocol v; fv_serial_index := fv_serial_index v; fv_serial := x; fv_devpath := fv_devpath v |}.
Definition set_fv_devpath (x : bytes) (v : found_vars) : found_vars :=
  {| fv_class := fv_class v; fv_subclass := fv_subclass v; fv_protocol := fv_protocol v; fv_serial_index := fv_serial_index v; fv_serial := fv_serial v; fv_devpath := x |}.

Definition UNWRITTEN : string := "a variable without a value".
Definition PAST_LANGUAGES : string := "languages[lang] behind the array".

Section UsbOsx.
Context {E : Type} {K : Kernel E} {B : Build} {OS : Os E} {LB : LibBase} {MS : MacState E} {IO : IoKit E}.
Abbreviation W := (world E).

(** Reading a variable. *)
Definition value {S A} (v : option A) : M S A := match v with Some a => ret a | None => crash UNWRITTEN end.

Definition load_mac (h : Z) : M E mac_handle :=
  fun e => match ms_objects (mac_of e) !! h with Some x => Done x e | None => Crash "dangling usb_handle" end.
Definition upd_mac (f : mac_state -> mac_state) : M E unit := modify (fun e => put_mac (f (mac_of e)) e).
Definition upd_mac_handle (h : Z) (f : mac_handle -> mac_handle) : M E unit :=
  let* x := load_mac h in upd_mac (fun u => set_ms_objects (<[h := f x]> (ms_objects u)) u).

(** ** The handles *)

Fixpoint mark_known (devpath : bytes) (l : list Z) : M E bool :=
  match l with
  | [] => ret false
  | usb :: rest =>
      let* x := load_mac usb in
      if bool_decide (mh_devpath x = devpath) then upd_mac_handle usb (set_mh_mark true) ;;; ret true else mark_known devpath rest
  end.

Definition IsKnownDevice (devpath : bytes) : M E bool :=
  let* l := gets (fun e => ms_handles (mac_of e)) in mark_known devpath l.

Definition usb_kick_locked (handle : Z) : M E unit :=
  let* x := load_mac handle in
  when (negb (mh_dead x)) (
    upd_mac_handle handle (set_mh_dead true) ;;;
    match mh_interface x with
    | None => crash "null pointer"
    | Some i => modify (io_close i) ;;; modify (io_release i)
    end).

Definition usb_kick (handle : Z) : M E unit := usb_kick_locked handle.

Definition kick_or_unmark (usb : Z) : M E unit :=
  let* x := load_mac usb in
  if negb (mh_mark x) then usb_kick_locked usb else upd_mac_handle usb (set_mh_mark false).

Definition KickDisconnectedDevices : M E unit :=
  let* l := gets (fun e => ms_handles (mac_of e)) in iter_list kick_or_unmark l.

(** The address of the new object. *)
Definition AddDevice (handle : mac_handle) : M E Z :=
  let* h := gets (fun e => ms_next (mac_of e)) in
  upd_mac (fun u => {| ms_objects := <[h := set_mh_mark true handle]> (ms_objects u); ms_next := ms_next u + 1; ms_handles := ms_handles u ++ [h];
                       ms_inited := ms_inited u |}) ;;;
  ret h.

(** The object goes with its entry. *)
Definition usb_close (handle : Z) : M E unit :=
  let* l := gets (fun e => ms_handles (mac_of e)) in
  when (bool_decide (handle ∈ l)) (
    upd_mac (fun u => set_ms_objects (delete handle (ms_objects u)) (set_ms_handles (filter (fun x => x <> handle) (ms_handles u)) u))).

Definition usb_get_max_packet_size (handle : Z) : M E Z := let* x := load_mac handle in ret (mh_max_packet_size x).

(** ** An interface of adb *)

Definition ClearPipeStallBothEnds (interface bulkEp : Z) : M E bool := usb_call (io_clear_both_ends interface bulkEp).

(** An endpoint; [None]: what goes on at [err_get_pipe_props]. *)
Definition use_pipe (interface endpoint : Z) (handle : mac_handle) : M E (option mac_handle) :=
  let* properties := gets (io_pipe interface endpoint) in
  match properties with
  | None => ret None
  | Some p =>
      if negb (pp_transfer_type p =? kUSBBulk)%Z then ret (Some handle) else
      let handle := if (pp_direction p =? kUSBIn)%Z then set_mh_pipes endpoint (mh_bulkOut handle) handle else handle in
      let* ok := (if (pp_direction p =? kUSBIn)%Z then ClearPipeStallBothEnds interface (mh_bulkIn handle) else ret true) in
      if negb ok then ret None else
      let handle := if (pp_direction p =? kUSBOut)%Z then set_mh_pipes (mh_bulkIn handle) endpoint handle else handle in
      let* ok := (if (pp_direction p =? kUSBOut)%Z then ClearPipeStallBothEnds interface (mh_bulkOut handle) else ret true) in
      if negb ok then ret None else
      ret (Some (set_mh_sizes (u32 (pp_max_packet_size p - 1)) (pp_max_packet_size p) handle))
  end.

(** [endpoint] is a [UInt8]. *)
Fixpoint scan_pipes (fuel : nat) (interface interfaceNumEndpoints endpoint : Z) (handle : mac_handle) : M E (option mac_handle) :=
  if (interfaceNumEndpoints <? endpoint)%Z then ret (Some handle) else
  match fuel with
  | O => no_fuel
  | S f =>
      let* r := use_pipe interface endpoint handle in
      match r with
      | None => ret None
      | Some handle => scan_pipes f interface interfaceNumEndpoints (Z.land (endpoint + 1) 255) handle
      end
  end.

(** The end of [CheckInterface] after an error. *)
Definition check_failed {A} (interface : Z) : M E (option A) := modify (io_close interface) ;;; ret None.

Definition CheckInterface (interface : Z) : M E (option mac_handle) :=
  let* opened := usb_call (io_open interface) in
  if negb opened then ret None else
  let* n := gets (io_endpoints interface) in
  match n with
  | None => check_failed interface
  | Some interfaceNumEndpoints =>
      let* e := get in
      match io_class interface e, io_subclass interface e, io_protocol interface e with
      | Some interfaceClass, Some interfaceSubClass, Some interfaceProtocol =>
          if negb (is_adb_interface interfaceClass interfaceSubClass interfaceProtocol) then check_failed interface else
          let* r := scan_pipes 256 interface interfaceNumEndpoints 1 new_mac_handle in
          match r with
          | None => check_failed interface
          | Some handle => ret (Some (set_mh_interface (Some interface) handle))
          end
      | _, _, _ => check_failed interface
      end
  end.

(** ** The number of a device *)

(** An element of an array of 16 bits that was all zero before [data] came. *)
Definition u16_at (data : bytes) (i : nat) : Z :=
  let at_ k := match data !! k with Some c => byte_val c | None => 0%Z end in (at_ (2 * i)%nat + 256 * at_ (S (2 * i)))%Z.

(** The first word left out, shorts to bytes. *)
Definition serial_text (data : bytes) : bytes :=
  map (fun i => byte_of (u16_at data (S i))) (seq 0 (Z.to_nat ((Zlen data - 1) / 2))).

Definition string_request (index : Z) : Z := Z.lor (Z.shiftl kUSBStringDesc 8) index.

(** From the language at [lang] on, until one has the text. *)
Fixpoint read_serial (fuel : nat) (dev serialIndex langCount : Z) (languages : bytes) (lang : nat) (serial : option bytes) : M E (option bytes) :=
  if (langCount <? Z.of_nat lang)%Z then ret serial else
  match fuel with
  | O => no_fuel
  | S f =>
      check (lang <? 128)%nat PAST_LANGUAGES ;;;
      let* r := usb_call (io_request dev (string_request serialIndex) (u16_at languages lang) 512) in
      match r with
      | Some (c :: rest) => ret (Some (c_str (serial_text (c :: rest))))
      | _ => read_serial f dev serialIndex langCount languages (S lang) serial
      end
  end.

Definition find_serial (dev serialIndex : Z) (serial : option bytes) : M E (option bytes) :=
  let* r := usb_call (io_request dev (string_request 0) 0 256) in
  match r with
  | Some (c :: rest) => read_serial 128 dev serialIndex (u32 (Zlen (c :: rest) - 2) / 2) (c :: rest) 1 serial
  | _ => ret serial
  end.

(** ** The interfaces there are *)

Definition release (r : Z) : M W unit := on_env (modify (io_release r)).

(** A plug-in is only needed to ask for the interface behind it. *)
Definition query (device : bool) (service : Z) : M W (option Z) :=
  let* plugin := on_env (usb_call (io_plugin device service)) in
  release service ;;;
  match plugin with
  | None => ret None
  | Some p => let* r := on_env (usb_call (io_query device p)) in release p ;;; ret r
  end.

(** A call of IOKit that writes a variable, unless it fails. *)
Definition written {A} (f : Z -> E -> option A) (object : Z) (before : option A) : M W (option A) :=
  let* r := gets (fun w => f object (w_env w)) in ret (match r with Some a => Some a | None => before end).

Definition is_adb (v : found_vars) : M W bool :=
  let* c := value (fv_class v) in
  if negb (c =? 255)%Z then ret false else
  let* s := value (fv_subclass v) in
  if negb (s =? 66)%Z then ret false else
  let* p := value (fv_protocol v) in
  ret (p =? 1)%Z.

(** [usb:%uX]. *)
Definition location_path (locationId : Z) : bytes := str "usb:" ++ dec locationId ++ str "X".

(** A device that is not known by its place. *)
Definition add_interface (iface dev : Z) (v : found_vars) : M W found_vars :=
  let* index := written io_serial_index dev (fv_serial_index v) in
  let v := set_fv_serial_index index v in
  let* serialIndex := value index in
  let* serial := (if (0 <? serialIndex)%Z then on_env (find_serial dev serialIndex (fv_serial v)) else ret (fv_serial v)) in
  let v := set_fv_serial serial v in
  release dev ;;;
  let* devpath := (if bool_decide (fv_devpath v = []) then value serial else ret (fv_devpath v)) in
  let v := set_fv_devpath devpath v in
  let* known := on_env (IsKnownDevice devpath) in
  if known : bool then on_env (modify (io_close iface)) ;;; release iface ;;; ret v else
  let* handle := on_env (CheckInterface iface) in
  match handle with
  | None => release iface ;;; ret v
  | Some handle =>
      let* h := on_env (AddDevice (set_mh_devpath devpath handle)) in
      let* s := value serial in
      register_usb_transport h (Some s) (Some (c_str devpath)) true ;;;
      ret v
  end.

(** One turn of the loop. *)
Definition interface_added (usbInterface : Z) (v : found_vars) : M W found_vars :=
  let* iface := query false usbInterface in
  match iface with
  | None => ret v
  | Some iface =>
      let* c := written io_class iface (fv_class v) in
      let* s := written io_subclass iface (fv_subclass v) in
      let* p := written io_protocol iface (fv_protocol v) in
      let v := set_fv_interface c s p v in
      let* ours := is_adb v in
      if negb ours then release iface ;;; ret v else
      let* usbDevice := on_env (usb_call (io_device iface)) in
      match usbDevice with
      | None => release iface ;;; ret v
      | Some usbDevice =>
          let* dev := query true usbDevice in
          match dev with
          | None => release iface ;;; ret v
          | Some dev =>
              let* locationId := gets (fun w => io_location dev (w_env w)) in
              match locationId with
              | Some locationId =>
                  let v := set_fv_devpath (location_path locationId) v in
                  let* known := on_env (IsKnownDevice (location_path locationId)) in
                  if known : bool then release dev ;;; release iface ;;; ret v else add_interface iface dev v
              | None => add_interface iface dev v
              end
          end
      end
  end.

Fixpoint AndroidInterfaceAdded (fuel : nat) (iterator : Z) (v : found_vars) : M W unit :=
  match fuel with
  | O => no_fuel
  | S f =>
      let* usbInterface := on_env (usb_call (io_next iterator)) in
      match usbInterface with
      | None => ret tt
      | Some usbInterface => let* v := interface_added usbInterface v in AndroidInterfaceAdded f iterator v
      end
  end.

Definition FindUSBDevices (fuel : nat) : M W bool :=
  let* matchingDict := on_env (usb_call io_matching) in
  if negb matchingDict then ret false else
  let* iter := on_env (usb_call io_services) in
  match iter with
  | None => ret false
  | Some iter => AndroidInterfaceAdded fuel iter no_vars ;;; release iter ;;; ret true
  end.

(** A turn of the thread. *)
Definition RunLoopThread_turn (fuel : nat) : M W unit :=
  let* _ := FindUSBDevices fuel in
  on_env KickDisconnectedDevices ;;;
  on_env (upd_mac (set_ms_inited true)).

(** ** Transfers *)

Definition usb_write (handle : option Z) (data : bytes) : M E (option unit) :=
  let len := Zlen data in
  if (len =? 0)%Z then ret (Some tt) else
  match handle with
  | None => ret None
  | Some h =>
      let* x := load_mac h in
      if mh_dead x then ret None else
      match mh_interface x with
      | None => ret None
      | Some interface =>
          if (mh_bulkOut x =? 0)%Z then ret None else
          let* result := usb_call (io_write interface (mh_bulkOut x) data) in
          let* result := (if result && negb (mh_zero_mask x =? 0)%Z && (Z.land len (mh_zero_mask x) =? 0)%Z
                          then usb_call (io_write interface (mh_bulkOut x) []) else ret result) in
          ret (if result : bool then Some tt else None)
      end
  end.

(** After a stall it is tried once more, for as much as the count says then. *)
Definition usb_read (handle : option Z) (len : Z) : M E (option bytes) :=
  if (len =? 0)%Z then ret (Some []) else
  match handle with
  | None => ret None
  | Some h =>
      let* x := load_mac h in
      if mh_dead x then ret None else
      match mh_interface x with
      | None => ret None
      | Some interface =>
          if (mh_bulkIn x =? 0)%Z then ret None else
          let* result := usb_call (io_read interface (mh_bulkIn x) len) in
          let* result := match result with
                         | PipeStalled numBytes => modify (io_clear_stall interface (mh_bulkIn x)) ;;; usb_call (io_read interface (mh_bulkIn x) numBytes)
                         | _ => ret result
                         end in
          ret (match result with PipeData data => Some data | _ => None end)
      end
  end.

End UsbOsx.

(** ** What is held

    [held]: the references that are not released, [opened]: the interfaces that
    are open, [left]: how many interfaces the iterator still has. *)
Class IoLaws (E : Type) `{Os E, MacState E, IoKit E} (held opened : E -> gset Z) (left : E -> nat) (most : nat) := {
  mac_of_put u (e : E) : mac_of (put_mac u e) = u;
  held_put u (e : E) : held (put_mac u e) = held e;
  opened_put u (e : E) : opened (put_mac u e) = opened e;
  left_put u (e : E) : left (put_mac u e) = left e;
  law_matching (e e' : E) b : io_matching e = (b, e') -> mac_of e' = mac_of e /\ held e' = held e /\ opened e' = opened e;
  law_services (e e' : E) r : io_services e = (r, e') -> mac_of e' = mac_of e /\ opened e' = opened e /\
    match r with Some i => i ∉ held e /\ held e' = {[i]} ∪ held e /\ left e' <= most | None => held e' = held e end;
  law_next it (e e' : E) r : io_next it e = (r, e') -> mac_of e' = mac_of e /\ opened e' = opened e /\
    match r with Some s => s ∉ held e /\ held e' = {[s]} ∪ held e /\ left e' < left e | None => held e' = held e end;
  law_plugin b s (e e' : E) r : io_plugin b s e = (r, e') -> mac_of e' = mac_of e /\ opened e' = opened e /\ left e' = left e /\
    match r with Some p => p ∉ held e /\ held e' = {[p]} ∪ held e | None => held e' = held e end;
  law_query b s (e e' : E) r : io_query b s e = (r, e') -> mac_of e' = mac_of e /\ opened e' = opened e /\ left e' = left e /\
    match r with Some p => p ∉ held e /\ held e' = {[p]} ∪ held e | None => held e' = held e end;
  law_device i (e e' : E) r : io_device i e = (r, e') -> mac_of e' = mac_of e /\ opened e' = opened e /\ left e' = left e /\
    match r with Some p => p ∉ held e /\ held e' = {[p]} ∪ held e | None => held e' = held e end;
  law_release r (e : E) : mac_of (io_release r e) = mac_of e /\ opened (io_release r e) = opened e /\ left (io_release r e) = left e /\
    held (io_release r e) = held e ∖ {[r]};
  law_open i (e e' : E) b : io_open i e = (b, e') -> mac_of e' = mac_of e /\ held e' = held e /\ left e' = left e /\
    opened e' = (if b then {[i]} ∪ opened e else opened e);
  law_close i (e : E) : mac_of (io_close i e) = mac_of e /\ held (io_close i e) = held e /\ left (io_close i e) = left e /\
    opened (io_close i e) = opened e ∖ {[i]};
  law_request d v i n (e e' : E) r : io_request d v i n e = (r, e') ->
    mac_of e' = mac_of e /\ held e' = held e /\ opened e' = opened e /\ left e' = left e;
  law_clear_both_ends i p (e e' : E) r : io_clear_both_ends i p e = (r, e') ->
    mac_of e' = mac_of e /\ held e' = held e /\ opened e' = opened e /\ left e' = left e;
  law_endpoints i (e : E) n : io_endpoints i e = Some n -> (n <= 30)%Z;
  law_tmsg fd m (e e' : E) ok : tmsg_put fd m e = (ok, e') ->
    ok = true /\ mac_of e' = mac_of e /\ held e' = held e /\ opened e' = opened e /\ left e' = left e;
}.

Definition mac_handle_at (u : mac_state) (h : Z) (x : mac_handle) : Prop := h ∈ ms_handles u /\ ms_objects u !! h = Some x.

(** The interface of a handle that is not dead. *)
Definition owned (u : mac_state) (r : Z) : Prop := exists h x, mac_handle_at u h x /\ mh_dead x = false /\ mh_interface x = Some r.

Record mac_ok (u : mac_state) : Prop := {
  mo_live h : h ∈ ms_handles u -> is_Some (ms_objects u !! h);
  mo_fresh h : is_Some (ms_objects u !! h) -> (h < ms_next u)%Z;
  mo_nodup : NoDup (ms_handles u);
  mo_interface h x : mac_handle_at u h x -> mh_dead x = false -> is_Some (mh_interface x);
  mo_distinct h h' x x' : mac_handle_at u h x -> mac_handle_at u h' x' -> mh_dead x = false -> mh_dead x' = false ->
    mh_interface x = mh_interface x' -> h = h';
}.

(** What a scan has made of [u0] so far. *)
Record mac_found (u0 u : mac_state) : Prop := {
  mf_ok : mac_ok u;
  mf_old h x : mac_handle_at u0 h x -> exists b, mac_handle_at u h (set_mh_mark b x);
  mf_new h x : mac_handle_at u h x -> h ∉ ms_handles u0 -> mh_mark x = true /\ mh_dead x = false;
}.

(** Besides what the handles own, [X] is held and [O] open. *)
Record mac_holds (u : mac_state) (X O hs os : gset Z) : Prop := {
  mh_held r : r ∈ hs <-> r ∈ X \/ owned u r;
  mh_extra r : r ∈ X -> ~ owned u r;
  mh_opened r : r ∈ os <-> r ∈ O \/ owned u r;
  mh_extra_open r : r ∈ O -> ~ owned u r;
}.

(** *** Changing a handle *)

Definition put_mac_object (h : Z) (y : mac_handle) (u : mac_state) : mac_state := set_ms_objects (<[h := y]> (ms_objects u)) u.

Lemma put_mac_object_at u h x y k z : mac_handle_at u h x ->
  mac_handle_at (put_mac_object h y u) k z <-> (k = h /\ z = y) \/ (k <> h /\ mac_handle_at u k z).
Proof.
  intros [Hin Hx]. unfold mac_handle_at. cbn. destruct (decide (h = k)) as [->|Hne].
  - rewrite lookup_insert_eq. naive_solver.
  - rewrite lookup_insert_ne by done. naive_solver.
Qed.

(** A handle that is alive afterwards was so before, with the same interface. *)
Lemma put_mac_object_ok u h x y : mac_handle_at u h x -> (mh_dead y = false -> mh_dead x = false) -> mh_interface y = mh_interface x ->
  mac_ok u -> mac_ok (put_mac_object h y u).
Proof.
  intros Hx Hd Hi [H1 H2 H3 H4 H5]. split.
  - intros k Hk. cbn in *. destruct (decide (h = k)) as [->|]; [by rewrite lookup_insert_eq|by rewrite lookup_insert_ne; [apply H1|]].
  - intros k. cbn. destruct (decide (h = k)) as [->|]; [intros _; apply H2; exists x; apply Hx|by rewrite lookup_insert_ne; [apply H2|]].
  - done.
  - intros k z [[-> ->]|[_ Hz]]%(put_mac_object_at _ _ _ _ _ _ Hx) Ha; [rewrite Hi; apply (H4 h x); auto|by apply (H4 k)].
  - intros k k' z z' Hk%(put_mac_object_at _ _ _ _ _ _ Hx) Hk'%(put_mac_object_at _ _ _ _ _ _ Hx) Ha Ha' Heq.
    destruct Hk as [[-> ->]|[_ Hz]], Hk' as [[-> ->]|[_ Hz']]; [done| | |by apply (H5 k k' z z')].
    + rewrite Hi in Heq. apply (H5 h k' x z'); auto.
    + rewrite Hi in Heq. apply (H5 k h z x); auto.
Qed.

Lemma put_mac_object_owned u h x y r : mac_handle_at u h x -> mh_dead y = mh_dead x -> mh_interface y = mh_interface x ->
  owned (put_mac_object h y u) r <-> owned u r.
Proof.
  intros Hx Hd Hi. split; intros (k & z & Hz & Hr).
  - apply (put_mac_object_at _ _ _ _ _ _ Hx) in Hz as [[-> ->]|[_ Hz]]; [exists h, x; rewrite <- Hd, <- Hi; by split|by exists k, z].
  - destruct (decide (k = h)) as [->|Hne].
    + exists h, y. split; [apply (put_mac_object_at _ _ _ _ _ _ Hx); by left|]. destruct Hx as [_ Hx], Hz as [_ Hz]. rewrite Hx in Hz. injection Hz as <-.
      by rewrite Hd, Hi.
    + exists k, z. split; [apply (put_mac_object_at _ _ _ _ _ _ Hx); by right|done].
Qed.

Lemma mac_holds_owned u u' X O hs os : (forall r, owned u' r <-> owned u r) -> mac_holds u X O hs os -> mac_holds u' X O hs os.
Proof. intros H [H1 H2 H3 H4]. split; intros r; rewrite H; auto. Qed.

(** A mark does not change who owns what. *)
Lemma mac_found_mark u0 u h x b : mac_found u0 u -> mac_handle_at u h x -> (h ∉ ms_handles u0 -> b = true) ->
  mac_found u0 (put_mac_object h (set_mh_mark b x) u).
Proof.
  intros [H1 H2 H3] Hx Hb. split.
  - by apply (put_mac_object_ok u h x).
  - intros k z Hz. destruct (H2 _ _ Hz) as [b' Hk]. destruct (decide (k = h)) as [->|Hne].
    + exists b. apply (put_mac_object_at _ _ _ _ _ _ Hx). left. split; [done|]. destruct Hx as [_ Hx], Hk as [_ Hk]. rewrite Hx in Hk. by injection Hk as ->.
    + exists b'. apply (put_mac_object_at _ _ _ _ _ _ Hx). by right.
  - intros k z [[-> ->]|[_ Hz]]%(put_mac_object_at _ _ _ _ _ _ Hx) Hn; [|by apply (H3 k)]. destruct (H3 _ _ Hx Hn). split; [by apply Hb|done].
Qed.

(** *** A new handle *)

Definition with_mac_handle (x : mac_handle) (u : mac_state) : mac_state :=
  {| ms_objects := <[ms_next u := x]> (ms_objects u); ms_next := ms_next u + 1; ms_handles := ms_handles u ++ [ms_next u]; ms_inited := ms_inited u |}.

Lemma with_mac_handle_at x u k z : mac_ok u ->
  mac_handle_at (with_mac_handle x u) k z <-> mac_handle_at u k z \/ (k = ms_next u /\ z = x).
Proof.
  intros Hok. unfold mac_handle_at. cbn. rewrite elem_of_app, list_elem_of_singleton. destruct (decide (ms_next u = k)) as [<-|Hne].
  - rewrite lookup_insert_eq. split; [intros [_ [= <-]]; by right|]. intros [[Hin _]|[_ ->]]; [|by split; [right|]].
    apply (mo_live _ Hok), (mo_fresh _ Hok) in Hin. lia.
  - rewrite lookup_insert_ne by done. split; [intros [[Hin| ->] Hz]; [by left|done]|]. intros [[Hin Hz]|[-> _]]; [by split; [left|]|done].
Qed.

Lemma new_mac_handle_out u : mac_ok u -> ms_next u ∉ ms_handles u.
Proof. intros Hok Hin%(mo_live _ Hok)%(mo_fresh _ Hok). lia. Qed.

Lemma with_mac_handle_found u0 u x : mac_found u0 u -> (forall r, mh_interface x = Some r -> ~ owned u r) ->
  is_Some (mh_interface x) -> mh_mark x = true -> mh_dead x = false ->
  mac_found u0 (with_mac_handle x u).
Proof.
  intros [H1 H2 H3] Hown Hi Hm Hd. pose proof H1 as [O1 O2 O3 O4 O5]. split.
  - split.
    + intros h [Hin| ->%list_elem_of_singleton]%elem_of_app; cbn; [|by rewrite lookup_insert_eq].
      destruct (decide (ms_next u = h)) as [->|]; [by rewrite lookup_insert_eq|by rewrite lookup_insert_ne; [apply O1|]].
    + intros h. cbn. destruct (decide (ms_next u = h)) as [->|]; [lia|]. rewrite lookup_insert_ne by done. intros Hs%O2. lia.
    + apply NoDup_app. split_and!; [done| |apply NoDup_singleton]. intros h Hin ->%list_elem_of_singleton. by apply (new_mac_handle_out u).
    + intros h z [Hz|[-> ->]]%with_mac_handle_at Hz'; [by apply (O4 h)|done|done].
    + intros h h' z z' Hz%with_mac_handle_at Hz'%with_mac_handle_at Ha Ha' Heq; [|done..].
      destruct Hz as [Hz|[-> ->]], Hz' as [Hz'|[-> ->]]; [by apply (O5 h h' z z')| | |done]; exfalso.
      * destruct Hi as [i Hi]. apply (Hown i Hi). exists h, z. split_and!; [done|done|congruence].
      * destruct Hi as [i Hi]. apply (Hown i Hi). exists h', z'. split_and!; [done|done|congruence].
  - intros h z Hz. destruct (H2 _ _ Hz) as [b Hb]. exists b. apply with_mac_handle_at; [done|by left].
  - intros h z [Hz|[-> ->]]%with_mac_handle_at Hn; [by apply (H3 h)|done|done].
Qed.

Lemma with_mac_handle_owned x u i r : mac_ok u -> mh_interface x = Some i -> mh_dead x = false ->
  owned (with_mac_handle x u) r <-> r = i \/ owned u r.
Proof.
  intros Hok Hi Hd. split.
  - intros (h & z & [Hz|[-> ->]]%with_mac_handle_at & Hr); [right; by exists h, z|left; destruct Hr; congruence|done].
  - intros [->|(h & z & Hz & Hr)]; [exists (ms_next u), x|exists h, z]; (split; [apply with_mac_handle_at; [done|]|]); auto.
Qed.

(** The interface that is open goes to the handle. *)
Lemma with_mac_handle_holds x u i X hs os : mac_ok u -> mh_interface x = Some i -> mh_dead x = false ->
  mac_holds u ({[i]} ∪ X) {[i]} hs os -> i ∉ X -> mac_holds (with_mac_handle x u) X ∅ hs os.
Proof.
  intros Hok Hi Hd [H1 H2 H3 H4] Hn. split; intros r; rewrite (with_mac_handle_owned x u i) by done.
  - rewrite H1. set_solver.
  - intros Hr [->|Ho]; [done|]. apply (H2 r); [set_solver|done].
  - rewrite H3. set_solver.
  - set_solver.
Qed.

(** ** A turn of the thread *)

Section MacTurn.
Context {E : Type} {K : Kernel E} {B : Build} {OS : Os E} {LB : LibBase} {MS : MacState E} {IO : IoKit E}.
Context {held opened : E -> gset Z} {left : E -> nat} {most : nat} {IL : IoLaws E held opened left most}.
Abbreviation W := (world E).

(** The two ways the code may go wrong. *)
Definition odd (why : string) : Prop := why = UNWRITTEN \/ why = PAST_LANGUAGES.

Abbreviation iwp := (cwp False odd).

Definition sound (u0 : mac_state) (X O : gset Z) (e : E) : Prop :=
  mac_found u0 (mac_of e) /\ mac_holds (mac_of e) X O (held e) (opened e).

Lemma iwp_usb_call {A} (f : E -> A * E) (Q : A -> E -> Prop) e : (forall a e', f e = (a, e') -> Q a e') -> iwp (usb_call f) Q e.
Proof. unfold cwp, usb_call. intros H. destruct (f e) as [a e']. by apply H. Qed.

Lemma iwp_on_env {A} (m : M E A) (Q : A -> W -> Prop) (w : W) : iwp m (fun a e => Q a (set_w_env e w)) (w_env w) -> iwp (on_env m) Q w.
Proof. unfold cwp, on_env. by destruct (m (w_env w)). Qed.

Lemma iwp_value {S A} (v : option A) (Q : A -> S -> Prop) s : (forall a, v = Some a -> Q a s) -> iwp (value v) Q s.
Proof. intros H. destruct v as [a|]; [by apply cwp_ret, H|by left]. Qed.

Lemma iwp_load_mac h x (Q : mac_handle -> E -> Prop) e : ms_objects (mac_of e) !! h = Some x -> Q x e -> iwp (load_mac h) Q e.
Proof. intros Hx HQ. unfold cwp, load_mac. by rewrite Hx. Qed.

Lemma iwp_upd_mac f (Q : unit -> E -> Prop) e : Q tt (put_mac (f (mac_of e)) e) -> iwp (upd_mac f) Q e.
Proof. intros H. by apply cwp_modify. Qed.

Lemma iwp_upd_mac_handle h x f (Q : unit -> E -> Prop) e : ms_objects (mac_of e) !! h = Some x ->
  Q tt (put_mac (put_mac_object h (f x) (mac_of e)) e) -> iwp (upd_mac_handle h f) Q e.
Proof. intros Hx HQ. apply cwp_bind, (iwp_load_mac h x); [done|]. by apply iwp_upd_mac. Qed.

(** *** What IOKit gives and takes *)

Lemma sound_same u0 X O e e' : mac_of e' = mac_of e -> held e' = held e -> opened e' = opened e -> sound u0 X O e -> sound u0 X O e'.
Proof. unfold sound. by intros -> -> ->. Qed.

Lemma sound_extra u0 X X' O O' e : X = X' -> O = O' -> sound u0 X O e -> sound u0 X' O' e.
Proof. by intros -> ->. Qed.

Lemma sound_took u0 X O r e e' : mac_of e' = mac_of e -> opened e' = opened e -> r ∉ held e -> held e' = {[r]} ∪ held e ->
  sound u0 X O e -> r ∉ X /\ sound u0 ({[r]} ∪ X) O e'.
Proof.
  intros Hm Ho Hn Hh [H1 [H2 H3 H4 H5]]. rewrite H2 in Hn. split; [naive_solver|]. unfold sound. rewrite Hm, Ho, Hh. split; [done|]. split; [| |done..].
  - intros x. rewrite elem_of_union, H2, elem_of_union. naive_solver.
  - intros x [->%elem_of_singleton|Hx]%elem_of_union; naive_solver.
Qed.

Lemma sound_release u0 X O r e : r ∈ X -> sound u0 X O e -> sound u0 (X ∖ {[r]}) O (io_release r e).
Proof.
  intros Hr [H1 [H2 H3 H4 H5]]. destruct (law_release r e) as (L1 & L2 & _ & L4). unfold sound. rewrite L1, L2, L4. split; [done|]. split; [| |done..].
  - intros x. rewrite elem_of_difference, H2, elem_of_difference, elem_of_singleton. split; [naive_solver|].
    intros [[Hx Hne]|Ho]; [naive_solver|]. split; [by right|]. intros ->. by apply (H3 r).
  - intros x [Hx _]%elem_of_difference. by apply H3.
Qed.

Lemma sound_close u0 X O i e : i ∈ X -> sound u0 X O e -> sound u0 X (O ∖ {[i]}) (io_close i e).
Proof.
  intros Hi [H1 [H2 H3 H4 H5]]. destruct (law_close i e) as (L1 & L2 & _ & L4). unfold sound. rewrite L1, L2, L4. split; [done|]. split; [done..| |].
  - intros x. rewrite elem_of_difference, H4, elem_of_difference, elem_of_singleton. split; [naive_solver|].
    intros [[Hx Hne]|Ho]; [naive_solver|]. split; [by right|]. intros ->. by apply (H3 i).
  - intros x [Hx _]%elem_of_difference. by apply H5.
Qed.

Lemma sound_open u0 X O i e e' : i ∈ X -> mac_of e' = mac_of e -> held e' = held e -> opened e' = {[i]} ∪ opened e ->
  sound u0 X O e -> sound u0 X ({[i]} ∪ O) e'.
Proof.
  intros Hi Hm Hh Ho [H1 [H2 H3 H4 H5]]. unfold sound. rewrite Hm, Hh, Ho. split; [done|]. split; [done..| |].
  - intros x. rewrite elem_of_union, H4, elem_of_union. naive_solver.
  - intros x [->%elem_of_singleton|Hx]%elem_of_union; [by apply H3|by apply H5].
Qed.

(** [P] until a step of the scan is done: how many interfaces are left does not
    grow. *)
Definition scans (u0 : mac_state) (X O : gset Z) (n : nat) (e : E) : Prop := sound u0 X O e /\ left e = n.

(** *** The handles *)

Lemma IsKnownDevice_scans u0 X O n devpath e : scans u0 X O n e -> iwp (IsKnownDevice devpath) (fun _ e' => scans u0 X O n e') e.
Proof.
  intros [[Hf Hh] Hl]. apply cwp_bind, cwp_gets. assert (Hall : forall h, h ∈ ms_handles (mac_of e) -> h ∈ ms_handles (mac_of e)) by done.
  revert Hall. generalize (ms_handles (mac_of e)) at 1 3. intros l. induction l as [|h l IH]; intros Hall; cbn [mark_known]; [by apply cwp_ret|].
  destruct (mo_live _ (mf_ok _ _ Hf) h) as [x Hx]; [apply Hall; left|]. apply cwp_bind, (iwp_load_mac h x); [done|].
  assert (Hat : mac_handle_at (mac_of e) h x) by (split; [apply Hall; left|done]).
  case_bool_decide; [|apply IH; intros k Hk; apply Hall; by right]. apply cwp_bind, (iwp_upd_mac_handle h x); [done|]. apply cwp_ret.
  split; [split|].
  - rewrite mac_of_put. by apply mac_found_mark.
  - rewrite mac_of_put, held_put, opened_put. eapply mac_holds_owned; [|done]. intros r. by apply (put_mac_object_owned _ h x).
  - by rewrite left_put.
Qed.

(** *** Opening an interface, and reading the number of a device *)

Lemma scans_same u0 X O n e e' : mac_of e' = mac_of e -> held e' = held e -> opened e' = opened e -> left e' = left e ->
  scans u0 X O n e -> scans u0 X O n e'.
Proof. intros H1 H2 H3 H4 [H5 H6]. split; [by eapply sound_same|congruence]. Qed.

Lemma clear_scans u0 X O n i p (b : bool) e : scans u0 X O n e ->
  iwp (if b then ClearPipeStallBothEnds i p else ret true) (fun _ e' => scans u0 X O n e') e.
Proof.
  intros H. destruct b; [|by apply cwp_ret]. apply iwp_usb_call. intros a e' (? & ? & ? & ?)%law_clear_both_ends. by eapply scans_same.
Qed.

Lemma use_pipe_scans u0 X O n i p x e : scans u0 X O n e ->
  iwp (use_pipe i p x) (fun r e' => scans u0 X O n e' /\ match r with Some y => mh_dead y = mh_dead x | None => True end) e.
Proof.
  intros H. apply cwp_bind, cwp_gets. case_match; [|by apply cwp_ret]. case_match; [by apply cwp_ret|].
  set (x1 := if (_ =? kUSBIn)%Z then _ else _). apply cwp_bind. eapply cwp_mono; [by apply clear_scans|]. intros ok e1 Hs1. destruct ok; [|by apply cwp_ret].
  set (x2 := if (_ =? kUSBOut)%Z then _ else _). apply cwp_bind. eapply cwp_mono; [by apply clear_scans|]. intros ok e2 Hs2. destruct ok; [|by apply cwp_ret].
  apply cwp_ret. split; [done|]. cbn. unfold x2, x1. by do 2 case_match.
Qed.

(** With less than 255 endpoints the loop ends. *)
Lemma scan_pipes_scans u0 X O n i num fuel p x e : scans u0 X O n e -> (0 <= p)%Z -> (num < 255)%Z -> (num < p + Z.of_nat fuel)%Z ->
  iwp (scan_pipes fuel i num p x) (fun r e' => scans u0 X O n e' /\ match r with Some y => mh_dead y = mh_dead x | None => True end) e.
Proof.
  intros H Hp Hnum. revert p x e H Hp. induction fuel as [|f IH]; intros p x e H Hp Hf; cbn [scan_pipes].
  { rewrite (proj2 (Z.ltb_lt _ _)) by lia. by apply cwp_ret. }
  destruct (num <? p)%Z eqn:Hlt; [by apply cwp_ret|]. apply Z.ltb_ge in Hlt. apply cwp_bind. eapply cwp_mono; [by apply use_pipe_scans|].
  intros [y|] e1 [H1 Hy]; [|by apply cwp_ret]. change 255%Z with (Z.ones 8). rewrite Z.land_ones by lia. rewrite Z.mod_small by lia.
  eapply cwp_mono; [apply IH; [done|lia..]|]. intros [z|] e2 [H2 Hz]; [split; [done|congruence]|done].
Qed.

(** The interface stays open for the handle that is made of it. *)
Lemma CheckInterface_scans u0 X n i e : i ∈ X -> scans u0 X ∅ n e ->
  iwp (CheckInterface i) (fun r e' => match r with
    | Some x => scans u0 X {[i]} n e' /\ mh_dead x = false /\ mh_interface x = Some i
    | None => scans u0 X ∅ n e'
    end) e.
Proof.
  intros Hi [Hs Hl]. apply cwp_bind, iwp_usb_call. intros ok e1 (O1 & O2 & O3 & O4)%law_open. destruct ok; cbn [negb].
  2:{ apply cwp_ret. by eapply scans_same. }
  assert (H1 : scans u0 X {[i]} n e1).
  { split; [|congruence]. eapply sound_extra; [done|apply union_empty_r_L|]. by apply (sound_open u0 X ∅ i e). }
  assert (Hfail : forall e2, scans u0 X {[i]} n e2 -> iwp (check_failed (A := mac_handle) i) (fun r e' => match r with
    | Some x => scans u0 X {[i]} n e' /\ mh_dead x = false /\ mh_interface x = Some i
    | None => scans u0 X ∅ n e'
    end) e2).
  { intros e2 [H2 H3]. apply cwp_bind, cwp_modify, cwp_ret. split; [|by destruct (law_close i e2) as (_ & _ & -> & _)].
    eapply sound_extra; [done| |by apply (sound_close u0 X {[i]} i)]. set_solver. }
  apply cwp_bind, cwp_gets. destruct (io_endpoints i e1) as [num|] eqn:Hnum; [|by apply Hfail]. apply law_endpoints in Hnum.
  apply cwp_bind, cwp_get. case_match; [|by apply Hfail]. case_match; [|by apply Hfail]. case_match; [|by apply Hfail].
  case_match; [by apply Hfail|]. apply cwp_bind. eapply cwp_mono; [apply (scan_pipes_scans u0 X {[i]} n i num 256 1 new_mac_handle); [done|lia..]|].
  intros [x|] e2 [Hs2 Hd]; [|by apply Hfail]. by apply cwp_ret.
Qed.

Lemma read_serial_scans u0 X O n dev index count languages fuel lang serial e : 128 < lang + fuel -> lang <= 128 -> scans u0 X O n e ->
  iwp (read_serial fuel dev index count languages lang serial) (fun _ e' => scans u0 X O n e') e.
Proof.
  revert lang e. induction fuel as [|f IH]; intros lang e Hf Hle H; cbn [read_serial]; (case_match; [by apply cwp_ret|]).
  - lia.
  - apply cwp_bind, cwp_check; [by right|]. intros Hlang%Nat.ltb_lt. apply cwp_bind, iwp_usb_call. intros r e1 (L1 & L2 & L3 & L4)%law_request.
    assert (H1 : scans u0 X O n e1) by by eapply scans_same. destruct r as [[|c rest]|]; [apply IH; [lia..|done]|by apply cwp_ret|apply IH; [lia..|done]].
Qed.

Lemma find_serial_scans u0 X O n dev index serial e : scans u0 X O n e -> iwp (find_serial dev index serial) (fun _ e' => scans u0 X O n e') e.
Proof.
  intros H. apply cwp_bind, iwp_usb_call. intros r e1 (L1 & L2 & L3 & L4)%law_request. assert (H1 : scans u0 X O n e1) by by eapply scans_same.
  destruct r as [[|c rest]|]; [by apply cwp_ret| |by apply cwp_ret]. apply read_serial_scans; [lia..|done].
Qed.

(** *** In the world *)

Definition wscans u0 X O n (w : W) : Prop := scans u0 X O n (w_env w).

Definition mac_view (w : W) := (mac_of (w_env w), held (w_env w), opened (w_env w), left (w_env w)).

Lemma register_returns h s d b (w : W) : exists w', register_usb_transport h s d b w = Done tt w'.
Proof.
  unfold register_usb_transport, new_transport, init_usb_transport, alloc, upd_transport, load_transport, register_transport, transport_write_action.
  unfold bind, get, modify, ret. cbn. rewrite lookup_insert_eq. cbn. rewrite lookup_insert_eq. cbn.
  destruct (tmsg_put _ _ _) as [ok e] eqn:Ht. apply law_tmsg in Ht as [-> _]. by eexists.
Qed.

Lemma register_scans u0 X O n h s d b w : wscans u0 X O n w -> iwp (register_usb_transport h s d b) (fun _ w' => wscans u0 X O n w') w.
Proof.
  intros H. destruct (register_returns h s d b w) as [w' Hw]. unfold cwp. rewrite Hw.
  assert (Hv : mac_view w' = mac_view w).
  { apply (keeps_register mac_view) in Hw; [done|intros f x Hf _; unfold mac_view; by rewrite Hf|].
    intros fd m ok e x (_ & E1 & E2 & E3 & E4)%law_tmsg. unfold mac_view. cbn. by rewrite E1, E2, E3, E4. }
  injection Hv as V1 V2 V3 V4. by apply (scans_same u0 X O n (w_env w)).
Qed.

Lemma release_scans u0 X O n r w (Q : unit -> W -> Prop) : r ∈ X -> wscans u0 X O n w ->
  (forall w', wscans u0 (X ∖ {[r]}) O n w' -> Q tt w') -> iwp (release r) Q w.
Proof.
  intros Hr [H1 H2] HQ. apply iwp_on_env, cwp_modify, HQ. split; [by apply sound_release|]. cbn. by destruct (law_release r (w_env w)) as (_ & _ & -> & _).
Qed.

Lemma written_scans {A} u0 X O n (f : Z -> E -> option A) i before w : wscans u0 X O n w -> iwp (written f i before) (fun _ w' => wscans u0 X O n w') w.
Proof. intros H. by apply cwp_bind, cwp_gets, cwp_ret. Qed.

Lemma scans_took u0 X O n r e e' : mac_of e' = mac_of e -> opened e' = opened e -> left e' = left e -> r ∉ held e -> held e' = {[r]} ∪ held e ->
  scans u0 X O n e -> r ∉ X /\ scans u0 ({[r]} ∪ X) O n e'.
Proof. intros H1 H2 H3 H4 H5 [H6 H7]. destruct (sound_took u0 X O r e e' H1 H2 H4 H5 H6). split; [done|]. split; [done|congruence]. Qed.

Lemma wscans_extra u0 X X' O n w : X = X' -> wscans u0 X O n w -> wscans u0 X' O n w.
Proof. by intros ->. Qed.

Lemma query_scans u0 X O n b s w : s ∈ X -> wscans u0 X O n w ->
  iwp (query b s) (fun r w' => match r with
    | Some i => i ∉ X ∖ {[s]} /\ wscans u0 ({[i]} ∪ X ∖ {[s]}) O n w'
    | None => wscans u0 (X ∖ {[s]}) O n w'
    end) w.
Proof.
  intros Hs H. apply cwp_bind, iwp_on_env, iwp_usb_call. intros [p|] e (E1 & E2 & E3 & E4)%law_plugin.
  - destruct E4 as [E4 E5]. destruct (scans_took u0 X O n p (w_env w) e) as [Hp Hw]; [done..|].
    apply cwp_bind, (release_scans u0 ({[p]} ∪ X) O n); [set_solver|done|]. intros w1 H1.
    apply cwp_bind, iwp_on_env, iwp_usb_call. intros [i|] e2 (F1 & F2 & F3 & F4)%law_query.
    + destruct F4 as [F4 F5]. destruct (scans_took u0 (({[p]} ∪ X) ∖ {[s]}) O n i (w_env w1) e2) as [Hi Hw2]; [done..|].
      apply cwp_bind, (release_scans u0 ({[i]} ∪ ({[p]} ∪ X) ∖ {[s]}) O n); [set_solver|done|]. intros w3 H3. apply cwp_ret.
      split; [set_solver|]. eapply wscans_extra; [|done]. apply set_eq. intros x. destruct (decide (x = p)), (decide (x = i)); set_solver.
    + apply cwp_bind, (release_scans u0 (({[p]} ∪ X) ∖ {[s]}) O n); [set_solver|by apply (scans_same _ _ _ _ (w_env w1))|].
      intros w3 H3. apply cwp_ret. eapply wscans_extra; [|done]. set_solver.
  - apply cwp_bind, (release_scans u0 X O n); [done|by apply (scans_same _ _ _ _ (w_env w))|]. intros w1 H1. by apply cwp_ret.
Qed.

(** *** One interface *)

Lemma AddDevice_scans u0 X n i x e : scans u0 ({[i]} ∪ X) {[i]} n e -> i ∉ X -> mh_interface x = Some i -> mh_dead x = false ->
  iwp (AddDevice x) (fun _ e' => scans u0 X ∅ n e') e.
Proof.
  intros [[Hf Hh] Hl] Hn Hi Hd. apply cwp_bind, cwp_gets, cwp_bind, iwp_upd_mac, cwp_ret. pose proof (mf_ok _ _ Hf) as Hok.
  split; [|by rewrite left_put]. unfold sound. rewrite mac_of_put, held_put, opened_put. change {| ms_objects := _ |} with (with_mac_handle (set_mh_mark true x) (mac_of e)).
  split; [|by eapply with_mac_handle_holds].
  apply with_mac_handle_found; [done| |by eexists|done|done]. intros r Hr. cbn in Hr. rewrite Hi in Hr. injection Hr as <-.
  apply (mh_extra _ _ _ _ _ Hh). set_solver.
Qed.

Lemma add_interface_scans u0 iter iface dev n v w : iter <> iface -> dev <> iter -> dev <> iface ->
  wscans u0 ({[dev]} ∪ ({[iface]} ∪ {[iter]})) ∅ n w ->
  iwp (add_interface iface dev v) (fun _ w' => wscans u0 {[iter]} ∅ n w') w.
Proof.
  intros N1 N2 N3 H. apply cwp_bind. eapply cwp_mono; [by apply written_scans|]. intros index w1 H1. apply cwp_bind, iwp_value. intros serialIndex _.
  apply cwp_bind. eapply (cwp_mono _ _ _ (fun _ w' => wscans u0 ({[dev]} ∪ ({[iface]} ∪ {[iter]})) ∅ n w')).
  { destruct (0 <? serialIndex)%Z; [apply iwp_on_env, find_serial_scans, H1|by apply cwp_ret]. }
  intros serial w2 H2. apply cwp_bind; eapply release_scans; [|exact H2|]; [set_solver|]. intros w3 H3.
  assert (H3' : wscans u0 ({[iface]} ∪ {[iter]}) ∅ n w3) by (eapply wscans_extra; [|exact H3]; set_solver). clear H3.
  assert (Hrel : forall (v' : found_vars) w', wscans u0 ({[iface]} ∪ {[iter]}) ∅ n w' -> iwp (release iface ;;; ret v') (fun _ w' => wscans u0 {[iter]} ∅ n w') w').
  { intros v' w' H'. apply cwp_bind; eapply release_scans; [|exact H'|]; [set_solver|]. intros w4 H4. apply cwp_ret. eapply wscans_extra; [|exact H4]. set_solver. }
  apply cwp_bind. eapply (cwp_mono _ _ _ (fun _ w' => w' = w3)); [case_bool_decide; [apply iwp_value; by intros|by apply cwp_ret]|]. intros devpath w4 ->.
  apply cwp_bind, iwp_on_env. eapply cwp_mono; [by apply IsKnownDevice_scans|]. intros [|] e4 H4.
  { apply cwp_bind, iwp_on_env, cwp_modify, Hrel. destruct H4 as [H4 H5]. split; [|cbn; by destruct (law_close iface e4) as (_ & _ & -> & _)].
    apply (sound_extra u0 ({[iface]} ∪ {[iter]}) _ (∅ ∖ {[iface]})); [done|set_solver|]. apply sound_close; [set_solver|exact H4]. }
  apply cwp_bind, iwp_on_env. eapply cwp_mono; [apply (CheckInterface_scans u0 ({[iface]} ∪ {[iter]}) n); [set_solver|exact H4]|].
  intros [x|] e5 H5; [|by apply Hrel]. destruct H5 as (H5 & Hd & Hi). apply cwp_bind, iwp_on_env.
  eapply cwp_mono; [apply (AddDevice_scans u0 {[iter]} n iface); [exact H5|set_solver|done|done]|]. intros h e6 H6.
  apply cwp_bind, iwp_value. intros s _. apply cwp_bind. eapply cwp_mono; [apply (register_scans u0 {[iter]} ∅ n); exact H6|]. intros [] w7 H7. by apply cwp_ret.
Qed.

Lemma interface_added_scans u0 iter service n v w : service <> iter -> wscans u0 ({[service]} ∪ {[iter]}) ∅ n w ->
  iwp (interface_added service v) (fun _ w' => wscans u0 {[iter]} ∅ n w') w.
Proof.
  intros Hne H. apply cwp_bind. eapply cwp_mono; [apply query_scans; [|exact H]; set_solver|].
  intros [iface|] w1 H1; [|apply cwp_ret; eapply wscans_extra; [|exact H1]; set_solver]. destruct H1 as [N1 H1].
  assert (H1' : wscans u0 ({[iface]} ∪ {[iter]}) ∅ n w1) by (eapply wscans_extra; [|exact H1]; set_solver). clear H1.
  assert (Hrel : forall (v' : found_vars) w', wscans u0 ({[iface]} ∪ {[iter]}) ∅ n w' -> iwp (release iface ;;; ret v') (fun _ w' => wscans u0 {[iter]} ∅ n w') w').
  { intros v' w' H'. apply cwp_bind; eapply release_scans; [|exact H'|]; [set_solver|]. intros w4 H4. apply cwp_ret. eapply wscans_extra; [|exact H4]. set_solver. }
  do 3 (apply cwp_bind; eapply cwp_mono; [apply written_scans; exact H1'|]; clear H1'; clear dependent w1; intros ? w1 H1').
  apply cwp_bind. eapply (cwp_mono _ _ _ (fun _ w' => w' = w1)).
  { unfold is_adb. repeat first [by apply cwp_ret | apply cwp_bind, iwp_value; intros ? _ | case_match]. }
  intros [|] w2 ->; [|by apply Hrel]. apply cwp_bind, iwp_on_env, iwp_usb_call. intros [d|] e2 (E1 & E2 & E3 & E4)%law_device.
  2:{ apply Hrel. by apply (scans_same _ _ _ _ (w_env w1)). }
  destruct E4 as [E4 E5]. destruct (scans_took u0 ({[iface]} ∪ {[iter]}) ∅ n d (w_env w1) e2) as [Hd Hw2]; [done..|].
  apply cwp_bind. eapply cwp_mono; [apply (query_scans u0 ({[d]} ∪ ({[iface]} ∪ {[iter]}))); [set_solver|exact Hw2]|].
  assert (Hset : ({[d]} ∪ ({[iface]} ∪ {[iter]})) ∖ {[d]} = {[iface]} ∪ {[iter]} :> gset Z) by set_solver. rewrite Hset.
  intros [dev|] w3 H3; [|by apply Hrel]. destruct H3 as [N3 H3]. apply cwp_bind, cwp_gets.
  assert (Hadd : forall v' : found_vars, iwp (add_interface iface dev v') (fun _ w' => wscans u0 {[iter]} ∅ n w') w3) by (intros v'; apply add_interface_scans; set_solver).
  destruct (io_location dev (w_env w3)) as [locationId|]; [|apply Hadd]. apply cwp_bind, iwp_on_env. eapply cwp_mono; [apply IsKnownDevice_scans, H3|].
  intros [|] e4 H4.
  - apply cwp_bind, (release_scans u0 ({[dev]} ∪ ({[iface]} ∪ {[iter]})) ∅ n); [set_solver|exact H4|]. intros w5 H5. apply Hrel. eapply wscans_extra; [|exact H5]. set_solver.
  - apply add_interface_scans; [set_solver..|exact H4].
Qed.

Lemma AndroidInterfaceAdded_scans u0 iter fuel n v w : n < fuel -> wscans u0 {[iter]} ∅ n w ->
  iwp (AndroidInterfaceAdded fuel iter v) (fun _ w' => sound u0 {[iter]} ∅ (w_env w')) w.
Proof.
  revert n v w. induction fuel as [|f IH]; intros n v w Hn H; [lia|]. cbn [AndroidInterfaceAdded]. apply cwp_bind, iwp_on_env, iwp_usb_call.
  destruct H as [Hs Hl]. intros [s|] e (E1 & E2 & E3)%law_next; [|by apply cwp_ret, (sound_same _ _ _ (w_env w))].
  destruct E3 as (E3 & E4 & E5). destruct (sound_took u0 {[iter]} ∅ s (w_env w) e) as [Hd Hw]; [done..|].
  apply cwp_bind. eapply cwp_mono; [apply (interface_added_scans u0 iter s (left e)); [set_solver|by split]|]. intros v' w' H'. eapply IH; [|exact H']. lia.
Qed.

Lemma FindUSBDevices_sound u0 fuel w : most < fuel -> sound u0 ∅ ∅ (w_env w) -> iwp (FindUSBDevices fuel) (fun _ w' => sound u0 ∅ ∅ (w_env w')) w.
Proof.
  intros Hf H. apply cwp_bind, iwp_on_env, iwp_usb_call. intros [|] e (E1 & E2 & E3)%law_matching; [|by apply cwp_ret, (sound_same _ _ _ (w_env w))].
  assert (H1 : sound u0 ∅ ∅ e) by by apply (sound_same _ _ _ (w_env w)). cbn [negb].
  apply cwp_bind, iwp_on_env, iwp_usb_call. cbn. intros [iter|] e2 (F1 & F2 & F3)%law_services; [|by apply cwp_ret, (sound_same _ _ _ e)].
  destruct F3 as (F3 & F4 & F5). destruct (sound_took u0 ∅ ∅ iter e e2) as [_ Hw]; [done..|]. apply cwp_bind.
  eapply cwp_mono; [apply (AndroidInterfaceAdded_scans u0 iter fuel (left e2)); [lia|]|].
  { split; [|done]. cbn. eapply sound_extra; [|done|exact Hw]. set_solver. }
  intros [] w3 H3. apply cwp_bind, iwp_on_env, cwp_modify, cwp_ret. cbn. eapply sound_extra; [|done|by apply sound_release, H3; set_solver]. set_solver.
Qed.

(** *** Kicking *)

Definition mac_settled (x y : mac_handle) : Prop := y = if mh_mark x then set_mh_mark false x else set_mh_dead true x.

(** The handles in front are settled, those behind as they were. *)
Record mac_settling (u1 : mac_state) (front rest : list Z) (e : E) : Prop := {
  mt_list : ms_handles (mac_of e) = ms_handles u1;
  mt_split : ms_handles u1 = front ++ rest;
  mt_ok : mac_ok (mac_of e);
  mt_holds : mac_holds (mac_of e) ∅ ∅ (held e) (opened e);
  mt_front h x : mac_handle_at u1 h x -> h ∈ front -> exists y, mac_handle_at (mac_of e) h y /\ mac_settled x y;
  mt_rest h x : mac_handle_at u1 h x -> h ∈ rest -> mac_handle_at (mac_of e) h x;
}.

Lemma mac_settling_next u1 front h rest e e' x y : mac_settling u1 front (h :: rest) e -> mac_handle_at (mac_of e) h x -> mac_settled x y ->
  mac_of e' = put_mac_object h y (mac_of e) -> mac_ok (mac_of e') -> mac_holds (mac_of e') ∅ ∅ (held e') (opened e') ->
  mac_settling u1 (front ++ [h]) rest e'.
Proof.
  intros [H1 H2 H3 H4 H5 H6] Hx Hs He Hok Hh. pose proof (mo_nodup _ H3) as Hnd. rewrite H1, H2 in Hnd.
  apply NoDup_app in Hnd as (_ & Hf & [Hr _]%NoDup_cons). split; [by rewrite He| |done|done| |].
  - by rewrite H2, <- app_assoc.
  - rewrite He. intros k z Hz [Hk| ->%list_elem_of_singleton]%elem_of_app.
    + destruct (H5 _ _ Hz Hk) as (z' & Hz' & Hs'). exists z'. split; [|done]. apply (put_mac_object_at _ _ _ _ _ _ Hx). right. split; [|done].
      intros ->. apply (Hf h Hk). by left.
    + exists y. split; [apply (put_mac_object_at _ _ _ _ _ _ Hx); by left|]. destruct (H6 h z Hz) as [_ Hl]; [by left|]. destruct Hx as [_ Hx]. rewrite Hx in Hl. by injection Hl as <-.
  - rewrite He. intros k z Hz Hk. apply (put_mac_object_at _ _ _ _ _ _ Hx). right. split; [by intros ->|]. apply H6; [done|by right].
Qed.

(** A handle that dies gives its interface back. *)
Lemma owned_dead u h x i r : mac_ok u -> mac_handle_at u h x -> mh_dead x = false -> mh_interface x = Some i ->
  owned (put_mac_object h (set_mh_dead true x) u) r <-> owned u r /\ r <> i.
Proof.
  intros Hok Hx Hd Hi. split.
  - intros (k & z & [[-> ->]|[Hne Hz]]%(put_mac_object_at _ _ _ _ _ _ Hx) & Ha & Hr); [done|]. split; [by exists k, z|].
    intros ->. apply Hne, (mo_distinct _ Hok k h z x); [done..|congruence].
  - intros [(k & z & Hz & Ha & Hr) Hne]. exists k, z. split; [|done]. apply (put_mac_object_at _ _ _ _ _ _ Hx). right. split; [|done].
    intros ->. destruct Hx as [_ Hx], Hz as [_ Hz]. congruence.
Qed.

Lemma mac_holds_dead u h x i hs os : mac_ok u -> mac_handle_at u h x -> mh_dead x = false -> mh_interface x = Some i ->
  mac_holds u ∅ ∅ hs os -> mac_holds (put_mac_object h (set_mh_dead true x) u) ∅ ∅ (hs ∖ {[i]}) (os ∖ {[i]}).
Proof.
  intros Hok Hx Hd Hi [H1 H2 H3 H4].
  assert (Hset : forall hs : gset Z, (forall r, r ∈ hs <-> r ∈ (∅ : gset Z) \/ owned u r) ->
    forall r, r ∈ hs ∖ {[i]} <-> r ∈ (∅ : gset Z) \/ owned (put_mac_object h (set_mh_dead true x) u) r).
  { intros s Hs r. rewrite (owned_dead u h x i) by done. rewrite elem_of_difference, elem_of_singleton, Hs.
    pose proof (not_elem_of_empty (C := gset Z) r). tauto. }
  split; [by apply Hset|intros r Hr; by apply not_elem_of_empty in Hr|by apply Hset|intros r Hr; by apply not_elem_of_empty in Hr].
Qed.

Lemma kick_or_unmark_settles u1 front h rest e : mac_settling u1 front (h :: rest) e ->
  iwp (kick_or_unmark h) (fun _ e' => mac_settling u1 (front ++ [h]) rest e') e.
Proof.
  intros H. pose proof H as [H1 H2 H3 H4 _ _]. destruct (mo_live _ H3 h) as [x Hx]; [rewrite H1, H2; set_solver|].
  assert (Hat : mac_handle_at (mac_of e) h x) by (split; [rewrite H1, H2; set_solver|done]).
  apply cwp_bind, (iwp_load_mac h x); [done|]. destruct (mh_mark x) eqn:Hm; cbn [negb].
  { apply (iwp_upd_mac_handle h x); [done|]. apply (mac_settling_next _ _ _ _ e _ x (set_mh_mark false x)); [done|done|by unfold mac_settled; rewrite Hm|by rewrite mac_of_put| |]; rewrite mac_of_put.
    - by apply (put_mac_object_ok _ h x).
    - rewrite held_put, opened_put. eapply mac_holds_owned; [|done]. intros r. by apply (put_mac_object_owned _ h x). }
  assert (Hs : mac_settled x (set_mh_dead true x)) by (unfold mac_settled; by rewrite Hm).
  apply cwp_bind, (iwp_load_mac h x); [done|]. destruct (mh_dead x) eqn:Hd; cbn [negb when].
  { apply cwp_ret. assert (Hsame : set_mh_dead true x = x) by (destruct x; cbn in *; by subst).
    assert (Hput : mac_of e = put_mac_object h (set_mh_dead true x) (mac_of e)).
    { rewrite Hsame. unfold put_mac_object, set_ms_objects. rewrite insert_id by done. by destruct (mac_of e). }
    by apply (mac_settling_next _ _ _ _ e _ x (set_mh_dead true x)). }
  apply cwp_bind, (iwp_upd_mac_handle h x); [done|]. destruct (mo_interface _ H3 h x Hat Hd) as [i Hi]. rewrite Hi.
  apply cwp_bind, cwp_modify, cwp_modify. set (e1 := put_mac _ e).
  destruct (law_close i e1) as (C1 & C2 & _ & C4), (law_release i (io_close i e1)) as (R1 & R2 & _ & R4).
  assert (Hmac : mac_of (io_release i (io_close i e1)) = put_mac_object h (set_mh_dead true x) (mac_of e)) by (rewrite R1, C1; apply mac_of_put).
  apply (mac_settling_next _ _ _ _ e _ x (set_mh_dead true x)); [done..| |]; rewrite Hmac.
  - by apply (put_mac_object_ok _ h x).
  - rewrite R4, R2, C2, C4. unfold e1. rewrite held_put, opened_put. by apply mac_holds_dead.
Qed.

Lemma kicks_settle u1 rest : forall front e, mac_settling u1 front rest e ->
  iwp (iter_list kick_or_unmark rest) (fun _ e' => mac_settling u1 (front ++ rest) [] e') e.
Proof.
  induction rest as [|h rest IH]; intros front e H; cbn [iter_list]; [apply cwp_ret; by rewrite app_nil_r|].
  apply cwp_bind. eapply cwp_mono; [by apply kick_or_unmark_settles|]. intros [] e' H'. rewrite (cons_middle h front rest), app_assoc. by apply IH.
Qed.

(** Between two turns: the handles are sound, none is marked, and what is held
    and open are the interfaces of those that are not dead. *)
Definition mac_at_rest (e : E) : Prop :=
  mac_ok (mac_of e) /\ (forall h x, mac_handle_at (mac_of e) h x -> mh_mark x = false) /\ mac_holds (mac_of e) ∅ ∅ (held e) (opened e).

Lemma mac_found_refl u : mac_ok u -> mac_found u u.
Proof. intros H. split; [done| |by intros h x [Hin _] Hn]. intros h x Hx. exists (mh_mark x). by destruct x. Qed.

(** C40: A turn of the thread that looks for the devices of a Mac, with less than
    [fuel] interfaces in the system: it ends, unless it reads a variable that no
    call has written or behind the array of languages, and then every reference
    to IOKit it took is given back and every interface it opened is closed, but
    those of the handles that are not dead; a handle that was there is as it was,
    or dead; a new one is alive. *)
Theorem mac_turn_leaves_nothing fuel w : most < fuel -> mac_at_rest (w_env w) ->
  cwp False odd (RunLoopThread_turn fuel) (fun _ w' => mac_at_rest (w_env w') /\
    (forall h x, mac_handle_at (mac_of (w_env w)) h x -> exists y, mac_handle_at (mac_of (w_env w')) h y /\ (y = x \/ y = set_mh_dead true x)) /\
    (forall h y, mac_handle_at (mac_of (w_env w')) h y -> h ∉ ms_handles (mac_of (w_env w)) -> mh_dead y = false)) w.
Proof.
  intros Hfuel (Hok & Hrest & Hh). apply cwp_bind.
  eapply cwp_mono; [apply (FindUSBDevices_sound (mac_of (w_env w)) fuel); [done|split; [by apply mac_found_refl|done]]|].
  intros _ w1 [[F1 F2 F3] H1]. apply cwp_bind, iwp_on_env, cwp_bind, cwp_gets.
  eapply cwp_mono; [apply (kicks_settle (mac_of (w_env w1)) (ms_handles (mac_of (w_env w1))) []); split; [done..|set_solver|done]|].
  intros [] e2 [T1 _ T3 T4 T5 _]. cbn [app] in *. apply iwp_on_env, iwp_upd_mac.
  assert (Hall : forall h y, mac_handle_at (mac_of e2) h y -> exists x, mac_handle_at (mac_of (w_env w1)) h x /\ mac_settled x y).
  { intros h y [Hin Hy]. rewrite T1 in Hin. destruct (mo_live _ F1 _ Hin) as [x Hx]. destruct (T5 h x) as (y' & [_ Hy'] & Hs); [by split|done|].
    rewrite Hy in Hy'. injection Hy' as <-. by exists x. }
  cbn. rewrite mac_of_put. split; [unfold mac_at_rest; rewrite mac_of_put, held_put, opened_put; split; [|split; [|apply (mac_holds_owned (mac_of e2)); [done|exact T4]]]|split].
  - destruct T3 as [O1 O2 O3 O4 O5]. by split.
  - intros h y (x & Hx & ->)%Hall. destruct (mh_mark x) eqn:Hm; [done|by cbn].
  - intros h x Hx. destruct (F2 h x Hx) as [b Hb]. destruct (T5 _ _ Hb (proj1 Hb)) as (y & Hy & ->). eexists. split; [exact Hy|].
    cbn. pose proof (Hrest _ _ Hx). destruct b; [left|right]; destruct x; cbn in *; by subst.
  - intros h y (x & Hx & ->)%Hall Hn. destruct (F3 _ _ Hx Hn) as [-> Hd]. done.
Qed.

End MacTurn.

(** ** A Mac with some interfaces *)

Record mac_device := { md_class : Z; md_location : option Z; md_serial : bytes; md_languages : bytes }.

(** References are to devices, or to the iterator. *)
Record mac_host := {
  mb_mac : mac_state;
  mb_refs : gmap Z nat;
  mb_open : gset Z;
  mb_left : nat;
  mb_devices : list mac_device;
}.

Definition set_mb_refs (v : gmap Z nat) (e : mac_host) : mac_host :=
  {| mb_mac := mb_mac e; mb_refs := v; mb_open := mb_open e; mb_left := mb_left e; mb_devices := mb_devices e |}.
Definition set_mb_open (v : gset Z) (e : mac_host) : mac_host :=
  {| mb_mac := mb_mac e; mb_refs := mb_refs e; mb_open := v; mb_left := mb_left e; mb_devices := mb_devices e |}.
Definition set_mb_left (v : nat) (e : mac_host) : mac_host :=
  {| mb_mac := mb_mac e; mb_refs := mb_refs e; mb_open := mb_open e; mb_left := v; mb_devices := mb_devices e |}.

Definition give (n : nat) (e : mac_host) : option Z * mac_host :=
  let r := fresh (dom (mb_refs e)) in (Some r, set_mb_refs (<[r := n]> (mb_refs e)) e).

Definition device_of (r : Z) (e : mac_host) : option mac_device := n ← mb_refs e !! r; mb_devices e !! n.

(** The same, for what a reference stands for. *)
Definition give_same (r : Z) (e : mac_host) : option Z * mac_host := match mb_refs e !! r with Some n => give n e | None => (None, e) end.

(** A string of a device: its length, 3, and 16 bits for each character. *)
Definition string_descriptor (s : bytes) : bytes := byte_of (2 + 2 * Zlen s) :: byte_of 3 :: concat (map (fun c => [c; NUL]) s).

#[export] Instance mac_fd_ops : FdOps mac_host := {
  adb_read _ _ e := (RdOk [], e);
  adb_write _ bs e := (WrOk (Zlen bs), e);
  adb_shutdown _ e := e;
  strerror _ := str "error";
}.
#[export] Instance mac_kernel : Kernel mac_host := { refusals _ _ := 0; pipe_put _ _ e := (true, e); pipe_get _ e := (None, e) }.
#[export] Instance mac_os : Os mac_host := {
  adb_socketpair e := (None, e);
  start_thread _ e := e;
  tmsg_put _ _ e := (true, e);
  tmsg_get _ e := (None, e);
  usb_kick _ e := e;
  usb_close _ e := e;
  notify_init_cv e := e;
  getenv _ := None;
  canonical_address host port := host ++ str ":" ++ dec port;
  set_tcp_keepalive _ _ e := e;
}.
#[export] Instance mac_mac : MacState mac_host := {
  mac_of := mb_mac;
  put_mac u e := {| mb_mac := u; mb_refs := mb_refs e; mb_open := mb_open e; mb_left := mb_left e; mb_devices := mb_devices e |};
}.
#[export] Instance mac_iokit : IoKit mac_host := {
  io_matching e := (true, e);
  io_services e := let '(r, e) := give 0 e in (r, set_mb_left (length (mb_devices e) `min` 3) e);
  io_next _ e := match mb_left e with O => (None, e) | S n => give (length (mb_devices e) - S n) (set_mb_left n e) end;
  io_plugin _ r e := give_same r e;
  io_query _ r e := give_same r e;
  io_release r e := set_mb_refs (delete r (mb_refs e)) e;
  io_class r e := md_class <$> device_of r e;
  io_subclass r e := Some 66%Z;
  io_protocol r e := Some 1%Z;
  io_device r e := give_same r e;
  io_location r e := d ← device_of r e; md_location d;
  io_serial_index r e := (fun d => if bool_decide (md_serial d = []) then 0%Z else 3%Z) <$> device_of r e;
  io_request r v _ _ e :=
    (d ← device_of r e;
     if (v =? string_request 0)%Z then Some (md_languages d)
     else if bool_decide (length (md_languages d) = 1) then None else Some (string_descriptor (md_serial d)), e);
  io_open r e := (true, set_mb_open ({[r]} ∪ mb_open e) e);
  io_close r e := set_mb_open (mb_open e ∖ {[r]}) e;
  io_endpoints _ _ := Some 2%Z;
  io_pipe _ p _ := Some {| pp_direction := if (p =? 1)%Z then kUSBIn else kUSBOut; pp_transfer_type := kUSBBulk; pp_max_packet_size := 512 |};
  io_clear_both_ends _ _ e := (true, e);
  io_clear_stall _ _ e := e;
  io_write _ _ _ e := (true, e);
  io_read _ _ _ e := (PipeData (str "data"), e);
}.

Lemma give_law n (e e' : mac_host) r : give n e = (r, e') ->
  exists p, r = Some p /\ mb_mac e' = mb_mac e /\ mb_open e' = mb_open e /\ mb_left e' = mb_left e /\ p ∉ dom (mb_refs e) /\
    dom (mb_refs e') = {[p]} ∪ dom (mb_refs e).
Proof.
  unfold give. intros [= <- <-]. eexists. split_and!; [done..|apply is_fresh|]. cbn. by rewrite dom_insert_L.
Qed.

Lemma give_same_law s (e e' : mac_host) r : give_same s e = (r, e') ->
  mb_mac e' = mb_mac e /\ mb_open e' = mb_open e /\ mb_left e' = mb_left e /\
    match r with Some p => p ∉ dom (mb_refs e) /\ dom (mb_refs e') = {[p]} ∪ dom (mb_refs e) | None => dom (mb_refs e') = dom (mb_refs e) end.
Proof.
  unfold give_same. case_match; [|by intros [= <- <-]]. intros (p & -> & ? & ? & ? & ? & ?)%give_law. by split_and!.
Qed.

#[export] Instance mac_laws : IoLaws mac_host (fun e => dom (mb_refs e)) mb_open mb_left 3.
Proof.
  split.
  1-4: done.
  - by intros e e' b [= _ <-].
  - cbn. intros e e' r [= <- <-]. split_and!; [done|done|apply is_fresh|cbn; by rewrite dom_insert_L|cbn; lia].
  - intros it e e' r. cbn. destruct (mb_left e) eqn:Hl; [by intros [= <- <-]|]. intros (p & -> & ? & ? & H & ? & ?)%give_law. cbn in *. split_and!; [done..|lia].
  - intros b s e e' r. apply give_same_law.
  - intros b s e e' r. apply give_same_law.
  - intros s e e' r. apply give_same_law.
  - intros r e. cbn. split_and!; [done..|by rewrite dom_delete_L].
  - by intros i e e' b [= <- <-].
  - done.
  - by intros d v i n e e' r [= _ <-].
  - by intros i p e e' r [= _ <-].
  - by intros i e n [= <-].
  - by intros fd m e e' ok [= <- <-].
Qed.

Definition english : bytes := map byte_of [4; 3; 9; 4]%Z.
Definition mac_phone (location : Z) (serial : string) : mac_device :=
  {| md_class := 255; md_location := Some location; md_serial := str serial; md_languages := english |}.
Definition mac_keyboard : mac_device := {| md_class := 3; md_location := Some 7%Z; md_serial := []; md_languages := [] |}.

Definition mac_with (u : mac_state) (refs : gmap Z nat) (open : gset Z) (l : list mac_device) : mac_host :=
  {| mb_mac := u; mb_refs := refs; mb_open := open; mb_left := 0; mb_devices := l |}.
Definition no_handles : mac_state := {| ms_objects := ∅; ms_next := 1; ms_handles := []; ms_inited := false |}.

#[local] Instance mac_server : Build := server_build.

Definition mac_world (u : mac_state) (refs : gmap Z nat) (open : gset Z) (l : list mac_device) : world mac_host :=
  Demo.idle_world false [] ∅ (mac_with u refs open l).

Inductive mac_turn_result :=
| MacFound (registered : list (option bytes * option bytes)) (handles : list (option (bytes * bool * option Z))) (refs opened : list Z)
| MacOdd (why : string)
| MacOther.

(** After a turn: the serial numbers and paths of the new transports, the
    handles, the references and the open interfaces. *)
Definition mac_after (u : mac_state) (refs : gmap Z nat) (open : gset Z) (l : list mac_device) : mac_turn_result :=
  match RunLoopThread_turn 5 (mac_world u refs open l) with
  | Done _ w => MacFound (map (fun '(_, t) => (t_serial t, t_devpath t)) (map_to_list (w_transports w)))
                  (map (fun h => (fun x => (mh_devpath x, mh_dead x, mh_interface x)) <$> ms_objects (mb_mac (w_env w)) !! h) (ms_handles (mb_mac (w_env w))))
                  (elements (dom (mb_refs (w_env w)))) (elements (mb_open (w_env w)))
  | Crash why => MacOdd why
  | _ => MacOther
  end.

Example mac_phone_found : mac_after no_handles ∅ ∅ [mac_keyboard; mac_phone 20 "ABC"] =
  MacFound [(Some (str "ABC"), Some (str "usb:20X"))] [Some (str "usb:20X", false, Some 3%Z)] [3%Z] [3%Z].
Proof. by vm_compute. Qed.

(** A phone without a number is given that of the one before it. *)
Example mac_serial_kept : mac_after no_handles ∅ ∅ [mac_phone 20 "ABC"; mac_phone 21 ""] =
  MacFound [(Some (str "ABC"), Some (str "usb:21X")); (Some (str "ABC"), Some (str "usb:20X"))]
    [Some (str "usb:20X", false, Some 3%Z); Some (str "usb:21X", false, Some 6%Z)] [3%Z; 6%Z] [3%Z; 6%Z].
Proof. by vm_compute. Qed.

(** When it is the first, there is none. *)
Example mac_serial_unwritten : mac_after no_handles ∅ ∅ [mac_phone 21 ""] = MacOdd UNWRITTEN.
Proof. by vm_compute. Qed.

(** A phone whose place is not told is taken for the one before it. *)
Example mac_place_kept : mac_after no_handles ∅ ∅
    [mac_phone 20 "ABC"; {| md_class := 255; md_location := None; md_serial := str "DEF"; md_languages := english |}] =
  mac_after no_handles ∅ ∅ [mac_phone 20 "ABC"].
Proof. by vm_compute. Qed.

(** A device that answers with a single byte when asked for its languages. *)
Example mac_one_byte_of_languages : mac_after no_handles ∅ ∅
    [{| md_class := 255; md_location := Some 20%Z; md_serial := str "DEF"; md_languages := [byte_of 1] |}] = MacOdd PAST_LANGUAGES.
Proof. by vm_compute. Qed.

(** A phone that was there before and is gone. *)
Definition gone_handle : mac_handle :=
  {| mh_bulkIn := 1; mh_bulkOut := 2; mh_interface := Some 9%Z; mh_zero_mask := 511; mh_max_packet_size := 512; mh_mark := false;
     mh_devpath := str "usb:30X"; mh_dead := false |}.
Definition one_handle : mac_state := {| ms_objects := {[ 1%Z := gone_handle ]}; ms_next := 2; ms_handles := [1%Z]; ms_inited := true |}.
Definition gone_world : world mac_host := mac_world one_handle {[ 9%Z := 0 ]} {[ 9%Z ]} [mac_phone 20 "ABC"].

Example mac_phone_gone : mac_after one_handle {[ 9%Z := 0 ]} {[ 9%Z ]} [mac_phone 20 "ABC"] =
  MacFound [(Some (str "ABC"), Some (str "usb:20X"))] [Some (str "usb:30X", true, Some 9%Z); Some (str "usb:20X", false, Some 13%Z)] [13%Z] [13%Z].
Proof. by vm_compute. Qed.

Lemma one_handle_at h x : mac_handle_at one_handle h x <-> h = 1%Z /\ x = gone_handle.
Proof.
  unfold mac_handle_at. cbn. rewrite list_elem_of_singleton. split; [intros [-> Hx]|intros [-> ->]].
  - rewrite lookup_singleton_eq in Hx. by injection Hx as <-.
  - by rewrite lookup_singleton_eq.
Qed.

Lemma gone_at_rest : mac_at_rest (held := fun e => dom (mb_refs e)) (opened := mb_open) (w_env gone_world).
Proof.
  assert (Hown : forall r, owned one_handle r <-> r = 9%Z).
  { intros r. split; [by intros (h & x & [-> ->]%one_handle_at & _ & [= <-])|]. intros ->. exists 1%Z, gone_handle. by rewrite one_handle_at. }
  split; [split|split].
  - intros h ->%list_elem_of_singleton. by eexists.
  - intros h [x Hx]. cbn in Hx. apply lookup_singleton_Some in Hx as [<- _]. cbn. lia.
  - apply NoDup_singleton.
  - intros h x [-> ->]%one_handle_at _. by eexists.
  - by intros h h' x x' [-> _]%one_handle_at [-> _]%one_handle_at.
  - by intros h x [-> ->]%one_handle_at.
  - split; cbn; intros r; change (mb_mac _) with one_handle; rewrite ?Hown; [rewrite dom_singleton_L| | |]; set_solver.
Qed.

Lemma mac_turn_leaves_nothing_witness :
  cwp False odd (RunLoopThread_turn 5) (fun _ w' => mac_at_rest (held := fun e => dom (mb_refs e)) (opened := mb_open) (w_env w') /\
    (forall h x, mac_handle_at (mac_of (w_env gone_world)) h x -> exists y, mac_handle_at (mac_of (w_env w')) h y /\ (y = x \/ y = set_mh_dead true x)) /\
    (forall h y, mac_handle_at (mac_of (w_env w')) h y -> h ∉ ms_handles (mac_of (w_env gone_world)) -> mh_dead y = false)) gone_world.
Proof. exact (mac_turn_leaves_nothing (most := 3) (IL := mac_laws) 5 gone_world ltac:(lia) gone_at_rest). Defined.
