(* ===== verification/Posix.v ===== *)
(** * What the program asks of a POSIX system (sysdeps.h, sysdeps_unix.cpp,
      sysdeps/posix/network.cpp, adb_utils.cpp, diagnose_usb.cpp)

    The wrappers of system calls on hosts other than Windows and on a device,
    the sockets of the loopback interface, and what is asked about the user.  A
    system call that fails sets [errno], which is part of the state: some of the
    code looks at it after other calls were made. *)

From S2P Require Import Prelude LibBase Packet AdbIo FdEvent Transport World SmartText Sockets SocketSpec TransportOps.
From S2P Require Import UsbLinux.

Definition EADDRNOTAVAIL : errno_t := E_OTHER 99.
Definition EAFNOSUPPORT : errno_t := E_OTHER 97.

Definition SOCK_STREAM : Z := 1.
Definition SOCK_SEQPACKET : Z := 5.
Definition SOL_SOCKET : Z := 1.
Definition IPPROTO_TCP : Z := 6.
Definition SO_REUSEADDR : Z := 2.
Definition SO_KEEPALIVE : Z := 9.
Definition TCP_NODELAY : Z := 1.
Definition TCP_KEEPIDLE : Z := 4.
Definition TCP_KEEPINTVL : Z := 5.
Definition TCP_KEEPCNT : Z := 6.
Definition O_CREAT : Z := 0x40.
Definition O_NONBLOCK : Z := 0x800.
Definition SHUT_RDWR : Z := 2.

(** An address of a socket: the family, the address in the order of the network,
    and the two bytes of the port. *)
Record sockaddr := { sa_v6 : bool; sa_addr : bytes; sa_port : bytes }.

(** What the calls return is what they return in C: a descriptor, or 0, or -1,
    except for those that fill a buffer: [None] is -1 there. *)
Class Posix (E : Type) := {
  px_errno : E -> errno_t;
  px_strerror : errno_t -> bytes;
  px_open : bytes -> Z -> option Z -> E -> Z * E;
  px_creat : bytes -> Z -> E -> Z * E;
  px_close : Z -> E -> Z * E;
  px_read : Z -> Z -> E -> option bytes * E;
  px_write : Z -> bytes -> E -> option Z * E;
  px_shutdown : Z -> Z -> E -> Z * E;
  px_fcntl_cloexec : Z -> E -> E;
  px_getfl : Z -> E -> Z * E;
  px_setfl : Z -> Z -> E -> Z * E;
  px_poll : list (Z * Z) -> Z -> E -> option (list Z) * E;
  px_mkdir : bytes -> Z -> E -> Z * E;
  px_stat : bytes -> E -> Z * E;
  px_socketpair : E -> option (Z * Z) * E;
  px_socket : bool -> Z -> E -> Z * E;
  px_bind : Z -> sockaddr -> E -> Z * E;
  px_connect : Z -> sockaddr -> E -> Z * E;
  px_listen : Z -> Z -> E -> Z * E;
  px_accept : Z -> E -> Z * E;
  px_setsockopt : Z -> Z -> Z -> Z -> E -> Z * E;
  px_setname : bytes -> E -> Z * E;
  (** libcutils: [socket_inaddr_any_server], [socket_local_client],
      [socket_local_server], [socket_network_client_timeout] with the error of
      getaddrinfo, [socket_get_local_port] *)
  px_inaddr_any_server : Z -> Z -> E -> Z * E;
  px_local_client : bytes -> socket_namespace -> Z -> E -> Z * E;
  px_local_server : bytes -> socket_namespace -> Z -> E -> Z * E;
  px_network_client : bytes -> Z -> Z -> Z -> E -> Z * Z * E;
  px_gai_strerror : Z -> bytes;
  px_local_port : Z -> E -> Z * E;
  (** the user *)
  px_getenv : bytes -> E -> option bytes;
  px_pw_size : E -> Z;
  px_home : Z -> E -> option bytes;
  px_user_name : E -> option bytes;
  px_group : bytes -> E -> option Z;
  px_group_member : Z -> E -> bool;
  px_getegid : E -> Z;
}.

(** [__APPLE__], where the name of a thread is not cut. *)
Class PosixBuild := { APPLE : bool }.

Section Posix.
Context {E : Type} {PX : Posix E} {PB : PosixBuild}.

Definition errno : M E errno_t := gets px_errno.

(** ** Calls that may be interrupted *)

(** [TEMP_FAILURE_RETRY]; [failed] is [-1]. *)
Fixpoint retry {A} (fuel : nat) (failed : A -> bool) (call : E -> A * E) : M E A :=
  match fuel with
  | O => no_fuel
  | S f =>
      let* r := usb_call call in
      let* err := errno in
      if failed r && bool_decide (err = EINTR) then retry f failed call else ret r
  end.

Definition minus_one (r : Z) : bool := (r =? -1)%Z.
Definition nothing {A} (r : option A) : bool := match r with None => true | Some _ => false end.

Definition close_on_exec (fd : Z) : M E unit := modify (px_fcntl_cloexec fd).

Definition unix_open (fuel : nat) (path : bytes) (options mode : Z) : M E Z :=
  if (Z.land options O_CREAT =? 0)%Z then retry fuel minus_one (px_open path options None)
  else retry fuel minus_one (px_open path options (Some mode)).

Definition adb_open_mode (fuel : nat) (pathname : bytes) (options mode : Z) : M E Z :=
  retry fuel minus_one (px_open pathname options (Some mode)).

Definition adb_open (fuel : nat) (pathname : bytes) (options : Z) : M E Z :=
  let* fd := retry fuel minus_one (px_open pathname options None) in
  if (fd <? 0)%Z then ret (-1)%Z else close_on_exec fd ;;; ret fd.

Definition adb_creat (fuel : nat) (path : bytes) (mode : Z) : M E Z :=
  let* fd := retry fuel minus_one (px_creat path mode) in
  if (fd <? 0)%Z then ret (-1)%Z else close_on_exec fd ;;; ret fd.

Definition adb_shutdown (fd : Z) : M E Z := usb_call (px_shutdown fd SHUT_RDWR).
Definition adb_close (fd : Z) : M E Z := usb_call (px_close fd).
Definition adb_read (fuel : nat) (fd len : Z) : M E (option bytes) := retry fuel nothing (px_read fd len).
Definition unix_read_interruptible (fd len : Z) : M E (option bytes) := usb_call (px_read fd len).
Definition adb_write (fuel : nat) (fd : Z) (buf : bytes) : M E (option Z) := retry fuel nothing (px_write fd buf).

Definition adb_socket_accept (fuel : nat) (serverfd : Z) : M E Z :=
  let* fd := retry fuel minus_one (px_accept serverfd) in
  when (0 <=? fd)%Z (close_on_exec fd) ;;; ret fd.

Definition adb_socketpair : M E (option (Z * Z)) :=
  let* sv := usb_call px_socketpair in
  match sv with
  | None => ret None
  | Some (a, b) => close_on_exec a ;;; close_on_exec b ;;; ret (Some (a, b))
  end.

Definition adb_poll (fuel : nat) (fds : list (Z * Z)) (timeout : Z) : M E (option (list Z)) := retry fuel nothing (px_poll fds timeout).

Definition adb_mkdir (path : bytes) (mode : Z) : M E Z := usb_call (px_mkdir (c_str path) mode).

(** Sixteen bytes with the NUL, but on a Mac. *)
Definition adb_thread_setname (name : bytes) : M E Z := usb_call (px_setname (if APPLE then c_str name else take 15 (c_str name))).

(** ** Options of sockets *)

Definition adb_setsockopt (fd level optname optval : Z) : M E Z := usb_call (px_setsockopt fd level optname optval).

Definition disable_tcp_nagle (fd : Z) : M E unit := let* _ := adb_setsockopt fd IPPROTO_TCP TCP_NODELAY 1 in ret tt.

(** One after the other, as long as they succeed. *)
Fixpoint set_options (fd : Z) (l : list (Z * Z * Z)) : M E bool :=
  match l with
  | [] => ret true
  | (level, optname, optval) :: rest =>
      let* r := adb_setsockopt fd level optname optval in
      if negb (r =? 0)%Z then ret false else set_options fd rest
  end.

(** On Linux, where there are the three options of TCP. *)
Definition set_tcp_keepalive (fd interval_sec : Z) : M E bool :=
  let enable := (0 <? interval_sec)%Z in
  let* r := adb_setsockopt fd SOL_SOCKET SO_KEEPALIVE (if enable then 1 else 0) in
  if negb (r =? 0)%Z then ret false else
  if negb enable then ret true else
  set_options fd [(IPPROTO_TCP, TCP_KEEPIDLE, interval_sec); (IPPROTO_TCP, TCP_KEEPINTVL, interval_sec); (IPPROTO_TCP, TCP_KEEPCNT, 10%Z)].

Definition set_file_block_mode (fd : Z) (block : bool) : M E bool :=
  let* flags := usb_call (px_getfl fd) in
  if (flags =? -1)%Z then ret false else
  let flags := if block then Z.land flags (Z.lnot O_NONBLOCK) else Z.lor flags O_NONBLOCK in
  let* r := usb_call (px_setfl fd flags) in
  ret (r =? 0)%Z.

(** ** The loopback interface *)

Definition set_error : M E bytes := let* err := errno in ret (px_strerror err).

(** [htons] of an [int]. *)
Definition net_port (port : Z) : bytes := [byte_of (Z.shiftr port 8); byte_of port].

Definition loopback_addr4 (port : Z) : sockaddr := {| sa_v6 := false; sa_addr := map byte_of [127; 0; 0; 1]%Z; sa_port := net_port port |}.
Definition loopback_addr6 (port : Z) : sockaddr :=
  {| sa_v6 := true; sa_addr := replicate 15 NUL ++ [byte_of 1]; sa_port := net_port port |}.
Definition loopback_addr (ipv6 : bool) : Z -> sockaddr := if ipv6 then loopback_addr6 else loopback_addr4.

(** The end after an error: the text of [errno], then the [unique_fd] goes. *)
Definition give_up_socket (s : Z) : M E (Z * bytes) :=
  let* error := set_error in
  let* _ := usb_call (px_close s) in
  ret ((-1)%Z, error).

(** [error] is what the string holds before. *)
Definition _network_loopback_client (ipv6 : bool) (port type : Z) (error : bytes) : M E (Z * bytes) :=
  let* s := usb_call (px_socket ipv6 type) in
  if (s =? -1)%Z then (let* error := set_error in ret ((-1)%Z, error)) else
  let* r := usb_call (px_bind s (loopback_addr ipv6 0)) in
  if negb (r =? 0)%Z then give_up_socket s else
  let* r := usb_call (px_connect s (loopback_addr ipv6 port)) in
  if negb (r =? 0)%Z then give_up_socket s else
  ret (s, error).

Definition network_loopback_client (port type : Z) (error : bytes) : M E (Z * bytes) :=
  let* r := _network_loopback_client false port type error in
  let '(rc, error) := r in
  if (rc =? -1)%Z then _network_loopback_client true port type error else ret (rc, error).

Definition _network_loopback_server (ipv6 : bool) (port type : Z) (error : bytes) : M E (Z * bytes) :=
  let* s := usb_call (px_socket ipv6 type) in
  if (s =? -1)%Z then (let* error := set_error in ret ((-1)%Z, error)) else
  let* _ := usb_call (px_setsockopt s SOL_SOCKET SO_REUSEADDR 1) in
  let* r := usb_call (px_bind s (loopback_addr ipv6 port)) in
  if negb (r =? 0)%Z then give_up_socket s else
  if (type =? SOCK_STREAM)%Z || (type =? SOCK_SEQPACKET)%Z then
    let* r := usb_call (px_listen s 4) in
    if negb (r =? 0)%Z then give_up_socket s else ret (s, error)
  else ret (s, error).

Definition network_loopback_server (port type : Z) (error : bytes) : M E (Z * bytes) :=
  let* r := _network_loopback_server false port type error in
  let '(rc, error) := r in
  let* err := errno in
  if (rc =? -1)%Z && (bool_decide (err = EADDRNOTAVAIL) || bool_decide (err = EAFNOSUPPORT))
  then _network_loopback_server true port type error else ret (rc, error).

(** ** libcutils *)

Definition _fd_set_error_str (fd : Z) (error : bytes) : M E (Z * bytes) :=
  if (fd =? -1)%Z then (let* text := set_error in ret (fd, text)) else ret (fd, error).

Definition network_inaddr_any_server (port type : Z) (error : bytes) : M E (Z * bytes) :=
  let* fd := usb_call (px_inaddr_any_server port type) in _fd_set_error_str fd error.
Definition network_local_client (name : bytes) (ns : socket_namespace) (type : Z) (error : bytes) : M E (Z * bytes) :=
  let* fd := usb_call (px_local_client (c_str name) ns type) in _fd_set_error_str fd error.
Definition network_local_server (name : bytes) (ns : socket_namespace) (type : Z) (error : bytes) : M E (Z * bytes) :=
  let* fd := usb_call (px_local_server (c_str name) ns type) in _fd_set_error_str fd error.

Definition network_connect (host : bytes) (port type timeout : Z) (error : bytes) : M E (Z * bytes) :=
  let* r := (fun e => let '(fd, gai, e) := px_network_client (c_str host) port type timeout e in Done (fd, gai) e) in
  let '(fd, getaddrinfo_error) := r in
  if negb (fd =? -1)%Z then ret (fd, error) else
  if negb (getaddrinfo_error =? 0)%Z then ret ((-1)%Z, px_gai_strerror getaddrinfo_error) else
  let* text := set_error in ret ((-1)%Z, text).

Definition adb_socket_get_local_port (fd : Z) : M E Z := usb_call (px_local_port fd).

(** The calls on sockets that the rest of the program makes are these, with
    [accept] interrupted less than [fuel] times. *)
Definition posix_net (fuel : nat) : Net E := {|
  SocketSpec.network_loopback_client port := network_loopback_client port SOCK_STREAM [];
  SocketSpec.network_loopback_server port := network_loopback_server port SOCK_STREAM [];
  SocketSpec.network_inaddr_any_server port := network_inaddr_any_server port SOCK_STREAM [];
  SocketSpec.network_connect host port := network_connect host port SOCK_STREAM 0 [];
  SocketSpec.network_local_client name ns := network_local_client name ns SOCK_STREAM [];
  SocketSpec.network_local_server name ns := network_local_server name ns SOCK_STREAM [];
  SocketSpec.adb_socket_get_local_port := adb_socket_get_local_port;
  SocketSpec.disable_tcp_nagle := disable_tcp_nagle;
  SocketSpec.adb_socket_accept := adb_socket_accept fuel;
|}.

(** ** The user *)

(** A vector of a negative size is an exception that nobody catches. *)
Definition adb_get_homedir_path : M E bytes :=
  let* home := gets (px_getenv (str "HOME")) in
  match home with
  | Some home => ret (c_str home)
  | None =>
      let* pwent_max := gets px_pw_size in
      if (pwent_max <? 0)%Z then fatal "std::length_error" else
      let* result := gets (px_home pwent_max) in
      match result with
      | Some dir => ret (c_str dir)
      | None => fatal "failed to get user home directory"
      end
  end.

(** The mode is 0750. *)
Definition adb_get_android_dir_path : M E bytes :=
  let* user_dir := adb_get_homedir_path in
  let android_dir := user_dir ++ str "/" ++ str ".android" in
  let* buf := usb_call (px_stat android_dir) in
  (if (buf =? -1)%Z then
     let* r := adb_mkdir android_dir 488 in
     if (r =? -1)%Z then fatal "Cannot mkdir" else ret tt
   else ret tt) ;;;
  ret android_dir.

(** [linux]: whether there is udev. *)
Definition GetUdevProblem (linux : bool) (e : E) : bytes :=
  if negb linux then [] else
  match px_group (str "plugdev") e with
  | None => []
  | Some gid =>
      if px_group_member gid e || (px_getegid e =? gid)%Z then str "user in plugdev group; are your udev rules wrong?"
      else str "user " ++ c_str (default (str "?") (px_user_name e)) ++ str " is not in the plugdev group"
  end.

Definition kPermissionsHelpUrl : bytes := str "http://developer.android.com/tools/device.html".

Definition UsbNoPermissionsShortHelpText (linux : bool) (e : E) : bytes :=
  let problem := GetUdevProblem linux e in
  let help_text := str "no permissions" ++ (if bool_decide (problem = []) then [] else str " (" ++ problem ++ str ")") in
  help_text ++ str "; see [" ++ kPermissionsHelpUrl ++ str "]".

Definition UsbNoPermissionsLongHelpText (linux : bool) (e : E) : bytes :=
  let problem := GetUdevProblem linux e in
  let header := str "insufficient permissions for device" ++ (if bool_decide (problem = []) then [] else str ": " ++ problem) in
  header ++ [byte_of 10] ++ str "See [" ++ kPermissionsHelpUrl ++ str "] for more information".

End Posix.

(** ** What the kernel promises *)

(** A socket as the kernel has it. *)
Record socket_state := {
  so_v6 : bool;
  so_type : Z;
  so_bound : option sockaddr;
  so_peer : option sockaddr;
  so_backlog : option Z;
  so_options : gmap (Z * Z) Z;
}.

Definition fresh_socket (ipv6 : bool) (type : Z) : socket_state :=
  {| so_v6 := ipv6; so_type := type; so_bound := None; so_peer := None; so_backlog := None; so_options := ∅ |}.
Definition set_so_bound (a : sockaddr) (x : socket_state) : socket_state :=
  {| so_v6 := so_v6 x; so_type := so_type x; so_bound := Some a; so_peer := so_peer x; so_backlog := so_backlog x; so_options := so_options x |}.
Definition set_so_peer (a : sockaddr) (x : socket_state) : socket_state :=
  {| so_v6 := so_v6 x; so_type := so_type x; so_bound := so_bound x; so_peer := Some a; so_backlog := so_backlog x; so_options := so_options x |}.
Definition set_so_backlog (n : Z) (x : socket_state) : socket_state :=
  {| so_v6 := so_v6 x; so_type := so_type x; so_bound := so_bound x; so_peer := so_peer x; so_backlog := Some n; so_options := so_options x |}.
Definition set_so_option (level name v : Z) (x : socket_state) : socket_state :=
  {| so_v6 := so_v6 x; so_type := so_type x; so_bound := so_bound x; so_peer := so_peer x; so_backlog := so_backlog x;
     so_options := <[(level, name) := v]> (so_options x) |}.

(** [socks]: the open sockets; [interrupts]: how often calls will still be
    interrupted.  A call that fails leaves the sockets alone. *)
Class PosixLaws (E : Type) `{Posix E} (socks : E -> gmap Z socket_state) (interrupts : E -> nat) := {
  pl_socket v t (e e' : E) s : px_socket v t e = (s, e') ->
    (s = (-1)%Z /\ socks e' = socks e) \/ ((0 <= s)%Z /\ socks e !! s = None /\ socks e' = <[s := fresh_socket v t]> (socks e));
  pl_bind s a (e e' : E) r : px_bind s a e = (r, e') ->
    socks e' = (if (r =? 0)%Z then alter (set_so_bound a) s (socks e) else socks e);
  pl_connect s a (e e' : E) r : px_connect s a e = (r, e') ->
    socks e' = (if (r =? 0)%Z then alter (set_so_peer a) s (socks e) else socks e);
  pl_listen s n (e e' : E) r : px_listen s n e = (r, e') ->
    socks e' = (if (r =? 0)%Z then alter (set_so_backlog n) s (socks e) else socks e);
  pl_setsockopt s l n v (e e' : E) r : px_setsockopt s l n v e = (r, e') ->
    socks e' = (if (r =? 0)%Z then alter (set_so_option l n v) s (socks e) else socks e);
  pl_close s (e e' : E) r : px_close s e = (r, e') -> socks e' = delete s (socks e);
  pl_read fd n (e e' : E) : px_read fd n e = (None, e') -> px_errno e' = EINTR -> interrupts e' < interrupts e;
}.

Section PosixProps.
Context {E : Type} {PX : Posix E} {PB : PosixBuild} {socks : E -> gmap Z socket_state} {interrupts : E -> nat} {PL : PosixLaws E socks interrupts}.

Lemma twp_sys {A} (f : E -> A * E) (Q : A -> E -> Prop) e : (forall a e', f e = (a, e') -> Q a e') -> twp (usb_call f) Q e.
Proof. unfold twp, usb_call. intros H. destruct (f e) as [a e']. by apply H. Qed.

Lemma twp_errno (Q : errno_t -> E -> Prop) e : Q (px_errno e) e -> twp errno Q e.
Proof. done. Qed.

(** Nothing is opened and the result is [-1], or the result is a new socket
    that satisfies [P]. *)
Definition new_socket (P : socket_state -> Prop) (e : E) (r : Z * bytes) (e' : E) : Prop :=
  (r.1 = (-1)%Z /\ socks e' = socks e) \/ ((0 <= r.1)%Z /\ socks e !! r.1 = None /\ exists x, socks e' = <[r.1 := x]> (socks e) /\ P x).

Lemma new_socket_weaken P P' e r e' : (forall x, P x -> P' x) -> new_socket P e r e' -> new_socket P' e r e'.
Proof. intros H [Hr|(H1 & H2 & x & H3 & H4)]; [by left|right]. eauto 10. Qed.

Lemma set_error_same (Q : bytes -> E -> Prop) e : (forall t, Q t e) -> twp set_error Q e.
Proof. intros H. by apply twp_bind, twp_errno, twp_ret. Qed.

Lemma socket_given_up P s x e0 e : socks e0 !! s = None -> socks e = <[s := x]> (socks e0) -> twp (give_up_socket s) (new_socket P e0) e.
Proof.
  intros Hn He. apply twp_bind, set_error_same. intros t. apply twp_bind, twp_sys. intros r e' H%pl_close. apply twp_ret. left. split; [done|].
  by rewrite H, He, delete_insert_id.
Qed.

Lemma alter_insert_self {A} (f : A -> A) (s : Z) x (m : gmap Z A) : alter f s (<[s := x]> m) = <[s := f x]> m.
Proof. by rewrite alter_insert_eq. Qed.

(** A call on the socket just made: it goes on, or the socket is closed. *)
Lemma step_or_close P (call : E -> Z * E) g s x e0 e k : socks e0 !! s = None -> socks e = <[s := x]> (socks e0) ->
  (forall r e', call e = (r, e') -> socks e' = (if (r =? 0)%Z then alter g s (socks e) else socks e)) ->
  (forall e', socks e' = <[s := g x]> (socks e0) -> twp k (new_socket P e0) e') ->
  twp (let* r := usb_call call in if negb (r =? 0)%Z then give_up_socket s else k) (new_socket P e0) e.
Proof.
  intros Hn He Hcall Hk. apply twp_bind, twp_sys. intros r e' H%Hcall. rewrite He, alter_insert_self in H. destruct (r =? 0)%Z; cbn [negb].
  - by apply Hk.
  - by apply (socket_given_up P s x e0).
Qed.

Definition connected_to (ipv6 : bool) (port type : Z) (x : socket_state) : Prop :=
  x = set_so_peer (loopback_addr ipv6 port) (set_so_bound (loopback_addr ipv6 0) (fresh_socket ipv6 type)).

Lemma loopback_client_socket ipv6 port type error e :
  twp (_network_loopback_client ipv6 port type error) (new_socket (connected_to ipv6 port type) e) e.
Proof.
  apply twp_bind, twp_sys. intros s e1 [[-> He]|(Hs & Hn & He)]%pl_socket.
  { apply twp_bind, set_error_same. intros t. apply twp_ret. by left. }
  rewrite (proj2 (Z.eqb_neq _ _)) by lia.
  eapply (step_or_close _ _ _ s _ e e1); [done|exact He|intros r e'; apply pl_bind|]. intros e2 H2.
  eapply (step_or_close _ _ _ s _ e e2); [done|exact H2|intros r e'; apply pl_connect|]. intros e3 H3.
  apply twp_ret. right. split; [done|]. split; [done|]. by eexists.
Qed.

(** Listening on the port, if it is a socket that can. *)
Definition serving (ipv6 : bool) (port type : Z) (x : socket_state) : Prop :=
  so_v6 x = ipv6 /\ so_type x = type /\ so_bound x = Some (loopback_addr ipv6 port) /\ so_peer x = None /\
  so_backlog x = (if (type =? SOCK_STREAM)%Z || (type =? SOCK_SEQPACKET)%Z then Some 4%Z else None).

Lemma loopback_server_socket ipv6 port type error e :
  twp (_network_loopback_server ipv6 port type error) (new_socket (serving ipv6 port type) e) e.
Proof.
  apply twp_bind, twp_sys. intros s e1 [[-> He]|(Hs & Hn & He)]%pl_socket.
  { apply twp_bind, set_error_same. intros t. apply twp_ret. by left. }
  rewrite (proj2 (Z.eqb_neq _ _)) by lia. apply twp_bind, twp_sys. intros r1 e2 H2%pl_setsockopt. rewrite He, alter_insert_self in H2.
  assert (Hx : exists x, socks e2 = <[s := x]> (socks e) /\ so_v6 x = ipv6 /\ so_type x = type /\ so_peer x = None /\ so_backlog x = None).
  { destruct (r1 =? 0)%Z; by eexists. }
  destruct Hx as (x & Hx & X1 & X2 & X3 & X4).
  eapply (step_or_close _ _ _ s _ e e2); [done|exact Hx|intros r e'; apply pl_bind|]. intros e3 H3.
  assert (Hdone : forall y e', socks e' = <[s := y]> (socks e) -> serving ipv6 port type y -> twp (ret (s, error)) (new_socket (serving ipv6 port type) e) e').
  { intros y e' H' Hy. apply twp_ret. right. split; [done|]. split; [done|]. by exists y. }
  destruct ((type =? SOCK_STREAM)%Z || (type =? SOCK_SEQPACKET)%Z) eqn:Ht.
  - eapply (step_or_close _ _ _ s _ e e3); [done|exact H3|intros r e'; apply pl_listen|]. intros e4 H4.
    apply (Hdone _ _ H4). unfold serving. by rewrite Ht.
  - apply (Hdone _ _ H3). unfold serving. by rewrite Ht.
Qed.

(** A second try after the first has left nothing. *)
Lemma new_socket_again P e e1 r e' : socks e1 = socks e -> new_socket P e1 r e' -> new_socket P e r e'.
Proof. unfold new_socket. by intros ->. Qed.


(** *** Options *)

Definition options_of (e : E) (fd : Z) : option (gmap (Z * Z) Z) := so_options <$> socks e !! fd.

Lemma setsockopt_sets fd level name v (Q : Z -> E -> Prop) e o : options_of e fd = Some o ->
  (forall r e', options_of e' fd = Some (if (r =? 0)%Z then <[(level, name) := v]> o else o) -> Q r e') -> twp (adb_setsockopt fd level name v) Q e.
Proof.
  intros Ho HQ. apply twp_sys. intros r e' H%pl_setsockopt. apply HQ. unfold options_of in *. rewrite H. destruct (r =? 0)%Z; [|done].
  rewrite lookup_alter_eq. destruct (socks e !! fd) as [x|]; [|done]. cbn in *. by injection Ho as <-.
Qed.

(** If it says so, a connection is asked whether it is alive every
    [interval_sec] seconds, and given up after ten times. *)
Lemma keepalive_set fd interval_sec e o : options_of e fd = Some o ->
  twp (set_tcp_keepalive fd interval_sec) (fun ok e' => ok = true -> options_of e' fd = Some (
    if (0 <? interval_sec)%Z
    then <[(IPPROTO_TCP, TCP_KEEPCNT) := 10%Z]> (<[(IPPROTO_TCP, TCP_KEEPINTVL) := interval_sec]>
           (<[(IPPROTO_TCP, TCP_KEEPIDLE) := interval_sec]> (<[(SOL_SOCKET, SO_KEEPALIVE) := 1%Z]> o)))
    else <[(SOL_SOCKET, SO_KEEPALIVE) := 0%Z]> o)) e.
Proof.
  intros Ho. apply twp_bind, (setsockopt_sets _ _ _ _ _ e o); [done|]. intros r e1 H1. destruct (r =? 0)%Z; cbn [negb]; [|by apply twp_ret].
  destruct (0 <? interval_sec)%Z; cbn [negb]; [|by apply twp_ret]. cbn [set_options].
  do 3 (apply twp_bind; eapply setsockopt_sets; [eassumption|]; clear dependent r; intros r ? ?; destruct (r =? 0)%Z; cbn [negb]; [|by apply twp_ret]).
  by apply twp_ret.
Qed.

(** A read is never interrupted, as far as the program sees. *)
Lemma read_uninterrupted fuel fd n e : interrupts e < fuel ->
  twp (adb_read fuel fd n) (fun r e' => r = None -> px_errno e' <> EINTR) e.
Proof.
  unfold adb_read. revert e. induction fuel as [|f IH]; intros e Hf; [lia|]. cbn [retry]. apply twp_bind, twp_sys. intros r e1 H1.
  apply twp_bind, twp_errno. destruct r as [bs|]; cbn [nothing andb]; [by apply twp_ret|]. case_bool_decide as Hi; [|by apply twp_ret].
  apply IH. pose proof (pl_read _ _ _ _ H1 Hi). lia.
Qed.

End PosixProps.

(** ** A small system *)

(** [pb_v4]: whether there is IPv4; [pb_taken]: a port somebody listens on;
    [pb_interrupts]: how many reads are interrupted first. *)
Record posix_box := { pb_socks : gmap Z socket_state; pb_errno : errno_t; pb_v4 : bool; pb_taken : bytes; pb_interrupts : nat }.

Definition set_pb (s : gmap Z socket_state) (err : errno_t) (n : nat) (e : posix_box) : posix_box :=
  {| pb_socks := s; pb_errno := err; pb_v4 := pb_v4 e; pb_taken := pb_taken e; pb_interrupts := n |}.
Definition pb_fail {A} (r : A) (err : errno_t) (e : posix_box) : A * posix_box := (r, set_pb (pb_socks e) err (pb_interrupts e) e).
Definition pb_change (f : socket_state -> socket_state) (s : Z) (e : posix_box) : Z * posix_box :=
  (0%Z, set_pb (alter f s (pb_socks e)) (pb_errno e) (pb_interrupts e) e).

(** Socket numbers are not negative. *)
Definition new_fd (e : posix_box) : Z := Z.of_nat (fresh (set_map (C := gset Z) (D := gset nat) Z.to_nat (dom (pb_socks e)))).

Lemma new_fd_fresh e : pb_socks e !! new_fd e = None.
Proof.
  apply not_elem_of_dom. unfold new_fd. set (S := set_map _ _). intros Hin. apply (is_fresh S), elem_of_map.
  exists (Z.of_nat (fresh S)). by rewrite Nat2Z.id.
Qed.

#[export] Instance box_posix : Posix posix_box := {
  px_errno := pb_errno;
  px_strerror err := match err with E_OTHER n => str "error " ++ dec n | _ => str "error" end;
  px_open _ _ _ e := pb_fail (-1)%Z ENOENT e;
  px_creat _ _ e := pb_fail (-1)%Z EACCES e;
  px_close s e := (0%Z, set_pb (delete s (pb_socks e)) (pb_errno e) (pb_interrupts e) e);
  px_read _ _ e := match pb_interrupts e with
                   | S n => (None, set_pb (pb_socks e) EINTR n e)
                   | O => (Some (str "data"), e)
                   end;
  px_write _ bs e := (Some (Zlen bs), e);
  px_shutdown _ _ e := (0%Z, e);
  px_fcntl_cloexec _ e := e;
  px_getfl _ e := (0%Z, e);
  px_setfl _ _ e := (0%Z, e);
  px_poll l _ e := (Some (map (fun _ => 0%Z) l), e);
  px_mkdir _ _ e := (0%Z, e);
  px_stat _ e := (0%Z, e);
  px_socketpair e := (None, e);
  px_socket v t e :=
    if negb v && negb (pb_v4 e) then pb_fail (-1)%Z EAFNOSUPPORT e
    else (new_fd e, set_pb (<[new_fd e := fresh_socket v t]> (pb_socks e)) (pb_errno e) (pb_interrupts e) e);
  px_bind s a e := if bool_decide (sa_port a = pb_taken e) then pb_fail (-1)%Z (E_OTHER 98) e else pb_change (set_so_bound a) s e;
  px_connect s a e := if bool_decide (sa_port a = pb_taken e) then pb_change (set_so_peer a) s e else pb_fail (-1)%Z (E_OTHER 111) e;
  px_listen s n e := pb_change (set_so_backlog n) s e;
  px_accept _ e := pb_fail (-1)%Z EINVAL e;
  px_setsockopt s l n v e := pb_change (set_so_option l n v) s e;
  px_setname _ e := (0%Z, e);
  px_inaddr_any_server _ _ e := pb_fail (-1)%Z EACCES e;
  px_local_client _ _ _ e := pb_fail (-1)%Z ENOENT e;
  px_local_server _ _ _ e := pb_fail (-1)%Z ENOENT e;
  px_network_client _ _ _ _ e := ((-1)%Z, 2%Z, e);
  px_gai_strerror n := str "getaddrinfo " ++ dec n;
  px_local_port _ e := (0%Z, e);
  px_getenv _ _ := None;
  px_pw_size _ := 1024%Z;
  px_home _ _ := Some (str "/root");
  px_user_name _ := Some (str "user");
  px_group _ _ := Some 46%Z;
  px_group_member _ _ := false;
  px_getegid _ := 1000%Z;
}.

#[export] Instance box_laws : PosixLaws posix_box pb_socks pb_interrupts.
Proof.
  split; cbn.
  - intros v t e e' s. case_match; intros [= <- <-]; [by left|]. right. split; [unfold new_fd; lia|]. split; [apply new_fd_fresh|done].
  - intros s a e e' r. case_bool_decide; by intros [= <- <-].
  - intros s a e e' r. case_bool_decide; by intros [= <- <-].
  - by intros s n e e' r [= <- <-].
  - by intros s l n v e e' r [= <- <-].
  - by intros s e e' r [= <- <-].
  - intros _ _ e e'. destruct (pb_interrupts e) eqn:Hi; [done|]. intros [= <-] _. cbn. lia.
Qed.

Definition a_box (v4 : bool) (taken : Z) : posix_box :=
  {| pb_socks := ∅; pb_errno := E_NONE; pb_v4 := v4; pb_taken := net_port taken; pb_interrupts := 2 |}.

(** The port, the text, and the sockets with their family. *)
Definition outcome_of (m : M posix_box (Z * bytes)) (e : posix_box) : option (Z * bytes * list (Z * bool)) :=
  match m e with Done (rc, t) e' => Some (rc, t, map (fun '(s, x) => (s, so_v6 x)) (map_to_list (pb_socks e'))) | _ => None end.

(** A server on a port that is taken is not started on IPv6 either. *)
Example taken_port : outcome_of (network_loopback_server 5037 SOCK_STREAM []) (a_box true 5037) = Some ((-1)%Z, str "error 98", []).
Proof. by vm_compute. Qed.

(** It is without IPv4; the text of the first error stays. *)
Example only_v6 : outcome_of (network_loopback_server 5037 SOCK_STREAM []) (a_box false 5038) = Some (0%Z, str "error 97", [(0%Z, true)]).
Proof. by vm_compute. Qed.

(** Nobody listens: both are tried. *)
Example nobody_listens : outcome_of (network_loopback_client 5037 SOCK_STREAM []) (a_box true 5038) = Some ((-1)%Z, str "error 111", []).
Proof. by vm_compute. Qed.

Example somebody_listens : outcome_of (network_loopback_client 5038 SOCK_STREAM []) (a_box true 5038) = Some (0%Z, [], [(0%Z, false)]).
Proof. by vm_compute. Qed.

Example short_help : UsbNoPermissionsShortHelpText true (a_box true 0) =
  str "no permissions (user user is not in the plugdev group); see [http://developer.android.com/tools/device.html]".
Proof. by vm_compute. Qed.

