(* ===== verification/Mdns.v ===== *)
(** * Devices on the network that announce themselves (transport_mdns.cpp)

    The library of dns_sd.h finds the names of services, then the host and the
    port of a name, then the addresses of a host; for each of these the server
    has an object with a reference to the library, [sdRef_], and an event
    object, whose function lets the library call back what it has read.  The
    objects live in a map from addresses; [sv_initialized] is [None] as long as
    nothing was written to the member. *)

From S2P Require Import Prelude LibBase Packet AdbIo FdEvent Transport World SmartText Sockets SocketIo SocketSpec TransportOps Registration.
From S2P Require Import Demo UsbLinux UsbTurn.

(** [serviceName_], or [name_] and [port_]. *)
Variant mdns_what := DiscoveredService (serviceName : bytes) | ResolvedService (name : bytes) (port : Z).

Record mdns_service := { sv_initialized : option bool; sv_ref : option Z; sv_what : mdns_what }.

(** The objects, [service_ref], and the address of [service_ref_fde]. *)
Record mdns_state := { md_services : gmap loc mdns_service; md_service_ref : option Z; md_service_ref_fde : loc }.

Definition set_md_services (v : gmap loc mdns_service) (x : mdns_state) : mdns_state :=
  {| md_services := v; md_service_ref := md_service_ref x; md_service_ref_fde := md_service_ref_fde x |}.
Definition set_md_service_ref (v : option Z) (x : mdns_state) : mdns_state :=
  {| md_services := md_services x; md_service_ref := v; md_service_ref_fde := md_service_ref_fde x |}.

Class MdnsState (E : Type) := { mdns_of : E -> mdns_state; put_mdns : mdns_state -> E -> E }.

(** An address the library tells: IPv4, IPv6 or something else, as text if
    inet_ntop can write it. *)
Variant mdns_address := InetAddress (text : option bytes) | Inet6Address (text : option bytes) | OtherAddress.

(** What the library calls back: [register_mdns_transport],
    [register_resolved_mdns_service], [register_service_ip].  A context is the
    address of an object; [port] is in the order of the network; an address is
    NULL if there was an error. *)
Variant mdns_reply :=
| Browsed (sdRef : Z) (interfaceIndex errorCode : Z) (serviceName regtype domain : bytes)
| Resolved (flags interfaceIndex errorCode : Z) (hosttarget : bytes) (port : Z) (context : loc)
| GotAddress (errorCode : Z) (address : option mdns_address) (context : loc).

(** dns_sd.h.  [ds_next]: the next reply the library has for a reference while
    [DNSServiceProcessResult] runs. *)
Class DnsSd (E : Type) := {
  ds_browse : bytes -> E -> option Z * E;
  ds_resolve : Z -> bytes -> bytes -> bytes -> loc -> E -> option Z * E;
  ds_addr_info : Z -> bytes -> loc -> E -> option Z * E;
  ds_sock_fd : Z -> E -> Z;
  ds_deallocate : Z -> E -> E;
  ds_next : Z -> E -> option mdns_reply * E;
}.

Definition kADBServiceType : bytes := str "_adb._tcp".

Definition DANGLING_SERVICE : string := "dangling AsyncServiceRef".
Definition UNWRITTEN_MEMBER : string := "a member without a value".

Section Mdns.
Context {E : Type} {K : Kernel E} {B : Build} {PF : Platform} {LB : LibBase} {N : Net E} {OS : Os E} {MS : MdnsState E} {DS : DnsSd E}.
Abbreviation W := (world E).

Definition services (w : W) : gmap loc mdns_service := md_services (mdns_of (w_env w)).

Definition load_service (s : loc) : M W mdns_service :=
  fun w => match services w !! s with Some x => Done x w | None => Crash DANGLING_SERVICE end.
Definition upd_mdns (f : mdns_state -> mdns_state) : M W unit := on_env (modify (fun e => put_mdns (f (mdns_of e)) e)).
Definition store_service (s : loc) (x : mdns_service) : M W unit := upd_mdns (fun u => set_md_services (<[s := x]> (md_services u)) u).
Definition lib_call {A} (f : E -> A * E) : M W A := on_env (usb_call f).

(** A member that is read. *)
Definition member {A} (v : option A) : M W A := match v with Some a => ret a | None => crash UNWRITTEN_MEMBER end.

(** ** AsyncServiceRef *)

Definition Initialized (s : loc) : M W bool := let* x := load_service s in member (sv_initialized x).

(** [sdRef_] has been written when it is called. *)
Definition Initialize (s : loc) : M W unit :=
  let* x := load_service s in
  let* r := member (sv_ref x) in
  let* fd := gets (fun w => ds_sock_fd r (w_env w)) in
  on_fds (fdevent_install s fd (fn_pump_service_ref (Some s))) ;;;
  on_fds (fdevent_set s FDE_READ) ;;;
  let* x := load_service s in
  store_service s {| sv_initialized := Some true; sv_ref := sv_ref x; sv_what := sv_what x |}.

(** [delete]: the destructor, and the memory. *)
Definition delete_service (s : loc) : M W unit :=
  let* initialized := Initialized s in
  (if initialized : bool then
     let* x := load_service s in
     let* r := member (sv_ref x) in
     on_env (modify (ds_deallocate r)) ;;;
     on_fds (fdevent_remove s)
   else ret tt) ;;;
  upd_mdns (fun u => set_md_services (delete s (md_services u)) u) ;;;
  on_fds (fdevent_free s).

(** [new]: the base has no constructor that writes to [initialized_]. *)
Definition new_service (what : mdns_what) (request : loc -> E -> option Z * E) : M W loc :=
  let* s := alloc in
  store_service s {| sv_initialized := None; sv_ref := None; sv_what := what |} ;;;
  let* r := lib_call (request s) in
  match r with
  | None => ret s
  | Some r =>
      store_service s {| sv_initialized := None; sv_ref := Some r; sv_what := what |} ;;;
      Initialize s ;;;
      ret s
  end.

Definition new_DiscoveredService (interfaceIndex : Z) (serviceName regtype domain : bytes) : M W loc :=
  new_service (DiscoveredService serviceName) (ds_resolve interfaceIndex serviceName regtype domain).
Definition new_ResolvedService (name : bytes) (interfaceIndex : Z) (hosttarget : bytes) (port : Z) : M W loc :=
  new_service (ResolvedService name port) (ds_addr_info interfaceIndex hosttarget).

(** An object that could not be initialised goes at once. *)
Definition keep_if_initialized (s : loc) : M W unit :=
  let* ok := Initialized s in if negb ok then delete_service s else ret tt.

(** ** The callbacks *)

(** Sixteen bits, the other way round. *)
Definition ntohs (port : Z) : Z := (Z.land port 255 * 256 + Z.shiftr port 8)%Z.

Definition Connect (port : Z) (address : option mdns_address) : M W unit :=
  let* a := deref address in
  let connect (ip : option bytes) (before after : string) : M W unit :=
    match ip with
    | None => ret tt
    | Some ip_addr => let* _ := connect_device (str before ++ c_str ip_addr ++ str after ++ dec port) in ret tt
    end in
  match a with
  | InetAddress ip => connect ip "" ":"
  | Inet6Address ip => connect ip "[" "]:"
  | OtherAddress => ret tt
  end.

(** The name of the object is not of this function's type if it is the other
    kind. *)
Definition service_port (x : mdns_service) : M W Z :=
  match sv_what x with ResolvedService _ port => ret port | DiscoveredService _ => crash "a DiscoveredService used as a ResolvedService" end.
Definition service_name (x : mdns_service) : M W bytes :=
  match sv_what x with DiscoveredService name => ret name | ResolvedService _ _ => crash "a ResolvedService used as a DiscoveredService" end.

(** The error is not looked at. *)
Definition register_service_ip (address : option mdns_address) (context : loc) : M W unit :=
  let* x := load_service context in
  let* port := service_port x in
  Connect port address ;;;
  delete_service context.

Definition register_resolved_mdns_service (flags interfaceIndex errorCode : Z) (hosttarget : bytes) (port : Z) (context : loc) : M W unit :=
  if negb (errorCode =? 0)%Z then delete_service context else
  let* x := load_service context in
  let* name := service_name x in
  let* resolved := new_ResolvedService (c_str name) interfaceIndex hosttarget (ntohs port) in
  keep_if_initialized resolved ;;;
  if negb (flags =? 0)%Z then ret tt else delete_service context.

Definition register_mdns_transport (sdRef interfaceIndex errorCode : Z) (serviceName regtype domain : bytes) : M W unit :=
  if negb (errorCode =? 0)%Z then
    on_env (modify (ds_deallocate sdRef)) ;;;
    let* w := get in
    on_fds (fdevent_remove (md_service_ref_fde (mdns_of (w_env w))))
  else
    let* discovered := new_DiscoveredService interfaceIndex serviceName regtype domain in
    keep_if_initialized discovered.

Definition call_back (reply : mdns_reply) : M W unit :=
  match reply with
  | Browsed sdRef interfaceIndex errorCode serviceName regtype domain => register_mdns_transport sdRef interfaceIndex errorCode serviceName regtype domain
  | Resolved flags interfaceIndex errorCode hosttarget port context => register_resolved_mdns_service flags interfaceIndex errorCode hosttarget port context
  | GotAddress _ address context => register_service_ip address context
  end.

(** [DNSServiceProcessResult]: the replies there are. *)
Fixpoint process_result (fuel : nat) (ref : Z) : M W unit :=
  let* reply := lib_call (ds_next ref) in
  match reply with
  | None => ret tt
  | Some reply =>
      match fuel with
      | O => no_fuel
      | S f => call_back reply ;;; process_result f ref
      end
  end.

(** [data] is [&sdRef_] of an object, or [&service_ref]. *)
Definition pump_service_ref (fuel : nat) (ev : Z) (data : option loc) : M W unit :=
  if flag ev FDE_READ then
    let* ref := match data with
                | Some s => let* x := load_service s in member (sv_ref x)
                | None => let* w := get in member (md_service_ref (mdns_of (w_env w)))
                end in
    process_result fuel ref
  else ret tt.

(** ** Starting *)

(** The thread; what is left is for the main thread. *)
Definition init_mdns_transport_discovery_thread : M W unit :=
  let* r := lib_call (ds_browse kADBServiceType) in
  match r with
  | None => ret tt
  | Some r => upd_mdns (set_md_service_ref (Some r)) ;;; on_fds (fdevent_run_on_main_thread fn_mdns_install)
  end.

(** [fn_mdns_install]. *)
Definition install_service_ref : M W unit :=
  let* w := get in
  let* r := member (md_service_ref (mdns_of (w_env w))) in
  let l := md_service_ref_fde (mdns_of (w_env w)) in
  on_fds (fdevent_install l (ds_sock_fd r (w_env w)) (fn_pump_service_ref None)) ;;;
  on_fds (fdevent_set l FDE_READ).

End Mdns.

(** ** What is known about the objects *)

(** What a reference is for. *)
Variant mdns_request := Browsing | Resolving (context : loc) | Addressing (context : loc).

Definition request_of (what : mdns_what) (s : loc) : mdns_request :=
  match what with DiscoveredService _ => Resolving s | ResolvedService _ _ => Addressing s end.

(** A reply comes for a reference that was not given back, with its context. *)
Definition reply_live (live : gmap Z mdns_request) (reply : mdns_reply) : Prop :=
  match reply with
  | Browsed sdRef _ _ _ _ _ => live !! sdRef = Some Browsing
  | Resolved _ _ _ _ _ context => exists r, live !! r = Some (Resolving context)
  | GotAddress _ _ context => exists r, live !! r = Some (Addressing context)
  end.

(** [live]: the references that were not given back. *)
Class MdnsLaws (E : Type) `{Kernel E, Net E, Os E, MdnsState E, DnsSd E} (live : E -> gmap Z mdns_request) := {
  ml_of_put u (e : E) : mdns_of (put_mdns u e) = u;
  ml_live_put u (e : E) : live (put_mdns u e) = live e;
  ml_resolve i n t d s (e e' : E) x : ds_resolve i n t d s e = (x, e') -> mdns_of e' = mdns_of e /\
    match x with Some r => live e !! r = None /\ live e' = <[r := Resolving s]> (live e) | None => live e' = live e end;
  ml_addr_info i h s (e e' : E) x : ds_addr_info i h s e = (x, e') -> mdns_of e' = mdns_of e /\
    match x with Some r => live e !! r = None /\ live e' = <[r := Addressing s]> (live e) | None => live e' = live e end;
  ml_deallocate r (e : E) : mdns_of (ds_deallocate r e) = mdns_of e /\ live (ds_deallocate r e) = delete r (live e);
  ml_next r (e e' : E) x : ds_next r e = (x, e') -> mdns_of e' = mdns_of e /\ live e' = live e /\
    match x with Some reply => reply_live (live e) reply | None => True end;
  ml_connect h p (e : E) : exists x e', network_connect h p e = Done x e' /\ mdns_of e' = mdns_of e /\ live e' = live e;
  ml_nagle fd (e : E) : exists e', disable_tcp_nagle fd e = Done tt e' /\ mdns_of e' = mdns_of e /\ live e' = live e;
  ml_keepalive fd n (e : E) : mdns_of (set_tcp_keepalive fd n e) = mdns_of e /\ live (set_tcp_keepalive fd n e) = live e;
  ml_tmsg fd m (e e' : E) ok : tmsg_put fd m e = (ok, e') -> ok = true /\ mdns_of e' = mdns_of e /\ live e' = live e;
}.

Section MdnsProps.
Context {E : Type} {K : Kernel E} {B : Build} {PF : Platform} {LB : LibBase} {N : Net E} {OS : Os E} {MS : MdnsState E} {DS : DnsSd E}.
Context {live : E -> gmap Z mdns_request} {ML : MdnsLaws E live}.
Abbreviation W := (world E).

(** Crashes that are none of a freed object, nor of an object of another class. *)
Definition fair_crash (why : string) : Prop :=
  why <> DANGLING_SERVICE /\ why <> "dangling fdevent" /\
  why <> "a DiscoveredService used as a ResolvedService" /\ why <> "a ResolvedService used as a DiscoveredService".

Ltac fair := unfold fair_crash, DANGLING_SERVICE, UNWRITTEN_MEMBER; split_and!; discriminate.

Abbreviation mwp := (cwp False fair_crash).

(** *** Connecting *)

(** The objects that were there are as they were. *)
Record beyond (w w' : W) : Prop := {
  by_mdns : mdns_of (w_env w') = mdns_of (w_env w);
  by_live : live (w_env w') = live (w_env w);
  by_next : (w_next w <= w_next w')%positive;
  by_fdes l : (l < w_next w)%positive -> fdes (w_fds w') !! l = fdes (w_fds w) !! l;
}.

Lemma beyond_refl w : beyond w w.
Proof. split; try done; lia. Qed.
Lemma beyond_trans w1 w2 w3 : beyond w1 w2 -> beyond w2 w3 -> beyond w1 w3.
Proof.
  intros [A1 A2 A3 A4] [B1 B2 B3 B4]. split; [congruence..|lia|]. intros l Hl. rewrite B4 by lia. by apply A4.
Qed.

(** Calls that change none of it, or nothing but the environment. *)
Lemma beyond_same w w' : w_env w' = w_env w -> w_fds w' = w_fds w -> w_next w' = w_next w -> beyond w w'.
Proof. intros H1 H2 H3. split; rewrite ?H1, ?H2, ?H3; try done; lia. Qed.
Lemma beyond_env w e : mdns_of e = mdns_of (w_env w) -> live e = live (w_env w) -> beyond w (set_w_env e w).
Proof. intros H1 H2. split; cbn; try done; lia. Qed.

Definition aside {A} (m : M W A) : Prop := forall w, mwp m (fun _ w' => beyond w w') w.

Lemma aside_ret {A} (a : A) : aside (ret a).
Proof. intros w. apply cwp_ret, beyond_refl. Qed.
Lemma aside_bind {A C} (m : M W A) (f : A -> M W C) : aside m -> (forall a, aside (f a)) -> aside (bind m f).
Proof.
  intros Hm Hf w. apply cwp_bind. eapply cwp_mono; [apply Hm|]. intros a w1 H1. eapply cwp_mono; [apply Hf|]. intros c w2 H2. exact (beyond_trans _ _ _ H1 H2).
Qed.
Lemma aside_crash {A} why : fair_crash why -> aside (A := A) (crash why).
Proof. intros H w. exact H. Qed.
Lemma aside_get : aside get.
Proof. intros w. apply cwp_get, beyond_refl. Qed.
Lemma aside_modify f : (forall w, w_env (f w) = w_env w) -> (forall w, w_fds (f w) = w_fds w) -> (forall w, w_next (f w) = w_next w) -> aside (modify f).
Proof. intros H1 H2 H3 w. by apply cwp_modify, beyond_same. Qed.
Lemma aside_load_transport t : aside (load_transport t).
Proof. intros w. unfold cwp, load_transport. destruct (w_transports w !! t); [apply beyond_refl|fair]. Qed.
Lemma aside_upd_transport t f : aside (upd_transport t f).
Proof. apply aside_bind; [apply aside_load_transport|]. intros x. by apply aside_modify. Qed.
Lemma aside_find_serial serial l : aside (find_serial serial l).
Proof.
  induction l as [|t l IH]; cbn [find_serial]; [apply aside_ret|]. apply aside_bind; [apply aside_load_transport|]. intros x. case_bool_decide; [apply aside_ret|done].
Qed.
Lemma aside_register_transport t : aside (register_transport t).
Proof.
  intros w. apply cwp_bind, cwp_get, cwp_bind. unfold cwp at 1. destruct (tmsg_put _ _ _) as [ok e] eqn:Ht. apply ml_tmsg in Ht as (-> & ? & ?).
  by apply cwp_ret, beyond_env.
Qed.

Lemma mwp_aside {A} (m : M W A) w w1 : beyond w w1 -> aside m -> mwp m (fun _ w2 => beyond w w2) w1.
Proof. intros H Hm. eapply cwp_mono; [apply Hm|]. intros a w2 H2. exact (beyond_trans _ _ _ H H2). Qed.

(** A transport that was made on the way is taken away again. *)
Lemma beyond_delete_transport t w w1 : (w_next w <= t)%positive -> beyond w w1 -> mwp (delete_transport t) (fun _ w2 => beyond w w2) w1.
Proof.
  intros Ht [H1 H2 H3 H4]. apply cwp_bind, cwp_modify. unfold cwp. cbn. split; cbn; try done. intros l Hl. rewrite lookup_delete_ne by lia. by apply H4.
Qed.

Lemma aside_register_socket fd serial port : aside (register_socket_transport fd serial port false).
Proof.
  intros w. apply cwp_bind. unfold new_transport, alloc. apply cwp_bind, cwp_bind, cwp_get, cwp_bind, cwp_modify, cwp_ret, cwp_bind, cwp_modify, cwp_ret.
  set (w1 := set_w_transports _ _). assert (H1 : beyond w w1) by (split; cbn; try done; lia).
  assert (Ht : (w_next w <= w_next w)%positive) by lia. revert H1 Ht. generalize w1. generalize (w_next w) at 2 3 4 5 6 7 8. clear w1. intros t w1 H1 Ht.
  unfold init_socket_transport. rewrite andb_false_r. apply cwp_bind, cwp_bind. eapply cwp_mono; [apply (mwp_aside _ w); [done|apply aside_upd_transport]|]. intros [] w2 H2.
  apply cwp_ret. cbn [negb]. apply cwp_bind, cwp_get.
  assert (Hdel : forall w', beyond w w' -> mwp (delete_transport t ;;; ret false) (fun _ w2 => beyond w w2) w').
  { intros w' H'. apply cwp_bind. eapply cwp_mono; [by apply beyond_delete_transport|]. intros [] w3 H3. by apply cwp_ret. }
  apply cwp_bind. eapply cwp_mono; [apply (mwp_aside _ w); [done|apply aside_find_serial]|]. intros [q|] w3 H3; [by apply Hdel|].
  apply cwp_bind. eapply cwp_mono; [apply (mwp_aside _ w); [done|apply aside_find_serial]|]. intros [q|] w4 H4; [by apply Hdel|].
  apply (mwp_aside _ w); [done|]. apply aside_bind; [by apply aside_modify|]. intros _. apply aside_bind; [apply aside_upd_transport|]. intros _.
  apply aside_bind; [apply aside_register_transport|]. intros _. apply aside_ret.
Qed.

Lemma aside_on_env {A} (m : M E A) : (forall e, exists a e', m e = Done a e' /\ mdns_of e' = mdns_of e /\ live e' = live e) -> aside (on_env m).
Proof. intros H w. destruct (H (w_env w)) as (a & e' & He & H1 & H2). unfold cwp, on_env. rewrite He. by apply beyond_env. Qed.

Lemma aside_connect_device address : aside (connect_device address).
Proof.
  unfold connect_device. case_bool_decide; [apply aside_ret|]. destruct (ParseNetAddress address) as [?|[host port]]; [apply aside_ret|].
  apply aside_bind; [apply aside_on_env; intros e; apply ml_connect|]. intros [fd error]. case_match; [apply aside_ret|].
  apply aside_bind; [apply aside_on_env; intros e; destruct (ml_nagle fd e) as (e' & ?); by exists tt, e'|]. intros _.
  apply aside_bind; [apply aside_on_env; intros e; exists tt; eexists; split; [done|apply ml_keepalive]|]. intros _.
  apply aside_bind; [apply aside_register_socket|]. intros [|]; [apply aside_ret|]. apply aside_bind; [|intros _; apply aside_ret].
  intros w. unfold cwp, adb_close, on_fds, modify. split; cbn; try done; lia.
Qed.

Lemma aside_Connect port address : aside (Connect port address).
Proof.
  apply aside_bind; [destruct address; [apply aside_ret|apply aside_crash; fair]|]. intros a.
  assert (Hc : forall ip before after, aside (match ip with
      | None => ret tt
      | Some ip_addr => let* _ := connect_device (str before ++ c_str ip_addr ++ str after ++ dec port) in ret tt
      end)).
  { intros [ip|] before after; [|apply aside_ret]. apply aside_bind; [apply aside_connect_device|]. intros _. apply aside_ret. }
  destruct a; [apply Hc|apply Hc|apply aside_ret].
Qed.

(** *** The objects *)

(** Every object is initialised and is the context of its own reference, and
    every context is such an object; each has its event object, as has
    [service_ref]. *)
Record mdns_ok (w : W) : Prop := {
  mk_service s x : services w !! s = Some x -> exists r, x = {| sv_initialized := Some true; sv_ref := Some r; sv_what := sv_what x |} /\
    live (w_env w) !! r = Some (request_of (sv_what x) s);
  mk_context r s : live (w_env w) !! r = Some (Resolving s) \/ live (w_env w) !! r = Some (Addressing s) ->
    exists x, services w !! s = Some x /\ sv_ref x = Some r /\ live (w_env w) !! r = Some (request_of (sv_what x) s);
  mk_fde s : is_Some (services w !! s) -> s ∈ dom (fdes (w_fds w));
  mk_fresh s : is_Some (services w !! s) -> (s < w_next w)%positive;
  mk_browse r : live (w_env w) !! r = Some Browsing -> md_service_ref_fde (mdns_of (w_env w)) ∈ dom (fdes (w_fds w));
  mk_static : services w !! md_service_ref_fde (mdns_of (w_env w)) = None;
  mk_static_fresh : (md_service_ref_fde (mdns_of (w_env w)) < w_next w)%positive;
}.

Lemma beyond_dom w w' s : beyond w w' -> (s < w_next w)%positive -> s ∈ dom (fdes (w_fds w)) -> s ∈ dom (fdes (w_fds w')).
Proof. intros H Hs. rewrite !elem_of_dom, (by_fdes _ _ H) by done. done. Qed.

Lemma beyond_services w w' : beyond w w' -> services w' = services w.
Proof. intros H. unfold services. by rewrite (by_mdns _ _ H). Qed.

Lemma beyond_ok w w' : beyond w w' -> mdns_ok w -> mdns_ok w'.
Proof.
  intros Hb [H1 H2 H3 H4 H5 H6 H7]. pose proof (beyond_services _ _ Hb) as Hs. pose proof Hb as [B1 B2 B3 _].
  split; rewrite ?Hs, ?B1, ?B2.
  - apply H1.
  - apply H2.
  - intros s Hx. apply (beyond_dom w); auto.
  - intros s Hx%H4. lia.
  - intros r Hr. apply (beyond_dom w); eauto.
  - done.
  - lia.
Qed.

(** *** Event objects *)

Lemma mwp_crash {S A} why (Q : A -> S -> Prop) s : fair_crash why -> mwp (crash why) Q s.
Proof. done. Qed.

Lemma mwp_on_fds {A} (m : M (fdstate fd_func) A) (Q : A -> W -> Prop) (w : W) :
  mwp m (fun a st => Q a (set_w_fds st w)) (w_fds w) -> mwp (on_fds m) Q w.
Proof. unfold cwp, on_fds. by destruct (m (w_fds w)). Qed.

Lemma mwp_load l st (Q : fdevent fd_func -> fdstate fd_func -> Prop) : l ∈ dom (fdes st) -> (forall e, Q e st) -> mwp (FdEvent.load l) Q st.
Proof. intros [e He]%elem_of_dom HQ. unfold cwp, FdEvent.load. by rewrite He. Qed.

(** The set of objects does not change. *)
Definition same_dom (st st' : fdstate fd_func) : Prop := dom (fdes st') = dom (fdes st).

Lemma dom_store l e (st : fdstate fd_func) : l ∈ dom (fdes st) -> dom (<[l := e]> (fdes st)) = dom (fdes st).
Proof. intros H. rewrite dom_insert_L. set_solver. Qed.

Lemma mwp_store l e st (Q : unit -> fdstate fd_func -> Prop) : l ∈ dom (fdes st) ->
  (forall st', same_dom st st' -> Q tt st') -> mwp (store l e) Q st.
Proof. intros H HQ. apply cwp_modify, HQ. unfold same_dom. by apply dom_store. Qed.

Lemma fd_remove_dom l (st : fdstate fd_func) : l ∈ dom (fdes st) -> mwp (fdevent_remove l) (fun _ st' => same_dom st st') st.
Proof.
  intros Hl. apply cwp_bind, mwp_load; [done|]. intros e. apply cwp_when; [|done]. intros _. apply cwp_bind, cwp_modify, cwp_bind.
  eapply (cwp_mono _ _ _ (fun _ st' => same_dom st st')); [apply cwp_when; [|done]; intros _; by apply cwp_modify|].
  intros [] st1 H1. assert (Hl1 : l ∈ dom (fdes st1)) by by rewrite H1.
  case_match; [apply cwp_bind, cwp_modify|]; (apply mwp_store; [exact Hl1|]; intros st2 H2; unfold same_dom in *; cbn in H2; congruence).
Qed.

Lemma fd_set_dom l ev (st : fdstate fd_func) : l ∈ dom (fdes st) -> mwp (fdevent_set l ev) (fun _ st' => same_dom st st') st.
Proof.
  intros Hl. apply cwp_bind, mwp_load; [done|]. intros e. case_match; [by apply cwp_ret|]. apply cwp_bind, cwp_check; [intros _; fair|]. intros _.
  apply cwp_bind. eapply (cwp_mono _ _ _ (fun _ st' => same_dom st st')).
  - apply cwp_bind, mwp_load; [done|]. intros e1. apply cwp_bind, cwp_get. case_match; [|apply mwp_crash; fair]. apply cwp_bind, cwp_modify. by apply mwp_store.
  - intros [] st1 H1. assert (Hl1 : l ∈ dom (fdes st1)) by by rewrite H1. apply cwp_bind, mwp_load; [done|]. intros e1. apply cwp_when; [|done]. intros _.
    cbv zeta. case_match; [apply cwp_bind, cwp_modify|]; (apply mwp_store; [exact Hl1|]; intros st2 H2; unfold same_dom in *; cbn in H2; congruence).
Qed.

Lemma fd_install_dom l fd func (st : fdstate fd_func) : mwp (fdevent_install l fd func) (fun _ st' => dom (fdes st') = {[l]} ∪ dom (fdes st)) st.
Proof.
  apply cwp_bind, cwp_check; [intros _; fair|]. intros _. apply cwp_bind, cwp_modify, cwp_bind, cwp_get. case_match; [apply mwp_crash; fair|].
  apply cwp_modify. cbn. apply dom_insert_L.
Qed.

(** *** Deleting an object, and making one *)

Lemma mwp_load_service s x w (Q : mdns_service -> W -> Prop) : services w !! s = Some x -> Q x w -> mwp (load_service s) Q w.
Proof. intros Hx HQ. unfold cwp, load_service. by rewrite Hx. Qed.

Lemma mwp_Initialized s x w (Q : bool -> W -> Prop) : services w !! s = Some x -> (forall b, sv_initialized x = Some b -> Q b w) ->
  mwp (Initialized s) Q w.
Proof.
  intros Hx HQ. apply cwp_bind, (mwp_load_service s x); [done|]. destruct (sv_initialized x); [by apply HQ|apply mwp_crash; fair].
Qed.

Lemma services_put f e w : services (set_w_env (put_mdns (f (mdns_of e)) e) w) = md_services (f (mdns_of e)).
Proof. unfold services. cbn. by rewrite ml_of_put. Qed.

Lemma mwp_upd_mdns f (Q : unit -> W -> Prop) w : Q tt (set_w_env (put_mdns (f (mdns_of (w_env w))) (w_env w)) w) -> mwp (upd_mdns f) Q w.
Proof. done. Qed.

Lemma delete_service_ok s x w : mdns_ok w -> services w !! s = Some x ->
  mwp (delete_service s) (fun _ w' => mdns_ok w') w.
Proof.
  intros Hok Hx. destruct (mk_service _ Hok _ _ Hx) as (r & Hxr & Hr). apply cwp_bind, (mwp_Initialized s x); [done|].
  intros b Hb. rewrite Hxr in Hb. injection Hb as <-. apply cwp_bind, cwp_bind, (mwp_load_service s x); [done|].
  apply cwp_bind. rewrite Hxr. apply cwp_ret, cwp_bind. unfold cwp at 1. cbn.
  destruct (ml_deallocate r (w_env w)) as [D1 D2]. apply mwp_on_fds. eapply cwp_mono; [apply fd_remove_dom; by apply (mk_fde _ Hok)|]. intros [] st Hst.
  apply cwp_bind, mwp_upd_mdns. cbn. rewrite D1. unfold cwp, on_fds, fdevent_free, modify. cbn.
  destruct Hok as [H1 H2 H3 H4 H5 H6 H7]. unfold same_dom in Hst.
  assert (Hsv : forall e w0, services (set_w_env (put_mdns (set_md_services (delete s (md_services (mdns_of (w_env w)))) (mdns_of (w_env w))) e) w0) = delete s (services w))
    by (intros e w0; unfold services; cbn; by rewrite ml_of_put).
  split; unfold services; cbn; rewrite ?ml_of_put, ?ml_live_put, ?D2; cbn; fold (services w).
  - intros s' x' [Hne Hx']%lookup_delete_Some. destruct (H1 _ _ Hx') as (r' & Hxr' & Hr'). exists r'. split; [done|].
    rewrite lookup_delete_ne; [done|]. intros ->. rewrite Hr in Hr'. injection Hr' as Hq. apply Hne.
    destruct (sv_what x), (sv_what x'); cbn in Hq; congruence.
  - intros r' s' Hq. assert (Hq' : r <> r' /\ (live (w_env w) !! r' = Some (Resolving s') \/ live (w_env w) !! r' = Some (Addressing s'))).
    { rewrite !lookup_delete_Some in Hq. naive_solver. }
    destruct Hq' as [Hne (x' & Hx' & Hxr' & Hr')%H2]. exists x'. rewrite (lookup_delete_ne (live (w_env w))) by done. split; [|done].
    rewrite lookup_delete_ne; [done|]. intros ->. rewrite Hx in Hx'. injection Hx' as <-. rewrite Hxr in Hxr'. cbn in Hxr'. congruence.
  - intros s' [x' [Hne Hx']%lookup_delete_Some]. rewrite dom_delete_L, Hst. apply elem_of_difference. split; [apply H3; by eexists|set_solver].
  - intros s' [x' [Hne Hx']%lookup_delete_Some]. apply H4. by eexists.
  - intros r' [Hne Hr']%lookup_delete_Some. rewrite dom_delete_L, Hst. apply elem_of_difference. split; [by eapply H5|].
    rewrite elem_of_singleton. intros Heq. rewrite Heq in H6. congruence.
  - rewrite lookup_delete_None. by right.
  - done.
Qed.

(** After a constructor: it may have failed; otherwise the new object is like
    the others, which are as they were. *)
Definition added (w : W) (s : loc) (w' : W) : Prop :=
  (exists x, services w' !! s = Some x /\ sv_initialized x = None) \/
  (mdns_ok w' /\ (exists x, services w' !! s = Some x /\ sv_initialized x = Some true) /\
   forall s' x', services w !! s' = Some x' -> services w' !! s' = Some x').

Lemma new_service_adds what request w : mdns_ok w ->
  (forall s (e e' : E) x, request s e = (x, e') -> mdns_of e' = mdns_of e /\
    match x with Some r => live e !! r = None /\ live e' = <[r := request_of what s]> (live e) | None => live e' = live e end) ->
  mwp (new_service what request) (fun s w' => added w s w') w.
Proof.
  intros Hok Hreq. apply cwp_bind, cwp_bind, cwp_get, cwp_bind, cwp_modify, cwp_ret, cwp_bind, mwp_upd_mdns. cbn.
  set (s := w_next w). set (x0 := {| sv_initialized := None; sv_ref := None; sv_what := what |}). set (w1 := set_w_env _ _).
  assert (Hnone : services w !! s = None).
  { destruct (services w !! s) eqn:He; [|done]. pose proof (mk_fresh _ Hok s (mk_is_Some _ _ He)). unfold s in *. lia. }
  assert (Hs1 : services w1 = <[s := x0]> (services w)) by (unfold services, w1; cbn; by rewrite ml_of_put).
  assert (Hm1 : mdns_of (w_env w1) = set_md_services (<[s := x0]> (services w)) (mdns_of (w_env w))) by (unfold w1; cbn; by rewrite ml_of_put).
  assert (Hl1 : live (w_env w1) = live (w_env w)) by (unfold w1; cbn; by rewrite ml_live_put).
  assert (Hn1 : w_next w1 = Pos.succ (w_next w)) by done. assert (Hf1 : w_fds w1 = w_fds w) by done. clearbody w1.
  apply cwp_bind. unfold cwp at 1, lib_call, on_env, usb_call. destruct (request s (w_env w1)) as [x e1] eqn:He1. apply Hreq in He1 as [M1 L1].
  destruct x as [r|].
  2:{ apply cwp_ret. left. exists x0. unfold services. cbn. rewrite M1, Hm1. cbn. by rewrite lookup_insert_eq. }
  destruct L1 as [Hr L1]. apply cwp_bind, mwp_upd_mdns. set (x1 := {| sv_initialized := None; sv_ref := Some r; sv_what := what |}). cbn. rewrite M1, Hm1. cbn.
  rewrite insert_insert_eq. set (w2 := set_w_env _ _).
  assert (Hm2 : mdns_of (w_env w2) = set_md_services (<[s := x1]> (services w)) (mdns_of (w_env w))) by (unfold w2; cbn; by rewrite ml_of_put).
  assert (Hl2 : live (w_env w2) = <[r := request_of what s]> (live (w_env w))) by (unfold w2; cbn; by rewrite ml_live_put, L1, Hl1).
  assert (Hn2 : w_next w2 = Pos.succ (w_next w)) by done. assert (Hf2 : w_fds w2 = w_fds w) by done. rewrite Hl1 in Hr. clearbody w2.
  assert (Hs2 : services w2 = <[s := x1]> (services w)) by (unfold services at 1; by rewrite Hm2).
  apply cwp_bind, cwp_bind, (mwp_load_service s x1); [rewrite Hs2; apply lookup_insert_eq|]. apply cwp_bind, cwp_ret, cwp_bind, cwp_gets.
  apply cwp_bind, mwp_on_fds. eapply cwp_mono; [apply fd_install_dom|]. intros [] st1 F1. cbn.
  apply cwp_bind, mwp_on_fds. cbn. eapply cwp_mono; [apply fd_set_dom; rewrite F1; set_solver|]. intros [] st2 F2.
  apply cwp_bind, (mwp_load_service s x1); [unfold services; cbn; fold (services w2); rewrite Hs2; apply lookup_insert_eq|].
  apply mwp_upd_mdns. cbn. rewrite Hm2. cbn. rewrite insert_insert_eq. set (x2 := {| sv_initialized := Some true; sv_ref := Some r; sv_what := what |}).
  right. set (w3 := set_w_env _ _).
  assert (Hm3 : mdns_of (w_env w3) = set_md_services (<[s := x2]> (services w)) (mdns_of (w_env w))) by (unfold w3; cbn; by rewrite ml_of_put).
  assert (Hl3 : live (w_env w3) = <[r := request_of what s]> (live (w_env w))) by (unfold w3; cbn; by rewrite ml_live_put).
  assert (Hn3 : w_next w3 = Pos.succ (w_next w)) by done.
  assert (Hf3 : dom (fdes (w_fds w3)) = {[s]} ∪ dom (fdes (w_fds w))) by (unfold w3; cbn; by rewrite F2, F1, Hf2). clearbody w3.
  assert (Hs3 : services w3 = <[s := x2]> (services w)) by (unfold services at 1; by rewrite Hm3).
  split; [|split].
  - destruct Hok as [H1 H2 H3 H4 H5 H6 H7]. split; rewrite ?Hs3, ?Hl3, ?Hm3, ?Hf3, ?Hn3; cbn.
    + intros s' x' [[<- <-]|[Hne Hx']]%lookup_insert_Some; [exists r; split; [done|apply lookup_insert_eq]|].
      destruct (H1 _ _ Hx') as (r' & Hxr' & Hr'). exists r'. split; [done|]. rewrite lookup_insert_ne; [done|]. intros ->. congruence.
    + intros r' s' Hq. destruct (decide (r = r')) as [<-|Hne].
      * rewrite lookup_insert_eq in *. exists x2. assert (s' = s) as -> by (destruct what; cbn in Hq; destruct Hq; congruence).
        by rewrite lookup_insert_eq.
      * rewrite lookup_insert_ne in * by done. destruct (H2 _ _ Hq) as (x' & Hx' & Hrest). exists x'.
        rewrite (lookup_insert_ne (live (w_env w))) by done. rewrite lookup_insert_ne; [done|]. intros <-. congruence.
    + intros s' Hx'. destruct (decide (s = s')) as [<-|Hne]; [set_solver|]. rewrite lookup_insert_ne in Hx' by done. apply H3 in Hx'. set_solver.
    + intros s' Hx'. destruct (decide (s = s')) as [<-|Hne]; [unfold s; lia|]. rewrite lookup_insert_ne in Hx' by done. apply H4 in Hx'. lia.
    + intros r' Hr'. destruct (decide (r = r')) as [<-|Hne]; [rewrite lookup_insert_eq in Hr'; by destruct what|].
      rewrite lookup_insert_ne in Hr' by done. apply H5 in Hr'. set_solver.
    + rewrite lookup_insert_ne; [done|]. unfold s. intros Heq. rewrite <- Heq in H7. lia.
    + lia.
  - exists x2. by rewrite Hs3, lookup_insert_eq.
  - intros s' x' Hx'. rewrite Hs3, lookup_insert_ne; [done|]. intros <-. congruence.
Qed.

(** An object without a reference is not deleted in any defined way; the others
    stay. *)
Lemma keep_if_initialized_ok w s w1 : added w s w1 ->
  mwp (keep_if_initialized s) (fun _ w' => mdns_ok w' /\ forall s' x', services w !! s' = Some x' -> services w' !! s' = Some x') w1.
Proof.
  intros [(x & Hx & Hn)|(Hok & (x & Hx & Hi) & Hkeep)]; apply cwp_bind, (mwp_Initialized s x); try done; intros b Hb; [congruence|].
  rewrite Hi in Hb. injection Hb as <-. by apply cwp_ret.
Qed.

(** C28: A reply of the library about devices on the network, whatever it is and
    in whatever state of the objects, is handled without touching a freed
    object or taking one for another: if all objects were initialised and were
    the contexts of their own requests, they are so afterwards.  What may still
    go wrong is that a member is read that was never written, or that an
    address is NULL. *)
Theorem mdns_reply_safe reply w : mdns_ok w -> reply_live (live (w_env w)) reply ->
  cwp False fair_crash (call_back reply) (fun _ w' => mdns_ok w') w.
Proof.
  intros Hok Hlive. destruct reply as [sdRef i err name type dom_ |flags i err host port context|err address context]; cbn [call_back].
  - unfold register_mdns_transport. destruct (err =? 0)%Z; cbn [negb].
    + apply cwp_bind. eapply cwp_mono; [apply new_service_adds; [done|]; intros s e e' x; apply ml_resolve|]. intros s w1 H1.
      eapply cwp_mono; [by eapply keep_if_initialized_ok|]. by intros [] w2 [H2 _].
    + destruct (ml_deallocate sdRef (w_env w)) as [D1 D2]. apply cwp_bind. unfold cwp at 1. cbn. apply cwp_bind, cwp_get. cbn. rewrite D1.
      apply mwp_on_fds. cbn. eapply cwp_mono; [apply fd_remove_dom, (mk_browse _ Hok _ Hlive)|]. intros [] st Hst. unfold same_dom in Hst.
      destruct Hok as [H1 H2 H3 H4 H5 H6 H7]. cbn in Hlive. split; unfold services; cbn; rewrite ?D1, ?D2, ?Hst; fold (services w); try done.
      * intros s x Hx. destruct (H1 _ _ Hx) as (r & Hxr & Hr). exists r. split; [done|]. rewrite lookup_delete_ne; [done|]. intros <-.
        rewrite Hlive in Hr. by destruct (sv_what x).
      * intros r s Hq. assert (Hq' : sdRef <> r /\ (live (w_env w) !! r = Some (Resolving s) \/ live (w_env w) !! r = Some (Addressing s))).
        { rewrite !lookup_delete_Some in Hq. naive_solver. }
        destruct Hq' as [Hne Hq']. destruct (H2 _ _ Hq') as (x & Hx & Hxr & Hr). exists x. by rewrite lookup_delete_ne.
      * intros r [_ Hr]%lookup_delete_Some. by eapply H5.
  - destruct Hlive as [r Hr]. destruct (mk_context _ Hok r context (or_introl Hr)) as (x & Hx & _ & Hq). rewrite Hr in Hq.
    unfold register_resolved_mdns_service. case_match; [by eapply delete_service_ok|].
    apply cwp_bind, (mwp_load_service context x); [done|]. apply cwp_bind. unfold service_name. destruct (sv_what x); [|done]. apply cwp_ret.
    apply cwp_bind. eapply cwp_mono; [apply new_service_adds; [done|]; intros s e e' y; apply ml_addr_info|]. intros s w1 H1.
    apply cwp_bind. eapply cwp_mono; [by eapply keep_if_initialized_ok|]. intros [] w2 [H2 Hkeep].
    case_match; [by apply cwp_ret|]. by eapply delete_service_ok; [|apply Hkeep].
  - destruct Hlive as [r Hr]. destruct (mk_context _ Hok r context (or_intror Hr)) as (x & Hx & _ & Hq). rewrite Hr in Hq.
    apply cwp_bind, (mwp_load_service context x); [done|]. apply cwp_bind. unfold service_port. destruct (sv_what x); [done|]. apply cwp_ret.
    apply cwp_bind. eapply cwp_mono; [apply aside_Connect|]. intros [] w1 H1.
    eapply delete_service_ok; [by eapply beyond_ok|]. rewrite (beyond_services _ _ H1). exact Hx.
Qed.

(** So are all that come at once. *)
Lemma process_result_safe fuel ref w : mdns_ok w -> cwp True fair_crash (process_result fuel ref) (fun _ w' => mdns_ok w') w.
Proof.
  revert w. induction fuel as [|f IH]; intros w Hok; cbn [process_result]; apply cwp_bind; unfold cwp at 1, lib_call, on_env, usb_call;
    destruct (ds_next ref (w_env w)) as [x e] eqn:He; apply ml_next in He as (M1 & L1 & Hlive);
    assert (Hok1 : mdns_ok (set_w_env e w)) by (apply (beyond_ok w); [by apply beyond_env|done]); destruct x as [reply|]; [done|by apply cwp_ret| |by apply cwp_ret].
  apply cwp_bind. eapply cwp_mono; [apply cwp_weaken, mdns_reply_safe; [done|cbn; by rewrite L1]|]. intros [] w1 H1. by apply IH.
Qed.

End MdnsProps.

(** ** A network with one device *)

(** [nw_replies]: what the library has, with the reference it is for;
    [nw_refuses]: whether requests fail; [nw_closed]: descriptors the library
    has closed. *)
Record network := {
  nw_mdns : mdns_state;
  nw_live : gmap Z mdns_request;
  nw_next : Z;
  nw_replies : list (Z * mdns_reply);
  nw_refuses : bool;
  nw_closed : list Z;
  nw_connected : list (bytes * Z);
}.

Definition set_nw (u : mdns_state) (l : gmap Z mdns_request) (n : Z) (e : network) : network :=
  {| nw_mdns := u; nw_live := l; nw_next := n; nw_replies := nw_replies e; nw_refuses := nw_refuses e; nw_closed := nw_closed e;
     nw_connected := nw_connected e |}.
Definition set_nw_replies (l : list (Z * mdns_reply)) (e : network) : network :=
  {| nw_mdns := nw_mdns e; nw_live := nw_live e; nw_next := nw_next e; nw_replies := l; nw_refuses := nw_refuses e; nw_closed := nw_closed e;
     nw_connected := nw_connected e |}.

Definition ref_fd (r : Z) : Z := (100 + r)%Z.

(** A request has a reference of its own. *)
Definition nw_request (q : mdns_request) (e : network) : option Z * network :=
  if nw_refuses e || bool_decide (is_Some (nw_live e !! nw_next e)) then (None, e)
  else (Some (nw_next e), set_nw (nw_mdns e) (<[nw_next e := q]> (nw_live e)) (nw_next e + 1) e).

Definition reply_of (r : Z) (live : gmap Z mdns_request) (reply : mdns_reply) : Prop :=
  match reply with
  | Browsed sdRef _ _ _ _ _ => sdRef = r /\ live !! r = Some Browsing
  | Resolved _ _ _ _ _ context => live !! r = Some (Resolving context)
  | GotAddress _ _ context => live !! r = Some (Addressing context)
  end.

#[export] Instance mdns_request_eq_dec : EqDecision mdns_request.
Proof. solve_decision. Defined.
#[export] Instance reply_of_dec r live reply : Decision (reply_of r live reply).
Proof. destruct reply; cbn; apply _. Defined.

#[export] Instance nw_fd_ops : FdOps network := {
  adb_read _ _ e := (RdOk [], e);
  adb_write _ bs e := (WrOk (Zlen bs), e);
  adb_shutdown _ e := e;
  strerror _ := str "error";
}.
#[export] Instance nw_kernel : Kernel network := { refusals _ _ := 0; pipe_put _ _ e := (true, e); pipe_get _ e := (None, e) }.
#[export] Instance nw_os : Os network := {
  adb_socketpair e := (None, e);
  start_thread _ e := e;
  tmsg_put _ _ e := (true, e);
  tmsg_get _ e := (None, e);
  usb_kick _ e := e;
  usb_close _ e := e;
  notify_init_cv e := e;
  getenv _ := None;
  canonical_address host port := host ++ str ":" ++ dec port;
  set_tcp_keepalive _ _ e := e;
}.
#[export] Instance nw_net : Net network := {
  network_loopback_client _ := ret ((-1)%Z, str "refused");
  network_loopback_server _ := ret ((-1)%Z, str "refused");
  network_inaddr_any_server _ := ret ((-1)%Z, str "refused");
  network_connect host port := fun e =>
    Done (7%Z, []) {| nw_mdns := nw_mdns e; nw_live := nw_live e; nw_next := nw_next e; nw_replies := nw_replies e; nw_refuses := nw_refuses e;
                      nw_closed := nw_closed e; nw_connected := (host, port) :: nw_connected e |};
  network_local_client _ _ := ret ((-1)%Z, str "refused");
  network_local_server _ _ := ret ((-1)%Z, str "refused");
  adb_socket_get_local_port _ := ret 0%Z;
  disable_tcp_nagle _ := ret tt;
  adb_socket_accept _ := ret (-1)%Z;
}.
#[export] Instance nw_mdns_state : MdnsState network := {
  mdns_of := nw_mdns;
  put_mdns u e := set_nw u (nw_live e) (nw_next e) e;
}.
#[export] Instance nw_dns_sd : DnsSd network := {
  ds_browse _ e := nw_request Browsing e;
  ds_resolve _ _ _ _ s e := nw_request (Resolving s) e;
  ds_addr_info _ _ s e := nw_request (Addressing s) e;
  ds_sock_fd r _ := ref_fd r;
  ds_deallocate r e :=
    {| nw_mdns := nw_mdns e; nw_live := delete r (nw_live e); nw_next := nw_next e; nw_replies := nw_replies e; nw_refuses := nw_refuses e;
       nw_closed := ref_fd r :: nw_closed e; nw_connected := nw_connected e |};
  ds_next r e :=
    match nw_replies e with
    | (r', reply) :: rest =>
        if (r' =? r)%Z && bool_decide (reply_of r (nw_live e) reply) then (Some reply, set_nw_replies rest e) else (None, e)
    | [] => (None, e)
    end;
}.

Lemma nw_request_law q (e e' : network) x : nw_request q e = (x, e') -> nw_mdns e' = nw_mdns e /\
  match x with Some r => nw_live e !! r = None /\ nw_live e' = <[r := q]> (nw_live e) | None => nw_live e' = nw_live e end.
Proof.
  unfold nw_request. destruct (nw_refuses e); cbn [orb]; [by intros [= <- <-]|]. case_bool_decide as H; intros [= <- <-]; [done|].
  split; [done|]. split; [|done]. by apply eq_None_not_Some.
Qed.

#[export] Instance nw_laws : MdnsLaws network nw_live.
Proof.
  split; try done.
  - intros i n t d s. apply nw_request_law.
  - intros i h s. apply nw_request_law.
  - intros r e e' x. cbn. destruct (nw_replies e) as [|[r' reply] rest]; [by intros [= <- <-]|]. case_bool_decide as H; [|rewrite andb_false_r; by intros [= <- <-]].
    destruct (r' =? r)%Z; intros [= <- <-]; [|done]. split; [done|]. split; [done|]. destruct reply; cbn in *; [by destruct H as [-> H]|by exists r|by exists r].
  - intros h p e. by eexists _, _.
  - intros fd e. by exists e.
  - by intros fd m e e' ok [= <- <-].
Qed.

#[local] Instance nw_server : Build := server_build.
#[local] Instance nw_platform : Platform := {| ADB_LINUX := true; ADB_WINDOWS := false; gListenAll := false |}.

Definition a_network (refuses : bool) (replies : list (Z * mdns_reply)) : world network :=
  Demo.idle_world false [] ∅ {| nw_mdns := {| md_services := ∅; md_service_ref := None; md_service_ref_fde := 5 |}; nw_live := ∅; nw_next := 0;
                                nw_replies := replies; nw_refuses := refuses; nw_closed := []; nw_connected := [] |}.

Inductive mdns_outcome :=
| MdnsDone (connected : list (bytes * Z)) (objects : nat) (closed_by_library closed_by_loop : list Z)
| MdnsCrash (why : string)
| MdnsOther.

(** The browsing is started; the first object and then the second are at 10 and
    11. *)
Definition discover (refuses : bool) (replies : list (Z * mdns_reply)) : mdns_outcome :=
  match (init_mdns_transport_discovery_thread ;;; install_service_ref ;;;
         modify (fun w => set_w_env {| nw_mdns := nw_mdns (w_env w); nw_live := nw_live (w_env w); nw_next := nw_next (w_env w);
                                       nw_replies := nw_replies (w_env w); nw_refuses := refuses; nw_closed := []; nw_connected := [] |} w) ;;;
         pump_service_ref 5 FDE_READ None ;;; pump_service_ref 5 FDE_READ (Some 10%positive) ;;; pump_service_ref 5 FDE_READ (Some 11%positive))
        (a_network false replies) with
  | Done _ w => MdnsDone (nw_connected (w_env w)) (size (services w)) (nw_closed (w_env w)) (closed_fds (w_fds w))
  | Crash why => MdnsCrash why
  | _ => MdnsOther
  end.

Definition phone_browsed : mdns_reply := Browsed 0 1 0 (str "adb-ABC") (str "_adb._tcp") (str "local").
Definition phone_resolved : mdns_reply := Resolved 0 1 0 (str "phone.local") 0xb315 10.
Definition phone_address : mdns_reply := GotAddress 0 (Some (InetAddress (Some (str "192.168.0.5")))) 11.

(** A device is found and connected to; both objects are gone.  The library
    closes the descriptor of a reference that is given back, and the event loop
    closes it once more. *)
Example phone_on_network : discover false [(0%Z, phone_browsed); (1%Z, phone_resolved); (2%Z, phone_address)] =
  MdnsDone [(str "192.168.0.5", 5555%Z)] 0 [102%Z; 101%Z] [102%Z; 101%Z].
Proof. by vm_compute. Qed.

(** The request of the first object is refused. *)
Example phone_refused : discover true [(0%Z, phone_browsed)] = MdnsCrash UNWRITTEN_MEMBER.
Proof. by vm_compute. Qed.

(** The library reports an error instead of an address. *)
Example phone_without_address : discover false [(0%Z, phone_browsed); (1%Z, phone_resolved); (2%Z, GotAddress (-65538) None 11)] =
  MdnsCrash "null pointer".
Proof. by vm_compute. Qed.

(** One object that waits for an address. *)
Definition phone_object : mdns_service := {| sv_initialized := Some true; sv_ref := Some 1%Z; sv_what := ResolvedService (str "adb-ABC") 5555 |}.
Definition phone_waits : world network :=
  let w := Demo.idle_world false [] ∅ {| nw_mdns := {| md_services := {[ 7%positive := phone_object ]}; md_service_ref := None; md_service_ref_fde := 5 |};
                                         nw_live := {[ 1%Z := Addressing 7 ]}; nw_next := 2; nw_replies := []; nw_refuses := false; nw_closed := [];
                                         nw_connected := [] |} in
  match fdevent_install 7 101 (fn_pump_service_ref (Some 7%positive)) (w_fds w) with Done _ st => set_w_fds st w | _ => w end.
Definition phone_tells : mdns_reply := GotAddress 0 (Some (InetAddress (Some (str "192.168.0.5")))) 7.

Lemma phone_waits_ok : mdns_ok (live := nw_live) phone_waits.
Proof.
  assert (Hs : forall s x, services phone_waits !! s = Some x -> s = 7%positive /\ x = phone_object).
  { intros s x Hx. change (services phone_waits) with ({[ 7%positive := phone_object ]} : gmap loc mdns_service) in Hx. by apply lookup_singleton_Some in Hx as [<- <-]. }
  assert (Hl : forall r q, nw_live (w_env phone_waits) !! r = Some q -> r = 1%Z /\ q = Addressing 7).
  { intros r q Hq. change (nw_live (w_env phone_waits)) with ({[ 1%Z := Addressing 7 ]} : gmap Z mdns_request) in Hq. by apply lookup_singleton_Some in Hq as [<- <-]. }
  split.
  - intros s x [-> ->]%Hs. by exists 1%Z.
  - intros r s [[-> [=]]%Hl|[-> [= ->]]%Hl]. by exists phone_object.
  - intros s [x [-> _]%Hs]. apply elem_of_dom. by eexists.
  - intros s [x [-> _]%Hs]. done.
  - by intros r [_ [=]]%Hl.
  - done.
  - done.
Qed.

Lemma mdns_reply_safe_witness :
  cwp False fair_crash (call_back phone_tells) (fun _ w' => mdns_ok (live := nw_live) w') phone_waits.
Proof. exact (mdns_reply_safe (ML := nw_laws) phone_tells phone_waits phone_waits_ok (ex_intro _ 1%Z eq_refl)). Defined.
